(* ===== verification/_CoqProject ===== *)
-Q . S2P
Prelude.v
BytesCodec.v
MuxWindow.v
MuxEndpoint.v
MuxRelay.v
MuxFlow.v
PathFs.v
FsJob.v
FsSafe.v
FsSend.v
FsTransfer.v
FsTree.v
FsRecv.v
FsShare.v
FsWalk.v
FsNames.v
FsGuard.v
FsManage.v
FsConfirm.v
CmFs.v
CmTheorems.v
Float.v
VideoQos.v
VideoQosRun.v
AudioResample.v
AudioCapture.v
AudioQueue.v
AudioTheorems.v
AudioPlay.v
TermBuffer.v
TermService.v
TermFacts.v
TermRegistry.v
ClipDesc.v
ClipServe.v
ClipHost.v
ClipWalk.v
ClipLists.v
ClipFuse.v
ClipTree.v
ClipRead.v
ClipMount.v
ClipPaste.v
ClipTheorems.v
SessMsg.v
PeerFiles.v
PeerTheorems.v
LoginLockout.v
LoginThrottle.v
LoginId.v
LoginAdmit.v
LoginPassword.v
LoginState.v
LoginFlow.v
LoginSafety.v
LoginRun.v
LoginSeal.v
LoginStore.v
LoginPermanent.v
LoginAtRest.v
LoginPeer.v
LoginRemember.v
SessServer.v
SessPubSub.v
SessState.v
SessFlow.v
SessDispatch.v
SessMessage.v
SessFrame.v
SessReceive.v
SessPermit.v
SessOptions.v
SessRun.v
SessTheorems.v
Upload.v
UploadRecv.v
UploadPeer.v
UploadTheorems.v
