(* ===== verification/Prelude.v ===== *)
(** * Fontis Remote: verification library

    Fontis Remote is a remote-desktop program: a controlled side shares its screen, sound, files,
    clipboard, terminals and tunnels with controlling sides that log in.  This library models the
    core of the controlled side and the protocols the two sides run, in Gallina, and proves what
    they promise.  This file is the root: it holds the notation, integers, lists and tactics that
    the other files share.

    ** Parts, and how they interact

    A peer's connection is a stream of frames ([BytesCodec]).  A controlled side admits a bounded
    number of connections that have not logged in ([LoginAdmit]), throttles guesses by address and
    by credentials ([LoginThrottle], [LoginLockout]), and lets a connection in on an accepted
    password, a second factor, a click or a switch of sides ([LoginFlow]); from then on it is a
    session of one kind, whose messages are filtered by kind and handled under the permissions of
    the local user and the options of the peer ([SessMessage]).  A session subscribes to services
    that publish frames, sound, cursors and clipboards ([SessServer], [SessPubSub]), runs the jobs
    that read files ([FsSend]) while another process, the connection manager, runs the jobs that
    write them and the commands of the file manager ([CmFs]), drives persistent terminals
    ([TermService]) and the video quality controller ([VideoQos]), or is a tunnel that multiplexes
    TCP connections ([MuxEndpoint], [MuxRelay]). Files copied on one side are pasted on the other: a
    server of descriptions and blocks answers the messages of a connection ([ClipServe]), and the
    other side mounts them as a read-only file system whose reads become requests on that connection
    ([ClipFuse], [ClipMount], [ClipPaste]). The controlling side runs the other half of a transfer
    ([PeerFiles]); the controlling side, the session and the connection manager with the queues
    between them are one system ([Upload]). Captured sound is cut into packets, resampled and queued
    for an encoder ([AudioCapture], [AudioQueue]), and decoded sound is buffered and played
    ([AudioPlay]).

    ** Files and what they model

    - [BytesCodec]: [libs/hbb_common/src/bytes_codec.rs], the frame codec; [decode] and [encode].
    - [MuxWindow], [MuxEndpoint], [MuxRelay], [MuxFlow]: [src/port_forward_mux.rs] and
      [src/server/port_forward_mux.rs]; windows and credit, the two demultiplexers, the tasks of a
      channel, and one direction of a channel end to end as a step relation.
    - [PathFs], [FsJob], [FsSend], [FsWalk], [FsManage]: [libs/base/src/fs.rs]; paths and a
      POSIX-style file system, name validation and transfer jobs, reading, walking, and the
      commands on files and directories.  [FsTree] is a directory as a table of what lies below it,
      and the operations on it.  [FsSafe], [FsTransfer], [FsRecv], [FsShare], [FsNames], [FsGuard],
      [FsConfirm] are the lemmas and theorems on jobs: what names may reach, what one file and one
      transfer become, what a job may touch beside others, the overwrite handshake.
    - [CmFs], [CmTheorems]: the file half of [src/ui_cm_interface.rs], with every job it runs.
      [PeerFiles], [PeerTheorems]: the file half of [src/client/io_loop.rs].
    - [Upload]: the two and the session between them, with the messages each makes of the other's;
      [UploadRecv] an abstract machine of the receiving end and that the connection manager
      implements it, [UploadPeer] the stages of the sending end, [UploadTheorems] the system.
    - [Float]: [f32] as IEEE binary32.  [VideoQos], [VideoQosRun]: [src/server/video_qos.rs].
    - [AudioResample]: [src/audio_resampler.rs].  [AudioCapture], [AudioQueue]:
      [src/server/audio_service.rs] on Windows and macOS and the files under [audio_service/], the
      callback of a device and the two threads around the encoder's queue; [AudioTheorems] is
      their theorem.  [AudioPlay]: [AudioBuffer] of [src/client.rs] and
      [src/client/audio_playback.rs].
    - [TermBuffer], [TermService], [TermFacts], [TermRegistry]: [src/server/terminal_service.rs]
      on Unix; output buffers, the UTF-8 chunker, sessions, services, the registry.
    - [LoginLockout], [LoginThrottle], [LoginId], [LoginAdmit], [LoginPassword]: the parts of the
      login ([src/server/login_failure_check.rs], [src/server/connection.rs],
      [libs/hbb_common/src/config/permanent_password.rs], [.../password_security.rs]).
    - [LoginState], [LoginFlow], [LoginSafety], [LoginRun]: the login handlers of
      [src/server/connection.rs] over one state, what each does to the facts that matter, and
      runs of any messages with any activity of other connections in between.
    - [LoginSeal], [LoginStore]: what is encrypted on a machine and how
      ([libs/hbb_common/src/password_security.rs], [.../config/permanent_password.rs]), and the
      configuration with the permanent password, in memory and in its file
      ([libs/hbb_common/src/config.rs]); [LoginPermanent] and [LoginAtRest] are their theorems.
    - [LoginPeer], [LoginRemember]: the controlling side's half of a login, what it remembers of a
      peer and how it answers a challenge ([src/client.rs], [PeerConfig] of
      [libs/hbb_common/src/config.rs]), and its theorems.
    - [ClipDesc], [ClipServe], [ClipFuse], [ClipMount], [ClipPaste]: the file clipboard on Unix,
      [libs/clipboard/src/lib.rs], [platform/unix/{filetype,local_file,serv_files}.rs] and
      [fuse/{cs,mod}.rs] under it, and [src/clipboard_file.rs]; descriptors and their bytes, the
      files offered, the tree of the mount and its operations, the mount point and the context, and
      the messages between the two sides.  [ClipHost], [ClipWalk], [ClipLists], [ClipTree] and
      [ClipRead] are the lemmas on each, [ClipTheorems] the theorems with their examples.
    - [SessMsg], [SessState], [SessFlow], [SessDispatch], [SessMessage]: messages and their scope
      filter, the state of a session, permissions and options, displays, calls and files, and the
      event loop of [Connection::start] with [on_message].
    - [SessServer], [SessPubSub]: [src/server/service.rs] and [src/server.rs], services and
      subscriptions, and the private view one connection has of a service.
    - [SessFrame], [SessReceive], [SessPermit], [SessOptions], [SessRun], [SessTheorems]: the
      relations and invariants of sessions, the handlers' lemmas, runs, and the theorems.

    A Rust struct is a [Record] with the code's fields, an enum an [Inductive], a method a function
    that takes the state and returns it; [Result] is [result]; a lock is the atomicity of the
    function that holds it; a task is a machine whose states are its await points; clocks,
    configuration, the platform and the libraries are arguments.  Machine integers are [Z] with the
    code's wrapping, saturating or checked operations; a collection keyed by id is a [gmap].

    ** What the theorems show

    - Login: an authorized connection has shown credentials and has only the scope of its first
      request (LoginRun); wrong guesses are bounded by address (LoginThrottle) and by credential
      (LoginLockout); the ID whitelist accepts the language of its patterns (LoginId); memory for
      connections not logged in is bounded (LoginAdmit).  A permanent password once set is the one
      that logs in, through restarts and synchronisation (LoginPermanent), is never left in the
      file in plain text unless it looks sealed itself (LoginAtRest), and logs in again from a
      client that remembered it (LoginRemember).
    - Sessions: every effect is permitted by the kind, the permissions and the options of the
      moment, and before the login there are none but probes, what the local user asks for, and what
      a clipboard or cursor subscription sends; subscriptions follow permissions and options; with
      one-way transfer this side's files are neither sent nor published, and change by uploads only
      (SessTheorems); a service refines a machine of three states per connection (SessPubSub).
    - Streams and tunnels: framing is a round trip in any chunking and safe on hostile bytes
      (BytesCodec); a tunnel keeps byte streams intact, never overruns a window and never
      deadlocks (MuxFlow); it connects only to its target and survives hostile frames
      (MuxEndpoint); channels close once and can always be cancelled (MuxRelay).
    - Files: an upload through controlling side, session and connection manager ends, in any order
      of their moves, with every file at its target, a single file or a tree whose directories are
      made on the way, where the names are free and no read or write fails (UploadTheorems);
      whatever transfer commands and blocks come in any order, uploads and downloads touch only
      what their accepted file lists name, where no link bears a temporary name (CmTheorems,
      PeerTheorems); nothing is sent before the answer, whatever its form (FsConfirm); the removal
      of a directory removes exactly it, and listings show exactly what is there (FsManage).  That
      hostile names stay inside the directory (FsSafe), that a job's files arrive as they were
      (FsTransfer, FsRecv) and that the walk lists exactly the tree (FsWalk) are the lemmas under
      these, on the jobs alone.
    - Sound: resampling in pieces is resampling at once, to the last bit (AudioResample); captured
      packets reach the encoder in order or are counted, and its thread is never left asleep
      (AudioTheorems); on one or two channels what is played is what was decoded, in whole
      frames, with the specified fades where samples are missing (AudioPlay).
    - File clipboard: a pasted file reads as the file that was copied (a refinement of reading the
      file in place), the list of files survives its encoding, a hostile list gives a well-formed
      tree or an error, the walk over what was copied ends and lists it exactly, a handle of an
      older list is refused, and a read takes no answer but its own (ClipTheorems).
    - Quality control: no panic, rates and ratio in range, changes justified (VideoQosRun,
      VideoQos).
    - Terminals: polls deliver exactly what is due and take it, a reconnecting client sees over any
      number of polls a suffix of what the channel took, no child process is lost but where the
      theorem says so, redraws end (TermFacts, TermRegistry, TermBuffer).

    Examples beside the theorems record where the code does less than it means to.

    ** Fuel and bounds

    Recursion on data is structural.  Where the code loops on something else, fuel is a list of the
    outcomes still to come ([reads], events) or a number proved sufficient: path resolution takes
    the number of components and links it may follow (PathFs, as the kernel's limit on links does);
    the directory walk takes a depth, and its theorem asks for one at least that of the tree; the
    matcher of the whitelist has a number of rounds that is proved enough ([match_total]).  The walk
    of the file clipboard has one unit of fuel for every level a path can name ([WALK_FUEL]), and a
    read one round for every retry the code makes ([READ_ROUNDS]); both are proved enough.  The
    resampler's loop has a round for every frame its buffer can give ([frame_fuel], [loop_done]).
    Concrete inputs of witnesses are small and are evaluated in full.

    ** Not modelled

    The controlling side's user interface, codecs, audio devices and the replacement of a playback
    stream that fails, input injection, the pasteboards of the platforms, screen capture,
    rendezvous and NAT traversal, the windows and buttons of the connection manager, the format of
    configuration files, installers and updates: they are calls of the operating system, of devices
    or of servers, and what the models need of them is an argument.  Cryptography is an argument too, with its
    documented laws as a class that a small instance satisfies ([SealingLaws], [toy_laws]).  In the
    modelled parts: branches for Windows, macOS and Android, audits posted to a server, log lines,
    and the failure of a send on a socket, which ends a connection.

    The file parts run on Unix, the sound on Windows and macOS, where the code for it is.

    ** Plan

    Next: the choice of a codec; recovery of a playback stream; the registration with a rendezvous
    server; Windows branches of the session. *)

From Stdlib Require Export ZArith Lia.
From stdpp Require Export base tactics option list numbers gmap strings.

#[global] Open Scope Z_scope.

(** ** Rust results *)

(** [Result<T, E>]. *)
Inductive result (A E : Type) : Type :=
| Ok (a : A)
| Err (e : E).
Arguments Ok {A E} _.
Arguments Err {A E} _.

Definition is_ok {A E} (r : result A E) : bool :=
  match r with Ok _ => true | Err _ => false end.

(** The [?] operator. *)
Definition rbind {A B E} (r : result A E) (k : A -> result B E) : result B E :=
  match r with Ok a => k a | Err e => Err e end.

Declare Scope rust_scope.
Delimit Scope rust_scope with rust.
Notation "x <-? r ;; k" := (rbind r (fun x => k))
  (at level 60, r at next level, right associativity) : rust_scope.
Notation "r ;;? k" := (rbind r (fun _ => k))
  (at level 60, right associativity) : rust_scope.

(** ** Machine integers *)

(** Unsigned [w]-bit values, wrap-around, saturating and checked operations. *)
Definition in_u (w x : Z) : Prop := 0 <= x < 2 ^ w.
Definition in_ub (w x : Z) : bool := (0 <=? x) && (x <? 2 ^ w).
Definition umax (w : Z) : Z := 2 ^ w - 1.
Definition wrap (w x : Z) : Z := x mod 2 ^ w.
(** two's complement reading of the low [w] bits *)
Definition swrap (w x : Z) : Z := (x + 2 ^ (w - 1)) mod 2 ^ w - 2 ^ (w - 1).
Definition sat_add (w a b : Z) : Z := Z.min (a + b) (umax w).
Definition sat_sub (a b : Z) : Z := Z.max (a - b) 0.
Definition checked_sub (a b : Z) : option Z := if b <=? a then Some (a - b) else None.
Definition clampZ (x lo hi : Z) : Z := if x <? lo then lo else if hi <? x then hi else x.

Abbreviation usize_max := (umax 64).
Abbreviation u32_max := (umax 32).

(** [len()] of a [Vec], slice or [HashMap] as a machine integer. *)
Abbreviation zlen l := (Z.of_nat (length l)).
(** slicing by machine integers *)
Definition ztake {A} (n : Z) (l : list A) : list A := take (Z.to_nat n) l.
Definition zdrop {A} (n : Z) (l : list A) : list A := drop (Z.to_nat n) l.
Definition zget {A} (l : list A) (i : Z) : option A :=
  if 0 <=? i then l !! Z.to_nat i else None.

Definition is_nil {A} (l : list A) : bool := match l with [] => true | _ => false end.

(** ** Tactics *)

(** Case analysis on the scrutinee of some [if] or [match] of the goal. *)
Ltac split_match :=
  match goal with
  | |- context [match ?x with _ => _ end] => destruct x eqn:?
  end.

(** Turn boolean comparisons in the context into propositions. *)
Ltac bool_to_prop :=
  repeat match goal with
  | H : _ && _ = true |- _ => apply andb_true_iff in H; destruct H
  | H : _ || _ = false |- _ => apply orb_false_iff in H; destruct H
  | H : _ && _ = false |- _ => apply andb_false_iff in H
  | H : _ || _ = true |- _ => apply orb_true_iff in H
  | H : negb _ = true |- _ => apply negb_true_iff in H
  | H : negb _ = false |- _ => apply negb_false_iff in H
  | H : (_ <=? _) = true |- _ => apply Z.leb_le in H
  | H : (_ <=? _) = false |- _ => apply Z.leb_gt in H
  | H : (_ <? _) = true |- _ => apply Z.ltb_lt in H
  | H : (_ <? _) = false |- _ => apply Z.ltb_ge in H
  | H : (_ =? _) = true |- _ => apply Z.eqb_eq in H
  | H : (_ =? _) = false |- _ => apply Z.eqb_neq in H
  | H : bool_decide _ = true |- _ => apply bool_decide_eq_true in H
  | H : bool_decide _ = false |- _ => apply bool_decide_eq_false in H
  end.

(** Evaluate the powers of two of the machine widths. *)
Ltac pow2 :=
  change (2 ^ 8) with 256 in *; change (2 ^ 16) with 65536 in *;
  change (2 ^ 32) with 4294967296 in *; change (2 ^ 31) with 2147483648 in *;
  change (2 ^ 63) with 9223372036854775808 in *;
  change (2 ^ 64) with 18446744073709551616 in *.

(** Unfold the machine-integer operations and decide. *)
Ltac mach :=
  unfold sat_add, sat_sub, umax, in_u, clampZ, wrap in *; pow2; try lia.

(** [lia] with the defining equations of [/] and [mod]. *)
Ltac divlia := Z.to_euclidean_division_equations; lia.

(** ** Generic lemmas *)

Create HintDb rust.

Lemma sat_add_range w a b : 0 <= w -> 0 <= a -> 0 <= b -> in_u w (sat_add w a b).
Proof. intros. unfold in_u, sat_add, umax. pose proof (Z.pow_pos_nonneg 2 w). lia. Qed.

Lemma wrap_small w x : in_u w x -> wrap w x = x.
Proof. intros. unfold wrap. apply Z.mod_small. done. Qed.

Lemma wrap_range w x : 0 <= w -> in_u w (wrap w x).
Proof. intros. unfold wrap, in_u. apply Z.mod_pos_bound. by apply Z.pow_pos_nonneg. Qed.

Lemma in_ub_spec w x : in_ub w x = true <-> in_u w x.
Proof. unfold in_ub, in_u. rewrite andb_true_iff, Z.leb_le, Z.ltb_lt. done. Qed.

#[export] Hint Resolve sat_add_range wrap_range : rust.

(** Disjoint bit ranges: or is addition. *)
Lemma lor_shiftl_add a b k : 0 <= k -> 0 <= a < 2 ^ k -> Z.lor a (Z.shiftl b k) = a + b * 2 ^ k.
Proof.
  intros Hk Ha. rewrite <- Z.shiftl_mul_pow2 by done.
  symmetry. apply Z.add_nocarry_lor. apply Z.bits_inj'. intros n Hn.
  rewrite Z.land_spec, Z.bits_0. destruct (Z.lt_ge_cases n k).
  - rewrite Z.shiftl_spec_low by lia. by rewrite andb_false_r.
  - rewrite <- (Z.mod_small a (2 ^ k)) by lia. by rewrite Z.mod_pow2_bits_high by lia.
Qed.

Lemma take_drop_zlen {A} (n : Z) (l : list A) :
  0 <= n <= zlen l -> zlen (ztake n l) = n /\ ztake n l ++ zdrop n l = l.
Proof. intros. unfold ztake, zdrop. rewrite take_drop, length_take. split; [lia|done]. Qed.

(** ** Bytes *)

(** A string is the bytes of its UTF-8 form. *)
Definition as_bytes (s : string) : list Z := (fun a => Z.of_N (Ascii.N_of_ascii a)) <$> String.list_ascii_of_string s.
Definition of_bytes (l : list Z) : string :=
  String.string_of_list_ascii ((fun z => Ascii.ascii_of_N (Z.to_N z)) <$> l).

(** Little-endian integers of [n] bytes. *)
Fixpoint le_bytes (n : nat) (x : Z) : list Z :=
  match n with O => [] | S n => x mod 256 :: le_bytes n (x / 256) end.
Fixpoint from_le (l : list Z) : Z :=
  match l with [] => 0 | b :: l => b + 256 * from_le l end.

Lemma as_bytes_inj a b : as_bytes a = as_bytes b -> a = b.
Proof.
  unfold as_bytes. intros H. rewrite <- (String.string_of_list_ascii_of_string a), <- (String.string_of_list_ascii_of_string b). f_equal.
  revert H. apply list_fmap_eq_inj. intros x y Hxy. apply (f_equal Z.to_N) in Hxy. rewrite !N2Z.id in Hxy.
  by rewrite <- (Ascii.ascii_N_embedding x), Hxy, Ascii.ascii_N_embedding.
Qed.

Lemma of_as_bytes s : of_bytes (as_bytes s) = s.
Proof.
  unfold of_bytes, as_bytes. rewrite <- list_fmap_compose. rewrite <- (String.string_of_list_ascii_of_string s) at 2. f_equal.
  rewrite <- (list_fmap_id (String.list_ascii_of_string s)) at 2. apply list_fmap_ext. intros i x _. cbn.
  by rewrite N2Z.id, Ascii.ascii_N_embedding.
Qed.

Lemma le_bytes_inj n a b : le_bytes n a = le_bytes n b -> a mod 256 ^ Z.of_nat n = b mod 256 ^ Z.of_nat n.
Proof.
  revert a b. induction n as [|n IH]; intros a b H; [by rewrite !Z.mod_1_r|]. cbn [le_bytes] in H.
  injection H as H0 H. apply IH in H. replace (256 ^ Z.of_nat (S n)) with (256 * 256 ^ Z.of_nat n) by (rewrite Nat2Z.inj_succ, Z.pow_succ_r; lia).
  rewrite !Z.rem_mul_r by lia. by rewrite H0, H.
Qed.

Lemma length_le_bytes n x : length (le_bytes n x) = n.
Proof. revert x. induction n as [|n IH]; intros x; cbn; [done|]. by rewrite IH. Qed.

Lemma from_le_bytes n x : from_le (le_bytes n x) = x mod 256 ^ Z.of_nat n.
Proof.
  revert x. induction n as [|n IH]; intros x; [by rewrite Z.mod_1_r|]. cbn [le_bytes from_le]. rewrite IH.
  replace (256 ^ Z.of_nat (S n)) with (256 * 256 ^ Z.of_nat n) by (rewrite Nat2Z.inj_succ, Z.pow_succ_r; lia).
  by rewrite Z.rem_mul_r by lia.
Qed.
