(* ===== verification/BytesCodec.v ===== *)
(** The length-delimited frame codec of every TCP stream:
    [libs/hbb_common/src/bytes_codec.rs].

    [Module Codec] holds the decoder state machine ([DecodeState], [decode_head],
    [decode_data], [decode]) and the encoder, over a byte buffer that also logs the
    capacity requests the decoder makes.  [Module Stream] drives the decoder the way a
    framed reader does, one network chunk at a time. *)

From S2P Require Import Prelude.

Module Codec.

Definition MAX_PREALLOCATED_PAYLOAD_LEN : Z := 256 * 1024.
Definition MAX_FRAME_LENGTH : Z := 0x3FFFFFFF.

Inductive DecodeState := Head | Data (n : Z).

Record BytesCodec := mkCodec { state : DecodeState; raw : bool; max_packet_length : Z }.

Inductive io_error := InvalidData (msg : string) | InvalidInput (msg : string).

(** The growable buffer: its bytes, and the arguments of the [reserve] calls made on it. *)
Record BytesMut := mkBuf { contents : list Z; reserves : list Z }.

Definition advance (n : Z) (src : BytesMut) : BytesMut :=
  mkBuf (zdrop n src.(contents)) src.(reserves).
Definition reserve (k : Z) (src : BytesMut) : BytesMut :=
  mkBuf src.(contents) (k :: src.(reserves)).
Definition split_to (n : Z) (src : BytesMut) : list Z * BytesMut :=
  (ztake n src.(contents), mkBuf (zdrop n src.(contents)) src.(reserves)).
Definition extend (data : list Z) (src : BytesMut) : BytesMut :=
  mkBuf (src.(contents) ++ data) src.(reserves).
Definition byte_at (src : BytesMut) (i : nat) : Z := nth i src.(contents) 0.

Definition new : BytesCodec := mkCodec Head false usize_max.
Definition set_raw (self : BytesCodec) : BytesCodec :=
  mkCodec self.(state) true self.(max_packet_length).
Definition set_max_packet_length (self : BytesCodec) (n : Z) : BytesCodec :=
  mkCodec self.(state) self.(raw) n.
Definition set_state (self : BytesCodec) (s : DecodeState) : BytesCodec :=
  mkCodec s self.(raw) self.(max_packet_length).

Definition decode_head (self : BytesCodec) (src : BytesMut)
    : result (option Z) io_error * BytesMut :=
  if is_nil src.(contents) then (Ok None, src) else
  let head_len := Z.land (byte_at src 0) 0x3 + 1 in
  if zlen src.(contents) <? head_len then (Ok None, src) else
  let n := byte_at src 0 in
  let n := if 1 <? head_len then Z.lor n (Z.shiftl (byte_at src 1) 8) else n in
  let n := if 2 <? head_len then Z.lor n (Z.shiftl (byte_at src 2) 16) else n in
  let n := if 3 <? head_len then Z.lor n (Z.shiftl (byte_at src 3) 24) else n in
  let n := Z.shiftr n 2 in
  if self.(max_packet_length) <? n then (Err (InvalidData "Too big packet"), src) else
  let src := advance head_len src in
  let src := reserve (Z.min (sat_sub n (zlen src.(contents)))
                            MAX_PREALLOCATED_PAYLOAD_LEN) src in
  (Ok (Some n), src).

Definition decode_data (n : Z) (src : BytesMut) : option (list Z) * BytesMut :=
  if zlen src.(contents) <? n then (None, src) else
  let (data, src) := split_to n src in (Some data, src).

Definition decode (self : BytesCodec) (src : BytesMut)
    : result (option (list Z)) io_error * BytesCodec * BytesMut :=
  if self.(raw) then
    if negb (is_nil src.(contents)) then
      let (data, src) := split_to (zlen src.(contents)) src in (Ok (Some data), self, src)
    else (Ok None, self, src)
  else
  let with_len self n src :=
    match decode_data n src with
    | (Some data, src) => (Ok (Some data), set_state self Head, src)
    | (None, src) => (Ok None, self, src)
    end in
  match self.(state) with
  | Head =>
    match decode_head self src with
    | (Err e, src) => (Err e, self, src)
    | (Ok None, src) => (Ok None, self, src)
    | (Ok (Some n), src) => with_len (set_state self (Data n)) n src
    end
  | Data n => with_len self n src
  end.

(** little-endian writes of [bytes::BufMut] *)
Definition put_u8 (v : Z) (buf : BytesMut) : BytesMut := extend [v] buf.
Definition put_u16_le (v : Z) (buf : BytesMut) : BytesMut :=
  extend [wrap 8 v; wrap 8 (Z.shiftr v 8)] buf.
Definition put_u32_le (v : Z) (buf : BytesMut) : BytesMut :=
  extend [wrap 8 v; wrap 8 (Z.shiftr v 8); wrap 8 (Z.shiftr v 16); wrap 8 (Z.shiftr v 24)] buf.

Definition encode (self : BytesCodec) (data : list Z) (buf : BytesMut)
    : result unit io_error * BytesMut :=
  let len := zlen data in
  if self.(raw) then (Ok tt, extend data (reserve len buf)) else
  if len <=? 0x3F then
    (Ok tt, extend data (put_u8 (wrap 8 (Z.shiftl len 2)) buf))
  else if len <=? 0x3FFF then
    (Ok tt, extend data (put_u16_le (Z.lor (wrap 16 (Z.shiftl len 2)) 0x1) buf))
  else if len <=? 0x3FFFFF then
    let h := Z.lor (wrap 32 (Z.shiftl len 2)) 0x2 in
    (Ok tt, extend data (put_u8 (wrap 8 (Z.shiftr h 16)) (put_u16_le (wrap 16 (Z.land h 0xFFFF)) buf)))
  else if len <=? MAX_FRAME_LENGTH then
    (Ok tt, extend data (put_u32_le (Z.lor (wrap 32 (Z.shiftl len 2)) 0x3) buf))
  else (Err (InvalidInput "Overflow"), buf).

End Codec.

Module Stream.
Import Codec.

(** What a framed reader does with one network chunk: append it and decode until the codec
    asks for more. The fuel bounds the number of [decode] calls; every frame consumes at
    least one byte, so [S (length buffer)] calls are enough. *)
Fixpoint drain (fuel : nat) (c : BytesCodec) (src : BytesMut)
    : list (list Z) * result unit io_error * BytesCodec * BytesMut :=
  match fuel with
  | O => ([], Ok tt, c, src)
  | S fuel =>
    match decode c src with
    | (Err e, c, src) => ([], Err e, c, src)
    | (Ok None, c, src) => ([], Ok tt, c, src)
    | (Ok (Some m), c, src) =>
      let '(ms, r, c, src) := drain fuel c src in (m :: ms, r, c, src)
    end
  end.

Definition feed (c : BytesCodec) (src : BytesMut) (chunk : list Z) :=
  let src := extend chunk src in drain (S (S (length src.(contents)))) c src.

Fixpoint read_chunks (c : BytesCodec) (src : BytesMut) (chunks : list (list Z))
    : list (list Z) * result unit io_error * BytesCodec * BytesMut :=
  match chunks with
  | [] => ([], Ok tt, c, src)
  | chunk :: rest =>
    match feed c src chunk with
    | (ms, Err e, c, src) => (ms, Err e, c, src)
    | (ms, Ok _, c, src) =>
      let '(ms', r, c, src) := read_chunks c src rest in (ms ++ ms', r, c, src)
    end
  end.

(** The sender: every message encoded in order into one buffer. *)
Fixpoint write_all (c : BytesCodec) (ms : list (list Z)) (buf : BytesMut)
    : result unit io_error * BytesMut :=
  match ms with
  | [] => (Ok tt, buf)
  | m :: ms =>
    match encode c m buf with
    | (Ok _, buf) => write_all c ms buf
    | (Err e, buf) => (Err e, buf)
    end
  end.

(** ** Specification: the header of a payload length *)

Definition header (len : Z) : list Z :=
  if len <=? 0x3F then [len * 4]
  else if len <=? 0x3FFF then [(len * 4 + 1) mod 256; (len * 4 + 1) / 256]
  else if len <=? 0x3FFFFF then
    [(len * 4 + 2) mod 256; ((len * 4 + 2) / 256) mod 256; (len * 4 + 2) / 65536]
  else [(len * 4 + 3) mod 256; ((len * 4 + 3) / 256) mod 256;
        ((len * 4 + 3) / 65536) mod 256; (len * 4 + 3) / 16777216].
Definition frame (m : list Z) : list Z := header (zlen m) ++ m.
Definition frames (ms : list (list Z)) : list Z := concat (frame <$> ms).

Definition sendable (c : BytesCodec) (m : list Z) : Prop :=
  zlen m <= MAX_FRAME_LENGTH /\ zlen m <= c.(max_packet_length).

Lemma encode_frame c m buf : c.(raw) = false -> zlen m <= MAX_FRAME_LENGTH ->
  encode c m buf = (Ok tt, extend (frame m) buf).
Proof.
  intros Hr Hm. unfold encode. rewrite Hr. unfold frame, header, MAX_FRAME_LENGTH in *.
  assert (H0 : 0 <= zlen m) by lia. generalize dependent (zlen m). intros len Hm H0.
  assert (Hs : Z.shiftl len 2 = len * 4) by (rewrite Z.shiftl_mul_pow2; lia).
  assert (Hl : forall x, 0 <= x <= 3 -> Z.lor (len * 4) x = len * 4 + x).
  { intros x Hx. rewrite Z.lor_comm, <- Hs, lor_shiftl_add by lia. lia. }
  rewrite Hs. unfold put_u8, put_u16_le, put_u32_le, extend, wrap. cbn [contents reserves].
  repeat (rewrite Z.shiftr_div_pow2 by lia).
  change (0xFFFF) with (Z.ones 16). rewrite Z.land_ones by lia.
  repeat case_match; bool_to_prop; try lia; f_equal; f_equal;
    rewrite ?(Z.mod_small (len * 4)) by lia; rewrite ?Hl by lia;
    rewrite <- ?app_assoc; cbn [app];
    change (2 ^ 24) with 16777216; pow2; f_equal;
    repeat match goal with |- _ :: _ = _ :: _ => f_equal end; try done; divlia.
Qed.

(** The header of [len] decodes to [len] and is consumed whole. *)
Lemma header_length_range len : 0 <= len -> 1 <= zlen (header len) <= 4.
Proof. intros. unfold header. repeat case_match; cbn; lia. Qed.

Lemma header_first len : 0 <= len <= MAX_FRAME_LENGTH ->
  Z.land (nth 0 (header len) 0) 3 + 1 = zlen (header len).
Proof.
  intros H. change 3 with (Z.ones 2). rewrite Z.land_ones by lia. unfold MAX_FRAME_LENGTH in *.
  change (2 ^ 2) with 4. unfold header. repeat case_match; cbn [nth length]; divlia.
Qed.

Definition header_value (src : BytesMut) : Z :=
  let head_len := Z.land (byte_at src 0) 0x3 + 1 in
  let n := byte_at src 0 in
  let n := if 1 <? head_len then Z.lor n (Z.shiftl (byte_at src 1) 8) else n in
  let n := if 2 <? head_len then Z.lor n (Z.shiftl (byte_at src 2) 16) else n in
  let n := if 3 <? head_len then Z.lor n (Z.shiftl (byte_at src 3) 24) else n in
  Z.shiftr n 2.

Lemma header_value_frame len rest rs : 0 <= len <= MAX_FRAME_LENGTH ->
  header_value (mkBuf (header len ++ rest) rs) = len.
Proof.
  intros H. unfold header_value, byte_at. cbn [contents].
  assert (Hf := header_first len H). assert (Hl := header_length_range len ltac:(lia)).
  rewrite app_nth1 by lia. rewrite Hf. clear Hf Hl. unfold MAX_FRAME_LENGTH, header in *.
  rewrite Z.shiftr_div_pow2 by lia. change (2 ^ 2) with 4.
  repeat case_match; cbn [app length nth] in *; bool_to_prop; try lia;
    repeat match goal with
    | |- context [Z.lor ?a (Z.shiftl ?b ?k)] =>
      lazymatch a with
      | context [Z.lor] => fail
      | _ => rewrite (lor_shiftl_add a b k) by (change (2 ^ 24) with 16777216; pow2; divlia)
      end
    end;
    change (2 ^ 24) with 16777216; pow2; divlia.
Qed.

Lemma decode_head_frame c len rest rs :
  0 <= len <= MAX_FRAME_LENGTH -> len <= c.(max_packet_length) ->
  exists rs', decode_head c (mkBuf (header len ++ rest) rs) = (Ok (Some len), mkBuf rest rs').
Proof.
  intros H Hm. unfold decode_head.
  assert (Hl := header_length_range len ltac:(lia)). assert (Hf := header_first len H).
  assert (Hv := header_value_frame len rest rs H). unfold header_value in Hv. cbn zeta in Hv.
  cbn zeta. rewrite Hv.
  assert (Hb : byte_at (mkBuf (header len ++ rest) rs) 0 = nth 0 (header len) 0).
  { unfold byte_at. cbn. by rewrite app_nth1 by lia. }
  rewrite Hb, Hf. cbn [contents reserves advance reserve].
  replace (is_nil _) with false by (destruct (header len); cbn in *; [lia|done]).
  rewrite length_app, (proj2 (Z.ltb_ge _ (zlen (header len)))) by lia.
  rewrite (proj2 (Z.ltb_ge _ _)) by lia.
  eexists. unfold reserve, advance, zdrop. cbn. do 2 f_equal.
  rewrite Nat2Z.id, drop_app_length. done.
Qed.

(** A strict prefix of a header is not decoded, and nothing is consumed. *)
Lemma decode_head_short c len buf rest rest' rs :
  0 <= len <= MAX_FRAME_LENGTH -> buf ++ rest = header len ++ rest' ->
  zlen buf < zlen (header len) -> decode_head c (mkBuf buf rs) = (Ok None, mkBuf buf rs).
Proof.
  intros H Heq Hs. unfold decode_head. cbn [contents].
  destruct buf as [|b buf]; [done|]. cbn [is_nil].
  assert (Hf := header_first len H).
  assert (Hb : nth 0 (header len) 0 = b).
  { destruct (header len); [cbn in *; lia|]. cbn in *. congruence. }
  unfold byte_at. cbn [contents nth]. rewrite Hb in Hf. rewrite Hf.
  by rewrite (proj2 (Z.ltb_lt _ _)) by lia.
Qed.

(** ** The invariant of a reader in the middle of a stream *)

(** [pending c buf rest ms]: the buffered bytes followed by [rest], the bytes still in
    flight, are the frames of the messages [ms], from where the decoder stands. *)
Definition pending (c : BytesCodec) (buf rest : list Z) (ms : list (list Z)) : Prop :=
  match c.(state) with
  | Head => buf ++ rest = frames ms
  | Data n => exists m ms', ms = m :: ms' /\ zlen m = n /\ buf ++ rest = m ++ frames ms'
  end.

Lemma app_prefix_split {A} (b r x y : list A) :
  b ++ r = x ++ y -> (length x <= length b)%nat -> b = x ++ drop (length x) b /\ drop (length x) b ++ r = y.
Proof.
  revert b. induction x as [|a x IH]; intros [|b0 b] Heq Hl; cbn in *; try done; try lia.
  simplify_eq. destruct (IH b) as [Hb Hd]; [done|lia|]. split; [by f_equal|done].
Qed.

Definition weight (c : BytesCodec) (src : BytesMut) : nat :=
  length src.(contents) + match c.(state) with Head => 0 | Data _ => 1 end.

(** What one [decode] does to a pending stream: it yields the next message, or it asks for
    more and then the stream still in flight is not empty unless everything was read. *)
Definition decode_ok (c : BytesCodec) (src : BytesMut) (rest : list Z) (ms : list (list Z))
    (out : result (option (list Z)) io_error * BytesCodec * BytesMut) : Prop :=
  let '(r, c', src') := out in
  (exists s, c' = set_state c s) /\
  ((exists m ms', r = Ok (Some m) /\ ms = m :: ms' /\
      pending c' src'.(contents) rest ms' /\ (weight c' src' < weight c src)%nat) \/
   (r = Ok None /\ pending c' src'.(contents) rest ms /\ (rest = [] -> ms = []))).

Lemma decode_data_pending c n buf rest ms rs : c.(raw) = false ->
  pending (set_state c (Data n)) buf rest ms ->
  decode_ok (set_state c (Data n)) (mkBuf buf rs) rest ms
    (decode (set_state c (Data n)) (mkBuf buf rs)).
Proof.
  intros Hr (m & ms' & -> & Hn & Heq). unfold decode. cbn [raw set_state state]. rewrite Hr.
  unfold decode_data. cbn [contents]. unfold decode_ok.
  destruct (zlen buf <? n) eqn:Hlt; bool_to_prop; cbn.
  - split; [by eexists|]. right. split_and!; [done|by exists m, ms'|].
    intros ->. rewrite app_nil_r in Heq. exfalso. apply (f_equal length) in Heq.
    rewrite length_app in Heq. lia.
  - destruct (app_prefix_split _ _ _ _ Heq) as [Hb Hd]; [lia|].
    split; [by eexists|]. left. exists (ztake n buf), ms'. unfold ztake, zdrop, weight.
    assert (Z.to_nat n = length m) as -> by lia. cbn.
    split_and!; [done|by rewrite Hb, take_app_length|done|].
    rewrite length_drop. lia.
Qed.

Lemma decode_pending c buf rest ms rs : c.(raw) = false -> Forall (sendable c) ms ->
  pending c buf rest ms -> decode_ok c (mkBuf buf rs) rest ms (decode c (mkBuf buf rs)).
Proof.
  intros Hr Hms Hp. destruct (c.(state)) as [|n] eqn:Hst.
  2: { replace c with (set_state c (Data n)) in * by (destruct c; cbn in *; by subst).
       apply decode_data_pending; done. }
  unfold pending in Hp. rewrite Hst in Hp.
  destruct ms as [|m ms]; cbn in Hp.
  { apply app_eq_nil in Hp as [-> ->]. unfold decode_ok, decode. rewrite Hr, Hst. cbn.
    split; [exists Head; by destruct c; cbn in *; subst|]. right.
    split_and!; try done. unfold pending. by rewrite Hst. }
  unfold frame in Hp. rewrite <- app_assoc in Hp.
  apply Forall_cons in Hms as [[Hm1 Hm2] Hms].
  assert (Hlen : 0 <= zlen m <= MAX_FRAME_LENGTH) by lia.
  assert (Hhl := header_length_range (zlen m) ltac:(lia)).
  destruct (Z.lt_ge_cases (zlen buf) (zlen (header (zlen m)))) as [Hs|Hs].
  - unfold decode_ok, decode. rewrite Hr, Hst.
    rewrite (decode_head_short c (zlen m) buf rest _ rs Hlen Hp Hs). cbn.
    split; [exists Head; by destruct c; cbn in *; subst|]. right.
    split_and!; [done| |].
    + unfold pending. rewrite Hst. cbn. unfold frame. by rewrite <- app_assoc.
    + intros ->. rewrite app_nil_r in Hp. apply (f_equal length) in Hp.
      rewrite !length_app in Hp. lia.
  - destruct (app_prefix_split _ _ _ _ Hp) as [Hb Hd]; [lia|]. set (buf' := drop _ buf) in *.
    destruct (decode_head_frame c (zlen m) buf' rs Hlen Hm2) as [rs' Hdh].
    rewrite <- Hb in Hdh.
    assert (Hdec : decode c (mkBuf buf rs) = decode (set_state c (Data (zlen m))) (mkBuf buf' rs')).
    { unfold decode at 1. rewrite Hr, Hst, Hdh. unfold decode. cbn [raw set_state state].
      by rewrite Hr. }
    rewrite Hdec. clear Hdec. assert (Hpp : pending (set_state c (Data (zlen m))) buf' rest (m :: ms)).
    { exists m, ms. done. }
    pose proof (decode_data_pending c _ _ _ _ rs' Hr Hpp) as Hok.
    revert Hok. unfold decode_ok. destruct (decode _ _) as [[r c'] src'].
    intros [[s ->] Hok].
    split; [by eexists|]. destruct Hok as [(x & y & ? & ? & ? & Hw)|?]; [|by right].
    left. exists x, y. split_and!; try done. unfold weight in *. cbn in *.
    rewrite Hst. assert (length buf = length (header (zlen m)) + length buf')%nat
      by (rewrite Hb at 1; apply length_app). lia.
Qed.

Lemma pending_extend c buf chunk rest ms :
  pending c buf (chunk ++ rest) ms <-> pending c (buf ++ chunk) rest ms.
Proof. unfold pending. by rewrite <- app_assoc. Qed.

Lemma set_state_raw c s : (set_state c s).(raw) = c.(raw).
Proof. done. Qed.

Lemma drain_pending fuel : forall c src rest ms, c.(raw) = false -> Forall (sendable c) ms ->
  pending c src.(contents) rest ms -> (weight c src < fuel)%nat ->
  exists ms1 ms2 s src', drain fuel c src = (ms1, Ok tt, set_state c s, src') /\
    ms = ms1 ++ ms2 /\ pending (set_state c s) src'.(contents) rest ms2 /\
    (rest = [] -> ms2 = []).
Proof.
  induction fuel as [|fuel IH]; intros c [buf rs] rest ms Hr Hms Hp Hf; [lia|].
  cbn [drain]. pose proof (decode_pending c buf rest ms rs Hr Hms Hp) as Hok.
  revert Hok. unfold decode_ok. destruct (decode c (mkBuf buf rs)) as [[r c'] src']. intros Hok.
  destruct Hok as [[s ->] [(m & ms' & -> & -> & Hp' & Hw)|(-> & Hp' & Hend)]].
  - apply Forall_cons in Hms as [? Hms].
    destruct (IH (set_state c s) src' rest ms') as (ms1 & ms2 & s' & src'' & Hd & -> & Hp'' & He);
      [done|done|done|lia|].
    rewrite Hd. exists (m :: ms1), ms2, s', src''. done.
  - exists [], ms, s, src'. done.
Qed.

Lemma read_chunks_pending chunks : forall c src ms, c.(raw) = false -> Forall (sendable c) ms ->
  pending c src.(contents) (concat chunks) ms -> chunks <> [] ->
  exists s src', read_chunks c src chunks = (ms, Ok tt, set_state c s, src') /\
    pending (set_state c s) src'.(contents) [] [].
Proof.
  induction chunks as [|chunk chunks IH]; intros c src ms Hr Hms Hp Hne; [done|].
  cbn [concat] in Hp. apply pending_extend in Hp. cbn [read_chunks]. unfold feed.
  destruct (drain_pending (S (S (length (extend chunk src).(contents)))) c (extend chunk src)
    (concat chunks) ms Hr Hms) as (ms1 & ms2 & s & src' & Hd & -> & Hp' & He); [done| |].
  { unfold weight. case_match; lia. }
  rewrite Hd. destruct chunks as [|chunk' chunks].
  - cbn in *. rewrite (He eq_refl) in *. exists s, src'. by rewrite app_nil_r.
  - apply Forall_app in Hms as [? Hms2].
    destruct (IH (set_state c s) src' ms2) as (s' & src'' & Hd' & Hp''); [done..|].
    rewrite Hd'. by exists s', src''.
Qed.

Lemma write_all_frames c ms buf : c.(raw) = false ->
  Forall (fun m => zlen m <= MAX_FRAME_LENGTH) ms ->
  write_all c ms buf = (Ok tt, extend (frames ms) buf).
Proof.
  intros Hr Hms. revert buf. induction Hms as [|m ms Hm Hms IH]; intros buf.
  - cbn. unfold extend. rewrite app_nil_r. by destruct buf.
  - cbn [write_all]. rewrite encode_frame, IH by done. unfold extend. cbn.
    by rewrite app_assoc.
Qed.

(** ** Safety on bytes an adversary chose *)

Definition well_formed (c : BytesCodec) : Prop :=
  match c.(state) with Head => True | Data n => 0 <= n <= c.(max_packet_length) end.

Lemma header_value_nonneg src : Forall (in_u 8) src.(contents) -> 0 <= header_value src.
Proof.
  intros Hb. assert (Hn : forall i, 0 <= byte_at src i).
  { intros i. unfold byte_at. destruct (nth_in_or_default i src.(contents) 0) as [Hi| ->]; [|lia].
    rewrite Forall_forall in Hb. apply list_elem_of_In, Hb in Hi. unfold in_u in Hi. lia. }
  unfold header_value. apply Z.shiftr_nonneg.
  repeat case_match; rewrite ?Z.lor_nonneg, ?Z.shiftl_nonneg; auto.
Qed.

Lemma decode_head_cases c src : Forall (in_u 8) src.(contents) ->
  decode_head c src = (Ok None, src) \/
  (exists e, decode_head c src = (Err e, src) /\ c.(max_packet_length) < header_value src) \/
  (exists n k src', decode_head c src = (Ok (Some n), src') /\
     src'.(reserves) = k :: src.(reserves) /\
     0 <= n <= c.(max_packet_length) /\ 0 <= k <= MAX_PREALLOCATED_PAYLOAD_LEN /\
     suffix src'.(contents) src.(contents) /\ zlen src'.(contents) < zlen src.(contents)).
Proof.
  intros Hb. pose proof (header_value_nonneg src Hb) as Hv. unfold decode_head. cbn zeta.
  destruct (is_nil _) eqn:Hnil; [by left|]. destruct (_ <? _) eqn:Hlen; [by left|].
  unfold header_value in *. cbn zeta in *.
  match type of Hv with 0 <= ?x => generalize dependent x end. intros n Hv.
  destruct (_ <? n) eqn:Hmax; bool_to_prop.
  - right; left. by eexists.
  - right; right. eexists _, _, _. split; [reflexivity|].
    unfold advance, reserve. cbn [contents reserves].
    assert (Hh : 1 <= Z.land (byte_at src 0) 3 + 1 <= 4).
    { change 3 with (Z.ones 2). rewrite Z.land_ones by lia.
      pose proof (Z.mod_pos_bound (byte_at src 0) (2 ^ 2)). lia. }
    unfold MAX_PREALLOCATED_PAYLOAD_LEN, sat_sub, zdrop in *.
    split; [reflexivity|]. split_and!; try lia; [apply suffix_drop|].
    rewrite length_drop. destruct (contents src); [done|cbn [length]; lia].
Qed.

(** ** Properties *)

(** C9: the stream round trip.  Messages the sender may frame (at most [MAX_FRAME_LENGTH]
    bytes and within the receiver's packet cap), encoded in order into one byte stream and
    delivered in arbitrary chunks, are decoded to exactly the same messages, in the same
    order, with no error; afterwards the decoder is back in its initial state and nothing
    is left in its buffer.  The boundaries of the chunks do not matter. *)
Theorem stream_roundtrip (c : BytesCodec) (ms chunks : list (list Z)) (out : BytesMut) :
  c.(raw) = false -> c.(state) = Head -> Forall (sendable c) ms -> chunks <> [] ->
  write_all c ms (mkBuf [] []) = (Ok tt, out) -> concat chunks = out.(contents) ->
  exists rs, read_chunks c (mkBuf [] []) chunks = (ms, Ok tt, c, mkBuf [] rs).
Proof.
  intros Hr Hst Hms Hne Hw Hc.
  rewrite write_all_frames in Hw; [|done|by eapply Forall_impl; [done|intros ? []]].
  simplify_eq. cbn in Hc.
  destruct (read_chunks_pending chunks c (mkBuf [] []) ms) as (s & [buf rs] & Hd & Hp); try done.
  { unfold pending. by rewrite Hst, Hc. }
  rewrite Hd. exists rs. unfold pending in Hp. cbn in Hp.
  destruct s as [|n]; [|by destruct Hp as (? & ? & ? & _)].
  rewrite app_nil_r in Hp. cbn in Hp. subst. do 2 f_equal. destruct c; cbn in *. by subst.
Qed.

Lemma stream_roundtrip_witness :
  exists rs, read_chunks new (mkBuf [] []) [[4]; [7; 12; 1]; [2; 3; 0]]
    = ([[7]; [1; 2; 3]; []], Ok tt, new, mkBuf [] rs).
Proof.
  apply (stream_roundtrip new [[7]; [1; 2; 3]; []] [[4]; [7; 12; 1]; [2; 3; 0]]
          (mkBuf [4; 7; 12; 1; 2; 3; 0] [])); try done.
  repeat constructor; vm_compute; done.
Defined.

(** C10: safety against an untrusted peer.  Whatever bytes are buffered, one [decode] of a
    framing codec either fails, exactly when the header announces more than the packet cap,
    leaving codec and buffer as they were; or asks for more; or yields a payload no longer
    than the cap.  It requests capacity at most once, and never more than 256 KiB beyond what
    has arrived, however large the announced length is; it consumes only a prefix. *)
Theorem decode_safe (c : BytesCodec) (src : BytesMut) :
  c.(raw) = false -> well_formed c -> Forall (in_u 8) src.(contents) ->
  let '(r, c', src') := decode c src in
  well_formed c' /\ c'.(raw) = false /\ c'.(max_packet_length) = c.(max_packet_length) /\
  suffix src'.(contents) src.(contents) /\
  (src'.(reserves) = src.(reserves) \/
   exists k, src'.(reserves) = k :: src.(reserves) /\ 0 <= k <= MAX_PREALLOCATED_PAYLOAD_LEN) /\
  match r with
  | Err _ => c.(state) = Head /\ c.(max_packet_length) < header_value src /\ c' = c /\ src' = src
  | Ok None => True
  | Ok (Some m) => zlen m <= c.(max_packet_length) /\ c'.(state) = Head
  end.
Proof.
  intros Hr Hwf Hb. unfold decode. rewrite Hr. unfold well_formed in Hwf.
  assert (Hdata : forall n s, 0 <= n <= c.(max_packet_length) ->
    let '(o, s') := decode_data n s in s'.(reserves) = s.(reserves) /\
      suffix s'.(contents) s.(contents) /\
      match o with Some m => zlen m = n | None => s' = s end).
  { intros n s Hn. unfold decode_data, split_to. destruct (_ <? _) eqn:Hlt; bool_to_prop; [done|].
    cbn. split_and!; [done|apply suffix_drop|]. apply take_drop_zlen. lia. }
  destruct c.(state) as [|n] eqn:Hst.
  - destruct (decode_head_cases c src Hb) as [->|[(e & -> & Hm)|(n & k & s & -> & Hrs & Hn & Hk & Hsuf & _)]].
    + unfold well_formed. rewrite Hst. split_and!; try done; try lia; by left.
    + unfold well_formed. rewrite Hst. split_and!; try done; try lia; by left.
    + specialize (Hdata n s Hn). destruct (decode_data n s) as [[m|] s']; destruct Hdata as (Hr' & Hs' & Hm).
      * cbn. split_and!; try done; [by etransitivity| |lia]. right. exists k. by rewrite Hr'.
      * subst. cbn. split_and!; try done; [lia..|]. right. by exists k.
  - specialize (Hdata n src Hwf). destruct (decode_data n src) as [[m|] s']; destruct Hdata as (Hr' & Hs' & Hm).
    + cbn. split_and!; try done; [by left|lia].
    + subst. unfold well_formed. rewrite Hst. split_and!; try done; try lia; by left.
Qed.

Lemma decode_safe_witness :
  let c := set_max_packet_length new 131072 in
  let src := mkBuf [255; 255; 255; 255; 1] [] in
  decode c src = (Err (InvalidData "Too big packet"), c, src) /\
  131072 < header_value src.
Proof.
  pose proof (decode_safe (set_max_packet_length new 131072) (mkBuf [255; 255; 255; 255; 1] [])
    eq_refl I ltac:(repeat constructor; vm_compute; congruence)) as H.
  vm_compute in H. destruct H as (_ & _ & _ & _ & _ & _ & H & _). split; [reflexivity|done].
Defined.

(** The encoder on every branch.  In raw mode the payload is appended as it is; otherwise
    a payload of at most [MAX_FRAME_LENGTH] bytes is appended behind a header of one to four
    bytes, the fewest that hold its length and the two tag bits; a longer payload is refused
    and the buffer is untouched. *)
Theorem encode_spec (c : BytesCodec) (m : list Z) (buf : BytesMut) :
  let '(r, buf') := encode c m buf in
  if c.(raw) then r = Ok tt /\ buf'.(contents) = buf.(contents) ++ m
  else if zlen m <=? MAX_FRAME_LENGTH then
    r = Ok tt /\ exists h, buf' = extend (h ++ m) buf /\ Forall (in_u 8) h /\
      1 <= zlen h <= 4 /\ zlen m < 2 ^ (8 * zlen h - 2) /\
      (1 < zlen h -> 2 ^ (8 * (zlen h - 1) - 2) <= zlen m)
  else r = Err (InvalidInput "Overflow") /\ buf' = buf.
Proof.
  destruct c.(raw) eqn:Hr.
  { unfold encode. by rewrite Hr. }
  destruct (zlen m <=? MAX_FRAME_LENGTH) eqn:Hl; bool_to_prop.
  - rewrite encode_frame by done. split; [done|]. exists (header (zlen m)).
    split; [done|]. unfold header, MAX_FRAME_LENGTH in *.
    repeat case_match; bool_to_prop; cbn [length];
      (split; [repeat constructor; unfold in_u; pow2; divlia|]);
      cbn; split_and!; lia.
  - unfold encode. rewrite Hr. unfold MAX_FRAME_LENGTH in *.
    repeat case_match; bool_to_prop; try lia. by simplify_eq.
Qed.

End Stream.
