(* ===== verification/MuxWindow.v ===== *)
(** Flow-control accounting of a multiplexed port-forward tunnel:
    the constants, [RecvWindow], [SendCredit] and the frames of
    [src/port_forward_mux.rs], and the frame type of [libs/base/protos/message.proto].

    All quantities are the code's [u32]s, as [Z]; the theorems about their ranges say that
    no operation leaves the 32-bit range. *)

From S2P Require Import Prelude.

Module Window.

Definition INITIAL_WINDOW : Z := 64 * 1024.
Definition MIN_FRAME_CHARGE : Z := 64.
Definition CHANNEL_WINDOW : Z := 256 * 1024.
Definition MAX_FRAME : Z := 64 * 1024.
Definition UPDATE_THRESHOLD : Z := CHANNEL_WINDOW / 2.
Definition MAX_CHANNELS : Z := 256.
Definition MAX_SEND_CREDIT : Z := CHANNEL_WINDOW.

Definition effective_window (advertised : Z) : Z := Z.max advertised INITIAL_WINDOW.

(** [u32::try_from(len).unwrap_or(u32::MAX).max(MIN_FRAME_CHARGE)] *)
Definition charge (len : Z) : Z := Z.max (if len <=? u32_max then len else u32_max) MIN_FRAME_CHARGE.

Record RecvWindow := mkRecv { remaining : Z; drained_since_update : Z }.

Definition recv_new (granted : Z) : RecvWindow := mkRecv (effective_window granted) 0.

Definition accept (self : RecvWindow) (len : Z) : bool * RecvWindow :=
  match checked_sub self.(remaining) (charge len) with
  | Some rest => (true, mkRecv rest self.(drained_since_update))
  | None => (false, self)
  end.

Definition grant (self : RecvWindow) (n : Z) : RecvWindow :=
  mkRecv (sat_add 32 self.(remaining) n) self.(drained_since_update).

Definition drained (self : RecvWindow) (n : Z) : option Z * RecvWindow :=
  let d := sat_add 32 self.(drained_since_update) (charge n) in
  if d <? UPDATE_THRESHOLD then (None, mkRecv self.(remaining) d)
  else (Some d, mkRecv (sat_add 32 self.(remaining) d) 0).

(** [SendCredit] is its locked counter; [take] answers [None] while it parks. *)
Definition SendCredit : Set := Z.

Definition credit_new (initial : Z) : SendCredit := Z.min initial MAX_SEND_CREDIT.

Definition take (credit : SendCredit) (max : Z) : option (Z * SendCredit) :=
  if MIN_FRAME_CHARGE <=? credit then
    let n := Z.min credit max in Some (n, credit - n)
  else None.

Definition add (credit : SendCredit) (n : Z) : SendCredit :=
  Z.min (sat_add 32 credit n) MAX_SEND_CREDIT.

Definition raise_initial (credit : SendCredit) (total : Z) : SendCredit :=
  let extra := effective_window total - INITIAL_WINDOW in
  if 0 <? extra then add credit extra else credit.

(** The frames of the tunnel ([PortForwardChannel.union]); [None] is an empty or unknown
    union.  Payloads are byte lists. *)
Inductive Frame :=
| Open (channel_id : Z) (host : string) (port window : Z)
| Opened (channel_id : Z) (success : bool) (message : string) (window : Z)
| DataF (channel_id : Z) (data : list Z)
| Close (channel_id : Z)
| WindowUpdate (channel_id add : Z).

Definition channel_msg (union : Frame) : option Frame := Some union.
Definition open_msg (id : Z) (host : string) (port window : Z) := channel_msg (Open id host port window).
Definition opened_msg (id : Z) (success : bool) (message : string) (window : Z) :=
  channel_msg (Opened id success message window).
Definition data_msg (id : Z) (data : list Z) := channel_msg (DataF id data).
Definition close_msg (id : Z) := channel_msg (Close id).
Definition window_update_msg (id add : Z) := channel_msg (WindowUpdate id add).

(** What a demultiplexer hands to a channel's task. *)
Inductive Inbound := IData (b : list Z) | IClose | IViolation.

Inductive RelayEnd := LocalEof | PeerClosed | Violation | Cancelled | TunnelGone.

#[global] Instance RelayEnd_eq_dec : EqDecision RelayEnd.
Proof. solve_decision. Defined.

(** ** Ranges *)

Definition recv_ok (w : RecvWindow) : Prop :=
  in_u 32 w.(remaining) /\ 0 <= w.(drained_since_update) < UPDATE_THRESHOLD.
Definition credit_ok (c : SendCredit) : Prop := 0 <= c <= MAX_SEND_CREDIT.

End Window.

(** Unfold the accounting to linear arithmetic and decide. *)
Ltac flow_unfold :=
  unfold Window.recv_ok, Window.credit_ok, Window.take, Window.raise_initial, Window.add,
    Window.credit_new, Window.accept, Window.grant, Window.drained, Window.recv_new,
    Window.charge, Window.effective_window, checked_sub, sat_add, umax, in_u,
    Window.UPDATE_THRESHOLD, Window.MAX_SEND_CREDIT, Window.MAX_FRAME, Window.MIN_FRAME_CHARGE,
    Window.CHANNEL_WINDOW, Window.INITIAL_WINDOW in *;
  change (256 * 1024 / 2) with 131072 in *; pow2; cbn [Window.remaining Window.drained_since_update] in *.
Ltac flow := flow_unfold; repeat case_match; bool_to_prop; simplify_eq; cbn in *; try lia.

Module WindowFacts.
Import Window.

Lemma charge_bounds len : 0 <= len -> MIN_FRAME_CHARGE <= charge len <= umax 32 /\ (len <= umax 32 -> len <= charge len).
Proof. intros. flow. Qed.

Lemma recv_new_ok n : in_u 32 n -> recv_ok (recv_new n).
Proof. intros. flow. Qed.

Lemma accept_ok w len : 0 <= len -> recv_ok w -> recv_ok (accept w len).2.
Proof. intros. flow. Qed.

Lemma accept_spec w len : 0 <= len -> accept w len =
  if charge len <=? w.(remaining) then (true, mkRecv (w.(remaining) - charge len) w.(drained_since_update))
  else (false, w).
Proof. intros. unfold accept, checked_sub. by destruct (_ <=? _). Qed.

Lemma grant_ok w n : 0 <= n -> recv_ok w -> recv_ok (grant w n).
Proof. intros. flow. Qed.

Lemma drained_ok w n : 0 <= n -> recv_ok w -> recv_ok (drained w n).2.
Proof. intros. flow. Qed.

Lemma credit_new_ok n : 0 <= n -> credit_ok (credit_new n).
Proof. intros. flow. Qed.

Lemma take_ok c max n c' : credit_ok c -> MIN_FRAME_CHARGE <= max -> take c max = Some (n, c') ->
  credit_ok c' /\ MIN_FRAME_CHARGE <= n <= max /\ n + c' = c.
Proof. intros. flow. Qed.

Lemma take_parks c max : take c max = None <-> c < MIN_FRAME_CHARGE.
Proof. unfold take. case_match; bool_to_prop; split; try done; lia. Qed.

Lemma add_ok c n : 0 <= n -> credit_ok c -> credit_ok (add c n).
Proof. intros. flow. Qed.

Lemma add_exact c n : credit_ok c -> 0 <= n -> c + n <= MAX_SEND_CREDIT -> add c n = c + n.
Proof. intros. flow. Qed.

Lemma raise_initial_exact c : 0 <= c <= INITIAL_WINDOW ->
  raise_initial c CHANNEL_WINDOW = c + (CHANNEL_WINDOW - INITIAL_WINDOW).
Proof. intros. flow. Qed.

Lemma grant_exact w n : 0 <= n -> w.(remaining) + n <= CHANNEL_WINDOW -> 0 <= w.(remaining) ->
  grant w n = mkRecv (w.(remaining) + n) w.(drained_since_update).
Proof. intros. flow_unfold. f_equal. lia. Qed.

(** The windows of one endpoint stay within [u32] and the advertised update is exactly
    what is credited back, whatever lengths the peer sends. *)
Lemma drained_conserves w n : 0 <= n -> recv_ok w -> w.(remaining) + w.(drained_since_update) + charge n <= umax 32 ->
  match drained w n with
  | (None, w') => w'.(remaining) = w.(remaining) /\
      w'.(drained_since_update) = w.(drained_since_update) + charge n
  | (Some u, w') => u = w.(drained_since_update) + charge n /\ UPDATE_THRESHOLD <= u /\
      w'.(remaining) = w.(remaining) + u /\ w'.(drained_since_update) = 0
  end.
Proof. intros. flow. Qed.

End WindowFacts.

#[export] Hint Resolve WindowFacts.accept_ok WindowFacts.grant_ok WindowFacts.drained_ok
  WindowFacts.credit_new_ok WindowFacts.add_ok WindowFacts.recv_new_ok : rust.
