(* ===== verification/MuxEndpoint.v ===== *)
(** The two demultiplexers of a port-forward tunnel.

    [Module Controlled] is [PortForwardMux] of [src/server/port_forward_mux.rs], the side
    that opens sockets to the forward target; [Module Controller] is [TunnelHandle] and
    [Tunnel] of [src/port_forward_mux.rs], the side that accepts local connections.

    A channel's objects (its [SendCredit], its [RecvWindow] and its inbound queue) are shared
    by reference between the demultiplexer's table and the channel's task, so they live in a
    store: the table maps an id to a reference, and a task keeps its reference after the id
    has left the table or has been given to another channel. *)

From stdpp Require Import pretty.
From S2P Require Import Prelude MuxWindow.
Import Window.

Module Store.

(** The objects of one channel. [c_rx_open]: the task still holds the queue's receiver. *)
Record Chan := mkChan {
  c_credit : SendCredit;
  c_window : RecvWindow;
  c_queue : list Inbound;
  c_rx_open : bool }.

(** A spawned channel task: its id, its target (empty on the controller), its objects, and
    on the controller the [open] it sends first and the bytes read before it. *)
Record Task := mkTask {
  t_id : Z; t_addr : string; t_is_rdp : bool; t_ref : nat;
  t_first : option Frame; t_prebuf : list Z }.

Record World := mkWorld {
  heap : gmap nat Chan;
  next_ref : nat;
  tx : list (option Frame);
  tasks : list Task }.

Definition set_heap (w : World) (h : gmap nat Chan) : World :=
  mkWorld h w.(next_ref) w.(tx) w.(tasks).

(** [UnboundedSender::send]: fails once the receiver is gone. *)
Definition send (w : World) (r : nat) (m : Inbound) : bool * World :=
  match w.(heap) !! r with
  | Some ch =>
    if ch.(c_rx_open) then
      (true, set_heap w (<[r := mkChan ch.(c_credit) ch.(c_window) (ch.(c_queue) ++ [m]) true]> w.(heap)))
    else (false, w)
  | None => (false, w)
  end.

(** [entry.window.lock().unwrap().accept(len)] *)
Definition entry_accept (w : World) (r : nat) (len : Z) : bool * World :=
  match w.(heap) !! r with
  | Some ch =>
    let '(ok, win) := accept ch.(c_window) len in
    (ok, set_heap w (<[r := mkChan ch.(c_credit) win ch.(c_queue) ch.(c_rx_open)]> w.(heap)))
  | None => (false, w)
  end.

Definition entry_credit (w : World) (r : nat) (f : SendCredit -> SendCredit) : World :=
  set_heap w (alter (fun ch => mkChan (f ch.(c_credit)) ch.(c_window) ch.(c_queue) ch.(c_rx_open)) r w.(heap)).

Definition is_closed (w : World) (r : nat) : bool :=
  match w.(heap) !! r with Some ch => negb ch.(c_rx_open) | None => true end.

(** Fresh objects for a new channel. *)
Definition alloc (w : World) (credit : SendCredit) (window : RecvWindow) : nat * World :=
  (w.(next_ref),
   mkWorld (<[w.(next_ref) := mkChan credit window [] true]> w.(heap)) (S w.(next_ref)) w.(tx) w.(tasks)).

Definition spawn (w : World) (t : Task) : World :=
  mkWorld w.(heap) w.(next_ref) w.(tx) (w.(tasks) ++ [t]).

End Store.

Module Controlled.
Import Store.

(** [PortForward] of the login request, as [normalize_port_forward_target] uses it:
    the target address and whether it is the RDP shorthand. *)
Definition normalize_port_forward_target (host : string) (port : Z) : string * bool :=
  let '(host, port, is_rdp) :=
    if bool_decide (host = "RDP"%string) && (port =? 0) then ("localhost"%string, 3389, true)
    else (host, port, false) in
  let host := if bool_decide (host = ""%string) then "localhost"%string else host in
  ((host ++ ":" ++ pretty port)%string, is_rdp).

Record PortForwardMux := mkMux {
  channels : gmap Z nat;
  login_target : string;
  teardown : bool }.

Definition mux_new (login_target : string) : PortForwardMux := mkMux ∅ login_target false.

Definition set_channels (self : PortForwardMux) (cs : gmap Z nat) : PortForwardMux :=
  mkMux cs self.(login_target) self.(teardown).

Definition reply (w : World) (msg : option Frame) : World :=
  mkWorld w.(heap) w.(next_ref) (w.(tx) ++ [msg]) w.(tasks).

Definition on_open (self : PortForwardMux) (w : World)
    (id : Z) (host : string) (port window : Z) (permitted : bool) : PortForwardMux * World :=
  let self := set_channels self
    (filter (fun e : Z * nat => is_closed w e.2 = false) self.(channels)) in
  if negb permitted then
    (self, reply w (opened_msg id false "No permission of IP tunneling" 0))
  else if MAX_CHANNELS <=? Z.of_nat (size self.(channels)) then
    (self, reply w (opened_msg id false "Too many port forward channels" 0))
  else if bool_decide (is_Some (self.(channels) !! id)) then (self, w)
  else
  let '(addr, is_rdp) := normalize_port_forward_target host port in
  if negb (bool_decide (addr = self.(login_target))) then
    (self, reply w (opened_msg id false "Port forward target not authorized" 0))
  else
  let '(r, w) := alloc w (credit_new (effective_window window)) (recv_new INITIAL_WINDOW) in
  (set_channels self (<[id := r]> self.(channels)), spawn w (mkTask id addr is_rdp r None [])).

Definition handle (self : PortForwardMux) (w : World) (frame : option Frame) (permitted : bool)
    : PortForwardMux * World :=
  match frame with
  | Some (Open id host port window) => on_open self w id host port window permitted
  | Some (DataF id data) =>
    match self.(channels) !! id with
    | None => (self, w)
    | Some r =>
      let '(accepted, w) := entry_accept w r (zlen data) in
      let '(delivered, w) := if accepted : bool then send w r (IData data) else (false, w) in
      if delivered : bool then (self, w) else
      let self := set_channels self (delete id self.(channels)) in
      if negb accepted then (self, (send w r IViolation).2) else (self, w)
    end
  | Some (Close id) =>
    match self.(channels) !! id with
    | Some r => (set_channels self (delete id self.(channels)), (send w r IClose).2)
    | None => (self, w)
    end
  | Some (WindowUpdate id n) =>
    match self.(channels) !! id with
    | Some r => (self, entry_credit w r (fun c => add c n))
    | None => (self, w)
    end
  | Some (Opened _ _ _ _) => (self, w)
  | None => (self, w)
  end.

Definition close_all (self : PortForwardMux) : PortForwardMux :=
  mkMux ∅ self.(login_target) true.

(** The main loop hands every frame of the tunnel to [handle]. *)
Fixpoint handle_all (self : PortForwardMux) (w : World) (fs : list (option Frame * bool))
    : PortForwardMux * World :=
  match fs with
  | [] => (self, w)
  | (f, p) :: fs => let '(self, w) := handle self w f p in handle_all self w fs
  end.

End Controlled.

Module Controller.
Import Store.

Definition REPORT_AGAIN_AFTER : Z := 10 * 1000.
Definition MAX_REPORTED_OPEN_ERRORS : Z := 8.

(** [entry_opened]: the [opened] flag of [ChannelEntry]; the other fields are the shared
    objects behind [entry_ref]. *)
Record ChannelEntry := mkEntry { entry_ref : nat; entry_opened : bool }.

Record TunnelHandle := mkHandle {
  h_channels : gmap Z ChannelEntry;
  next_id : Z;
  reported : gmap string Z;
  h_teardown : bool }.

Definition set_h_channels (self : TunnelHandle) (cs : gmap Z ChannelEntry) : TunnelHandle :=
  mkHandle cs self.(next_id) self.(reported) self.(h_teardown).
Definition set_reported (self : TunnelHandle) (m : gmap string Z) : TunnelHandle :=
  mkHandle self.(h_channels) self.(next_id) m self.(h_teardown).

Definition handle_new : TunnelHandle := mkHandle ∅ 1 ∅ false.

(** The id loop of [open]: [fetch_add] on an [AtomicI32] wraps around.  The fuel bounds the
    number of increments; [fresh_id_total] shows that one more than the number of live
    channels is enough. *)
Fixpoint fresh_id (fuel : nat) (channels : gmap Z ChannelEntry) (next : Z) : option (Z * Z) :=
  match fuel with
  | O => None
  | S fuel =>
    if bool_decide (is_Some (channels !! next)) then fresh_id fuel channels (swrap 32 (next + 1))
    else Some (next, swrap 32 (next + 1))
  end.

Definition open (self : TunnelHandle) (w : World) (sink_closed : bool)
    (host : string) (port : Z) (prebuf : list Z) : result Z string * TunnelHandle * World :=
  if sink_closed then (Err "port forward tunnel is gone"%string, self, w) else
  let '(r, w') := alloc w (credit_new INITIAL_WINDOW) (recv_new CHANNEL_WINDOW) in
  if MAX_CHANNELS <=? Z.of_nat (size self.(h_channels)) then
    (Err "too many port forward channels"%string, self, w)
  else
  match fresh_id (S (size self.(h_channels))) self.(h_channels) self.(next_id) with
  | None => (Err "unreachable"%string, self, w)
  | Some (id, next) =>
    (Ok id,
     mkHandle (<[id := mkEntry r false]> self.(h_channels)) next self.(reported) self.(h_teardown),
     spawn w' (mkTask id "" false r (open_msg id host port CHANNEL_WINDOW) prebuf))
  end.

(** [first_report_at], at the time [now] in milliseconds. *)
Definition first_report_at (self : TunnelHandle) (message : string) (now : Z)
    : option string * TunnelHandle :=
  if bool_decide (message = ""%string) then (None, self) else
  let rep := filter (fun e : string * Z => sat_sub now e.2 < REPORT_AGAIN_AFTER) self.(reported) in
  match rep !! message with
  | Some _ => (None, set_reported self (<[message := now]> rep))
  | None =>
    if MAX_REPORTED_OPEN_ERRORS <=? Z.of_nat (size rep) then (None, set_reported self rep)
    else (Some message, set_reported self (<[message := now]> rep))
  end.

Definition on_frame (self : TunnelHandle) (w : World) (ch : option Frame) (now : Z)
    : option string * TunnelHandle * World :=
  match ch with
  | Some (Opened id success message window) =>
    if success then
      match self.(h_channels) !! id with
      | Some e =>
        if e.(entry_opened) then (None, self, w)
        else (None, set_h_channels self (<[id := mkEntry e.(entry_ref) true]> self.(h_channels)),
              entry_credit w e.(entry_ref) (fun c => raise_initial c window))
      | None => (None, self, w)
      end
    else
      match self.(h_channels) !! id with
      | Some e =>
        let self := set_h_channels self (delete id self.(h_channels)) in
        let w := (send w e.(entry_ref) IClose).2 in
        let '(report, self) := first_report_at self message now in (report, self, w)
      | None => (None, self, w)
      end
  | Some (DataF id data) =>
    match self.(h_channels) !! id with
    | None => (None, self, w)
    | Some e =>
      let r := e.(entry_ref) in
      let '(accepted, w) := entry_accept w r (zlen data) in
      let '(delivered, w) := if accepted : bool then send w r (IData data) else (false, w) in
      if delivered : bool then (None, self, w) else
      let self := set_h_channels self (delete id self.(h_channels)) in
      if negb accepted then (None, self, (send w r IViolation).2) else (None, self, w)
    end
  | Some (Close id) =>
    match self.(h_channels) !! id with
    | Some e => (None, set_h_channels self (delete id self.(h_channels)), (send w e.(entry_ref) IClose).2)
    | None => (None, self, w)
    end
  | Some (WindowUpdate id n) =>
    match self.(h_channels) !! id with
    | Some e => (None, self, entry_credit w e.(entry_ref) (fun c => add c n))
    | None => (None, self, w)
    end
  | Some (Open _ _ _ _) => (None, self, w)
  | None => (None, self, w)
  end.

Definition close_all (self : TunnelHandle) : TunnelHandle :=
  mkHandle ∅ self.(next_id) self.(reported) true.

(** What the last statement of a channel's task does: the id leaves the table. *)
Definition task_done (self : TunnelHandle) (id : Z) : TunnelHandle :=
  set_h_channels self (delete id self.(h_channels)).

(** [TunnelState] and the [Claim] a listener's accept makes on it. *)
Inductive TunnelState := Unset | Muxed (h : TunnelHandle) | Legacy | Failed.
Inductive Claim := Claimed | CMuxed (h : TunnelHandle) | CLegacy.

Definition claim (s : TunnelState) : Claim :=
  match s with
  | Unset | Failed => Claimed
  | Muxed h => CMuxed h
  | Legacy => CLegacy
  end.
Definition set_muxed : TunnelState := Muxed handle_new.
Definition set_legacy : TunnelState := Legacy.
Definition set_failed : TunnelState := Failed.

End Controller.

(** ** The store *)

Module StoreFacts.
Import Store.

Definition chan_ok (ch : Chan) : Prop := recv_ok ch.(c_window) /\ credit_ok ch.(c_credit).
Definition world_ok (w : World) : Prop :=
  forall r ch, w.(heap) !! r = Some ch -> (r < w.(next_ref))%nat /\ chan_ok ch.

(** [touches w w' r]: [w'] is [w] except, possibly, for the objects of [r]. *)
Record touches (w w' : World) (r : nat) : Prop := mkTouches {
  touches_frame : forall r', r' <> r -> w'.(heap) !! r' = w.(heap) !! r';
  touches_dom : forall r', is_Some (w'.(heap) !! r') <-> is_Some (w.(heap) !! r');
  touches_next : w'.(next_ref) = w.(next_ref);
  touches_tx : w'.(tx) = w.(tx);
  touches_tasks : w'.(tasks) = w.(tasks);
  touches_ok : world_ok w -> world_ok w' }.

Lemma touches_refl w r : touches w w r.
Proof. by constructor. Qed.

Lemma touches_trans w1 w2 w3 r : touches w1 w2 r -> touches w2 w3 r -> touches w1 w3 r.
Proof.
  intros [F1 D1 N1 T1 K1 O1] [F2 D2 N2 T2 K2 O2]. constructor; try congruence; auto.
  - intros r' Hr. rewrite F2, F1 by done. done.
  - intros r'. by rewrite D2, D1.
Qed.

(** Replacing the objects of [r] by well-formed ones. *)
Lemma touches_insert w r ch ch' : w.(heap) !! r = Some ch -> (chan_ok ch -> chan_ok ch') ->
  touches w (set_heap w (<[r := ch']> w.(heap))) r.
Proof.
  intros Hr Hok. constructor; cbn; try done.
  - intros r' Hne. by rewrite lookup_insert_ne.
  - intros r'. destruct (decide (r = r')) as [->|Hne].
    + rewrite lookup_insert_eq, Hr. split; eauto.
    + by rewrite lookup_insert_ne.
  - intros Hw r' c Hc. cbn in *. destruct (decide (r = r')) as [->|Hne].
    + rewrite lookup_insert_eq in Hc. simplify_eq. destruct (Hw _ _ Hr). auto.
    + rewrite lookup_insert_ne in Hc by done. by apply Hw.
Qed.

Lemma send_touches w r m : touches w (send w r m).2 r.
Proof.
  unfold send. destruct (w.(heap) !! r) as [ch|] eqn:Hr; [|apply touches_refl].
  destruct (c_rx_open ch); [|apply touches_refl]. cbn.
  eapply touches_insert; [done|]. intros [? ?]. by split.
Qed.

Lemma accept_touches w r len : 0 <= len -> touches w (entry_accept w r len).2 r.
Proof.
  intros Hlen. unfold entry_accept. destruct (w.(heap) !! r) as [ch|] eqn:Hr; [|apply touches_refl].
  pose proof (WindowFacts.accept_ok ch.(c_window) len Hlen) as Ha.
  destruct (accept _ _) as [ok win]. cbn in *. eapply touches_insert; [done|].
  intros [? ?]. split; cbn; auto.
Qed.

Lemma credit_touches w r f : (forall c, credit_ok c -> credit_ok (f c)) -> touches w (entry_credit w r f) r.
Proof.
  intros Hf. unfold entry_credit. destruct (w.(heap) !! r) as [ch|] eqn:Hr.
  - replace (alter _ r (heap w)) with
      (<[r := mkChan (f ch.(c_credit)) ch.(c_window) ch.(c_queue) ch.(c_rx_open)]> (heap w)).
    + eapply touches_insert; [done|]. intros [? ?]. split; cbn; auto.
    + apply map_eq. intros r'. destruct (decide (r = r')) as [->|Hne].
      * by rewrite lookup_insert_eq, lookup_alter_eq, Hr.
      * by rewrite lookup_insert_ne, lookup_alter_ne.
  - replace (alter _ r (heap w)) with (heap w).
    + destruct w. apply touches_refl.
    + apply map_eq. intros r'. destruct (decide (r = r')) as [->|Hne].
      * by rewrite lookup_alter_eq, Hr.
      * by rewrite lookup_alter_ne.
Qed.

(** ** Tables over a store *)

Definition table_ok (cs : gmap Z nat) (w : World) : Prop :=
  Z.of_nat (size cs) <= MAX_CHANNELS /\
  (forall id r, cs !! id = Some r -> is_Some (w.(heap) !! r)) /\
  (forall i j r, cs !! i = Some r -> cs !! j = Some r -> i = j).

Lemma table_subseteq cs cs' w : cs' ⊆ cs -> table_ok cs w -> table_ok cs' w.
Proof.
  intros Hs (H1 & H2 & H3). split_and!.
  - pose proof (map_subseteq_size _ _ Hs). lia.
  - intros id r Hi. eapply H2, lookup_weaken; done.
  - intros i j r Hi Hj. eapply H3; eapply lookup_weaken; done.
Qed.

Lemma table_touches cs w w' r : touches w w' r -> table_ok cs w -> table_ok cs w'.
Proof.
  intros Ht (H1 & H2 & H3). split_and!; [done| |done].
  intros id r' Hi. apply (touches_dom _ _ _ Ht). eauto.
Qed.

(** A new channel under a free id keeps the table well-formed. *)
Lemma table_alloc cs w id c win : world_ok w -> chan_ok (mkChan c win [] true) ->
  Z.of_nat (size cs) < MAX_CHANNELS -> cs !! id = None -> table_ok cs w ->
  let '(r, w') := alloc w c win in
  world_ok w' /\ table_ok (<[id := r]> cs) w' /\
  (forall r', r' <> r -> w'.(heap) !! r' = w.(heap) !! r') /\ w.(heap) !! r = None.
Proof.
  intros Hw Hok Hsz Hid (H1 & H2 & H3). cbn.
  assert (Hfresh : forall r ch, w.(heap) !! r = Some ch -> r <> w.(next_ref)).
  { intros r ch Hr. destruct (Hw _ _ Hr). lia. }
  split_and!.
  - intros r ch Hr. cbn in *. destruct (decide (w.(next_ref) = r)) as [<-|Hne].
    + rewrite lookup_insert_eq in Hr. simplify_eq. split; [lia|done].
    + rewrite lookup_insert_ne in Hr by done. destruct (Hw _ _ Hr). split; [lia|done].
  - split_and!.
    + rewrite map_size_insert_None by done. unfold MAX_CHANNELS in *. lia.
    + intros i r Hi. cbn. destruct (decide (id = i)) as [->|Hne].
      * rewrite lookup_insert_eq in Hi. simplify_eq. rewrite lookup_insert_eq. eauto.
      * rewrite lookup_insert_ne in Hi by done. destruct (H2 _ _ Hi) as [ch Hr].
        rewrite lookup_insert_ne by (symmetry; eauto). eauto.
    + intros i j r Hi Hj.
      assert (Hno : forall k, cs !! k = Some w.(next_ref) -> False).
      { intros k Hk. destruct (H2 _ _ Hk) as [ch Hr]. by eapply Hfresh. }
      rewrite lookup_insert in Hi. rewrite lookup_insert in Hj.
      repeat case_decide; simplify_eq; try done; [exfalso; eauto..|eauto].
  - intros r' Hne. by rewrite lookup_insert_ne.
  - destruct (w.(heap) !! w.(next_ref)) as [ch|] eqn:Hr; [|done]. by destruct (Hfresh _ _ Hr).
Qed.

End StoreFacts.

Module ControlledFacts.
Import Store StoreFacts Controlled.

(** The parameters of a frame as the wire type has them. *)
Definition frame_ok (f : option Frame) : Prop :=
  match f with
  | Some (Open _ _ _ n) | Some (Opened _ _ _ n) | Some (WindowUpdate _ n) => in_u 32 n
  | _ => True
  end.

Definition frame_id (f : option Frame) : option Z :=
  match f with
  | Some (Open id _ _ _) | Some (Opened id _ _ _) | Some (DataF id _) | Some (Close id)
  | Some (WindowUpdate id _) => Some id
  | None => None
  end.

Definition is_open (f : option Frame) : bool :=
  match f with Some (Open _ _ _ _) => true | _ => false end.

Record mux_inv (self : PortForwardMux) (w : World) : Prop := mkInv {
  inv_world : world_ok w;
  inv_table : table_ok self.(channels) w;
  inv_tasks : forall t, t ∈ w.(tasks) -> t.(t_addr) = self.(login_target) }.

Definition empty_world : World := mkWorld ∅ 0 [] [].

Lemma mux_inv_init target : mux_inv (mux_new target) empty_world.
Proof.
  split.
  - intros r ch Hr. cbn in Hr. by rewrite lookup_empty in Hr.
  - split_and!; [|intros *; cbn; by rewrite lookup_empty..].
    unfold mux_new, MAX_CHANNELS. cbn [channels]. rewrite map_size_empty. lia.
  - intros t Ht. cbn in Ht. by apply elem_of_nil in Ht.
Qed.

(** Frames other than [open] touch at most the objects of their own channel, and change the
    table at most by removing their own id. *)
Lemma handle_touches self w f p : is_open f = false -> frame_ok f ->
  let '(self', w') := handle self w f p in
  self'.(login_target) = self.(login_target) /\
  ((self' = self /\ w' = w) \/
   exists id r, frame_id f = Some id /\ self.(channels) !! id = Some r /\ touches w w' r /\
     (self'.(channels) = self.(channels) \/ self'.(channels) = delete id self.(channels))).
Proof.
  intros Ho Hf. destruct f as [[id host port win|id ok msg win|id data|id|id n]|]; try done; cbn.
  - split; [done|by left].
  - destruct (channels self !! id) as [r|] eqn:Hid; [|split; [done|by left]].
    pose proof (accept_touches w r (zlen data) ltac:(lia)) as Ta.
    destruct (entry_accept w r (zlen data)) as [[] w1]; cbn in Ta; cbn.
    + pose proof (send_touches w1 r (IData data)) as Ts.
      destruct (send w1 r (IData data)) as [[] w2]; cbn in *; (split; [done|]); right;
        exists id, r; split_and!; eauto using touches_trans.
    + split; [done|]. right. exists id, r. split_and!; eauto using touches_trans, send_touches.
  - destruct (channels self !! id) as [r|] eqn:Hid; [|split; [done|by left]].
    split; [done|]. right. exists id, r. split_and!; eauto using send_touches.
  - destruct (channels self !! id) as [r|] eqn:Hid; [|split; [done|by left]].
    split; [done|]. right. exists id, r. split_and!; eauto.
    apply credit_touches. intros c Hc. apply WindowFacts.add_ok; [|done]. unfold frame_ok, in_u in Hf. lia.
  - split; [done|by left].
Qed.

(** The four refusals and the success of [open]. *)
Lemma on_open_cases self w id host port window permitted :
  let live := filter (fun e : Z * nat => is_closed w e.2 = false) self.(channels) in
  let '(self', w') := on_open self w id host port window permitted in
  self'.(login_target) = self.(login_target) /\
  ((self'.(channels) = live /\ w'.(heap) = w.(heap) /\ w'.(next_ref) = w.(next_ref) /\
    w'.(tasks) = w.(tasks)) \/
   (permitted = true /\ Z.of_nat (size live) < MAX_CHANNELS /\ live !! id = None /\
    (normalize_port_forward_target host port).1 = self.(login_target) /\
    exists r w1, alloc w (credit_new (effective_window window)) (recv_new INITIAL_WINDOW) = (r, w1) /\
      self'.(channels) = <[id := r]> live /\
      w' = spawn w1 (mkTask id self.(login_target) (normalize_port_forward_target host port).2 r None []))).
Proof.
  unfold on_open. cbn zeta. cbn [channels set_channels login_target].
  set (live := filter _ _).
  destruct permitted; cbn [negb]; [|split; [done|by left]].
  destruct (MAX_CHANNELS <=? _) eqn:Hsz; bool_to_prop; [split; [done|by left]|].
  case_bool_decide as Hid; [split; [done|by left]|].
  destruct (normalize_port_forward_target host port) as [addr rdp].
  case_bool_decide as Ha; cbn [negb]; [|split; [done|by left]].
  split; [done|]. right. subst addr.
  split_and!; try done.
  { destruct (live !! id) eqn:E; [|done]. by destruct Hid. }
  eexists _, _. by split_and!.
Qed.

Lemma handle_inv self w f p : frame_ok f -> mux_inv self w ->
  let '(self', w') := handle self w f p in mux_inv self' w'.
Proof.
  intros Hf [Hw Ht Hk]. destruct (is_open f) eqn:Ho.
  - destruct f as [[id host port win| | | |]|]; try done. cbn [handle].
    pose proof (on_open_cases self w id host port win p) as Hc.
    destruct (on_open _ _ _ _ _ _ _) as [self' w']. cbn zeta in Hc.
    assert (Hlive := table_subseteq _ _ w (map_filter_subseteq (fun e : Z * nat => is_closed w e.2 = false)
      (channels self)) Ht).
    destruct Hc as [Hl [(Hch & Hh & Hn & Hts)|(_ & Hsz & Hid & _ & r & w1 & Ha & Hch & ->)]].
    + split.
      * intros r ch Hr. rewrite Hh in Hr. rewrite Hn. by apply Hw.
      * rewrite Hch. destruct Hlive as (? & H2 & ?). split_and!; try done. by rewrite Hh.
      * intros t. rewrite Hts, Hl. apply Hk.
    + pose proof (table_alloc (filter (fun e : Z * nat => is_closed w e.2 = false) (channels self))
        w id (credit_new (effective_window win)) (recv_new INITIAL_WINDOW) Hw) as Hta.
      rewrite Ha in Hta. destruct Hta as (Hw1 & Ht1 & _); try done.
      { cbn in Hf. unfold in_u in Hf. split; cbn; [apply WindowFacts.recv_new_ok; flow|flow]. }
      split; cbn; [exact Hw1|by rewrite Hch|].
      intros t. rewrite elem_of_app, list_elem_of_singleton, Hl. intros [Hin| ->]; [|done].
      apply Hk. unfold alloc in Ha. by simplify_eq.
  - pose proof (handle_touches self w f p Ho Hf) as Hc.
    destruct (handle self w f p) as [self' w'].
    destruct Hc as [Hl [[-> ->]|(id & r & _ & _ & Htch & Hch)]]; [done|]. split.
    + by apply (touches_ok _ _ _ Htch).
    + apply (table_touches _ w _ r); [done|]. destruct Hch as [-> | ->]; [done|].
      eapply table_subseteq; [apply delete_subseteq|done].
    + rewrite (touches_tasks _ _ _ Htch), Hl. done.
Qed.

Lemma handle_all_inv fs : forall self w, Forall (fun x => frame_ok x.1) fs -> mux_inv self w ->
  let '(self', w') := handle_all self w fs in mux_inv self' w'.
Proof.
  induction fs as [|[f p] fs IH]; intros self w Hfs Hi; [done|]. cbn.
  apply Forall_cons in Hfs as [Hf Hfs]. pose proof (handle_inv self w f p Hf Hi) as H1.
  destruct (handle self w f p) as [self' w']. by apply IH.
Qed.

Lemma handle_login_target self w f p : (handle self w f p).1.(login_target) = self.(login_target).
Proof.
  destruct (is_open f) eqn:Ho.
  - destruct f as [[]|]; try done. cbn. pose proof (on_open_cases self w channel_id host port window p) as H.
    destruct (on_open _ _ _ _ _ _ _). by destruct H.
  - destruct f as [[]|]; try done; cbn; repeat case_match; done.
Qed.

Lemma handle_all_login_target fs : forall self w,
  (handle_all self w fs).1.(login_target) = self.(login_target).
Proof.
  induction fs as [|[f p] fs IH]; intros self w; [done|]. cbn.
  pose proof (handle_login_target self w f p) as H. destruct (handle self w f p) as [self' w'].
  cbn in *. by rewrite IH.
Qed.

Definition permitted_open (x : option Frame * bool) : bool := is_open x.1 && x.2.

Lemma handle_tasks self w f p : frame_ok f ->
  (length (handle self w f p).2.(tasks) <=
     length w.(tasks) + if permitted_open (f, p) then 1 else 0)%nat.
Proof.
  intros Hf. unfold permitted_open. cbn. destruct (is_open f) eqn:Ho; cbn.
  - destruct f as [[]|]; try done. cbn. pose proof (on_open_cases self w channel_id host port window p) as H.
    destruct (on_open _ _ _ _ _ _ _) as [self' w'].
    destruct H as [_ [(_ & _ & _ & Hk)|(-> & _ & _ & _ & r & w1 & Ha & _ & ->)]]; cbn.
    + rewrite Hk. lia.
    + unfold alloc in Ha. simplify_eq. cbn. rewrite length_app. cbn. lia.
  - pose proof (handle_touches self w f p Ho Hf) as H. destruct (handle self w f p) as [self' w'].
    destruct H as [_ [[-> ->]|(id & r & _ & _ & Ht & _)]]; cbn; [lia|].
    rewrite (touches_tasks _ _ _ Ht). lia.
Qed.

Lemma handle_all_tasks fs : forall self w, Forall (fun x => frame_ok x.1) fs ->
  (length (handle_all self w fs).2.(tasks) <=
     length w.(tasks) + length (List.filter permitted_open fs))%nat.
Proof.
  induction fs as [|[f p] fs IH]; intros self w Hfs; [cbn; lia|]. cbn [handle_all List.filter].
  apply Forall_cons in Hfs as [Hf Hfs]. pose proof (handle_tasks self w f p Hf) as H.
  destruct (handle self w f p) as [self' w']. cbn in H. specialize (IH self' w' Hfs).
  destruct (permitted_open (f, p)); cbn; lia.
Qed.

(** C14: authorisation and resource bounds of the controlled side.  Whatever frames the
    peer sends on a tunnel logged in for [target], every channel task that is ever spawned
    connects to [target] and to nothing else, there are at most as many tasks as [open]
    frames that found the tunnel permission on, at most 256 channels are live at once, no
    two ids share objects, and every credit and window stays within its 32-bit range. *)
Theorem tunnel_authorised (target : string) (fs : list (option Frame * bool)) :
  Forall (fun x => frame_ok x.1) fs ->
  let '(self, w) := handle_all (mux_new target) empty_world fs in
  (forall t, t ∈ w.(tasks) -> t.(t_addr) = target) /\
  (length w.(tasks) <= length (List.filter permitted_open fs))%nat /\
  table_ok self.(channels) w /\ world_ok w.
Proof.
  intros Hfs. pose proof (handle_all_inv fs _ _ Hfs (mux_inv_init target)) as Hi.
  pose proof (handle_all_tasks fs (mux_new target) empty_world Hfs) as Hn.
  pose proof (handle_all_login_target fs (mux_new target) empty_world) as Hl.
  destruct (handle_all _ _ _) as [self w]. cbn in *. destruct Hi as [? ? Hk].
  split_and!; try done. intros t Ht. rewrite (Hk t Ht). done.
Qed.

Lemma tunnel_authorised_witness :
  let fs := [(open_msg 1 "RDP" 0 262144, true); (open_msg 2 "evil" 22 262144, true);
             (data_msg 1 [1; 2; 3], true); (open_msg 3 "RDP" 0 1, false)] in
  let '(self, w) := handle_all (mux_new "localhost:3389") empty_world fs in
  (t_addr <$> w.(tasks)) = ["localhost:3389"%string] /\
  (length w.(tasks) <= length (List.filter permitted_open fs))%nat.
Proof.
  pose proof (tunnel_authorised "localhost:3389"
    [(open_msg 1 "RDP" 0 262144, true); (open_msg 2 "evil" 22 262144, true);
     (data_msg 1 [1; 2; 3], true); (open_msg 3 "RDP" 0 1, false)]
    ltac:(repeat constructor; vm_compute; congruence)) as H.
  split; [vm_compute; reflexivity|]. exact (proj1 (proj2 H)).
Defined.

(** Isolation of channels.  A frame addressed to one channel leaves every other
    channel of the tunnel exactly as it was: its table entry, its credit, its window and its
    inbound queue.  An [open] in addition only drops entries whose task has ended. *)
Theorem handle_isolates (self : PortForwardMux) (w : World) (f : option Frame) (p : bool)
    (i j : Z) (rj : nat) :
  frame_ok f -> mux_inv self w -> frame_id f = Some i -> j <> i ->
  self.(channels) !! j = Some rj -> is_closed w rj = false ->
  let '(self', w') := handle self w f p in
  self'.(channels) !! j = Some rj /\ w'.(heap) !! rj = w.(heap) !! rj.
Proof.
  intros Hf [Hw Ht Hk] Hi Hne Hj Hc. destruct (is_open f) eqn:Ho.
  - destruct f as [[id host port win| | | |]|]; try done. cbn in Hi. simplify_eq. cbn [handle].
    pose proof (on_open_cases self w i host port win p) as H.
    destruct (on_open _ _ _ _ _ _ _) as [self' w'].
    assert (Hlive : filter (fun e : Z * nat => is_closed w e.2 = false) (channels self) !! j = Some rj)
      by (by apply map_lookup_filter_Some).
    destruct H as [_ [(Hch & Hh & _)|(_ & _ & _ & _ & r & w1 & Ha & Hch & ->)]].
    + by rewrite Hch, Hh.
    + rewrite Hch, lookup_insert_ne by done. split; [done|]. cbn.
      unfold alloc in Ha. simplify_eq. cbn. apply lookup_insert_ne.
      intros <-. destruct Ht as (_ & H2 & _). destruct (H2 _ _ Hj) as [ch Hr].
      destruct (Hw _ _ Hr). lia.
  - pose proof (handle_touches self w f p Ho Hf) as H. destruct (handle self w f p) as [self' w'].
    destruct H as [_ [[-> ->]|(id & r & Hid & Hr & Htch & Hch)]]; [done|].
    rewrite Hi in Hid. simplify_eq. split.
    + destruct Hch as [-> | ->]; [done|]. by rewrite lookup_delete_ne.
    + apply (touches_frame _ _ _ Htch). intros ->. destruct Ht as (_ & _ & H3).
      apply Hne. eapply H3; done.
Qed.

Lemma handle_isolates_witness :
  let st := handle_all (mux_new "localhost:22") empty_world
    [(open_msg 1 "" 22 262144, true); (open_msg 2 "" 22 262144, true)] in
  let '(self', w') := handle st.1 st.2 (close_msg 2) true in
  self'.(channels) !! 1 = Some 0%nat /\ w'.(heap) !! 0%nat = st.2.(heap) !! 0%nat.
Proof.
  intros st. apply (handle_isolates st.1 st.2 (close_msg 2) true 2 1 0%nat); try reflexivity; try done.
  apply (handle_all_inv [(open_msg 1 "" 22 262144, true); (open_msg 2 "" 22 262144, true)]
    (mux_new "localhost:22") empty_world);
    [repeat constructor; vm_compute; congruence|apply mux_inv_init].
Defined.

(** C15: a peer that overruns its window loses the channel at once.  If a [data] frame costs
    more than the window has left, the payload is not queued, the id leaves the table, the
    channel's task is told of the violation behind what it already had, and every later frame
    for that id other than an [open] has no effect at all. *)
Theorem overrun_closes (self : PortForwardMux) (w : World) (id : Z) (data : list Z)
    (r : nat) (ch : Chan) (p : bool) (later : list (option Frame * bool)) :
  self.(channels) !! id = Some r -> w.(heap) !! r = Some ch -> ch.(c_rx_open) = true ->
  ch.(c_window).(remaining) < charge (zlen data) ->
  Forall (fun x => is_open x.1 = false /\ frame_id x.1 = Some id) later ->
  let '(self', w') := handle self w (data_msg id data) p in
  self'.(channels) = delete id self.(channels) /\
  w'.(heap) !! r = Some (mkChan ch.(c_credit) ch.(c_window) (ch.(c_queue) ++ [IViolation]) true) /\
  handle_all self' w' later = (self', w').
Proof.
  intros Hid Hr Ho Hover Hlater. cbn [handle data_msg channel_msg]. rewrite Hid.
  unfold entry_accept. rewrite Hr, WindowFacts.accept_spec by lia.
  rewrite (proj2 (Z.leb_gt _ _)) by done. cbn [negb].
  unfold send. cbn [heap set_heap]. rewrite lookup_insert_eq. cbn [c_rx_open]. rewrite Ho. cbn.
  rewrite lookup_insert_eq. split_and!; try done.
  induction later as [|[f q] later IH]; [done|]. apply Forall_cons in Hlater as [[Hf Hi] Hl].
  cbn [handle_all]. match goal with |- context [handle ?s ?v f q] => assert (handle s v f q = (s, v)) as -> end.
  { destruct f as [[]|]; try done; cbn in *; simplify_eq; by rewrite ?lookup_delete_eq. }
  by apply IH.
Qed.

Lemma overrun_closes_witness :
  let st := handle_all (mux_new "localhost:22") empty_world [(open_msg 1 "" 22 0, true)] in
  let big := replicate (Z.to_nat 65537) 7 in
  let '(self', w') := handle st.1 st.2 (data_msg 1 big) true in
  self'.(channels) = delete 1 st.1.(channels) /\
  w'.(heap) !! 0%nat = Some (mkChan 65536 (mkRecv 65536 0) [IViolation] true) /\
  handle_all self' w' [(data_msg 1 [1], true); (close_msg 1, true)] = (self', w').
Proof.
  intros st big.
  apply (overrun_closes st.1 st.2 1 big 0%nat (mkChan 65536 (mkRecv 65536 0) [] true));
    try reflexivity.
  repeat constructor.
Defined.

End ControlledFacts.

Module ControllerFacts.
Import Store StoreFacts Controller.

Definition in_i32 (x : Z) : Prop := - 2 ^ 31 <= x < 2 ^ 31.

(** ** The id counter *)

Lemma swrap_id x : in_i32 x -> swrap 32 x = x.
Proof. unfold in_i32, swrap. change (2 ^ (32 - 1)) with (2 ^ 31). pow2. intros. rewrite Z.mod_small; lia. Qed.

Lemma swrap_range x : in_i32 (swrap 32 x).
Proof.
  unfold in_i32, swrap. change (2 ^ (32 - 1)) with (2 ^ 31). pow2.
  pose proof (Z.mod_pos_bound (x + 2147483648) 4294967296). lia.
Qed.

Lemma swrap_add x y : swrap 32 (swrap 32 x + y) = swrap 32 (x + y).
Proof.
  unfold swrap. change (2 ^ (32 - 1)) with (2 ^ 31). f_equal.
  replace ((x + 2 ^ 31) mod 2 ^ 32 - 2 ^ 31 + y + 2 ^ 31) with ((x + 2 ^ 31) mod 2 ^ 32 + y) by lia.
  rewrite Zplus_mod_idemp_l. f_equal. lia.
Qed.

Lemma swrap_inj x i j : 0 <= i < 2 ^ 32 -> 0 <= j < 2 ^ 32 ->
  swrap 32 (x + i) = swrap 32 (x + j) -> i = j.
Proof.
  unfold swrap. intros Hi Hj H. change (2 ^ (32 - 1)) with (2 ^ 31) in H. pow2.
  assert (E : (x + i + 2147483648) mod 4294967296 = (x + j + 2147483648) mod 4294967296) by lia.
  pose proof (Z.div_mod (x + i + 2147483648) 4294967296).
  pose proof (Z.div_mod (x + j + 2147483648) 4294967296). nia.
Qed.

(** Every id tried before the loop gives up is taken. *)
Lemma fresh_id_none fuel cs : forall x, fresh_id fuel cs (swrap 32 x) = None ->
  forall k, 0 <= k < Z.of_nat fuel -> is_Some (cs !! swrap 32 (x + k)).
Proof.
  induction fuel as [|fuel IH]; intros x H k Hk; [lia|]. cbn in H. case_bool_decide as Hs; [|done].
  rewrite swrap_add in H. destruct (decide (k = 0)) as [->|Hne]; [by rewrite Z.add_0_r|].
  replace (x + k) with (x + 1 + (k - 1)) by lia. apply IH; [done|lia].
Qed.

(** With one increment more than there are live channels, a free id is found: the ids tried
    are pairwise different, so they cannot all be taken. *)
Lemma fresh_id_total cs x : Z.of_nat (size cs) < 2 ^ 32 - 1 ->
  exists id next, fresh_id (S (size cs)) cs (swrap 32 x) = Some (id, next).
Proof.
  intros Hsz. destruct (fresh_id _ cs (swrap 32 x)) as [[id next]|] eqn:H; [by eauto|].
  pose proof (fresh_id_none _ _ _ H) as Hall. exfalso.
  set (ids := (fun k : nat => swrap 32 (x + Z.of_nat k)) <$> seq 0 (S (size cs))).
  assert (Hnd : NoDup ids).
  { apply NoDup_fmap_2_strong; [|apply NoDup_seq]. intros i j Hi Hj E.
    apply elem_of_seq in Hi. apply elem_of_seq in Hj.
    apply swrap_inj in E; lia. }
  assert (Hsub : list_to_set (C := gset Z) ids ⊆ dom cs).
  { intros i Hi. apply elem_of_list_to_set in Hi. unfold ids in Hi.
    apply list_elem_of_fmap in Hi as (k & -> & Hk). apply elem_of_seq in Hk.
    apply elem_of_dom, Hall. lia. }
  apply subseteq_size in Hsub. rewrite size_list_to_set, size_dom in Hsub by done.
  unfold ids in Hsub. rewrite length_fmap, length_seq in Hsub. lia.
Qed.

Lemma fresh_id_some fuel cs : forall x id next, in_i32 x -> fresh_id fuel cs x = Some (id, next) ->
  cs !! id = None /\ in_i32 id /\ in_i32 next.
Proof.
  induction fuel as [|fuel IH]; intros x id next Hx H; [done|]. cbn in H. case_bool_decide as Hs.
  - eapply IH; [|done]. apply swrap_range.
  - simplify_eq. split_and!; [by apply eq_None_not_Some|done|apply swrap_range].
Qed.

Definition refs (self : TunnelHandle) : gmap Z nat := entry_ref <$> self.(h_channels).

Record handle_inv (self : TunnelHandle) (w : World) : Prop := mkHInv {
  hinv_world : world_ok w;
  hinv_table : table_ok (refs self) w;
  hinv_next : in_i32 self.(next_id);
  hinv_reported : Z.of_nat (size self.(reported)) <= MAX_REPORTED_OPEN_ERRORS }.

Lemma size_refs self : size (refs self) = size self.(h_channels).
Proof. apply map_size_fmap. Qed.

Lemma handle_inv_init : handle_inv handle_new ControlledFacts.empty_world.
Proof.
  split.
  - intros r ch Hr. cbn in Hr. by rewrite lookup_empty in Hr.
  - unfold refs. cbn. rewrite fmap_empty. split_and!; [|intros *; by rewrite lookup_empty..].
    rewrite map_size_empty. unfold MAX_CHANNELS. lia.
  - unfold in_i32. cbn. lia.
  - unfold handle_new, MAX_REPORTED_OPEN_ERRORS. cbn [reported]. rewrite map_size_empty. lia.
Qed.

Lemma first_report_inv self w m now : handle_inv self w -> handle_inv (first_report_at self m now).2 w.
Proof.
  intros [? ? ? Hr]. unfold first_report_at. case_bool_decide; [done|].
  set (rep := filter _ _).
  assert (Hle : (size rep <= size (reported self))%nat)
    by (apply map_subseteq_size, map_filter_subseteq).
  unfold MAX_REPORTED_OPEN_ERRORS in *.
  destruct (rep !! m) eqn:Hm; [|destruct (8 <=? _) eqn:Hs; bool_to_prop];
    cbn [snd]; split; cbn -[size]; try done; unfold MAX_REPORTED_OPEN_ERRORS in *.
  - rewrite map_size_insert_Some by eauto. lia.
  - lia.
  - rewrite map_size_insert_None by done. lia.
Qed.

Lemma refs_delete self id : refs (set_h_channels self (delete id self.(h_channels))) = delete id (refs self).
Proof. unfold refs. cbn. by rewrite fmap_delete. Qed.

(** A step that touches one channel's objects and perhaps removes one id. *)
Lemma handle_inv_touch self self' w w' r id : handle_inv self w -> touches w w' r ->
  self'.(next_id) = self.(next_id) -> self'.(reported) = self.(reported) ->
  (refs self' = refs self \/ refs self' = delete id (refs self)) -> handle_inv self' w'.
Proof.
  intros [Hw Ht Hn Hrep] Htch En Er Hrefs. split; [by apply (touches_ok _ _ _ Htch)| |by rewrite En|by rewrite Er].
  apply (table_touches _ w _ r); [done|]. destruct Hrefs as [-> | ->]; [done|].
  eapply table_subseteq; [apply delete_subseteq|done].
Qed.

Lemma on_frame_inv self w f now : ControlledFacts.frame_ok f -> handle_inv self w ->
  let '(_, self', w') := on_frame self w f now in handle_inv self' w'.
Proof.
  intros Hf Hi.
  destruct f as [[id host port win|id ok msg win|id data|id|id n]|]; try done; cbn -[Z.of_nat];
    cbn in Hf.
  - destruct (h_channels self !! id) as [e|] eqn:He; destruct ok; try done.
    + destruct (entry_opened e) eqn:Ho; [done|].
      eapply (handle_inv_touch self _ w _ (entry_ref e) id); try done.
      * apply credit_touches. intros c Hc. unfold in_u in Hf. flow.
      * left. unfold refs. cbn. rewrite fmap_insert. cbn. apply insert_id.
        by rewrite lookup_fmap, He.
    + set (self1 := set_h_channels _ _).
      assert (H1 : handle_inv self1 (send w (entry_ref e) IClose).2).
      { eapply (handle_inv_touch self _ w _ (entry_ref e) id); try done; [apply send_touches|].
        right. apply refs_delete. }
      pose proof (first_report_inv self1 _ msg now H1) as H2.
      destruct (first_report_at self1 msg now) as [rep self2]. done.
  - destruct (h_channels self !! id) as [e|] eqn:He; [|done].
    pose proof (accept_touches w (entry_ref e) (zlen data) ltac:(lia)) as Ta.
    destruct (entry_accept w (entry_ref e) (zlen data)) as [[] w1]; cbn in Ta; cbn.
    + pose proof (send_touches w1 (entry_ref e) (IData data)) as Ts.
      destruct (send w1 (entry_ref e) (IData data)) as [[] w2]; cbn in *;
        eapply (handle_inv_touch self _ w _ (entry_ref e) id); try done; try (by eapply touches_trans).
      * by left.
      * right. apply refs_delete.
    + eapply (handle_inv_touch self _ w _ (entry_ref e) id); try done;
        [eapply touches_trans; [done|apply send_touches]|right; apply refs_delete].
  - destruct (h_channels self !! id) as [e|] eqn:He; [|done].
    eapply (handle_inv_touch self _ w _ (entry_ref e) id); try done; [apply send_touches|].
    right. apply refs_delete.
  - destruct (h_channels self !! id) as [e|] eqn:He; [|done].
    eapply (handle_inv_touch self _ w _ (entry_ref e) id); try done; [|by left].
    apply credit_touches. intros c Hc. unfold in_u in Hf. apply WindowFacts.add_ok; [lia|done].
Qed.

(** Opening a channel on the controller.  While the tunnel's writer is there and fewer
    than 256 channels are live, [open] always succeeds: the id loop ends after at most one
    step more than there are live channels, even after the 32-bit counter has wrapped around;
    the id it returns was not in use, the new channel starts with the fixed initial credit
    and the full receive window, its task's first frame is the [open] that names it, and
    the handle's invariant is kept.  Otherwise [open] fails and changes nothing. *)
Theorem open_fresh (self : TunnelHandle) (w : World) (closed : bool) (host : string) (port : Z)
    (prebuf : list Z) :
  handle_inv self w ->
  let '(res, self', w') := open self w closed host port prebuf in
  handle_inv self' w' /\
  match res with
  | Ok id =>
    closed = false /\ Z.of_nat (size self.(h_channels)) < MAX_CHANNELS /\
    self.(h_channels) !! id = None /\ in_i32 id /\
    exists r, self'.(h_channels) = <[id := mkEntry r false]> self.(h_channels) /\
      w.(heap) !! r = None /\
      w'.(heap) = <[r := mkChan INITIAL_WINDOW (mkRecv CHANNEL_WINDOW 0) [] true]> w.(heap) /\
      w'.(tasks) = w.(tasks) ++ [mkTask id "" false r (open_msg id host port CHANNEL_WINDOW) prebuf]
  | Err _ => (closed = true \/ MAX_CHANNELS <= Z.of_nat (size self.(h_channels))) /\
      self' = self /\ w' = w
  end.
Proof.
  intros Hinv. unfold open. destruct closed; [by split_and!; [|left|..]|].
  destruct (alloc w _ _) as [r w1] eqn:Ha.
  destruct (MAX_CHANNELS <=? _) eqn:Hsz; bool_to_prop; [by split_and!; [|right|..]|].
  pose proof Hinv as [Hw Ht Hn Hrep].
  destruct (fresh_id_total (h_channels self) (next_id self)) as (id & next & Hid).
  { unfold MAX_CHANNELS in Hsz. lia. }
  rewrite (swrap_id _ Hn) in Hid. rewrite Hid.
  apply fresh_id_some in Hid as (Hnone & Hid & Hnext); [|done].
  pose proof (table_alloc (refs self) w id (credit_new INITIAL_WINDOW) (recv_new CHANNEL_WINDOW) Hw) as Hta.
  rewrite Ha in Hta. destruct Hta as (Hw1 & Ht1 & _ & Hfree).
  { split; flow. } { by rewrite size_refs. } { unfold refs. by rewrite lookup_fmap, Hnone. } { done. }
  split.
  - split; cbn; [exact Hw1| |done|done]. unfold refs. cbn. by rewrite fmap_insert.
  - split_and!; try done. exists r. unfold alloc in Ha. simplify_eq. by split_and!.
Qed.

Lemma open_fresh_witness :
  let self := mkHandle {[ 2 ^ 31 - 1 := mkEntry 0 true ]} (2 ^ 31 - 1) ∅ false in
  let w := mkWorld {[ 0%nat := mkChan 0 (mkRecv 0 0) [] true ]} 1 [] [] in
  handle_inv self w /\ (open self w false "h" 22 []).1.1 = Ok (- 2 ^ 31) /\
  handle_inv (open self w false "h" 22 []).1.2 (open self w false "h" 22 []).2.
Proof.
  intros self w.
  assert (Hi : handle_inv self w).
  { split.
    - intros r ch Hr. cbn in Hr. apply lookup_singleton_Some in Hr as [<- <-]. split; [cbn; lia|]. split; flow.
    - unfold refs. cbn [h_channels self]. rewrite map_fmap_singleton. split_and!.
      + rewrite map_size_singleton. unfold MAX_CHANNELS. lia.
      + intros id r Hr. apply lookup_singleton_Some in Hr as [_ <-]. cbn. eauto.
      + intros i j r Hi Hj. apply lookup_singleton_Some in Hi as [<- _].
        by apply lookup_singleton_Some in Hj as [<- _].
    - unfold in_i32. cbn. pow2. lia.
    - vm_compute. congruence. }
  split; [done|]. pose proof (open_fresh self w false "h" 22 [] Hi) as H.
  destruct (open self w false "h" 22 []) as [[res self'] w'] eqn:E. destruct H as [H _].
  split; [|done]. vm_compute in E. by simplify_eq.
Defined.

(** ** Frames from the peer *)

Fixpoint on_frames (self : TunnelHandle) (w : World) (fs : list (option Frame * Z))
    : list string * TunnelHandle * World :=
  match fs with
  | [] => ([], self, w)
  | (f, now) :: fs =>
    let '(r, self, w) := on_frame self w f now in
    let '(rs, self, w) := on_frames self w fs in
    (match r with Some m => m :: rs | None => rs end, self, w)
  end.

(** C16: the controller is safe against the peer.  Any sequence of frames keeps the table
    within 256 channels with disjoint objects, every window and credit within range, the
    remembered refusals at eight at most; and a repeated [opened] has no effect: the credit
    of a channel is re-based to the peer's window once, however often the peer says so. *)
Theorem on_frames_safe (self : TunnelHandle) (w : World) (fs : list (option Frame * Z))
    (id win win' now now' : Z) (m m' : string) :
  handle_inv self w -> Forall (fun x => ControlledFacts.frame_ok x.1) fs ->
  let '(_, self', w') := on_frames self w fs in
  handle_inv self' w' /\
  let '(_, self1, w1) := on_frame self' w' (opened_msg id true m win) now in
  on_frame self1 w1 (opened_msg id true m' win') now' = (None, self1, w1).
Proof.
  intros Hi Hfs. revert self w Hi. induction Hfs as [|[f t] fs Hf Hfs IH]; intros self w Hi.
  - cbn [on_frames]. split; [done|]. cbn [on_frame opened_msg channel_msg].
    destruct (h_channels self !! id) as [e|] eqn:He; [|by rewrite He].
    destruct (entry_opened e) eqn:Ho; [by rewrite He, Ho|].
    cbn. by rewrite lookup_insert_eq.
  - cbn [on_frames]. pose proof (on_frame_inv self w f t Hf Hi) as H1.
    destruct (on_frame self w f t) as [[r self1] w1]. specialize (IH self1 w1 H1).
    destruct (on_frames self1 w1 fs) as [[rs self2] w2]. done.
Qed.

Lemma on_frames_safe_witness :
  let '(_, self', w') := on_frames handle_new ControlledFacts.empty_world
    [(opened_msg 1 false "no" 0, 5); (window_update_msg 1 7, 6)] in
  handle_inv self' w' /\
  let '(_, self1, w1) := on_frame self' w' (opened_msg 1 true "" 262144) 7 in
  on_frame self1 w1 (opened_msg 1 true "" 262144) 8 = (None, self1, w1).
Proof.
  apply on_frames_safe; [apply handle_inv_init|repeat constructor; vm_compute; congruence].
Defined.

(** ** Refusal dialogs *)

(** The calls [first_report_at] answers, as (reason, time). *)
Fixpoint reports (self : TunnelHandle) (calls : list (string * Z)) : list (option string) :=
  match calls with
  | [] => []
  | (m, now) :: calls =>
    let '(r, self) := first_report_at self m now in r :: reports self calls
  end.

(** Every call comes less than [REPORT_AGAIN_AFTER] after the last one for [m]. *)
Fixpoint burst (m : string) (last : Z) (calls : list (string * Z)) : Prop :=
  match calls with
  | [] => True
  | (m', now) :: calls =>
    now - last < REPORT_AGAIN_AFTER /\ burst m (if decide (m' = m) then now else last) calls
  end.

Lemma first_report_keeps self m m' last now : self.(reported) !! m = Some last ->
  now - last < REPORT_AGAIN_AFTER ->
  let '(r, self') := first_report_at self m' now in
  r <> Some m /\ self'.(reported) !! m = Some (if decide (m' = m) then if decide (m' = ""%string) then last else now else last).
Proof.
  intros Hm Hlt. unfold first_report_at. case_bool_decide as He.
  { split; [done|]. by repeat case_decide. }
  set (rep := filter _ _).
  assert (Hrep : rep !! m = Some last).
  { apply map_lookup_filter_Some. split; [done|]. cbn. unfold sat_sub, REPORT_AGAIN_AFTER in *. lia. }
  rewrite (decide_False (P := m' = ""%string)) by done.
  destruct (decide (m' = m)) as [->|Hne].
  - rewrite Hrep. cbn. by rewrite lookup_insert_eq.
  - destruct (rep !! m'); [|destruct (_ <=? _)]; cbn; rewrite ?lookup_insert_ne by done;
      split; try done; congruence.
Qed.

Lemma burst_silent calls : forall self m last, m <> ""%string -> self.(reported) !! m = Some last ->
  burst m last calls -> Forall (fun r => r <> Some m) (reports self calls).
Proof.
  induction calls as [|[m' now] calls IH]; intros self m last Hne Hm Hb; [constructor|].
  destruct Hb as [Hlt Hb]. cbn [reports]. pose proof (first_report_keeps self m m' last now Hm Hlt) as Hk.
  destruct (first_report_at self m' now) as [r self']. destruct Hk as [Hr Hm'].
  constructor; [done|]. eapply IH; [done|done|].
  destruct (decide (m' = m)) as [->|]; [by rewrite (decide_False (P := _ = ""%string)) by done|done].
Qed.

(** A burst of refusals makes one dialog.  Once a reason has been reported, then, as
    long as its refusals keep coming less than ten seconds apart, it is never reported
    again, whatever other refusals are interleaved; a reason is only reported when it is not
    empty and was not seen within ten seconds. *)
Theorem report_once_per_burst (self : TunnelHandle) (m : string) (now : Z) (calls : list (string * Z)) :
  (first_report_at self m now).1 = Some m -> burst m now calls ->
  m <> ""%string /\
  (forall last, self.(reported) !! m = Some last -> REPORT_AGAIN_AFTER <= now - last) /\
  Forall (fun r => r <> Some m) (reports (first_report_at self m now).2 calls).
Proof.
  intros Hr Hb. unfold first_report_at in *. case_bool_decide as He; [done|].
  set (rep := filter _ _) in *. destruct (rep !! m) eqn:Hm; [done|].
  destruct (MAX_REPORTED_OPEN_ERRORS <=? _) eqn:Hs; [done|]. cbn [fst snd] in *. split_and!; [done| |].
  - intros last Hl. unfold rep in Hm. apply map_lookup_filter_None_1 in Hm as [Hm|Hm]; [congruence|].
    specialize (Hm _ Hl). cbn in Hm. unfold sat_sub, REPORT_AGAIN_AFTER in *. lia.
  - eapply burst_silent; [done| |done]. cbn. by rewrite lookup_insert_eq.
Qed.

Lemma report_once_per_burst_witness :
  "x"%string <> ""%string /\
  (forall last, handle_new.(reported) !! "x"%string = Some last -> REPORT_AGAIN_AFTER <= 0 - last) /\
  Forall (fun r => r <> Some "x"%string)
    (reports (first_report_at handle_new "x" 0).2 [("x"%string, 9000); ("y"%string, 9500); ("x"%string, 18000)]).
Proof.
  apply (report_once_per_burst handle_new "x" 0 [("x"%string, 9000); ("y"%string, 9500); ("x"%string, 18000)]).
  - vm_compute. reflexivity.
  - unfold burst, REPORT_AGAIN_AFTER. repeat (case_decide; try done); lia.
Defined.

End ControllerFacts.
