(* ===== verification/MuxRelay.v ===== *)
(** The tasks of a multiplexed channel: the two relays and [run_channel] of
    [src/port_forward_mux.rs], and [run_controlled_channel] of
    [src/server/port_forward_mux.rs].

    An [async] task is a state machine whose states are its await points.  An event says
    which branch of the pending [select!] completes and with what result; a step function
    returns [None] when that branch cannot complete in this state, so a run is a sequence of
    enabled events in any order the scheduler chooses.  The frames a step returns are those
    its sink accepted. *)

From S2P Require Import Prelude MuxWindow.
Import Window.

Module Relay.

(** ** Local socket to tunnel *)

(** Await points of [relay_socket_to_tunnel]: waiting for credit, reading up to [allow]
    bytes under it, sending the frame. *)
Inductive s2t_pc := S2T_Take | S2T_Read (allow : Z) | S2T_Send (data : list Z) | S2T_End (r : RelayEnd).

(** [prebuf]: what is left of the cursor chained before the socket. *)
Record S2T := mkS2T { s2t_at : s2t_pc; s2t_prebuf : list Z }.

(** [SRead data]: the socket's read completes with [data], [[]] for end of file or an error;
    [SSent ok]: the frame was queued, or the writer is gone. *)
Inductive SEvent := SPoll | SRead (data : list Z) | SSent (ok : bool) | SCancel.

(** The chained reader drains the prebuffer before it reads the socket. *)
Definition chain_read (self : S2T) (allow : Z) (socket : list Z) : list Z * list Z :=
  match self.(s2t_prebuf) with
  | [] => (socket, [])
  | buf => (ztake allow buf, zdrop allow buf)
  end.

Definition relay_socket_to_tunnel (id : Z) (self : S2T) (credit : SendCredit) (ev : SEvent)
    : option (S2T * SendCredit * list (option Frame)) :=
  match self.(s2t_at), ev with
  | S2T_Take, SPoll =>
    match take credit MAX_FRAME with
    | Some (n, credit) => Some (mkS2T (S2T_Read n) self.(s2t_prebuf), credit, [])
    | None => None
    end
  | S2T_Take, SCancel => Some (mkS2T (S2T_End Cancelled) self.(s2t_prebuf), credit, [])
  | S2T_Read allow, SRead socket =>
    if allow <? zlen socket then None else
    let '(data, prebuf) := chain_read self allow socket in
    let got := zlen data in
    let spent := if got =? 0 then 0 else charge got in
    let credit := if spent <? allow then add credit (allow - spent) else credit in
    if got =? 0 then Some (mkS2T (S2T_End LocalEof) prebuf, credit, [])
    else Some (mkS2T (S2T_Send data) prebuf, credit, [])
  | S2T_Read allow, SCancel =>
    Some (mkS2T (S2T_End Cancelled) self.(s2t_prebuf), add credit allow, [])
  | S2T_Send data, SSent true => Some (mkS2T S2T_Take self.(s2t_prebuf), credit, [data_msg id data])
  | S2T_Send data, SSent false => Some (mkS2T (S2T_End TunnelGone) self.(s2t_prebuf), credit, [])
  | _, _ => None
  end.

(** ** Tunnel to local socket *)

Inductive t2s_pc := T2S_Next | T2S_Write (chunk : list Z) | T2S_End (r : RelayEnd).
Record T2S := mkT2S { t2s_at : t2s_pc; t2s_pending : list (list Z) }.

(** [TPop]: the next chunk, from [initial] or the inbound queue ([None] of [recv] when the
    demultiplexer dropped the sender); [TWritten ok ctl]: the socket write completed, and a
    window update, if one is due, was queued or not. *)
Inductive TEvent := TPop | TWritten (ok ctl : bool) | TCancel.

Definition relay_tunnel_to_socket (id : Z) (self : T2S) (queue : list Inbound) (sender_alive : bool)
    (window : RecvWindow) (ev : TEvent)
    : option (T2S * list Inbound * RecvWindow * list (option Frame)) :=
  match self.(t2s_at), ev with
  | T2S_Next, TPop =>
    match self.(t2s_pending), queue with
    | c :: pending, _ => Some (mkT2S (T2S_Write c) pending, queue, window, [])
    | [], IData c :: queue => Some (mkT2S (T2S_Write c) [], queue, window, [])
    | [], IClose :: queue => Some (mkT2S (T2S_End PeerClosed) [], queue, window, [])
    | [], IViolation :: queue => Some (mkT2S (T2S_End Violation) [], queue, window, [])
    | [], [] => if sender_alive then None
                else Some (mkT2S (T2S_End TunnelGone) [], [], window, [])
    end
  | T2S_Next, TCancel =>
    if is_nil self.(t2s_pending) then Some (mkT2S (T2S_End Cancelled) [], queue, window, []) else None
  | T2S_Write c, TCancel => Some (mkT2S (T2S_End Cancelled) self.(t2s_pending), queue, window, [])
  | T2S_Write c, TWritten ok ctl =>
    if negb ok then Some (mkT2S (T2S_End LocalEof) self.(t2s_pending), queue, window, []) else
    match drained window (zlen c) with
    | (None, window) => Some (mkT2S T2S_Next self.(t2s_pending), queue, window, [])
    | (Some n, window) =>
      if ctl then Some (mkT2S T2S_Next self.(t2s_pending), queue, window, [window_update_msg id n])
      else Some (mkT2S (T2S_End TunnelGone) self.(t2s_pending), queue, window, [])
    end
  | _, _ => None
  end.

(** ** A whole channel *)

(** [run_channel] joins the two relays; [rc_cancel] is the value of the [cancel] watch. *)
Record RunChannel := mkRC { rc_s2t : S2T; rc_t2s : T2S; rc_cancel : bool; rc_done : bool }.

Definition rc_new (prebuf : list Z) (initial_out : list (list Z)) : RunChannel :=
  mkRC (mkS2T S2T_Take prebuf) (mkT2S T2S_Next initial_out) false false.

Definition s2t_end (s : S2T) : option RelayEnd :=
  match s.(s2t_at) with S2T_End r => Some r | _ => None end.
Definition t2s_end (s : T2S) : option RelayEnd :=
  match s.(t2s_at) with T2S_End r => Some r | _ => None end.

(** Whether [close] goes out once both halves have ended. *)
Definition close_due (first second : RelayEnd) : bool :=
  let is_ r := bool_decide (first = r) || bool_decide (second = r) in
  let peer_closed := is_ PeerClosed in
  let tunnel_gone := is_ TunnelGone in
  let local_reason := is_ LocalEof || is_ Violation in
  negb peer_closed && negb tunnel_gone && local_reason.

(** [REnd ok]: both joins completed; [ok] is whether the sink took the [close]. *)
Inductive REvent := RS (ev : SEvent) | RT (ev : TEvent) | RTeardown | REnd (ok : bool).

(** The shared objects a channel's task works on. *)
Record Objects := mkObj { o_credit : SendCredit; o_window : RecvWindow; o_queue : list Inbound; o_alive : bool }.

Definition run_channel (id : Z) (self : RunChannel) (o : Objects) (ev : REvent)
    : option (RunChannel * Objects * list (option Frame)) :=
  if self.(rc_done) then None else
  match ev with
  | RS ev =>
    if (match ev with SCancel => negb self.(rc_cancel) | _ => false end) then None else
    match relay_socket_to_tunnel id self.(rc_s2t) o.(o_credit) ev with
    | Some (s, c, out) =>
      Some (mkRC s self.(rc_t2s) (self.(rc_cancel) || bool_decide (is_Some (s2t_end s))) false,
            mkObj c o.(o_window) o.(o_queue) o.(o_alive), out)
    | None => None
    end
  | RT ev =>
    if (match ev with TCancel => negb self.(rc_cancel) | _ => false end) then None else
    match relay_tunnel_to_socket id self.(rc_t2s) o.(o_queue) o.(o_alive) o.(o_window) ev with
    | Some (t, q, w, out) =>
      Some (mkRC self.(rc_s2t) t (self.(rc_cancel) || bool_decide (is_Some (t2s_end t))) false,
            mkObj o.(o_credit) w q o.(o_alive), out)
    | None => None
    end
  | RTeardown => Some (mkRC self.(rc_s2t) self.(rc_t2s) true false, o, [])
  | REnd ok =>
    match s2t_end self.(rc_s2t), t2s_end self.(rc_t2s) with
    | Some a, Some b =>
      Some (mkRC self.(rc_s2t) self.(rc_t2s) self.(rc_cancel) true, o,
            if close_due a b && ok then [close_msg id] else [])
    | _, _ => None
    end
  end.

(** ** The controlled side before its socket is connected *)

Definition pending_fits (charged add_len : Z) : bool :=
  sat_add 64 charged (charge add_len) <=? INITIAL_WINDOW.

Definition unreachable_message (addr : string) (is_rdp : bool) : string :=
  ("Failed to access remote " ++ (if is_rdp then "RDP" else addr) ++
   ". Please make sure it is reachable/open.")%string.

Inductive Controlled :=
| Connecting (pending : list (list Z)) (pending_len : Z)
| Relaying (rc : RunChannel)
| Ended.

(** [CCmd]: the inbound arm; [CConnect]: the connect arm, with its result; both with whether
    the sink took the answer, if there is one.  The [select!] is biased: the connect arm is polled only while the
    inbound queue has nothing to give. *)
Inductive CEvent := CCmd (sink_ok : bool) | CConnect (connected sink_ok : bool) | CRelay (ev : REvent).

Definition run_controlled_channel (id : Z) (addr : string) (is_rdp : bool)
    (self : Controlled) (o : Objects) (ev : CEvent)
    : option (Controlled * Objects * list (option Frame)) :=
  match self, ev with
  | Connecting pending pending_len, CCmd sink_ok =>
    let answer f : list (option Frame) := if sink_ok then [f] else [] in
    let with_queue q := mkObj o.(o_credit) o.(o_window) q o.(o_alive) in
    match o.(o_queue) with
    | IData b :: q =>
      if negb (pending_fits pending_len (zlen b)) then Some (Ended, with_queue q, answer (close_msg id))
      else Some (Connecting (pending ++ [b]) (wrap 64 (pending_len + charge (zlen b))), with_queue q, [])
    | IClose :: q => Some (Ended, with_queue q, [])
    | IViolation :: q => Some (Ended, with_queue q, answer (close_msg id))
    | [] => if o.(o_alive) then None else Some (Ended, o, [])
    end
  | Connecting pending pending_len, CConnect connected sink_ok =>
    if negb (is_nil o.(o_queue)) || negb o.(o_alive) then None else
    if negb connected then
      Some (Ended, o, if sink_ok then [opened_msg id false (unreachable_message addr is_rdp) 0] else [])
    else
      let o := mkObj o.(o_credit) (grant o.(o_window) (CHANNEL_WINDOW - INITIAL_WINDOW)) o.(o_queue) o.(o_alive) in
      if sink_ok then
        Some (Relaying (rc_new [] pending), o, [opened_msg id true "" CHANNEL_WINDOW])
      else Some (Ended, o, [])
  | Relaying rc, CRelay ev =>
    match run_channel id rc o ev with
    | Some (rc, o, out) => Some (Relaying rc, o, out)
    | None => None
    end
  | _, _ => None
  end.

End Relay.

Module RelayFacts.
Import Relay.

(** A run of one channel in any environment: between two events the other side, the
    demultiplexer and the scheduler may have changed the shared objects in any way. *)
Inductive rc_trace (id : Z) : RunChannel -> list (option Frame) -> RunChannel -> Prop :=
| rc_refl rc : rc_trace id rc [] rc
| rc_step rc rc1 rc2 o o1 ev out outs :
    rc_trace id rc outs rc1 -> run_channel id rc1 o ev = Some (rc2, o1, out) ->
    rc_trace id rc (outs ++ out) rc2.

(** What a relay may put on the wire. *)
Definition relay_frame (id : Z) (f : option Frame) : Prop :=
  (exists d, f = data_msg id d) \/ (exists n, f = window_update_msg id n).

Lemma s2t_out id s c ev s' c' out :
  relay_socket_to_tunnel id s c ev = Some (s', c', out) -> Forall (relay_frame id) out.
Proof.
  unfold relay_socket_to_tunnel. intros. repeat case_match; simplify_eq;
  try apply Forall_nil_2; apply Forall_singleton; left; by eexists.
Qed.

Lemma t2s_out id s q a w ev s' q' w' out :
  relay_tunnel_to_socket id s q a w ev = Some (s', q', w', out) -> Forall (relay_frame id) out.
Proof.
  unfold relay_tunnel_to_socket. intros. repeat case_match; simplify_eq;
  try apply Forall_nil_2; apply Forall_singleton; right; by eexists.
Qed.

(** A frame leaves only while the channel runs, and [close] only as its last act. *)
Lemma run_channel_cases id rc o ev rc' o' out : run_channel id rc o ev = Some (rc', o', out) ->
  rc.(rc_done) = false /\
  ((rc'.(rc_done) = false /\ Forall (relay_frame id) out) \/
   (rc'.(rc_done) = true /\ exists a b, s2t_end rc'.(rc_s2t) = Some a /\ t2s_end rc'.(rc_t2s) = Some b /\
      (out = [] \/ out = [close_msg id] /\ close_due a b = true))).
Proof.
  unfold run_channel. intros H. destruct (rc_done rc); [done|]. split; [done|].
  destruct ev as [ev|ev| |ok].
  - destruct (match ev with SCancel => _ | _ => _ end); [done|].
    destruct (relay_socket_to_tunnel _ _ _ _) as [[[s c] out']|] eqn:E; [|done]. simplify_eq.
    left. split; [done|]. by eapply s2t_out.
  - destruct (match ev with TCancel => _ | _ => _ end); [done|].
    destruct (relay_tunnel_to_socket _ _ _ _ _ _) as [[[[s q] w] out']|] eqn:E; [|done]. simplify_eq.
    left. split; [done|]. by eapply t2s_out.
  - simplify_eq. left. by split.
  - destruct (s2t_end _) as [a|] eqn:Ea; [|done]. destruct (t2s_end _) as [b|] eqn:Eb; [|done].
    simplify_eq. right. split; [done|]. exists a, b. split_and!; [done|done|].
    destruct (close_due a b) eqn:Ed, ok; cbn; auto.
Qed.

(** C17: the close protocol of a channel.  However its two relays are scheduled and whatever
    happens to the shared objects meanwhile, a channel's task sends data frames and window
    updates of its own id, and then at most one [close], as its very last frame; a [close] is
    sent only after both relays have ended, one of them for a local reason, and never when
    the peer has closed the channel or the tunnel is gone. *)
Theorem close_protocol (id : Z) (prebuf : list Z) (initial : list (list Z))
    (outs : list (option Frame)) (rc : RunChannel) :
  rc_trace id (rc_new prebuf initial) outs rc ->
  exists body tail, outs = body ++ tail /\ Forall (relay_frame id) body /\
    (tail = [] \/
     tail = [close_msg id] /\ rc.(rc_done) = true /\
     exists a b, s2t_end rc.(rc_s2t) = Some a /\ t2s_end rc.(rc_t2s) = Some b /\
       a <> PeerClosed /\ b <> PeerClosed /\ a <> TunnelGone /\ b <> TunnelGone /\
       (a = LocalEof \/ a = Violation \/ b = LocalEof \/ b = Violation)).
Proof.
  intros Ht.
  assert (Hinv : exists body tail, outs = body ++ tail /\ Forall (relay_frame id) body /\
    (tail = [] \/ tail = [close_msg id] /\ rc.(rc_done) = true /\
     exists a b, s2t_end rc.(rc_s2t) = Some a /\ t2s_end rc.(rc_t2s) = Some b /\ close_due a b = true)).
  { remember (rc_new prebuf initial) as rc0. induction Ht as [rc|rc rc1 rc2 o o1 ev out outs Ht IH Hs].
    - exists [], []. split_and!; [done|constructor|by left].
    - destruct (IH Heqrc0) as (body & tail & -> & Hb & Htail).
      apply run_channel_cases in Hs as [Hnd Hs].
      destruct Htail as [->|(_ & Hd & _)]; [|congruence]. rewrite app_nil_r.
      destruct Hs as [[_ Hf]|(Hd & a & b & Ha & Hb' & [->|[-> Hc]])].
      + exists (body ++ out), []. rewrite app_nil_r. split_and!; [done|by apply Forall_app|by left].
      + exists body, []. split_and!; [done|done|by left].
      + exists body, [close_msg id]. split_and!; [done|done|]. right. split_and!; [done|done|eauto]. }
  destruct Hinv as (body & tail & -> & Hb & Htail). exists body, tail. split_and!; [done|done|].
  destruct Htail as [->|(-> & Hd & a & b & Ha & Hb' & Hc)]; [by left|right].
  split_and!; [done|done|]. exists a, b. split_and!; [done|done|..];
    unfold close_due in Hc; destruct a, b; cbn in Hc; try done; auto.
Qed.

Lemma close_protocol_witness :
  let outs := [data_msg 7 [1; 2]; close_msg 7] in
  exists body tail, outs = body ++ tail /\ Forall (relay_frame 7) body /\
    (tail = [] \/ tail = [close_msg 7] /\ true = true /\
     exists a b, Some LocalEof = Some a /\ Some Cancelled = Some b /\
       a <> PeerClosed /\ b <> PeerClosed /\ a <> TunnelGone /\ b <> TunnelGone /\
       (a = LocalEof \/ a = Violation \/ b = LocalEof \/ b = Violation)).
Proof.
  apply (close_protocol 7 [1; 2] [] [data_msg 7 [1; 2]; close_msg 7]
    (mkRC (mkS2T (S2T_End LocalEof) []) (mkT2S (T2S_End Cancelled) []) true true)).
  set (o := mkObj 65536 (mkRecv 0 0) [] true).
  apply (rc_step 7 _ (mkRC (mkS2T (S2T_End LocalEof) []) (mkT2S (T2S_End Cancelled) []) true false) _ o o
    (REnd true) [close_msg 7] [data_msg 7 [1; 2]]); [|reflexivity].
  apply (rc_step 7 _ (mkRC (mkS2T (S2T_End LocalEof) []) (mkT2S T2S_Next []) true false) _ o o
    (RT TCancel) [] [data_msg 7 [1; 2]]); [|reflexivity].
  apply (rc_step 7 _ (mkRC (mkS2T (S2T_Read 65536) []) (mkT2S T2S_Next []) false false) _
    (mkObj 0 (mkRecv 0 0) [] true) o (RS (SRead [])) [] [data_msg 7 [1; 2]]); [|reflexivity].
  apply (rc_step 7 _ (mkRC (mkS2T S2T_Take []) (mkT2S T2S_Next []) false false) _
    o (mkObj 0 (mkRecv 0 0) [] true) (RS SPoll) [] [data_msg 7 [1; 2]]); [|reflexivity].
  apply (rc_step 7 _ (mkRC (mkS2T (S2T_Send [1; 2]) []) (mkT2S T2S_Next []) false false) _
    o o (RS (SSent true)) [data_msg 7 [1; 2]] []); [|reflexivity].
  apply (rc_step 7 _ (mkRC (mkS2T (S2T_Read 65536) [1; 2]) (mkT2S T2S_Next []) false false) _
    (mkObj 0 (mkRecv 0 0) [] true) (mkObj 65472 (mkRecv 0 0) [] true) (RS (SRead [])) [] []);
    [|reflexivity].
  apply (rc_step 7 _ (rc_new [1; 2] []) _ o (mkObj 0 (mkRecv 0 0) [] true) (RS SPoll) [] []);
    [|reflexivity].
  apply rc_refl.
Defined.

(** Running a list of events with no interference. *)
Fixpoint rc_run (id : Z) (rc : RunChannel) (o : Objects) (evs : list REvent) : option (RunChannel * Objects) :=
  match evs with
  | [] => Some (rc, o)
  | ev :: evs =>
    match run_channel id rc o ev with
    | Some (rc, o, _) => rc_run id rc o evs
    | None => None
    end
  end.

(** Teardown reaches a channel wherever it is parked.  Once [cancel] is raised, and
    without the socket, the peer or the credit doing anything more, at most five events of
    the channel's own (cancelling an await, giving up on a send, taking the next chunk) end
    both relays and the task. *)
Theorem cancel_ends_channel (id : Z) (rc : RunChannel) (o : Objects) :
  rc.(rc_done) = false -> rc.(rc_cancel) = true ->
  exists evs rc' o', (length evs <= 5)%nat /\ rc_run id rc o evs = Some (rc', o') /\ rc'.(rc_done) = true.
Proof.
  destruct rc as [[ps pre] [pt pend] cancel done_]; cbn. intros -> ->.
  assert (Hs : exists evs s' c', (length evs <= 1)%nat /\ is_Some (s2t_end s') /\
    forall t rest, rc_run id (mkRC (mkS2T ps pre) t true false) o (evs ++ rest) =
      rc_run id (mkRC s' t true false) (mkObj c' o.(o_window) o.(o_queue) o.(o_alive)) rest).
  { destruct ps as [|allow|d|r].
    - exists [RS SCancel], (mkS2T (S2T_End Cancelled) pre), o.(o_credit). by split_and!; [cbn; lia| |destruct o].
    - exists [RS SCancel], (mkS2T (S2T_End Cancelled) pre), (add o.(o_credit) allow). by split_and!; [cbn; lia|..].
    - exists [RS (SSent false)], (mkS2T (S2T_End TunnelGone) pre), o.(o_credit). by split_and!; [cbn; lia|..].
    - exists [], (mkS2T (S2T_End r) pre), o.(o_credit). split_and!; [cbn; lia|done|]. intros. by destruct o. }
  destruct Hs as (evs1 & s' & c' & Hl1 & [a Ha] & Hr1). set (o1 := mkObj c' _ _ _) in Hr1.
  assert (Ht : exists evs t' o2, (length evs <= 2)%nat /\ is_Some (t2s_end t') /\
    forall rest, rc_run id (mkRC s' (mkT2S pt pend) true false) o1 (evs ++ rest) =
      rc_run id (mkRC s' t' true false) o2 rest).
  { destruct pt as [|c|r].
    - destruct pend as [|c pend].
      + exists [RT TCancel], (mkT2S (T2S_End Cancelled) []), o1. by split_and!; [cbn; lia|..].
      + exists [RT TPop; RT TCancel], (mkT2S (T2S_End Cancelled) pend), o1. by split_and!; [cbn; lia|..].
    - exists [RT TCancel], (mkT2S (T2S_End Cancelled) pend), o1. by split_and!; [cbn; lia|..].
    - exists [], (mkT2S (T2S_End r) pend), o1. by split_and!; [cbn; lia|..]. }
  destruct Ht as (evs2 & t' & o2 & Hl2 & [b Hb] & Hr2).
  exists (evs1 ++ evs2 ++ [REnd false]), (mkRC s' t' true true), o2. split_and!.
  - rewrite !length_app. cbn. lia.
  - rewrite Hr1, Hr2. cbn. by rewrite Ha, Hb.
  - done.
Qed.

Lemma cancel_ends_channel_witness :
  exists evs rc' o', (length evs <= 5)%nat /\
    rc_run 1 (mkRC (mkS2T S2T_Take []) (mkT2S (T2S_Write [1]) [[2]]) true false)
      (mkObj 0 (mkRecv 0 0) [] true) evs = Some (rc', o') /\ rc'.(rc_done) = true.
Proof. apply (cancel_ends_channel 1); reflexivity. Defined.

End RelayFacts.
