(* ===== verification/MuxFlow.v ===== *)
(** End-to-end flow control of one channel.

    One direction of a channel is the sending relay and its credit on one side, the tunnel
    with its two ordered queues in between, and the receiving demultiplexer, window and relay
    on the other side.  [Step] composes the operations of the components as the program does
    ([relay_socket_to_tunnel], the [data] branch of the demultiplexers, the connecting phase
    of [run_controlled_channel], [relay_tunnel_to_socket], and the [window_update] and
    [opened] branches); everything else (which event is next, what the sockets deliver and
    how much they take, whether a send or a write fails) is left open. *)

From S2P Require Import Prelude MuxWindow MuxRelay.
Import Window.

Module Flow.

(** The receiving task: still connecting (controlled side only), or relaying. *)
Inductive Dst := DConnecting (pending : list (list Z)) (pending_len : Z) | DRelay (t : Relay.T2S) | DEnded.

(** What travels back to the sender. *)
Inductive Ctl := CUpdate (n : Z) | COpened (window : Z).

Record Flow := mkFlow {
  f_src : Relay.S2T;
  f_credit : SendCredit;
  f_wire : list (list Z);
  f_window : RecvWindow;
  f_queue : list Inbound;
  f_dst : Dst;
  f_ctl : list Ctl;
  f_opened : bool;
  (** history: the bytes the sending relay has read, and those written to the far socket *)
  f_read : list Z;
  f_written : list Z }.

(** Controller to controlled side: pipelined under [INITIAL_WINDOW] before [opened]. *)
Definition upstream (prebuf : list Z) : Flow :=
  mkFlow (Relay.mkS2T Relay.S2T_Take prebuf) (credit_new INITIAL_WINDOW) [] (recv_new INITIAL_WINDOW)
    [] (DConnecting [] 0) [] false [] [].

(** Controlled side to controller: the credit is the window [open] advertised. *)
Definition downstream : Flow :=
  mkFlow (Relay.mkS2T Relay.S2T_Take []) (credit_new (effective_window CHANNEL_WINDOW)) []
    (recv_new CHANNEL_WINDOW) [] (DRelay (Relay.mkT2S Relay.T2S_Next [])) [] true [] [].

Definition sent_data (out : list (option Frame)) : list (list Z) :=
  omap (fun f => match f with Some (DataF _ d) => Some d | _ => None end) out.
Definition sent_ctl (out : list (option Frame)) : list Ctl :=
  omap (fun f => match f with
        | Some (WindowUpdate _ n) => Some (CUpdate n)
        | Some (Opened _ true _ n) => Some (COpened n)
        | _ => None end) out.

(** The bytes a step of the sending relay takes from its reader. *)
Definition read_by (before after : Relay.S2T) : list Z :=
  match before.(Relay.s2t_at), after.(Relay.s2t_at) with
  | Relay.S2T_Read _, Relay.S2T_Send d => d
  | _, _ => []
  end.

(** The bytes a step of the receiving relay writes: a chunk counts once [write_all] is done. *)
Definition written_by (before : Relay.T2S) (ev : Relay.TEvent) : list Z :=
  match before.(Relay.t2s_at), ev with
  | Relay.T2S_Write c, Relay.TWritten true _ => c
  | _, _ => []
  end.

Inductive Step (id : Z) : Flow -> Flow -> Prop :=
| step_src f ev s c out :
    Relay.relay_socket_to_tunnel id f.(f_src) f.(f_credit) ev = Some (s, c, out) ->
    Step id f (mkFlow s c (f.(f_wire) ++ sent_data out) f.(f_window) f.(f_queue) f.(f_dst) f.(f_ctl)
                 f.(f_opened) (f.(f_read) ++ read_by f.(f_src) s) f.(f_written))
| step_deliver f d wire ok win :
    f.(f_wire) = d :: wire -> accept f.(f_window) (zlen d) = (ok, win) ->
    Step id f (mkFlow f.(f_src) f.(f_credit) wire win
                 (f.(f_queue) ++ [if ok : bool then IData d else IViolation]) f.(f_dst) f.(f_ctl)
                 f.(f_opened) f.(f_read) f.(f_written))
| step_connecting f pending len alive ev addr rdp c o out :
    f.(f_dst) = DConnecting pending len ->
    Relay.run_controlled_channel id addr rdp (Relay.Connecting pending len)
      (Relay.mkObj f.(f_credit) f.(f_window) f.(f_queue) alive) ev = Some (c, o, out) ->
    Step id f (mkFlow f.(f_src) f.(f_credit) f.(f_wire) o.(Relay.o_window) o.(Relay.o_queue)
                 (match c with
                  | Relay.Connecting p n => DConnecting p n
                  | Relay.Relaying rc => DRelay rc.(Relay.rc_t2s)
                  | Relay.Ended => DEnded
                  end) (f.(f_ctl) ++ sent_ctl out) f.(f_opened) f.(f_read) f.(f_written))
| step_dst f t alive ev t' q win out :
    f.(f_dst) = DRelay t ->
    Relay.relay_tunnel_to_socket id t f.(f_queue) alive f.(f_window) ev = Some (t', q, win, out) ->
    Step id f (mkFlow f.(f_src) f.(f_credit) f.(f_wire) win q (DRelay t') (f.(f_ctl) ++ sent_ctl out)
                 f.(f_opened) f.(f_read) (f.(f_written) ++ written_by t ev))
| step_update f n ctl :
    f.(f_ctl) = CUpdate n :: ctl ->
    Step id f (mkFlow f.(f_src) (add f.(f_credit) n) f.(f_wire) f.(f_window) f.(f_queue) f.(f_dst) ctl
                 f.(f_opened) f.(f_read) f.(f_written))
| step_opened f n ctl :
    f.(f_ctl) = COpened n :: ctl ->
    Step id f (mkFlow f.(f_src) (if f.(f_opened) then f.(f_credit) else raise_initial f.(f_credit) n)
                 f.(f_wire) f.(f_window) f.(f_queue) f.(f_dst) ctl true f.(f_read) f.(f_written)).

(** ** Accounting *)

Definition charges (ds : list (list Z)) : Z := foldr (fun d z => charge (zlen d) + z) 0 ds.
Definition payload (m : Inbound) : list (list Z) := match m with IData d => [d] | _ => [] end.
Definition payloads (q : list Inbound) : list (list Z) := concat (payload <$> q).

(** Credit the sending relay holds, and the frame it is about to send. *)
Definition held (s : Relay.S2T) : Z := match s.(Relay.s2t_at) with Relay.S2T_Read n => n | _ => 0 end.
Definition sending (s : Relay.S2T) : list (list Z) :=
  match s.(Relay.s2t_at) with Relay.S2T_Send d => [d] | _ => [] end.
(** Frames the receiving task has in hand. *)
Definition in_hand (d : Dst) : list (list Z) :=
  match d with
  | DConnecting p _ => p
  | DRelay t => (match t.(Relay.t2s_at) with Relay.T2S_Write c => [c] | _ => [] end) ++ t.(Relay.t2s_pending)
  | DEnded => []
  end.
Definition src_ended (s : Relay.S2T) : bool := match s.(Relay.s2t_at) with Relay.S2T_End _ => true | _ => false end.
Definition dst_ended (d : Dst) : bool :=
  match d with
  | DEnded => true
  | DRelay t => match t.(Relay.t2s_at) with Relay.T2S_End _ => true | _ => false end
  | DConnecting _ _ => false
  end.

Definition EXTRA : Z := CHANNEL_WINDOW - INITIAL_WINDOW.
(** Credit on its way back: updates, and what [opened] will add. *)
Definition ctl_credit (opened : bool) (c : Ctl) : Z :=
  match c with CUpdate n => n | COpened _ => if opened then 0 else EXTRA end.
Definition returning (f : Flow) : Z := foldr (fun c z => ctl_credit f.(f_opened) c + z) 0 f.(f_ctl).
(** What the window will still be granted when the socket connects. *)
Definition ungranted (d : Dst) : Z := match d with DConnecting _ _ => EXTRA | _ => 0 end.

(** Charges the receiver holds in memory. *)
Definition buffered (f : Flow) : Z := charges (in_hand f.(f_dst)) + charges (payloads f.(f_queue)).

(** Everything between the two sockets, in stream order. *)
Definition in_transit (f : Flow) : list Z :=
  concat (in_hand f.(f_dst)) ++ concat (payloads f.(f_queue)) ++ concat f.(f_wire) ++ concat (sending f.(f_src)).

(** The sender's side of the ledger. *)
Definition spent (f : Flow) : Z :=
  f.(f_credit) + held f.(f_src) + charges (sending f.(f_src)) + charges f.(f_wire) + returning f.
(** The receiver's side. *)
Definition owed (f : Flow) : Z :=
  f.(f_window).(remaining) + f.(f_window).(drained_since_update) + buffered f + ungranted f.(f_dst).

(** The sending relay gave up on a frame, or the receiving task has ended: bytes may be lost. *)
Definition lossy (s : Relay.S2T) : bool :=
  match s.(Relay.s2t_at) with Relay.S2T_End TunnelGone => true | _ => false end.

Definition is_update (c : Ctl) : Prop := match c with CUpdate n => 0 <= n | COpened _ => False end.

(** How far the channel has been opened. *)
Definition opening (f : Flow) : Prop :=
  match f.(f_dst) with
  | DConnecting p n => f.(f_opened) = false /\ f.(f_ctl) = [] /\ n = charges p /\
      f.(f_window).(drained_since_update) = 0
  | DRelay _ => Forall is_update f.(f_ctl) /\ f.(f_opened) = true \/
      exists rest, f.(f_ctl) = COpened CHANNEL_WINDOW :: rest /\ Forall is_update rest /\ f.(f_opened) = false
  | DEnded => f.(f_ctl) = []
  end.

Record flow_inv (f : Flow) : Prop := mkFI {
  fi_credit : 0 <= f.(f_credit);
  fi_held : match f.(f_src).(Relay.s2t_at) with
            | Relay.S2T_Read n => MIN_FRAME_CHARGE <= n <= MAX_FRAME | _ => True end;
  fi_window : 0 <= f.(f_window).(remaining);
  fi_drained : 0 <= f.(f_window).(drained_since_update) < UPDATE_THRESHOLD;
  fi_opening : opening f;
  fi_initial : f.(f_opened) = false -> f.(f_credit) + held f.(f_src) <= INITIAL_WINDOW;
  fi_clean : Forall (fun m => m <> IViolation) f.(f_queue);
  fi_spent : spent f <= f.(f_window).(remaining);
  fi_spent_eq : lossy f.(f_src) = false -> dst_ended f.(f_dst) = false -> spent f = f.(f_window).(remaining);
  fi_owed : owed f <= CHANNEL_WINDOW;
  fi_owed_eq : dst_ended f.(f_dst) = false -> owed f = CHANNEL_WINDOW;
  fi_fifo : dst_ended f.(f_dst) = false -> (f.(f_written) ++ in_transit f) `prefix_of` f.(f_read);
  fi_fifo_eq : lossy f.(f_src) = false -> dst_ended f.(f_dst) = false -> f.(f_written) ++ in_transit f = f.(f_read);
  fi_prefix : f.(f_written) `prefix_of` f.(f_read) }.

End Flow.

Module FlowFacts.
Import Flow.

Lemma charges_app a b : charges (a ++ b) = charges a + charges b.
Proof. induction a; cbn [app charges foldr]; [done|]. fold (charges (a0 ++ b)) (charges a0). lia. Qed.
Lemma charges_cons d ds : charges (d :: ds) = charge (zlen d) + charges ds.
Proof. done. Qed.
Lemma charges_nonneg ds : 0 <= charges ds.
Proof. induction ds as [|d ds IH]; [done|]. rewrite charges_cons. pose proof (WindowFacts.charge_bounds (zlen d)). unfold MIN_FRAME_CHARGE in *. lia. Qed.
Lemma payloads_app a b : payloads (a ++ b) = payloads a ++ payloads b.
Proof. unfold payloads. by rewrite fmap_app, concat_app. Qed.
Lemma charge_pos len : 0 <= len -> 64 <= charge len.
Proof. intros. pose proof (WindowFacts.charge_bounds len). unfold MIN_FRAME_CHARGE in *. lia. Qed.
Lemma updates_nonneg o cs : Forall is_update cs -> 0 <= foldr (fun c z => ctl_credit o c + z) 0 cs.
Proof. induction 1 as [|[n|n] cs Hc _ IH]; cbn in *; [lia|lia|done]. Qed.
Lemma returning_app o a b : foldr (fun c z => ctl_credit o c + z) 0 (a ++ b) =
  foldr (fun c z => ctl_credit o c + z) 0 a + foldr (fun c z => ctl_credit o c + z) 0 b.
Proof. induction a as [|c a IH]; cbn; [done|]. rewrite IH. lia. Qed.

Lemma upstream_inv prebuf : flow_inv (upstream prebuf).
Proof. split; cbn; try done; try lia; try (by constructor); intros; by vm_compute. Qed.
Lemma downstream_inv : flow_inv downstream.
Proof. split; cbn; try done; try (by left; split); try (by constructor); intros; by vm_compute. Qed.

(** One step of the sending relay keeps the ledger and the stream. *)
Lemma src_step id s c ev s' c' out :
  Relay.relay_socket_to_tunnel id s c ev = Some (s', c', out) -> 0 <= c ->
  match s.(Relay.s2t_at) with Relay.S2T_Read n => MIN_FRAME_CHARGE <= n <= MAX_FRAME | _ => True end ->
  c + held s <= MAX_SEND_CREDIT ->
  0 <= c' /\ match s'.(Relay.s2t_at) with Relay.S2T_Read n => MIN_FRAME_CHARGE <= n <= MAX_FRAME | _ => True end /\
  c' + held s' <= c + held s /\ lossy s = false /\
  (let before := c + held s + charges (sending s) in
   let after := c' + held s' + charges (sending s') + charges (sent_data out) in
   after <= before /\ (lossy s' = false -> after = before)) /\
  (let before := concat (sending s) ++ read_by s s' in
   let after := concat (sent_data out) ++ concat (sending s') in
   after `prefix_of` before /\ (lossy s' = false -> after = before)).
Proof.
  destruct s as [pc pre]. unfold Relay.relay_socket_to_tunnel, held, sending, read_by, lossy; cbn [Relay.s2t_at].
  intros H Hc Hheld Hmax. destruct pc as [|allow|d|r], ev as [|sock|ok|]; try done.
  - destruct (take c MAX_FRAME) as [[n c1]|] eqn:E; simplify_eq.
    apply WindowFacts.take_ok in E as (? & ? & ?); [|unfold credit_ok, held in *; cbn in *; lia|done]. cbn.
    unfold MIN_FRAME_CHARGE in *. split_and!; try done; unfold credit_ok in *; lia.
  - simplify_eq. cbn. split_and!; try done; lia.
  - destruct (allow <? zlen sock) eqn:Ea; [done|]. bool_to_prop.
    destruct (Relay.chain_read _ _ _) as [data rest] eqn:Er.
    assert (Hd : zlen data <= allow).
    { unfold Relay.chain_read in Er. cbn in Er. destruct pre; simplify_eq; [done|].
      unfold ztake. unfold MIN_FRAME_CHARGE in *. rewrite length_take. lia. }
    assert (Hadd : (if (if zlen data =? 0 then 0 else charge (zlen data)) <? allow
      then add c (allow - (if zlen data =? 0 then 0 else charge (zlen data))) else c) =
      c + allow - (if zlen data =? 0 then 0 else charge (zlen data))).
    { assert (0 <= zlen data) by lia. generalize dependent (zlen data). intros z. flow. }
    cbv zeta in H. rewrite Hadd in H. clear Hadd.
    assert (Hch : 0 <= (if zlen data =? 0 then 0 else charge (zlen data)) <= allow).
    { assert (0 <= zlen data) by lia. generalize dependent (zlen data). intros z. flow. }
    destruct (zlen data =? 0) eqn:Ez; simplify_eq; cbn; rewrite ?app_nil_r; bool_to_prop; split_and!; try done; try lia.
  - simplify_eq. cbn. rewrite WindowFacts.add_exact; [|flow..]. split_and!; try done; unfold MIN_FRAME_CHARGE in *; lia.
  - destruct ok; simplify_eq; cbn; rewrite ?app_nil_r; split_and!; try done; try lia.
    + pose proof (charge_pos (zlen d)). unfold charges; cbn; lia.
    + apply prefix_nil.
Qed.

Ltac fproj := cbn [f_src f_credit f_wire f_window f_queue f_dst f_ctl f_opened f_read f_written
  remaining drained_since_update] in *.
Ltac fin := unfold charges in *; cbn [foldr] in *; repeat first [split_and | progress intros]; try done; try lia; try apply prefix_nil; try (by eexists).

(** One step of the receiving relay. *)
Lemma dst_step id t q alive w ev t' q' w' out :
  Relay.relay_tunnel_to_socket id t q alive w ev = Some (t', q', w', out) ->
  Forall (fun m => m <> IViolation) q -> 0 <= w.(remaining) ->
  0 <= w.(drained_since_update) < UPDATE_THRESHOLD ->
  let stock t q := charges (in_hand (DRelay t)) + charges (payloads q) in
  w.(remaining) + w.(drained_since_update) + stock t q <= CHANNEL_WINDOW ->
  let back := foldr (fun c z => ctl_credit true c + z) 0 (sent_ctl out) in
  let bytes t q := concat (in_hand (DRelay t)) ++ concat (payloads q) in
  dst_ended (DRelay t) = false /\ Forall (fun m => m <> IViolation) q' /\ 0 <= w'.(remaining) /\
  0 <= w'.(drained_since_update) < UPDATE_THRESHOLD /\ Forall is_update (sent_ctl out) /\
  w'.(remaining) + w'.(drained_since_update) + stock t' q' <= w.(remaining) + w.(drained_since_update) + stock t q /\
  w.(remaining) + back <= w'.(remaining) /\
  written_by t ev `prefix_of` bytes t q /\
  (dst_ended (DRelay t') = false ->
   w'.(remaining) + w'.(drained_since_update) + stock t' q' = w.(remaining) + w.(drained_since_update) + stock t q /\
   w.(remaining) + back = w'.(remaining) /\
   written_by t ev ++ bytes t' q' = bytes t q).
Proof.
  destruct t as [pc pend]. unfold Relay.relay_tunnel_to_socket, written_by, in_hand, dst_ended; cbn [Relay.t2s_at Relay.t2s_pending].
  intros H Hq Hw Hd. cbv zeta. intros Hl. pose proof (charges_nonneg pend). pose proof (charges_nonneg (payloads q)).
  destruct pc as [|c|r], ev as [|ok ctl|]; try done.
  - destruct pend as [|c pend]; [destruct q as [|[b| |] q]|].
    + destruct alive; simplify_eq. cbn. fin.
    + simplify_eq. apply Forall_cons in Hq as [_ Hq]. unfold payloads in *. cbn in *.
      rewrite app_nil_r. fin.
    + simplify_eq. apply Forall_cons in Hq as [_ Hq]. unfold payloads in *. cbn in *.
      fin.
    + apply Forall_cons in Hq as [Hq _]. done.
    + simplify_eq. cbn. fin.
  - destruct pend; cbn in *; simplify_eq. cbn. fin.
  - rewrite charges_app in Hl. change (charges [c]) with (charge (zlen c) + 0) in Hl.
    pose proof (charge_pos (zlen c)). destruct ok; cbn [negb] in H.
    + assert (Hwin : w.(remaining) + w.(drained_since_update) + charge (zlen c) <= umax 32) by (unfold CHANNEL_WINDOW, umax in *; pow2; lia).
      pose proof (WindowFacts.drained_conserves w (zlen c)) as Hdr.
      assert (Hok : recv_ok w). { unfold recv_ok, in_u, umax, CHANNEL_WINDOW in *. pow2. lia. }
      specialize (Hdr ltac:(lia) Hok Hwin). pose proof (WindowFacts.drained_ok w (zlen c) ltac:(lia) Hok) as Hok'.
      destruct (drained w (zlen c)) as [[n|] w1]; cbn in Hok'; destruct Hok' as [[? _] ?].
      * destruct Hdr as (? & ? & ? & ?). destruct ctl; simplify_eq; cbn; rewrite <- ?app_assoc;
          fin. repeat constructor. unfold is_update. lia.
      * destruct Hdr as (? & ?). simplify_eq; cbn; rewrite <- ?app_assoc;
          fin.
    + simplify_eq. cbn. fin.
  - simplify_eq. pose proof (charge_pos (zlen c)). cbn in *. fin.
Qed.

Lemma opening_returning f : opening f -> 0 <= returning f.
Proof.
  unfold opening, returning. destruct (f_dst f).
  - intros (_ & -> & _). done.
  - intros [[H _]|(rest & -> & H & ->)]; [by apply updates_nonneg|].
    apply (updates_nonneg false) in H. cbn [foldr].
    change (ctl_credit false (COpened CHANNEL_WINDOW)) with 196608. lia.
  - intros ->. done.
Qed.

Lemma held_nonneg s : match s.(Relay.s2t_at) with Relay.S2T_Read n => MIN_FRAME_CHARGE <= n <= MAX_FRAME | _ => True end -> 0 <= held s.
Proof. unfold held, MIN_FRAME_CHARGE. destruct (Relay.s2t_at s); lia. Qed.

Lemma buffered_nonneg f : 0 <= buffered f.
Proof. unfold buffered. pose proof (charges_nonneg (in_hand (f_dst f))). pose proof (charges_nonneg (payloads (f_queue f))). lia. Qed.

Lemma ungranted_nonneg d : 0 <= ungranted d.
Proof. destruct d; done. Qed.

(** The sender never holds more than the channel window. *)
Lemma window_bound f : flow_inv f -> f.(f_window).(remaining) <= CHANNEL_WINDOW.
Proof. intros []. pose proof (buffered_nonneg f). pose proof (ungranted_nonneg (f_dst f)). unfold owed in *. lia. Qed.

Lemma credit_bound f : flow_inv f -> f.(f_credit) + held f.(f_src) + returning f <= CHANNEL_WINDOW.
Proof.
  intros Hf. pose proof (window_bound f Hf). destruct Hf. unfold spent in *.
  pose proof (charges_nonneg (f_wire f)). pose proof (charges_nonneg (sending (f_src f))). lia.
Qed.

Lemma step_src_inv id f ev s c out : flow_inv f ->
  Relay.relay_socket_to_tunnel id f.(f_src) f.(f_credit) ev = Some (s, c, out) ->
  flow_inv (mkFlow s c (f.(f_wire) ++ sent_data out) f.(f_window) f.(f_queue) f.(f_dst) f.(f_ctl)
    f.(f_opened) (f.(f_read) ++ read_by f.(f_src) s) f.(f_written)).
Proof.
  intros Hf Hs. pose proof (credit_bound f Hf) as Hcb. destruct Hf.
  pose proof (opening_returning f fi_opening0).
  apply src_step in Hs as (Hc & Hh & Hle & Hl & (Hle2 & Heq2) & (Hp & Hpe)); [|done|done|unfold MAX_SEND_CREDIT in *; lia].
  specialize (fi_spent_eq0 Hl). specialize (fi_fifo_eq0 Hl).
  split; cbn; try done.
  - intros Ho. specialize (fi_initial0 Ho). lia.
  - unfold spent, returning in *; cbn. rewrite charges_app. lia.
  - intros Hl' Hd. specialize (Heq2 Hl'). specialize (fi_spent_eq0 Hd). unfold spent, returning in *; cbn. rewrite charges_app. lia.
  - intros Hd. rewrite <- (fi_fifo_eq0 Hd). unfold in_transit; cbn. rewrite concat_app, <- !app_assoc.
    by repeat apply prefix_app.
  - intros Hl' Hd. rewrite <- (fi_fifo_eq0 Hd). unfold in_transit; cbn. rewrite concat_app, <- !app_assoc. by rewrite Hpe.
  - by apply prefix_app_r.
Qed.

Lemma step_deliver_inv f d wire ok win : flow_inv f ->
  f.(f_wire) = d :: wire -> accept f.(f_window) (zlen d) = (ok, win) ->
  ok = true /\
  flow_inv (mkFlow f.(f_src) f.(f_credit) wire win
    (f.(f_queue) ++ [if ok : bool then IData d else IViolation]) f.(f_dst) f.(f_ctl)
    f.(f_opened) f.(f_read) f.(f_written)).
Proof.
  intros Hf Hw. rewrite WindowFacts.accept_spec by lia. destruct Hf.
  pose proof (opening_returning f fi_opening0). pose proof (held_nonneg _ fi_held0).
  pose proof (charges_nonneg wire). pose proof (charges_nonneg (sending (f_src f))).
  pose proof (charge_pos (zlen d)).
  assert (charge (zlen d) <= remaining (f_window f)).
  { unfold spent in *. rewrite Hw, charges_cons in *. lia. }
  rewrite (proj2 (Z.leb_le _ _)) by done. intros. simplify_eq. split; [done|].
  assert (Hb : buffered f + charge (zlen d) = charges (in_hand (f_dst f)) + charges (payloads (f_queue f ++ [IData d]))).
  { unfold buffered. rewrite payloads_app, charges_app. cbn. lia. }
  assert (Ht : in_transit f = concat (in_hand (f_dst f)) ++ concat (payloads (f_queue f ++ [IData d])) ++
    concat wire ++ concat (sending (f_src f))).
  { unfold in_transit. rewrite Hw, payloads_app, concat_app. cbn. by rewrite app_nil_r, <- !app_assoc. }
  split; fproj; try done; try lia.
  - apply Forall_app. split; [done|]. by apply Forall_singleton.
  - unfold spent, returning in *; fproj. rewrite Hw, charges_cons in *. lia.
  - intros Hl Hd. specialize (fi_spent_eq0 Hl Hd). unfold spent, returning in *; fproj. rewrite Hw, charges_cons in *. lia.
  - unfold owed, buffered in *; fproj. lia.
  - intros Hd. specialize (fi_owed_eq0 Hd). unfold owed, buffered in *; fproj. lia.
  - by rewrite Ht in fi_fifo0.
  - by rewrite Ht in fi_fifo_eq0.
Qed.

Lemma step_dst_inv id f t alive ev t' q win out : flow_inv f -> f.(f_dst) = DRelay t ->
  Relay.relay_tunnel_to_socket id t f.(f_queue) alive f.(f_window) ev = Some (t', q, win, out) ->
  flow_inv (mkFlow f.(f_src) f.(f_credit) f.(f_wire) win q (DRelay t') (f.(f_ctl) ++ sent_ctl out)
    f.(f_opened) f.(f_read) (f.(f_written) ++ written_by t ev)).
Proof.
  intros Hf Hdst Hs. destruct Hf. apply dst_step in Hs; [|done|done|done|
    unfold owed, buffered in *; rewrite Hdst in *; cbn [ungranted] in *; lia].
  cbv zeta in Hs. destruct Hs as (Hal & Hq & Hr & Hd & Hup & Hle & Hback & Hpre & Heq).
  unfold opening, owed, buffered in *. rewrite Hdst in *. cbn [ungranted] in *.
  specialize (fi_owed_eq0 Hal). specialize (fi_fifo0 Hal).
  assert (Hfi : f_written f ++ (concat (in_hand (DRelay t)) ++ concat (payloads (f_queue f))) ++
    concat (f_wire f) ++ concat (sending (f_src f)) `prefix_of` f_read f).
  { unfold in_transit in *. rewrite Hdst in *. by rewrite <- !app_assoc in *. }
  assert (Hret : foldr (fun c z => ctl_credit (f_opened f) c + z) 0 (sent_ctl out) =
    foldr (fun c z => ctl_credit true c + z) 0 (sent_ctl out)).
  { clear -Hup. induction Hup as [|[n|n] cs ? ? IH]; cbn in *; [done|by rewrite IH|done]. }
  split; fproj; try done; try lia.
  - unfold opening; fproj. destruct fi_opening0 as [[Hu Ho]|(rest & -> & Hu & Ho)]; [left|right].
    + split; [by apply Forall_app|done].
    + exists (rest ++ sent_ctl out). split_and!; [done|by apply Forall_app|done].
  - unfold spent, returning in *; fproj. rewrite returning_app, Hret. lia.
  - intros Hl Hd'. specialize (fi_spent_eq0 Hl Hal). apply Heq in Hd' as (? & ? & ?).
    unfold spent, returning in *; fproj. rewrite returning_app, Hret. lia.
  - unfold owed, buffered; fproj. cbn [ungranted]. lia.
  - intros Hd'. apply Heq in Hd' as (? & ? & ?). unfold owed, buffered; fproj. cbn [ungranted]. lia.
  - intros Hd'. apply Heq in Hd' as (_ & _ & Hd'). rewrite <- Hd', <- !app_assoc in Hfi.
    unfold in_transit; fproj. by rewrite <- !app_assoc.
  - intros Hl Hd'. apply Heq in Hd' as (_ & _ & Hd'). rewrite <- (fi_fifo_eq0 Hl Hal).
    unfold in_transit; fproj. rewrite Hdst, (app_assoc (concat (in_hand (DRelay t)))), <- Hd'.
    by rewrite <- !app_assoc.
  - etrans; [|exact Hfi]. apply prefix_app. by apply prefix_app_r.
Qed.

Lemma step_connecting_inv id f pending len alive ev addr rdp c o out : flow_inv f ->
  f.(f_dst) = DConnecting pending len ->
  Relay.run_controlled_channel id addr rdp (Relay.Connecting pending len)
    (Relay.mkObj f.(f_credit) f.(f_window) f.(f_queue) alive) ev = Some (c, o, out) ->
  flow_inv (mkFlow f.(f_src) f.(f_credit) f.(f_wire) o.(Relay.o_window) o.(Relay.o_queue)
    (match c with
     | Relay.Connecting p n => DConnecting p n
     | Relay.Relaying rc => DRelay rc.(Relay.rc_t2s)
     | Relay.Ended => DEnded
     end) (f.(f_ctl) ++ sent_ctl out) f.(f_opened) f.(f_read) f.(f_written)).
Proof.
  intros Hf Hdst Hs. destruct Hf. unfold opening, owed, buffered, in_transit in *. rewrite Hdst in *.
  destruct fi_opening0 as (Hop & Hctl & -> & Hdr).
  specialize (fi_owed_eq0 eq_refl). specialize (fi_fifo0 eq_refl). cbn [ungranted in_hand] in *.
  pose proof (charges_nonneg pending). pose proof (charges_nonneg (payloads (f_queue f))).
  unfold spent, returning in *. rewrite Hctl in *. cbn [foldr] in *.
  assert (0 <= EXTRA) by done.
  assert (Hbound : charges pending + charges (payloads (f_queue f)) <= INITIAL_WINDOW).
  { unfold EXTRA in *. lia. }
  assert (Hended : forall o' out', o'.(Relay.o_window) = f.(f_window) \/
      o'.(Relay.o_window) = grant f.(f_window) EXTRA ->
      Forall (fun m => m <> IViolation) o'.(Relay.o_queue) ->
      charges (payloads (Relay.o_queue o')) <= charges (payloads (f_queue f)) -> sent_ctl out' = [] ->
      flow_inv (mkFlow f.(f_src) f.(f_credit) f.(f_wire) o'.(Relay.o_window) o'.(Relay.o_queue) DEnded
        ([] ++ sent_ctl out') f.(f_opened) f.(f_read) f.(f_written))).
  { intros o' out' Hw Hq Hle ->.
    assert (o'.(Relay.o_window).(remaining) = f.(f_window).(remaining) \/
      o'.(Relay.o_window).(remaining) = f.(f_window).(remaining) + EXTRA /\ 0 <= EXTRA).
    { destruct Hw as [->| ->]; [by left|right]. rewrite WindowFacts.grant_exact; [done| |lia|done]. done. }
    assert (o'.(Relay.o_window).(drained_since_update) = f.(f_window).(drained_since_update)) as Hw2.
    { by destruct Hw as [->| ->]. }
    split; fproj; cbn; try done; try lia.
    - unfold spent, returning; fproj. cbn [foldr app]. lia.
    - unfold owed, buffered; fproj. rewrite Hw2. cbn [ungranted in_hand]. change (charges []) with 0. lia. }
  unfold Relay.run_controlled_channel in Hs. cbn [Relay.o_queue Relay.o_window Relay.o_alive Relay.o_credit] in Hs.
  destruct ev as [sink|conn sink|]; [| |done].
  - destruct (f_queue f) as [|[b| |] q] eqn:Hq.
    + destruct alive; simplify_eq. apply (Hended _ []); cbn; try rewrite Hq; try done; by left.
    + apply Forall_cons in fi_clean0 as [_ Hcl].
      assert (Hpay : charges (payloads (IData b :: q)) = charge (zlen b) + charges (payloads q)) by done.
      pose proof (charge_pos (zlen b)). pose proof (charges_nonneg (payloads q)).
      assert (Hfit : Relay.pending_fits (charges pending) (zlen b) = true).
      { unfold Relay.pending_fits. apply Z.leb_le. unfold sat_add, umax, INITIAL_WINDOW in *. pow2. lia. }
      rewrite Hfit in Hs. cbn [negb] in Hs. simplify_eq. cbn [Relay.o_queue Relay.o_window].
      assert (Hw : wrap 64 (charges pending + charge (zlen b)) = charges (pending ++ [b])).
      { rewrite charges_app. cbn. rewrite Z.add_0_r. apply wrap_small. unfold in_u, INITIAL_WINDOW in *. pow2. lia. }
      rewrite Hw. assert (Hc1 : charges (pending ++ [b]) = charges pending + charge (zlen b)).
      { rewrite charges_app. cbn. lia. }
      split; fproj; try done.
      * unfold owed, buffered; fproj. cbn [ungranted in_hand]. lia.
      * intros _. unfold owed, buffered; fproj. cbn [ungranted in_hand]. lia.
      * intros _. unfold in_transit; fproj. cbn [in_hand]. rewrite concat_app. cbn [concat].
        cbn in fi_fifo0. by rewrite app_nil_r, <- !app_assoc in *.
      * intros Hl _. rewrite <- (fi_fifo_eq0 Hl eq_refl). unfold in_transit; fproj. cbn [in_hand].
        rewrite concat_app. cbn. by rewrite app_nil_r, <- !app_assoc.
    + simplify_eq. apply Forall_cons in fi_clean0 as [_ ?]. apply (Hended _ []); cbn; try done; by left.
    + by apply Forall_cons in fi_clean0 as [? _].
  - destruct (negb (is_nil (f_queue f)) || negb alive); [done|].
    destruct conn; cbn [negb] in Hs.
    + destruct sink; simplify_eq; cbn [Relay.o_queue Relay.o_window Relay.rc_t2s Relay.rc_new].
      * change (CHANNEL_WINDOW - INITIAL_WINDOW) with EXTRA. rewrite WindowFacts.grant_exact; [|done|lia|done].
        split; fproj; try done; try lia.
        -- unfold opening; fproj. right. exists []. by split_and!.
        -- unfold spent, returning; fproj. rewrite Hop. cbn. unfold EXTRA. lia.
        -- intros Hl _. specialize (fi_spent_eq0 Hl eq_refl). unfold spent, returning; fproj. rewrite Hop. cbn. unfold EXTRA. lia.
        -- unfold owed, buffered; fproj. cbn [ungranted in_hand Relay.t2s_at Relay.t2s_pending app]. lia.
        -- intros _. unfold owed, buffered; fproj. cbn [ungranted in_hand Relay.t2s_at Relay.t2s_pending app]. lia.
      * apply (Hended (Relay.mkObj (f_credit f) (grant (f_window f) (CHANNEL_WINDOW - INITIAL_WINDOW)) (f_queue f) alive) []); try done. by right.
    + assert (Hsc : sent_ctl (if sink then [opened_msg id false (Relay.unreachable_message addr rdp) 0] else []) = []) by by destruct sink.
      simplify_eq. apply Hended; try done. by left.
Qed.

Lemma step_update_inv f n ctl : flow_inv f -> f.(f_ctl) = CUpdate n :: ctl ->
  flow_inv (mkFlow f.(f_src) (add f.(f_credit) n) f.(f_wire) f.(f_window) f.(f_queue) f.(f_dst) ctl
    f.(f_opened) f.(f_read) f.(f_written)).
Proof.
  intros Hf Hc. pose proof (credit_bound f Hf) as Hcb. destruct Hf.
  unfold opening, returning in *. rewrite Hc in *. pose proof (held_nonneg _ fi_held0).
  assert (exists t, f.(f_dst) = DRelay t) as [t Ht].
  { destruct (f_dst f); [by destruct fi_opening0 as (_ & ? & _)|eauto|done]. }
  rewrite Ht in *. destruct fi_opening0 as [[Hu Ho]|(rest & ? & _)]; [|done].
  apply Forall_cons in Hu as [Hn Hu]. cbn [is_update] in Hn. pose proof (updates_nonneg (f_opened f) _ Hu).
  cbn [foldr ctl_credit] in *.
  assert (Hadd : add (f_credit f) n = f_credit f + n).
  { apply WindowFacts.add_exact; unfold credit_ok, MAX_SEND_CREDIT; lia. }
  unfold spent, returning in *. rewrite Hc in *. cbn [foldr ctl_credit] in *.
  split; fproj; rewrite ?Hadd; try done; try lia.
  - unfold opening; fproj. by left.
  - congruence.
  - unfold spent, returning; fproj. rewrite ?Hadd. lia.
  - intros Hl Hd. specialize (fi_spent_eq0 Hl Hd). unfold spent, returning; fproj. rewrite ?Hadd. lia.
  - unfold owed, buffered in *; fproj. by rewrite Ht in *.
  - intros Hd. specialize (fi_owed_eq0 Hd). unfold owed, buffered in *; fproj. by rewrite Ht in *.
  - unfold in_transit in *; fproj. by rewrite Ht in *.
  - unfold in_transit in *; fproj. by rewrite Ht in *.
Qed.

Lemma step_opened_inv f n ctl : flow_inv f -> f.(f_ctl) = COpened n :: ctl ->
  flow_inv (mkFlow f.(f_src) (if f.(f_opened) then f.(f_credit) else raise_initial f.(f_credit) n)
    f.(f_wire) f.(f_window) f.(f_queue) f.(f_dst) ctl true f.(f_read) f.(f_written)).
Proof.
  intros Hf Hc. destruct Hf. unfold opening, returning in *. rewrite Hc in *. pose proof (held_nonneg _ fi_held0).
  assert (exists t, f.(f_dst) = DRelay t) as [t Ht].
  { destruct (f_dst f); [by destruct fi_opening0 as (_ & ? & _)|eauto|done]. }
  rewrite Ht in *. destruct fi_opening0 as [[Hu Ho]|(rest & [= -> ->] & Hu & Ho)].
  { apply Forall_cons in Hu as [Hu _]. done. }
  specialize (fi_initial0 Ho). rewrite Ho.
  assert (Hadd : raise_initial (f_credit f) CHANNEL_WINDOW = f_credit f + EXTRA).
  { apply WindowFacts.raise_initial_exact. lia. }
  assert (Hret : forall b, foldr (fun c z => ctl_credit b c + z) 0 rest = foldr (fun c z => ctl_credit true c + z) 0 rest).
  { clear -Hu. intros b. induction Hu as [|[n|n] cs ? ? IH]; cbn in *; [done|by rewrite IH|done]. }
  assert (0 <= EXTRA) by done.
  unfold spent, returning in *. rewrite Hc, Ho in *. cbn [foldr ctl_credit] in *. rewrite Hret in *.
  split; fproj; rewrite ?Hadd; try done; try lia.
  - unfold opening; fproj. by left.
  - unfold spent, returning; fproj. lia.
  - intros Hl Hd. specialize (fi_spent_eq0 Hl Hd). unfold spent, returning; fproj. lia.
  - unfold owed, buffered in *; fproj. by rewrite Ht in *.
  - intros Hd. specialize (fi_owed_eq0 Hd). unfold owed, buffered in *; fproj. by rewrite Ht in *.
  - unfold in_transit in *; fproj. by rewrite Ht in *.
  - unfold in_transit in *; fproj. by rewrite Ht in *.
Qed.

Lemma step_inv id f f' : flow_inv f -> Step id f f' -> flow_inv f'.
Proof.
  intros Hf Hs. destruct Hs.
  - by eapply step_src_inv.
  - by eapply step_deliver_inv.
  - by eapply step_connecting_inv.
  - by eapply step_dst_inv.
  - by apply step_update_inv.
  - by apply step_opened_inv.
Qed.

(** What a channel can reach, in either direction. *)
Definition reachable (id : Z) (f : Flow) : Prop :=
  (exists prebuf, rtc (Step id) (upstream prebuf) f) \/ rtc (Step id) downstream f.

Lemma reachable_inv id f : reachable id f -> flow_inv f.
Proof.
  intros [[pre H]|H].
  - eapply (rtc_ind_r (fun f => flow_inv f)); [apply upstream_inv| |exact H]. intros. by eapply step_inv.
  - eapply (rtc_ind_r (fun f => flow_inv f)); [apply downstream_inv| |exact H]. intros. by eapply step_inv.
Qed.

(** ** The theorems *)

(** C12: an honest sender is never cut off, and the receiver's memory is bounded.  Whatever
    the interleaving of the tasks, the tunnel and the sockets, and in both directions of a
    channel (before, while and after it is opened): the frame at the head of the tunnel is
    within the receiver's window, the inbound queue never holds a violation, what arrives
    while the socket is still connecting fits the pending buffer, and what the receiver
    buffers never exceeds the channel window. *)
Theorem flow_no_violation (id : Z) (f : Flow) : reachable id f ->
  (forall d wire, f.(f_wire) = d :: wire -> (accept f.(f_window) (zlen d)).1 = true) /\
  Forall (fun m => m <> IViolation) f.(f_queue) /\
  (forall pending len d q, f.(f_dst) = DConnecting pending len -> f.(f_queue) = IData d :: q ->
     Relay.pending_fits len (zlen d) = true) /\
  0 <= buffered f <= CHANNEL_WINDOW.
Proof.
  intros Hr%reachable_inv. pose proof (buffered_nonneg f). pose proof (ungranted_nonneg (f_dst f)).
  destruct (Hr) as [_ _ Hw Hdr Hop _ Hcl _ _ How Howe _ _ _]. split_and!; [|done| |done|].
  - intros d wire Hd. destruct (accept (f_window f) (zlen d)) as [ok win] eqn:Ha.
    by apply (step_deliver_inv f d wire ok win Hr Hd) in Ha as [-> _].
  - intros p n d q Hdst Hq. unfold opening, owed, buffered in *. rewrite Hdst, Hq in *.
    destruct Hop as (_ & _ & -> & _). cbn [ungranted in_hand] in *.
    change (payloads (IData d :: q)) with (d :: payloads q) in *. rewrite charges_cons in *.
    pose proof (charges_nonneg (payloads q)).
    unfold Relay.pending_fits, sat_add, umax, EXTRA, INITIAL_WINDOW in *. apply Z.leb_le. lia.
  - unfold owed in *. lia.
Qed.

(** C13: the window cannot deadlock.  In every reachable state in which the receiving task
    has not ended and nothing of the channel is in flight (no frame in the tunnel, the inbound
    queue or the receiver's hands, no update on its way back), a sending relay that waits for
    credit gets some: all of [INITIAL_WINDOW] before the channel is opened, more than half of
    [CHANNEL_WINDOW] once it is.  So a parked sender always has an event to wait for. *)
Theorem flow_no_deadlock (id : Z) (f : Flow) : reachable id f ->
  f.(f_wire) = [] -> f.(f_queue) = [] -> in_hand f.(f_dst) = [] -> f.(f_ctl) = [] ->
  dst_ended f.(f_dst) = false -> f.(f_src).(Relay.s2t_at) = Relay.S2T_Take ->
  (if f.(f_opened) then CHANNEL_WINDOW - UPDATE_THRESHOLD < f.(f_credit) else f.(f_credit) = INITIAL_WINDOW) /\
  take f.(f_credit) MAX_FRAME = Some (Z.min f.(f_credit) MAX_FRAME, f.(f_credit) - Z.min f.(f_credit) MAX_FRAME).
Proof.
  intros Hr%reachable_inv Hw Hq Hh Hc Hd Ht. destruct Hr as [_ _ _ Hdr Hop _ _ _ Hs _ How _ _ _].
  specialize (How Hd). specialize (Hs ltac:(unfold lossy; by rewrite Ht) Hd).
  unfold spent, owed, returning, buffered, held, sending, opening in *. rewrite Hw, Hc, Hq, Hh, Ht in *.
  cbn [foldr] in *. change (charges []) with 0 in *. change (charges (payloads [])) with 0 in *.
  unfold take. destruct (f_dst f) as [p n|t|]; [| |done]; cbn [ungranted] in *.
  - destruct Hop as (-> & _ & _ & Hz). assert (f_credit f = INITIAL_WINDOW) as -> by (unfold EXTRA in *; lia). done.
  - destruct Hop as [[_ ->]|(rest & ? & _)]; [|done].
    unfold UPDATE_THRESHOLD, MIN_FRAME_CHARGE, CHANNEL_WINDOW in *. change (256 * 1024 / 2) with 131072 in *.
    split; [lia|]. by rewrite (proj2 (Z.leb_le _ _)) by lia.
Qed.

(** C11: the byte stream of a channel survives multiplexing.  What has been written to the
    far socket is at every moment a prefix of what the sending relay has read, in order and
    without duplicates; and while the receiver runs, the rest is exactly what is buffered and
    in flight, unless the writer of the tunnel is gone.  So once the sending relay has
    met end of file and the buffers have drained, everything it read has been written. *)
Theorem flow_fifo (id : Z) (f : Flow) : reachable id f ->
  f.(f_written) `prefix_of` f.(f_read) /\
  (dst_ended f.(f_dst) = false -> f.(f_src).(Relay.s2t_at) <> Relay.S2T_End TunnelGone ->
   f.(f_read) = f.(f_written) ++ concat (in_hand f.(f_dst)) ++ concat (payloads f.(f_queue)) ++
     concat f.(f_wire) ++ concat (sending f.(f_src))) /\
  (dst_ended f.(f_dst) = false -> f.(f_src).(Relay.s2t_at) = Relay.S2T_End LocalEof ->
   in_hand f.(f_dst) = [] -> f.(f_queue) = [] -> f.(f_wire) = [] -> f.(f_written) = f.(f_read)).
Proof.
  intros Hr%reachable_inv. destruct Hr as [_ _ _ _ _ _ _ _ _ _ _ _ Hfe Hp]. split_and!; [done|..].
  - intros Hd Hl. symmetry. apply Hfe; [|done]. unfold lossy. by destruct (Relay.s2t_at _) as [| | |[]].
  - intros Hd Hl H1 H2 H3. rewrite <- Hfe; [|by unfold lossy; rewrite Hl|done].
    unfold in_transit, sending. rewrite H1, H2, H3, Hl. by rewrite !app_nil_r.
Qed.

(** A channel that has carried three bytes, and one that holds them in the pending buffer. *)
Definition sample (at_ : nat) : Flow :=
  let d := [7; 8; 9] in
  let w := mkRecv (65536 - 64) 0 in
  match at_ with
  | 0%nat => mkFlow (Relay.mkS2T (Relay.S2T_Read 65536) []) 0 [] (recv_new INITIAL_WINDOW) [] (DConnecting [] 0) [] false [] []
  | 1%nat => mkFlow (Relay.mkS2T (Relay.S2T_Send d) []) 65472 [] (recv_new INITIAL_WINDOW) [] (DConnecting [] 0) [] false d []
  | 2%nat => mkFlow (Relay.mkS2T Relay.S2T_Take []) 65472 [d] (recv_new INITIAL_WINDOW) [] (DConnecting [] 0) [] false d []
  | 3%nat => mkFlow (Relay.mkS2T Relay.S2T_Take []) 65472 [] w [IData d] (DConnecting [] 0) [] false d []
  | 4%nat => mkFlow (Relay.mkS2T Relay.S2T_Take []) 65472 [] w [] (DConnecting [d] 64) [] false d []
  | 5%nat => mkFlow (Relay.mkS2T Relay.S2T_Take []) 65472 [] (mkRecv (65536 - 64 + 196608) 0) []
             (DRelay (Relay.mkT2S Relay.T2S_Next [d])) [COpened CHANNEL_WINDOW] false d []
  | 6%nat => mkFlow (Relay.mkS2T Relay.S2T_Take []) 65472 [] (mkRecv (65536 - 64 + 196608) 0) []
             (DRelay (Relay.mkT2S (Relay.T2S_Write d) [])) [COpened CHANNEL_WINDOW] false d []
  | 7%nat => mkFlow (Relay.mkS2T Relay.S2T_Take []) 65472 [] (mkRecv (65536 - 64 + 196608) 64) []
             (DRelay (Relay.mkT2S Relay.T2S_Next [])) [COpened CHANNEL_WINDOW] false d d
  | _ => mkFlow (Relay.mkS2T Relay.S2T_Take []) (65472 + 196608) [] (mkRecv (65536 - 64 + 196608) 64) []
             (DRelay (Relay.mkT2S Relay.T2S_Next [])) [] true d d
  end.

Ltac exact_step H := let S := fresh in pose proof H as S; exact S.

Lemma sample_reachable n : (n <= 8)%nat -> reachable 3 (sample n).
Proof.
  intros Hn. left. exists [].
  assert (Hstep : forall g g', rtc (Step 3) (upstream []) g -> Step 3 g g' -> rtc (Step 3) (upstream []) g').
  { intros. by eapply rtc_r. }
  induction n as [|n IH].
  { eapply Hstep; [apply rtc_refl|]. exact_step (step_src 3 (upstream []) Relay.SPoll _ _ _ eq_refl). }
  specialize (IH ltac:(lia)). eapply Hstep; [exact IH|]. clear IH Hstep.
  destruct n as [|[|[|[|[|[|[|[|n]]]]]]]]; [..|lia].
  - exact_step (step_src 3 (sample 0) (Relay.SRead [7; 8; 9]) _ _ _ eq_refl).
  - exact_step (step_src 3 (sample 1) (Relay.SSent true) _ _ _ eq_refl).
  - exact_step (step_deliver 3 (sample 2) _ _ _ _ eq_refl eq_refl).
  - exact_step (step_connecting 3 (sample 3) _ _ true (Relay.CCmd true) "h" false _ _ _ eq_refl eq_refl).
  - exact_step (step_connecting 3 (sample 4) _ _ true (Relay.CConnect true true) "h" false _ _ _ eq_refl eq_refl).
  - exact_step (step_dst 3 (sample 5) _ true Relay.TPop _ _ _ _ eq_refl eq_refl).
  - exact_step (step_dst 3 (sample 6) _ true (Relay.TWritten true true) _ _ _ _ eq_refl eq_refl).
  - exact_step (step_opened 3 (sample 7) CHANNEL_WINDOW [] eq_refl).
Qed.

Lemma flow_no_violation_witness :
  (forall d wire, (sample 2).(f_wire) = d :: wire -> (accept (sample 2).(f_window) (zlen d)).1 = true) /\
  Forall (fun m => m <> IViolation) (sample 2).(f_queue) /\
  (forall pending len d q, (sample 2).(f_dst) = DConnecting pending len -> (sample 2).(f_queue) = IData d :: q ->
     Relay.pending_fits len (zlen d) = true) /\
  0 <= buffered (sample 2) <= CHANNEL_WINDOW.
Proof. apply (flow_no_violation 3 (sample 2)). apply sample_reachable. lia. Defined.

Lemma flow_no_deadlock_witness :
  CHANNEL_WINDOW - UPDATE_THRESHOLD < 65472 + 196608 /\
  take (65472 + 196608) MAX_FRAME = Some (65536, 65472 + 196608 - 65536).
Proof.
  apply (flow_no_deadlock 3 (sample 8)); try reflexivity. apply sample_reachable. lia.
Defined.

Lemma flow_fifo_witness :
  (sample 7).(f_written) `prefix_of` (sample 7).(f_read) /\
  (dst_ended (sample 7).(f_dst) = false -> (sample 7).(f_src).(Relay.s2t_at) <> Relay.S2T_End TunnelGone ->
   (sample 7).(f_read) = (sample 7).(f_written) ++ concat (in_hand (sample 7).(f_dst)) ++ concat (payloads (sample 7).(f_queue)) ++
     concat (sample 7).(f_wire) ++ concat (sending (sample 7).(f_src))) /\
  (dst_ended (sample 7).(f_dst) = false -> (sample 7).(f_src).(Relay.s2t_at) = Relay.S2T_End LocalEof ->
   in_hand (sample 7).(f_dst) = [] -> (sample 7).(f_queue) = [] -> (sample 7).(f_wire) = [] ->
   (sample 7).(f_written) = (sample 7).(f_read)).
Proof. apply (flow_fifo 3). apply sample_reachable. lia. Defined.

End FlowFacts.
