(* ===== verification/PathFs.v ===== *)
(** Paths and the file system, as far as the file-transfer code uses the standard library.

    [Module Path] is the part of [std::path] for Unix: a path is its string, [components]
    its parsed form.  [Module Fs] is a POSIX-style tree: a table from absolute real paths
    (their names from the root) to directories, symbolic links and files, and inodes behind
    the files, so that an open file survives a rename.  Permissions, hard links and the
    trailing-slash rule are left out; an operation that may fail for a reason outside this
    model takes the outcome as an argument where the code calls it. *)

From Stdlib Require Import Ascii.
From S2P Require Import Prelude.

Module Path.

(** [str::split] with a byte predicate. *)
Fixpoint split (p : ascii -> bool) (s : string) : list string :=
  match s with
  | EmptyString => [""%string]
  | String a s =>
    if p a then ""%string :: split p s
    else match split p s with h :: t => String a h :: t | [] => [] end
  end.

Definition is_slash (a : ascii) : bool := Ascii.eqb a "/".

Definition starts_with (p : ascii -> bool) (s : string) : bool :=
  match s with String a _ => p a | EmptyString => false end.
Fixpoint ends_with (p : ascii -> bool) (s : string) : bool :=
  match s with
  | EmptyString => false
  | String a EmptyString => p a
  | String _ s => ends_with p s
  end.
Fixpoint str_any (p : ascii -> bool) (s : string) : bool :=
  match s with EmptyString => false | String a s => p a || str_any p s end.
Fixpoint str_map (f : ascii -> ascii) (s : string) : string :=
  match s with EmptyString => EmptyString | String a s => String (f a) (str_map f s) end.

(** [Path::is_absolute] *)
Definition is_absolute (s : string) : bool := starts_with is_slash s.

Inductive Component := RootDir | CurDir | ParentDir | Normal (s : string).
#[global] Instance Component_eq_dec : EqDecision Component.
Proof. solve_decision. Defined.

Definition comp_of (s : string) : option Component :=
  if bool_decide (s = "" \/ s = ".")%string then None
  else if bool_decide (s = "..")%string then Some ParentDir else Some (Normal s).

(** [Path::components]: repeated slashes and inner dots are dropped; a leading dot stays. *)
Definition components (s : string) : list Component :=
  let segs := split is_slash s in
  if is_absolute s then RootDir :: omap comp_of segs
  else match segs with
       | seg :: _ => if bool_decide (seg = ".")%string then CurDir :: omap comp_of segs else omap comp_of segs
       | [] => []
       end.

(** [Path::join] *)
Definition join (base name : string) : string :=
  if is_absolute name then name
  else if bool_decide (base = ""%string) || ends_with is_slash base then (base ++ name)%string
  else (base ++ "/" ++ name)%string.

(** [Path::file_name] *)
Definition file_name (s : string) : option string :=
  match last (components s) with Some (Normal n) => Some n | _ => None end.

(** The components of [Path::parent]. *)
Definition parent (cs : list Component) : option (list Component) :=
  match last cs with
  | None | Some RootDir => None
  | Some _ => Some (removelast cs)
  end.

End Path.

Module Fs.
Import Path.

Abbreviation rpath := (list string).
Inductive Node := NDir | NLink (target : string) | NFile (ino : nat).
Record Inode := mkInode { i_data : list Z; i_mtime : Z }.
Record Fs := mkFs {
  nodes : gmap rpath Node;
  inodes : gmap nat Inode;
  next_ino : nat;
  cwd : rpath;
  now : Z }.

(** [std::io::ErrorKind], as far as it is looked at. *)
Inductive IoErr := NotFound | OtherErr.

Definition node_at (fs : Fs) (p : rpath) : option Node :=
  match p with [] => Some NDir | _ => fs.(nodes) !! p end.
Definition set_nodes (fs : Fs) (ns : gmap rpath Node) : Fs :=
  mkFs ns fs.(inodes) fs.(next_ino) fs.(cwd) fs.(now).
Definition set_inode (fs : Fs) (i : nat) (x : Inode) : Fs :=
  mkFs fs.(nodes) (<[i := x]> fs.(inodes)) fs.(next_ino) fs.(cwd) fs.(now).

(** The kernel's limit on symbolic links followed in one lookup. *)
Definition MAXSYMLINKS : nat := 40.

(** Path lookup from the directory [cur]: the real path the components name, the last of
    them possibly absent.  [follow]: whether a link in last position is followed. *)
Fixpoint resolve_from (links : nat) (fs : Fs) (follow : bool) (cur : rpath) (cs : list Component) {struct links} : result rpath IoErr :=
  (fix go (cur : rpath) (cs : list Component) {struct cs} : result rpath IoErr :=
    match cs with
    | [] => Ok cur
    | RootDir :: r => go [] r
    | CurDir :: r => go cur r
    | ParentDir :: r => go (removelast cur) r
    | Normal c :: r =>
      let p := cur ++ [c] in
      match fs.(nodes) !! p with
      | Some (NLink t) =>
        if is_nil r && negb follow then Ok p
        else match links with
             | O => Err OtherErr
             | S l => resolve_from l fs follow cur (components t ++ r)
             end
      | Some NDir => go p r
      | Some (NFile _) => if is_nil r then Ok p else Err OtherErr
      | None => if is_nil r then Ok p else Err NotFound
      end
    end) cur cs.

Definition resolve_comps (fs : Fs) (follow : bool) (cs : list Component) : result rpath IoErr :=
  match cs with
  | [] => Err NotFound
  | _ => resolve_from MAXSYMLINKS fs follow fs.(cwd) cs
  end.
(** A path that ends in a slash or a dot means the directory, whatever [follow] says. *)
Definition trailing_dir (path : string) : bool :=
  match last (split is_slash path) with
  | Some seg => bool_decide (seg = "" \/ seg = ".")%string
  | None => false
  end.
Definition resolve (fs : Fs) (follow : bool) (path : string) : result rpath IoErr :=
  resolve_comps fs (follow || trailing_dir path) (components path).

Definition lookup_node (fs : Fs) (p : rpath) : result Node IoErr :=
  match node_at fs p with Some n => Ok n | None => Err NotFound end.

(** [symlink_metadata] and [metadata]. *)
Definition lstat (fs : Fs) (path : string) : result Node IoErr :=
  rbind (resolve fs false path) (lookup_node fs).
Definition stat_comps (fs : Fs) (cs : list Component) : result Node IoErr :=
  rbind (resolve_comps fs true cs) (lookup_node fs).
Definition stat (fs : Fs) (path : string) : result Node IoErr := stat_comps fs (components path).

Definition exists_ (fs : Fs) (path : string) : bool := is_ok (stat fs path).
Definition is_dir (fs : Fs) (path : string) : bool :=
  match stat fs path with Ok NDir => true | _ => false end.
Definition is_file (fs : Fs) (path : string) : bool :=
  match stat fs path with Ok (NFile _) => true | _ => false end.
Definition metadata (fs : Fs) (path : string) : result Inode IoErr :=
  match stat fs path with
  | Ok (NFile i) => match fs.(inodes) !! i with Some x => Ok x | None => Err OtherErr end
  | Ok _ => Ok (mkInode [] 0)
  | Err e => Err e
  end.

(** [create_dir], [create_dir_all] (on components, the last one first, as the standard
    library recurses). *)
Definition mkdir (fs : Fs) (cs : list Component) : result Fs IoErr :=
  match resolve_comps fs false cs with
  | Err e => Err e
  | Ok p => match node_at fs p with
            | Some _ => Err OtherErr
            | None => Ok (set_nodes fs (<[p := NDir]> fs.(nodes)))
            end
  end.

Fixpoint create_dir_all_rev (fs : Fs) (rcs : list Component) : Fs * bool :=
  match rcs with
  | [] => (fs, true)
  | c :: parent =>
    let cs := rev rcs in
    match mkdir fs cs with
    | Ok fs => (fs, true)
    | Err NotFound =>
      let '(fs, ok) := create_dir_all_rev fs parent in
      if ok : bool then
        match mkdir fs cs with
        | Ok fs => (fs, true)
        | Err _ => (fs, match stat_comps fs cs with Ok NDir => true | _ => false end)
        end
      else (fs, false)
    | Err OtherErr => (fs, match stat_comps fs cs with Ok NDir => true | _ => false end)
    end
  end.
Definition create_dir_all (fs : Fs) (cs : list Component) : Fs := (create_dir_all_rev fs (rev cs)).1.

Definition remove_file (fs : Fs) (path : string) : result Fs IoErr :=
  match resolve fs false path with
  | Err e => Err e
  | Ok p => match node_at fs p with
            | None => Err NotFound
            | Some NDir => Err OtherErr
            | Some _ => Ok (set_nodes fs (delete p fs.(nodes)))
            end
  end.

(** [rename] of a file or link; a directory is not renamed in this model. *)
Definition rename (fs : Fs) (from to : string) : result Fs IoErr :=
  match resolve fs false from, resolve fs false to with
  | Ok a, Ok b =>
    match node_at fs a, node_at fs b with
    | None, _ => Err NotFound
    | Some NDir, _ | _, Some NDir => Err OtherErr
    | Some n, _ => Ok (set_nodes fs (<[b := n]> (delete a fs.(nodes))))
    end
  | Err e, _ | _, Err e => Err e
  end.

(** An open file: its inode, the position, and how it was opened (a directory can be opened
    for reading, but not read). *)
Inductive Mode := MRead | MWrite | MDir.
Record Handle := mkH { h_ino : nat; h_pos : Z; h_mode : Mode }.

(** [File::create], and [OpenOptions] with [create] and [write] ([trunc = false]). *)
Definition open_write (fs : Fs) (trunc : bool) (path : string) : result (Handle * Fs) IoErr :=
  match resolve fs true path with
  | Err e => Err e
  | Ok p =>
    match node_at fs p with
    | None =>
      let i := fs.(next_ino) in
      Ok (mkH i 0 MWrite,
          mkFs (<[p := NFile i]> fs.(nodes)) (<[i := mkInode [] fs.(now)]> fs.(inodes)) (S i) fs.(cwd) fs.(now))
    | Some (NFile i) =>
      Ok (mkH i 0 MWrite, if trunc then set_inode fs i (mkInode [] fs.(now)) else fs)
    | Some _ => Err OtherErr
    end
  end.

Definition open_read (fs : Fs) (path : string) : result Handle IoErr :=
  match stat fs path with
  | Ok (NFile i) => Ok (mkH i 0 MRead)
  | Ok NDir => Ok (mkH 0 0 MDir)
  | Ok _ => Err OtherErr
  | Err e => Err e
  end.

Definition inode_data (fs : Fs) (i : nat) : list Z :=
  match fs.(inodes) !! i with Some x => x.(i_data) | None => [] end.

(** Overwrite from position [pos]; a gap reads as zeros. *)
Definition put (data : list Z) (pos : Z) (bytes : list Z) : list Z :=
  ztake pos (data ++ replicate (Z.to_nat (pos - zlen data)) 0) ++ bytes ++ zdrop (pos + zlen bytes) data.

Definition write_handle (fs : Fs) (h : Handle) (bytes : list Z) : result (Handle * Fs) IoErr :=
  match h.(h_mode) with
  | MWrite =>
    Ok (mkH h.(h_ino) (h.(h_pos) + zlen bytes) MWrite,
        set_inode fs h.(h_ino) (mkInode (put (inode_data fs h.(h_ino)) h.(h_pos) bytes) fs.(now)))
  | _ => Err OtherErr
  end.

(** [std::fs::write] and [set_file_mtime]. *)
Definition fs_write (fs : Fs) (path : string) (bytes : list Z) : result Fs IoErr :=
  match open_write fs true path with
  | Ok (h, fs) => match write_handle fs h bytes with Ok (_, fs) => Ok fs | Err e => Err e end
  | Err e => Err e
  end.
Definition set_file_mtime (fs : Fs) (path : string) (t : Z) : result Fs IoErr :=
  match stat fs path with
  | Ok (NFile i) => Ok (set_inode fs i (mkInode (inode_data fs i) t))
  | Ok _ => Ok fs
  | Err e => Err e
  end.

(** [.ok()] on an operation that changes the file system. *)
Definition fs_ok (fs : Fs) (r : result Fs IoErr) : Fs := match r with Ok fs => fs | Err _ => fs end.

End Fs.

Module PathFacts.
Import Path.

Lemma split_nonempty p s : split p s <> [].
Proof. induction s as [|a s IH]; cbn; [done|]. destruct (p a); [done|]. by destruct (split p s). Qed.

Lemma str_app_cons a s t : (String a s ++ t)%string = String a (s ++ t).
Proof. done. Qed.
Lemma str_app_nil t : ("" ++ t)%string = t.
Proof. done. Qed.
Lemma str_assoc a b c : ((a ++ b) ++ c)%string = (a ++ b ++ c)%string.
Proof. induction a as [|x a IH]; [done|]. rewrite !str_app_cons. by rewrite IH. Qed.

Lemma split_cons p a s : p a = false -> exists h t, split p s = h :: t /\ split p (String a s) = String a h :: t.
Proof. intros H. cbn. rewrite H. destruct (split p s) as [|h t] eqn:E; [by apply split_nonempty in E|eauto]. Qed.

Lemma split_app_sep p a c b : p c = true -> split p (a ++ String c b)%string = split p a ++ split p b.
Proof.
  intros Hc. induction a as [|x a IH]; [rewrite str_app_nil; cbn; by rewrite Hc|]. rewrite str_app_cons. cbn [split].
  rewrite IH. destruct (p x); [done|]. destruct (split p a) as [|h t] eqn:E; [by apply split_nonempty in E|done].
Qed.

(** A suffix without separators lands in the last segment. *)
Lemma split_app_suffix p a b : str_any p b = false ->
  exists init l, split p a = init ++ [l] /\ split p (a ++ b)%string = init ++ [(l ++ b)%string].
Proof.
  intros Hb. assert (Hs : split p b = [b]).
  { induction b as [|x b IH]; [done|]. cbn in Hb. apply orb_false_iff in Hb as [Hx Hb].
    cbn. by rewrite Hx, IH. }
  induction a as [|x a IH].
  - exists [], ""%string. by rewrite !str_app_nil, Hs.
  - destruct IH as (init & l & E1 & E2). rewrite str_app_cons. cbn [split]. rewrite E1, E2. destruct (p x).
    + by exists (""%string :: init), l.
    + destruct init as [|h t]; [by exists [], (String x l)|by exists (String x h :: t), l].
Qed.

Lemma split_no_sep p s l : l ∈ split p s -> str_any p l = false.
Proof.
  revert l. induction s as [|a s IH]; intros l; cbn.
  - by intros ->%list_elem_of_singleton.
  - destruct (p a) eqn:E.
    + intros [->|H]%elem_of_cons; [done|auto].
    + destruct (split p s) as [|h t] eqn:Es; [by apply split_nonempty in Es|].
      intros [->|H]%elem_of_cons.
      * cbn. rewrite E. apply IH. by left.
      * apply IH. by right.
Qed.

Lemma ends_with_app s : ends_with is_slash s = true -> exists b, s = (b ++ "/")%string.
Proof.
  induction s as [|a s IH]; [done|]. cbn. destruct s as [|a' s].
  - intros H. exists ""%string. unfold is_slash in H. apply Ascii.eqb_eq in H. by subst.
  - intros [b Hb]%IH. exists (String a b). by rewrite Hb.
Qed.

Definition relative (s : string) : list Component := omap comp_of (split is_slash s).

Lemma components_absolute s : is_absolute s = true -> components s = RootDir :: relative s.
Proof. unfold components. by intros ->. Qed.

Lemma split_head_dot s : s <> ""%string -> is_absolute s = false -> head (split is_slash s) <> Some "."%string ->
  components s = relative s.
Proof.
  unfold components, relative. intros _ -> H. destruct (split is_slash s) as [|seg t] eqn:E; [done|].
  cbn in H. rewrite bool_decide_eq_false_2; [done|congruence].
Qed.

Lemma is_absolute_app s t : is_absolute s = true -> is_absolute (s ++ t)%string = true.
Proof. by destruct s. Qed.

(** Joining a relative name appends its components. *)
Lemma relative_join base name : is_absolute base = true -> is_absolute name = false ->
  is_absolute (join base name) = true /\ relative (join base name) = relative base ++ relative name.
Proof.
  intros Hb Hn. unfold join. rewrite Hn. destruct base as [|c base]; [done|]. cbn [bool_decide].
  destruct (bool_decide _ || ends_with _ _) eqn:E.
  - split; [by apply is_absolute_app|]. rewrite bool_decide_eq_false_2 in E by done.
    destruct (ends_with_app _ E) as [b ->]. unfold relative.
    replace ((b ++ "/") ++ name)%string with (b ++ String "/" name)%string by (by rewrite str_assoc).
    rewrite (split_app_sep is_slash b "/" name) by done. rewrite (split_app_sep is_slash b "/" "") by done.
    rewrite !omap_app. cbn. by rewrite app_nil_r.
  - split; [by apply is_absolute_app|]. unfold relative.
    change (String c base ++ "/" ++ name)%string with (String c base ++ String "/" name)%string.
    rewrite (split_app_sep is_slash _ "/" name) by done. by rewrite omap_app.
Qed.

Lemma comp_of_suffix l suf : (2 < String.length suf)%nat -> comp_of (l ++ suf) = Some (Normal (l ++ suf)).
Proof.
  intros H. assert (2 < String.length (l ++ suf))%nat.
  { induction l as [|a l IH]; [done|]. rewrite str_app_cons. cbn [String.length]. lia. }
  unfold comp_of. destruct (l ++ suf)%string as [|x [|y [|z r]]]; cbn in *; try lia.
  by rewrite !bool_decide_eq_false_2 by (intros; naive_solver).
Qed.

(** What appending ".download" or ".digest" does to a path. *)
Lemma relative_suffix s suf : str_any is_slash suf = false -> (2 < String.length suf)%nat ->
  exists init l, relative (s ++ suf) = init ++ [Normal (l ++ suf)] /\ relative s = init ++ option_list (comp_of l).
Proof.
  intros Hs Hl. unfold relative. destruct (split_app_suffix is_slash s suf Hs) as (init & l & E1 & E2).
  exists (omap comp_of init), l. rewrite E1, E2, !omap_app. cbn. rewrite comp_of_suffix by done.
  split; [done|]. by destruct (comp_of l).
Qed.

Lemma split_ext p q s : (forall a, p a = q a) -> split p s = split q s.
Proof. intros H. induction s as [|a s IH]; [done|]. cbn. by rewrite H, IH. Qed.

Lemma split_one p s : str_any p s = false -> split p s = [s].
Proof.
  induction s as [|a s IH]; [done|]. cbn. intros [H1 H2]%orb_false_iff. by rewrite H1, IH.
Qed.

Lemma comp_of_normal s c : comp_of s = Some (Normal c) -> c = s.
Proof. unfold comp_of. repeat case_bool_decide; congruence. Qed.

(** Without parent components, a relative name is a list of plain names. *)
Lemma relative_normals s : ("..")%string ∉ split is_slash s ->
  exists segs, relative s = Normal <$> segs /\ Forall (fun x => str_any is_slash x = false /\ comp_of x = Some (Normal x)) segs.
Proof.
  intros H. unfold relative. assert (Hn : forall x, x ∈ split is_slash s -> str_any is_slash x = false) by apply split_no_sep.
  induction (split is_slash s) as [|x l IH]; [by exists []|].
  destruct IH as (segs & E & F); [intros Hx; apply H; by right|intros y Hy; apply Hn; by right|].
  destruct (comp_of x) as [c|] eqn:Ec.
  - cbn. rewrite Ec. unfold comp_of in Ec. destruct (bool_decide (x = _ \/ _)) eqn:Hb; [done|].
    case_bool_decide as Hdd; [exfalso; apply H; rewrite Hdd; by left|]. injection Ec as <-. exists (x :: segs). rewrite E. split; [done|].
    constructor; [|done]. split; [apply Hn; by left|]. unfold comp_of.
    by rewrite Hb, (bool_decide_eq_false_2 _ Hdd).
  - cbn. rewrite Ec. eauto.
Qed.

Lemma relative_one s : str_any is_slash s = false -> comp_of s = Some (Normal s) ->
  relative s = [Normal s] /\ is_absolute s = false.
Proof.
  intros H1 H2. unfold relative. rewrite split_one by done. cbn. rewrite H2. split; [done|].
  destruct s as [|a s]; [done|]. cbn in *. by apply orb_false_iff in H1 as [-> _].
Qed.

Lemma last_split_join base name : is_absolute name = false -> name <> ""%string -> base <> ""%string ->
  last (split is_slash (join base name)) = last (split is_slash name).
Proof.
  intros Ha Hn Hb. unfold join. rewrite Ha, bool_decide_eq_false_2 by done. cbn [orb].
  assert (Hne : split is_slash name <> []) by apply split_nonempty.
  destruct (ends_with is_slash base) eqn:E.
  - destruct (ends_with_app _ E) as [b ->].
    replace ((b ++ "/") ++ name)%string with (b ++ String "/" name)%string by (by rewrite str_assoc).
    rewrite split_app_sep by done. rewrite last_app. by destruct (last (split _ name)) eqn:El; [|apply last_None in El].
  - change (base ++ "/" ++ name)%string with (base ++ String "/" name)%string.
    rewrite split_app_sep by done. rewrite last_app. by destruct (last (split _ name)) eqn:El; [|apply last_None in El].
Qed.

Lemma join_app base name suf : is_absolute name = false -> name <> ""%string ->
  (join base name ++ suf)%string = join base (name ++ suf).
Proof.
  intros Ha Hn. assert (Ha' : is_absolute (name ++ suf) = false) by (by destruct name).
  unfold join. rewrite Ha, Ha'. by destruct (_ || _); rewrite !str_assoc.
Qed.

End PathFacts.

Module FsFacts.
Import Path Fs.

(** ** Lookup *)

Lemma resolve_from_nil l fs fo cur : resolve_from l fs fo cur [] = Ok cur.
Proof. by destruct l. Qed.

Lemma resolve_from_normal l fs fo cur c r : resolve_from l fs fo cur (Normal c :: r) =
  match fs.(nodes) !! (cur ++ [c]) with
  | Some (NLink t) =>
    if is_nil r && negb fo then Ok (cur ++ [c])
    else match l with O => Err OtherErr | S l => resolve_from l fs fo cur (components t ++ r) end
  | Some NDir => resolve_from l fs fo (cur ++ [c]) r
  | Some (NFile _) => if is_nil r then Ok (cur ++ [c]) else Err OtherErr
  | None => if is_nil r then Ok (cur ++ [c]) else Err NotFound
  end.
Proof. by destruct l. Qed.

Lemma resolve_from_root l fs fo cur r : resolve_from l fs fo cur (RootDir :: r) = resolve_from l fs fo [] r.
Proof. by destruct l. Qed.
Lemma resolve_from_cur l fs fo cur r : resolve_from l fs fo cur (CurDir :: r) = resolve_from l fs fo cur r.
Proof. by destruct l. Qed.
Lemma resolve_from_parent l fs fo cur r : resolve_from l fs fo cur (ParentDir :: r) = resolve_from l fs fo (removelast cur) r.
Proof. by destruct l. Qed.

Lemma node_at_snoc fs p c : node_at fs (p ++ [c]) = fs.(nodes) !! (p ++ [c]).
Proof. by destruct p. Qed.
Lemma is_nil_app {A} (a b : list A) : b <> [] -> is_nil (a ++ b) = false.
Proof. destruct a; [by destruct b|done]. Qed.

(** Case analysis on the first component and the node it names. *)
Ltac step_comp := match goal with
  | |- context [resolve_from _ _ _ _ (RootDir :: _)] => rewrite !resolve_from_root
  | |- context [resolve_from _ _ _ _ (CurDir :: _)] => rewrite !resolve_from_cur
  | |- context [resolve_from _ _ _ _ (ParentDir :: _)] => rewrite !resolve_from_parent
  | |- context [resolve_from _ _ _ _ (Normal _ :: _)] => rewrite !resolve_from_normal
  | |- context [resolve_from _ _ _ _ []] => rewrite !resolve_from_nil
  end.

(** A lookup goes on from the directory its first part names. *)
Lemma resolve_from_app l fs fo cur a b p : resolve_from l fs true cur a = Ok p -> node_at fs p = Some NDir -> b <> [] ->
  exists l', resolve_from l fs fo cur (a ++ b) = resolve_from l' fs fo p b.
Proof.
  intros H Hp Hb. revert cur a H. induction l as [l IHl] using lt_wf_ind. intros cur a. revert cur.
  induction a as [|[| | |c] a IHa]; intros cur; cbn [app]; step_comp; try (intros [= ->]; by exists l); try apply IHa.
  rewrite is_nil_app by done. cbn [andb].
  destruct (nodes fs !! (cur ++ [c])) as [[|t|i]|] eqn:E; [apply IHa| | |].
  - rewrite andb_false_r. destruct l as [|l]; [done|]. intros H. rewrite app_assoc. apply IHl; [lia|done].
  - destruct a; [|done]. cbn. intros [= <-]. rewrite node_at_snoc in Hp. congruence.
  - destruct a; [|done]. cbn. intros [= <-]. rewrite node_at_snoc in Hp. congruence.
Qed.

(** The tree is closed under parents, and no inode has two names. *)
Record wf (fs : Fs) : Prop := mkWf {
  wf_root : fs.(nodes) !! [] = None;
  wf_parent : forall p c, is_Some (fs.(nodes) !! (p ++ [c])) -> node_at fs p = Some NDir;
  wf_ino : forall p i, fs.(nodes) !! p = Some (NFile i) -> (i < fs.(next_ino))%nat;
  wf_inj : forall p q i, fs.(nodes) !! p = Some (NFile i) -> fs.(nodes) !! q = Some (NFile i) -> p = q }.

Lemma node_at_parent fs p : wf fs -> node_at fs p = Some NDir -> node_at fs (removelast p) = Some NDir.
Proof.
  intros Hw. destruct p as [|x p] using rev_ind; [done|]. rewrite removelast_last, node_at_snoc.
  intros H. apply (wf_parent _ Hw _ x). by rewrite H.
Qed.

(** Every proper prefix of a path that names something names a directory. *)
Lemma resolve_prefix l fs cur a b p : wf fs -> node_at fs cur = Some NDir ->
  resolve_from l fs true cur (a ++ b) = Ok p -> b <> [] ->
  exists q, resolve_from l fs true cur a = Ok q /\ node_at fs q = Some NDir.
Proof.
  intros Hw Hc H Hb. revert cur a Hc H. induction l as [l IHl] using lt_wf_ind. intros cur a. revert cur.
  induction a as [|[| | |c] a IHa]; intros cur Hc; cbn [app]; step_comp; try (by eauto); try by apply IHa.
  - apply IHa. by apply node_at_parent.
  - rewrite is_nil_app by done. cbn [andb].
    destruct (nodes fs !! (cur ++ [c])) as [[|t|i]|] eqn:E; try done.
    + apply IHa. by rewrite node_at_snoc.
    + rewrite andb_false_r. destruct l as [|l]; [done|]. intros H.
      apply (IHl l ltac:(lia)); [done|]. by rewrite <- app_assoc.
Qed.

(** Without following the last link, an existing path still names something. *)
Lemma resolve_nofollow l fs cur a p : resolve_from l fs true cur a = Ok p -> is_Some (node_at fs p) -> node_at fs cur = Some NDir -> wf fs ->
  exists q, resolve_from l fs false cur a = Ok q /\ is_Some (node_at fs q).
Proof.
  intros H Hp Hc Hw. revert cur a Hc H. induction l as [l IHl] using lt_wf_ind. intros cur a. revert cur.
  induction a as [|[| | |c] a IHa]; intros cur Hc; cbn [app]; step_comp; try (by eauto); try by apply IHa.
  - apply IHa. by apply node_at_parent.
  - destruct (nodes fs !! (cur ++ [c])) as [[|t|i]|] eqn:E.
    + apply IHa. by rewrite node_at_snoc.
    + cbn [negb]. rewrite andb_false_r, andb_true_r. destruct l as [|l]; [done|]. intros H.
      destruct a as [|x a]; cbn [is_nil].
      * exists (cur ++ [c]). split; [done|]. by rewrite node_at_snoc, E.
      * by apply (IHl l ltac:(lia)).
    + destruct a; [|done]. cbn. intros [= <-]. exists (cur ++ [c]). by rewrite node_at_snoc, E.
    + destruct a; [|done]. cbn. intros [= <-]. rewrite node_at_snoc, E in Hp. by destruct Hp.
Qed.

(** Lookup of a directory depends on the directories and links only. *)
Lemma resolve_mono l fs fs' cur a p :
  (forall k, fs.(nodes) !! k = Some NDir -> fs'.(nodes) !! k = Some NDir) ->
  (forall k t, fs.(nodes) !! k = Some (NLink t) -> fs'.(nodes) !! k = Some (NLink t)) ->
  resolve_from l fs true cur a = Ok p -> node_at fs p = Some NDir -> resolve_from l fs' true cur a = Ok p.
Proof.
  intros Hd Hl H Hp. revert cur a H. induction l as [l IHl] using lt_wf_ind. intros cur a. revert cur.
  induction a as [|[| | |c] a IHa]; intros cur; step_comp; try done; try apply IHa.
  destruct (nodes fs !! (cur ++ [c])) as [[|t|i]|] eqn:E.
  - apply Hd in E. rewrite E. apply IHa.
  - apply Hl in E. rewrite E. cbn [negb]. rewrite andb_false_r. destruct l as [|l]; [done|]. apply IHl. lia.
  - destruct a; [|done]. cbn. intros [= <-]. rewrite node_at_snoc in Hp. congruence.
  - destruct a; [|done]. cbn. intros [= <-]. rewrite node_at_snoc in Hp. congruence.
Qed.

(** Below a directory, names that are not links mean themselves. *)
Lemma resolve_normals l fs fo cur segs p :
  (forall a b t, segs = a ++ b -> a <> [] -> (b <> [] \/ fo = true) -> fs.(nodes) !! (cur ++ a) <> Some (NLink t)) ->
  resolve_from l fs fo cur (Normal <$> segs) = Ok p -> p = cur ++ segs.
Proof.
  revert cur. induction segs as [|s segs IH]; intros cur Hn; cbn [fmap list_fmap]; step_comp.
  - rewrite app_nil_r. congruence.
  - destruct (nodes fs !! (cur ++ [s])) as [[|t|i]|] eqn:E.
    + intros H. apply IH in H; [by rewrite <- app_assoc in H|].
      intros a b t -> Ha Hb. rewrite <- app_assoc. apply (Hn (s :: a) b); [done|done|done].
    + destruct (is_nil (Normal <$> segs) && negb fo) eqn:En.
      * destruct segs; [|done]. by intros [= <-].
      * exfalso. apply (Hn [s] segs t); [done|done| |done].
        apply andb_false_iff in En as [En|En]; [left; by destruct segs|right; by destruct fo].
    + destruct segs; [|done]. by intros [= <-].
    + destruct segs; [|done]. by intros [= <-].
Qed.

(** ** What an operation can change *)

(** Strictly below the directory [rb]. *)
Definition below (rb k : rpath) : Prop := exists c cs, k = rb ++ c :: cs.

#[global] Instance below_dec rb k : Decision (below rb k).
Proof.
  destruct (decide (rb `prefix_of` k)) as [Hp|Hp].
  - destruct (decide (rb = k)) as [->|Hne].
    + right. intros (c & cs & E). apply (f_equal length) in E. rewrite length_app in E. cbn in E. lia.
    + left. destruct Hp as [[|c cs] ->]; [by rewrite app_nil_r in Hne|by exists c, cs].
  - right. intros (c & cs & ->). apply Hp. by exists (c :: cs).
Defined.

(** From [fs] to [fs'], only entries below [rb] and the files they name have changed; no
    directory and no link has come, gone or changed, except for new directories below [rb]. *)
Record inside (rb : rpath) (fs fs' : Fs) : Prop := mkInside {
  in_nodes : forall k, ~ below rb k -> fs'.(nodes) !! k = fs.(nodes) !! k;
  in_inodes : forall k i, ~ below rb k -> fs.(nodes) !! k = Some (NFile i) -> fs'.(inodes) !! i = fs.(inodes) !! i;
  in_dirs : forall k, fs.(nodes) !! k = Some NDir -> fs'.(nodes) !! k = Some NDir;
  in_links : forall k t, fs'.(nodes) !! k = Some (NLink t) <-> fs.(nodes) !! k = Some (NLink t);
  in_cwd : fs'.(cwd) = fs.(cwd);
  in_wf : wf fs -> wf fs' }.

Lemma inside_refl rb fs : inside rb fs fs.
Proof. by split. Qed.

Lemma inside_trans rb a b c : inside rb a b -> inside rb b c -> inside rb a c.
Proof.
  intros [N1 I1 D1 L1 C1 W1] [N2 I2 D2 L2 C2 W2]. split.
  - intros k Hk. by rewrite N2, N1.
  - intros k i Hk Hn. rewrite <- (I1 k i Hk Hn). apply (I2 k); [done|]. by rewrite N1.
  - auto.
  - intros k t. by rewrite L2.
  - congruence.
  - auto.
Qed.

Lemma below_snoc rb a c : below rb (rb ++ a ++ [c]).
Proof. destruct a as [|x a]; [by exists c, []|]. by exists x, (a ++ [c]). Qed.
Lemma below_not_nil rb k : below rb k -> k <> [].
Proof. intros (c & cs & ->). by destruct rb. Qed.
Lemma node_at_below rb k fs : below rb k -> node_at fs k = fs.(nodes) !! k.
Proof. intros (c & cs & ->). by destruct rb. Qed.

(** The inode of an entry below [rb] is not seen from outside. *)
Lemma inside_inode rb fs i x k : wf fs -> below rb k -> fs.(nodes) !! k = Some (NFile i) -> inside rb fs (set_inode fs i x).
Proof.
  intros Hw Hk Hi. split; cbn; try done; try tauto.
  - intros k' i' Hk' Hi'. destruct (decide (i = i')) as [<-|]; [|by rewrite lookup_insert_ne].
    exfalso. apply Hk'. by rewrite (wf_inj _ Hw _ _ _ Hi' Hi).
  - by intros [].
Qed.

(** An inode no entry outside names. *)
Lemma inside_handle rb fs i x : (forall k, fs.(nodes) !! k = Some (NFile i) -> below rb k) -> inside rb fs (set_inode fs i x).
Proof.
  intros Hk. split; cbn; try done; try tauto.
  - intros k' i' Hk' Hi'. destruct (decide (i = i')) as [<-|]; [|by rewrite lookup_insert_ne]. by destruct Hk'; apply Hk.
  - by intros [].
Qed.

(** A new file or directory below [rb]. *)
Lemma inside_new_dir rb fs k : wf fs -> below rb k -> fs.(nodes) !! k = None -> node_at fs (removelast k) = Some NDir ->
  inside rb fs (set_nodes fs (<[k := NDir]> fs.(nodes))).
Proof.
  intros Hw Hk Hn Hp. pose proof (below_not_nil _ _ Hk) as Hnil.
  split; cbn; try done.
  - intros k' Hk'. rewrite lookup_insert_ne; [done|]. by intros ->.
  - intros k' Hd. destruct (decide (k = k')) as [<-|]; [congruence|by rewrite lookup_insert_ne].
  - intros k' t. destruct (decide (k = k')) as [<-|]; [rewrite lookup_insert_eq, Hn; split; congruence|by rewrite lookup_insert_ne].
  - intros [R P I J]. split; cbn.
    + rewrite lookup_insert_ne by done. done.
    + intros p c. destruct (decide (k = p ++ [c])) as [->|Hne].
      * intros _. rewrite removelast_last in Hp. destruct p; [done|]. cbn in *. destruct (decide (s :: p ++ [c] = s :: p)) as [E|].
        { apply (f_equal length) in E. cbn in E. rewrite length_app in E. cbn in E. lia. }
        by rewrite lookup_insert_ne.
      * rewrite lookup_insert_ne by done. intros H%P. destruct p as [|y p]; [done|]. cbn in *.
        destruct (decide (k = y :: p)) as [->|]; [by rewrite lookup_insert_eq|by rewrite lookup_insert_ne].
    + intros p i. destruct (decide (k = p)) as [<-|]; [by rewrite lookup_insert_eq|rewrite lookup_insert_ne by done; apply I].
    + intros p q i. destruct (decide (k = p)) as [<-|]; [by rewrite lookup_insert_eq|].
      destruct (decide (k = q)) as [<-|]; [by rewrite lookup_insert_eq|].
      rewrite !lookup_insert_ne by done. apply J.
Qed.

Lemma inside_new_file rb fs k x : wf fs -> below rb k -> fs.(nodes) !! k = None -> node_at fs (removelast k) = Some NDir ->
  inside rb fs (mkFs (<[k := NFile fs.(next_ino)]> fs.(nodes)) (<[fs.(next_ino) := x]> fs.(inodes)) (S fs.(next_ino)) fs.(cwd) fs.(now)).
Proof.
  intros Hw Hk Hn Hp. pose proof (below_not_nil _ _ Hk) as Hnil.
  split; cbn; try done.
  - intros k' Hk'. rewrite lookup_insert_ne; [done|]. by intros ->.
  - intros k' i Hk' Hi. rewrite lookup_insert_ne; [done|]. pose proof (wf_ino _ Hw _ _ Hi). lia.
  - intros k' Hd. destruct (decide (k = k')) as [<-|]; [congruence|by rewrite lookup_insert_ne].
  - intros k' t. destruct (decide (k = k')) as [<-|]; [rewrite lookup_insert_eq, Hn; split; congruence|by rewrite lookup_insert_ne].
  - intros [R P I J]. split; cbn.
    + rewrite lookup_insert_ne by done. done.
    + intros p c Hs. assert (Hpd : node_at fs p = Some NDir).
      { destruct (decide (k = p ++ [c])) as [->|Hne]; [by rewrite removelast_last in Hp|].
        rewrite lookup_insert_ne in Hs by done. by apply (P p c). }
      destruct p as [|y p]; [done|]. cbn in *.
      destruct (decide (k = y :: p)) as [->|]; [congruence|by rewrite lookup_insert_ne].
    + intros p i. destruct (decide (k = p)) as [<-|]; [rewrite lookup_insert_eq; intros [= <-]; lia|].
      rewrite lookup_insert_ne by done. intros H%I. lia.
    + intros p q i. destruct (decide (k = p)) as [<-|], (decide (k = q)) as [<-|];
        rewrite ?lookup_insert_eq, ?lookup_insert_ne by done; try done.
      * intros [= <-] H%I. lia.
      * intros H%I [= <-]. lia.
      * apply J.
Qed.

(** Removing a file below [rb]. *)
Lemma inside_delete rb fs k i : below rb k -> fs.(nodes) !! k = Some (NFile i) ->
  inside rb fs (set_nodes fs (delete k fs.(nodes))).
Proof.
  intros Hk Hn. split; cbn; try done.
  - intros k' Hk'. rewrite lookup_delete_ne; [done|]. by intros ->.
  - intros k' Hd. rewrite lookup_delete_ne; [done|]. intros ->. congruence.
  - intros k' t. destruct (decide (k = k')) as [<-|]; [rewrite lookup_delete_eq, Hn; split; congruence|by rewrite lookup_delete_ne].
  - intros [R P I J]. split; cbn.
    + rewrite lookup_delete_ne; [done|]. by apply below_not_nil in Hk.
    + intros p c [n Hs]. apply lookup_delete_Some in Hs as [_ Hs]. assert (Hpd : node_at fs p = Some NDir) by (apply (P p c); eauto).
      destruct p as [|y p]; [done|]. cbn in *. rewrite lookup_delete_ne; [done|]. intros ->. congruence.
    + intros p j. rewrite lookup_delete_Some. intros [_ H]. by apply (I p).
    + intros p q j. rewrite !lookup_delete_Some. intros [_ H1] [_ H2]. by apply (J p q j).
Qed.

(** Renaming a file below [rb] to a name below [rb] that is free or another file. *)
Lemma inside_rename rb fs a b i : wf fs -> below rb a -> below rb b -> fs.(nodes) !! a = Some (NFile i) ->
  (forall t, fs.(nodes) !! b <> Some (NLink t)) -> fs.(nodes) !! b <> Some NDir ->
  node_at fs (removelast b) = Some NDir ->
  inside rb fs (set_nodes fs (<[b := NFile i]> (delete a fs.(nodes)))).
Proof.
  intros Hw Ha Hb Hn Hl Hd Hp. pose proof (below_not_nil _ _ Hb) as Hbn. pose proof (below_not_nil _ _ Ha) as Han.
  assert (Hdir : forall k, fs.(nodes) !! k = Some NDir -> <[b := NFile i]> (delete a fs.(nodes)) !! k = Some NDir).
  { intros k Hk. rewrite lookup_insert_ne by (intros ->; congruence). rewrite lookup_delete_ne; [done|]. intros ->. congruence. }
  assert (Hdir2 : forall k, node_at fs k = Some NDir ->
    node_at (set_nodes fs (<[b := NFile i]> (delete a fs.(nodes)))) k = Some NDir).
  { intros [|x k]; [done|]. cbn. apply Hdir. }
  split; cbn; try done.
  - intros k Hk. rewrite lookup_insert_ne by (by intros ->). rewrite lookup_delete_ne; [done|]. by intros ->.
  - intros k t. rewrite lookup_insert_Some, lookup_delete_Some. split; [naive_solver|].
    intros H. right. split; [intros ->; by apply Hl in H|]. split; [intros ->; congruence|done].
  - intros [R P I J]. split; cbn.
    + rewrite lookup_insert_ne by done. rewrite lookup_delete_ne; [apply R|done].
    + intros p c Hs. apply Hdir2. destruct (decide (b = p ++ [c])) as [->|Hne].
      * by rewrite removelast_last in Hp.
      * rewrite lookup_insert_ne in Hs by done. destruct Hs as [n [_ Hs]%lookup_delete_Some]. apply (P p c). eauto.
    + intros p j. rewrite lookup_insert_Some, lookup_delete_Some. intros [[_ [= <-]]|[_ [_ H]]]; [by apply (I a)|by apply (I p)].
    + intros p q j. rewrite !lookup_insert_Some, !lookup_delete_Some.
      intros [[<- [= <-]]|[H1 [H2 H3]]] [[<- Hq]|[H4 [H5 H6]]]; try done.
      * by destruct H5; apply (J a q i).
      * injection Hq as <-. by destruct H2; apply (J a p i).
      * by apply (J p q j).
Qed.

(** ** Paths below a base directory *)

(** The path [base] names the directory [rb]. *)
Record base_ok (fs : Fs) (base : string) (rb : rpath) : Prop := mkBase {
  base_abs : is_absolute base = true;
  base_res : resolve_from MAXSYMLINKS fs true [] (PathFacts.relative base) = Ok rb;
  base_dir : node_at fs rb = Some NDir }.
(** No directory on the way, nor the entry itself, is a link. *)
Definition nolinks (fs : Fs) (rb segs : rpath) : Prop :=
  forall a b t, segs = a ++ b -> a <> [] -> fs.(nodes) !! (rb ++ a) <> Some (NLink t).
(** [s] is the path of [base], then the names [segs]. *)
Definition path_is (s base : string) (segs : list string) : Prop :=
  is_absolute s = true /\ PathFacts.relative s = PathFacts.relative base ++ (Normal <$> segs).

Lemma nolinks_prefix fs rb a b : nolinks fs rb (a ++ b) -> nolinks fs rb a.
Proof. intros H a1 b1 t ->. intros Ha. apply (H a1 (b1 ++ b)); [by rewrite app_assoc|done]. Qed.

Lemma inside_dir rb fs fs' k : inside rb fs fs' -> node_at fs k = Some NDir -> node_at fs' k = Some NDir.
Proof. intros H. destruct k; [done|]. apply (in_dirs _ _ _ H). Qed.
Lemma inside_base rb fs fs' base : inside rb fs fs' -> base_ok fs base rb -> base_ok fs' base rb.
Proof.
  intros H [A R D]. split; [done| |by eapply inside_dir].
  eapply resolve_mono; [apply (in_dirs _ _ _ H)|apply (in_links _ _ _ H)|done|done].
Qed.
Lemma inside_nolinks rb fs fs' segs : inside rb fs fs' -> nolinks fs rb segs -> nolinks fs' rb segs.
Proof. intros H Hn a b t Hs Ha. rewrite (in_links _ _ _ H). by eapply Hn. Qed.

Lemma resolve_comps_absolute fs fo cs : resolve_comps fs fo (RootDir :: cs) = resolve_from MAXSYMLINKS fs fo [] cs.
Proof. unfold resolve_comps. apply resolve_from_root. Qed.

Lemma resolve_normals_dir l fs fo cur segs p : node_at fs cur = Some NDir ->
  (forall a b t, segs = a ++ b -> a <> [] -> fs.(nodes) !! (cur ++ a) <> Some (NLink t)) ->
  resolve_from l fs fo cur (Normal <$> segs) = Ok p -> p = cur ++ segs /\ node_at fs (cur ++ removelast segs) = Some NDir.
Proof.
  intros Hc Hn H. split; [eapply resolve_normals; [|done]; eauto|].
  revert cur Hc Hn H. induction segs as [|s segs IH]; intros cur Hc Hn; cbn [fmap list_fmap]; step_comp.
  - by rewrite app_nil_r.
  - destruct segs as [|s' segs]; [by rewrite app_nil_r|].
    destruct (nodes fs !! (cur ++ [s])) as [[|t|i]|] eqn:E; [| |done..].
    + intros H. apply IH in H; [| |].
      * by rewrite <- app_assoc in H.
      * by rewrite node_at_snoc.
      * intros a b t Hs Ha. rewrite <- app_assoc. apply (Hn (s :: a) b); [cbn; by rewrite Hs|done].
    + exfalso. by apply (Hn [s] (s' :: segs) t).
Qed.

(** A path below the base means the entry it spells. *)
Lemma resolve_below fs fo base rb segs p : base_ok fs base rb -> nolinks fs rb segs -> segs <> [] ->
  resolve_comps fs fo (RootDir :: PathFacts.relative base ++ (Normal <$> segs)) = Ok p ->
  p = rb ++ segs /\ below rb p /\ node_at fs (removelast p) = Some NDir.
Proof.
  intros [A R D] Hn Hs. rewrite resolve_comps_absolute. intros H.
  destruct (resolve_from_app _ _ fo _ _ (Normal <$> segs) _ R D) as [l Hl]; [by destruct segs|].
  rewrite Hl in H. destruct (resolve_normals_dir l fs fo rb segs p D Hn H) as [-> Hd]. split; [done|].
  destruct (exists_last Hs) as (init & x & ->). split; [apply below_snoc|].
  rewrite removelast_last in Hd. by rewrite app_assoc, removelast_last.
Qed.

Lemma resolve_tgt fs fo s base rb segs p : base_ok fs base rb -> nolinks fs rb segs -> segs <> [] -> path_is s base segs ->
  resolve fs fo s = Ok p -> p = rb ++ segs /\ below rb p /\ node_at fs (removelast p) = Some NDir.
Proof.
  intros Hb Hn Hs [Ha Hr]. unfold resolve. rewrite PathFacts.components_absolute, Hr by done. by apply resolve_below.
Qed.

(** ** Operations on a path below the base *)

Record tgt (fs : Fs) (base : string) (rb segs : rpath) (s : string) : Prop := mkTgt {
  tgt_links : nolinks fs rb segs;
  tgt_some : segs <> [];
  tgt_path : path_is s base segs }.

Lemma inside_tgt rb fs fs' base segs s : inside rb fs fs' -> tgt fs base rb segs s -> tgt fs' base rb segs s.
Proof. intros H [L S P]. split; [by eapply inside_nolinks|done|done]. Qed.

Section Ops.
Context (fs : Fs) (base : string) (rb : rpath) (Hw : wf fs) (Hb : base_ok fs base rb).

Lemma tgt_not_link segs s t : tgt fs base rb segs s -> fs.(nodes) !! (rb ++ segs) <> Some (NLink t).
Proof. intros [L S _]. apply (L segs []); [by rewrite app_nil_r|done]. Qed.

Lemma remove_file_inside segs s : tgt fs base rb segs s -> inside rb fs (fs_ok fs (remove_file fs s)).
Proof.
  intros Ht. unfold remove_file. destruct (resolve fs false s) as [p|] eqn:E; [|apply inside_refl].
  destruct (resolve_tgt _ _ _ _ _ _ _ Hb (tgt_links _ _ _ _ _ Ht) (tgt_some _ _ _ _ _ Ht) (tgt_path _ _ _ _ _ Ht) E) as (-> & Hbl & _).
  rewrite (node_at_below rb) by done. pose proof (fun t => tgt_not_link segs s t Ht) as Hl.
  destruct (nodes fs !! (rb ++ segs)) as [[|t|i]|] eqn:En; cbn; try apply inside_refl.
  - by destruct (Hl t).
  - by eapply inside_delete.
Qed.

Lemma rename_inside segs1 segs2 s1 s2 : tgt fs base rb segs1 s1 -> tgt fs base rb segs2 s2 ->
  inside rb fs (fs_ok fs (rename fs s1 s2)).
Proof.
  intros [L1 S1 P1] [L2 S2 P2]. unfold rename.
  destruct (resolve fs false s1) as [a|] eqn:E1; [|destruct (resolve fs false s2); apply inside_refl].
  destruct (resolve fs false s2) as [b|] eqn:E2; [|apply inside_refl].
  destruct (resolve_tgt _ _ _ _ _ _ _ Hb L1 S1 P1 E1) as (-> & Hb1 & _).
  destruct (resolve_tgt _ _ _ _ _ _ _ Hb L2 S2 P2 E2) as (-> & Hb2 & Hd2).
  rewrite !(node_at_below rb) by done.
  destruct (nodes fs !! (rb ++ segs1)) as [[|t|i]|] eqn:En1; [apply inside_refl| | |].
  - by destruct (L1 segs1 [] t (eq_sym (app_nil_r _)) S1).
  - destruct (nodes fs !! (rb ++ segs2)) as [[|t|j]|] eqn:En2; cbn; [apply inside_refl| | |].
    + by destruct (L2 segs2 [] t (eq_sym (app_nil_r _)) S2).
    + eapply inside_rename; try done; rewrite En2; done.
    + eapply inside_rename; try done; rewrite En2; done.
  - by destruct (nodes fs !! (rb ++ segs2)) as [[]|]; apply inside_refl.
Qed.

(** A file opened for writing is below the base, and stays so. *)
Lemma open_write_inside trunc segs s h fs' : tgt fs base rb segs s -> open_write fs trunc s = Ok (h, fs') ->
  inside rb fs fs' /\ fs'.(nodes) !! (rb ++ segs) = Some (NFile h.(h_ino)) /\ h.(h_mode) = MWrite /\ h.(h_pos) = 0.
Proof.
  intros [L S P]. unfold open_write. destruct (resolve fs true s) as [p|] eqn:E; [|done].
  destruct (resolve_tgt _ _ _ _ _ _ _ Hb L S P E) as (-> & Hbl & Hd).
  rewrite (node_at_below rb) by done.
  destruct (nodes fs !! (rb ++ segs)) as [[|t|i]|] eqn:En; intros [= <- <-]; cbn.
  - split_and!; [destruct trunc|by destruct trunc|done..]; [by eapply inside_inode|apply inside_refl].
  - split_and!; [by apply inside_new_file|by rewrite lookup_insert_eq|done..].
Qed.

Lemma inside_write_handle fs0 h bytes h' fs' : (forall k, fs0.(nodes) !! k = Some (NFile h.(h_ino)) -> below rb k) ->
  write_handle fs0 h bytes = Ok (h', fs') -> inside rb fs0 fs' /\ h'.(h_ino) = h.(h_ino) /\ fs'.(nodes) = fs0.(nodes).
Proof.
  intros Hk. unfold write_handle. destruct (h_mode h); intros [= <- <-]. split_and!; [by apply inside_handle|done|done].
Qed.

Lemma fs_write_inside segs s bytes : tgt fs base rb segs s -> inside rb fs (fs_ok fs (fs_write fs s bytes)).
Proof.
  intros Ht. unfold fs_write. destruct (open_write fs true s) as [[h fs1]|] eqn:E; [|apply inside_refl].
  destruct (open_write_inside _ _ _ _ _ Ht E) as (H1 & Hn & Hm & _).
  destruct (write_handle fs1 h bytes) as [[h2 fs2]|] eqn:Ew; [|apply inside_refl]. cbn.
  eapply inside_trans; [done|]. pose proof (in_wf _ _ _ H1 Hw) as Hw1.
  eapply inside_write_handle in Ew as [H2 _]; [done|]. intros k Hk.
  rewrite (wf_inj _ Hw1 _ _ _ Hk Hn). destruct Ht as [_ S _]. destruct (exists_last S) as (x & y & ->). apply below_snoc.
Qed.

Lemma set_file_mtime_inside segs s t : tgt fs base rb segs s -> inside rb fs (fs_ok fs (set_file_mtime fs s t)).
Proof.
  intros [L S P]. unfold set_file_mtime, stat, stat_comps.
  destruct (resolve_comps fs true (components s)) as [p|] eqn:E; [|apply inside_refl].
  rewrite PathFacts.components_absolute in E by apply P. destruct P as [Pa Pr]. rewrite Pr in E.
  destruct (resolve_below _ _ _ _ _ _ Hb L S E) as (-> & Hbl & Hd).
  cbn [rbind]. unfold lookup_node. rewrite (node_at_below rb) by done.
  destruct (nodes fs !! (rb ++ segs)) as [[|t'|i]|] eqn:En; cbn; try apply inside_refl.
  by eapply inside_inode.
Qed.

End Ops.

(** ** [create_dir_all] *)

Lemma mkdir_existing fs cs q : wf fs -> resolve_from MAXSYMLINKS fs true [] cs = Ok q -> node_at fs q = Some NDir ->
  mkdir fs (RootDir :: cs) = Err OtherErr.
Proof.
  intros Hw H Hq. unfold mkdir. rewrite resolve_comps_absolute.
  edestruct resolve_nofollow as (p & -> & [n ->]); [done|by rewrite Hq|done|done|done].
Qed.

Lemma mkdir_inside fs fs' base rb segs : wf fs -> base_ok fs base rb -> nolinks fs rb segs -> segs <> [] ->
  mkdir fs (RootDir :: PathFacts.relative base ++ (Normal <$> segs)) = Ok fs' -> inside rb fs fs'.
Proof.
  intros Hw Hb Hn Hs. unfold mkdir. destruct (resolve_comps _ _ _) as [p|] eqn:E; [|done].
  destruct (resolve_below _ _ _ _ _ _ Hb Hn Hs E) as (-> & Hbl & Hd).
  rewrite (node_at_below rb) by done. destruct (nodes fs !! _) eqn:En; intros [= <-]. by apply inside_new_dir.
Qed.

Lemma create_dir_all_existing fs cs q : wf fs -> resolve_from MAXSYMLINKS fs true [] cs = Ok q -> node_at fs q = Some NDir ->
  create_dir_all fs (RootDir :: cs) = fs.
Proof.
  intros Hw H Hq. unfold create_dir_all. destruct (rev (RootDir :: cs)) as [|c rcs] eqn:E; [done|].
  cbn [create_dir_all_rev]. rewrite <- E, rev_involutive, (mkdir_existing fs cs q) by done. done.
Qed.

Lemma create_dir_all_inside fs base rb segs : wf fs -> base_ok fs base rb -> nolinks fs rb segs ->
  inside rb fs (create_dir_all fs (RootDir :: PathFacts.relative base ++ (Normal <$> segs))).
Proof.
  intros Hw Hb. induction segs as [|x segs IH] using rev_ind; intros Hn.
  - cbn [fmap list_fmap]. rewrite app_nil_r. erewrite create_dir_all_existing; [apply inside_refl|done|apply Hb|apply Hb].
  - specialize (IH (nolinks_prefix _ _ _ _ Hn)). unfold create_dir_all in *.
    set (cs := PathFacts.relative base) in *. rewrite fmap_app, app_assoc. cbn [fmap list_fmap].
    rewrite app_comm_cons, rev_unit. cbn [create_dir_all_rev].
    replace (rev (Normal x :: rev (RootDir :: cs ++ (Normal <$> segs)))) with (RootDir :: cs ++ (Normal <$> segs ++ [x])).
    2:{ cbn [rev]. rewrite rev_app_distr, !rev_involutive. cbn. by rewrite fmap_app, app_assoc. }
    assert (Hne : segs ++ [x] <> []) by (by destruct segs).
    destruct (mkdir fs _) as [fs1|[|]] eqn:E1.
    + by eapply mkdir_inside.
    + destruct (create_dir_all_rev fs _) as [fs2 ok]. cbn in IH. destruct ok; [|done].
      destruct (mkdir fs2 _) as [fs3|] eqn:E3; [|done].
      eapply inside_trans; [done|]. eapply mkdir_inside; [by eapply in_wf|by eapply inside_base|by eapply inside_nolinks|done|done].
    + apply inside_refl.
Qed.

(** The parent of the base itself, when the name adds nothing. *)
Lemma create_dir_all_parent fs base rb cs : wf fs -> base_ok fs base rb ->
  parent (RootDir :: PathFacts.relative base) = Some cs -> create_dir_all fs cs = fs.
Proof.
  intros Hw [A R D]. unfold parent. set (r := PathFacts.relative base) in *. destruct r as [|x r] using rev_ind; [done|].
  rewrite app_comm_cons, last_snoc, removelast_last. intros H.
  assert (cs = RootDir :: r) as -> by (destruct x; by simplify_eq/=).
  destruct (resolve_prefix _ _ _ _ _ _ Hw (eq_refl : node_at fs [] = Some NDir) R) as (q & Hq & Hd); [done|].
  by eapply create_dir_all_existing.
Qed.

(** An entry that exists is found under its own name. *)
Lemma resolve_exists l fs cur segs : wf fs -> segs <> [] -> is_Some (fs.(nodes) !! (cur ++ segs)) ->
  resolve_from l fs false cur (Normal <$> segs) = Ok (cur ++ segs).
Proof.
  intros Hw. revert cur. induction segs as [|s segs IH]; [done|]. intros cur _ Hn. cbn [fmap list_fmap]. step_comp.
  destruct segs as [|s' segs].
  - cbn. destruct Hn as [n ->]. destruct n; [apply resolve_from_nil|done..].
  - assert (Hd : node_at fs (cur ++ [s]) = Some NDir).
    { assert (Hgen : forall b, is_Some (nodes fs !! ((cur ++ [s]) ++ b)) -> b <> [] -> node_at fs (cur ++ [s]) = Some NDir).
      { intros b. induction b as [|y b IHb] using rev_ind; [done|]. intros Hs _.
        rewrite app_assoc in Hs. pose proof (wf_parent _ Hw _ _ Hs) as Hd.
        destruct b as [|z b]; [by rewrite app_nil_r in Hd|]. apply IHb; [|done].
        assert (E : node_at fs ((cur ++ [s]) ++ z :: b) = nodes fs !! ((cur ++ [s]) ++ z :: b)) by (by destruct cur).
        rewrite E in Hd. by rewrite Hd. }
      apply (Hgen (s' :: segs)); [|done]. by rewrite <- app_assoc. }
    rewrite node_at_snoc in Hd. rewrite Hd. rewrite IH; [by rewrite <- app_assoc|done|by rewrite <- app_assoc].
Qed.

End FsFacts.
