(* ===== verification/FsJob.v ===== *)
(** File transfer: name validation and [TransferJob] of [libs/base/src/fs.rs] (Unix), and
    [libs/hbb_common/src/compress.rs].

    A job's methods take and return the job and, where they touch it, the file system.
    What the file system model leaves open is an argument: the outcome of flushing and
    writing ([Io]), and how the reads of a block split up ([reads]).  The zstd coder and the
    JSON form of a digest are parameters. *)

From Stdlib Require Import Ascii.
From S2P Require Import Prelude PathFs.
Import Path Fs.

Module Names.

(** [Result<(), anyhow::Error>] *)
Inductive JobErr := Bail (msg : string) | Io (e : IoErr).

Definition is_ascii_alphabetic (a : ascii) : bool :=
  let n := Z.of_nat (nat_of_ascii a) in ((65 <=? n) && (n <=? 90)) || ((97 <=? n) && (n <=? 122)).

Definition is_sep (windows : bool) (c : ascii) : bool := is_slash c || (windows && Ascii.eqb c "\").

Definition validate_file_name_no_traversal (windows : bool) (name : string) : result unit JobErr :=
  if str_any (fun b => Ascii.eqb b zero) name then Err (Bail "file name contains null bytes")
  else if existsb (fun s => bool_decide (s = ".."%string))
            (List.filter (fun s => negb (bool_decide (s = ""%string))) (split (is_sep windows) name))
  then Err (Bail "path traversal detected in file name")
  else if windows then
    match name with
    | String b0 (String b1 _) =>
      if is_ascii_alphabetic b0 && Ascii.eqb b1 ":" then Err (Bail "absolute path detected in file name")
      else if starts_with (is_sep true) name then Err (Bail "absolute path detected in file name") else Ok tt
    | _ => if starts_with (is_sep true) name then Err (Bail "absolute path detected in file name") else Ok tt
    end
  else if starts_with is_slash name then Err (Bail "absolute path detected in file name")
  else Ok tt.

Inductive FileType := Dir | DirLink | DirDrive | File | FileLink.
#[global] Instance FileType_eq_dec : EqDecision FileType.
Proof. solve_decision. Defined.

Record FileEntry := mkEntry { entry_type : FileType; name : string; is_hidden : bool; size : Z; modified_time : Z }.

Definition is_empty (s : string) : bool := bool_decide (s = ""%string).

Fixpoint validate_each (files : list FileEntry) : result unit JobErr :=
  match files with
  | [] => Ok tt
  | f :: files =>
    if is_empty f.(name) then Err (Bail "empty file name in multi-file transfer")
    else rbind (validate_file_name_no_traversal false f.(name)) (fun _ => validate_each files)
  end.
Definition validate_transfer_file_names (files : list FileEntry) : result unit JobErr :=
  match files with
  | [f] => if is_empty f.(name) then Ok tt else validate_each files
  | _ => validate_each files
  end.

(** The loop over [Path::new(name).components()]; [current] is the path pushed so far. *)
Fixpoint no_symlink_loop (fs : Fs) (current : string) (cs : list Component) : result unit JobErr :=
  match cs with
  | [] => Ok tt
  | Normal seg :: cs =>
    let current := join current seg in
    match lstat fs current with
    | Ok (NLink _) => Err (Bail "symlink path component is not allowed")
    | Ok _ => no_symlink_loop fs current cs
    | Err NotFound => no_symlink_loop fs current cs
    | Err OtherErr => Err (Bail "failed to validate path component")
    end
  | CurDir :: cs => no_symlink_loop fs current cs
  | _ :: _ => Err (Bail "invalid file name component")
  end.
Definition validate_no_symlink_components (fs : Fs) (base name : string) : result unit JobErr :=
  if is_empty name then Ok tt else no_symlink_loop fs base (components name).

(** [TransferJob::join] *)
Definition job_join (p name : string) : string := if is_empty name then p else join p name.

Definition join_validated_path (fs : Fs) (base name : string) : result string JobErr :=
  rbind (validate_file_name_no_traversal false name) (fun _ =>
  rbind (validate_no_symlink_components fs base name) (fun _ => Ok (job_join base name))).

(** [name.rfind('.')] and what follows it. *)
Definition get_ext (name : string) : string :=
  match split (fun c => Ascii.eqb c ".") name with
  | [] | [_] => ""%string
  | l => List.last l ""%string
  end.
Definition is_compressed_file (name : string) : bool :=
  existsb (String.eqb (get_ext name)) ["xz"; "gz"; "zip"; "7z"; "rar"; "bz2"; "tgz"; "png"; "jpg"]%string.

End Names.

Module Job.
Import Names.

Inductive JobType := Generic | Printer.
Inductive DataSource := FilePath (p : string) | MemoryCursor (c : list Z).
Inductive DataStream := FileStream (h : Handle) | BufStream (data : list Z) (pos : Z).
Record FileDigest := mkDigest { d_size : Z; d_modified : Z }.

Definition is_generic (t : JobType) : bool := match t with Generic => true | Printer => false end.
Definition is_file_path (s : DataSource) : bool := match s with FilePath _ => true | _ => false end.
Definition is_none {A} (o : option A) : bool := match o with None => true | Some _ => false end.

(** The fields only read where a job is started or resumed. *)
Record JobMeta := mkMeta { remote : string; show_hidden : bool; is_remote : bool; conn_id : Z }.

Record TransferJob := mkJob {
  id : Z;
  type : JobType;
  data_source : DataSource;
  is_last_job : bool;
  is_resume : bool;
  file_num : Z;
  files : list FileEntry;
  data_stream : option DataStream;
  total_size : Z;
  finished_size : Z;
  transferred : Z;
  enable_overwrite_detection : bool;
  file_confirmed : bool;
  file_skipped : bool;
  file_is_waiting : bool;
  default_overwrite_strategy : option bool;
  digest : FileDigest;
  meta : JobMeta }.

Record FileTransferBlock := mkBlock { b_id : Z; b_file_num : Z; b_data : list Z; b_compressed : bool }.

(** Field updates. *)
Definition with_num_stream (j : TransferJob) (n : Z) (ds : option DataStream) : TransferJob :=
  mkJob j.(id) j.(type) j.(data_source) j.(is_last_job) j.(is_resume) n j.(files) ds j.(total_size)
    j.(finished_size) j.(transferred) j.(enable_overwrite_detection) j.(file_confirmed) j.(file_skipped)
    j.(file_is_waiting) j.(default_overwrite_strategy) j.(digest) j.(meta).
Definition with_counts (j : TransferJob) (fin tra : Z) : TransferJob :=
  mkJob j.(id) j.(type) j.(data_source) j.(is_last_job) j.(is_resume) j.(file_num) j.(files) j.(data_stream) j.(total_size)
    fin tra j.(enable_overwrite_detection) j.(file_confirmed) j.(file_skipped)
    j.(file_is_waiting) j.(default_overwrite_strategy) j.(digest) j.(meta).
Definition with_flags (j : TransferJob) (confirmed skipped waiting : bool) : TransferJob :=
  mkJob j.(id) j.(type) j.(data_source) j.(is_last_job) j.(is_resume) j.(file_num) j.(files) j.(data_stream) j.(total_size)
    j.(finished_size) j.(transferred) j.(enable_overwrite_detection) confirmed skipped
    waiting j.(default_overwrite_strategy) j.(digest) j.(meta).

Definition with_resume (j : TransferJob) (last resume : bool) : TransferJob :=
  mkJob j.(id) j.(type) j.(data_source) last resume j.(file_num) j.(files) j.(data_stream) j.(total_size)
    j.(finished_size) j.(transferred) j.(enable_overwrite_detection) j.(file_confirmed) j.(file_skipped)
    j.(file_is_waiting) j.(default_overwrite_strategy) j.(digest) j.(meta).
Definition set_overwrite_strategy (j : TransferJob) (strategy : option bool) : TransferJob :=
  mkJob j.(id) j.(type) j.(data_source) j.(is_last_job) j.(is_resume) j.(file_num) j.(files) j.(data_stream) j.(total_size)
    j.(finished_size) j.(transferred) j.(enable_overwrite_detection) j.(file_confirmed) j.(file_skipped)
    j.(file_is_waiting) strategy j.(digest) j.(meta).

(** [x as usize] of an [i32]. *)
Definition as_usize (x : Z) : Z := wrap 64 x.
Definition cur_file (j : TransferJob) : option FileEntry := zget j.(files) (as_usize j.(file_num)).
Definition sum_sizes (fs : list FileEntry) : Z := foldl (fun a f => wrap 64 (a + f.(size))) 0 fs.

Definition new_job (id : Z) (t : JobType) (src : DataSource) (file_num : Z) (files : list FileEntry)
    (total_size : Z) (eod : bool) : TransferJob :=
  mkJob id t src false false file_num files None total_size 0 0 eod false false false None (mkDigest 0 0) (mkMeta "" false false 0).
Definition new_write (id : Z) (t : JobType) (src : DataSource) (file_num : Z) (eod : bool) : TransferJob :=
  new_job id t src file_num [] 0 eod.

Fixpoint validate_links (fs : Fs) (base : string) (files : list FileEntry) : result unit JobErr :=
  match files with
  | [] => Ok tt
  | f :: files => rbind (validate_no_symlink_components fs base f.(name)) (fun _ => validate_links fs base files)
  end.
Definition set_files (fs : Fs) (j : TransferJob) (files : list FileEntry) : result TransferJob JobErr :=
  rbind (validate_transfer_file_names files) (fun _ =>
  rbind (match j.(data_source) with FilePath base => validate_links fs base files | _ => Ok tt end) (fun _ =>
  Ok (mkJob j.(id) j.(type) j.(data_source) j.(is_last_job) j.(is_resume) j.(file_num) files j.(data_stream)
        (sum_sizes files) j.(finished_size) j.(transferred) j.(enable_overwrite_detection) j.(file_confirmed)
        j.(file_skipped) j.(file_is_waiting) j.(default_overwrite_strategy) j.(digest) j.(meta)))).

Definition with_meta (j : TransferJob) (m : JobMeta) : TransferJob :=
  mkJob j.(id) j.(type) j.(data_source) j.(is_last_job) j.(is_resume) j.(file_num) j.(files) j.(data_stream) j.(total_size)
    j.(finished_size) j.(transferred) j.(enable_overwrite_detection) j.(file_confirmed) j.(file_skipped)
    j.(file_is_waiting) j.(default_overwrite_strategy) j.(digest) m.

Definition set_digest (j : TransferJob) (size modified : Z) : TransferJob :=
  mkJob j.(id) j.(type) j.(data_source) j.(is_last_job) j.(is_resume) j.(file_num) j.(files) j.(data_stream) j.(total_size)
    j.(finished_size) j.(transferred) j.(enable_overwrite_detection) j.(file_confirmed) j.(file_skipped)
    j.(file_is_waiting) j.(default_overwrite_strategy) (mkDigest size modified) j.(meta).

Definition set_finished_size_on_resume (j : TransferJob) : TransferJob :=
  if j.(is_resume) && (0 <? j.(file_num)) then
    with_counts j (sum_sizes (ztake (as_usize j.(file_num)) j.(files))) j.(transferred)
  else j.

(** ** Flags and confirmation *)

Definition set_file_confirmed (j : TransferJob) (b : bool) : TransferJob := with_flags j b false j.(file_is_waiting).
Definition set_file_is_waiting (j : TransferJob) (b : bool) : TransferJob :=
  with_flags j j.(file_confirmed) j.(file_skipped) b.
Definition job_skipped (j : TransferJob) : bool := j.(file_skipped) && (zlen j.(files) =? 1).
Definition job_completed (j : TransferJob) : bool :=
  negb j.(enable_overwrite_detection) || (negb j.(file_confirmed) && negb j.(file_is_waiting)).
Definition job_error (j : TransferJob) : option string := if job_skipped j then Some "skipped"%string else None.
Definition set_file_skipped (j : TransferJob) : TransferJob :=
  let j := with_num_stream j j.(file_num) None in
  let j := set_file_confirmed j false in
  let j := set_file_is_waiting j false in
  let j := with_num_stream j (swrap 32 (j.(file_num) + 1)) j.(data_stream) in
  with_flags j j.(file_confirmed) true j.(file_is_waiting).

(** The next file: what [read] and [open_data_stream] do after a file or an error. *)
Definition advance (j : TransferJob) (ds : option DataStream) : TransferJob :=
  with_flags (with_num_stream j (swrap 32 (j.(file_num) + 1)) ds) false j.(file_skipped) false.

(** ** The receiving side *)

Definition resolve_entry_path (fs : Fs) (j : TransferJob) (base name : string) : option string :=
  if is_generic j.(type) then
    match join_validated_path fs base name with Ok p => Some p | Err _ => None end
  else Some (job_join base name).

Definition download_path (p : string) : string := (p ++ ".download")%string.
Definition digest_path (p : string) : string := (p ++ ".digest")%string.

Definition modify_time (fs : Fs) (j : TransferJob) : Fs :=
  if negb (is_generic j.(type)) then fs else
  match j.(data_source), cur_file j with
  | FilePath p, Some entry =>
    match resolve_entry_path fs j p entry.(name) with
    | None => fs
    | Some path =>
      let fs := fs_ok fs (remove_file fs (digest_path path)) in
      let fs := fs_ok fs (rename fs (download_path path) path) in
      fs_ok fs (set_file_mtime fs path entry.(modified_time))
    end
  | _, _ => fs
  end.

Definition remove_download_file (fs : Fs) (j : TransferJob) : Fs :=
  if negb (is_generic j.(type)) then fs else
  match j.(data_source), cur_file j with
  | FilePath p, Some entry =>
    match resolve_entry_path fs j p entry.(name) with
    | None => fs
    | Some path =>
      let fs := fs_ok fs (remove_file fs (download_path path)) in
      fs_ok fs (remove_file fs (digest_path path))
    end
  | _, _ => fs
  end.

(** [set_stream_offset]: resume a download, or a read, at an offset (a [u32], so the seek
    itself succeeds). *)
Definition set_stream_offset (fs : Fs) (j : TransferJob) (file_num offset : Z) : TransferJob * Fs :=
  if zlen j.(files) <=? file_num then (j, fs) else
  match j.(data_source), zget j.(files) file_num with
  | FilePath p, Some entry =>
    match resolve_entry_path fs j p entry.(name) with
    | None => (j, fs)
    | Some file_path =>
      let f :=
        if exists_ fs (download_path file_path) && exists_ fs (digest_path file_path) then
          match open_write fs false (download_path file_path) with
          | Ok (h, fs) => Some (h, fs)
          | Err _ => None
          end
        else if exists_ fs file_path then
          match open_read fs file_path with Ok h => Some (h, fs) | Err _ => None end
        else None in
      match f with
      | None => (j, fs)
      | Some (h, fs) =>
        let j := with_num_stream j j.(Job.file_num) (Some (FileStream (mkH h.(h_ino) offset h.(h_mode)))) in
        (with_counts j (wrap 64 (j.(finished_size) + offset)) (wrap 64 (j.(transferred) + offset)), fs)
      end
    end
  | _, _ => (j, fs)
  end.

(** [FileTransferSendConfirmRequest] *)
Inductive ConfirmUnion := Skip (b : bool) | OffsetBlk (offset : Z) | ConfirmNone.
Record Confirm := mkConfirm { c_file_num : Z; c_union : ConfirmUnion }.

Definition confirm (fs : Fs) (j : TransferJob) (r : Confirm) : TransferJob * Fs :=
  if negb (j.(file_num) =? r.(c_file_num)) then (j, fs) else
  match r.(c_union) with
  | Skip s => (if s then set_file_skipped j else set_file_confirmed j true, fs)
  | OffsetBlk offset =>
    let j := set_file_confirmed j true in
    if 0 <? offset then set_stream_offset fs j (as_usize r.(c_file_num)) offset else (j, fs)
  | ConfirmNone => (j, fs)
  end.

Section Coder.
(** zstd ([None]: the coder failed) and the JSON form of a digest. *)
Variable zstd_compress zstd_decode : list Z -> option (list Z).
Variable digest_json : FileDigest -> list Z.
Variable parse_digest : list Z -> option FileDigest.

Definition MAX_DECOMPRESSED_SIZE : Z := 256 * 1024 * 1024.
Definition compress (data : list Z) : list Z := default [] (zstd_compress data).
Definition decompress_with_limit (data : list Z) (limit : Z) : option (list Z) :=
  match zstd_decode data with
  | Some out => if limit <? zlen out then None else Some out
  | None => None
  end.
Definition decompress (data : list Z) : list Z := default [] (decompress_with_limit data MAX_DECOMPRESSED_SIZE).

(** Outcomes of a write that the model leaves open. *)
Record IoOk := mkIo { io_sync : bool; io_write : bool }.

Definition stream_write (fs : Fs) (ds : DataStream) (bytes : list Z) : result (DataStream * Fs) IoErr :=
  match ds with
  | FileStream h => rbind (write_handle fs h bytes) (fun '(h, fs) => Ok (FileStream h, fs))
  | BufStream data pos => Ok (BufStream (put data pos bytes) (pos + zlen bytes), fs)
  end.

(** The tail of [write]: the payload goes to the open stream. *)
Definition write_payload (fs : Fs) (j : TransferJob) (block : FileTransferBlock) (io : IoOk)
    : result unit JobErr * TransferJob * Fs :=
  let tmp := if block.(b_compressed) then decompress block.(b_data) else block.(b_data) in
  match j.(data_stream) with
  | None => (Err (Bail (if block.(b_compressed) then "data stream is None" else "file is None")), j, fs)
  | Some ds =>
    if negb io.(io_write) then (Err (Io OtherErr), j, fs) else
    match stream_write fs ds tmp with
    | Err e => (Err (Io e), j, fs)
    | Ok (ds, fs) =>
      (Ok tt,
       with_counts (with_num_stream j j.(file_num) (Some ds))
         (wrap 64 (j.(finished_size) + zlen tmp)) (wrap 64 (j.(transferred) + zlen block.(b_data))), fs)
    end
  end.

(** Opening the target of a new file: the branch of [write] taken when the block is for
    another file or nothing is open. *)
Definition open_target (fs : Fs) (j : TransferJob) (p : string) (block : FileTransferBlock) (io : IoOk)
    : result unit JobErr * TransferJob * Fs :=
  let fs := modify_time fs j in
  let sync_failed := match j.(data_stream) with Some (FileStream _) => negb io.(io_sync) | _ => false end in
  if sync_failed then (Err (Io OtherErr), j, fs) else
  let j := with_num_stream j block.(b_file_num) j.(data_stream) in
  match cur_file j with
  | None => (Err (Bail "unreachable"), j, fs)
  | Some entry =>
    let target :=
      match j.(type) with
      | Printer => Ok (p, None, fs)
      | Generic =>
        rbind (join_validated_path fs p entry.(name)) (fun path =>
        let fs := match parent (components path) with Some pp => create_dir_all fs pp | None => fs end in
        Ok (download_path path, Some (digest_path path), fs))
      end in
    match target with
    | Err e => (Err e, j, fs)
    | Ok (path, dp, fs) =>
      let removed :=
        match dp with
        | Some dp => if exists_ fs dp then remove_file fs dp else Ok fs
        | None => Ok fs
        end in
      match removed with
      | Err e => (Err (Io e), j, fs)
      | Ok fs =>
        match open_write fs true path with
        | Err e => (Err (Io e), j, fs)
        | Ok (h, fs) =>
          let j := with_num_stream j j.(file_num) (Some (FileStream h)) in
          let fs := match dp with Some dp => fs_ok fs (fs_write fs dp (digest_json j.(digest))) | None => fs end in
          (Ok tt, j, fs)
        end
      end
    end
  end.

Definition write (fs : Fs) (j : TransferJob) (block : FileTransferBlock) (io : IoOk)
    : result unit JobErr * TransferJob * Fs :=
  if negb (block.(b_id) =? j.(id)) then (Err (Bail "Wrong id"), j, fs) else
  match j.(data_source) with
  | FilePath p =>
    let file_num := as_usize block.(b_file_num) in
    if zlen j.(files) <=? file_num then (Err (Bail "Wrong file number"), j, fs)
    else if negb (file_num =? as_usize j.(Job.file_num)) || is_none j.(data_stream) then
      match open_target fs j p block io with
      | (Ok _, j, fs) => write_payload fs j block io
      | r => r
      end
    else write_payload fs j block io
  | MemoryCursor c =>
    let j := if is_none j.(data_stream) then with_num_stream j j.(Job.file_num) (Some (BufStream c 0)) else j in
    write_payload fs j block io
  end.

End Coder.

End Job.
