(* ===== verification/FsSafe.v ===== *)
(** A receiving job stays inside its directory, whatever the peer sends. *)

From Stdlib Require Import Ascii.
From S2P Require Import Prelude PathFs FsJob.
Import Path Fs PathFacts FsFacts Names Job.

Module Safe.

(** ** Validated names *)

Lemma validate_name_ok name : validate_file_name_no_traversal false name = Ok tt ->
  is_absolute name = false /\ ("..")%string ∉ split is_slash name.
Proof.
  unfold validate_file_name_no_traversal. destruct (str_any _ name); [done|].
  destruct (existsb _ _) eqn:E; [done|]. unfold is_absolute. destruct (starts_with is_slash name); [done|].
  intros _. split; [done|]. rewrite (split_ext (is_sep false) is_slash) in E by (intros; apply orb_false_r).
  intros Hin. assert (existsb (fun s => bool_decide (s = "..")%string)
    (List.filter (fun s => negb (bool_decide (s = ""%string))) (split is_slash name)) = true); [|congruence].
  apply existsb_exists. exists ".."%string. split; [|done]. apply filter_In. split; [|done]. by apply list_elem_of_In.
Qed.

(** The check of the path components finds any link on the way. *)
Lemma no_symlink_loop_ok fs base rb current pre segs : wf fs -> base_ok fs base rb -> base <> ""%string ->
  Forall (fun x => str_any is_slash x = false /\ comp_of x = Some (Normal x)) segs ->
  path_is current base pre -> nolinks fs rb pre ->
  no_symlink_loop fs current (Normal <$> segs) = Ok tt -> nolinks fs rb (pre ++ segs).
Proof.
  intros Hw Hb Hbe HF. revert current pre. induction HF as [|x segs [Hx1 Hx2] _ IH]; intros current pre Hp Hn H.
  { by rewrite app_nil_r. }
  cbn [fmap list_fmap no_symlink_loop] in H.
  destruct (relative_one x Hx1 Hx2) as [Hr Ha]. destruct Hp as [Hpa Hpr].
  destruct (relative_join current x Hpa Ha) as [Hja Hjr].
  assert (Hp' : path_is (join current x) base (pre ++ [x])).
  { split; [done|]. by rewrite Hjr, Hpr, Hr, fmap_app, app_assoc. }
  assert (Hn' : nolinks fs rb (pre ++ [x])).
  { intros a b t Hab Hane Hk. destruct b as [|y b] using rev_ind.
    - rewrite app_nil_r in Hab. subst a.
      assert (Hl : lstat fs (join current x) = Ok (NLink t)).
      { assert (Htd : trailing_dir (join current x) = false).
        { unfold trailing_dir. rewrite last_split_join; [|done| |by destruct current].
          - rewrite split_one by done. cbn. unfold comp_of in Hx2. by destruct (bool_decide (x = _ \/ _)).
          - intros ->. done. }
        unfold lstat, resolve. rewrite Htd, components_absolute, (proj2 Hp'), resolve_comps_absolute by apply Hp'. cbn [orb].
        destruct (resolve_from_app _ _ false _ _ (Normal <$> (pre ++ [x])) _ (base_res _ _ _ Hb) (base_dir _ _ _ Hb)) as [l ->].
        { by destruct pre. }
        rewrite resolve_exists; [|done|by destruct pre|by rewrite Hk].
        cbn [rbind]. unfold lookup_node. rewrite (node_at_below rb) by apply below_snoc. by rewrite Hk. }
      by rewrite Hl in H.
    - rewrite app_assoc in Hab. apply app_inj_tail in Hab as [Hab _]. by apply (Hn a b t). }
  rewrite (cons_middle x pre segs), app_assoc. destruct (lstat fs (join current x)) as [[]|[]]; try done; by eapply IH.
Qed.

(** What [join_validated_path] guarantees. *)
Lemma join_validated fs base rb name path : wf fs -> base_ok fs base rb -> name <> ""%string ->
  join_validated_path fs base name = Ok path ->
  path = join base name /\ is_absolute name = false /\
  exists segs, relative name = Normal <$> segs /\ nolinks fs rb segs /\ path_is path base segs.
Proof.
  intros Hw Hb Hne. unfold join_validated_path, validate_no_symlink_components, job_join, is_empty.
  rewrite bool_decide_eq_false_2 by done.
  destruct (validate_file_name_no_traversal false name) as [[]|] eqn:Hv; [|done].
  apply validate_name_ok in Hv as [Ha Hdd]. cbn [rbind].
  destruct (relative_normals name Hdd) as (segs & Hr & HF).
  destruct (no_symlink_loop fs base (components name)) as [[]|] eqn:Hl; [|done]. cbn [rbind]. intros [= <-].
  split; [done|]. split; [done|]. exists segs. split; [done|].
  pose proof (base_abs _ _ _ Hb) as Hba. destruct (relative_join base name Hba Ha) as [Hja Hjr].
  split; [|split; [done|by rewrite Hjr, Hr]].
  assert (Hl' : no_symlink_loop fs base (Normal <$> segs) = Ok tt).
  { unfold components in Hl. rewrite Ha in Hl. fold (relative name) in Hl. rewrite Hr in Hl.
    destruct (split is_slash name) eqn:Es; [by apply split_nonempty in Es|]. by destruct (bool_decide _). }
  apply (no_symlink_loop_ok fs base rb base [] segs); try done.
  - by intros ->.
  - split; [done|]. cbn. by rewrite app_nil_r.
  - intros a b t Hab Hane. by destruct a.
Qed.

(** ** Temporary names *)

Definition suffixes : list string := [".download"; ".digest"]%string.

(** No link below the directory bears a temporary name. *)
Definition nosuf (fs : Fs) (rb : rpath) : Prop :=
  forall segs l suf t, suf ∈ suffixes -> fs.(nodes) !! (rb ++ segs ++ [(l ++ suf)%string]) <> Some (NLink t).

Lemma inside_nosuf rb fs fs' : inside rb fs fs' -> nosuf fs rb -> nosuf fs' rb.
Proof. intros H Hn segs l suf t Hs. rewrite (in_links _ _ _ H). by apply Hn. Qed.

(** The temporary path of a validated name is a path below the base. *)
Lemma suffix_tgt fs base rb name path segs suf : base_ok fs base rb -> nosuf fs rb -> name <> ""%string ->
  path = join base name -> is_absolute name = false -> relative name = Normal <$> segs -> nolinks fs rb segs ->
  suf ∈ suffixes -> exists segs', tgt fs base rb segs' (path ++ suf).
Proof.
  intros Hb Hns Hne -> Ha Hr Hn Hs.
  assert (Hs1 : str_any is_slash suf = false /\ (2 < String.length suf)%nat).
  { unfold suffixes in Hs. apply elem_of_cons in Hs as [->| ->%list_elem_of_singleton]; cbn; split; (done || lia). }
  destruct Hs1 as [Hs1 Hs2].
  rewrite join_app by done. assert (Ha' : is_absolute (name ++ suf) = false) by (by destruct name).
  destruct (relative_join base _ (base_abs _ _ _ Hb) Ha') as [Hja Hjr].
  destruct (relative_suffix name suf Hs1 Hs2) as (init & l & E1 & E2).
  assert (exists init', init = Normal <$> init' /\ exists b, segs = init' ++ b) as (init' & -> & b & Hb').
  { rewrite Hr in E2. apply fmap_app_inv in E2 as (i1 & i2 & -> & _ & ->). exists i1. split; [done|by exists i2]. }
  exists (init' ++ [(l ++ suf)%string]). split.
  - intros a c t Hac Hane. destruct c as [|y c] using rev_ind.
    + rewrite app_nil_r in Hac. subst a. by apply Hns.
    + rewrite app_assoc in Hac. apply app_inj_tail in Hac as [Hac _].
      apply (Hn a (c ++ b) t); [|done]. by rewrite Hb', Hac, app_assoc.
  - by destruct init'.
  - split; [done|]. by rewrite Hjr, E1, fmap_app.
Qed.

(** ** The job *)

Record job_ok (fs : Fs) (base : string) (rb : rpath) (j : TransferJob) : Prop := mkOk {
  ok_wf : wf fs;
  ok_base : base_ok fs base rb;
  ok_nosuf : nosuf fs rb;
  ok_source : j.(data_source) = FilePath base;
  ok_type : j.(type) = Generic;
  ok_names : Forall (fun f => f.(name) <> ""%string) j.(files);
  ok_stream : match j.(data_stream) with
    | Some (FileStream h) => h.(h_mode) = MWrite -> forall k, fs.(nodes) !! k = Some (NFile h.(h_ino)) -> below rb k
    | _ => True
    end }.

(** Changing the file system inside the directory keeps a job's conditions. *)
Lemma job_ok_inside fs fs' base rb j : inside rb fs fs' -> job_ok fs base rb j -> job_ok fs' base rb j.
Proof.
  intros Hi []. split; try done.
  - by eapply in_wf.
  - by eapply inside_base.
  - by eapply inside_nosuf.
  - destruct (data_stream j) as [[h|]|]; try done. intros Hm k Hk.
    destruct (decide (below rb k)) as [|Hn]; [done|].
    apply (ok_stream0 Hm). by rewrite <- (in_nodes _ _ _ Hi).
Qed.

Lemma zget_elem {A} (l : list A) i x : zget l i = Some x -> x ∈ l.
Proof. unfold zget. destruct (0 <=? i); [|done]. by apply list_elem_of_lookup_2. Qed.

Section Steps.
Context (base : string) (rb : rpath).

(** A name that adds nothing ("." and the like) means the directory itself. *)
Lemma empty_name_dir fs name : base_ok fs base rb -> name <> ""%string -> is_absolute name = false -> relative name = [] ->
  stat fs (join base name) = Ok NDir /\ resolve fs false (join base name) = Ok rb.
Proof.
  intros Hb Hne Ha Hr. destruct (relative_join base name (base_abs _ _ _ Hb) Ha) as [Hja Hjr].
  rewrite Hr, app_nil_r in Hjr.
  assert (Htd : trailing_dir (join base name) = true).
  { unfold trailing_dir. rewrite last_split_join; [|done|done|intros ->; by apply base_abs in Hb].
    unfold relative in Hr. destruct (exists_last (split_nonempty is_slash name)) as (l & z & Es). rewrite Es in *.
    rewrite last_snoc. rewrite omap_app in Hr. cbn in Hr. apply app_eq_nil in Hr as [_ Hr].
    unfold comp_of in Hr. destruct (bool_decide (z = _ \/ _)); [done|]. by destruct (bool_decide _). }
  unfold stat, stat_comps, resolve. rewrite Htd, components_absolute, Hjr by done.
  cbn [orb]. rewrite resolve_comps_absolute, (base_res _ _ _ Hb). split; [|done]. cbn. unfold lookup_node. by rewrite (base_dir _ _ _ Hb).
Qed.

(** The validated path of a file of the job and its two temporary paths. *)
Lemma entry_paths fs j name path : job_ok fs base rb j -> name <> ""%string ->
  join_validated_path fs base name = Ok path ->
  (exists d, tgt fs base rb d (download_path path)) /\ (exists d, tgt fs base rb d (digest_path path)) /\
  ((exists d, tgt fs base rb d path) \/
   forall fs', base_ok fs' base rb -> stat fs' path = Ok NDir /\ resolve fs' false path = Ok rb) /\
  (forall cs, parent (components path) = Some cs -> inside rb fs (create_dir_all fs cs)).
Proof.
  intros [Hw Hb Hns _ _ _ _] Hne Hj.
  destruct (join_validated fs base rb name path Hw Hb Hne Hj) as (Hp & Ha & segs & Hr & Hn & Hpi).
  split_and!; [by eapply suffix_tgt; try done; set_solver..| |].
  - destruct segs as [|s segs]; [right|left; by exists (s :: segs)].
    intros fs' Hb'. rewrite Hp. by apply empty_name_dir.
  - intros cs Hc. destruct Hpi as [Hpa Hpr]. rewrite components_absolute, Hpr in Hc by done.
    destruct segs as [|s segs _] using rev_ind.
    + cbn in Hc. rewrite app_nil_r in Hc. erewrite create_dir_all_parent; [apply inside_refl|done..].
    + rewrite fmap_app, app_assoc, app_comm_cons in Hc. cbn [fmap list_fmap] in Hc.
      unfold parent in Hc. rewrite last_snoc, removelast_last in Hc. injection Hc as <-.
      apply create_dir_all_inside; [done..|]. by eapply nolinks_prefix.
Qed.

Lemma rename_dir_noop fs a b p : resolve fs false b = Ok p -> node_at fs p = Some NDir -> fs_ok fs (rename fs a b) = fs.
Proof. intros H1 H2. unfold rename. rewrite H1. destruct (resolve fs false a); [|done]. rewrite H2. by destruct (node_at fs a0) as [[]|]. Qed.

Ltac chain H := eapply inside_trans; [exact H|].

Lemma modify_time_inside fs j : job_ok fs base rb j -> inside rb fs (modify_time fs j).
Proof.
  intros Hok. unfold modify_time, resolve_entry_path. rewrite (ok_type _ _ _ _ Hok), (ok_source _ _ _ _ Hok). cbn [is_generic negb].
  destruct (cur_file j) as [e|] eqn:Hc; [|apply inside_refl].
  destruct (join_validated_path fs base (name e)) as [path|] eqn:Hj; [|apply inside_refl].
  assert (Hne : name e <> ""%string).
  { apply zget_elem in Hc. by apply (proj1 (Forall_forall _ _) (ok_names _ _ _ _ Hok)) in Hc. }
  destruct (entry_paths fs j (name e) path Hok Hne Hj) as ([dl Hdl] & [dg Hdg] & Hpath & _).
  destruct Hok as [Hw Hb Hns _ _ _ _].
  pose proof (remove_file_inside fs base rb Hb _ _ Hdg) as H1. chain H1.
  set (fs1 := fs_ok fs (remove_file fs (digest_path path))) in *.
  pose proof (in_wf _ _ _ H1 Hw) as Hw1. pose proof (inside_base _ _ _ _ H1 Hb) as Hb1.
  destruct Hpath as [[d Hp]|Hst].
  - pose proof (rename_inside fs1 base rb Hw1 Hb1 _ _ _ _ (inside_tgt _ _ _ _ _ _ H1 Hdl) (inside_tgt _ _ _ _ _ _ H1 Hp)) as H2.
    chain H2. apply set_file_mtime_inside with (base := base) (segs := d); [by eapply in_wf|by eapply inside_base|].
    eapply inside_tgt; [done|]. by eapply inside_tgt.
  - destruct (Hst fs1 Hb1) as [Hs1 Hr1]. rewrite (rename_dir_noop fs1 _ _ rb) by (done || apply Hb1).
    unfold set_file_mtime. rewrite Hs1. apply inside_refl.
Qed.

Lemma remove_download_inside fs j : job_ok fs base rb j -> inside rb fs (remove_download_file fs j).
Proof.
  intros Hok. unfold remove_download_file, resolve_entry_path. rewrite (ok_type _ _ _ _ Hok), (ok_source _ _ _ _ Hok). cbn [is_generic negb].
  destruct (cur_file j) as [e|] eqn:Hc; [|apply inside_refl].
  destruct (join_validated_path fs base (name e)) as [path|] eqn:Hj; [|apply inside_refl].
  assert (Hne : name e <> ""%string).
  { apply zget_elem in Hc. by apply (proj1 (Forall_forall _ _) (ok_names _ _ _ _ Hok)) in Hc. }
  destruct (entry_paths fs j (name e) path Hok Hne Hj) as ([dl Hdl] & [dg Hdg] & _ & _).
  destruct Hok as [Hw Hb Hns _ _ _ _].
  pose proof (remove_file_inside fs base rb Hb _ _ Hdl) as H1. chain H1.
  apply remove_file_inside with (base := base) (segs := dg); [by eapply inside_base|by eapply inside_tgt].
Qed.

(** Replacing the stream and the counters. *)
Lemma job_ok_update fs j j' : job_ok fs base rb j ->
  j'.(data_source) = j.(data_source) -> j'.(type) = j.(type) -> j'.(files) = j.(files) ->
  match j'.(data_stream) with
  | Some (FileStream h) => h.(h_mode) = MWrite -> forall k, fs.(nodes) !! k = Some (NFile h.(h_ino)) -> below rb k
  | _ => True
  end -> job_ok fs base rb j'.
Proof. intros [] Hs Ht Hf Hd. split; try done; congruence. Qed.

Lemma handle_below fs segs h : wf fs -> segs <> [] -> fs.(nodes) !! (rb ++ segs) = Some (NFile h.(h_ino)) ->
  forall k, fs.(nodes) !! k = Some (NFile h.(h_ino)) -> below rb k.
Proof.
  intros Hw Hs Hn k Hk. rewrite (wf_inj _ Hw _ _ _ Hk Hn). destruct (exists_last Hs) as (x & y & ->). apply below_snoc.
Qed.

Lemma open_read_mode fs s h : open_read fs s = Ok h -> h.(h_mode) <> MWrite.
Proof. unfold open_read. destruct (stat fs s) as [[]|]; by intros [= <-]. Qed.

Section Coders.
Context (zstd_compress zstd_decode : list Z -> option (list Z)) (digest_json : FileDigest -> list Z).

Lemma write_payload_inside fs j block io r j' fs' : job_ok fs base rb j ->
  write_payload zstd_decode fs j block io = (r, j', fs') -> inside rb fs fs' /\ job_ok fs' base rb j'.
Proof.
  intros Hok. unfold write_payload. destruct (data_stream j) as [ds|] eqn:Hd;
    [|intros [= _ <- <-]; split; [apply inside_refl|done]].
  destruct (io_write io); [|intros [= _ <- <-]; split; [apply inside_refl|done]]. cbn [negb].
  destruct ds as [h|data pos]; cbn [stream_write].
  - destruct (write_handle fs h _) as [[h' fs1]|] eqn:E; cbn [rbind];
      intros [= _ <- <-]; [|split; [apply inside_refl|done]].
    destruct (h_mode h) eqn:Hm; try (unfold write_handle in E; by rewrite Hm in E).
    pose proof (ok_stream _ _ _ _ Hok) as Hs. rewrite Hd in Hs.
    destruct (inside_write_handle rb fs h _ h' fs1 (Hs Hm) E) as (Hi & Hino & Hnodes).
    split; [done|]. eapply job_ok_update; [by eapply job_ok_inside|done..|]. cbn.
    rewrite Hino, Hnodes. auto.
  - intros [= _ <- <-]. split; [apply inside_refl|]. by eapply job_ok_update.
Qed.

Lemma open_target_inside fs j block io r j' fs' : job_ok fs base rb j ->
  open_target digest_json fs j base block io = (r, j', fs') -> inside rb fs fs' /\ job_ok fs' base rb j'.
Proof.
  intros Hok0. unfold open_target. pose proof (modify_time_inside fs j Hok0) as H1.
  pose proof (job_ok_inside _ _ _ _ _ H1 Hok0) as Hok. set (fs1 := modify_time fs j) in *.
  destruct (match data_stream j with Some (FileStream _) => _ | _ => _ end); [intros [= _ <- <-]; by split|].
  set (j1 := with_num_stream j (b_file_num block) (data_stream j)).
  assert (Hok1 : job_ok fs1 base rb j1) by (eapply job_ok_update; [done..|by apply (ok_stream _ _ _ _ Hok)]).
  destruct (cur_file j1) as [e|] eqn:Hc; [|intros [= _ <- <-]; by split].
  rewrite (ok_type _ _ _ _ Hok1).
  destruct (join_validated_path fs1 base (name e)) as [path|] eqn:Hj; cbn [rbind]; [|intros [= _ <- <-]; by split].
  assert (Hne : name e <> ""%string).
  { apply zget_elem in Hc. by apply (proj1 (Forall_forall _ _) (ok_names _ _ _ _ Hok1)) in Hc. }
  destruct (entry_paths fs1 j1 (name e) path Hok1 Hne Hj) as ([dl Hdl] & [dg Hdg] & _ & Hpar).
  set (fs2 := match parent (components path) with Some pp => create_dir_all fs1 pp | None => fs1 end) in *.
  assert (H2 : inside rb fs1 fs2).
  { unfold fs2. destruct (parent (components path)); [by apply Hpar|apply inside_refl]. }
  pose proof (job_ok_inside _ _ _ _ _ H2 Hok1) as Hok2.
  set (removed := if exists_ fs2 (digest_path path) then remove_file fs2 (digest_path path) else Ok fs2).
  assert (H3 : inside rb fs2 (fs_ok fs2 removed)).
  { unfold removed. destruct (exists_ _ _); [|apply inside_refl].
    eapply remove_file_inside; [apply Hok2|by eapply inside_tgt]. }
  destruct removed as [fs3|]; [|intros [= _ <- <-]; split; [by chain H1|done]]. cbn [fs_ok] in H3.
  pose proof (job_ok_inside _ _ _ _ _ H3 Hok2) as Hok3.
  assert (H123 : inside rb fs fs3) by (chain H1; by chain H2).
  destruct (open_write fs3 true (download_path path)) as [[h fs4]|] eqn:Eo; [|intros [= _ <- <-]; by split].
  assert (Hdl3 : tgt fs3 base rb dl (download_path path)) by exact (inside_tgt _ _ _ _ _ _ H3 (inside_tgt _ _ _ _ _ _ H2 Hdl)).
  destruct (open_write_inside fs3 base rb (ok_wf _ _ _ _ Hok3) (ok_base _ _ _ _ Hok3) _ _ _ _ _ Hdl3 Eo) as (H4 & Hn4 & Hm4 & _).
  pose proof (job_ok_inside _ _ _ _ _ H4 Hok3) as Hok4.
  assert (H5 : inside rb fs4 (fs_ok fs4 (fs_write fs4 (digest_path path) (digest_json (digest (with_num_stream j1 (file_num j1) (Some (FileStream h)))))))).
  { eapply fs_write_inside; [apply Hok4|apply Hok4|]. exact (inside_tgt _ _ _ _ _ _ H4 (inside_tgt _ _ _ _ _ _ H3 (inside_tgt _ _ _ _ _ _ H2 Hdg))). }
  intros [= _ <- <-]. split; [chain H123; by chain H4|].
  eapply job_ok_inside; [exact H5|]. eapply job_ok_update; [exact Hok4|done..|]. cbn.
  intros _. eapply handle_below; [apply Hok4|by eapply tgt_some|done].
Qed.

Lemma write_inside fs j block io r j' fs' : job_ok fs base rb j ->
  write zstd_decode digest_json fs j block io = (r, j', fs') -> inside rb fs fs' /\ job_ok fs' base rb j'.
Proof.
  intros Hok. unfold write. destruct (negb _); [intros [= _ <- <-]; split; [apply inside_refl|done]|].
  rewrite (ok_source _ _ _ _ Hok). destruct (_ <=? _); [intros [= _ <- <-]; split; [apply inside_refl|done]|].
  destruct (_ || _); [|by apply write_payload_inside].
  destruct (open_target digest_json fs j base block io) as [[r1 j1] fs1] eqn:E.
  apply open_target_inside in E as [H1 Hok1]; [|done].
  destruct r1; [|intros [= _ <- <-]; by split].
  intros H. apply write_payload_inside in H as [H2 Hok2]; [|done]. split; [by chain H1|done].
Qed.

Lemma set_stream_offset_inside fs j n off j' fs' : job_ok fs base rb j ->
  set_stream_offset fs j n off = (j', fs') -> inside rb fs fs' /\ job_ok fs' base rb j'.
Proof.
  intros Hok. assert (Hnop : inside rb fs fs /\ job_ok fs base rb j) by (split; [apply inside_refl|done]).
  unfold set_stream_offset. rewrite (ok_source _ _ _ _ Hok).
  destruct (_ <=? _); [by intros [= <- <-]|]. destruct (zget (files j) n) as [e|] eqn:Hc; [|by intros [= <- <-]].
  unfold resolve_entry_path. rewrite (ok_type _ _ _ _ Hok). cbn [is_generic].
  destruct (join_validated_path fs base (name e)) as [path|] eqn:Hj; [|by intros [= <- <-]].
  assert (Hne : name e <> ""%string).
  { apply zget_elem in Hc. by apply (proj1 (Forall_forall _ _) (ok_names _ _ _ _ Hok)) in Hc. }
  destruct (entry_paths fs j (name e) path Hok Hne Hj) as ([dl Hdl] & _ & _ & _).
  destruct (_ && _).
  - destruct (open_write fs false (download_path path)) as [[h fs1]|] eqn:Eo; [|by intros [= <- <-]].
    destruct (open_write_inside fs base rb (ok_wf _ _ _ _ Hok) (ok_base _ _ _ _ Hok) _ _ _ _ _ Hdl Eo) as (H1 & Hn & _).
    intros [= <- <-]. split; [done|]. pose proof (job_ok_inside _ _ _ _ _ H1 Hok) as Hok1.
    eapply job_ok_update; [done..|]. cbn. intros _. eapply handle_below; [apply Hok1|by eapply tgt_some|done].
  - destruct (exists_ fs path); [|by intros [= <- <-]].
    destruct (open_read fs path) as [h|] eqn:Eo; intros [= <- <-]; [|done].
    split; [apply inside_refl|]. eapply job_ok_update; [done..|]. cbn. intros Hm. by apply open_read_mode in Eo.
Qed.

Lemma job_ok_flags fs j a b c : job_ok fs base rb j -> job_ok fs base rb (with_flags j a b c).
Proof. intros H. eapply job_ok_update; [done..|]. apply (ok_stream _ _ _ _ H). Qed.

Lemma confirm_inside fs j r j' fs' : job_ok fs base rb j ->
  confirm fs j r = (j', fs') -> inside rb fs fs' /\ job_ok fs' base rb j'.
Proof.
  intros Hok. unfold confirm. destruct (negb _); [intros [= <- <-]; split; [apply inside_refl|done]|].
  destruct (c_union r) as [[]|off|].
  - intros [= <- <-]. split; [apply inside_refl|]. by eapply job_ok_update.
  - intros [= <- <-]. split; [apply inside_refl|]. by apply job_ok_flags.
  - destruct (0 <? off); [|intros [= <- <-]; split; [apply inside_refl|by apply job_ok_flags]].
    apply set_stream_offset_inside. by apply job_ok_flags.
  - intros [= <- <-]. split; [apply inside_refl|done].
Qed.

(** ** A receiving session *)

(** What the connection does with a receiving job: blocks, confirmations and digests from
    the peer, the end of the job, its removal. *)
Inductive Recv := RBlock (b : FileTransferBlock) (io : IoOk) | RConfirm (r : Confirm)
| RDigest (size modified : Z) | RDone | RRemove.

Definition recv_step (fs : Fs) (j : TransferJob) (ev : Recv) : TransferJob * Fs :=
  match ev with
  | RBlock b io => let '(_, j, fs) := write zstd_decode digest_json fs j b io in (j, fs)
  | RConfirm r => confirm fs j r
  | RDigest s m => (set_digest j s m, fs)
  | RDone => (j, modify_time fs j)
  | RRemove => (j, remove_download_file fs j)
  end.

Fixpoint recv_run (fs : Fs) (j : TransferJob) (evs : list Recv) : TransferJob * Fs :=
  match evs with
  | [] => (j, fs)
  | ev :: evs => let '(j, fs) := recv_step fs j ev in recv_run fs j evs
  end.

Lemma recv_step_inside fs j ev j' fs' : job_ok fs base rb j -> recv_step fs j ev = (j', fs') ->
  inside rb fs fs' /\ job_ok fs' base rb j'.
Proof.
  intros Hok. destruct ev as [b io|r|s m| |]; cbn [recv_step].
  - destruct (write _ _ fs j b io) as [[r j1] fs1] eqn:E. intros [= <- <-]. by eapply write_inside.
  - by apply confirm_inside.
  - intros [= <- <-]. split; [apply inside_refl|]. eapply job_ok_update; [done..|]. apply (ok_stream _ _ _ _ Hok).
  - intros [= <- <-]. pose proof (modify_time_inside fs j Hok) as H. split; [done|by eapply job_ok_inside].
  - intros [= <- <-]. pose proof (remove_download_inside fs j Hok) as H. split; [done|by eapply job_ok_inside].
Qed.

Lemma recv_run_inside fs j evs : job_ok fs base rb j -> inside rb fs (recv_run fs j evs).2.
Proof.
  revert fs j. induction evs as [|ev evs IH]; intros fs j Hok; cbn [recv_run]; [apply inside_refl|].
  destruct (recv_step fs j ev) as [j1 fs1] eqn:E. apply recv_step_inside in E as [H1 Hok1]; [|done].
  chain H1. by apply IH.
Qed.

End Coders.
End Steps.

Lemma validate_each_names files : validate_each files = Ok tt -> Forall (fun f => f.(name) <> ""%string) files.
Proof.
  induction files as [|f files IH]; cbn; [constructor|]. unfold is_empty. case_bool_decide; [done|].
  destruct (validate_file_name_no_traversal _ _); [|done]. cbn. auto.
Qed.

Lemma set_files_job fs j entries j' : set_files fs j entries = Ok j' ->
  (forall f, entries = [f] -> f.(name) <> ""%string) ->
  Forall (fun f => f.(name) <> ""%string) j'.(files) /\ j'.(data_source) = j.(data_source) /\
  j'.(type) = j.(type) /\ j'.(data_stream) = j.(data_stream).
Proof.
  intros H Hone. unfold set_files in H. destruct (validate_transfer_file_names entries) as [[]|] eqn:Hv; [|done].
  cbn [rbind] in H. destruct (match data_source j with FilePath base => _ | _ => _ end); [|done]. cbn in H.
  injection H as <-. split; [cbn|done].
  assert (Hv' : validate_each entries = Ok tt).
  { unfold validate_transfer_file_names in Hv. destruct entries as [|f [|f' l]]; try done.
    unfold is_empty in Hv. rewrite bool_decide_eq_false_2 in Hv; [done|by apply Hone]. }
  by apply validate_each_names.
Qed.

(** A receiving job is confined to its directory.  Take a job whose file list the peer
    supplied and [set_files] accepted, writing to a directory [base] whose real path is [rb],
    with no symbolic link below it that bears one of the two temporary suffixes.  Whatever
    the peer then sends (blocks for any file in any order, compressed or not, confirmations,
    resume offsets, digests, the end of the job) and whatever fails on the way: no entry
    outside [rb] is created, removed or replaced, the contents of every file outside are
    unchanged, and no symbolic link is made anywhere. *)
Theorem receive_contained (zstd_decode : list Z -> option (list Z)) (digest_json : FileDigest -> list Z)
    (fs0 fs : Fs) (base : string) (rb : rpath) (jid num : Z) (eod : bool) (entries : list FileEntry)
    (j : TransferJob) (evs : list Recv) :
  set_files fs0 (new_write jid Generic (FilePath base) num eod) entries = Ok j ->
  (forall f, entries = [f] -> f.(name) <> ""%string) ->
  wf fs -> base_ok fs base rb -> nosuf fs rb ->
  let fs' := (recv_run zstd_decode digest_json fs j evs).2 in
  (forall k, ~ below rb k -> fs'.(nodes) !! k = fs.(nodes) !! k) /\
  (forall k i, ~ below rb k -> fs.(nodes) !! k = Some (NFile i) -> fs'.(inodes) !! i = fs.(inodes) !! i) /\
  (forall k t, fs'.(nodes) !! k = Some (NLink t) <-> fs.(nodes) !! k = Some (NLink t)).
Proof.
  intros Hs Hone Hw Hb Hns. destruct (set_files_job _ _ _ _ Hs Hone) as (Hf & Hsrc & Hty & Hds).
  assert (Hok : job_ok fs base rb j) by (split; try done; by rewrite Hds).
  destruct (recv_run_inside base rb zstd_decode digest_json fs j evs Hok) as [N I _ L _ _]. done.
Qed.

(** ** Concrete trees *)

Definition tree (l : list (rpath * Node)) (files : list (nat * Inode)) : Fs :=
  mkFs (list_to_map l) (list_to_map files) (length files) [] 7.

(** [/srv] is the target; [/etc/x] must not change. *)
Definition demo_fs : Fs := tree
  [(["srv"], NDir); (["etc"], NDir); (["etc"; "x"], NFile 0)]%string [(0%nat, mkInode [1] 5)].
Definition demo_job (names : list string) : result TransferJob JobErr :=
  set_files demo_fs (new_write 3 Generic (FilePath "/srv") 0 false)
    ((fun n => mkEntry Names.File n false 1 9) <$> names).
Definition demo_block (n : Z) (d : list Z) : Recv := RBlock (mkBlock 3 n d false) (mkIo true true).

(** A decidable form of the side conditions, for concrete trees. *)
Definition wfb (fs : Fs) : bool :=
  is_none (fs.(nodes) !! []) &&
  forallb (fun e : rpath * Node => (match node_at fs (removelast e.1) with Some NDir => true | _ => false end) &&
     match e.2 with
     | NFile i => Nat.ltb i fs.(next_ino) &&
        forallb (fun e' : rpath * Node => match e'.2 with NFile i' => negb (Nat.eqb i i') || bool_decide (e.1 = e'.1) | _ => true end)
          (map_to_list fs.(nodes))
     | _ => true
     end) (map_to_list fs.(nodes)).

Lemma wfb_wf fs : wfb fs = true -> wf fs.
Proof.
  unfold wfb. intros [Hr Hf]%andb_true_iff. rewrite forallb_forall in Hf.
  assert (Hf' : forall k n, nodes fs !! k = Some n -> (match node_at fs (removelast k) with Some NDir => true | _ => false end) = true /\
    match n with
    | NFile i => (i < next_ino fs)%nat /\ forall q, nodes fs !! q = Some (NFile i) -> k = q
    | _ => True end).
  { intros k n Hk. specialize (Hf (k, n)). cbn in Hf. rewrite <- list_elem_of_In, elem_of_map_to_list in Hf.
    apply Hf in Hk as [H1 H2]%andb_true_iff. split; [done|]. destruct n as [| |i]; [done..|].
    apply andb_true_iff in H2 as [H2 H3]. apply Nat.ltb_lt in H2. split; [done|]. intros q Hq.
    rewrite forallb_forall in H3. specialize (H3 (q, NFile i)). rewrite <- list_elem_of_In, elem_of_map_to_list in H3.
    apply H3 in Hq. cbn in Hq. rewrite Nat.eqb_refl in Hq. cbn in Hq. by apply bool_decide_eq_true in Hq. }
  split.
  - by destruct (nodes fs !! []).
  - intros p c [n Hn]. apply Hf' in Hn as [Hn _]. rewrite removelast_last in Hn. by destruct (node_at fs p) as [[]|].
  - intros p i Hn. apply Hf' in Hn as [_ [Hn _]]. done.
  - intros p q i Hp Hq. apply Hf' in Hp as [_ [_ Hp]]. by apply Hp.
Qed.

(** No link at all: in particular none with a temporary suffix. *)
Lemma nolink_nosuf fs rb : forallb (fun e : rpath * Node => match e.2 with NLink _ => false | _ => true end) (map_to_list fs.(nodes)) = true ->
  nosuf fs rb.
Proof.
  intros Hf. rewrite forallb_forall in Hf. intros segs l suf t _ Hk.
  specialize (Hf (rb ++ segs ++ [(l ++ suf)%string], NLink t)). rewrite <- list_elem_of_In, elem_of_map_to_list in Hf. by apply Hf in Hk.
Qed.

Lemma receive_contained_witness :
  exists j, demo_job ["a"; "b/c"]%string = Ok j /\
  let fs' := (recv_run (fun _ => None) (fun _ => []) demo_fs j [demo_block 0 [4; 5]; demo_block 1 [6]; RDone]).2 in
  fs'.(nodes) !! (["etc"; "x"]%string) = Some (NFile 0) /\ fs'.(inodes) !! 0%nat = Some (mkInode [1] 5).
Proof.
  destruct (demo_job ["a"; "b/c"]%string) as [j|] eqn:E; [|by vm_compute in E]. exists j. split; [done|].
  assert (Hn : ~ below ["srv"]%string ["etc"; "x"]%string) by (by intros (? & ? & ?)).
  destruct (receive_contained (fun _ => None) (fun _ => []) demo_fs demo_fs "/srv" ["srv"]%string 3 0 false _ j
    [demo_block 0 [4; 5]; demo_block 1 [6]; RDone] E) as (H1 & H2 & _).
  - intros f Hf. done.
  - apply wfb_wf. by vm_compute.
  - split; by vm_compute.
  - apply nolink_nosuf. by vm_compute.
  - split; [by rewrite H1|]. by rewrite (H2 ["etc"; "x"]%string 0%nat).
Defined.

(** The condition on links is needed: the check of the name does not look at the name that is
    opened.  With a link [/srv/a.download] to [/etc/x] already there, a block for the
    second file, "a", overwrites [/etc/x]. *)
Definition link_fs : Fs := tree
  [(["srv"], NDir); (["etc"], NDir); (["etc"; "x"], NFile 0); (["srv"; "a.download"], NLink "/etc/x")]%string
  [(0%nat, mkInode [1] 5)].

Example download_link_escapes :
  match set_files link_fs (new_write 3 Generic (FilePath "/srv") 0 false) [mkEntry Names.File "z" false 1 9; mkEntry Names.File "a" false 1 9] with
  | Ok j => inode_data (recv_run (fun _ => None) (fun _ => []) link_fs j [demo_block 1 [66]]).2 0 = [66]
  | Err _ => False
  end.
Proof. by vm_compute. Qed.

(** The temporary names are not reserved: a directory that holds both "a.download" and "a" is
    not transferred faithfully.  The second file's temporary file is the first file. *)
Example temporary_name_collision :
  match demo_job ["a.download"; "a"]%string with
  | Ok j =>
    let fs' := (recv_run (fun _ => None) (fun _ => []) demo_fs j [demo_block 0 [4]; demo_block 0 []; demo_block 1 [5]; RDone]).2 in
    metadata fs' "/srv/a" = Ok (mkInode [5] 9) /\ exists_ fs' "/srv/a.download" = false
  | Err _ => False
  end.
Proof. by vm_compute. Qed.

(** Opening the first file also finishes it: a "a.download" left by an interrupted transfer
    replaces the complete file "a" before any byte of the new transfer is there, and the file
    stays truncated if that transfer is cancelled. *)
Definition stale_fs : Fs := tree
  [(["srv"], NDir); (["srv"; "a"], NFile 0); (["srv"; "a.download"], NFile 1)]%string
  [(0%nat, mkInode [1; 2; 3] 5); (1%nat, mkInode [1] 5)].

Example stale_download_promoted :
  match set_files stale_fs (new_write 3 Generic (FilePath "/srv") 0 false) [mkEntry Names.File "a" false 3 9] with
  | Ok j =>
    metadata stale_fs "/srv/a" = Ok (mkInode [1; 2; 3] 5) /\
    metadata (recv_run (fun _ => None) (fun _ => []) stale_fs j [demo_block 0 [1]; RRemove]).2 "/srv/a" = Ok (mkInode [1] 9)
  | Err _ => False
  end.
Proof. by vm_compute. Qed.

(** ** Names of the entries of a directory *)

Definition plain (x : string) : Prop :=
  str_any is_slash x = false /\ comp_of x = Some (Normal x) /\ str_any (fun b => Ascii.eqb b Ascii.zero) x = false.

Lemma plain_name x : plain x -> relative x = [Normal x] /\ is_absolute x = false /\ x <> ""%string.
Proof. intros (H1 & H2 & _). destruct (relative_one x H1 H2). split_and!; [done|done|]. by intros ->. Qed.

End Safe.
