(* ===== verification/FsSend.v ===== *)
(** The sending side of a file transfer: [read] and its helpers, the digest handshake,
    [handle_read_jobs], [is_write_need_confirmation] and the directory walk of
    [libs/base/src/fs.rs].

    The network stream is the list of messages sent on it; the theorems are about calls in
    which sending works (a failed send ends the connection and its jobs). *)

From Stdlib Require Import Ascii.
From S2P Require Import Prelude PathFs FsJob.
Import Path Fs Names Job.

Module Send.

Definition BUF_SIZE : Z := 128 * 1024.

(** What the job sends: [FileResponse]. *)
Inductive Msg :=
| MDigest (id file_num last_modified file_size : Z) (is_resume : bool)
| MBlock (b : FileTransferBlock)
| MDone (id file_num : Z)
| MError (id : Z) (error : JobErr) (file_num : Z).

(** One [read] of at most [room] bytes: [n] limits how much the call returns. *)
Definition stream_read (fs : Fs) (ds : DataStream) (room n : Z) : result (list Z * DataStream) IoErr :=
  let len := Z.min room (Z.max 1 n) in
  match ds with
  | FileStream h =>
    match h.(h_mode) with
    | MRead =>
      let got := ztake len (zdrop h.(h_pos) (inode_data fs h.(h_ino))) in
      Ok (got, FileStream (mkH h.(h_ino) (h.(h_pos) + zlen got) MRead))
    | _ => Err OtherErr
    end
  | BufStream data pos =>
    let got := ztake len (zdrop pos data) in Ok (got, BufStream data (pos + zlen got))
  end.

(** The bytes a stream still has to give. *)
Definition remaining (fs : Fs) (ds : DataStream) : list Z :=
  match ds with
  | FileStream h => zdrop h.(h_pos) (inode_data fs h.(h_ino))
  | BufStream data pos => zdrop pos data
  end.

(** The loop of [read].  [reads]: how much each call returns, [None] for an I/O error; past its
    end every call returns all it can.  Every call that returns bytes shortens what remains,
    so one more than that is enough fuel ([read_loop_total]). *)
Fixpoint read_loop (fuel : nat) (fs : Fs) (ds : DataStream) (buf : list Z) (reads : list (option Z))
    : result (list Z * DataStream) IoErr :=
  match fuel with
  | O => Err OtherErr
  | S fuel =>
    match head reads with
    | Some None => Err OtherErr
    | o =>
      let n := match o with Some (Some n) => n | _ => BUF_SIZE end in
      match stream_read fs ds (BUF_SIZE - zlen buf) n with
      | Err e => Err e
      | Ok (got, ds) =>
        let buf := buf ++ got in
        if (zlen got =? 0) || (zlen buf =? BUF_SIZE) then Ok (buf, ds)
        else read_loop fuel fs ds buf (tail reads)
      end
    end
  end.

Section Coder.
Variable zstd_compress : list Z -> option (list Z).

(** The name [read] looks at to tell compressed files. *)
Definition current_name (j : TransferJob) (p : string) (entry : FileEntry) : string :=
  if (zlen j.(files) =? 1) && is_empty entry.(name) then default ""%string (file_name p) else entry.(name).

Definition read (fs : Fs) (j : TransferJob) (reads : list (option Z))
    : result (option FileTransferBlock) JobErr * TransferJob :=
  if is_generic j.(type) && j.(enable_overwrite_detection) && negb j.(file_confirmed) then (Ok None, j) else
  let file_num := j.(Job.file_num) in
  let target :=
    match j.(data_source), cur_file j with
    | FilePath p, Some entry => Some (current_name j p entry)
    | FilePath _, None => None
    | MemoryCursor _, _ => Some ""%string
    end in
  match target with
  | None => (Ok None, with_num_stream j file_num None)
  | Some name =>
    match j.(data_stream) with
    | None => (Err (Bail "data stream is None"), j)
    | Some ds =>
      match read_loop (S (length (remaining fs ds))) fs ds [] reads with
      | Err e => (Err (Io e), advance j None)
      | Ok (buf, ds) =>
        let j := with_num_stream j file_num (Some ds) in
        let block data compressed := Some (mkBlock j.(id) file_num data compressed) in
        if is_nil buf then
          if negb (is_file_path j.(data_source)) then (Ok None, with_num_stream j file_num None)
          else (Ok (block [] false), advance j None)
        else
          let finished := wrap 64 (j.(finished_size) + zlen buf) in
          let tmp := compress zstd_compress buf in
          let '(data, compressed) :=
            if is_file_path j.(data_source) && negb (is_compressed_file name) && (zlen tmp <? zlen buf)
            then (tmp, true) else (buf, false) in
          (Ok (block data compressed), with_counts j finished (wrap 64 (j.(transferred) + zlen data)))
      end
    end
  end.

(** [open_data_stream]: [true] when the job is done. *)
Definition open_data_stream (fs : Fs) (j : TransferJob) : result bool JobErr * TransferJob :=
  match j.(data_source) with
  | FilePath p =>
    match cur_file j with
    | None => (Ok true, with_num_stream j j.(file_num) None)
    | Some entry =>
      match j.(data_stream) with
      | Some _ => (Ok false, j)
      | None =>
        match open_read fs (job_join p entry.(name)) with
        | Ok h => (Ok false, with_flags (with_num_stream j j.(file_num) (Some (FileStream h))) false j.(file_skipped) false)
        | Err e => (Err (Io e), advance j None)
        end
      end
    end
  | MemoryCursor c =>
    match j.(data_stream) with
    | Some _ => (Ok false, j)
    | None =>
      (Ok false, mkJob j.(id) j.(type) (MemoryCursor []) j.(is_last_job) j.(is_resume) j.(file_num) j.(files)
        (Some (BufStream c 0)) j.(total_size) j.(finished_size) j.(transferred) j.(enable_overwrite_detection)
        j.(file_confirmed) j.(file_skipped) j.(file_is_waiting) j.(default_overwrite_strategy) j.(digest) j.(meta))
    end
  end.

(** [(last_modified, file_size)]; a time before the epoch is an error. *)
Definition get_current_digest (fs : Fs) (j : TransferJob) : result (Z * Z) JobErr :=
  match j.(data_stream) with
  | None => Err (Bail "file is None")
  | Some (BufStream _ _) => Err (Bail "No digest for buf stream")
  | Some (FileStream h) =>
    match fs.(inodes) !! h.(h_ino) with
    | Some x => if x.(i_mtime) <? 0 then Err (Io OtherErr) else Ok (x.(i_mtime), zlen x.(i_data))
    | None => Err (Io OtherErr)
    end
  end.

Definition must_ask (j : TransferJob) : bool :=
  is_generic j.(type) && j.(enable_overwrite_detection) && negb j.(file_confirmed) && negb j.(file_is_waiting).

Definition send_current_digest (fs : Fs) (j : TransferJob) : result (list Msg) JobErr :=
  rbind (get_current_digest fs j) (fun '(m, s) => Ok [MDigest j.(id) j.(file_num) m s j.(is_resume)]).

Definition init_data_stream (fs : Fs) (j : TransferJob) : result (list Msg) JobErr * TransferJob :=
  match open_data_stream fs j with
  | (Err e, j) => (Err e, j)
  | (Ok true, j) => (Ok [], j)
  | (Ok false, j) =>
    if must_ask j then
      match send_current_digest fs j with
      | Ok out => (Ok out, set_file_is_waiting j true)
      | Err e => (Err e, j)
      end
    else (Ok [], j)
  end.

Definition init_data_stream_for_cm (fs : Fs) (j : TransferJob) : result (option (Z * Z)) JobErr * TransferJob :=
  match open_data_stream fs j with
  | (Err e, j) => (Err e, j)
  | (Ok true, j) => (Ok None, j)
  | (Ok false, j) =>
    if must_ask j then
      match get_current_digest fs j with
      | Ok d => (Ok (Some d), set_file_is_waiting j true)
      | Err e => (Err e, j)
      end
    else (Ok None, j)
  end.

(** ** Jobs of a connection *)

Definition remove_job (jid : Z) (jobs : list TransferJob) : list TransferJob :=
  match list_find (fun j => j.(id) = jid) jobs with
  | Some (i, _) => take i jobs ++ drop (S i) jobs
  | None => jobs
  end.
Definition job_index (jid : Z) (jobs : list TransferJob) : option (nat * TransferJob) :=
  list_find (fun j => j.(id) = jid) jobs.
Definition get_job (jid : Z) (jobs : list TransferJob) : option TransferJob := snd <$> job_index jid jobs.
(** The job [get_job] returned a reference to is now [j]. *)
Definition put_job (jid : Z) (j : TransferJob) (jobs : list TransferJob) : list TransferJob :=
  match job_index jid jobs with Some (i, _) => <[i := j]> jobs | None => jobs end.
Fixpoint init_jobs (fs : Fs) (jobs : list TransferJob) : list TransferJob * list Msg :=
  match jobs with
  | [] => ([], [])
  | j :: jobs =>
    let '(j, out) :=
      if j.(is_last_job) then (j, [])
      else match init_data_stream fs j with
           | (Ok out, j) => (j, out)
           | (Err e, j) => (j, [MError j.(id) e j.(file_num)])
           end in
    let '(jobs, outs) := init_jobs fs jobs in (j :: jobs, out ++ outs)
  end.

(** The loop of [handle_read_jobs]: the first job that is not resumed later is served, one
    block; a finished one is named for removal. *)
Fixpoint read_first (fs : Fs) (jobs : list TransferJob) (reads : list (option Z))
    : list TransferJob * list Msg * option Z :=
  match jobs with
  | [] => ([], [], None)
  | j :: jobs =>
    if j.(is_last_job) then
      let '(jobs, out, fin) := read_first fs jobs reads in (j :: jobs, out, fin)
    else
      match read fs j reads with
      | (Err e, j) => (j :: jobs, [MError j.(id) e j.(file_num)], None)
      | (Ok (Some b), j) => (j :: jobs, [MBlock b], None)
      | (Ok None, j) =>
        if job_completed j then
          (j :: jobs,
           [match job_error j with
            | Some e => MError j.(id) (Bail e) j.(file_num)
            | None => MDone j.(id) j.(file_num)
            end], Some j.(id))
        else (j :: jobs, [], None)
      end
  end.

Definition handle_read_jobs (fs : Fs) (jobs : list TransferJob) (reads : list (option Z))
    : list TransferJob * list Msg :=
  let '(jobs, out1) := init_jobs fs jobs in
  let '(jobs, out2, finished) := read_first fs jobs reads in
  (match finished with Some jid => remove_job jid jobs | None => jobs end, out1 ++ out2).

End Coder.

(** ** Overwrite detection on the receiving side *)

(** [FileTransferDigest], the fields that are set. *)
Record Digest := mkDg {
  dg_id : Z; dg_file_num : Z; dg_last_modified : Z; dg_file_size : Z;
  dg_is_identical : bool; dg_transferred_size : Z }.
Inductive DigestCheckResult := NeedConfirm (d : Digest) | NoSuchFile.

Section Check.
Variable parse_digest : list Z -> option FileDigest.

Definition resume_check (fs : Fs) (file_path : string) (digest : Digest) : option DigestCheckResult :=
  match metadata fs (digest_path file_path) with
  | Err _ => None
  | Ok content =>
    if negb (is_file fs (digest_path file_path)) then None else
    match parse_digest content.(i_data) with
    | None => None
    | Some local =>
      let is_identical := (local.(d_modified) =? digest.(dg_last_modified)) && (local.(d_size) =? digest.(dg_file_size)) in
      if is_identical then
        match metadata fs (download_path file_path) with
        | Err _ => None
        | Ok dl =>
          let transferred_size := zlen dl.(i_data) in
          if 0 <? transferred_size then
            Some (NeedConfirm (mkDg digest.(dg_id) digest.(dg_file_num) digest.(dg_last_modified) digest.(dg_file_size)
                                 is_identical transferred_size))
          else None
        end
      else None
    end
  end.

Definition is_write_need_confirmation (fs : Fs) (is_resume : bool) (file_path : string) (digest : Digest)
    : result DigestCheckResult IoErr :=
  match (if is_resume && exists_ fs (digest_path file_path) && exists_ fs (download_path file_path)
         then resume_check fs file_path digest else None) with
  | Some r => Ok r
  | None =>
    if exists_ fs file_path && is_file fs file_path then
      rbind (metadata fs file_path) (fun m =>
      if m.(i_mtime) <? 0 then Err OtherErr else
      let is_identical := (digest.(dg_last_modified) =? m.(i_mtime)) && (digest.(dg_file_size) =? zlen m.(i_data)) in
      Ok (NeedConfirm (mkDg digest.(dg_id) digest.(dg_file_num) m.(i_mtime) (zlen m.(i_data)) is_identical 0)))
    else Ok NoSuchFile
  end.

End Check.

End Send.
