(* ===== verification/FsTransfer.v ===== *)
(** What a sending job sends: its files in blocks, one after the other. *)

From Stdlib Require Import Ascii.
From S2P Require Import Prelude PathFs FsJob FsSend FsSafe.
Import Path Fs PathFacts FsFacts Names Job Send Safe.

(** ** The sender *)

Module Sender.

(** Short reads do not show: a block is the next [BUF_SIZE] bytes, or what is left. *)
Lemma stream_read_ok fs ds room n : 0 < room -> (match ds with FileStream h => h.(h_mode) = MRead /\ 0 <= h.(h_pos) | BufStream _ p => 0 <= p end) ->
  exists got ds', stream_read fs ds room n = Ok (got, ds') /\ got = ztake (Z.min room (Z.max 1 n)) (remaining fs ds) /\
    remaining fs ds' = zdrop (zlen got) (remaining fs ds) /\
    (match ds' with FileStream h => h.(h_mode) = MRead /\ 0 <= h.(h_pos) | BufStream _ p => 0 <= p end) /\
    (match ds, ds' with FileStream h, FileStream h' => h'.(h_ino) = h.(h_ino) | BufStream d _, BufStream d' _ => d' = d | _, _ => False end).
Proof.
  intros Hr Hok. unfold stream_read. destruct ds as [h|d p]; cbn [remaining].
  - destruct Hok as [-> Hp]. eexists _, _. split; [done|]. split; [done|]. cbn. split_and!; try done; [|lia].
    unfold zdrop. rewrite drop_drop. f_equal. lia.
  - eexists _, _. split; [done|]. split; [done|]. cbn. split_and!; try done; [|lia].
    unfold zdrop. rewrite drop_drop. f_equal. lia.
Qed.

Lemma take_min_len {A} n (l : list A) : take n l = take (n `min` length l) l.
Proof.
  destruct (Nat.le_ge_cases n (length l)); [by rewrite Nat.min_l|]. by rewrite Nat.min_r, !take_ge by lia.
Qed.

Lemma is_nil_ztake {A} n (l : list A) : 0 < n -> is_nil (ztake n l) = is_nil l.
Proof. intros H. unfold ztake. destruct (Z.to_nat n) as [|k] eqn:E; [lia|]. by destruct l. Qed.

Lemma read_loop_total fuel fs ds buf reads : (length (remaining fs ds) < fuel)%nat -> zlen buf < BUF_SIZE ->
  (match ds with FileStream h => h.(h_mode) = MRead /\ 0 <= h.(h_pos) | BufStream _ p => 0 <= p end) ->
  Forall (fun o => o <> None) reads ->
  exists ds', read_loop fuel fs ds buf reads = Ok (buf ++ ztake (BUF_SIZE - zlen buf) (remaining fs ds), ds') /\
    remaining fs ds' = zdrop (BUF_SIZE - zlen buf) (remaining fs ds) /\
    (match ds' with FileStream h => h.(h_mode) = MRead /\ 0 <= h.(h_pos) | BufStream _ p => 0 <= p end).
Proof.
  revert ds buf reads. induction fuel as [|fuel IH]; [lia|]. intros ds buf reads Hf Hb Hds Hre. cbn [read_loop].
  assert (Hn : exists n, (match head reads with Some None => None | o => Some (match o with Some (Some n) => n | _ => BUF_SIZE end) end) = Some n).
  { destruct reads as [|[n|] reads]; cbn; eauto. by inversion Hre. }
  destruct Hn as [n Hn].
  assert (E : forall (K : Z -> result (list Z * DataStream) IoErr), (match head reads with Some None => Err OtherErr | o =>
      K (match o with Some (Some n) => n | _ => BUF_SIZE end) end) = K n).
  { intros K. by destruct (head reads) as [[]|]; simplify_eq. }
  rewrite (E (fun n => match stream_read fs ds (BUF_SIZE - zlen buf) n with
    | Err e => Err e
    | Ok (got, ds) => if (zlen got =? 0) || (zlen (buf ++ got) =? BUF_SIZE) then Ok (buf ++ got, ds)
        else read_loop fuel fs ds (buf ++ got) (tail reads) end)). clear E.
  destruct (stream_read_ok fs ds (BUF_SIZE - zlen buf) n ltac:(lia) Hds) as (got & ds' & -> & Hg & Hr & Hds' & _).
  assert (Hgl : zlen got <= BUF_SIZE - zlen buf).
  { rewrite Hg. unfold ztake. rewrite length_take. lia. }
  destruct ((zlen got =? 0) || (zlen (buf ++ got) =? BUF_SIZE)) eqn:Eq.
  - exists ds'. assert (Hcase : got = ztake (BUF_SIZE - zlen buf) (remaining fs ds) /\
      zdrop (zlen got) (remaining fs ds) = zdrop (BUF_SIZE - zlen buf) (remaining fs ds)).
    { apply orb_true_iff in Eq as [Eq|Eq]; apply Z.eqb_eq in Eq.
      - assert (Hnil : remaining fs ds = []).
        { rewrite Hg in Eq. unfold ztake in Eq. rewrite length_take in Eq.
          destruct (remaining fs ds) as [|x l]; [done|]. cbn [length] in Eq. lia. }
        rewrite Hg, Hnil. unfold ztake, zdrop. by rewrite !take_nil, !drop_nil.
      - rewrite length_app in Eq. assert (Hl : zlen got = BUF_SIZE - zlen buf) by lia.
        split; [|by rewrite Hl]. assert (Z.min (BUF_SIZE - zlen buf) (Z.max 1 n) = BUF_SIZE - zlen buf) as Hmin.
        { rewrite Hg in Hl. unfold ztake in Hl. rewrite length_take in Hl. lia. }
        by rewrite Hg, Hmin. }
    destruct Hcase as [<- Hd]. split; [done|]. split; [by rewrite Hr|done].
  - apply orb_false_iff in Eq as [E1 E2]. apply Z.eqb_neq in E1, E2. rewrite length_app in E2.
    assert (Hgt : got = ztake (zlen got) (remaining fs ds)).
    { rewrite Hg at 2. unfold ztake. rewrite length_take, Nat2Z.id, Hg. unfold ztake. apply take_min_len. }
    assert (Hgle : zlen got <= zlen (remaining fs ds)).
    { rewrite Hg. unfold ztake. rewrite length_take. lia. }
    destruct (IH ds' (buf ++ got) (tail reads)) as (ds2 & Hl & Hr2 & Hds2).
    + rewrite Hr. unfold zdrop. rewrite length_drop. lia.
    + rewrite length_app. lia.
    + done.
    + by destruct reads; [|inversion Hre].
    + exists ds2. rewrite Hl, Hr2, Hr. split; [|split; [|done]].
      * rewrite <- app_assoc. do 3 f_equal. rewrite Hgt at 1. rewrite length_app. unfold ztake, zdrop.
        replace (Z.to_nat (BUF_SIZE - zlen buf)) with (length got + Z.to_nat (BUF_SIZE - Z.of_nat (length buf + length got)))%nat by lia.
        rewrite Nat2Z.id. by rewrite take_take_drop.
      * rewrite length_app. unfold zdrop. rewrite drop_drop. f_equal. lia.
Qed.

Lemma read_block fs ds reads :
  (match ds with FileStream h => h.(h_mode) = MRead /\ 0 <= h.(h_pos) | BufStream _ p => 0 <= p end) ->
  Forall (fun o => o <> None) reads ->
  exists ds', read_loop (S (length (remaining fs ds))) fs ds [] reads = Ok (ztake BUF_SIZE (remaining fs ds), ds') /\
    remaining fs ds' = zdrop BUF_SIZE (remaining fs ds) /\
    (match ds' with FileStream h => h.(h_mode) = MRead /\ 0 <= h.(h_pos) | BufStream _ p => 0 <= p end).
Proof.
  intros Hds Hre. assert (Hz : BUF_SIZE - zlen (@nil Z) = BUF_SIZE) by apply Z.sub_0_r.
  destruct (read_loop_total (S (length (remaining fs ds))) fs ds [] reads) as (ds' & H1 & H2 & H3); [lia|done|done|done|].
  rewrite Hz in H1, H2. rewrite app_nil_l in H1. by exists ds'.
Qed.

(** What a whole file becomes on the wire: its [BUF_SIZE] pieces, each compressed when that
    helps, and an empty block. *)
Fixpoint chunks (fuel : nat) (d : list Z) : list (list Z) :=
  match fuel with
  | O => []
  | S fuel => if is_nil d then [] else ztake BUF_SIZE d :: chunks fuel (zdrop BUF_SIZE d)
  end.

Lemma as_usize_small x : 0 <= x < 2 ^ 31 -> as_usize x = x.
Proof. intros. unfold as_usize. apply wrap_small. unfold in_u. pow2. lia. Qed.

Lemma zget_range (l : list FileEntry) i e : zget l i = Some e -> i < zlen l.
Proof. unfold zget. destruct (0 <=? i) eqn:E; [|done]. intros Hl%lookup_lt_Some. lia. Qed.

Section Blocks.
Context (zstd_compress : list Z -> option (list Z)).

Definition encode (name : string) (c : list Z) : list Z * bool :=
  if negb (is_compressed_file name) && (zlen (compress zstd_compress c) <? zlen c)
  then (compress zstd_compress c, true) else (c, false).
Definition data_block (jid i : Z) (name : string) (c : list Z) : FileTransferBlock :=
  mkBlock jid i (encode name c).1 (encode name c).2.
Definition end_block (jid i : Z) : FileTransferBlock := mkBlock jid i [] false.
Definition file_blocks (jid i : Z) (name : string) (d : list Z) : list FileTransferBlock :=
  (data_block jid i name <$> chunks (length d) d) ++ [end_block jid i].
Fixpoint all_blocks (jid i : Z) (es : list (string * list Z)) : list FileTransferBlock :=
  match es with
  | [] => []
  | (name, d) :: es => file_blocks jid i name d ++ all_blocks jid (i + 1) es
  end.

(** Calls of [handle_read_jobs] on one connection, each with the outcomes of its reads. *)
Fixpoint send_run (fs : Fs) (jobs : list TransferJob) (calls : list (list (option Z))) : list TransferJob * list Msg :=
  match calls with
  | [] => (jobs, [])
  | reads :: calls =>
    let '(jobs, out) := handle_read_jobs zstd_compress fs jobs reads in
    let '(jobs, outs) := send_run fs jobs calls in (jobs, out ++ outs)
  end.

Section Run.
Context (fs : Fs) (base : string) (jid : Z) (fls : list FileEntry).

Record reading (j : TransferJob) : Prop := mkReading {
  rd_source : j.(data_source) = FilePath base;
  rd_id : j.(id) = jid;
  rd_files : j.(files) = fls;
  rd_last : j.(is_last_job) = false;
  rd_eod : j.(enable_overwrite_detection) = false;
  rd_skip : j.(file_skipped) = false;
  rd_num : 0 <= j.(file_num) }.

(** The stream of the current file: open, or about to be opened. *)
Definition stream_at (j : TransferJob) (e : FileEntry) (rest : list Z) : Prop :=
  match j.(data_stream) with
  | Some ds => remaining fs ds = rest /\ (match ds with FileStream h => h.(h_mode) = MRead /\ 0 <= h.(h_pos) | BufStream _ _ => False end)
  | None => exists h, open_read fs (job_join base e.(name)) = Ok h /\ h.(h_mode) = MRead /\ h.(h_pos) = 0 /\ inode_data fs h.(h_ino) = rest
  end.

Lemma zlen_buf_pos : 0 < BUF_SIZE.
Proof. done. Qed.

(** [read] on an open file, whatever its loop returned. *)
Lemma read_step j e ds c ds2 reads : reading j -> cur_file j = Some e -> j.(data_stream) = Some ds -> j.(file_num) < 2 ^ 31 - 1 ->
  read_loop (S (length (remaining fs ds))) fs ds [] reads = Ok (c, ds2) ->
  exists j', reading j' /\
    if is_nil c then
      read zstd_compress fs j reads = (Ok (Some (end_block jid j.(file_num))), j') /\
      j'.(file_num) = j.(file_num) + 1 /\ j'.(data_stream) = None
    else
      read zstd_compress fs j reads = (Ok (Some (data_block jid j.(file_num) (current_name j base e) c)), j') /\
      j'.(file_num) = j.(file_num) /\ j'.(data_stream) = Some ds2.
Proof.
  intros Hr Hc Hds Hlt Hloop. pose proof (rd_num _ Hr) as Hnum0.
  unfold read. rewrite (rd_eod _ Hr), andb_false_r. cbn [andb]. rewrite (rd_source _ Hr), Hc, Hds, Hloop.
  destruct (is_nil c) eqn:En; cbn [with_num_stream data_source]; rewrite (rd_source _ Hr); cbn [is_file_path negb].
  - eexists. split; [|split; [cbn [id with_num_stream]; by rewrite (rd_id _ Hr)|]].
    + destruct Hr; split; try done. cbn. unfold swrap. rewrite Z.mod_small; lia.
    + cbn. split; [|done]. unfold swrap. rewrite Z.mod_small; lia.
  - destruct (true && negb (is_compressed_file (current_name j base e)) && (zlen (compress zstd_compress c) <? zlen c)) eqn:Ee;
      (eexists; split; [|split; [unfold data_block, encode; cbn [andb] in Ee; rewrite Ee; cbn [id with_num_stream]; by rewrite (rd_id _ Hr)|]]);
      try done; by destruct Hr; split.
Qed.

(** Reading from a file leaves the handle on the file. *)
Lemma read_loop_file fuel h b reads x : read_loop fuel fs (FileStream h) b reads = Ok x -> exists h', x.2 = FileStream h'.
Proof.
  revert h b reads. induction fuel as [|fuel IH]; [done|]. intros h b reads. cbn [read_loop]. unfold stream_read.
  destruct (head reads) as [[n|]|]; try done; destruct (h_mode h); try done;
    (destruct (_ || _); [intros [= <-]; cbn; by eexists|apply IH]).
Qed.

(** One call: the next piece of the current file, or its end. *)
Lemma send_one j e rest reads : reading j -> cur_file j = Some e -> stream_at j e rest -> j.(file_num) < 2 ^ 31 - 1 ->
  Forall (fun o => o <> None) reads ->
  exists j', reading j' /\
    if is_nil rest then
      handle_read_jobs zstd_compress fs [j] reads = ([j'], [MBlock (end_block jid j.(file_num))]) /\
      j'.(file_num) = j.(file_num) + 1 /\ j'.(data_stream) = None
    else
      handle_read_jobs zstd_compress fs [j] reads =
        ([j'], [MBlock (data_block jid j.(file_num) (current_name j base e) (ztake BUF_SIZE rest))]) /\
      j'.(file_num) = j.(file_num) /\ stream_at j' e (zdrop BUF_SIZE rest).
Proof.
  intros Hr Hc Hs Hlt Hreads.
  assert (Hopen : exists h j1, open_data_stream fs j = (Ok false, j1) /\ reading j1 /\ j1.(data_stream) = Some (FileStream h) /\
    j1.(file_num) = j.(file_num) /\ remaining fs (FileStream h) = rest /\ h.(h_mode) = MRead /\ 0 <= h.(h_pos)).
  { unfold open_data_stream. rewrite (rd_source _ Hr), Hc. unfold stream_at in Hs.
    destruct (data_stream j) as [ds|] eqn:Hd.
    - destruct Hs as [Hs1 Hs2]. destruct ds as [h|]; [|done]. by exists h, j.
    - destruct Hs as (h & -> & Hm & Hp & Hi). eexists h, _. split; [done|].
      split; [destruct Hr; by split|]. split_and!; try done; [|lia]. cbn. by rewrite Hp, Hi. }
  destruct Hopen as (h & j1 & Hopen & Hr1 & Hds & Hnum & Hrest & Hmode).
  assert (Hc1 : cur_file j1 = Some e).
  { unfold cur_file in *. by rewrite Hnum, (rd_files _ Hr1), <- (rd_files _ Hr). }
  assert (Hcn : current_name j1 base e = current_name j base e).
  { unfold current_name. by rewrite (rd_files _ Hr1), (rd_files _ Hr). }
  assert (Hinit : init_jobs fs [j] = ([j1], [])).
  { cbn [init_jobs]. rewrite (rd_last _ Hr). unfold init_data_stream, must_ask.
    by rewrite Hopen, (rd_eod _ Hr1), andb_false_r. }
  destruct (read_block fs (FileStream h) reads Hmode Hreads) as (ds2 & Hloop & Hr2 & Hm2).
  destruct (read_loop_file _ _ _ _ _ Hloop) as [h2 Hh2]. cbn in Hh2. subst ds2.
  destruct (read_step j1 e _ _ _ _ Hr1 Hc1 Hds ltac:(lia) Hloop) as (j' & Hr' & Hcase).
  rewrite is_nil_ztake, Hrest, Hnum, Hcn in Hcase by apply zlen_buf_pos.
  exists j'. split; [done|]. unfold handle_read_jobs. rewrite Hinit. cbn [read_first]. rewrite (rd_last _ Hr1).
  destruct (is_nil rest); destruct Hcase as (-> & Hn & Hd); split; try done. split; [done|].
  unfold stream_at. rewrite Hd, Hr2, Hrest. done.
Qed.

(** The end of the last file ends the job. *)
Lemma send_done j reads : reading j -> cur_file j = None -> handle_read_jobs zstd_compress fs [j] reads = ([], [MDone jid j.(file_num)]).
Proof.
  intros Hr Hc. unfold handle_read_jobs. cbn [init_jobs]. rewrite (rd_last _ Hr).
  unfold init_data_stream, open_data_stream. rewrite (rd_source _ Hr), Hc. cbn [read_first with_num_stream is_last_job].
  rewrite (rd_last _ Hr). unfold read. cbn [enable_overwrite_detection with_num_stream type data_source].
  rewrite (rd_eod _ Hr), andb_false_r. cbn [andb]. rewrite (rd_source _ Hr).
  assert (Hc' : cur_file (with_num_stream j (file_num j) None) = None) by done.
  rewrite Hc'. unfold job_completed, job_error, job_skipped. cbn. rewrite (rd_eod _ Hr), (rd_skip _ Hr). cbn.
  unfold remove_job. cbn. rewrite decide_True by done. cbn. by rewrite (rd_id _ Hr).
Qed.

(** The rest of the current file. *)
Lemma send_file j e rest calls : reading j -> cur_file j = Some e -> stream_at j e rest -> j.(file_num) < 2 ^ 31 - 1 ->
  Forall (Forall (fun o => o <> None)) calls -> (length (file_blocks jid j.(file_num) (current_name j base e) rest) <= length calls)%nat ->
  exists j', reading j' /\ j'.(file_num) = j.(file_num) + 1 /\ j'.(data_stream) = None /\
    let n := length (file_blocks jid j.(file_num) (current_name j base e) rest) in
    send_run fs [j] calls =
      (let '(jobs, outs) := send_run fs [j'] (drop n calls) in
       (jobs, (MBlock <$> file_blocks jid j.(file_num) (current_name j base e) rest) ++ outs)).
Proof.
  unfold file_blocks. remember (length rest) as fuel eqn:Hfuel. assert (Hle : (length rest <= fuel)%nat) by lia. clear Hfuel.
  revert j rest calls Hle. induction fuel as [|fuel IH]; intros j rest calls Hle Hr Hc Hs Hlt Hcalls Hlen.
  - destruct rest; [|cbn in Hle; lia]. destruct calls as [|reads calls]; [cbn in Hlen; lia|].
    apply Forall_cons in Hcalls as [Hre Hcalls].
    destruct (send_one j e [] reads Hr Hc Hs Hlt Hre) as (j' & Hr' & Hh & Hn & Hd). exists j'. split_and!; try done.
    cbn [length drop send_run chunks fmap list_fmap app]. rewrite Hh, drop_0. by destruct (send_run fs [j'] calls).
  - destruct calls as [|reads calls]; [rewrite length_app in Hlen; cbn in Hlen; lia|].
    apply Forall_cons in Hcalls as [Hre Hcalls].
    destruct (send_one j e rest reads Hr Hc Hs Hlt Hre) as (j1 & Hr1 & Hcase).
    destruct (is_nil rest) eqn:En.
    + destruct rest; [|done]. destruct Hcase as (Hh & Hn & Hd). exists j1. split_and!; try done.
      cbn [length drop send_run chunks fmap list_fmap app is_nil]. rewrite Hh, drop_0. by destruct (send_run fs [j1] calls).
    + destruct Hcase as (Hh & Hn & Hs1).
      assert (Hc1 : cur_file j1 = Some e) by (unfold cur_file in *; by rewrite Hn, (rd_files _ Hr1), <- (rd_files _ Hr)).
      assert (Hcn : current_name j1 base e = current_name j base e) by (unfold current_name; by rewrite (rd_files _ Hr1), (rd_files _ Hr)).
      cbn [chunks] in *. rewrite En in *. cbn [fmap list_fmap app length] in *.
      assert (Hdl : (length (zdrop BUF_SIZE rest) <= fuel)%nat).
      { unfold zdrop. rewrite length_drop. destruct rest; [done|]. cbn [length] in *. unfold BUF_SIZE. lia. }
      destruct (IH j1 (zdrop BUF_SIZE rest) calls Hdl Hr1 Hc1 Hs1) as (j' & Hr' & Hn' & Hd' & Hrun); [lia|done|rewrite Hn, Hcn; cbn [fmap list_fmap] in Hlen; lia|].
      exists j'. split_and!; [done|lia|done|]. cbn [drop send_run]. rewrite Hh, Hrun, Hn, Hcn.
      cbn [fmap list_fmap]. match goal with |- context [send_run fs [j'] ?x] => destruct (send_run fs [j'] x) end. reflexivity.
Qed.

(** The file opens, at its start, with these contents. *)
Definition has_content (e : FileEntry) (d : list Z) : Prop :=
  exists h, open_read fs (job_join base e.(name)) = Ok h /\ h.(h_mode) = MRead /\ h.(h_pos) = 0 /\ inode_data fs h.(h_ino) = d.

Definition named (j : TransferJob) (es : list FileEntry) (ds : list (list Z)) : list (string * list Z) :=
  zip (current_name j base <$> es) ds.

Lemma send_all j pre es ds calls : reading j -> fls = pre ++ es -> j.(file_num) = zlen pre -> j.(data_stream) = None ->
  Forall2 has_content es ds -> zlen fls < 2 ^ 31 - 1 -> Forall (Forall (fun o => o <> None)) calls ->
  length calls = S (length (all_blocks jid j.(file_num) (named j es ds))) ->
  send_run fs [j] calls = ([], (MBlock <$> all_blocks jid j.(file_num) (named j es ds)) ++ [MDone jid (zlen fls)]).
Proof.
  intros Hr Hfls Hnum Hds Hc Hlen Hcalls Hl. revert j pre calls Hr Hfls Hnum Hds Hcalls Hl.
  induction Hc as [|e d es ds Hed Hc IH]; intros j pre calls Hr Hfls Hnum Hds Hcalls Hl.
  - destruct calls as [|reads [|]]; try done. cbn [send_run]. rewrite (send_done j reads Hr).
    + cbn. rewrite Hnum, Hfls, app_nil_r. done.
    + unfold cur_file, zget, as_usize. rewrite (rd_files _ Hr), Hnum, Hfls, app_nil_r.
      unfold wrap. rewrite Z.mod_small by (pose proof (rd_num _ Hr); rewrite Hfls, app_nil_r in Hlen; lia).
      case_match; [|done]. rewrite Nat2Z.id. apply lookup_ge_None_2. lia.
  - assert (Hcur : cur_file j = Some e).
    { unfold cur_file, zget, as_usize. rewrite (rd_files _ Hr), Hnum, Hfls.
      unfold wrap. rewrite Z.mod_small by (rewrite Hfls, length_app in Hlen; cbn in Hlen; lia).
      case_match; [|lia]. rewrite Nat2Z.id. by apply list_lookup_middle. }
    assert (Hst : stream_at j e d) by (unfold stream_at; by rewrite Hds).
    assert (Hlt : file_num j < 2 ^ 31 - 1) by (rewrite Hfls, length_app in Hlen; cbn in Hlen; lia).
    cbn [named zip zip_with fmap list_fmap all_blocks] in *. fold (named j es ds) in *.
    rewrite length_app in Hl.
    destruct (send_file j e d calls Hr Hcur Hst Hlt Hcalls) as (j' & Hr' & Hn' & Hd' & Hrun); [lia|].
    cbv zeta in Hrun. rewrite Hrun.
    assert (Hnm : named j' es ds = named j es ds).
    { unfold named, current_name. by rewrite (rd_files _ Hr'), (rd_files _ Hr). }
    rewrite (IH j' (pre ++ [e]) _ Hr'); [| | |done| |].
    + rewrite Hnm, Hn', fmap_app, <- app_assoc. done.
    + by rewrite Hfls, <- app_assoc.
    + rewrite Hn', Hnum, length_app. cbn. lia.
    + by apply Forall_drop.
    + rewrite length_drop, Hnm, Hn'. lia.
Qed.

End Run.
(** A sending job sends exactly its files.  A job over readable files with overwrite
    detection off, served by repeated calls of [handle_read_jobs], sends for each file its
    contents in blocks of 128 KiB (the last one shorter, each compressed when its name and its
    size make that worthwhile), an empty block at the end of each file, then [done], and the
    job is removed; however short the individual reads of the files are.  It takes exactly
    one call per block and one more. *)
Theorem sender_faithful (fs : Fs) (base : string) (j : TransferJob) (contents : list (list Z))
    (calls : list (list (option Z))) :
  j.(data_source) = FilePath base -> j.(is_last_job) = false -> j.(enable_overwrite_detection) = false ->
  j.(file_skipped) = false -> j.(file_num) = 0 -> j.(data_stream) = None ->
  Forall2 (has_content fs base) j.(files) contents -> zlen j.(files) < 2 ^ 31 - 1 ->
  let blocks := all_blocks j.(id) 0 (zip (current_name j base <$> j.(files)) contents) in
  Forall (Forall (fun o => o <> None)) calls -> length calls = S (length blocks) ->
  send_run fs [j] calls = ([], (MBlock <$> blocks) ++ [MDone j.(id) (zlen j.(files))]).
Proof.
  intros Hs Hl He Hk Hn Hd Hc Hlen blocks Hcalls Hlc.
  pose proof (send_all fs base j.(id) j.(files) j [] j.(files) contents calls) as H. rewrite Hn in H. apply H; try done.
  split; try done. lia.
Qed.

End Blocks.

(** [/src] with two files, one of them empty. *)
Definition src_fs : Fs := mkFs
  (list_to_map [(["src"], NDir); (["src"; "a"], NFile 0); (["src"; "b.txt"], NFile 1)]%string)
  (list_to_map [(0%nat, mkInode [] 5); (1%nat, mkInode [1; 2; 3] 6)]) 2 [] 9.
Definition src_files : list FileEntry :=
  [mkEntry Names.File "a" false 0 5; mkEntry Names.File "b.txt" false 3 6]%string.
Definition src_job : TransferJob := new_job 4 Generic (FilePath "/src") 0 src_files 3 false.

Lemma src_content : Forall2 (has_content src_fs "/src") src_files [[]; [1; 2; 3]].
Proof.
  repeat constructor.
  - exists (mkH 0 0 MRead). by vm_compute.
  - exists (mkH 1 0 MRead). by vm_compute.
Qed.

Lemma sender_faithful_witness :
  send_run (fun c => Some (c ++ c)) src_fs [src_job] [[Some 5]; []; [Some 1; Some 1]; []] =
    ([], (MBlock <$> [end_block 4 0; mkBlock 4 1 [1; 2; 3] false; end_block 4 1]) ++ [MDone 4 2]).
Proof.
  apply (sender_faithful (fun c => Some (c ++ c)) src_fs "/src" src_job [[]; [1; 2; 3]]
    [[Some 5]; []; [Some 1; Some 1]; []]); try reflexivity.
  - apply src_content.
  - repeat constructor; done.
Defined.

End Sender.
