(* ===== verification/FsTree.v ===== *)
(** A directory and all that is below it, as a table from relative paths to directories and
    files, and what the operations of the file system do to the table; for the end-to-end
    claims about transfers, whose names may lead through directories still to be made. *)

From Stdlib Require Import Ascii.
From S2P Require Import Prelude PathFs FsJob FsSafe.
Import Path Fs PathFacts FsFacts Names Job Safe.

Module Tree.

Inductive Entry := EDir | EFile (n : Inode).

Definition is_file_entry (o : option Entry) : bool := match o with Some (EFile _) => true | _ => false end.

(** ** Relative paths *)

(** The directories on the way to [q], and [q]. *)
Fixpoint dirs_to (q : rpath) : list rpath :=
  match q with [] => [] | x :: q => [x] :: (cons x <$> dirs_to q) end.

Lemma dirs_to_snoc q x : dirs_to (q ++ [x]) = dirs_to q ++ [q ++ [x]].
Proof. induction q as [|y q IH]; [done|]. cbn [app dirs_to]. rewrite IH. cbn. by rewrite fmap_app. Qed.

Lemma elem_dirs_to p q : p ∈ dirs_to q <-> p <> [] /\ p `prefix_of` q.
Proof.
  induction q as [|x q IH] using rev_ind.
  - cbn. split; [by intros ?%elem_of_nil|]. intros [Hp H%prefix_nil_inv]. done.
  - rewrite dirs_to_snoc, elem_of_app, list_elem_of_singleton, IH. split.
    + intros [[Hp H]| ->]; [split; [done|by apply prefix_app_r]|split; [by destruct q|done]].
    + intros [Hp [k Hk]]. destruct k as [|z k] using rev_ind; [right; by rewrite app_nil_r in Hk|].
      left. split; [done|]. rewrite app_assoc in Hk. apply app_inj_tail in Hk as [Hk _]. by exists k.
Qed.

Lemma dirs_to_last q : q <> [] -> q ∈ dirs_to q.
Proof. intros Hq. by apply elem_dirs_to. Qed.

Lemma not_below_itself (q : rpath) (x : string) : q ++ [x] ∉ dirs_to q.
Proof. intros [_ [k Hk]]%elem_dirs_to. apply (f_equal length) in Hk. rewrite !length_app in Hk. cbn in Hk. lia. Qed.

(** Make the directories on the way to [q], and [q]. *)
Definition mkdirs (q : rpath) (T : gmap rpath Entry) : gmap rpath Entry := foldl (fun T p => <[p := EDir]> T) T (dirs_to q).

Lemma mkdirs_snoc q x T : mkdirs (q ++ [x]) T = <[q ++ [x] := EDir]> (mkdirs q T).
Proof. unfold mkdirs. by rewrite dirs_to_snoc, foldl_app. Qed.

Lemma mkdirs_lookup q T p : mkdirs q T !! p = if bool_decide (p ∈ dirs_to q) then Some EDir else T !! p.
Proof.
  induction q as [|x q IH] using rev_ind; [done|]. rewrite mkdirs_snoc, dirs_to_snoc.
  destruct (decide (q ++ [x] = p)) as [<-|Hne].
  - rewrite lookup_insert_eq, bool_decide_eq_true_2; [done|]. rewrite elem_of_app, list_elem_of_singleton. by right.
  - rewrite lookup_insert_ne, IH by done. erewrite (bool_decide_ext (p ∈ dirs_to q)); [done|].
    rewrite elem_of_app, list_elem_of_singleton. naive_solver.
Qed.

Lemma mkdirs_in q T p : p ∈ dirs_to q -> mkdirs q T !! p = Some EDir.
Proof. intros H. by rewrite mkdirs_lookup, bool_decide_eq_true_2. Qed.
Lemma mkdirs_out q T p : p ∉ dirs_to q -> mkdirs q T !! p = T !! p.
Proof. intros H. by rewrite mkdirs_lookup, bool_decide_eq_false_2. Qed.

(** All of them are directories already; none of them is a file. *)
Definition dirs (T : gmap rpath Entry) (q : rpath) : Prop := forall p, p ∈ dirs_to q -> T !! p = Some EDir.
Definition passable (T : gmap rpath Entry) (q : rpath) : Prop := forall p, p ∈ dirs_to q -> is_file_entry (T !! p) = false.

Lemma mkdirs_dirs q T : dirs (mkdirs q T) q.
Proof. intros p. apply mkdirs_in. Qed.
Lemma dirs_mkdirs q T : dirs T q -> mkdirs q T = T.
Proof. intros H. apply map_eq. intros p. rewrite mkdirs_lookup. case_bool_decide as Hp; [|done]. by rewrite H. Qed.
Lemma dirs_passable T q : dirs T q -> passable T q.
Proof. intros H p Hp. by rewrite H. Qed.

(** Changing a file that is not on the way. *)
Lemma dirs_insert T q p e : p ∉ dirs_to q -> dirs T q -> dirs (<[p := e]> T) q.
Proof. intros Hp H k Hk. rewrite lookup_insert_ne; [by apply H|]. by intros ->. Qed.
Lemma dirs_delete T q p : p ∉ dirs_to q -> dirs T q -> dirs (delete p T) q.
Proof. intros Hp H k Hk. rewrite lookup_delete_ne; [by apply H|]. by intros ->. Qed.

(** A path below [D]: its names, and that it does not end in a slash or a dot. *)
Record at_path (D s : string) (p : rpath) : Prop := mkAt {
  ap_path : path_is s D p;
  ap_name : trailing_dir s = false }.

(** A temporary name beside [p]. *)
Definition beside (p : rpath) (suf : string) : rpath := removelast p ++ [(List.last p "" ++ suf)%string].

Lemma beside_snoc q x suf : beside (q ++ [x]) suf = q ++ [(x ++ suf)%string].
Proof. unfold beside. by rewrite removelast_last, last_last. Qed.

Lemma suffix_shape suf : suf ∈ suffixes -> str_any is_slash suf = false /\ (2 < String.length suf)%nat.
Proof. unfold suffixes. intros [->|H]%elem_of_cons; [|apply list_elem_of_singleton in H as ->]; (split; [done|cbn; lia]). Qed.

Lemma at_suffix D s q x suf : at_path D s (q ++ [x]) -> suf ∈ suffixes -> at_path D (s ++ suf) (q ++ [(x ++ suf)%string]).
Proof.
  intros [[Ha Hr] Ht] [Hs1 Hs2]%suffix_shape. destruct (split_app_suffix is_slash s suf Hs1) as (init & l & E1 & E2).
  unfold trailing_dir in Ht. rewrite E1, last_snoc in Ht. apply bool_decide_eq_false in Ht.
  assert (Hl : is_Some (comp_of l)). { unfold comp_of. rewrite bool_decide_eq_false_2 by done. destruct (bool_decide _); by eexists. }
  destruct Hl as [c Hc].
  assert (omap comp_of init = relative D ++ (Normal <$> q) /\ c = Normal x) as [Hi ->].
  { unfold relative in Hr at 1. rewrite E1, omap_app, fmap_app in Hr. cbn in Hr. rewrite Hc, app_assoc in Hr. by apply app_inj_tail in Hr. }
  apply comp_of_normal in Hc as ->. split.
  - split; [by apply is_absolute_app|]. unfold relative at 1. rewrite E2, omap_app, Hi, fmap_app, app_assoc. cbn.
    by rewrite comp_of_suffix.
  - unfold trailing_dir. rewrite E2, last_snoc. apply bool_decide_eq_false_2.
    pose proof (comp_of_suffix l suf Hs2) as Hc. intros H. unfold comp_of in Hc. by rewrite bool_decide_eq_true_2 in Hc.
Qed.

(** ** What a disk shows below a directory *)

Section Below.
Context (D : string) (rd : rpath).

Definition entry_at (fs : Fs) (p : rpath) : option Entry :=
  match fs.(nodes) !! (rd ++ p) with
  | Some NDir => Some EDir
  | Some (NFile i) => EFile <$> fs.(inodes) !! i
  | _ => None
  end.

(** Below the directory there are no links, every file has its contents, and [T] is the table of
    what there is. *)
Record shows (fs : Fs) (T : gmap rpath Entry) : Prop := mkShows {
  sh_wf : wf fs;
  sh_base : base_ok fs D rd;
  sh_real : forall p t, fs.(nodes) !! (rd ++ p) <> Some (NLink t);
  sh_inode : forall p i, p <> [] -> fs.(nodes) !! (rd ++ p) = Some (NFile i) -> is_Some (fs.(inodes) !! i);
  sh_entry : forall p, p <> [] -> entry_at fs p = T !! p }.

Lemma shows_node fs T p : shows fs T -> p <> [] ->
  match T !! p with
  | Some EDir => fs.(nodes) !! (rd ++ p) = Some NDir
  | Some (EFile n) => exists i, fs.(nodes) !! (rd ++ p) = Some (NFile i) /\ fs.(inodes) !! i = Some n
  | None => fs.(nodes) !! (rd ++ p) = None
  end.
Proof.
  intros [_ _ L I E] Hp. rewrite <- (E p Hp). unfold entry_at. specialize (L p).
  destruct (nodes fs !! (rd ++ p)) as [[|t|i]|] eqn:En; [done|by destruct (L t)| |done].
  destruct (I p i Hp En) as [n Hn]. rewrite Hn. by exists i.
Qed.

Lemma snoc_not_nil (q : rpath) (x : string) : q ++ [x] <> [].
Proof. by destruct q. Qed.

Lemma node_at_in fs p : p <> [] -> node_at fs (rd ++ p) = fs.(nodes) !! (rd ++ p).
Proof. intros Hp. by destruct rd, p. Qed.

(** What is there lies in a directory. *)
Lemma shows_parent fs T q x : shows fs T -> q <> [] -> is_Some (T !! (q ++ [x])) -> T !! q = Some EDir.
Proof.
  intros Hs Hq Hx. assert (H : node_at fs (rd ++ q) = Some NDir).
  { apply (wf_parent _ (sh_wf _ _ Hs) _ x). rewrite <- app_assoc. pose proof (shows_node _ _ _ Hs (snoc_not_nil q x)) as Hn.
    destruct Hx as [e Hx]. rewrite Hx in Hn. destruct e; [by rewrite Hn|destruct Hn as (i & -> & _); done]. }
  rewrite node_at_in in H by done. rewrite <- (sh_entry _ _ Hs q Hq). unfold entry_at. by rewrite H.
Qed.

Lemma shows_dirs fs T q x : shows fs T -> is_Some (T !! (q ++ [x])) -> dirs T q.
Proof.
  intros Hs. revert x. induction q as [|y q IH] using rev_ind; intros x Hx p; [by intros ?%elem_of_nil|].
  assert (Hy : T !! (q ++ [y]) = Some EDir) by (eapply shows_parent; [done|apply snoc_not_nil|done]).
  rewrite dirs_to_snoc, elem_of_app, list_elem_of_singleton. intros [Hp| ->]; [|done]. apply (IH y); [by rewrite Hy|done].
Qed.

(** *** Lookup *)

(** A path through directories is found; one through a directory that is missing is not. *)
Lemma resolve_way_from fs T l fo x : shows fs T -> forall q pre,
  (forall p, p ∈ dirs_to q -> is_file_entry (T !! (pre ++ p)) = false) ->
  ((forall p, p ∈ dirs_to q -> T !! (pre ++ p) = Some EDir) /\
    resolve_from l fs fo (rd ++ pre) (Normal <$> q ++ [x]) = Ok (rd ++ pre ++ q ++ [x])) \/
  ((exists p, p ∈ dirs_to q /\ T !! (pre ++ p) = None) /\
    resolve_from l fs fo (rd ++ pre) (Normal <$> q ++ [x]) = Err NotFound).
Proof.
  intros Hs q. induction q as [|y q IH]; intros pre Hpass; cbn [app fmap list_fmap]; rewrite resolve_from_normal, <- app_assoc.
  - left. split; [by intros p ?%elem_of_nil|]. pose proof (sh_real _ _ Hs (pre ++ [x])) as L.
    destruct (nodes fs !! (rd ++ pre ++ [x])) as [[|t|]|]; [apply resolve_from_nil|by destruct (L t)|done..].
  - pose proof (shows_node _ _ (pre ++ [y]) Hs (snoc_not_nil _ _)) as Hn.
    assert (Hy : is_file_entry (T !! (pre ++ [y])) = false) by (apply Hpass; cbn; by left).
    assert (Hnil : is_nil (Normal <$> q ++ [x]) = false) by (by destruct q).
    destruct (T !! (pre ++ [y])) as [[|n]|] eqn:ET; [|done|].
    + rewrite Hn. destruct (IH (pre ++ [y])) as [[H1 H2]|[(p & Hp & H1) H2]].
      { intros p Hp. rewrite <- app_assoc. apply Hpass. cbn. right. apply list_elem_of_fmap. by exists p. }
      * left. rewrite H2, <- !app_assoc. split; [|done]. intros p. cbn.
        intros [->|(p' & -> & Hp')%list_elem_of_fmap]%elem_of_cons; [done|]. specialize (H1 p' Hp'). by rewrite <- app_assoc in H1.
      * right. split; [|done]. exists (y :: p). rewrite <- app_assoc in H1. split; [|done]. cbn. right. apply list_elem_of_fmap. by exists p.
    + rewrite Hn, Hnil. right. split; [|done]. exists [y]. split; [cbn; by left|done].
Qed.

Lemma resolve_way fs T fo q x : shows fs T -> passable T q ->
  (dirs T q /\ resolve_comps fs fo (RootDir :: relative D ++ (Normal <$> q ++ [x])) = Ok (rd ++ q ++ [x])) \/
  (~ dirs T q /\ T !! (q ++ [x]) = None /\ resolve_comps fs fo (RootDir :: relative D ++ (Normal <$> q ++ [x])) = Err NotFound).
Proof.
  intros Hs Hp. rewrite resolve_comps_absolute. destruct (sh_base _ _ Hs) as [_ R Dr].
  destruct (resolve_from_app _ _ fo _ _ (Normal <$> q ++ [x]) _ R Dr) as [l ->]; [by destruct q|].
  pose proof (resolve_way_from fs T l fo x Hs q [] Hp) as H. cbn [app] in H. rewrite app_nil_r in H.
  destruct H as [H|[(p & Hin & HT) H]]; [by left|right]. assert (Hnd : ~ dirs T q) by (intros Hd; specialize (Hd p Hin); congruence).
  split_and!; [done| |done]. destruct (T !! (q ++ [x])) as [e|] eqn:E; [|done].
  exfalso. apply Hnd. eapply shows_dirs; [done|]. by rewrite E.
Qed.

Lemma resolve_at fs T fo s q x : shows fs T -> at_path D s (q ++ [x]) -> passable T q ->
  (dirs T q /\ resolve fs fo s = Ok (rd ++ q ++ [x])) \/ (T !! (q ++ [x]) = None /\ resolve fs fo s = Err NotFound).
Proof.
  intros Hs [[Ha Hr] Ht] Hp. unfold resolve. rewrite Ht, orb_false_r, components_absolute, Hr by done.
  destruct (resolve_way fs T fo q x Hs Hp) as [?|(_ & ? & ?)]; [by left|by right].
Qed.

Lemma resolve_below_dirs fs T fo s q x : shows fs T -> at_path D s (q ++ [x]) -> dirs T q -> resolve fs fo s = Ok (rd ++ q ++ [x]).
Proof.
  intros Hs [[Ha Hr] Ht] Hd. unfold resolve. rewrite Ht, orb_false_r, components_absolute, Hr by done.
  by destruct (resolve_way fs T fo q x Hs (dirs_passable _ _ Hd)) as [[_ ?]|[? _]].
Qed.

Lemma stat_comps_way fs T q x : shows fs T -> passable T q ->
  stat_comps fs (RootDir :: relative D ++ (Normal <$> q ++ [x])) =
    match fs.(nodes) !! (rd ++ q ++ [x]) with Some n => Ok n | None => Err NotFound end.
Proof.
  intros Hs Hp. unfold stat_comps. destruct (resolve_way fs T true q x Hs Hp) as [[_ ->]|(_ & HT & ->)]; cbn [rbind].
  - unfold lookup_node. by rewrite node_at_in by apply snoc_not_nil.
  - pose proof (shows_node _ _ _ Hs (snoc_not_nil q x)) as Hn. rewrite HT in Hn. by rewrite Hn.
Qed.

Lemma stat_at fs T s q x : shows fs T -> at_path D s (q ++ [x]) -> passable T q ->
  stat fs s = match fs.(nodes) !! (rd ++ q ++ [x]) with Some n => Ok n | None => Err NotFound end.
Proof. intros Hs [[Ha Hr] _] Hp. unfold stat. rewrite components_absolute, Hr by done. by eapply stat_comps_way. Qed.

Lemma lstat_at fs T s q x : shows fs T -> at_path D s (q ++ [x]) -> passable T q ->
  lstat fs s = match fs.(nodes) !! (rd ++ q ++ [x]) with Some n => Ok n | None => Err NotFound end.
Proof.
  intros Hs Hat Hp. unfold lstat. destruct (resolve_at fs T false s q x Hs Hat Hp) as [[_ ->]|[HT ->]]; cbn [rbind].
  - unfold lookup_node. by rewrite node_at_in by apply snoc_not_nil.
  - pose proof (shows_node _ _ _ Hs (snoc_not_nil q x)) as Hn. rewrite HT in Hn. by rewrite Hn.
Qed.

Lemma exists_at fs T s q x : shows fs T -> at_path D s (q ++ [x]) -> passable T q -> exists_ fs s = bool_decide (is_Some (T !! (q ++ [x]))).
Proof.
  intros Hs Hat Hp. unfold exists_. rewrite (stat_at _ _ _ _ _ Hs Hat Hp). pose proof (shows_node _ _ _ Hs (snoc_not_nil q x)) as Hn.
  destruct (T !! (q ++ [x])) as [[|n]|]; [rewrite Hn|destruct Hn as (i & -> & _)|rewrite Hn]; by rewrite bool_decide_decide.
Qed.

(** *** Operations *)

Lemma shows_case fs T p : shows fs T -> p <> [] ->
  match fs.(nodes) !! (rd ++ p) with
  | None => T !! p = None
  | Some NDir => T !! p = Some EDir
  | Some (NFile i) => exists n, fs.(inodes) !! i = Some n /\ T !! p = Some (EFile n)
  | Some (NLink _) => False
  end.
Proof.
  intros [_ _ L I E] Hp. rewrite <- (E p Hp). unfold entry_at. specialize (L p).
  destruct (nodes fs !! (rd ++ p)) as [[|t|i]|] eqn:En; [done|by destruct (L t)| |done].
  destruct (I p i Hp En) as [n Hn]. rewrite Hn. by exists n.
Qed.

(** An operation below the directory, by what it leaves at each path. *)
Lemma shows_inside fs fs' T T' : shows fs T -> inside rd fs fs' ->
  (forall p, p <> [] -> match fs'.(nodes) !! (rd ++ p) with
    | None => T' !! p = None
    | Some NDir => T' !! p = Some EDir
    | Some (NFile i) => exists n, fs'.(inodes) !! i = Some n /\ T' !! p = Some (EFile n)
    | Some (NLink _) => True
    end) -> shows fs' T'.
Proof.
  intros Hs Hi H. destruct Hs as [W B L I E]. split.
  - by eapply in_wf.
  - by eapply inside_base.
  - intros p t. rewrite (in_links _ _ _ Hi). apply L.
  - intros p i Hp Hn. specialize (H p Hp). rewrite Hn in H. destruct H as (n & Hn' & _). by exists n.
  - intros p Hp. specialize (H p Hp). unfold entry_at. specialize (L p).
    destruct (nodes fs' !! (rd ++ p)) as [[|t|i]|] eqn:En; [done| | |done].
    + exfalso. by eapply L, (in_links _ _ _ Hi).
    + destruct H as (n & Hn & HT). by rewrite Hn.
Qed.

Lemma rd_inj (p p' : rpath) : p <> p' -> rd ++ p <> rd ++ p'.
Proof. intros Hne H. by apply app_inv_head in H. Qed.

Lemma below_in (p : rpath) : p <> [] -> below rd (rd ++ p).
Proof. destruct p as [|c p]; [done|]. by exists c, p. Qed.

Lemma dir_node fs T q : shows fs T -> dirs T q -> node_at fs (rd ++ q) = Some NDir.
Proof.
  intros Hs Hd. destruct (decide (q = [])) as [->|Hq]; [rewrite app_nil_r; apply (sh_base _ _ Hs)|].
  rewrite node_at_in by done. pose proof (shows_node _ _ _ Hs Hq) as Hn. by rewrite (Hd q (dirs_to_last _ Hq)) in Hn.
Qed.

Lemma parent_node fs T q x : shows fs T -> dirs T q -> node_at fs (removelast (rd ++ q ++ [x])) = Some NDir.
Proof. intros Hs Hd. rewrite app_assoc, removelast_last. by eapply dir_node. Qed.

Lemma file_node fs T p n : shows fs T -> p <> [] -> T !! p = Some (EFile n) ->
  exists i, fs.(nodes) !! (rd ++ p) = Some (NFile i) /\ fs.(inodes) !! i = Some n.
Proof. intros Hs Hp HT. pose proof (shows_node _ _ _ Hs Hp) as Hn. by rewrite HT in Hn. Qed.

Lemma free_node fs T p : shows fs T -> p <> [] -> T !! p = None -> fs.(nodes) !! (rd ++ p) = None.
Proof. intros Hs Hp HT. pose proof (shows_node _ _ _ Hs Hp) as Hn. by rewrite HT in Hn. Qed.

(** Another file's inode is another one. *)
Lemma other_inode fs T p p' i j : shows fs T -> fs.(nodes) !! (rd ++ p) = Some (NFile i) -> fs.(nodes) !! (rd ++ p') = Some (NFile j) -> p <> p' -> i <> j.
Proof. intros Hs Hi Hj Hne ->. by apply Hne, (app_inv_head rd), (wf_inj _ (sh_wf _ _ Hs) _ _ _ Hi Hj). Qed.

Lemma set_inode_at fs T p i n : shows fs T -> p <> [] -> fs.(nodes) !! (rd ++ p) = Some (NFile i) -> shows (set_inode fs i n) (<[p := EFile n]> T).
Proof.
  intros Hs Hp Hi. eapply shows_inside; [exact Hs|eapply inside_inode; [apply (sh_wf _ _ Hs)|by apply below_in|done]|].
  intros p' Hp'. cbn. pose proof (shows_case _ _ p' Hs Hp') as H. destruct (decide (p = p')) as [<-|Hne].
  - rewrite Hi, !lookup_insert_eq. by exists n.
  - rewrite (lookup_insert_ne T) by done. destruct (nodes fs !! (rd ++ p')) as [[|t|j]|] eqn:Ej; try done.
    destruct H as (n' & H1 & H2). exists n'. split; [|done]. rewrite lookup_insert_ne; [done|]. by eapply other_inode.
Qed.

Lemma set_nodes_at fs T T' nn : shows fs T -> inside rd fs (set_nodes fs nn) ->
  (forall p, p <> [] -> nn !! (rd ++ p) = fs.(nodes) !! (rd ++ p) /\ T' !! p = T !! p \/
    match nn !! (rd ++ p) with
    | None => T' !! p = None
    | Some NDir => T' !! p = Some EDir
    | Some (NFile i) => exists n, fs.(inodes) !! i = Some n /\ T' !! p = Some (EFile n)
    | Some (NLink _) => True
    end) -> shows (set_nodes fs nn) T'.
Proof.
  intros Hs Hi H. eapply shows_inside; [exact Hs|exact Hi|]. intros p Hp. cbn.
  destruct (H p Hp) as [[-> ->]|H']; [|done]. pose proof (shows_case _ _ p Hs Hp) as Hc. by destruct (nodes fs !! (rd ++ p)) as [[]|].
Qed.

Lemma remove_at fs T s q x : shows fs T -> at_path D s (q ++ [x]) -> passable T q ->
  match T !! (q ++ [x]) with
  | None => remove_file fs s = Err NotFound
  | Some (EFile _) => exists fs', remove_file fs s = Ok fs' /\ shows fs' (delete (q ++ [x]) T)
  | Some EDir => True
  end.
Proof.
  intros Hs Hat Hp. pose proof (snoc_not_nil q x) as Hnil.
  destruct (T !! (q ++ [x])) as [[|n]|] eqn:ET; [done| |].
  - unfold remove_file. erewrite resolve_below_dirs; [|done|done|eapply shows_dirs; [done|by rewrite ET]]. rewrite node_at_in by done.
    destruct (file_node _ _ _ _ Hs Hnil ET) as (i & Hi & _). rewrite Hi. eexists. split; [done|].
    eapply set_nodes_at; [exact Hs|eapply inside_delete; [by apply below_in|done]|]. intros p' Hp'.
    destruct (decide (q ++ [x] = p')) as [<-|Hne]; [right; by rewrite !lookup_delete_eq|left].
    by rewrite !lookup_delete_ne by (done || by apply rd_inj).
  - unfold remove_file. destruct (resolve_at fs T false s q x Hs Hat Hp) as [[_ ->]|[_ ->]]; [|done].
    by rewrite node_at_in, (free_node _ _ _ Hs) by done.
Qed.

Lemma rename_free fs T s s' q x q' x' : shows fs T -> at_path D s (q ++ [x]) -> at_path D s' (q' ++ [x']) -> passable T q -> passable T q' ->
  T !! (q ++ [x]) = None -> rename fs s s' = Err NotFound.
Proof.
  intros Hs Hat Hat' Hp Hp' HT. unfold rename.
  destruct (resolve_at fs T false s q x Hs Hat Hp) as [[_ ->]|[_ ->]].
  - destruct (resolve_at fs T false s' q' x' Hs Hat' Hp') as [[_ ->]|[_ ->]]; [|done].
    by rewrite node_at_in, (free_node _ _ _ Hs (snoc_not_nil q x) HT) by apply snoc_not_nil.
  - by destruct (resolve fs false s') as [|].
Qed.

Lemma rename_at fs T s s' q x x' n : shows fs T -> at_path D s (q ++ [x]) -> at_path D s' (q ++ [x']) -> x <> x' ->
  T !! (q ++ [x]) = Some (EFile n) -> T !! (q ++ [x']) <> Some EDir ->
  exists fs', rename fs s s' = Ok fs' /\ shows fs' (<[q ++ [x'] := EFile n]> (delete (q ++ [x]) T)).
Proof.
  intros Hs Hat Hat' Hne HT Hd'. assert (Hd : dirs T q) by (eapply shows_dirs; [done|by rewrite HT]).
  pose proof (snoc_not_nil q x) as Hnil. pose proof (snoc_not_nil q x') as Hnil'.
  unfold rename. rewrite (resolve_below_dirs _ _ _ _ _ _ Hs Hat Hd), (resolve_below_dirs _ _ _ _ _ _ Hs Hat' Hd), !node_at_in by done.
  destruct (file_node _ _ _ _ Hs Hnil HT) as (i & Hi & Hino). rewrite Hi.
  pose proof (shows_case _ _ _ Hs Hnil') as Hc. pose proof (sh_real _ _ Hs (q ++ [x'])) as Hl.
  assert (Hnd : nodes fs !! (rd ++ q ++ [x']) <> Some NDir) by (intros E; by rewrite E in Hc).
  exists (set_nodes fs (<[rd ++ q ++ [x'] := NFile i]> (delete (rd ++ q ++ [x]) (nodes fs)))).
  split; [by destruct (nodes fs !! (rd ++ q ++ [x'])) as [[]|]|].
  eapply set_nodes_at; [exact Hs| |].
  - eapply inside_rename; [apply (sh_wf _ _ Hs)|by apply below_in|by apply below_in|done|done|done|by eapply parent_node].
  - intros p Hp. destruct (decide (q ++ [x'] = p)) as [<-|Hne1]; [right; rewrite !lookup_insert_eq; by exists n|].
    destruct (decide (q ++ [x] = p)) as [<-|Hne2].
    + right. rewrite !lookup_insert_ne by (done || by apply rd_inj). by rewrite !lookup_delete_eq.
    + left. rewrite !lookup_insert_ne by (done || by apply rd_inj). by rewrite !lookup_delete_ne by (done || by apply rd_inj).
Qed.

Lemma create_at fs T s q x : shows fs T -> at_path D s (q ++ [x]) -> dirs T q -> T !! (q ++ [x]) <> Some EDir ->
  exists h fs', open_write fs true s = Ok (h, fs') /\ h.(h_mode) = MWrite /\ h.(h_pos) = 0 /\
    fs'.(nodes) !! (rd ++ q ++ [x]) = Some (NFile h.(h_ino)) /\ fs'.(now) = fs.(now) /\
    shows fs' (<[q ++ [x] := EFile (mkInode [] fs.(now))]> T) /\
    (forall p i, fs.(nodes) !! (rd ++ p) = Some (NFile i) -> fs'.(nodes) !! (rd ++ p) = Some (NFile i)).
Proof.
  intros Hs Hat Hd Hnd. pose proof (snoc_not_nil q x) as Hnil.
  unfold open_write. rewrite (resolve_below_dirs _ _ _ _ _ _ Hs Hat Hd), node_at_in by done.
  destruct (T !! (q ++ [x])) as [[|n]|] eqn:ET; [done| |].
  - destruct (file_node _ _ _ _ Hs Hnil ET) as (i & Hi & _). rewrite Hi. eexists _, _. split; [done|].
    split_and!; try done. by apply set_inode_at.
  - rewrite (free_node _ _ _ Hs Hnil ET). eexists _, _. split; [done|]. cbn. rewrite lookup_insert_eq. split_and!; try done.
    + eapply shows_inside; [exact Hs|apply inside_new_file; [apply (sh_wf _ _ Hs)|by apply below_in|by eapply free_node|by eapply parent_node]|].
      intros p Hp. cbn. destruct (decide (q ++ [x] = p)) as [<-|Hne]; [rewrite !lookup_insert_eq; by eexists|].
      rewrite (lookup_insert_ne (nodes fs)) by (by apply rd_inj). rewrite (lookup_insert_ne T) by done. pose proof (shows_case _ _ _ Hs Hp) as Hc.
      destruct (nodes fs !! (rd ++ p)) as [[| |j]|] eqn:Ej; try done. destruct Hc as (n & H1 & H2). exists n. split; [|done].
      rewrite lookup_insert_ne; [done|]. intros <-. apply (wf_ino _ (sh_wf _ _ Hs)) in Ej. lia.
    + intros p i Hp. rewrite lookup_insert_ne; [done|]. intros E. rewrite <- E, (free_node _ _ _ Hs Hnil ET) in Hp. done.
Qed.

Lemma write_at fs T p h d t bytes : shows fs T -> p <> [] -> T !! p = Some (EFile (mkInode d t)) ->
  fs.(nodes) !! (rd ++ p) = Some (NFile h.(h_ino)) -> h.(h_mode) = MWrite -> h.(h_pos) = zlen d ->
  exists h' fs', write_handle fs h bytes = Ok (h', fs') /\ h'.(h_mode) = MWrite /\ h'.(h_pos) = zlen (d ++ bytes) /\
    fs'.(nodes) !! (rd ++ p) = Some (NFile h'.(h_ino)) /\ fs'.(nodes) = fs.(nodes) /\
    shows fs' (<[p := EFile (mkInode (d ++ bytes) fs.(now))]> T).
Proof.
  intros Hs Hp HT Hn Hm Hpos. unfold write_handle. rewrite Hm. eexists _, _. split; [done|]. cbn.
  assert (Hdata : inode_data fs (h_ino h) = d).
  { destruct (file_node _ _ _ _ Hs Hp HT) as (i & E & Hi). rewrite Hn in E. injection E as <-. unfold inode_data. by rewrite Hi. }
  assert (Hput : put (inode_data fs (h_ino h)) (h_pos h) bytes = d ++ bytes).
  { rewrite Hdata, Hpos. unfold put, ztake, zdrop. rewrite Nat2Z.id, take_app_length.
    rewrite drop_ge by lia. by rewrite app_nil_r. }
  rewrite Hput, Hpos, length_app. split_and!; [done|lia|done|done|]. by apply set_inode_at.
Qed.

Lemma fs_write_at fs T s q x bytes : shows fs T -> at_path D s (q ++ [x]) -> dirs T q -> T !! (q ++ [x]) <> Some EDir ->
  exists fs', fs_write fs s bytes = Ok fs' /\ shows fs' (<[q ++ [x] := EFile (mkInode bytes fs.(now))]> T) /\
    (forall p i, fs.(nodes) !! (rd ++ p) = Some (NFile i) -> fs'.(nodes) !! (rd ++ p) = Some (NFile i)).
Proof.
  intros Hs Hat Hd Hnd. unfold fs_write. destruct (create_at fs T s q x Hs Hat Hd Hnd) as (h & fs1 & -> & Hm & Hpos & Hn & Hnow & Hs1 & Hkeep).
  destruct (write_at fs1 _ (q ++ [x]) h [] (now fs) bytes Hs1) as (h' & fs2 & -> & _ & _ & _ & Hnn & Hs2);
    [apply snoc_not_nil|by rewrite lookup_insert_eq|done..|].
  exists fs2. split_and!; [done| |].
  - by rewrite Hnow, insert_insert_eq in Hs2.
  - intros p i Hp. rewrite Hnn. by apply Hkeep.
Qed.

Lemma set_mtime_at fs T s q x t : shows fs T -> at_path D s (q ++ [x]) -> passable T q ->
  match T !! (q ++ [x]) with
  | None => set_file_mtime fs s t = Err NotFound
  | Some (EFile n) => exists fs', set_file_mtime fs s t = Ok fs' /\ shows fs' (<[q ++ [x] := EFile (mkInode n.(i_data) t)]> T)
  | Some EDir => True
  end.
Proof.
  intros Hs Hat Hp. unfold set_file_mtime. rewrite (stat_at _ _ _ _ _ Hs Hat Hp). pose proof (snoc_not_nil q x) as Hnil.
  destruct (T !! (q ++ [x])) as [[|n]|] eqn:ET; [done| |by rewrite (free_node _ _ _ Hs Hnil ET)].
  destruct (file_node _ _ _ _ Hs Hnil ET) as (i & E & Hi). rewrite E.
  eexists. split; [done|]. unfold inode_data. rewrite Hi. by apply set_inode_at.
Qed.

(** *** [create_dir_all] *)

Lemma mkdir_at fs T q x : shows fs T -> passable T q ->
  let cs := RootDir :: relative D ++ (Normal <$> q ++ [x]) in
  match T !! (q ++ [x]) with
  | Some _ => mkdir fs cs = Err OtherErr
  | None => (~ dirs T q /\ mkdir fs cs = Err NotFound) \/
      exists fs', mkdir fs cs = Ok fs' /\ shows fs' (<[q ++ [x] := EDir]> T)
  end.
Proof.
  intros Hs Hp cs. pose proof (snoc_not_nil q x) as Hnil. unfold mkdir, cs.
  destruct (resolve_way fs T false q x Hs Hp) as [[Hd ->]|(Hnd & -> & ->)]; [|by left].
  rewrite node_at_in by done. pose proof (shows_node _ _ _ Hs Hnil) as Hn.
  destruct (T !! (q ++ [x])) as [[|n]|] eqn:ET; [by rewrite Hn|by destruct Hn as (i & -> & _)|]. right. rewrite Hn.
  eexists. split; [done|]. eapply set_nodes_at; [exact Hs| |].
  - apply inside_new_dir; [apply (sh_wf _ _ Hs)|by apply below_in|done|by eapply parent_node].
  - intros p Hpn. destruct (decide (q ++ [x] = p)) as [<-|Hne]; [right; by rewrite !lookup_insert_eq|left].
    by rewrite !lookup_insert_ne by (done || by apply rd_inj).
Qed.

Lemma passable_prefix T a b : passable T (a ++ b) -> passable T a.
Proof. intros H p [Hp Hpre]%elem_dirs_to. apply H, elem_dirs_to. split; [done|by apply prefix_app_r]. Qed.

(** The missing directories are made, and nothing else changes. *)
Lemma create_dirs_at q : forall fs T, shows fs T -> passable T q ->
  exists fs', create_dir_all_rev fs (rev (RootDir :: relative D ++ (Normal <$> q))) = (fs', true) /\ shows fs' (mkdirs q T).
Proof.
  induction q as [|x q IH] using rev_ind; intros fs T Hs Hp.
  - cbn [fmap list_fmap]. rewrite app_nil_r. exists fs. split; [|done].
    destruct (sh_base _ _ Hs) as [_ R Dr]. destruct (rev (RootDir :: relative D)) as [|c rcs] eqn:E; [done|].
    cbn [create_dir_all_rev]. rewrite <- E, rev_involutive, (mkdir_existing fs _ rd) by (done || apply (sh_wf _ _ Hs)).
    unfold stat_comps. rewrite resolve_comps_absolute, R. cbn. unfold lookup_node. by rewrite Dr.
  - pose proof (passable_prefix _ _ _ Hp) as Hpq. pose proof (snoc_not_nil q x) as Hnil.
    assert (Hx : is_file_entry (T !! (q ++ [x])) = false) by (by apply Hp, dirs_to_last).
    assert (Erev : rev (RootDir :: relative D ++ (Normal <$> q ++ [x])) = Normal x :: rev (RootDir :: relative D ++ (Normal <$> q))).
    { rewrite fmap_app, app_assoc. cbn [fmap list_fmap]. by rewrite app_comm_cons, rev_unit. }
    rewrite Erev. cbn [create_dir_all_rev]. rewrite <- Erev, rev_involutive, mkdirs_snoc.
    pose proof (mkdir_at fs T q x Hs Hpq) as Hm. cbn zeta in Hm.
    destruct (T !! (q ++ [x])) as [[|n]|] eqn:ET; [|done|].
    + rewrite Hm, (stat_comps_way fs T q x Hs Hpq). pose proof (shows_node _ _ _ Hs Hnil) as Hn. rewrite ET in Hn. rewrite Hn.
      exists fs. split; [done|]. rewrite dirs_mkdirs by (eapply shows_dirs; [done|by rewrite ET]). by rewrite insert_id.
    + destruct Hm as [[Hnd ->]|(fs' & -> & Hs')].
      * destruct (IH fs T Hs Hpq) as (fs1 & E1 & Hs1). rewrite E1.
        assert (ET1 : mkdirs q T !! (q ++ [x]) = None) by (rewrite mkdirs_out; [done|apply not_below_itself]).
        pose proof (mkdir_at fs1 (mkdirs q T) q x Hs1 (dirs_passable _ _ (mkdirs_dirs q T))) as Hm1. cbn zeta in Hm1. rewrite ET1 in Hm1.
        destruct Hm1 as [[Hnd1 _]|(fs2 & -> & Hs2)]; [by destruct Hnd1; apply mkdirs_dirs|]. by exists fs2.
      * exists fs'. split; [done|]. destruct (decide (q = [])) as [->|Hq]; [done|].
        rewrite dirs_mkdirs; [done|]. intros p Hin.
        assert (Hd : dirs (<[q ++ [x] := EDir]> T) q) by (eapply shows_dirs; [exact Hs'|by rewrite lookup_insert_eq]).
        specialize (Hd p Hin). rewrite lookup_insert_ne in Hd; [done|]. intros <-. by apply not_below_itself in Hin.
Qed.

Lemma create_dir_all_at fs T q : shows fs T -> passable T q -> shows (create_dir_all fs (RootDir :: relative D ++ (Normal <$> q))) (mkdirs q T).
Proof. intros Hs Hp. unfold create_dir_all. by destruct (create_dirs_at q fs T Hs Hp) as (fs' & -> & ?). Qed.

(** *** The names of a transfer *)

(** The parts of a name; the empty name of a single file has none. *)
Definition segs (x : string) : list string := if is_empty x then [] else split is_slash x.

(** A name as a sender lists them: its parts are plain. *)
Definition tidy (x : string) : Prop :=
  Forall (fun s => comp_of s = Some (Normal s)) (segs x) /\ str_any (fun b => Ascii.eqb b Ascii.zero) x = false.

(** The target of the job is [bq] below the directory (not necessarily there yet), and the
    entry [x] adds its parts; an empty name adds none, and the target itself is the file. *)
Definition loc (bq : rpath) (x : string) : rpath := bq ++ segs x.
Record target (base : string) (bq : rpath) (x : string) : Prop := mkTarget {
  tg_base : path_is base D bq;
  tg_tidy : tidy x;
  tg_some : loc bq x <> [];
  tg_name : is_empty x = true -> trailing_dir base = false }.

Lemma tidy_relative x : tidy x -> is_absolute x = false /\ relative x = Normal <$> segs x /\ (is_empty x = false -> trailing_dir x = false).
Proof.
  intros [Hs _]. unfold segs in *. destruct (is_empty x) eqn:E.
  - unfold is_empty in E. apply bool_decide_eq_true in E as ->. done.
  - split_and!.
    + destruct x as [|a x]; [done|]. unfold is_absolute. cbn. destruct (is_slash a) eqn:Ea; [|done].
      cbn [split] in Hs. rewrite Ea in Hs. by apply Forall_cons in Hs as [? _].
    + unfold relative. clear E. induction Hs as [|s l Hc _ IH]; [done|]. cbn. by rewrite Hc, IH.
    + intros _. unfold trailing_dir. destruct (last (split is_slash x)) as [s|] eqn:El; [|done].
      apply last_Some_elem_of in El. rewrite Forall_forall in Hs. specialize (Hs s El). apply bool_decide_eq_false_2.
      intros H. unfold comp_of in Hs. by rewrite bool_decide_eq_true_2 in Hs.
Qed.

Lemma path_join base bq x : path_is base D bq -> tidy x -> path_is (job_join base x) D (loc bq x).
Proof.
  intros [Ha Hr] Hx. destruct (tidy_relative x Hx) as (Hna & Hrel & _). unfold job_join, loc.
  destruct (is_empty x) eqn:E; [unfold segs; rewrite E, app_nil_r; by split|].
  destruct (relative_join base x Ha Hna) as [Hja Hjr]. split; [done|]. by rewrite Hjr, Hr, Hrel, fmap_app, app_assoc.
Qed.

Lemma target_at base bq x : target base bq x -> at_path D (job_join base x) (loc bq x).
Proof.
  intros [Hb Hx _ Hn]. split; [by apply path_join|]. destruct (tidy_relative x Hx) as (Hna & _ & Ht). unfold job_join.
  destruct (is_empty x) eqn:E; [by apply Hn|]. specialize (Ht eq_refl).
  assert (Hne : x <> ""%string) by (intros ->; done). assert (Hbe : base <> ""%string) by (intros ->; by destruct Hb).
  unfold trailing_dir in *. by rewrite last_split_join.
Qed.

Lemma target_parent base bq x : target base bq x ->
  parent (components (job_join base x)) = Some (RootDir :: relative D ++ (Normal <$> removelast (loc bq x))).
Proof.
  intros Ht. destruct (ap_path _ _ _ (target_at _ _ _ Ht)) as [Ha Hr]. rewrite components_absolute, Hr by done.
  destruct (exists_last (tg_some _ _ _ Ht)) as (q & y & ->). rewrite removelast_last, fmap_app, app_assoc. unfold parent. cbn [fmap list_fmap].
  by rewrite app_comm_cons, last_snoc, removelast_last.
Qed.

Lemma no_symlink_at fs T l : shows fs T -> Forall (fun s => str_any is_slash s = false /\ comp_of s = Some (Normal s)) l -> forall pre current,
  path_is current D pre -> passable T (removelast (pre ++ l)) -> no_symlink_loop fs current (Normal <$> l) = Ok tt.
Proof.
  intros Hs Hl. induction Hl as [|s l [H1 H2] Hl IH]; intros pre current Hc Hp; [done|]. cbn [fmap list_fmap no_symlink_loop].
  destruct (relative_one s H1 H2) as [Hr Ha]. destruct Hc as [Hca Hcr]. destruct (relative_join current s Hca Ha) as [Hja Hjr].
  assert (Hpath : path_is (join current s) D (pre ++ [s])) by (split; [done|by rewrite Hjr, Hcr, Hr, fmap_app, app_assoc]).
  assert (Hat : at_path D (join current s) (pre ++ [s])).
  { split; [done|]. assert (Hs0 : ~ (s = "" \/ s = ".")%string) by (intros E; unfold comp_of in H2; by rewrite bool_decide_eq_true_2 in H2).
    unfold trailing_dir. rewrite last_split_join; [|done|intros ->; apply Hs0; by left|intros ->; done].
    rewrite split_one by done. by apply bool_decide_eq_false_2. }
  assert (Hpre : passable T pre).
  { rewrite removelast_app in Hp by done. by eapply passable_prefix. }
  rewrite (lstat_at fs T _ pre s Hs Hat Hpre). pose proof (sh_real _ _ Hs (pre ++ [s])) as L.
  destruct (nodes fs !! (rd ++ pre ++ [s])) as [[|t|i]|]; [|by destruct (L t)|..]; by (eapply IH; [exact Hpath|by rewrite <- app_assoc]).
Qed.

(** The checks of a name accept it. *)
Lemma target_valid fs T base bq x : shows fs T -> target base bq x -> passable T (removelast (loc bq x)) ->
  validate_file_name_no_traversal false x = Ok tt /\ validate_no_symlink_components fs base x = Ok tt.
Proof.
  intros Hs [Hb Hx _ _] Hp. destruct (tidy_relative x Hx) as (Ha & Hrel & _). destruct Hx as [Hsg H0]. split.
  - unfold validate_file_name_no_traversal. rewrite H0.
    assert (Hdd : existsb (fun s => bool_decide (s = ".."%string))
        (List.filter (fun s => negb (bool_decide (s = ""%string))) (split (is_sep false) x)) = false).
    { rewrite (split_ext _ is_slash) by (intros; apply orb_false_r). unfold segs in Hsg. destruct (is_empty x) eqn:E.
      - unfold is_empty in E. apply bool_decide_eq_true in E as ->. done.
      - induction Hsg as [|s l Hc _ IH]; [done|]. cbn. destruct (negb _); [|done]. cbn. rewrite IH, orb_false_r.
        apply bool_decide_eq_false_2. intros ->. done. }
    rewrite Hdd. unfold is_absolute in Ha. by rewrite Ha.
  - unfold validate_no_symlink_components. destruct (is_empty x) eqn:E; [done|].
    assert (Hc : components x = Normal <$> segs x).
    { rewrite <- Hrel. unfold components. rewrite Ha. unfold segs in Hsg. rewrite E in Hsg.
      destruct (split is_slash x) as [|s l] eqn:Es; [by apply split_nonempty in Es|]. apply Forall_cons in Hsg as [Hc _].
      unfold relative. rewrite Es, bool_decide_eq_false_2; [done|]. intros ->. done. }
    rewrite Hc. eapply (no_symlink_at fs T); [done| |done|done].
    unfold segs in *. rewrite E in *. rewrite Forall_forall in *. intros s Hin. split; [by eapply split_no_sep|by apply Hsg].
Qed.

Lemma target_joined fs T base bq x : shows fs T -> target base bq x -> passable T (removelast (loc bq x)) ->
  join_validated_path fs base x = Ok (job_join base x).
Proof. intros Hs Ht Hp. unfold join_validated_path. by destruct (target_valid fs T base bq x Hs Ht Hp) as [-> ->]. Qed.

End Below.

End Tree.
