(* ===== verification/FsRecv.v ===== *)
(** The receiving side, functionally: what a receiving job leaves below its target, for a single
    file and for a list of files in subdirectories, which are made on the way. *)

From Stdlib Require Import Ascii.
From S2P Require Import Prelude PathFs FsJob FsSend FsSafe FsTransfer FsTree.
Import Path Fs PathFacts FsFacts Names Job Send Safe Sender Tree.

Module Receiver.

(** A file and the names its transfer uses. *)
Definition place (bq : rpath) (e : FileEntry) : rpath := loc bq e.(name).
Definition dir (bq : rpath) (e : FileEntry) : rpath := removelast (place bq e).
Definition dl (bq : rpath) (e : FileEntry) : rpath := beside (place bq e) ".download".
Definition dg (bq : rpath) (e : FileEntry) : rpath := beside (place bq e) ".digest".
Definition trio (bq : rpath) (e : FileEntry) : list rpath := [place bq e; dl bq e; dg bq e].

(** The files fit: their names are tidy, the names and the temporary names are all different and
    free, none of them is a directory on the way to another, and no file is in the way. *)
Record fits (D base : string) (bq : rpath) (T : gmap rpath Entry) (es : list FileEntry) : Prop := mkFits {
  ft_target : Forall (fun e => target D base bq e.(name)) es;
  ft_nodup : NoDup (concat (trio bq <$> es));
  ft_apart : Forall (fun e => Forall (fun p => p ∉ concat (trio bq <$> es)) (dirs_to (dir bq e))) es;
  ft_free : Forall (fun y => T !! y = None) (concat (trio bq <$> es));
  ft_way : Forall (fun e => Forall (fun p => is_file_entry (T !! p) = false) (dirs_to (dir bq e))) es }.

(** What is there when a file is finished, and when all are. *)
Definition finish (bq : rpath) (T : gmap rpath Entry) (e : FileEntry) (d : list Z) : gmap rpath Entry :=
  <[place bq e := EFile (mkInode d e.(modified_time))]> (mkdirs (dir bq e) T).
Definition finished (bq : rpath) (T : gmap rpath Entry) (es : list FileEntry) (ds : list (list Z)) : gmap rpath Entry :=
  foldl (fun T '(e, d) => finish bq T e d) T (zip es ds).

Section Fits.
Context (D base : string) (bq : rpath).
Abbreviation fits := (fits D base bq).
Abbreviation place := (place bq).
Abbreviation dir := (dir bq).
Abbreviation dl := (dl bq).
Abbreviation dg := (dg bq).
Abbreviation trio := (trio bq).

Lemma own_names e : place e ∈ trio e /\ dl e ∈ trio e /\ dg e ∈ trio e.
Proof. unfold Receiver.trio. split_and!; rewrite !elem_of_cons; auto. Qed.

Lemma in_trios e es y : e ∈ es -> y ∈ trio e -> y ∈ concat (trio <$> es).
Proof.
  intros He Hy. rewrite list_elem_of_In, in_concat. exists (trio e). split; [|by apply list_elem_of_In].
  apply list_elem_of_In, list_elem_of_fmap. by exists e.
Qed.

(** The names, from the directory they are in. *)
Lemma names_in e : target D base bq e.(name) -> exists q x, place e = q ++ [x] /\ dir e = q /\
  dl e = q ++ [(x ++ ".download")%string] /\ dg e = q ++ [(x ++ ".digest")%string].
Proof.
  intros Ht. destruct (exists_last (tg_some _ _ _ _ Ht)) as (q & x & E). exists q, x. unfold Receiver.dir, Receiver.dl, Receiver.dg, Receiver.place.
  rewrite E, !beside_snoc, removelast_last. done.
Qed.

Lemma suffix_other (x suf suf' : string) : String.length suf <> String.length suf' -> (x ++ suf)%string <> (x ++ suf')%string.
Proof.
  intros Hl. induction x as [|a x IH]; [rewrite !str_app_nil; by intros ->|]. rewrite !str_app_cons. intros [= E]. by apply IH.
Qed.

Lemma own_different e : target D base bq e.(name) -> place e <> dl e /\ place e <> dg e /\ dl e <> dg e.
Proof.
  intros Ht. destruct (names_in e Ht) as (q & x & -> & _ & -> & ->).
  assert (Hx : x = (x ++ "")%string) by (induction x as [|a x IH]; [done|]; rewrite str_app_cons; by f_equal).
  split_and!; intros [_ E]%app_inj_tail; [rewrite Hx in E at 1; by apply suffix_other in E..|by apply suffix_other in E].
Qed.

Lemma not_on_way e : target D base bq e.(name) -> place e ∉ dirs_to (dir e) /\ dl e ∉ dirs_to (dir e) /\ dg e ∉ dirs_to (dir e).
Proof. intros Ht. destruct (names_in e Ht) as (q & x & -> & -> & -> & ->). split_and!; apply not_below_itself. Qed.

(** A table in which the names of the files are as free and the ways as open as before. *)
Lemma fits_change T T' e es : fits T (e :: es) ->
  (forall y, y ∉ trio e -> y ∉ dirs_to (dir e) -> T' !! y = T !! y) ->
  (forall y, y ∉ trio e -> y ∈ dirs_to (dir e) -> T' !! y = Some EDir) -> fits T' es.
Proof.
  intros [H1 H2 H3 H4 H5] Hsame Hdir. cbn [fmap list_fmap concat] in *. apply NoDup_app in H2 as (_ & Hd & H2).
  apply Forall_cons in H1 as [_ H1]. apply Forall_cons in H3 as [H3e H3]. apply Forall_app in H4 as [_ H4]. apply Forall_cons in H5 as [_ H5].
  rewrite !Forall_forall in *.
  assert (Hout : forall y, y ∈ concat (trio <$> es) -> y ∉ trio e /\ y ∉ dirs_to (dir e)).
  { intros y Hy. split; [intros Hy'; by apply (Hd y)|]. intros Hy'. apply (H3e y Hy'), elem_of_app. by right. }
  split; rewrite ?Forall_forall; [done|done| | |].
  - intros e' He'. specialize (H3 e' He'). rewrite Forall_forall in *. intros p Hp Hin. apply (H3 p Hp), elem_of_app. by right.
  - intros y Hy. destruct (Hout y Hy) as [Ho1 Ho2]. rewrite Hsame by done. by apply H4.
  - intros e' He'. specialize (H3 e' He'). specialize (H5 e' He'). rewrite Forall_forall in *. intros p Hp.
    assert (Hn : p ∉ trio e) by (intros Hin; apply (H3 p Hp), elem_of_app; by left).
    destruct (decide (p ∈ dirs_to (dir e))) as [Hy|Hy]; [by rewrite Hdir|rewrite Hsame by done; by apply H5].
Qed.

Lemma fits_finish T e d es : fits T (e :: es) -> fits (finish bq T e d) es.
Proof.
  intros H. apply (fits_change T _ e es H); unfold finish; intros y Hy Hd; (rewrite lookup_insert_ne by (intros <-; apply Hy, own_names));
    [by rewrite mkdirs_out|by rewrite mkdirs_in].
Qed.

(** A file that is partly there. *)
Definition partly (T : gmap rpath Entry) (e : FileEntry) (n g : Inode) : gmap rpath Entry :=
  <[dl e := EFile n]> (<[dg e := EFile g]> (mkdirs (dir e) T)).

Lemma fits_partly T e n g es : fits T (e :: es) -> fits (partly T e n g) es.
Proof.
  intros H. apply (fits_change T _ e es H); unfold partly; intros y Hy Hd; (rewrite !lookup_insert_ne by (intros <-; apply Hy, own_names));
    [by rewrite mkdirs_out|by rewrite mkdirs_in].
Qed.

Lemma fits_head T e es : fits T (e :: es) -> target D base bq e.(name) /\ passable T (dir e) /\
  T !! place e = None /\ T !! dl e = None /\ T !! dg e = None.
Proof.
  intros [H1 _ _ H4 H5]. apply Forall_cons in H1 as [H1 _]. apply Forall_cons in H5 as [H5 _]. cbn [fmap list_fmap concat] in H4.
  apply Forall_app in H4 as [H4 _]. rewrite !Forall_forall in *. split_and!; [done|by intros p Hp; apply H5|..]; apply H4, own_names.
Qed.

(** *** What [finished] holds *)

Lemma finished_cons T e es d ds : finished bq T (e :: es) (d :: ds) = finished bq (finish bq T e d) es ds.
Proof. done. Qed.

Lemma finished_other T es ds y : y ∉ (place <$> es) -> y ∉ concat (dirs_to <$> (dir <$> es)) -> finished bq T es ds !! y = T !! y.
Proof.
  revert ds T. induction es as [|e es IH]; intros [|d ds] T H1 H2; try done. rewrite finished_cons.
  cbn [fmap list_fmap concat] in H1, H2. rewrite not_elem_of_cons in H1. rewrite not_elem_of_app in H2. destruct H1 as [H1 H1'], H2 as [H2 H2'].
  rewrite IH by done. unfold finish. rewrite lookup_insert_ne by done. by apply mkdirs_out.
Qed.

Lemma apart_here T e es : fits T (e :: es) -> place e ∉ (place <$> es) /\ place e ∉ concat (dirs_to <$> (dir <$> es)).
Proof.
  intros [_ H2 H3 _ _]. cbn [fmap list_fmap concat] in H2, H3. apply NoDup_app in H2 as (_ & H2 & _). apply Forall_cons in H3 as [_ H3].
  split.
  - intros (e' & E & He')%list_elem_of_fmap. apply (H2 (place e)); [apply own_names|]. rewrite E. eapply in_trios; [done|apply own_names].
  - rewrite list_elem_of_In, in_concat. intros (l & Hl%list_elem_of_In & Hy%list_elem_of_In).
    apply list_elem_of_fmap in Hl as (q & -> & (e' & -> & He')%list_elem_of_fmap). rewrite !Forall_forall in H3.
    specialize (H3 e' He'). rewrite Forall_forall in H3. apply (H3 _ Hy), elem_of_app. left. apply own_names.
Qed.

Lemma fits_places T es : fits T es -> NoDup (place <$> es).
Proof.
  revert T. induction es as [|e es IH]; intros T Hf; cbn [fmap list_fmap]; [constructor|]. constructor; [by apply apart_here in Hf as [? _]|].
  by eapply IH, (fits_finish T e []).
Qed.

(** The file of an empty name is the only one. *)
Lemma fits_alone T es i e : fits T es -> es !! i = Some e -> is_empty e.(name) = true -> es = [e].
Proof.
  intros Hf He Hn. assert (Hj : forall j e', es !! j = Some e' -> i = j).
  { intros j e' He'. destruct (decide (i = j)) as [|Hne]; [done|exfalso].
    assert (Hp : place e = bq) by (unfold Receiver.place, loc, segs; by rewrite Hn, app_nil_r).
    destruct (segs e'.(name)) as [|x l] eqn:Es.
    - apply Hne. eapply (NoDup_lookup (place <$> es) i j (place e) (fits_places _ _ Hf)); rewrite list_lookup_fmap; [by rewrite He|].
      rewrite He'. cbn. unfold Receiver.place at 1, loc. by rewrite Es, app_nil_r, Hp.
    - pose proof (ft_apart _ _ _ _ _ Hf) as Ha. rewrite Forall_forall in Ha. specialize (Ha e' (list_elem_of_lookup_2 _ _ _ He')). rewrite Forall_forall in Ha.
      apply (Ha (place e)); [|apply (in_trios e); [by eapply list_elem_of_lookup_2|apply own_names]].
      rewrite Hp. apply elem_dirs_to. split.
      + rewrite <- Hp. pose proof (ft_target _ _ _ _ _ Hf) as Ht. apply (tg_some _ _ _ _ (Forall_lookup_1 _ _ _ _ Ht He)).
      + unfold Receiver.dir, Receiver.place, loc. rewrite Es, removelast_app by done. by apply prefix_app_r. }
  destruct es as [|e1 [|e2 es]]; [done| |].
  - pose proof (Hj 0%nat e1 eq_refl) as ->. by injection He as ->.
  - pose proof (Hj 0%nat e1 eq_refl). pose proof (Hj 1%nat e2 eq_refl). lia.
Qed.

(** The checks of the list accept it. *)
Lemma fits_valid rd fs T es : shows D rd fs T -> fits T es ->
  Forall (fun e => validate_file_name_no_traversal false e.(name) = Ok tt /\ validate_no_symlink_components fs base e.(name) = Ok tt) es.
Proof.
  intros Hs [H1 _ _ _ H5]. rewrite Forall_forall in *. intros e He. specialize (H5 e He). rewrite Forall_forall in H5.
  by apply (target_valid D rd fs T base bq e.(name) Hs (H1 e He)).
Qed.

Lemma fits_accepted rd fs T j es : shows D rd fs T -> fits T es -> j.(data_source) = FilePath base -> exists j', set_files fs j es = Ok j'.
Proof.
  intros Hs Hf Hsrc. pose proof (fits_valid rd fs T es Hs Hf) as Hv. unfold set_files.
  assert (Ht : validate_transfer_file_names es = Ok tt).
  { assert (Heach : Forall (fun e => is_empty e.(name) = false) es -> validate_each es = Ok tt).
    { intros Hne. clear -Hv Hne. induction Hv as [|e l [Hv _] _ IH]; [done|]. apply Forall_cons in Hne as [Hne Hnes]. cbn [validate_each]. rewrite Hne, Hv. by apply IH. }
    destruct (decide (Forall (fun e => is_empty e.(name) = false) es)) as [Hne|Hne].
    - unfold validate_transfer_file_names. destruct es as [|e [|e2 es]]; [done| |by apply Heach]. destruct (is_empty e.(name)); [done|by apply Heach].
    - apply not_Forall_Exists in Hne; [|apply _]. apply Exists_exists in Hne as (e & He & Hn). apply list_elem_of_lookup in He as [i He].
      assert (Hn' : is_empty e.(name) = true) by (cbn in Hn; destruct (is_empty e.(name)); [done|by destruct Hn]). rewrite (fits_alone T es i e Hf He Hn'). cbn. by rewrite Hn'. }
  rewrite Ht, Hsrc. cbn [rbind]. assert (Hl : validate_links fs base es = Ok tt).
  { clear -Hv. induction Hv as [|e l [_ Hv] _ IH]; [done|]. cbn [validate_links]. by rewrite Hv. }
  rewrite Hl. by eexists.
Qed.

Lemma finished_file T es ds k e d : fits T es -> es !! k = Some e -> ds !! k = Some d ->
  finished bq T es ds !! place e = Some (EFile (mkInode d e.(modified_time))).
Proof.
  revert ds T k. induction es as [|e' es IH]; intros ds T k Hf He Hd; [done|]. destruct ds as [|d' ds]; [done|]. rewrite finished_cons.
  destruct k as [|k]; cbn in He, Hd.
  - simplify_eq. destruct (apart_here _ _ _ Hf) as [H1 H2]. rewrite finished_other by done. apply lookup_insert_eq.
  - eapply IH; [by apply fits_finish|done|done].
Qed.

Lemma finished_dirs T es ds e p : fits T es -> length es = length ds -> e ∈ es -> p ∈ dirs_to (dir e) -> finished bq T es ds !! p = Some EDir.
Proof.
  intros Hf Hl He Hp. assert (Hkeep : forall es ds T, (forall e, e ∈ es -> p <> place e) -> T !! p = Some EDir -> finished bq T es ds !! p = Some EDir).
  { clear. intros es. induction es as [|e es IH]; intros [|d ds] T Hne HT; try done. rewrite finished_cons. apply IH; [intros e' He'; apply Hne; by right|].
    unfold finish. rewrite lookup_insert_ne by (apply not_eq_sym, Hne; by left). rewrite mkdirs_lookup. by destruct (bool_decide _). }
  assert (Hne : forall e', e' ∈ es -> p <> place e').
  { intros e' He' ->. pose proof (ft_apart _ _ _ _ _ Hf) as Ha. rewrite Forall_forall in Ha. specialize (Ha e He). rewrite Forall_forall in Ha.
    apply (Ha _ Hp). eapply in_trios; [done|apply own_names]. }
  clear Hf. revert ds T Hl. induction es as [|e' es IH]; intros ds T Hl; [by apply elem_of_nil in He|]. destruct ds as [|d ds]; [done|]. rewrite finished_cons.
  injection Hl as Hl. destruct (decide (p ∈ dirs_to (dir e'))) as [Hy|Hn].
  - apply Hkeep; [intros e1 He1; apply Hne; by right|]. unfold finish. rewrite lookup_insert_ne by (apply not_eq_sym, Hne; by left). by apply mkdirs_in.
  - apply elem_of_cons in He as [->|He]; [done|]. apply IH; [done|intros e'' He''; apply Hne; by right|done].
Qed.

End Fits.

Section Receiving.
Context (zstd_decode : list Z -> option (list Z)) (digest_json : FileDigest -> list Z).
Context (D base : string) (rd bq : rpath) (jid : Z) (fls : list FileEntry).

Abbreviation shows := (shows D rd).
Abbreviation fits := (fits D base bq).
Abbreviation target e := (target D base bq e.(name)).

Record receiving (j : TransferJob) : Prop := mkReceiving {
  rv_source : j.(data_source) = FilePath base;
  rv_type : j.(type) = Generic;
  rv_id : j.(id) = jid;
  rv_files : j.(files) = fls }.

Lemma receiving_update j n ds fin tra : receiving j -> receiving (with_counts (with_num_stream j n ds) fin tra).
Proof. intros []. by split. Qed.

(** The paths of a file, as strings. *)
Lemma paths_at e : target e -> exists q x, place bq e = q ++ [x] /\ dir bq e = q /\
  dl bq e = q ++ [(x ++ ".download")%string] /\ dg bq e = q ++ [(x ++ ".digest")%string] /\
  at_path D (job_join base e.(name)) (q ++ [x]) /\
  at_path D (download_path (job_join base e.(name))) (q ++ [(x ++ ".download")%string]) /\
  at_path D (digest_path (job_join base e.(name))) (q ++ [(x ++ ".digest")%string]).
Proof.
  intros Ht. destruct (names_in D base bq e Ht) as (q & x & E & E1 & E2 & E3). exists q, x.
  pose proof (target_at _ _ _ _ Ht) as Hat. fold (place bq e) in Hat. rewrite E in Hat.
  split_and!; [done..| |]; apply at_suffix; (done || set_solver).
Qed.

(** [modify_time] finishes the current file: the download takes its place, with the time the
    sender gave, and the temporary files are gone. *)
Lemma finalize fs T j e n g : receiving j -> cur_file j = Some e -> target e -> shows fs (partly bq T e n g) ->
  T !! place bq e <> Some EDir -> T !! dl bq e = None -> T !! dg bq e = None ->
  shows (modify_time fs j) (finish bq T e n.(i_data)).
Proof.
  intros Hr Hc Ht Hs Hnd Hdl Hdg. destruct (own_different D base bq e Ht) as (N1 & N2 & N3).
  destruct (not_on_way D base bq e Ht) as (W1 & W2 & W3).
  destruct (paths_at e Ht) as (q & x & E0 & Eq & E1 & E2 & A0 & A1 & A2).
  unfold modify_time. rewrite (rv_type _ Hr), (rv_source _ Hr), Hc. cbn [is_generic negb].
  unfold resolve_entry_path. rewrite (rv_type _ Hr). cbn [is_generic].
  unfold partly, finish in *. rewrite Eq, E0, E1, E2 in *.
  set (T1 := mkdirs q T) in *. assert (Hd1 : dirs T1 q) by apply mkdirs_dirs.
  assert (Hdl1 : T1 !! (q ++ [(x ++ ".download")%string]) = None) by (unfold T1; by rewrite mkdirs_out).
  assert (Hdg1 : T1 !! (q ++ [(x ++ ".digest")%string]) = None) by (unfold T1; by rewrite mkdirs_out).
  assert (Hp1 : T1 !! (q ++ [x]) <> Some EDir) by (unfold T1; by rewrite mkdirs_out).
  rewrite (target_joined D rd _ _ _ _ _ Hs Ht) by (fold (place bq e) (dir bq e); rewrite Eq; by apply dirs_passable, dirs_insert, dirs_insert).
  pose proof (remove_at _ _ _ _ _ _ _ Hs A2 (dirs_passable _ _ (dirs_insert _ _ _ _ W2 (dirs_insert _ _ _ _ W3 Hd1)))) as H1.
  rewrite lookup_insert_ne, lookup_insert_eq in H1 by done.
  destruct H1 as (fs1 & -> & S1). cbn [fs_ok]. rewrite delete_insert_ne, delete_insert_id in S1 by done.
  assert (Hxx : (x ++ ".download")%string <> x) by (intros E; apply N1; by rewrite E).
  destruct (rename_at _ _ _ _ _ _ _ _ _ n S1 A1 A0 Hxx) as (fs2 & -> & S2); [by rewrite lookup_insert_eq|by rewrite lookup_insert_ne|].
  cbn [fs_ok]. rewrite delete_insert_id in S2 by done.
  pose proof (set_mtime_at _ _ _ _ _ _ _ e.(modified_time) S2 A0 (dirs_passable _ _ (dirs_insert _ _ _ _ W1 Hd1))) as H3. rewrite lookup_insert_eq in H3.
  destruct H3 as (fs3 & -> & S3). cbn [fs_ok]. by rewrite insert_insert_eq in S3.
Qed.

(** Where there is no such file, it does nothing. *)
Lemma finalize_nothing fs T j e es : receiving j -> cur_file j = Some e -> shows fs T -> fits T (e :: es) -> modify_time fs j = fs.
Proof.
  intros Hr Hc Hs Hf. destruct (fits_head _ _ _ _ _ _ Hf) as (Ht & Hp & H0 & Hdl & Hdg).
  destruct (paths_at e Ht) as (q & x & E0 & Eq & E1 & E2 & A0 & A1 & A2).
  unfold modify_time. rewrite (rv_type _ Hr), (rv_source _ Hr), Hc. cbn [is_generic negb].
  unfold resolve_entry_path. rewrite (rv_type _ Hr). cbn [is_generic]. rewrite (target_joined D rd _ _ _ _ _ Hs Ht Hp).
  rewrite Eq, E0, E1, E2 in *.
  pose proof (remove_at _ _ _ _ _ _ _ Hs A2 Hp) as H1. rewrite Hdg in H1. rewrite H1. cbn [fs_ok].
  rewrite (rename_free _ _ _ _ _ _ _ _ _ _ Hs A1 A0 Hp Hp Hdl). cbn [fs_ok].
  pose proof (set_mtime_at _ _ _ _ _ _ _ e.(modified_time) Hs A0 Hp) as H3. rewrite H0 in H3. by rewrite H3.
Qed.

Definition payload (b : FileTransferBlock) : list Z :=
  if b.(b_compressed) then decompress zstd_decode b.(b_data) else b.(b_data).

(** The current file is partly there: its download holds [d], and the stream is at its end. *)
Record partial (fs : Fs) (j : TransferJob) (e : FileEntry) (T : gmap rpath Entry) (d : list Z) : Prop := mkPartial {
  pa_job : receiving j;
  pa_cur : cur_file j = Some e;
  pa_shows : exists t g, shows fs (partly bq T e (mkInode d t) g);
  pa_stream : exists h, j.(data_stream) = Some (FileStream h) /\ h.(h_mode) = MWrite /\ h.(h_pos) = zlen d /\
    fs.(nodes) !! (rd ++ dl bq e) = Some (NFile h.(h_ino)) }.

Definition ok_io : IoOk := mkIo true true.

Lemma payload_next fs j e T d b : target e -> partial fs j e T d ->
  exists j' fs', write_payload zstd_decode fs j b ok_io = (Ok tt, j', fs') /\ partial fs' j' e T (d ++ payload b) /\ j'.(file_num) = j.(file_num).
Proof.
  intros Ht [Hr Hc (t & g & Hs) (h & Hd & Hm & Hp & Hn)]. unfold write_payload. rewrite Hd. cbn [io_write ok_io negb stream_write].
  assert (Hnil : dl bq e <> []) by (destruct (paths_at e Ht) as (q & x & _ & _ & -> & _); by apply snoc_not_nil).
  destruct (write_at D rd fs _ (dl bq e) h d t (payload b) Hs Hnil) as (h' & fs' & E & Hm' & Hp' & Hn' & _ & Hs');
    [by apply lookup_insert_eq|done..|].
  unfold payload in *. rewrite E. cbn [rbind]. eexists _, _. split; [done|]. split; [|done].
  split; [by apply receiving_update|done| |].
  - unfold partly in *. rewrite insert_insert_eq in Hs'. eauto.
  - exists h'. by split_and!.
Qed.

(** Opening the next file: everything before it is finished, and its directory is made. *)
Lemma open_next fs T j e es b : receiving j -> shows (modify_time fs j) T ->
  zget fls (as_usize b.(b_file_num)) = Some e -> fits T (e :: es) ->
  exists j' fs', open_target digest_json fs j base b ok_io = (Ok tt, j', fs') /\ partial fs' j' e T [] /\ j'.(file_num) = b.(b_file_num).
Proof.
  intros Hr Hs Hg Hf. destruct (fits_head _ _ _ _ _ _ Hf) as (Ht & Hp & H0 & Hdl & Hdg).
  destruct (own_different D base bq e Ht) as (N1 & N2 & N3). destruct (not_on_way D base bq e Ht) as (W1 & W2 & W3).
  destruct (paths_at e Ht) as (q & x & E0 & Eq & E1 & E2 & A0 & A1 & A2).
  unfold open_target. set (fs0 := modify_time fs j) in *. cbn [io_sync ok_io negb].
  assert (Hsync : (match data_stream j with Some (FileStream _) => false | _ => false end) = false) by (by destruct (data_stream j) as [[]|]).
  rewrite Hsync. assert (Hc : cur_file (with_num_stream j (b_file_num b) (data_stream j)) = Some e).
  { unfold cur_file. cbn. by rewrite (rv_files _ Hr). }
  rewrite Hc. cbn [type with_num_stream]. rewrite (rv_type _ Hr), (target_joined D rd _ _ _ _ _ Hs Ht Hp). cbn [rbind].
  rewrite (target_parent _ _ _ _ Ht). fold (place bq e) (dir bq e).
  pose proof (create_dir_all_at _ _ _ _ _ Hs Hp) as S0. set (fs1 := create_dir_all _ _) in *.
  unfold partly in *. rewrite Eq, E1, E2 in *. set (T1 := mkdirs q T) in *. assert (Hd1 : dirs T1 q) by apply mkdirs_dirs.
  assert (Hdl1 : T1 !! (q ++ [(x ++ ".download")%string]) = None) by (unfold T1; by rewrite mkdirs_out).
  assert (Hdg1 : T1 !! (q ++ [(x ++ ".digest")%string]) = None) by (unfold T1; by rewrite mkdirs_out).
  rewrite (exists_at _ _ _ _ _ _ _ S0 A2 (dirs_passable _ _ Hd1)), Hdg1, bool_decide_eq_false_2 by (by intros [? ?]).
  destruct (create_at _ _ _ _ _ _ _ S0 A1 Hd1) as (h & fs2 & -> & Hm & Hpos & Hn & _ & S1 & _); [by rewrite Hdl1|].
  destruct (fs_write_at _ _ _ _ _ _ _ (digest_json (digest (with_num_stream j (b_file_num b) (data_stream j)))) S1 A2) as (fs3 & Ew & S2 & Hkeep);
    [by apply dirs_insert|by rewrite lookup_insert_ne, Hdg1|].
  cbn in Ew |- *. rewrite Ew. cbn [fs_ok]. eexists _, _. split; [done|]. split; [|done]. split.
  - destruct Hr. by split.
  - done.
  - unfold partly. rewrite Eq, E1, E2. rewrite insert_insert_ne in S2 by done. eauto.
  - exists h. split_and!; [done|done|done|]. rewrite E1. by apply Hkeep.
Qed.

(** A further block of the current file. *)
Lemma write_next fs j e T d b : target e -> partial fs j e T d -> b.(b_id) = jid -> b.(b_file_num) = j.(file_num) -> 0 <= j.(file_num) < 2 ^ 31 ->
  zget fls j.(file_num) = Some e ->
  exists j' fs', write zstd_decode digest_json fs j b ok_io = (Ok tt, j', fs') /\ partial fs' j' e T (d ++ payload b) /\ j'.(file_num) = j.(file_num).
Proof.
  intros Ht Hp Hb1 Hb2 Hir Hg. unfold write.
  rewrite (rv_id _ (pa_job _ _ _ _ _ Hp)), Hb1, Z.eqb_refl. cbn [negb]. rewrite (rv_source _ (pa_job _ _ _ _ _ Hp)).
  rewrite Hb2, as_usize_small, Z.eqb_refl by done. rewrite (rv_files _ (pa_job _ _ _ _ _ Hp)).
  destruct (zlen fls <=? file_num j) eqn:El; [apply zget_range in Hg; lia|].
  destruct (pa_stream _ _ _ _ _ Hp) as (h & Hd & _). rewrite Hd. cbn [is_none orb negb]. by apply payload_next.
Qed.

(** The first block of the next file. *)
Lemma write_first fs j T e es i b : receiving j -> shows (modify_time fs j) T ->
  (j.(data_stream) = None \/ j.(file_num) <> i) -> 0 <= j.(file_num) < 2 ^ 31 -> 0 <= i < 2 ^ 31 ->
  zget fls i = Some e -> fits T (e :: es) -> b.(b_id) = jid -> b.(b_file_num) = i ->
  exists j' fs', write zstd_decode digest_json fs j b ok_io = (Ok tt, j', fs') /\ partial fs' j' e T (payload b) /\ j'.(file_num) = i.
Proof.
  intros Hr Hs Hnew Hnr Hir Hg Hf Hb1 Hb2. unfold write. destruct (fits_head _ _ _ _ _ _ Hf) as (Ht & _).
  rewrite (rv_id _ Hr), Hb1, Z.eqb_refl. cbn [negb]. rewrite (rv_source _ Hr), Hb2, !as_usize_small by done.
  rewrite (rv_files _ Hr). destruct (zlen fls <=? i) eqn:El; [apply zget_range in Hg; lia|].
  assert (Hopen : negb (i =? file_num j) || is_none (data_stream j) = true).
  { destruct Hnew as [->|Hne']; [by rewrite orb_true_r|]. destruct (Z.eqb_spec i (file_num j)); [congruence|done]. }
  rewrite Hopen. destruct (open_next fs T j e es b) as (j1 & fs1 & -> & Hp1 & Hn1); try done.
  { by rewrite Hb2, as_usize_small. }
  destruct (payload_next _ _ _ _ _ b Ht Hp1) as (j2 & fs2 & -> & Hp2 & Hn2). exists j2, fs2. split_and!; [done|done|congruence].
Qed.

(** The further blocks of the current file. *)
Lemma recv_rest fs j e T d i bs : target e -> partial fs j e T d -> j.(file_num) = i -> 0 <= i < 2 ^ 31 -> zget fls i = Some e ->
  Forall (fun b => b.(b_id) = jid /\ b.(b_file_num) = i) bs ->
  exists j' fs', recv_run zstd_decode digest_json fs j ((fun b => RBlock b ok_io) <$> bs) = (j', fs') /\
    partial fs' j' e T (d ++ concat (payload <$> bs)) /\ j'.(file_num) = i.
Proof.
  intros Ht Hp Hi Hir Hg Hbs. revert fs j d Hp Hi.
  induction Hbs as [|b bs [Hb1 Hb2] _ IH]; intros fs j d Hp Hi.
  - exists j, fs. cbn. by rewrite app_nil_r.
  - cbn [fmap list_fmap recv_run recv_step].
    destruct (write_next _ _ _ _ _ b Ht Hp) as (j1 & fs1 & -> & Hp1 & Hn1); [congruence..|].
    destruct (IH _ _ _ Hp1) as (j2 & fs2 & -> & Hp2 & Hn2); [congruence|].
    exists j2, fs2. split; [done|]. split; [|done]. cbn. by rewrite app_assoc.
Qed.

(** All the blocks of the next file. *)
Lemma recv_file fs j T e es i bs : receiving j -> shows (modify_time fs j) T ->
  (j.(data_stream) = None \/ j.(file_num) <> i) -> 0 <= j.(file_num) < 2 ^ 31 -> 0 <= i < 2 ^ 31 ->
  zget fls i = Some e -> fits T (e :: es) -> bs <> [] -> Forall (fun b => b.(b_id) = jid /\ b.(b_file_num) = i) bs ->
  exists j' fs', recv_run zstd_decode digest_json fs j ((fun b => RBlock b ok_io) <$> bs) = (j', fs') /\
    partial fs' j' e T (concat (payload <$> bs)) /\ j'.(file_num) = i.
Proof.
  intros Hr Hs Hnew Hnr Hir Hg Hf Hne Hbs. destruct Hbs as [|b bs [Hb1 Hb2] Hbs]; [done|]. destruct (fits_head _ _ _ _ _ _ Hf) as (Ht & _).
  cbn [fmap list_fmap recv_run recv_step].
  destruct (write_first fs j T e es i b) as (j2 & fs2 & -> & Hp2 & Hn2); try done.
  destruct (recv_rest _ _ _ _ _ i bs Ht Hp2) as (j3 & fs3 & -> & Hp3 & Hn3); [congruence|done..|].
  exists j3, fs3. by split_and!.
Qed.

(** A new job has nothing open. *)
Lemma fresh_job fs eod entries n j : set_files fs (new_write jid Generic (FilePath base) n eod) entries = Ok j -> entries = fls ->
  receiving j /\ j.(data_stream) = None /\ j.(file_num) = n.
Proof.
  intros Hset ->. unfold set_files in Hset. destruct (validate_transfer_file_names _); [|done]. cbn [rbind] in Hset.
  cbn [data_source new_write new_job] in Hset. destruct (validate_links fs base fls); [|done]. by injection Hset as <-.
Qed.

Lemma fresh_nothing fs T j : receiving j -> j.(file_num) = 0 -> shows fs T -> fits T fls -> modify_time fs j = fs.
Proof.
  intros Hr Hn Hs Hf. destruct (cur_file j) as [e|] eqn:Hc.
  - assert (He : exists es, fls = e :: es).
    { unfold cur_file, zget in Hc. rewrite Hn, (rv_files _ Hr) in Hc. change (fls !! 0%nat = Some e) in Hc. destruct fls as [|e' es]; [done|]. injection Hc as ->. by exists es. }
    destruct He as [es E]. eapply finalize_nothing; [done|done|done|]. by rewrite <- E.
  - unfold modify_time. by rewrite (rv_type _ Hr), (rv_source _ Hr), Hc.
Qed.

(** A file all of whose blocks are there is finished as soon as the job goes on. *)
Lemma partial_done fs j T e es d : fits T (e :: es) -> partial fs j e T d -> shows (modify_time fs j) (finish bq T e d).
Proof.
  intros Hf Hp. destruct (fits_head _ _ _ _ _ _ Hf) as (Ht & _ & H0 & Hdl & Hdg). destruct (pa_shows _ _ _ _ _ Hp) as (t & g & Hs).
  apply (finalize fs T j e (mkInode d t) g (pa_job _ _ _ _ _ Hp) (pa_cur _ _ _ _ _ Hp) Ht Hs); [by rewrite H0|done..].
Qed.

(** The groups of blocks of the files from number [i] on. *)
Inductive groups : Z -> list (list Z) -> list FileTransferBlock -> Prop :=
| groups_nil i : groups i [] []
| groups_cons i d ds bs rest : bs <> [] -> Forall (fun b => b.(b_id) = jid /\ b.(b_file_num) = i) bs ->
    concat (payload <$> bs) = d -> groups (i + 1) ds rest -> groups i (d :: ds) (bs ++ rest).

Lemma recv_run_app fs j a b : recv_run zstd_decode digest_json fs j (a ++ b) =
  let '(j1, fs1) := recv_run zstd_decode digest_json fs j a in recv_run zstd_decode digest_json fs1 j1 b.
Proof.
  revert fs j. induction a as [|x a IH]; intros fs j; [done|]. cbn. destruct (recv_step _ _ fs j x). apply IH.
Qed.

Lemma recv_all i ds blocks : groups i ds blocks -> forall pre es fs j T, i = zlen pre -> fls = pre ++ es -> length es = length ds ->
  receiving j -> shows (modify_time fs j) T -> (j.(data_stream) = None \/ j.(file_num) <> i) ->
  0 <= j.(file_num) < 2 ^ 31 -> zlen fls < 2 ^ 31 -> fits T es ->
  exists j' fs', recv_run zstd_decode digest_json fs j (((fun b => RBlock b ok_io) <$> blocks) ++ [RDone]) = (j', fs') /\
    shows fs' (finished bq T es ds).
Proof.
  induction 1 as [i|i d ds bs rest Hne Hbs Hd Hg IH]; intros pre es fs j T Hi Hf Hlen Hr Hs Hnew Hnum Hmax Hfit.
  - destruct es; [|done]. by exists j, (modify_time fs j).
  - destruct es as [|e es]; [done|]. injection Hlen as Hlen.
    assert (Hi2 : 0 <= i < 2 ^ 31) by (rewrite Hf, length_app in Hmax; cbn in Hmax; lia).
    assert (Hget : zget fls i = Some e).
    { unfold zget. destruct (0 <=? i) eqn:E0; [|bool_to_prop; lia].
      rewrite Hi, Nat2Z.id, Hf. by apply list_lookup_middle. }
    destruct (recv_file fs j T e es i bs Hr Hs Hnew Hnum Hi2 Hget Hfit) as (j1 & fs1 & E1 & Hp & Hn1); [done..|].
    pose proof (partial_done _ _ _ _ _ _ Hfit Hp) as Hfin. rewrite Hd in Hfin.
    destruct (IH (pre ++ [e]) es fs1 j1 (finish bq T e d)) as (j2 & fs2 & E2 & Hs2); try done.
    + rewrite length_app. cbn. lia.
    + by rewrite <- app_assoc.
    + apply (pa_job _ _ _ _ _ Hp).
    + right. lia.
    + lia.
    + by eapply fits_finish.
    + exists j2, fs2. split; [|done]. rewrite fmap_app, <- app_assoc, recv_run_app, E1. done.
Qed.

End Receiving.

(** ** From one disk to the other *)

Section Coder.
Context (zstd_compress zstd_decode : list Z -> option (list Z)).
(** The coder decodes what it has encoded. *)
Hypothesis zstd_ok : forall c, zlen c <= BUF_SIZE -> exists z, zstd_compress c = Some z /\ zstd_decode z = Some c.

Lemma payload_data_block jid i name c : zlen c <= BUF_SIZE -> payload zstd_decode (data_block zstd_compress jid i name c) = c.
Proof.
  intros Hc. unfold payload, data_block, encode. destruct (_ && _); [|done]. cbn.
  destruct (zstd_ok c Hc) as (z & Hz1 & Hz2). unfold decompress, decompress_with_limit, compress.
  rewrite Hz1. cbn. rewrite Hz2. unfold BUF_SIZE, MAX_DECOMPRESSED_SIZE in *. destruct (_ <? _) eqn:E; [|done]. bool_to_prop. lia.
Qed.

Lemma chunks_concat fuel d : (length d <= fuel)%nat -> concat (chunks fuel d) = d /\ Forall (fun c => zlen c <= BUF_SIZE) (chunks fuel d).
Proof.
  revert d. induction fuel as [|fuel IH]; intros d Hd; [by destruct d; [|cbn in Hd; lia]|].
  cbn [chunks]. destruct (is_nil d) eqn:E; [by destruct d|].
  destruct (IH (zdrop BUF_SIZE d)) as [H1 H2].
  { unfold zdrop. rewrite length_drop. destruct d; [done|]. cbn [length] in *. pose proof zlen_buf_pos. lia. }
  split.
  - cbn [concat]. rewrite H1. unfold ztake, zdrop. apply take_drop.
  - constructor; [|done]. unfold ztake. rewrite length_take. pose proof zlen_buf_pos. lia.
Qed.

Lemma groups_all_blocks jid i names ds : length names = length ds ->
  groups zstd_decode jid i ds (all_blocks zstd_compress jid i (zip names ds)).
Proof.
  revert i names. induction ds as [|d ds IH]; intros i [|nm names] Hl; try done; [constructor|].
  cbn [zip zip_with all_blocks]. constructor; [| | |by apply IH; injection Hl].
  - unfold file_blocks. by destruct (_ <$> _).
  - unfold file_blocks. apply Forall_app. split; [|by repeat constructor].
    apply Forall_fmap, Forall_true. done.
  - unfold file_blocks. destruct (chunks_concat (length d) d) as [H1 H2]; [done|].
    rewrite fmap_app, concat_app. cbn. rewrite !app_nil_r. rewrite <- list_fmap_compose.
    transitivity (concat (chunks (length d) d)); [|done]. f_equal.
    rewrite <- (list_fmap_id (chunks (length d) d)) at 2. apply list_fmap_ext. intros k c Hk. cbn.
    apply payload_data_block. by eapply Forall_lookup_1 in H2.
Qed.

End Coder.

(** What the receiving connection does with the sender's messages. *)
Definition to_recv (m : Msg) : list Recv :=
  match m with
  | MBlock b => [RBlock b ok_io]
  | MDone _ _ => [RDone]
  | _ => []
  end.

(** A finished file can be read at the target. *)
Lemma finished_at D base rd bq fs T es ds k e d : shows D rd fs (finished bq T es ds) -> fits D base bq T es ->
  es !! k = Some e -> ds !! k = Some d -> metadata fs (job_join base e.(name)) = Ok (mkInode d e.(modified_time)).
Proof.
  intros Hs Hf He Hd. pose proof (finished_file _ _ _ _ _ _ _ _ _ Hf He Hd) as HT.
  assert (Ht : target D base bq e.(name)) by exact (Forall_lookup_1 _ _ _ _ (ft_target _ _ _ _ _ Hf) He).
  pose proof (target_at _ _ _ _ Ht) as Hat. fold (place bq e) in Hat.
  destruct (names_in _ _ _ _ Ht) as (q & x & E & _). rewrite E in *.
  unfold metadata. rewrite (stat_at _ _ _ _ _ _ _ Hs Hat) by (eapply dirs_passable, shows_dirs; [done|by rewrite HT]).
  destruct (file_node _ _ _ _ _ _ Hs (snoc_not_nil q x) HT) as (i & -> & Hi). by rewrite Hi.
Qed.

(** A transfer arrives as it was.  A sending job over readable files, served until it is done
    (with reads of any length), and a receiving job with the same file list whose files fit at its
    target, fed the messages in order: each file is there with exactly the sender's contents and
    modification time, with the directories on the way to it, and nothing else has changed below
    the directory, in particular no temporary file is left; provided the coder decodes what it
    encodes. *)
Theorem transfer_faithful (zstd_compress zstd_decode : list Z -> option (list Z)) (digest_json : FileDigest -> list Z)
    (fs_s fs_r fs_v : Fs) (base_s D base_r : string) (rd bq : rpath) (T : gmap rpath Entry) (js jr : TransferJob) (contents : list (list Z))
    (calls : list (list (option Z))) (eod : bool) :
  (forall c, zlen c <= BUF_SIZE -> exists z, zstd_compress c = Some z /\ zstd_decode z = Some c) ->
  js.(data_source) = FilePath base_s -> js.(is_last_job) = false -> js.(enable_overwrite_detection) = false ->
  js.(file_skipped) = false -> js.(file_num) = 0 -> js.(data_stream) = None -> zlen js.(files) < 2 ^ 31 - 1 ->
  Forall2 (has_content fs_s base_s) js.(files) contents ->
  Forall (Forall (fun o => o <> None)) calls ->
  length calls = S (length (all_blocks zstd_compress js.(id) 0 (zip (current_name js base_s <$> js.(files)) contents))) ->
  set_files fs_v (new_write js.(id) Generic (FilePath base_r) 0 eod) js.(files) = Ok jr ->
  shows D rd fs_r T -> fits D base_r bq T js.(files) ->
  let fs' := (recv_run zstd_decode digest_json fs_r jr (concat (to_recv <$> (send_run zstd_compress fs_s [js] calls).2))).2 in
  (forall k e d, js.(files) !! k = Some e -> contents !! k = Some d ->
     metadata fs' (job_join base_r e.(name)) = Ok (mkInode d e.(modified_time))) /\
  (forall e p, e ∈ js.(files) -> p ∈ dirs_to (dir bq e) -> entry_at rd fs' p = Some EDir) /\
  (forall p, p <> [] -> p ∉ (place bq <$> js.(files)) -> p ∉ concat (dirs_to <$> (dir bq <$> js.(files))) -> entry_at rd fs' p = T !! p).
Proof.
  intros Hz Hs1 Hs2 Hs3 Hs4 Hs5 Hs6 Hmax Hcont Hcalls Hlen Hset Hsh Hfit.
  rewrite (sender_faithful zstd_compress fs_s base_s js contents calls) by done. cbn [snd].
  set (blocks := all_blocks _ _ _ _) in *.
  assert (Hev : concat (to_recv <$> (MBlock <$> blocks) ++ [MDone js.(id) (zlen js.(files))]) =
    ((fun b => RBlock b ok_io) <$> blocks) ++ [RDone]).
  { rewrite fmap_app, concat_app. cbn [to_recv fmap list_fmap concat app]. f_equal. generalize blocks. intros bs. induction bs as [|b bs IH]; [done|]. cbn. by f_equal. }
  rewrite Hev. assert (Hlc : length js.(files) = length contents) by (by eapply Forall2_length).
  destruct (fresh_job base_r js.(id) js.(files) fs_v eod _ 0 jr Hset eq_refl) as (Hrv & Hds & Hnum).
  assert (Hmod : modify_time fs_r jr = fs_r) by (eapply fresh_nothing; [exact Hrv|done|done|done]).
  destruct (recv_all zstd_decode digest_json D base_r rd bq js.(id) js.(files) 0 contents blocks) with (pre := @nil FileEntry) (es := js.(files))
    (fs := fs_r) (j := jr) (T := T) as (j' & fs' & -> & Hfin); try done.
  - apply groups_all_blocks; [done|]. by rewrite length_fmap.
  - by rewrite Hmod.
  - by left.
  - by rewrite Hnum.
  - lia.
  - cbn [snd]. split_and!.
    + intros k e d He Hd. by eapply finished_at.
    + intros e p He Hp. rewrite (sh_entry _ _ _ _ Hfin) by (by apply elem_dirs_to in Hp as [? _]). by eapply finished_dirs.
    + intros p Hp H1 H2. rewrite (sh_entry _ _ _ _ Hfin) by done. by apply finished_other.
Qed.

(** The hypothesis on the coder is needed: when it fails, [compress] answers an empty buffer,
    which looks like a very good result, and the block goes out without its data. *)
Example failing_coder_loses_data :
  (send_run (fun _ => None) src_fs [src_job] [[]; []; []; []]).2 =
    (MBlock <$> [end_block 4 0; mkBlock 4 1 [] true; end_block 4 1]) ++ [MDone 4 2].
Proof. by vm_compute. Qed.

Definition dst_fs : Fs := mkFs {[ ["dst"]%string := NDir ]} ∅ 0 [] 9.

Lemma dst_shows : shows "/dst" ["dst"]%string dst_fs ∅.
Proof.
  assert (Hno : forall x p, nodes dst_fs !! (["dst"%string] ++ x :: p) = None) by (intros x p; by apply lookup_singleton_ne).
  split.
  - apply wfb_wf. by vm_compute.
  - split; by vm_compute.
  - intros [|x p] t; [by vm_compute|by rewrite Hno].
  - intros [|x p] i; [done|by rewrite Hno].
  - intros [|x p]; [done|]. intros _. unfold entry_at. by rewrite Hno.
Qed.

End Receiver.
