(* ===== verification/FsShare.v ===== *)
(** Several receiving jobs on one disk: what one of them does leaves the conditions of the
    others in place, so that each stays inside its own directory ([FsSafe]). *)

From S2P Require Import Prelude PathFs FsJob FsSafe FsSend.
Import Path Fs PathFacts FsFacts Names Job Safe.

Module Share.
Import Send.

(** ** Jobs in a list *)

Lemma get_job_elem jid jobs j : get_job jid jobs = Some j -> j ∈ jobs.
Proof.
  unfold get_job, job_index. destruct (list_find _ jobs) as [[i k]|] eqn:E; [|done]. intros [= <-].
  apply list_find_Some in E as (E & _). by eapply list_elem_of_lookup_2.
Qed.

Lemma get_job_id jid jobs j : get_job jid jobs = Some j -> j.(id) = jid.
Proof.
  unfold get_job, job_index. destruct (list_find _ jobs) as [[i k]|] eqn:E; [|done]. intros [= <-].
  by apply list_find_Some in E as (_ & E & _).
Qed.

Lemma put_job_forall (P : TransferJob -> Prop) jid j jobs : P j -> Forall P jobs -> Forall P (put_job jid j jobs).
Proof. intros Hj H. unfold put_job. destruct (job_index jid jobs) as [[i k]|]; [by apply Forall_insert|done]. Qed.

Lemma remove_job_forall (P : TransferJob -> Prop) jid jobs : Forall P jobs -> Forall P (remove_job jid jobs).
Proof.
  intros H. unfold remove_job. destruct (list_find _ jobs) as [[i k]|]; [|done].
  apply Forall_app. split; [by apply Forall_take|by apply Forall_drop].
Qed.

(** ** Where the names of a file come from *)

(** From [fs] to [fs'], a name of a file is new with the file, or the file had a name in the
    same directory before. *)
Record moves (fs fs' : Fs) : Prop := mkMoves {
  mv_next : (fs.(next_ino) <= fs'.(next_ino))%nat;
  mv_names : forall k i, fs'.(nodes) !! k = Some (NFile i) ->
    (fs.(next_ino) <= i)%nat \/ exists k0, fs.(nodes) !! k0 = Some (NFile i) /\ removelast k0 = removelast k }.

Lemma moves_refl fs : moves fs fs.
Proof. split; [done|]. eauto. Qed.

Lemma moves_trans a b c : moves a b -> moves b c -> moves a c.
Proof.
  intros [N1 M1] [N2 M2]. split; [lia|]. intros k i [Hi|(k0 & H0 & E)]%M2; [left; lia|].
  apply M1 in H0 as [Hi|(k1 & H1 & E1)]; [by left|]. right. exists k1. split; [done|congruence].
Qed.

(** Nothing but the contents, or fewer names, or a directory more. *)
Lemma moves_fewer fs fs' : fs'.(next_ino) = fs.(next_ino) ->
  (forall k i, fs'.(nodes) !! k = Some (NFile i) -> fs.(nodes) !! k = Some (NFile i)) -> moves fs fs'.
Proof. intros E H. split; [by rewrite E|]. intros k i Hk%H. eauto. Qed.

Lemma remove_file_moves fs s : moves fs (fs_ok fs (remove_file fs s)).
Proof.
  unfold remove_file. destruct (resolve fs false s) as [p|]; [|apply moves_refl].
  destruct (node_at fs p) as [[]|]; cbn; try apply moves_refl;
    (apply moves_fewer; [done|]; intros k i; cbn; rewrite lookup_delete_Some; tauto).
Qed.

Lemma set_file_mtime_moves fs s t : moves fs (fs_ok fs (set_file_mtime fs s t)).
Proof. unfold set_file_mtime. destruct (stat fs s) as [[]|]; cbn; try apply moves_refl. by apply moves_fewer. Qed.

Lemma mkdir_moves fs cs fs' : mkdir fs cs = Ok fs' -> moves fs fs'.
Proof.
  unfold mkdir. destruct (resolve_comps fs false cs) as [p|]; [|done]. destruct (node_at fs p); [done|]. intros [= <-].
  apply moves_fewer; [done|]. intros k i. cbn. rewrite lookup_insert_Some. intros [[_ ?]|[_ ?]]; [done|done].
Qed.

Lemma create_dir_all_moves rcs : forall fs, moves fs (create_dir_all_rev fs rcs).1.
Proof.
  induction rcs as [|c rcs IH]; intros fs; cbn [create_dir_all_rev]; [apply moves_refl|].
  destruct (mkdir fs (rev (c :: rcs))) as [fs1|[|]] eqn:E; [by eapply mkdir_moves| |apply moves_refl].
  specialize (IH fs). destruct (create_dir_all_rev fs rcs) as [fs1 ok]. cbn [fst] in IH. destruct ok; [|done].
  destruct (mkdir fs1 (rev (c :: rcs))) as [fs2|] eqn:E2; [|done]. eapply moves_trans; [done|]. by eapply mkdir_moves.
Qed.

Lemma open_write_moves fs trunc s h fs' : wf fs -> open_write fs trunc s = Ok (h, fs') ->
  moves fs fs' /\ (h.(h_ino) < fs'.(next_ino))%nat.
Proof.
  intros Hw. unfold open_write. destruct (resolve fs true s) as [p|]; [|done].
  destruct (node_at fs p) as [[|t|i]|] eqn:En; intros [= <- <-].
  - assert (Hi : (i < next_ino fs)%nat). { destruct p as [|x p]; [done|]. cbn in En. by eapply wf_ino. }
    destruct trunc; cbn; (split; [by apply moves_fewer|done]).
  - cbn. split; [|lia]. split; cbn; [lia|]. intros k i. rewrite lookup_insert_Some. intros [[_ [= <-]]|[_ Hk]]; [by left|eauto].
Qed.

Lemma write_handle_moves fs h bytes h' fs' : write_handle fs h bytes = Ok (h', fs') ->
  moves fs fs' /\ h'.(h_ino) = h.(h_ino) /\ fs'.(next_ino) = fs.(next_ino).
Proof. unfold write_handle. destruct (h_mode h); intros [= <- <-]. split; [by apply moves_fewer|done]. Qed.

Lemma fs_write_moves fs s bytes : wf fs -> moves fs (fs_ok fs (fs_write fs s bytes)).
Proof.
  intros Hw. unfold fs_write. destruct (open_write fs true s) as [[h fs1]|] eqn:E; [|apply moves_refl].
  apply open_write_moves in E as [H1 _]; [|done].
  destruct (write_handle fs1 h bytes) as [[h2 fs2]|] eqn:E2; [|apply moves_refl]. cbn.
  apply write_handle_moves in E2 as [H2 _]. by eapply moves_trans.
Qed.

(** ** Renaming the finished download *)

Lemma normals_inj (a b : list string) : Normal <$> a = Normal <$> b -> a = b.
Proof. revert b. induction a as [|x a IH]; intros [|y b]; cbn; try done. intros [= -> H]. f_equal. by apply IH. Qed.

(** A name and the same name with a suffix stand beside each other. *)
Lemma suffix_sibling fs base rb path suf d1 d2 : suf ∈ suffixes ->
  tgt fs base rb d1 (path ++ suf) -> tgt fs base rb d2 path ->
  exists d x, d1 = d ++ [x] /\ (d2 = d \/ exists y, d2 = d ++ [y]).
Proof.
  intros Hs [_ S1 [_ P1]] [_ _ [_ P2]].
  assert (Hsuf : str_any is_slash suf = false /\ (2 < String.length suf)%nat).
  { unfold suffixes in Hs. apply elem_of_cons in Hs as [->| ->%list_elem_of_singleton]; cbn; split; (done || lia). }
  destruct Hsuf as [Hs1 Hs2]. destruct (relative_suffix path suf Hs1 Hs2) as (init & l & E1 & E2).
  rewrite P1 in E1. rewrite P2 in E2. destruct d1 as [|x d _] using rev_ind; [done|].
  exists d, x. split; [done|]. rewrite fmap_app, app_assoc in E1. apply app_inj_tail in E1 as [<- _].
  rewrite <- app_assoc in E2. apply app_inv_head in E2. destruct (comp_of l) as [c|]; cbn in E2.
  - right. apply fmap_app_inv in E2 as (e1 & e2 & H1 & H2 & ->). destruct e2 as [|y [|]]; try done.
    exists y. by rewrite (normals_inj _ _ H1).
  - left. rewrite app_nil_r in E2. by apply normals_inj.
Qed.

Lemma rename_moves fs base rb path suf d1 d2 : wf fs -> base_ok fs base rb -> suf ∈ suffixes ->
  tgt fs base rb d1 (path ++ suf) -> tgt fs base rb d2 path -> moves fs (fs_ok fs (rename fs (path ++ suf) path)).
Proof.
  intros Hw Hb Hs T1 T2. destruct (suffix_sibling _ _ _ _ _ _ _ Hs T1 T2) as (d & x & -> & Hd2).
  destruct T1 as [L1 S1 P1], T2 as [L2 S2 P2]. unfold rename.
  destruct (resolve fs false (path ++ suf)) as [a|] eqn:E1; [|destruct (resolve fs false path); apply moves_refl].
  destruct (resolve fs false path) as [b|] eqn:E2; [|apply moves_refl].
  destruct (resolve_tgt _ _ _ _ _ _ _ Hb L1 S1 P1 E1) as (-> & Hb1 & Hp1).
  destruct (resolve_tgt _ _ _ _ _ _ _ Hb L2 S2 P2 E2) as (-> & Hb2 & Hp2).
  rewrite !(node_at_below rb) by done. rewrite app_assoc, removelast_last in Hp1.
  destruct (nodes fs !! (rb ++ d ++ [x])) as [n|] eqn:En1; [|destruct (nodes fs !! (rb ++ d2)) as [[]|]; apply moves_refl].
  destruct Hd2 as [-> | [y ->]].
  - rewrite (node_at_below rb) in Hp1 by done. rewrite Hp1. destruct n; apply moves_refl.
  - assert (Hm : moves fs (set_nodes fs (<[rb ++ d ++ [y] := n]> (delete (rb ++ d ++ [x]) (nodes fs))))).
    { split; [done|]. intros k i. cbn. rewrite lookup_insert_Some, lookup_delete_Some.
      intros [[<- ->]|[_ [_ Hk]]]; right; [exists (rb ++ d ++ [x])|by exists k].
      split; [done|]. by rewrite !app_assoc, !removelast_last. }
    destruct n, (nodes fs !! (rb ++ d ++ [y])) as [[]|]; cbn; apply moves_refl || done.
Qed.

(** ** The operations of a job *)

Section Ops.
Context (base : string) (rb : rpath) (zstd_decode : list Z -> option (list Z)) (digest_json : FileDigest -> list Z).

(** The file a job writes to has a number of its own. *)
Definition ino_ok (fs : Fs) (j : TransferJob) : Prop :=
  match j.(data_stream) with
  | Some (FileStream h) => h.(h_mode) = MWrite -> (h.(h_ino) < fs.(next_ino))%nat
  | _ => True
  end.

Lemma ino_ok_moves fs fs' j : moves fs fs' -> ino_ok fs j -> ino_ok fs' j.
Proof. intros [N _]. unfold ino_ok. destruct (data_stream j) as [[h|]|]; try done. intros H Hm%H. lia. Qed.

Lemma entry_name fs j e : job_ok fs base rb j -> cur_file j = Some e -> e.(name) <> ""%string.
Proof. intros Hok Hc. apply zget_elem in Hc. by apply (proj1 (Forall_forall _ _) (ok_names _ _ _ _ Hok)) in Hc. Qed.

Lemma modify_time_moves fs j : job_ok fs base rb j -> moves fs (modify_time fs j).
Proof.
  intros Hok. unfold modify_time, resolve_entry_path. rewrite (ok_type _ _ _ _ Hok), (ok_source _ _ _ _ Hok). cbn [is_generic negb].
  destruct (cur_file j) as [e|] eqn:Hc; [|apply moves_refl].
  destruct (join_validated_path fs base (name e)) as [path|] eqn:Hj; [|apply moves_refl].
  destruct (entry_paths base rb fs j (name e) path Hok (entry_name _ _ _ Hok Hc) Hj) as ([dl Hdl] & [dg Hdg] & Hpath & _).
  destruct Hok as [Hw Hb Hns _ _ _ _].
  pose proof (remove_file_inside fs base rb Hb _ _ Hdg) as H1. eapply moves_trans; [apply remove_file_moves|].
  set (fs1 := fs_ok fs (remove_file fs (digest_path path))) in *.
  pose proof (in_wf _ _ _ H1 Hw) as Hw1. pose proof (inside_base _ _ _ _ H1 Hb) as Hb1.
  eapply moves_trans; [|apply set_file_mtime_moves]. destruct Hpath as [[d Hp]|Hst].
  - eapply (rename_moves fs1 base rb path ".download"); [done|done|unfold suffixes; by left|..]; by eapply inside_tgt.
  - destruct (Hst fs1 Hb1) as [_ Hr1]. rewrite (rename_dir_noop fs1 _ _ rb) by (done || apply Hb1). apply moves_refl.
Qed.

Lemma remove_download_moves fs j : moves fs (remove_download_file fs j).
Proof.
  unfold remove_download_file. destruct (negb _); [apply moves_refl|]. destruct (data_source j); [|apply moves_refl].
  destruct (cur_file j) as [e|]; [|apply moves_refl]. destruct (resolve_entry_path _ _ _ _); [|apply moves_refl].
  eapply moves_trans; apply remove_file_moves.
Qed.

Lemma write_payload_moves fs j block wr r j' fs' : ino_ok fs j ->
  write_payload zstd_decode fs j block wr = (r, j', fs') -> moves fs fs' /\ ino_ok fs' j'.
Proof.
  intros Hi. unfold write_payload. destruct (data_stream j) as [ds|] eqn:Hd;
    [|intros [= _ <- <-]; split; [apply moves_refl|done]].
  destruct (io_write wr); [|intros [= _ <- <-]; split; [apply moves_refl|done]]. cbn [negb].
  destruct ds as [h|data pos]; cbn [stream_write].
  - destruct (write_handle fs h _) as [[h' fs1]|] eqn:E; cbn [rbind]; intros [= _ <- <-]; [|split; [apply moves_refl|done]].
    assert (Hm : h_mode h = MWrite) by (unfold write_handle in E; by destruct (h_mode h)).
    apply write_handle_moves in E as (H1 & H2 & H3). split; [done|]. unfold ino_ok in *. rewrite Hd in Hi. cbn. rewrite H2, H3. auto.
  - intros [= _ <- <-]. split; [apply moves_refl|done].
Qed.

Lemma open_target_moves fs j block wr r j' fs' : job_ok fs base rb j -> ino_ok fs j ->
  open_target digest_json fs j base block wr = (r, j', fs') -> moves fs fs' /\ ino_ok fs' j'.
Proof.
  intros Hok0 Hi0. unfold open_target. pose proof (modify_time_inside base rb fs j Hok0) as H1.
  pose proof (modify_time_moves fs j Hok0) as M1. pose proof (job_ok_inside _ _ _ _ _ H1 Hok0) as Hok.
  pose proof (ino_ok_moves _ _ _ M1 Hi0) as Hi. set (fs1 := modify_time fs j) in *.
  destruct (match data_stream j with Some (FileStream _) => _ | _ => _ end); [intros [= _ <- <-]; by split|].
  set (j1 := with_num_stream j (b_file_num block) (data_stream j)). assert (Hi1 : ino_ok fs1 j1) by done.
  destruct (cur_file j1) as [e|] eqn:Hc; [|intros [= _ <- <-]; by split].
  change (type j1) with (type j). rewrite (ok_type _ _ _ _ Hok).
  destruct (join_validated_path fs1 base (name e)) as [path|] eqn:Hj; cbn [rbind]; [|intros [= _ <- <-]; by split].
  assert (Hok1 : job_ok fs1 base rb j1) by (eapply job_ok_update; [done..|by apply (ok_stream _ _ _ _ Hok)]).
  destruct (entry_paths base rb fs1 j1 (name e) path Hok1 (entry_name _ _ _ Hok1 Hc) Hj) as ([dl Hdl] & [dg Hdg] & _ & Hpar).
  set (fs2 := match parent (components path) with Some pp => create_dir_all fs1 pp | None => fs1 end) in *.
  assert (M2 : moves fs1 fs2) by (unfold fs2; destruct (parent _); [apply create_dir_all_moves|apply moves_refl]).
  assert (H2 : inside rb fs1 fs2). { unfold fs2. destruct (parent (components path)); [by apply Hpar|apply inside_refl]. }
  set (removed := if exists_ fs2 (digest_path path) then remove_file fs2 (digest_path path) else Ok fs2).
  assert (M3 : moves fs2 (fs_ok fs2 removed)) by (unfold removed; destruct (exists_ _ _); [apply remove_file_moves|apply moves_refl]).
  assert (H3 : inside rb fs2 (fs_ok fs2 removed)).
  { unfold removed. destruct (exists_ _ _); [|apply inside_refl].
    eapply remove_file_inside; [by eapply inside_base; [|apply Hok]|by eapply inside_tgt]. }
  assert (M12 : moves fs fs2) by (eapply moves_trans; [exact M1|exact M2]).
  destruct removed as [fs3|]; [|intros [= _ <- <-]; split; [done|by eapply (ino_ok_moves fs1)]]. cbn [fs_ok] in M3, H3.
  assert (M123 : moves fs fs3) by (eapply moves_trans; [exact M12|exact M3]).
  assert (M13 : moves fs1 fs3) by (eapply moves_trans; [exact M2|exact M3]).
  assert (Hw3 : wf fs3) by (eapply in_wf; [exact H3|]; eapply in_wf; [exact H2|apply Hok]).
  destruct (open_write fs3 true (download_path path)) as [[h fs4]|] eqn:Eo; [|intros [= _ <- <-]; split; [done|by eapply (ino_ok_moves fs1)]].
  assert (Hdl3 : tgt fs3 base rb dl (download_path path)) by exact (inside_tgt _ _ _ _ _ _ H3 (inside_tgt _ _ _ _ _ _ H2 Hdl)).
  assert (Hb3 : base_ok fs3 base rb) by (eapply inside_base; [exact H3|]; eapply inside_base; [exact H2|apply Hok]).
  destruct (open_write_inside fs3 base rb Hw3 Hb3 _ _ _ _ _ Hdl3 Eo) as (H4 & _).
  apply open_write_moves in Eo as [M4 Hh]; [|done].
  intros [= _ <- <-]. pose proof (in_wf _ _ _ H4 Hw3) as Hw4.
  match goal with |- context [fs_write fs4 ?a ?b] => pose proof (fs_write_moves fs4 a b Hw4) as M5 end.
  split; [eapply moves_trans; [exact M123|]; eapply moves_trans; [exact M4|exact M5]|].
  eapply ino_ok_moves; [exact M5|]. unfold ino_ok. cbn. done.
Qed.

Lemma write_moves fs j block wr r j' fs' : job_ok fs base rb j -> ino_ok fs j ->
  write zstd_decode digest_json fs j block wr = (r, j', fs') -> moves fs fs' /\ ino_ok fs' j'.
Proof.
  intros Hok Hi. unfold write. destruct (negb _); [intros [= _ <- <-]; split; [apply moves_refl|done]|].
  rewrite (ok_source _ _ _ _ Hok). destruct (_ <=? _); [intros [= _ <- <-]; split; [apply moves_refl|done]|].
  destruct (_ || _); [|by apply write_payload_moves].
  destruct (open_target digest_json fs j base block wr) as [[r1 j1] fs1] eqn:E.
  apply open_target_moves in E as [M1 Hi1]; [|done..].
  destruct r1; [|intros [= _ <- <-]; by split].
  intros H. apply write_payload_moves in H as [M2 Hi2]; [|done]. split; [by eapply moves_trans|done].
Qed.

Lemma confirm_moves fs j r j' fs' : job_ok fs base rb j -> ino_ok fs j ->
  confirm fs j r = (j', fs') -> moves fs fs' /\ ino_ok fs' j'.
Proof.
  intros Hok Hi. unfold confirm. destruct (negb _); [intros [= <- <-]; split; [apply moves_refl|done]|].
  destruct (c_union r) as [[]|off|]; try (intros [= <- <-]; split; [apply moves_refl|done]).
  destruct (0 <? off); [|intros [= <- <-]; split; [apply moves_refl|done]].
  set (j1 := set_file_confirmed j true). assert (Hi1 : ino_ok fs j1) by done. unfold set_stream_offset.
  change (data_source j1) with (data_source j). change (files j1) with (files j). rewrite (ok_source _ _ _ _ Hok).
  destruct (_ <=? _); [intros [= <- <-]; split; [apply moves_refl|done]|].
  destruct (zget (files j) _) as [e|]; [|intros [= <- <-]; split; [apply moves_refl|done]].
  destruct (resolve_entry_path fs j1 base (name e)) as [path|]; [|intros [= <- <-]; split; [apply moves_refl|done]].
  destruct (_ && _).
  - destruct (open_write fs false (download_path path)) as [[h fs1]|] eqn:Eo; [|intros [= <- <-]; split; [apply moves_refl|done]].
    apply open_write_moves in Eo as [M1 Hh]; [|apply Hok]. intros [= <- <-]. split; [done|]. unfold ino_ok. by cbn.
  - destruct (exists_ fs path); [|intros [= <- <-]; split; [apply moves_refl|done]].
    destruct (open_read fs path) as [h|] eqn:Eo; intros [= <- <-]; (split; [apply moves_refl|]); [|done].
    unfold ino_ok. cbn. intros Hm. by apply open_read_mode in Eo.
Qed.

End Ops.

(** ** Beside each other *)

Lemma base_other rb rb' fs fs' base : inside rb' fs fs' -> base_ok fs base rb -> base_ok fs' base rb.
Proof.
  intros H [A R D]. split; [done| |by eapply inside_dir].
  eapply resolve_mono; [apply (in_dirs _ _ _ H)|apply (in_links _ _ _ H)|done|done].
Qed.
Lemma nosuf_other rb rb' fs fs' : inside rb' fs fs' -> nosuf fs rb -> nosuf fs' rb.
Proof. intros H Hn segs l suf t Hs. rewrite (in_links _ _ _ H). by apply Hn. Qed.

(** A job keeps its conditions when another one acts in its directory. *)
Lemma job_ok_other fs fs' base rb rb' j : inside rb' fs fs' -> moves fs fs' -> job_ok fs base rb j -> ino_ok fs j ->
  job_ok fs' base rb j.
Proof.
  intros Hi Hm Hok Hio. pose proof (in_wf _ _ _ Hi (ok_wf _ _ _ _ Hok)) as Hw'. split;
    [done|exact (base_other _ _ _ _ _ Hi (ok_base _ _ _ _ Hok))|exact (nosuf_other _ _ _ _ Hi (ok_nosuf _ _ _ _ Hok))|apply Hok|apply Hok|apply Hok|].
  - pose proof (ok_stream _ _ _ _ Hok) as Hs. unfold ino_ok in Hio. destruct (data_stream j) as [[h|]|]; try done.
    intros Hmd k Hk. apply (mv_names _ _ Hm) in Hk as Hk0. destruct Hk0 as [Hge|(k0 & Hk0 & E)]; [specialize (Hio Hmd); lia|].
    apply (Hs Hmd) in Hk0 as (c & cs & ->). destruct k as [|z k _] using rev_ind; [by rewrite (wf_root _ Hw') in Hk|].
    rewrite removelast_last, removelast_app in E by done. rewrite <- E, <- app_assoc. apply below_snoc.
Qed.

End Share.
