(* ===== verification/FsWalk.v ===== *)
(** The directory walk of a file transfer: [read_dir] and [read_dir_recursive] of
    [libs/base/src/fs.rs] (Unix), and [TransferJob::new_read].

    The operating system lists a directory in an order of its own; here it is the order of
    the table.  The modification time of directories and links is not in the file-system
    model and is reported as 0; only entries of regular files are transferred. *)

From Stdlib Require Import Ascii.
From S2P Require Import Prelude PathFs FsJob FsSend FsSafe.
Import Path Fs PathFacts FsFacts Names Job Safe.

Module Walk.

(** The names in the directory [p], with what they name. *)
Definition children (fs : Fs) (p : rpath) : list string :=
  omap (fun e : rpath * Node => match last e.1 with
    | Some c => if bool_decide (removelast e.1 = p) then Some c else None
    | None => None
    end) (map_to_list fs.(nodes)).

Definition is_dot (a : ascii) : bool := Ascii.eqb a ".".

(** One iteration of the loop of [read_dir]. *)
Definition dir_entry (fs : Fs) (path : string) (include_hidden : bool) (c : string) : option FileEntry :=
  if is_empty c then None else
  let p := join path c in
  match lstat fs p with
  | Err _ => None
  | Ok meta =>
    let is_hidden := starts_with is_dot c in
    if is_hidden && negb include_hidden then None else
    let is_symlink := match meta with NLink _ => true | _ => false end in
    let '(entry_type, size) :=
      if is_dir fs p then (if is_symlink then DirLink else Dir, 0)
      else if is_symlink then (FileLink, 0)
      else (Names.File, match meta with NFile i => zlen (inode_data fs i) | _ => 0 end) in
    let modified_time := match meta with
      | NFile i => match fs.(inodes) !! i with Some x => Z.max x.(i_mtime) 0 | None => 0 end
      | _ => 0 end in
    Some (mkEntry entry_type c is_hidden size modified_time)
  end.

Definition read_dir (fs : Fs) (path : string) (include_hidden : bool) : result (list FileEntry) IoErr :=
  match resolve fs true path with
  | Err e => Err e
  | Ok p =>
    match node_at fs p with
    | Some NDir => Ok (omap (dir_entry fs path include_hidden) (children fs p))
    | Some _ => Err OtherErr
    | None => Err NotFound
    end
  end.

Definition rename_entry (e : FileEntry) (n : string) : FileEntry :=
  mkEntry e.(entry_type) n e.(is_hidden) e.(size) e.(modified_time).

(** [fuel] bounds the depth; [walk_complete] shows that one more than the longest name in the
    table is enough. *)
Fixpoint read_dir_recursive (fuel : nat) (fs : Fs) (path prefix : string) (include_hidden : bool)
    : result (list FileEntry) IoErr :=
  match fuel with
  | O => Err OtherErr
  | S fuel =>
    if is_dir fs path then
      rbind (read_dir fs path include_hidden) (fun entries =>
      Ok (concat ((fun entry =>
        match entry.(entry_type) with
        | Names.File => [rename_entry entry (join prefix entry.(name))]
        | Dir =>
          match read_dir_recursive fuel fs (join path entry.(name)) (join prefix entry.(name)) include_hidden with
          | Ok tmp => tmp
          | Err _ => []
          end
        | _ => []
        end) <$> entries)))
    else if is_file fs path then
      let '(size, modified_time) :=
        match metadata fs path with
        | Ok meta => (zlen meta.(i_data), Z.max meta.(i_mtime) 0)
        | Err _ => (0, 0)
        end in
      Ok [mkEntry Names.File "" false size modified_time]
    else Err NotFound
  end.

Definition get_recursive_files (fuel : nat) (fs : Fs) (path : string) (include_hidden : bool) : result (list FileEntry) IoErr :=
  read_dir_recursive fuel fs path "" include_hidden.

(** [TransferJob::new_read] *)
Definition new_read (fuel : nat) (fs : Fs) (id : Z) (t : JobType) (src : DataSource) (file_num : Z) (show_hidden eod : bool)
    : result TransferJob IoErr :=
  match src with
  | FilePath p =>
    rbind (get_recursive_files fuel fs p show_hidden) (fun files =>
    Ok (new_job id t src file_num files (sum_sizes files) eod))
  | MemoryCursor c => Ok (new_job id t src file_num [] (zlen c) eod)
  end.

End Walk.

Module WalkFacts.
Import Walk.

(** Every name in the table is a path component. *)
Definition names_ok (fs : Fs) : Prop :=
  forall p c, is_Some (fs.(nodes) !! (p ++ [c])) -> str_any is_slash c = false /\ comp_of c = Some (Normal c).

Lemma elem_children fs p c : wf fs -> c ∈ children fs p <-> is_Some (fs.(nodes) !! (p ++ [c])).
Proof.
  intros Hw. unfold children. rewrite list_elem_of_omap. split.
  - intros ([k n] & Hk%elem_of_map_to_list & He). cbn in He.
    destruct k as [|k x _] using rev_ind; [done|]. rewrite last_snoc, removelast_last in He.
    case_bool_decide; simplify_eq. eauto.
  - intros [n Hn]. exists (p ++ [c], n). split; [by apply elem_of_map_to_list|]. cbn.
    by rewrite last_snoc, removelast_last, bool_decide_eq_true_2.
Qed.

Lemma NoDup_children fs p : wf fs -> NoDup (children fs p).
Proof.
  intros Hw. unfold children. pose proof (NoDup_fst_map_to_list fs.(nodes)) as Hnd.
  induction (map_to_list (nodes fs)) as [|[k n] l IH]; [constructor|]. cbn [fmap list_fmap] in Hnd.
  apply NoDup_cons in Hnd as [Hk Hnd]. specialize (IH Hnd). cbn [omap list_omap fst].
  destruct k as [|k x _] using rev_ind; [done|]. rewrite last_snoc, removelast_last.
  case_bool_decide as Hp; [|done]. constructor; [|done]. rewrite list_elem_of_omap.
  intros ([k' n'] & Hin & He). cbn in He. destruct k' as [|k' x' _] using rev_ind; [done|].
  rewrite last_snoc, removelast_last in He. case_bool_decide; simplify_eq. apply Hk.
  apply list_elem_of_fmap. eexists (_, n'). split; [|exact Hin]. done.
Qed.

(** A component of a directory, as a path. *)
Lemma child_path fs path rp c : base_ok fs path rp -> str_any is_slash c = false -> comp_of c = Some (Normal c) ->
  is_absolute (join path c) = true /\ components (join path c) = RootDir :: relative path ++ [Normal c] /\
  relative (join path c) = relative path ++ [Normal c] /\ trailing_dir (join path c) = false.
Proof.
  intros Hb H1 H2. destruct (relative_one c H1 H2) as [Hr Ha].
  destruct (relative_join path c (base_abs _ _ _ Hb) Ha) as [J1 J2]. rewrite Hr in J2.
  split_and!; [done|by rewrite components_absolute, J2|done|].
  unfold trailing_dir. rewrite last_split_join; [|done|by intros ->|intros ->; by apply base_abs in Hb].
  rewrite split_one by done. cbn. unfold comp_of in H2. by destruct (bool_decide (c = _ \/ _)).
Qed.

Lemma child_resolve fs path rp c fo : base_ok fs path rp -> str_any is_slash c = false -> comp_of c = Some (Normal c) ->
  exists l, resolve_from MAXSYMLINKS fs fo [] (relative path ++ [Normal c]) = resolve_from l fs fo rp [Normal c].
Proof. intros [A R D] H1 H2. by apply resolve_from_app. Qed.

Lemma lstat_child fs path rp c n : base_ok fs path rp -> str_any is_slash c = false -> comp_of c = Some (Normal c) ->
  fs.(nodes) !! (rp ++ [c]) = Some n -> lstat fs (join path c) = Ok n.
Proof.
  intros Hb H1 H2 Hn. destruct (child_path _ _ _ _ Hb H1 H2) as (_ & Hc & _ & Ht).
  destruct (child_resolve _ _ _ _ false Hb H1 H2) as [l Hl].
  unfold lstat, resolve. rewrite Ht, Hc, resolve_comps_absolute. cbn [orb]. rewrite Hl, resolve_from_normal, Hn.
  destruct n; [rewrite resolve_from_nil| |]; cbn; unfold lookup_node; by rewrite node_at_snoc, Hn.
Qed.

Lemma stat_child fs path rp c n : base_ok fs path rp -> str_any is_slash c = false -> comp_of c = Some (Normal c) ->
  fs.(nodes) !! (rp ++ [c]) = Some n -> (forall t, n <> NLink t) -> stat fs (join path c) = Ok n.
Proof.
  intros Hb H1 H2 Hn Hnl. destruct (child_path _ _ _ _ Hb H1 H2) as (_ & Hc & _ & Ht).
  destruct (child_resolve _ _ _ _ true Hb H1 H2) as [l Hl].
  unfold stat, stat_comps. rewrite Hc, resolve_comps_absolute, Hl, resolve_from_normal, Hn.
  destruct n as [|t|]; [rewrite resolve_from_nil|by destruct (Hnl t)|]; cbn; unfold lookup_node; by rewrite node_at_snoc, Hn.
Qed.

Lemma base_child fs path rp c : base_ok fs path rp -> str_any is_slash c = false -> comp_of c = Some (Normal c) ->
  fs.(nodes) !! (rp ++ [c]) = Some NDir -> base_ok fs (join path c) (rp ++ [c]).
Proof.
  intros Hb H1 H2 Hn. destruct (child_path _ _ _ _ Hb H1 H2) as (Ha & _ & Hr & _).
  destruct (child_resolve _ _ _ _ true Hb H1 H2) as [l Hl].
  split; [done| |by rewrite node_at_snoc]. by rewrite Hr, Hl, resolve_from_normal, Hn, resolve_from_nil.
Qed.

Lemma base_stat fs path rp : base_ok fs path rp -> is_dir fs path = true /\ forall fo, resolve fs (fo || true) path = Ok rp.
Proof.
  intros [A R D]. unfold is_dir, stat, stat_comps, resolve. rewrite components_absolute by done.
  rewrite resolve_comps_absolute, R. cbn [rbind]. unfold lookup_node. rewrite D. split; [done|]. intros fo.
  by rewrite orb_true_r, resolve_comps_absolute.
Qed.

(** The name the walk gives to the file [segs] below the start. *)
Definition rel_name (prefix : string) (segs : list string) : string := foldl join prefix segs.
Definition visible (include_hidden : bool) (segs : list string) : Prop :=
  include_hidden = true \/ Forall (fun c => starts_with is_dot c = false) segs.
Definition file_entry (fs : Fs) (n c : string) (i : nat) : FileEntry :=
  mkEntry Names.File n (starts_with is_dot c) (zlen (inode_data fs i))
    (match fs.(inodes) !! i with Some x => Z.max x.(i_mtime) 0 | None => 0 end).

(** What [read_dir] reports for a name. *)
Lemma dir_entry_spec fs path rp c n h : base_ok fs path rp -> str_any is_slash c = false -> comp_of c = Some (Normal c) ->
  fs.(nodes) !! (rp ++ [c]) = Some n ->
  match dir_entry fs path h c with
  | None => starts_with is_dot c = true /\ h = false
  | Some e => e.(name) = c /\ (starts_with is_dot c = false \/ h = true) /\
      (e.(entry_type) = Names.File <-> exists i, n = NFile i) /\ (e.(entry_type) = Dir <-> n = NDir) /\
      (forall i, n = NFile i -> e = file_entry fs c c i)
  end.
Proof.
  intros Hb H1 H2 Hn. unfold dir_entry, is_empty. rewrite bool_decide_eq_false_2 by (by intros ->).
  rewrite (lstat_child _ _ _ _ _ Hb H1 H2 Hn).
  destruct (starts_with is_dot c && negb h) eqn:Eh; [apply andb_true_iff in Eh as [? ?%negb_true_iff]; done|].
  assert (Hv : starts_with is_dot c = false \/ h = true) by (destruct (starts_with is_dot c), h; auto).
  unfold is_dir. destruct n as [|t|i].
  - rewrite (stat_child _ _ _ _ _ Hb H1 H2 Hn) by done. cbn. split_and!; try done. split; [done|by intros [? ?]].
  - destruct (match stat fs (join path c) with Ok NDir => true | _ => false end); cbn; split_and!; try done; split; try done; by intros [? ?].
  - rewrite (stat_child _ _ _ _ _ Hb H1 H2 Hn) by done. cbn. split_and!; try done; [split; eauto|]. intros ? [= <-]. done.
Qed.

(** The walk finds exactly the visible files below the directory, with their relative names. *)
Lemma walk_spec fuel : forall fs path prefix rp h, wf fs -> names_ok fs -> base_ok fs path rp ->
  (forall k, is_Some (fs.(nodes) !! k) -> (length k < length rp + fuel)%nat) -> (0 < fuel)%nat ->
  exists files, read_dir_recursive fuel fs path prefix h = Ok files /\
  forall e, e ∈ files <-> exists segs c i, fs.(nodes) !! (rp ++ segs ++ [c]) = Some (NFile i) /\ visible h (segs ++ [c]) /\
    e = file_entry fs (rel_name prefix (segs ++ [c])) c i.
Proof.
  induction fuel as [|fuel IH]; [lia|]. intros fs path prefix rp h Hw Hno Hb Hfuel _. cbn [read_dir_recursive].
  destruct (base_stat fs path rp Hb) as [-> Hres]. unfold read_dir. rewrite (Hres true : resolve fs true path = _), (base_dir _ _ _ Hb). cbn [rbind].
  eexists. split; [done|]. intros e. rewrite list_elem_of_In, in_concat. setoid_rewrite <- list_elem_of_In. split.
  - intros (l & (x & -> & Hx)%list_elem_of_fmap & He). apply list_elem_of_omap in Hx as (c & Hc & Hx).
    apply (elem_children fs rp c Hw) in Hc as [n Hn]. destruct (Hno rp c ltac:(by rewrite Hn)) as [C1 C2].
    pose proof (dir_entry_spec fs path rp c n h Hb C1 C2 Hn) as Hd. rewrite Hx in Hd.
    destruct Hd as (Hnm & Hv & Hf & Hdr & Hent). destruct (entry_type x) eqn:Et; try (by apply elem_of_nil in He).
    + assert (n = NDir) as -> by (by apply Hdr). rewrite Hnm in He.
      assert (Hf1 : (0 < fuel)%nat).
      { specialize (Hfuel (rp ++ [c]) ltac:(by rewrite Hn)). rewrite length_app in Hfuel. cbn in Hfuel. lia. }
      destruct (IH fs (join path c) (join prefix c) (rp ++ [c]) h Hw Hno (base_child _ _ _ _ Hb C1 C2 Hn)) as (tmp & Htmp & Hspec); [|done|].
      { intros k Hk%Hfuel. rewrite length_app. cbn. lia. }
      rewrite Htmp in He. apply Hspec in He as (segs & c' & i & Hi & Hvis & ->).
      exists (c :: segs), c', i. split; [by rewrite <- app_assoc in Hi|]. split; [|done].
      destruct Hvis as [?|Hvis]; [by left|]. destruct Hv as [Hv|?]; [|by left]. right. by constructor.
    + assert (exists i, n = NFile i) as [i ->] by (by apply Hf). apply list_elem_of_singleton in He as ->.
      exists [], c, i. split; [done|]. split.
      * destruct Hv as [Hv|?]; [|by left]. right. by repeat constructor.
      * rewrite (Hent i eq_refl) at 1. unfold rename_entry. by rewrite Hnm.
  - intros (segs & c & i & Hn & Hvis & ->).
    destruct segs as [|d segs].
    + cbn [app] in *. destruct (Hno rp c ltac:(by rewrite Hn)) as [C1 C2].
      pose proof (dir_entry_spec fs path rp c _ h Hb C1 C2 Hn) as Hd.
      destruct (dir_entry fs path h c) as [x|] eqn:Ex.
      * destruct Hd as (Hnm & _ & Hf & _ & Hent). exists [file_entry fs (rel_name prefix [c]) c i]. split; [|by left].
        apply list_elem_of_fmap. exists x. rewrite (Hent i eq_refl). split; [done|].
        apply list_elem_of_omap. exists c. split; [apply elem_children; eauto|]. by rewrite Ex, (Hent i eq_refl).
      * destruct Hd as [Hd1 Hd2]. destruct Hvis as [Hvis|Hvis]; [congruence|]. apply Forall_cons in Hvis as [Hvis _]. congruence.
    + assert (Hdn : fs.(nodes) !! (rp ++ [d]) = Some NDir).
      { assert (Hg : forall b, b <> [] -> is_Some (fs.(nodes) !! ((rp ++ [d]) ++ b)) -> node_at fs (rp ++ [d]) = Some NDir).
        { intros b. induction b as [|y b IHb] using rev_ind; [done|]. intros _ Hs. rewrite app_assoc in Hs.
          apply (wf_parent _ Hw) in Hs. destruct b as [|z b]; [by rewrite app_nil_r in Hs|]. apply IHb; [done|].
          assert (E : node_at fs ((rp ++ [d]) ++ z :: b) = nodes fs !! ((rp ++ [d]) ++ z :: b)) by (by destruct rp).
          rewrite E in Hs. by rewrite Hs. }
        rewrite <- node_at_snoc. apply (Hg (segs ++ [c])); [by destruct segs|]. rewrite <- app_assoc. cbn [app] in *. by rewrite Hn. }
      destruct (Hno rp d ltac:(by rewrite Hdn)) as [C1 C2].
      assert (Hf1 : (0 < fuel)%nat).
      { specialize (Hfuel _ ltac:(by rewrite Hn)). rewrite !length_app in Hfuel. cbn in Hfuel. lia. }
      destruct (IH fs (join path d) (join prefix d) (rp ++ [d]) h Hw Hno (base_child _ _ _ _ Hb C1 C2 Hdn)) as (tmp & Htmp & Hspec); [|done|].
      { intros k Hk%Hfuel. rewrite length_app. cbn. lia. }
      pose proof (dir_entry_spec fs path rp d _ h Hb C1 C2 Hdn) as Hd.
      destruct (dir_entry fs path h d) as [x|] eqn:Ex.
      * destruct Hd as (Hnm & _ & _ & Hdr & _). assert (Et : entry_type x = Dir) by (by apply Hdr).
        exists tmp. split.
        -- apply list_elem_of_fmap. exists x. rewrite Et, Hnm, Htmp. split; [done|].
           apply list_elem_of_omap. exists d. split; [apply elem_children; eauto|done].
        -- apply Hspec. exists segs, c, i. split; [by rewrite <- app_assoc|]. split; [|done].
           destruct Hvis as [?|Hvis]; [by left|]. right. by apply Forall_cons in Hvis as [_ ?].
      * destruct Hd as [Hd1 Hd2]. destruct Hvis as [Hvis|Hvis]; [congruence|]. apply Forall_cons in Hvis as [Hvis _]. congruence.
Qed.

(** The walk that makes a job's file list is complete and exact.  On a well-formed tree,
    with fuel for its depth, [new_read] on a directory lists exactly the regular files below
    it that can be reached through directories (never through a symbolic link, and not below
    or at a hidden name unless hidden files are asked for), each under its path relative to
    the start, with its size and time; and the job's total size is the sum, modulo 2^64. *)
Theorem walk_complete (fuel : nat) (fs : Fs) (path : string) (rp : rpath) (jid : Z) (h eod : bool) :
  wf fs -> names_ok fs -> base_ok fs path rp -> (0 < fuel)%nat ->
  (forall k, is_Some (fs.(nodes) !! k) -> (length k < length rp + fuel)%nat) ->
  exists j, new_read fuel fs jid Generic (FilePath path) 0 h eod = Ok j /\
    j.(total_size) = sum_sizes j.(files) /\
    forall e, e ∈ j.(files) <-> exists segs c i,
      fs.(nodes) !! (rp ++ segs ++ [c]) = Some (NFile i) /\ visible h (segs ++ [c]) /\
      e = file_entry fs (rel_name "" (segs ++ [c])) c i.
Proof.
  intros Hw Hno Hb Hf Hd. destruct (walk_spec fuel fs path "" rp h Hw Hno Hb Hd Hf) as (files & Hr & Hs).
  unfold new_read, get_recursive_files. rewrite Hr. by eexists.
Qed.

(** [/src] with a file, a hidden one, a directory with a file, and a link to it. *)
Definition walk_fs : Fs := tree
  [(["src"], NDir); (["src"; "a"], NFile 0); (["src"; ".h"], NFile 1); (["src"; "d"], NDir);
   (["src"; "d"; "b"], NFile 2); (["src"; "l"], NLink "d")]%string
  [(0%nat, mkInode [1] 5); (1%nat, mkInode [2] 5); (2%nat, mkInode [3; 4] 6)].

Definition names_okb (fs : Fs) : bool :=
  forallb (fun e : rpath * Node => match last e.1 with
    | Some c => negb (str_any is_slash c) && (match comp_of c with Some (Normal _) => true | _ => false end)
    | None => true end) (map_to_list fs.(nodes)).

Lemma names_okb_ok fs : names_okb fs = true -> names_ok fs.
Proof.
  unfold names_okb. rewrite forallb_forall. intros H p c [n Hn]. specialize (H (p ++ [c], n)).
  rewrite <- list_elem_of_In, elem_of_map_to_list in H. apply H in Hn. cbn in Hn. rewrite last_snoc in Hn.
  apply andb_true_iff in Hn as [H1%negb_true_iff H2]. split; [done|].
  destruct (comp_of c) as [[]|] eqn:E; try done. by rewrite (comp_of_normal _ _ E).
Qed.

Lemma walk_complete_witness :
  exists j, new_read 3 walk_fs 1 Generic (FilePath "/src") 0 false false = Ok j /\ j.(total_size) = sum_sizes j.(files) /\
    file_entry walk_fs "d/b" "b" 2 ∈ j.(files).
Proof.
  destruct (walk_complete 3 walk_fs "/src" ["src"]%string 1 false false) as (j & H1 & H2 & H3).
  - apply wfb_wf. by vm_compute.
  - apply names_okb_ok. by vm_compute.
  - split; by vm_compute.
  - lia.
  - intros k [n Hn]. assert (Hl : Forall (fun e : rpath * Node => (length e.1 < 4)%nat) (map_to_list walk_fs.(nodes))).
    { apply (bool_decide_unpack _). by vm_compute. }
    rewrite Forall_forall in Hl. apply (Hl (k, n)). by apply elem_of_map_to_list.
  - exists j. split_and!; [done|done|]. apply H3. exists ["d"%string], "b"%string, 2%nat.
    split_and!; [by vm_compute|right; repeat constructor|by vm_compute].
Defined.

End WalkFacts.
