(* ===== verification/FsNames.v ===== *)
(** Which names a receiving job touches, and the job for a single file.

    [only P]: between two states of the disk only entries with [P] have changed.  A job changes
    only the names of its list, their two temporary names and the directories that lead to
    them.  A list of one file without a name means the path of the job itself; such a job does
    exactly what a job for that one name in the directory above does. *)

From Stdlib Require Import Ascii.
From S2P Require Import Prelude PathFs FsJob FsSafe FsSend FsTransfer FsRecv FsShare.
Import Path Fs PathFacts FsFacts Names Job Safe Share Receiver.

Module Only.

Record only (P : rpath -> Prop) (fs fs' : Fs) : Prop := mkOnly {
  on_nodes : forall k, P k \/ fs'.(nodes) !! k = fs.(nodes) !! k;
  on_inodes : forall k i, fs.(nodes) !! k = Some (NFile i) -> P k \/ fs'.(inodes) !! i = fs.(inodes) !! i }.

Lemma only_refl P fs : only P fs fs.
Proof. split; auto. Qed.

Lemma only_trans P a b c : only P a b -> only P b c -> only P a c.
Proof.
  intros [N1 I1] [N2 I2]. split.
  - intros k. destruct (N2 k) as [|E]; [by left|]. rewrite E. apply N1.
  - intros k i Hn. destruct (N1 k) as [|E]; [by left|]. rewrite <- E in Hn. destruct (I2 k i Hn) as [|E2]; [by left|].
    rewrite E2. rewrite E in Hn. by apply (I1 k).
Qed.

(** Files only at names with [P]: kept by any change of that kind. *)
Definition within (P : rpath -> Prop) (fs : Fs) (i : nat) : Prop := forall k, fs.(nodes) !! k = Some (NFile i) -> P k.

Lemma within_only P fs fs' i : only P fs fs' -> within P fs i -> within P fs' i.
Proof. intros [N _] H k Hk. destruct (N k) as [|E]; [done|]. apply H. by rewrite <- E. Qed.

Section Ops.
Context (P : rpath -> Prop).

Lemma delete_only fs k : P k -> only P fs (set_nodes fs (delete k fs.(nodes))).
Proof.
  intros Hk. split; cbn; [|auto]. intros k'. destruct (decide (k = k')) as [<-|]; [by left|right; by rewrite lookup_delete_ne].
Qed.

Lemma insert_only fs k n : P k -> only P fs (set_nodes fs (<[k := n]> fs.(nodes))).
Proof.
  intros Hk. split; cbn; [|auto]. intros k'. destruct (decide (k = k')) as [<-|]; [by left|right; by rewrite lookup_insert_ne].
Qed.

Lemma inode_only fs i x : within P fs i -> only P fs (set_inode fs i x).
Proof.
  intros Hi. split; cbn; [auto|]. intros k j Hj. destruct (decide (i = j)) as [<-|]; [left; by apply Hi|right; by rewrite lookup_insert_ne].
Qed.

Lemma remove_file_only fs s : (forall p, resolve fs false s = Ok p -> P p) -> only P fs (fs_ok fs (remove_file fs s)).
Proof.
  intros H. unfold remove_file. destruct (resolve fs false s) as [p|]; [|apply only_refl]. specialize (H p eq_refl).
  destruct (node_at fs p) as [[]|]; cbn; (apply only_refl || by apply delete_only).
Qed.

Lemma rename_only fs s t : (forall p, resolve fs false s = Ok p -> P p) -> (forall p, resolve fs false t = Ok p -> P p) ->
  only P fs (fs_ok fs (rename fs s t)).
Proof.
  intros Hs Ht. unfold rename. destruct (resolve fs false s) as [a|]; [|destruct (resolve fs false t); apply only_refl].
  destruct (resolve fs false t) as [b|]; [|apply only_refl]. specialize (Hs a eq_refl). specialize (Ht b eq_refl).
  assert (H : forall n, only P fs (set_nodes fs (<[b := n]> (delete a fs.(nodes))))).
  { intros n. eapply only_trans; [by apply (delete_only fs a)|]. exact (insert_only (set_nodes fs (delete a fs.(nodes))) b n Ht). }
  destruct (node_at fs a) as [[]|], (node_at fs b) as [[]|]; cbn; (apply only_refl || apply H).
Qed.

Lemma within_name fs k i : wf fs -> fs.(nodes) !! k = Some (NFile i) -> P k -> within P fs i.
Proof. intros Hw Hn Hk k' Hk'. by rewrite (wf_inj _ Hw _ _ _ Hk' Hn). Qed.

Lemma set_file_mtime_only fs s t : wf fs -> (forall p, resolve_comps fs true (components s) = Ok p -> P p) ->
  only P fs (fs_ok fs (set_file_mtime fs s t)).
Proof.
  intros Hw H. unfold set_file_mtime, stat, stat_comps. destruct (resolve_comps fs true (components s)) as [p|]; [|apply only_refl].
  specialize (H p eq_refl). cbn [rbind]. unfold lookup_node. destruct (node_at fs p) as [[| |i]|] eqn:En; cbn; try apply only_refl.
  apply inode_only. destruct p as [|x p]; [done|]. by eapply within_name.
Qed.

Lemma open_write_only fs trunc s h fs' : wf fs -> (forall p, resolve fs true s = Ok p -> P p) -> open_write fs trunc s = Ok (h, fs') ->
  only P fs fs' /\ within P fs' h.(h_ino).
Proof.
  intros Hw H. unfold open_write. destruct (resolve fs true s) as [p|]; [|done]. specialize (H p eq_refl).
  destruct (node_at fs p) as [[|t|i]|] eqn:En; intros [= <- <-].
  - assert (Hi : within P fs i). { destruct p as [|x p]; [done|]. by eapply within_name. }
    destruct trunc; cbn; [|by split; [apply only_refl|]]. split; [by apply inode_only|done].
  - cbn. split.
    + split; cbn; [intros k; destruct (decide (p = k)) as [<-|]; [by left|right; by rewrite lookup_insert_ne]|]. intros k i Hi.
      right. rewrite lookup_insert_ne; [done|]. intros <-. apply (wf_ino _ Hw) in Hi. lia.
    + intros k. cbn. rewrite lookup_insert_Some. intros [[<- _]|[_ Hk]]; [done|]. apply (wf_ino _ Hw) in Hk. lia.
Qed.

Lemma write_handle_only fs h bytes h' fs' : within P fs h.(h_ino) -> write_handle fs h bytes = Ok (h', fs') ->
  only P fs fs' /\ within P fs' h'.(h_ino).
Proof. intros Hi. unfold write_handle. destruct (h_mode h); intros [= <- <-]. split; [by apply inode_only|done]. Qed.

Lemma fs_write_only fs s bytes : wf fs -> (forall p, resolve fs true s = Ok p -> P p) -> only P fs (fs_ok fs (fs_write fs s bytes)).
Proof.
  intros Hw H. unfold fs_write. destruct (open_write fs true s) as [[h fs1]|] eqn:E; [|apply only_refl].
  apply open_write_only in E as [H1 Hi]; [|done..].
  destruct (write_handle fs1 h bytes) as [[h2 fs2]|] eqn:E2; [|apply only_refl]. cbn.
  apply write_handle_only in E2 as [H2 _]; [|done]. by eapply only_trans.
Qed.

End Ops.

(** ** The names of a list *)

Definition temporaries : list string := [""; ".download"; ".digest"]%string.

(** On the way from the directory to a name of the list, or to one of its temporary names. *)
Definition listed (rb : rpath) (fls : list FileEntry) (k : rpath) : Prop :=
  exists e suf segs a b, e ∈ fls /\ suf ∈ temporaries /\ relative (e.(name) ++ suf) = Normal <$> segs /\
    segs = a ++ b /\ a <> [] /\ k = rb ++ a.

Lemma listed_below rb fls k : listed rb fls k -> below rb k.
Proof. intros (e & suf & segs & a & b & _ & _ & _ & _ & Ha & ->). destruct a as [|c a]; [done|]. by exists c, a. Qed.

Section Job.
Context (base : string) (rb : rpath) (zstd_decode : list Z -> option (list Z)) (digest_json : FileDigest -> list Z).
Context (P : rpath -> Prop).

(** The job's names have [P], and the file it writes to lies at such names. *)
Record names_in (fs : Fs) (j : TransferJob) : Prop := mkNames {
  nm_listed : forall k, listed rb j.(files) k -> P k;
  nm_stream : match j.(data_stream) with
    | Some (FileStream h) => h.(h_mode) = MWrite -> within P fs h.(h_ino)
    | _ => True
    end }.

Lemma names_in_only fs fs' j : only P fs fs' -> names_in fs j -> names_in fs' j.
Proof.
  intros Ho [Hl Hs]. split; [done|]. destruct (data_stream j) as [[h|]|]; try done. intros Hm. eapply within_only; [done|]. by apply Hs.
Qed.

Lemma names_in_update fs j j' : names_in fs j -> j'.(files) = j.(files) -> j'.(data_stream) = j.(data_stream) -> names_in fs j'.
Proof. intros [Hl Hs] E1 E2. split; [by rewrite E1|by rewrite E2]. Qed.

Lemma str_app_empty s : (s ++ "")%string = s.
Proof. induction s as [|a s IH]; [done|]. rewrite str_app_cons. by rewrite IH. Qed.

(** A target path is on the list. *)
Lemma tgt_listed fs fls e suf segs : base_ok fs base rb -> e ∈ fls -> suf ∈ temporaries -> e.(name) <> ""%string ->
  is_absolute e.(name) = false -> tgt fs base rb segs (join base e.(name) ++ suf) -> listed rb fls (rb ++ segs).
Proof.
  intros Hb He Hs Hne Ha [_ Hn [_ Hp]]. exists e, suf, segs, segs, []. rewrite app_nil_r. split_and!; try done.
  rewrite join_app in Hp by done. assert (Ha' : is_absolute (name e ++ suf) = false) by (by destruct (name e)).
  destruct (relative_join base _ (base_abs _ _ _ Hb) Ha') as [_ E]. rewrite E in Hp. by apply app_inv_head in Hp.
Qed.

Lemma tgt_resolve fs s segs fo p : base_ok fs base rb -> tgt fs base rb segs s -> resolve fs fo s = Ok p -> p = rb ++ segs.
Proof. intros Hb [L S Q] H. by apply (resolve_tgt _ _ _ _ _ _ _ Hb L S Q) in H as [-> _]. Qed.

Lemma tgt_resolve_comps fs s segs p : base_ok fs base rb -> tgt fs base rb segs s -> resolve_comps fs true (components s) = Ok p -> p = rb ++ segs.
Proof.
  intros Hb [L S [Qa Qr]] H. rewrite components_absolute, Qr in H by done. by apply (resolve_below _ _ _ _ _ _ Hb L S) in H as [-> _].
Qed.

Lemma create_dir_all_only fs segs : wf fs -> base_ok fs base rb -> nolinks fs rb segs ->
  (forall a b, segs = a ++ b -> a <> [] -> P (rb ++ a)) ->
  only P fs (create_dir_all fs (RootDir :: relative base ++ (Normal <$> segs))).
Proof.
  intros Hw Hb. induction segs as [|x segs IH] using rev_ind; intros Hn HP.
  - cbn [fmap list_fmap]. rewrite app_nil_r. erewrite create_dir_all_existing; [apply only_refl|done|apply Hb|apply Hb].
  - assert (Hpre : only P fs (create_dir_all fs (RootDir :: relative base ++ (Normal <$> segs)))).
    { apply IH; [by eapply nolinks_prefix|]. intros a b -> Ha. apply (HP a (b ++ [x])); [by rewrite app_assoc|done]. }
    assert (Hin : inside rb fs (create_dir_all fs (RootDir :: relative base ++ (Normal <$> segs)))).
    { apply create_dir_all_inside; [done|done|by eapply nolinks_prefix]. }
    assert (Hne : segs ++ [x] <> []) by (by destruct segs).
    assert (Hmk : forall f f', wf f -> base_ok f base rb -> nolinks f rb (segs ++ [x]) ->
      mkdir f (RootDir :: relative base ++ (Normal <$> segs ++ [x])) = Ok f' -> only P f f').
    { intros f f' _ Hb' Hn'. unfold mkdir. destruct (resolve_comps _ _ _) as [p|] eqn:E; [|done].
      destruct (resolve_below _ _ _ _ _ _ Hb' Hn' Hne E) as (-> & _). destruct (node_at f _); [done|]. intros [= <-].
      apply insert_only. apply (HP (segs ++ [x]) []); [by rewrite app_nil_r|done]. }
    unfold create_dir_all in *. set (cs := relative base) in *. rewrite fmap_app, app_assoc. cbn [fmap list_fmap].
    rewrite app_comm_cons, rev_unit. cbn [create_dir_all_rev].
    replace (rev (Normal x :: rev (RootDir :: cs ++ (Normal <$> segs)))) with (RootDir :: cs ++ (Normal <$> segs ++ [x])).
    2:{ cbn [rev]. rewrite rev_app_distr, !rev_involutive. cbn. by rewrite fmap_app, app_assoc. }
    destruct (mkdir fs _) as [fs1|[|]] eqn:E1; [by eapply Hmk| |apply only_refl].
    destruct (create_dir_all_rev fs _) as [fs2 ok]. cbn [fst] in *. destruct ok; [|done].
    destruct (mkdir fs2 _) as [fs3|] eqn:E3; [|done]. eapply only_trans; [done|].
    eapply Hmk; [by eapply in_wf|by eapply inside_base|by eapply inside_nolinks|done].
Qed.

(** The paths of a file of the job: what they resolve to has [P]. *)
Lemma entry_names fs j e path : job_ok fs base rb j -> names_in fs j -> e ∈ j.(files) -> e.(name) <> ""%string ->
  join_validated_path fs base e.(name) = Ok path ->
  (forall fs' suf fo p, inside rb fs fs' -> suf ∈ suffixes -> resolve fs' fo (path ++ suf) = Ok p -> P p) /\
  ((forall fs' fo p, inside rb fs fs' -> (resolve fs' fo path = Ok p -> P p) /\ (resolve_comps fs' true (components path) = Ok p -> P p)) \/
   forall fs', base_ok fs' base rb -> stat fs' path = Ok NDir /\ resolve fs' false path = Ok rb) /\
  (forall cs, parent (components path) = Some cs -> only P fs (create_dir_all fs cs)).
Proof.
  intros [Hw Hb Hns _ _ _ _] [Hl _] He Hne Hj.
  destruct (join_validated fs base rb (name e) path Hw Hb Hne Hj) as (-> & Ha & segs & Hr & Hn & Hpi).
  assert (Hsub : forall s, s ∈ suffixes -> s ∈ temporaries) by (unfold suffixes, temporaries; set_solver).
  split_and!.
  - intros fs' suf fo p Hi Hs Hp. destruct (suffix_tgt fs base rb (name e) _ segs suf Hb Hns Hne eq_refl Ha Hr Hn Hs) as [d Hd].
    apply (tgt_resolve fs' _ d) in Hp as ->; [|by eapply inside_base|by eapply inside_tgt].
    apply Hl. eapply tgt_listed; [exact Hb|done|by apply Hsub|done..].
  - destruct segs as [|s segs]; [right; intros fs' Hb'; by apply empty_name_dir|left]. intros fs' fo p Hi.
    assert (Ht : tgt fs base rb (s :: segs) (join base (name e))) by done.
    assert (HPk : P (rb ++ s :: segs)).
    { apply Hl. eapply (tgt_listed fs (files j) e ""); [done|done|unfold temporaries; by left|done|done|]. by rewrite str_app_empty. }
    split; intros Hp.
    + by apply (tgt_resolve fs' _ (s :: segs)) in Hp as ->; [|by eapply inside_base|by eapply inside_tgt].
    + by apply (tgt_resolve_comps fs' _ (s :: segs)) in Hp as ->; [|by eapply inside_base|by eapply inside_tgt].
  - intros cs Hc. destruct Hpi as [Hpa Hpr]. rewrite components_absolute, Hpr in Hc by done.
    destruct segs as [|s segs _] using rev_ind.
    + cbn in Hc. rewrite app_nil_r in Hc. erewrite create_dir_all_parent; [apply only_refl|done..].
    + rewrite fmap_app, app_assoc, app_comm_cons in Hc. cbn [fmap list_fmap] in Hc.
      unfold parent in Hc. rewrite last_snoc, removelast_last in Hc. injection Hc as <-.
      apply create_dir_all_only; [done|done|by eapply nolinks_prefix|]. intros a b -> Hab. apply Hl.
      exists e, ""%string, ((a ++ b) ++ [s]), a, (b ++ [s]). rewrite str_app_empty, <- app_assoc.
      split_and!; try done; [unfold temporaries; by left|]. by rewrite app_assoc.
Qed.

Lemma cur_entry j e : cur_file j = Some e -> e ∈ j.(files).
Proof. by intros H%zget_elem. Qed.

Lemma modify_time_only fs j : job_ok fs base rb j -> names_in fs j -> only P fs (modify_time fs j).
Proof.
  intros Hok Hnm. unfold modify_time, resolve_entry_path. rewrite (ok_type _ _ _ _ Hok), (ok_source _ _ _ _ Hok). cbn [is_generic negb].
  destruct (cur_file j) as [e|] eqn:Hc; [|apply only_refl].
  destruct (join_validated_path fs base (name e)) as [path|] eqn:Hj; [|apply only_refl].
  pose proof (entry_name base rb _ _ _ Hok Hc) as Hne. pose proof (cur_entry _ _ Hc) as He.
  destruct (entry_names fs j e path Hok Hnm He Hne Hj) as (Hsuf & Hpath & _).
  destruct (entry_paths base rb fs j (name e) path Hok Hne Hj) as ([dl Hdl] & [dg Hdg] & Hpath2 & _).
  destruct Hok as [Hw Hb Hns _ _ _ _].
  pose proof (remove_file_inside fs base rb Hb _ _ Hdg) as H1.
  eapply only_trans; [apply remove_file_only; intros p; apply (Hsuf fs ".digest"%string); [apply inside_refl|unfold suffixes; set_solver]|].
  set (fs1 := fs_ok fs (remove_file fs (digest_path path))) in *.
  pose proof (in_wf _ _ _ H1 Hw) as Hw1. pose proof (inside_base _ _ _ _ H1 Hb) as Hb1.
  destruct Hpath as [Hp|Hst].
  - assert (H2 : inside rb fs1 (fs_ok fs1 (rename fs1 (download_path path) path))).
    { destruct Hpath2 as [[d Hd]|Hst].
      - eapply rename_inside; [done|done|by eapply inside_tgt|by eapply inside_tgt].
      - destruct (Hst fs1 Hb1) as [_ Hr1]. rewrite (rename_dir_noop fs1 _ _ rb) by (done || apply Hb1). apply inside_refl. }
    eapply only_trans.
    + apply rename_only; intros p; [apply (Hsuf fs1 ".download"%string); [done|unfold suffixes; set_solver]|by apply Hp].
    + apply set_file_mtime_only; [by eapply in_wf|]. intros p. apply (Hp _ true p). by eapply inside_trans.
  - destruct (Hst fs1 Hb1) as [Hs1 Hr1]. rewrite (rename_dir_noop fs1 _ _ rb) by (done || apply Hb1).
    unfold set_file_mtime. rewrite Hs1. apply only_refl.
Qed.

Lemma remove_download_only fs j : job_ok fs base rb j -> names_in fs j -> only P fs (remove_download_file fs j).
Proof.
  intros Hok Hnm. unfold remove_download_file, resolve_entry_path. rewrite (ok_type _ _ _ _ Hok), (ok_source _ _ _ _ Hok). cbn [is_generic negb].
  destruct (cur_file j) as [e|] eqn:Hc; [|apply only_refl].
  destruct (join_validated_path fs base (name e)) as [path|] eqn:Hj; [|apply only_refl].
  pose proof (entry_name base rb _ _ _ Hok Hc) as Hne. pose proof (cur_entry _ _ Hc) as He.
  destruct (entry_names fs j e path Hok Hnm He Hne Hj) as (Hsuf & _ & _).
  destruct (entry_paths base rb fs j (name e) path Hok Hne Hj) as ([dl Hdl] & _).
  pose proof (remove_file_inside fs base rb (ok_base _ _ _ _ Hok) _ _ Hdl) as H1.
  eapply only_trans; apply remove_file_only; intros p.
  - apply (Hsuf fs ".download"%string); [apply inside_refl|unfold suffixes; set_solver].
  - apply (Hsuf _ ".digest"%string); [done|unfold suffixes; set_solver].
Qed.

Lemma write_payload_only fs j block wr r j' fs' : names_in fs j ->
  write_payload zstd_decode fs j block wr = (r, j', fs') -> only P fs fs' /\ names_in fs' j'.
Proof.
  intros Hnm. assert (Hsame : only P fs fs /\ names_in fs j) by (split; [apply only_refl|done]).
  unfold write_payload. destruct (data_stream j) as [ds|] eqn:Hd; [|by intros [= _ <- <-]].
  destruct (io_write wr); [|by intros [= _ <- <-]]. cbn [negb].
  destruct ds as [h|data pos]; cbn [stream_write].
  - destruct (write_handle fs h _) as [[h' fs1]|] eqn:E; cbn [rbind]; intros [= _ <- <-]; [|done].
    assert (Hm : h_mode h = MWrite) by (unfold write_handle in E; by destruct (h_mode h)).
    pose proof (nm_stream _ _ Hnm) as Hs. rewrite Hd in Hs.
    apply write_handle_only with (P := P) in E as [H1 H2]; [|by apply Hs]. split; [done|]. split; [apply Hnm|]. by cbn.
  - intros [= _ <- <-]. split; [apply only_refl|]. split; [apply Hnm|done].
Qed.

Lemma open_target_only fs j block wr r j' fs' : job_ok fs base rb j -> names_in fs j ->
  open_target digest_json fs j base block wr = (r, j', fs') -> only P fs fs' /\ names_in fs' j'.
Proof.
  intros Hok0 Hn0. unfold open_target. pose proof (modify_time_inside base rb fs j Hok0) as H1.
  pose proof (modify_time_only fs j Hok0 Hn0) as M1. pose proof (job_ok_inside _ _ _ _ _ H1 Hok0) as Hok.
  pose proof (names_in_only _ _ _ M1 Hn0) as Hn. set (fs1 := modify_time fs j) in *.
  destruct (match data_stream j with Some (FileStream _) => _ | _ => _ end); [intros [= _ <- <-]; by split|].
  set (j1 := with_num_stream j (b_file_num block) (data_stream j)).
  assert (Hn1 : names_in fs1 j1) by (by eapply names_in_update).
  destruct (cur_file j1) as [e|] eqn:Hc; [|intros [= _ <- <-]; by split].
  change (type j1) with (type j). rewrite (ok_type _ _ _ _ Hok).
  destruct (join_validated_path fs1 base (name e)) as [path|] eqn:Hj; cbn [rbind]; [|intros [= _ <- <-]; by split].
  assert (Hok1 : job_ok fs1 base rb j1) by (eapply job_ok_update; [done..|by apply (ok_stream _ _ _ _ Hok)]).
  pose proof (entry_name base rb _ _ _ Hok1 Hc) as Hne. pose proof (cur_entry _ _ Hc) as He.
  destruct (entry_names fs1 j1 e path Hok1 Hn1 He Hne Hj) as (Hsuf & _ & Hpar2).
  destruct (entry_paths base rb fs1 j1 (name e) path Hok1 Hne Hj) as ([dl Hdl] & [dg Hdg] & _ & Hpar).
  set (fs2 := match parent (components path) with Some pp => create_dir_all fs1 pp | None => fs1 end) in *.
  assert (M2 : only P fs1 fs2). { unfold fs2. destruct (parent (components path)); [by apply Hpar2|apply only_refl]. }
  assert (H2 : inside rb fs1 fs2). { unfold fs2. destruct (parent (components path)); [by apply Hpar|apply inside_refl]. }
  set (removed := if exists_ fs2 (digest_path path) then remove_file fs2 (digest_path path) else Ok fs2).
  assert (M3 : only P fs2 (fs_ok fs2 removed)).
  { unfold removed. destruct (exists_ _ _); [|apply only_refl]. apply remove_file_only. intros p.
    apply (Hsuf fs2 ".digest"%string); [done|unfold suffixes; set_solver]. }
  assert (H3 : inside rb fs2 (fs_ok fs2 removed)).
  { unfold removed. destruct (exists_ _ _); [|apply inside_refl].
    eapply remove_file_inside; [by eapply inside_base; [|apply Hok]|by eapply inside_tgt]. }
  assert (M12 : only P fs fs2) by (eapply only_trans; [exact M1|exact M2]).
  destruct removed as [fs3|]; [|intros [= _ <- <-]; split; [done|by eapply (names_in_only fs1)]]. cbn [fs_ok] in M3, H3.
  assert (M123 : only P fs fs3) by (eapply only_trans; [exact M12|exact M3]).
  assert (M13 : only P fs1 fs3) by (eapply only_trans; [exact M2|exact M3]).
  assert (I13 : inside rb fs1 fs3) by (eapply inside_trans; [exact H2|exact H3]).
  assert (Hw3 : wf fs3) by (eapply in_wf; [exact I13|apply Hok]).
  destruct (open_write fs3 true (download_path path)) as [[h fs4]|] eqn:Eo; [|intros [= _ <- <-]; split; [done|by eapply (names_in_only fs1)]].
  assert (Hb3 : base_ok fs3 base rb) by (eapply inside_base; [exact I13|apply Hok]).
  destruct (open_write_inside fs3 base rb Hw3 Hb3 _ _ _ _ _ (inside_tgt _ _ _ _ _ _ I13 Hdl) Eo) as (H4 & _).
  apply open_write_only with (P := P) in Eo as [M4 Hh]; [|done|intros p; apply (Hsuf fs3 ".download"%string); [done|unfold suffixes; set_solver]].
  intros [= _ <- <-]. pose proof (in_wf _ _ _ H4 Hw3) as Hw4.
  match goal with |- context [fs_write fs4 ?a ?b] => assert (M5 : only P fs4 (fs_ok fs4 (fs_write fs4 a b))) end.
  { apply fs_write_only; [done|]. intros p. apply (Hsuf fs4 ".digest"%string); [by eapply inside_trans|unfold suffixes; set_solver]. }
  split; [eapply only_trans; [exact M123|]; eapply only_trans; [exact M4|exact M5]|].
  eapply names_in_only; [exact M5|]. split; [apply Hn|]. by cbn.
Qed.

Lemma write_only fs j block wr r j' fs' : job_ok fs base rb j -> names_in fs j ->
  write zstd_decode digest_json fs j block wr = (r, j', fs') -> only P fs fs' /\ names_in fs' j'.
Proof.
  intros Hok Hnm. assert (Hsame : only P fs fs /\ names_in fs j) by (split; [apply only_refl|done]).
  unfold write. destruct (negb _); [by intros [= _ <- <-]|].
  rewrite (ok_source _ _ _ _ Hok). destruct (_ <=? _); [by intros [= _ <- <-]|].
  destruct (_ || _); [|by apply write_payload_only].
  destruct (open_target digest_json fs j base block wr) as [[r1 j1] fs1] eqn:E.
  apply open_target_only in E as [M1 Hn1]; [|done..].
  destruct r1; [|intros [= _ <- <-]; by split].
  intros H. apply write_payload_only in H as [M2 Hn2]; [|done]. split; [by eapply only_trans|done].
Qed.

End Job.
End Only.
