(* ===== verification/FsGuard.v ===== *)
(** What a receiving job may do to the disk, whichever kind of list it has: the job of a
    single unnamed file is that of one name in the directory above ([Single]), and all
    operations of a job in good order stay inside its directory and on its names ([Guard]). *)

From Stdlib Require Import Ascii.
From S2P Require Import Prelude PathFs FsJob FsSafe FsSend FsTransfer FsRecv FsShare FsWalk FsNames.
Import Path Fs PathFacts FsFacts Names Job Safe Share Receiver WalkFacts Only.

Module Single.

(** The name of a file of the list, seen from the directory above: the path of the job ends in
    [x], and an unnamed file is that path itself. *)
Definition under (x n : string) : string := if is_empty n then x else join x n.
Definition under_entry (x : string) (e : FileEntry) : FileEntry :=
  mkEntry e.(entry_type) (under x e.(name)) e.(is_hidden) e.(size) e.(modified_time).

(** The job for these names in the directory [d]. *)
Definition as_dir (d x : string) (j : TransferJob) : TransferJob :=
  mkJob j.(id) j.(type) (FilePath d) j.(is_last_job) j.(is_resume) j.(file_num) (under_entry x <$> j.(files))
    j.(data_stream) j.(total_size) j.(finished_size) j.(transferred) j.(enable_overwrite_detection)
    j.(file_confirmed) j.(file_skipped) j.(file_is_waiting) j.(default_overwrite_strategy) j.(digest) j.(meta).

Record single (d x : string) (rd : rpath) (fs : Fs) (j : TransferJob) : Prop := mkSingle {
  sg_source : j.(data_source) = FilePath (join d x);
  sg_type : j.(type) = Generic;
  sg_plain : plain x;
  sg_base : base_ok fs d rd;
  sg_nolink : forall t, fs.(nodes) !! (rd ++ [x]) <> Some (NLink t) }.

(** ** Paths *)

Lemma ends_with_app_r p a b : b <> ""%string -> ends_with p (a ++ b) = ends_with p b.
Proof.
  intros Hb. induction a as [|c a IH]; [done|]. rewrite str_app_cons. cbn. rewrite IH.
  destruct (a ++ b)%string eqn:E; [|done]. destruct a; [by rewrite str_app_nil in E|done].
Qed.

Lemma ends_with_none p s : str_any p s = false -> ends_with p s = false.
Proof. induction s as [|c s IH]; [done|]. cbn. intros [Hc Hs]%orb_false_iff. destruct s; [done|]. by apply IH. Qed.

Lemma join_rel d n : is_absolute n = false ->
  join d n = (if bool_decide (d = ""%string) || ends_with is_slash d then (d ++ n)%string else (d ++ "/" ++ n)%string).
Proof. intros Hn. unfold join. by rewrite Hn. Qed.

Lemma join_plain d x : plain x -> join d x = (if bool_decide (d = ""%string) || ends_with is_slash d then (d ++ x)%string else (d ++ "/" ++ x)%string).
Proof. intros Hx. by apply join_rel, (plain_name x Hx). Qed.

Lemma plain_join x n : plain x -> is_absolute n = false -> join x n = (x ++ "/" ++ n)%string.
Proof.
  intros Hx Hn. rewrite join_rel by done. destruct (plain_name x Hx) as (_ & _ & Hne). destruct Hx as (H1 & _).
  by rewrite bool_decide_eq_false_2, (ends_with_none _ _ H1).
Qed.

Lemma join_assoc d x n : plain x -> is_absolute n = false -> join (join d x) n = join d (join x n).
Proof.
  intros Hx Hn. pose proof (plain_name x Hx) as (_ & Ha & Hne). rewrite (plain_join x n Hx Hn).
  assert (Hax : is_absolute (x ++ "/" ++ n) = false) by (by destruct x).
  assert (Hj : join d x <> ""%string /\ ends_with is_slash (join d x) = false).
  { rewrite join_plain by done. destruct Hx as (H1 & _). split.
    - destruct (_ || _); destruct d; destruct x; done.
    - destruct (_ || _); rewrite ?ends_with_app_r by done; by apply ends_with_none. }
  destruct Hj as [Hj1 Hj2]. rewrite (join_rel (join d x) n Hn), bool_decide_eq_false_2, Hj2 by done. cbn [orb].
  rewrite (join_rel d (x ++ "/" ++ n) Hax), join_plain by done. by destruct (_ || _); rewrite !str_assoc.
Qed.

Lemma job_join_under d x n : plain x -> is_absolute n = false -> job_join (join d x) n = job_join d (under x n).
Proof.
  intros Hx Hn. destruct (plain_name x Hx) as (_ & _ & Hne). unfold job_join, under, is_empty. case_bool_decide.
  - by rewrite bool_decide_eq_false_2.
  - rewrite bool_decide_eq_false_2; [by apply join_assoc|]. rewrite plain_join by done. by destruct x.
Qed.

Lemma lstat_plain fs d rd x : base_ok fs d rd -> plain x ->
  lstat fs (join d x) = match fs.(nodes) !! (rd ++ [x]) with Some n => Ok n | None => Err NotFound end.
Proof.
  intros Hb (H1 & H2 & H3). destruct (nodes fs !! (rd ++ [x])) as [n|] eqn:E; [by eapply lstat_child|].
  destruct (child_path _ _ _ _ Hb H1 H2) as (_ & Hc & _ & Ht). destruct (child_resolve _ _ _ _ false Hb H1 H2) as [l Hl].
  unfold lstat, resolve. rewrite Ht, Hc, resolve_comps_absolute. cbn [orb]. rewrite Hl, resolve_from_normal, E. cbn.
  unfold lookup_node. by rewrite node_at_snoc, E.
Qed.

(** ** Validation *)

Lemma str_any_app p a b : str_any p (a ++ b) = str_any p a || str_any p b.
Proof. induction a as [|c a IH]; [done|]. rewrite str_app_cons. cbn. by rewrite IH, orb_assoc. Qed.

Definition dots (s : string) : bool :=
  existsb (fun s => bool_decide (s = ".."%string)) (List.filter (fun s => negb (bool_decide (s = ""%string))) (split (is_sep false) s)).

Lemma dots_plain x : plain x -> dots x = false.
Proof.
  intros Hx. destruct (plain_name x Hx) as (_ & _ & Hne). destruct Hx as (H1 & H2 & _). unfold dots.
  rewrite (split_ext (is_sep false) is_slash) by (intros; apply orb_false_r). rewrite split_one by done. cbn.
  rewrite bool_decide_eq_false_2 by done. cbn. unfold comp_of in H2.
  destruct (bool_decide (x = _ \/ _)); [done|]. by destruct (bool_decide (x = "..")%string).
Qed.

Lemma dots_under x n : plain x -> dots (x ++ "/" ++ n) = dots n.
Proof.
  intros Hx. unfold dots. change (x ++ "/" ++ n)%string with (x ++ String "/" n)%string.
  rewrite split_app_sep, List.filter_app, existsb_app by done. pose proof (dots_plain x Hx) as H. unfold dots in H. by rewrite H.
Qed.

Definition to_opt {A E} (r : result A E) : option A := match r with Ok x => Some x | Err _ => None end.

Lemma validate_under x n : plain x -> to_opt (validate_file_name_no_traversal false (under x n)) = to_opt (validate_file_name_no_traversal false n).
Proof.
  intros Hx. pose proof (plain_name x Hx) as (_ & Ha & Hne). pose proof (dots_plain x Hx) as Hd. pose proof Hx as (_ & _ & H3).
  unfold under, is_empty. case_bool_decide as Hn.
  - subst n. unfold validate_file_name_no_traversal. fold (dots x). rewrite H3, Hd. unfold is_absolute in Ha. by rewrite Ha.
  - destruct (is_absolute n) eqn:En.
    + unfold join. by rewrite En.
    + rewrite plain_join by done. unfold validate_file_name_no_traversal. fold (dots (x ++ "/" ++ n)) (dots n).
      rewrite dots_under by done. rewrite !str_any_app, H3. cbn [orb].
      assert (E : str_any (fun b => Ascii.eqb b Ascii.zero) "/" = false) by done. rewrite E. cbn [orb].
      destruct (str_any _ n); [done|]. destruct (dots n); [done|]. unfold is_absolute in Ha, En. rewrite En.
      assert (Hs : starts_with is_slash (x ++ "/" ++ n) = false) by (by destruct x). by rewrite Hs.
Qed.

Lemma components_under x n : plain x -> is_absolute n = false -> components (x ++ "/" ++ n) = Normal x :: relative n.
Proof.
  intros Hx Hn. pose proof (plain_name x Hx) as (Hr & Ha & Hne). unfold components.
  assert (Hax : is_absolute (x ++ "/" ++ n) = false) by (by destruct x). rewrite Hax.
  change (x ++ "/" ++ n)%string with (x ++ String "/" n)%string. rewrite split_app_sep by done.
  rewrite split_one by apply Hx. cbn [app]. rewrite bool_decide_eq_false_2 by (intros ->; by destruct Hx as (_ & ? & _)).
  cbn. destruct Hx as (_ & -> & _). done.
Qed.

Lemma loop_relative fs current n : is_absolute n = false ->
  no_symlink_loop fs current (components n) = no_symlink_loop fs current (relative n).
Proof.
  intros Hn. unfold components, relative. rewrite Hn. destruct (split is_slash n) as [|seg l] eqn:E; [done|].
  case_bool_decide as Hd; [|done]. done.
Qed.

Section Valid.
Context (fs : Fs) (d x : string) (rd : rpath).
Context (Hb : base_ok fs d rd) (Hx : plain x) (Hl : forall t, fs.(nodes) !! (rd ++ [x]) <> Some (NLink t)).

Lemma loop_first cs : no_symlink_loop fs d (Normal x :: cs) = no_symlink_loop fs (join d x) cs.
Proof.
  cbn [no_symlink_loop]. rewrite (lstat_plain _ _ _ _ Hb Hx).
  destruct (nodes fs !! (rd ++ [x])) as [[|t|i]|] eqn:E; try done. by destruct (Hl t).
Qed.

Lemma no_symlink_under n : is_absolute n = false ->
  validate_no_symlink_components fs d (under x n) = validate_no_symlink_components fs (join d x) n.
Proof.
  intros Hn. pose proof (plain_name x Hx) as (Hr & Ha & Hne). unfold validate_no_symlink_components, under.
  destruct (is_empty n) eqn:En.
  - unfold is_empty. rewrite bool_decide_eq_false_2 by done. rewrite loop_relative, Hr by done. apply loop_first.
  - rewrite plain_join by done. assert (Hne2 : is_empty (x ++ "/" ++ n) = false) by (by destruct x).
    rewrite Hne2, components_under, loop_first by done. by rewrite loop_relative.
Qed.

Lemma validate_absolute n : validate_file_name_no_traversal false n = Ok tt -> is_absolute n = false.
Proof. by intros [? _]%validate_name_ok. Qed.

Lemma validated_under n : to_opt (join_validated_path fs d (under x n)) = to_opt (join_validated_path fs (join d x) n).
Proof.
  unfold join_validated_path. pose proof (validate_under x n Hx) as Hv.
  destruct (validate_file_name_no_traversal false n) as [[]|] eqn:E1, (validate_file_name_no_traversal false (under x n)) as [[]|] eqn:E2; try done.
  cbn [rbind]. pose proof (validate_absolute _ E1) as Hn. rewrite no_symlink_under by done.
  destruct (validate_no_symlink_components fs (join d x) n); [|done]. cbn. by rewrite job_join_under.
Qed.

End Valid.

(** ** The operations *)

Section Like.
Context (d x : string) (rd : rpath) (zstd_decode : list Z -> option (list Z)) (digest_json : FileDigest -> list Z).

Lemma single_inside fs fs' j : inside rd fs fs' -> single d x rd fs j -> single d x rd fs' j.
Proof.
  intros Hi [A B D E F]. split; try done; [by eapply inside_base|]. intros t. rewrite (in_links _ _ _ Hi). apply F.
Qed.

Lemma single_same fs j j' : single d x rd fs j -> j'.(data_source) = j.(data_source) -> j'.(type) = j.(type) -> single d x rd fs j'.
Proof. intros [A B D E F] E1 E2. split; try done; congruence. Qed.

Lemma entry_as_dir j n : zget (as_dir d x j).(files) n = under_entry x <$> zget j.(files) n.
Proof. unfold zget. cbn. destruct (0 <=? n); [|done]. apply list_lookup_fmap. Qed.

(** Both jobs mean the same paths. *)
Lemma single_valid fs j n : single d x rd fs j -> to_opt (join_validated_path fs d (under x n)) = to_opt (join_validated_path fs (join d x) n).
Proof. intros [A B D E F]. by apply (validated_under fs d x rd). Qed.

Lemma single_path fs j n : single d x rd fs j ->
  resolve_entry_path fs (as_dir d x j) d (under x n) = resolve_entry_path fs j (join d x) n.
Proof.
  intros H. pose proof (single_valid fs j n H) as Hv. unfold resolve_entry_path. cbn [type as_dir]. rewrite (sg_type _ _ _ _ _ H). cbn [is_generic].
  by destruct (join_validated_path fs d (under x n)), (join_validated_path fs (join d x) n); simplify_eq/=.
Qed.

Lemma modify_time_like fs j : single d x rd fs j -> modify_time fs (as_dir d x j) = modify_time fs j.
Proof.
  intros H. unfold modify_time. cbn [type as_dir data_source].
  rewrite (sg_type _ _ _ _ _ H), (sg_source _ _ _ _ _ H). cbn [is_generic negb].
  unfold cur_file. change (Job.file_num (as_dir d x j)) with (Job.file_num j). rewrite entry_as_dir.
  destruct (zget (files j) (as_usize (Job.file_num j))) as [e|] eqn:Ee; [|done].
  cbn [fmap option_fmap option_map under_entry name modified_time]. fold (as_dir d x j). by rewrite (single_path fs j).
Qed.

Lemma remove_download_like fs j : single d x rd fs j -> remove_download_file fs (as_dir d x j) = remove_download_file fs j.
Proof.
  intros H. unfold remove_download_file. cbn [type as_dir data_source].
  rewrite (sg_type _ _ _ _ _ H), (sg_source _ _ _ _ _ H). cbn [is_generic negb].
  unfold cur_file. change (Job.file_num (as_dir d x j)) with (Job.file_num j). rewrite entry_as_dir.
  destruct (zget (files j) (as_usize (Job.file_num j))) as [e|] eqn:Ee; [|done].
  cbn [fmap option_fmap option_map under_entry name]. fold (as_dir d x j). by rewrite (single_path fs j).
Qed.

Lemma write_payload_like fs j block wr : write_payload zstd_decode fs (as_dir d x j) block wr =
  let '(r, j1, fs1) := write_payload zstd_decode fs j block wr in (r, as_dir d x j1, fs1).
Proof.
  unfold write_payload. cbn [data_stream as_dir]. destruct (data_stream j) as [ds|]; [|done].
  destruct (negb (io_write wr)); [done|]. by destruct (stream_write fs ds _) as [[ds' fs']|].
Qed.

(** The outcome of an operation up to the text of an error. *)
Definition like {A} (a b : result A JobErr * TransferJob * Fs) : Prop :=
  to_opt a.1.1 = to_opt b.1.1 /\ a.1.2 = as_dir d x b.1.2 /\ a.2 = b.2.

Lemma open_target_like fs j block wr : single d x rd fs j -> single d x rd (modify_time fs j) j ->
  like (open_target digest_json fs (as_dir d x j) d block wr) (open_target digest_json fs j (join d x) block wr).
Proof.
  intros H0 H. unfold open_target. rewrite (modify_time_like _ _ H0). cbn [data_stream as_dir]. set (fs1 := modify_time fs j) in *.
  destruct (match data_stream j with Some (FileStream _) => _ | _ => _ end); [done|].
  unfold cur_file. cbn [with_num_stream Job.file_num files as_dir data_stream type].
  pose proof (entry_as_dir j (as_usize (b_file_num block))) as He. cbn [files as_dir] in He. rewrite He.
  destruct (zget (files j) (as_usize (b_file_num block))) as [e|] eqn:Ee; [|done]. cbn [fmap option_fmap option_map under_entry name].
  rewrite (sg_type _ _ _ _ _ H). pose proof (single_valid fs1 j (name e) H) as Hv.
  destruct (join_validated_path fs1 d (under x (name e))) as [p|], (join_validated_path fs1 (join d x) (name e)) as [p'|]; simplify_eq/=; [|done].
  destruct (if exists_ _ _ then _ else _) as [fs3|]; [|done]. by destruct (open_write fs3 true (download_path p')) as [[h fs4]|].
Qed.

Lemma write_like fs j block wr : single d x rd fs j -> single d x rd (modify_time fs j) j ->
  like (write zstd_decode digest_json fs (as_dir d x j) block wr) (write zstd_decode digest_json fs j block wr).
Proof.
  intros H0 H. unfold write. change (id (as_dir d x j)) with (id j). destruct (negb (b_id block =? id j)); [done|].
  cbn [data_source as_dir]. rewrite (sg_source _ _ _ _ _ H). cbn [files as_dir data_stream Job.file_num]. rewrite length_fmap.
  destruct (zlen (files j) <=? _); [done|]. fold (as_dir d x j).
  assert (Hp : forall f k, like (write_payload zstd_decode f (as_dir d x k) block wr) (write_payload zstd_decode f k block wr)).
  { intros f k. rewrite write_payload_like. by destruct (write_payload zstd_decode f k block wr) as [[r k1] f1]. }
  destruct (_ || _); [|apply Hp]. destruct (open_target_like fs j block wr H0 H) as (E1 & E2 & E3).
  destruct (open_target digest_json fs (as_dir d x j) d block wr) as [[r1 j1] f1], (open_target digest_json fs j (join d x) block wr) as [[r2 j2] f2].
  cbn in E1, E2, E3. subst j1 f1. by destruct r1, r2.
Qed.

Lemma set_stream_offset_like fs j n off : single d x rd fs j ->
  set_stream_offset fs (as_dir d x j) n off = let '(j1, fs1) := set_stream_offset fs j n off in (as_dir d x j1, fs1).
Proof.
  intros H. unfold set_stream_offset. cbn [files as_dir data_source]. rewrite length_fmap.
  destruct (zlen (files j) <=? n); [done|]. rewrite (sg_source _ _ _ _ _ H).
  pose proof (entry_as_dir j n) as He. cbn [files as_dir] in He. rewrite He.
  destruct (zget (files j) n) as [e|] eqn:Ee; [|done]. cbn [fmap option_fmap option_map under_entry name].
  fold (as_dir d x j). rewrite (single_path fs j) by done. destruct (resolve_entry_path fs j (join d x) (name e)) as [path|]; [|done].
  by destruct (if exists_ fs (download_path path) && exists_ fs (digest_path path) then _ else _) as [[h fs1]|].
Qed.

Lemma confirm_like fs j r : single d x rd fs j ->
  confirm fs (as_dir d x j) r = let '(j1, fs1) := confirm fs j r in (as_dir d x j1, fs1).
Proof.
  intros H. unfold confirm. change (Job.file_num (as_dir d x j)) with (Job.file_num j). destruct (negb _); [done|].
  destruct (c_union r) as [[]|off|]; try done. destruct (0 <? off); [|done].
  change (set_file_confirmed (as_dir d x j) true) with (as_dir d x (set_file_confirmed j true)).
  apply set_stream_offset_like. by eapply single_same.
Qed.

End Like.
End Single.

(** ** What the operations leave of a job, and confirmations change nothing on the disk *)

Module Confirmed.

Definition same_job (j j' : TransferJob) : Prop :=
  j'.(id) = j.(id) /\ j'.(data_source) = j.(data_source) /\ j'.(type) = j.(type) /\ j'.(files) = j.(files).

Lemma same_job_trans a b c : same_job a b -> same_job b c -> same_job a c.
Proof. intros (E1 & E2 & E3 & E4) (F1 & F2 & F3 & F4). split_and!; congruence. Qed.

Lemma payload_job_same zstd_decode fs j block wr :
  let '(_, j', _) := write_payload zstd_decode fs j block wr in same_job j j'.
Proof.
  unfold write_payload. destruct (data_stream j) as [ds|]; [|done]. destruct (negb _); [done|]. by destruct (stream_write _ _ _) as [[]|].
Qed.

Lemma target_job_same digest_json fs j p block wr :
  let '(_, j', _) := open_target digest_json fs j p block wr in same_job j j'.
Proof.
  unfold open_target. destruct (match data_stream j with Some (FileStream _) => _ | _ => _ end); [done|].
  destruct (cur_file _) as [e|]; [|done]. cbn zeta. destruct (match type _ with Generic => _ | Printer => _ end) as [[[path dp] fs2]|]; [|done].
  destruct (match dp with Some _ => _ | None => _ end) as [fs3|]; [|done]. by destruct (open_write fs3 true path) as [[h fs4]|].
Qed.

Lemma write_job_same zstd_decode digest_json fs j block wr :
  let '(_, j', _) := write zstd_decode digest_json fs j block wr in same_job j j'.
Proof.
  unfold write. destruct (negb _); [done|]. destruct (data_source j) as [p|c] eqn:Es.
  - destruct (_ <=? _); [done|]. destruct (_ || _); [|apply payload_job_same].
    pose proof (target_job_same digest_json fs j p block wr) as H1.
    destruct (open_target digest_json fs j p block wr) as [[[|] j1] fs1]; [|done].
    pose proof (payload_job_same zstd_decode fs1 j1 block wr) as H2. destruct (write_payload zstd_decode fs1 j1 block wr) as [[r j2] fs2].
    by eapply same_job_trans.
  - set (j1 := if is_none (data_stream j) then _ else _). assert (H1 : same_job j j1) by (unfold j1; by destruct (is_none _)).
    pose proof (payload_job_same zstd_decode fs j1 block wr) as H2. destruct (write_payload zstd_decode fs j1 block wr) as [[r j2] fs2].
    by eapply same_job_trans.
Qed.

Lemma offset_job_same fs j n off : same_job j (set_stream_offset fs j n off).1.
Proof.
  unfold set_stream_offset. destruct (_ <=? _); [done|]. destruct (data_source j); [|done]. destruct (zget _ _); [|done].
  destruct (resolve_entry_path _ _ _ _); [|done]. by destruct (if _ && _ then _ else _) as [[]|].
Qed.

Lemma confirm_job_same fs j r : same_job j (confirm fs j r).1.
Proof.
  unfold confirm. destruct (negb _); [done|]. destruct (c_union r) as [[]|off|]; try done. destruct (0 <? off); [|done].
  apply (offset_job_same fs (set_file_confirmed j true)).
Qed.

Lemma open_existing fs s h fs' : exists_ fs s = true -> open_write fs false s = Ok (h, fs') -> fs' = fs.
Proof.
  unfold exists_, stat, stat_comps, open_write, resolve. cbn [orb]. destruct (resolve_comps fs true (components s)) as [p|]; [|done].
  cbn [rbind]. unfold lookup_node. destruct (node_at fs p) as [[]|]; [done..| |done]. by intros _ [= _ <-].
Qed.

Lemma confirm_disk fs j r : (confirm fs j r).2 = fs.
Proof.
  unfold confirm. destruct (negb _); [done|]. destruct (c_union r) as [[]|off|]; try done. destruct (0 <? off); [|done].
  unfold set_stream_offset. destruct (_ <=? _); [done|]. destruct (data_source _); [|done].
  destruct (zget _ _) as [e|]; [|done]. destruct (resolve_entry_path _ _ _ _) as [path|]; [|done].
  destruct (exists_ fs (download_path path)) eqn:E; cbn [andb].
  - destruct (exists_ fs (digest_path path)).
    + destruct (open_write fs false (download_path path)) as [[h fs1]|] eqn:Eo; [|done]. cbn. by eapply open_existing.
    + destruct (exists_ fs path); [|done]. by destruct (open_read fs path).
  - destruct (exists_ fs path); [|done]. by destruct (open_read fs path).
Qed.

Lemma confirm_names base rb P fs j r : job_ok fs base rb j -> names_in rb P fs j -> names_in rb P fs (confirm fs j r).1.
Proof.
  intros Hok Hn. unfold confirm. destruct (negb _); [done|].
  assert (Hsame : forall j', files j' = files j -> data_stream j' = data_stream j -> names_in rb P fs j') by (intros; by eapply names_in_update).
  destruct (c_union r) as [[]|off|]; try (by apply Hsame).
  - split; [apply Hn|done].
  - destruct (0 <? off); [|by apply Hsame]. set (j1 := set_file_confirmed j true).
    assert (Hok1 : job_ok fs base rb j1) by (by apply job_ok_flags).
    unfold set_stream_offset. destruct (_ <=? _); [by apply Hsame|]. rewrite (ok_source _ _ _ _ Hok1).
    destruct (zget (files j1) _) as [e|] eqn:Ee; [|by apply Hsame]. unfold resolve_entry_path. rewrite (ok_type _ _ _ _ Hok1). cbn [is_generic].
    destruct (join_validated_path fs base (name e)) as [path|] eqn:Hj; [|by apply Hsame].
    apply zget_elem in Ee. pose proof (proj1 (Forall_forall _ _) (ok_names _ _ _ _ Hok1) _ Ee) as Hne.
    destruct (entry_names base rb P fs j1 e path Hok1 (Hsame j1 eq_refl eq_refl) Ee Hne Hj) as (Hsuf & _).
    destruct (_ && _).
    + destruct (open_write fs false (download_path path)) as [[h fs1]|] eqn:Eo; [|by apply Hsame].
      assert (Hfs : exists_ fs (download_path path) = true -> fs1 = fs) by (intros H; by eapply open_existing).
      apply open_write_only with (P := P) in Eo as [Ho Hw]; [|apply Hok|intros p; apply (Hsuf fs ".download"%string); [apply inside_refl|unfold suffixes; set_solver]].
      split; [apply Hn|]. cbn. intros _ k Hk.
      destruct (on_nodes _ _ _ Ho k) as [|E]; [done|]. apply Hw. by rewrite E.
    + destruct (exists_ fs path); [|by apply Hsame]. destruct (open_read fs path) as [h|] eqn:Eo; [|by apply Hsame].
      split; [apply Hn|]. cbn. intros Hm. by apply open_read_mode in Eo.
Qed.

End Confirmed.

Module Guard.
Import Single Confirmed.

(** One change of the disk, on behalf of a job with the directory [rb]. *)
Record change_ok (P : rpath -> Prop) (rb : rpath) (fs fs' : Fs) : Prop := mkChange {
  ch_inside : inside rb fs fs';
  ch_moves : moves fs fs';
  ch_only : only P fs fs' }.

Lemma change_refl P rb fs : change_ok P rb fs fs.
Proof. split; [apply inside_refl|apply moves_refl|apply only_refl]. Qed.

Section Guarded.
Context (zstd_decode : list Z -> option (list Z)) (digest_json : FileDigest -> list Z).
Context (P : rpath -> Prop).

(** The names of a job: its own, or as seen from the directory above. *)
Definition view (base : string) (ox : option string) (j : TransferJob) : TransferJob :=
  match ox with Some x => as_dir base x j | None => j end.
Definition view_ok (fs : Fs) (base : string) (rb : rpath) (ox : option string) (j : TransferJob) : Prop :=
  match ox with Some x => single base x rb fs j | None => True end.

(** A job in good order under one of the two views. *)
Record guarded (fs : Fs) (base : string) (rb : rpath) (ox : option string) (j : TransferJob) : Prop := mkGuarded {
  gd_view : view_ok fs base rb ox j;
  gd_job : job_ok fs base rb (view base ox j);
  gd_ino : ino_ok fs (view base ox j);
  gd_names : names_in rb P fs (view base ox j) }.

Lemma view_same fs base rb ox j j' : view_ok fs base rb ox j -> same_job j j' -> view_ok fs base rb ox j'.
Proof. destruct ox; [|done]. intros H (_ & E1 & E2 & _). by eapply single_same. Qed.

Lemma view_inside fs fs' base rb ox j : inside rb fs fs' -> view_ok fs base rb ox j -> view_ok fs' base rb ox j.
Proof. destruct ox; [|done]. apply single_inside. Qed.

Lemma guarded_other fs fs' base rb rb' ox j : change_ok P rb' fs fs' -> guarded fs base rb ox j -> guarded fs' base rb ox j.
Proof.
  intros [Hi Hm Ho] [Ha Hok Hio Hn]. split; [|by eapply job_ok_other|by eapply ino_ok_moves|by eapply names_in_only].
  destruct ox as [x|]; [|done]. destruct Ha as [A B C D E]. split; try done; [by eapply base_other|].
  intros t. rewrite (in_links _ _ _ Hi). apply E.
Qed.

Lemma guarded_update fs base rb ox j j' : guarded fs base rb ox j -> same_job j j' -> j'.(data_stream) = j.(data_stream) ->
  guarded fs base rb ox j'.
Proof.
  intros [Ha Hok Hio Hn] Hs E4. pose proof Hs as (E1 & E2 & E3 & E5).
  assert (Hds : data_stream (view base ox j') = data_stream (view base ox j)) by (by destruct ox).
  split; [by eapply view_same| | |].
  - eapply job_ok_update; [exact Hok|destruct ox; cbn; congruence..|]. rewrite Hds. apply (ok_stream _ _ _ _ Hok).
  - unfold ino_ok. by rewrite Hds.
  - eapply names_in_update; [exact Hn|destruct ox; cbn; congruence|done].
Qed.

Lemma guarded_modify fs base rb ox j : guarded fs base rb ox j -> change_ok P rb fs (modify_time fs j).
Proof.
  intros [Ha Hok Hio Hn].
  assert (E : modify_time fs (view base ox j) = modify_time fs j) by (destruct ox; [by eapply modify_time_like|done]).
  rewrite <- E. split; [by eapply modify_time_inside|by eapply modify_time_moves|by eapply modify_time_only].
Qed.

Lemma guarded_remove fs base rb ox j : guarded fs base rb ox j -> change_ok P rb fs (remove_download_file fs j).
Proof.
  intros [Ha Hok Hio Hn].
  assert (E : remove_download_file fs (view base ox j) = remove_download_file fs j) by (destruct ox; [by eapply remove_download_like|done]).
  rewrite <- E. split; [by eapply remove_download_inside|apply remove_download_moves|by eapply remove_download_only].
Qed.

(** A write of the view is the write, but for the text of an error. *)
Lemma view_write fs base rb ox j block wr r j' fs' : guarded fs base rb ox j -> write zstd_decode digest_json fs j block wr = (r, j', fs') ->
  exists r0, write zstd_decode digest_json fs (view base ox j) block wr = (r0, view base ox j', fs').
Proof.
  intros [Ha Hok _ _] Hw. destruct ox as [x|]; [|by exists r]. cbn in *.
  assert (Hs1 : single base x rb (modify_time fs j) j).
  { eapply single_inside; [|done]. erewrite <- modify_time_like by done. by eapply modify_time_inside. }
  destruct (write_like base x rb zstd_decode digest_json fs j block wr Ha Hs1) as (_ & E2 & E3). rewrite Hw in E2, E3. cbn in E2, E3.
  destruct (write zstd_decode digest_json fs (as_dir base x j) block wr) as [[r0 j1] fs1]. cbn in E2, E3. subst j1 fs1. by exists r0.
Qed.

Lemma guarded_write fs base rb ox j block wr r j' fs' : guarded fs base rb ox j ->
  write zstd_decode digest_json fs j block wr = (r, j', fs') -> change_ok P rb fs fs' /\ guarded fs' base rb ox j'.
Proof.
  intros Hg Hw. destruct (view_write _ _ _ _ _ _ _ _ _ _ Hg Hw) as [r0 Hw0]. destruct Hg as [Ha Hok Hio Hn].
  destruct (write_inside base rb _ _ _ _ _ _ _ _ _ Hok Hw0) as [Hi Hok'].
  destruct (write_moves base rb _ _ _ _ _ _ _ _ _ Hok Hio Hw0) as [Hm Hio'].
  destruct (write_only base rb _ _ P _ _ _ _ _ _ _ Hok Hn Hw0) as [Ho Hn'].
  split; [by split|]. split; try done. eapply view_inside; [exact Hi|]. eapply view_same; [exact Ha|].
  pose proof (write_job_same zstd_decode digest_json fs j block wr) as Hsame. by rewrite Hw in Hsame.
Qed.

Lemma guarded_confirm fs base rb ox j r : guarded fs base rb ox j -> guarded fs base rb ox (confirm fs j r).1.
Proof.
  intros [Ha Hok Hio Hn].
  assert (E : confirm fs (view base ox j) r = (view base ox (confirm fs j r).1, fs)).
  { pose proof (confirm_disk fs j r) as Hd. destruct ox as [x|]; cbn; [rewrite (confirm_like base x rb) by done|];
      destruct (confirm fs j r) as [j1 fs1]; cbn in *; congruence. }
  pose proof (confirm_names base rb P fs _ r Hok Hn) as Hn'. rewrite E in Hn'.
  destruct (confirm_inside base rb _ _ _ _ _ Hok E) as [_ Hok']. destruct (confirm_moves base rb _ _ _ _ _ Hok Hio E) as [_ Hio'].
  split; try done. eapply view_same; [exact Ha|apply confirm_job_same].
Qed.

(** ** A new job *)

Lemma set_files_fields fs j entries j' : set_files fs j entries = Ok j' ->
  j'.(files) = entries /\ j'.(id) = j.(id) /\ j'.(data_source) = j.(data_source) /\ j'.(type) = j.(type) /\ j'.(data_stream) = j.(data_stream).
Proof.
  unfold set_files. destruct (validate_transfer_file_names entries); [|done]. cbn [rbind].
  destruct (match data_source j with FilePath _ => _ | _ => _ end); [|done]. by intros [= <-].
Qed.

Lemma guarded_list fs0 fs base rb jid num eod entries j :
  set_files fs0 (new_write jid Generic (FilePath base) num eod) entries = Ok j ->
  (forall f, entries = [f] -> f.(name) <> ""%string) ->
  wf fs -> base_ok fs base rb -> nosuf fs rb -> (forall k, listed rb entries k -> P k) -> guarded fs base rb None j.
Proof.
  intros Hs Hone Hw Hb Hn Hl. destruct (set_files_job _ _ _ _ Hs Hone) as (Hf & Hsrc & Hty & Hds).
  destruct (set_files_fields _ _ _ _ Hs) as (Hfl & _). split; [done| |unfold ino_ok; cbn; by rewrite Hds|].
  - split; try done. cbn. by rewrite Hds.
  - split; cbn; [by rewrite Hfl|by rewrite Hds].
Qed.

Lemma under_nonempty x n : plain x -> under x n <> ""%string.
Proof.
  intros Hx. destruct (plain_name x Hx) as (_ & Ha & Hne). unfold under, is_empty. case_bool_decide as Hn; [done|].
  destruct (is_absolute n) eqn:En; [unfold join; by rewrite En|]. rewrite plain_join by done. by destruct x.
Qed.

(** A job for a place that need not be a directory yet, before it has a list. *)
Lemma guarded_new fs d x rb jid num eod : plain x -> wf fs -> base_ok fs d rb -> nosuf fs rb ->
  (forall t, fs.(nodes) !! (rb ++ [x]) <> Some (NLink t)) -> guarded fs d rb (Some x) (new_write jid Generic (FilePath (join d x)) num eod).
Proof. intros Hx Hw Hb Hn Hnl. split; [by split|split; try done; by constructor|done|]. split; [|done]. by intros k (e & ? & ? & ? & ? & ?%elem_of_nil & _). Qed.

(** It takes any list that it accepts. *)
Lemma guarded_set_files fs0 fs d x rb j entries j' : guarded fs d rb (Some x) j -> set_files fs0 j entries = Ok j' ->
  (forall k, listed rb (under_entry x <$> entries) k -> P k) -> guarded fs d rb (Some x) j'.
Proof.
  intros [Ha Hok Hio Hn] Hs Hl. destruct (set_files_fields _ _ _ _ Hs) as (Hf & _ & Hsrc & Hty & Hds). cbn in *. split; cbn.
  - by eapply single_same.
  - destruct Hok as [A B C D E F G]. split; try done; cbn in *; rewrite ?Hds, ?Hf, ?Hty; try done.
    apply Forall_fmap, Forall_true. intros e. apply under_nonempty, Ha.
  - unfold ino_ok in *. cbn in *. by rewrite Hds.
  - destruct Hn as [_ Hn]. split; cbn in *; rewrite ?Hds, ?Hf; done.
Qed.

Lemma guarded_under fs0 fs d x rb jid num eod entries j :
  set_files fs0 (new_write jid Generic (FilePath (join d x)) num eod) entries = Ok j -> plain x ->
  wf fs -> base_ok fs d rb -> nosuf fs rb -> (forall t, fs.(nodes) !! (rb ++ [x]) <> Some (NLink t)) ->
  (forall k, listed rb (under_entry x <$> entries) k -> P k) -> guarded fs d rb (Some x) j.
Proof. intros Hs Hx Hw Hb Hn Hnl. eapply guarded_set_files; [by apply guarded_new|exact Hs]. Qed.

End Guarded.
End Guard.
