(* ===== verification/FsManage.v ===== *)
(** What the file manager does to the disk on the peer's behalf: the rest of
    [libs/base/src/fs.rs], removing, creating and renaming entries, clearing a directory tree
    and listing its empty directories.

    [rmdir] and [rename] are the system calls, on the file system of [PathFs], here with
    directories too; a path that ends in a slash or a dot means what Linux makes of it. *)

From Stdlib Require Import Ascii.
From S2P Require Import Prelude PathFs FsJob FsSend FsSafe FsWalk.
Import Path Fs PathFacts FsFacts Names Job Safe Walk WalkFacts.

Module Manage.

(** ** System calls *)

Definition trailing_dot (path : string) : bool :=
  match last (split is_slash path) with Some seg => bool_decide (seg = "."%string) | None => false end.

Definition has_children (fs : Fs) (p : rpath) : bool := negb (is_nil (children fs p)).

(** [std::fs::remove_dir]: an empty directory, and never through a link. *)
Definition rmdir (fs : Fs) (path : string) : result Fs IoErr :=
  if trailing_dot path then Err OtherErr else
  match resolve_comps fs false (components path) with
  | Err e => Err e
  | Ok p =>
    match node_at fs p with
    | None => Err NotFound
    | Some NDir =>
      if is_nil p || has_children fs p then Err OtherErr else Ok (set_nodes fs (delete p fs.(nodes)))
    | Some _ => Err OtherErr
    end
  end.

(** [std::fs::remove_file] *)
Definition unlink (fs : Fs) (path : string) : result Fs IoErr :=
  if trailing_dir path then Err OtherErr else Fs.remove_file fs path.

(** What is left of [k] after the prefix [p]. *)
Fixpoint strip (p k : rpath) : option rpath :=
  match p, k with
  | [], _ => Some k
  | x :: p, y :: k => if String.eqb x y then strip p k else None
  | _ :: _, [] => None
  end.

(** The tree with everything at [a] and below it now at [b]. *)
Definition move_tree (a b : rpath) (ns : gmap rpath Node) : gmap rpath Node :=
  list_to_map (omap (fun e : rpath * Node =>
    match strip a e.1 with
    | Some r => Some (b ++ r, e.2)
    | None => if bool_decide (e.1 = b) then None else Some e
    end) (map_to_list ns)).

(** [std::fs::rename] of what [a] names to the name [b].  [dir_only]: one of the two paths
    ends in a slash. *)
Definition rename_node (fs : Fs) (dir_only : bool) (a b : rpath) : result Fs IoErr :=
  match node_at fs a, node_at fs b with
  | None, _ => Err NotFound
  | Some NDir, nb =>
    if bool_decide (a = b) then if is_nil a then Err OtherErr else Ok fs
    else match strip a b, nb with
         | Some _, _ => Err OtherErr
         | None, None => Ok (set_nodes fs (move_tree a b fs.(nodes)))
         | None, Some NDir => if has_children fs b then Err OtherErr else Ok (set_nodes fs (move_tree a b fs.(nodes)))
         | None, Some _ => Err OtherErr
         end
  | Some n, nb =>
    if dir_only then Err OtherErr
    else match nb with
         | Some NDir => Err OtherErr
         | _ => if bool_decide (a = b) then Ok fs else Ok (set_nodes fs (<[b := n]> (delete a fs.(nodes))))
         end
  end.

(** ** [libs/base/src/fs.rs] *)

Definition validate_fs_path_argument (path arg_name : string) : result unit JobErr :=
  if is_empty path then Err (Bail (arg_name ++ " cannot be empty"))
  else if str_any (fun b => Ascii.eqb b Ascii.zero) path then Err (Bail (arg_name ++ " contains null bytes"))
  else Ok tt.

Definition io {A} (r : result A IoErr) : result A JobErr := match r with Ok x => Ok x | Err e => Err (Io e) end.

Definition remove_file (fs : Fs) (file : string) : result Fs JobErr :=
  rbind (validate_fs_path_argument file "file path") (fun _ => io (unlink fs file)).

(** [create_dir_all] can fail when some directories have been made. *)
Definition create_dir (fs : Fs) (dir : string) : result unit JobErr * Fs :=
  match validate_fs_path_argument dir "directory path" with
  | Err e => (Err e, fs)
  | Ok _ =>
    let '(fs, ok) := create_dir_all_rev fs (rev (components dir)) in
    (if ok : bool then Ok tt else Err (Io OtherErr), fs)
  end.

Definition rename_file (fs : Fs) (path new_name : string) : result Fs JobErr :=
  rbind (validate_fs_path_argument path "path") (fun _ =>
  if is_empty new_name then Err (Bail "new file name cannot be empty") else
  rbind (validate_file_name_no_traversal false new_name) (fun _ =>
  if exists_ fs path then
    match parent (components path) with
    | None => Err (Bail "Parent directoy not exists")
    | Some dir =>
      let new_path := dir ++ components new_name in
      if trailing_dot path || trailing_dot new_name then Err (Io OtherErr) else
      match resolve_comps fs false (components path), resolve_comps fs false new_path with
      | Ok a, Ok b => io (rename_node fs (trailing_dir path || trailing_dir new_name) a b)
      | Err e, _ | _, Err e => Err (Io e)
      end
    end
  else Err (Bail "not exists"))).

(** An entry of a directory that is cleared: [clear] is the call for a directory in it. *)
Definition clear_entry (clear : Fs -> string -> result Fs IoErr) (path : string) (fs : Fs) (entry : FileEntry) : Fs :=
  match entry.(entry_type) with
  | Dir => fs_ok fs (clear fs (join path entry.(name)))
  | DirLink | FileLink => fs_ok fs (unlink fs (join path entry.(name)))
  | _ => fs
  end.

(** [fuel] bounds the depth.  The call fails only where it lists the directory, before it
    has changed anything. *)
Fixpoint remove_all_empty_dir (fuel : nat) (fs : Fs) (path : string) : result Fs IoErr :=
  match fuel with
  | O => Err OtherErr
  | S fuel =>
    rbind (read_dir fs path true) (fun entries =>
    let fs := foldl (clear_entry (remove_all_empty_dir fuel) path) fs entries in
    Ok (fs_ok fs (rmdir fs path)))
  end.

(** [FileDirectory], with the identifier of the job it answers. *)
Record FileDirectory := mkFd { fd_id : Z; fd_path : string; fd_entries : list FileEntry }.

Fixpoint read_empty_dirs_recursive (fuel : nat) (fs : Fs) (path prefix : string) (include_hidden : bool)
    : result (list FileDirectory) IoErr :=
  match fuel with
  | O => Err OtherErr
  | S fuel =>
    if is_dir fs path then
      rbind (read_dir fs path include_hidden) (fun entries =>
      if is_nil entries then Ok [mkFd 0 path entries]
      else Ok (concat ((fun entry =>
        match entry.(entry_type) with
        | Dir =>
          match read_empty_dirs_recursive fuel fs (join path entry.(name)) (join prefix entry.(name)) include_hidden with
          | Ok tmp => tmp
          | Err _ => []
          end
        | _ => []
        end) <$> entries)))
    else if is_file fs path then Ok []
    else Err NotFound
  end.

Definition get_empty_dirs_recursive (fuel : nat) (fs : Fs) (path : string) (include_hidden : bool)
    : result (list FileDirectory) IoErr :=
  read_empty_dirs_recursive fuel fs path "" include_hidden.

End Manage.

Module Clear.
Import Manage.

(** ** What clearing a tree leaves *)

(** From [fs] to [fs'], in the part [D] of the tree: every file stays, every link goes, a
    directory stays if there is a file somewhere below it; outside nothing changes. *)
Record cleared_on (D : rpath -> Prop) (fs fs' : Fs) : Prop := mkCleared {
  cl_out : forall k, ~ D k -> fs'.(nodes) !! k = fs.(nodes) !! k;
  cl_files : forall k i, fs'.(nodes) !! k = Some (NFile i) <-> fs.(nodes) !! k = Some (NFile i);
  cl_links : forall k t, D k -> fs'.(nodes) !! k <> Some (NLink t);
  cl_dirs : forall k, D k -> fs'.(nodes) !! k = Some NDir <->
    fs.(nodes) !! k = Some NDir /\ exists j i, k `prefix_of` j /\ fs.(nodes) !! j = Some (NFile i);
  cl_rest : fs'.(inodes) = fs.(inodes) /\ fs'.(next_ino) = fs.(next_ino) /\ fs'.(cwd) = fs.(cwd) /\ fs'.(now) = fs.(now) }.

Lemma cleared_none fs : cleared_on (fun _ => False) fs fs.
Proof. by split. Qed.

Lemma cleared_some D fs fs' k n : (forall k, Decision (D k)) -> cleared_on D fs fs' ->
  fs'.(nodes) !! k = Some n -> fs.(nodes) !! k = Some n.
Proof.
  intros Hdec H Hn. destruct (decide (D k)) as [Hd|Hd]; [|by rewrite <- (cl_out _ _ _ H)].
  destruct n as [|t|i]; [by apply (cl_dirs _ _ _ H k Hd)|by destruct (cl_links _ _ _ H k t Hd)|by apply (cl_files _ _ _ H)].
Qed.

(** Two parts, one after the other. *)
Lemma cleared_union D1 D2 fs fs1 fs2 : (forall k, Decision (D1 k)) -> (forall k, Decision (D2 k)) ->
  cleared_on D1 fs fs1 -> cleared_on D2 fs1 fs2 -> cleared_on (fun k => D1 k \/ D2 k) fs fs2.
Proof.
  intros Hd1 Hd2 H1 H2. split.
  - intros k Hk. rewrite (cl_out _ _ _ H2), (cl_out _ _ _ H1); tauto.
  - intros k i. by rewrite (cl_files _ _ _ H2), (cl_files _ _ _ H1).
  - intros k t Hk Hn. destruct (decide (D2 k)) as [Hk2|Hk2]; [by apply (cl_links _ _ _ H2 k t)|].
    rewrite (cl_out _ _ _ H2) in Hn by done. apply (cl_links _ _ _ H1 k t); [tauto|done].
  - intros k Hk. destruct (decide (D2 k)) as [Hk2|Hk2].
    + rewrite (cl_dirs _ _ _ H2) by done. setoid_rewrite (cl_files _ _ _ H1). split; [intros [Hn He]; split; [by eapply (cleared_some D1)|done]|].
      intros [Hn He]. split; [|done]. destruct (decide (D1 k)) as [Hk1|Hk1]; [by apply (cl_dirs _ _ _ H1)|by rewrite (cl_out _ _ _ H1)].
    + rewrite (cl_out _ _ _ H2), (cl_dirs _ _ _ H1) by tauto. done.
  - destruct (cl_rest _ _ _ H2) as (-> & -> & -> & ->). apply (cl_rest _ _ _ H1).
Qed.

Lemma cleared_ext D D' fs fs' : (forall k, D k <-> D' k) -> cleared_on D fs fs' -> cleared_on D' fs fs'.
Proof.
  intros Hd H. split; [|apply (cl_files _ _ _ H)| | |apply (cl_rest _ _ _ H)].
  - intros k. rewrite <- Hd. apply (cl_out _ _ _ H).
  - intros k t. rewrite <- Hd. apply (cl_links _ _ _ H).
  - intros k. rewrite <- Hd. apply (cl_dirs _ _ _ H).
Qed.

(** The part below and at a name. *)
Definition at_or_below (p k : rpath) : Prop := p `prefix_of` k.

Lemma cleared_wf p fs fs' : wf fs -> cleared_on (at_or_below p) fs fs' -> wf fs'.
Proof.
  intros [R P I J] H. pose proof (fun k n => cleared_some (at_or_below p) fs fs' k n ltac:(intros; unfold at_or_below; apply _) H) as Hs.
  split.
  - destruct (nodes fs' !! []) eqn:E; [apply Hs in E; congruence|done].
  - intros q c [n Hn]. pose proof (Hs _ _ Hn) as Hn0. pose proof (P q c ltac:(by rewrite Hn0)) as Hq.
    destruct q as [|x q]; [done|]. cbn in *. destruct (decide (at_or_below p (x :: q))) as [Hd|Hd]; [|by rewrite (cl_out _ _ _ H)].
    apply (cl_dirs _ _ _ H); [done|]. split; [done|].
    assert (Hd2 : at_or_below p ((x :: q) ++ [c])) by (by apply prefix_app_r).
    destruct n as [|t|i].
    + apply (cl_dirs _ _ _ H) in Hn as (_ & j & i & Hj & Hi); [|done]. exists j, i. split; [|done].
      etrans; [|exact Hj]. by exists [c].
    + by apply (cl_links _ _ _ H) in Hn.
    + exists ((x :: q) ++ [c]), i. split; [by exists [c]|done].
  - intros q i Hq%Hs. destruct (cl_rest _ _ _ H) as (_ & -> & _). by apply (I q).
  - intros q q' i Hq%Hs Hq'%Hs. by apply (J q q' i).
Qed.
(** ** Real paths *)

(** The path spells the directory [rp], without links. *)
Record real_dir (fs : Fs) (path : string) (rp : rpath) : Prop := mkReal {
  rd_abs : is_absolute path = true;
  rd_rel : relative path = Normal <$> rp;
  rd_dot : trailing_dot path = false;
  rd_dir : node_at fs rp = Some NDir }.

(** What lies above an entry is a directory. *)
Lemma ancestor_dir fs a b : wf fs -> b <> [] -> is_Some (node_at fs (a ++ b)) -> node_at fs a = Some NDir.
Proof.
  intros Hw. induction b as [|y b IH] using rev_ind; [done|]. intros _ Hs. rewrite app_assoc, node_at_snoc in Hs.
  apply (wf_parent _ Hw) in Hs. destruct b as [|z b]; [by rewrite app_nil_r in Hs|]. apply IH; [done|by rewrite Hs].
Qed.

Lemma resolve_dirs l fs fo cur segs : wf fs -> node_at fs (cur ++ segs) = Some NDir ->
  resolve_from l fs fo cur (Normal <$> segs) = Ok (cur ++ segs).
Proof.
  intros Hw. revert cur. induction segs as [|x segs IH]; intros cur Hd; cbn [fmap list_fmap]; step_comp; [by rewrite app_nil_r|].
  assert (Hx : node_at fs (cur ++ [x]) = Some NDir).
  { destruct segs as [|y segs]; [done|]. apply (ancestor_dir fs _ (y :: segs)); [done..|]. rewrite <- app_assoc. cbn [app]. by rewrite Hd. }
  rewrite node_at_snoc in Hx. rewrite Hx. specialize (IH (cur ++ [x])). rewrite <- app_assoc in IH. by apply IH.
Qed.

Lemma real_resolve fs fo path rp : wf fs -> real_dir fs path rp -> resolve_comps fs fo (components path) = Ok rp.
Proof.
  intros Hw [A R _ D]. rewrite components_absolute, R, resolve_comps_absolute by done. by apply (resolve_dirs _ _ _ []).
Qed.

Lemma real_base fs path rp : wf fs -> real_dir fs path rp -> base_ok fs path rp.
Proof. intros Hw [A R _ D]. split; [done| |done]. rewrite R. by apply (resolve_dirs _ _ _ []). Qed.

Lemma real_child fs path rp c : wf fs -> real_dir fs path rp -> str_any is_slash c = false -> comp_of c = Some (Normal c) ->
  fs.(nodes) !! (rp ++ [c]) = Some NDir -> real_dir fs (join path c) (rp ++ [c]).
Proof.
  intros Hw H H1 H2 Hn. destruct (child_path _ _ _ _ (real_base _ _ _ Hw H) H1 H2) as (Ha & _ & Hr & Ht). split.
  - done.
  - by rewrite Hr, (rd_rel _ _ _ H), fmap_app.
  - unfold trailing_dir in Ht. unfold trailing_dot. destruct (last _); [|done].
    apply bool_decide_eq_false in Ht. apply bool_decide_eq_false. tauto.
  - by rewrite node_at_snoc.
Qed.

(** Entries of a listed directory. *)
Lemma entry_link fs path rp c t : base_ok fs path rp -> str_any is_slash c = false -> comp_of c = Some (Normal c) ->
  fs.(nodes) !! (rp ++ [c]) = Some (NLink t) ->
  exists e, dir_entry fs path true c = Some e /\ e.(name) = c /\ (e.(entry_type) = DirLink \/ e.(entry_type) = FileLink).
Proof.
  intros Hb H1 H2 Hn. unfold dir_entry, is_empty. rewrite bool_decide_eq_false_2 by (by intros ->).
  rewrite (lstat_child _ _ _ _ _ Hb H1 H2 Hn), andb_false_r.
  destruct (is_dir fs (join path c)); eexists; cbn; eauto.
Qed.

Lemma unlink_child fs path rp c t : base_ok fs path rp -> str_any is_slash c = false -> comp_of c = Some (Normal c) ->
  fs.(nodes) !! (rp ++ [c]) = Some (NLink t) -> unlink fs (join path c) = Ok (set_nodes fs (delete (rp ++ [c]) fs.(nodes))).
Proof.
  intros Hb H1 H2 Hn. destruct (child_path _ _ _ _ Hb H1 H2) as (_ & Hc & _ & Ht).
  destruct (child_resolve _ _ _ _ false Hb H1 H2) as [l Hl].
  unfold unlink, Fs.remove_file, resolve. rewrite Ht, Hc, resolve_comps_absolute. cbn [orb].
  rewrite Hl, resolve_from_normal, Hn. cbn [is_nil negb andb]. by rewrite node_at_snoc, Hn.
Qed.

(** ** One entry *)

Lemma nothing_below fs k j n : wf fs -> fs.(nodes) !! k = Some n -> n <> NDir -> k `prefix_of` j -> is_Some (fs.(nodes) !! j) -> j = k.
Proof.
  intros Hw Hn Hd [r ->] Hs. destruct r as [|x r]; [by rewrite app_nil_r|].
  assert (Hk : node_at fs k = Some NDir).
  { apply (ancestor_dir fs k (x :: r)); [done..|]. by destruct k. }
  destruct k; [by rewrite (wf_root _ Hw) in Hn|]. cbn in Hk. congruence.
Qed.

Lemma cleared_file fs k i : wf fs -> fs.(nodes) !! k = Some (NFile i) -> cleared_on (at_or_below k) fs fs.
Proof.
  intros Hw Hn. assert (Hb : forall j n, at_or_below k j -> fs.(nodes) !! j = Some n -> n = NFile i).
  { intros j n Hj Hs. assert (j = k) as -> by (by eapply nothing_below). congruence. }
  split; try done.
  - intros j t Hj Ht. by apply Hb in Ht.
  - intros j Hj. split; [|by intros [? _]]. intros Hd. by apply Hb in Hd.
Qed.

Lemma cleared_link fs k t : wf fs -> fs.(nodes) !! k = Some (NLink t) ->
  cleared_on (at_or_below k) fs (set_nodes fs (delete k fs.(nodes))).
Proof.
  intros Hw Hn. assert (Hb : forall j n, at_or_below k j -> fs.(nodes) !! j = Some n -> j = k /\ n = NLink t).
  { intros j n Hj Hs. assert (j = k) as -> by (by eapply nothing_below). split; congruence. }
  split; cbn; try done.
  - intros j Hj. rewrite lookup_delete_ne; [done|]. intros ->. by apply Hj.
  - intros j i. rewrite lookup_delete_Some. split; [tauto|]. intros Hj. split; [|done]. intros ->. congruence.
  - intros j t' Hj. rewrite lookup_delete_Some. intros [Hne Ht]. by apply Hb in Ht as [-> _].
  - intros j Hj. rewrite lookup_delete_Some. split; [intros [_ Hd]; by apply Hb in Hd as [_ ?]|].
    intros [Hd _]. by apply Hb in Hd as [_ ?].
Qed.

(** The directory itself, once everything below is cleared. *)
Lemma cleared_rmdir fs fs1 path rp : wf fs -> wf fs1 -> real_dir fs1 path rp -> cleared_on (below rp) fs fs1 ->
  node_at fs rp = Some NDir -> cleared_on (at_or_below rp) fs (fs_ok fs1 (rmdir fs1 path)).
Proof.
  intros Hw Hw1 Hr H Hn. unfold rmdir. rewrite (rd_dot _ _ _ Hr), (real_resolve _ _ _ _ Hw1 Hr), (rd_dir _ _ _ Hr).
  assert (Hsplit : forall k, at_or_below rp k <-> k = rp \/ below rp k).
  { intros k. split; [intros [[|c cs] ->]; [left; by rewrite app_nil_r|right; by exists c, cs]|].
    intros [->|(c & cs & ->)]; [done|by eexists]. }
  assert (Hnb : ~ below rp rp).
  { intros (c & cs & E). apply (f_equal length) in E. rewrite length_app in E. cbn in E. lia. }
  destruct rp as [|x rp0].
  { cbn. split; [|apply (cl_files _ _ _ H)| | |apply (cl_rest _ _ _ H)].
    - intros k Hk. by destruct Hk; exists k.
    - intros k t _. destruct k as [|y k]; [by rewrite (wf_root _ Hw1)|]. apply (cl_links _ _ _ H). by exists y, k.
    - intros k _. destruct k as [|y k]; [rewrite (wf_root _ Hw1), (wf_root _ Hw); naive_solver|]. apply (cl_dirs _ _ _ H). by exists y, k. }
  set (rp := x :: rp0) in *. replace (is_nil rp) with false by done. cbn [orb].
  destruct (has_children fs1 rp) eqn:Hc.
  - cbn [fs_ok]. split; [|apply (cl_files _ _ _ H)| | |apply (cl_rest _ _ _ H)].
    + intros k Hk. apply (cl_out _ _ _ H). rewrite Hsplit in Hk. tauto.
    + intros k t [->|Hk]%Hsplit; [pose proof (rd_dir _ _ _ Hr); cbn in *; congruence|by apply (cl_links _ _ _ H)].
    + intros k [->|Hk]%Hsplit; [|by apply (cl_dirs _ _ _ H)]. split; [|intros _; apply (rd_dir _ _ _ Hr)]. intros _. split; [done|].
      unfold has_children in Hc. destruct (children fs1 rp) as [|c l] eqn:El; [done|].
      assert (Hin : c ∈ children fs1 rp) by (rewrite El; by left). apply (elem_children _ _ _ Hw1) in Hin as [n Hin].
      assert (Hbc : below rp (rp ++ [c])) by (by exists c, []). destruct n as [|t|i].
      * apply (cl_dirs _ _ _ H) in Hin as (_ & j & i & Hj & Hi); [|done]. exists j, i. split; [|done].
        etrans; [|exact Hj]. by eexists.
      * by apply (cl_links _ _ _ H) in Hin.
      * apply (cl_files _ _ _ H) in Hin. exists (rp ++ [c]), i. split; [by eexists|done].
  - assert (Hnone : forall k, below rp k -> fs1.(nodes) !! k = None).
    { intros k (c & cs & ->). destruct (nodes fs1 !! _) as [n|] eqn:E; [|done]. exfalso.
      assert (Hcc : is_Some (fs1.(nodes) !! (rp ++ [c]))).
      { destruct cs as [|d cs]; [by rewrite E|]. rewrite <- (node_at_snoc fs1 rp c).
        rewrite (ancestor_dir fs1 (rp ++ [c]) (d :: cs)); [done..|]. rewrite <- app_assoc. cbn [app]. rewrite (node_at_below rp) by (by exists c, (d :: cs)). by rewrite E. }
      apply (elem_children _ _ _ Hw1) in Hcc. unfold has_children in Hc. by destruct (children fs1 rp); [apply elem_of_nil in Hcc|]. }
    assert (Hself : fs1.(nodes) !! rp = Some NDir) by apply (rd_dir _ _ _ Hr).
    cbn [fs_ok]. split; cbn [nodes set_nodes]; [| | | |apply (cl_rest _ _ _ H)].
    + intros k Hk. rewrite Hsplit in Hk. rewrite lookup_delete_ne by (intros <-; tauto). apply (cl_out _ _ _ H). tauto.
    + intros k i. rewrite lookup_delete_Some, (cl_files _ _ _ H). split; [tauto|]. intros Hk. split; [|done].
      intros <-. apply (cl_files _ _ _ H) in Hk. congruence.
    + intros k t [->|Hk]%Hsplit; [by rewrite lookup_delete_eq|]. rewrite lookup_delete_Some, Hnone by done. naive_solver.
    + intros k Hk. rewrite lookup_delete_Some. split.
      * intros [Hne Hd]. apply Hsplit in Hk as [->|Hk]; [done|]. by rewrite Hnone in Hd.
      * intros (_ & j & i & Hj & Hi). apply (cl_files _ _ _ H) in Hi. exfalso.
        assert (Hjr : at_or_below rp j) by (etrans; [exact Hk|exact Hj]).
        apply Hsplit in Hjr as [->|Hjr]; [congruence|]. rewrite Hnone in Hi; done.
Qed.

(** ** The whole tree *)

Lemma cleared_names D fs fs' : (forall k, Decision (D k)) -> cleared_on D fs fs' -> names_ok fs -> names_ok fs'.
Proof. intros Hd H Hn p c [n Hs]. apply (Hn p c). exists n. by eapply cleared_some. Qed.

(** The subtrees of the names [done]. *)
Definition under (rp : rpath) (l : list string) (k : rpath) : Prop := Exists (fun c => at_or_below (rp ++ [c]) k) l.
#[local] Instance at_or_below_dec p k : Decision (at_or_below p k).
Proof. unfold at_or_below. apply _. Defined.
#[local] Instance under_dec rp l k : Decision (under rp l k).
Proof. unfold under. apply _. Defined.

Definition deep (fuel : nat) (fs : Fs) (rp : rpath) : Prop :=
  (0 < fuel)%nat /\ forall k, is_Some (fs.(nodes) !! k) -> (length k < length rp + fuel)%nat.

Lemma under_rp rp l : ~ under rp l rp.
Proof. unfold under. rewrite Exists_exists. intros (c & _ & r & E). apply (f_equal length) in E. rewrite !length_app in E. cbn in E. lia. Qed.

Lemma under_child rp l c : under rp l (rp ++ [c]) <-> c ∈ l.
Proof.
  unfold under. rewrite Exists_exists. split; [|intros H; by exists c].
  intros (d & Hd & r & E). rewrite <- app_assoc in E. apply app_inv_head in E. by injection E as ->.
Qed.

Lemma real_kept fs fs' path rp : real_dir fs path rp -> node_at fs' rp = node_at fs rp -> real_dir fs' path rp.
Proof. intros [A R T D] E. split; try done. by rewrite E. Qed.

Section Loop.
Context (fuel : nat) (path : string) (rp : rpath) (fs0 : Fs) (Hw0 : wf fs0) (Hn0 : names_ok fs0) (Hr0 : real_dir fs0 path rp).
Hypothesis Hclear : forall fs p q, wf fs -> names_ok fs -> real_dir fs p q -> deep fuel fs q ->
  exists fs', remove_all_empty_dir fuel fs p = Ok fs' /\ cleared_on (at_or_below q) fs fs'.
Hypothesis Hdeep : forall k, is_Some (fs0.(nodes) !! k) -> (length k <= length rp + fuel)%nat.

Lemma clear_one finished fs c e : wf fs -> cleared_on (under rp finished) fs0 fs -> c ∉ finished ->
  is_Some (fs0.(nodes) !! (rp ++ [c])) -> dir_entry fs0 path true c = Some e ->
  let fs' := clear_entry (remove_all_empty_dir fuel) path fs e in
  wf fs' /\ cleared_on (under rp (finished ++ [c])) fs0 fs'.
Proof.
  intros Hw H Hc [n Hn] He. cbn zeta. destruct (Hn0 rp c ltac:(by rewrite Hn)) as [C1 C2].
  assert (Hn' : fs.(nodes) !! (rp ++ [c]) = Some n).
  { rewrite (cl_out _ _ _ H); [done|]. by rewrite under_child. }
  assert (Hr : real_dir fs path rp).
  { eapply real_kept; [done|]. destruct rp as [|x rp0] eqn:Erp; [done|]. cbn. apply (cl_out _ _ _ H). rewrite <- Erp. apply under_rp. }
  assert (Hgoal : forall fs', cleared_on (at_or_below (rp ++ [c])) fs fs' -> wf fs' /\ cleared_on (under rp (finished ++ [c])) fs0 fs').
  { intros fs' H'. split; [by eapply cleared_wf|]. apply (cleared_ext (fun k => under rp finished k \/ at_or_below (rp ++ [c]) k)).
    2:{ eapply cleared_union; [apply _|apply _|exact H|exact H']. }
    intros k. unfold under. rewrite Exists_app, Exists_cons, Exists_nil. tauto. }
  apply Hgoal. unfold clear_entry.
  pose proof (dir_entry_spec fs0 path rp c n true (real_base _ _ _ Hw0 Hr0) C1 C2 Hn) as Hd. rewrite He in Hd.
  destruct Hd as (Hnm & _ & Hf & Hdr & _). destruct n as [|t|i].
  - rewrite (proj2 Hdr eq_refl), Hnm.
    destruct (Hclear fs (join path c) (rp ++ [c])) as (fs' & -> & Hc'); [done|by apply (cleared_names (under rp finished) fs0 fs ltac:(apply _))|by apply real_child| |done].
    assert (Hlen : forall k, is_Some (fs.(nodes) !! k) -> (length k < length (rp ++ [c]) + fuel)%nat).
    { intros k [m Hk]. rewrite length_app. cbn. assert (is_Some (fs0.(nodes) !! k)) as Hs%Hdeep; [|lia].
      exists m. by apply (cleared_some (under rp finished) fs0 fs k m ltac:(apply _)). }
    split; [|done]. specialize (Hlen (rp ++ [c]) ltac:(by rewrite Hn')). lia.
  - destruct (entry_link fs0 path rp c t) as (e' & He' & _ & Ht); [by apply real_base|done..|]. rewrite He in He'. injection He' as <-.
    assert (Hu : unlink fs (join path c) = Ok (set_nodes fs (delete (rp ++ [c]) fs.(nodes)))).
    { eapply unlink_child; [by apply real_base|done..]. }
    rewrite Hnm, Hu. destruct Ht as [-> | ->]; by eapply cleared_link.
  - rewrite (proj2 Hf) by eauto. by eapply cleared_file.
Qed.

Lemma clear_all l : forall finished fs, wf fs -> cleared_on (under rp finished) fs0 fs -> NoDup (finished ++ l) ->
  (forall c, c ∈ l -> is_Some (fs0.(nodes) !! (rp ++ [c]))) ->
  let fs' := foldl (clear_entry (remove_all_empty_dir fuel) path) fs (omap (dir_entry fs0 path true) l) in
  wf fs' /\ cleared_on (under rp (finished ++ l)) fs0 fs'.
Proof.
  induction l as [|c l IH]; intros finished fs Hw H Hnd Hs; cbn [omap list_omap foldl]; [by rewrite app_nil_r|].
  assert (Hc : c ∉ finished). { apply NoDup_app in Hnd as (_ & Hd & _). intros Hin. apply (Hd c Hin). by left. }
  destruct (Hs c ltac:(by left)) as [n Hn]. destruct (Hn0 rp c ltac:(by rewrite Hn)) as [C1 C2].
  destruct (dir_entry fs0 path true c) as [e|] eqn:He.
  - destruct (clear_one finished fs c e Hw H Hc ltac:(by eexists) He) as [Hw' H']. cbn [foldl].
    rewrite (cons_middle c finished l), app_assoc. apply IH; [done|done| |].
    + by rewrite <- app_assoc.
    + intros d Hd. apply Hs. by right.
  - pose proof (dir_entry_spec fs0 path rp c n true (real_base _ _ _ Hw0 Hr0) C1 C2 Hn) as Hd. rewrite He in Hd. by destruct Hd.
Qed.

End Loop.

Lemma under_children fs rp k : wf fs -> is_Some (fs.(nodes) !! k) -> under rp (children fs rp) k <-> below rp k.
Proof.
  intros Hw Hs. unfold under. rewrite Exists_exists. split.
  - intros (c & _ & r & ->). exists c, r. by rewrite <- app_assoc.
  - intros (c & cs & ->). exists c. split; [|exists cs; by rewrite <- app_assoc].
    apply (elem_children _ _ _ Hw). destruct cs as [|d cs]; [done|]. rewrite <- node_at_snoc, (ancestor_dir fs _ (d :: cs)); try done.
    rewrite <- app_assoc. cbn [app]. rewrite (node_at_below rp); [done|]. by exists c, (d :: cs).
Qed.

(** Clearing what lies under the children clears what lies below. *)
Lemma cleared_children fs fs' rp : wf fs -> cleared_on (under rp (children fs rp)) fs fs' -> cleared_on (below rp) fs fs'.
Proof.
  intros Hw H.
  assert (Hb : forall k, under rp (children fs rp) k -> below rp k).
  { unfold under. intros k. rewrite Exists_exists. intros (c & _ & r & ->). exists c, r. by rewrite <- app_assoc. }
  assert (Hnone : forall k, ~ under rp (children fs rp) k -> below rp k -> fs.(nodes) !! k = None).
  { intros k Hk Hb'. destruct (nodes fs !! k) eqn:E; [|done]. destruct Hk. apply under_children; [done| |done]. by rewrite E. }
  split; [|apply (cl_files _ _ _ H)| | |apply (cl_rest _ _ _ H)].
  - intros k Hk. apply (cl_out _ _ _ H). intros Hu. by apply Hk, Hb.
  - intros k t Hk. destruct (decide (under rp (children fs rp) k)) as [Hu|Hu]; [by apply (cl_links _ _ _ H)|].
    by rewrite (cl_out _ _ _ H), Hnone.
  - intros k Hk. destruct (decide (under rp (children fs rp) k)) as [Hu|Hu]; [by apply (cl_dirs _ _ _ H)|].
    rewrite (cl_out _ _ _ H), Hnone by done. naive_solver.
Qed.

Lemma clear_spec fuel : forall fs path rp, wf fs -> names_ok fs -> real_dir fs path rp -> deep fuel fs rp ->
  exists fs', remove_all_empty_dir fuel fs path = Ok fs' /\ cleared_on (at_or_below rp) fs fs'.
Proof.
  induction fuel as [|fuel IH]; intros fs path rp Hw Hn Hr [Hf Hd]; [lia|]. cbn [remove_all_empty_dir].
  pose proof (real_base _ _ _ Hw Hr) as Hb. destruct (base_stat fs path rp Hb) as [_ Hres].
  unfold read_dir. rewrite (Hres true : resolve fs true path = _), (base_dir _ _ _ Hb). cbn [rbind]. eexists. split; [done|].
  destruct (clear_all fuel path rp fs Hw Hn Hr IH) with (l := children fs rp) (finished := @nil string) (fs := fs) as [Hw' H'].
  - intros k Hk%Hd. lia.
  - done.
  - eapply cleared_ext; [|apply cleared_none]. intros k. unfold under. by rewrite Exists_nil.
  - by apply NoDup_children.
  - intros c. by apply elem_children.
  - cbn [app] in H'. apply cleared_children in H'; [|done]. apply cleared_rmdir; [done|done| |done|apply Hr].
    eapply real_kept; [done|]. destruct rp as [|x rp0]; [done|]. cbn. apply (cl_out _ _ _ H').
    intros (c & cs & E). apply (f_equal length) in E. rewrite length_app in E. cbn in E. lia.
Qed.

End Clear.

Module Empties.
Import Manage Clear.

(** Whether the walk sees a name. *)
Definition shown (h : bool) (c : string) : Prop := h = true \/ starts_with is_dot c = false.

Lemma visible_cons h c segs : visible h (c :: segs) <-> shown h c /\ visible h segs.
Proof. unfold visible, shown. rewrite Forall_cons. destruct h; naive_solver. Qed.

(** The entries [read_dir] lists are the names the walk sees. *)
Lemma listed fs path rp h c : wf fs -> names_ok fs -> base_ok fs path rp ->
  (exists e, e ∈ omap (dir_entry fs path h) (children fs rp) /\ e.(name) = c) <->
  is_Some (fs.(nodes) !! (rp ++ [c])) /\ shown h c.
Proof.
  intros Hw Hno Hb. split.
  - intros (e & (c' & Hc & He)%list_elem_of_omap & <-). apply (elem_children _ _ _ Hw) in Hc as [n Hn].
    destruct (Hno rp c' ltac:(by rewrite Hn)) as [C1 C2].
    pose proof (dir_entry_spec fs path rp c' n h Hb C1 C2 Hn) as Hd. rewrite He in Hd. destruct Hd as (-> & Hv & _).
    unfold shown. split; [by rewrite Hn|tauto].
  - intros [[n Hn] Hs]. destruct (Hno rp c ltac:(by rewrite Hn)) as [C1 C2].
    pose proof (dir_entry_spec fs path rp c n h Hb C1 C2 Hn) as Hd. destruct (dir_entry fs path h c) as [e|] eqn:He.
    + exists e. destruct Hd as (Hnm & _). split; [|done]. apply list_elem_of_omap. exists c. split; [|done].
      apply (elem_children _ _ _ Hw). eauto.
    + destruct Hd as [H1 ->], Hs as [?|Hs]; congruence.
Qed.

Definition empty_shown (fs : Fs) (h : bool) (p : rpath) : Prop :=
  node_at fs p = Some NDir /\ forall c, is_Some (fs.(nodes) !! (p ++ [c])) -> ~ shown h c.

Lemma empties_spec fuel : forall fs path prefix rp h, wf fs -> names_ok fs -> base_ok fs path rp -> deep fuel fs rp ->
  exists ds, read_empty_dirs_recursive fuel fs path prefix h = Ok ds /\
  forall d, d ∈ ds <-> exists segs, empty_shown fs h (rp ++ segs) /\ visible h segs /\ d = mkFd 0 (rel_name path segs) [].
Proof.
  induction fuel as [|fuel IH]; intros fs path prefix rp h Hw Hno Hb [Hf Hd]; [lia|]. cbn [read_empty_dirs_recursive].
  destruct (base_stat fs path rp Hb) as [-> Hres]. unfold read_dir. rewrite (Hres true : resolve fs true path = _), (base_dir _ _ _ Hb). cbn [rbind].
  pose proof (fun c => listed fs path rp h c Hw Hno Hb) as Hl.
  set (entries := omap (dir_entry fs path h) (children fs rp)) in *.
  destruct (is_nil entries) eqn:En.
  - eexists. split; [done|]. intros d. destruct entries as [|e es]; [|done].
    assert (Hnone : forall c, is_Some (fs.(nodes) !! (rp ++ [c])) -> ~ shown h c).
    { intros c Hc Hs. destruct (proj2 (Hl c) (conj Hc Hs)) as (e & He & _). by apply elem_of_nil in He. }
    rewrite list_elem_of_singleton. split.
    + intros ->. exists []. rewrite app_nil_r. split; [split; [apply Hb|done]|]. split; [right; constructor|done].
    + intros ([|c segs] & [He _] & Hv & ->); [done|]. apply visible_cons in Hv as [Hs _]. exfalso. apply (Hnone c); [|done].
      rewrite <- node_at_snoc. destruct segs as [|y segs]; [by rewrite He|].
      rewrite (ancestor_dir fs (rp ++ [c]) (y :: segs)); [done..|]. rewrite <- app_assoc. cbn [app]. by rewrite He.
  - eexists. split; [done|]. intros d. rewrite list_elem_of_In, in_concat. setoid_rewrite <- list_elem_of_In. split.
    + intros (l & (x & -> & Hx)%list_elem_of_fmap & Hdl).
      destruct (entry_type x) eqn:Et; try (by apply elem_of_nil in Hdl).
      pose proof Hx as (c & Hc & He)%list_elem_of_omap. apply (elem_children fs rp c Hw) in Hc as [n Hn].
      destruct (Hno rp c ltac:(by rewrite Hn)) as [C1 C2].
      pose proof (dir_entry_spec fs path rp c n h Hb C1 C2 Hn) as Hsp. rewrite He in Hsp.
      destruct Hsp as (Hnm & Hv & _ & Hdr & _). assert (n = NDir) as -> by (by apply Hdr). rewrite Hnm in Hdl.
      destruct (IH fs (join path c) (join prefix c) (rp ++ [c]) h Hw Hno (base_child _ _ _ _ Hb C1 C2 Hn)) as (tmp & Htmp & Hspec).
      { split; [specialize (Hd (rp ++ [c]) ltac:(by rewrite Hn)); rewrite length_app in Hd; cbn in Hd; lia|].
        intros k Hk%Hd. rewrite length_app. cbn. lia. }
      rewrite Htmp in Hdl. apply Hspec in Hdl as (segs & He' & Hvis & ->). exists (c :: segs).
      rewrite <- app_assoc in He'. split; [done|]. split; [|done]. apply visible_cons. split; [unfold shown; tauto|done].
    + intros (segs & [He Hno'] & Hvis & ->). destruct segs as [|c segs].
      { exfalso. destruct entries as [|e es]; [done|]. assert (Hin : exists e', e' ∈ e :: es /\ e'.(name) = e.(name)) by (exists e; split; [by left|done]).
        apply Hl in Hin as [Hin Hs]. rewrite app_nil_r in Hno'. by apply (Hno' (name e)). }
      apply visible_cons in Hvis as [Hs Hvis].
      assert (Hn : fs.(nodes) !! (rp ++ [c]) = Some NDir).
      { rewrite <- node_at_snoc. destruct segs as [|y segs]; [done|]. apply (ancestor_dir fs _ (y :: segs)); [done..|].
        rewrite <- app_assoc. cbn [app]. by rewrite He. }
      destruct (Hno rp c ltac:(by rewrite Hn)) as [C1 C2].
      destruct (IH fs (join path c) (join prefix c) (rp ++ [c]) h Hw Hno (base_child _ _ _ _ Hb C1 C2 Hn)) as (tmp & Htmp & Hspec).
      { split; [specialize (Hd (rp ++ [c]) ltac:(by rewrite Hn)); rewrite length_app in Hd; cbn in Hd; lia|].
        intros k Hk%Hd. rewrite length_app. cbn. lia. }
      pose proof (dir_entry_spec fs path rp c _ h Hb C1 C2 Hn) as Hsp.
      destruct (dir_entry fs path h c) as [x|] eqn:Ex; [|destruct Hsp, Hs; congruence].
      destruct Hsp as (Hnm & _ & _ & Hdr & _). exists tmp. split.
      * apply list_elem_of_fmap. exists x. rewrite (proj2 Hdr eq_refl), Hnm, Htmp. split; [done|].
        apply list_elem_of_omap. exists c. split; [apply elem_children; eauto|done].
      * apply Hspec. exists segs. rewrite <- app_assoc. done.
Qed.

End Empties.

Module ManageTheorems.
Import Manage Clear Empties.

(** C21: clearing a directory, the last step of a recursive delete, removes exactly what holds no
    file.  On a well-formed tree, with fuel for its depth, [remove_all_empty_dir] on the real
    path of a directory ends, and of what lies at or below it every regular file stays, with
    its contents; every symbolic link goes (what it points to is not touched); a directory
    stays exactly if some file is left in or below it.  Nothing outside changes.  So a
    directory without regular files disappears whole. *)
Theorem clear_exact (fuel : nat) (fs : Fs) (path : string) (rp : rpath) :
  wf fs -> names_ok fs -> real_dir fs path rp -> deep fuel fs rp ->
  exists fs', remove_all_empty_dir fuel fs path = Ok fs' /\
    (forall k, ~ rp `prefix_of` k -> fs'.(nodes) !! k = fs.(nodes) !! k) /\
    (forall k i, fs'.(nodes) !! k = Some (NFile i) <-> fs.(nodes) !! k = Some (NFile i)) /\
    fs'.(inodes) = fs.(inodes) /\
    (forall k t, rp `prefix_of` k -> fs'.(nodes) !! k <> Some (NLink t)) /\
    (forall k, rp `prefix_of` k -> fs'.(nodes) !! k = Some NDir <->
       fs.(nodes) !! k = Some NDir /\ exists j i, k `prefix_of` j /\ fs.(nodes) !! j = Some (NFile i)) /\
    ((forall k i, rp `prefix_of` k -> fs.(nodes) !! k <> Some (NFile i)) ->
     forall k, rp `prefix_of` k -> fs'.(nodes) !! k = None).
Proof.
  intros Hw Hn Hr Hd. destruct (clear_spec fuel fs path rp Hw Hn Hr Hd) as (fs' & He & H). exists fs'.
  split_and!; [done|apply (cl_out _ _ _ H)|apply (cl_files _ _ _ H)|apply (cl_rest _ _ _ H)|apply (cl_links _ _ _ H)|apply (cl_dirs _ _ _ H)|].
  intros Hno k Hk. destruct (nodes fs' !! k) as [[|t|i]|] eqn:E; [| | |done]; exfalso.
  - apply (cl_dirs _ _ _ H k Hk) in E as (_ & j & i & Hj & Hi). apply (Hno j i); [by etrans|done].
  - by apply (cl_links _ _ _ H k t Hk).
  - apply (cl_files _ _ _ H) in E. by apply (Hno k i).
Qed.

(** [/src] with a directory that holds only directories and links, and one with a file. *)
Definition clear_fs : Fs := tree
  [(["src"], NDir); (["src"; "e"], NDir); (["src"; "e"; "f"], NDir); (["src"; "e"; "l"], NLink "/src/d/b");
   (["src"; "d"], NDir); (["src"; "d"; "b"], NFile 0); (["src"; "d"; "m"], NDir)]%string
  [(0%nat, mkInode [1] 5)].

Lemma clear_deep fs rp n : forallb (fun e : rpath * Node => Nat.ltb (length e.1) (length rp + n)) (map_to_list fs.(nodes)) = true ->
  (0 < n)%nat -> deep n fs rp.
Proof.
  intros H Hn. split; [done|]. intros k [x Hk]. rewrite forallb_forall in H. specialize (H (k, x)).
  rewrite <- list_elem_of_In, elem_of_map_to_list in H. apply Nat.ltb_lt. by apply H.
Qed.

Lemma clear_exact_witness :
  exists fs', remove_all_empty_dir 4 clear_fs "/src" = Ok fs' /\ fs'.(nodes) !! (["src"; "d"; "b"]%string) = Some (NFile 0) /\
    fs'.(nodes) !! (["src"; "e"; "l"]%string) <> Some (NLink "/src/d/b").
Proof.
  destruct (clear_exact 4 clear_fs "/src" ["src"]%string) as (fs' & H1 & _ & H2 & _ & H3 & _).
  - apply wfb_wf. by vm_compute.
  - apply names_okb_ok. by vm_compute.
  - split; by vm_compute.
  - apply clear_deep; [by vm_compute|lia].
  - exists fs'. split_and!; [done| |].
    + apply H2. by vm_compute.
    + apply H3. by exists ["e"; "l"]%string.
Defined.

Example clear_example :
  (fun fs => map_to_list fs.(nodes)) <$> (match remove_all_empty_dir 4 clear_fs "/src" with Ok fs => Some fs | Err _ => None end) =
  Some (map_to_list (tree [(["src"], NDir); (["src"; "d"], NDir); (["src"; "d"; "b"], NFile 0)]%string []).(nodes)).
Proof. by vm_compute. Qed.

(** C22: what a peer is told of a directory is exact and complete.  On a well-formed tree,
    with fuel for its depth, the job [new_read] makes lists exactly the regular files below
    the directory that can be reached through directories (never through a symbolic link, and
    not below or at a hidden name unless hidden files are asked for), each under its path
    relative to the start, with its size and time, and its total size is the sum, modulo
    2^64; and the list of empty directories sent beside it has exactly the directories,
    reached in the same way, in which the walk sees no entry, each under its full path. *)
Theorem listing_exact (fuel : nat) (fs : Fs) (path : string) (rp : rpath) (jid : Z) (h eod : bool) :
  wf fs -> names_ok fs -> base_ok fs path rp -> deep fuel fs rp ->
  (exists j, new_read fuel fs jid Generic (FilePath path) 0 h eod = Ok j /\
    j.(total_size) = sum_sizes j.(files) /\
    forall e, e ∈ j.(files) <-> exists segs c i,
      fs.(nodes) !! (rp ++ segs ++ [c]) = Some (NFile i) /\ visible h (segs ++ [c]) /\
      e = file_entry fs (rel_name "" (segs ++ [c])) c i) /\
  (exists ds, get_empty_dirs_recursive fuel fs path h = Ok ds /\
    forall d, d ∈ ds <-> exists segs,
      node_at fs (rp ++ segs) = Some NDir /\
      (forall c, is_Some (fs.(nodes) !! ((rp ++ segs) ++ [c])) -> h = false /\ starts_with is_dot c = true) /\
      visible h segs /\ d = mkFd 0 (rel_name path segs) []).
Proof.
  intros Hw Hno Hb Hd. split.
  - destruct Hd as [Hf Hd]. destruct (walk_spec fuel fs path "" rp h Hw Hno Hb Hd Hf) as (files & Hr & Hs).
    unfold new_read, get_recursive_files. rewrite Hr. by eexists.
  - destruct (empties_spec fuel fs path "" rp h Hw Hno Hb Hd) as (ds & Hr & Hs).
    exists ds. split; [done|]. intros d. rewrite Hs. unfold empty_shown, shown.
    split; intros (segs & H1 & H2); exists segs.
    + destruct H1 as [H1 H3]. split_and!; try tauto. intros c Hc%H3. destruct h, (starts_with is_dot c); tauto.
    + destruct H2 as (H2 & H3 & ->). split_and!; try done. intros c [-> Hc]%H2. rewrite Hc. naive_solver.
Qed.

Lemma listing_exact_witness :
  (exists j, new_read 4 clear_fs 1 Generic (FilePath "/src") 0 false false = Ok j /\ file_entry clear_fs "d/b" "b" 0 ∈ j.(files)) /\
  (exists ds, get_empty_dirs_recursive 4 clear_fs "/src" false = Ok ds /\ mkFd 0 "/src/d/m" [] ∈ ds).
Proof.
  destruct (listing_exact 4 clear_fs "/src" ["src"]%string 1 false false) as [(j & H1 & _ & H2) (ds & H3 & H4)].
  - apply wfb_wf. by vm_compute.
  - apply names_okb_ok. by vm_compute.
  - split; by vm_compute.
  - apply clear_deep; [by vm_compute|lia].
  - split.
    + exists j. split; [done|]. apply H2. exists ["d"%string], "b"%string, 0%nat.
      split_and!; [by vm_compute|right; repeat constructor|by vm_compute].
    + exists ds. split; [done|]. apply H4. exists ["d"; "m"]%string. split_and!; [by vm_compute| |right; repeat constructor|by vm_compute].
      intros c Hc. apply (elem_children clear_fs ["src"; "d"; "m"]%string c) in Hc; [|apply wfb_wf; by vm_compute].
      assert (E : children clear_fs ["src"; "d"; "m"]%string = []) by (by vm_compute). rewrite E in Hc. clear -Hc.
      exfalso. exact (not_elem_of_nil _ Hc).
Defined.

End ManageTheorems.
