(* ===== verification/FsConfirm.v ===== *)
(** Overwrite detection: the digest handshake of the sending side and the check of the
    receiving side. *)

From S2P Require Import Prelude PathFs FsJob FsSend FsTransfer.
Import Path Fs Names Job Send Sender.

Module Confirming.

Section Handshake.
Context (zstd_compress : list Z -> option (list Z)) (fs : Fs) (base : string).

(** A job that asks before it sends. *)
Record asking (j : TransferJob) (e : FileEntry) : Prop := mkAsking {
  as_source : j.(data_source) = FilePath base;
  as_type : j.(type) = Generic;
  as_eod : j.(enable_overwrite_detection) = true;
  as_last : j.(is_last_job) = false;
  as_cur : cur_file j = Some e;
  as_conf : j.(file_confirmed) = false }.

Lemma waiting_silent j e ds reads : asking j e -> j.(data_stream) = Some ds -> j.(file_is_waiting) = true ->
  handle_read_jobs zstd_compress fs [j] reads = ([j], []).
Proof.
  intros [H1 H2 H3 H4 H5 H6] Hd Hw. unfold handle_read_jobs. cbn [init_jobs]. rewrite H4.
  unfold init_data_stream, open_data_stream. rewrite H1, H5, Hd. unfold must_ask. rewrite Hw, andb_false_r.
  cbn [read_first]. rewrite H4. unfold read. rewrite H2, H3, H6. cbn.
  unfold job_completed. rewrite H3, H6, Hw. done.
Qed.

Lemma waiting_run j e ds calls : asking j e -> j.(data_stream) = Some ds -> j.(file_is_waiting) = true ->
  send_run zstd_compress fs [j] calls = ([j], []).
Proof.
  intros Ha Hd Hw. induction calls as [|reads calls IH]; [done|]. cbn [send_run].
  by rewrite (waiting_silent j e ds), IH.
Qed.

(** [read] on an open file of a job that may send. *)
Lemma read_any j e ds c ds2 reads : is_generic j.(type) && j.(enable_overwrite_detection) && negb j.(file_confirmed) = false ->
  j.(data_source) = FilePath base -> cur_file j = Some e -> j.(data_stream) = Some ds ->
  read_loop (S (length (remaining fs ds))) fs ds [] reads = Ok (c, ds2) ->
  exists j', read zstd_compress fs j reads = (Ok (Some (if is_nil c then end_block j.(id) j.(file_num)
    else data_block zstd_compress j.(id) j.(file_num) (current_name j base e) c)), j').
Proof.
  intros Hg Hsrc Hc Hd Hloop. unfold read. rewrite Hg, Hsrc, Hc, Hd, Hloop.
  destruct (is_nil c) eqn:En; cbn [with_num_stream data_source]; rewrite Hsrc; cbn [is_file_path negb andb]; [by eexists|].
  unfold data_block, encode. destruct (negb (is_compressed_file _) && _); by eexists.
Qed.

(** A job with an open file that may be sent: the next call sends what the stream gives next. *)
Lemma confirmed_sends k e h reads : k.(data_source) = FilePath base -> k.(is_last_job) = false -> k.(file_confirmed) = true ->
  cur_file k = Some e -> k.(data_stream) = Some (FileStream h) -> h.(h_mode) = MRead -> 0 <= h.(h_pos) -> Forall (fun o => o <> None) reads ->
  exists k', handle_read_jobs zstd_compress fs [k] reads =
    ([k'], [MBlock (if is_nil (remaining fs (FileStream h)) then end_block k.(id) k.(file_num)
                    else data_block zstd_compress k.(id) k.(file_num) (current_name k base e) (ztake BUF_SIZE (remaining fs (FileStream h))))]).
Proof.
  intros Hsrc Hlast Hc Hcur Hd Hm Hp Hre. destruct (read_block fs (FileStream h) reads) as (ds2 & Hloop & _); [by split|done|].
  assert (Hinit : init_jobs fs [k] = ([k], [])).
  { cbn [init_jobs]. rewrite Hlast. unfold init_data_stream, open_data_stream. rewrite Hsrc, Hcur, Hd. unfold must_ask. by rewrite Hc, andb_false_r. }
  assert (Hg : is_generic k.(type) && k.(enable_overwrite_detection) && negb k.(file_confirmed) = false) by (by rewrite Hc, andb_false_r).
  destruct (read_any k e (FileStream h) _ ds2 reads Hg Hsrc Hcur Hd Hloop) as (k' & Hk'). rewrite is_nil_ztake in Hk' by apply zlen_buf_pos.
  exists k'. unfold handle_read_jobs. rewrite Hinit. cbn [read_first]. by rewrite Hlast, Hk'.
Qed.

(** Moving a reading job in its open file. *)
Lemma stream_offset j e path h n off : j.(data_source) = FilePath base -> zget j.(files) n = Some e -> 0 <= n ->
  resolve_entry_path fs j base e.(name) = Some path -> exists_ fs (download_path path) && exists_ fs (digest_path path) = false ->
  open_read fs path = Ok h -> exists_ fs path = true ->
  set_stream_offset fs j n off =
    (with_counts (with_num_stream j j.(file_num) (Some (FileStream (mkH h.(h_ino) off h.(h_mode)))))
       (wrap 64 (j.(finished_size) + off)) (wrap 64 (j.(transferred) + off)), fs).
Proof.
  intros Hsrc Hg Hn Hr Hno Ho Hex. unfold set_stream_offset. rewrite Hsrc, Hg, Hr, Hno, Ho, Hex.
  destruct (zlen (files j) <=? n) eqn:E; [|done]. bool_to_prop. unfold zget in Hg. destruct (0 <=? n) eqn:E0; [|done].
  apply lookup_lt_Some in Hg. lia.
Qed.

(** C18: with overwrite detection on, nothing of a file is sent before the peer has decided.
    However often the job is served, it sends one digest (the file's time and size) and then
    waits, neither sending data nor finishing; a confirmation for another file changes
    nothing (the connection manager's variant of the call returns the same digest); a refusal
    moves on to the next file with nothing open; and an acceptance, in either of its forms, makes
    the next call send the file's first block: from the beginning if it names no offset or the
    offset 0, as a peer does that has nothing of the file, and from the offset if it names one
    (for a file with a valid name, and no partial download of its own beside it), ending the file
    at once if nothing is left there. *)
Theorem confirm_protocol (j : TransferJob) (e : FileEntry) (h : Handle) (x : Inode)
    (reads : list (option Z)) (calls : list (list (option Z))) :
  asking j e -> j.(data_stream) = None -> 0 <= j.(file_num) < 2 ^ 31 - 1 ->
  open_read fs (job_join base e.(name)) = Ok h -> h.(h_mode) = MRead -> h.(h_pos) = 0 ->
  fs.(inodes) !! h.(h_ino) = Some x -> 0 <= x.(i_mtime) ->
  let block data := MBlock (if is_nil data then end_block j.(id) j.(file_num)
                            else data_block zstd_compress j.(id) j.(file_num) (current_name j base e) (ztake BUF_SIZE data)) in
  exists j', send_run zstd_compress fs [j] (reads :: calls) =
      ([j'], [MDigest j.(id) j.(file_num) x.(i_mtime) (zlen x.(i_data)) j.(is_resume)]) /\
    j'.(file_confirmed) = false /\ j'.(file_is_waiting) = true /\ j'.(file_num) = j.(file_num) /\
    init_data_stream_for_cm fs j = (Ok (Some (x.(i_mtime), zlen x.(i_data))), j') /\
    (forall fs2 r, r.(c_file_num) <> j.(file_num) -> confirm fs2 j' r = (j', fs2)) /\
    (forall fs2, let '(k, fs3) := confirm fs2 j' (mkConfirm j.(file_num) (Skip true)) in
       fs3 = fs2 /\ k.(file_num) = j.(file_num) + 1 /\ k.(data_stream) = None /\ k.(file_skipped) = true /\
       k.(file_confirmed) = false /\ k.(file_is_waiting) = false) /\
    (forall reads2 yes, Forall (fun o => o <> None) reads2 -> yes = Skip false \/ yes = OffsetBlk 0 ->
       let '(k, fs3) := confirm fs j' (mkConfirm j.(file_num) yes) in
       fs3 = fs /\ k.(file_confirmed) = true /\
       exists k', handle_read_jobs zstd_compress fs [k] reads2 = ([k'], [block x.(i_data)])) /\
    (forall reads2 off path, Forall (fun o => o <> None) reads2 -> 0 < off -> path = job_join base e.(name) ->
       resolve_entry_path fs j base e.(name) = Some path -> exists_ fs (download_path path) && exists_ fs (digest_path path) = false ->
       exists_ fs path = true ->
       let '(k, fs3) := confirm fs j' (mkConfirm j.(file_num) (OffsetBlk off)) in
       fs3 = fs /\ k.(file_confirmed) = true /\
       exists k', handle_read_jobs zstd_compress fs [k] reads2 = ([k'], [block (zdrop off x.(i_data))])).
Proof.
  intros Ha Hd Hn Ho Hm Hp Hi Ht block. destruct (Ha) as [H1 H2 H3 H4 H5 H6].
  set (j1 := with_flags (with_num_stream j (file_num j) (Some (FileStream h))) false (file_skipped j) false).
  set (j' := set_file_is_waiting j1 true).
  assert (Hc2 : cur_file j' = Some e) by done. assert (Ha' : asking j' e) by (by split).
  assert (Hopen : open_data_stream fs j = (Ok false, j1)) by (unfold open_data_stream; by rewrite H1, H5, Hd, Ho).
  assert (Hask : must_ask j1 = true) by (unfold must_ask; cbn; by rewrite H2, H3).
  assert (Hdg : get_current_digest fs j1 = Ok (x.(i_mtime), zlen x.(i_data))).
  { unfold get_current_digest. cbn [data_stream j1 with_flags with_num_stream]. rewrite Hi. destruct (_ <? 0) eqn:E; [bool_to_prop; lia|done]. }
  assert (Hfirst : handle_read_jobs zstd_compress fs [j] reads =
    ([j'], [MDigest j.(id) j.(file_num) x.(i_mtime) (zlen x.(i_data)) j.(is_resume)])).
  { unfold handle_read_jobs. cbn [init_jobs]. rewrite H4. unfold init_data_stream, send_current_digest. rewrite Hopen, Hask, Hdg.
    cbn [rbind]. fold j'. cbn [read_first]. rewrite (as_last _ _ Ha'). unfold read.
    rewrite (as_type _ _ Ha'), (as_eod _ _ Ha'), (as_conf _ _ Ha'). cbn [is_generic andb negb].
    unfold job_completed. rewrite (as_eod _ _ Ha'). done. }
  assert (Hsame : (j'.(file_num) =? j.(file_num)) = true) by apply Z.eqb_refl.
  assert (Hdata : forall off, 0 <= off -> remaining fs (FileStream (mkH h.(h_ino) off h.(h_mode))) = zdrop off x.(i_data)).
  { intros off _. cbn. unfold inode_data. by rewrite Hi. }
  assert (Hh : h = mkH h.(h_ino) 0 h.(h_mode)) by (destruct h; cbn in *; congruence).
  exists j'. split_and!; try done.
  - cbn [send_run]. rewrite Hfirst. rewrite (waiting_run j' e (FileStream h)) by done. done.
  - unfold init_data_stream_for_cm. by rewrite Hopen, Hask, Hdg.
  - intros fs2 r Hr. unfold confirm. change (file_num j') with (file_num j).
    rewrite (proj2 (Z.eqb_neq _ _)) by congruence. done.
  - intros fs2. unfold confirm. cbn [c_file_num c_union]. rewrite Hsame. cbn.
    split_and!; try done. unfold swrap. rewrite Z.mod_small; lia.
  - intros reads2 yes Hre Hyes. assert (Hk : confirm fs j' (mkConfirm j.(file_num) yes) = (set_file_confirmed j' true, fs)).
    { unfold confirm. cbn [c_file_num c_union]. rewrite Hsame. by destruct Hyes as [-> | ->]. }
    rewrite Hk. split_and!; [done|done|]. destruct (confirmed_sends (set_file_confirmed j' true) e h reads2) as (k' & Hk'); try done; [lia|].
    exists k'. rewrite Hk', Hh, Hdata by lia. done.
  - intros reads2 off path Hre Hoff -> Hr Hno Hex. unfold confirm. cbn [c_file_num c_union]. rewrite Hsame. cbn [negb].
    destruct (0 <? off) eqn:E; [|bool_to_prop; lia]. rewrite as_usize_small by lia.
    assert (Hz : zget (files j) (file_num j) = Some e) by (unfold cur_file in H5; by rewrite as_usize_small in H5 by lia).
    rewrite (stream_offset _ e _ h) by (done || lia). split_and!; [done|done|].
    destruct (confirmed_sends (with_counts (with_num_stream (set_file_confirmed j' true) j.(file_num) (Some (FileStream (mkH h.(h_ino) off h.(h_mode)))))
      (wrap 64 (j.(finished_size) + off)) (wrap 64 (j.(transferred) + off))) e (mkH h.(h_ino) off h.(h_mode)) reads2) as (k' & Hk'); try done; [cbn; lia|].
    exists k'. rewrite Hdata in Hk' by lia. exact Hk'.
Qed.

End Handshake.

Definition ask_job : TransferJob := new_job 4 Generic (FilePath "/src") 1 src_files 3 true.

Lemma confirm_protocol_witness :
  exists j', send_run Some src_fs [ask_job] [[]; []; []] = ([j'], [MDigest 4 1 6 3 false]) /\ j'.(file_is_waiting) = true /\
    (exists k', handle_read_jobs Some src_fs [(confirm src_fs j' (mkConfirm 1 (OffsetBlk 0))).1] [] = ([k'], [MBlock (mkBlock 4 1 [1; 2; 3] false)])) /\
    (exists k', handle_read_jobs Some src_fs [(confirm src_fs j' (mkConfirm 1 (OffsetBlk 2))).1] [] = ([k'], [MBlock (mkBlock 4 1 [3] false)])).
Proof.
  destruct (confirm_protocol Some src_fs "/src" ask_job (mkEntry Names.File "b.txt" false 3 6) (mkH 1 0 MRead)
    (mkInode [1; 2; 3] 6) [] [[]; []]) as (j' & H1 & _ & H2 & H3 & _ & _ & _ & H4 & H5); try reflexivity; try done.
  exists j'. split_and!; [exact H1|exact H2| |].
  - specialize (H4 [] (OffsetBlk 0) ltac:(constructor) (or_intror eq_refl)). destruct (confirm _ _ _) as [k fs3]. destruct H4 as (_ & _ & H4). exact H4.
  - specialize (H5 [] 2 "/src/b.txt"%string ltac:(constructor) ltac:(lia) eq_refl eq_refl eq_refl eq_refl).
    change (file_num ask_job) with 1 in H5. destruct (confirm src_fs j' (mkConfirm 1 (OffsetBlk 2))) as [k fs3]. destruct H5 as (_ & _ & H5). exact H5.
Defined.

(** ** The receiving side *)

(** Whether a partial download of the same remote file is there. *)
Definition resumable (parse_digest : list Z -> option FileDigest) (fs : Fs) (path : string) (d : Digest) (len : Z) : Prop :=
  exists c m, metadata fs (digest_path path) = Ok c /\ parse_digest c.(i_data) = Some (mkDigest d.(dg_file_size) d.(dg_last_modified)) /\
    metadata fs (download_path path) = Ok m /\ len = zlen m.(i_data) /\ 0 < len.

(** The receiver's answer to a digest is what the user should decide on.  It offers to
    resume exactly when the transfer is a resumption, the stored digest names the same remote
    time and size, and a non-empty partial file is there, whose length it reports; otherwise
    it reports the existing file's own time and size, identical exactly when both agree with
    the remote ones; and it says there is no such file only when no regular file is there and
    nothing could be resumed. *)
Theorem write_confirmation (parse_digest : list Z -> option FileDigest) (fs : Fs) (is_resume : bool) (path : string) (d : Digest) :
  match is_write_need_confirmation parse_digest fs is_resume path d with
  | Ok (NeedConfirm r) =>
    r.(dg_id) = d.(dg_id) /\ r.(dg_file_num) = d.(dg_file_num) /\
    ((is_resume = true /\ resumable parse_digest fs path d r.(dg_transferred_size) /\ r.(dg_is_identical) = true /\
      r.(dg_last_modified) = d.(dg_last_modified) /\ r.(dg_file_size) = d.(dg_file_size)) \/
     (r.(dg_transferred_size) = 0 /\ is_file fs path = true /\
      (exists m, metadata fs path = Ok m /\ r.(dg_last_modified) = m.(i_mtime) /\ r.(dg_file_size) = zlen m.(i_data) /\
         (r.(dg_is_identical) = true <-> d.(dg_last_modified) = m.(i_mtime) /\ d.(dg_file_size) = zlen m.(i_data)))))
  | Ok NoSuchFile =>
    is_file fs path = false /\
    (is_resume = true -> forall len, is_file fs (digest_path path) = true -> ~ resumable parse_digest fs path d len)
  | Err _ => is_file fs path = true
  end.
Proof.
  unfold is_write_need_confirmation.
  assert (Hres : match (if is_resume && exists_ fs (digest_path path) && exists_ fs (download_path path)
      then resume_check parse_digest fs path d else None) with
    | Some (NeedConfirm r) => r.(dg_id) = d.(dg_id) /\ r.(dg_file_num) = d.(dg_file_num) /\ is_resume = true /\
        resumable parse_digest fs path d r.(dg_transferred_size) /\ r.(dg_is_identical) = true /\
        r.(dg_last_modified) = d.(dg_last_modified) /\ r.(dg_file_size) = d.(dg_file_size)
    | Some NoSuchFile => False
    | None => is_resume = true -> forall len, is_file fs (digest_path path) = true -> ~ resumable parse_digest fs path d len
    end).
  { assert (Hex : forall p m, metadata fs p = Ok m -> exists_ fs p = true).
    { intros p m. unfold metadata, exists_. by destruct (stat fs p). }
    destruct (is_resume && exists_ fs (digest_path path) && exists_ fs (download_path path)) eqn:Eg.
    - apply andb_true_iff in Eg as [Eg _]. apply andb_true_iff in Eg as [Hr _]. unfold resume_check.
      destruct (metadata fs (digest_path path)) as [c|] eqn:Ec; [|intros _ len _ (c & m & Hc & _); congruence].
      destruct (is_file fs (digest_path path)) eqn:Ef; [|done]. cbn [negb].
      destruct (parse_digest (i_data c)) as [[ls lm]|] eqn:Ep; [|intros _ len _ (c' & m & Hc & Hp & _); simplify_eq; congruence].
      cbn [d_modified d_size].
      destruct ((lm =? dg_last_modified d) && (ls =? dg_file_size d)) eqn:Ei.
      + bool_to_prop. subst. destruct (metadata fs (download_path path)) as [m|] eqn:Em; [|intros _ len _ (c' & m & _ & _ & Hm & _); congruence].
        destruct (0 <? zlen (i_data m)) eqn:El; bool_to_prop.
        * cbn. split_and!; try done. by exists c, m.
        * intros _ len _ (c' & m' & _ & _ & Hm & -> & Hl). rewrite Em in Hm. simplify_eq. lia.
      + intros _ len _ (c' & m & Hc & Hp & _). rewrite Ec in Hc. injection Hc as <-. rewrite Ep in Hp. injection Hp as -> ->. by rewrite !Z.eqb_refl in Ei.
    - intros -> len _ (c & m & Hc & _ & Hm & _). by rewrite (Hex _ _ Hc), (Hex _ _ Hm) in Eg. }
  destruct (if is_resume && _ && _ then _ else None) as [[r|]|]; [|done|].
  { destruct Hres as (H1 & H2 & H3). split_and!; [done|done|by left]. }
  destruct (is_file fs path) eqn:Ef; [|by rewrite andb_false_r].
  assert (Hex : exists_ fs path = true) by (revert Ef; unfold is_file, exists_; by destruct (stat fs path)).
  rewrite Hex. cbn [andb]. destruct (metadata fs path) as [m|] eqn:Em; [|done]. cbn [rbind].
  destruct (i_mtime m <? 0); [done|]. cbn. split_and!; [done|done|right]. split_and!; [done|done|].
  exists m. split_and!; [done..|]. rewrite andb_true_iff, !Z.eqb_eq. done.
Qed.

End Confirming.
