(* ===== verification/CmFs.v ===== *)
(** The file commands of a session, as the connection manager carries them out:
    [handle_fs] of [src/ui_cm_interface.rs] with the calls it makes, and the tick that serves
    the jobs that read.  The file system is that of [PathFs]; the jobs are those of [FsJob] and
    [FsSend].  A message serialised for the pipe is the value that is serialised; a blocking
    call that panics is left out. *)

From Stdlib Require Import Ascii.
From S2P Require Import Prelude PathFs FsJob FsSend FsSafe FsWalk FsManage.
Import Path Fs Names Job Send Walk Manage.

Module CmFs.

(** [ipc::FS] *)
Inductive FS :=
| ReadEmptyDirs (dir : string) (include_hidden : bool)
| ReadDir (dir : string) (include_hidden : bool)
| RemoveDir (path : string) (id : Z) (recursive : bool)
| RemoveFile (path : string) (id file_num : Z)
| CreateDir (path : string) (id : Z)
| NewWrite (path : string) (id file_num : Z) (files : list (string * Z)) (overwrite_detection : bool) (total_size conn_id : Z)
| CancelWrite (id : Z)
| WriteBlock (id file_num : Z) (data : list Z) (compressed : bool)
| WriteDone (id file_num : Z)
| WriteError (id file_num : Z) (err : string)
| WriteOffset (id file_num offset_blk : Z)
| CheckDigest (id file_num file_size last_modified : Z) (is_upload is_resume : bool)
| SendConfirm (r : option (Z * Confirm))
| Rename (id : Z) (path new_name : string)
| ReadFile (path : string) (id file_num : Z) (include_hidden : bool) (conn_id : Z) (overwrite_detection : bool)
| CancelRead (id conn_id : Z)
| SendConfirmForRead (id file_num : Z) (skip : bool) (offset_blk conn_id : Z)
| ReadAllFiles (path : string) (id : Z) (include_hidden : bool) (conn_id : Z).

(** The messages a session gets back, and the log lines for the user interface. *)
Inductive Message :=
| NewError (id : Z) (err : JobErr) (file_num : Z)
| NewDone (id file_num : Z)
| NewSendConfirm (id file_num : Z) (u : ConfirmUnion)
| NewDigest (d : Digest) (is_upload : bool)
| NewDir (fd : FileDirectory)
| NewEmptyDirs (path : string) (dirs : list FileDirectory).

Inductive Data :=
| RawMessage (m : Message)
| ReadJobInitResult (id file_num : Z) (include_hidden : bool) (conn_id : Z) (r : result FileDirectory JobErr)
| FileBlockFromCM (id file_num : Z) (data : list Z) (compressed : bool) (conn_id : Z)
| FileReadDone (id file_num conn_id : Z)
| FileReadError (id file_num : Z) (err : JobErr) (conn_id : Z)
| FileDigestFromCM (id file_num last_modified file_size : Z) (is_resume : bool) (conn_id : Z)
| AllFilesResult (id conn_id : Z) (path : string) (r : result FileDirectory JobErr)
| JobLog (job : TransferJob) (done cancel : bool) (error : string).

Record State := mkCm { cm_fs : Fs; write_jobs : list TransferJob; read_jobs : list TransferJob }.

(** ** The file manager's calls *)

Section Calls.
(** The home directory, the bound on the number of files of a job, and a depth. *)
Variable home : string.
Variable max_files : Z.
Variable fuel : nat.

Definition check_file_count_limit (file_count : Z) : result unit JobErr :=
  if max_files <? file_count then Err (Bail "file transfer rejected: too many files") else Ok tt.

Definition read_empty_dirs (fs : Fs) (dir : string) (include_hidden : bool) : list Data :=
  match get_empty_dirs_recursive fuel fs dir include_hidden with
  | Ok fds => [RawMessage (NewEmptyDirs dir fds)]
  | Err _ => []
  end.

Definition read_dir (fs : Fs) (dir : string) (include_hidden : bool) : list Data :=
  let path := if is_empty dir then home else dir in
  [RawMessage (match Walk.read_dir fs path include_hidden with
   | Ok entries => NewDir (mkFd 0 path entries)
   | Err e => NewError 0 (Io e) (-1)
   end)].

Definition handle_result (res : result unit JobErr) (id file_num : Z) : list Data :=
  [RawMessage (match res with Err err => NewError id err file_num | Ok _ => NewDone id file_num end)].

(** The result of a call on the file system, and the file system after it. *)
Definition outcome (fs : Fs) (r : result Fs JobErr) : result unit JobErr * Fs :=
  match r with Ok fs => (Ok tt, fs) | Err e => (Err e, fs) end.

Definition remove_file (fs : Fs) (path : string) (id file_num : Z) : Fs * list Data :=
  let '(res, fs) := outcome fs (Manage.remove_file fs path) in (fs, handle_result res id file_num).
Definition create_dir (fs : Fs) (path : string) (id : Z) : Fs * list Data :=
  let '(res, fs) := Manage.create_dir fs path in (fs, handle_result res id 0).
Definition rename_file (fs : Fs) (path new_name : string) (id : Z) : Fs * list Data :=
  let '(res, fs) := outcome fs (Manage.rename_file fs path new_name) in (fs, handle_result res id 0).
Definition remove_dir (fs : Fs) (path : string) (id : Z) (recursive : bool) : Fs * list Data :=
  let '(res, fs) := outcome fs (io (if recursive then remove_all_empty_dir fuel fs path else rmdir fs path)) in
  (fs, handle_result res id 0).

Definition read_all_files (fs : Fs) (path : string) (include_hidden : bool) (id conn_id : Z) : list Data :=
  [AllFilesResult id conn_id path
    (rbind (io (get_recursive_files fuel fs path include_hidden)) (fun files =>
     rbind (check_file_count_limit (zlen files)) (fun _ => Ok (mkFd id path files))))].

Definition start_read_job (fs : Fs) (path : string) (file_num : Z) (include_hidden : bool) (id conn_id : Z)
    (overwrite_detection : bool) (jobs : list TransferJob) : list TransferJob * list Data :=
  let answer := ReadJobInitResult id file_num include_hidden conn_id in
  match new_read fuel fs id Generic (FilePath path) file_num include_hidden overwrite_detection with
  | Ok job =>
    match check_file_count_limit (zlen job.(files)) with
    | Err msg => (jobs, [answer (Err msg)])
    | Ok _ => (jobs ++ [with_meta job (mkMeta "" include_hidden true conn_id)], [answer (Ok (mkFd id path job.(files)))])
    end
  | Err e => (jobs, [answer (Err (Io e))])
  end.

(** ** The dispatch *)

Section Coder.
Variable zstd_compress zstd_decode : list Z -> option (list Z).
Variable digest_json : FileDigest -> list Z.
Variable parse_digest : list Z -> option FileDigest.
(** Whether there is a user interface that shows the log. *)
Variable logging : bool.

Definition log (j : TransferJob) (done cancel : bool) (error : string) : list Data :=
  if logging then [JobLog j done cancel error] else [].

(** [FileEntry] of a name and a time: the other fields have their defaults. *)
Definition to_entry (f : string * Z) : FileEntry := mkEntry Dir f.1 false 0 f.2.

Definition with_total (j : TransferJob) (n : Z) : TransferJob :=
  mkJob j.(id) j.(type) j.(data_source) j.(is_last_job) j.(is_resume) j.(file_num) j.(files) j.(data_stream) n
    j.(finished_size) j.(transferred) j.(enable_overwrite_detection) j.(file_confirmed) j.(file_skipped)
    j.(file_is_waiting) j.(default_overwrite_strategy) j.(digest) j.(meta).

Definition new_write_job (fs : Fs) (path : string) (id file_num : Z) (entries : list (string * Z))
    (overwrite_detection : bool) (total_size conn : Z) : result TransferJob JobErr :=
  rbind (set_files fs (new_write id Generic (FilePath path) file_num overwrite_detection) (to_entry <$> entries))
    (fun job => Ok (with_meta (with_total job total_size) (mkMeta "" false false conn))).

(** The job's file is compared with what is there already. *)
Definition check_digest (fs : Fs) (job : TransferJob) (id file_num file_size last_modified : Z) (is_upload is_resume : bool)
    : TransferJob * list Data :=
  match zget job.(files) (as_usize file_num), job.(data_source) with
  | Some file, FilePath p =>
    let path := job_join p file.(name) in
    match is_write_need_confirmation parse_digest fs is_resume path (mkDg id file_num last_modified file_size false 0) with
    | Ok digest_result =>
      (set_digest job file_size last_modified,
       [RawMessage (match digest_result with
        | NeedConfirm digest => NewDigest digest is_upload
        | NoSuchFile => NewSendConfirm id file_num (OffsetBlk 0)
        end)])
    | Err err => (job, [RawMessage (NewError id (Io err) file_num)])
    end
  | _, _ => (job, [])
  end.

(** [handle_fs]; [wr]: what the system makes of a write, for a block. *)
Definition handle_fs (cmd : FS) (wr : IoOk) (s : State) : State * list Data :=
  let fs := s.(cm_fs) in
  let with_fs r := let '(fs, out) := r in (mkCm fs s.(write_jobs) s.(read_jobs), out) in
  match cmd with
  | ReadEmptyDirs dir include_hidden => (s, read_empty_dirs fs dir include_hidden)
  | ReadDir dir include_hidden => (s, read_dir fs dir include_hidden)
  | RemoveDir path id recursive => with_fs (remove_dir fs path id recursive)
  | RemoveFile path id file_num => with_fs (remove_file fs path id file_num)
  | CreateDir path id => with_fs (create_dir fs path id)
  | NewWrite path id file_num entries overwrite_detection total_size conn =>
    match new_write_job fs path id file_num entries overwrite_detection total_size conn with
    | Err e => (s, [RawMessage (NewError id e file_num)])
    | Ok job => (mkCm fs (s.(write_jobs) ++ [job]) s.(read_jobs), [])
    end
  | CancelWrite id =>
    match get_job id s.(write_jobs) with
    | Some job => (mkCm (remove_download_file fs job) (remove_job id s.(write_jobs)) s.(read_jobs), log job false true "")
    | None => (s, [])
    end
  | WriteDone id file_num =>
    match get_job id s.(write_jobs) with
    | Some job => (mkCm (modify_time fs job) (remove_job id s.(write_jobs)) s.(read_jobs),
                   RawMessage (NewDone id file_num) :: log job true false "")
    | None => (s, [])
    end
  | WriteError id file_num err =>
    match get_job id s.(write_jobs) with
    | Some job => (mkCm fs (remove_job id s.(write_jobs)) s.(read_jobs),
                   log job false false err ++ [RawMessage (NewError job.(Job.id) (Bail err) file_num)])
    | None => (s, [])
    end
  | WriteBlock id file_num data compressed =>
    match get_job id s.(write_jobs) with
    | Some job =>
      let '(r, job, fs) := write zstd_decode digest_json fs job (mkBlock id file_num data compressed) wr in
      (mkCm fs (put_job id job s.(write_jobs)) s.(read_jobs),
       match r with Err err => [RawMessage (NewError id err file_num)] | Ok _ => [] end)
    | None => (s, [])
    end
  | CheckDigest id file_num file_size last_modified is_upload is_resume =>
    match get_job id s.(write_jobs) with
    | Some job =>
      let '(job, out) := check_digest fs job id file_num file_size last_modified is_upload is_resume in
      (mkCm fs (put_job id job s.(write_jobs)) s.(read_jobs), out)
    | None => (s, [])
    end
  | SendConfirm (Some (id, r)) =>
    match get_job id s.(write_jobs) with
    | Some job =>
      let '(job, fs) := confirm fs job r in (mkCm fs (put_job id job s.(write_jobs)) s.(read_jobs), [])
    | None => (s, [])
    end
  | SendConfirm None => (s, [])
  | Rename id path new_name => with_fs (rename_file fs path new_name id)
  | ReadFile path id file_num include_hidden conn_id overwrite_detection =>
    let '(jobs, out) := start_read_job fs path file_num include_hidden id conn_id overwrite_detection s.(read_jobs) in
    (mkCm fs s.(write_jobs) jobs, out)
  | CancelRead id _ =>
    match get_job id s.(read_jobs) with
    | Some job => (mkCm fs s.(write_jobs) (remove_job id s.(read_jobs)), log job false true "")
    | None => (s, [])
    end
  | SendConfirmForRead id _ skip offset_blk _ =>
    match get_job id s.(read_jobs) with
    | Some job =>
      let '(job, fs) := confirm fs job (mkConfirm job.(file_num) (if skip then Skip true else OffsetBlk offset_blk)) in
      (mkCm fs s.(write_jobs) (put_job id job s.(read_jobs)), [])
    | None => (s, [])
    end
  | ReadAllFiles path id include_hidden conn_id => (s, read_all_files fs path include_hidden id conn_id)
  | WriteOffset _ _ _ => (s, [])
  end.

(** ** The tick that serves the reading jobs *)

Definition init_read_job_for_cm (fs : Fs) (conn_id : Z) (job : TransferJob) : result (list Data) JobErr * TransferJob :=
  match init_data_stream_for_cm fs job with
  | (Err e, job) => (Err e, job)
  | (Ok (Some (last_modified, file_size)), job) =>
    (Ok [FileDigestFromCM job.(id) job.(file_num) last_modified file_size job.(is_resume) conn_id], job)
  | (Ok None, job) => (Ok [], job)
  end.

(** The loop: the jobs after it, what is sent, and the jobs that are finished. *)
Fixpoint tick_loop (fs : Fs) (conn_id : Z) (jobs : list TransferJob) (reads : list (option Z))
    : list TransferJob * list Data * list Z :=
  match jobs with
  | [] => ([], [], [])
  | job :: rest =>
    if job.(is_last_job) then
      let '(rest, out, finished) := tick_loop fs conn_id rest reads in (job :: rest, out, finished)
    else
      match init_read_job_for_cm fs conn_id job with
      | (Err err, job) =>
        let '(rest, out, finished) := tick_loop fs conn_id rest reads in
        (job :: rest, FileReadError job.(id) job.(file_num) err conn_id :: out, job.(id) :: finished)
      | (Ok out, job) =>
        match read zstd_compress fs job reads with
        | (Err err, job) => (job :: rest, out ++ [FileReadError job.(id) job.(file_num) err conn_id], [job.(id)])
        | (Ok (Some b), job) =>
          (job :: rest, out ++ [FileBlockFromCM b.(b_id) b.(b_file_num) b.(b_data) b.(b_compressed) conn_id], [])
        | (Ok None, job) =>
          if job_completed job then
            (job :: rest,
             out ++ [match job_error job with
                     | Some err => FileReadError job.(id) job.(file_num) (Bail err) conn_id
                     | None => FileReadDone job.(id) job.(file_num) conn_id
                     end], [job.(id)])
          else (job :: rest, out, [])
        end
      end
  end.

Definition handle_read_jobs_tick (conn_id : Z) (reads : list (option Z)) (s : State) : State * list Data :=
  let '(jobs, out, finished) := tick_loop s.(cm_fs) conn_id s.(read_jobs) reads in
  (mkCm s.(cm_fs) s.(write_jobs) (foldl (fun jobs jid => remove_job jid jobs) jobs finished), out).

(** ** The loop of a connection's task: a command of the session, or the timer *)

Inductive Event := Command (cmd : FS) (wr : IoOk) | Tick (reads : list (option Z)).

Definition step (conn_id : Z) (s : State) (ev : Event) : State * list Data :=
  match ev with
  | Command cmd wr => handle_fs cmd wr s
  | Tick reads => if is_nil s.(read_jobs) then (s, []) else handle_read_jobs_tick conn_id reads s
  end.

Fixpoint run (conn_id : Z) (s : State) (evs : list Event) : State * list Data :=
  match evs with
  | [] => (s, [])
  | ev :: evs =>
    let '(s, out1) := step conn_id s ev in
    let '(s, out2) := run conn_id s evs in (s, out1 ++ out2)
  end.

End Coder.
End Calls.

End CmFs.
