(* ===== verification/CmTheorems.v ===== *)
(** What the connection manager does to the disk for a session, whatever it is told. *)

From Stdlib Require Import Ascii.
From S2P Require Import Prelude PathFs FsJob FsSafe FsRecv FsShare FsSend FsWalk FsNames FsGuard FsManage CmFs.
Import Path Fs PathFacts FsFacts Names Job Safe Receiver Share Send Walk Only Single Confirmed Guard Manage CmFs.

Module Contain.

Section Confined.
Context (home : string) (max_files : Z) (fuel : nat).
Context (zstd_compress zstd_decode : list Z -> option (list Z)) (digest_json : FileDigest -> list Z)
  (parse_digest : list Z -> option FileDigest) (logging : bool) (conn_id : Z).
(** The directories of the uploads, with their real paths, and the disk at the start. *)
Context (fs0 : Fs) (R : list (string * rpath)).

Abbreviation step := (step home max_files fuel zstd_compress zstd_decode digest_json parse_digest logging conn_id).
Abbreviation run := (run home max_files fuel zstd_compress zstd_decode digest_json parse_digest logging conn_id).

(** An upload's place: a list of files in a directory, or a path below one: a single file by
    its path, or a directory that may not be there yet, and is no link. *)
Inductive placed : FS -> string -> rpath -> list FileEntry -> Prop :=
| placed_list path rb id num entries od total cid : (path, rb) ∈ R -> (forall f, entries = [f] -> f.1 <> ""%string) ->
    placed (NewWrite path id num entries od total cid) path rb (to_entry <$> entries)
| placed_under d x rb id num entries od total cid : (d, rb) ∈ R -> plain x -> (forall l, fs0.(nodes) !! (rb ++ [x]) <> Some (NLink l)) ->
    placed (NewWrite (join d x) id num entries od total cid) d rb (under_entry x <$> (to_entry <$> entries)).

(** Commands of transfers: not the file manager's own. *)
Definition transfer (ev : Event) : Prop :=
  match ev with
  | Command (RemoveDir _ _ _ | RemoveFile _ _ _ | CreateDir _ _ | Rename _ _ _) _ => False
  | Command (NewWrite _ _ _ _ _ _ _ as cmd) _ => exists base rb fls, placed cmd base rb fls
  | _ => True
  end.

(** The entries the uploads among the events name. *)
Definition touched (evs : list Event) (k : rpath) : Prop :=
  exists cmd wr base rb fls, Command cmd wr ∈ evs /\ placed cmd base rb fls /\ listed rb fls k.

(** The upload a command is for. *)
Definition upload_of (ev : Event) : option Z :=
  match ev with
  | Command (CancelWrite id | WriteBlock id _ _ _ | WriteDone id _ | WriteError id _ _ | CheckDigest id _ _ _ _ _ | SendConfirm (Some (id, _))) _ => Some id
  | _ => None
  end.

Definition dir_good (fs : Fs) (d : string * rpath) : Prop := base_ok fs d.1 d.2 /\ nosuf fs d.2.

Section Step.
Context (P : rpath -> Prop).

Definition job_good (fs : Fs) (j : TransferJob) : Prop := exists base rb ox, (base, rb) ∈ R /\ guarded P fs base rb ox j.

Record cm_ok (s : State) : Prop := mkCmOk {
  ck_wf : wf s.(cm_fs);
  ck_dirs : Forall (dir_good s.(cm_fs)) R;
  ck_links : forall k t, s.(cm_fs).(nodes) !! k = Some (NLink t) <-> fs0.(nodes) !! k = Some (NLink t);
  ck_jobs : Forall (job_good s.(cm_fs)) s.(write_jobs) }.

(** A change made for one upload. *)
Lemma cm_ok_change s fs' rb jobs reads : cm_ok s -> change_ok P rb s.(cm_fs) fs' ->
  (Forall (job_good fs') s.(write_jobs) -> Forall (job_good fs') jobs) -> cm_ok (mkCm fs' jobs reads).
Proof.
  intros [Hw Hd Hl Hj] Hc Hjobs. pose proof (ch_inside _ _ _ _ Hc) as Hi. split; cbn.
  - by eapply in_wf.
  - eapply Forall_impl; [exact Hd|]. intros [base rb0] [H1 H2]. split; [by eapply base_other|by eapply nosuf_other].
  - intros k t. by rewrite (in_links _ _ _ Hi).
  - apply Hjobs. eapply Forall_impl; [exact Hj|]. intros j (base & rb0 & ox & Hin & H1). exists base, rb0, ox.
    split; [done|]. by eapply guarded_other.
Qed.

Lemma cm_ok_jobs s jobs reads : cm_ok s -> Forall (job_good s.(cm_fs)) jobs -> cm_ok (mkCm s.(cm_fs) jobs reads).
Proof. by intros [Hw Hd Hl _]. Qed.

(** What a step does to the disk: nothing, or something for its upload. *)
Definition confined (ev : Event) (s s' : State) : Prop :=
  s'.(cm_fs) = s.(cm_fs) \/
  exists jid j base rb, upload_of ev = Some jid /\ get_job jid s.(write_jobs) = Some j /\ (base, rb) ∈ R /\
    (j.(data_source) = FilePath base \/ exists x, j.(data_source) = FilePath (join base x)) /\
    change_ok P rb s.(cm_fs) s'.(cm_fs).

Lemma guarded_source fs base rb ox j : guarded P fs base rb ox j ->
  j.(data_source) = FilePath base \/ exists x, j.(data_source) = FilePath (join base x).
Proof.
  intros [Ha Hok _ _]. destruct ox as [x|]; [right; exists x; apply Ha|left; apply Hok].
Qed.

Lemma new_write_good s path id num entries od total cid wr job : cm_ok s ->
  transfer (Command (NewWrite path id num entries od total cid) wr) ->
  (forall base rb fls k, placed (NewWrite path id num entries od total cid) base rb fls -> listed rb fls k -> P k) ->
  new_write_job s.(cm_fs) path id num entries od total cid = Ok job -> job_good s.(cm_fs) job.
Proof.
  intros Hok (base & rb & fls & Hp) HP. specialize (fun k => HP base rb fls k Hp) as HPk.
  unfold new_write_job. destruct (set_files _ _ _) as [j|] eqn:Es; [|done]. cbn [rbind]. intros [= <-].
  assert (Hg : exists ox, (base, rb) ∈ R /\ guarded P s.(cm_fs) base rb ox j).
  { inversion Hp; subst;
      pose proof (proj1 (Forall_forall _ _) (ck_dirs _ Hok) (base, rb) ltac:(done)) as [Hb Hns].
    - exists None. split; [done|]. eapply guarded_list; [exact Es| |apply Hok|done|done|exact HPk].
      intros f Hf. destruct entries as [|e [|]]; [done| |done]. injection Hf as <-. cbn. eauto.
    - eexists. split; [done|]. eapply guarded_under; [exact Es|done|apply Hok|done|done| |exact HPk]. intros l. rewrite (ck_links _ Hok). eauto. }
  destruct Hg as (ox & Hin & Hg). exists base, rb, ox. split; [done|]. by eapply guarded_update.
Qed.

Lemma step_confined s ev s' out : cm_ok s -> transfer ev -> (forall k, touched [ev] k -> P k) ->
  step s ev = (s', out) -> cm_ok s' /\ confined ev s s'.
Proof.
  intros Hok Ht HP. assert (Hsame : cm_ok s /\ confined ev s s) by (split; [done|by left]).
  assert (Hgood : forall jid j, get_job jid s.(write_jobs) = Some j -> exists base rb ox, (base, rb) ∈ R /\ guarded P s.(cm_fs) base rb ox j).
  { intros jid j Hg%get_job_elem. by apply (proj1 (Forall_forall _ _) (ck_jobs _ Hok)) in Hg. }
  assert (Hread : forall jobs, cm_ok (mkCm s.(cm_fs) s.(write_jobs) jobs) /\ confined ev s (mkCm s.(cm_fs) s.(write_jobs) jobs)).
  { intros jobs. split; [apply cm_ok_jobs; [done|apply Hok]|by left]. }
  destruct ev as [cmd wr|reads]; cbn [CmFs.step].
  2:{ destruct (is_nil (read_jobs s)); [by intros [= <- _]|]. unfold handle_read_jobs_tick.
      destruct (tick_loop _ _ _ _ _) as [[jobs o] fin]. intros [= <- _]. apply Hread. }
  destruct cmd as [| | | | |path id num entries od total cid|id|id num data comp|id num|id num err| |id num size modified up res|[[id r]|]| |path id num h cid od|id cid|id num skip off cid|];
    cbn [CmFs.handle_fs]; try done; try (by intros [= <- _]).
  - destruct (new_write_job _ _ _ _ _ _ _) as [job|] eqn:E; [|by intros [= <- _]]. intros [= <- _].
    split; [|by left]. apply cm_ok_jobs; [done|]. apply Forall_app. split; [apply Hok|]. constructor; [|done].
    eapply new_write_good; [done|exact Ht| |done]. intros base rb fls k Hp Hl. apply HP.
    exists (NewWrite path id num entries od total cid), wr, base, rb, fls. split_and!; [by left|done|done].
  - destruct (get_job id (write_jobs s)) as [j|] eqn:Eg; [|by intros [= <- _]]. intros [= <- _].
    destruct (Hgood _ _ Eg) as (base & rb & ox & Hin & Hj). pose proof (guarded_remove _ _ _ _ _ _ Hj) as Hc. split.
    + eapply cm_ok_change; [done|exact Hc|]. apply remove_job_forall.
    + right. exists id, j, base, rb. split_and!; try done. by eapply guarded_source.
  - destruct (get_job id (write_jobs s)) as [j|] eqn:Eg; [|by intros [= <- _]].
    destruct (Hgood _ _ Eg) as (base & rb & ox & Hin & Hj).
    destruct (write _ _ _ _ _ _) as [[r j'] fs'] eqn:Ew. intros [= <- _].
    destruct (guarded_write _ _ _ _ _ _ _ _ _ _ _ _ _ Hj Ew) as [Hc Hj']. split.
    + eapply cm_ok_change; [done|exact Hc|]. intros H. apply put_job_forall; [|done]. by exists base, rb, ox.
    + right. exists id, j, base, rb. split_and!; try done. by eapply guarded_source.
  - destruct (get_job id (write_jobs s)) as [j|] eqn:Eg; [|by intros [= <- _]]. intros [= <- _].
    destruct (Hgood _ _ Eg) as (base & rb & ox & Hin & Hj). pose proof (guarded_modify _ _ _ _ _ _ Hj) as Hc. split.
    + eapply cm_ok_change; [done|exact Hc|]. apply remove_job_forall.
    + right. exists id, j, base, rb. split_and!; try done. by eapply guarded_source.
  - destruct (get_job id (write_jobs s)) as [j|]; [|by intros [= <- _]]. intros [= <- _]. split; [|by left].
    apply cm_ok_jobs; [done|]. apply remove_job_forall, Hok.
  - destruct (get_job id (write_jobs s)) as [j|] eqn:Eg; [|by intros [= <- _]].
    destruct (Hgood _ _ Eg) as (base & rb & ox & Hin & Hj).
    assert (Hput : forall j', same_job j j' -> data_stream j' = data_stream j ->
      cm_ok (mkCm s.(cm_fs) (put_job id j' s.(write_jobs)) s.(read_jobs))).
    { intros j' E1 E2. apply cm_ok_jobs; [done|]. apply put_job_forall; [|apply Hok]. exists base, rb, ox. split; [done|]. by eapply guarded_update. }
    unfold check_digest. destruct (zget (files j) _) as [f|]; [|intros [= <- _]; split; [by apply Hput|by left]].
    destruct (data_source j) eqn:Es; [|intros [= <- _]; split; [by apply Hput|by left]].
    destruct (is_write_need_confirmation _ _ _ _ _); intros [= <- _]; (split; [by apply Hput|by left]).
  - destruct (get_job id (write_jobs s)) as [j|] eqn:Eg; [|by intros [= <- _]].
    destruct (Hgood _ _ Eg) as (base & rb & ox & Hin & Hj). pose proof (confirm_disk (cm_fs s) j r) as Hd.
    pose proof (guarded_confirm _ _ _ _ _ _ r Hj) as Hj'. destruct (confirm (cm_fs s) j r) as [j' fs'] eqn:Ec. cbn in Hd, Hj'. subst fs'.
    intros [= <- _]. split; [|by left]. apply cm_ok_jobs; [done|]. apply put_job_forall; [by exists base, rb, ox|apply Hok].
  - destruct (start_read_job _ _ _ _ _ _ _ _ _ _) as [jobs o]. intros [= <- _]. apply Hread.
  - destruct (get_job id (read_jobs s)); [|by intros [= <- _]]. intros [= <- _]. apply Hread.
  - destruct (get_job id (read_jobs s)) as [j|]; [|by intros [= <- _]].
    match goal with |- context [confirm ?f ?a ?b] => pose proof (confirm_disk f a b) as Hd; destruct (confirm f a b) as [j' fs'] end.
    cbn in Hd. subst fs'. intros [= <- _]. apply Hread.
Qed.

Lemma confined_only ev s s' : confined ev s s' -> only P s.(cm_fs) s'.(cm_fs).
Proof. intros [-> |(jid & j & base & rb & _ & _ & _ & _ & Hc)]; [apply only_refl|apply Hc]. Qed.

Lemma run_confined evs : forall s, cm_ok s -> Forall transfer evs -> (forall k, touched evs k -> P k) ->
  cm_ok (run s evs).1 /\ only P s.(cm_fs) (run s evs).1.(cm_fs).
Proof.
  induction evs as [|ev evs IH]; intros s Hok Ht HP; cbn [CmFs.run]; [split; [done|apply only_refl]|].
  apply Forall_cons in Ht as [Ht Hts]. destruct (step s ev) as [s1 out1] eqn:E1.
  destruct (step_confined s ev s1 out1 Hok Ht) as [Hok1 Hc]; [|done|].
  { intros k (cmd & wr & base & rb & fls & <-%list_elem_of_singleton & H). apply HP. exists cmd, wr, base, rb, fls. split; [by left|done]. }
  destruct (IH s1 Hok1 Hts) as [Hok2 Ho2].
  { intros k (cmd & wr & base & rb & fls & Hin & H). apply HP. exists cmd, wr, base, rb, fls. split; [by right|done]. }
  destruct (run s1 evs) as [s2 out2]. cbn in *. split; [done|]. eapply only_trans; [by eapply confined_only|done].
Qed.

End Step.

Lemma run_app s a b : (run s (a ++ b)).1 = (run (run s a).1 b).1.
Proof.
  revert s. induction a as [|ev a IH]; intros s; [done|]. cbn [app CmFs.run]. destruct (step s ev) as [s1 o1]. specialize (IH s1).
  destruct (run s1 (a ++ b)), (run s1 a). by cbn in *.
Qed.

Lemma start_ok : wf fs0 -> Forall (dir_good fs0) R -> forall P, cm_ok P (mkCm fs0 [] []).
Proof. intros Hw Hd P. by split. Qed.

(** C19: the connection manager keeps every upload in its place.  Take a disk on which the
    directories of the uploads are real directories without links that bear a temporary
    suffix, and any sequence of a session's commands without the four with which its file manager
    changes the disk itself (a session that renames a link to a temporary name gets its upload out
    of the directory, [rename_escapes]):
    uploads of lists of files (into a directory that is there or is still to be made) or of
    single files, blocks for any of them in any order,
    digests, confirmations, ends, cancellations, errors, listings, and reading jobs with
    their ticks, whatever fails on the way.  Then the only entries that come, go or change,
    and the only files whose contents change, are those an upload names (a file of its list,
    the same with ".download" or ".digest", or a directory on the way from its own directory);
    no link is made or lost anywhere; and each single step leaves the disk alone or acts for
    the one upload its command is for, strictly below that upload's directory, so that no
    upload, however it is interleaved with others, changes anything elsewhere. *)
Theorem uploads_contained (evs : list Event) :
  wf fs0 -> Forall (dir_good fs0) R -> Forall transfer evs ->
  let fs' := (run (mkCm fs0 [] []) evs).1.(cm_fs) in
  (forall k, ~ touched evs k -> fs'.(nodes) !! k = fs0.(nodes) !! k) /\
  (forall k i, ~ touched evs k -> fs0.(nodes) !! k = Some (NFile i) -> fs'.(inodes) !! i = fs0.(inodes) !! i) /\
  (forall k t, fs'.(nodes) !! k = Some (NLink t) <-> fs0.(nodes) !! k = Some (NLink t)) /\
  (forall pre ev post, evs = pre ++ ev :: post ->
     let s1 := (run (mkCm fs0 [] []) pre).1 in
     let s2 := (step s1 ev).1 in
     s2.(cm_fs) = s1.(cm_fs) \/
     exists jid j base rb, upload_of ev = Some jid /\ get_job jid s1.(write_jobs) = Some j /\ (base, rb) ∈ R /\
       (j.(data_source) = FilePath base \/ exists x, j.(data_source) = FilePath (join base x)) /\
       (forall k, ~ below rb k -> s2.(cm_fs).(nodes) !! k = s1.(cm_fs).(nodes) !! k) /\
       (forall k i, ~ below rb k -> s1.(cm_fs).(nodes) !! k = Some (NFile i) -> s2.(cm_fs).(inodes) !! i = s1.(cm_fs).(inodes) !! i)).
Proof.
  intros Hw Hd Ht. destruct (run_confined (touched evs) evs _ (start_ok Hw Hd _) Ht) as [Hok Ho]; [done|].
  destruct Ho as [On Oi]. cbn in On, Oi. cbn zeta. split_and!.
  - intros k Hk. by destruct (On k).
  - intros k i Hk Hi. by destruct (Oi k i Hi).
  - apply Hok.
  - intros pre ev post ->. apply Forall_app in Ht as [Ht1 Ht2]. apply Forall_cons in Ht2 as [Ht2 _].
    destruct (run_confined (touched (pre ++ ev :: post)) pre _ (start_ok Hw Hd _) Ht1) as [Hok1 _].
    { intros k (cmd & wr & base & rb & fls & Hin & H). exists cmd, wr, base, rb, fls. split; [apply elem_of_app; by left|done]. }
    destruct (step (run (mkCm fs0 [] []) pre).1 ev) as [s2 out] eqn:E.
    destruct (fun H => step_confined (touched (pre ++ ev :: post)) _ _ _ _ Hok1 Ht2 H E) as [_ Hc].
    { intros k (cmd & wr & base & rb & fls & <-%list_elem_of_singleton & H). exists cmd, wr, base, rb, fls. split; [apply elem_of_app; right; by left|done]. }
    destruct Hc as [Hc|(jid & j & base & rb & H1 & H2 & H3 & H4 & Hc)]; [by left|right].
    exists jid, j, base, rb. split_and!; try done; [apply (in_nodes _ _ _ (ch_inside _ _ _ _ Hc))|apply (in_inodes _ _ _ (ch_inside _ _ _ _ Hc))].
Qed.

End Confined.

(** Two uploads side by side: a list into [/srv/in] and one file to [/srv/a]. *)
Definition two_fs : Fs := tree
  [(["srv"], NDir); (["srv"; "in"], NDir); (["srv"; "b"], NFile 0)]%string [(0%nat, mkInode [1] 5)].
Definition two_events : list Event :=
  [Command (NewWrite "/srv/in" 1 0 [("x"%string, 9); ("d/y"%string, 9)] false 2 0) (mkIo true true);
   Command (NewWrite "/srv/a" 2 0 [(""%string, 9)] false 2 0) (mkIo true true);
   Command (WriteBlock 2 0 [7] false) (mkIo true true); Command (WriteBlock 1 1 [8] false) (mkIo true true);
   Command (WriteDone 2 0) (mkIo true true); Command (CancelWrite 1) (mkIo true true)].

(** Why the file manager's own commands are left aside: the session gives a link the temporary name
    of the second file it then uploads, and the block goes where the link points. *)
Definition link_fs : Fs := tree
  [(["srv"], NDir); (["srv"; "in"], NDir); (["srv"; "in"; "l"], NLink "/etc"); (["etc"], NFile 0)]%string [(0%nat, mkInode [1] 5)].
Example rename_escapes :
  let fs' := (run "/" 10 4 (fun _ => None) (fun _ => None) (fun _ => []) (fun _ => None) true 1 (mkCm link_fs [] [])
    [Command (Rename 7 "/srv/in/l" "x.download") (mkIo true true);
     Command (NewWrite "/srv/in" 1 0 [("a"%string, 9); ("x"%string, 9)] false 1 0) (mkIo true true);
     Command (WriteBlock 1 1 [66] false) (mkIo true true)]).1.(cm_fs) in
  inode_data link_fs 0 = [1] /\ fs'.(nodes) !! (["etc"]%string) = Some (NFile 0) /\ inode_data fs' 0 = [66].
Proof. vm_compute. done. Qed.

Lemma not_listed rb fls k : ~ below rb k -> ~ listed rb fls k.
Proof. intros Hn H. by apply Hn, (listed_below rb fls). Qed.

Lemma uploads_contained_witness :
  let fs' := (run "/" 10 4 (fun _ => None) (fun _ => None) (fun _ => []) (fun _ => None) true 1 (mkCm two_fs [] []) two_events).1.(cm_fs) in
  fs'.(nodes) !! (["srv"]%string) = Some NDir /\ fs'.(nodes) !! (["srv"; "a"]%string) = Some (NFile 1).
Proof.
  destruct (uploads_contained "/" 10 4 (fun _ => None) (fun _ => None) (fun _ => []) (fun _ => None) true 1 two_fs
    [("/srv/in", ["srv"; "in"]); ("/srv", ["srv"])]%string two_events) as (H1 & _).
  - apply wfb_wf. by vm_compute.
  - repeat constructor; cbn; try (by vm_compute); apply nolink_nosuf; by vm_compute.
  - repeat constructor.
    + eexists _, _, _. apply (placed_list two_fs _ "/srv/in" ["srv"; "in"]%string); [by left|done].
    + eexists _, _, _. apply (placed_under two_fs _ "/srv" "a" ["srv"]%string); [right; by left|by vm_compute|by vm_compute].
  - cbn zeta. split; [|by vm_compute]. rewrite H1; [done|].
    intros (cmd & wr & base & rb & fls & _ & Hp & Hl). revert Hl. apply not_listed.
    assert (Hin : (base, rb) ∈ [("/srv/in", ["srv"; "in"]); ("/srv", ["srv"])]%string) by (by inversion Hp).
    intros (c & cs & E). apply elem_of_cons in Hin as [[= -> ->]|[= -> ->]%list_elem_of_singleton]; destruct cs; discriminate E.
Defined.

End Contain.
