(* ===== verification/Float.v ===== *)
(** [f32]: IEEE binary32 as specified by the standard library's [SpecFloat]. *)

From Stdlib Require Import SpecFloat.
From S2P Require Import Prelude.

Module F32.

Definition f32 : Type := spec_float.
Definition of_Z (z : Z) : f32 := binary_normalize 24 128 z 0 false.
Definition fadd : f32 -> f32 -> f32 := SFadd 24 128.
Definition fsub : f32 -> f32 -> f32 := SFsub 24 128.
Definition fmul : f32 -> f32 -> f32 := SFmul 24 128.
Definition fdiv : f32 -> f32 -> f32 := SFdiv 24 128.
Definition feq (a b : f32) : bool := SFeqb a b.
Definition flt (a b : f32) : bool := SFltb a b.
Definition fle (a b : f32) : bool := SFleb a b.
Definition fzero : f32 := S754_zero false.
Definition fone : f32 := of_Z 1.
Definition is_nan (a : f32) : bool := match a with S754_nan => true | _ => false end.
(** The literal [n / d]: both are exact, so the quotient is the correctly rounded one. *)
Definition lit (n d : Z) : f32 := fdiv (of_Z n) (of_Z d).
(** [f32::max] and [f32::min] *)
Definition fmax (a b : f32) : f32 := if is_nan a then b else if is_nan b then a else if flt a b then b else a.
Definition fmin (a b : f32) : f32 := if is_nan a then b else if is_nan b then a else if flt b a then b else a.
(** [f32::clamp] panics unless [lo <= hi]. *)
Definition fclamp (v lo hi : f32) : option f32 :=
  if fle lo hi then
    let x := if flt v lo then lo else v in
    Some (if flt hi x then hi else x)
  else None.
(** [v.ceil() as u32] *)
Definition ceil_u32 (v : f32) : Z :=
  match v with
  | S754_finite s m e =>
    let z := if s then Z.neg m else Z.pos m in
    let c := if 0 <=? e then z * 2 ^ e else - ((- z) / 2 ^ (- e)) in
    Z.min (Z.max c 0) u32_max
  | S754_infinity false => u32_max
  | _ => 0
  end.

End F32.
