(* ===== verification/VideoQos.v ===== *)
(** The video quality controller: [src/server/video_qos.rs] and [Quality] of
    [libs/scrap/src/common/codec.rs].

    Single-precision numbers are those of [Float]; times are milliseconds of a monotonic clock, passed to the operations that
    read it.  An operation that can panic (a [clamp] with its bounds crossed) returns an
    option. *)

From Stdlib Require Import SpecFloat.
From S2P Require Import Prelude Float.

Module Qos.
Import F32.

Definition FPS : Z := 30.
Definition MIN_FPS : Z := 1.
Definition MAX_FPS : Z := 120.
Definition INIT_FPS : Z := 15.
Definition MIN_AUTO_FPS : Z := 5.
Definition BR_BEST : f32 := lit 15 10.
Definition BR_BALANCED : f32 := lit 67 100.
Definition BR_SPEED : f32 := lit 5 10.
Definition BR_MAX : f32 := lit 40 1.
Definition BR_MIN : f32 := lit 2 10.
Definition BR_MIN_HIGH_RESOLUTION : f32 := lit 1 10.
Definition MAX_BR_MULTIPLE : f32 := lit 1 1.
Definition HISTORY_DELAY_LEN : Z := 2.
Definition ADJUST_RATIO_INTERVAL : Z := 3.
Definition DYNAMIC_SCREEN_THRESHOLD : Z := 2.
Definition DELAY_THRESHOLD_150MS : Z := 150.
Definition RESTORE_GUARD_SAMPLES : Z := 5.

Inductive Quality := Best | Balanced | Low | Custom (v : f32).
Definition quality_ratio (q : Quality) : f32 :=
  match q with Best => BR_BEST | Balanced => BR_BALANCED | Low => BR_SPEED | Custom v => v end.

(** ** The delay baseline *)

Definition WINDOW_SAMPLES : Z := 20.
Definition MAX_INCREASE_MS : Z := 50.

Record RttCalculator := mkRtt { baseline : option Z; samples : list Z }.

Definition min_list (l : list Z) : option Z :=
  match l with [] => None | x :: l => Some (foldl Z.min x l) end.

Definition rtt_update (self : RttCalculator) (delay : Z) : RttCalculator :=
  let samples := if WINDOW_SAMPLES <=? zlen self.(samples) then zdrop 1 self.(samples) else self.(samples) in
  let samples := samples ++ [delay] in
  let baseline := Z.min (default delay self.(baseline)) delay in
  let keep := mkRtt (Some baseline) samples in
  if zlen samples <? WINDOW_SAMPLES then keep else
  let half := WINDOW_SAMPLES / 2 in
  match min_list (ztake half samples), min_list (zdrop half samples) with
  | Some older_min, Some recent_min =>
    if sat_add 32 older_min 10 <? recent_min then keep else
    let rise := sat_sub (Z.min older_min recent_min) baseline in
    if 0 <? rise then mkRtt (Some (baseline + clampZ (rise / 2) 1 MAX_INCREASE_MS)) samples else keep
  | _, _ => keep
  end.
Definition get_rtt (self : RttCalculator) : option Z := self.(baseline).

(** ** One viewer's delay *)

Record UserDelay := mkUD {
  stall_ticks : Z;
  delay_history : list Z;
  ufps : option Z;
  rtt_calculator : RttCalculator;
  quick_increase_fps_count : Z;
  increase_fps_count : Z;
  consecutive_bad_samples : Z;
  fps_bad_samples : Z;
  good_samples : Z;
  replies_after_bitrate_reduction : option Z;
  fps_before_congestion : option Z;
  samples_since_restore : option Z;
  stall_reference_fps : option Z;
  startup_good_samples : Z }.

Definition set_stall_ticks (d : UserDelay) (v : Z) : UserDelay :=
  mkUD v d.(delay_history) d.(ufps) d.(rtt_calculator) d.(quick_increase_fps_count) d.(increase_fps_count) d.(consecutive_bad_samples) d.(fps_bad_samples) d.(good_samples) d.(replies_after_bitrate_reduction) d.(fps_before_congestion) d.(samples_since_restore) d.(stall_reference_fps) d.(startup_good_samples).
Definition set_delay_history (d : UserDelay) (v : list Z) : UserDelay :=
  mkUD d.(stall_ticks) v d.(ufps) d.(rtt_calculator) d.(quick_increase_fps_count) d.(increase_fps_count) d.(consecutive_bad_samples) d.(fps_bad_samples) d.(good_samples) d.(replies_after_bitrate_reduction) d.(fps_before_congestion) d.(samples_since_restore) d.(stall_reference_fps) d.(startup_good_samples).
Definition set_ufps (d : UserDelay) (v : option Z) : UserDelay :=
  mkUD d.(stall_ticks) d.(delay_history) v d.(rtt_calculator) d.(quick_increase_fps_count) d.(increase_fps_count) d.(consecutive_bad_samples) d.(fps_bad_samples) d.(good_samples) d.(replies_after_bitrate_reduction) d.(fps_before_congestion) d.(samples_since_restore) d.(stall_reference_fps) d.(startup_good_samples).
Definition set_rtt_calculator (d : UserDelay) (v : RttCalculator) : UserDelay :=
  mkUD d.(stall_ticks) d.(delay_history) d.(ufps) v d.(quick_increase_fps_count) d.(increase_fps_count) d.(consecutive_bad_samples) d.(fps_bad_samples) d.(good_samples) d.(replies_after_bitrate_reduction) d.(fps_before_congestion) d.(samples_since_restore) d.(stall_reference_fps) d.(startup_good_samples).
Definition set_quick_increase_fps_count (d : UserDelay) (v : Z) : UserDelay :=
  mkUD d.(stall_ticks) d.(delay_history) d.(ufps) d.(rtt_calculator) v d.(increase_fps_count) d.(consecutive_bad_samples) d.(fps_bad_samples) d.(good_samples) d.(replies_after_bitrate_reduction) d.(fps_before_congestion) d.(samples_since_restore) d.(stall_reference_fps) d.(startup_good_samples).
Definition set_increase_fps_count (d : UserDelay) (v : Z) : UserDelay :=
  mkUD d.(stall_ticks) d.(delay_history) d.(ufps) d.(rtt_calculator) d.(quick_increase_fps_count) v d.(consecutive_bad_samples) d.(fps_bad_samples) d.(good_samples) d.(replies_after_bitrate_reduction) d.(fps_before_congestion) d.(samples_since_restore) d.(stall_reference_fps) d.(startup_good_samples).
Definition set_consecutive_bad_samples (d : UserDelay) (v : Z) : UserDelay :=
  mkUD d.(stall_ticks) d.(delay_history) d.(ufps) d.(rtt_calculator) d.(quick_increase_fps_count) d.(increase_fps_count) v d.(fps_bad_samples) d.(good_samples) d.(replies_after_bitrate_reduction) d.(fps_before_congestion) d.(samples_since_restore) d.(stall_reference_fps) d.(startup_good_samples).
Definition set_fps_bad_samples (d : UserDelay) (v : Z) : UserDelay :=
  mkUD d.(stall_ticks) d.(delay_history) d.(ufps) d.(rtt_calculator) d.(quick_increase_fps_count) d.(increase_fps_count) d.(consecutive_bad_samples) v d.(good_samples) d.(replies_after_bitrate_reduction) d.(fps_before_congestion) d.(samples_since_restore) d.(stall_reference_fps) d.(startup_good_samples).
Definition set_good_samples (d : UserDelay) (v : Z) : UserDelay :=
  mkUD d.(stall_ticks) d.(delay_history) d.(ufps) d.(rtt_calculator) d.(quick_increase_fps_count) d.(increase_fps_count) d.(consecutive_bad_samples) d.(fps_bad_samples) v d.(replies_after_bitrate_reduction) d.(fps_before_congestion) d.(samples_since_restore) d.(stall_reference_fps) d.(startup_good_samples).
Definition set_replies_after_bitrate_reduction (d : UserDelay) (v : option Z) : UserDelay :=
  mkUD d.(stall_ticks) d.(delay_history) d.(ufps) d.(rtt_calculator) d.(quick_increase_fps_count) d.(increase_fps_count) d.(consecutive_bad_samples) d.(fps_bad_samples) d.(good_samples) v d.(fps_before_congestion) d.(samples_since_restore) d.(stall_reference_fps) d.(startup_good_samples).
Definition set_fps_before_congestion (d : UserDelay) (v : option Z) : UserDelay :=
  mkUD d.(stall_ticks) d.(delay_history) d.(ufps) d.(rtt_calculator) d.(quick_increase_fps_count) d.(increase_fps_count) d.(consecutive_bad_samples) d.(fps_bad_samples) d.(good_samples) d.(replies_after_bitrate_reduction) v d.(samples_since_restore) d.(stall_reference_fps) d.(startup_good_samples).
Definition set_samples_since_restore (d : UserDelay) (v : option Z) : UserDelay :=
  mkUD d.(stall_ticks) d.(delay_history) d.(ufps) d.(rtt_calculator) d.(quick_increase_fps_count) d.(increase_fps_count) d.(consecutive_bad_samples) d.(fps_bad_samples) d.(good_samples) d.(replies_after_bitrate_reduction) d.(fps_before_congestion) v d.(stall_reference_fps) d.(startup_good_samples).
Definition set_stall_reference_fps (d : UserDelay) (v : option Z) : UserDelay :=
  mkUD d.(stall_ticks) d.(delay_history) d.(ufps) d.(rtt_calculator) d.(quick_increase_fps_count) d.(increase_fps_count) d.(consecutive_bad_samples) d.(fps_bad_samples) d.(good_samples) d.(replies_after_bitrate_reduction) d.(fps_before_congestion) d.(samples_since_restore) v d.(startup_good_samples).
Definition set_startup_good_samples (d : UserDelay) (v : Z) : UserDelay :=
  mkUD d.(stall_ticks) d.(delay_history) d.(ufps) d.(rtt_calculator) d.(quick_increase_fps_count) d.(increase_fps_count) d.(consecutive_bad_samples) d.(fps_bad_samples) d.(good_samples) d.(replies_after_bitrate_reduction) d.(fps_before_congestion) d.(samples_since_restore) d.(stall_reference_fps) v.

Definition ud_default : UserDelay := mkUD 0 [] None (mkRtt None []) 0 0 0 0 0 None None None None 0.

Definition u8_max : Z := 255.
Definition excess_of (self : UserDelay) (delay : Z) : Z :=
  sat_sub delay (default 0 (get_rtt self.(rtt_calculator))).

Definition add_delay (self : UserDelay) (delay : Z) : UserDelay :=
  let h := if HISTORY_DELAY_LEN <=? zlen self.(delay_history) then zdrop 1 self.(delay_history) else self.(delay_history) in
  set_delay_history self (h ++ [delay]).

Definition recover (self : UserDelay) (current_fps fps : Z) : UserDelay * Z :=
  let gradual := current_fps + Z.max (current_fps / 10) 1 in
  let level := match self.(fps_before_congestion) with
    | Some level => if current_fps <? level then Some level else None | None => None end in
  match level with
  | Some level =>
    if (self.(good_samples) =? 2) || (self.(good_samples) =? 3) then
      (set_samples_since_restore (set_fps_before_congestion self None) (Some 0), Z.max fps level)
    else (self, gradual)
  | None =>
    if self.(good_samples) =? 3 then
      (set_fps_before_congestion self None, Z.max fps (current_fps + Z.max (current_fps / 5) 2))
    else (self, gradual)
  end.

Definition on_reduction (self : UserDelay) (current_fps : Z) : UserDelay :=
  let self := set_startup_good_samples self u8_max in
  let self := set_good_samples self 0 in
  let self := set_fps_bad_samples self 0 in
  match self.(fps_before_congestion) with
  | None => set_fps_before_congestion self (Some current_fps)
  | Some _ => self
  end.

Definition within_guard (self : UserDelay) : bool :=
  match self.(samples_since_restore) with Some s => s <=? RESTORE_GUARD_SAMPLES | None => false end.

Definition limit_fps_change (self : UserDelay) (current_fps fps delay : Z) (bitrate_first braked : bool) : UserDelay * Z :=
  let delay := excess_of self delay in
  let self := match self.(samples_since_restore) with
    | Some s => set_samples_since_restore self (Some (sat_add 8 s 1)) | None => self end in
  if delay <? DELAY_THRESHOLD_150MS then
    let self := set_consecutive_bad_samples self 0 in
    let self := set_fps_bad_samples self 0 in
    let self := set_replies_after_bitrate_reduction self None in
    let self := set_good_samples self (Z.min (self.(good_samples) + 1) 3) in
    recover self current_fps fps
  else
  let self := set_consecutive_bad_samples self (Z.min (self.(consecutive_bad_samples) + 1) 3) in
  let self := set_fps_bad_samples self (Z.min (self.(fps_bad_samples) + 1) 3) in
  let self := match self.(replies_after_bitrate_reduction) with
    | Some r => set_replies_after_bitrate_reduction self (Some (Z.min (r + 1) 2)) | None => self end in
  let failed_restore := (600 <=? delay) && within_guard self in
  let self :=
    if within_guard self && (failed_restore || (3 <=? self.(consecutive_bad_samples))) then
      set_samples_since_restore (set_fps_before_congestion self (Some (current_fps - current_fps / 4))) None
    else self in
  if (current_fps <=? fps) || braked then (self, current_fps) else
  if negb failed_restore && (delay <? 1000) &&
     ((self.(fps_bad_samples) <? 3) || (bitrate_first && (default 0 self.(replies_after_bitrate_reduction) <? 2)))
  then (self, current_fps) else
  let divisor := if (1000 <=? delay) || failed_restore then 2 else 5 in
  (on_reduction self current_fps, Z.max fps (sat_sub current_fps (Z.max (current_fps / divisor) 1))).

Definition accelerate_startup (self : UserDelay) (current_fps fps cap delay : Z) (braked : bool) : UserDelay * Z :=
  if self.(startup_good_samples) =? u8_max then (self, fps) else
  let excess := excess_of self delay in
  if braked || (50 <=? excess) || (cap <=? current_fps) then (set_startup_good_samples self u8_max, fps) else
  let self := set_startup_good_samples self (self.(startup_good_samples) + 1) in
  if self.(startup_good_samples) <? 2 then (self, fps) else
  let self := set_startup_good_samples self 0 in
  let accelerated := Z.min (Z.max fps (Z.min (current_fps * 2) u32_max)) cap in
  (if cap <=? accelerated then set_startup_good_samples self u8_max else self, accelerated).

Definition needs_bitrate_reduction (self : UserDelay) : bool :=
  (2 <=? self.(consecutive_bad_samples)) || (2 <=? self.(stall_ticks)).

Definition avg_delay (self : UserDelay) : Z :=
  match self.(delay_history) with
  | [] => DELAY_THRESHOLD_150MS
  | h => excess_of self (foldl (fun a x => wrap 32 (a + x)) 0 h / zlen h)
  end.

Definition ratio_reduction (self : UserDelay) : option f32 :=
  if negb (needs_bitrate_reduction self) then None else
  let excess := avg_delay self in
  let confirmed := 3 <=? self.(consecutive_bad_samples) in
  Some (if excess <? 200 then lit 95 100
        else if excess <? 300 then lit 9 10
        else if excess <? 500 then (if confirmed then lit 7 10 else lit 85 100)
        else if confirmed then lit 5 10 else lit 8 10).

(** ** Viewers, displays, the controller *)

Record UserData := mkUser {
  auto_adjust_fps : option Z;
  custom_fps : option Z;
  quality : option (Z * Quality);
  delay : UserDelay;
  record : bool;
  joined_at : option Z }.

Definition set_auto_adjust_fps (d : UserData) (v : option Z) : UserData :=
  mkUser v d.(custom_fps) d.(quality) d.(delay) d.(record) d.(joined_at).
Definition set_custom_fps (d : UserData) (v : option Z) : UserData :=
  mkUser d.(auto_adjust_fps) v d.(quality) d.(delay) d.(record) d.(joined_at).
Definition set_quality (d : UserData) (v : option (Z * Quality)) : UserData :=
  mkUser d.(auto_adjust_fps) d.(custom_fps) v d.(delay) d.(record) d.(joined_at).
Definition set_delay (d : UserData) (v : UserDelay) : UserData :=
  mkUser d.(auto_adjust_fps) d.(custom_fps) d.(quality) v d.(record) d.(joined_at).
Definition set_record (d : UserData) (v : bool) : UserData :=
  mkUser d.(auto_adjust_fps) d.(custom_fps) d.(quality) d.(delay) v d.(joined_at).

Definition user_default : UserData := mkUser None None None ud_default false None.

Definition fps_cap (self : UserData) : Z :=
  let fps := default FPS self.(custom_fps) in
  let fps := match self.(auto_adjust_fps) with
    | Some a => if (fps =? 0) || (a <? fps) then a else fps
    | None => fps
    end in
  clampZ fps MIN_FPS MAX_FPS.

Record DisplayData := mkDisplay { send_counter : Z; support_changing_quality : bool }.

Record VideoQoS := mkQoS {
  fps_ : Z;
  ratio_ : f32;
  users : gmap Z UserData;
  displays : gmap string DisplayData;
  bitrate_store : Z;
  adjust_ratio_instant : Z;
  abr_config : bool;
  first_reply_adjusts_ratio : bool }.

Definition set_fps_ (d : VideoQoS) (v : Z) : VideoQoS :=
  mkQoS v d.(ratio_) d.(users) d.(displays) d.(bitrate_store) d.(adjust_ratio_instant) d.(abr_config) d.(first_reply_adjusts_ratio).
Definition set_ratio_ (d : VideoQoS) (v : f32) : VideoQoS :=
  mkQoS d.(fps_) v d.(users) d.(displays) d.(bitrate_store) d.(adjust_ratio_instant) d.(abr_config) d.(first_reply_adjusts_ratio).
Definition set_users (d : VideoQoS) (v : gmap Z UserData) : VideoQoS :=
  mkQoS d.(fps_) d.(ratio_) v d.(displays) d.(bitrate_store) d.(adjust_ratio_instant) d.(abr_config) d.(first_reply_adjusts_ratio).
Definition set_displays (d : VideoQoS) (v : gmap string DisplayData) : VideoQoS :=
  mkQoS d.(fps_) d.(ratio_) d.(users) v d.(bitrate_store) d.(adjust_ratio_instant) d.(abr_config) d.(first_reply_adjusts_ratio).
Definition set_bitrate_store (d : VideoQoS) (v : Z) : VideoQoS :=
  mkQoS d.(fps_) d.(ratio_) d.(users) d.(displays) v d.(adjust_ratio_instant) d.(abr_config) d.(first_reply_adjusts_ratio).
Definition set_adjust_ratio_instant (d : VideoQoS) (v : Z) : VideoQoS :=
  mkQoS d.(fps_) d.(ratio_) d.(users) d.(displays) d.(bitrate_store) v d.(abr_config) d.(first_reply_adjusts_ratio).
Definition set_abr_config (d : VideoQoS) (v : bool) : VideoQoS :=
  mkQoS d.(fps_) d.(ratio_) d.(users) d.(displays) d.(bitrate_store) d.(adjust_ratio_instant) v d.(first_reply_adjusts_ratio).

(** [linux]: the platform the code is built for. *)
Definition qos_default (linux : bool) (now : Z) : VideoQoS :=
  mkQoS FPS BR_BALANCED ∅ ∅ 0 now true (negb linux).

(** [since(instant).as_secs()] *)
Definition since_secs (now instant : Z) : Z := sat_sub now instant / 1000.

Definition fps (self : VideoQoS) : Z :=
  if (MIN_FPS <=? self.(fps_)) && (self.(fps_) <=? MAX_FPS) then self.(fps_) else FPS.

Definition ratio (self : VideoQoS) : f32 * VideoQoS :=
  let self := if flt self.(ratio_) BR_MIN_HIGH_RESOLUTION || flt BR_MAX self.(ratio_) then set_ratio_ self BR_BALANCED else self in
  (self.(ratio_), self).

Definition in_vbr_state (self : VideoQoS) : bool :=
  self.(abr_config) && forallb (fun e : string * DisplayData => e.2.(support_changing_quality)) (map_to_list self.(displays)).

Definition viewers (self : VideoQoS) : list UserData := (map_to_list self.(users)).*2.

Definition highest_fps (self : VideoQoS) : Z :=
  clampZ (default FPS (min_list (fps_cap <$> viewers self))) MIN_FPS MAX_FPS.

(** [max_by] keeps the last of equal times, in the map's iteration order. *)
Definition latest_quality (self : VideoQoS) : Quality :=
  match foldl (fun acc q => match acc with
      | None => Some q
      | Some b => if b.1 <=? q.1 then Some q else Some b
      end) None (omap quality (viewers self)) with
  | Some q => q.2
  | None => Balanced
  end.

Definition adjust_fps (now : Z) (self : VideoQoS) : VideoQoS :=
  let f := default INIT_FPS (min_list ((fun u => default INIT_FPS u.(delay).(ufps)) <$> viewers self)) in
  let f := if existsb (fun u => match u.(joined_at) with Some j => since_secs now j <? 1 | None => false end) (viewers self)
           then Z.min f INIT_FPS else f in
  set_fps_ self (clampZ f MIN_FPS (highest_fps self)).

Definition min_ratio (self : VideoQoS) : f32 :=
  let b := self.(bitrate_store) in
  let ratio_1mbps :=
    if 0 <? b then Some (fmax (fdiv (fmul self.(ratio_) (lit 1000 1)) (of_Z b)) BR_MIN_HIGH_RESOLUTION) else None in
  let lower m := match ratio_1mbps with Some r => if flt r m then r else m | None => m end in
  match latest_quality self with
  | Best => fmax (lower (fdiv BR_BEST (lit 25 10))) BR_MIN
  | Balanced => fmax (lower (fmin (fdiv BR_BALANCED (lit 2 1)) (lit 4 10))) BR_MIN_HIGH_RESOLUTION
  | Low | Custom _ => BR_MIN_HIGH_RESOLUTION
  end.

Definition can_reduce_bitrate (self : VideoQoS) : bool :=
  in_vbr_state self && negb (bool_decide (self.(displays) = ∅)) &&
  flt (fmul (min_ratio self) (lit 102 100)) self.(ratio_).

Definition reset_send_counters (self : VideoQoS) : VideoQoS :=
  set_displays self ((fun d => mkDisplay 0 d.(support_changing_quality)) <$> self.(displays)).

Definition adjust_ratio (now : Z) (self : VideoQoS) (dynamic_screen : bool) : option VideoQoS :=
  if negb (in_vbr_state self) then Some self else
  match (match avg_delay ∘ delay <$> viewers self with [] => None | x :: l => Some (foldl Z.max x l) end) with
  | None => Some self
  | Some max_delay =>
    let reduction := match omap (ratio_reduction ∘ delay) (viewers self) with
      | [] => None | x :: l => Some (foldl fmin x l) end in
    if bool_decide (reduction = None) && (DELAY_THRESHOLD_150MS <=? max_delay) then Some (reset_send_counters self) else
    let target_ratio := quality_ratio (latest_quality self) in
    let current_ratio := self.(ratio_) in
    let b := self.(bitrate_store) in
    let ratio_add_150kbps :=
      if 0 <? b then Some (fdiv (fmul (of_Z (wrap 32 (b + 150))) current_ratio) (of_Z b)) else None in
    let min := min_ratio self in
    let max := fmul target_ratio MAX_BR_MULTIPLE in
    let v :=
      match reduction with
      | Some factor => fmul current_ratio factor
      | None =>
        if dynamic_screen then
          fmul current_ratio (if max_delay <? 50 then lit 115 100 else if max_delay <? 100 then lit 11 10 else lit 105 100)
        else current_ratio
      end in
    let v := match ratio_add_150kbps with
      | Some r => if flt r v && flt current_ratio r && fle BR_SPEED current_ratio then r else v
      | None => v
      end in
    match fclamp v min max with
    | None => None
    | Some clamped =>
      let mark u :=
        if needs_bitrate_reduction u.(delay) && bool_decide (u.(delay).(replies_after_bitrate_reduction) = None)
        then set_delay u (set_replies_after_bitrate_reduction u.(delay) (Some (if flt clamped current_ratio then 0 else 2)))
        else u in
      let self := if bool_decide (reduction = None) then self else set_users self (mark <$> self.(users)) in
      Some (set_adjust_ratio_instant (reset_send_counters (set_ratio_ self clamped)) now)
    end
  end.

(** ** Sessions *)

Definition on_connection_open (now : Z) (enable_abr : bool) (self : VideoQoS) (id : Z) : VideoQoS :=
  let user := mkUser None None None ud_default false (Some now) in
  set_abr_config (set_users self (<[id := user]> self.(users))) enable_abr.

Definition on_connection_close (linux : bool) (now : Z) (self : VideoQoS) (id : Z) : VideoQoS :=
  let self := set_users self (delete id self.(users)) in
  if bool_decide (self.(users) = ∅) then qos_default linux now else adjust_fps now self.

Definition with_user (self : VideoQoS) (id : Z) (f : UserData -> UserData) : VideoQoS :=
  match self.(users) !! id with
  | Some u => set_users self (<[id := f u]> self.(users))
  | None => self
  end.

Definition user_custom_fps (self : VideoQoS) (id fps : Z) : VideoQoS :=
  if (fps <? MIN_FPS) || (MAX_FPS <? fps) then self else with_user self id (fun u => set_custom_fps u (Some fps)).
Definition user_auto_adjust_fps (self : VideoQoS) (id fps : Z) : VideoQoS :=
  if (fps <? MIN_FPS) || (MAX_FPS <? fps) then self else with_user self id (fun u => set_auto_adjust_fps u (Some fps)).
Definition user_record (self : VideoQoS) (id : Z) (v : bool) : VideoQoS := with_user self id (fun u => set_record u v).

(** [ImageQuality] of the protocol: [Low = 2], [Balanced = 3], [Best = 4]. *)
Definition convert_quality (q : Z) : option Quality :=
  if q =? 3 then Some Balanced
  else if q =? 2 then Some Low
  else if q =? 4 then Some Best
  else
    let b := fdiv (of_Z (Z.land (Z.shiftr q 8) 4095 * 2)) (lit 100 1) in
    match fclamp b BR_MIN BR_MAX with Some b => Some (Custom b) | None => None end.

Definition user_image_quality (self : VideoQoS) (time : Z) (id image_quality : Z) : option VideoQoS :=
  match convert_quality image_quality with
  | None => None
  | Some q =>
    match self.(users) !! id with
    | None => Some self
    | Some u =>
      let self := set_users self (<[id := set_quality u (Some (time, q))]> self.(users)) in
      Some (set_ratio_ self (quality_ratio (latest_quality self)))
    end
  end.

(** The frame rate the average delay calls for, before the limits. *)
Definition delay_fps (fps avg_delay old_avg_delay min_fps normal_fps quick : Z) : Z * Z :=
  let dividend_ms := DELAY_THRESHOLD_150MS * min_fps in
  if avg_delay <? 50 then
    let quick := quick + 1 in
    let step := if fps <? normal_fps then 1 else 0 in
    let '(quick, step) := if 3 <=? quick then (0, 5) else (quick, step) in
    (Z.max min_fps (fps + step), quick)
  else if avg_delay <? 100 then
    let step := if avg_delay <? old_avg_delay then (if fps <? normal_fps then 1 else 0) else 0 in
    (Z.max min_fps (fps + step), quick)
  else if avg_delay <? DELAY_THRESHOLD_150MS then (Z.max min_fps fps, quick)
  else
    let devide_fps := ceil_u32 (fdiv (of_Z fps) (fdiv (of_Z avg_delay) (of_Z DELAY_THRESHOLD_150MS))) in
    (if avg_delay <? 200 then Z.max min_fps devide_fps
     else if avg_delay <? 300 then Z.min min_fps devide_fps
     else if avg_delay <? 600 then dividend_ms / avg_delay
     else Z.min (dividend_ms / avg_delay) devide_fps, quick).

(** The lowest and the usual frame rate for the quality the viewers want. *)
Definition quality_tier (target_ratio : f32) : Z * Z :=
  if fle BR_BEST target_ratio then (8, 16) else if fle BR_BALANCED target_ratio then (10, 20) else (12, 24).

(** The body of [user_network_delay] for the viewer that answered: the viewer, whether it was
    its first reply, and whether it asks for a lower bitrate. *)
Definition network_delay_user (user : UserData) (target_ratio : f32) (bitrate_first : bool) (delay : Z) : UserData * bool * bool :=
  let '(min_fps, normal_fps) := quality_tier target_ratio in
  let delay := Z.max delay 10 in
  let d := set_stall_ticks user.(Qos.delay) 0 in
  let braked := bool_decide (is_Some d.(stall_reference_fps)) in
  let d := set_stall_reference_fps d None in
  let old_avg_delay := avg_delay d in
  let d := if braked then d else set_rtt_calculator d (rtt_update d.(rtt_calculator) delay) in
  let d := add_delay d delay in
  let avg := Z.max (avg_delay d) 10 in
  let user_cap := fps_cap user in
  let current_fps := default (Z.min INIT_FPS user_cap) d.(ufps) in
  let '(fps, quick) := delay_fps current_fps avg old_avg_delay min_fps normal_fps d.(quick_increase_fps_count) in
  let d := set_quick_increase_fps_count d quick in
  let inc := if avg <? DELAY_THRESHOLD_150MS then d.(increase_fps_count) + 1 else 0 in
  let '(inc, fps) := if 3 <=? inc then (0, fps + 1) else (inc, fps) in
  let d := set_increase_fps_count d inc in
  let d := if 50 <? avg then set_quick_increase_fps_count d 0 else d in
  let fps := if bitrate_first then Z.max fps min_fps else fps in
  let fps := Z.max fps (Z.min MIN_AUTO_FPS user_cap) in
  let '(d, fps) := limit_fps_change d current_fps fps delay bitrate_first braked in
  let '(d, fps) := accelerate_startup d current_fps fps user_cap delay braked in
  let reduce_bitrate := bitrate_first && needs_bitrate_reduction d && bool_decide (d.(replies_after_bitrate_reduction) = None) in
  let fps := clampZ fps MIN_FPS user_cap in
  let first := bool_decide (d.(ufps) = None) in
  (set_delay user (set_ufps d (Some fps)), first, reduce_bitrate).

Definition cooldown_over (now : Z) (self : VideoQoS) : bool :=
  ADJUST_RATIO_INTERVAL <=? since_secs now self.(adjust_ratio_instant).

Definition user_network_delay (now : Z) (self : VideoQoS) (id delay : Z) : option VideoQoS :=
  let target_ratio := quality_ratio (latest_quality self) in
  let bitrate_first := can_reduce_bitrate self in
  let '(self, first, reduce_bitrate) :=
    match self.(users) !! id with
    | Some u =>
      let '(u, first, reduce) := network_delay_user u target_ratio bitrate_first delay in
      (set_users self (<[id := u]> self.(users)), first, reduce)
    | None => (self, false, false)
    end in
  let self := adjust_fps now self in
  match (if first && self.(first_reply_adjusts_ratio) && cooldown_over now self
         then adjust_ratio now self false else Some self) with
  | None => None
  | Some self => if reduce_bitrate && cooldown_over now self then adjust_ratio now self false else Some self
  end.

(** [user_delay_response_elapsed]: the probe has been out for [elapsed] milliseconds. *)
Definition elapsed_user (user : UserData) (elapsed : Z) : UserData :=
  let d := user.(delay) in
  let d := set_stall_ticks d (sat_add 8 d.(stall_ticks) 1) in
  let d := add_delay d (wrap 32 elapsed) in
  let user_cap := fps_cap user in
  let '(d, reference) :=
    match d.(stall_reference_fps) with
    | Some reference => (d, reference)
    | None =>
      let reference := default (Z.min INIT_FPS user_cap) d.(ufps) in
      (on_reduction (set_stall_reference_fps d (Some reference)) reference, reference)
    end in
  let divisor := Z.shiftl 1 (Z.min (sat_sub (wrap 32 (elapsed / 1000)) 1) 5) in
  let current := default reference d.(ufps) in
  let fps := Z.min (clampZ (reference / divisor) (Z.min MIN_AUTO_FPS user_cap) user_cap) current in
  set_delay user (set_ufps d (Some fps)).

Definition user_delay_response_elapsed (now : Z) (self : VideoQoS) (id elapsed : Z) : VideoQoS :=
  match self.(users) !! id with
  | None => self
  | Some u =>
    if elapsed <=? 2000 then self
    else adjust_fps now (set_users self (<[id := elapsed_user u elapsed]> self.(users)))
  end.

Definition new_display (self : VideoQoS) (name : string) : VideoQoS :=
  set_displays self (<[name := mkDisplay 0 false]> self.(displays)).
Definition remove_display (self : VideoQoS) (name : string) : VideoQoS :=
  set_displays self (delete name self.(displays)).
Definition set_support_changing_quality (self : VideoQoS) (name : string) (support : bool) : VideoQoS :=
  set_displays self (alter (fun d => mkDisplay d.(send_counter) support) name self.(displays)).

Definition update_display_data (now : Z) (self : VideoQoS) (name : string) (counter : Z) : option VideoQoS :=
  let self := set_displays self (alter (fun d => mkDisplay (wrap 64 (d.(send_counter) + counter)) d.(support_changing_quality)) name self.(displays)) in
  let self := adjust_fps now self in
  if in_vbr_state self then
    if cooldown_over now self then
      let dynamic_screen := existsb (fun e : string * DisplayData =>
        ADJUST_RATIO_INTERVAL * DYNAMIC_SCREEN_THRESHOLD <=? e.2.(send_counter)) (map_to_list self.(displays)) in
      adjust_ratio now self dynamic_screen
    else Some self
  else Some (set_ratio_ self (quality_ratio (latest_quality self))).

(** ** The controller as a state machine *)

Inductive Event :=
| EOpen (id : Z) (enable_abr : bool) | EClose (id : Z)
| ECustomFps (id fps : Z) | EAutoFps (id fps : Z) | ERecord (id : Z) (v : bool)
| EQuality (id q time : Z) | EDelay (id delay : Z) | EElapsed (id elapsed : Z)
| ENewDisplay (name : string) | ERemoveDisplay (name : string) | ESupport (name : string) (support : bool)
| EDisplay (name : string) (counter : Z) | EBitrate (b : Z) | ERatio.

Definition step (linux : bool) (now : Z) (self : VideoQoS) (ev : Event) : option VideoQoS :=
  match ev with
  | EOpen id abr => Some (on_connection_open now abr self id)
  | EClose id => Some (on_connection_close linux now self id)
  | ECustomFps id f => Some (user_custom_fps self id f)
  | EAutoFps id f => Some (user_auto_adjust_fps self id f)
  | ERecord id v => Some (user_record self id v)
  | EQuality id q time => user_image_quality self time id q
  | EDelay id d => user_network_delay now self id d
  | EElapsed id e => Some (user_delay_response_elapsed now self id e)
  | ENewDisplay n => Some (new_display self n)
  | ERemoveDisplay n => Some (remove_display self n)
  | ESupport n b => Some (set_support_changing_quality self n b)
  | EDisplay n c => update_display_data now self n c
  | EBitrate b => Some (set_bitrate_store self b)
  | ERatio => Some (ratio self).2
  end.

Fixpoint run (linux : bool) (self : VideoQoS) (evs : list (Z * Event)) : option VideoQoS :=
  match evs with
  | [] => Some self
  | (now, ev) :: evs =>
    match step linux now self ev with
    | Some self => run linux self evs
    | None => None
    end
  end.

End Qos.

Module QosFacts.
Import F32 Qos.

(** ** Lists of numbers *)

Lemma foldl_min_spec l x : let m := foldl Z.min x l in m ∈ x :: l /\ m <= x /\ Forall (fun y => m <= y) l.
Proof.
  revert x. induction l as [|y l IH]; intros x; cbn.
  - split_and!; [by left|lia|constructor].
  - destruct (IH (Z.min x y)) as (H1 & H2 & H3). cbn in *. split_and!; [|lia|constructor; [lia|done]].
    apply elem_of_cons in H1 as [->|H1]; [|by do 2 right].
    destruct (Z.min_spec x y) as [[_ ->]|[_ ->]]; [by left|by right; left].
Qed.

Lemma min_list_spec l : match min_list l with
  | Some m => m ∈ l /\ Forall (fun y => m <= y) l
  | None => l = [] end.
Proof.
  destruct l as [|x l]; [done|]. cbn. destruct (foldl_min_spec l x) as (H1 & H2 & H3). split; [done|]. by constructor.
Qed.

Lemma min_list_ge l m lo : min_list l = Some m -> Forall (fun y => lo <= y) l -> lo <= m.
Proof. intros H Hl. pose proof (min_list_spec l) as Hs. rewrite H in Hs. rewrite Forall_forall in Hl. by apply Hl, Hs. Qed.

Lemma min_list_le l m x : min_list l = Some m -> x ∈ l -> m <= x.
Proof. intros H Hx. pose proof (min_list_spec l) as Hs. rewrite H in Hs. destruct Hs as [_ Hs]. rewrite Forall_forall in Hs. by apply Hs. Qed.

(** ** The delay baseline *)

(** The baseline is a lower bound of the window, which holds at most twenty delays. *)
Record rtt_ok (r : RttCalculator) : Prop := mkRttOk {
  rtt_len : zlen r.(samples) <= WINDOW_SAMPLES;
  rtt_range : Forall (fun d => in_u 32 d) r.(samples);
  rtt_base : match r.(baseline) with
    | Some b => Forall (fun d => b <= d) r.(samples) /\ in_u 32 b
    | None => r.(samples) = []
    end }.

Lemma rtt_update_ok r d : in_u 32 d -> rtt_ok r ->
  rtt_ok (rtt_update r d) /\
  exists b, (rtt_update r d).(baseline) = Some b /\ b <= d /\
    last (rtt_update r d).(samples) = Some d /\
    (forall b0, r.(baseline) = Some b0 -> b <= b0 + MAX_INCREASE_MS).
Proof.
  intros Hd [Hl Hr Hb]. unfold rtt_update. cbv zeta.
  set (kept := if WINDOW_SAMPLES <=? zlen (samples r) then zdrop 1 (samples r) else samples r).
  set (s := kept ++ [d]). set (b := Z.min (default d (baseline r)) d).
  assert (Hkept : kept = samples r \/ exists x, samples r = x :: kept).
  { unfold kept. destruct (_ <=? _) eqn:E; [|by left]. right. unfold zdrop. destruct (samples r) as [|x l]; [bool_to_prop; cbn in E; unfold WINDOW_SAMPLES in E; lia|]. by exists x. }
  assert (Hlen : zlen s <= WINDOW_SAMPLES).
  { unfold s. rewrite length_app. cbn [length]. unfold kept in *. destruct (_ <=? _) eqn:E; bool_to_prop; [|lia].
    unfold zdrop. rewrite length_drop. unfold WINDOW_SAMPLES in *. lia. }
  clearbody kept. assert (Hrange : Forall (fun x => in_u 32 x) s).
  { unfold s. apply Forall_app. split; [|by apply Forall_singleton]. destruct Hkept as [->|[x E]]; [done|]. rewrite E in Hr. by apply Forall_cons in Hr as [_ ?]. }
  assert (Hbs : Forall (fun x => b <= x) s).
  { unfold s, b. apply Forall_app. split; [|apply Forall_singleton; lia]. destruct (baseline r) as [b0|].
    - destruct Hb as [Hb _]. destruct Hkept as [->|[x E]]; [|rewrite E in Hb; apply Forall_cons in Hb as [_ Hb]];
        (eapply Forall_impl; [exact Hb|cbn; lia]).
    - rewrite Hb in Hkept. destruct Hkept as [->|[x E]]; [constructor|done]. }
  assert (Hbr : in_u 32 b /\ b <= d /\ forall b0, baseline r = Some b0 -> b <= b0).
  { unfold b, in_u in *. destruct (baseline r) as [b0|]; cbn; split_and!; try lia; intros; simplify_eq; lia. }
  destruct Hbr as (Hb1 & Hb2 & Hb3).
  assert (Hkeep : rtt_ok (mkRtt (Some b) s) /\ exists b', baseline (mkRtt (Some b) s) = Some b' /\ b' <= d /\
    last (samples (mkRtt (Some b) s)) = Some d /\ (forall b0, baseline r = Some b0 -> b' <= b0 + MAX_INCREASE_MS)).
  { split; [by split|]. exists b. split_and!; [done|done|by unfold s; cbn; rewrite last_snoc|]. intros b0 H0%Hb3. unfold MAX_INCREASE_MS. lia. }
  destruct (zlen s <? WINDOW_SAMPLES); [done|].
  pose proof (min_list_spec (ztake (WINDOW_SAMPLES / 2) s)) as Ho. pose proof (min_list_spec (zdrop (WINDOW_SAMPLES / 2) s)) as Hn.
  destruct (min_list (ztake _ s)) as [om|]; [|done]. destruct (min_list (zdrop _ s)) as [rm|]; [|done].
  destruct (_ <? _); [done|]. destruct (0 <? _) eqn:Er; [|done]. bool_to_prop.
  destruct Ho as [_ Ho], Hn as [_ Hn]. unfold sat_sub in *.
  set (rise := Z.max (Z.min om rm - b) 0) in *.
  assert (Hinc : 1 <= clampZ (rise / 2) 1 MAX_INCREASE_MS <= rise /\ clampZ (rise / 2) 1 MAX_INCREASE_MS <= MAX_INCREASE_MS).
  { unfold clampZ, MAX_INCREASE_MS. repeat case_match; bool_to_prop; divlia. }
  assert (Hall : Forall (fun x => Z.min om rm <= x) s).
  { rewrite <- (take_drop (Z.to_nat (WINDOW_SAMPLES / 2)) s). apply Forall_app.
    split; [eapply Forall_impl; [exact Ho|cbn; lia]|eapply Forall_impl; [exact Hn|cbn; lia]]. }
  assert (Hall2 : Forall (fun x => b + clampZ (rise / 2) 1 MAX_INCREASE_MS <= x) s).
  { eapply Forall_impl; [exact Hall|]. cbn. lia. }
  assert (Hd2 : d ∈ s) by (unfold s; apply elem_of_app; right; by left).
  assert (Hbd : b + clampZ (rise / 2) 1 MAX_INCREASE_MS <= d) by (rewrite Forall_forall in Hall2; by apply Hall2).
  split.
  - split; [done|done|]. cbn. split; [done|]. unfold in_u in *. lia.
  - eexists. split; [done|]. split_and!; [done|by unfold s; cbn; rewrite last_snoc|]. intros b0 H0%Hb3. lia.
Qed.

(** The delay baseline of a connection is sound.  After any replies, it is at most every
    delay of the last twenty replies (so a queue is never taken for the path), the window is
    exactly those replies, and one reply raises it by at most 50 ms. *)
Theorem rtt_baseline (delays : list Z) (d : Z) :
  Forall (fun x => in_u 32 x) delays -> in_u 32 d ->
  let r := foldl rtt_update (mkRtt None []) delays in
  let r' := rtt_update r d in
  r'.(samples) = drop (length delays - 19) delays ++ [d] /\
  exists b, get_rtt r' = Some b /\ 0 <= b /\ Forall (fun x => b <= x) r'.(samples) /\
    forall b0, get_rtt r = Some b0 -> b <= b0 + 50.
Proof.
  intros Hds Hd r r'.
  assert (Hr : rtt_ok r).
  { unfold r. assert (H0 : rtt_ok (mkRtt None [])) by (split; cbn; [done|constructor|done]).
    clear r r'. revert H0. generalize (mkRtt None []). induction Hds as [|x ds Hx _ IH]; intros r0 Hr0; [done|].
    cbn [foldl]. apply IH. by apply rtt_update_ok. }
  assert (Hsamples : forall r0 x, samples (rtt_update r0 x) =
    (if WINDOW_SAMPLES <=? zlen (samples r0) then zdrop 1 (samples r0) else samples r0) ++ [x]).
  { intros r0 x. unfold rtt_update. cbv zeta. repeat case_match; done. }
  assert (Hwin : forall ds, samples (foldl rtt_update (mkRtt None []) ds) = drop (length ds - 20) ds).
  { intros ds. induction ds as [|x ds IH] using rev_ind; [done|]. rewrite foldl_app. cbn [foldl]. rewrite Hsamples, IH, length_drop, length_app.
    cbn [length]. unfold WINDOW_SAMPLES. destruct (20 <=? _) eqn:E; bool_to_prop.
    - unfold zdrop. rewrite drop_drop. rewrite drop_app_le by lia. do 2 f_equal. lia.
    - rewrite drop_app_le by lia. do 2 f_equal. lia. }
  split.
  - unfold r'. rewrite Hsamples. unfold r. rewrite Hwin, length_drop. unfold WINDOW_SAMPLES. destruct (20 <=? _) eqn:E; bool_to_prop.
    + unfold zdrop. rewrite drop_drop. do 2 f_equal. lia.
    + do 2 f_equal. lia.
  - destruct (rtt_update_ok r d Hd Hr) as ([_ _ Hb] & b & Hb1 & Hb2 & _ & Hb3). change (rtt_update r d) with r' in Hb, Hb1.
    unfold get_rtt. exists b. rewrite Hb1 in Hb |- *. destruct Hb as [Hb Hb0]. split_and!; [done|apply Hb0|done|done].
Qed.

Lemma rtt_baseline_witness :
  exists b, get_rtt (rtt_update (foldl rtt_update (mkRtt None []) [30; 20]) 90) = Some b /\ 0 <= b /\ Forall (fun x => b <= x) [30; 20; 90].
Proof.
  destruct (rtt_baseline [30; 20] 90) as (Hs & b & H1 & H2 & H3 & _).
  - repeat constructor; mach.
  - mach.
  - exists b. split_and!; [done|done|]. exact H3.
Defined.

(** ** One viewer's frame rate *)

Lemma clampZ_minmax x lo hi : lo <= hi -> clampZ x lo hi = Z.max lo (Z.min x hi).
Proof. unfold clampZ. destruct (x <? lo) eqn:E1; [|destruct (hi <? x) eqn:E2]; bool_to_prop; lia. Qed.

Lemma fps_cap_range u : 1 <= fps_cap u <= 120.
Proof. unfold fps_cap, clampZ, MIN_FPS, MAX_FPS. repeat case_match; bool_to_prop; lia. Qed.

Lemma recover_ge d cur f : 0 <= cur -> cur <= (recover d cur f).2.
Proof. intros. unfold recover. repeat case_match; simplify_eq; bool_to_prop; cbn; divlia. Qed.

(** A restored level is on trial for its first replies. *)
Definition on_trial (d : UserDelay) : bool :=
  match d.(samples_since_restore) with Some s => sat_add 8 s 1 <=? RESTORE_GUARD_SAMPLES | None => false end.

Lemma limit_bounds d cur f delay bf br : 1 <= cur ->
  let r := (limit_fps_change d cur f delay bf br).2 in
  let excess := excess_of d delay in
  Z.min cur f <= r /\ cur - Z.max (cur / 2) 1 <= r /\
  (r < cur -> br = false /\ DELAY_THRESHOLD_150MS <= excess /\
     ((2 <= d.(fps_bad_samples) /\ cur - Z.max (cur / 5) 1 <= r) \/ 1000 <= excess \/ (600 <= excess /\ on_trial d = true))).
Proof.
  intros Hc. unfold limit_fps_change. cbv zeta.
  set (ex := excess_of d delay).
  destruct (ex <? DELAY_THRESHOLD_150MS) eqn:Eex.
  { match goal with |- context [recover ?a ?b ?c] => pose proof (recover_ge a b c ltac:(lia)) as Hg; set (r := (recover a b c).2) in * end.
    split_and!; [lia|divlia|lia]. }
  set (d1 := match samples_since_restore d with Some s => _ | None => d end).
  assert (Hbad : fps_bad_samples d1 = fps_bad_samples d) by (unfold d1; by destruct (samples_since_restore d)).
  assert (Htrial : within_guard d1 = on_trial d) by (unfold d1, within_guard, on_trial; destruct (samples_since_restore d) eqn:Es; cbn; by rewrite ?Es).
  set (d2 := set_consecutive_bad_samples d1 _). set (d3 := set_fps_bad_samples d2 _).
  set (d4 := match replies_after_bitrate_reduction d3 with Some _ => _ | None => d3 end).
  assert (Hbad4 : fps_bad_samples d4 = Z.min (fps_bad_samples d + 1) 3).
  { unfold d4. destruct (replies_after_bitrate_reduction d3); cbn; by rewrite Hbad. }
  assert (Htrial4 : within_guard d4 = on_trial d).
  { rewrite <- Htrial. unfold d4. by destruct (replies_after_bitrate_reduction d3). }
  rewrite Htrial4. set (d5 := if on_trial d && _ then _ else d4).
  assert (Hbad5 : fps_bad_samples d5 = Z.min (fps_bad_samples d + 1) 3) by (unfold d5; by destruct (on_trial d && _)).
  destruct ((cur <=? f) || br) eqn:E1; [cbn; split_and!; [lia|divlia|lia]|]. bool_to_prop.
  match goal with |- context [if ?c then (d5, cur) else _] => destruct c eqn:E2 end; [cbn; split_and!; [lia|divlia|lia]|].
  cbn [snd]. unfold sat_sub.
  assert (Hdiv : Z.max (cur / (if (1000 <=? ex) || ((600 <=? ex) && on_trial d) then 2 else 5)) 1 <= Z.max (cur / 2) 1).
  { destruct ((1000 <=? ex) || _); [lia|]. divlia. }
  split_and!; [lia|lia|]. intros Hr. split_and!; [done|done|].
  destruct (1000 <=? ex) eqn:E3; [right; left; by bool_to_prop|].
  destruct ((600 <=? ex) && on_trial d) eqn:E4; [right; right; bool_to_prop; done|].
  left. rewrite ?E4 in E2. rewrite (proj2 (Z.ltb_lt ex 1000)) in E2 by (apply Z.leb_gt in E3; lia).
  cbn [negb andb orb] in E2, Hdiv |- *. apply orb_false_iff in E2 as [E2 _]. rewrite Hbad5 in E2. apply Z.ltb_ge in E2.
  split; lia.
Qed.

Lemma accelerate_bounds d cur f cap delay br : (accelerate_startup d cur f cap delay br).2 = f \/
  (accelerate_startup d cur f cap delay br).2 = Z.min (Z.max f (Z.min (cur * 2) u32_max)) cap.
Proof. unfold accelerate_startup. repeat case_match; cbn; auto. Qed.

Definition target_of (u : UserData) : Z := default (Z.min INIT_FPS (fps_cap u)) u.(delay).(ufps).
(** The baseline the reply itself is measured against: a late reply does not move it. *)
Definition reply_excess (u : UserData) (delay : Z) : Z :=
  let d := u.(Qos.delay) in
  sat_sub (Z.max delay 10) (default 0 (get_rtt (if bool_decide (is_Some d.(stall_reference_fps)) then d.(rtt_calculator)
                                               else rtt_update d.(rtt_calculator) (Z.max delay 10)))).

Lemma reply_arith cap cur f4 f5 f6 : 1 <= cap -> 1 <= cur -> Z.min 5 cap <= f4 -> Z.min cur f4 <= f5 ->
  cur - Z.max (cur / 2) 1 <= f5 -> (f5 <= f6 \/ cap <= f6) ->
  let f := Z.max 1 (Z.min f6 cap) in
  1 <= f <= cap /\ Z.min (Z.min cur cap) 5 <= f /\ Z.min cur cap - Z.max (cur / 2) 1 <= f /\
  (f < Z.min cur cap -> f5 < cur /\ f5 <= f).
Proof. intros. cbv zeta. generalize dependent (cur / 2). intros. lia. Qed.

Lemma limit_stall d cur f delay bf br : stall_ticks d = 0 -> stall_reference_fps d = None ->
  let d' := (limit_fps_change d cur f delay bf br).1 in stall_ticks d' = 0 /\ stall_reference_fps d' = None.
Proof.
  intros H1 H2. unfold limit_fps_change, recover, on_reduction.
  cbv zeta. repeat (case_match; cbn in *; simplify_eq/=; try done).
Qed.

Lemma accelerate_stall d cur f cap delay br : stall_ticks d = 0 -> stall_reference_fps d = None ->
  let d' := (accelerate_startup d cur f cap delay br).1 in stall_ticks d' = 0 /\ stall_reference_fps d' = None.
Proof.
  intros H1 H2. unfold accelerate_startup. cbv zeta. destruct (_ =? _); [done|]. destruct (_ || _); [done|].
  destruct (_ <? 2); [done|]. by destruct (cap <=? _).
Qed.

(** The limits of a reply, whatever rate the average delay calls for. *)
Lemma reply_limits d cur cap f4 delay bf br : 1 <= cur -> 1 <= cap -> Z.min 5 cap <= f4 ->
  stall_ticks d = 0 -> stall_reference_fps d = None ->
  let '(d5, f5) := limit_fps_change d cur f4 delay bf br in
  let '(d6, f6) := accelerate_startup d5 cur f5 cap delay br in
  let f := clampZ f6 MIN_FPS cap in
  stall_ticks d6 = 0 /\ stall_reference_fps d6 = None /\
  1 <= f <= cap /\ Z.min (Z.min cur cap) 5 <= f /\ Z.min cur cap - Z.max (cur / 2) 1 <= f /\
  (f < Z.min cur cap -> br = false /\ DELAY_THRESHOLD_150MS <= excess_of d delay /\
     ((2 <= d.(fps_bad_samples) /\ Z.min cur cap - Z.max (cur / 5) 1 <= f) \/ 1000 <= excess_of d delay \/
      (600 <= excess_of d delay /\ on_trial d = true))).
Proof.
  intros Hcur Hcap Hf4 Hs1 Hs2.
  pose proof (limit_bounds d cur f4 delay bf br Hcur) as (L1 & L2 & L3).
  pose proof (limit_stall d cur f4 delay bf br Hs1 Hs2) as [S1 S2].
  destruct (limit_fps_change d cur f4 delay bf br) as [d5 f5]. cbn [fst snd] in *.
  pose proof (accelerate_bounds d5 cur f5 cap delay br) as Hacc.
  pose proof (accelerate_stall d5 cur f5 cap delay br S1 S2) as [S3 S4].
  destruct (accelerate_startup d5 cur f5 cap delay br) as [d6 f6]. cbn [fst snd] in *. cbv zeta.
  rewrite clampZ_minmax by done. unfold MIN_FPS.
  assert (Hf6 : f5 <= f6 \/ cap <= f6) by (destruct Hacc as [->| ->]; lia).
  destruct (reply_arith cap cur f4 f5 f6 Hcap Hcur Hf4 L1 L2 Hf6) as (A1 & A2 & A3 & A4).
  split_and!; try done; [apply A1|apply A1|]. intros Hlt. destruct (A4 Hlt) as [H5 H6]. destruct (L3 H5) as (B1 & B2 & B3).
  split_and!; [done|done|]. destruct B3 as [[B3 B4]|B3]; [left; split; [done|]|by right].
  clear -B4 H6. generalize dependent (Z.max (cur / 5) 1). intros. lia.
Qed.

Lemma excess_of_ext d d' delay : rtt_calculator d = rtt_calculator d' -> excess_of d delay = excess_of d' delay.
Proof. unfold excess_of. by intros ->. Qed.

(** What one reply can do to a viewer's frame rate.  Whatever the delay and the history,
    the new target stays between 1 and the viewer's own cap; it never falls below
    [MIN_AUTO_FPS] unless the cap or the target already is; one reply never takes more than
    half; and it lowers the target only if no timeout has already braked for this probe, the
    excess delay is at least 150 ms, and either this is at least the third bad reply since the
    last reduction (then by a fifth at most), or a second of excess, or 600 ms while a
    restored level is on trial.  The probe is closed in any case. *)
Theorem reply_effect (u : UserData) (target_ratio : f32) (bitrate_first : bool) (delay : Z) :
  1 <= target_of u ->
  let '(u', _, _) := network_delay_user u target_ratio bitrate_first delay in
  let cur := Z.min (target_of u) (fps_cap u) in
  exists f, u'.(Qos.delay).(ufps) = Some f /\ 1 <= f <= fps_cap u /\ fps_cap u' = fps_cap u /\
    Z.min cur MIN_AUTO_FPS <= f /\ cur - Z.max (target_of u / 2) 1 <= f /\
    u'.(Qos.delay).(stall_ticks) = 0 /\ u'.(Qos.delay).(stall_reference_fps) = None /\
    (f < cur -> u.(Qos.delay).(stall_reference_fps) = None /\ DELAY_THRESHOLD_150MS <= reply_excess u delay /\
      ((2 <= u.(Qos.delay).(fps_bad_samples) /\ cur - Z.max (target_of u / 5) 1 <= f) \/
       1000 <= reply_excess u delay \/ (600 <= reply_excess u delay /\ on_trial u.(Qos.delay) = true))).
Proof.
  intros Ht. unfold network_delay_user. generalize (quality_tier target_ratio). intros [min_fps normal_fps].
  cbv beta iota zeta.
  set (d0 := set_stall_reference_fps (set_stall_ticks (Qos.delay u) 0) None).
  set (d1 := if bool_decide _ then d0 else _).
  match goal with |- context [delay_fps ?a ?b ?c ?d ?e ?g] => generalize (delay_fps a b c d e g) end. intros [f1 q].
  set (avg := Z.max (avg_delay _) 10). 
  match goal with |- context [if 3 <=? ?x then _ else _] => generalize (if 3 <=? x then (0, f1 + 1) else (x, f1)) end. intros [inc f2].
  set (d4 := if 50 <? avg then _ else _).
  set (f4 := Z.max _ (Z.min MIN_AUTO_FPS _)).
  assert (Hd4 : stall_ticks d4 = 0 /\ stall_reference_fps d4 = None /\ ufps d4 = ufps (Qos.delay u) /\
    fps_bad_samples d4 = fps_bad_samples (Qos.delay u) /\ samples_since_restore d4 = samples_since_restore (Qos.delay u)).
  { unfold d4, d1. by destruct (50 <? avg), (bool_decide _). }
  assert (Hex : excess_of d4 (delay `max` 10) = reply_excess u delay).
  { transitivity (excess_of d1 (delay `max` 10)).
    - apply excess_of_ext. unfold d4. by destruct (50 <? avg).
    - unfold reply_excess, excess_of, d1, d0. cbn [stall_reference_fps set_stall_ticks]. by destruct (bool_decide _). }
  assert (Hcur : default (INIT_FPS `min` fps_cap u) (ufps (add_delay d1 (delay `max` 10))) = target_of u).
  { unfold target_of, d1. by destruct (bool_decide _). }
  assert (Htr : on_trial d4 = on_trial (Qos.delay u)) by (unfold on_trial; by destruct Hd4 as (_ & _ & _ & _ & ->)).
  rewrite Hcur. pose proof (fps_cap_range u) as Hcap.
  assert (Hf4 : Z.min 5 (fps_cap u) <= f4) by apply Z.le_max_r.
  destruct Hd4 as (S1 & S2 & _ & Hb & _). clearbody d4 f4.
  set (br := bool_decide _).
  pose proof (reply_limits d4 (target_of u) (fps_cap u) f4 (delay `max` 10) bitrate_first br Ht (proj1 Hcap) Hf4 S1 S2) as H.
  destruct (limit_fps_change _ _ _ _ _ _) as [d5 f5]. destruct (accelerate_startup _ _ _ _ _ _) as [d6 f6].
  rewrite Hex, Htr, Hb in H. cbv zeta in H. destruct H as (T1 & T2 & T3 & T4 & T5 & T6).
  exists (clampZ f6 MIN_FPS (fps_cap u)).
  split; [reflexivity|]. split; [exact T3|]. split; [reflexivity|]. split; [exact T4|]. split; [exact T5|].
  split; [exact T1|]. split; [exact T2|]. intros Hlt. destruct (T6 Hlt) as (B1 & B2 & B3).
  split; [|split; [exact B2|exact B3]].
  unfold br in B1. apply bool_decide_eq_false in B1. cbn in B1. by destruct (stall_reference_fps (Qos.delay u)); [destruct B1|].
Qed.

(** A viewer at 30 frames a second with a 20 ms path, whose third reply in a row is 400 ms late. *)
Definition slow_viewer : UserData :=
  set_delay user_default (set_fps_bad_samples (set_rtt_calculator (set_ufps ud_default (Some 30)) (mkRtt (Some 20) [20])) 2).

Lemma reply_effect_witness :
  1 <= target_of slow_viewer /\
  (network_delay_user slow_viewer BR_BALANCED false 400).1.1.(delay).(ufps) = Some 24 /\
  exists f, (network_delay_user slow_viewer BR_BALANCED false 400).1.1.(delay).(ufps) = Some f /\ 5 <= f <= 30.
Proof.
  split; [by vm_compute|]. split; [by vm_compute|].
  pose proof (reply_effect slow_viewer BR_BALANCED false 400 ltac:(by vm_compute)) as H.
  destruct (network_delay_user slow_viewer BR_BALANCED false 400) as [[u' a] b]. cbn [fst]. cbv zeta in H.
  destruct H as (f & H1 & H2 & _ & H4 & _). exists f.
  change (fps_cap slow_viewer) with 30 in *. change (target_of slow_viewer) with 30 in *. unfold MIN_AUTO_FPS in *. split; [done|lia].
Defined.

(** ** Timeouts *)

Definition stall_shift (elapsed : Z) : Z := Z.min (elapsed / 1000 - 1) 5.
Definition stall_fps (reference cap elapsed : Z) : Z :=
  Z.min (clampZ (reference / 2 ^ stall_shift elapsed) (Z.min 5 cap) cap) reference.

Lemma stall_fps_antitone reference cap e1 e2 : 1 <= reference -> 1 <= cap -> 2000 < e1 -> e1 <= e2 ->
  stall_fps reference cap e2 <= stall_fps reference cap e1.
Proof.
  intros Hr Hc H1 H2. unfold stall_fps. rewrite !clampZ_minmax by lia.
  assert (Hs : 0 <= stall_shift e1 <= stall_shift e2) by (unfold stall_shift; divlia).
  pose proof (Z.pow_le_mono_r 2 _ _ ltac:(lia) (proj2 Hs)). pose proof (Z.pow_pos_nonneg 2 (stall_shift e1) ltac:(lia) ltac:(lia)).
  pose proof (Z.div_le_compat_l reference (2 ^ stall_shift e1) (2 ^ stall_shift e2) ltac:(lia) ltac:(lia)). lia.
Qed.

Definition probe_time (e : Z) : Prop := 2000 < e < 2 ^ 32.

Lemma elapsed_cap u e : fps_cap (elapsed_user u e) = fps_cap u.
Proof. unfold elapsed_user. cbv zeta. by destruct (match stall_reference_fps _ with Some _ => _ | None => _ end). Qed.

Lemma stall_shift_spec e : probe_time e -> Z.shiftl 1 (Z.min (sat_sub (wrap 32 (e / 1000)) 1) 5) = 2 ^ stall_shift e.
Proof.
  intros He. unfold stall_shift, sat_sub, probe_time in *. rewrite wrap_small by (unfold in_u; pow2; divlia).
  rewrite Z.max_l by divlia. apply Z.shiftl_1_l.
Qed.

(** One timeout tick, on the rate the stall started from. *)
Lemma elapsed_user_spec u e r : probe_time e -> 1 <= r ->
  default (target_of u) u.(delay).(stall_reference_fps) = r ->
  let d := (elapsed_user u e).(delay) in
  d.(stall_reference_fps) = Some r /\ fps_cap (elapsed_user u e) = fps_cap u /\
  d.(ufps) = Some (Z.min (clampZ (r / 2 ^ stall_shift e) (Z.min 5 (fps_cap u)) (fps_cap u)) (default r u.(delay).(ufps))) /\
  d.(rtt_calculator) = u.(delay).(rtt_calculator) /\ d.(stall_ticks) = sat_add 8 u.(delay).(stall_ticks) 1 /\
  d.(fps_before_congestion) = (if u.(delay).(stall_reference_fps) then u.(delay).(fps_before_congestion)
     else match u.(delay).(fps_before_congestion) with Some l => Some l | None => Some r end).
Proof.
  intros He%stall_shift_spec Hr Href.
  rewrite (elapsed_cap u e). unfold elapsed_user. rewrite He. clear He. unfold MIN_AUTO_FPS, target_of in *. cbv zeta.
  revert Href. generalize (2 ^ stall_shift e) (wrap 32 e) (fps_cap u) (sat_add 8 (stall_ticks (delay u)) 1). clear e. intros div e cap st' Href.
  revert Href. generalize (INIT_FPS `min` cap). intros dflt Href.
  assert (Hd : forall P : UserDelay -> Prop, (forall st dh uf rtt qi inc cb fb gs rab fbc ssr sr sgs,
     P (mkUD st dh uf rtt qi inc cb fb gs rab fbc ssr sr sgs)) -> P (delay u)) by (intros P HP; by destruct (delay u)).
  revert Href. pattern (delay u). apply Hd. clear Hd. intros st dh uf rtt qi inc cb fb gs rab fbc ssr sr sgs Href.
  destruct sr as [r0|]; simpl in Href; subst r.
  - split_and!; reflexivity.
  - destruct fbc; split_and!; reflexivity.
Qed.

(** The brake over any number of ticks: at least the rate of the longest, never above the start. *)
Lemma elapsed_run u es e : Forall probe_time es -> Forall (fun x => x <= e) es -> es <> [] -> 1 <= target_of u ->
  u.(delay).(stall_reference_fps) = None ->
  let u' := foldl elapsed_user u es in let r := target_of u in
  fps_cap u' = fps_cap u /\ u'.(delay).(stall_reference_fps) = Some r /\
  u'.(delay).(rtt_calculator) = u.(delay).(rtt_calculator) /\
  u'.(delay).(fps_before_congestion) = match u.(delay).(fps_before_congestion) with Some l => Some l | None => Some r end /\
  exists f, u'.(delay).(ufps) = Some f /\ stall_fps r (fps_cap u) e <= f <= r /\
    Forall (fun x => f <= stall_fps r (fps_cap u) x) es.
Proof.
  intros Hp He Hne Ht Hs. pose proof (fps_cap_range u) as Hcap. cbv zeta.
  induction es as [|x es IH] using rev_ind; [done|].
  apply Forall_app in Hp as [Hp [Hpx _]%Forall_cons]. apply Forall_app in He as [He [Hex _]%Forall_cons].
  rewrite foldl_app. cbn [foldl].
  assert (Hx2 : 2000 < x) by apply Hpx.
  pose proof (stall_fps_antitone (target_of u) (fps_cap u) x e Ht (proj1 Hcap) Hx2 Hex) as Hanti.
  destruct (decide (es = [])) as [->|Hes].
  - cbn [foldl]. pose proof (elapsed_user_spec u x (target_of u) Hpx Ht) as H. rewrite Hs in H. destruct (H eq_refl) as (H1 & H2 & H3 & H4 & _ & H6).
    rewrite H2, H3, H4, H6. split_and!; try done.
    eexists. split; [done|]. assert (Hf : default (target_of u) (ufps (delay u)) = target_of u).
    { unfold target_of. by destruct (ufps (delay u)). }
    rewrite Hf. fold (stall_fps (target_of u) (fps_cap u) x). split; [split; [done|]|].
    + apply Z.le_min_r.
    + by apply Forall_singleton.
  - destruct (IH Hp He Hes) as (I1 & I2 & I3 & I4 & f & I5 & I6 & I7).
    pose proof (elapsed_user_spec (foldl elapsed_user u es) x (target_of u) Hpx Ht) as H.
    rewrite I1, I2, I3, I4, I5 in H. destruct (H eq_refl) as (H1 & H2 & H3 & H4 & _ & H6). rewrite H2, H3, H4, H6. split_and!; try done.
    eexists. split; [done|]. unfold stall_fps in *. cbn [default] in *.
    remember (clampZ (target_of u / 2 ^ stall_shift x) (5 `min` fps_cap u) (fps_cap u)) as cx. simpl in *.
    split; [lia|]. apply Forall_app. split; [eapply Forall_impl; [exact I7|]; cbn; intros; lia|].
    apply Forall_singleton. rewrite <- Heqcx. lia.
Qed.

(** Timeouts of one probe do not compound.  However many ticks fall due while one probe
    is unanswered, and at whatever times, the target after the tick at [e] milliseconds is the
    rate before the stall, divided once by a power of two given by the age of the probe (at
    most 32) and kept between [MIN_AUTO_FPS] and the cap; it is never above the rate before
    the stall, which is kept as the level to return to, and the delay baseline is not touched. *)
Theorem stall_no_compounding (u : UserData) (es : list Z) (e : Z) :
  Forall probe_time (es ++ [e]) -> Forall (fun x => x <= e) es -> 1 <= target_of u ->
  u.(delay).(stall_reference_fps) = None ->
  let r := target_of u in let cap := fps_cap u in
  let d := (foldl elapsed_user u (es ++ [e])).(delay) in
  d.(ufps) = Some (Z.min (Z.max (Z.min 5 cap) (Z.min (r / 2 ^ (Z.min (e / 1000 - 1) 5)) cap)) r) /\
  d.(stall_reference_fps) = Some r /\ d.(rtt_calculator) = u.(delay).(rtt_calculator) /\
  d.(fps_before_congestion) = match u.(delay).(fps_before_congestion) with Some l => Some l | None => Some r end.
Proof.
  intros Hp He Ht Hs. cbv zeta. pose proof (fps_cap_range u) as Hcap.
  destruct (elapsed_run u (es ++ [e]) e Hp) as (H1 & H2 & H3 & H4 & f & H5 & H6 & H7); [|by destruct es|done|done|].
  - apply Forall_app. split; [done|]. by apply Forall_singleton.
  - split_and!; try done. rewrite H5. f_equal. apply Forall_app in H7 as [_ [H7 _]%Forall_cons].
    assert (Hf : f = stall_fps (target_of u) (fps_cap u) e) by lia. rewrite Hf. unfold stall_fps.
    rewrite clampZ_minmax by lia. done.
Qed.

Lemma stall_no_compounding_witness :
  (foldl elapsed_user slow_viewer [2100; 3100; 4100]).(delay).(ufps) = Some 5 /\
  (foldl elapsed_user slow_viewer ([2100; 2900; 3100] ++ [3900])).(delay).(ufps) =
    Some (Z.min (Z.max (Z.min 5 (fps_cap slow_viewer)) (Z.min (30 / 2 ^ (Z.min (3900 / 1000 - 1) 5)) (fps_cap slow_viewer))) 30).
Proof.
  split; [by vm_compute|].
  apply (stall_no_compounding slow_viewer [2100; 2900; 3100] 3900); [|repeat constructor; lia|by vm_compute|done].
  repeat constructor; unfold probe_time; pow2; lia.
Defined.

End QosFacts.
