(* ===== verification/VideoQosRun.v ===== *)
(** The video quality controller as a whole: what holds of every run of [Qos.run], whatever the
    events and the clock. *)

From Stdlib Require Import SpecFloat.
From S2P Require Import Prelude Float VideoQos.

(** ** Comparison of floats *)
Module F32Facts.
Import F32.

Lemma SFcompare_trans_lt a b c : SFcompare a b = Some Lt -> SFcompare b c = Some Lt -> SFcompare a c = Some Lt.
Proof.
  destruct a as [[]|[]| |[] m1 e1], b as [[]|[]| |[] m2 e2], c as [[]|[]| |[] m3 e3]; cbn; try done;
    destruct (Z.compare_spec e1 e2), (Z.compare_spec e2 e3); try done; subst;
    repeat match goal with |- context [(?x ?= ?y)%Z] => destruct (Z.compare_spec x y); try lia; try done end;
    intros [= H1] [= H2]; f_equal; change (PosDef.Pos.compare_cont Eq) with Pos.compare in *.
  - rewrite CompOpp_iff in *. cbn in *. rewrite Pos.compare_gt_iff in *. by etransitivity.
  - rewrite Pos.compare_lt_iff in *. by etransitivity.
Qed.

Lemma SFcompare_swap a b : SFcompare b a = CompOpp <$> SFcompare a b.
Proof.
  destruct a as [[]|[]| |[] m1 e1], b as [[]|[]| |[] m2 e2]; cbn; try done; rewrite (Z.compare_antisym e1 e2);
    destruct (e1 ?= e2); cbn; try done; f_equal; change (PosDef.Pos.compare_cont Eq) with Pos.compare; rewrite (Pos.compare_antisym m1 m2); by destruct (m1 ?= m2)%positive.
Qed.

Lemma SFcompare_nan a b : SFcompare a b = None <-> is_nan a = true \/ is_nan b = true.
Proof. destruct a as [[]|[]| |[] m1 e1], b as [[]|[]| |[] m2 e2]; cbn; try (destruct (_ ?= _)%Z); naive_solver. Qed.

Lemma SFcompare_trans_eq a b c o : SFcompare a b = Some Eq -> SFcompare b c = Some o -> SFcompare a c = Some o.
Proof.
  destruct a as [[]|[]| |[] m1 e1], b as [[]|[]| |[] m2 e2]; cbn; try done; try (by destruct c as [[]|[]| |[] m3 e3]);
    destruct (Z.compare_spec e1 e2); try done; subst; change (PosDef.Pos.compare_cont Eq) with Pos.compare in *.
  all: destruct (Pos.compare_spec m1 m2); try done; subst; done.
Qed.

Lemma flt_spec a b : flt a b = true <-> SFcompare a b = Some Lt.
Proof. unfold flt, SFltb. destruct (SFcompare a b) as [[]|]; naive_solver. Qed.
Lemma fle_spec a b : fle a b = true <-> SFcompare a b = Some Lt \/ SFcompare a b = Some Eq.
Proof. unfold fle, SFleb. destruct (SFcompare a b) as [[]|]; naive_solver. Qed.

Lemma flt_fle a b : flt a b = true -> fle a b = true.
Proof. rewrite flt_spec, fle_spec. by left. Qed.

Lemma fle_trans a b c : fle a b = true -> fle b c = true -> fle a c = true.
Proof.
  rewrite !fle_spec. intros [H1|H1] [H2|H2]; eauto using SFcompare_trans_lt, SFcompare_trans_eq.
  left. assert (H3 : SFcompare c b = Some Eq) by (rewrite SFcompare_swap, H2; done).
  assert (H4 : SFcompare b a = Some Gt) by (rewrite SFcompare_swap, H1; done).
  rewrite SFcompare_swap, (SFcompare_trans_eq _ _ _ _ H3 H4). done.
Qed.

(** Comparison is total but for NaN. *)
Lemma flt_false_fle a b : is_nan a = false -> is_nan b = false -> flt a b = false -> fle b a = true.
Proof.
  intros Ha Hb. rewrite fle_spec, SFcompare_swap. unfold flt, SFltb.
  destruct (SFcompare a b) as [[]|] eqn:E; cbn; try done; [by right|by left|].
  apply SFcompare_nan in E as [E|E]; congruence.
Qed.

Lemma fle_not_nan a b : fle a b = true -> is_nan a = false /\ is_nan b = false.
Proof. by destruct a as [[]|[]| |[] m1 e1], b as [[]|[]| |[] m2 e2]. Qed.

Lemma fle_flt_false a b : fle a b = true -> flt b a = false.
Proof. rewrite fle_spec. unfold flt, SFltb. rewrite (SFcompare_swap a b). by intros [-> | ->]. Qed.

(** A clamped number is within its bounds. *)
Lemma fclamp_bounds v lo hi x : is_nan v = false -> fclamp v lo hi = Some x -> fle lo x = true /\ fle x hi = true.
Proof.
  intros Hv. unfold fclamp. destruct (fle lo hi) eqn:Hlh; [|done]. cbv zeta. intros [= <-].
  destruct (fle_not_nan _ _ Hlh) as [Hl Hh].
  assert (Hrefl : forall a, is_nan a = false -> fle a a = true).
  { intros a Ha. destruct (flt a a) eqn:E; [by apply flt_fle|]. by apply flt_false_fle. }
  destruct (flt v lo) eqn:E1.
  - destruct (flt hi lo) eqn:E2; [by split; [|apply Hrefl]|]. split; [by apply Hrefl|done].
  - destruct (flt hi v) eqn:E2; [by split; [|apply Hrefl]|]. split; by apply flt_false_fle.
Qed.

Lemma fclamp_total v lo hi : fle lo hi = true -> is_Some (fclamp v lo hi).
Proof. intros H. unfold fclamp. rewrite H. by eexists. Qed.

Lemma fmax_ge v m : is_nan m = false -> fle m (fmax v m) = true.
Proof.
  intros Hm. assert (Hrefl : fle m m = true) by (destruct (flt m m) eqn:E; [by apply flt_fle|by apply flt_false_fle]).
  unfold fmax. destruct (is_nan v) eqn:Hv; [done|]. rewrite Hm. destruct (flt v m) eqn:E; [done|]. by apply flt_false_fle.
Qed.

Lemma fmax_le v m hi : fle v hi = true -> fle m hi = true -> fle (fmax v m) hi = true.
Proof. intros. unfold fmax. by repeat case_match. Qed.

(** ** Products of finite numbers are numbers *)

Lemma shr_nonneg mrs e n : 0 <= shr_m mrs -> 0 <= shr_m (shr mrs e n).1.
Proof.
  assert (H1 : forall r, 0 <= shr_m r -> 0 <= shr_m (shr_1 r)) by (intros [[|[]|] r s]; cbn; lia).
  assert (Hp : forall p r, 0 <= shr_m r -> 0 <= shr_m (SpecFloat.iter_pos shr_1 p r)).
  { induction p; cbn; auto. }
  intros H. destruct n; cbn; auto.
Qed.

Lemma fmul_not_nan s1 m1 e1 s2 m2 e2 : is_nan (fmul (S754_finite s1 m1 e1) (S754_finite s2 m2 e2)) = false.
Proof.
  unfold fmul, SFmul, binary_round_aux, shr_fexp.
  assert (Hrec : forall m l, 0 <= m -> 0 <= shr_m (shr_record_of_loc m l)) by (intros m [|[]] Hm; done).
  assert (Hround : forall m l, 0 <= m -> 0 <= round_nearest_even m l).
  { intros m [|[]] Hm; cbn; try lia. destruct (Z.even m); lia. }
  match goal with |- context [shr ?a ?b ?c] => pose proof (shr_nonneg a b c ltac:(by apply Hrec)) as H1; destruct (shr a b c) as [r1 x1] end. cbn [fst] in H1.
  match goal with |- context [shr ?a ?b ?c] => pose proof (shr_nonneg a b c ltac:(by apply Hrec, Hround)) as H2; destruct (shr a b c) as [r2 x2] end. cbn [fst] in H2.
  destruct (shr_m r2); [done| |lia]. by destruct (_ <=? _).
Qed.

End F32Facts.

Module QosRun.
Import F32 F32Facts Qos QosFacts.

(** A ratio within the limits of the encoder. *)
Definition ratio_ok (r : f32) : Prop := fle BR_MIN_HIGH_RESOLUTION r = true /\ fle r BR_MAX = true.
Definition finite (r : f32) : Prop := exists m e, r = S754_finite false m e.

Lemma ratio_ok_finite r : ratio_ok r -> finite r.
Proof.
  intros [H1 H2]. destruct r as [[]|[]| |[] m e]; [exfalso..|exists m, e; done].
  all: first [by vm_compute in H1|by vm_compute in H2].
Qed.

(** ** Qualities *)

(** Every quality a viewer can ask for has a ratio in range, its ceiling too, and its floor is
    below its ceiling whatever the bitrate. *)
Definition quality_ok (q : Quality) : bool :=
  let r := quality_ratio q in let hi := fmul r MAX_BR_MULTIPLE in
  fle BR_MIN_HIGH_RESOLUTION r && fle r BR_MAX && fle BR_MIN_HIGH_RESOLUTION hi && fle hi BR_MAX &&
  match q with Best | Balanced => fle (quality_ratio q) hi && fle BR_MIN hi | _ => true end.

Lemma custom_ok : forallb (fun n => match fclamp (fdiv (of_Z (Z.of_nat n * 2)) (lit 100 1)) BR_MIN BR_MAX with
  | Some v => quality_ok (Custom v) | None => false end) (seq 0 4096) = true.
Proof. vm_compute. done. Qed.

Lemma convert_quality_ok q : exists x, convert_quality q = Some x /\ quality_ok x = true.
Proof.
  unfold convert_quality. destruct (q =? 3); [by exists Balanced|]. destruct (q =? 2); [by exists Low|].
  destruct (q =? 4); [by exists Best|].
  assert (Hn : 0 <= Z.land (q ≫ 8) 4095 < 4096).
  { change 4095 with (Z.ones 12). rewrite Z.land_ones by lia. apply Z.mod_pos_bound. lia. }
  pose proof custom_ok as H. rewrite forallb_forall in H.
  specialize (H (Z.to_nat (Z.land (q ≫ 8) 4095))). rewrite in_seq in H. specialize (H ltac:(lia)).
  rewrite Z2Nat.id in H by lia. destruct (fclamp _ _ _) as [v|]; [by exists (Custom v)|done].
Qed.

(** ** Invariants of the controller *)

Definition viewer_ok (u : UserData) : Prop :=
  match u.(quality) with Some q => quality_ok q.2 = true | None => True end /\
  match u.(delay).(ufps) with Some f => 1 <= f <= MAX_FPS | None => True end /\
  match u.(delay).(stall_reference_fps) with Some r => 1 <= r <= MAX_FPS | None => True end.

Record qos_ok (q : VideoQoS) : Prop := mkQosOk {
  ok_fps : MIN_FPS <= q.(fps_) <= MAX_FPS;
  ok_ratio : ratio_ok q.(ratio_);
  ok_users : map_Forall (fun _ => viewer_ok) q.(users) }.

Lemma viewers_ok q u : map_Forall (fun _ => viewer_ok) q.(users) -> u ∈ viewers q -> viewer_ok u.
Proof.
  intros H Hu. unfold viewers in Hu. apply list_elem_of_fmap in Hu as ([i u'] & -> & Hu). apply elem_of_map_to_list in Hu. by eapply H.
Qed.

Lemma latest_quality_ok q : map_Forall (fun _ => viewer_ok) q.(users) -> quality_ok (latest_quality q) = true.
Proof.
  intros H. unfold latest_quality.
  assert (Hq : Forall (fun x : Z * Quality => quality_ok x.2 = true) (omap quality (viewers q))).
  { apply Forall_forall. intros x (u & Hu & Ex)%list_elem_of_omap. apply (viewers_ok q u H) in Hu as [Hu _]. by rewrite Ex in Hu. }
  match goal with |- context [foldl ?f None _] => assert (Hf : forall acc,
    match acc with Some a => quality_ok a.2 = true | None => True end ->
    match foldl f acc (omap quality (viewers q)) with Some a => quality_ok a.2 = true | None => True end) end.
  { induction Hq as [|x l Hx _ IH]; intros acc Ha; [done|]. cbn [foldl]. apply IH.
    destruct acc as [a|]; [|done]. by destruct (a.1 <=? x.1). }
  specialize (Hf None I). destruct (foldl _ None _); [done|]. by vm_compute.
Qed.

Lemma quality_ok_ratio q : quality_ok q = true -> ratio_ok (quality_ratio q).
Proof. unfold quality_ok. cbv zeta. intros H. bool_to_prop. done. Qed.

Lemma lower_le o m hi : fle m hi = true ->
  fle (match o with Some r => if flt r m then r else m | None => m end) hi = true.
Proof. intros H. destruct o as [r|]; [|done]. destruct (flt r m) eqn:E; [|done]. eapply fle_trans; [by apply flt_fle|done]. Qed.

(** The floor of the ratio is at least [BR_MIN_HIGH_RESOLUTION] and at most the ceiling. *)
Lemma min_ratio_ok q : quality_ok (latest_quality q) = true ->
  fle BR_MIN_HIGH_RESOLUTION (min_ratio q) = true /\
  fle (min_ratio q) (fmul (quality_ratio (latest_quality q)) MAX_BR_MULTIPLE) = true /\
  fle (fmul (quality_ratio (latest_quality q)) MAX_BR_MULTIPLE) BR_MAX = true.
Proof.
  unfold min_ratio. cbv zeta. unfold quality_ok. cbv zeta. intros H. bool_to_prop.
  match goal with |- context [if 0 <? bitrate_store q then ?x else ?y] => generalize (if 0 <? bitrate_store q then x else y) end. intros o.
  destruct (latest_quality q); (split; [|split; [|assumption]]).
  - eapply fle_trans; [|by apply fmax_ge]. by vm_compute.
  - apply fmax_le; [|by vm_compute]. apply lower_le. by vm_compute.
  - by apply fmax_ge.
  - apply fmax_le; [|by vm_compute]. apply lower_le. by vm_compute.
  - by vm_compute.
  - assumption.
  - by vm_compute.
  - assumption.
Qed.

Lemma ratio_reduction_finite d r : ratio_reduction d = Some r -> finite r.
Proof.
  unfold ratio_reduction. cbv zeta. destruct (negb _); [done|]. intros [= <-]. unfold finite.
  repeat case_match; by eexists _, _.
Qed.

Lemma fmin_finite a b : finite a -> finite b -> finite (fmin a b).
Proof. intros Ha Hb. unfold fmin. by repeat case_match. Qed.

Lemma foldl_fmin_finite l x : finite x -> Forall finite l -> finite (foldl fmin x l).
Proof. intros Hx Hl. revert x Hx. induction Hl as [|y l Hy _ IH]; intros x Hx; [done|]. cbn. by apply IH, fmin_finite. Qed.

Lemma finite_mul a b : finite a -> finite b -> is_nan (fmul a b) = false.
Proof. intros (m & e & ->) (m' & e' & ->). apply fmul_not_nan. Qed.

Lemma finite_not_nan a : finite a -> is_nan a = false.
Proof. by intros (m & e & ->). Qed.

(** ** The ratio is always adjusted within its limits *)

(** The least reduction any viewer asks for. *)
Definition reduction_of (q : VideoQoS) : option f32 :=
  match omap (ratio_reduction ∘ delay) (viewers q) with [] => None | x :: l => Some (foldl fmin x l) end.

Lemma reduction_finite q r : reduction_of q = Some r -> finite r.
Proof.
  unfold reduction_of. assert (H : Forall finite (omap (ratio_reduction ∘ delay) (viewers q))).
  { apply Forall_forall. intros x (u & _ & Hx)%list_elem_of_omap. by eapply ratio_reduction_finite. }
  destruct (omap _ _) as [|x l]; [done|]. apply Forall_cons in H as [H1 H2]. intros [= <-]. by apply foldl_fmin_finite.
Qed.

Lemma map_Forall_fmap_ok (m : gmap Z UserData) f : (forall u, viewer_ok u -> viewer_ok (f u)) ->
  map_Forall (fun _ => viewer_ok) m -> map_Forall (fun _ => viewer_ok) (f <$> m).
Proof. intros Hf Hm i x. rewrite lookup_fmap. destruct (m !! i) eqn:E; [|done]. intros [= <-]. apply Hf. by eapply Hm. Qed.

Lemma adjust_ratio_ok now q dyn : qos_ok q -> exists q', adjust_ratio now q dyn = Some q' /\ qos_ok q'.
Proof.
  intros [Hf Hr Hu]. unfold adjust_ratio. destruct (negb _); [by exists q|].
  destruct (match _ ∘ _ <$> _ with [] => None | _ :: _ => _ end) as [md|]; [|by exists q].
  cbv zeta. fold (reduction_of q). destruct (bool_decide _ && _); [eexists; by split|].
  pose proof (latest_quality_ok q Hu) as Hq. destruct (min_ratio_ok q Hq) as (Hm1 & Hm2 & Hm3).
  match goal with |- context [fclamp ?x (min_ratio q) ?y] => set (v := x); set (hi := y) in * end.
  assert (Hv : is_nan v = false).
  { unfold v. match goal with |- context [match ?o with Some r => if flt r ?w && _ && _ then r else _ | None => _ end] =>
      generalize o; intros o'; assert (Hw : is_nan w = false) end.
    - destruct (reduction_of q) as [r|] eqn:Er; [|destruct dyn].
      + apply finite_mul; [by apply ratio_ok_finite|by eapply reduction_finite].
      + apply finite_mul; [by apply ratio_ok_finite|].
        destruct (md <? 50); [|destruct (md <? 100)]; do 2 eexists; reflexivity.
      + by apply finite_not_nan, ratio_ok_finite.
    - destruct o' as [r|]; [|exact Hw]. destruct (flt r _ && _ && _) eqn:E; [|exact Hw].
      apply andb_true_iff in E as [[E _]%andb_true_iff _]. apply flt_fle in E. exact (proj1 (fle_not_nan _ _ E)). }
  clearbody v. destruct (fclamp_total v _ _ Hm2) as [c Hc]. fold hi in Hc. rewrite Hc. eexists. split; [done|].
  destruct (fclamp_bounds _ _ _ _ Hv Hc) as [Hc1 Hc2]. split; [|split|].
  - by destruct (bool_decide _).
  - cbn. by eapply fle_trans.
  - cbn. by eapply fle_trans.
  - cbn. assert (Hmap : forall f : UserData -> UserData, (forall u, viewer_ok u -> viewer_ok (f u)) ->
      map_Forall (fun _ => viewer_ok) (users (if bool_decide (reduction_of q = None) then q else set_users q (f <$> users q)))).
    { intros f Hfu. destruct (bool_decide _); [done|]. by apply map_Forall_fmap_ok. }
    match goal with |- context [?f <$> users q] => apply (Hmap f) end. intros u Hu'. by destruct (_ && _).
Qed.

Lemma network_delay_user_ok u r bf d : viewer_ok u -> viewer_ok (network_delay_user u r bf d).1.1.
Proof.
  intros (Hq & _ & _). unfold network_delay_user. destruct (quality_tier r) as [lo normal]. cbv beta iota zeta.
  destruct (delay_fps _ _ _ _ _ _) as [f1 q]. destruct (if 3 <=? _ then _ else _) as [inc f2].
  match goal with |- context [limit_fps_change ?d4 ?a ?b ?c ?e ?g] =>
    assert (Hd4 : stall_ticks d4 = 0 /\ stall_reference_fps d4 = None) by (by destruct (50 <? _), (bool_decide _));
    pose proof (limit_stall d4 a b c e g (proj1 Hd4) (proj2 Hd4)) as [S1 S2]; destruct (limit_fps_change d4 a b c e g) as [d5 f5] end.
  match goal with |- context [accelerate_startup ?a ?b ?c ?e ?g ?h] =>
    pose proof (accelerate_stall a b c e g h S1 S2) as [S3 S4]; destruct (accelerate_startup a b c e g h) as [d6 f6] end.
  cbn [fst] in *. pose proof (fps_cap_range u) as Hcap. split; [exact Hq|].
  cbn [delay set_delay ufps set_ufps stall_reference_fps]. rewrite S4. split; [|done].
  rewrite clampZ_minmax by (unfold MIN_FPS; lia). unfold MIN_FPS, MAX_FPS in *. lia.
Qed.

Lemma elapsed_user_ok u e : probe_time e -> viewer_ok u -> viewer_ok (elapsed_user u e).
Proof.
  intros He (Hq & Hf & Hs). pose proof (fps_cap_range u) as Hcap. unfold MAX_FPS in *.
  assert (Ht : 1 <= target_of u <= 120).
  { unfold target_of. destruct (ufps (delay u)); cbn; unfold INIT_FPS; lia. }
  assert (Hr : 1 <= default (target_of u) (stall_reference_fps (delay u)) <= 120) by (by destruct (stall_reference_fps (delay u))).
  destruct (elapsed_user_spec u e _ He (proj1 Hr) eq_refl) as (H1 & _ & H3 & _).
  assert (Hq' : quality (elapsed_user u e) = quality u).
  { unfold elapsed_user. cbv zeta. by destruct (match stall_reference_fps _ with Some _ => _ | None => _ end). }
  unfold viewer_ok. rewrite Hq', H1, H3, clampZ_minmax by lia.
  set (r := default _ _) in *. assert (Hc : 1 <= default r (ufps (delay u)) <= 120) by (by destruct (ufps (delay u))).
  unfold MAX_FPS. split; [exact Hq|]. split; [lia|exact Hr].
Qed.

Lemma adjust_fps_ok now q : ratio_ok q.(ratio_) -> map_Forall (fun _ => viewer_ok) q.(users) -> qos_ok (adjust_fps now q).
Proof.
  intros Hr Hu. split; [|done|done]. unfold adjust_fps, highest_fps. cbn. rewrite !clampZ_minmax; unfold MIN_FPS, MAX_FPS; try lia.
  rewrite clampZ_minmax; lia.
Qed.

Lemma users_insert q id u : viewer_ok u -> map_Forall (fun _ => viewer_ok) q.(users) -> map_Forall (fun _ => viewer_ok) (<[id := u]> q.(users)).
Proof. intros. by apply map_Forall_insert_2. Qed.

Lemma with_user_ok q id f : (forall u, viewer_ok u -> viewer_ok (f u)) -> qos_ok q -> qos_ok (with_user q id f).
Proof.
  intros Hf [H1 H2 H3]. unfold with_user. destruct (users q !! id) as [u|] eqn:E; [|done].
  split; [done|done|]. apply users_insert; [|done]. apply Hf. by eapply H3.
Qed.

Lemma qos_default_ok linux now : qos_ok (qos_default linux now).
Proof. split; cbn; [unfold MIN_FPS, FPS, MAX_FPS; lia|by vm_compute|apply map_Forall_empty]. Qed.

(** A tick is sent for probes of less than fifty days. *)
Definition event_ok (ev : Event) : Prop := match ev with EElapsed _ e => e < 2 ^ 32 | _ => True end.

Lemma step_ok linux now q ev : event_ok ev -> qos_ok q -> exists q', step linux now q ev = Some q' /\ qos_ok q'.
Proof.
  intros Hev Hq. pose proof Hq as [H1 H2 H3]. destruct ev; cbn [step].
  - eexists. split; [done|]. split; [done|done|]. apply users_insert; [|done]. by split_and!.
  - eexists. split; [done|]. unfold on_connection_close. cbv zeta. destruct (bool_decide _); [apply qos_default_ok|].
    apply adjust_fps_ok; [done|]. by apply map_Forall_delete.
  - eexists. split; [done|]. unfold user_custom_fps. destruct (_ || _); [done|]. by apply with_user_ok.
  - eexists. split; [done|]. unfold user_auto_adjust_fps. destruct (_ || _); [done|]. by apply with_user_ok.
  - eexists. split; [done|]. by apply with_user_ok.
  - unfold user_image_quality. destruct (convert_quality_ok q0) as (x & -> & Hx). destruct (users q !! id) as [u|] eqn:E; [|by exists q].
    eexists. split; [done|]. assert (Hu : map_Forall (fun _ => viewer_ok) (<[id:=set_quality u (Some (time, x))]> (users q))).
    { apply users_insert; [|done]. destruct (H3 _ _ E) as (_ & ? & ?). by split_and!. }
    split; [done| |done]. by apply quality_ok_ratio, latest_quality_ok.
  - unfold user_network_delay. cbv zeta.
    set (x := match users q !! id with Some _ => _ | None => _ end).
    assert (Hx : ratio_ok x.1.1.(ratio_) /\ map_Forall (fun _ => viewer_ok) x.1.1.(users)).
    { unfold x. clear x. destruct (users q !! id) as [u|] eqn:E; [|done].
      pose proof (network_delay_user_ok u (quality_ratio (latest_quality q)) (can_reduce_bitrate q) delay0 (H3 _ _ E)) as Hn.
      destruct (network_delay_user _ _ _ _) as [[u' a] b]. split; [done|]. by apply users_insert. }
    destruct x as [[q1 first] reduce]. destruct Hx as [Hx1 Hx2].
    pose proof (adjust_fps_ok now q1 Hx1 Hx2) as Hq1.
    assert (H : exists q2, (if first && first_reply_adjusts_ratio (adjust_fps now q1) && cooldown_over now (adjust_fps now q1)
      then adjust_ratio now (adjust_fps now q1) false else Some (adjust_fps now q1)) = Some q2 /\ qos_ok q2).
    { destruct (_ && _ && _); [by apply adjust_ratio_ok|by eexists]. }
    destruct H as (q2 & -> & Hq2). destruct (_ && _); [by apply adjust_ratio_ok|by exists q2].
  - eexists. split; [done|]. unfold user_delay_response_elapsed. destruct (users q !! id) as [u|] eqn:E; [|done].
    destruct (elapsed <=? 2000) eqn:El; [done|]. bool_to_prop. apply adjust_fps_ok; [done|]. apply users_insert; [|done].
    apply elapsed_user_ok; [split; [lia|exact Hev]|]. by eapply H3.
  - by eexists.
  - by eexists.
  - by eexists.
  - unfold update_display_data. cbv zeta. set (q1 := set_displays q _). pose proof (adjust_fps_ok now q1 H2 H3) as Hq1.
    destruct (in_vbr_state _).
    + destruct (cooldown_over _ _); [by apply adjust_ratio_ok|by eexists].
    + eexists. split; [done|]. destruct Hq1 as [Ha Hb Hc]. split; [done| |done]. by apply quality_ok_ratio, latest_quality_ok.
  - by eexists.
  - eexists. split; [done|]. unfold ratio. cbv zeta. destruct (_ || _); [|done]. split; [done|by vm_compute|done].
Qed.

(** C23: the controller never panics and stays within its limits.  From its initial state,
    whatever the viewers, displays and clock do, every event is handled (no [clamp] meets
    crossed bounds), the stream's frame rate is between 1 and 120, the bitrate ratio is a
    number between 0.1 and 40, and every viewer has a target between 1 and 120. *)
Theorem run_within_limits (linux : bool) (start : Z) (evs : list (Z * Event)) :
  Forall (fun e => event_ok e.2) evs ->
  exists q, run linux (qos_default linux start) evs = Some q /\ 1 <= fps q <= 120 /\ fps q = q.(fps_) /\
    fle (lit 1 10) (ratio q).1 = true /\ fle (ratio q).1 (lit 40 1) = true /\ (ratio q).1 = q.(ratio_) /\
    forall id u f, q.(users) !! id = Some u -> u.(delay).(ufps) = Some f -> 1 <= f <= 120.
Proof.
  intros Hevs. pose proof (qos_default_ok linux start) as H0. revert H0. generalize (qos_default linux start) as q.
  induction Hevs as [|[now ev] evs Hev _ IH]; intros q Hq.
  - exists q. split; [done|]. destruct Hq as [H1 H2 H3]. unfold fps.
    rewrite (proj2 (Z.leb_le _ _) (proj1 H1)), (proj2 (Z.leb_le _ _) (proj2 H1)). unfold ratio. cbv zeta.
    assert (Hno : flt (ratio_ q) BR_MIN_HIGH_RESOLUTION = false /\ flt BR_MAX (ratio_ q) = false).
    { destruct H2 as [Ha Hb]. split; [exact (fle_flt_false _ _ Ha)|exact (fle_flt_false _ _ Hb)]. }
    destruct Hno as [-> ->]. cbn [orb fst andb]. split_and!; try apply H1; try apply H2; try done.
    intros id u f Hu Hf. destruct (H3 _ _ Hu) as (_ & Hr & _). by rewrite Hf in Hr.
  - cbn [run]. destruct (step_ok linux now q ev Hev Hq) as (q' & -> & Hq'). by apply IH.
Qed.

(** Two viewers, one slow: the stream follows the slow one until it leaves. *)
Definition two_viewers : list (Z * Event) :=
  [(0, EOpen 1 true); (0, EOpen 2 true); (10, ENewDisplay "d"%string); (20, ESupport "d"%string true);
   (100, EQuality 1 4 100); (110, EQuality 2 25600 110); (2000, EDelay 1 20); (2000, EDelay 2 20); (5000, EElapsed 2 3500);
   (6000, EBitrate 2000); (9000, EDisplay "d"%string 30); (12000, EDelay 2 1200); (15000, EDisplay "d"%string 30)].

Lemma run_within_limits_witness :
  (fps <$> run true (qos_default true 0) two_viewers) = Some 5 /\
  (fps <$> run true (qos_default true 0) (two_viewers ++ [(16000, EClose 2)])) = Some 16 /\
  exists q, run true (qos_default true 0) two_viewers = Some q /\ 1 <= fps q <= 120.
Proof.
  split; [by vm_compute|]. split; [by vm_compute|].
  assert (Hev : Forall (fun e => event_ok e.2) two_viewers) by (repeat constructor).
  destruct (run_within_limits true 0 two_viewers Hev) as (q & H1 & H2 & _). exists q. exact (conj H1 H2).
Defined.

(** ** The frame rate of the stream *)

Lemma elem_viewers q u : u ∈ viewers q <-> exists id, q.(users) !! id = Some u.
Proof.
  unfold viewers. rewrite list_elem_of_fmap. split.
  - intros ([i u'] & -> & Hu). exists i. by apply elem_of_map_to_list in Hu.
  - intros [i Hi]. exists (i, u). split; [done|]. by apply elem_of_map_to_list.
Qed.

Definition target (u : UserData) : Z := default INIT_FPS u.(delay).(ufps).
(** A viewer in its first second. *)
Definition joining (now : Z) (u : UserData) : bool :=
  match u.(joined_at) with Some j => since_secs now j <? 1 | None => false end.

Lemma highest_fps_spec q : q.(users) <> ∅ ->
  (exists id u, q.(users) !! id = Some u /\ highest_fps q = fps_cap u) /\
  (forall id u, q.(users) !! id = Some u -> highest_fps q <= fps_cap u).
Proof.
  intros Hne. unfold highest_fps. pose proof (min_list_spec (fps_cap <$> viewers q)) as H.
  destruct (min_list _) as [m|].
  - destruct H as [Hin Hle]. apply list_elem_of_fmap in Hin as (u & -> & Hu). apply elem_viewers in Hu as [id Hu].
    pose proof (fps_cap_range u) as Hc. unfold from_option, Datatypes.id.
    assert (E : clampZ (fps_cap u) MIN_FPS MAX_FPS = fps_cap u) by (rewrite clampZ_minmax; unfold MIN_FPS, MAX_FPS; lia). rewrite E.
    split; [by exists id, u|]. intros id' u' Hu'. rewrite Forall_forall in Hle. apply Hle. apply list_elem_of_fmap. exists u'.
    split; [done|]. apply elem_viewers. by exists id'.
  - destruct Hne. apply map_empty. intros i. destruct (users q !! i) as [u|] eqn:E; [|done].
    assert (Hu : u ∈ viewers q) by (apply elem_viewers; by exists i). destruct (viewers q); [by apply elem_of_nil in Hu|done].
Qed.

(** The stream's frame rate is the highest one every viewer accepts.  It never exceeds a
    viewer's own cap, a viewer's current target, or 15 while a viewer is in its first second;
    and it is one of these bounds, so nothing is given away (the rate is at least 1 whatever
    the targets). *)
Theorem stream_rate (now : Z) (q : VideoQoS) :
  q.(users) <> ∅ -> (forall id u, q.(users) !! id = Some u -> 1 <= target u) ->
  let f := fps (adjust_fps now q) in
  (forall id u, q.(users) !! id = Some u -> f <= fps_cap u /\ f <= target u /\ (joining now u = true -> f <= 15)) /\
  1 <= f /\
  exists id u, q.(users) !! id = Some u /\ (f = fps_cap u \/ f = target u \/ (joining now u = true /\ f = 15)).
Proof.
  intros Hne Ht. destruct (highest_fps_spec q Hne) as [(idc & uc & Huc & Hc) Hcaps]. pose proof (fps_cap_range uc) as Hcr.
  cbv zeta. assert (Hfps : fps (adjust_fps now q) = fps_ (adjust_fps now q)).
  { unfold fps, adjust_fps. cbn. rewrite clampZ_minmax by (unfold MIN_FPS; lia). rewrite (proj2 (Z.leb_le MIN_FPS _)), (proj2 (Z.leb_le _ MAX_FPS)); unfold MIN_FPS, MAX_FPS; [done|lia..]. }
  rewrite Hfps. unfold adjust_fps. cbn [fps_ set_fps_]. rewrite clampZ_minmax by (unfold MIN_FPS; lia). rewrite Hc. unfold MIN_FPS.
  pose proof (min_list_spec ((fun u => default INIT_FPS (ufps (delay u))) <$> viewers q)) as Hm.
  destruct (min_list _) as [m|].
  2: { assert (Hu : uc ∈ viewers q) by (apply elem_viewers; by exists idc). destruct (viewers q); [by apply elem_of_nil in Hu|done]. }
  destruct Hm as [Hin Hle]. apply list_elem_of_fmap in Hin as (um & Em & Hum). apply elem_viewers in Hum as [idm Hum].
  change (m = target um) in Em. unfold from_option, Datatypes.id. unfold INIT_FPS.
  assert (Hmin : forall id u, users q !! id = Some u -> m <= target u).
  { intros id u Hu. rewrite Forall_forall in Hle. apply Hle. apply list_elem_of_fmap. exists u. split; [done|]. apply elem_viewers. by exists id. }
  pose proof (Ht _ _ Hum) as Hm1. change (existsb _ (viewers q)) with (existsb (joining now) (viewers q)).
  set (f := if existsb (joining now) (viewers q) then m `min` 15 else m).
  assert (Hf : (forall id u, users q !! id = Some u -> joining now u = true -> f <= 15) /\ 1 <= f <= m /\
    (f = m \/ exists id u, users q !! id = Some u /\ joining now u = true /\ f = 15)).
  { unfold f. destruct (existsb _ _) eqn:Ej.
    - apply existsb_exists in Ej as (u & Hu & Hj). apply list_elem_of_In, elem_viewers in Hu as [id Hu].
      split; [lia|]. split; [lia|]. destruct (decide (m <= 15)); [left; lia|right; exists id, u; split_and!; [done|done|lia]].
    - split; [|split; [lia|by left]]. intros id u Hu Hj. assert (Hx : existsb (joining now) (viewers q) = true); [|congruence].
      apply existsb_exists. exists u. split; [|done]. apply list_elem_of_In, elem_viewers. by exists id. }
  clearbody f. destruct Hf as (F1 & F2 & F3). split_and!; [|lia|].
  - intros id u Hu. pose proof (Hmin _ _ Hu). pose proof (Hcaps _ _ Hu) as Hcu. rewrite Hc in Hcu. split; [lia|]. split; [lia|]. intros Hj. specialize (F1 _ _ Hu Hj). lia.
  - destruct (decide (fps_cap uc <= f)); [exists idc, uc; split; [done|left; lia]|].
    destruct F3 as [->|(id & u & Hu & Hj & ->)]; [exists idm, um; split; [done|right; left; lia]|exists id, u; split; [done|right; right; split; [done|lia]]].
Qed.

Definition mixed_room : VideoQoS :=
  set_users (qos_default false 0)
    (<[1 := set_custom_fps (set_delay user_default (set_ufps ud_default (Some 40))) (Some 60)]>
      (<[2 := mkUser (Some 25) None None (set_ufps ud_default (Some 30)) false (Some 5000)]> ∅)).

Lemma stream_rate_witness :
  fps (adjust_fps 5500 mixed_room) = 15 /\ fps (adjust_fps 7000 mixed_room) = 25 /\ fps (adjust_fps 7000 mixed_room) <= 30.
Proof.
  split; [by vm_compute|]. split; [by vm_compute|].
  destruct (stream_rate 7000 mixed_room) as (H & _).
  - intros H. apply (f_equal (lookup 1)) in H. by vm_compute in H.
  - intros id u. unfold mixed_room. cbn [users set_users]. rewrite !lookup_insert_Some.
    intros [[_ <-]|[_ [[_ <-]|[_ H]]]]; [by vm_compute..|by rewrite lookup_empty in H].
  - destruct (H 2 (mkUser (Some 25) None None (set_ufps ud_default (Some 30)) false (Some 5000))) as (_ & H2 & _); [by vm_compute|exact H2].
Defined.

(** ** When the bitrate may change *)

(** The grounds for an automatic change, in the state after it: some viewer has reported
    congestion twice in a row, or no viewer sees any. *)
Definition grounds (q : VideoQoS) : Prop :=
  (exists id u, q.(users) !! id = Some u /\ needs_bitrate_reduction u.(delay) = true) \/
  (forall id u, q.(users) !! id = Some u -> avg_delay u.(delay) < DELAY_THRESHOLD_150MS).

Lemma foldl_max_ge l x : x <= foldl Z.max x l /\ Forall (fun y => y <= foldl Z.max x l) l.
Proof.
  revert x. induction l as [|y l IH]; intros x; cbn; [split; [lia|constructor]|].
  destruct (IH (Z.max x y)) as [H1 H2]. split; [lia|]. constructor; [lia|done].
Qed.

Lemma adjust_ratio_change now q dyn q' : adjust_ratio now q dyn = Some q' ->
  (q'.(ratio_) = q.(ratio_) /\ q'.(adjust_ratio_instant) = q.(adjust_ratio_instant)) \/
  (in_vbr_state q = true /\ q'.(adjust_ratio_instant) = now /\ grounds q').
Proof.
  unfold adjust_ratio. destruct (in_vbr_state q); cbn [negb]; [|intros [= <-]; by left].
  destruct (avg_delay ∘ delay <$> viewers q) as [|x l] eqn:Eavg; [intros [= <-]; by left|].
  cbv zeta. fold (reduction_of q). destruct (reduction_of q) as [r|] eqn:Er; cbn [bool_decide andb].
  - rewrite !bool_decide_eq_false_2 by done. cbn [andb]. destruct (fclamp _ _ _) as [c|]; [|done]. intros [= <-]. right. split; [done|]. split; [done|].
    left. assert (Hu : exists u, u ∈ viewers q /\ needs_bitrate_reduction (delay u) = true).
    { unfold reduction_of in Er. destruct (omap _ _) as [|y l'] eqn:Eo; [done|].
      assert (Hy : y ∈ omap (ratio_reduction ∘ delay) (viewers q)) by (rewrite Eo; by left).
      apply list_elem_of_omap in Hy as (u & Hu & Hy). exists u. split; [done|]. unfold ratio_reduction in Hy. cbn in Hy. by destruct (needs_bitrate_reduction (delay u)). }
    destruct Hu as (u & [id Hid]%elem_viewers & Hn). cbn [users set_adjust_ratio_instant reset_send_counters set_displays set_ratio_ set_users].
    eexists id, _. rewrite lookup_fmap, Hid. split; [done|]. by destruct (_ && _).
  - rewrite !bool_decide_eq_true_2 by done. cbn [andb]. destruct (_ <=? _) eqn:Emax; [intros [= <-]; by left|].
    destruct (fclamp _ _ _) as [c|]; [|done]. intros [= <-]. right. split; [done|]. split; [done|]. right. cbn. intros id u Hu.
    destruct (foldl_max_ge l x) as [Hx Hl]. apply Z.leb_gt in Emax.
    assert (Hin : avg_delay (delay u) ∈ x :: l).
    { rewrite <- Eavg. apply list_elem_of_fmap. exists u. split; [done|]. apply elem_viewers. by exists id. }
    apply elem_of_cons in Hin as [->|Hin]; [lia|]. rewrite Forall_forall in Hl. specialize (Hl _ Hin). cbn in Hl. lia.
Qed.

(** The bitrate is not adjusted more often than every three seconds, nor on a hunch.  A
    step that changes the ratio is a request of a viewer for another quality, the end of the
    last session, a display report while the encoder cannot follow (then the ratio is the
    wanted quality's), or the repair of an impossible ratio; otherwise at least three seconds
    have passed since the last adjustment, the clock restarts, and either a viewer has reported
    congestion at least twice in a row or every viewer's average excess delay is below 150 ms. *)
Theorem ratio_changes_justified (linux : bool) (now : Z) (q : VideoQoS) (ev : Event) (q' : VideoQoS) :
  step linux now q ev = Some q' -> q'.(ratio_) <> q.(ratio_) ->
  match ev with
  | EQuality id _ _ => is_Some (q.(users) !! id) /\ q'.(ratio_) = quality_ratio (latest_quality q')
  | EClose id => delete id q.(users) = ∅ /\ q' = qos_default linux now
  | ERatio => (ratio q).1 = BR_BALANCED
  | EDelay _ _ | EDisplay _ _ =>
      (exists n c, ev = EDisplay n c /\ in_vbr_state q' = false /\ q'.(ratio_) = quality_ratio (latest_quality q')) \/
      (ADJUST_RATIO_INTERVAL <= since_secs now q.(adjust_ratio_instant) /\ q'.(adjust_ratio_instant) = now /\ grounds q')
  | _ => False
  end.
Proof.
  destruct ev; cbn [step]; intros Hs Hne; try (injection Hs as <-; by destruct Hne).
  - injection Hs as <-. unfold on_connection_close in *. cbv zeta in *. cbn [users set_users] in *.
    destruct (bool_decide _) eqn:E; [|by destruct Hne]. by apply bool_decide_eq_true in E.
  - injection Hs as <-. unfold user_custom_fps, with_user in Hne. by repeat case_match.
  - injection Hs as <-. unfold user_auto_adjust_fps, with_user in Hne. by repeat case_match.
  - injection Hs as <-. unfold user_record, with_user in Hne. by repeat case_match.
  - unfold user_image_quality in Hs. destruct (convert_quality _); [|done]. destruct (users q !! id) as [u|] eqn:E; [|injection Hs as <-; by destruct Hne].
    injection Hs as <-. split; [by eexists|]. done.
  - right. unfold user_network_delay in Hs. cbv zeta in Hs.
    set (x := match users q !! id with Some _ => _ | None => _ end) in Hs.
    assert (Hx : x.1.1.(ratio_) = q.(ratio_) /\ x.1.1.(adjust_ratio_instant) = q.(adjust_ratio_instant)).
    { unfold x. destruct (users q !! id) as [u|]; [|done]. by destruct (network_delay_user _ _ _ _) as [[? ?] ?]. }
    destruct x as [[q1 first] reduce]. cbn [fst] in Hx. destruct Hx as [Hx1 Hx2].
    set (q2 := adjust_fps now q1) in *. assert (Hq2 : q2.(ratio_) = q.(ratio_) /\ q2.(adjust_ratio_instant) = q.(adjust_ratio_instant)) by done.
    clearbody q2. clear Hx1 Hx2 q1. destruct Hq2 as [R1 R2].
    destruct (if first && first_reply_adjusts_ratio q2 && cooldown_over now q2 then adjust_ratio now q2 false else Some q2) as [q3|] eqn:E3; [|done].
    assert (H3 : (q3.(ratio_) = q.(ratio_) /\ q3.(adjust_ratio_instant) = q.(adjust_ratio_instant)) \/
      (ADJUST_RATIO_INTERVAL <= since_secs now q.(adjust_ratio_instant) /\ q3.(adjust_ratio_instant) = now /\ grounds q3)).
    { destruct (first && _ && _) eqn:Ec; [|injection E3 as <-; by left]. apply andb_true_iff in Ec as [_ Ec]. unfold cooldown_over in Ec.
      rewrite R2 in Ec. apply Z.leb_le in Ec. destruct (adjust_ratio_change _ _ _ _ E3) as [[-> ->]|(_ & ? & ?)]; [by left|by right]. }
    destruct (reduce && cooldown_over now q3) eqn:Ec; [|injection Hs as <-; by destruct H3 as [[]|]].
    apply andb_true_iff in Ec as [_ Ec]. unfold cooldown_over in Ec. apply Z.leb_le in Ec.
    destruct H3 as [[R3 R4]|(_ & R4 & _)].
    + rewrite R4 in Ec. destruct (adjust_ratio_change _ _ _ _ Hs) as [[E _]|(_ & ? & ?)]; [congruence|done].
    + exfalso. rewrite R4 in Ec. unfold since_secs, sat_sub, ADJUST_RATIO_INTERVAL in Ec. rewrite Z.sub_diag in Ec. by vm_compute in Ec.
  - injection Hs as <-. unfold user_delay_response_elapsed in Hne. by repeat case_match.
  - unfold update_display_data in Hs. cbv zeta in Hs. set (q1 := adjust_fps now _) in Hs.
    assert (H1 : q1.(ratio_) = q.(ratio_) /\ q1.(adjust_ratio_instant) = q.(adjust_ratio_instant)) by done. clearbody q1. destruct H1 as [R1 R2].
    destruct (in_vbr_state q1) eqn:Ev.
    + right. destruct (cooldown_over now q1) eqn:Ec; [|injection Hs as <-; congruence]. unfold cooldown_over in Ec. rewrite R2 in Ec. apply Z.leb_le in Ec.
      destruct (adjust_ratio_change _ _ _ _ Hs) as [[E _]|(_ & ? & ?)]; [congruence|done].
    + left. injection Hs as <-. by exists name, counter.
  - injection Hs as <-. revert Hne. unfold ratio. cbv zeta. by destruct (_ || _).
Qed.

(** One viewer whose delay has just been late twice: the second late reply takes 5% off. *)
Definition congested_room : VideoQoS :=
  set_displays (set_users (qos_default false 0) (<[1 := set_delay user_default (set_consecutive_bad_samples (set_ufps (set_rtt_calculator ud_default (mkRtt (Some 20) [20])) (Some 30)) 1)]> ∅))
    (<["d"%string := mkDisplay 0 true]> ∅).

Lemma ratio_changes_justified_witness : exists q',
  step false 4000 congested_room (EDelay 1 230) = Some q' /\ q'.(adjust_ratio_instant) = 4000 /\ grounds q'.
Proof.
  destruct (step false 4000 congested_room (EDelay 1 230)) as [q'|] eqn:E; [|by vm_compute in E].
  exists q'. split; [done|]. assert (Hne : q'.(ratio_) <> congested_room.(ratio_)).
  { intros H. assert (H' : (ratio_ <$> step false 4000 congested_room (EDelay 1 230)) = Some congested_room.(ratio_)) by (rewrite E; cbn; by rewrite H).
    by vm_compute in H'. }
  destruct (ratio_changes_justified false 4000 congested_room (EDelay 1 230) q' E Hne) as [(n & c & Hn & _)|(_ & H1 & H2)]; [done|].
  exact (conj H1 H2).
Defined.

End QosRun.
