(* ===== verification/AudioResample.v ===== *)
(** Resampling of audio, [src/audio_resampler.rs] with the linear backend (the default feature
    [use_dasp]), and cutting a stream of samples into packets of one size.

    Samples are interleaved.  An index out of range is a panic, [None]; the loop has fuel for every
    frame the buffered samples can give, which is enough ([loop_done]). *)

From S2P Require Import Prelude Float.
Import F32.

(** ** Whole packets of a list, and what is left *)
Module Packets.

(** [chunks_exact] and its remainder *)
Definition chunks_exact {A} (n : nat) (l : list A) : list (list A) := (fun k => take n (drop (k * n) l)) <$> seq 0 (length l / n).
Definition leftover {A} (n : nat) (l : list A) : list A := drop (length l / n * n) l.

Section Packets.
Context {A : Type} (n : nat) (Hn : (0 < n)%nat).
Implicit Types a b l : list A.

Lemma whole_le l : (length l / n * n <= length l)%nat.
Proof using Hn. rewrite Nat.mul_comm. apply Nat.Div0.mul_div_le. Qed.

Lemma length_leftover l : (length (leftover n l) < n)%nat.
Proof using Hn.
  unfold leftover. rewrite length_drop. pose proof (Nat.div_mod_eq (length l) n). pose proof (Nat.mod_upper_bound (length l) n). lia.
Qed.

Lemma split_count a b : (length (a ++ b) / n = length a / n + length (leftover n a ++ b) / n)%nat.
Proof using Hn.
  unfold leftover. rewrite !length_app, length_drop. rewrite <- Nat.div_add_l by lia. f_equal.
  pose proof (whole_le a). lia.
Qed.

Lemma chunks_app a b : chunks_exact n (a ++ b) = chunks_exact n a ++ chunks_exact n (leftover n a ++ b).
Proof using Hn.
  unfold chunks_exact. rewrite split_count, seq_app, fmap_app. pose proof (whole_le a) as Hw. f_equal.
  - apply list_fmap_ext. intros i k [-> Hk]%lookup_seq. cbn.
    assert (i * n + n <= length a)%nat by (etransitivity; [|exact Hw]; nia).
    rewrite drop_app_le by lia. rewrite take_app_le; [done|]. rewrite length_drop. lia.
  - cbn. rewrite <- (Nat.add_0_r (length a / n)) at 1. rewrite <- fmap_add_seq, <- list_fmap_compose. apply list_fmap_ext.
    intros i k _. cbn. f_equal. unfold leftover. rewrite Nat.mul_add_distr_r, <- drop_drop. f_equal. by rewrite drop_app_le.
Qed.

Lemma leftover_app a b : leftover n (a ++ b) = leftover n (leftover n a ++ b).
Proof using Hn.
  unfold leftover at 1 2. rewrite split_count, Nat.mul_add_distr_r, <- drop_drop. f_equal. unfold leftover. by rewrite drop_app_le by apply whole_le.
Qed.

Lemma chunks_short l : (length l < n)%nat -> chunks_exact n l = [] /\ leftover n l = l.
Proof using Hn. intros Hl. unfold chunks_exact, leftover. rewrite Nat.div_small by done. done. Qed.

Lemma chunks_one l : length l = n -> chunks_exact n l = [l] /\ leftover n l = [].
Proof using Hn.
  intros Hl. unfold chunks_exact, leftover. rewrite Hl, Nat.div_same by lia. cbn. rewrite Nat.add_0_r, drop_0, take_ge, drop_ge by lia. done.
Qed.

(** The packets and the rest are the list. *)
Lemma exact_concat l : concat (chunks_exact n l) ++ leftover n l = l.
Proof using Hn.
  induction l as [l IH] using (well_founded_induction (Wf_nat.well_founded_ltof _ length)). unfold Wf_nat.ltof in IH.
  destruct (decide (length l < n)%nat) as [Hl|Hl]; [destruct (chunks_short l Hl) as [-> ->]; done|].
  rewrite <- (take_drop n l) at 1 2. rewrite chunks_app, leftover_app.
  destruct (chunks_one (take n l)) as [-> ->]; [rewrite length_take; lia|]. cbn. rewrite <- app_assoc, IH, take_drop; [done|]. rewrite length_drop. lia.
Qed.

Lemma chunks_length l : Forall (fun p => length p = n) (chunks_exact n l).
Proof using Hn.
  unfold chunks_exact. apply Forall_fmap, Forall_forall. intros k [_ Hk]%elem_of_seq. cbn. rewrite length_take, length_drop.
  pose proof (whole_le l). nia.
Qed.

End Packets.

End Packets.

(** ** The resampler *)
Module Resample.
Import Packets.
#[local] Open Scope rust_scope.

Definition INTERPOLATION_MARGIN_FRAMES : Z := 2.
Definition PENDING_PACKET_CAPACITY : Z := 2.

Record AudioResamplerConfig := mkConfig { input_rate : Z; output_rate : Z; channels : Z }.

Inductive AudioResamplerError :=
| InvalidConfig (c : AudioResamplerConfig)
| InvalidOutputFrameSize (output_frames : Z)
| IncompleteFrame (samples ch : Z)
| CapacityOverflow.

(** [usize::checked_mul] and [checked_add], with [ok_or(CapacityOverflow)] *)
Definition checked_mul (a b : Z) : result Z AudioResamplerError := if a * b <=? usize_max then Ok (a * b) else Err CapacityOverflow.
Definition checked_add (a b : Z) : result Z AudioResamplerError := if a + b <=? usize_max then Ok (a + b) else Err CapacityOverflow.

Definition validate_config (c : AudioResamplerConfig) : result Z AudioResamplerError :=
  if (c.(input_rate) =? 0) || (c.(output_rate) =? 0) || (c.(channels) =? 0) then Err (InvalidConfig c) else Ok c.(channels).

Definition validate_input (input : list f32) (ch : Z) : result unit AudioResamplerError :=
  if zlen input mod ch =? 0 then Ok tt else Err (IncompleteFrame (zlen input) ch).

Record AudioResampler := mkResampler {
  config : AudioResamplerConfig;
  buffered_samples : list f32;
  next_position : Z }.

Definition new (c : AudioResamplerConfig) : result AudioResampler AudioResamplerError :=
  _ <-? validate_config c;; Ok (mkResampler c [] 0).

Definition output_capacity (self : AudioResampler) (input_samples : Z) : result Z AudioResamplerError :=
  let c := self.(config) in
  let input_frames := input_samples / c.(channels) in
  scaled <-? checked_mul input_frames c.(output_rate);;
  frames <-? checked_add (scaled / c.(input_rate)) INTERPOLATION_MARGIN_FRAMES;;
  checked_mul frames c.(channels).

(** One sample between two. *)
Definition interpolate (c : AudioResamplerConfig) (fraction : Z) (current next : f32) : f32 :=
  fadd current (fmul (fsub next current) (fdiv (of_Z fraction) (of_Z c.(output_rate)))).

(** The frame it pushes; the inner [None] is [false]. *)
Definition write_next_frame (self : AudioResampler) : option (option (list f32)) :=
  let c := self.(config) in
  let frame_count := zlen self.(buffered_samples) / c.(channels) in
  let frame := self.(next_position) / c.(output_rate) in
  let fraction := self.(next_position) mod c.(output_rate) in
  if (frame_count <=? frame) || (negb (fraction =? 0) && (frame_count <=? frame + 1)) then Some None
  else
    let next_frame := frame + (if fraction =? 0 then 0 else 1) in
    Some <$> mapM (fun ch =>
      current ← zget self.(buffered_samples) (frame * c.(channels) + Z.of_nat ch);
      next ← zget self.(buffered_samples) (next_frame * c.(channels) + Z.of_nat ch);
      Some (interpolate c fraction current next)) (seq 0 (Z.to_nat c.(channels))).

Definition with_position (p : Z) (self : AudioResampler) : AudioResampler := mkResampler self.(config) self.(buffered_samples) p.

(** [while self.write_next_frame(output) { self.next_position += input_rate }] *)
Fixpoint write_frames (fuel : nat) (self : AudioResampler) (output : list f32) : option (AudioResampler * list f32) :=
  match fuel with
  | O => None
  | S fuel =>
    frame ← write_next_frame self;
    match frame with
    | None => Some (self, output)
    | Some samples =>
      write_frames fuel (with_position (wrap 64 (self.(next_position) + self.(config).(input_rate))) self) (output ++ samples)
    end
  end.

Definition discard_consumed_frames (self : AudioResampler) : AudioResampler :=
  let c := self.(config) in
  let available_frames := zlen self.(buffered_samples) / c.(channels) in
  let consumed_frames := Z.min (self.(next_position) / c.(output_rate)) available_frames in
  mkResampler c (zdrop (consumed_frames * c.(channels)) self.(buffered_samples))
    (self.(next_position) - consumed_frames * c.(output_rate)).

(** Enough rounds for the frames that are there. *)
Definition frame_fuel (self : AudioResampler) : nat :=
  Z.to_nat (zlen self.(buffered_samples) / self.(config).(channels) * self.(config).(output_rate) / self.(config).(input_rate) + 2).

(** [process_into]: what it appends to [output]. *)
Definition process_into (self : AudioResampler) (input : list f32) : option (result (list f32) AudioResamplerError * AudioResampler) :=
  match validate_input input self.(config).(channels) with
  | Err e => Some (Err e, self)
  | Ok _ =>
    match output_capacity self (zlen input) with
    | Err e => Some (Err e, self)
    | Ok _ =>
      let self := mkResampler self.(config) (self.(buffered_samples) ++ input) self.(next_position) in
      '(self, output) ← write_frames (frame_fuel self) self [];
      Some (Ok output, discard_consumed_frames self)
    end
  end.

(** *** Packets of one size *)

Record FixedFrameAudioResampler := mkFixed {
  resampler : AudioResampler;
  output_samples : Z;
  pending_samples : list f32 }.

Definition reserve_input (self : AudioResampler) (frames : Z) : result unit AudioResamplerError :=
  frames <-? checked_add frames INTERPOLATION_MARGIN_FRAMES;;
  _ <-? checked_mul frames self.(config).(channels);;
  Ok tt.

Definition fixed_new (c : AudioResamplerConfig) (output_frames : Z) : result FixedFrameAudioResampler AudioResamplerError :=
  if output_frames =? 0 then Err (InvalidOutputFrameSize output_frames)
  else
    ch <-? validate_config c;;
    samples <-? checked_mul output_frames ch;;
    scaled <-? checked_mul output_frames c.(input_rate);;
    let input_frames := (scaled + c.(output_rate) - 1) / c.(output_rate) in
    twice <-? checked_mul samples PENDING_PACKET_CAPACITY;;
    _ <-? checked_add twice (ch * INTERPOLATION_MARGIN_FRAMES);;
    r <-? new c;;
    _ <-? reserve_input r input_frames;;
    Ok (mkFixed r samples []).

(** [process_with]: the packets it hands on. *)
Definition process_with (self : FixedFrameAudioResampler) (input : list f32)
    : option (result (list (list f32)) AudioResamplerError * FixedFrameAudioResampler) :=
  '(r, inner) ← process_into self.(resampler) input;
  match r with
  | Err e => Some (Err e, mkFixed inner self.(output_samples) self.(pending_samples))
  | Ok output =>
    let pending := self.(pending_samples) ++ output in
    let n := Z.to_nat self.(output_samples) in
    Some (Ok (chunks_exact n pending), mkFixed inner self.(output_samples) (leftover n pending))
  end.

End Resample.

(** ** What resampling a whole recording gives *)
Module ResampleSpec.
Import Packets Resample.

Definition frames (c : AudioResamplerConfig) (xs : list f32) : Z := zlen xs / c.(channels).

Definition sample (c : AudioResamplerConfig) (xs : list f32) (frame : Z) (ch : nat) : f32 :=
  default fzero (zget xs (frame * c.(channels) + Z.of_nat ch)).

(** The frame at a position, in units of one [output_rate]-th of an input frame. *)
Definition at_position (c : AudioResamplerConfig) (xs : list f32) (p : Z) : list f32 :=
  let frame := p / c.(output_rate) in
  let fraction := p mod c.(output_rate) in
  (fun ch => interpolate c fraction (sample c xs frame ch) (sample c xs (frame + (if fraction =? 0 then 0 else 1)) ch))
    <$> seq 0 (Z.to_nat c.(channels)).

(** Output frame [k] is at [k] times the input rate; there are as many as lie between the first
    and the last input frame. *)
Definition count (c : AudioResamplerConfig) (n : Z) : Z := if n =? 0 then 0 else (n - 1) * c.(output_rate) / c.(input_rate) + 1.
Definition resample_from (c : AudioResamplerConfig) (xs : list f32) (k n : nat) : list f32 :=
  concat ((fun k => at_position c xs (Z.of_nat k * c.(input_rate))) <$> seq k n).
Definition resample (c : AudioResamplerConfig) (xs : list f32) : list f32 := resample_from c xs 0 (Z.to_nat (count c (frames c xs))).

(** Rates and channels of a device. *)
Definition config_ok (c : AudioResamplerConfig) : Prop :=
  0 < c.(input_rate) < 2 ^ 32 /\ 0 < c.(output_rate) < 2 ^ 32 /\ 0 < c.(channels) < 2 ^ 16.

(** Whole frames, of a size that fits in memory. *)
Definition whole (c : AudioResamplerConfig) (xs : list f32) : Prop := zlen xs mod c.(channels) = 0.

Section Facts.
Context (c : AudioResamplerConfig) (Hc : config_ok c).
Implicit Types xs ys : list f32.

Lemma whole_frames xs : whole c xs -> zlen xs = frames c xs * c.(channels).
Proof using Hc. destruct Hc as (_ & _ & H). intros Hw. unfold frames, whole in *. pose proof (Z.div_mod (zlen xs) c.(channels)). lia. Qed.

Lemma frames_nonneg xs : 0 <= frames c xs.
Proof using Hc. destruct Hc as (_ & _ & H). apply Z.div_pos; lia. Qed.

Lemma whole_app xs ys : whole c xs -> whole c ys -> whole c (xs ++ ys) /\ frames c (xs ++ ys) = frames c xs + frames c ys.
Proof using Hc.
  intros Hx Hy. pose proof (whole_frames _ Hx) as Ex. pose proof (whole_frames _ Hy) as Ey. destruct Hc as (_ & _ & H).
  assert (E : zlen (xs ++ ys) = (frames c xs + frames c ys) * c.(channels)) by (rewrite length_app; lia).
  split; [unfold whole; rewrite E; apply Z.mod_mul; lia|]. unfold frames at 1. rewrite E, Z.div_mul; lia.
Qed.

(** Positions that can be computed from [n] frames. *)
Lemma available_iff n p : 0 <= p -> 
  (n <=? p / c.(output_rate)) || (negb (p mod c.(output_rate) =? 0) && (n <=? p / c.(output_rate) + 1)) = false <-> p <= (n - 1) * c.(output_rate).
Proof using Hc.
  destruct Hc as (_ & H & _). intros Hp. pose proof (Z.div_mod p c.(output_rate)). pose proof (Z.mod_pos_bound p c.(output_rate)).
  set (q := p / _) in *. set (r := p mod _) in *. rewrite orb_false_iff, andb_false_iff, negb_false_iff, !Z.leb_gt, Z.eqb_eq. split.
  - intros [? [?|?]]; nia.
  - intros Hle. split; [nia|]. destruct (decide (r = 0)); [by left|right; nia].
Qed.

Lemma count_iff n k : 0 <= n -> 0 <= k -> k * c.(input_rate) <= (n - 1) * c.(output_rate) <-> k < count c n.
Proof using Hc.
  destruct Hc as (H1 & H2 & _). intros Hn Hk. unfold count. destruct (Z.eqb_spec n 0) as [->|Hne]; [nia|]. split.
  - intros H. pose proof (Z.div_le_lower_bound ((n - 1) * c.(output_rate)) c.(input_rate) k). lia.
  - intros H. pose proof (Z.mul_div_le ((n - 1) * c.(output_rate)) c.(input_rate)). nia.
Qed.

Lemma count_nonneg n : 0 <= n -> 0 <= count c n.
Proof using Hc.
  destruct Hc as (H1 & H2 & _). intros Hn. unfold count. destruct (Z.eqb_spec n 0); [lia|].
  pose proof (Z.div_pos ((n - 1) * c.(output_rate)) c.(input_rate)). nia.
Qed.

Lemma count_mono n m : 0 <= n <= m -> count c n <= count c m.
Proof using Hc.
  intros Hn. destruct (decide (count c n <= count c m)); [done|]. pose proof (count_nonneg m ltac:(lia)).
  assert (Hk : (count c n - 1) * c.(input_rate) <= (n - 1) * c.(output_rate)) by (apply count_iff; lia).
  assert (count c n - 1 < count c m); [|lia]. apply count_iff; [lia..|]. destruct Hc as (_ & H2 & _). nia.
Qed.

(** *** One frame *)

Lemma sample_in xs frame ch : whole c xs -> 0 <= frame < frames c xs -> (ch < Z.to_nat c.(channels))%nat ->
  zget xs (frame * c.(channels) + Z.of_nat ch) = Some (sample c xs frame ch).
Proof using Hc.
  intros Hw Hf Hch. pose proof (whole_frames _ Hw) as E. unfold sample. set (i := frame * _ + _).
  assert (Hi : 0 <= i < zlen xs) by (rewrite E; subst i; nia).
  unfold zget. destruct (0 <=? i) eqn:Hle; [|bool_to_prop; lia].
  destruct (lookup_lt_is_Some_2 xs (Z.to_nat i)) as [x ->]; [lia|done].
Qed.

Lemma sample_app xs ys frame ch : whole c xs -> 0 <= frame < frames c xs -> (ch < Z.to_nat c.(channels))%nat ->
  sample c (xs ++ ys) frame ch = sample c xs frame ch.
Proof using Hc.
  intros Hw Hf Hch. pose proof (whole_frames _ Hw) as E. unfold sample, zget. set (i := frame * _ + _).
  assert (Hi : 0 <= i < zlen xs) by (rewrite E; subst i; nia). destruct (0 <=? i); [|done]. rewrite lookup_app_l; [done|lia].
Qed.

(** The frames a position reads are there. *)
Lemma position_in n p : 0 <= p <= (n - 1) * c.(output_rate) ->
  0 <= p / c.(output_rate) < n /\ 0 <= p / c.(output_rate) + (if p mod c.(output_rate) =? 0 then 0 else 1) < n.
Proof using Hc.
  destruct Hc as (_ & H & _). intros Hp. pose proof (Z.div_mod p c.(output_rate)). pose proof (Z.mod_pos_bound p c.(output_rate)).
  destruct (Z.eqb_spec (p mod c.(output_rate)) 0); nia.
Qed.

Lemma at_position_app xs ys p : whole c xs -> 0 <= p <= (frames c xs - 1) * c.(output_rate) -> at_position c (xs ++ ys) p = at_position c xs p.
Proof using Hc.
  intros Hw Hp. destruct (position_in _ _ Hp) as [H1 H2]. apply list_fmap_ext. intros i ch [-> Hch]%lookup_seq. cbn. by rewrite !sample_app.
Qed.

(** The implementation's state after [xs], of which [d] frames are discarded and [k] output
    frames are made. *)
Definition holds (xs : list f32) (d k : Z) (self : AudioResampler) : Prop :=
  self.(config) = c /\ 0 <= d <= frames c xs /\ self.(buffered_samples) = zdrop (d * c.(channels)) xs /\
  0 <= self.(next_position) /\ self.(next_position) + d * c.(output_rate) = k * c.(input_rate).

Lemma holds_frames xs d k self : whole c xs -> holds xs d k self ->
  zlen self.(buffered_samples) = (frames c xs - d) * c.(channels) /\ zlen self.(buffered_samples) / c.(channels) = frames c xs - d.
Proof using Hc.
  intros Hw (_ & Hd & Hb & _). pose proof (whole_frames _ Hw) as E. destruct Hc as (_ & _ & H).
  assert (Hz : zlen self.(buffered_samples) = (frames c xs - d) * c.(channels)) by (rewrite Hb; unfold zdrop; rewrite length_drop; nia).
  split; [done|]. rewrite Hz, Z.div_mul; lia.
Qed.

Lemma write_holds xs d k self : whole c xs -> holds xs d k self -> 0 <= k ->
  write_next_frame self = Some (if k <? count c (frames c xs) then Some (at_position c xs (k * c.(input_rate))) else None).
Proof using Hc.
  intros Hw Hh Hk. destruct (holds_frames _ _ _ _ Hw Hh) as [Hlen Hfc]. destruct Hh as (Hcfg & Hd & Hb & Hp & Hpos).
  unfold write_next_frame. rewrite Hcfg, Hfc. pose proof (frames_nonneg xs) as Hn. pose proof Hc as (H1 & H2 & H3).
  set (p := next_position self) in *. assert (Hdiv : k * c.(input_rate) / c.(output_rate) = p / c.(output_rate) + d).
  { rewrite <- Hpos, Z.div_add by lia. done. }
  assert (Hmod : (k * c.(input_rate)) mod c.(output_rate) = p mod c.(output_rate)) by (rewrite <- Hpos, Z.mod_add by lia; done).
  assert (Hav : (frames c xs - d <=? p / c.(output_rate)) || (negb (p mod c.(output_rate) =? 0) && (frames c xs - d <=? p / c.(output_rate) + 1))
    = negb (k <? count c (frames c xs))).
  { pose proof (available_iff (frames c xs) (k * c.(input_rate)) ltac:(nia)) as Ha. rewrite (count_iff _ _ Hn Hk), Hdiv, Hmod in Ha.
    assert (E : forall x, (frames c xs - d <=? x) = (frames c xs <=? x + d)) by (intros x; destruct (Z.leb_spec (frames c xs - d) x), (Z.leb_spec (frames c xs) (x + d)); lia).
    rewrite !E. replace (p / c.(output_rate) + 1 + d) with (p / c.(output_rate) + d + 1) by lia.
    destruct (Z.ltb_spec k (count c (frames c xs))); cbn [negb]; [by apply Ha|]. apply not_false_iff_true. rewrite Ha. lia. }
  rewrite Hav. destruct (Z.ltb_spec k (count c (frames c xs))) as [Hlt|]; cbn [negb]; [|done].
  apply count_iff in Hlt; [|lia..]. destruct (position_in (frames c xs) (k * c.(input_rate)) ltac:(nia)) as [Hf1 Hf2]. rewrite Hdiv in Hf1, Hf2. rewrite Hmod in Hf2.
  assert (Hget : forall f ch, 0 <= f + d < frames c xs -> 0 <= f -> (ch < Z.to_nat c.(channels))%nat ->
    zget self.(buffered_samples) (f * c.(channels) + Z.of_nat ch) = Some (sample c xs (f + d) ch)).
  { intros f ch Hf Hf0 Hch. rewrite <- (sample_in xs) by done. rewrite Hb. unfold zget, zdrop. rewrite lookup_drop.
    destruct (Z.leb_spec 0 (f * c.(channels) + Z.of_nat ch)); [|nia]. destruct (Z.leb_spec 0 ((f + d) * c.(channels) + Z.of_nat ch)); [|nia].
    f_equal. nia. }
  assert (Hp0 : 0 <= p / c.(output_rate)) by (apply Z.div_pos; lia).
  match goal with |- Some <$> ?m = _ => assert (Hm : m = Some (at_position c xs (k * c.(input_rate)))); [|by rewrite Hm] end.
  apply mapM_Some. unfold at_position. rewrite Hdiv, Hmod. apply Forall2_fmap_r, Forall_Forall2_diag, Forall_forall.
  intros ch [_ Hch]%elem_of_seq. cbn in Hch. rewrite !Hget; cbn; try lia; [|destruct (_ =? 0); lia]. do 3 f_equal. lia.
Qed.

(** *** The loop *)

Lemma resample_from_S xs k n : resample_from c xs k (S n) = at_position c xs (Z.of_nat k * c.(input_rate)) ++ resample_from c xs (S k) n.
Proof using. done. Qed.

Lemma loop_done fuel : forall xs d k self out, whole c xs -> holds xs d (Z.of_nat k) self ->
  (k <= Z.to_nat (count c (frames c xs)) < fuel + k)%nat -> (frames c xs - d + 1) * c.(output_rate) + c.(input_rate) < 2 ^ 64 ->
  write_frames fuel self out =
    Some (with_position (count c (frames c xs) * c.(input_rate) - d * c.(output_rate)) self,
          out ++ resample_from c xs k (Z.to_nat (count c (frames c xs)) - k)).
Proof using Hc.
  induction fuel as [|fuel IH]; intros xs d k self out Hw Hh Hk Hb; [lia|]. cbn [write_frames].
  pose proof (count_nonneg (frames c xs) (frames_nonneg xs)) as Hn. rewrite (write_holds _ _ _ _ Hw Hh) by lia. cbn.
  destruct (Z.ltb_spec (Z.of_nat k) (count c (frames c xs))) as [Hlt|Hge].
  - pose proof Hh as (Hcfg & Hd & Hbuf & Hp & Hpos). pose proof Hc as (H1 & H2 & H3).
    assert (Hle : Z.of_nat k * c.(input_rate) <= (frames c xs - 1) * c.(output_rate)) by (apply count_iff; [apply frames_nonneg|lia..]).
    rewrite wrap_small by (rewrite Hcfg; unfold in_u; nia). replace (Z.to_nat _ - k)%nat with (S (Z.to_nat (count c (frames c xs)) - S k)) by lia.
    rewrite resample_from_S, app_assoc. rewrite (IH xs d (S k)); [done|done| |lia|done].
    split_and!; cbn; try done; rewrite ?Hcfg; lia.
  - replace (Z.to_nat _ - k)%nat with 0%nat by lia. rewrite app_nil_r. do 2 f_equal. destruct Hh as (_ & _ & _ & _ & Hpos).
    assert (Hk' : Z.of_nat k = count c (frames c xs)) by lia. rewrite <- Hk', <- Hpos, Z.add_simpl_r. by destruct self.
Qed.

(** Every frame that was read in full is discarded: at most one is kept. *)
Lemma discard_holds xs d self : whole c xs -> holds xs d (count c (frames c xs)) self ->
  exists d', holds xs d' (count c (frames c xs)) (discard_consumed_frames self) /\ frames c xs - d' <= 1.
Proof using Hc.
  intros Hw Hh. destruct (holds_frames _ _ _ _ Hw Hh) as [_ Hfc]. destruct Hh as (Hcfg & Hd & Hb & Hp & Hpos).
  pose proof Hc as (H1 & H2 & H3). pose proof (frames_nonneg xs) as Hn. pose proof (count_nonneg _ Hn) as Hcn.
  unfold discard_consumed_frames. rewrite Hcfg, Hfc. set (q := next_position self / c.(output_rate)).
  assert (Hq : 0 <= q) by (apply Z.div_pos; lia). pose proof (Z.mul_div_le (next_position self) c.(output_rate) ltac:(lia)) as Hqle.
  assert (Hge : frames c xs - 1 - d <= q).
  { assert (Hlast : ~ count c (frames c xs) * c.(input_rate) <= (frames c xs - 1) * c.(output_rate)) by (rewrite count_iff; lia).
    apply Z.div_le_lower_bound; nia. }
  exists (d + Z.min q (frames c xs - d)). split; [|lia]. split_and!; cbn; try done; try nia.
  rewrite Hb. unfold zdrop. rewrite drop_drop. f_equal. nia.
Qed.

(** *** One call *)

Lemma resample_from_app xs ys k n : whole c xs -> (k + n <= Z.to_nat (count c (frames c xs)))%nat ->
  resample_from c (xs ++ ys) k n = resample_from c xs k n.
Proof using Hc.
  intros Hw Hk. unfold resample_from. f_equal. apply list_fmap_ext. intros i j [-> Hj]%lookup_seq. pose proof Hc as (H1 & H2 & _).
  apply at_position_app; [done|]. split; [nia|]. apply count_iff; [apply frames_nonneg|lia..].
Qed.

Lemma resample_app xs ys : whole c xs -> whole c ys ->
  resample c (xs ++ ys) = resample c xs ++
    resample_from c (xs ++ ys) (Z.to_nat (count c (frames c xs))) (Z.to_nat (count c (frames c (xs ++ ys))) - Z.to_nat (count c (frames c xs))).
Proof using Hc.
  intros Hx Hy. destruct (whole_app xs ys Hx Hy) as [_ E]. pose proof (frames_nonneg xs) as Hn. pose proof (frames_nonneg ys).
  pose proof (count_mono (frames c xs) (frames c (xs ++ ys)) ltac:(lia)) as Hm. pose proof (count_nonneg _ Hn).
  unfold resample. rewrite <- (resample_from_app xs ys 0 _ Hx) by done. unfold resample_from. rewrite <- concat_app, <- fmap_app. do 2 f_equal.
  rewrite <- seq_app. f_equal. lia.
Qed.

Lemma checked_ok a b : 0 <= a * b <= usize_max -> checked_mul a b = Ok (a * b).
Proof using. intros H. unfold checked_mul. by rewrite (proj2 (Z.leb_le _ _)) by lia. Qed.

Lemma capacity_ok self input : self.(config) = c -> whole c input -> zlen input < 2 ^ 31 ->
  output_capacity self (zlen input) = Ok ((frames c input * c.(output_rate) / c.(input_rate) + 2) * c.(channels)).
Proof using Hc.
  intros E Hw Hl. pose proof (whole_frames _ Hw) as Hf. pose proof Hc as (H1 & H2 & H3). pose proof (frames_nonneg input) as Hn.
  unfold output_capacity. rewrite E. change (zlen input / channels c) with (frames c input).
  assert (frames c input < 2 ^ 31) by nia. unfold usize_max.
  assert (Hp : 0 <= frames c input * c.(output_rate) / c.(input_rate) <= frames c input * c.(output_rate)).
  { split; [apply Z.div_pos; nia|]. apply Z.div_le_upper_bound; nia. }
  rewrite checked_ok by (unfold umax; nia). cbn [rbind]. unfold checked_add. rewrite (proj2 (Z.leb_le _ _)) by (unfold umax, INTERPOLATION_MARGIN_FRAMES; nia).
  cbn [rbind]. apply checked_ok. unfold umax, INTERPOLATION_MARGIN_FRAMES. split; [nia|].
  set (q := _ / _) in *. assert (q * c.(channels) <= zlen input * 2 ^ 32) by (rewrite Hf; nia). nia.
Qed.

Lemma process_holds xs d self input : whole c xs -> holds xs d (count c (frames c xs)) self -> frames c xs - d <= 1 ->
  whole c input -> zlen input < 2 ^ 31 ->
  exists d' self',
    process_into self input = Some (Ok (resample_from c (xs ++ input) (Z.to_nat (count c (frames c xs)))
      (Z.to_nat (count c (frames c (xs ++ input))) - Z.to_nat (count c (frames c xs)))), self') /\
    holds (xs ++ input) d' (count c (frames c (xs ++ input))) self' /\ frames c (xs ++ input) - d' <= 1.
Proof using Hc.
  intros Hw Hh H1 Hi Hl. pose proof Hh as (Hcfg & Hd & Hb & Hp & Hpos). destruct (whole_app xs input Hw Hi) as [Hw' E].
  pose proof (whole_frames _ Hi) as Hf. pose proof Hc as (C1 & C2 & C3). pose proof (frames_nonneg xs) as Hn. pose proof (frames_nonneg input) as Hni.
  pose proof (count_mono (frames c xs) (frames c (xs ++ input)) ltac:(lia)) as Hm. pose proof (count_nonneg _ Hn) as Hcn.
  unfold process_into, validate_input. rewrite Hcfg, Hi. cbn [Z.eqb]. rewrite (capacity_ok self input Hcfg Hi Hl).
  set (s1 := mkResampler _ _ _). set (xs' := xs ++ input) in *.
  assert (Hh1 : holds xs' d (Z.of_nat (Z.to_nat (count c (frames c xs)))) s1).
  { rewrite Z2Nat.id by done. split_and!; cbn; try done; try lia. rewrite Hb. unfold zdrop, xs'. rewrite drop_app_le; [done|].
    pose proof (whole_frames _ Hw). nia. }
  destruct (holds_frames _ _ _ _ Hw' Hh1) as [Hlen Hfc].
  assert (Hfuel : (Z.to_nat (count c (frames c xs')) < frame_fuel s1 + Z.to_nat (count c (frames c xs)))%nat).
  { unfold frame_fuel. change (config s1) with c. rewrite Hfc. set (k := count c (frames c xs)) in *. set (k' := count c (frames c xs')) in *.
    assert (k' - k <= (frames c xs' - d) * c.(output_rate) / c.(input_rate) + 1); [|lia].
    assert (k' - k - 1 <= (frames c xs' - d) * c.(output_rate) / c.(input_rate)); [|lia].
    destruct (decide (k' - k - 1 < 0)) as [Hneg|Hnn]; [etransitivity; [apply Z.lt_le_incl, Hneg|apply Z.div_pos; nia]|].
    apply Z.div_le_lower_bound; [lia|]. assert ((k' - 1) * c.(input_rate) <= (frames c xs' - 1) * c.(output_rate)) by (apply count_iff; lia). nia. }
  rewrite (loop_done _ xs' d _ _ [] Hw' Hh1) by (assert (frames c input < 2 ^ 31) by nia; nia). cbn.
  set (s2 := with_position _ _). assert (Hh2 : holds xs' d (count c (frames c xs')) s2).
  { destruct Hh1 as (? & ? & ? & ? & Hp1). cbn in Hp1. split_and!; cbn; try done; nia. }
  destruct (discard_holds _ _ _ Hw' Hh2) as (d' & Hd' & Hle). by exists d', (discard_consumed_frames s2).
Qed.

(** *** Many calls *)

(** What a packet resampler holds after [xs]. *)
Definition fixed_holds (n : nat) (xs : list f32) (r : FixedFrameAudioResampler) : Prop :=
  whole c xs /\ r.(output_samples) = Z.of_nat n /\ r.(pending_samples) = leftover n (resample c xs) /\
  exists d, holds xs d (count c (frames c xs)) r.(resampler) /\ frames c xs - d <= 1.

Lemma resample_nil : resample c [] = [].
Proof using Hc. unfold resample, frames. cbn [length]. rewrite Z.div_0_l; [done|]. destruct Hc as (_ & _ & ?). lia. Qed.

Lemma fixed_new_holds n r : fixed_new c n = Ok r -> 0 < n -> fixed_holds (Z.to_nat (n * c.(channels))) [] r.
Proof using Hc.
  pose proof Hc as (H1 & H2 & H3). intros Hr Hn. unfold fixed_new, new, validate_config in Hr.
  destruct (Z.eqb_spec n 0); [lia|]. destruct (Z.eqb_spec c.(input_rate) 0), (Z.eqb_spec c.(output_rate) 0), (Z.eqb_spec c.(channels) 0); try lia.
  cbn [orb rbind] in Hr. unfold checked_mul at 1 in Hr. destruct (_ <=? _); [|done]. cbn [rbind] in Hr.
  destruct (checked_mul n _); [|done]. cbn [rbind] in Hr. destruct (checked_mul _ _); [|done]. cbn [rbind] in Hr.
  destruct (checked_add _ _); [|done]. cbn [rbind] in Hr. destruct (reserve_input _ _); [|done]. cbn [rbind] in Hr. injection Hr as <-.
  refine (conj (Z.mod_0_l _ _) (conj _ (conj _ _))); cbn [output_samples pending_samples resampler]; [lia|lia| |].
  - rewrite resample_nil. symmetry. apply drop_nil.
  - exists 0. unfold holds, frames. cbn [length]. rewrite Z.div_0_l by lia. split; [|lia]. by split_and!.
Qed.

Lemma process_with_holds n xs r input : (0 < n)%nat -> fixed_holds n xs r -> whole c input -> zlen input < 2 ^ 31 ->
  exists packets r', process_with r input = Some (Ok packets, r') /\ fixed_holds n (xs ++ input) r' /\
    chunks_exact n (resample c (xs ++ input)) = chunks_exact n (resample c xs) ++ packets.
Proof using Hc.
  intros Hn (Hw & Ho & Hp & d & Hh & Hd) Hi Hl. destruct (process_holds xs d _ input Hw Hh Hd Hi Hl) as (d' & s' & E & Hh' & Hd').
  unfold process_with. rewrite E. cbn. rewrite Ho, Nat2Z.id, Hp. eexists _, _. split; [done|].
  rewrite (resample_app xs input Hw Hi). split.
  - refine (conj (proj1 (whole_app xs input Hw Hi)) (conj eq_refl (conj _ (ex_intro _ d' (conj Hh' Hd'))))). cbn [pending_samples].
    rewrite (resample_app xs input Hw Hi). symmetry. by apply leftover_app.
  - by apply chunks_app.
Qed.

Lemma process_with_refuses r input : r.(resampler).(config) = c -> ~ whole c input ->
  process_with r input = Some (Err (IncompleteFrame (zlen input) c.(channels)), r).
Proof using.
  intros E Hw. unfold process_with, process_into, validate_input. rewrite E. destruct (Z.eqb_spec (zlen input mod c.(channels)) 0) as [H|H]; [done|].
  cbn. by destruct r.
Qed.

Lemma fixed_config n xs r : fixed_holds n xs r -> r.(resampler).(config) = c.
Proof using. by intros (_ & _ & _ & d & (? & _) & _). Qed.

End Facts.

#[export] Instance whole_dec c xs : Decision (whole c xs) := ltac:(unfold whole; apply _).

(** Calls one after the other. *)
Fixpoint feed (self : FixedFrameAudioResampler) (inputs : list (list f32))
    : option (list (result (list (list f32)) AudioResamplerError) * FixedFrameAudioResampler) :=
  match inputs with
  | [] => Some ([], self)
  | input :: inputs =>
    '(r, self) ← process_with self input;
    '(rs, self) ← feed self inputs;
    Some (r :: rs, self)
  end.

Definition accepted {A E} (r : result A E) : option A := match r with Ok x => Some x | Err _ => None end.

(** A recording with the parts that are refused left out. *)
Definition heard (c : AudioResamplerConfig) (inputs : list (list f32)) : list f32 := concat (filter (whole c) inputs).

Lemma feed_holds c n : config_ok c -> (0 < n)%nat -> forall inputs xs r, Forall (fun i => zlen i < 2 ^ 31) inputs -> fixed_holds c n xs r ->
  exists rs r', feed r inputs = Some (rs, r') /\ fixed_holds c n (xs ++ heard c inputs) r' /\
    Forall2 (fun i x => x = Err (IncompleteFrame (zlen i) c.(channels)) \/ whole c i /\ is_ok x = true) inputs rs /\
    chunks_exact n (resample c (xs ++ heard c inputs)) = chunks_exact n (resample c xs) ++ concat (omap accepted rs).
Proof.
  intros Hc Hn. induction inputs as [|i inputs IH]; intros xs r Hl Hr.
  - exists [], r. cbn. rewrite !app_nil_r. split_and!; [done|done|constructor|done].
  - apply Forall_cons in Hl as [Hi Hl]. cbn [feed]. destruct (decide (whole c i)) as [Hw|Hw].
    + destruct (process_with_holds c Hc n xs r i Hn Hr Hw Hi) as (packets & r1 & E1 & Hr1 & Hp1).
      destruct (IH _ _ Hl Hr1) as (rs & r2 & E2 & Hr2 & Hrs & Hp2). rewrite E1. cbn [mbind option_bind]. rewrite E2. cbn [mbind option_bind]. eexists _, _. split; [done|].
      unfold heard in *. rewrite filter_cons_True by done. cbn [concat omap list_omap accepted]. rewrite app_assoc.
      split_and!; [done|constructor; [by right|done]|]. rewrite Hp2, Hp1. by rewrite <- app_assoc.
    + rewrite (process_with_refuses c r i (fixed_config _ _ _ _ Hr) Hw). cbn [mbind option_bind]. destruct (IH _ _ Hl Hr) as (rs & r2 & E2 & Hr2 & Hrs & Hp2). rewrite E2.
      cbn [mbind option_bind]. eexists _, _. split; [done|]. unfold heard in *. rewrite filter_cons_False by done. split_and!; [done|constructor; [by left|done]|done].
Qed.

(** C38: resampling does not depend on how the recording is cut.  A packet resampler fed a
    recording in pieces of any size never panics, refuses exactly the pieces that are not whole
    frames and forgets them, and hands on the whole packets of the recording resampled at once:
    output frame [k] interpolates between the two input frames around [k] times the ratio of the
    rates, to the last bit; what it keeps is less than a packet and at most one input frame. *)
Theorem resample_chunking (c : AudioResamplerConfig) (n : Z) (r : FixedFrameAudioResampler) (inputs : list (list f32)) :
  config_ok c -> 0 < n -> fixed_new c n = Ok r -> Forall (fun i => zlen i < 2 ^ 31) inputs ->
  exists rs r', feed r inputs = Some (rs, r') /\
    Forall2 (fun i x => x = Err (IncompleteFrame (zlen i) c.(channels)) \/ whole c i /\ is_ok x = true) inputs rs /\
    concat (omap accepted rs) = chunks_exact (Z.to_nat (n * c.(channels))) (resample c (heard c inputs)) /\
    concat (concat (omap accepted rs)) ++ r'.(pending_samples) = resample c (heard c inputs) /\
    zlen r'.(pending_samples) < n * c.(channels) /\ zlen r'.(resampler).(buffered_samples) <= c.(channels).
Proof.
  intros Hc Hn Hnew Hl. pose proof Hc as (_ & _ & H3). assert (Hm : (0 < Z.to_nat (n * c.(channels)))%nat) by nia.
  destruct (feed_holds c _ Hc Hm inputs [] r Hl (fixed_new_holds c Hc n r Hnew Hn)) as (rs & r' & E & Hr & Hrs & Hp).
  cbn [app] in Hr, Hp. assert (Hnil : chunks_exact (Z.to_nat (n * c.(channels))) (resample c []) = []).
  { rewrite resample_nil by done. by apply chunks_short. }
  rewrite Hnil in Hp. cbn [app] in Hp. destruct Hr as (Hw & Ho & Hpend & d & Hh & Hd).
  exists rs, r'. split_and!; [done|done|done| | |].
  - rewrite <- Hp, Hpend. by apply exact_concat.
  - rewrite Hpend. pose proof (length_leftover _ Hm (resample c (heard c inputs))). lia.
  - destruct (holds_frames c Hc _ _ _ _ Hw Hh) as [-> _]. nia.
Qed.

(** Three frames a second to two, two channels, two frames to a packet. *)
Definition slow : AudioResamplerConfig := mkConfig 3 2 2.
Definition pieces : list (list f32) := map (map of_Z) [[0; 10; 2; 20]; [4]; [4; 30; 6; 40]; [8; 50; 10; 60]].

Lemma resample_chunking_witness :
  exists r rs r', fixed_new slow 2 = Ok r /\ feed r pieces = Some (rs, r') /\
    concat (omap accepted rs) = [map of_Z [0; 10; 3; 25]; map of_Z [6; 40; 9; 55]].
Proof.
  destruct (fixed_new slow 2) as [r|] eqn:E; [|by vm_compute in E]. exists r.
  destruct (resample_chunking slow 2 r pieces) as (rs & r' & E1 & _ & E2 & _); [by split_and!|done|done|by repeat constructor|].
  exists rs, r'. split; [done|]. split; [done|]. rewrite E2. by vm_compute.
Defined.

End ResampleSpec.
