(* ===== verification/AudioCapture.v ===== *)
(** Capturing sound on Windows and macOS: [src/server/audio_service.rs] ([cpal_impl], the gate on
    silence) and [src/server/audio_service/]: frames of a device's samples ([audio_capture.rs]),
    errors that restart a stream ([audio_capture_error.rs]), the queue between the device's callback
    and the encoder's thread ([audio_capture_queue.rs]) and that thread
    ([audio_capture_encoder.rs]).

    The two threads are the steps of one machine: a critical section is one step, and so is what a
    thread does between two of them.  The conversion of surround frames to stereo is the [fon]
    library's; the Opus encoder is a call in the log. *)

From S2P Require Import Prelude Float AudioResample.
Import F32 Packets Resample.
#[local] Open Scope rust_scope.

(** ** From callbacks to packets *)
Module CaptureFrames.

(** *** Frames *)

Record CaptureFrameBuffer := mkFrameBuffer { samples : list f32; filled : nat }.

Definition frame_buffer_new (n : nat) : option CaptureFrameBuffer :=
  if decide (n = 0%nat) then None else Some (mkFrameBuffer (replicate n fzero) 0).

(** [process]: the frames it completes. *)
Fixpoint process (self : CaptureFrameBuffer) (input : list f32) : list (list f32) * CaptureFrameBuffer :=
  match input with
  | [] => ([], self)
  | sample :: input =>
    let samples := <[self.(filled) := sample]> self.(samples) in
    let filled := S self.(filled) in
    if decide (filled = length samples) then
      let '(frames, self) := process (mkFrameBuffer samples 0) input in (samples :: frames, self)
    else process (mkFrameBuffer samples filled) input
  end.

(** *** Channels *)

Definition STEREO_CHANNELS : Z := 2.

Section Rechannel.
(** One frame of so many channels as stereo. *)
Context (fon_stereo : nat -> list f32 -> list f32).

Definition rechannel (input : list f32) (channels : Z) : list f32 :=
  let input := if STEREO_CHANNELS <? channels then ztake (zlen input / channels * channels) input else input in
  if (3 <=? channels) && (channels <=? 8) then concat (fon_stereo (Z.to_nat channels) <$> chunks_exact (Z.to_nat channels) input)
  else input.

(** *** Errors *)

Inductive StreamError := StreamInterrupted | DeviceNotAvailable | BackendSpecific | OtherError.

(** [CaptureErrorHandler::handle] *)
Definition handle_error (error : StreamError) (interrupted : bool) : bool :=
  match error with StreamInterrupted | DeviceNotAvailable => true | _ => interrupted end.

(** *** The processor *)

Definition AUDIO_PACKETS_PER_SECOND : Z := 100.

Record CaptureFrameProcessorConfig := mkProcessorConfig {
  p_input_rate : Z; p_output_rate : Z; device_channel : Z; encode_channel : Z }.

Inductive LayoutError := InvalidLayout (sample_rate channels : Z) | LayoutOverflow | ResamplerFailed (e : AudioResamplerError).

Definition capture_packet_layout (sample_rate channels : Z) : result (Z * Z) LayoutError :=
  if (sample_rate <? AUDIO_PACKETS_PER_SECOND) || (channels =? 0) then Err (InvalidLayout sample_rate channels)
  else
    let frames := sample_rate / AUDIO_PACKETS_PER_SECOND in
    if frames * channels <=? usize_max then Ok (frames, frames * channels) else Err LayoutOverflow.

Record CaptureFrameProcessor := mkProcessor { p_config : CaptureFrameProcessorConfig; p_resampler : option FixedFrameAudioResampler }.

Definition processor_new (c : CaptureFrameProcessorConfig) : result CaptureFrameProcessor LayoutError :=
  resampler <-? (if c.(p_input_rate) =? c.(p_output_rate) then Ok None
                 else match fixed_new (mkConfig c.(p_input_rate) c.(p_output_rate) c.(device_channel)) (c.(p_output_rate) / AUDIO_PACKETS_PER_SECOND) with
                      | Ok r => Ok (Some r)
                      | Err e => Err (ResamplerFailed e)
                      end);;
  _ <-? capture_packet_layout c.(p_output_rate) c.(encode_channel);;
  Ok (mkProcessor c resampler).

(** [CaptureFrameProcessor::process]: the packets it submits. *)
Definition processor_process (self : CaptureFrameProcessor) (data : list f32)
    : option (result (list (list f32)) AudioResamplerError * CaptureFrameProcessor) :=
  let send (packet : list f32) : list f32 := rechannel packet self.(p_config).(device_channel) in
  match self.(p_resampler) with
  | None => Some (Ok [send data], self)
  | Some r =>
    '(res, r) ← process_with r data;
    let self := mkProcessor self.(p_config) (Some r) in
    Some (match res with Ok packets => Ok (map send packets) | Err e => Err e end, self)
  end.

(** *** The callback of a device *)

Record CaptureStream := mkStream { frame : CaptureFrameBuffer; processor : CaptureFrameProcessor; interrupted : bool }.

(** [process_frame]: after a failure nothing is processed. *)
Definition process_frame (s : CaptureFrameProcessor * bool) (data : list f32) : option (list (list f32) * (CaptureFrameProcessor * bool)) :=
  let '(p, interrupted) := s in
  if interrupted then Some ([], s)
  else
    '(res, p) ← processor_process p data;
    Some (match res with Ok packets => (packets, (p, false)) | Err _ => ([], (p, true)) end).

Fixpoint process_frames (s : CaptureFrameProcessor * bool) (frames : list (list f32)) : option (list (list f32) * (CaptureFrameProcessor * bool)) :=
  match frames with
  | [] => Some ([], s)
  | f :: frames =>
    '(packets, s) ← process_frame s f;
    '(rest, s) ← process_frames s frames;
    Some (packets ++ rest, s)
  end.

(** The packets one call submits. *)
Definition callback (s : CaptureStream) (data : list f32) : option (list (list f32) * CaptureStream) :=
  if s.(interrupted) then Some ([], s)
  else
    let '(frames, fb) := process s.(frame) data in
    '(packets, (p, i)) ← process_frames (s.(processor), false) frames;
    Some (packets, mkStream fb p i).

Fixpoint callbacks (s : CaptureStream) (datas : list (list f32)) : option (list (list f32) * CaptureStream) :=
  match datas with
  | [] => Some ([], s)
  | d :: datas =>
    '(packets, s) ← callback s d;
    '(rest, s) ← callbacks s datas;
    Some (packets ++ rest, s)
  end.

(** *** Starting a stream *)

(** The rate of the encoder for a device's rate. *)
Definition encoder_rate (rate : Z) : Z :=
  if rate <? 12000 then 8000 else if rate <? 16000 then 12000 else if rate <? 24000 then 16000 else if rate <? 48000 then 24000 else 48000.
Definition encoder_channels (channels : Z) : Z := if 1 <? channels then 2 else 1.

(** [play] and [build_input_stream]: the stream, and the size of the queue's packets. *)
Definition play (rate channels : Z) : result (CaptureStream * Z) LayoutError :=
  let sample_rate := encoder_rate rate in
  let ch := encoder_channels channels in
  max_packet <-? capture_packet_layout sample_rate (Z.max channels ch);;
  capture_frame <-? capture_packet_layout rate channels;;
  match frame_buffer_new (Z.to_nat capture_frame.2) with
  | None => Err (InvalidLayout rate channels)
  | Some fb =>
    p <-? processor_new (mkProcessorConfig rate sample_rate channels ch);;
    Ok (mkStream fb p false, max_packet.2)
  end.

End Rechannel.

End CaptureFrames.

(** ** The packets of a recording *)
Module CaptureFacts.
Import ResampleSpec CaptureFrames.

(** *** Frames do not depend on the calls *)

Definition frame_holds (n : nat) (xs : list f32) (self : CaptureFrameBuffer) : Prop :=
  length self.(samples) = n /\ self.(filled) = length (leftover n xs) /\ take self.(filled) self.(samples) = leftover n xs.

Lemma frame_new_holds n self : frame_buffer_new n = Some self -> (0 < n)%nat /\ frame_holds n [] self.
Proof.
  unfold frame_buffer_new. destruct (decide (n = 0%nat)) as [->|Hn]; [done|]. intros [= <-]. split; [lia|].
  unfold frame_holds, leftover. cbn. rewrite length_replicate, drop_nil. done.
Qed.

Lemma cut_holds n : (0 < n)%nat -> forall input xs self, frame_holds n xs self ->
  chunks_exact n (xs ++ input) = chunks_exact n xs ++ (process self input).1 /\ frame_holds n (xs ++ input) (process self input).2.
Proof.
  intros Hn. induction input as [|x input IH]; intros xs self Hh; [by rewrite !app_nil_r|]. destruct Hh as (H1 & H2 & H3).
  cbn [process]. rewrite length_insert, H1. pose proof (length_leftover n Hn xs) as Hr.
  assert (Ht : take (S self.(filled)) (<[self.(filled) := x]> self.(samples)) = leftover n xs ++ [x]).
  { rewrite (take_S_r _ _ x) by (apply list_lookup_insert_eq; lia). by rewrite take_insert_ge, H3 by lia. }
  rewrite (cons_middle x xs input), !app_assoc. destruct (decide (S self.(filled) = n)) as [Hf|Hf].
  - assert (Hw : chunks_exact n (xs ++ [x]) = chunks_exact n xs ++ [leftover n xs ++ [x]] /\ leftover n (xs ++ [x]) = []).
    { rewrite chunks_app, (leftover_app n Hn xs) by done. by destruct (chunks_one n Hn (leftover n xs ++ [x])) as [-> ->]; [rewrite length_app; cbn; lia|]. }
    destruct Hw as [Hw1 Hw2]. destruct (process _ input) as [frames self'] eqn:E.
    destruct (IH (xs ++ [x]) (mkFrameBuffer (<[self.(filled) := x]> self.(samples)) 0)) as [IH1 IH2]; [by unfold frame_holds; cbn; rewrite length_insert, Hw2|].
    rewrite E in IH1, IH2. split; [|done]. rewrite IH1, Hw1, <- app_assoc. cbn. do 2 f_equal. rewrite <- Ht, Hf, take_ge; [done|]. rewrite length_insert. lia.
  - assert (Hw : chunks_exact n (xs ++ [x]) = chunks_exact n xs /\ leftover n (xs ++ [x]) = leftover n xs ++ [x]).
    { rewrite chunks_app, (leftover_app n Hn xs) by done. destruct (chunks_short n Hn (leftover n xs ++ [x])) as [-> ->]; [rewrite length_app; cbn; lia|].
      by rewrite app_nil_r. }
    destruct Hw as [Hw1 Hw2]. rewrite <- Hw1. apply IH. unfold frame_holds. cbn. by rewrite length_insert, Hw2, Ht, length_app, H2, Nat.add_1_r.
Qed.

Section Front.
Context (fon_stereo : nat -> list f32 -> list f32).
Hypothesis fon_two : forall n f, length (fon_stereo n f) = 2%nat.

(** The packets of a recording, before their channels are mapped. *)
Definition ideal_packets (rate channels : Z) (xs : list f32) : list (list f32) :=
  let frames := chunks_exact (Z.to_nat (rate / AUDIO_PACKETS_PER_SECOND * channels)) xs in
  let r := encoder_rate rate in
  if rate =? r then frames
  else chunks_exact (Z.to_nat (r / AUDIO_PACKETS_PER_SECOND * channels)) (resample (mkConfig rate r channels) (concat frames)).

(** A device whose frames fit in memory. *)
Definition device_ok (rate channels : Z) : Prop := 100 <= rate < 2 ^ 32 /\ 0 < channels < 2 ^ 16 /\ rate / 100 * channels < 2 ^ 31.

Section Device.
Context (rate channels : Z) (Hdev : device_ok rate channels).

Abbreviation frame_size := (Z.to_nat (rate / AUDIO_PACKETS_PER_SECOND * channels)).
Abbreviation packet_size := (Z.to_nat (encoder_rate rate / AUDIO_PACKETS_PER_SECOND * channels)).
Abbreviation config := (mkConfig rate (encoder_rate rate) channels).

Lemma encoder_rate_range : 8000 <= encoder_rate rate <= 48000.
Proof using. unfold encoder_rate. repeat case_match; lia. Qed.

Lemma device_config_ok : config_ok config.
Proof using Hdev. destruct Hdev as (H1 & H2 & _). pose proof encoder_rate_range. split_and!; cbn; lia. Qed.

Lemma frame_size_pos : (0 < frame_size)%nat.
Proof using Hdev. destruct Hdev as (H1 & H2 & _). unfold AUDIO_PACKETS_PER_SECOND. pose proof (Z.div_le_lower_bound rate 100 1). nia. Qed.

Lemma packet_size_pos : (0 < packet_size)%nat.
Proof using Hdev.
  destruct Hdev as (H1 & H2 & _). pose proof encoder_rate_range. unfold AUDIO_PACKETS_PER_SECOND. pose proof (Z.div_le_lower_bound (encoder_rate rate) 100 1). nia.
Qed.

(** The state of a stream after a recording. *)
Definition stream_holds (xs : list f32) (s : CaptureStream) : Prop :=
  frame_holds frame_size xs s.(frame) /\ s.(interrupted) = false /\ s.(processor).(p_config).(device_channel) = channels /\
  if rate =? encoder_rate rate then s.(processor).(p_resampler) = None
  else exists r, s.(processor).(p_resampler) = Some r /\ fixed_holds config packet_size (concat (chunks_exact frame_size xs)) r.

Lemma whole_frame_size f : length f = frame_size -> whole config f /\ zlen f < 2 ^ 31.
Proof using Hdev.
  intros Hf. destruct Hdev as (H1 & H2 & H3). unfold whole. cbn. rewrite Hf. unfold AUDIO_PACKETS_PER_SECOND.
  assert (0 <= rate / 100) by (apply Z.div_pos; lia). rewrite Z2Nat.id by nia. split; [apply Z.mod_mul; lia|lia].
Qed.

(** What a processor makes of whole frames. *)
Lemma process_frames_holds frames : forall ys p,
  Forall (fun f => length f = frame_size) frames -> p.(p_config).(device_channel) = channels ->
  (if rate =? encoder_rate rate then p.(p_resampler) = None
   else exists r, p.(p_resampler) = Some r /\ fixed_holds config packet_size ys r) ->
  exists packets p', process_frames fon_stereo (p, false) frames = Some ((fun x => rechannel fon_stereo x channels) <$> packets, (p', false)) /\
    p'.(p_config).(device_channel) = channels /\
    if rate =? encoder_rate rate then p'.(p_resampler) = None /\ packets = frames
    else chunks_exact packet_size (resample config (ys ++ concat frames)) = chunks_exact packet_size (resample config ys) ++ packets /\
      exists r, p'.(p_resampler) = Some r /\ fixed_holds config packet_size (ys ++ concat frames) r.
Proof using Hdev.
  induction frames as [|f frames IH]; intros ys p Hf Hch Hr.
  - exists [], p. cbn. rewrite !app_nil_r. split; [done|]. split; [done|]. by case_match.
  - apply Forall_cons in Hf as [Hf Hfs]. destruct (whole_frame_size f Hf) as [Hw Hl]. cbn [process_frames process_frame]. unfold processor_process.
    destruct (rate =? encoder_rate rate).
    + rewrite Hr. cbn [mbind option_bind]. destruct (IH ys p Hfs Hch Hr) as (packets & p' & -> & Hch' & Hr' & ->). cbn [mbind option_bind].
      exists (f :: frames), p'. rewrite Hch. done.
    + destruct Hr as (r & Hr & Hh). rewrite Hr.
      destruct (process_with_holds config device_config_ok packet_size ys r f packet_size_pos Hh Hw Hl) as (packets & r' & -> & Hh' & Hp). cbn [mbind option_bind].
      destruct (IH (ys ++ f) (mkProcessor (p_config p) (Some r')) Hfs Hch ltac:(by exists r')) as (rest & p' & -> & Hch' & Hp' & r2 & Hr2 & Hh2).
      cbn [mbind option_bind concat]. rewrite <- app_assoc in Hp', Hh2.
      exists (packets ++ rest), p'. rewrite Hch, fmap_app. split; [done|]. split; [done|]. split; [|by exists r2]. by rewrite Hp', Hp, app_assoc.
Qed.

Lemma ideal_app xs ys :
  ideal_packets rate channels (xs ++ ys) =
    if rate =? encoder_rate rate then chunks_exact frame_size (xs ++ ys)
    else chunks_exact packet_size (resample config (concat (chunks_exact frame_size (xs ++ ys)))).
Proof using. done. Qed.

Lemma callback_holds xs s data : stream_holds xs s ->
  exists packets s', callback fon_stereo s data = Some ((fun x => rechannel fon_stereo x channels) <$> packets, s') /\ stream_holds (xs ++ data) s' /\
    ideal_packets rate channels (xs ++ data) = ideal_packets rate channels xs ++ packets.
Proof using Hdev.
  intros (Hf & Hi & Hch & Hr). unfold callback. rewrite Hi. pose proof frame_size_pos as Hpos.
  destruct (cut_holds frame_size Hpos data xs _ Hf) as [Hfr Hf']. destruct (process (frame s) data) as [frames fb]. cbn in Hfr, Hf'.
  assert (Hlen : Forall (fun f => length f = frame_size) frames).
  { pose proof (chunks_length frame_size Hpos (xs ++ data)) as Hall. rewrite Hfr in Hall. by apply Forall_app in Hall as [_ ?]. }
  destruct (process_frames_holds frames _ _ Hlen Hch Hr) as (packets & p' & E & Hch' & Hcase). rewrite E. cbn [mbind option_bind].
  exists packets, (mkStream fb p' false). split; [done|]. unfold stream_holds, ideal_packets. cbn. rewrite Hfr.
  destruct (rate =? encoder_rate rate).
  - destruct Hcase as [Hnone ->]. split; [|done]. by split_and!.
  - destruct Hcase as (Hp & r & Hr' & Hh). rewrite concat_app. split; [|done]. split_and!; try done. by exists r.
Qed.

Lemma callbacks_holds datas : forall xs s, stream_holds xs s ->
  exists packets s', callbacks fon_stereo s datas = Some ((fun x => rechannel fon_stereo x channels) <$> packets, s') /\ stream_holds (xs ++ concat datas) s' /\
    ideal_packets rate channels (xs ++ concat datas) = ideal_packets rate channels xs ++ packets.
Proof using Hdev.
  induction datas as [|d datas IH]; intros xs s Hs; cbn [callbacks concat].
  - exists [], s. by rewrite !app_nil_r.
  - destruct (callback_holds xs s d Hs) as (packets & s1 & -> & Hs1 & E1). cbn [mbind option_bind].
    destruct (IH _ _ Hs1) as (rest & s2 & -> & Hs2 & E2). cbn [mbind option_bind]. exists (packets ++ rest), s2.
    rewrite fmap_app, (app_assoc xs). split; [done|]. split; [done|]. by rewrite E2, E1, app_assoc.
Qed.

(** *** From the start of a stream *)

Lemma ideal_nil : ideal_packets rate channels [] = [].
Proof using Hdev.
  unfold ideal_packets. destruct (chunks_short frame_size frame_size_pos (@nil f32)) as [-> _]; [apply frame_size_pos|]. case_match; [done|]. cbn [concat].
  rewrite (resample_nil _ device_config_ok). by apply (chunks_short _ packet_size_pos [] packet_size_pos).
Qed.

Lemma play_holds s m : play rate channels = Ok (s, m) ->
  stream_holds [] s /\ m = encoder_rate rate / AUDIO_PACKETS_PER_SECOND * Z.max channels (encoder_channels channels).
Proof using Hdev.
  pose proof Hdev as (H1 & H2 & H3). pose proof encoder_rate_range as He. unfold play, capture_packet_layout at 1.
  destruct (_ || _); [done|]. destruct (_ <=? _); [|done]. cbn [rbind]. unfold capture_packet_layout.
  destruct (_ || _); [done|]. destruct (_ <=? _); [|done]. cbn [rbind snd].
  destruct (frame_buffer_new _) as [fb|] eqn:Efb; [|done]. apply frame_new_holds in Efb as [_ Hfb]. unfold processor_new. cbn [p_input_rate p_output_rate].
  destruct (rate =? encoder_rate rate) eqn:Er.
  - cbn [rbind]. destruct (capture_packet_layout _ _); [|done]. cbn [rbind]. intros [= <- <-]. split; [|done]. unfold stream_holds. cbn. rewrite Er. done.
  - destruct (fixed_new _ _) as [r|] eqn:E; [|done]. cbn [rbind]. destruct (capture_packet_layout _ _); [|done]. cbn [rbind]. intros [= <- <-].
    split; [|done]. unfold stream_holds. cbn. rewrite Er. destruct (chunks_short frame_size frame_size_pos (@nil f32)) as [-> _]; [apply frame_size_pos|].
    refine (conj Hfb (conj eq_refl (conj eq_refl (ex_intro _ r (conj eq_refl _))))).
    apply (fixed_new_holds config device_config_ok (encoder_rate rate / AUDIO_PACKETS_PER_SECOND) r E).
    unfold AUDIO_PACKETS_PER_SECOND. pose proof (Z.div_le_lower_bound (encoder_rate rate) 100 1). lia.
Qed.

Lemma ideal_length xs : Forall (fun p => length p = packet_size) (ideal_packets rate channels xs).
Proof using Hdev.
  unfold ideal_packets. destruct (Z.eqb_spec rate (encoder_rate rate)) as [E|_]; [|apply chunks_length, packet_size_pos].
  rewrite <- E. apply chunks_length, frame_size_pos.
Qed.

(** Mapped to stereo or not, a packet fits the queue's buffers. *)
Lemma rechannel_fits p : length p = packet_size ->
  zlen (rechannel fon_stereo p channels) <= encoder_rate rate / AUDIO_PACKETS_PER_SECOND * Z.max channels (encoder_channels channels).
Proof using Hdev fon_two.
  intros Hp. pose proof Hdev as (H1 & H2 & H3). pose proof encoder_rate_range as He. unfold AUDIO_PACKETS_PER_SECOND in *.
  set (f := encoder_rate rate / 100) in *. assert (Hf : 80 <= f) by (apply Z.div_le_lower_bound; lia).
  assert (Hz : zlen p = f * channels) by nia. unfold rechannel, STEREO_CHANNELS.
  set (q := if 2 <? channels then _ else p). assert (Hq : q = p).
  { subst q. case_match; [|done]. rewrite Hz, Z.div_mul by lia. unfold ztake. apply take_ge. lia. }
  rewrite Hq. destruct (_ && _) eqn:Hch; [|nia]. bool_to_prop.
  assert (Hlen : forall l : list (list f32), length (concat (fon_stereo (Z.to_nat channels) <$> l)) = (2 * length l)%nat).
  { induction l as [|x l IH]; [done|]. cbn [fmap list_fmap concat]. rewrite length_app, fon_two, IH. cbn [length]. lia. }
  rewrite Hlen. unfold chunks_exact. rewrite length_fmap, length_seq.
  assert (Hn : (length p / Z.to_nat channels = Z.to_nat f)%nat).
  { replace (length p) with (Z.to_nat f * Z.to_nat channels)%nat by nia. apply Nat.div_mul. lia. }
  rewrite Hn. unfold encoder_channels. case_match; bool_to_prop; nia.
Qed.

(** A stream's callbacks submit the packets of the recording, whatever the size of each. *)
Lemma front_faithful s m datas : play rate channels = Ok (s, m) ->
  exists s', callbacks fon_stereo s datas = Some ((fun x => rechannel fon_stereo x channels) <$> ideal_packets rate channels (concat datas), s') /\
    s'.(interrupted) = false /\ Forall (fun p => zlen p <= m) ((fun x => rechannel fon_stereo x channels) <$> ideal_packets rate channels (concat datas)).
Proof using Hdev fon_two.
  intros Hp. destruct (play_holds s m Hp) as [Hs ->]. destruct (callbacks_holds datas [] s Hs) as (packets & s' & E & Hs' & Hi).
  cbn [app] in Hi. rewrite ideal_nil in Hi. cbn [app] in Hi, Hs'. rewrite Hi. exists s'. split; [done|]. split; [by destruct Hs' as (_ & ? & _)|].
  rewrite <- Hi. apply Forall_fmap. eapply Forall_impl; [apply ideal_length|]. intros p Hl. by apply rechannel_fits.
Qed.

End Device.

End Front.

End CaptureFacts.
