(* ===== verification/AudioQueue.v ===== *)
(** The queue of captured packets and the encoder's thread:
    [src/server/audio_service/audio_capture_queue.rs], [audio_capture_encoder.rs] and the gate on
    silence of [audio_service.rs].

    The device's callback and the encoder's thread are the two sides of [step]: the callback
    submits under a lock it may not get and then unparks the thread; the thread's program counter
    is where it stands between two accesses to shared state.  Counters are [usize]. *)

From S2P Require Import Prelude Float AudioResample AudioCapture.
Import F32 Packets.

Module CaptureQueue.

Definition CAPTURE_PCM_QUEUE_PACKETS : nat := 10.

(** ** Counters *)

Record CapturePcmLoss := mkLoss { dropped : Z; contention_dropped : Z; oversized : Z; recycle_failures : Z }.
Definition loss_is_empty (l : CapturePcmLoss) : bool := (l.(dropped) =? 0) && (l.(oversized) =? 0) && (l.(recycle_failures) =? 0).
Definition loss_add (a b : CapturePcmLoss) : CapturePcmLoss :=
  mkLoss (wrap 64 (a.(dropped) + b.(dropped))) (wrap 64 (a.(contention_dropped) + b.(contention_dropped)))
    (wrap 64 (a.(oversized) + b.(oversized))) (wrap 64 (a.(recycle_failures) + b.(recycle_failures))).

Record CapturePcmStats := mkStats { loss : CapturePcmLoss; max_queued_packets : Z }.
Definition stats_zero : CapturePcmStats := mkStats (mkLoss 0 0 0 0) 0.
Definition stats_is_empty (s : CapturePcmStats) : bool := loss_is_empty s.(loss) && (s.(max_queued_packets) =? 0).
Definition stats_add (a b : CapturePcmStats) : CapturePcmStats :=
  mkStats (loss_add a.(loss) b.(loss)) (Z.max a.(max_queued_packets) b.(max_queued_packets)).

Record Counters := mkCounters { c_other : Z; c_contention : Z; c_oversized : Z; c_recycle : Z; c_max : Z }.
Definition counters_zero : Counters := mkCounters 0 0 0 0 0.
Definition add_other (c : Counters) : Counters := mkCounters (wrap 64 (c.(c_other) + 1)) c.(c_contention) c.(c_oversized) c.(c_recycle) c.(c_max).
Definition add_contention (c : Counters) : Counters := mkCounters c.(c_other) (wrap 64 (c.(c_contention) + 1)) c.(c_oversized) c.(c_recycle) c.(c_max).
Definition add_oversized (c : Counters) : Counters := mkCounters c.(c_other) c.(c_contention) (wrap 64 (c.(c_oversized) + 1)) c.(c_recycle) c.(c_max).
Definition add_recycle (c : Counters) : Counters := mkCounters c.(c_other) c.(c_contention) c.(c_oversized) (wrap 64 (c.(c_recycle) + 1)) c.(c_max).
Definition fetch_max (n : Z) (c : Counters) : Counters := mkCounters c.(c_other) c.(c_contention) c.(c_oversized) c.(c_recycle) (Z.max c.(c_max) n).

(** ** The handoff *)

(** [room]: the capacity of the vector of free buffers, at least what was asked for. *)
Record Handoff := mkHandoff {
  available : list (list f32);
  ready : list (Z * list f32);
  wake_thread : bool;
  counters : Counters;
  max_samples : Z;
  room : nat }.

Definition with_buffers (a : list (list f32)) (r : list (Z * list f32)) (h : Handoff) : Handoff :=
  mkHandoff a r h.(wake_thread) h.(counters) h.(max_samples) h.(room).
Definition count (f : Counters -> Counters) (h : Handoff) : Handoff :=
  mkHandoff h.(available) h.(ready) h.(wake_thread) (f h.(counters)) h.(max_samples) h.(room).

Definition new_pcm_handoff (capacity : nat) (max_samples : Z) (room : nat) : option Handoff :=
  if (capacity =? 0)%nat || (max_samples =? 0) then None else Some (mkHandoff (replicate capacity []) [] false counters_zero max_samples room).

(** [OnceLock::set] *)
Definition set_wake_thread (h : Handoff) : option Handoff :=
  if h.(wake_thread) then None else Some (mkHandoff h.(available) h.(ready) true h.(counters) h.(max_samples) h.(room)).

Inductive TryLock := Free | WouldBlock | Poisoned.

Definition take_buffer (h : Handoff) : option (list f32) * Handoff :=
  match last h.(available) with
  | Some buffer => (Some buffer, with_buffers (removelast h.(available)) h.(ready) h)
  | None =>
    match h.(ready) with
    | (_, buffer) :: ready => (Some buffer, count add_other (with_buffers h.(available) ready h))
    | [] => (None, h)
    end
  end.

(** [CapturePcmSender::submit], up to the call of [wake] that ends each of its paths. *)
Definition submit (lock : TryLock) (input : list f32) (h : Handoff) (sequence : Z) : Handoff * Z :=
  let next := wrap 64 (sequence + 1) in
  if h.(max_samples) <? zlen input then (count add_oversized h, next)
  else
    match lock with
    | WouldBlock => (count add_contention h, next)
    | Poisoned => (count add_other h, next)
    | Free =>
      let '(buffer, h) := take_buffer h in
      match buffer with
      | Some _ =>
        let ready := h.(ready) ++ [(sequence, input)] in
        (count (fetch_max (zlen ready)) (with_buffers h.(available) ready h), next)
      | None => (count add_other h, next)
      end
    end.

Definition pop_packet (h : Handoff) : option (Z * list f32) * Handoff :=
  match h.(ready) with
  | p :: ready => (Some p, with_buffers h.(available) ready h)
  | [] => (None, h)
  end.

Definition recycle (buffer : list f32) (h : Handoff) : Handoff :=
  if (length h.(available) =? h.(room))%nat then count add_recycle h else with_buffers (h.(available) ++ [[]]) h.(ready) h.

Definition take_stats (h : Handoff) : CapturePcmStats * Handoff :=
  let c := h.(counters) in
  (mkStats (mkLoss (wrap 64 (c.(c_other) + c.(c_contention))) c.(c_contention) c.(c_oversized) c.(c_recycle)) c.(c_max),
   count (fun _ => counters_zero) h).

(** ** The encoder's thread *)

Definition CAPTURE_DECLICK_MS : Z := 5.
Definition MAX_ENCODE_CHANNELS : nat := 2.

Record CaptureEncoderState := mkEncoder {
  channels : nat;
  expected_sequence : Z;
  fade_frames : Z;
  last_frame : list f32;
  pending : CapturePcmStats }.

Definition encoder_new (sample_rate : Z) (channels : nat) : CaptureEncoderState :=
  mkEncoder channels 0 (sample_rate * CAPTURE_DECLICK_MS / 1000) (replicate MAX_ENCODE_CHANNELS fzero) stats_zero.

Definition with_pending (p : CapturePcmStats) (e : CaptureEncoderState) : CaptureEncoderState :=
  mkEncoder e.(channels) e.(expected_sequence) e.(fade_frames) e.(last_frame) p.

(** A frame of the transition from the last one. *)
Definition crossfade (last : list f32) (weight : f32) (frame : list f32) : list f32 :=
  zip_with (fun l s => fadd (fmul l (fsub fone weight)) (fmul s weight)) last frame.
Definition fade (e : CaptureEncoderState) (frames : list (list f32)) : list (list f32) :=
  imap (fun i frame =>
    if Z.of_nat i <? e.(fade_frames) then crossfade e.(last_frame) (fdiv (of_Z (Z.of_nat i + 1)) (of_Z e.(fade_frames))) frame else frame) frames.

Definition smooth_packet (sequence : Z) (packet : list f32) (e : CaptureEncoderState) : list f32 * CaptureEncoderState :=
  let n := e.(channels) in
  let packet := if sequence =? e.(expected_sequence) then packet else concat (fade e (chunks_exact n packet)) ++ leftover n packet in
  let frame := match last (chunks_exact n packet) with Some frame => frame ++ drop n e.(last_frame) | None => e.(last_frame) end in
  (packet, mkEncoder n (wrap 64 (sequence + 1)) e.(fade_frames) frame e.(pending)).

(** [report]: what it logs; [elapsed]: the interval between two lines has passed. *)
Definition report (force elapsed : bool) (e : CaptureEncoderState) : option CapturePcmStats * CaptureEncoderState :=
  if stats_is_empty e.(pending) || (negb force && negb elapsed) then (None, e) else (Some e.(pending), with_pending stats_zero e).

(** The gate on silence. *)
Definition MAX_AUDIO_ZERO_COUNT : Z := 800.

Definition should_encode (data : list f32) (zero_count : Z) : bool * Z :=
  if existsb (fun x => negb (feq x fzero)) data then (true, 0)
  else if MAX_AUDIO_ZERO_COUNT <? zero_count then
    (false, if zero_count =? MAX_AUDIO_ZERO_COUNT + 1 then zero_count + 1 else zero_count)
  else (true, zero_count + 1).

(** ** The two threads *)

Inductive Pc := Top | Popping | Holding (packet : list f32) | Stopping | Parked | Done.

Inductive Effect :=
| Popped (sequence : Z) (packet : list f32)
| Encode (packet : list f32) (* [encode_vec_float] *)
| Reported (stats : CapturePcmStats).

Record Capture := mkCapture {
  handoff : Handoff;
  sequence : Z;
  waking : bool; (* the callback is about to unpark the thread *)
  token : bool; (* the thread was unparked *)
  stop : bool;
  pc : Pc;
  enc : CaptureEncoderState;
  zero_count : Z;
  log : list Effect }.

Inductive Event :=
| Submit (lock : TryLock) (input : list f32)
| Wake
| Encoder (elapsed : bool)
| Timeout
| Stop.

Definition opt_report (r : option CapturePcmStats) : list Effect := match r with Some s => [Reported s] | None => [] end.

(** [run_capture_encoder], from one access to shared state to the next. *)
Definition encoder_step (elapsed : bool) (s : Capture) : option Capture :=
  match s.(pc) with
  | Top =>
    let '(stats, h) := take_stats s.(handoff) in
    let '(r, e) := report false elapsed (with_pending (stats_add s.(enc).(pending) stats) s.(enc)) in
    Some (mkCapture h s.(sequence) s.(waking) s.(token) s.(stop) Popping e s.(zero_count) (s.(log) ++ opt_report r))
  | Popping =>
    let '(p, h) := pop_packet s.(handoff) in
    match p with
    | Some (sequence, packet) =>
      let '(smoothed, e) := smooth_packet sequence packet s.(enc) in
      Some (mkCapture h s.(CaptureQueue.sequence) s.(waking) s.(token) s.(stop) (Holding smoothed) e s.(zero_count) (s.(log) ++ [Popped sequence packet]))
    | None => Some (mkCapture h s.(CaptureQueue.sequence) s.(waking) s.(token) s.(stop) Stopping s.(enc) s.(zero_count) s.(log))
    end
  | Holding packet =>
    let '(now, z) := should_encode packet s.(zero_count) in
    Some (mkCapture (recycle packet s.(handoff)) s.(sequence) s.(waking) s.(token) s.(stop) Top s.(enc) z
            (s.(log) ++ if now then [Encode packet] else []))
  | Stopping =>
    if s.(stop) && is_nil s.(handoff).(ready) then
      let '(stats, h) := take_stats s.(handoff) in
      let '(r, e) := report true elapsed (with_pending (stats_add s.(enc).(pending) stats) s.(enc)) in
      Some (mkCapture h s.(sequence) s.(waking) s.(token) s.(stop) Done e s.(zero_count) (s.(log) ++ opt_report r))
    else Some (mkCapture s.(handoff) s.(sequence) s.(waking) s.(token) s.(stop) Parked s.(enc) s.(zero_count) s.(log))
  | Parked =>
    if s.(token) then Some (mkCapture s.(handoff) s.(sequence) s.(waking) false s.(stop) Top s.(enc) s.(zero_count) s.(log)) else None
  | Done => None
  end.

(** What can happen next; a stream is dropped, with its callback, before its thread is stopped. *)
Definition step (s : Capture) (ev : Event) : option Capture :=
  match ev with
  | Submit lock input =>
    if s.(waking) || s.(stop) then None
    else
      let '(h, sequence) := submit lock input s.(handoff) s.(sequence) in
      Some (mkCapture h sequence true s.(token) s.(stop) s.(pc) s.(enc) s.(zero_count) s.(log))
  | Wake =>
    if s.(waking) then
      Some (mkCapture s.(handoff) s.(sequence) false (s.(token) || s.(handoff).(wake_thread)) s.(stop) s.(pc) s.(enc) s.(zero_count) s.(log))
    else None
  | Encoder elapsed => encoder_step elapsed s
  | Timeout =>
    match s.(pc) with
    | Parked => Some (mkCapture s.(handoff) s.(sequence) s.(waking) s.(token) s.(stop) Top s.(enc) s.(zero_count) s.(log))
    | _ => None
    end
  | Stop =>
    if s.(waking) || s.(stop) then None
    else Some (mkCapture s.(handoff) s.(sequence) s.(waking) true true s.(pc) s.(enc) s.(zero_count) s.(log))
  end.

Fixpoint run (s : Capture) (evs : list Event) : option Capture :=
  match evs with
  | [] => Some s
  | ev :: evs => s ← step s ev; run s evs
  end.

(** [start_capture_encoder] *)
Definition start_capture_encoder (sample_rate : Z) (encode_channel : nat) (max_packet_samples : Z) (room : nat) : option Capture :=
  h ← new_pcm_handoff CAPTURE_PCM_QUEUE_PACKETS max_packet_samples room;
  h ← set_wake_thread h;
  Some (mkCapture h 0 false false false Top (encoder_new sample_rate encode_channel) 0 []).

End CaptureQueue.
