(* ===== verification/AudioTheorems.v ===== *)
(** Captured sound reaches the encoder: nothing is reordered or altered unseen, every packet that
    does not arrive is counted, and the thread that encodes is never left asleep. *)

From S2P Require Import Prelude Float AudioResample AudioCapture AudioQueue.
Import F32 Packets CaptureFrames CaptureFacts CaptureQueue.

Module CaptureTheorems.

(** ** What a log says *)

Definition popped (l : list Effect) : list (Z * list f32) := omap (fun e => match e with Popped s p => Some (s, p) | _ => None end) l.
Definition encoded (l : list Effect) : list (list f32) := omap (fun e => match e with Encode p => Some p | _ => None end) l.
Definition reported (l : list Effect) : list CapturePcmStats := omap (fun e => match e with Reported s => Some s | _ => None end) l.

(** Packets lost, by the counters, by what waits to be reported and by the reports. *)
Definition lost_of (s : CapturePcmStats) : Z := s.(loss).(dropped) + s.(loss).(oversized).
Definition counted (c : Counters) : Z := c.(c_other) + c.(c_contention) + c.(c_oversized).
Definition told (l : list Effect) : Z := foldr (fun s n => lost_of s + n) 0 (reported l).
Definition lost (s : Capture) : Z := counted s.(handoff).(counters) + lost_of s.(enc).(pending) + told s.(log).

(** What was submitted, with its place. *)
Definition numbered (subs : list (list f32)) : list (Z * list f32) := imap (fun i x => (Z.of_nat i, x)) subs.
Definition submissions (evs : list Event) : list (list f32) := omap (fun e => match e with Submit _ x => Some x | _ => None end) evs.

(** What the thread makes of the packets it takes, and which of them the gate lets through. *)
Fixpoint smooth_all (e : CaptureEncoderState) (l : list (Z * list f32)) : list (list f32) * CaptureEncoderState :=
  match l with
  | [] => ([], e)
  | (sequence, p) :: l =>
    let '(p, e) := smooth_packet sequence p e in
    let '(ps, e) := smooth_all e l in (p :: ps, e)
  end.
Fixpoint gate (z : Z) (ps : list (list f32)) : list (list f32) * Z :=
  match ps with
  | [] => ([], z)
  | p :: ps =>
    let '(now, z) := should_encode p z in
    let '(rest, z) := gate z ps in ((if now then [p] else []) ++ rest, z)
  end.
Definition held (s : Capture) : list (list f32) := match s.(pc) with Holding p => [p] | _ => [] end.

(** *** Appending *)

Lemma popped_app l l' : popped (l ++ l') = popped l ++ popped l'.
Proof. apply omap_app. Qed.
Lemma encoded_app l l' : encoded (l ++ l') = encoded l ++ encoded l'.
Proof. apply omap_app. Qed.
Lemma reported_app l l' : reported (l ++ l') = reported l ++ reported l'.
Proof. apply omap_app. Qed.

Lemma told_app l l' : told (l ++ l') = told l + told l'.
Proof. unfold told. rewrite reported_app. induction (reported l) as [|s r IH]; [done|]. cbn. rewrite IH. lia. Qed.

Lemma numbered_snoc l x : numbered (l ++ [x]) = numbered l ++ [(zlen l, x)].
Proof. unfold numbered. rewrite imap_app. cbn. by rewrite Nat.add_0_r. Qed.

Lemma smooth_all_snoc l e s p : smooth_all e (l ++ [(s, p)]) =
  let '(ps, e') := smooth_all e l in let '(p', e'') := smooth_packet s p e' in (ps ++ [p'], e'').
Proof.
  revert e. induction l as [|[s1 p1] l IH]; intros e; cbn [smooth_all app]; [by destruct (smooth_packet s p e)|].
  destruct (smooth_packet s1 p1 e) as [q e1]. rewrite IH. destruct (smooth_all e1 l) as [ps e2]. by destruct (smooth_packet s p e2).
Qed.

Lemma gate_snoc ps z p : gate z (ps ++ [p]) =
  let '(out, z') := gate z ps in let '(now, z'') := should_encode p z' in (out ++ (if now then [p] else []), z'').
Proof.
  revert z. induction ps as [|q ps IH]; intros z; cbn [gate app].
  - by destruct (should_encode p z) as [[] z'].
  - destruct (should_encode q z) as [now z1]. rewrite IH. destruct (gate z1 ps) as [out z2]. destruct (should_encode p z2) as [now2 z3].
    by rewrite app_assoc.
Qed.

(** Counting does not change what the encoder makes of a packet. *)
Lemma smooth_pending s p e x : smooth_packet s p (with_pending x e) =
  let '(p', e') := smooth_packet s p e in (p', with_pending x e').
Proof. by destruct e. Qed.

Lemma pending_same x y e : with_pending x (with_pending y e) = with_pending x e.
Proof. done. Qed.

(** ** The invariant *)

Section Run.
Context (capacity : nat) (e0 : CaptureEncoderState).

Record inv (subs : list (list f32)) (s : Capture) : Prop := mkInv {
  iv_seq : s.(sequence) = zlen subs;
  iv_order : sublist (popped s.(log) ++ s.(handoff).(ready)) (numbered subs);
  iv_count : zlen subs = zlen (popped s.(log)) + zlen s.(handoff).(ready) + lost s;
  iv_counters : 0 <= s.(handoff).(counters).(c_other) /\ 0 <= s.(handoff).(counters).(c_contention) /\ 0 <= s.(handoff).(counters).(c_oversized) /\
    0 <= s.(enc).(pending).(loss).(dropped) /\ 0 <= s.(enc).(pending).(loss).(oversized) /\ 0 <= told s.(log);
  iv_buffers : (length s.(handoff).(available) + length s.(handoff).(ready) + length (held s) = capacity)%nat /\ (capacity <= s.(handoff).(room))%nat;
  iv_recycled : s.(handoff).(counters).(c_recycle) = 0;
  iv_wake : s.(handoff).(wake_thread) = true /\ (s.(stop) = true -> s.(waking) = false) /\
    (s.(pc) = Stopping -> s.(handoff).(ready) <> [] -> s.(token) = true \/ s.(waking) = true) /\
    (s.(pc) = Parked -> s.(handoff).(ready) <> [] \/ s.(stop) = true -> s.(token) = true \/ s.(waking) = true);
  iv_encoder : with_pending stats_zero s.(enc) = with_pending stats_zero (smooth_all e0 (popped s.(log))).2;
  iv_sent : exists sent, (smooth_all e0 (popped s.(log))).1 = sent ++ held s /\ gate 0 sent = (encoded s.(log), s.(zero_count));
  iv_done : s.(pc) = Done -> s.(stop) = true /\ s.(handoff).(ready) = [] /\ lost s = told s.(log) }.

(** *** Submitting *)

Definition counters_ok (c : Counters) : Prop := 0 <= c.(c_other) /\ 0 <= c.(c_contention) /\ 0 <= c.(c_oversized).

(** A packet is rejected and counted, or queued in a free buffer or in that of the oldest one,
    which is counted. *)
Inductive submitted (h : Handoff) (p : Z * list f32) (h' : Handoff) : Prop :=
| rejected : h'.(ready) = h.(ready) -> length h'.(available) = length h.(available) -> counted h'.(counters) = counted h.(counters) + 1 -> submitted h p h'
| queued : h'.(ready) = h.(ready) ++ [p] -> S (length h'.(available)) = length h.(available) -> counted h'.(counters) = counted h.(counters) -> submitted h p h'
| replaced old rest : h.(ready) = old :: rest -> h'.(ready) = rest ++ [p] -> length h'.(available) = length h.(available) ->
    counted h'.(counters) = counted h.(counters) + 1 -> submitted h p h'.

Lemma submit_cases lock input h n : counters_ok h.(counters) -> counted h.(counters) + 1 < 2 ^ 64 ->
  let '(h', n') := submit lock input h n in
  n' = wrap 64 (n + 1) /\ submitted h (n, input) h' /\ counters_ok h'.(counters) /\ h'.(counters).(c_recycle) = h.(counters).(c_recycle) /\
  h'.(wake_thread) = h.(wake_thread) /\ h'.(room) = h.(room).
Proof using.
  destruct h as [av rd wk [o ct ov rc mx] ms rm]. unfold counted, counters_ok. cbn. intros (H1 & H2 & H3) Hb.
  assert (Hw : forall x, 0 <= x -> x + 1 < 2 ^ 64 -> wrap 64 (x + 1) = x + 1) by (intros x ? ?; apply wrap_small; unfold in_u; lia).
  unfold submit. cbn [CaptureQueue.max_samples]. destruct (ms <? zlen input).
  { cbn. rewrite (Hw ov) by lia. split_and!; try done; try lia. apply rejected; unfold counted; cbn; [done|done|rewrite ?(Hw ov), ?(Hw ct), ?(Hw o) by lia; lia]. }
  destruct lock; cbn.
  2,3: first [rewrite (Hw ct) by lia|rewrite (Hw o) by lia]; split_and!; try done; try lia; apply rejected; unfold counted; cbn; [done|done|rewrite ?(Hw ov), ?(Hw ct), ?(Hw o) by lia; lia].
  unfold take_buffer. cbn. destruct av as [|b av _] using rev_ind; cbn.
  - destruct rd as [|[m b] rd]; cbn; rewrite (Hw o) by lia; split_and!; try done; try lia.
    + apply rejected; unfold counted; cbn; [done|done|rewrite ?(Hw ov), ?(Hw ct), ?(Hw o) by lia; lia].
    + apply (replaced _ _ _ (m, b) rd); unfold counted; cbn; [done|done|done|rewrite (Hw o) by lia; lia].
  - rewrite last_snoc. cbn. rewrite removelast_last. split_and!; try done. apply queued; unfold counted; cbn; [done|rewrite length_app; cbn; lia|done].
Qed.

Lemma submit_inv subs s lock input s' : zlen subs + 1 < 2 ^ 64 -> inv subs s -> step s (Submit lock input) = Some s' -> inv (subs ++ [input]) s'.
Proof using.
  intros Hn [Hseq Hord Hcnt Hctr Hbuf Hrec Hwk Henc Hsent Hdone] Hs. cbn [step] in Hs.
  destruct (waking s) eqn:Ew; [done|]. destruct (stop s) eqn:Est; [done|]. cbn [orb] in Hs.
  assert (Hlost : 0 <= zlen (popped s.(log)) + zlen s.(handoff).(ready)) by lia. unfold lost in Hcnt. unfold lost_of at 1 in Hcnt.
  pose proof (submit_cases lock input s.(handoff) s.(sequence)) as Hsub. destruct (submit lock input s.(handoff) s.(sequence)) as [h' n'].
  destruct Hsub as (-> & Hcase & Hok & Hr & Hwt & Hrm); [by split_and!; apply Hctr|unfold lost_of in *; lia|]. injection Hs as <-.
  assert (Hreject : sublist (popped s.(log) ++ s.(handoff).(ready)) (numbered (subs ++ [input]))).
  { rewrite numbered_snoc. by apply sublist_inserts_r. }
  assert (Hpush : forall r, sublist r s.(handoff).(ready) -> sublist (popped s.(log) ++ r ++ [(sequence s, input)]) (numbered (subs ++ [input]))).
  { intros r Hr'. rewrite numbered_snoc, Hseq, app_assoc. apply sublist_app; [|done]. etransitivity; [|exact Hord]. by apply sublist_app. }
  destruct Hok as (O1 & O2 & O3). destruct Hctr as (_ & _ & _ & Hctr).
  split; cbn [sequence handoff log pc enc waking token stop zero_count].
  - rewrite Hseq, length_app, wrap_small; cbn; [lia|unfold in_u; lia].
  - destruct Hcase as [-> _ _ | -> _ _ | old rest Hold -> _ _]; [done|by apply Hpush|]. apply Hpush. rewrite Hold. by apply sublist_cons.
  - unfold lost, lost_of in *. cbn [handoff enc log]. rewrite length_app. cbn [length].
    destruct Hcase as [-> _ -> | -> _ -> | old rest Hold -> _ ->]; [lia|rewrite length_app; cbn [length]; lia|].
    rewrite Hold in Hcnt. rewrite length_app. cbn [length] in *. lia.
  - exact (conj O1 (conj O2 (conj O3 Hctr))).
  - change (held (mkCapture _ _ _ _ _ _ _ _ _)) with (held s). rewrite Hrm. split; [|apply Hbuf]. destruct Hbuf as [Hbuf _].
    destruct Hcase as [-> Hl _ | -> Hl _ | old rest Hold -> Hl _]; [lia|rewrite length_app; cbn [length]; lia|].
    rewrite Hold in Hbuf. rewrite length_app. cbn [length] in *. lia.
  - by rewrite Hr.
  - rewrite Hwt. split_and!; [apply Hwk|done|by right|by right].
  - done.
  - exact Hsent.
  - intros Hd. destruct (Hdone Hd) as [Hst _]. congruence.
Qed.

(** *** Taking the counters *)

Lemma logs_report r : popped (opt_report r) = [] /\ encoded (opt_report r) = [].
Proof using. by destruct r. Qed.

Lemma report_cases force elapsed h e : counters_ok h.(counters) -> 0 <= e.(pending).(loss).(dropped) -> 0 <= e.(pending).(loss).(oversized) ->
  counted h.(counters) + lost_of e.(pending) < 2 ^ 64 ->
  let '(stats, h') := take_stats h in
  let '(r, e') := report force elapsed (with_pending (stats_add e.(pending) stats) e) in
  h' = count (fun _ => counters_zero) h /\ with_pending stats_zero e' = with_pending stats_zero e /\
  0 <= e'.(pending).(loss).(dropped) /\ 0 <= e'.(pending).(loss).(oversized) /\ 0 <= told (opt_report r) /\
  lost_of e'.(pending) + told (opt_report r) = counted h.(counters) + lost_of e.(pending) /\
  (force = true -> lost_of e'.(pending) = 0).
Proof using.
  destruct h as [av rd wk [o ct ov rc mx] ms rm], e as [ch ex fd lf [[dr cd os rf] mq]]. unfold counted, counters_ok, lost_of. cbn -[wrap].
  intros (H1 & H2 & H3) H4 H5 Hb. assert (Hw : forall x, 0 <= x -> x < 2 ^ 64 -> wrap 64 x = x) by (intros x ? ?; apply wrap_small; unfold in_u; lia).
  unfold report, stats_is_empty, loss_is_empty, with_pending. cbn -[wrap]. rewrite (Hw (o + ct)), (Hw (dr + (o + ct))), (Hw (os + ov)) by lia.
  set (empty := _ && (Z.max mq mx =? 0)). destruct empty eqn:He; cbn -[wrap].
  - subst empty. bool_to_prop. unfold told. cbn -[wrap]. rewrite ?(Hw (dr + (o + ct))), ?(Hw (os + ov)) by lia. split_and!; try done; lia.
  - destruct (negb force && negb elapsed) eqn:Hf; cbn -[wrap].
    + unfold told. cbn -[wrap]. rewrite ?(Hw (dr + (o + ct))), ?(Hw (os + ov)) by lia. split_and!; try done; try lia. by intros ->.
    + unfold told, lost_of. cbn -[wrap]. rewrite ?(Hw (dr + (o + ct))), ?(Hw (os + ov)) by lia. split_and!; try done; lia.
Qed.

(** *** The encoder's thread *)

Lemma with_pending_eq a b : with_pending stats_zero a = with_pending stats_zero b -> a = with_pending a.(pending) b.
Proof using. destruct a, b. unfold with_pending. cbn. by intros [= -> -> -> ->]. Qed.

Lemma smooth_same n p a b : with_pending stats_zero a = with_pending stats_zero b ->
  (smooth_packet n p a).1 = (smooth_packet n p b).1 /\
  with_pending stats_zero (smooth_packet n p a).2 = with_pending stats_zero (smooth_packet n p b).2 /\ (smooth_packet n p a).2.(pending) = a.(pending).
Proof using.
  intros ->%with_pending_eq. rewrite smooth_pending. by destruct (smooth_packet n p b).
Qed.

(** The report of a step of the thread, and where the thread is after it. *)
Lemma report_inv subs s force elapsed pc' : zlen subs < 2 ^ 64 -> inv subs s -> held s = [] -> s.(pc) <> Done ->
  (pc' = Popping \/ pc' = Done /\ force = true /\ s.(stop) = true /\ s.(handoff).(ready) = []) ->
  let '(stats, h) := take_stats s.(handoff) in
  let '(r, e) := report force elapsed (with_pending (stats_add s.(enc).(pending) stats) s.(enc)) in
  inv subs (mkCapture h s.(sequence) s.(waking) s.(token) s.(stop) pc' e s.(zero_count) (s.(log) ++ opt_report r)).
Proof using.
  intros Hn [Hseq Hord Hcnt Hctr Hbuf Hrec Hwk Henc Hsent Hdone] Hheld Hpc Hpc'. unfold lost in Hcnt.
  destruct Hctr as (C1 & C2 & C3 & C4 & C5 & C6).
  pose proof (report_cases force elapsed s.(handoff) s.(enc)) as Hrep. destruct (take_stats (handoff s)) as [stats h']. destruct (report _ _ _) as [r e'].
  destruct Hrep as (-> & He & P1 & P2 & P3 & P4 & P5); [done|done|done|lia|]. destruct (logs_report r) as [Lp Le].
  assert (Hheld' : held (mkCapture (count (fun _ => counters_zero) (handoff s)) (sequence s) (waking s) (token s) (stop s) pc' e' (zero_count s) (log s ++ opt_report r)) = []).
  { unfold held. cbn. destruct Hpc' as [-> | [-> _]]; done. }
  split; try (rewrite Hheld'); cbn [sequence handoff log pc enc waking token stop zero_count]; rewrite ?popped_app, ?encoded_app, ?Lp, ?Le, ?app_nil_r.
  - done.
  - exact Hord.
  - unfold lost. cbn [handoff enc log count counters]. rewrite told_app. change (counted counters_zero) with 0. change (ready (count (fun _ => counters_zero) (handoff s))) with (ready (handoff s)). lia.
  - cbn [count counters counters_zero c_other c_contention c_oversized]. rewrite told_app. split_and!; lia.
  - rewrite Hheld in Hbuf. exact Hbuf.
  - done.
  - destruct Hwk as (W1 & W2 & _). split; [done|]. split; [done|]. split; intros E; destruct Hpc' as [-> | [-> _]]; done.
  - by rewrite He.
  - rewrite Hheld in Hsent. exact Hsent.
  - intros ->. destruct Hpc' as [? | (_ & Hf & Hs & Hr)]; [done|]. split; [done|]. split; [exact Hr|]. unfold lost. cbn [handoff enc log count counters].
    change (counted counters_zero) with 0. rewrite P5 by done. lia.
Qed.

Lemma encoder_inv subs s elapsed s' : zlen subs < 2 ^ 64 -> inv subs s -> step s (Encoder elapsed) = Some s' -> inv subs s'.
Proof using.
  intros Hn Hi Hs. cbn [step] in Hs. unfold encoder_step in Hs. destruct (pc s) as [| |packet| | |] eqn:Hpc.
  - pose proof (report_inv subs s false elapsed Popping Hn Hi) as H. destruct (take_stats _) as [stats h']. destruct (report _ _ _) as [r e]. injection Hs as <-.
    apply H; [by unfold held; rewrite Hpc|by rewrite Hpc|by left].
  - unfold pop_packet in Hs. destruct Hi as [Hseq Hord Hcnt Hctr Hbuf Hrec Hwk Henc Hsent Hdone]. unfold held in Hbuf, Hsent. rewrite Hpc in Hbuf, Hsent.
    destruct (ready (handoff s)) as [|[n p] rest] eqn:Hrd.
    + injection Hs as <-. split; cbn [sequence handoff log pc enc waking token stop zero_count]; rewrite ?Hrd; try done. destruct Hwk as (W1 & W2 & _). by split_and!.
    + destruct (smooth_packet n p (enc s)) as [p' e'] eqn:Hsm. injection Hs as <-. destruct (smooth_same n p _ _ Henc) as (S1 & S2 & S3). rewrite Hsm in S1, S2, S3. cbn [fst snd] in S1, S2, S3.
      assert (Hpop : popped (s.(log) ++ [Popped n p]) = popped s.(log) ++ [(n, p)]) by (by rewrite popped_app).
      assert (Htold : told (s.(log) ++ [Popped n p]) = told s.(log)) by (rewrite told_app; unfold told; cbn; lia).
      pose proof (smooth_all_snoc (popped s.(log)) e0 n p) as Hall. destruct (smooth_all e0 (popped (log s))) as [ps e1]. cbn [fst snd] in S1, S2, Hsent, Henc.
      destruct (smooth_packet n p e1) as [q e2]. cbn [fst snd] in S1, S2. subst q. unfold lost in Hcnt.
      split; cbn [sequence handoff log pc enc waking token stop zero_count]; rewrite ?Hpop, ?Hall.
      * done.
      * cbn [with_buffers ready]. by rewrite <- app_assoc.
      * unfold lost. cbn [handoff enc log with_buffers counters ready]. rewrite Htold, S3, length_app. cbn [length] in *. lia.
      * cbn [with_buffers counters]. rewrite Htold, S3. exact Hctr.
      * cbn [with_buffers available ready held pc length room]. cbn [length] in Hbuf. lia.
      * exact Hrec.
      * destruct Hwk as (W1 & W2 & _). by split_and!.
      * exact S2.
      * destruct Hsent as (sent & E1 & E2). exists sent. rewrite app_nil_r in E1. cbn [fst held pc]. rewrite E1. split; [done|]. by rewrite encoded_app, app_nil_r.
      * done.
  - destruct (should_encode packet (zero_count s)) as [now z] eqn:Hg. injection Hs as <-. destruct Hi as [Hseq Hord Hcnt Hctr Hbuf Hrec Hwk Henc Hsent Hdone].
    unfold held in Hbuf, Hsent. rewrite Hpc in Hbuf, Hsent. cbn [length] in Hbuf. unfold recycle. destruct (Nat.eqb_spec (length (available (handoff s))) (room (handoff s))); [lia|].
    set (extra := if now then [Encode packet] else []). assert (Hex : popped extra = [] /\ told extra = 0 /\ encoded extra = if now then [packet] else []) by (subst extra; by destruct now).
    destruct Hex as (X1 & X2 & X3). assert (Hpop : popped (s.(log) ++ extra) = popped s.(log)) by (by rewrite popped_app, X1, app_nil_r).
    assert (Htold : told (s.(log) ++ extra) = told s.(log)) by (rewrite told_app; lia).
    split; cbn [sequence handoff log pc enc waking token stop zero_count with_buffers available ready counters room wake_thread]; rewrite ?Hpop, ?Htold; try done.
    + unfold lost in *. cbn [handoff enc log with_buffers counters]. rewrite Htold. lia.
    + rewrite length_app. cbn [held pc length]. lia.
    + destruct Hwk as (W1 & W2 & _). by split_and!.
    + destruct Hsent as (sent & E1 & E2). exists (sent ++ [packet]). cbn [held pc]. rewrite app_nil_r. split; [done|]. by rewrite gate_snoc, E2, Hg, encoded_app, X3.
  - destruct (stop s && is_nil (ready (handoff s))) eqn:Hst.
    + apply andb_prop in Hst as [Hst Hr]. pose proof (report_inv subs s true elapsed Done Hn Hi) as H. destruct (take_stats _) as [stats h']. destruct (report _ _ _) as [r e].
      injection Hs as <-. apply H; [by unfold held; rewrite Hpc|by rewrite Hpc|right]. split_and!; [done|done|done|by destruct (ready (handoff s))].
    + injection Hs as <-. destruct Hi as [Hseq Hord Hcnt Hctr Hbuf Hrec Hwk Henc Hsent Hdone]. unfold held in Hbuf, Hsent. rewrite Hpc in Hbuf, Hsent. split; try done.
      cbn. destruct Hwk as (W1 & W2 & W3 & _). split_and!; [done|done|done|]. intros _ Hor. apply W3; [done|]. destruct Hor as [?|Hs]; [done|].
      rewrite Hs in Hst. cbn in Hst. intros Hnil. by rewrite Hnil in Hst.
  - destruct (token s) eqn:Ht; [|done]. injection Hs as <-. destruct Hi as [Hseq Hord Hcnt Hctr Hbuf Hrec Hwk Henc Hsent Hdone]. unfold held in Hbuf, Hsent. rewrite Hpc in Hbuf, Hsent.
    split; try done. destruct Hwk as (W1 & W2 & _). by split_and!.
  - done.
Qed.

(** *** Every step *)

Definition submission (ev : Event) : list (list f32) := match ev with Submit _ x => [x] | _ => [] end.

Lemma audio_step_inv subs s ev s' : zlen (subs ++ submission ev) < 2 ^ 64 -> inv subs s -> step s ev = Some s' -> inv (subs ++ submission ev) s'.
Proof using.
  intros Hn Hi Hs. destruct ev as [lock input| |elapsed| |]; cbn [submission] in *.
  - eapply submit_inv; [rewrite length_app in Hn; cbn in Hn; lia|exact Hi|exact Hs].
  - rewrite app_nil_r in *. cbn [step] in Hs. destruct (waking s) eqn:Hw; [|done]. injection Hs as <-.
    destruct Hi as [Hseq Hord Hcnt Hctr Hbuf Hrec (W1 & W2 & W3 & W4) Henc Hsent Hdone]. split; try done. cbn. rewrite W1, orb_true_r. split_and!; auto.
  - rewrite app_nil_r in *. by eapply encoder_inv.
  - rewrite app_nil_r in *. cbn [step] in Hs. destruct (pc s) eqn:Hpc; try done. injection Hs as <-.
    destruct Hi as [Hseq Hord Hcnt Hctr Hbuf Hrec (W1 & W2 & _) Henc Hsent Hdone]. unfold held in Hbuf, Hsent. rewrite Hpc in Hbuf, Hsent. by split; try done.
  - rewrite app_nil_r in *. cbn [step] in Hs. destruct (waking s) eqn:Hw; [done|]. destruct (stop s) eqn:Hst; [done|]. injection Hs as <-.
    destruct Hi as [Hseq Hord Hcnt Hctr Hbuf Hrec (W1 & W2 & W3 & W4) Henc Hsent Hdone]. split; try done.
    + cbn. split_and!; auto.
    + cbn. intros Hd. destruct (Hdone Hd) as [? _]. congruence.
Qed.

Lemma run_steps evs : forall subs s s', zlen (subs ++ submissions evs) < 2 ^ 64 -> inv subs s -> run s evs = Some s' -> inv (subs ++ submissions evs) s'.
Proof using.
  induction evs as [|ev evs IH]; intros subs s s' Hn Hi Hr; cbn [run] in Hr.
  - injection Hr as <-. cbn. by rewrite app_nil_r.
  - destruct (step s ev) as [s1|] eqn:Hs; [|done]. cbn in Hr.
    assert (E : submissions (ev :: evs) = submission ev ++ submissions evs) by (by destruct ev).
    rewrite E, app_assoc in *. apply (IH _ s1); [done| |done]. apply (audio_step_inv subs s); [rewrite !length_app in *; lia|done|done].
Qed.

End Run.

(** ** What the encoder is given *)

(** A packet is given as it was taken, unless one before it is missing. *)
Fixpoint intact (expected : Z) (taken : list (Z * list f32)) (given : list (list f32)) : Prop :=
  match taken, given with
  | [], [] => True
  | (n, p) :: taken, g :: given => (n = expected -> g = p) /\ intact (n + 1) taken given
  | _, _ => False
  end.

Lemma smooth_intact taken : forall e, Forall (fun x => 0 <= x.1 < 2 ^ 64 - 1) taken -> intact e.(expected_sequence) taken (smooth_all e taken).1.
Proof.
  induction taken as [|[n p] taken IH]; intros e Hr; [done|]. apply Forall_cons in Hr as [Hn Hr]. cbn [fst] in Hn.
  cbn [smooth_all]. destruct (smooth_packet n p e) as [q e1] eqn:E. specialize (IH e1 Hr). destruct (smooth_all e1 taken) as [qs e2].
  unfold smooth_packet in E. injection E as <- <-. cbn [fst expected_sequence] in IH. rewrite wrap_small in IH by (unfold in_u; lia).
  split; [|exact IH]. intros ->. by rewrite Z.eqb_refl.
Qed.

Lemma numbered_range subs : Forall (fun x => 0 <= x.1 < zlen subs) (numbered subs).
Proof.
  unfold numbered. apply Forall_lookup. intros i x Hx. apply list_lookup_imap_Some in Hx as (y & Hy & ->). apply lookup_lt_Some in Hy. cbn. lia.
Qed.

Lemma sublist_Forall {A} (P : A -> Prop) l k : sublist l k -> Forall P k -> Forall P l.
Proof. induction 1; intros Hk; [done|apply Forall_cons in Hk as [? ?]; constructor; auto|apply Forall_cons in Hk as [_ ?]; auto]. Qed.

Lemma sublist_full {A} (l k : list A) : sublist l k -> length l = length k -> l = k.
Proof.
  induction 1 as [|x l k _ IH|x l k Hs IH]; cbn; intros Hl; [done|f_equal; apply IH; lia|]. apply sublist_length in Hs. lia.
Qed.

Definition from (k : Z) (l : list (list f32)) : list (Z * list f32) := imap (fun i x => (k + Z.of_nat i, x)) l.

Lemma from_cons k x l : from k (x :: l) = (k, x) :: from (k + 1) l.
Proof. unfold from. cbn [imap]. f_equal; [f_equal; lia|]. apply imap_ext. intros i y _. cbn. f_equal. lia. Qed.

Lemma take_from l : forall k n, take n (from k l) = from k (take n l).
Proof. induction l as [|x l IH]; intros k [|n]; try done. by rewrite from_cons, !firstn_cons, from_cons, IH. Qed.

(** Nothing is missing: everything is given as it was submitted. *)
Lemma intact_all subs : forall given k, intact k (from k subs) given -> given = subs.
Proof.
  induction subs as [|x subs IH]; intros [|g given] k Hi; try done. rewrite from_cons in Hi. destruct Hi as [H1 H2].
  f_equal; [by apply H1|by apply (IH given (k + 1))].
Qed.

Lemma intact_prefix subs n given : intact 0 (take n (numbered subs)) given -> given = take n subs.
Proof. intros Hi. apply (intact_all (take n subs) given 0). by rewrite <- take_from. Qed.

(** ** The claim *)

Lemma start_inv_queue rate ch m room q : start_capture_encoder rate ch m room = Some q -> (CAPTURE_PCM_QUEUE_PACKETS <= room)%nat ->
  inv CAPTURE_PCM_QUEUE_PACKETS (encoder_new rate ch) [] q.
Proof.
  unfold start_capture_encoder, new_pcm_handoff. destruct (_ || _); [done|]. cbn. intros [= <-] Hr.
  split; cbn; try done; try (by exists []).
Qed.

(** C39: captured sound reaches the encoder.  The callbacks of a capture stream, whatever the
    size of each, submit the packets of the recording (framed, resampled, mapped to stereo).
    However they interleave with the encoder's thread, and whether or not a lock can be taken:
    what the thread takes is a subsequence of them in order, the queue holds at most ten, every
    other packet is counted exactly once, and a packet is altered only to fade in after a missing
    one; the encoder gets all of that but what the gate on silence holds back.  The thread never
    waits while a packet is queued or it is to stop, unless it is being woken; when it has stopped
    the queue is empty and the reports name every packet that was lost. *)
Theorem capture_faithful (fon_stereo : nat -> list f32 -> list f32) (rate channels m : Z) (stream stream' : CaptureStream)
    (datas packets : list (list f32)) (room : nat) (q0 q : Capture) (evs : list Event) :
  (forall n f, length (fon_stereo n f) = 2%nat) -> device_ok rate channels -> play rate channels = Ok (stream, m) ->
  callbacks fon_stereo stream datas = Some (packets, stream') ->
  start_capture_encoder (encoder_rate rate) (Z.to_nat (encoder_channels channels)) m room = Some q0 -> (CAPTURE_PCM_QUEUE_PACKETS <= room)%nat ->
  submissions evs = packets -> zlen packets < 2 ^ 64 -> run q0 evs = Some q ->
  packets = (fun p => rechannel fon_stereo p channels) <$> ideal_packets rate channels (concat datas) /\
  sublist (popped q.(log) ++ q.(handoff).(ready)) (numbered packets) /\ (length q.(handoff).(ready) <= CAPTURE_PCM_QUEUE_PACKETS)%nat /\
  zlen packets = zlen (popped q.(log)) + zlen q.(handoff).(ready) + lost q /\
  (exists sent, intact 0 (popped q.(log)) (sent ++ held q) /\ encoded q.(log) = (gate 0 sent).1 /\
     (lost q = 0 -> sent ++ held q = take (length (popped q.(log))) packets)) /\
  (q.(pc) = Parked -> q.(handoff).(ready) <> [] \/ q.(stop) = true -> q.(token) = true \/ q.(waking) = true) /\
  (q.(pc) = Done -> q.(handoff).(ready) = [] /\ lost q = told q.(log)).
Proof.
  intros Hfon Hdev Hplay Hcb Hstart Hroom Hsubs Hn Hrun.
  destruct (front_faithful fon_stereo Hfon rate channels Hdev stream m datas Hplay) as (s' & Hcb' & _). rewrite Hcb in Hcb'. injection Hcb' as Hp _.
  pose proof (start_inv_queue _ _ _ _ _ Hstart Hroom) as Hi. rewrite <- Hsubs in Hn.
  pose proof (run_steps _ _ evs [] q0 q Hn Hi Hrun) as [_ Hord Hcnt Hctr Hbuf _ (_ & _ & _ & W4) _ (sent & E1 & E2) Hdone]. cbn [app] in *.
  rewrite Hsubs in Hord, Hcnt, Hn. assert (Hint : intact 0 (popped q.(log)) (sent ++ held q)).
  { rewrite <- E1. apply (smooth_intact (popped q.(log)) (encoder_new _ _)). eapply (sublist_Forall _ _ (numbered packets)).
    - etransitivity; [|exact Hord]. by apply sublist_inserts_r.
    - eapply Forall_impl; [apply numbered_range|]. cbn. lia. }
  split; [exact Hp|]. split; [exact Hord|]. split; [lia|]. split; [exact Hcnt|]. split; [|split; [exact W4|]].
  - exists sent. split; [exact Hint|]. split; [by rewrite E2|]. intros Hl. apply intact_prefix.
    assert (Hall : popped q.(log) ++ q.(handoff).(ready) = numbered packets).
    { apply sublist_full; [exact Hord|]. unfold numbered. rewrite length_app, length_imap. lia. }
    by rewrite <- Hall, take_app_length.
  - intros Hd. destruct (Hdone Hd) as (_ & H1 & H2). done.
Qed.

(** Two packets of a recording of 170 samples in two callbacks; the second is lost to a lock. *)
Definition toy_fon (_ : nat) (_ : list f32) : list f32 := [fzero; fzero].
Definition toy_datas : list (list f32) := [replicate 50 fone; replicate 120 fzero].
Definition toy_play : CaptureStream * Z :=
  match play 8000 1 with Ok r => r | Err _ => (mkStream (mkFrameBuffer [] 0) (mkProcessor (mkProcessorConfig 0 0 0 0) None) true, 0) end.
Definition toy_packets : list (list f32) := [replicate 50 fone ++ replicate 30 fzero; replicate 80 fzero].
Definition toy_evs : list Event :=
  match toy_packets with
  | [p1; p2] => [Submit Free p1; Wake; Encoder false; Encoder false; Submit WouldBlock p2; Encoder false; Wake; Encoder false; Encoder false; Stop; Encoder false]
  | _ => []
  end.
Definition toy_start : option Capture := start_capture_encoder (encoder_rate 8000) 1 toy_play.2 10.

Lemma toy_outcome :
  match toy_start with
  | Some q0 => match run q0 toy_evs with
    | Some q => q.(pc) = Done /\ zlen (popped q.(log)) = 1 /\ encoded q.(log) = take 1 toy_packets
    | None => False
    end
  | None => False
  end.
Proof. vm_compute. by split_and!. Qed.

Lemma capture_faithful_witness :
  exists stream' q0 q, callbacks toy_fon toy_play.1 toy_datas = Some (toy_packets, stream') /\ toy_start = Some q0 /\ run q0 toy_evs = Some q /\
    q.(pc) = Done /\ lost q = 1 /\ told q.(log) = 1 /\ encoded q.(log) = take 1 toy_packets.
Proof.
  assert (Ec : exists stream', callbacks toy_fon toy_play.1 toy_datas = Some (toy_packets, stream')) by (eexists; by vm_compute).
  destruct Ec as [stream' Ec]. pose proof toy_outcome as Hq. destruct toy_start as [q0|] eqn:Es; [|destruct Hq].
  destruct (run q0 toy_evs) as [q|] eqn:Er; [|destruct Hq].
  destruct (capture_faithful toy_fon 8000 1 toy_play.2 toy_play.1 stream' toy_datas toy_packets 10 q0 q toy_evs)
    as (_ & _ & _ & Hc & _ & _ & Hd); [done|by split_and!|by vm_compute|exact Ec|exact Es|by apply le_n|by vm_compute|by vm_compute|exact Er|].
  destruct Hq as (H1 & H2 & H3). destruct (Hd H1) as [Hr Ht]. rewrite Hr, H2 in Hc. cbn [length] in Hc. change (zlen toy_packets) with 2 in Hc.
  exists stream', q0, q. split; [exact Ec|]. split; [reflexivity|]. split; [exact Er|]. split; [exact H1|]. split; [lia|]. split; [lia|exact H3].
Defined.

End CaptureTheorems.
