(* ===== verification/AudioPlay.v ===== *)
(** Playing sound on Windows and macOS: the buffer of decoded samples ([AudioBuffer] of
    [src/client.rs]) and the device's callback that empties it ([src/client/audio_playback.rs]).

    The ring buffer is the [ringbuf] crate's: a class with the laws it documents, and an instance. *)

From S2P Require Import Prelude Float.
Import F32.

(** ** The ring buffer *)

Class RingBuf := {
  ring : Type;
  ring_new : nat -> ring;
  capacity : ring -> nat;
  contents : ring -> list f32;
  push_slice_overwrite : list f32 -> ring -> ring;
  skip : nat -> ring -> ring;
  pop_slice : nat -> ring -> list f32 * ring }.

(** The oldest samples make room for new ones; [skip] and [pop_slice] remove from the front. *)
Class RingLaws (R : RingBuf) : Prop := {
  new_capacity n : capacity (ring_new n) = n;
  new_contents n : contents (ring_new n) = [];
  push_capacity xs r : capacity (push_slice_overwrite xs r) = capacity r;
  push_contents xs r : contents (push_slice_overwrite xs r) = drop (length (contents r ++ xs) - capacity r) (contents r ++ xs);
  skip_capacity n r : capacity (skip n r) = capacity r;
  skip_contents n r : contents (skip n r) = drop n (contents r);
  pop_capacity n r : capacity (pop_slice n r).2 = capacity r;
  pop_result n r : (pop_slice n r).1 = take n (contents r);
  pop_contents n r : contents (pop_slice n r).2 = drop n (contents r) }.

#[export] Instance list_ring : RingBuf := {|
  ring := nat * list f32;
  ring_new n := (n, []);
  capacity := fst;
  contents := snd;
  push_slice_overwrite xs r := (r.1, drop (length (r.2 ++ xs) - r.1) (r.2 ++ xs));
  skip n r := (r.1, drop n r.2);
  pop_slice n r := (take n r.2, (r.1, drop n r.2)) |}.
#[export] Instance list_ring_laws : RingLaws list_ring.
Proof. by split. Qed.

Module Playback.

Section Playback.
Context {R : RingBuf}.

(** ** The buffer *)

Definition AUDIO_BUFFER_MS : Z := 3000.

(** [generation] counts the discards, for the callback to see. *)
Record AudioBuffer := mkBuffer { pcm : ring; per_second : Z; levels : list Z; generation : Z }.

Definition buffer_default : AudioBuffer :=
  mkBuffer (ring_new (Z.to_nat (48000 * 2 * AUDIO_BUFFER_MS / 1000))) (48000 * 2) (replicate 30 0) 0.

Definition resize (sample_rate channels : Z) (b : AudioBuffer) : AudioBuffer :=
  let cap := sample_rate * channels * AUDIO_BUFFER_MS / 1000 in
  if cap =? Z.of_nat (capacity b.(pcm)) then b
  else mkBuffer (ring_new (Z.to_nat cap)) (sample_rate * channels) b.(levels) b.(generation).

Definition signal_discontinuity (b : AudioBuffer) : AudioBuffer := mkBuffer b.(pcm) b.(per_second) b.(levels) (wrap 64 (b.(generation) + 1)).

(** [append_pcm2]: the samples it then has. *)
Definition append_pcm2 (buffer : list f32) (b : AudioBuffer) : Z * AudioBuffer :=
  let having := zlen (contents b.(pcm)) + zlen buffer in
  let over := Z.of_nat (capacity b.(pcm)) <? having in
  let b := mkBuffer (push_slice_overwrite buffer b.(pcm)) b.(per_second) b.(levels) b.(generation) in
  let b := if over then signal_discontinuity b else b in
  (zlen (contents b.(pcm)), b).

(** The lowest levels never reached, and the level it is at most often; the levels are reset on
    the way. *)
Definition water_mark (levels : list Z) : list Z * Z * nat :=
  let '(levels, zero, max) := foldl (fun '(levels, zero, max) i =>
    let here := levels !!! i in
    let zero := if (here =? 0) && (zero =? Z.of_nat i) then zero + 1 else zero in
    if (levels !!! max : Z) <? here then (<[max := 0]> levels, zero, i) else (<[i := 0]> levels, zero, max)) (levels, 0, 0%nat) (seq 0 30) in
  (<[max := 0]> levels, zero * 2 / 3, max).

(** How much to drop, in [30 * N]ths of the capacity. *)
Definition N : Z := 4.
Definition to_drop (zero : Z) (max : nat) : Z := if Z.of_nat max <? 6 then 0 else Z.min (Z.of_nat max) (zero * N).

Definition with_levels (l : list Z) (b : AudioBuffer) : AudioBuffer := mkBuffer b.(pcm) b.(per_second) l b.(generation).

(** [try_shrink]; [tms], a static of the process, is when it last looked. *)
Definition try_shrink (dt having : Z) (b : AudioBuffer) (tms : Z) : AudioBuffer * Z :=
  let i := Z.to_nat (Z.min (having * 10 / b.(per_second)) 29) in
  let b := with_levels (alter (fun n => n + 1) i b.(levels)) b in
  if tms =? 0 then (b, dt)
  else if dt <? tms + 12000 then (b, tms)
  else
    let '(lv, zero, max) := water_mark b.(levels) in
    let max := to_drop zero max in
    let b := with_levels lv b in
    let cap := Z.of_nat (capacity b.(pcm)) in
    let having := zlen (contents b.(pcm)) in
    let n := Z.ldiff (cap * max / (30 * N) + 1) 1 in
    if (n * 3 <? having) && (0 <? n) then
      (signal_discontinuity (mkBuffer (skip (Z.to_nat n) b.(pcm)) b.(per_second) b.(levels) b.(generation)), dt)
    else (b, dt).

(** ** From underrun to sound and back *)

Definition UNDERRUN_DECLICK_MS : Z := 5.
Definition MILLISECONDS_PER_SECOND : Z := 1000.

Record AudioPlaybackRecovery := mkRecovery {
  channels : nat;
  transition_frames : Z;
  transition_frame : Z;
  had_input : bool;
  transition_start : list f32;
  output_frame : list f32 }.

Inductive AudioPlaybackError := InvalidConfig (sample_rate channels : Z) | IncompleteFrame (samples channels : nat) | FrameCountOverflow.

Definition recovery_new (sample_rate channels : Z) : result AudioPlaybackRecovery AudioPlaybackError :=
  if (sample_rate =? 0) || (channels =? 0) then Err (InvalidConfig sample_rate channels)
  else if usize_max <? sample_rate * UNDERRUN_DECLICK_MS then Err FrameCountOverflow
  else
    let frames := sample_rate * UNDERRUN_DECLICK_MS / MILLISECONDS_PER_SECOND in
    if frames =? 0 then Err (InvalidConfig sample_rate channels)
    else let zeros := replicate (Z.to_nat channels) fzero in Ok (mkRecovery (Z.to_nat channels) frames frames false zeros zeros).

Definition begin_discontinuity (r : AudioPlaybackRecovery) : AudioPlaybackRecovery :=
  mkRecovery r.(channels) r.(transition_frames) 0 r.(had_input) r.(output_frame) r.(output_frame).

Definition begin_transition (has_input : bool) (r : AudioPlaybackRecovery) : AudioPlaybackRecovery :=
  if eqb has_input r.(had_input) then r
  else mkRecovery r.(channels) r.(transition_frames) 0 has_input r.(output_frame) r.(output_frame).

Definition advance_transition (r : AudioPlaybackRecovery) : f32 * AudioPlaybackRecovery :=
  if r.(transition_frames) <=? r.(transition_frame) then (fone, r)
  else
    let k := r.(transition_frame) + 1 in
    (fdiv (of_Z k) (of_Z r.(transition_frames)),
     mkRecovery r.(channels) r.(transition_frames) k r.(had_input) r.(transition_start) r.(output_frame)).

(** One sample of a transition. *)
Definition mix (weight start target : f32) : f32 := fadd (fmul start (fsub fone weight)) (fmul target weight).

Definition process_frame (input : option (list f32)) (r : AudioPlaybackRecovery) : result (list f32) AudioPlaybackError * AudioPlaybackRecovery :=
  match input with
  | Some frame =>
    if decide (length frame = r.(channels)) then
      let '(weight, r) := advance_transition (begin_transition true r) in
      let out := zip_with (mix weight) r.(transition_start) frame in
      (Ok out, mkRecovery r.(channels) r.(transition_frames) r.(transition_frame) r.(had_input) r.(transition_start) out)
    else (Err (IncompleteFrame (length frame) r.(channels)), r)
  | None =>
    let '(weight, r) := advance_transition (begin_transition false r) in
    let out := (fun start => mix weight start fzero) <$> r.(transition_start) in
    (Ok out, mkRecovery r.(channels) r.(transition_frames) r.(transition_frame) r.(had_input) r.(transition_start) out)
  end.

(** ** The device's callback *)

Record AudioPlaybackWriter := mkWriter {
  observed : Z;
  room : nat; (* the length of [buffered_input] *)
  recovery : AudioPlaybackRecovery;
  is_ready : bool;
  contentions : Z;
  poisoned : bool;
  buffer_failed : bool }.

Definition writer_new (sample_rate channels : Z) (b : AudioBuffer) : result AudioPlaybackWriter AudioPlaybackError :=
  rbind (recovery_new sample_rate channels) (fun r => Ok (mkWriter b.(generation) (capacity b.(pcm)) r false 0 false false)).

Inductive TryLock := Free | WouldBlock | Poisoned.

(** [read_buffer]: the samples it takes. *)
Definition read_buffer (lock : TryLock) (requested : nat) (w : AudioPlaybackWriter) (b : AudioBuffer) : list f32 * AudioPlaybackWriter * AudioBuffer :=
  if w.(buffer_failed) then ([], w, b)
  else
    match lock with
    | WouldBlock => ([], mkWriter w.(observed) w.(room) w.(recovery) w.(is_ready) (wrap 64 (w.(contentions) + 1)) w.(poisoned) false, b)
    | Poisoned => ([], mkWriter w.(observed) w.(room) w.(recovery) false w.(contentions) true true, b)
    | Free =>
      let ch := w.(recovery).(channels) in
      let samples := (Nat.min (length (contents b.(pcm))) requested / ch * ch)%nat in
      let '(taken, p) := pop_slice samples b.(pcm) in
      let b := mkBuffer p b.(per_second) b.(levels) b.(generation) in
      if b.(generation) =? w.(observed) then (taken, w, b)
      else (taken, mkWriter b.(generation) w.(room) (begin_discontinuity w.(recovery)) w.(is_ready) w.(contentions) w.(poisoned) false, b)
    end.

Definition with_recovery (r : AudioPlaybackRecovery) (w : AudioPlaybackWriter) : AudioPlaybackWriter :=
  mkWriter w.(observed) w.(room) r w.(is_ready) w.(contentions) w.(poisoned) w.(buffer_failed).

(** The frames of one call: as many as it asks for, from the samples while they last; [n] is the
    length of the last one, which may be shorter. *)
Fixpoint write_frames (frames : nat) (taken : list f32) (r : AudioPlaybackRecovery) : list (list f32) * AudioPlaybackRecovery :=
  match frames with
  | O => ([], r)
  | S frames =>
    let ch := r.(channels) in
    let input := if (ch <=? length taken)%nat then Some (take ch taken) else None in
    let '(res, r) := process_frame input r in
    let out := match res with Ok out => out | Err _ => replicate ch fzero end in
    let '(rest, r) := write_frames frames (drop ch taken) r in
    (out :: rest, r)
  end.

(** [write_output] for [len] samples. *)
Definition write_output (lock : TryLock) (len : nat) (w : AudioPlaybackWriter) (b : AudioBuffer) : list f32 * list f32 * AudioPlaybackWriter * AudioBuffer :=
  let w := mkWriter w.(observed) w.(room) w.(recovery) (negb w.(buffer_failed)) w.(contentions) w.(poisoned) w.(buffer_failed) in
  let requested := Nat.min len w.(room) in
  let '(taken, w, b) := read_buffer lock requested w b in
  let ch := w.(recovery).(channels) in
  let '(frames, r) := write_frames ((len + ch - 1) / ch) taken w.(recovery) in
  (taken, take len (concat frames), with_recovery r w, b).

End Playback.

End Playback.

(** ** What is heard *)
Module PlaybackFacts.
Import Playback.

Section Facts.
Context {R : RingBuf} {RL : RingLaws R}.

(** The decoder's thread and the device's callback.  Appending takes the lock twice, and the
    callback may come in between: [Push] and [Shrink] are its halves, [having] is what the first
    tells the second.  What the second does before it takes the lock concerns the decoder's thread
    alone. *)
Record State := mkState { buffer : AudioBuffer; tms : Z; having : Z; writer : AudioPlaybackWriter }.
Inductive Event := Push (xs : list f32) | Shrink (dt : Z) | Callback (lock : TryLock) (len : nat).

Definition append_pcm (dt : Z) (xs : list f32) : list Event := [Push xs; Shrink dt].

(** What a call was asked for, what it took, whether samples were missing before, and what it put out. *)
Record Call := mkCall { asked : nat; taken : list f32; fresh : bool; out : list f32 }.

Definition step (s : State) (ev : Event) : State * list Call :=
  match ev with
  | Push xs => let '(n, b) := append_pcm2 xs s.(buffer) in (mkState b s.(tms) n s.(writer), [])
  | Shrink dt => let '(b, t) := try_shrink dt s.(having) s.(buffer) s.(tms) in (mkState b t s.(having) s.(writer), [])
  | Callback lock len =>
    let '(xs, out, w, b) := write_output lock len s.(writer) s.(buffer) in
    (mkState b s.(tms) s.(having) w, [mkCall len xs (negb (w.(observed) =? s.(writer).(observed))) out])
  end.
Fixpoint run (s : State) (evs : list Event) : State * list Call :=
  match evs with
  | [] => (s, [])
  | ev :: evs => let '(s, calls) := step s ev in let '(s, rest) := run s evs in (s, calls ++ rest)
  end.
Definition appended (evs : list Event) : list f32 := concat (omap (fun e => match e with Push xs => Some xs | _ => None end) evs).
Definition whole (ch : nat) (ev : Event) : Prop := match ev with Push xs => Nat.divide ch (length xs) | _ => True end.

(** *** What the calls take

    Each takes whole frames, at a frame boundary and no more than it was asked for, of what comes
    next, or, exactly when it is [fresh], of what comes after a gap. *)
Inductive takes (A : list f32) (ch : nat) : nat -> list Call -> nat -> Prop :=
| takes_nil e : takes A ch e [] e
| takes_call e c pos rest e2 :
    (e <= pos)%nat -> (c.(fresh) = true <-> (e < pos)%nat) -> Nat.divide ch pos -> Nat.divide ch (length c.(taken)) ->
    (length c.(taken) <= c.(asked))%nat -> (pos + length c.(taken) <= length A)%nat ->
    c.(taken) = take (length c.(taken)) (drop pos A) ->
    takes A ch (pos + length c.(taken)) rest e2 -> takes A ch e (c :: rest) e2.

Lemma takes_more A B ch e l e' : takes A ch e l e' -> takes (A ++ B) ch e l e'.
Proof.
  induction 1 as [|e c pos rest e2 H1 H2 H3 H4 H5 H6 H7 _ IH]; [constructor|].
  econstructor; try done; [rewrite length_app; lia|]. rewrite drop_app_le by lia. rewrite take_app_le; [done|]. rewrite length_drop. lia.
Qed.

Lemma takes_app A ch e l e1 l' e2 : takes A ch e l e1 -> takes A ch e1 l' e2 -> takes A ch e (l ++ l') e2.
Proof. induction 1 as [|e c pos rest e3 H1 H2 H3 H4 H5 H6 H7 _ IH]; intros Hl; [done|]. econstructor; eauto. Qed.

(** *** What is heard

    The frames put out one after the other, from the inputs (frames of the recording, or none) and
    the places [cuts] before which samples were missing.  A transition begins at a cut and where
    the sound stops or starts again; [tf] frames long, it fades from the last frame before it. *)
Section Heard.
Context (ch : nat) (tf : Z).

Definition silence : list f32 := replicate ch fzero.
Definition blend (weight start target : f32) : f32 := fadd (fmul start (fsub fone weight)) (fmul target weight).

Section Inputs.
Context (ins : list (option (list f32))) (cuts : list nat).

(** Whether there is sound before the frame [i]. *)
Definition sounding (i : nat) : bool := match i with O => false | S j => match ins !! j with Some (Some _) => true | _ => false end end.
Definition begins (i : nat) : bool := bool_decide (i ∈ cuts) || negb (eqb (sounding (S i)) (sounding i)).
Fixpoint since (i : nat) : option nat := if begins i then Some i else match i with O => None | S j => since j end.
End Inputs.

Definition before (outs : list (list f32)) (i : nat) : list f32 := match i with O => silence | S j => default silence (outs !! j) end.
Definition weight (k : nat) : f32 := if Z.of_nat k <=? tf then fdiv (of_Z (Z.of_nat k)) (of_Z tf) else fone.

Definition heard_frame (ins : list (option (list f32))) (cuts : list nat) (outs : list (list f32)) (i : nat) (x : option (list f32)) : list f32 :=
  let '(w, start) := match since ins cuts i with Some s => (weight (S (i - s)), before outs s) | None => (fone, silence) end in
  zip_with (blend w) start (default silence x).

Definition heard (ins : list (option (list f32))) (cuts : list nat) (outs : list (list f32)) : Prop :=
  length outs = length ins /\ forall i x, ins !! i = Some x -> outs !! i = Some (heard_frame ins cuts outs i x).

(** The frames of a call, and where the cuts of the calls are. *)
Definition frames_of (c : Call) : nat := ((c.(asked) + ch - 1) / ch)%nat.
Fixpoint inputs_of (frames : nat) (xs : list f32) : list (option (list f32)) :=
  match frames with
  | O => []
  | S frames => (if (ch <=? length xs)%nat then Some (take ch xs) else None) :: inputs_of frames (drop ch xs)
  end.
Definition inputs (c : Call) : list (option (list f32)) := inputs_of (frames_of c) c.(taken).
Fixpoint cuts_from (n : nat) (calls : list Call) : list nat :=
  match calls with
  | [] => []
  | c :: calls => (if c.(fresh) then [n] else []) ++ cuts_from (n + frames_of c) calls
  end.

(** *** The recovery puts out what is to be heard *)

Lemma since_le ins cuts i k : since ins cuts i = Some k -> (k <= i)%nat.
Proof. induction i as [|i IH]; cbn [since]; destruct (begins _ _ _); try congruence; intros H; simplify_eq; try lia. apply IH in H. lia. Qed.

Lemma since_ext ins cuts ins' cuts' i : (forall j, (j <= i)%nat -> begins ins' cuts' j = begins ins cuts j) -> since ins' cuts' i = since ins cuts i.
Proof. induction i as [|i IH]; intros H; cbn [since]; rewrite H by lia; [done|]. destruct (begins _ _ _); [done|]. apply IH. intros j Hj. apply H. lia. Qed.

Lemma sounding_input ins x i : (i <= length ins)%nat -> sounding (ins ++ [x]) i = sounding ins i.
Proof. intros H. destruct i as [|i]; [done|]. cbn. by rewrite lookup_app_l by lia. Qed.

Lemma begins_input ins cuts x i : (i < length ins)%nat -> begins (ins ++ [x]) cuts i = begins ins cuts i.
Proof. intros H. unfold begins. by rewrite !sounding_input by lia. Qed.

Lemma begins_cut ins cuts i : (i < length ins)%nat -> begins ins (cuts ++ [length ins]) i = begins ins cuts i.
Proof.
  intros H. unfold begins. f_equal. apply bool_decide_ext. rewrite elem_of_app, list_elem_of_singleton. split; [|by left]. intros [?|?]; [done|lia].
Qed.

Lemma before_app outs o i : (i <= length outs)%nat -> before (outs ++ [o]) i = before outs i.
Proof. intros H. destruct i as [|i]; [done|]. cbn. by rewrite lookup_app_l by lia. Qed.

(** What was heard is not changed by what comes later. *)
Lemma heard_frame_ext ins cuts outs ins' cuts' outs' i x :
  (forall j, (j <= i)%nat -> begins ins' cuts' j = begins ins cuts j) -> (forall j, (j <= i)%nat -> before outs' j = before outs j) ->
  heard_frame ins' cuts' outs' i x = heard_frame ins cuts outs i x.
Proof.
  intros Hb Ho. unfold heard_frame. rewrite (since_ext _ _ _ _ _ Hb). destruct (since ins cuts i) as [k|] eqn:E; [|done].
  apply since_le in E. by rewrite Ho.
Qed.

Record tracks (ins : list (option (list f32))) (cuts : list nat) (outs : list (list f32)) (r : AudioPlaybackRecovery) : Prop := mkTracks {
  tr_heard : heard ins cuts outs;
  tr_cuts : Forall (fun i => (i <= length ins)%nat) cuts;
  tr_outs : Forall (fun o => length o = ch) outs;
  tr_config : r.(channels) = ch /\ r.(transition_frames) = tf;
  tr_had : r.(had_input) = sounding ins (length ins);
  tr_out : r.(output_frame) = before outs (length outs);
  tr_state :
    if bool_decide (length ins ∈ cuts) then r.(transition_frame) = 0 /\ r.(transition_start) = before outs (length outs)
    else match (match length ins with O => None | S m => since ins cuts m end) with
    | None => r.(transition_frame) = tf /\ r.(transition_start) = silence
    | Some k => r.(transition_frame) = Z.min tf (Z.of_nat (length ins - k)) /\ r.(transition_start) = before outs k
    end }.

Lemma before_length outs i : Forall (fun o => length o = ch) outs -> length (before outs i) = ch.
Proof.
  intros H. destruct i as [|i]; [apply length_replicate|]. cbn. destruct (outs !! i) as [o|] eqn:E; [|apply length_replicate]. by eapply (Forall_lookup_1 _ _ _ _ H E).
Qed.

Lemma tracks_cut ins cuts outs r : tracks ins cuts outs r -> tracks ins (cuts ++ [length ins]) outs (begin_discontinuity r).
Proof.
  intros [[H1 H1'] H2 H3 H4 H5 H6 H7]. split; try done.
  - split; [done|]. intros i x Hx. rewrite (H1' i x Hx). f_equal. symmetry. apply heard_frame_ext; [|done].
    intros j Hj. apply begins_cut. apply lookup_lt_Some in Hx. lia.
  - apply Forall_app. split; [done|]. by apply Forall_singleton.
  - rewrite bool_decide_eq_true_2 by (apply elem_of_app; right; by left). cbn. by rewrite H6.
Qed.

(** After the beginning of a transition, if there is one: where the weight stands. *)
Lemma transition_state ins cuts outs r x : 0 < tf -> tracks ins cuts outs r -> let b := begin_transition (bool_decide (is_Some x)) r in
  b.(channels) = ch /\ b.(transition_frames) = tf /\ b.(had_input) = bool_decide (is_Some x) /\ b.(output_frame) = r.(output_frame) /\
  match since (ins ++ [x]) cuts (length ins) with
  | None => b.(transition_frame) = tf /\ b.(transition_start) = silence
  | Some k => b.(transition_frame) = Z.min tf (Z.of_nat (length ins - k)) /\ b.(transition_start) = before outs k
  end.
Proof.
  intros Htf [[H1 _] H2 H3 [H4 H4'] H5 H6 H7] b.
  assert (Hn : sounding (ins ++ [x]) (S (length ins)) = bool_decide (is_Some x)).
  { cbn. rewrite list_lookup_middle by done. destruct x; [by rewrite bool_decide_eq_true_2|]. by rewrite bool_decide_eq_false_2 by (by intros [? ?]). }
  assert (Hb : begins (ins ++ [x]) cuts (length ins) = bool_decide (length ins ∈ cuts) || negb (eqb (bool_decide (is_Some x)) r.(had_input))).
  { unfold begins. by rewrite Hn, sounding_input, H5 by lia. }
  assert (Hold : forall m, length ins = S m -> since (ins ++ [x]) cuts m = since ins cuts m).
  { intros m Hm. apply since_ext. intros j Hj. apply begins_input. lia. }
  subst b. unfold begin_transition. destruct (eqb (bool_decide (is_Some x)) (had_input r)) eqn:Ek.
  - apply eqb_prop in Ek. split_and!; try done. rewrite orb_false_r in Hb.
    destruct (length ins) as [|m] eqn:En; cbn [since]; rewrite Hb; destruct (bool_decide _); try done.
    + destruct H7 as [-> ->]. rewrite H1. split; [lia|done].
    + destruct H7 as [-> ->]. rewrite H1. rewrite Nat.sub_diag. split; [lia|done].
    + rewrite Hold by done. exact H7.
  - split_and!; try done. cbn [transition_frame transition_start]. rewrite orb_true_r in Hb. rewrite H6, H1.
    destruct (length ins) as [|m] eqn:En; cbn [since]; rewrite Hb; (split; [lia|done]).
Qed.

Lemma advance_state b k : 0 < tf -> b.(transition_frames) = tf -> b.(transition_frame) = Z.min tf (Z.of_nat k) ->
  (advance_transition b).1 = weight (S k) /\ (advance_transition b).2.(transition_frame) = Z.min tf (Z.of_nat (S k)).
Proof.
  intros Htf Hf Hk. unfold advance_transition, weight. rewrite Hf, Hk. destruct (Z.leb_spec tf (Z.min tf (Z.of_nat k))) as [H|H].
  - rewrite (proj2 (Z.leb_gt _ _)) by lia. cbn [fst snd]. rewrite Hk. split; [done|lia].
  - rewrite (proj2 (Z.leb_le _ _)) by lia. cbn [fst snd transition_frame]. replace (Z.min tf (Z.of_nat k) + 1) with (Z.of_nat (S k)) by lia. split; [done|lia].
Qed.

Lemma advance_fields b : let b' := (advance_transition b).2 in b'.(channels) = b.(channels) /\ b'.(transition_frames) = b.(transition_frames) /\
  b'.(had_input) = b.(had_input) /\ b'.(transition_start) = b.(transition_start) /\ b'.(output_frame) = b.(output_frame).
Proof. unfold advance_transition. by destruct (_ <=? _). Qed.

(** One frame, at what the beginning of its transition makes of the recovery. *)
Lemma process_frame_eq x r : (forall f, x = Some f -> length f = ch) -> r.(channels) = ch -> length r.(transition_start) = ch -> length r.(output_frame) = ch ->
  let b := begin_transition (bool_decide (is_Some x)) r in let a := advance_transition b in
  let o := zip_with (blend a.1) a.2.(transition_start) (default silence x) in
  process_frame x r = (Ok o, mkRecovery a.2.(channels) a.2.(transition_frames) a.2.(transition_frame) a.2.(had_input) a.2.(transition_start) o).
Proof.
  intros Hx Hc Hs Ho b a o. assert (Hl : length a.2.(transition_start) = ch).
  { destruct (advance_fields b) as (_ & _ & _ & E & _). fold a in E. rewrite E. unfold b, begin_transition. by destruct (eqb _ _). }
  unfold process_frame. destruct x as [f|].
  - rewrite decide_True by (rewrite Hc; by apply Hx). change (begin_transition true r) with b. fold a.
    destruct a as [w a2] eqn:Ea. subst o. cbn [fst snd default]. done.
  - change (begin_transition false r) with b. fold a. destruct a as [w a2] eqn:Ea. subst o. cbn [fst snd default] in *.
    assert (E : zip_with (blend w) (transition_start a2) silence = (fun start => mix w start fzero) <$> transition_start a2).
    { unfold silence. rewrite <- Hl. generalize (transition_start a2). intros l. induction l as [|y l IH]; [done|]. cbn. by f_equal. }
    by rewrite E.
Qed.

Lemma tracks_frame ins cuts outs r x : 0 < tf -> tracks ins cuts outs r -> (forall f, x = Some f -> length f = ch) ->
  exists o r', process_frame x r = (Ok o, r') /\ tracks (ins ++ [x]) cuts (outs ++ [o]) r'.
Proof.
  intros Htf Ht Hx. pose proof (transition_state ins cuts outs r x Htf Ht) as (B1 & B2 & B3 & B4 & B5).
  set (b := begin_transition (bool_decide (is_Some x)) r) in *. pose proof Ht as [[H1 H1'] H2 H3 [H4 H4'] H5 H6 H7].
  assert (Hlen : length r.(transition_start) = ch /\ length r.(output_frame) = ch).
  { rewrite H6. split; [|by apply before_length]. destruct (bool_decide (length ins ∈ cuts)); [destruct H7 as [_ ->]; by apply before_length|].
    destruct (match length ins with O => None | S m => since ins cuts m end); destruct H7 as [_ ->]; [by apply before_length|apply length_replicate]. }
  pose proof (process_frame_eq x r Hx H4 (proj1 Hlen) (proj2 Hlen)) as Hp. cbv zeta in Hp. fold b in Hp. set (a := advance_transition b) in *.
  destruct (advance_fields b) as (A1 & A2 & A3 & A4 & A5). fold a in A1, A2, A3, A4, A5. set (o := zip_with _ _ _) in Hp. eexists o, _. split; [exact Hp|].
  (* the frame, and the transition after it *)
  assert (Ho : o = heard_frame (ins ++ [x]) cuts outs (length ins) x /\
    match since (ins ++ [x]) cuts (length ins) with
    | None => a.2.(transition_frame) = tf
    | Some k => a.2.(transition_frame) = Z.min tf (Z.of_nat (S (length ins) - k))
    end).
  { unfold o, heard_frame. rewrite A4. destruct (since (ins ++ [x]) cuts (length ins)) as [k|] eqn:Es.
    - destruct B5 as [B5 ->]. destruct (advance_state b _ Htf B2 B5) as [E1 E2]. fold a in E1, E2. rewrite E1. apply since_le in Es.
      replace (S (length ins) - k)%nat with (S (length ins - k)) by lia. done.
    - destruct B5 as [B5 ->]. unfold a, advance_transition. rewrite B2, B5, Z.leb_refl. cbn. by rewrite B5. }
  destruct Ho as [Ho Hst]. assert (Hlo : length o = ch).
  { unfold o. rewrite length_zip_with, A4. assert (Hd : length (default silence x) = ch) by (destruct x; [by apply Hx|apply length_replicate]).
    destruct (since (ins ++ [x]) cuts (length ins)) as [k|]; destruct B5 as [_ ->]; rewrite Hd, ?before_length by done; [lia|]. unfold silence. rewrite length_replicate. lia. }
  clearbody o. split; cbn [channels transition_frames transition_frame had_input transition_start output_frame].
  - split; [rewrite !length_app; cbn; lia|]. intros i y Hy. destruct (decide (i = length ins)) as [->|Hi].
    + rewrite list_lookup_middle in Hy by done. injection Hy as <-. rewrite <- H1, list_lookup_middle by done. f_equal. rewrite Ho, H1.
      symmetry. apply heard_frame_ext; [done|]. intros j Hj. apply before_app. lia.
    + assert (Hlt : (i < length ins)%nat) by (apply lookup_lt_Some in Hy; rewrite length_app in Hy; cbn in Hy; lia).
      rewrite lookup_app_l in Hy by lia. rewrite lookup_app_l by lia. rewrite (H1' i y Hy). f_equal. symmetry. apply heard_frame_ext.
      * intros j Hj. apply begins_input. lia.
      * intros j Hj. apply before_app. lia.
  - eapply Forall_impl; [exact H2|]. cbn. intros j Hj. rewrite length_app. lia.
  - apply Forall_app. split; [done|]. by apply Forall_singleton.
  - by rewrite A1, A2.
  - rewrite A3, B3, length_app, Nat.add_comm. cbn. rewrite list_lookup_middle by done.
    destruct x; [by rewrite bool_decide_eq_true_2|]. by rewrite bool_decide_eq_false_2 by (by intros [? ?]).
  - rewrite length_app, Nat.add_comm. cbn. by rewrite list_lookup_middle.
  - rewrite length_app, Nat.add_comm. cbn [length Nat.add]. rewrite bool_decide_eq_false_2.
    2:{ intros Hin. apply (proj1 (Forall_forall _ _) H2) in Hin. lia. }
    rewrite A4. destruct (since (ins ++ [x]) cuts (length ins)) as [k|] eqn:Es; [|split; [exact Hst|apply B5]].
    split; [exact Hst|]. destruct B5 as [_ ->]. symmetry. apply before_app. apply since_le in Es. lia.
Qed.

Lemma tracks_frames n : forall ins cuts outs r xs, 0 < tf -> tracks ins cuts outs r ->
  let '(frames, r') := write_frames n xs r in tracks (ins ++ inputs_of n xs) cuts (outs ++ frames) r'.
Proof.
  induction n as [|n IH]; intros ins cuts outs r xs Htf Ht; cbn [write_frames inputs_of]; [by rewrite !app_nil_r|].
  destruct (tr_config _ _ _ _ Ht) as [Hc _]. rewrite Hc. set (x := if (ch <=? length xs)%nat then Some (take ch xs) else None).
  destruct (tracks_frame ins cuts outs r x Htf Ht) as (o & r1 & Hp & Ht1).
  { intros f. unfold x. destruct (Nat.leb_spec ch (length xs)); [|done]. intros [= <-]. rewrite length_take. lia. }
  rewrite Hp. specialize (IH _ _ _ r1 (drop ch xs) Htf Ht1). destruct (write_frames n (drop ch xs) r1) as [rest r2].
  by rewrite <- !app_assoc in IH.
Qed.
End Heard.

(** *** The buffer *)

Section Device.
Context (ch : nat).

(** [c], what the buffer holds, is the end of what was appended; [e] is where the callback stands,
    and the generations tell whether there is a gap. *)
Record holds (A : list f32) (e : nat) (seen : Z) (c : list f32) (g : Z) : Prop := mkHolds {
  h_end : c = drop (length A - length c) A;
  h_le : (length c <= length A)%nat;
  h_pos : (e <= length A - length c)%nat;
  h_gap : g = seen <-> e = (length A - length c)%nat;
  h_seen : 0 <= seen <= g;
  h_whole : Nat.divide ch (length A) /\ Nat.divide ch (length c) }.

Lemma holds_push A e seen c g xs : holds A e seen c g -> Nat.divide ch (length xs) -> holds (A ++ xs) e seen (c ++ xs) g.
Proof using.
  intros [H1 H2 H3 H4 H5 [H6 H7]] Hx. assert (Hd : (length (A ++ xs) - length (c ++ xs) = length A - length c)%nat) by (rewrite !length_app; lia).
  split; rewrite ?Hd; try done.
  - rewrite drop_app_le by lia. by rewrite <- H1.
  - rewrite !length_app. lia.
  - rewrite !length_app. split; by apply Nat.divide_add_r.
Qed.

Lemma holds_drop A e seen c g n : holds A e seen c g -> (0 < n <= length c)%nat -> Nat.divide ch n -> holds A e seen (drop n c) (g + 1).
Proof using.
  intros [H1 H2 H3 H4 H5 [H6 H7]] Hn Hd. assert (Hl : length (drop n c) = (length c - n)%nat) by apply length_drop.
  split; rewrite ?Hl; try lia.
  - rewrite H1 at 1. rewrite drop_drop. f_equal. lia.
  - split; [done|]. by apply Nat.divide_sub_r.
Qed.

(** A call takes from the front; afterwards there is no gap. *)
Lemma holds_take A e seen c g n : holds A e seen c g -> (n <= length c)%nat -> Nat.divide ch n ->
  holds A (length A - length c + n) g (drop n c) g.
Proof using.
  intros [H1 H2 H3 H4 H5 [H6 H7]] Hn Hd. assert (Hl : length (drop n c) = (length c - n)%nat) by apply length_drop.
  split; rewrite ?Hl; try lia.
  - rewrite H1 at 1. rewrite drop_drop. f_equal. lia.
  - split; [done|]. by apply Nat.divide_sub_r.
Qed.

(** *** Appending *)

(** The buffer between two operations, after [n] discards at most. *)
Definition buffer_ok (A : list f32) (e : nat) (seen : Z) (n : Z) (b : AudioBuffer) : Prop :=
  holds A e seen (contents b.(pcm)) b.(generation) /\ Nat.divide ch (capacity b.(pcm)) /\ b.(generation) <= n.

Lemma append2_ok A e seen n b xs : buffer_ok A e seen n b -> Nat.divide ch (length xs) -> n + 1 < 2 ^ 64 ->
  buffer_ok (A ++ xs) e seen (n + 1) (append_pcm2 xs b).2.
Proof using RL.
  intros (Hh & Hc & Hn) Hx Hb. pose proof (holds_push _ _ _ _ _ _ Hh Hx) as Hp. pose proof (h_seen _ _ _ _ _ Hh) as Hs.
  unfold append_pcm2. cbn [snd]. destruct (Z.ltb_spec (Z.of_nat (capacity b.(pcm))) (zlen (contents b.(pcm)) + zlen xs)) as [Hov|Hov].
  - unfold signal_discontinuity, buffer_ok. cbn. rewrite wrap_small by (unfold in_u; lia). rewrite push_capacity, push_contents.
    split; [|split; [done|lia]]. apply holds_drop; [done|rewrite !length_app in *; lia|]. apply Nat.divide_sub_r; [|done].
    apply (h_whole _ _ _ _ _ Hp).
  - unfold buffer_ok. cbn. rewrite push_capacity, push_contents. replace (length (contents (pcm b) ++ xs) - capacity (pcm b))%nat with 0%nat by (rewrite length_app; lia).
    split; [done|]. split; [done|lia].
Qed.

Hypothesis Hch : ch = 1%nat \/ ch = 2%nat.

(** [& !1] keeps the frames of a stereo device together. *)
Lemma even_whole z : Nat.divide ch (Z.to_nat (Z.ldiff z 1)).
Proof using Hch.
  assert (He : exists k, Z.ldiff z 1 = 2 * k).
  { exists (z / 2). change (Z.ldiff z (Z.ones 1) = 2 * (z / 2)). rewrite Z.ldiff_ones_r, Z.shiftl_mul_pow2, Z.shiftr_div_pow2 by lia. apply Z.mul_comm. }
  destruct He as [k ->]. destruct Hch as [-> | ->]; [apply Nat.divide_1_l|]. exists (Z.to_nat k). lia.
Qed.

Lemma shrink_ok A e seen n b dt having t : buffer_ok A e seen n b -> n + 1 < 2 ^ 64 -> buffer_ok A e seen (n + 1) (try_shrink dt having b t).1.
Proof using RL Hch.
  intros (Hh & Hc & Hn) Hb. pose proof (h_seen _ _ _ _ _ Hh) as Hs. assert (Hkeep : forall l, buffer_ok A e seen (n + 1) (with_levels l b)) by (intros l; split; [done|split; [done|cbn; lia]]).
  unfold try_shrink. destruct (t =? 0); [apply Hkeep|]. destruct (dt <? t + 12000); [apply Hkeep|]. cbn [levels with_levels].
  destruct (water_mark _) as [[lv zero] max]. cbn [pcm with_levels]. set (d := Z.ldiff _ 1). destruct (_ && _) eqn:Hd; [|apply Hkeep]. bool_to_prop.
  unfold signal_discontinuity, buffer_ok. cbn. rewrite wrap_small by (unfold in_u; lia). rewrite skip_capacity, skip_contents.
  split; [|split; [done|lia]]. apply holds_drop; [done|lia|apply even_whole].
Qed.

(** *** The callback *)

Lemma process_frame_channels input r : (process_frame input r).2.(channels) = r.(channels).
Proof using.
  destruct r as [c tf t hi ts o]. unfold process_frame, begin_transition, advance_transition. destruct input as [f|]; cbn; repeat (case_match; cbn; simplify_eq/=; try done).
Qed.

Lemma write_frames_spec n : forall xs r, length (write_frames n xs r).1 = n /\ (write_frames n xs r).2.(channels) = r.(channels).
Proof using.
  induction n as [|n IH]; intros xs r; [done|]. cbn [write_frames]. set (input := if _ : bool then _ else _).
  pose proof (process_frame_channels input r) as Hp. destruct (process_frame input r) as [res r1].
  destruct (IH (drop (channels r) xs) r1) as [Hl Hi]. destruct (write_frames n _ r1) as [rest r2]. cbn in *. split; congruence.
Qed.

Definition state_ok (A : list f32) (e : nat) (n : Z) (s : State) : Prop :=
  buffer_ok A e s.(writer).(observed) n s.(buffer) /\ s.(writer).(recovery).(channels) = ch /\ Nat.divide ch e.

(** What the callback takes, from where, and whether after a gap. *)
Lemma read_ok A e n s lock requested : state_ok A e n s ->
  let '(xs, w, b) := read_buffer lock requested s.(writer) s.(buffer) in
  exists pos, (e <= pos)%nat /\ (negb (w.(observed) =? s.(writer).(observed)) = true <-> (e < pos)%nat) /\ Nat.divide ch pos /\
    Nat.divide ch (length xs) /\ (length xs <= requested)%nat /\ (pos + length xs <= length A)%nat /\ xs = take (length xs) (drop pos A) /\
    w.(recovery) = (if negb (w.(observed) =? s.(writer).(observed)) then begin_discontinuity s.(writer).(recovery) else s.(writer).(recovery)) /\
    buffer_ok A (pos + length xs) w.(observed) n b.
Proof using RL Hch.
  intros (Hb & Hr & He). pose proof Hb as (Hh & Hcap & Hn). pose proof Hh as [H1 H2 H3 H4 H5 [H6 H7]].
  assert (Hidle : exists pos, (e <= pos)%nat /\ (negb (s.(writer).(observed) =? s.(writer).(observed)) = true <-> (e < pos)%nat) /\ Nat.divide ch pos /\
    Nat.divide ch (length (@nil f32)) /\ (length (@nil f32) <= requested)%nat /\ (pos + length (@nil f32) <= length A)%nat /\ [] = take (length (@nil f32)) (drop pos A) /\
    s.(writer).(recovery) = (if negb (s.(writer).(observed) =? s.(writer).(observed)) then begin_discontinuity s.(writer).(recovery) else s.(writer).(recovery)) /\
    buffer_ok A (pos + length (@nil f32)) s.(writer).(observed) n s.(buffer)).
  { exists e. rewrite Z.eqb_refl. cbn [negb length]. rewrite Nat.add_0_r. split_and!; try done; try lia. apply Nat.divide_0_r. }
  unfold read_buffer. destruct (buffer_failed (writer s)); [exact Hidle|]. destruct lock; [|exact Hidle|exact Hidle].
  rewrite Hr. set (samples := (_ / ch * ch)%nat). pose proof (pop_result samples s.(buffer).(pcm)) as P1. pose proof (pop_contents samples s.(buffer).(pcm)) as P2.
  pose proof (pop_capacity samples s.(buffer).(pcm)) as P3. destruct (pop_slice samples (pcm (buffer s))) as [xs p]. cbn [fst snd] in P1, P2, P3. cbn [generation].
  assert (Hs : (samples <= length (contents s.(buffer).(pcm)))%nat /\ (samples <= requested)%nat).
  { subst samples. set (k := Nat.min _ _). pose proof (Nat.Div0.mul_div_le k ch). lia. }
  destruct Hs as [Hs Hreq].
  assert (Hl : length xs = samples) by (rewrite P1, length_take; lia). assert (Hd : Nat.divide ch samples) by apply Nat.divide_factor_r.
  pose proof (holds_take _ _ _ _ _ samples Hh Hs Hd) as Ht. rewrite <- P2 in Ht.
  assert (Hslice : xs = take (length xs) (drop (length A - length (contents s.(buffer).(pcm))) A)) by (rewrite Hl, <- H1; done).
  assert (Hpos : Nat.divide ch (length A - length (contents s.(buffer).(pcm)))) by (by apply Nat.divide_sub_r).
  assert (Hend : (length A - length (contents s.(buffer).(pcm)) + samples <= length A)%nat) by lia.
  destruct (Z.eqb_spec s.(buffer).(generation) s.(writer).(observed)) as [Hg|Hg]; exists (length A - length (contents s.(buffer).(pcm)))%nat.
  - rewrite Z.eqb_refl. cbn [negb]. apply H4 in Hg as Hg'. split_and!; try done; rewrite ?Hl; try lia; try done.
    unfold buffer_ok. cbn. rewrite P3, <- Hg. by split_and!.
  - cbn [observed recovery]. destruct (Z.eqb_spec s.(buffer).(generation) s.(writer).(observed)); [done|]. cbn [negb]. rewrite Hl.
    assert (e <> length A - length (contents s.(buffer).(pcm)))%nat by (intros E; apply H4 in E; done). split_and!; try done; try lia; [by rewrite Hl in Hslice|].
    unfold buffer_ok. cbn. rewrite P3. by split_and!.
Qed.

Lemma callback_ok A e n s lock len : state_ok A e n s ->
  let s' := (step s (Callback lock len)).1 in
  exists c e' frames, (step s (Callback lock len)).2 = [c] /\ state_ok A e' n s' /\ takes A ch e [c] e' /\
    write_frames (frames_of ch c) c.(taken) (if c.(fresh) then begin_discontinuity s.(writer).(recovery) else s.(writer).(recovery)) = (frames, s'.(writer).(recovery)) /\
    c.(out) = take c.(asked) (concat frames).
Proof using RL Hch.
  intros Hs. cbn [step]. unfold write_output. set (w0 := mkWriter _ _ _ _ _ _ _).
  pose proof (read_ok A e n (mkState s.(buffer) s.(tms) s.(having) w0) lock (Nat.min len (room w0)) Hs) as Hread. cbn [buffer writer] in Hread.
  destruct (read_buffer _ _ _ _) as [[xs w] b]. destruct Hread as (pos & H1 & H2 & H3 & H4 & H4' & H5 & H6 & H7 & H8).
  change (observed w0) with (observed (writer s)) in *. change (recovery w0) with (recovery (writer s)) in *. destruct Hs as (_ & Hc & _).
  assert (Hch' : w.(recovery).(channels) = ch) by (rewrite H7; by case_match). rewrite Hch'.
  destruct (write_frames_spec ((len + ch - 1) / ch) xs w.(recovery)) as [_ Hw]. destruct (write_frames _ xs (recovery w)) as [frames r] eqn:Ew. cbn [snd] in Hw.
  eexists _, (pos + length xs)%nat, frames. split; [done|]. split_and!.
  - split; [exact H8|]. split; [cbn; congruence|by apply Nat.divide_add_r].
  - apply (takes_call _ _ _ _ pos); cbn [taken fresh out asked]; try done; [lia|constructor].
  - unfold frames_of. cbn [asked taken fresh writer fst with_recovery recovery]. change (observed (with_recovery r w)) with (observed w). by rewrite <- H7.
  - done.
Qed.

(** *** Every run *)

Lemma push_ok A e n s xs : state_ok A e n s -> Nat.divide ch (length xs) -> n + 1 < 2 ^ 64 ->
  state_ok (A ++ xs) e (n + 1) (step s (Push xs)).1 /\ (step s (Push xs)).1.(writer) = s.(writer) /\ (step s (Push xs)).2 = [].
Proof using RL Hch.
  intros (Hb & Hr & He) Hx Hn. cbn [step]. pose proof (append2_ok _ _ _ _ _ xs Hb Hx Hn) as H2.
  destruct (append_pcm2 xs (buffer s)) as [m b]. cbn [snd] in H2. by split_and!.
Qed.

Lemma shrink_step_ok A e n s dt : state_ok A e n s -> n + 1 < 2 ^ 64 ->
  state_ok A e (n + 1) (step s (Shrink dt)).1 /\ (step s (Shrink dt)).1.(writer) = s.(writer) /\ (step s (Shrink dt)).2 = [].
Proof using RL Hch.
  intros (Hb & Hr & He) Hn. cbn [step]. pose proof (shrink_ok _ _ _ _ _ dt s.(having) s.(tms) Hb Hn) as H2.
  destruct (try_shrink dt _ (buffer s) (tms s)) as [b t]. cbn [fst] in H2. by split_and!.
Qed.

(** What a call puts out, frame by frame. *)
Definition framed (c : Call) (frames : list (list f32)) : Prop := length frames = frames_of ch c /\ c.(out) = take c.(asked) (concat frames).

Lemma length_inputs_of n : forall xs, length (inputs_of ch n xs) = n.
Proof using. induction n as [|n IH]; intros xs; [done|]. cbn. by rewrite IH. Qed.

Lemma call_tracks tf ins cuts outs c r frames r' : 0 < tf -> tracks ch tf ins cuts outs r ->
  write_frames (frames_of ch c) c.(taken) (if c.(fresh) then begin_discontinuity r else r) = (frames, r') ->
  tracks ch tf (ins ++ inputs ch c) (cuts ++ (if c.(fresh) then [length ins] else [])) (outs ++ frames) r'.
Proof using.
  intros Htf Ht Hw. assert (Ht' : tracks ch tf ins (cuts ++ (if fresh c then [length ins] else [])) outs (if fresh c then begin_discontinuity r else r)).
  { destruct (fresh c); [by apply tracks_cut|by rewrite app_nil_r]. }
  pose proof (tracks_frames ch tf (frames_of ch c) _ _ _ _ c.(taken) Htf Ht') as H. by rewrite Hw in H.
Qed.

Lemma run_plays tf evs : 0 < tf -> forall A e n s ins cuts outs, state_ok A e n s -> tracks ch tf ins cuts outs s.(writer).(recovery) ->
  Forall (whole ch) evs -> n + zlen evs < 2 ^ 64 ->
  let '(s', calls) := run s evs in
  exists e' frames, takes (A ++ appended evs) ch e calls e' /\ state_ok (A ++ appended evs) e' (n + zlen evs) s' /\ Forall2 framed calls frames /\
    tracks ch tf (ins ++ concat (inputs ch <$> calls)) (cuts ++ cuts_from ch (length ins) calls) (outs ++ concat frames) s'.(writer).(recovery).
Proof using RL Hch.
  intros Htf. induction evs as [|ev evs IH]; intros A e n s ins cuts outs Hs Ht Hev Hn.
  - exists e, []. unfold appended. cbn. rewrite !app_nil_r, Z.add_0_r. split_and!; try done; constructor.
  - apply Forall_cons in Hev as [Hx Hev]. cbn [length] in Hn. cbn [run]. assert (Hpad : forall A e m s, state_ok A e n s -> m = n + 1 -> state_ok A e m s).
    { intros A0 e0 m s0 ((? & ? & ?) & ? & ?) ->. split; [split; [done|split; [done|lia]]|done]. }
    destruct ev as [xs|dt|lock len].
    + destruct (push_ok A e n s xs Hs Hx ltac:(lia)) as (Hs1 & Hw & Hl). destruct (step s (Push xs)) as [s1 calls]. cbn [fst snd] in *. subst calls.
      rewrite <- Hw in Ht. specialize (IH _ _ _ _ _ _ _ Hs1 Ht Hev ltac:(lia)). destruct (run s1 evs) as [s2 rest]. cbn [app].
      unfold appended in *. cbn [omap list_omap concat]. rewrite app_assoc. destruct IH as (e' & frames & Hp & Hs' & HF & Ht'). exists e', frames.
      split; [exact Hp|]. split; [|done]. cbn [length]. by replace (n + Z.of_nat (S (length evs))) with (n + 1 + zlen evs) by lia.
    + destruct (shrink_step_ok A e n s dt Hs ltac:(lia)) as (Hs1 & Hw & Hl). destruct (step s (Shrink dt)) as [s1 calls]. cbn [fst snd] in *. subst calls.
      rewrite <- Hw in Ht. specialize (IH _ _ _ _ _ _ _ Hs1 Ht Hev ltac:(lia)). destruct (run s1 evs) as [s2 rest]. cbn [app].
      unfold appended in *. cbn [omap list_omap]. destruct IH as (e' & frames & Hp & Hs' & HF & Ht'). exists e', frames.
      split; [exact Hp|]. split; [|done]. cbn [length]. by replace (n + Z.of_nat (S (length evs))) with (n + 1 + zlen evs) by lia.
    + destruct (callback_ok A e n s lock len Hs) as (c & e1 & fs & Hl & Hs1 & Hp1 & Hw & Ho). destruct (step s (Callback lock len)) as [s1 calls]. cbn [fst snd] in *. subst calls.
      pose proof (call_tracks tf ins cuts outs c _ fs _ Htf Ht Hw) as Ht1. specialize (IH A e1 (n + 1) s1 _ _ _ ltac:(by eapply Hpad) Ht1 Hev ltac:(lia)).
      destruct (run s1 evs) as [s2 rest]. destruct IH as (e' & frames & Hp & Hs' & HF & Ht'). exists e', (fs :: frames).
      unfold appended in *. cbn [omap list_omap app]. split_and!.
      * eapply (takes_app _ _ _ [c]); [apply takes_more, Hp1|exact Hp].
      * cbn [length]. by replace (n + Z.of_nat (S (length evs))) with (n + 1 + zlen evs) by lia.
      * apply Forall2_cons. split; [|done]. split; [|done]. pose proof (write_frames_spec (frames_of ch c) (taken c) (if fresh c then begin_discontinuity (recovery (writer s)) else recovery (writer s))) as [Hlen _].
        by rewrite Hw in Hlen.
      * cbn [fmap list_fmap concat cuts_from]. assert (Hlen : length (inputs ch c) = frames_of ch c) by apply length_inputs_of.
        by rewrite length_app, Hlen, <- !app_assoc in Ht'.
Qed.

(** *** From the start *)

Definition opened (rate : Z) : AudioBuffer := resize rate (Z.of_nat ch) buffer_default.

Lemma opened_ok rate w : writer_new rate (Z.of_nat ch) (opened rate) = Ok w -> 0 <= rate -> state_ok [] 0 0 (mkState (opened rate) 0 0 w).
Proof using RL Hch.
  unfold writer_new. destruct (recovery_new rate (Z.of_nat ch)) as [r|] eqn:Er; [|done]. cbn [rbind]. intros [= <-] Hrate.
  assert (Hr : r.(channels) = ch).
  { unfold recovery_new in Er. destruct (_ || _); [done|]. destruct (usize_max <? _); [done|]. destruct (_ =? 0); [done|]. injection Er as <-. cbn. lia. }
  assert (Hb : contents (opened rate).(pcm) = [] /\ Nat.divide ch (capacity (opened rate).(pcm)) /\ (opened rate).(generation) = 0).
  { unfold opened, resize. destruct (Z.eqb_spec (rate * Z.of_nat ch * AUDIO_BUFFER_MS / 1000) (Z.of_nat (capacity buffer_default.(pcm)))) as [_|_]; cbn [pcm generation buffer_default];
      rewrite new_contents, new_capacity; (split; [done|]; split; [|done]).
    - destruct Hch as [-> | ->]; [apply Nat.divide_1_l|]. exists (Z.to_nat 144000). change 2%nat with (Z.to_nat 2). rewrite <- Z2Nat.inj_mul by lia. reflexivity.
    - exists (Z.to_nat (rate * 3)). unfold AUDIO_BUFFER_MS. replace (rate * Z.of_nat ch * 3000 / 1000) with (rate * 3 * Z.of_nat ch); [lia|].
      replace (rate * Z.of_nat ch * 3000) with (rate * 3 * Z.of_nat ch * 1000) by ring. by rewrite Z.div_mul. }
  destruct Hb as (Hc & Hcap & Hg). split; [|split; [done|apply Nat.divide_0_r]]. split; [|split; [done|cbn; lia]]. cbn [observed writer buffer]. rewrite Hc, Hg.
  split; cbn; try done; try lia. split; apply Nat.divide_0_r.
Qed.

(** The recovery as it is made has put out nothing. *)
Lemma opened_tracks rate w : writer_new rate (Z.of_nat ch) (opened rate) = Ok w -> let tf := rate * UNDERRUN_DECLICK_MS / MILLISECONDS_PER_SECOND in
  0 <= rate -> 0 < tf /\ tracks ch tf [] [] [] w.(recovery).
Proof using Hch.
  intros H tf Hr. revert H. unfold writer_new, recovery_new. destruct (_ || _); [done|]. destruct (usize_max <? _); [done|]. cbv zeta. fold tf. destruct (Z.eqb_spec tf 0) as [|Hz]; [done|].
  cbn [rbind]. intros [= <-]. assert (Htf : 0 < tf).
  { assert (0 <= tf) by (unfold tf, UNDERRUN_DECLICK_MS, MILLISECONDS_PER_SECOND; apply Z.div_pos; lia). lia. }
  split; [exact Htf|]. cbn [recovery]. split; cbn; try done; rewrite Nat2Z.id; done.
Qed.

End Device.

(** C40: what is heard is what was decoded.  On a device with one or two channels (with
    more it does not hold, [six_channels_shift]) the decoder's thread appends, in two steps each
    time, and the device's callback takes, in any interleaving, with every outcome of the lock.  Each call takes whole frames, from a frame boundary on, of exactly what was appended
    next, no more than it is asked for; it skips something only when the buffer threw samples away,
    and then it is [fresh].  What the calls put out, frame by frame, is what is to be [heard] of
    that: every frame taken in its turn, and silence where there is none, each with full weight, but
    for the first five milliseconds after samples were missing and after the sound stopped or began
    again, which fade in equal steps from the last frame before.  What is still in the buffer is the end of
    what was appended. *)
Theorem playback_in_order (rate : Z) (ch : nat) (w : AudioPlaybackWriter) (evs : list Event) :
  ch = 1%nat \/ ch = 2%nat -> 0 <= rate -> writer_new rate (Z.of_nat ch) (opened ch rate) = Ok w ->
  Forall (whole ch) evs -> zlen evs < 2 ^ 64 ->
  let '(s, calls) := run (mkState (opened ch rate) 0 0 w) evs in
  let A := appended evs in
  exists e frames, takes A ch 0 calls e /\ Forall2 (framed ch) calls frames /\
    heard ch (rate * UNDERRUN_DECLICK_MS / MILLISECONDS_PER_SECOND) (concat (inputs ch <$> calls)) (cuts_from ch 0 calls) (concat frames) /\
    (e <= length A - length (contents s.(buffer).(pcm)))%nat /\ contents s.(buffer).(pcm) = drop (length A - length (contents s.(buffer).(pcm))) A.
Proof using RL.
  intros Hch Hrate Hw Hev Hn. pose proof (opened_ok ch Hch rate w Hw Hrate) as Hs. destruct (opened_tracks ch Hch rate w Hw Hrate) as [Htf Ht].
  pose proof (run_plays ch Hch _ evs Htf [] 0 0 _ [] [] [] Hs Ht Hev ltac:(lia)) as H. destruct (run _ evs) as [s calls]. cbn [app length] in H.
  destruct H as (e & frames & Hp & ((Hh & _) & _) & HF & Ht'). exists e, frames. split; [exact Hp|]. split; [exact HF|]. split; [exact (tr_heard _ _ _ _ _ _ Ht')|].
  split; [apply (h_pos _ _ _ _ _ _ Hh)|apply (h_end _ _ _ _ _ _ Hh)].
Qed.

End Facts.

(** Two calls of a stereo device at 1000 Hz with too much appended in between: the second call
    begins a transition and takes the end. *)
Definition samples (k n : nat) : list f32 := (fun i => of_Z (Z.of_nat i)) <$> seq k n.
Definition toy_evs : list Event :=
  append_pcm 5 (samples 0 4) ++ [Callback Free 4; Push (samples 4 6010); Callback WouldBlock 4; Shrink 6; Callback Free 4].

Lemma toy_playback :
  match @writer_new list_ring 1000 2 (@opened list_ring 2 1000) with
  | Ok w =>
    let calls := (run (mkState (@opened list_ring 2 1000) 0 0 w) toy_evs).2 in
    taken <$> calls = [samples 0 4; []; samples 14 4] /\ fresh <$> calls = [false; false; true]
  | Err _ => False
  end.
Proof. by vm_compute. Qed.

Lemma playback_in_order_witness :
  exists w, @writer_new list_ring 1000 2 (@opened list_ring 2 1000) = Ok w /\
  let '(s, calls) := run (mkState (@opened list_ring 2 1000) 0 0 w) toy_evs in
  taken <$> calls = [samples 0 4; []; samples 14 4] /\ fresh <$> calls = [false; false; true] /\
  exists e frames, takes (appended toy_evs) 2 0 calls e /\ Forall2 (framed 2) calls frames /\
    heard 2 5 (concat (inputs 2 <$> calls)) (cuts_from 2 0 calls) (concat frames).
Proof.
  pose proof toy_playback as Hc. destruct (@writer_new list_ring 1000 2 (@opened list_ring 2 1000)) as [w|] eqn:E; [|destruct Hc].
  exists w. split; [reflexivity|].
  pose proof (playback_in_order 1000 2 w toy_evs ltac:(by right) ltac:(done) E) as H.
  assert (Hev : Forall (whole 2) toy_evs) by (repeat constructor; [by exists 2%nat|by exists 3005%nat]).
  specialize (H Hev eq_refl). cbv zeta in Hc. destruct (run _ toy_evs) as [s calls]. destruct H as (e & frames & Hp & HF & Hh & _).
  split; [apply Hc|]. split; [apply Hc|]. exists e, frames. by split_and!.
Defined.

(** On a device with six channels, [& !1] does not keep frames together: after the buffer is
    shrunk what is left starts in the middle of a frame, and so does all that is played. *)
Example six_channels_shift :
  let b := @mkBuffer list_ring (Z.to_nat (44100 * 6 * 3), replicate (Z.to_nat 150000) fzero) (44100 * 6) (<[7%nat := 9]> (replicate 30 0)) 0 in
  let b' := (try_shrink 20000 150000 b 1).1 in
  Z.of_nat (capacity b.(pcm)) mod 6 = 0 /\ zlen (contents b.(pcm)) mod 6 = 0 /\ zlen (contents b'.(pcm)) mod 6 = 2.
Proof. by vm_compute. Qed.

End PlaybackFacts.
