(* ===== verification/TermBuffer.v ===== *)
(** Terminal output: the replay buffer and the UTF-8 chunker of
    [src/server/terminal_service.rs].

    Bytes are integers between 0 and 255; [str::from_utf8] of the standard library is modelled
    by its table of well-formed sequences. *)

From S2P Require Import Prelude.

(** ** UTF-8 *)
Module Utf8.

Definition between (lo hi b : Z) : bool := (lo <=? b) && (b <=? hi).
Definition is_cont (b : Z) : bool := between 128 191 b.

(** [str::from_utf8(s).is_ok()] *)
Fixpoint from_utf8 (s : list Z) : bool :=
  match s with
  | [] => true
  | a :: s1 =>
    if between 0 127 a then from_utf8 s1 else
    match s1 with
    | [] => false
    | b :: s2 =>
      if between 194 223 a then is_cont b && from_utf8 s2 else
      match s2 with
      | [] => false
      | c :: s3 =>
        if (a =? 224) then between 160 191 b && is_cont c && from_utf8 s3 else
        if between 225 236 a || between 238 239 a then is_cont b && is_cont c && from_utf8 s3 else
        if (a =? 237) then between 128 159 b && is_cont c && from_utf8 s3 else
        match s3 with
        | [] => false
        | d :: s4 =>
          if (a =? 240) then between 144 191 b && is_cont c && is_cont d && from_utf8 s4 else
          if between 241 243 a then is_cont b && is_cont c && is_cont d && from_utf8 s4 else
          if (a =? 244) then between 128 143 b && is_cont c && is_cont d && from_utf8 s4 else
          false
        end
      end
    end
  end.

(** ** [find_utf8_split_point] *)

Definition seq_len (b : Z) : option nat :=
  if Z.land b 224 =? 192 then Some 2%nat
  else if Z.land b 240 =? 224 then Some 3%nat
  else if Z.land b 248 =? 240 then Some 4%nat
  else None.

(** The body of the loop for the indices below [start + n]. *)
Fixpoint split_loop (buf : list Z) (start n : nat) : nat :=
  match n with
  | O => length buf
  | S n =>
    let i := (start + n)%nat in
    let b := default 0 (buf !! i) in
    if Z.land b 128 =? 0 then length buf
    else if Z.land b 192 =? 128 then split_loop buf start n
    else match seq_len b with
      | None => length buf
      | Some k => if (k <=? length buf - i)%nat then length buf else i
      end
  end.

Definition find_utf8_split_point (buf : list Z) : nat :=
  match buf with
  | [] => 0%nat
  | _ => let start := (length buf - 3)%nat in split_loop buf start (length buf - start)
  end.

(** ** [Utf8ChunkAccumulator]: the state is the remainder *)

Definition push_chunk (remainder data : list Z) : list Z * option (list Z) :=
  match data with
  | [] => (remainder, None)
  | _ =>
    let had_remainder := negb (is_nil remainder) in
    let data := remainder ++ data in
    let split := find_utf8_split_point data in
    if (split =? length data)%nat then ([], Some data)
    else if negb had_remainder && (0 <? split)%nat && negb (from_utf8 (take split data)) then ([], Some data)
    else
      let out := take split data in
      (drop split data, match out with [] => None | _ => Some out end)
  end.

Definition finish (remainder : list Z) : list Z * option (list Z) :=
  match remainder with [] => ([], None) | _ => ([], Some remainder) end.

(** The reader: every read is pushed, the end of file flushes. *)
Fixpoint push_all (remainder : list Z) (reads : list (list Z)) : list Z * list (list Z) :=
  match reads with
  | [] => (remainder, [])
  | r :: reads =>
    let '(remainder, out) := push_chunk remainder r in
    let '(remainder, outs) := push_all remainder reads in
    (remainder, option_list out ++ outs)
  end.

End Utf8.

(** ** The replay buffer *)
Module OutBuf.

Definition MAX_OUTPUT_BUFFER_SIZE : Z := 1024 * 1024.
Definition MAX_BUFFER_LINES : Z := 10000.
Definition NL : Z := 10.

Record OutputBuffer := mkBuf {
  lines : list (list Z);
  total_size : Z;
  last_line_incomplete : bool }.

Definition buf_new : OutputBuffer := mkBuf [] 0 false.

(** [iter().position(|&b| b == b'\n')] *)
Fixpoint newline_pos (data : list Z) : option nat :=
  match data with
  | [] => None
  | b :: data => if b =? NL then Some 0%nat else S <$> newline_pos data
  end.

(** [split(|&b| b == b'\n')]: never empty. *)
Fixpoint split_nl (data : list Z) : list (list Z) :=
  match data with
  | [] => [[]]
  | b :: data =>
    if b =? NL then [] :: split_nl data
    else match split_nl data with
      | l :: ls => (b :: l) :: ls
      | [] => [[b]]
      end
  end.

Definition sum_len (ls : list (list Z)) : Z := foldr (fun l n => zlen l + n) 0 ls.

(** The loop over the pieces; the last piece is the one with nothing after it. *)
Fixpoint append_pieces (self : OutputBuffer) (ends_with_newline : bool) (pieces : list (list Z)) : OutputBuffer :=
  match pieces with
  | [] => self
  | line :: rest =>
    let is_last := is_nil rest in
    let self := if is_last && negb ends_with_newline && negb (is_nil line)
      then mkBuf self.(lines) self.(total_size) true else self in
    let self :=
      if negb (is_nil line) || negb is_last then
        let line_data := if negb is_last || ends_with_newline then line ++ [NL] else line in
        mkBuf (self.(lines) ++ [line_data]) (self.(total_size) + zlen line_data) self.(last_line_incomplete)
      else self in
    append_pieces self ends_with_newline rest
  end.

Definition over (total : Z) (ls : list (list Z)) : bool :=
  (MAX_OUTPUT_BUFFER_SIZE <? total) || (MAX_BUFFER_LINES <? zlen ls).

Fixpoint trim (ls : list (list Z)) (total : Z) (incomplete : bool) : OutputBuffer :=
  if over total ls then
    match ls with
    | removed :: rest =>
      let total := if total <? zlen removed then sum_len rest else total - zlen removed in
      trim rest total (if is_nil rest then false else incomplete)
    | [] => mkBuf [] 0 false
    end
  else mkBuf ls total incomplete.

Definition append_rest (self : OutputBuffer) (remaining : list Z) : OutputBuffer :=
  let ends_with_newline := bool_decide (last remaining = Some NL) in
  let self := append_pieces self ends_with_newline (split_nl remaining) in
  trim self.(lines) self.(total_size) self.(last_line_incomplete).

Definition append (self : OutputBuffer) (data : list Z) : OutputBuffer :=
  if is_nil data then self else
  match (if self.(last_line_incomplete) then last self.(lines) else None) with
  | Some last_line =>
    let front := take (length self.(lines) - 1) self.(lines) in
    match newline_pos data with
    | Some p =>
      append_rest (mkBuf (front ++ [last_line ++ take (S p) data]) (self.(total_size) + Z.of_nat p + 1) false) (drop (S p) data)
    | None => mkBuf (front ++ [last_line ++ data]) (self.(total_size) + zlen data) true
    end
  | None => append_rest self data
  end.

(** [get_recent]: the lines are visited from the newest. *)
Fixpoint skip_conts (n : nat) (l : list Z) : list Z :=
  match n, l with
  | S n, b :: l' => if Z.land b 192 =? 128 then skip_conts n l' else l
  | _, _ => l
  end.

Fixpoint recent_loop (rev_lines : list (list Z)) (max_bytes size : Z) (chunks : list (list Z)) : list (list Z) :=
  match rev_lines with
  | [] => chunks
  | line :: older =>
    if max_bytes <? size + zlen line then
      if (size =? 0) && (max_bytes <? zlen line) then
        match skip_conts 3 (zdrop (zlen line - max_bytes) line) with
        | [] => chunks
        | tail => tail :: chunks
        end
      else chunks
    else recent_loop older max_bytes (size + zlen line) (line :: chunks)
  end.

Definition get_recent (self : OutputBuffer) (max_bytes : Z) : list Z :=
  if max_bytes =? 0 then [] else concat (recent_loop (rev self.(lines)) max_bytes 0 []).

Definition content (self : OutputBuffer) : list Z := concat self.(lines).

End OutBuf.

Example split_incomplete : Utf8.find_utf8_split_point [97; 228; 184] = 1%nat.
Proof. reflexivity. Qed.
Example split_malformed : Utf8.find_utf8_split_point [255; 228] = 1%nat.
Proof. reflexivity. Qed.
Example chunker_non_utf8_prefix : Utf8.push_chunk [] [255; 228] = ([], Some [255; 228]).
Proof. reflexivity. Qed.
Example append_lines : OutBuf.append (OutBuf.append OutBuf.buf_new [104; 105]) [33; 10; 10; 97] =
  OutBuf.mkBuf [[104; 105; 33; 10]; [10]; [97]] 6 true.
Proof. vm_compute. reflexivity. Qed.

(** ** Facts about UTF-8 text *)
Module Utf8Facts.
Import Utf8.

(** One well-formed character. *)
Definition utf8_char (c : list Z) : bool :=
  match c with
  | [a] => between 0 127 a
  | [a; b] => between 194 223 a && is_cont b
  | [a; b; c] => ((a =? 224) && between 160 191 b || (between 225 236 a || between 238 239 a) && is_cont b || (a =? 237) && between 128 159 b) && is_cont c
  | [a; b; c; d] => ((a =? 240) && between 144 191 b || between 241 243 a && is_cont b || (a =? 244) && between 128 143 b) && is_cont c && is_cont d
  | _ => false
  end.

Definition lead_ok (a : Z) (n : nat) : bool :=
  match n with
  | 1%nat => between 0 127 a
  | 2%nat => between 194 223 a
  | 3%nat => between 224 239 a
  | 4%nat => between 240 244 a
  | _ => false
  end.

Lemma between_spec lo hi b : between lo hi b = true <-> lo <= b <= hi.
Proof. unfold between. rewrite andb_true_iff, !Z.leb_le. done. Qed.

(** Decide every range test, of the context first. *)
Ltac decide_test H lo hi b :=
  first [assert (H : between lo hi b = false) by (apply not_true_is_false; rewrite between_spec; lia)
        |assert (H : between lo hi b = true) by (apply between_spec; lia)].
Ltac tests_in H :=
  unfold is_cont in H; repeat first [rewrite andb_true_iff in H|rewrite orb_true_iff in H|rewrite between_spec in H|rewrite Z.eqb_eq in H];
  repeat match goal with H : _ /\ _ |- _ => destruct H | H : _ \/ _ |- _ => destruct H end.
Ltac tests_goal :=
  unfold is_cont;
  repeat match goal with
  | |- context [between ?lo ?hi ?b] => let E := fresh in decide_test E lo hi b; rewrite E; clear E
  | |- context [?a =? ?n] => let E := fresh in
      first [assert (E : (a =? n) = false) by (apply Z.eqb_neq; lia)|assert (E : (a =? n) = true) by (apply Z.eqb_eq; lia)]; rewrite E; clear E
  end; cbn [andb orb].
(** A character is a lead byte and the continuation bytes it announces. *)
Lemma utf8_char_inv c : utf8_char c = true ->
  exists a cs, c = a :: cs /\ lead_ok a (length c) = true /\ Forall (fun b => is_cont b = true) cs.
Proof.
  unfold utf8_char. destruct c as [|a [|b [|c [|d [|e l]]]]]; intros H; try done; eexists a, _; (split; [done|]); cbn [length lead_ok].
  all: tests_in H; (split; [by tests_goal|]); repeat (apply Forall_cons; split; [by tests_goal|]); by apply Forall_nil.
Qed.

Lemma from_utf8_char c s : utf8_char c = true -> from_utf8 (c ++ s) = from_utf8 s.
Proof.
  unfold utf8_char. destruct c as [|a [|b [|c [|d [|e l]]]]]; intros H; try done; cbn [app from_utf8]; tests_in H.
  all: by tests_goal.
Qed.

Definition chars (cs : list (list Z)) : Prop := Forall (fun c => utf8_char c = true) cs.

Lemma from_utf8_chars cs : chars cs -> from_utf8 (concat cs) = true.
Proof. induction 1 as [|c cs Hc _ IH]; [done|]. cbn [concat]. by rewrite from_utf8_char. Qed.

(** The first character of a well-formed text. *)
Lemma from_utf8_inv s : from_utf8 s = true -> s <> [] -> exists c s', s = c ++ s' /\ utf8_char c = true /\ from_utf8 s' = true.
Proof.
  intros H Hne. destruct s as [|a s1]; [done|]. cbn [from_utf8] in H.
  destruct (between 0 127 a) eqn:Ea; [by exists [a], s1|].
  destruct s1 as [|b s2]; [done|]. destruct (between 194 223 a) eqn:Eb.
  { apply andb_true_iff in H as [Hb H]. exists [a; b], s2. split_and!; [done| |done]. cbn. by rewrite Eb, Hb. }
  destruct s2 as [|c s3]; [done|].
  destruct (a =? 224) eqn:E0.
  { apply andb_true_iff in H as [[Hb Hc]%andb_true_iff H]. exists [a; b; c], s3. split_and!; [done| |done]. cbn. by rewrite E0, Hb, Hc. }
  destruct (between 225 236 a || between 238 239 a) eqn:E1.
  { apply andb_true_iff in H as [[Hb Hc]%andb_true_iff H]. exists [a; b; c], s3. split_and!; [done| |done]. cbn. by rewrite E0, E1, Hb, Hc. }
  destruct (a =? 237) eqn:E2.
  { apply andb_true_iff in H as [[Hb Hc]%andb_true_iff H]. exists [a; b; c], s3. split_and!; [done| |done]. cbn. by rewrite E0, E1, E2, Hb, Hc. }
  destruct s3 as [|d s4]; [done|].
  destruct (a =? 240) eqn:E3.
  { apply andb_true_iff in H as [[[Hb Hc]%andb_true_iff Hd]%andb_true_iff H]. exists [a; b; c; d], s4. split_and!; [done| |done]. cbn. by rewrite E3, Hb, Hc, Hd. }
  destruct (between 241 243 a) eqn:E4.
  { apply andb_true_iff in H as [[[Hb Hc]%andb_true_iff Hd]%andb_true_iff H]. exists [a; b; c; d], s4. split_and!; [done| |done]. cbn. by rewrite E3, E4, Hb, Hc, Hd. }
  destruct (a =? 244) eqn:E5; [|done].
  apply andb_true_iff in H as [[[Hb Hc]%andb_true_iff Hd]%andb_true_iff H]. exists [a; b; c; d], s4. split_and!; [done| |done]. cbn. by rewrite E3, E4, E5, Hb, Hc, Hd.
Qed.

Lemma from_utf8_spec s : from_utf8 s = true <-> exists cs, chars cs /\ s = concat cs.
Proof.
  split; [|by intros (cs & Hcs & ->); apply from_utf8_chars].
  remember (length s) as n eqn:Hn. revert s Hn. induction (lt_wf n) as [n _ IH]; intros s -> H.
  destruct (decide (s = [])) as [->|Hne]; [exists []; by split; [constructor|]|].
  destruct (from_utf8_inv s H Hne) as (c & s' & -> & Hc & H').
  destruct (utf8_char_inv c Hc) as (a & l & -> & _).
  destruct (IH (length s') ltac:(rewrite length_app; cbn; lia) s' eq_refl H') as (cs & Hcs & ->).
  exists ((a :: l) :: cs). split; [by constructor|done].
Qed.

(** A proper prefix of a character. *)
Definition partial (p : list Z) : Prop := p = [] \/ exists q, q <> [] /\ p <> [] /\ utf8_char (p ++ q) = true.

(** A prefix of a text is whole characters and the beginning of one. *)
Lemma text_prefix d rest : from_utf8 (d ++ rest) = true ->
  exists cs p, d = concat cs ++ p /\ chars cs /\ partial p /\ from_utf8 (p ++ rest) = true.
Proof.
  remember (length d) as n eqn:Hn. revert d Hn. induction (lt_wf n) as [n _ IH]; intros d -> H.
  destruct (decide (d = [])) as [->|Hne].
  { exists [], []. split_and!; [done|constructor|by left|done]. }
  destruct (from_utf8_inv _ H) as (c & s' & E & Hc & H'); [by destruct d|].
  destruct (utf8_char_inv c Hc) as (a & l & Ec & _).
  apply app_eq_inv in E as [(k & -> & ->)|(k & -> & ->)].
  - destruct (IH (length k)) with (d := k) as (cs & p & -> & Hcs & Hp & Hr); [rewrite Ec, length_app; cbn; lia|done|done|].
    exists (c :: cs), p. split_and!; [by cbn; rewrite app_assoc|by constructor|done|done].
  - destruct (decide (k = [])) as [->|Hk].
    + rewrite app_nil_r in Hc. exists [d], []. split_and!; [by cbn; rewrite !app_nil_r|by constructor|by left|done].
    + exists [], d. split_and!; [done|constructor| |]; [right; by exists k|]. rewrite app_assoc. by rewrite from_utf8_char.
Qed.

(** ** The split point *)

(** What the bit masks of the source say of each byte. *)
Definition mask_ok (a : Z) : bool :=
  (if between 0 127 a then Z.land a 128 =? 0 else negb (Z.land a 128 =? 0)) &&
  (if is_cont a then Z.land a 192 =? 128 else negb (Z.land a 192 =? 128)) &&
  forallb (fun n => implb (lead_ok a n) (bool_decide (seq_len a = Some n))) [2%nat; 3%nat; 4%nat].

Lemma masks a : 0 <= a < 256 -> mask_ok a = true.
Proof.
  assert (H : forallb (fun n => mask_ok (Z.of_nat n)) (seq 0 256) = true) by (by vm_compute).
  rewrite forallb_forall in H. intros Ha. specialize (H (Z.to_nat a)). rewrite in_seq in H. rewrite Z2Nat.id in H by lia. apply H. lia.
Qed.

Lemma cont_mask b : is_cont b = true -> Z.land b 128 <> 0 /\ Z.land b 192 = 128.
Proof.
  intros H. assert (Hr : 128 <= b <= 191) by (by apply between_spec). pose proof (masks b ltac:(lia)) as M. unfold mask_ok in M.
  rewrite H in M. replace (between 0 127 b) with false in M by (symmetry; apply not_true_is_false; rewrite between_spec; lia).
  bool_to_prop. done.
Qed.

Lemma lead_mask a n : lead_ok a n = true -> (2 <= n)%nat -> Z.land a 128 <> 0 /\ Z.land a 192 <> 128 /\ seq_len a = Some n.
Proof.
  intros H Hn. assert (Hr : 194 <= a <= 244 /\ (n <= 4)%nat) by (destruct n as [|[|[|[|[|]]]]]; cbn in H; try done; apply between_spec in H; lia).
  pose proof (masks a ltac:(lia)) as M. unfold mask_ok in M.
  replace (between 0 127 a) with false in M by (symmetry; apply not_true_is_false; rewrite between_spec; lia).
  replace (is_cont a) with false in M by (symmetry; apply not_true_is_false; unfold is_cont; rewrite between_spec; lia).
  bool_to_prop. split_and!; [done|done|]. rewrite forallb_forall in *.
  match goal with M : forall x, In x _ -> _ |- _ => specialize (M n); rewrite H in M; cbn [implb] in M; eapply bool_decide_eq_true_1, M end.
  destruct n as [|[|[|[|[|]]]]]; cbn; auto; lia.
Qed.

Lemma ascii_mask a : between 0 127 a = true -> Z.land a 128 = 0 /\ Z.land a 192 <> 128.
Proof.
  intros H. assert (Hr : 0 <= a <= 127) by (by apply between_spec). pose proof (masks a ltac:(lia)) as M. unfold mask_ok in M.
  rewrite H in M. replace (is_cont a) with false in M by (symmetry; apply not_true_is_false; unfold is_cont; rewrite between_spec; lia).
  by bool_to_prop.
Qed.

Lemma split_loop_conts buf start n k :
  (forall i, (start + n <= i < start + n + k)%nat -> is_cont (default 0 (buf !! i)) = true) ->
  split_loop buf start (n + k) = split_loop buf start n.
Proof.
  induction k as [|k IH]; intros H; [by rewrite Nat.add_0_r|]. rewrite Nat.add_succ_r. cbn [split_loop].
  destruct (cont_mask _ (H (start + (n + k))%nat ltac:(lia))) as [H1 H2].
  rewrite (proj2 (Z.eqb_neq _ _) H1), (proj2 (Z.eqb_eq _ _) H2). apply IH. intros i Hi. apply H. lia.
Qed.

(** The split point of a text whose last bytes are a lead and some continuation bytes. *)
Lemma split_point_lead pre a conts : Z.land a 192 <> 128 -> (length conts <= 2)%nat -> Forall (fun b => is_cont b = true) conts ->
  find_utf8_split_point (pre ++ a :: conts) =
  (if Z.land a 128 =? 0 then length (pre ++ a :: conts)
   else match seq_len a with
   | None => length (pre ++ a :: conts)
   | Some k => if (k <=? S (length conts))%nat then length (pre ++ a :: conts) else length pre end).
Proof.
  intros Ha Hl Hc. apply Z.eqb_neq in Ha. unfold find_utf8_split_point. destruct (pre ++ a :: conts) as [|x l] eqn:E; [by destruct pre|]. rewrite <- E.
  set (buf := pre ++ a :: conts) in *. assert (Hlen : length buf = (length pre + S (length conts))%nat) by (unfold buf; by rewrite length_app).
  set (start := (length buf - 3)%nat).
  replace (length buf - start)%nat with (S (length pre - start) + length conts)%nat by lia.
  rewrite split_loop_conts.
  2: { intros i Hi. unfold buf. rewrite lookup_app_r by lia. rewrite lookup_cons_ne_0 by lia.
       destruct (conts !! pred (i - length pre)) as [b|] eqn:Eb; [|apply lookup_ge_None in Eb; lia].
       rewrite Forall_lookup in Hc. by eapply Hc. }
  cbn [split_loop]. replace (start + (length pre - start))%nat with (length pre) by lia.
  assert (Hlook : buf !! length pre = Some a) by (unfold buf; by rewrite list_lookup_middle). rewrite Hlook. unfold from_option, Datatypes.id. rewrite Ha, Hlen.
  replace (length pre + S (length conts) - length pre)%nat with (S (length conts)) by lia. done.
Qed.

Lemma split_point_conts pre conts : length conts = 3%nat -> Forall (fun b => is_cont b = true) conts ->
  find_utf8_split_point (pre ++ conts) = length (pre ++ conts).
Proof.
  intros Hl Hc. unfold find_utf8_split_point. destruct (pre ++ conts) as [|x l] eqn:E; [done|]. rewrite <- E.
  set (buf := pre ++ conts). assert (Hlen : length buf = (length pre + 3)%nat) by (unfold buf; rewrite length_app; lia).
  replace (length buf - (length buf - 3))%nat with (0 + 3)%nat by lia. rewrite split_loop_conts; [done|].
  intros i Hi. unfold buf in *. rewrite lookup_app_r by lia. destruct (conts !! (i - length pre)%nat) as [b|] eqn:Eb; [|apply lookup_ge_None in Eb; lia].
  rewrite Forall_lookup in Hc. by eapply Hc.
Qed.

Lemma split_point_text cs p : chars cs -> partial p ->
  find_utf8_split_point (concat cs ++ p) = length (concat cs).
Proof.
  intros Hcs [->|(q & Hq & Hp & Hc)].
  - rewrite app_nil_r. destruct cs as [|c cs _] using rev_ind; [done|].
    apply Forall_app in Hcs as [_ [Hc _]%Forall_cons]. rewrite concat_app. cbn [concat]. rewrite app_nil_r.
    destruct (utf8_char_inv c Hc) as (a & l & -> & Hlead & Hl). cbn [length] in Hlead.
    destruct (decide (length l = 3%nat)) as [H3|H3].
    { replace (concat cs ++ a :: l) with ((concat cs ++ [a]) ++ l) by (by rewrite <- app_assoc). by apply split_point_conts. }
    assert (Hl2 : (length l <= 2)%nat) by (destruct l as [|? [|? [|? [|? ?]]]]; cbn in *; try lia; done).
    destruct (decide (length l = 0%nat)) as [H0|H0].
    + rewrite H0 in Hlead. destruct (ascii_mask a Hlead) as [M1 M2]. rewrite split_point_lead by done. by rewrite M1.
    + destruct (lead_mask a _ Hlead ltac:(lia)) as (M1 & M2 & M3). rewrite split_point_lead by done.
      rewrite (proj2 (Z.eqb_neq _ _) M1), M3, Nat.leb_refl. done.
  - destruct p as [|a l]; [done|]. destruct (utf8_char_inv _ Hc) as (a' & l' & [= <- <-] & Hlead & [Hl _]%Forall_app).
    assert (Hlq : (1 <= length q)%nat) by (destruct q; [done|cbn; lia]).
    cbn [length app] in Hlead. rewrite length_app in Hlead.
    assert (Hl2 : (length l <= 2)%nat) by (destruct (length l) as [|[|[|n]]]; [lia..|]; destruct (length q) as [|m]; [lia|]; cbn in Hlead; by rewrite Nat.add_succ_r in Hlead).
    destruct (lead_mask a _ Hlead ltac:(lia)) as (M1 & M2 & M3). rewrite split_point_lead by done.
    rewrite (proj2 (Z.eqb_neq _ _) M1), M3. rewrite (proj2 (Nat.leb_gt _ _)) by lia. done.
Qed.

(** Whatever the bytes, at most the last three are held back. *)
Lemma split_point_bound d : (length d - 3 <= find_utf8_split_point d <= length d)%nat.
Proof.
  unfold find_utf8_split_point. destruct d as [|x d]; [done|]. set (buf := x :: d). 
  assert (H : forall n start, (start + n <= length buf)%nat -> (start <= split_loop buf start n <= length buf)%nat).
  { induction n as [|n IH]; intros start Hn; cbn [split_loop]; [lia|]. repeat case_match; try lia. apply IH. lia. }
  apply H. lia.
Qed.

(** ** The chunker *)

Lemma lead_unique a n m : lead_ok a n = true -> lead_ok a m = true -> n = m.
Proof.
  destruct n as [|[|[|[|[|]]]]], m as [|[|[|[|[|]]]]]; cbn [lead_ok]; try done; rewrite !between_spec; lia.
Qed.

Lemma lead_not_cont a n : lead_ok a n = true -> is_cont a = false.
Proof.
  intros H. apply not_true_is_false. unfold is_cont. rewrite between_spec. intros Hr.
  destruct n as [|[|[|[|[|]]]]]; cbn [lead_ok] in H; try done; apply between_spec in H; lia.
Qed.

(** After any cut, a text resumes after at most three continuation bytes. *)
Lemma text_suffix a b : from_utf8 (a ++ b) = true ->
  exists j, (j <= 3)%nat /\ Forall (fun x => is_cont x = true) (take j b) /\ from_utf8 (drop j b) = true.
Proof.
  intros H. destruct (text_prefix a b H) as (cs & p & -> & Hcs & Hp & Hr).
  destruct Hp as [->|(q & Hq & Hp & Hc)]; [exists 0%nat; split_and!; [lia|constructor|done]|].
  destruct (from_utf8_inv _ Hr) as (c & s & E & Hc' & Hs); [by destruct p|].
  destruct (utf8_char_inv _ Hc) as (x & l & E1 & Hl1 & _). destruct (utf8_char_inv _ Hc') as (y & l' & -> & Hl2 & Hcont).
  destruct p as [|z p]; [done|]. cbn in E1, E. injection E1 as -> <-. injection E as -> E.
  pose proof (lead_unique _ _ _ Hl1 Hl2) as Hlen. cbn [length app] in Hlen. rewrite length_app in Hlen.
  assert (H4 : (S (length l') <= 4)%nat) by (destruct (length l') as [|[|[|[|]]]] eqn:E4; try lia; cbn [length] in Hl2; by rewrite E4 in Hl2).
  assert (Hq1 : (1 <= length q)%nat) by (destruct q; [done|cbn; lia]).
  apply app_eq_inv in E as [(k & -> & ->)|(k & -> & ->)].
  - rewrite length_app in Hlen. lia.
  - exists (length k). rewrite length_app in *. rewrite take_app_length, drop_app_length. apply Forall_app in Hcont as [_ Hcont]. split_and!; [lia|done|done].
Qed.

Lemma text_starts x b : from_utf8 (x :: b) = true -> is_cont x = false.
Proof.
  intros H. destruct (from_utf8_inv _ H) as (c & s & E & Hc & _); [done|]. destruct (utf8_char_inv c Hc) as (a & l & -> & Hl & _).
  injection E as -> _. by eapply lead_not_cont.
Qed.

Lemma text_boundary a x b : from_utf8 (a ++ x :: b) = true -> is_cont x = false -> from_utf8 (x :: b) = true.
Proof.
  intros H Hx. destruct (text_suffix _ _ H) as (j & _ & Hj & Hv). destruct j as [|j]; [done|].
  cbn in Hj. apply Forall_cons in Hj as [Hj _]. congruence.
Qed.

Lemma text_after_ascii a x b : from_utf8 (a ++ x :: b) = true -> between 0 127 x = true -> from_utf8 b = true.
Proof.
  intros H Hx. apply text_boundary in H; [|by eapply (lead_not_cont _ 1)].
  cbn [from_utf8] in H. by rewrite Hx in H.
Qed.

Lemma push_chunk_bytes r d r' o : push_chunk r d = (r', o) -> r ++ d = default [] o ++ r'.
Proof.
  unfold push_chunk. destruct d as [|x d]; [intros [= <- <-]; by rewrite app_nil_r|]. cbv zeta.
  destruct (_ =? _)%nat; [intros [= <- <-]; by rewrite app_nil_r|].
  destruct (_ && _ && _); [intros [= <- <-]; by rewrite app_nil_r|]. intros [= <- <-].
  rewrite <- (take_drop (find_utf8_split_point (r ++ x :: d)) (r ++ x :: d)) at 1. f_equal. by destruct (take _ _).
Qed.

Lemma push_chunk_bound r d r' o : (length r <= 3)%nat -> push_chunk r d = (r', o) -> (length r' <= 3)%nat.
Proof.
  intros Hr. unfold push_chunk. destruct d as [|x d]; [intros [= <- <-]; done|]. cbv zeta.
  destruct (_ =? _)%nat; [intros [= <- <-]; cbn; lia|].
  destruct (_ && _ && _); [intros [= <- <-]; cbn; lia|]. intros [= <- <-]. rewrite length_drop.
  pose proof (split_point_bound (r ++ x :: d)). lia.
Qed.

(** On text: every chunk is text and the remainder is the beginning of a character. *)
Lemma push_chunk_text r d rest r' o : from_utf8 (r ++ d ++ rest) = true -> partial r -> push_chunk r d = (r', o) ->
  partial r' /\ from_utf8 (r' ++ rest) = true /\ Forall (fun c => from_utf8 c = true) (option_list o).
Proof.
  intros H Hr. unfold push_chunk. destruct d as [|x d]; [intros [= <- <-]; by split_and!|]. cbv zeta.
  rewrite app_assoc in H. destruct (text_prefix _ _ H) as (cs & p & E & Hcs & Hp & Hrest). rewrite E.
  rewrite split_point_text by done. rewrite length_app.
  destruct (length (concat cs) =? length (concat cs) + length p)%nat eqn:El.
  - apply Nat.eqb_eq in El. destruct p as [|y p]; [|cbn in El; lia]. intros [= <- <-]. rewrite app_nil_r. cbn in Hrest.
    split_and!; [by left|done|]. apply Forall_singleton, from_utf8_chars, Hcs.
  - rewrite take_app_length, drop_app_length, (from_utf8_chars cs Hcs), andb_false_r. intros [= <- <-]. split_and!; [done|done|].
    destruct (concat cs) eqn:Ec; [constructor|]. rewrite <- Ec. apply Forall_singleton, from_utf8_chars, Hcs.
Qed.

(** C27: the chunker of the terminal reader is transparent and respects characters.  However the
    output is cut into reads, the chunks followed by the flush are the output, nothing lost,
    repeated or reordered, at most three bytes wait for the next read; and if the output is
    UTF-8, every single chunk is, and nothing is left to flush. *)
Theorem chunker_transparent (reads : list (list Z)) :
  let '(remainder, chunks) := push_all [] reads in
  concat chunks ++ default [] (finish remainder).2 = concat reads /\
  (length remainder <= 3)%nat /\
  (from_utf8 (concat reads) = true -> Forall (fun c => from_utf8 c = true) chunks /\ (finish remainder).2 = None).
Proof.
  assert (H : forall r, (length r <= 3)%nat -> let '(r', chunks) := push_all r reads in
    concat chunks ++ r' = r ++ concat reads /\ (length r' <= 3)%nat /\
    (partial r -> from_utf8 (r ++ concat reads) = true -> Forall (fun c => from_utf8 c = true) chunks /\ r' = [])).
  { induction reads as [|d reads IH]; intros r Hr; cbn [push_all].
    - cbn. rewrite app_nil_r. split_and!; [done|done|]. intros [->|(q & Hq & Hp & Hc)] Hv; [done|]. exfalso.
      destruct (from_utf8_inv r Hv Hp) as (c & s & -> & Hc' & _).
      destruct (utf8_char_inv c Hc') as (a & l & -> & Hl1 & _). destruct (utf8_char_inv _ Hc) as (a' & l' & [= <- <-] & Hl2 & _).
      cbn [length app] in *. rewrite !length_app in Hl2. assert (Hn : (1 <= length q)%nat) by (destruct q; [done|cbn; lia]).
      pose proof (lead_unique _ _ _ Hl1 Hl2). lia.
    - destruct (push_chunk r d) as [r1 o] eqn:Ep. pose proof (push_chunk_bytes _ _ _ _ Ep) as Hb. pose proof (push_chunk_bound _ _ _ _ Hr Ep) as Hl.
      specialize (IH r1 Hl). destruct (push_all r1 reads) as [r2 outs]. destruct IH as (I1 & I2 & I3). cbn [concat].
      split_and!; [|done|].
      + rewrite concat_app, <- app_assoc, I1, !app_assoc. f_equal. rewrite Hb. by destruct o; cbn; rewrite ?app_nil_r.
      + intros Hp Hv. destruct (push_chunk_text r d (concat reads) r1 o Hv Hp Ep) as (T1 & T2 & T3).
        destruct (I3 T1 T2) as [I4 I5]. split; [by apply Forall_app|done]. }
  specialize (H [] ltac:(cbn; lia)). destruct (push_all [] reads) as [r chunks]. destruct H as (H1 & H2 & H3).
  split_and!; [|done|].
  - cbn in H1. rewrite <- H1. f_equal. by destruct r.
  - intros Hv. destruct (H3 (or_introl eq_refl) Hv) as [H4 ->]. done.
Qed.

End Utf8Facts.

(** ** Facts about the replay buffer *)
Module OutBufFacts.
Import Utf8 Utf8Facts OutBuf.

Definition nl_free (l : list Z) : Prop := NL ∉ l.
(** A complete line. *)
Definition terminated (l : list Z) : Prop := exists l', l = l' ++ [NL] /\ nl_free l'.

(** All lines are complete, but for the last one if it is marked so. *)
Definition ends_ok (incomplete : bool) (ls : list (list Z)) : Prop :=
  if incomplete then exists front l, ls = front ++ [l] /\ Forall terminated front /\ l <> [] /\ nl_free l
  else Forall terminated ls.

Record wf (b : OutputBuffer) : Prop := mkWf {
  wf_size : total_size b = sum_len (lines b);
  wf_lines : ends_ok (last_line_incomplete b) (lines b) }.

Lemma sum_len_app l1 l2 : sum_len (l1 ++ l2) = sum_len l1 + sum_len l2.
Proof. induction l1 as [|x l1 IH]; cbn in *; [done|]. fold sum_len in *. unfold sum_len in *. cbn. lia. Qed.

Lemma sum_len_concat ls : sum_len ls = zlen (concat ls).
Proof. induction ls as [|l ls IH]; [done|]. cbn [concat]. rewrite length_app. unfold sum_len in *. cbn. lia. Qed.

Lemma newline_pos_spec data : match newline_pos data with
  | Some p => exists x y, data = x ++ NL :: y /\ nl_free x /\ p = length x
  | None => nl_free data end.
Proof.
  induction data as [|b data IH]; cbn [newline_pos]; [apply not_elem_of_nil|]. destruct (b =? NL) eqn:E.
  - apply Z.eqb_eq in E as ->. exists [], data. split_and!; [done|apply not_elem_of_nil|done].
  - apply Z.eqb_neq in E. destruct (newline_pos data) as [p|]; cbn [fmap option_fmap option_map].
    + destruct IH as (x & y & -> & Hx & ->). exists (b :: x), y. split_and!; [done| |done]. apply not_elem_of_cons. by split.
    + apply not_elem_of_cons. by split.
Qed.

(** The lines the pieces become. *)
Fixpoint news (ps : list (list Z)) : list (list Z) :=
  match ps with
  | [] => []
  | [p] => match p with [] => [] | _ => [p] end
  | p :: ps => (p ++ [NL]) :: news ps
  end.

Lemma split_nl_spec data : Forall nl_free (split_nl data) /\ concat (news (split_nl data)) = data /\ split_nl data <> [] /\
  (last data = Some NL -> last (split_nl data) = Some []) /\ (last (split_nl data) = Some [] -> data = [] \/ last data = Some NL).
Proof.
  induction data as [|b data (I1 & I2 & I3 & I4 & I5)]; cbn [split_nl].
  - split_and!; [by repeat constructor; apply not_elem_of_nil|done|done|done|by left].
  - destruct (b =? NL) eqn:E.
    + apply Z.eqb_eq in E as ->. destruct (split_nl data) as [|l ls] eqn:Es; [done|]. split_and!.
      * constructor; [apply not_elem_of_nil|done].
      * change (NL :: concat (news (l :: ls)) = NL :: data). by rewrite I2.
      * done.
      * destruct data as [|x data']; [injection Es as <- <-; done|]. intros H. apply I4 in H. done.
      * intros H. right. destruct (I5 H) as [->|Hl]; [done|]. by destruct data.
    + apply Z.eqb_neq in E. destruct (split_nl data) as [|l ls] eqn:Es; [done|]. apply Forall_cons in I1 as [Hl Hls]. split_and!.
      * constructor; [|done]. apply not_elem_of_cons. by split.
      * rewrite <- I2. destruct ls as [|l2 ls]; [destruct l; cbn; by rewrite ?app_nil_r|]. done.
      * done.
      * destruct data as [|x data']; [intros [= ->]; done|]. intros H. apply I4 in H. destruct ls as [|l2 ls]; [|done].
        injection H as ->. cbn in I2. congruence.
      * intros H. destruct ls as [|l2 ls]; [done|]. destruct (I5 H) as [->|Hd]; [done|]. right. by destruct data.
Qed.

Lemma append_pieces_spec ps b ends : (ends = true -> last ps = Some []) ->
  append_pieces b ends ps = mkBuf (lines b ++ news ps) (total_size b + sum_len (news ps))
    (match last ps with Some (_ :: _) => true | _ => last_line_incomplete b end).
Proof.
  revert b. induction ps as [|p ps IH]; intros b He; cbn [append_pieces].
  - cbn. rewrite app_nil_r, Z.add_0_r. by destruct b.
  - destruct ps as [|p2 ps].
    + cbn [is_nil andb negb append_pieces news last]. destruct p as [|x p].
      * cbn. rewrite !andb_false_r. cbn. rewrite app_nil_r, Z.add_0_r. by destruct b.
      * destruct ends; [by specialize (He eq_refl)|]. cbn. f_equal; lia.
    + rewrite IH by done. cbn [is_nil andb negb orb lines total_size last_line_incomplete]. rewrite orb_true_r. cbn [lines total_size last_line_incomplete].
      change (news (p :: p2 :: ps)) with ((p ++ [NL]) :: news (p2 :: ps)). rewrite <- app_assoc. cbn [app].
      change (last (p :: p2 :: ps)) with (last (p2 :: ps)). f_equal. unfold sum_len. cbn [foldr]. lia.
Qed.

Lemma ends_ok_app i a b : Forall terminated a -> ends_ok i b -> ends_ok i (a ++ b).
Proof.
  intros Ha. destruct i; cbn; [|intros; by apply Forall_app].
  intros (front & l & -> & Hf & Hl). exists (a ++ front), l. rewrite app_assoc. split; [done|]. split; [by apply Forall_app|done].
Qed.

Definition opens (ps : list (list Z)) : bool := match last ps with Some (_ :: _) => true | _ => false end.

Lemma news_ends ps : Forall nl_free ps -> ends_ok (opens ps) (news ps).
Proof.
  induction 1 as [|p ps Hp _ IH]; [constructor|]. destruct ps as [|p2 ps].
  - destruct p as [|x p]; [constructor|]. by exists [], (x :: p).
  - change (opens (p :: p2 :: ps)) with (opens (p2 :: ps)). change (news (p :: p2 :: ps)) with ([p ++ [NL]] ++ news (p2 :: ps)).
    apply ends_ok_app; [|done]. apply Forall_singleton. by exists p.
Qed.

(** The last line dropped did not fit, and was complete if anything is left after it. *)
Definition minimal_cut (dropped : list (list Z)) (r : OutputBuffer) : Prop :=
  dropped = [] \/ exists ds d, dropped = ds ++ [d] /\ over (sum_len (d :: lines r)) (d :: lines r) = true /\
    (lines r <> [] -> terminated d).

Lemma trim_spec ls total i : total = sum_len ls -> ends_ok i ls ->
  let r := trim ls total i in
  wf r /\ over (total_size r) (lines r) = false /\
  exists dropped, ls = dropped ++ lines r /\
    minimal_cut dropped r.
Proof.
  revert total i. induction ls as [|l ls IH]; intros total i -> He; cbn [trim].
  - cbn. split_and!; [done|done|]. exists []. split; [done|by left].
  - destruct (over (sum_len (l :: ls)) (l :: ls)) eqn:Eo; [|split_and!; [done|done|exists []; split; [done|by left]]].
    assert (Hs : (if sum_len (l :: ls) <? zlen l then sum_len ls else sum_len (l :: ls) - zlen l) = sum_len ls).
    { unfold sum_len. cbn [foldr]. destruct (_ <? _); lia. }
    rewrite Hs. assert (He' : ends_ok (if is_nil ls then false else i) ls).
    { destruct ls as [|l2 ls]; [constructor|]. cbn [is_nil]. destruct i; [|by apply Forall_cons in He as [_ He]].
      destruct He as ([|f front] & x & E & Hf & Hx); [by injection E|]. injection E as -> E. apply Forall_cons in Hf as [_ Hf]. by exists front, x. }
    destruct (IH _ _ eq_refl He') as (H1 & H2 & dropped & H3 & H4). split_and!; [done|done|].
    exists (l :: dropped). split; [by rewrite H3 at 1|]. right. destruct H4 as [->|(ds & d & -> & Hd)].
    + exists [], l. split; [done|]. cbn in H3. rewrite <- H3. split; [done|]. intros Hne.
      destruct i; [|by apply Forall_cons in He as [? _]]. destruct He as ([|f front] & x & E & Hf & _); injection E as -> E; [done|by apply Forall_cons in Hf as [? _]].
    + by exists (l :: ds), d.
Qed.

(** Appending to a buffer whose last line is complete. *)
Lemma append_rest_spec b rem : wf b -> last_line_incomplete b = false ->
  let r := append_rest b rem in
  wf r /\ over (total_size r) (lines r) = false /\
  exists dropped all, all = dropped ++ lines r /\ concat all = content b ++ rem /\
    minimal_cut dropped r.
Proof.
  intros [Hs Hl] Hi. rewrite Hi in Hl. unfold append_rest. cbv zeta.
  destruct (split_nl_spec rem) as (S1 & S2 & S3 & S4 & S5).
  rewrite append_pieces_spec; [|intros H; by apply bool_decide_eq_true in H; apply S4]. cbn [lines total_size last_line_incomplete]. rewrite Hi.
  assert (He : ends_ok (match last (split_nl rem) with Some (_ :: _) => true | _ => false end) (lines b ++ news (split_nl rem))).
  { apply ends_ok_app; [done|]. by apply news_ends. }
  destruct (trim_spec _ (total_size b + sum_len (news (split_nl rem))) _ ltac:(by rewrite Hs, sum_len_app) He) as (T1 & T2 & dropped & T3 & T4).
  split_and!; [done|done|]. exists dropped, (lines b ++ news (split_nl rem)). split_and!; [done| |done]. by rewrite concat_app, S2.
Qed.

Lemma ends_ok_unfold ls : ends_ok true ls -> exists front l, last ls = Some l /\ take (length ls - 1) ls = front /\
  ls = front ++ [l] /\ Forall terminated front /\ l <> [] /\ nl_free l.
Proof.
  intros (front & l & -> & H). exists front, l. rewrite last_snoc, length_app. cbn [length].
  replace (length front + 1 - 1)%nat with (length front) by lia. by rewrite take_app_length.
Qed.

Lemma cut_after {A} (u : list A) x v : take (S (length u)) (u ++ x :: v) = u ++ [x] /\ drop (S (length u)) (u ++ x :: v) = v.
Proof. induction u as [|y u [IH1 IH2]]; [done|]. cbn in *. by rewrite IH1, IH2. Qed.

(** One append: the new content is a suffix of everything, cut at a line; at most one line too
    many is never dropped; and the limits hold unless an unfinished line is being continued. *)
Lemma append_spec b data : wf b ->
  let r := append b data in
  wf r /\
  (exists dropped all, all = dropped ++ lines r /\ concat all = content b ++ data /\
    minimal_cut dropped r) /\
  ((last_line_incomplete b = true /\ nl_free data /\ length (lines r) = length (lines b) /\ take (length (lines b) - 1) (lines r) = take (length (lines b) - 1) (lines b) /\
      (data <> [] -> last_line_incomplete r = true)) \/
   over (total_size r) (lines r) = false \/ data = []).
Proof.
  intros Hwf. unfold append. destruct data as [|x data]; cbn [is_nil].
  { split; [done|]. split; [|by right; right]. exists [], (lines b). split; [done|]. rewrite app_nil_r. split; [done|by left]. }
  destruct (last_line_incomplete b) eqn:Ei.
  - destruct Hwf as [Hs Hl]. rewrite Ei in Hl. destruct (ends_ok_unfold _ Hl) as (front & l & -> & -> & E & Hf & Hl0 & Hln).
    pose proof (newline_pos_spec (x :: data)) as Hp. destruct (newline_pos (x :: data)) as [p|].
    + destruct Hp as (u & v & Hd & Hu & ->). rewrite Hd.
      rewrite (proj1 (cut_after u NL v)), (proj2 (cut_after u NL v)).
      set (b1 := mkBuf _ _ _). assert (H1 : wf b1).
      { split; cbn; [|apply Forall_app; split; [done|]].
        - rewrite Hs, E, !sum_len_app. unfold sum_len. cbn [foldr]. rewrite !length_app. cbn. lia.
        - apply Forall_singleton. exists (l ++ u). split; [by rewrite app_assoc|]. unfold nl_free. rewrite elem_of_app. by intros [|]. }
      destruct (append_rest_spec b1 v H1 eq_refl) as (A1 & A2 & dropped & all & A3 & A4 & A5).
      split_and!; [done| |by right; left]. exists dropped, all. split_and!; [done| |done]. rewrite A4. unfold content, b1. cbn [lines]. rewrite E, !concat_app. cbn.
      rewrite !app_nil_r, <- !app_assoc. done.
    + cbn [lines total_size last_line_incomplete]. split; [|split].
      * split; cbn [lines total_size last_line_incomplete].
        -- rewrite Hs, E, !sum_len_app. unfold sum_len. cbn [foldr]. rewrite length_app. cbn. lia.
        -- exists front, (l ++ x :: data). split_and!; [done|done|by destruct l|]. unfold nl_free. rewrite elem_of_app. by intros [|].
      * exists [], (front ++ [l ++ x :: data]). split; [done|]. split; [|by left]. unfold content. rewrite E, !concat_app. cbn. by rewrite !app_nil_r, app_assoc.
      * left. rewrite E, !length_app. cbn [length]. split_and!; [done|done|done| |done].
        replace (length front + 1 - 1)%nat with (length front) by lia. by rewrite !take_app_length.
  - destruct (append_rest_spec b (x :: data) Hwf Ei) as (A1 & A2 & dropped & all & A3 & A4 & A5).
    split; [done|]. split; [by exists dropped, all|by right; left].
Qed.

Lemma sum_len_nonneg ls : 0 <= sum_len ls.
Proof. rewrite sum_len_concat. lia. Qed.

Record bounded (b : OutputBuffer) : Prop := mkBounded {
  bd_lines : zlen (lines b) <= MAX_BUFFER_LINES;
  bd_front : sum_len (take (length (lines b) - 1) (lines b)) <= MAX_OUTPUT_BUFFER_SIZE;
  bd_total : last_line_incomplete b = false -> total_size b <= MAX_OUTPUT_BUFFER_SIZE }.

Lemma not_over_bounded b : wf b -> over (total_size b) (lines b) = false -> bounded b.
Proof.
  intros [Hs _] Ho. unfold over in Ho. apply orb_false_iff in Ho as [H1 H2]. apply Z.ltb_ge in H1, H2. split; [done| |done].
  rewrite Hs in H1. rewrite <- (take_drop (length (lines b) - 1) (lines b)), sum_len_app in H1. pose proof (sum_len_nonneg (drop (length (lines b) - 1) (lines b))). lia.
Qed.

Lemma append_bounded b data : wf b -> bounded b -> bounded (append b data).
Proof.
  intros Hwf Hb. destruct (append_spec b data Hwf) as (W & _ & [(Hi & Hn & Hlen & Ht & Hd)|[Ho| ->]]); [|by apply not_over_bounded|done].
  destruct data as [|x data]; [done|]. destruct Hb as [H1 H2 H3]. split.
  - by rewrite Hlen.
  - by rewrite Hlen, Ht.
  - rewrite Hd by done. done.
Qed.

Definition newlines (l : list Z) : nat := length (filter (fun b => b = NL) l).
Lemma newlines_app a b : newlines (a ++ b) = (newlines a + newlines b)%nat.
Proof. unfold newlines. by rewrite filter_app, length_app. Qed.

Lemma newlines_lines ls : Forall terminated ls -> (length ls <= newlines (concat ls))%nat.
Proof.
  induction 1 as [|l ls (l' & -> & _) _ IH]; [done|]. cbn [concat length]. rewrite !newlines_app.
  assert (H1 : newlines [NL] = 1%nat) by done. lia.
Qed.

Lemma ends_ok_newlines i ls : ends_ok i ls -> (length ls <= S (newlines (concat ls)))%nat.
Proof.
  destruct i; [|intros H%newlines_lines; lia]. intros (front & l & -> & Hf & _). apply newlines_lines in Hf.
  rewrite concat_app, newlines_app, length_app. cbn [length]. lia.
Qed.

(** What the buffer keeps of everything appended to it. *)
Lemma append_history (datas : list (list Z)) :
  let b := foldl append buf_new datas in
  wf b /\ bounded b /\
  exists lost, concat datas = lost ++ content b /\
    (zlen (concat datas) <= MAX_OUTPUT_BUFFER_SIZE -> Z.of_nat (newlines (concat datas)) < MAX_BUFFER_LINES -> lost = []).
Proof.
  cbv zeta.
  induction datas as [|d datas (W & B & lost & E & Hl)] using rev_ind.
    - split; [split; [done|constructor]|]. split; [by split|]. by exists [].
    - rewrite foldl_app. cbn [foldl]. set (b := foldl append buf_new datas) in *.
      destruct (append_spec b d W) as (W' & (dropped & all & A1 & A2 & A3) & _). split_and!; [done|by apply append_bounded|].
      exists (lost ++ concat dropped). rewrite concat_app. cbn [concat]. rewrite app_nil_r.
      assert (Hall : content b ++ d = concat dropped ++ content (append b d)) by (rewrite <- A2, A1, concat_app; done).
      split; [by rewrite E, <- app_assoc, Hall, app_assoc|].
      intros Hz Hn. rewrite newlines_app in Hn. rewrite length_app in Hz.
      assert (Hlost : lost = []) by (apply Hl; lia). subst lost. cbn [app] in E. destruct A3 as [->|(ds & x & -> & Ho & Hx)]; [done|]. exfalso.
      rewrite E in Hz, Hn. rewrite <- newlines_app in Hn. rewrite <- length_app in Hz.
      rewrite Hall, concat_app in Hz, Hn. cbn [concat] in Hz, Hn. rewrite app_nil_r, !newlines_app in Hn. rewrite app_nil_r, !length_app in Hz.
      pose proof (ends_ok_newlines _ _ (wf_lines _ W')) as Hk. fold (content (append b d)) in Hk.
      unfold over in Ho. apply orb_true_iff in Ho as [Ho|Ho]; apply Z.ltb_lt in Ho.
      + rewrite sum_len_concat in Ho. cbn [concat] in Ho. rewrite length_app in Ho. fold (content (append b d)) in Ho. lia.
      + destruct (lines (append b d)) as [|y l] eqn:El; [done|]. destruct (Hx ltac:(done)) as (x' & -> & _).
        rewrite newlines_app in Hn. assert (H1 : newlines [NL] = 1%nat) by done. cbn [length] in *. lia.
Qed.

(** The replay buffer holds the most recent output.  Whatever was appended, in whatever
    pieces, its lines are a suffix of the whole output, cut between lines; its size counter is
    exact; it has at most 10000 lines, and without its unfinished last line at most 1 MiB (at
    most 1 MiB altogether when the last line is finished); and nothing is dropped while the
    output fits. *)
Theorem buffer_keeps_recent (datas : list (list Z)) :
  let b := foldl append buf_new datas in let output := concat datas in
  (exists lost, output = lost ++ content b /\
    ((zlen output <= MAX_OUTPUT_BUFFER_SIZE -> Z.of_nat (newlines output) < MAX_BUFFER_LINES -> lost = []))) /\
  total_size b = zlen (content b) /\
  ends_ok (last_line_incomplete b) (lines b) /\
  zlen (lines b) <= MAX_BUFFER_LINES /\
  sum_len (take (length (lines b) - 1) (lines b)) <= MAX_OUTPUT_BUFFER_SIZE /\
  (last_line_incomplete b = false -> total_size b <= MAX_OUTPUT_BUFFER_SIZE).
Proof.
  cbv zeta. destruct (append_history datas) as (W & B & Hlost).
   split_and!; [done| |apply W|apply B|apply B|apply B]. rewrite (wf_size _ W). apply sum_len_concat.
Qed.

(** The bounds above are all there is: an unfinished line may grow past [MAX_OUTPUT_BUFFER_SIZE],
    because [append] returns before it trims when it continues one. *)
Lemma unfinished_line_grows (c : list Z) (n : nat) :
  c <> [] -> nl_free c -> zlen c <= MAX_OUTPUT_BUFFER_SIZE ->
  total_size (foldl append buf_new (repeat c (S n))) = Z.of_nat (S n) * zlen c.
Proof.
  intros Hne Hc Hm.
  assert (Hpos : forall l : list Z, nl_free l -> newline_pos l = None /\ (l <> [] -> split_nl l = [l])).
  { induction l as [|x l IH]; [done|]. intros [Hx Hl]%not_elem_of_cons. destruct (IH Hl) as [IH1 IH2]. cbn [newline_pos split_nl].
    rewrite (proj2 (Z.eqb_neq x NL)) by congruence. rewrite IH1. split; [done|]. intros _. destruct l; [done|]. by rewrite IH2. }
  destruct (Hpos c Hc) as [Hp Hs].
  assert (H1 : append buf_new c = mkBuf [c] (zlen c) true).
  { unfold append. destruct c as [|x c]; [done|]. cbn [is_nil last_line_incomplete buf_new]. unfold append_rest. cbv zeta.
    rewrite Hs, append_pieces_spec by done || (intros H; apply bool_decide_eq_true in H; destruct Hc; by apply last_Some_elem_of).
    cbn [news last lines total_size last_line_incomplete buf_new app]. unfold sum_len. cbn [foldr]. rewrite Z.add_0_r. cbn [trim].
    unfold over. rewrite (proj2 (Z.ltb_ge _ _)) by lia. done. }
  cbn [repeat foldl]. rewrite H1.
  assert (Hrep : forall k l t, foldl append (mkBuf [l] t true) (repeat c k) = mkBuf [l ++ concat (repeat c k)] (t + Z.of_nat k * zlen c) true).
  { induction k as [|k IH]; intros l t; cbn [repeat foldl concat]; [by rewrite app_nil_r, Z.add_0_r|].
    unfold append at 2. destruct c as [|x c']; [done|]. cbn [is_nil last_line_incomplete lines last]. rewrite Hp. cbn [length take Nat.sub app total_size].
    rewrite IH. f_equal; [by rewrite <- app_assoc|cbn [length]; lia]. }
  rewrite Hrep. cbn [total_size]. lia.
Qed.

(** ** Replay *)

Lemma skip_conts_drop n l : exists j, (j <= n)%nat /\ skip_conts n l = drop j l.
Proof.
  revert l. induction n as [|n IH]; intros l; [by exists 0%nat; destruct l|]. destruct l as [|b l]; [by exists 0%nat; split; [lia|]|].
  cbn [skip_conts]. destruct (_ =? _); [|by exists 0%nat; split; [lia|]]. destruct (IH l) as (j & Hj & ->). by exists (S j); split; [lia|].
Qed.

Lemma skip_conts_text a l : from_utf8 (a ++ l) = true -> from_utf8 (skip_conts 3 l) = true.
Proof.
  intros H. destruct (text_suffix a l H) as (j & Hj & Hc & Hv).
  assert (Hskip : forall n j l, (j <= n)%nat -> Forall (fun x => is_cont x = true) (take j l) -> from_utf8 (drop j l) = true -> skip_conts n l = drop j l); [|by rewrite (Hskip 3%nat j l)].
  clear. induction n as [|n IH]; intros j l Hj Hc Hv.
  - destruct j; [|lia]. by destruct l.
  - destruct l as [|b l]; [by destruct j|]. cbn [skip_conts]. destruct j as [|j].
    + cbn [drop] in *. pose proof (text_starts _ _ Hv) as Hb. destruct (_ =? _) eqn:E; [|done]. exfalso.
      destruct (from_utf8_inv _ Hv) as (c & s & Ec & Hcc & _); [done|]. destruct (utf8_char_inv c Hcc) as (a & l' & -> & Hl & _). injection Ec as -> _.
      apply Z.eqb_eq in E. destruct (decide (length l' = 0%nat)) as [H0|H0].
      * cbn [length] in Hl. rewrite H0 in Hl. by destruct (ascii_mask _ Hl).
      * destruct (lead_mask _ _ Hl) as (_ & M & _); [cbn; lia|]. done.
    + cbn in Hc, Hv. apply Forall_cons in Hc as [Hb Hc]. destruct (cont_mask _ Hb) as [_ M]. rewrite (proj2 (Z.eqb_eq _ _) M).
      change (drop (S j) (b :: l)) with (drop j l). apply IH; [lia|done|done].
Qed.

Lemma recent_loop_spec front back m : 0 <= m -> Forall (fun l => l <> []) (front ++ back) -> sum_len back <= m ->
  let r := recent_loop (rev front) m (sum_len back) back in
  (exists pre mid, front = pre ++ mid /\ r = mid ++ back /\ sum_len r <= m /\ (pre = [] \/ exists pre' x, pre = pre' ++ [x] /\ m < zlen x + sum_len r)) \/
  (back = [] /\ exists pre x, front = pre ++ [x] /\ m < zlen x /\
     r = match skip_conts 3 (zdrop (zlen x - m) x) with [] => [] | t => [t] end).
Proof.
  intros Hm. revert back. induction front as [|x front IH] using rev_ind; intros back Hb Hs.
  - left. exists [], []. split_and!; [done|done|done|by left].
  - rewrite rev_app_distr. cbn [rev app recent_loop]. rewrite <- app_assoc in Hb. cbn [app] in Hb. destruct (m <? sum_len back + zlen x) eqn:E.
    + apply Z.ltb_lt in E. destruct (_ && _) eqn:E2.
      * apply andb_true_iff in E2 as [E0 E2]. apply Z.eqb_eq in E0. apply Z.ltb_lt in E2. right.
        assert (Hnil : back = []).
        { apply Forall_app in Hb as [_ [_ Hb]%Forall_cons]. destruct back as [|y back]; [done|]. apply Forall_cons in Hb as [Hy _]. unfold sum_len in E0. cbn [foldr] in E0. fold (sum_len back) in E0.
          pose proof (sum_len_nonneg back). destruct y; [done|cbn in E0; lia]. }
        split; [done|]. exists front, x. rewrite Hnil. split_and!; [done|done|]. by destruct (skip_conts _ _).
      * left. exists (front ++ [x]), []. rewrite app_nil_r. split_and!; [done|done|done|]. right. exists front, x. split; [done|lia].
    + apply Z.ltb_ge in E. assert (Hsum : sum_len (x :: back) = sum_len back + zlen x) by (unfold sum_len; cbn [foldr]; lia).
      rewrite <- Hsum in E |- *. destruct (IH (x :: back) Hb E) as [(pre & mid & -> & Hr & H)|(H & _)]; [|done].
      left. exists pre, (mid ++ [x]). rewrite Hr, <- !app_assoc in *. done.
Qed.

Lemma wf_nonempty b : wf b -> Forall (fun l => l <> []) (lines b).
Proof.
  assert (Ht : forall ls, Forall terminated ls -> Forall (fun l => l <> []) ls) by (intros ls H; eapply Forall_impl; [exact H|]; intros l (l' & -> & _); by destruct l').
  intros [_ Hl]. destruct (last_line_incomplete b); [|by apply Ht]. destruct Hl as (front & l & -> & Hf & Hne & _).
  apply Forall_app. split; [by apply Ht|by apply Forall_singleton].
Qed.

(** The text resumes cleanly at the start of every line. *)
Lemma wf_line_boundary b pre post : wf b -> lines b = pre ++ post -> from_utf8 (content b) = true -> from_utf8 (concat post) = true.
Proof.
  intros W E H. unfold content in H. rewrite E, concat_app in H. destruct pre as [|p pre _] using rev_ind; [done|].
  destruct post as [|x post]; [done|].
  assert (Hp : terminated p).
  { destruct W as [_ Hl]. rewrite E, <- app_assoc in Hl. destruct (last_line_incomplete b).
    - destruct Hl as (front & l & El & Hf & _). cbn [app] in El. destruct (x :: post) as [|z t _] eqn:Ez using rev_ind; [done|].
      change (p :: t ++ [z]) with ((p :: t) ++ [z]) in El. rewrite app_assoc in El. apply app_inj_tail in El as [<- _]. by apply Forall_app in Hf as [_ [Hf _]%Forall_cons].
    - by apply Forall_app in Hl as [_ [Hl _]%Forall_cons]. }
  destruct Hp as (p' & -> & _). apply (text_after_ascii (concat pre ++ p') NL); [|done].
  rewrite <- H, concat_app. cbn [concat]. by rewrite app_nil_r, <- !app_assoc.
Qed.

Lemma get_recent_spec (b : OutputBuffer) (n : nat) : wf b ->
  let m := Z.of_nat n in let r := get_recent b m in
  (exists older, content b = older ++ r) /\ zlen r <= m /\
  (zlen (content b) <= m -> r = content b) /\
  (from_utf8 (content b) = true -> from_utf8 r = true) /\
  (exists pre post, lines b = pre ++ post /\
    ((r = concat post /\ (pre = [] \/ exists pre' x, pre = pre' ++ [x] /\ m < zlen x + zlen r)) \/
     (exists x, post = [x] /\ m < zlen x /\ m - 3 <= zlen r))).
Proof.
  intros W. cbv zeta. set (m := Z.of_nat n). pose proof (wf_nonempty b W) as Hne.
  unfold get_recent. destruct (m =? 0) eqn:E0.
  - apply Z.eqb_eq in E0. rewrite E0. split_and!; [exists (content b); by rewrite app_nil_r|done|by intros Hz; destruct (content b); [|cbn in Hz; lia]|done|].
    exists (lines b), []. rewrite app_nil_r. split; [done|]. left. split; [done|].
    destruct (lines b) as [|x l _] eqn:El using rev_ind; [by left|]. right. exists l, x. split; [done|].
    apply Forall_app in Hne as [_ [Hx _]%Forall_cons]. destruct x; [done|cbn; lia].
  - assert (Hloop := recent_loop_spec (lines b) [] m ltac:(lia) ltac:(by rewrite app_nil_r) ltac:(cbn; lia)).
    change (sum_len []) with 0 in Hloop. cbv zeta in Hloop. revert Hloop. generalize (recent_loop (rev (lines b)) m 0 []).
    intros r0 [(pre & mid & El & Hr & Hs & Hp)|(_ & pre & x & El & Hx & Hr)].
    + rewrite app_nil_r in Hr. subst r0. rewrite sum_len_concat in Hs, Hp.
      assert (Hc : content b = concat pre ++ concat mid) by (unfold content; by rewrite El, concat_app).
      split_and!; [by exists (concat pre)|done| |by apply (wf_line_boundary b pre mid)|].
      * intros Hz. destruct Hp as [->|(pre' & x & -> & Hx)]; [by rewrite Hc|]. exfalso.
        rewrite Hc, concat_app in Hz. cbn [concat] in Hz. rewrite app_nil_r, !length_app in Hz. lia.
      * exists pre, mid. split; [done|]. left. done.
    + subst r0.
      replace (concat match skip_conts 3 (zdrop (zlen x - m) x) with [] => [] | t => [t] end) with (skip_conts 3 (zdrop (zlen x - m) x))
        by (destruct (skip_conts _ _); cbn; by rewrite ?app_nil_r).
      destruct (skip_conts_drop 3 (zdrop (zlen x - m) x)) as (j & Hj & Hd).
      assert (Hc : content b = concat pre ++ take (Z.to_nat (zlen x - m)) x ++ zdrop (zlen x - m) x).
      { unfold content, zdrop. rewrite El, concat_app, take_drop. cbn. by rewrite app_nil_r. }
      assert (Hlen : zlen (zdrop (zlen x - m) x) = m) by (unfold zdrop; rewrite length_drop; lia).
      split_and!.
      * rewrite Hd. exists (concat pre ++ take (Z.to_nat (zlen x - m)) x ++ take j (zdrop (zlen x - m) x)).
        rewrite <- !app_assoc, take_drop. done.
      * rewrite Hd, length_drop. lia.
      * intros Hz. rewrite Hc, !length_app in Hz. unfold zdrop in *. rewrite length_take in Hz. lia.
      * intros Hv. rewrite Hc, app_assoc in Hv. by eapply skip_conts_text.
      * exists pre, [x]. split; [done|]. right. exists x. split_and!; [done|done|]. rewrite Hd, length_drop. lia.
Qed.

(** What a reconnecting client is shown is the end of the session.  [get_recent] returns a
    suffix of the buffer of at most the requested length: the longest run of whole lines that
    fits, or, if the newest line alone does not fit, its end (all but at most three bytes of
    the requested length).  It is the whole buffer if that fits, and it is UTF-8 if the buffer
    is: the cut never falls inside a character. *)
Theorem replay_is_recent (datas : list (list Z)) (n : nat) :
  let b := foldl append buf_new datas in let m := Z.of_nat n in let r := get_recent b m in
  (exists older, content b = older ++ r) /\ zlen r <= m /\
  (zlen (content b) <= m -> r = content b) /\
  (from_utf8 (content b) = true -> from_utf8 r = true) /\
  (exists pre post, lines b = pre ++ post /\
    ((r = concat post /\ (pre = [] \/ exists pre' x, pre = pre' ++ [x] /\ m < zlen x + zlen r)) \/
     (exists x, post = [x] /\ m < zlen x /\ m - 3 <= zlen r))).
Proof. apply get_recent_spec. by destruct (append_history datas). Qed.

End OutBufFacts.
