(* ===== verification/TermService.v ===== *)
(** The terminal service of [src/server/terminal_service.rs], on Unix: the registry of persistent
    services, the sessions, the client's actions and the poll that streams output.

    A pseudo terminal is its current size and whether a resize would succeed; a child process is
    its pid, what [try_wait] would answer and whether [kill] would succeed: the operating system
    changes these between calls.  A channel is the list of what it holds.  Each call is atomic.
    The compressor is a parameter; [now] is the clock in milliseconds. *)

From S2P Require Import Prelude TermBuffer.

Module Term.
Import Utf8 OutBuf.

Definition MAX_SERVICES : Z := 100.
Definition SERVICE_IDLE_TIMEOUT : Z := 3600 * 1000.
Definition CHANNEL_BUFFER_SIZE : nat := 500.
Definition COMPRESS_THRESHOLD : Z := 512.
Definition DEFAULT_RECONNECT_BUFFER_BYTES : Z := 8 * 1024.
Definition MAX_SIGWINCH_PHASE_ATTEMPTS : Z := 3.

Inductive SigwinchPhase := Idle | TempResize (retries : Z) | Restore (retries : Z).
Inductive SigwinchAction := ATempResize | ARestore.
Inductive SessionState :=
| Closed
| Active (pending_buffer : option (list Z)) (sigwinch : SigwinchPhase).

(** ** The operating system *)

Inductive WaitResult := Running | Exited (code : Z) | WaitErr.
Record Child := mkChild { child_pid : Z; try_wait : WaitResult; kill_ok : bool }.
Record Pty := mkPty { pty_rows : Z; pty_cols : Z; resize_ok : bool }.
(** What opening a pseudo terminal and starting the shell gives: the shell may not start, or start
    and then its writer ([take_writer]) or reader ([try_clone_reader]) not be had. *)
Inductive Spawn := SpawnOk (child : Child) | SpawnErr (msg : string) | SpawnLost (child : Child) (msg : string).

(** [master.resize] *)
Definition pty_resize (p : Pty) (rows cols : Z) : option Pty :=
  if p.(resize_ok) then Some (mkPty rows cols true) else None.

(** ** Sessions *)

(** The reader thread: its chunker and whether it has returned. *)
Record Reader := mkReader { remainder : list Z; finished : bool }.

Record TerminalSession := mkSession {
  last_activity : Z;
  pty_pair : option Pty;
  child : option Child;
  input_tx : option (list (list Z));
  output_rx : option (list (list Z));
  exiting : bool;
  reader_thread : option Reader;
  output_buffer : OutputBuffer;
  rows : Z;
  cols : Z;
  spid : Z;
  closed_message_sent : bool;
  state : SessionState }.

Definition set_last_activity (s : TerminalSession) (v : Z) : TerminalSession :=
  mkSession v s.(pty_pair) s.(child) s.(input_tx) s.(output_rx) s.(exiting) s.(reader_thread) s.(output_buffer) s.(rows) s.(cols) s.(spid) s.(closed_message_sent) s.(state).
Definition set_pty_pair (s : TerminalSession) (v : option Pty) : TerminalSession :=
  mkSession s.(last_activity) v s.(child) s.(input_tx) s.(output_rx) s.(exiting) s.(reader_thread) s.(output_buffer) s.(rows) s.(cols) s.(spid) s.(closed_message_sent) s.(state).
Definition set_child (s : TerminalSession) (v : option Child) : TerminalSession :=
  mkSession s.(last_activity) s.(pty_pair) v s.(input_tx) s.(output_rx) s.(exiting) s.(reader_thread) s.(output_buffer) s.(rows) s.(cols) s.(spid) s.(closed_message_sent) s.(state).
Definition set_input_tx (s : TerminalSession) (v : option (list (list Z))) : TerminalSession :=
  mkSession s.(last_activity) s.(pty_pair) s.(child) v s.(output_rx) s.(exiting) s.(reader_thread) s.(output_buffer) s.(rows) s.(cols) s.(spid) s.(closed_message_sent) s.(state).
Definition set_output_rx (s : TerminalSession) (v : option (list (list Z))) : TerminalSession :=
  mkSession s.(last_activity) s.(pty_pair) s.(child) s.(input_tx) v s.(exiting) s.(reader_thread) s.(output_buffer) s.(rows) s.(cols) s.(spid) s.(closed_message_sent) s.(state).
Definition set_reader (s : TerminalSession) (v : option Reader) : TerminalSession :=
  mkSession s.(last_activity) s.(pty_pair) s.(child) s.(input_tx) s.(output_rx) s.(exiting) v s.(output_buffer) s.(rows) s.(cols) s.(spid) s.(closed_message_sent) s.(state).
Definition set_output_buffer (s : TerminalSession) (v : OutputBuffer) : TerminalSession :=
  mkSession s.(last_activity) s.(pty_pair) s.(child) s.(input_tx) s.(output_rx) s.(exiting) s.(reader_thread) v s.(rows) s.(cols) s.(spid) s.(closed_message_sent) s.(state).
Definition set_size (s : TerminalSession) (r c : Z) : TerminalSession :=
  mkSession s.(last_activity) s.(pty_pair) s.(child) s.(input_tx) s.(output_rx) s.(exiting) s.(reader_thread) s.(output_buffer) r c s.(spid) s.(closed_message_sent) s.(state).
Definition set_closed_message_sent (s : TerminalSession) (v : bool) : TerminalSession :=
  mkSession s.(last_activity) s.(pty_pair) s.(child) s.(input_tx) s.(output_rx) s.(exiting) s.(reader_thread) s.(output_buffer) s.(rows) s.(cols) s.(spid) v s.(state).
Definition set_state (s : TerminalSession) (v : SessionState) : TerminalSession :=
  mkSession s.(last_activity) s.(pty_pair) s.(child) s.(input_tx) s.(output_rx) s.(exiting) s.(reader_thread) s.(output_buffer) s.(rows) s.(cols) s.(spid) s.(closed_message_sent) v.
Definition set_exiting (s : TerminalSession) (v : bool) : TerminalSession :=
  mkSession s.(last_activity) s.(pty_pair) s.(child) s.(input_tx) s.(output_rx) v s.(reader_thread) s.(output_buffer) s.(rows) s.(cols) s.(spid) s.(closed_message_sent) s.(state).

Definition session_new (now rows cols : Z) : TerminalSession :=
  mkSession now None None None None false None buf_new rows cols 0 false Closed.

(** [TerminalSession::stop]: the session and the child for the reaper. *)
Definition stop (s : TerminalSession) : TerminalSession * option Child :=
  let s := set_exiting (set_state s Closed) true in
  let s := set_input_tx s None in
  let s := set_output_rx s None in
  let s := set_pty_pair s None in
  let s := set_reader s None in
  (set_child s None, s.(child)).

(** ** The reader thread *)

(** [try_send_output]: the queue after, or [None] if the receiver is gone. *)
Definition try_send_output (queue : option (list (list Z))) (data : list Z) : option (list (list Z)) :=
  match queue with
  | None => None
  | Some q => Some (if (CHANNEL_BUFFER_SIZE <=? length q)%nat then q else q ++ [data])
  end.

(** One turn of the reader's loop on [reader.read] returning [data] (end of file if empty). *)
Definition reader_read (s : TerminalSession) (data : list Z) : TerminalSession :=
  match s.(reader_thread) with
  | Some r =>
    if r.(finished) then s else
    match data with
    | [] =>
      let s := match (finish r.(remainder)).2 with
        | Some d => match try_send_output s.(output_rx) d with Some q => set_output_rx s (Some q) | None => s end
        | None => s
        end in
      set_reader s (Some (mkReader [] true))
    | _ =>
      if s.(exiting) then set_reader s (Some (mkReader r.(remainder) true)) else
      match push_chunk r.(remainder) data with
      | (rem, None) => set_reader s (Some (mkReader rem false))
      | (rem, Some d) =>
        match try_send_output s.(output_rx) d with
        | Some q => set_reader (set_output_rx s (Some q)) (Some (mkReader rem false))
        | None => set_reader s (Some (mkReader rem true))
        end
      end
    end
  | None => s
  end.

(** ** Services and the registry *)

Record Service := mkService {
  service_id : string;
  sessions : gmap Z TerminalSession;
  svc_last_activity : Z;
  is_persistent : bool;
  needs_session_sync : bool;
  is_specified_user : bool }.

Definition set_sessions (v : Service) (m : gmap Z TerminalSession) : Service :=
  mkService v.(service_id) m v.(svc_last_activity) v.(is_persistent) v.(needs_session_sync) v.(is_specified_user).
Definition set_svc_activity (v : Service) (now : Z) : Service :=
  mkService v.(service_id) v.(sessions) now v.(is_persistent) v.(needs_session_sync) v.(is_specified_user).
Definition set_svc_persistent (v : Service) (b : bool) : Service :=
  mkService v.(service_id) v.(sessions) v.(svc_last_activity) b v.(needs_session_sync) v.(is_specified_user).
Definition set_needs_sync (v : Service) (b : bool) : Service :=
  mkService v.(service_id) v.(sessions) v.(svc_last_activity) v.(is_persistent) b v.(is_specified_user).

Definition service_new (now : Z) (id : string) (persistent specified : bool) : Service :=
  mkService id ∅ now persistent false specified.

Definition reset_status (v : Service) (persistent : bool) : Service :=
  set_sessions (set_needs_sync (set_svc_persistent v persistent) true)
    ((fun s => set_state s Closed) <$> v.(sessions)).

(** [TERMINAL_SERVICES] and [TERMINAL_TASKS] *)
Record World := mkWorld { services : gmap string Service; tasks : list Child }.
Definition set_services (w : World) (m : gmap string Service) : World := mkWorld m w.(tasks).
Definition add_to_reaper (w : World) (c : option Child) : World := mkWorld w.(services) (w.(tasks) ++ option_list c).
Definition put_service (w : World) (v : Service) : World := set_services w (<[v.(service_id) := v]> w.(services)).

Definition get_or_create_service (now : Z) (w : World) (id : string) (persistent specified : bool) : result World string :=
  if bool_decide (w.(services) !! id = None) && (MAX_SERVICES <=? Z.of_nat (size w.(services)))
  then Err "Maximum number of terminal services (100) reached"%string
  else
    let service := default (service_new now id persistent specified) (w.(services) !! id) in
    Ok (set_services w (<[id := reset_status service persistent]> w.(services))).

(** The children of the sessions, in the map's order. *)
Definition stop_all (m : gmap Z TerminalSession) : list Child :=
  omap (fun e : Z * TerminalSession => (stop e.2).2) (map_to_list m).

Definition remove_service (w : World) (id : string) : World :=
  match w.(services) !! id with
  | Some v => mkWorld (delete id w.(services)) (w.(tasks) ++ stop_all v.(sessions))
  | None => w
  end.

Definition service_expired (now : Z) (v : Service) : bool :=
  (negb v.(is_persistent) && (SERVICE_IDLE_TIMEOUT <? now - v.(svc_last_activity))) ||
  (v.(is_persistent) && bool_decide (v.(sessions) = ∅) && (SERVICE_IDLE_TIMEOUT * 2 <? now - v.(svc_last_activity))).

Definition cleanup_inactive_services (now : Z) (w : World) : World :=
  let to_remove := omap (fun e : string * Service => if service_expired now e.2 then Some e.1 else None) (map_to_list w.(services)) in
  foldl remove_service w to_remove.

(** The loop with its index: a child is dropped unless it is still running. *)
Fixpoint reap (l : list Child) : list Child :=
  match l with
  | [] => []
  | c :: l => match c.(try_wait) with Running => c :: reap l | Exited _ | WaitErr => reap l end
  end.
Definition check_zombie_terminals (w : World) : World := mkWorld w.(services) (reap w.(tasks)).

Definition set_persistent (w : World) (id : string) (persistent : bool) : result World string :=
  match w.(services) !! id with
  | Some v => Ok (set_services w (<[id := set_svc_persistent v persistent]> w.(services)))
  | None => Err (String.append "Service " (String.append id " not found"))
  end.

(** ** The client's actions *)

Record OpenTerminal := mkOpen { o_terminal_id : Z; o_rows : Z; o_cols : Z }.
Record ResizeTerminal := mkResize { r_terminal_id : Z; r_rows : Z; r_cols : Z }.
Record TerminalData := mkData { d_terminal_id : Z; d_data : list Z; d_compressed : bool }.
Inductive TerminalAction :=
| AOpen (o : OpenTerminal) | AResize (r : ResizeTerminal) | AData (d : TerminalData) | AClose (terminal_id : Z) | AOther.

Record TerminalOpened := mkOpened {
  terminal_id : Z; success : bool; message : string; pid : Z; opened_service_id : string;
  replay_terminal_output : bool; persistent_sessions : list Z }.
Inductive TerminalResponse :=
| ROpened (o : TerminalOpened) | RData (d : TerminalData) | RClosed (terminal_id exit_code : Z) | RError (message : string).

Record TerminalServiceProxy := mkProxy { proxy_service_id : string; proxy_persistent : bool }.

Definition proxy_new (w : World) (id : string) (persistent : option bool) : TerminalServiceProxy :=
  mkProxy id (match persistent with
    | Some b => b
    | None => match w.(services) !! id with Some v => v.(is_persistent) | None => false end
    end).

(** [keys().min()] *)
Definition min_key (m : gmap Z TerminalSession) : option Z :=
  match (map_to_list m).*1 with [] => None | k :: ks => Some (foldl Z.min k ks) end.

(** A reconnecting client that asks for an unknown terminal gets the surviving one with the
    lowest id. *)
Definition remap_lowest (v : Service) (id : Z) : Service :=
  if bool_decide (v.(sessions) !! id = None) && v.(needs_session_sync) && negb (bool_decide (v.(sessions) = ∅)) then
    match min_key v.(sessions) with
    | Some lowest =>
      match v.(sessions) !! lowest with
      | Some s => set_sessions v (<[id := s]> (delete lowest v.(sessions)))
      | None => v
      end
    | None => v
    end
  else v.

(** The session of a reconnecting client: up to [CHANNEL_BUFFER_SIZE] chunks of backlog join the
    buffer, its end is queued for replay and a redraw is scheduled. *)
Definition reconnect_session (s : TerminalSession) : TerminalSession * bool :=
  let backlog := match s.(output_rx) with Some q => take CHANNEL_BUFFER_SIZE q | None => [] end in
  let rest := match s.(output_rx) with Some q => Some (drop CHANNEL_BUFFER_SIZE q) | None => None end in
  let buffer := get_recent s.(output_buffer) DEFAULT_RECONNECT_BUFFER_BYTES in
  let output_buffer := foldl append s.(output_buffer) backlog in
  let buffer := if negb (is_nil backlog) then get_recent output_buffer DEFAULT_RECONNECT_BUFFER_BYTES else buffer in
  let has_pending := negb (is_nil buffer) in
  let s := set_output_buffer (set_output_rx s rest) output_buffer in
  (set_state s (Active (if has_pending then Some buffer else None) (TempResize MAX_SIGWINCH_PHASE_ATTEMPTS)), has_pending).

Definition handle_open (now : Z) (proxy : TerminalServiceProxy) (v : Service) (o : OpenTerminal) (spawn : Spawn) :
    Service * result (option TerminalResponse) string :=
  let id := o.(o_terminal_id) in
  let v := remap_lowest v id in
  match v.(sessions) !! id with
  | Some s =>
    let '(s, has_pending) := reconnect_session s in
    let others := if v.(needs_session_sync) && (1 <? Z.of_nat (size v.(sessions)))
      then List.filter (fun k => negb (k =? id)) (map_to_list v.(sessions)).*1 else [] in
    let opened := mkOpened id true
      (if has_pending then "Reconnected to existing terminal with pending output" else "Reconnected to existing terminal")%string
      s.(spid) proxy.(proxy_service_id) has_pending others in
    (set_needs_sync (set_sessions v (<[id := s]> v.(sessions))) false, Ok (Some (ROpened opened)))
  | None =>
    match spawn with
    | SpawnErr e => (v, Err e)
    | SpawnLost _ e => (v, Err e) (* the shell is dropped as it runs *)
    | SpawnOk c =>
      let rows := wrap 16 o.(o_rows) in
      let cols := wrap 16 o.(o_cols) in
      let s := mkSession now (Some (mkPty rows cols true)) (Some c) (Some []) (Some []) false (Some (mkReader [] false)) buf_new
        rows cols c.(child_pid) false (Active None Idle) in
      let others := if v.(needs_session_sync) then (map_to_list v.(sessions)).*1 else [] in
      let opened := mkOpened id true "Terminal opened" s.(spid) v.(service_id) false others in
      (set_needs_sync (set_sessions v (<[id := s]> v.(sessions))) false, Ok (Some (ROpened opened)))
    end
  end.

Definition handle_resize (now : Z) (s : TerminalSession) (r : ResizeTerminal) : TerminalSession * result (option TerminalResponse) string :=
  let s := set_size (set_last_activity s now) (wrap 16 r.(r_rows)) (wrap 16 r.(r_cols)) in
  match s.(pty_pair) with
  | Some p =>
    match pty_resize p (wrap 16 r.(r_rows)) (wrap 16 r.(r_cols)) with
    | Some p => (set_pty_pair s (Some p), Ok None)
    | None => (s, Err "resize failed"%string)
    end
  | None => (s, Ok None)
  end.

Definition handle_data (now : Z) (s : TerminalSession) (d : TerminalData) : TerminalSession :=
  let s := set_last_activity s now in
  match s.(input_tx) with Some q => set_input_tx s (Some (q ++ [d.(d_data)])) | None => s end.

(** The service, the children for the reaper and the answer. *)
Definition handle_close (v : Service) (id : Z) : Service * option Child * result (option TerminalResponse) string :=
  match v.(sessions) !! id with
  | Some s =>
    let v := set_sessions v (delete id v.(sessions)) in
    match s.(child) with
    | Some c => if c.(kill_ok) then (v, Some c, Ok (Some (RClosed id (-1)))) else (v, None, Err "kill failed"%string)
    | None => (v, None, Ok (Some (RClosed id 0)))
    end
  | None => (v, None, Ok None)
  end.

Definition handle_action (now : Z) (proxy : TerminalServiceProxy) (w : World) (a : TerminalAction) (spawn : Spawn) :
    World * result (option TerminalResponse) string :=
  match w.(services) !! proxy.(proxy_service_id) with
  | None => (w, Ok (Some (RError (String.append "Terminal service " (String.append proxy.(proxy_service_id) " not found")))))
  | Some v =>
    let v := set_svc_activity v now in
    let put v := set_services w (<[proxy.(proxy_service_id) := v]> w.(services)) in
    match a with
    | AOpen o => let '(v, r) := handle_open now proxy v o spawn in (put v, r)
    | AResize r =>
      match v.(sessions) !! r.(r_terminal_id) with
      | Some s => let '(s, res) := handle_resize now s r in (put (set_sessions v (<[r.(r_terminal_id) := s]> v.(sessions))), res)
      | None => (put v, Ok None)
      end
    | AData d =>
      match v.(sessions) !! d.(d_terminal_id) with
      | Some s => (put (set_sessions v (<[d.(d_terminal_id) := handle_data now s d]> v.(sessions))), Ok None)
      | None => (put v, Ok None)
      end
    | AClose id => let '(v, c, r) := handle_close v id in (add_to_reaper (put v) c, r)
    | AOther => (put v, Ok None)
    end
  end.

(** ** The poll *)
Section Compressor.
Variable compress : list Z -> list Z.

Definition create_terminal_data_response (id : Z) (data : list Z) : TerminalResponse :=
  if COMPRESS_THRESHOLD <? zlen data then
    let compressed := compress data in
    if zlen compressed <? zlen data then RData (mkData id compressed true) else RData (mkData id data false)
  else RData (mkData id data false).

Definition temp_rows (rows : Z) : Z := if 2 <? rows then sat_sub rows 1 else sat_add 16 rows 1.

(** [do_sigwinch_resize]: the terminal after a successful resize. *)
Definition do_sigwinch_resize (s : TerminalSession) (action : SigwinchAction) : option Pty :=
  if (s.(rows) =? 0) || (s.(cols) =? 0) then None else
  let target_rows := match action with ATempResize => temp_rows s.(rows) | ARestore => s.(rows) end in
  match s.(pty_pair) with Some p => pty_resize p target_rows s.(cols) | None => None end.

(** The phase and the action it asks for. *)
Definition sigwinch_next (p : SigwinchPhase) : SigwinchPhase * option SigwinchAction :=
  match p with
  | TempResize retries => if retries =? 0 then (Idle, None) else (TempResize (retries - 1), Some ATempResize)
  | Restore retries => if retries =? 0 then (Idle, None) else (Restore (retries - 1), Some ARestore)
  | Idle => (Idle, None)
  end.

Definition session_ended (s : TerminalSession) : bool :=
  negb s.(closed_message_sent) &&
  (match s.(reader_thread) with Some r => r.(finished) | None => false end ||
   match s.(child) with Some c => match c.(try_wait) with Exited _ => true | _ => false end | None => false end).

(** One session of [read_outputs]: the session after, its responses, whether it is to be closed. *)
Definition poll_session (now id : Z) (s : TerminalSession) : TerminalSession * list TerminalResponse * bool :=
  let ended := session_ended s in
  let s := if ended then set_closed_message_sent s true else s in
  let received := default [] s.(output_rx) in
  let s := match s.(output_rx) with Some _ => set_output_rx s (Some []) | None => s end in
  let s := set_output_buffer s (foldl append s.(output_buffer) received) in
  match s.(state) with
  | Closed => (s, [], ended)
  | Active pending sigwinch =>
    let '(sigwinch, action) := sigwinch_next sigwinch in
    let s := set_state s (Active None sigwinch) in
    let replay := match pending with Some ((_ :: _) as buffer) => [create_terminal_data_response id buffer] | _ => [] end in
    let s := if negb (is_nil received) then set_last_activity s now else s in
    let s := match action with
      | None => s
      | Some action =>
        match do_sigwinch_resize s action with
        | Some p => set_state (set_pty_pair s (Some p))
            (Active None (match action with ATempResize => Restore MAX_SIGWINCH_PHASE_ATTEMPTS | ARestore => Idle end))
        | None => s
        end
      end in
    (s, replay ++ (create_terminal_data_response id <$> received), ended)
  end.

(** A closed terminal: its child goes to the reaper and the session is removed. *)
Definition close_one (persistent : bool) (w : gmap Z TerminalSession * list Child * list TerminalResponse) (id : Z) :
    gmap Z TerminalSession * list Child * list TerminalResponse :=
  let '(m, reaped, rs) := w in
  match m !! id with
  | Some s =>
    let exit_code := match s.(child) with Some c => match c.(try_wait) with Exited code => code | _ => 0 end | None => 0 end in
    let m := if negb persistent || s.(closed_message_sent) then delete id m else <[id := set_child s None]> m in
    (m, reaped ++ option_list s.(child), rs ++ [RClosed id exit_code])
  | None => (m, reaped, rs ++ [RClosed id 0])
  end.

(** The first loop: [busy] are the sessions whose lock is taken. *)
Fixpoint poll_all (now : Z) (busy : Z -> bool) (l : list (Z * TerminalSession)) (m : gmap Z TerminalSession) :
    gmap Z TerminalSession * list TerminalResponse * list Z :=
  match l with
  | [] => (m, [], [])
  | (id, s) :: l =>
    if busy id then poll_all now busy l m else
    let '(s, rs, ended) := poll_session now id s in
    let '(m, rs', closed) := poll_all now busy l (<[id := s]> m) in
    (m, rs ++ rs', if ended then id :: closed else closed)
  end.

Definition read_outputs (now : Z) (busy : Z -> bool) (proxy : TerminalServiceProxy) (w : World) : World * list TerminalResponse :=
  match w.(services) !! proxy.(proxy_service_id) with
  | None => (w, [])
  | Some v =>
    let '(m, responses, closed) := poll_all now busy (map_to_list v.(sessions)) v.(sessions) in
    let '(m, reaped, closings) := foldl (close_one proxy.(proxy_persistent)) (m, [], []) closed in
    (mkWorld (<[proxy.(proxy_service_id) := set_sessions v m]> w.(services)) (w.(tasks) ++ reaped), responses ++ closings)
  end.

End Compressor.

(** [on_disconnect], and the end of [run]. *)
Definition on_disconnect (proxy : TerminalServiceProxy) (w : World) : World :=
  if negb proxy.(proxy_persistent) then remove_service w proxy.(proxy_service_id) else w.
Definition run_cleanup (id : string) (w : World) : World :=
  match w.(services) !! id with
  | Some v => if negb v.(is_persistent) then remove_service w id else w
  | None => w
  end.

End Term.
