(* ===== verification/TermFacts.v ===== *)
(** What the terminal service guarantees: the poll, reconnection, the redraw protocol and the
    registry. *)

From S2P Require Import Prelude TermBuffer TermService.

(** ** The poll *)
Module PollFacts.
Import Utf8 OutBuf Utf8Facts OutBufFacts Term.

Definition response_id (r : TerminalResponse) : option Z :=
  match r with
  | ROpened o => Some o.(terminal_id) | RData d => Some d.(d_terminal_id) | RClosed id _ => Some id | RError _ => None
  end.
Definition of_terminal (id : Z) (rs : list TerminalResponse) : list TerminalResponse :=
  List.filter (fun r => bool_decide (response_id r = Some id)) rs.

Lemma of_terminal_app id a b : of_terminal id (a ++ b) = of_terminal id a ++ of_terminal id b.
Proof. apply List.filter_app. Qed.

Lemma of_terminal_all id rs : Forall (fun r => response_id r = Some id) rs -> of_terminal id rs = rs.
Proof. induction 1 as [|r rs Hr _ IH]; [done|]. unfold of_terminal in *. cbn. rewrite Hr, bool_decide_eq_true_2 by done. by rewrite IH. Qed.

Lemma of_terminal_none id rs : Forall (fun r => response_id r <> Some id) rs -> of_terminal id rs = [].
Proof. induction 1 as [|r rs Hr _ IH]; [done|]. unfold of_terminal in *. cbn. by rewrite bool_decide_eq_false_2 by done. Qed.

Section Compressor.
Variable compress : list Z -> list Z.
Local Abbreviation response := (create_terminal_data_response compress).

Lemma response_id_data id d : response_id (response id d) = Some id.
Proof. unfold create_terminal_data_response. cbv zeta. by repeat case_match. Qed.

(** What a session contributes to a poll before its closing message. *)
Definition session_output (id : Z) (s : TerminalSession) : list TerminalResponse :=
  match s.(state) with
  | Closed => []
  | Active pending _ =>
    match pending with Some ((_ :: _) as buffer) => [response id buffer] | _ => [] end ++ (response id <$> default [] s.(output_rx))
  end.

(** The replay is taken out by the poll that sends it. *)
Definition polled (st st' : SessionState) : Prop :=
  match st with Closed => st' = Closed | Active _ _ => exists sw, st' = Active None sw end.

Lemma poll_session_spec now id s : let '(s', rs, ended) := poll_session compress now id s in
  ended = session_ended s /\ rs = session_output id s /\ child s' = child s /\
  closed_message_sent s' = closed_message_sent s || session_ended s /\
  output_buffer s' = foldl append (output_buffer s) (default [] (output_rx s)) /\
  output_rx s' = (if output_rx s then Some [] else None) /\ polled (state s) (state s').
Proof.
  unfold poll_session, session_output. cbv zeta. set (s1 := set_output_buffer _ _).
  assert (H1 : state s1 = state s /\ child s1 = child s /\ closed_message_sent s1 = closed_message_sent s || session_ended s /\
    output_buffer s1 = foldl append (output_buffer s) (default [] (output_rx s)) /\ output_rx s1 = (if output_rx s then Some [] else None)).
  { unfold s1. destruct (session_ended s); cbn [set_closed_message_sent output_rx output_buffer]; destruct (output_rx s) eqn:E; cbn; rewrite ?E, ?orb_false_r, ?orb_true_r. all: split_and!; try done. }
  assert (Hrx : default [] (output_rx (if session_ended s then set_closed_message_sent s true else s)) = default [] (output_rx s)) by (by destruct (session_ended s)).
  rewrite Hrx. clearbody s1. destruct H1 as (H1 & H2 & H3 & H4 & H5). rewrite H1. destruct (state s) as [|pending sw] eqn:Es; [by split_and!|].
  destruct (sigwinch_next sw) as [sw' act].
  set (x := match act with None => _ | Some _ => _ end).
  assert (Hx : child x = child s1 /\ closed_message_sent x = closed_message_sent s1 /\ output_buffer x = output_buffer s1 /\ output_rx x = output_rx s1).
  { unfold x. destruct act as [a|]; [destruct (do_sigwinch_resize _ a)|]; destruct (is_nil _); by split_and!. }
  assert (Hst : exists sw2, state x = Active None sw2).
  { unfold x. destruct act as [a|]; [destruct (do_sigwinch_resize _ a)|]; destruct (is_nil _); by eexists. }
  destruct Hx as (-> & -> & -> & ->). by split_and!.
Qed.

Lemma session_output_ids id s : Forall (fun r => response_id r = Some id) (session_output id s).
Proof.
  unfold session_output. destruct (state s) as [|pending sw]; [constructor|]. apply Forall_app. split.
  - destruct pending as [[|x b]|]; [constructor| |constructor]. apply Forall_singleton, response_id_data.
  - apply Forall_fmap, Forall_true. intros d. apply response_id_data.
Qed.

Lemma poll_session_ids now id s : Forall (fun r => response_id r = Some id) (poll_session compress now id s).1.2.
Proof.
  pose proof (poll_session_spec now id s) as H. destruct (poll_session compress now id s) as [[s' rs] ended].
  destruct H as (_ & -> & _). apply session_output_ids.
Qed.

(** The sent mark and the child of a polled session. *)
Lemma poll_session_closed now id s : let p := poll_session compress now id s in
  p.2 = session_ended s /\ (session_ended s = true -> closed_message_sent p.1.1 = true) /\ child p.1.1 = child s.
Proof.
  pose proof (poll_session_spec now id s) as H. cbv zeta. destruct (poll_session compress now id s) as [[s' rs] ended].
  destruct H as (-> & _ & Hc & Hm & _). cbn [fst snd]. split_and!; [done| |done]. rewrite Hm. intros ->. apply orb_true_r.
Qed.

(** The first loop, over sessions with different ids. *)
Lemma poll_all_spec now busy l m : NoDup l.*1 ->
  let '(m', rs, closed) := poll_all compress now busy l m in
  NoDup closed /\
  (forall id, id ∈ closed <-> exists s, (id, s) ∈ l /\ busy id = false /\ session_ended s = true) /\
  (forall id s, (id, s) ∈ l -> busy id = false -> m' !! id = Some (poll_session compress now id s).1.1 /\ of_terminal id rs = (poll_session compress now id s).1.2) /\
  (forall id, (id ∉ l.*1 \/ busy id = true) -> m' !! id = m !! id /\ of_terminal id rs = []).
Proof.
  revert m. induction l as [|[i s] l IH]; intros m Hnd; cbn [poll_all].
  - split_and!; [constructor|intros id; split; [by intros ?%elem_of_nil|by intros (? & ?%elem_of_nil & _)]|by intros ? ? ?%elem_of_nil|done].
  - cbn [fmap list_fmap] in Hnd. apply NoDup_cons in Hnd as [Hi Hnd].
    destruct (busy i) eqn:Hb.
    + specialize (IH m Hnd). destruct (poll_all compress now busy l m) as [[m' rs] closed]. destruct IH as (I1 & I2 & I3 & I4).
      split_and!; [done| | |].
      * intros id. rewrite I2. split; intros (s' & H & H').
        -- exists s'. split; [by right|done].
        -- apply elem_of_cons in H as [[= -> ->]|H]; [by destruct H'; congruence|by exists s'].
      * intros id s' H Hbi. apply elem_of_cons in H as [[= -> ->]|H]; [congruence|by apply I3].
      * intros id [H|H]; apply I4; [|by right]. left. intros H'. apply H. by right.
    + pose proof (poll_session_ids now i s) as Hids. pose proof (poll_session_closed now i s) as (He & _ & _).
      destruct (poll_session compress now i s) as [[s1 rs1] ended] eqn:Ep. cbn [fst snd] in *. subst ended.
      specialize (IH (<[i:=s1]> m) Hnd). destruct (poll_all compress now busy l (<[i:=s1]> m)) as [[m' rs] closed]. destruct IH as (I1 & I2 & I3 & I4).
      assert (Hother : forall id, id <> i -> of_terminal id rs1 = []).
      { intros id Hne. apply of_terminal_none. eapply Forall_impl; [exact Hids|]. cbn. intros r ->. congruence. }
      destruct (I4 i (or_introl Hi)) as [I5 I6]. split_and!.
      * destruct (session_ended s); [|done]. apply NoDup_cons. split; [|done]. rewrite I2. intros (s' & H & _). apply Hi. by apply (list_elem_of_fmap_2 fst) in H.
      * intros id. assert (Hc : id ∈ (if session_ended s then i :: closed else closed) <-> (id = i /\ session_ended s = true) \/ id ∈ closed).
        { destruct (session_ended s); [rewrite elem_of_cons|]; naive_solver. }
        rewrite Hc, I2. split.
        -- intros [[-> H]|(s' & H & H')]; [exists s; split; [by left|done]|exists s'; split; [by right|done]].
        -- intros (s' & H & H1 & H2). apply elem_of_cons in H as [[= -> ->]|H]; [by left|right; by exists s'].
      * intros id s' H Hbi. rewrite of_terminal_app. apply elem_of_cons in H as [[= -> ->]|H].
        -- rewrite Ep. cbn [fst snd]. rewrite I5, I6, lookup_insert_eq, app_nil_r. split; [done|]. by apply of_terminal_all.
        -- rewrite Hother; [by apply I3|]. intros ->. apply Hi. by apply (list_elem_of_fmap_2 fst) in H.
      * intros id H. rewrite of_terminal_app. assert (Hne : id <> i) by (destruct H as [H|H]; [intros ->; apply H; by left|congruence]).
        rewrite Hother by done. destruct (I4 id) as [I7 I8]; [destruct H as [H|H]; [left; intros H'; apply H; by right|by right]|].
        rewrite I7, I8. by rewrite lookup_insert_ne.
Qed.

(** The second loop removes what has ended. *)
Lemma close_fold persistent closed m reaped rs : NoDup closed ->
  (forall id, id ∈ closed -> exists s, m !! id = Some s /\ closed_message_sent s = true) ->
  let '(m', _, rs') := foldl (close_one persistent) (m, reaped, rs) closed in
  (forall id, m' !! id = if bool_decide (id ∈ closed) then None else m !! id) /\
  exists closings, rs' = rs ++ closings /\
    (forall id, of_terminal id closings = if bool_decide (id ∈ closed) then
       [RClosed id (match m !! id ≫= child with Some c => match c.(try_wait) with Exited code => code | _ => 0 end | None => 0 end)] else []).
Proof.
  revert m reaped rs. induction closed as [|i closed IH]; intros m reaped rs Hnd H; cbn [foldl].
  - split; [done|]. exists []. split; [by rewrite app_nil_r|done].
  - apply NoDup_cons in Hnd as [Hi Hnd]. destruct (H i) as (s & Hs & Hsent); [by left|]. cbn [close_one]. rewrite Hs, Hsent, orb_true_r.
    match goal with |- context [foldl _ (?a, ?b, ?c) _] => specialize (IH a b c Hnd); destruct (foldl (close_one persistent) (a, b, c) closed) as [[m' reaped'] rs'] end.
    destruct IH as (I1 & closings & -> & I2).
    { intros id Hid. destruct (H id) as (s' & H1 & H2); [by right|]. exists s'. rewrite lookup_delete_ne; [done|congruence]. }
    assert (Hdec : forall id, bool_decide (id ∈ i :: closed) = bool_decide (id = i) || bool_decide (id ∈ closed)).
    { intros id. rewrite <- bool_decide_or. apply bool_decide_ext. apply elem_of_cons. }
    split.
    + intros id. rewrite I1, Hdec. destruct (decide (id = i)) as [->|Hne].
      * rewrite (bool_decide_eq_true_2 (i = i)), lookup_delete_eq by done. by destruct (bool_decide _).
      * by rewrite (bool_decide_eq_false_2 (id = i)), lookup_delete_ne by congruence.
    + eexists. rewrite <- app_assoc. split; [done|]. intros id. rewrite of_terminal_app, I2, Hdec. destruct (decide (id = i)) as [->|Hne].
      * rewrite (bool_decide_eq_true_2 (i = i)), (bool_decide_eq_false_2 (i ∈ closed)), app_nil_r, Hs by done. cbn.
        unfold of_terminal. cbn. by rewrite bool_decide_eq_true_2 by done.
      * rewrite (bool_decide_eq_false_2 (id = i)), lookup_delete_ne by congruence. rewrite (of_terminal_none id [RClosed i _]) by (apply Forall_singleton; cbn; congruence).
        cbn [orb app]. by rewrite ?app_nil_r.
Qed.

(** What one session contributes to a poll. *)
Definition closing (id : Z) (s : TerminalSession) : list TerminalResponse :=
  if session_ended s then [RClosed id (match s.(child) with Some c => match c.(try_wait) with Exited code => code | _ => 0 end | None => 0 end)] else [].
Definition poll_output (id : Z) (s : TerminalSession) : list TerminalResponse := session_output id s ++ closing id s.

(** A poll of one terminal, as the registry sees it. *)
Lemma read_outputs_spec (now : Z) (busy : Z -> bool) (proxy : TerminalServiceProxy) (w : World) (v : Service) (id : Z) (s : TerminalSession) :
  w.(services) !! proxy.(proxy_service_id) = Some v -> v.(sessions) !! id = Some s ->
  let '(w', rs) := read_outputs compress now busy proxy w in
  exists v', w'.(services) !! proxy.(proxy_service_id) = Some v' /\
    of_terminal id rs = (if busy id then [] else poll_output id s) /\
    match v'.(sessions) !! id with
    | None => busy id = false /\ session_ended s = true
    | Some s' =>
      if busy id then s' = s
      else session_ended s = false /\ s'.(closed_message_sent) = s.(closed_message_sent) /\
        s'.(output_buffer) = foldl append s.(output_buffer) (default [] s.(output_rx)) /\
        s'.(output_rx) = (if s.(output_rx) then Some [] else None) /\
        polled s.(state) s'.(state) /\ s'.(child) = s.(child)
    end.
Proof.
  intros Hv Hs. unfold read_outputs. rewrite Hv. pose proof (NoDup_fst_map_to_list (sessions v)) as Hnd.
  pose proof (poll_all_spec now busy (map_to_list (sessions v)) (sessions v) Hnd) as Hp.
  destruct (poll_all compress now busy (map_to_list (sessions v)) (sessions v)) as [[m rs] closed]. destruct Hp as (P1 & P2 & P3 & P4).
  assert (Hel : (id, s) ∈ map_to_list (sessions v)) by (by apply elem_of_map_to_list).
  pose proof (close_fold (proxy_persistent proxy) closed m [] [] P1) as Hc.
  destruct (foldl _ (m, [], []) closed) as [[m' reaped] closings]. destruct Hc as (C1 & closings' & -> & C2).
  { intros i (s' & H1 & H2 & H3)%P2. destruct (P3 i s' H1 H2) as [Hm _]. eexists. split; [exact Hm|]. by apply poll_session_closed. }
  cbn [app services]. exists (set_sessions v m'). rewrite lookup_insert_eq. split; [done|]. cbn [sessions set_sessions].
  rewrite of_terminal_app, C1, C2. destruct (busy id) eqn:Hb.
  - destruct (P4 id (or_intror Hb)) as [H1 H2]. rewrite bool_decide_eq_false_2; [by rewrite H1, H2, Hs|]. intros (s' & _ & H & _)%P2. congruence.
  - destruct (P3 id s Hel Hb) as [H1 H2]. destruct (poll_session_closed now id s) as (E1 & E2 & E3).
    assert (Hcl : id ∈ closed <-> session_ended s = true).
    { rewrite P2. split; [|intros; by exists s]. intros (s' & Hs' & _ & He). apply elem_of_map_to_list in Hs'. congruence. }
    rewrite H1, H2. cbn [mbind option_bind]. rewrite E3. rewrite (bool_decide_ext _ _ Hcl).
    pose proof (poll_session_spec now id s) as Hp. destruct (poll_session compress now id s) as [[s' rs'] ended]. cbn [fst snd] in *.
    destruct Hp as (_ & -> & Hch & Hm & Hbuf & Hrx & Hst). unfold poll_output, closing.
    destruct (session_ended s); [split; [by rewrite bool_decide_eq_true_2|done]|].
    rewrite bool_decide_eq_false_2 by done. split; [done|]. rewrite orb_false_r in Hm. by split_and!.
Qed.

(** *** What the client reads *)

Section Codec.
Variable decompress : list Z -> list Z.
(** What the compressor answers is a compressed form of its argument, when it is shorter. *)
Hypothesis decompress_compress : forall d, zlen (compress d) < zlen d -> decompress (compress d) = d.

(** What the client writes to its terminal on a response. *)
Definition payload (r : TerminalResponse) : list Z :=
  match r with RData d => if d.(d_compressed) then decompress d.(d_data) else d.(d_data) | _ => [] end.

(** A response that brings a terminal these bytes, in no more space. *)
Definition carries (id : Z) (r : TerminalResponse) (bytes : list Z) : Prop :=
  exists d, r = RData d /\ d.(d_terminal_id) = id /\ payload r = bytes /\ zlen d.(d_data) <= zlen bytes.

Lemma response_carries id d : carries id (response id d) d.
Proof.
  unfold create_terminal_data_response, carries. cbv zeta. destruct (_ <? zlen d); [|by eexists; split_and!].
  destruct (_ <? _) eqn:E; [|by eexists; split_and!]. apply Z.ltb_lt in E. eexists. split_and!; [done|done|by apply decompress_compress|cbn; lia].
Qed.

Lemma payload_response id d : payload (response id d) = d.
Proof. destruct (response_carries id d) as (? & _ & _ & H & _). exact H. Qed.

Lemma payload_responses id ds : concat (payload <$> (response id <$> ds)) = concat ds.
Proof. induction ds as [|d ds IH]; [done|]. cbn. by rewrite payload_response, IH. Qed.

(** What is due to the client of a terminal: its replay, then the chunks of its channel. *)
Definition due (s : TerminalSession) : list (list Z) :=
  match s.(state) with
  | Closed => []
  | Active pending _ => match pending with Some ((_ :: _) as buffer) => [buffer] | _ => [] end ++ default [] s.(output_rx)
  end.

Lemma output_due id s : Forall2 (carries id) (session_output id s) (due s).
Proof.
  unfold session_output, due. destruct (state s) as [|pending sw]; [constructor|]. apply Forall2_app.
  - destruct pending as [[|x b]|]; repeat constructor. apply response_carries.
  - induction (default [] (output_rx s)) as [|d ds IH]; constructor; [apply response_carries|exact IH].
Qed.

(** C24: a poll delivers exactly what is due, terminal by terminal.  A terminal nobody holds the
    lock of: if its session is active, the client gets one response for the queued replay, then
    one for every chunk of the channel, in order; each is marked so that the client reads exactly
    those bytes.  If it is not active, it gets nothing.  Either way the channel is emptied into the
    replay buffer, and if the shell has ended, the closing message comes after all output, once,
    and the session is gone; if not, the replay is taken out of the session, so that no later
    poll sends it again.  A terminal whose lock is taken is left as it was. *)
Theorem poll_delivers (now : Z) (busy : Z -> bool) (proxy : TerminalServiceProxy) (w : World) (v : Service) (id : Z) (s : TerminalSession) :
  w.(services) !! proxy.(proxy_service_id) = Some v -> v.(sessions) !! id = Some s ->
  let '(w', rs) := read_outputs compress now busy proxy w in
  exists v', w'.(services) !! proxy.(proxy_service_id) = Some v' /\
    (exists data, of_terminal id rs = data ++ (if busy id then [] else closing id s) /\
       Forall2 (carries id) data (if busy id then [] else due s)) /\
    match v'.(sessions) !! id with
    | None => busy id = false /\ session_ended s = true
    | Some s' =>
      if busy id then s' = s
      else session_ended s = false /\ s'.(closed_message_sent) = s.(closed_message_sent) /\
        s'.(output_buffer) = foldl append s.(output_buffer) (default [] s.(output_rx)) /\
        s'.(output_rx) = (if s.(output_rx) then Some [] else None) /\
        match s.(state) with
        | Closed => s'.(state) = Closed
        | Active _ _ => exists sw, s'.(state) = Active None sw
        end /\ s'.(child) = s.(child)
    end.
Proof.
  intros Hv Hs. pose proof (read_outputs_spec now busy proxy w v id s Hv Hs) as H.
  destruct (read_outputs compress now busy proxy w) as [w' rs]. destruct H as (v' & Hv' & Hrs & Hm). exists v'. split_and!; [done| |exact Hm].
  rewrite Hrs. destruct (busy id); [by exists []|]. exists (session_output id s). split; [done|apply output_due].
Qed.

End Codec.
End Compressor.

(** A shell that has printed and exited, polled by the service's own loop. *)
Definition ended_session : TerminalSession :=
  mkSession 0 None (Some (mkChild 7 (Exited 3) true)) None (Some [[104; 105]; [10]]) false (Some (mkReader [] false)) buf_new 24 80 7 false (Active None Idle).
Definition ended_world : World :=
  mkWorld {["ts"%string := mkService "ts" {[1 := ended_session]} 0 false false false]} [].

Lemma poll_delivers_witness :
  (read_outputs id 5 (fun _ => false) (mkProxy "ts" false) ended_world).2 =
    [RData (mkData 1 [104; 105] false); RData (mkData 1 [10] false); RClosed 1 3] /\
  exists v', (read_outputs id 5 (fun _ => false) (mkProxy "ts" false) ended_world).1.(services) !! "ts"%string = Some v' /\
    v'.(sessions) !! 1 = None.
Proof.
  split; [by vm_compute|].
  pose proof (poll_delivers id id (fun _ _ => eq_refl) 5 (fun _ => false) (mkProxy "ts" false) ended_world (mkService "ts" {[1 := ended_session]} 0 false false false) 1 ended_session eq_refl eq_refl) as H.
  destruct (read_outputs id 5 (fun _ => false) (mkProxy "ts" false) ended_world) as [w' rs]. destruct H as (v' & Hv & _ & H).
  exists v'. split; [exact Hv|]. destruct (sessions v' !! 1) as [s'|]; [|done]. cbn in H. by destruct H.
Defined.

End PollFacts.

(** ** The reader thread *)
Module ReaderFacts.
Import Utf8 OutBuf Term.

Definition offered (q chunks : list (list Z)) : list (list Z) := foldl (fun q d => if (CHANNEL_BUFFER_SIZE <=? length q)%nat then q else q ++ [d]) q chunks.

(** A bounded queue takes a prefix of what it is offered. *)
Lemma offered_spec q chunks : (length q <= CHANNEL_BUFFER_SIZE)%nat -> offered q chunks = take CHANNEL_BUFFER_SIZE (q ++ chunks).
Proof.
  revert q. induction chunks as [|d chunks IH]; intros q Hq; [unfold offered; cbn [foldl]; rewrite app_nil_r; by rewrite take_ge|].
  unfold offered in *. cbn [foldl]. destruct (_ <=? _)%nat eqn:E.
  - apply Nat.leb_le in E. rewrite IH by done. rewrite !take_app_le by lia. done.
  - apply Nat.leb_gt in E. rewrite IH by (rewrite length_app; cbn [length]; lia). by rewrite <- app_assoc.
Qed.

Lemma reader_reads s r q reads : reader_thread s = Some (mkReader r false) -> output_rx s = Some q -> exiting s = false -> Forall (fun d => d <> []) reads ->
  let s' := foldl reader_read s reads in
  reader_thread s' = Some (mkReader (push_all r reads).1 false) /\ output_rx s' = Some (offered q (push_all r reads).2) /\ exiting s' = false.
Proof.
  intros Hr Hq He Hne. revert s r q Hr Hq He. induction Hne as [|d reads Hd _ IH]; intros s r q Hr Hq He; [done|]. cbn [foldl push_all].
  assert (Hstep : reader_thread (reader_read s d) = Some (mkReader (push_chunk r d).1 false) /\
    output_rx (reader_read s d) = Some (offered q (option_list (push_chunk r d).2)) /\ exiting (reader_read s d) = false).
  { unfold reader_read. rewrite Hr. cbn [finished]. destruct d as [|x d]; [done|]. rewrite He. cbn [remainder].
    destruct (push_chunk r (x :: d)) as [rem [c|]]; cbn [fst snd option_list]; [rewrite Hq; cbn [try_send_output]|]; cbn; by split_and!. }
  destruct Hstep as (S1 & S2 & S3). destruct (push_chunk r d) as [rem o]. cbn [fst snd] in *.
  destruct (IH _ _ _ S1 S2 S3) as (I1 & I2 & I3). destruct (push_all rem reads) as [rem' outs]. cbn [fst snd] in *.
  split_and!; [done| |done]. rewrite I2. unfold offered. by rewrite foldl_app.
Qed.

(** The reader thread never blocks and the channel never holds more than 500 chunks.  The
    channel ends up with the chunks of the chunker, in order, up to its capacity: a chunk is
    only dropped, whole, when 500 are waiting; nothing is dropped as long as they fit; at the
    end of file the remainder is flushed the same way and the thread ends. *)
Theorem reader_channel (s : TerminalSession) (q : list (list Z)) (reads : list (list Z)) :
  s.(reader_thread) = Some (mkReader [] false) -> s.(output_rx) = Some q -> s.(exiting) = false ->
  (length q <= CHANNEL_BUFFER_SIZE)%nat -> Forall (fun d => d <> []) reads ->
  let '(rem, chunks) := push_all [] reads in
  let s' := foldl reader_read s reads in
  s'.(output_rx) = Some (take CHANNEL_BUFFER_SIZE (q ++ chunks)) /\
  s'.(reader_thread) = Some (mkReader rem false) /\
  let s'' := reader_read s' [] in
  s''.(output_rx) = Some (take CHANNEL_BUFFER_SIZE (q ++ chunks ++ option_list (finish rem).2)) /\
  s''.(reader_thread) = Some (mkReader [] true).
Proof.
  intros Hr Hq He Hl Hne. destruct (reader_reads s [] q reads Hr Hq He Hne) as (H1 & H2 & H3). destruct (push_all [] reads) as [rem chunks]. cbn [fst snd] in *.
  cbv zeta. set (s' := foldl reader_read s reads) in *. clearbody s'. rewrite H2, offered_spec by done.
  assert (Hl2 : (length (offered q chunks) <= CHANNEL_BUFFER_SIZE)%nat) by (rewrite offered_spec by done; rewrite length_take; lia).
  assert (Hend : output_rx (reader_read s' []) = Some (offered (offered q chunks) (option_list (finish rem).2)) /\ reader_thread (reader_read s' []) = Some (mkReader [] true)).
  { unfold reader_read. rewrite H1. cbn [finished remainder]. destruct ((finish rem).2) as [d|]; [rewrite H2; cbn [try_send_output]|]; by split. }
  destruct Hend as [-> ->]. split_and!; [done|done| |done]. f_equal.
  assert (Hcat : offered (offered q chunks) (option_list (finish rem).2) = offered q (chunks ++ option_list (finish rem).2)) by (unfold offered; by rewrite foldl_app).
  rewrite Hcat. by apply offered_spec.
Qed.

Definition fresh_session : TerminalSession :=
  mkSession 0 None None None (Some []) false (Some (mkReader [] false)) buf_new 24 80 7 false (Active None Idle).

Lemma reader_channel_witness :
  (reader_read (foldl reader_read fresh_session [[97; 228]; [184; 173]; [98; 240]]) []).(output_rx) = Some [[97]; [228; 184; 173]; [98]; [240]].
Proof.
  pose proof (reader_channel fresh_session [] [[97; 228]; [184; 173]; [98; 240]] eq_refl eq_refl eq_refl ltac:(cbn; lia) ltac:(by repeat constructor)) as H.
  destruct (push_all [] [[97; 228]; [184; 173]; [98; 240]]) as [rem chunks] eqn:E. vm_compute in E. injection E as <- <-. destruct H as (_ & _ & H & _). exact H.
Defined.

End ReaderFacts.

(** ** Reconnection *)
Module Reconnect.
Import Utf8 OutBuf Utf8Facts OutBufFacts Term PollFacts ReaderFacts.

Section Codec.
Context (compress decompress : list Z -> list Z).
(** What the compressor answers is a compressed form of its argument, when it is shorter. *)
Hypothesis decompress_compress : forall d, zlen (compress d) < zlen d -> decompress (compress d) = d.

Abbreviation payload := (payload decompress).

(** The reader thread offers more output to the channel. *)
Definition arrive (s : TerminalSession) (chunks : list (list Z)) : TerminalSession :=
  set_output_rx s (match s.(output_rx) with Some q => Some (offered q chunks) | None => None end).

(** Polls, each after more output. *)
Fixpoint follow (now id : Z) (s : TerminalSession) (turns : list (list (list Z))) : list TerminalResponse :=
  match turns with
  | [] => []
  | chunks :: turns =>
    let '(s, rs, _) := poll_session compress now id (arrive s chunks) in rs ++ follow now id s turns
  end.

(** What of the output offered between two polls the channel takes. *)
Definition accepted (turns : list (list (list Z))) : list (list Z) := concat (take CHANNEL_BUFFER_SIZE <$> turns).

Lemma follow_active now id turns : forall s pending sw, s.(state) = Active pending sw -> s.(output_rx) = Some [] -> turns <> [] ->
  concat (payload <$> follow now id s turns) = default [] pending ++ concat (accepted turns).
Proof.
  induction turns as [|chunks turns IH]; intros s pending sw Hs Hq Hne; [done|]. cbn [follow].
  set (s1 := arrive s chunks). pose proof (poll_session_spec compress now id s1) as Hp.
  destruct (poll_session compress now id s1) as [[s2 rs] ended]. destruct Hp as (_ & -> & _ & _ & _ & Hrx & Hst).
  assert (H1 : state s1 = Active pending sw /\ output_rx s1 = Some (take CHANNEL_BUFFER_SIZE chunks)).
  { split; [done|]. unfold s1, arrive. rewrite Hq. cbn. by rewrite offered_spec by (cbn; lia). }
  destruct H1 as [H1 H2]. rewrite H1 in Hst. rewrite H2 in Hrx. destruct Hst as [sw2 Hst].
  assert (Hout : concat (payload <$> session_output compress id s1) = default [] pending ++ concat (take CHANNEL_BUFFER_SIZE chunks)).
  { unfold session_output. rewrite H1, H2, fmap_app, concat_app. cbn [default from_option Datatypes.id]. rewrite (payload_responses compress decompress) by done.
    f_equal. destruct pending as [[|x r]|]; [done| |done]. cbn [fmap list_fmap concat default from_option Datatypes.id]. by rewrite (payload_response compress decompress), app_nil_r. }
  rewrite fmap_app, concat_app, Hout. unfold accepted. cbn [fmap list_fmap concat]. rewrite concat_app, <- app_assoc. do 2 f_equal.
  destruct turns as [|c2 turns]; [done|]. by rewrite (IH s2 None sw2).
Qed.

(** C25: a reconnecting client sees the end of the session and then everything the channel takes.
    Let [hist] be the output already streamed and [q] what waits in the channel when the terminal
    is reopened; before each of any number of polls the reader thread offers more.  The channel
    holds at most 500 chunks, and what is offered to a full one is lost, as the source says; of
    [hist], [q] and all that the channel takes, the polls together send exactly a suffix, in order:
    the replay and then every chunk, nothing twice and nothing missing after its start; what they
    leave out is the beginning of [hist] and [q].  If history and backlog fit in 8 KiB, the client
    sees it all. *)
Theorem reconnect_stream (now id : Z) (s : TerminalSession) (hist q : list (list Z)) (turns : list (list (list Z))) :
  s.(output_buffer) = foldl append buf_new hist -> s.(output_rx) = Some q -> (length q <= CHANNEL_BUFFER_SIZE)%nat -> turns <> [] ->
  let sent := concat (payload <$> follow now id (reconnect_session s).1 turns) in
  let output := concat hist ++ concat q ++ concat (accepted turns) in
  (exists unseen, output = unseen ++ sent /\ unseen `prefix_of` concat hist ++ concat q) /\
  (zlen (concat hist ++ concat q) <= DEFAULT_RECONNECT_BUFFER_BYTES -> sent = output).
Proof.
  intros Hb Hq Hlen Hne. cbv zeta. set (b := foldl append buf_new (hist ++ q)).
  assert (Hbuf : foldl append (output_buffer s) q = b) by (unfold b; by rewrite foldl_app, Hb).
  set (replay := get_recent b DEFAULT_RECONNECT_BUFFER_BYTES).
  assert (Hrec : exists sw, state (reconnect_session s).1 = Active (if negb (is_nil replay) then Some replay else None) sw /\
    output_rx (reconnect_session s).1 = Some []).
  { unfold reconnect_session. rewrite Hq, take_ge, drop_ge by done. cbv zeta. rewrite Hbuf. fold replay. eexists. split; [|done]. cbn [fst state set_state].
    destruct q; cbn [is_nil negb]; [|done]. unfold replay, b. by rewrite app_nil_r, <- Hb. }
  destruct Hrec as (sw & Hst & Hrx). rewrite (follow_active now id turns _ _ sw Hst Hrx Hne).
  assert (Hpend : default [] (if negb (is_nil replay) then Some replay else None) = replay) by (by destruct replay). rewrite Hpend.
  destruct (append_history (hist ++ q)) as (W & B & lost & Hl & Hl0). fold b in W, B, Hl.
  pose proof (get_recent_spec b 8192 W) as (Hsuf & _ & Hall & _). change (Z.of_nat 8192) with DEFAULT_RECONNECT_BUFFER_BYTES in *. fold replay in Hsuf, Hall.
  rewrite concat_app in Hl, Hl0. split.
  - destruct Hsuf as [older Ho]. exists (lost ++ older). rewrite Ho, app_assoc in Hl. split; [rewrite !app_assoc, Hl; by rewrite <- !app_assoc|].
    rewrite Hl. by apply prefix_app_r.
  - intros Hz. unfold DEFAULT_RECONNECT_BUFFER_BYTES in Hz.
    assert (Hnl : (newlines (concat hist ++ concat q) <= length (concat hist ++ concat q))%nat) by apply length_filter.
    rewrite Hl0 in Hl; [|unfold MAX_OUTPUT_BUFFER_SIZE; lia|unfold MAX_BUFFER_LINES; lia]. cbn [app] in Hl.
    rewrite Hall; [|rewrite <- Hl; unfold DEFAULT_RECONNECT_BUFFER_BYTES; lia]. by rewrite <- Hl, !app_assoc.
Qed.

End Codec.

(** A coder that only shortens runs of one letter. *)
Definition run_coder (d : list Z) : list Z := if forallb (fun b => b =? 65) d then [Z.of_nat (length d)] else d.
Definition run_decoder (c : list Z) : list Z := match c with [n] => repeat 65 (Z.to_nat n) | _ => c end.

Lemma run_coder_ok d : zlen (run_coder d) < zlen d -> run_decoder (run_coder d) = d.
Proof.
  unfold run_coder. destruct (forallb _ d) eqn:E; [|lia]. intros _. cbn. rewrite Nat2Z.id.
  induction d as [|b d IH]; [done|]. cbn in E |- *. apply andb_true_iff in E as [E1%Z.eqb_eq E2]. by rewrite IH, E1.
Qed.

Definition idle_session : TerminalSession :=
  mkSession 0 None None None (Some [repeat 65 600; [10]]) false (Some (mkReader [] false)) (foldl append buf_new [[104; 105]]) 24 80 7 false Closed.

Lemma reconnect_stream_witness :
  concat (payload run_decoder <$> follow run_coder 9 1 (reconnect_session idle_session).1 [[]; [[98]; [99]]; [[100]]]) =
    [104; 105] ++ repeat 65 600 ++ [10; 98; 99; 100].
Proof.
  destruct (reconnect_stream run_coder run_decoder run_coder_ok 9 1 idle_session [[104; 105]] [repeat 65 600; [10]] [[]; [[98]; [99]]; [[100]]]) as [_ H];
    [reflexivity|reflexivity|by apply Nat.leb_le; vm_compute|done|].
  rewrite H; [|by vm_compute]. by vm_compute.
Defined.

(** ** The redraw *)

(** The operating system grants or refuses the next resize. *)
Definition with_resize (s : TerminalSession) (ok : bool) : TerminalSession :=
  set_pty_pair s (match s.(pty_pair) with Some p => Some (mkPty p.(pty_rows) p.(pty_cols) ok) | None => None end).

Fixpoint polls (compress : list Z -> list Z) (now id : Z) (s : TerminalSession) (oks : list bool) : TerminalSession :=
  match oks with
  | [] => s
  | ok :: oks => polls compress now id (poll_session compress now id (with_resize s ok)).1.1 oks
  end.

Definition pty_size (s : TerminalSession) : option (Z * Z) :=
  match s.(pty_pair) with Some p => Some (p.(pty_rows), p.(pty_cols)) | None => None end.

(** What a poll does to the phase and the size of the terminal. *)
Definition redraw_step (rows cols : Z) (st : SigwinchPhase * (Z * Z)) (ok : bool) : SigwinchPhase * (Z * Z) :=
  match st.1 with
  | Idle => st
  | TempResize r => if r =? 0 then (Idle, st.2) else if ok then (Restore 3, (temp_rows rows, cols)) else (TempResize (r - 1), st.2)
  | Restore r => if r =? 0 then (Idle, st.2) else if ok then (Idle, (rows, cols)) else (Restore (r - 1), st.2)
  end.

Lemma poll_redraw compress now id s ok pending sw p : s.(state) = Active pending sw -> s.(pty_pair) = Some p -> s.(rows) <> 0 -> s.(cols) <> 0 ->
  let s' := (poll_session compress now id (with_resize s ok)).1.1 in
  let st := redraw_step s.(rows) s.(cols) (sw, (p.(pty_rows), p.(pty_cols))) ok in
  s'.(state) = Active None st.1 /\ pty_size s' = Some st.2 /\ s'.(rows) = s.(rows) /\ s'.(cols) = s.(cols).
Proof.
  intros Hs Hp Hr Hc. unfold poll_session. cbv zeta. set (s1 := set_output_buffer _ _).
  assert (H1 : state s1 = state s /\ pty_pair s1 = Some (mkPty (pty_rows p) (pty_cols p) ok) /\ rows s1 = rows s /\ cols s1 = cols s).
  { unfold s1, with_resize. rewrite Hp. destruct (session_ended _); cbn; destruct (output_rx s); cbn; by split_and!. }
  clearbody s1. destruct H1 as (H1 & H2 & H3 & H4). rewrite H1, Hs. unfold redraw_step. cbn [fst snd].
  destruct (sigwinch_next sw) as [sw' act] eqn:Esw. cbn [fst snd].
  assert (Hd : forall s2 a, rows s2 = rows s -> cols s2 = cols s -> pty_pair s2 = Some (mkPty (pty_rows p) (pty_cols p) ok) ->
    do_sigwinch_resize s2 a = if ok then Some (mkPty (match a with ATempResize => temp_rows (rows s) | ARestore => rows s end) (cols s) true) else None).
  { intros s2 a E1 E2 E3. unfold do_sigwinch_resize. rewrite E1, E2, E3. rewrite (proj2 (Z.eqb_neq _ _) Hr), (proj2 (Z.eqb_neq _ _) Hc). done. }
  set (s2 := if negb _ then _ else _).
  assert (H2' : state s2 = Active None sw' /\ pty_pair s2 = Some (mkPty (pty_rows p) (pty_cols p) ok) /\ rows s2 = rows s /\ cols s2 = cols s).
  { unfold s2. destruct (negb _); cbn; by split_and!. }
  clearbody s2. destruct H2' as (G1 & G2 & G3 & G4). unfold sigwinch_next in Esw. unfold pty_size.
  destruct sw as [|r|r]; [|destruct (r =? 0)..]; injection Esw as <- <-; try (rewrite Hd by done; destruct ok); cbn; rewrite ?G1, ?G2, ?G3, ?G4; by split_and!.
Qed.

Lemma polls_redraw compress now id s oks pending sw p : s.(state) = Active pending sw -> s.(pty_pair) = Some p -> s.(rows) <> 0 -> s.(cols) <> 0 -> oks <> [] ->
  let s' := polls compress now id s oks in
  let st := foldl (redraw_step s.(rows) s.(cols)) (sw, (p.(pty_rows), p.(pty_cols))) oks in
  s'.(state) = Active None st.1 /\ pty_size s' = Some st.2 /\ s'.(rows) = s.(rows) /\ s'.(cols) = s.(cols).
Proof.
  revert s pending sw p. induction oks as [|ok oks IH]; intros s pending sw p Hs Hp Hr Hc Hne; [done|]. cbn [polls foldl].
  destruct (poll_redraw compress now id s ok pending sw p Hs Hp Hr Hc) as (P1 & P2 & P3 & P4).
  set (s1 := (poll_session compress now id (with_resize s ok)).1.1) in *. destruct oks as [|ok2 oks]; [by split_and!|].
  unfold pty_size in P2. destruct (pty_pair s1) as [p1|] eqn:Ep; [|done]. injection P2 as P2.
  destruct (IH s1 None _ p1 P1 Ep ltac:(congruence) ltac:(congruence) ltac:(done)) as (I1 & I2 & I3 & I4).
  rewrite P3, P4, P2 in *. rewrite <- surjective_pairing in *. by split_and!.
Qed.

(** Some resize was refused three times in a row. *)
Definition refused_thrice (oks : list bool) : Prop := exists a b, oks = a ++ [false; false; false] ++ b.

Lemma refused_cons ok oks : refused_thrice oks -> refused_thrice (ok :: oks).
Proof. intros (a & b & ->). by exists (ok :: a), b. Qed.

Lemma repeat_shift {A} (x : A) k l : repeat x (S k) ++ l = repeat x k ++ x :: l.
Proof. induction k as [|k IH]; [done|]. cbn [repeat app] in *. by rewrite IH. Qed.

Lemma redraw_idle rows cols sz oks : foldl (redraw_step rows cols) (Idle, sz) oks = (Idle, sz).
Proof. by induction oks. Qed.

Lemma redraw_restore_S rows cols sz n ok : redraw_step rows cols (Restore (Z.of_nat (S n)), sz) ok =
  if ok then (Idle, (rows, cols)) else (Restore (Z.of_nat n), sz).
Proof.
  unfold redraw_step. cbn [fst snd]. rewrite (proj2 (Z.eqb_neq _ _)) by lia.
  by replace (Z.of_nat (S n) - 1) with (Z.of_nat n) by lia.
Qed.

Lemma redraw_temp_S rows cols sz n ok : redraw_step rows cols (TempResize (Z.of_nat (S n)), sz) ok =
  if ok then (Restore 3, (temp_rows rows, cols)) else (TempResize (Z.of_nat n), sz).
Proof.
  unfold redraw_step. cbn [fst snd]. rewrite (proj2 (Z.eqb_neq _ _)) by lia.
  by replace (Z.of_nat (S n) - 1) with (Z.of_nat n) by lia.
Qed.

Lemma redraw_restore rows cols sz (n : nat) oks : (n <= 3)%nat -> (n < length oks)%nat ->
  let st := foldl (redraw_step rows cols) (Restore (Z.of_nat n), sz) oks in
  st.1 = Idle /\ (st.2 = (rows, cols) \/ refused_thrice (repeat false (3 - n) ++ oks)).
Proof.
  revert oks. induction n as [|n IH]; intros oks Hn Hl.
  - destruct oks as [|ok oks]; [cbn in Hl; lia|]. cbn [foldl redraw_step fst snd]. rewrite (proj2 (Z.eqb_eq _ _)) by done. rewrite redraw_idle.
    split; [done|]. right. by exists [], (ok :: oks).
  - destruct oks as [|ok oks]; [cbn in Hl; lia|]. cbn [foldl]. rewrite redraw_restore_S. destruct ok.
    + rewrite redraw_idle. split; [done|by left].
    + cbn [length] in Hl. destruct (IH oks ltac:(lia) ltac:(lia)) as [I1 I2]. split; [done|].
      replace (3 - n)%nat with (S (3 - S n)) in I2 by lia. by rewrite repeat_shift in I2.
Qed.

Lemma redraw_temp rows cols sz (n : nat) oks : (n <= 3)%nat -> (n + 4 < length oks)%nat ->
  let st := foldl (redraw_step rows cols) (TempResize (Z.of_nat n), sz) oks in
  st.1 = Idle /\ (st.2 = (rows, cols) \/ refused_thrice (repeat false (3 - n) ++ oks)).
Proof.
  revert oks. induction n as [|n IH]; intros oks Hn Hl.
  - destruct oks as [|ok oks]; [cbn in Hl; lia|]. cbn [foldl redraw_step fst snd]. rewrite (proj2 (Z.eqb_eq _ _)) by done. rewrite redraw_idle.
    split; [done|]. right. by exists [], (ok :: oks).
  - destruct oks as [|ok oks]; [cbn in Hl; lia|]. cbn [foldl]. rewrite redraw_temp_S. cbn [length] in Hl. destruct ok.
    + change 3 with (Z.of_nat 3). destruct (redraw_restore rows cols (temp_rows rows, cols) 3 oks ltac:(lia) ltac:(lia)) as [I1 [I2|I2]]; (split; [done|]); [by left|right].
      cbn [Nat.sub repeat app] in I2. destruct I2 as (a & b & ->). exists (repeat false (3 - S n) ++ true :: a), b. by rewrite <- app_assoc.
    + destruct (IH oks ltac:(lia) ltac:(lia)) as [I1 I2]. split; [done|].
      replace (3 - n)%nat with (S (3 - S n)) in I2 by lia. by rewrite repeat_shift in I2.
Qed.

(** The redraw after a reconnection ends, with the terminal at its size.  Whatever resizes
    the system refuses, eight polls after a terminal was reopened no redraw is pending, and the
    pseudo terminal has the session's size unless some resize was refused three times running.
    When none is refused, the application is shown two different sizes in two polls: a
    temporary one, neither empty nor the real one, then the real one. *)
Theorem redraw_terminates (compress : list Z -> list Z) (now id : Z) (s : TerminalSession) (p : Pty) (oks : list bool) :
  s.(pty_pair) = Some p -> 0 < s.(rows) < 2 ^ 16 -> 0 < s.(cols) < 2 ^ 16 -> (8 <= length oks)%nat ->
  let s0 := (reconnect_session s).1 in let s' := polls compress now id s0 oks in
  s'.(state) = Active None Idle /\
  (pty_size s' = Some (s.(rows), s.(cols)) \/ refused_thrice oks) /\
  let s1 := polls compress now id s0 [true] in let s2 := polls compress now id s0 [true; true] in
  exists t, pty_size s1 = Some (t, s.(cols)) /\ 0 < t < 2 ^ 16 /\ t <> s.(rows) /\
    pty_size s2 = Some (s.(rows), s.(cols)) /\ s2.(state) = Active None Idle.
Proof.
  intros Hp Hr Hc Hl. cbv zeta. set (s0 := (reconnect_session s).1).
  assert (H0 : exists pending, state s0 = Active pending (TempResize 3)) by (unfold s0, reconnect_session; cbn; by eexists).
  destruct H0 as [pending H0]. assert (H1 : pty_pair s0 = Some p /\ rows s0 = rows s /\ cols s0 = cols s) by (unfold s0, reconnect_session; by destruct (output_rx s)).
  destruct H1 as (H1 & H2 & H3). clearbody s0.
  pose proof (fun oks => polls_redraw compress now id s0 oks pending _ p H0 H1 ltac:(lia) ltac:(lia)) as Hpr. rewrite H2, H3 in Hpr.
  assert (Hne : oks <> []) by (intros ->; cbn in Hl; lia).
  destruct (redraw_temp (rows s) (cols s) (pty_rows p, pty_cols p) 3 oks ltac:(lia) ltac:(lia)) as [Hidle Hsize].
  split_and!.
  - destruct (Hpr oks Hne) as (-> & _). f_equal. exact Hidle.
  - destruct (Hpr oks Hne) as (_ & -> & _). destruct Hsize as [Hsize|H]; [left; exact (f_equal Some Hsize)|right; exact H].
  - exists (temp_rows (rows s)). destruct (Hpr [true]) as (_ & -> & _); [done|]. destruct (Hpr [true; true]) as (-> & -> & _); [done|]. cbn.
    split; [done|]. unfold temp_rows, sat_sub, sat_add, umax. pow2. destruct (2 <? rows s) eqn:E; bool_to_prop; split_and!; try done; lia.
Qed.

Definition shell_session : TerminalSession :=
  mkSession 0 (Some (mkPty 24 80 true)) None None None false None buf_new 30 100 7 false Closed.

Lemma redraw_terminates_witness :
  (polls id 0 1 (reconnect_session shell_session).1 [false; true; false; true; true; true; true; true]).(state) = Active None Idle /\
  pty_size (polls id 0 1 (reconnect_session shell_session).1 [false; true; false; true; true; true; true; true]) = Some (30, 100).
Proof.
  destruct (redraw_terminates id 0 1 shell_session (mkPty 24 80 true) [false; true; false; true; true; true; true; true] eq_refl) as (H1 & H2 & _); [cbn; lia..|].
  split; [exact H1|]. by vm_compute.
Defined.

End Reconnect.
