(* ===== verification/TermRegistry.v ===== *)
(** The registry of terminal services as a state machine: connections, actions, polls, the
    reaper and the clean-up, in any order. *)

From S2P Require Import Prelude TermBuffer TermService TermFacts.

Module Registry.
Import Utf8 OutBuf Term PollFacts Reconnect.

(** ** Reopening a terminal *)

Lemma keys_spec (m : gmap Z TerminalSession) k : k ∈ (map_to_list m).*1 <-> is_Some (m !! k).
Proof.
  rewrite list_elem_of_fmap. split.
  - intros ([k' s] & -> & H). apply elem_of_map_to_list in H. by exists s.
  - intros [s H]. exists (k, s). split; [done|]. by apply elem_of_map_to_list.
Qed.

Lemma foldl_zmin_spec l x : foldl Z.min x l ∈ x :: l /\ Forall (fun y => foldl Z.min x l <= y) (x :: l).
Proof.
  revert x. induction l as [|y l IH]; intros x; cbn [foldl]; [split; [by left|by repeat constructor]|].
  destruct (IH (Z.min x y)) as [H1 H2]. apply Forall_cons in H2 as [H2 H3]. split.
  - apply elem_of_cons in H1 as [->|H1]; [|by do 2 right]. destruct (Z.min_spec x y) as [[_ ->]|[_ ->]]; [by left|by right; left].
  - constructor; [lia|]. constructor; [lia|done].
Qed.

Lemma min_key_spec (m : gmap Z TerminalSession) : m <> ∅ ->
  exists k, min_key m = Some k /\ is_Some (m !! k) /\ forall k', is_Some (m !! k') -> k <= k'.
Proof.
  intros Hne. unfold min_key. destruct ((map_to_list m).*1) as [|k ks] eqn:E.
  - destruct Hne. apply map_to_list_empty_iff. by destruct (map_to_list m).
  - eexists. split; [done|]. destruct (foldl_zmin_spec ks k) as [H1 H2]. rewrite <- E in H1, H2. rewrite keys_spec in H1. split; [done|].
    intros k' Hk'. rewrite <- keys_spec in Hk'. rewrite Forall_forall in H2. by apply H2.
Qed.

(** A reconnecting client finds its terminals again.  On the first open after a connection
    to a service with surviving terminals: the client gets the terminal it names or, if there
    is none, the surviving one with the lowest id under the new name; no shell is started, no
    session is lost or duplicated, the others are listed, each exactly once, and the remapping
    does not happen again. *)
Theorem reconnect_restores (now : Z) (proxy : TerminalServiceProxy) (v : Service) (o : OpenTerminal) (spawn : Spawn) :
  v.(needs_session_sync) = true -> v.(sessions) <> ∅ ->
  let id := o.(o_terminal_id) in
  let '(v', r) := handle_open now proxy v o spawn in
  exists k s op, v.(sessions) !! k = Some s /\
    (k = id \/ (v.(sessions) !! id = None /\ forall k', is_Some (v.(sessions) !! k') -> k <= k')) /\
    v'.(sessions) = <[id := (reconnect_session s).1]> (delete k v.(sessions)) /\
    size v'.(sessions) = size v.(sessions) /\ v'.(needs_session_sync) = false /\
    r = Ok (Some (ROpened op)) /\ op.(success) = true /\ op.(terminal_id) = id /\ op.(pid) = s.(spid) /\
    NoDup op.(persistent_sessions) /\
    forall k', k' ∈ op.(persistent_sessions) <-> k' <> id /\ is_Some (v'.(sessions) !! k').
Proof.
  intros Hsync Hne. cbv zeta. set (id := o_terminal_id o).
  assert (Hk : exists k s, v.(sessions) !! k = Some s /\
    (k = id \/ (v.(sessions) !! id = None /\ forall k', is_Some (v.(sessions) !! k') -> k <= k')) /\
    remap_lowest v id = set_sessions v (<[id := s]> (delete k v.(sessions)))).
  { unfold remap_lowest. rewrite Hsync, (bool_decide_eq_false_2 (sessions v = ∅)) by done. destruct (sessions v !! id) as [s|] eqn:E.
    - exists id, s. rewrite bool_decide_eq_false_2 by done. cbn. split_and!; [done|by left|]. rewrite insert_delete_eq, insert_id by done. by destruct v.
    - rewrite bool_decide_eq_true_2 by done. destruct (min_key_spec _ Hne) as (k & Ek & [s Hs] & Hmin). rewrite Ek, Hs. cbn [andb negb].
      exists k, s. split_and!; [done|by right|done]. }
  destruct Hk as (k & s & Hs & Hk & Hremap). unfold handle_open. fold id. rewrite Hremap. cbn [sessions set_sessions]. rewrite lookup_insert_eq.
  destruct (reconnect_session s) as [s' pending] eqn:Er. cbn [needs_session_sync set_sessions sessions]. rewrite Hsync. cbn [andb fst].
  set (m := <[id:=s]> (delete k (sessions v))).
  assert (Hid : delete k (sessions v) !! id = None).
  { destruct Hk as [->|[Hk _]]; [apply lookup_delete_eq|]. rewrite lookup_delete_None. by right. }
  assert (Hsize : size m = size (sessions v)).
  { unfold m. rewrite map_size_insert_None by done. rewrite map_size_delete, Hs. 
    assert (size (sessions v) <> 0%nat) by (by rewrite map_size_non_empty_iff). lia. }
  assert (Hm' : <[id:=s']> m = <[id:=s']> (delete k (sessions v))) by (unfold m; by rewrite insert_insert_eq).
  eexists k, s, _. rewrite Er. cbn [fst]. split; [done|]. split; [done|]. split; [exact Hm'|]. cbn [sessions set_needs_sync set_sessions]. rewrite Hm'.
  split; [rewrite <- Hsize; unfold m; by rewrite !map_size_insert_None by done|]. split; [done|]. split; [done|].
  split; [done|]. split; [done|]. split; [by unfold reconnect_session in Er; injection Er as <- _|]. cbn [persistent_sessions].
  assert (Hkeys : forall k', k' ∈ List.filter (fun k0 => negb (k0 =? id)) (map_to_list m).*1 <-> k' <> id /\ is_Some (<[id:=s']> (delete k (sessions v)) !! k')).
  { intros k'. rewrite list_elem_of_In, filter_In, <- list_elem_of_In, keys_spec, negb_true_iff, Z.eqb_neq. unfold m.
    split; intros [H1 H2]; (split; [try done|try done]); rewrite lookup_insert_ne in * by congruence; done. }
  rewrite Hsize. destruct (1 <? _) eqn:E1.
  - split; [|exact Hkeys]. apply NoDup_ListNoDup, List.NoDup_filter, NoDup_ListNoDup, NoDup_fst_map_to_list.
  - split; [constructor|]. intros k'. split; [by intros ?%elem_of_nil|]. intros [H1 H2]. exfalso. apply Z.ltb_ge in E1.
    rewrite lookup_insert_ne in H2 by congruence. destruct H2 as [s2 H2].
    assert (Hz : (2 <= size m)%nat); [|lia]. unfold m. rewrite map_size_insert_None by done.
    assert (size (delete k (sessions v)) <> 0%nat); [|lia]. rewrite map_size_non_empty_iff. intros H0. by rewrite H0, lookup_empty in H2.
Qed.

(** Terminals 2 and 5 survive; the client comes back asking for terminal 1. *)
Definition survivors : Service :=
  mkService "ts" (<[2 := ended_session]> (<[5 := shell_session]> ∅)) 0 true true false.

Lemma reconnect_restores_witness :
  survivors.(needs_session_sync) = true /\ survivors.(sessions) <> ∅ /\
  exists op, (handle_open 9 (mkProxy "ts" true) survivors (mkOpen 1 24 80) (SpawnErr "no")).2 = Ok (Some (ROpened op)) /\
    op.(persistent_sessions) = [5] /\ NoDup op.(persistent_sessions).
Proof.
  assert (Hne : survivors.(sessions) <> ∅) by (intros H; apply (f_equal (lookup 2)) in H; by vm_compute in H).
  split; [done|]. split; [exact Hne|].
  pose proof (reconnect_restores 9 (mkProxy "ts" true) survivors (mkOpen 1 24 80) (SpawnErr "no") eq_refl Hne) as H.
  destruct (handle_open 9 (mkProxy "ts" true) survivors (mkOpen 1 24 80) (SpawnErr "no")) as [v' r] eqn:E.
  destruct H as (k & s & op & _ & _ & _ & _ & _ & Hr & _ & _ & _ & Hnd & _). exists op. split; [exact Hr|]. split; [|exact Hnd].
  apply (f_equal snd) in E. vm_compute in E. rewrite Hr in E. injection E as <-. done.
Defined.

(** ** Connecting *)

Lemma poll_all_closed compress now busy l m : Forall (fun e : Z * TerminalSession => state e.2 = Closed) l ->
  (poll_all compress now busy l m).1.2 = [].
Proof.
  intros H. revert m. induction H as [|[id s] l Hs _ IH]; intros m; [done|]. cbn [poll_all]. destruct (busy id); [apply IH|].
  pose proof (poll_session_spec compress now id s) as Hp. destruct (poll_session compress now id s) as [[s1 rs] ended]. destruct Hp as (_ & -> & _).
  specialize (IH (<[id:=s1]> m)). destruct (poll_all compress now busy l (<[id:=s1]> m)) as [[m' rs'] closed]. cbn [fst snd] in *. rewrite IH.
  unfold session_output. cbn in Hs. by rewrite Hs.
Qed.

Lemma close_fold_data persistent closed m reaped rs : Forall (fun r => match r with RClosed _ _ => True | _ => False end) rs ->
  Forall (fun r => match r with RClosed _ _ => True | _ => False end) (foldl (close_one persistent) (m, reaped, rs) closed).2.
Proof.
  revert m reaped rs. induction closed as [|id closed IH]; intros m reaped rs H; [done|]. cbn [foldl close_one].
  destruct (m !! id); apply IH; apply Forall_app; (split; [done|by apply Forall_singleton]).
Qed.

(** Connecting to the terminal service.  It is refused exactly when the service is new and
    a hundred services exist; otherwise the service keeps its terminals, all detached, takes
    the requested persistence, and no other service is touched; there are never more than a
    hundred.  Until the new connection opens a terminal, polls send it no terminal output,
    whatever the sessions print. *)
Theorem attach_detached (now : Z) (w : World) (id : string) (persistent specified : bool) :
  match get_or_create_service now w id persistent specified with
  | Err _ => w.(services) !! id = None /\ 100 <= Z.of_nat (size w.(services))
  | Ok w' =>
    (is_Some (w.(services) !! id) \/ Z.of_nat (size w.(services)) < 100) /\
    Z.of_nat (size w'.(services)) <= Z.max 100 (Z.of_nat (size w.(services))) /\ w'.(tasks) = w.(tasks) /\
    (forall id', id' <> id -> w'.(services) !! id' = w.(services) !! id') /\
    exists v, w'.(services) !! id = Some v /\ v.(is_persistent) = persistent /\ v.(needs_session_sync) = true /\
      v.(sessions) = (fun s => set_state s Closed) <$> match w.(services) !! id with Some v0 => v0.(sessions) | None => ∅ end /\
      forall compress now' busy proxy, proxy.(proxy_service_id) = id ->
        Forall (fun r => match r with RClosed _ _ => True | _ => False end) (read_outputs compress now' busy proxy w').2
  end.
Proof.
  unfold get_or_create_service, MAX_SERVICES. destruct (bool_decide _ && _) eqn:E.
  - apply andb_true_iff in E as [E1 E2]. apply bool_decide_eq_true in E1. by apply Z.leb_le in E2.
  - cbn [services set_services tasks]. assert (Hex : is_Some (services w !! id) \/ Z.of_nat (size (services w)) < 100).
    { apply andb_false_iff in E as [E|E]; [left|right; by apply Z.leb_gt]. apply bool_decide_eq_false in E. by apply not_eq_None_Some. }
    split; [done|]. split_and!; [|done|intros id' Hne; by rewrite lookup_insert_ne|].
    { rewrite map_size_insert. destruct (services w !! id); cbn; [lia|]. destruct Hex as [[? ?]|?]; [done|lia]. }
    eexists. rewrite lookup_insert_eq. split; [done|]. cbn [is_persistent needs_session_sync sessions reset_status set_sessions set_needs_sync set_svc_persistent].
    split_and!; [done|done|by destruct (services w !! id)|].
    intros compress now' busy proxy <-. unfold read_outputs. cbn [services set_services]. rewrite lookup_insert_eq. cbn [sessions reset_status set_sessions set_needs_sync set_svc_persistent].
    set (m := (fun s => set_state s Closed) <$> _). assert (Hcl : Forall (fun e : Z * TerminalSession => state e.2 = Closed) (map_to_list m)).
    { apply Forall_forall. intros [i s] H. apply elem_of_map_to_list in H. unfold m in H. apply lookup_fmap_Some in H as (s0 & <- & _). done. }
    pose proof (poll_all_closed compress now' busy (map_to_list m) m Hcl) as Hp. destruct (poll_all compress now' busy (map_to_list m) m) as [[m' rs] closed]. cbn [fst snd] in Hp. subst rs.
    pose proof (close_fold_data (proxy_persistent proxy) closed m' [] [] (Forall_nil_2 _)) as Hd.
    destruct (foldl _ (m', [], []) closed) as [[m2 reaped] closings]. exact Hd.
Qed.

(** ** Every shell is accounted for *)

Definition children (m : gmap Z TerminalSession) : list Child := omap (fun e : Z * TerminalSession => child e.2) (map_to_list m).
Definition svc_children (m : gmap string Service) : list Child := concat ((fun e : string * Service => children e.2.(sessions)) <$> map_to_list m).
(** The shells of all sessions and those waiting for the reaper. *)
Definition all_children (w : World) : list Child := svc_children w.(services) ++ w.(tasks).

Lemma children_insert (m : gmap Z TerminalSession) i s : m !! i = None -> children (<[i:=s]> m) ≡ₚ option_list (child s) ++ children m.
Proof. intros H. unfold children. rewrite map_to_list_insert by done. cbn. by destruct (child s). Qed.

Lemma children_delete (m : gmap Z TerminalSession) i s : m !! i = Some s -> children m ≡ₚ option_list (child s) ++ children (delete i m).
Proof. intros H. rewrite <- (insert_delete_id m i s H) at 1. apply children_insert, lookup_delete_eq. Qed.

Lemma children_update (m : gmap Z TerminalSession) i s s' : m !! i = Some s -> child s' = child s -> children (<[i:=s']> m) ≡ₚ children m.
Proof.
  intros H Hc. rewrite (children_delete m i s H), <- insert_delete_eq. rewrite children_insert by apply lookup_delete_eq. by rewrite Hc.
Qed.

Lemma children_fmap (m : gmap Z TerminalSession) f : (forall s, child (f s) = child s) -> children (f <$> m) = children m.
Proof. intros Hf. unfold children. rewrite map_to_list_fmap. induction (map_to_list m) as [|[i s] l IH]; [done|]. csimpl. rewrite Hf. destruct (child s); by rewrite IH. Qed.

Lemma svc_insert (m : gmap string Service) i v : m !! i = None -> svc_children (<[i:=v]> m) ≡ₚ children v.(sessions) ++ svc_children m.
Proof. intros H. unfold svc_children. by rewrite map_to_list_insert. Qed.

Lemma svc_delete (m : gmap string Service) i v : m !! i = Some v -> svc_children m ≡ₚ children v.(sessions) ++ svc_children (delete i m).
Proof. intros H. rewrite <- (insert_delete_id m i v H) at 1. apply svc_insert, lookup_delete_eq. Qed.

(** Replacing a service: what its sessions gain or lose, the registry does. *)
Lemma svc_update (m : gmap string Service) i v v' a b : m !! i = Some v -> a ++ children v.(sessions) ≡ₚ b ++ children v'.(sessions) ->
  a ++ svc_children m ≡ₚ b ++ svc_children (<[i:=v']> m).
Proof.
  intros H Hab. rewrite (svc_delete m i v H), <- insert_delete_eq. rewrite svc_insert by apply lookup_delete_eq.
  rewrite !app_assoc. by f_equiv.
Qed.

Lemma stop_all_children m : stop_all m = children m.
Proof. done. Qed.

Lemma remove_service_children w id : all_children (remove_service w id) ≡ₚ all_children w.
Proof.
  unfold remove_service. destruct (services w !! id) as [v|] eqn:E; [|done]. unfold all_children. cbn [services tasks].
  rewrite (svc_delete _ _ _ E), stop_all_children. rewrite (Permutation_app_comm (tasks w)), app_assoc. f_equiv. apply Permutation_app_comm.
Qed.

Lemma poll_all_children compress now busy l m : NoDup l.*1 -> (forall i s, (i, s) ∈ l -> m !! i = Some s) ->
  children (poll_all compress now busy l m).1.1 ≡ₚ children m.
Proof.
  revert m. induction l as [|[i s] l IH]; intros m Hnd Hl; [done|]. cbn [poll_all]. cbn in Hnd. apply NoDup_cons in Hnd as [Hi Hnd].
  destruct (busy i); [apply IH; [done|]; intros; apply Hl; by right|].
  pose proof (poll_session_spec compress now i s) as Hp. destruct (poll_session compress now i s) as [[s1 rs] ended]. destruct Hp as (_ & _ & Hc & _).
  specialize (IH (<[i:=s1]> m) Hnd). destruct (poll_all compress now busy l (<[i:=s1]> m)) as [[m' rs'] closed]. cbn [fst] in *.
  rewrite IH; [apply (children_update m i s); [apply Hl; by left|done]|].
  intros j s' H. rewrite lookup_insert_ne; [apply Hl; by right|]. intros ->. apply Hi. by apply (list_elem_of_fmap_2 fst) in H.
Qed.

Lemma close_children persistent closed m reaped rs :
  let '(m', reaped', _) := foldl (close_one persistent) (m, reaped, rs) closed in
  children m' ++ reaped' ≡ₚ children m ++ reaped.
Proof.
  revert m reaped rs. induction closed as [|i closed IH]; intros m reaped rs; [cbn; reflexivity|]. cbn [foldl close_one]. destruct (m !! i) as [s|] eqn:E; [|apply IH].
  match goal with |- context [foldl _ (?a, ?b, ?c) _] => specialize (IH a b c); destruct (foldl (close_one persistent) (a, b, c) closed) as [[m' reaped'] rs'] end.
  rewrite IH. rewrite (children_delete m i s E). assert (H : children (if negb persistent || closed_message_sent s then delete i m else <[i:=set_child s None]> m) ≡ₚ children (delete i m)).
  { destruct (_ || _); [done|]. rewrite <- insert_delete_eq. rewrite children_insert by apply lookup_delete_eq. done. }
  rewrite H. rewrite <- app_assoc. rewrite (Permutation_app_comm reaped), app_assoc. rewrite (Permutation_app_comm (children (delete i m))). by rewrite <- app_assoc.
Qed.

(** ** The operations, in any order *)

Inductive Op :=
| OConnect (id : string) (persistent specified : bool)
| OAction (id : string) (a : TerminalAction) (spawn : Spawn)
| OPoll (id : string) (busy : Z -> bool)
| OPersist (id : string) (persistent : bool)
| ODisconnect (id : string) (persistent : bool)
| ORunEnd (id : string)
| OCleanup
| OReap.

Definition step (compress : list Z -> list Z) (now : Z) (w : World) (op : Op) : World :=
  match op with
  | OConnect id persistent specified => match get_or_create_service now w id persistent specified with Ok w' => w' | Err _ => w end
  | OAction id a spawn => (handle_action now (proxy_new w id None) w a spawn).1
  | OPoll id busy => (read_outputs compress now busy (proxy_new w id None) w).1
  | OPersist id persistent => match set_persistent w id persistent with Ok w' => w' | Err _ => w end
  | ODisconnect id persistent => on_disconnect (mkProxy id persistent) w
  | ORunEnd id => run_cleanup id w
  | OCleanup => cleanup_inactive_services now w
  | OReap => check_zombie_terminals w
  end.

(** The shells an operation starts, and those it lets go: the reaper those that have ended, a
    terminal whose shell cannot be killed its shell, and one that opens a shell it cannot reach. *)
Definition started (w : World) (op : Op) : list Child :=
  match op with
  | OAction id (AOpen o) (SpawnOk c | SpawnLost c _) =>
    match w.(services) !! id with
    | Some v => if bool_decide ((remap_lowest v o.(o_terminal_id)).(sessions) !! o.(o_terminal_id) = None) then [c] else []
    | None => []
    end
  | _ => []
  end.
Definition released (w : World) (op : Op) : list Child :=
  match op with
  | OReap => List.filter (fun c => match c.(try_wait) with Running => false | _ => true end) w.(tasks)
  | OAction id (AOpen o) (SpawnLost c _) =>
    match w.(services) !! id with
    | Some v => if bool_decide ((remap_lowest v o.(o_terminal_id)).(sessions) !! o.(o_terminal_id) = None) then [c] else []
    | None => []
    end
  | OAction id (AClose t) _ =>
    match w.(services) !! id with
    | Some v =>
      match v.(sessions) !! t with
      | Some s => match child s with Some c => if c.(kill_ok) then [] else [c] | None => [] end
      | None => []
      end
    | None => []
    end
  | _ => []
  end.

Lemma remap_children v id : children (remap_lowest v id).(sessions) ≡ₚ children v.(sessions).
Proof.
  unfold remap_lowest. destruct (bool_decide (_ !! id = None)) eqn:E1; [|done]. apply bool_decide_eq_true in E1. destruct (_ && _); [|done].
  destruct (min_key _) as [k|]; [|done]. destruct (sessions v !! k) as [s|] eqn:E2; [|done]. cbn [sessions set_sessions].
  rewrite children_insert; [by rewrite (children_delete (sessions v) k s)|]. rewrite lookup_delete_None. by right.
Qed.

Lemma reap_spec l : l ≡ₚ reap l ++ List.filter (fun c => match c.(try_wait) with Running => false | _ => true end) l.
Proof.
  induction l as [|c l IH]; [done|]. cbn [reap List.filter]. destruct (try_wait c); [by rewrite IH at 1|..]; rewrite IH at 1; apply Permutation_middle.
Qed.

Lemma put_children w id v v' a b : w.(services) !! id = Some v -> a ++ children v.(sessions) ≡ₚ b ++ children v'.(sessions) ->
  a ++ all_children w ≡ₚ b ++ all_children (set_services w (<[id:=v']> w.(services))).
Proof. intros Hv Hab. unfold all_children. cbn [services tasks set_services]. rewrite !app_assoc. f_equiv. by apply (svc_update _ _ v). Qed.

Lemma remap_activity v now id : (remap_lowest (set_svc_activity v now) id).(sessions) = (remap_lowest v id).(sessions).
Proof. unfold remap_lowest. cbn [sessions needs_session_sync set_svc_activity]. by repeat case_match. Qed.

(** The shells of a service after a client opened a terminal. *)
Lemma handle_open_children now proxy v o spawn :
  children (handle_open now proxy v o spawn).1.(sessions) ≡ₚ
  (match spawn with
   | SpawnOk c => if bool_decide ((remap_lowest v o.(o_terminal_id)).(sessions) !! o.(o_terminal_id) = None) then [c] else []
   | SpawnErr _ | SpawnLost _ _ => [] end) ++ children v.(sessions).
Proof.
  unfold handle_open. cbv zeta. rewrite <- (remap_children v (o_terminal_id o)).
  destruct (sessions (remap_lowest v (o_terminal_id o)) !! o_terminal_id o) as [s|] eqn:E.
  - rewrite bool_decide_eq_false_2 by done. destruct (reconnect_session s) as [s' pending] eqn:Er. cbn [fst sessions set_needs_sync set_sessions].
    rewrite (children_update _ _ s); [by destruct spawn|done|]. unfold reconnect_session in Er. by injection Er as <- _.
  - rewrite bool_decide_eq_true_2 by done. destruct spawn as [c| |]; cbn [fst sessions set_needs_sync set_sessions]; [|done..]. by rewrite children_insert.
Qed.

Lemma handle_close_children v id : let '(v', c, _) := handle_close v id in
  children v.(sessions) ≡ₚ children v'.(sessions) ++ option_list c ++
  (match v.(sessions) !! id with Some s => match child s with Some c => if c.(kill_ok) then [] else [c] | None => [] end | None => [] end).
Proof.
  unfold handle_close. destruct (sessions v !! id) as [s|] eqn:E; [|by rewrite app_nil_r].
  destruct (child s) as [c|] eqn:Ec; [destruct (kill_ok c)|]; cbn [sessions set_sessions option_list]; rewrite (children_delete _ _ _ E), Ec; cbn [option_list app];
    rewrite ?app_nil_r; try done; apply Permutation_cons_append.
Qed.

(** C26: no shell is forgotten.  Whatever the operation, the shells of the sessions and of the
    reaper afterwards are those of before and the one it started, but for those it releases:
    the reaper exactly those no longer running, closing a terminal the shell it fails to kill,
    and opening one a shell that it started and whose input or output it then could not get. *)
Theorem children_accounted (compress : list Z -> list Z) (now : Z) (w : World) (op : Op) :
  all_children w ++ started w op ≡ₚ all_children (step compress now w op) ++ released w op.
Proof.
  destruct op as [id persistent specified|id a spawn|id busy|id persistent|id persistent|id| |]; cbn [step started released]; rewrite ?app_nil_r.
  - unfold get_or_create_service. destruct (_ && _); [done|]. unfold all_children. cbn [services tasks set_services]. f_equiv.
    destruct (services w !! id) as [v|] eqn:E.
    + apply (svc_update _ _ v _ [] [] E). cbn. by rewrite children_fmap.
    + rewrite svc_insert by done. cbn. by rewrite fmap_empty.
  - unfold handle_action. cbn [proxy_service_id proxy_new]. destruct (services w !! id) as [v|] eqn:E; [|by destruct a; try destruct spawn; rewrite ?app_nil_r].
    cbv zeta. set (v0 := set_svc_activity v now).
    assert (Hput : forall v' b, children v.(sessions) ≡ₚ b ++ children v'.(sessions) ->
      all_children w ≡ₚ b ++ all_children (set_services w (<[id:=v']> w.(services)))) by (intros v' b; apply (put_children w id v v' [] b E)).
    destruct a as [o|r|d|t|]; rewrite ?app_nil_r.
    + pose proof (handle_open_children now (proxy_new w id None) v0 o spawn) as Ho. replace (sessions (remap_lowest v0 (o_terminal_id o))) with (sessions (remap_lowest v (o_terminal_id o))) in Ho by (symmetry; apply remap_activity). change (sessions v0) with (sessions v) in Ho.
      destruct (handle_open now _ v0 o spawn) as [v' res]. cbn [fst] in *. rewrite Permutation_app_comm.
      assert (Hst : match spawn with SpawnOk c => if bool_decide (sessions (remap_lowest v (o_terminal_id o)) !! o_terminal_id o = None) then [c] else [] | SpawnErr _ | SpawnLost _ _ => [] end
        ++ all_children w ≡ₚ [] ++ all_children (set_services w (<[id:=v']> (services w)))) by (apply (put_children w id v v' _ [] E); by rewrite Ho).
      destruct spawn; rewrite ?app_nil_r; [exact Hst..|]. rewrite Permutation_app_comm. apply Permutation_app_tail, Hst.
    + cbn [sessions set_svc_activity v0]. destruct (sessions v !! r_terminal_id r) as [s|] eqn:Es; cbn [fst]; [|by apply (Hput v0 [])].
      destruct (handle_resize now s r) as [s' res] eqn:Er. cbn [fst]. apply (Hput _ []). cbn [sessions set_sessions app].
      rewrite (children_update _ _ s); [done|done|]. unfold handle_resize in Er. cbv zeta in Er. by repeat case_match; simplify_eq.
    + cbn [sessions set_svc_activity v0]. destruct (sessions v !! d_terminal_id d) as [s|] eqn:Es; cbn [fst]; [|by apply (Hput v0 [])].
      apply (Hput _ []). cbn [sessions set_sessions app]. rewrite (children_update _ _ s); [done|done|]. unfold handle_data. cbv zeta. by destruct (input_tx _).
    + pose proof (handle_close_children v0 t) as Hc. change (sessions v0) with (sessions v) in Hc. destruct (handle_close v0 t) as [[v' c] res]. cbn [fst].
      set (lost := match sessions v !! t with Some _ => _ | None => _ end) in *.
      rewrite (Hput v' (option_list c ++ lost)) by (by rewrite Hc, Permutation_app_comm).
      unfold all_children, add_to_reaper. cbn [services tasks set_services]. rewrite <- !app_assoc. rewrite (Permutation_app_comm (option_list c)), <- !app_assoc.
      rewrite (Permutation_app_comm lost), <- !app_assoc. by f_equiv.
    + by apply (Hput v0 []).
  - unfold read_outputs. cbn [proxy_service_id proxy_persistent proxy_new]. destruct (services w !! id) as [v|] eqn:E; [|done].
    pose proof (poll_all_children compress now busy (map_to_list (sessions v)) (sessions v) (NoDup_fst_map_to_list _) ltac:(intros i s H; by apply elem_of_map_to_list in H)) as Hp.
    destruct (poll_all compress now busy (map_to_list (sessions v)) (sessions v)) as [[m rs] closed]. cbn [fst] in Hp.
    pose proof (close_children (is_persistent v) closed m [] []) as Hc. destruct (foldl _ (m, [], []) closed) as [[m' reaped] closings]. cbn [fst].
    rewrite app_nil_r in Hc. rewrite <- (app_nil_l (all_children w)), (put_children w id v (set_sessions v m') [] reaped E) by (cbn [sessions set_sessions app]; by rewrite <- Hp, <- Hc, Permutation_app_comm).
    unfold all_children. cbn [services tasks set_services]. rewrite (Permutation_app_comm reaped), <- app_assoc. done.
  - unfold set_persistent. destruct (services w !! id) as [v|] eqn:E; [|done]. by apply (put_children w id v _ [] []).
  - unfold on_disconnect. cbn [proxy_persistent proxy_service_id]. destruct (negb persistent); [|done]. symmetry. apply remove_service_children.
  - unfold run_cleanup. destruct (services w !! id) as [v|]; [|done]. destruct (negb _); [|done]. symmetry. apply remove_service_children.
  - unfold cleanup_inactive_services. cbv zeta. generalize (omap (fun e : string * Service => if service_expired now e.2 then Some e.1 else None) (map_to_list (services w))).
    intros l. revert w. induction l as [|id l IH]; intros w; [done|]. cbn [foldl]. by rewrite <- IH, remove_service_children.
  - unfold check_zombie_terminals, all_children. cbn [services tasks]. rewrite <- app_assoc. f_equiv. apply reap_spec.
Qed.

End Registry.
