(* ===== verification/ClipDesc.v ===== *)
(** File clipboard: the list of copied files as the side that offers it writes it and as the side
    that pastes reads it ([as_bin] of [libs/clipboard/src/platform/unix/local_file.rs],
    [build_file_list_pdu] of [.../serv_files.rs], [.../filetype.rs]).

    A file name is a Rust string, its UTF-8 bytes; its UTF-16 form is a library's.  Times are
    nanoseconds since 1970. *)

From Stdlib Require Import Ascii.
From S2P Require Import Prelude TermBuffer PathFs FsJob.
Import Utf8 Path Fs.

(** The crate [utf16string]: [WString::from(s).as_bytes()], and [WStr::from_utf16le] with
    [to_utf8]. *)
Class Utf16 := {
  utf16le : string -> list Z;
  from_utf16le : list Z -> option string
}.

Module Desc.

Definition FLAGS_FD_ATTRIBUTES : Z := 4.
Definition FLAGS_FD_SIZE : Z := 64.
Definition FLAGS_FD_LAST_WRITE : Z := 32.
Definition FLAGS_FD_PROGRESSUI : Z := 16384.
Definition FLAGS_FD_UNIX_MODE : Z := 8.
Definition BLOCK_SIZE : Z := 4 * 1024 * 1024.
Definition FILE_NAME_CODE_UNITS : Z := 260.
Definition FILE_NAME_FIELD_SIZE : Z := FILE_NAME_CODE_UNITS * 2.
Definition LDAP_EPOCH_DELTA : Z := 116444736000000000.
Definition FILE_DESCRIPTOR_SIZE : Z := 592.
Definition MAX_FILE_NAME_CODE_UNITS : Z := FILE_NAME_CODE_UNITS - 1.
Definition UTF16_CODE_UNIT_SIZE : Z := 2.

(** [CliprdrError], as far as these files raise it; the texts are only logged. *)
Inductive ClipErr :=
| InvalidRequest | FileError (path : string) | ConversionFailure | CliprdrInit | ClipboardOccupied | CommonError.

(** ** Strings of the standard library *)

(** [String::from_utf8_lossy]: every ill-formed piece becomes a replacement character. *)
Definition REPLACEMENT : list Z := [239; 191; 189].
Definition second_ok (a b : Z) : bool :=
  if a =? 224 then between 160 191 b else if a =? 237 then between 128 159 b
  else if a =? 240 then between 144 191 b else if a =? 244 then between 128 143 b else is_cont b.
Fixpoint lossy (s : list Z) : list Z :=
  match s with
  | [] => []
  | a :: s1 =>
    if between 0 127 a then a :: lossy s1 else
    if between 194 223 a then
      match s1 with
      | b :: s2 => if is_cont b then a :: b :: lossy s2 else REPLACEMENT ++ lossy s1
      | [] => REPLACEMENT
      end
    else if between 224 239 a then
      match s1 with
      | b :: s2 =>
        if second_ok a b then
          match s2 with
          | c :: s3 => if is_cont c then a :: b :: c :: lossy s3 else REPLACEMENT ++ lossy s2
          | [] => REPLACEMENT
          end
        else REPLACEMENT ++ lossy s1
      | [] => REPLACEMENT
      end
    else if between 240 244 a then
      match s1 with
      | b :: s2 =>
        if second_ok a b then
          match s2 with
          | c :: s3 =>
            if is_cont c then
              match s3 with
              | d :: s4 => if is_cont d then a :: b :: c :: d :: lossy s4 else REPLACEMENT ++ lossy s3
              | [] => REPLACEMENT
              end
            else REPLACEMENT ++ lossy s2
          | [] => REPLACEMENT
          end
        else REPLACEMENT ++ lossy s1
      | [] => REPLACEMENT
      end
    else REPLACEMENT ++ lossy s1
  end.
Definition to_string_lossy (path : string) : string := of_bytes (lossy (as_bytes path)).

(** [s.encode_utf16().count()] of well-formed text. *)
Definition utf16_count (s : string) : Z :=
  foldr (fun b n => n + (if is_cont b then 0 else if 240 <=? b then 2 else 1)) 0 (as_bytes s).

(** ** File names *)

Definition validate_file_name (name : string) : result unit ClipErr :=
  let drive := match name with
               | String letter (String c (String sep _)) =>
                 Names.is_ascii_alphabetic letter && Ascii.eqb c ":" && Ascii.eqb sep "/"
               | _ => false
               end in
  if drive || existsb (fun component => bool_decide (component = "" \/ component = ".")%string) (split is_slash name)
  then Err InvalidRequest
  else match Names.validate_file_name_no_traversal false name with Ok _ => Ok tt | Err _ => Err InvalidRequest end.

(** FNV-1a *)
Definition file_list_id (file_descriptor_pdu : list Z) : Z :=
  swrap 32 (foldl (fun id byte => wrap 32 (Z.lxor id byte * 16777619)) 2166136261 file_descriptor_pdu).

(** ** The side that offers files *)

(** A [BufReader] over an open file: the file's inode, the position after the buffer, and what
    the buffer still holds. *)
Record BufReader := mkReader { b_ino : nat; b_pos : Z; b_buf : list Z }.

Record LocalFile := mkLocal {
  path : string;
  handle : option BufReader;
  offset : Z;
  descriptor_name : string;
  size : Z;
  last_write_time : Z;
  is_dir : bool;
  perm : Z;
  read_only : bool;
  hidden : bool;
  system : bool;
  archive : bool;
  normal : bool
}.

Section Desc.
Context {U : Utf16}.

Definition put_descriptor_name (self : LocalFile) : result (list Z) ClipErr :=
  match validate_file_name self.(descriptor_name) with
  | Err e => Err e
  | Ok _ =>
    let name := utf16le self.(descriptor_name) in
    let name_field_size := zlen name + UTF16_CODE_UNIT_SIZE in
    if FILE_NAME_FIELD_SIZE <? name_field_size then Err InvalidRequest
    else Ok (name ++ le_bytes 2 0 ++ replicate (Z.to_nat (FILE_NAME_FIELD_SIZE - name_field_size)) 0)
  end.

Definition file_attributes (self : LocalFile) : Z :=
  let flag (b : bool) x := if b then x else 0 in
  foldl Z.lor (flag self.(read_only) 1)
    [flag self.(hidden) 2; flag self.(system) 4; flag self.(is_dir) 16; flag self.(archive) 32; flag self.(normal) 128].

Definition win32_time (self : LocalFile) : Z :=
  wrap 64 (wrap 64 (Z.max 0 self.(last_write_time) / 100) + LDAP_EPOCH_DELTA).

Definition as_bin (self : LocalFile) : result (list Z) ClipErr :=
  let size_high := wrap 32 (Z.shiftr self.(size) 32) in
  let size_low := wrap 32 (Z.land self.(size) u32_max) in
  let flags := foldl Z.lor FLAGS_FD_SIZE
    [FLAGS_FD_LAST_WRITE; FLAGS_FD_ATTRIBUTES; FLAGS_FD_PROGRESSUI; FLAGS_FD_UNIX_MODE] in
  let head := le_bytes 4 flags ++ replicate 32 0 ++ le_bytes 4 (file_attributes self) ++ replicate 12 0 ++
              le_bytes 4 self.(perm) ++ le_bytes 8 (win32_time self) ++ le_bytes 4 size_high ++ le_bytes 4 size_low in
  match put_descriptor_name self with Ok field => Ok (head ++ field) | Err e => Err e end.

Fixpoint as_bins (files : list LocalFile) : result (list Z) ClipErr :=
  match files with
  | [] => Ok []
  | f :: files =>
    match as_bin f with
    | Err e => Err e
    | Ok bin => match as_bins files with Ok bins => Ok (bin ++ bins) | Err e => Err e end
    end
  end.

(** [ClipFiles::build_file_list_pdu]; [nonce]: sixteen random bytes. *)
Definition LIST_NONCE : Z * Z := (8, 24).
Definition build_file_list_pdu (files : list LocalFile) (nonce : list Z) : result (list Z) ClipErr :=
  match as_bins files with
  | Err e => Err e
  | Ok bins =>
    let pdu := le_bytes 4 (wrap 32 (zlen files)) ++ bins in
    Ok (if LIST_NONCE.2 <=? zlen pdu then ztake LIST_NONCE.1 pdu ++ nonce ++ zdrop LIST_NONCE.2 pdu else pdu)
  end.

(** ** The side that pastes *)

Inductive FileType := TFile | TDirectory | TSymlink.
#[global] Instance FileType_eq_dec : EqDecision FileType.
Proof. solve_decision. Defined.

Definition PERM_READ : Z := 292.
Definition PERM_RW : Z := 420.
Definition PERM_SELF_RO : Z := 256.
Definition PERM_RWX : Z := 493.
Definition MAX_NAME_LEN : Z := 255.

(** All four times of a description are the last modification. *)
Record FileDescription := mkDesc {
  conn_id : Z;
  d_name : string;
  kind : FileType;
  last_modified : Z;
  d_size : Z;
  d_perm : Z;
  clip_data_id : Z
}.

(** The bytes before the first zero unit of a field. *)
Fixpoint until_nul (block : list Z) : option (list Z) :=
  match block with
  | a :: b :: block =>
    if (a =? 0) && (b =? 0) then Some []
    else match until_nul block with Some name => Some (a :: b :: name) | None => None end
  | _ => None
  end.

Definition get_le (off len : Z) (bytes : list Z) : Z := from_le (ztake len (zdrop off bytes)).

(** Of a descriptor's 592 bytes. *)
Definition parse_file_descriptor (bytes : list Z) (conn_id clip_data_id : Z) : result FileDescription ClipErr :=
  let flags := get_le 0 4 bytes in
  let attributes := get_le 36 4 bytes in
  let perm := wrap 16 (get_le 52 4 bytes) in
  let last_write_time := get_le 56 8 bytes in
  let file_size_high := get_le 64 4 bytes in
  let file_size_low := get_le 68 4 bytes in
  match until_nul (ztake FILE_NAME_FIELD_SIZE (zdrop 72 bytes)) with
  | None => Err InvalidRequest
  | Some name =>
  match from_utf16le name with
  | None => Err ConversionFailure
  | Some wstr =>
    if Z.land flags FLAGS_FD_ATTRIBUTES =? 0 then Err InvalidRequest else
    let from_unix := negb (Z.land flags FLAGS_FD_UNIX_MODE =? 0) in
    let directory := negb (Z.land attributes 16 =? 0) in
    let perm := if from_unix then perm
                else if attributes =? 128 then PERM_RWX
                else if directory then PERM_RWX
                else if negb (Z.land attributes 1 =? 0) then PERM_READ
                else if negb (Z.land attributes 2 =? 0) then PERM_SELF_RO
                else PERM_RW in
    let size := wrap 64 (wrap 64 (Z.shiftl file_size_high 32) + file_size_low) in
    let last_modified :=
      if negb (Z.land flags FLAGS_FD_LAST_WRITE =? 0) && (LDAP_EPOCH_DELTA <=? last_write_time)
      then let t := last_write_time - LDAP_EPOCH_DELTA in (t / 10000000) * 1000000000 + t mod 10000000 * 100
      else 0 in
    let name := str_map (fun a => if Ascii.eqb a "\" then "/"%char else a) wstr in
    match validate_file_name name with
    | Err e => Err e
    | Ok _ => Ok (mkDesc conn_id name (if directory then TDirectory else TFile) last_modified size perm clip_data_id)
    end
  end end.

Fixpoint parse_n (count : nat) (data : list Z) (conn_id clip_data_id : Z) : result (list FileDescription) ClipErr :=
  match count with
  | O => Ok []
  | S count =>
    match parse_file_descriptor (ztake FILE_DESCRIPTOR_SIZE data) conn_id clip_data_id with
    | Err e => Err e
    | Ok desc =>
      match parse_n count (zdrop FILE_DESCRIPTOR_SIZE data) conn_id clip_data_id with
      | Ok files => Ok (desc :: files)
      | Err e => Err e
      end
    end
  end.

Definition parse_file_descriptors (file_descriptor_pdu : list Z) (conn_id : Z) : result (list FileDescription) ClipErr :=
  let clip_data_id := file_list_id file_descriptor_pdu in
  if zlen file_descriptor_pdu <? 4 then Err InvalidRequest else
  let count := get_le 0 4 file_descriptor_pdu in
  let data := zdrop 4 file_descriptor_pdu in
  if (zlen data =? 0) && (count =? 0) then Ok []
  else if negb (zlen data =? FILE_DESCRIPTOR_SIZE * count) then Err InvalidRequest
  else parse_n (Z.to_nat count) data conn_id clip_data_id.

End Desc.
End Desc.

Module DescFacts.
Import Desc.

(** ** Well-formed text is not changed *)

Lemma lossy_char c s : Utf8Facts.utf8_char c = true -> lossy (c ++ s) = c ++ lossy s.
Proof.
  unfold Utf8Facts.utf8_char. destruct c as [|a [|b [|c [|d [|e l]]]]]; intros H; try done; cbn [app lossy]; Utf8Facts.tests_in H;
    unfold second_ok; by Utf8Facts.tests_goal.
Qed.

Lemma lossy_valid s : from_utf8 s = true -> lossy s = s.
Proof.
  assert (H : forall n s, (length s <= n)%nat -> from_utf8 s = true -> lossy s = s).
  { clear s. induction n as [|n IH]; intros s Hn Hs; (destruct s as [|a s0]; [done|]); [cbn in Hn; lia|].
    destruct (Utf8Facts.from_utf8_inv (a :: s0) Hs) as (c & s' & E & Hc & Hs'); [done|]. rewrite E in Hn |- *.
    rewrite lossy_char, IH; try done. rewrite length_app in Hn. destruct c; [done|]. cbn in Hn. lia. }
  by apply (H (length s)).
Qed.

(** ** Fields *)

Lemma get_le_field pre n x post bytes off len : bytes = pre ++ le_bytes n x ++ post -> zlen pre = off -> len = Z.of_nat n ->
  get_le off len bytes = x mod 256 ^ Z.of_nat n.
Proof.
  intros -> <- ->. unfold get_le, ztake, zdrop. rewrite !Nat2Z.id, drop_app_length.
  rewrite <- (length_le_bytes n x) at 1. by rewrite take_app_length, from_le_bytes.
Qed.

Definition units (us : list Z) : list Z := concat ((fun u => [u mod 256; u / 256]) <$> us).

Lemma length_units us : zlen (units us) = 2 * zlen us.
Proof. induction us as [|u us IH]; [done|]. cbn [units fmap list_fmap concat app length]. fold (units us). lia. Qed.

Lemma until_nul_units us pad : Forall (fun u => 0 < u < 65536) us -> until_nul (units us ++ 0 :: 0 :: pad) = Some (units us).
Proof.
  induction 1 as [|u us Hu _ IH]; [done|]. cbn [units fmap list_fmap concat app until_nul]. fold (units us). rewrite IH.
  destruct ((u mod 256 =? 0) && (u / 256 =? 0)) eqn:E; [|done]. apply andb_true_iff in E as [E1%Z.eqb_eq E2%Z.eqb_eq].
  rewrite (Z.div_mod u 256) in Hu by lia. rewrite E1, E2 in Hu. lia.
Qed.

Section Facts.
Context {U : Utf16}.

(** What the library documents of a string without a NUL. *)
Record utf16_ok (s : string) : Prop := mkUtf16Ok {
  u_units : exists us, utf16le s = units us /\ Forall (fun u => 0 < u < 65536) us /\ zlen us = utf16_count s;
  u_round : from_utf16le (utf16le s) = Some s
}.

(** A file the list can carry: a name that the reader takes for the same name, and numbers in
    their range. *)
Record sendable (f : LocalFile) : Prop := mkSendable {
  s_name : validate_file_name f.(descriptor_name) = Ok tt;
  s_short : utf16_count f.(descriptor_name) <= MAX_FILE_NAME_CODE_UNITS;
  s_utf16 : utf16_ok f.(descriptor_name);
  s_backslash : str_any (fun a => Ascii.eqb a "\") f.(descriptor_name) = false;
  s_size : in_u 64 f.(size);
  s_time : f.(last_write_time) < 1800000000000000000000
}.

Definition describe (conn_id clip_data_id : Z) (f : LocalFile) : FileDescription :=
  mkDesc conn_id f.(descriptor_name) (if f.(is_dir) then TDirectory else TFile)
    (Z.max 0 f.(last_write_time) / 100 * 100) f.(size) (wrap 16 f.(perm)) clip_data_id.

Definition FD_FLAGS : Z := 16492.

Definition descriptor (reserved : list Z) (f : LocalFile) (field : list Z) : list Z :=
  le_bytes 4 FD_FLAGS ++ reserved ++ le_bytes 4 (file_attributes f) ++ replicate 12 0 ++ le_bytes 4 f.(perm) ++
  le_bytes 8 (win32_time f) ++ le_bytes 4 (wrap 32 (Z.shiftr f.(size) 32)) ++ le_bytes 4 (wrap 32 (Z.land f.(size) u32_max)) ++ field.

Lemma put_name f : sendable f -> exists us,
  put_descriptor_name f = Ok (units us ++ 0 :: 0 :: replicate (Z.to_nat (518 - 2 * zlen us)) 0) /\
  utf16le f.(descriptor_name) = units us /\ Forall (fun u => 0 < u < 65536) us /\ zlen us <= 259.
Proof.
  intros [H1 H2 [(us & Hu & Hf & Hc) _] _ _ _]. exists us. unfold put_descriptor_name. rewrite H1, Hu, length_units.
  unfold MAX_FILE_NAME_CODE_UNITS, FILE_NAME_CODE_UNITS, FILE_NAME_FIELD_SIZE, UTF16_CODE_UNIT_SIZE, FILE_NAME_CODE_UNITS in *.
  destruct (_ <? _) eqn:E; [apply Z.ltb_lt in E; lia|]. split_and!; [|done|done|lia].
  do 2 f_equal. cbn [le_bytes app]. do 3 f_equal. lia.
Qed.

Lemma as_bin_descriptor f : sendable f -> exists us,
  let field := units us ++ 0 :: 0 :: replicate (Z.to_nat (518 - 2 * zlen us)) 0 in
  as_bin f = Ok (descriptor (replicate 32 0) f field) /\
  utf16le f.(descriptor_name) = units us /\ Forall (fun u => 0 < u < 65536) us /\ zlen us <= 259.
Proof.
  intros Hs. destruct (put_name f Hs) as (us & Hp & H). exists us. cbv zeta. split; [|done].
  unfold as_bin. rewrite Hp. unfold descriptor. cbv zeta. by rewrite <- !app_assoc.
Qed.

Lemma length_descriptor r f field : zlen r = 32 -> zlen field = 520 -> zlen (descriptor r f field) = 592.
Proof. intros Hr Hf. unfold descriptor. rewrite !length_app, !length_le_bytes, length_replicate. lia. Qed.

Lemma directory_flag f : negb (Z.land (file_attributes f) 16 =? 0) = f.(is_dir).
Proof. unfold file_attributes. by destruct (read_only f), (hidden f), (system f), (is_dir f), (archive f), (normal f). Qed.

Lemma attributes_range f : 0 <= file_attributes f < 256.
Proof. unfold file_attributes. by destruct (read_only f), (hidden f), (system f), (is_dir f), (archive f), (normal f). Qed.

Lemma str_map_none (p : ascii -> bool) c s : str_any p s = false -> str_map (fun a => if p a then c else a) s = s.
Proof. induction s as [|a s IH]; [done|]. cbn. intros [-> H]%orb_false_iff. by rewrite IH. Qed.

Lemma size_split x : in_u 64 x ->
  wrap 64 (wrap 64 (Z.shiftl (wrap 32 (Z.shiftr x 32)) 32) + wrap 32 (Z.land x u32_max)) = x.
Proof.
  intros Hx. unfold in_u, wrap in *. change u32_max with (Z.ones 32). rewrite Z.land_ones, Z.shiftr_div_pow2, Z.shiftl_mul_pow2 by lia.
  pow2. divlia.
Qed.

Lemma time_split t : t < 1800000000000000000000 ->
  let w := wrap 64 (wrap 64 (Z.max 0 t / 100) + LDAP_EPOCH_DELTA) in
  0 <= w < 2 ^ 64 /\ LDAP_EPOCH_DELTA <= w /\
  ((w - LDAP_EPOCH_DELTA) / 10000000) * 1000000000 + (w - LDAP_EPOCH_DELTA) mod 10000000 * 100 = Z.max 0 t / 100 * 100.
Proof.
  intros Ht. cbv zeta. unfold wrap, LDAP_EPOCH_DELTA. pow2.
  assert (H : 0 <= Z.max 0 t / 100 < 18000000000000000000) by divlia. set (q := Z.max 0 t / 100) in *. clearbody q.
  rewrite (Z.mod_small q) by lia. rewrite Z.mod_small by lia. split; [lia|]. split; [lia|].
  replace (q + 116444736000000000 - 116444736000000000) with q by lia. divlia.
Qed.

(** What the reserved bytes hold makes no difference. *)
Lemma parse_descriptor r f us conn id : sendable f -> zlen r = 32 ->
  utf16le f.(descriptor_name) = units us -> Forall (fun u => 0 < u < 65536) us -> zlen us <= 259 ->
  parse_file_descriptor (descriptor r f (units us ++ 0 :: 0 :: replicate (Z.to_nat (518 - 2 * zlen us)) 0)) conn id = Ok (describe conn id f).
Proof.
  intros [H1 H2 [_ Hr] H4 H5 H6] Hl Hu Hus Hlen. set (field := units us ++ _).
  assert (Hf : zlen field = 520) by (unfold field; rewrite length_app; cbn [length]; rewrite length_replicate, Nat2Z.inj_add, length_units; lia).
  unfold parse_file_descriptor. set (bytes := descriptor r f field). unfold descriptor in bytes.
  set (P1 := le_bytes 4 FD_FLAGS ++ r). set (P2 := P1 ++ le_bytes 4 (file_attributes f) ++ replicate 12 0).
  set (P3 := P2 ++ le_bytes 4 (perm f)). set (P4 := P3 ++ le_bytes 8 (win32_time f)).
  set (P5 := P4 ++ le_bytes 4 (wrap 32 (Z.shiftr (size f) 32))). set (P6 := P5 ++ le_bytes 4 (wrap 32 (Z.land (size f) u32_max))).
  assert (LP : zlen P1 = 36 /\ zlen P2 = 52 /\ zlen P3 = 56 /\ zlen P4 = 64 /\ zlen P5 = 68 /\ zlen P6 = 72).
  { unfold P6, P5, P4, P3, P2, P1. rewrite !length_app, !length_le_bytes, length_replicate. lia. }
  destruct LP as (L1 & L2 & L3 & L4 & L5 & L6).
  assert (HB : bytes = P6 ++ field) by (unfold P6, P5, P4, P3, P2, P1; by rewrite <- !app_assoc).
  rewrite (get_le_field [] 4 FD_FLAGS (zdrop 4 bytes) bytes 0 4) by done.
  assert (G2 : get_le 36 4 bytes = file_attributes f mod 2 ^ 32).
  { eapply (get_le_field P1 4); [|done..]. rewrite HB. unfold P6, P5, P4, P3, P2. by rewrite <- !app_assoc. }
  assert (G3 : get_le 52 4 bytes = perm f mod 2 ^ 32).
  { eapply (get_le_field P2 4); [|done..]. rewrite HB. unfold P6, P5, P4, P3. by rewrite <- !app_assoc. }
  assert (G4 : get_le 56 8 bytes = win32_time f mod 2 ^ 64).
  { eapply (get_le_field P3 8); [|done..]. rewrite HB. unfold P6, P5, P4. by rewrite <- !app_assoc. }
  assert (G5 : get_le 64 4 bytes = wrap 32 (Z.shiftr (size f) 32) mod 2 ^ 32).
  { eapply (get_le_field P4 4); [|done..]. rewrite HB. unfold P6, P5. by rewrite <- !app_assoc. }
  assert (G6 : get_le 68 4 bytes = wrap 32 (Z.land (size f) u32_max) mod 2 ^ 32).
  { eapply (get_le_field P5 4); [|done..]. rewrite HB. unfold P6. by rewrite <- !app_assoc. }
  assert (G7 : ztake FILE_NAME_FIELD_SIZE (zdrop 72 bytes) = field).
  { unfold ztake, zdrop. rewrite HB. rewrite drop_app_length' by lia. apply take_ge. unfold FILE_NAME_FIELD_SIZE, FILE_NAME_CODE_UNITS. lia. }
  rewrite G2, G3, G4, G5, G6, G7. clear G2 G3 G4 G5 G6 G7 HB. pose proof (attributes_range f). unfold wrap at 3 4.
  rewrite (Z.mod_small (file_attributes f)) by lia. rewrite !Z.mod_mod by done.
  unfold field. rewrite until_nul_units by done. rewrite <- Hu, Hr. change (FD_FLAGS mod _) with FD_FLAGS.
  change (Z.land FD_FLAGS FLAGS_FD_ATTRIBUTES =? 0) with false. change (Z.land FD_FLAGS FLAGS_FD_UNIX_MODE =? 0) with false.
  change (Z.land FD_FLAGS FLAGS_FD_LAST_WRITE =? 0) with false. cbv iota zeta. cbn [negb andb].
  rewrite (str_map_none _ _ _ H4), H1, directory_flag. unfold describe. f_equal. f_equal.
  - destruct (time_split _ H6) as (T1 & T2 & T3). fold (win32_time f) in T1, T2, T3. rewrite (Z.mod_small (win32_time f)) by done.
    by rewrite (proj2 (Z.leb_le _ _) T2).
  - exact (size_split _ H5).
  - unfold wrap. pow2. divlia.
Qed.

(** ** A whole list *)

(** The bytes of a descriptor, with what its reserved bytes hold. *)
Definition bin_of (r : list Z) (f : LocalFile) : list Z :=
  let name := utf16le f.(descriptor_name) in
  descriptor r f (name ++ 0 :: 0 :: replicate (Z.to_nat (518 - zlen name)) 0).

Lemma as_bin_ok f : sendable f -> as_bin f = Ok (bin_of (replicate 32 0) f).
Proof. intros Hs. destruct (as_bin_descriptor f Hs) as (us & -> & Hu & _). unfold bin_of. by rewrite Hu, length_units. Qed.

Lemma bin_parses r f conn id : sendable f -> zlen r = 32 ->
  zlen (bin_of r f) = 592 /\ parse_file_descriptor (bin_of r f) conn id = Ok (describe conn id f).
Proof.
  intros Hs Hr. destruct (as_bin_descriptor f Hs) as (us & _ & Hu & Hus & Hl). unfold bin_of. rewrite Hu, length_units. split.
  - apply length_descriptor; [done|]. rewrite length_app. cbn [length]. rewrite length_replicate. pose proof (length_units us). lia.
  - by apply parse_descriptor.
Qed.

Lemma as_bins_ok files : Forall sendable files -> as_bins files = Ok (concat (bin_of (replicate 32 0) <$> files)).
Proof. induction 1 as [|f files Hf _ IH]; [done|]. cbn [as_bins]. by rewrite as_bin_ok, IH. Qed.

Definition reserved_ok (e : list Z * LocalFile) : Prop := zlen e.1 = 32 /\ sendable e.2.

Lemma parse_bins l conn id : Forall reserved_ok l ->
  zlen (concat ((fun e => bin_of e.1 e.2) <$> l)) = 592 * zlen l /\
  parse_n (length l) (concat ((fun e => bin_of e.1 e.2) <$> l)) conn id = Ok (describe conn id <$> l.*2).
Proof.
  induction 1 as [|[r f] l [Hr Hf] _ [IH1 IH2]]; [done|]. cbn [fst snd] in Hr, Hf.
  destruct (bin_parses r f conn id Hf Hr) as [L P]. cbn [fmap list_fmap concat length fst snd parse_n].
  split; [rewrite length_app; cbn [fmap list_fmap] in IH1; lia|]. unfold ztake, zdrop, FILE_DESCRIPTOR_SIZE.
  replace (Z.to_nat 592) with (length (bin_of r f)) by lia.
  rewrite take_app_length, drop_app_length, P. cbn [fmap list_fmap] in IH2. by rewrite IH2.
Qed.

Lemma bin_reserved r2 f : exists t, forall r1, bin_of (r1 ++ r2) f = le_bytes 4 FD_FLAGS ++ r1 ++ t.
Proof. unfold bin_of, descriptor. cbv zeta. eexists. intros r1. by rewrite <- !app_assoc. Qed.

Lemma nonce_bytes (h nonce rest pdu : list Z) : length h = 8%nat -> length nonce = 16%nat -> pdu = h ++ replicate 16 0 ++ rest ->
  ztake LIST_NONCE.1 pdu ++ nonce ++ zdrop LIST_NONCE.2 pdu = h ++ nonce ++ rest.
Proof.
  intros Hh Hn ->. unfold LIST_NONCE, ztake, zdrop, fst, snd. rewrite take_app_length' by lia.
  rewrite (app_assoc h (replicate _ _) rest), drop_app_length' by (rewrite length_app, length_replicate; lia). done.
Qed.

(** The first descriptor after the identifier of the copy was put into it. *)
Lemma put_nonce files nonce pdu : Forall sendable files -> zlen nonce = 16 -> zlen files < 2 ^ 32 ->
  build_file_list_pdu files nonce = Ok pdu -> exists l, Forall reserved_ok l /\ l.*2 = files /\
  pdu = le_bytes 4 (zlen files) ++ concat ((fun e => bin_of e.1 e.2) <$> l).
Proof.
  intros Hf Hn Hc. unfold build_file_list_pdu. rewrite as_bins_ok by done. rewrite (wrap_small 32 (zlen files)) by (unfold in_u; lia).
  destruct files as [|f files]; [intros [= <-]; by exists []|]. set (head := le_bytes 4 (zlen (f :: files))).
  apply Forall_cons in Hf as [Hf Hfs]. destruct (bin_parses (replicate 32 0) f 0 0 Hf eq_refl) as [L _].
  rewrite fmap_cons, concat_cons. set (rest := concat _). assert (Hh : length head = 4%nat) by apply length_le_bytes.
  set (P := head ++ bin_of _ f ++ rest). destruct (bin_reserved (replicate 16 0) f) as [T HT].
  assert (HP : P = (head ++ le_bytes 4 FD_FLAGS) ++ replicate 16 0 ++ T ++ rest)
    by (unfold P; change (replicate 32 0) with (replicate 16 0 ++ replicate 16 0); by rewrite HT, <- !app_assoc).
  clearbody P head. destruct (_ <=? _) eqn:E; [|apply Z.leb_gt in E; cbn [LIST_NONCE snd] in E; subst P;
    rewrite !length_app, length_replicate, length_le_bytes in E; lia].
  rewrite (nonce_bytes (head ++ le_bytes 4 FD_FLAGS) nonce (T ++ rest) P); [| |lia|exact HP]; [|rewrite length_app, Hh, length_le_bytes; done].
  intros [= <-]. exists ((nonce ++ replicate 16 0, f) :: ((fun f => (replicate 32 0, f)) <$> files)). split_and!.
  - constructor; [split; [|done]; cbn [fst]; rewrite length_app, length_replicate; lia|]. apply Forall_fmap.
    eapply Forall_impl; [exact Hfs|]. intros g Hg. by split.
  - cbn [fmap list_fmap snd]. f_equal. rewrite <- list_fmap_compose. apply list_fmap_id.
  - assert (Hr : concat ((fun e => bin_of e.1 e.2) <$> ((fun f => (replicate 32 0, f)) <$> files)) = rest)
      by (rewrite <- list_fmap_compose; done).
    rewrite fmap_cons, concat_cons, Hr. cbn [fst snd]. by rewrite HT, <- !app_assoc.
Qed.

Lemma build_ok files nonce : Forall sendable files -> exists pdu, build_file_list_pdu files nonce = Ok pdu.
Proof. intros Hf. unfold build_file_list_pdu. rewrite as_bins_ok by done. eauto. Qed.

Lemma pdu_parses files nonce pdu conn : Forall sendable files -> zlen nonce = 16 -> zlen files < 2 ^ 32 ->
  build_file_list_pdu files nonce = Ok pdu ->
  zlen pdu = 4 + 592 * zlen files /\ parse_file_descriptors pdu conn = Ok (describe conn (file_list_id pdu) <$> files).
Proof.
  intros Hf Hn Hc Hb. destruct (put_nonce files nonce pdu Hf Hn Hc Hb) as (l & Hl & Hl2 & Hp).
  assert (Hlen : zlen l = zlen files) by (rewrite <- Hl2, length_fmap; done).
  destruct (parse_bins l conn (file_list_id pdu) Hl) as [L P]. set (body := concat _) in *.
  assert (Hz : zlen pdu = 4 + 592 * zlen files) by (rewrite Hp, length_app, length_le_bytes; lia). split; [done|].
  unfold parse_file_descriptors. rewrite (proj2 (Z.ltb_ge _ _)) by lia.
  rewrite (get_le_field [] 4 (zlen files) body pdu 0 4) by done. rewrite Z.mod_small by (change (256 ^ Z.of_nat 4) with (2 ^ 32); lia).
  assert (Hd : zdrop 4 pdu = body) by (rewrite Hp; unfold zdrop; rewrite drop_app_length' by (rewrite length_le_bytes; lia); done).
  rewrite Hd, L, Hlen. unfold FILE_DESCRIPTOR_SIZE. rewrite Z.eqb_refl, Nat2Z.id. cbn [negb].
  replace (length files) with (length l) at 3 by lia. rewrite P, Hl2.
  destruct ((592 * zlen files =? 0) && (zlen files =? 0)) eqn:E; [|done]. apply andb_true_iff in E as [_ E%Z.eqb_eq]. by destruct files.
Qed.

(** ** A hostile list *)

(** A name of plain parts only. *)
Definition normalized (name : string) : Prop :=
  components name = Normal <$> split is_slash name /\ Forall (fun x => comp_of x = Some (Normal x)) (split is_slash name).

Lemma validate_normalized name : validate_file_name name = Ok tt -> normalized name.
Proof.
  unfold validate_file_name. destruct (_ || existsb _ _) eqn:E; [done|]. apply orb_false_iff in E as [_ E].
  unfold Names.validate_file_name_no_traversal. destruct (str_any _ _); [done|]. destruct (existsb _ (List.filter _ _)) eqn:E2; [done|].
  destruct (starts_with is_slash name) eqn:E3; [done|]. intros _.
  assert (F : Forall (fun x => comp_of x = Some (Normal x)) (split is_slash name)).
  { rewrite Forall_forall. intros x Hx. assert (Hd : ~ (x = "" \/ x = ".")%string).
    { intros Hd. apply Bool.not_true_iff_false in E. apply E. apply existsb_exists. exists x. split; [by apply list_elem_of_In|].
      by apply bool_decide_eq_true_2. }
    unfold comp_of. rewrite bool_decide_eq_false_2 by done. rewrite bool_decide_eq_false_2; [done|]. intros ->.
    apply Bool.not_true_iff_false in E2. apply E2. apply existsb_exists. exists ".."%string. split; [|done].
    apply List.filter_In. split; [|done]. rewrite <- (PathFacts.split_ext is_slash) by (intros a; unfold Names.is_sep; by rewrite orb_false_r).
    by apply list_elem_of_In. }
  split; [|done]. unfold components, is_absolute. rewrite E3.
  destruct (split is_slash name) as [|seg segs]; [done|].
  assert (Hseg : seg <> "."%string) by (apply Forall_cons in F as [F _]; intros ->; done).
  rewrite bool_decide_eq_false_2 by done. clear -F.
  induction F as [|x l Hx _ IH]; [done|]. cbn. by rewrite Hx, IH.
Qed.

Lemma parse_descriptor_name bytes conn id d : parse_file_descriptor bytes conn id = Ok d ->
  validate_file_name d.(d_name) = Ok tt /\ d.(ClipDesc.Desc.conn_id) = conn /\ d.(ClipDesc.Desc.clip_data_id) = id.
Proof.
  unfold parse_file_descriptor. destruct (until_nul _); [|done]. destruct (from_utf16le _); [|done].
  destruct (_ =? 0); [done|]. cbv zeta. destruct (validate_file_name _) as [[]|] eqn:E; [|done]. intros [= <-]. by cbn.
Qed.

Lemma parse_n_names n data conn id ds : parse_n n data conn id = Ok ds -> length ds = n /\
  Forall (fun d => validate_file_name d.(d_name) = Ok tt /\ d.(ClipDesc.Desc.conn_id) = conn /\ d.(ClipDesc.Desc.clip_data_id) = id) ds.
Proof.
  revert data ds. induction n as [|n IH]; intros data ds; cbn [parse_n]; [intros [= <-]; by split|].
  destruct (parse_file_descriptor _ _ _) as [d|] eqn:E; [|done]. destruct (parse_n n _ _ _) as [l|] eqn:E2; [|done].
  intros [= <-]. apply IH in E2 as [H1 H2]. split; [cbn; lia|]. constructor; [by apply parse_descriptor_name in E|done].
Qed.
End Facts.
End DescFacts.
