(* ===== verification/ClipServe.v ===== *)
(** File clipboard: the side that offers the copied files ([libs/clipboard/src/platform/unix/
    local_file.rs] and [.../serv_files.rs]).

    The lists are kept by one process for all its connections: the list of the last copy, and up
    to four older ones that some peer was sent.  A file is read through a [BufReader] that stays
    open between requests; a read of a regular file returns what is there, up to what was asked.
    Handles on files keep their inode, whatever becomes of the path. *)

From Stdlib Require Import Ascii.
From S2P Require Import Prelude TermBuffer PathFs FsJob FsWalk ClipDesc.
Import Utf8 Path Fs Desc.

(** What the operating system knows of files beyond their bytes: the time of the last change
    in nanoseconds since 1970 where it is kept, the mode, and what it lets this process do. *)
Class Os := {
  file_modified : Fs -> nat -> option Z;
  file_mode : Fs -> nat -> Z;
  dir_len : Fs -> rpath -> Z;
  dir_modified : Fs -> rpath -> option Z;
  dir_mode : Fs -> rpath -> Z;
  may_open : Fs -> nat -> bool;
  may_list : Fs -> rpath -> bool;
  may_read : Fs -> nat -> bool
}.

(** [ClipboardFile] of [libs/clipboard/src/lib.rs]. *)
Inductive ClipboardFile :=
| NotifyCallback (type title text : string)
| MonitorReady
| FormatList (format_list : list (Z * string))
| FormatListResponse (msg_flags : Z)
| FormatDataRequest (requested_format_id : Z)
| FormatDataResponse (msg_flags : Z) (format_data : list Z)
| FileContentsRequest (stream_id list_index dw_flags n_position_low n_position_high cb_requested : Z)
    (have_clip_data_id : bool) (clip_data_id : Z)
| FileContentsResponse (msg_flags stream_id : Z) (requested_data : list Z)
| TryEmpty
| Files (files : list (string * Z)).

Module Serve.

Section Serve.
Context {U : Utf16} {OS : Os}.

(** ** Metadata *)

Record Metadata := mkMeta { m_len : Z; m_modified : option Z; m_is_dir : bool; m_mode : Z }.

Definition file_meta (fs : Fs) (i : nat) : Metadata :=
  mkMeta (zlen (inode_data fs i)) (file_modified fs i) false (file_mode fs i).

Definition metadata (fs : Fs) (path : string) : result Metadata IoErr :=
  match resolve fs true path with
  | Err e => Err e
  | Ok p =>
    match node_at fs p with
    | Some NDir => Ok (mkMeta (dir_len fs p) (dir_modified fs p) true (dir_mode fs p))
    | Some (NFile i) => Ok (file_meta fs i)
    | Some (NLink _) => Err OtherErr
    | None => Err NotFound
    end
  end.

(** [Permissions::readonly] *)
Definition readonly (mode : Z) : bool := Z.land mode 146 =? 0.

(** ** [BufReader<File>] *)

(** [BufReader::with_capacity(BLOCK_SIZE as usize * 2, handle)] *)
Definition CAPACITY : Z := BLOCK_SIZE * 2.

Definition file_read (fs : Fs) (i : nat) (pos n : Z) : option (list Z) :=
  if may_read fs i then Some (ztake n (zdrop pos (inode_data fs i))) else None.

(** [BufReader::read] into [n] bytes: a large read passes an empty buffer by. *)
Definition buf_read (fs : Fs) (r : BufReader) (n : Z) : option (list Z * BufReader) :=
  if is_nil r.(b_buf) && (CAPACITY <=? n) then
    match file_read fs r.(b_ino) r.(b_pos) n with
    | Some got => Some (got, mkReader r.(b_ino) (r.(b_pos) + zlen got) [])
    | None => None
    end
  else
    match r.(b_buf) with
    | [] =>
      match file_read fs r.(b_ino) r.(b_pos) CAPACITY with
      | Some buf => Some (ztake n buf, mkReader r.(b_ino) (r.(b_pos) + zlen buf) (zdrop n buf))
      | None => None
      end
    | buf => Some (ztake n buf, mkReader r.(b_ino) r.(b_pos) (zdrop n buf))
    end.

(** The loop of [default_read_exact]; [read_loop_spec]: four rounds are enough. *)
Fixpoint read_loop (fuel : nat) (fs : Fs) (r : BufReader) (n : Z) : option (list Z * BufReader) :=
  if n <=? 0 then Some ([], r) else
  match fuel with
  | O => None
  | S fuel =>
    match buf_read fs r n with
    | None | Some ([], _) => None
    | Some (got, r) =>
      match read_loop fuel fs r (n - zlen got) with
      | Some (rest, r) => Some (got ++ rest, r)
      | None => None
      end
    end
  end.

Definition READ_ROUNDS : nat := 4.
Definition read_exact (fs : Fs) (r : BufReader) (n : Z) : option (list Z * BufReader) :=
  if n <=? zlen r.(b_buf) then Some (ztake n r.(b_buf), mkReader r.(b_ino) r.(b_pos) (zdrop n r.(b_buf)))
  else read_loop READ_ROUNDS fs r n.

(** [seek(SeekFrom::Start(offset))] drops the buffer. *)
Definition seek (r : BufReader) (offset : Z) : BufReader := mkReader r.(b_ino) offset [].

(** ** [LocalFile] *)

Fixpoint drop_skipped (segs : list string) : list string :=
  match segs with
  | [] => []
  | s :: segs => match comp_of s with None => drop_skipped segs | Some _ => s :: segs end
  end.
Definition trim_right (segs : list string) : list string := rev (drop_skipped (rev segs)).

(** The segments of a path after the components [base]. *)
Fixpoint strip_segs (base : list Component) (segs : list string) : option (list string) :=
  match base with
  | [] => Some segs
  | c :: base =>
    (fix skip (segs : list string) : option (list string) :=
      match segs with
      | [] => None
      | s :: segs =>
        match comp_of s with
        | None => skip segs
        | Some c' => if decide (c = c') then strip_segs base segs else None
        end
      end) segs
  end.

Definition of_segs (segs : list string) : string := String.concat "/" segs.
Definition after (segs : list string) : string := of_segs (trim_right (drop_skipped segs)).

(** [Path::strip_prefix] *)
Definition strip_prefix (path : string) (base : list Component) : option string :=
  let segs := split is_slash path in
  match base with
  | [] => Some (if is_absolute path then path else
                match segs with
                | s :: segs' => if bool_decide (s = "."%string) then of_segs ("."%string :: trim_right segs') else of_segs (trim_right segs)
                | [] => ""%string
                end)
  | RootDir :: base => if is_absolute path then option_map after (strip_segs base segs) else None
  | CurDir :: base =>
    match segs with
    | s :: segs => if bool_decide (s = "."%string) then option_map after (strip_segs base segs) else None
    | [] => None
    end
  | base =>
    if is_absolute path || bool_decide (head segs = Some "."%string) then None else option_map after (strip_segs base segs)
  end.

Definition validated_descriptor_name (relative_root : list Component) (path : string) : result string ClipErr :=
  match strip_prefix path relative_root with
  | None => Err InvalidRequest
  | Some descriptor_path =>
    if is_absolute descriptor_path then Err InvalidRequest else
    let descriptor_name := to_string_lossy descriptor_path in
    match validate_file_name descriptor_name with
    | Err e => Err e
    | Ok _ => if MAX_FILE_NAME_CODE_UNITS <? utf16_count descriptor_name then Err InvalidRequest else Ok descriptor_name
    end
  end.

Definition try_open (fs : Fs) (relative_root : list Component) (path : string) : result LocalFile ClipErr :=
  match validated_descriptor_name relative_root path with
  | Err e => Err e
  | Ok descriptor_name =>
    match metadata fs path with
    | Err _ => Err (FileError path)
    | Ok mt =>
      let read_only := readonly mt.(m_mode) in
      let hidden := starts_with Walk.is_dot (to_string_lossy path) in
      let normal := negb (mt.(m_is_dir) || read_only || false || hidden || false) in
      let last_write_time := match mt.(m_modified) with Some t => t | None => 0 end in
      Ok (mkLocal path None 0 descriptor_name mt.(m_len) last_write_time mt.(m_is_dir) mt.(m_mode) read_only hidden false false normal)
    end
  end.

Definition set_handle (f : LocalFile) (h : option BufReader) (off : Z) : LocalFile :=
  mkLocal f.(path) h off f.(descriptor_name) f.(size) f.(last_write_time) f.(Desc.is_dir) f.(perm) f.(read_only) f.(hidden)
    f.(system) f.(archive) f.(normal).

(** The file afterwards, and whether it failed. *)
Definition load_handle (fs : Fs) (self : LocalFile) : LocalFile * bool :=
  match self.(handle) with
  | None =>
    if self.(Desc.is_dir) then (self, true) else
    match open_read fs self.(path) with
    | Ok (mkH i _ MRead) =>
      if may_open fs i then
        match file_read fs i 0 CAPACITY with
        | Some buf => (set_handle self (Some (mkReader i (zlen buf) buf)) self.(offset), true)
        | None => (self, false)
        end
      else (self, false)
    | _ => (self, false)
    end
  | Some _ => (self, true)
  end.

Definition invalidate_handle (self : LocalFile) : LocalFile := set_handle self None 0.

Definition read_exact_at (fs : Fs) (self : LocalFile) (len off : Z) : LocalFile * result (list Z) ClipErr :=
  let '(self, loaded) := load_handle fs self in
  if negb loaded then (self, Err (FileError self.(path))) else
  match self.(handle) with
  | None => (self, Err (FileError self.(path)))
  | Some r =>
    let r := if off =? self.(offset) then r else seek r off in
    match read_exact fs r len with
    | None => (invalidate_handle self, Err (FileError self.(path)))
    | Some (buf, r) =>
      let new_offset := off + zlen buf in
      (if self.(size) <=? new_offset then set_handle self None 0 else set_handle self (Some r) new_offset, Ok buf)
    end
  end.

(** ** [construct_file_list] *)

(** The names in a directory: [read_dir]. *)
Definition read_dir (fs : Fs) (path : string) : option (list string) :=
  match resolve fs true path with
  | Ok p => match node_at fs p with
            | Some NDir => if may_list fs p then Some (Walk.children fs p) else None
            | _ => None
            end
  | Err _ => None
  end.

Abbreviation visited_paths := (list (list Component)).

(** The loop over a directory's entries. *)
Fixpoint each_entry (visit : string -> list LocalFile -> visited_paths -> option (result (list LocalFile * visited_paths) ClipErr))
    (names : list string) (file_list : list LocalFile) (visited : visited_paths) : option (result (list LocalFile * visited_paths) ClipErr) :=
  match names with
  | [] => Some (Ok (file_list, visited))
  | name :: names =>
    match visit name file_list visited with
    | Some (Ok (file_list, visited)) => each_entry visit names file_list visited
    | r => r
    end
  end.

(** [None]: out of fuel. *)
Fixpoint constr_file_lst (fuel : nat) (fs : Fs) (relative_root : list Component) (path : string)
    (file_list : list LocalFile) (visited : visited_paths) : option (result (list LocalFile * visited_paths) ClipErr) :=
  if bool_decide (components path ∈ visited) then Some (Ok (file_list, visited)) else
  match fuel with
  | O => None
  | S fuel =>
    let visited := components path :: visited in
    match try_open fs relative_root path with
    | Err e => Some (Err e)
    | Ok local_file =>
      let file_list := file_list ++ [local_file] in
      match metadata fs path with
      | Err _ => Some (Err (FileError path))
      | Ok mt =>
        if mt.(m_is_dir) then
          match read_dir fs path with
          | None => Some (Err (FileError path))
          | Some names => each_entry (fun name => constr_file_lst fuel fs relative_root (join path name)) names file_list visited
          end
        else Some (Ok (file_list, visited))
      end
    end
  end.

(** Each name deepens by a separator, and a name has at most [MAX_FILE_NAME_CODE_UNITS] units
    ([construct_total]). *)
Definition WALK_FUEL : nat := 262.

Fixpoint construct_each (fs : Fs) (paths : list string) (file_list : list LocalFile) : option (result (list LocalFile) ClipErr) :=
  match paths with
  | [] => Some (Ok file_list)
  | path :: paths =>
    match parent (components path) with
    | None => Some (Err InvalidRequest)
    | Some relative_root =>
      match constr_file_lst WALK_FUEL fs relative_root path file_list [] with
      | Some (Ok (file_list, _)) => construct_each fs paths file_list
      | Some (Err e) => Some (Err e)
      | None => None
      end
    end
  end.

Definition construct_file_list (fs : Fs) (paths : list string) : option (result (list LocalFile) ClipErr) :=
  match paths with [] => Some (Err InvalidRequest) | _ => construct_each fs paths [] end.

(** ** [ClipFiles] *)

Record FileSig := mkSig { sig_size : Z; sig_mtime : option Z; sig_is_dir : bool }.
#[global] Instance FileSig_eq_dec : EqDecision FileSig.
Proof. solve_decision. Defined.

Definition fingerprint (fs : Fs) (files : list string) : list FileSig :=
  (fun s => match metadata fs s with
            | Ok mt => mkSig mt.(m_len) mt.(m_modified) mt.(m_is_dir)
            | Err _ => mkSig 0 None false
            end) <$> files.

Record ClipFiles := mkClip {
  files : list string;
  sigs : list FileSig;
  file_list : list LocalFile;
  first_file_index : Z;
  files_pdu : list Z;
  id : Z;
  served_to : list Z
}.

Definition clip_default : ClipFiles := mkClip [] [] [] 0 [] 0 [].
Definition clip_clear (self : ClipFiles) : ClipFiles := mkClip [] [] [] usize_max [] 0 [].

Definition set_file_list (self : ClipFiles) (l : list LocalFile) : ClipFiles :=
  mkClip self.(files) self.(sigs) l self.(first_file_index) self.(files_pdu) self.(id) self.(served_to).
Definition set_served_to (self : ClipFiles) (l : list Z) : ClipFiles :=
  mkClip self.(files) self.(sigs) self.(file_list) self.(first_file_index) self.(files_pdu) self.(id) l.
Definition set_pdu (self : ClipFiles) (pdu : list Z) : ClipFiles :=
  mkClip self.(files) self.(sigs) self.(file_list) self.(first_file_index) pdu (file_list_id pdu) self.(served_to).

Fixpoint position {A} (p : A -> bool) (l : list A) : option nat :=
  match l with [] => None | x :: l => if p x then Some O else S <$> position p l end.

(** [ClipFiles::sync_files] *)
Definition clip_sync_files (fs : Fs) (self : ClipFiles) (clipboard_files : list string) (sigs : list FileSig) : option (result ClipFiles ClipErr) :=
  match construct_file_list fs clipboard_files with
  | None => None
  | Some (Err e) => Some (Err e)
  | Some (Ok l) =>
    let first := match position (fun f => negb (Fs.is_dir fs f.(path))) l with Some i => Z.of_nat i | None => usize_max end in
    Some (Ok (mkClip clipboard_files sigs l first self.(files_pdu) self.(id) self.(served_to)))
  end.

Definition build_list_pdu (self : ClipFiles) (nonce : list Z) : result ClipFiles ClipErr :=
  match build_file_list_pdu self.(file_list) nonce with Ok pdu => Ok (set_pdu self pdu) | Err e => Err e end.

Definition release_handles (self : ClipFiles) : ClipFiles :=
  set_file_list self ((fun f => if f.(offset) =? 0 then set_handle f None 0 else f) <$> self.(file_list)).

Inductive Contents :=
| Size (stream_id file_idx : Z)
| Range (stream_id file_idx offset length : Z).

Definition check_retired_file (fs : Fs) (self : ClipFiles) (request : Contents) : ClipFiles * result unit ClipErr :=
  match request with
  | Size _ _ => (self, Ok tt)
  | Range _ file_idx _ _ =>
    match zget self.(file_list) file_idx with
    | None => (self, Ok tt)
    | Some file =>
      if file.(Desc.is_dir) then (self, Ok tt) else
      let '(file, loaded) := load_handle fs file in
      let self := set_file_list self (<[Z.to_nat file_idx := file]> self.(file_list)) in
      if negb loaded then (self, Err (FileError file.(path))) else
      match file.(handle) with
      | Some r =>
        let md := file_meta fs r.(b_ino) in
        if (md.(m_len) =? file.(size)) && bool_decide (md.(m_modified) = Some file.(last_write_time)) then (self, Ok tt)
        else (self, Err InvalidRequest)
      | None => (self, Err InvalidRequest)
      end
    end
  end.

Definition get_files_for_audit (fs : Fs) (self : ClipFiles) (request : Contents) : option ClipboardFile :=
  match request with
  | Range _ file_idx offset _ =>
    if (file_idx =? self.(first_file_index)) && (offset =? 0) then
      match omap (fun f => if Fs.is_file fs f.(path) then Some (to_string_lossy f.(path), f.(size)) else None) self.(file_list) with
      | [] => None
      | l => Some (Files l)
      end
    else None
  | Size _ _ => None
  end.

(** The next file after [file_idx] that is not a directory is opened ahead. *)
Fixpoint preload (fs : Fs) (l : list LocalFile) : list LocalFile :=
  match l with
  | [] => []
  | f :: l => if f.(Desc.is_dir) then f :: preload fs l else (load_handle fs f).1 :: l
  end.
Definition preload_next (fs : Fs) (self : ClipFiles) (file_idx : Z) : ClipFiles :=
  set_file_list self (ztake (file_idx + 1) self.(file_list) ++ preload fs (zdrop (file_idx + 1) self.(file_list))).

(** "at most this much per range": 16 MiB *)
Definition MAX_RANGE_READ : Z := 16 * 1024 * 1024.

Definition serve_file_contents (fs : Fs) (self : ClipFiles) (request : Contents) : ClipFiles * result ClipboardFile ClipErr :=
  match request with
  | Size stream_id file_idx =>
    match zget self.(file_list) file_idx with
    | None => (self, Err InvalidRequest)
    | Some file => (preload_next fs self file_idx, Ok (FileContentsResponse 1 stream_id (le_bytes 8 file.(size))))
    end
  | Range stream_id file_idx offset length =>
    match zget self.(file_list) file_idx with
    | None => (self, Err InvalidRequest)
    | Some file =>
      if file.(size) <? offset then (self, Err InvalidRequest) else
      let read_size := if file.(size) - offset <? length then file.(size) - offset else length in
      if MAX_RANGE_READ <? read_size then (self, Err InvalidRequest) else
      let '(file, res) := read_exact_at fs file read_size offset in
      let self := set_file_list self (<[Z.to_nat file_idx := file]> self.(file_list)) in
      match res with
      | Err e => (self, Err e)
      | Ok buf => (preload_next fs self file_idx, Ok (FileContentsResponse 1 stream_id buf))
      end
    end
  end.

(** ** The lists of the process *)

Definition MAX_RETIRED_CLIP_FILES : nat := 4.
Record Lists := mkLists { CLIP_FILES : ClipFiles; RETIRED_CLIP_FILES : list ClipFiles }.
Definition lists_default : Lists := mkLists clip_default [].

Definition clear_files (st : Lists) : Lists := mkLists (clip_clear st.(CLIP_FILES)) [].

(** Which list a request reads: the current one, or the retired one at an index. *)
Inductive Selected := Current | Retired (i : nat).

(** [iter_mut().rev().find(p)] *)
Fixpoint rfind {A} (p : A -> bool) (l : list A) : option nat :=
  match l with
  | [] => None
  | x :: l => match rfind p l with Some i => Some (S i) | None => if p x then Some O else None end
  end.

Definition contains (l : list Z) (conn_id : Z) : bool := bool_decide (conn_id ∈ l).

Definition select_clip_files (current : ClipFiles) (retired : list ClipFiles) (conn_id : Z) (clip_data_id : option Z) : option Selected :=
  match clip_data_id with
  | Some i =>
    if current.(id) =? i then Some Current
    else Retired <$> rfind (fun l => (l.(id) =? i) && contains l.(served_to) conn_id) retired
  | None =>
    if contains current.(served_to) conn_id then Some Current
    else match rfind (fun l => contains l.(served_to) conn_id) retired with
         | Some i => Some (Retired i)
         | None => Some Current
         end
  end.

Definition retire_if_served (replaced : ClipFiles) (retired : list ClipFiles) : list ClipFiles :=
  if is_nil replaced.(served_to) then retired
  else (if Nat.eqb (length retired) MAX_RETIRED_CLIP_FILES then tail retired else retired) ++ [release_handles replaced].

Definition selected (st : Lists) (s : Selected) : option ClipFiles :=
  match s with Current => Some st.(CLIP_FILES) | Retired i => st.(RETIRED_CLIP_FILES) !! i end.
Definition put_selected (st : Lists) (s : Selected) (l : ClipFiles) : Lists :=
  match s with
  | Current => mkLists l st.(RETIRED_CLIP_FILES)
  | Retired i => mkLists st.(CLIP_FILES) (<[i := l]> st.(RETIRED_CLIP_FILES))
  end.

Definition decode_request (stream_id list_index dw_flags n_position_low n_position_high cb_requested : Z) : option Contents :=
  let file_idx := wrap 64 list_index in
  if dw_flags =? 1 then Some (Size stream_id file_idx)
  else if dw_flags =? 2 then
    let offset := Z.lor (wrap 64 (Z.shiftl (wrap 64 n_position_high) 32)) (wrap 32 n_position_low) in
    Some (Range stream_id file_idx offset (wrap 32 cb_requested))
  else None.

(** The part of [read_file_contents] after the list was found. *)
Definition read_from (fs : Fs) (clip_files : ClipFiles) (retired : bool) (fcr : Contents) : ClipFiles * list (result ClipboardFile ClipErr) :=
  let '(clip_files, checked) := if retired then check_retired_file fs clip_files fcr else (clip_files, Ok tt) in
  match checked with
  | Err e => (clip_files, [Err e])
  | Ok _ =>
    let audit := match get_files_for_audit fs clip_files fcr with Some files_res => [Ok files_res] | None => [] end in
    let '(clip_files, res) := serve_file_contents fs clip_files fcr in
    (clip_files, audit ++ [res])
  end.

Definition read_file_contents (fs : Fs) (st : Lists) (conn_id stream_id list_index dw_flags n_position_low n_position_high cb_requested : Z)
    (clip_data_id : option Z) : Lists * list (result ClipboardFile ClipErr) :=
  match decode_request stream_id list_index dw_flags n_position_low n_position_high cb_requested with
  | None => (st, [Err InvalidRequest])
  | Some fcr =>
    match select_clip_files st.(CLIP_FILES) st.(RETIRED_CLIP_FILES) conn_id clip_data_id with
    | None => (st, [Err InvalidRequest])
    | Some s =>
      match selected st s with
      | None => (st, [Err InvalidRequest])
      | Some clip_files =>
        let '(clip_files, res) := read_from fs clip_files (match s with Current => false | Retired _ => true end) fcr in
        (put_selected st s clip_files, res)
      end
    end
  end.

(** [sync_files]; [None] as in [construct_file_list]. *)
Definition sync_files (fs : Fs) (st : Lists) (files : list string) (nonce : list Z) : option (Lists * result unit ClipErr) :=
  let current := fingerprint fs files in
  let files_lock := st.(CLIP_FILES) in
  if bool_decide (files_lock.(Serve.files) = files) && bool_decide (files_lock.(sigs) = current) && negb (existsb sig_is_dir current)
  then Some (st, Ok tt) else
  match clip_sync_files fs clip_default files current with
  | None => None
  | Some (Err e) => Some (st, Err e)
  | Some (Ok next) =>
    match build_list_pdu next nonce with
    | Err e => Some (st, Err e)
    | Ok next => Some (mkLists next (retire_if_served files_lock st.(RETIRED_CLIP_FILES)), Ok tt)
    end
  end.

Definition get_file_list_pdu (st : Lists) (conn_id : Z) : Lists * list Z :=
  let clip_files := st.(CLIP_FILES) in
  let served := if negb (is_nil clip_files.(files_pdu)) && negb (contains clip_files.(served_to) conn_id)
                then clip_files.(served_to) ++ [conn_id] else clip_files.(served_to) in
  (mkLists (set_served_to clip_files served) st.(RETIRED_CLIP_FILES), clip_files.(files_pdu)).

End Serve.
End Serve.
