(* ===== verification/ClipHost.v ===== *)
(** File clipboard: what the side that offers files keeps true.  Reading a file through its
    handle in any order gives the bytes of the file; the walk over a selection ends and describes
    every file as it is; a list that was sent stays the one its requests read from. *)

From Stdlib Require Import Ascii.
From S2P Require Import Prelude TermBuffer PathFs FsJob FsWalk ClipDesc ClipServe.
Import Utf8 Path Fs Desc Serve.

Module Readers.
Section Readers.
Context {OS : Os}.

(** What a reader has still to give. *)
Definition rest (fs : Fs) (r : BufReader) : list Z := r.(b_buf) ++ zdrop r.(b_pos) (inode_data fs r.(b_ino)).

Lemma zdrop_zdrop {A} (a b : Z) (l : list A) : 0 <= a -> 0 <= b -> zdrop a (zdrop b l) = zdrop (b + a) l.
Proof. intros. unfold zdrop. rewrite drop_drop. f_equal. lia. Qed.

Lemma ztake_zdrop {A} (n : Z) (l : list A) : ztake n l ++ zdrop n l = l.
Proof. apply take_drop. Qed.

Lemma length_ztake {A} (n : Z) (l : list A) : zlen (ztake n l) = Z.max 0 (Z.min n (zlen l)).
Proof. unfold ztake. rewrite length_take. lia. Qed.
Lemma length_zdrop {A} (n : Z) (l : list A) : zlen (zdrop n l) = Z.max 0 (zlen l - Z.max 0 n).
Proof. unfold zdrop. rewrite length_drop. lia. Qed.

Lemma zdrop_short {A} (n : Z) (l : list A) : 0 <= n -> zdrop (zlen (ztake n l)) l = zdrop n l.
Proof.
  intros Hn. rewrite length_ztake. destruct (Z.le_gt_cases n (zlen l)); [f_equal; lia|]. unfold zdrop. rewrite !drop_ge by lia. done.
Qed.

(** A read of the file itself. *)
Lemma file_read_rest fs i pos n buf : 0 <= pos -> 0 <= n -> file_read fs i pos n = Some buf ->
  zdrop pos (inode_data fs i) = buf ++ zdrop (pos + zlen buf) (inode_data fs i) /\ zlen buf <= n /\
  (zlen buf = n \/ zdrop (pos + zlen buf) (inode_data fs i) = []).
Proof.
  intros Hp Hn. unfold file_read. destruct (may_read _ _); [|done]. intros [= <-]. set (d := zdrop pos _).
  rewrite <- zdrop_zdrop by lia. fold d. rewrite zdrop_short by done. rewrite ztake_zdrop. split; [done|].
  rewrite length_ztake. split; [lia|]. destruct (Z.le_gt_cases n (zlen d)); [left; lia|right]. apply nil_length_inv.
  pose proof (length_zdrop n d). lia.
Qed.

Lemma CAPACITY_pos : 0 < CAPACITY.
Proof. done. Qed.

(** One [read]. *)
Lemma buf_read_spec fs r n : may_read fs r.(b_ino) = true -> 0 <= r.(b_pos) -> 0 < n -> exists got r',
  buf_read fs r n = Some (got, r') /\ rest fs r = got ++ rest fs r' /\ zlen got <= n /\
  r'.(b_ino) = r.(b_ino) /\ 0 <= r'.(b_pos) /\
  (zlen got = n \/ r'.(b_buf) = []) /\ (r.(b_buf) = [] -> zlen got = n \/ rest fs r' = []).
Proof.
  intros Hm Hp Hn. unfold buf_read, rest. pose proof CAPACITY_pos as HC. destruct r as [i pos buf]; cbn [b_ino b_pos b_buf] in *.
  assert (Hf : forall k, exists d, file_read fs i pos k = Some d) by (intros k; unfold file_read; rewrite Hm; eauto).
  destruct buf as [|x buf]; cbn [is_nil andb app].
  - destruct (CAPACITY <=? n) eqn:E; apply Z.leb_le in E || apply Z.leb_gt in E.
    + destruct (Hf n) as [d Hd]. rewrite Hd. destruct (file_read_rest fs i pos n d Hp ltac:(lia) Hd) as (E1 & E2 & E3).
      eexists _, _. split; [done|]. cbn [b_ino b_pos b_buf app]. rewrite E1 at 1. split_and!; try done; try lia; auto.
    + destruct (Hf CAPACITY) as [d Hd]. rewrite Hd. destruct (file_read_rest fs i pos CAPACITY d Hp ltac:(lia) Hd) as (E1 & E2 & E3).
      eexists _, _. split; [done|]. cbn [b_ino b_pos b_buf]. rewrite E1 at 1. rewrite app_assoc, ztake_zdrop.
      rewrite length_ztake. split_and!; try done; try lia.
      * destruct (Z.le_gt_cases n (zlen d)); [left; lia|right]. apply nil_length_inv. pose proof (length_zdrop n d). lia.
      * intros _. destruct (Z.le_gt_cases n (zlen d)); [left; lia|right]. destruct E3 as [E3|E3]; [lia|]. rewrite E3, app_nil_r.
        apply nil_length_inv. pose proof (length_zdrop n d). lia.
  - eexists _, _. split; [done|]. cbn [b_ino b_pos b_buf]. rewrite app_assoc, ztake_zdrop, length_ztake.
    split_and!; try done; try lia. destruct (Z.le_gt_cases n (zlen (x :: buf))); [left; lia|right].
    apply nil_length_inv. pose proof (length_zdrop n (x :: buf)). lia.
Qed.

(** What a loop of reads must give: the first [n] bytes of the rest, or nothing at its end. *)
Definition reads_exactly (fs : Fs) (r : BufReader) (n : Z) (res : option (list Z * BufReader)) : Prop :=
  if n <=? zlen (rest fs r)
  then exists r', res = Some (ztake n (rest fs r), r') /\ r'.(b_ino) = r.(b_ino) /\ 0 <= r'.(b_pos) /\ rest fs r' = zdrop n (rest fs r)
  else res = None.

Lemma reads_nothing fuel fs r : 0 <= r.(b_pos) -> reads_exactly fs r 0 (read_loop fuel fs r 0).
Proof. intros Hp. unfold reads_exactly. rewrite (proj2 (Z.leb_le 0 _)) by lia. exists r. by destruct fuel. Qed.

(** A round that gives [got] leaves the rest to the other rounds. *)
Lemma read_round fuel fs r n got r' : 0 < n -> buf_read fs r n = Some (got, r') -> got <> [] -> zlen got <= n ->
  rest fs r = got ++ rest fs r' -> r'.(b_ino) = r.(b_ino) ->
  reads_exactly fs r' (n - zlen got) (read_loop fuel fs r' (n - zlen got)) -> reads_exactly fs r n (read_loop (S fuel) fs r n).
Proof.
  intros Hn Hb Hg Hl Hr Hi H. unfold reads_exactly in *. cbn [read_loop]. rewrite (proj2 (Z.leb_gt n 0)) by done. rewrite Hb.
  destruct got as [|x got]; [done|]. set (g := x :: got) in *. rewrite Hr, length_app.
  destruct (n <=? Z.of_nat (length g + length (rest fs r'))) eqn:E; apply Z.leb_le in E || apply Z.leb_gt in E.
  - rewrite (proj2 (Z.leb_le _ _)) in H by lia. destruct H as (r2 & -> & Hi2 & Hp2 & Hr2). exists r2.
    split_and!; [|congruence|done|].
    + do 2 f_equal. unfold ztake. rewrite take_app. replace (take (Z.to_nat n) g) with g by (symmetry; apply take_ge; lia). f_equal. f_equal. lia.
    + rewrite Hr2. unfold zdrop. rewrite drop_app, (drop_ge g) by lia. cbn [app]. f_equal. lia.
  - rewrite (proj2 (Z.leb_gt _ _)) in H by lia. by rewrite H.
Qed.

Lemma read_end fuel fs r n : may_read fs r.(b_ino) = true -> 0 <= r.(b_pos) -> 0 < n -> rest fs r = [] ->
  reads_exactly fs r n (read_loop (S fuel) fs r n).
Proof.
  intros Hm Hp Hn He. destruct (buf_read_spec fs r n Hm Hp Hn) as (got & r' & Hb & Hr & _). rewrite He in Hr.
  symmetry in Hr. apply app_nil in Hr as [-> _]. unfold reads_exactly. rewrite He. cbn [length]. rewrite (proj2 (Z.leb_gt _ _)) by lia.
  cbn [read_loop]. rewrite (proj2 (Z.leb_gt n 0)) by done. by rewrite Hb.
Qed.

(** With an empty buffer two rounds are enough, with any buffer three. *)
Lemma read_empty fuel fs r n : may_read fs r.(b_ino) = true -> 0 <= r.(b_pos) -> 0 <= n -> r.(b_buf) = [] ->
  reads_exactly fs r n (read_loop (S (S fuel)) fs r n).
Proof.
  intros Hm Hp Hn Hb0. destruct (Z.eq_dec n 0) as [->|]; [by apply reads_nothing|].
  destruct (decide (rest fs r = [])); [apply read_end; [done..|lia|done]|].
  destruct (buf_read_spec fs r n Hm Hp ltac:(lia)) as (got & r' & Hb & Hr & Hl & Hi & Hp' & _ & Hd).
  destruct (decide (got = [])) as [->|Hg].
  { destruct (Hd Hb0) as [Hx|Hx]; [cbn in Hx; lia|]. rewrite Hx in Hr. done. }
  eapply read_round; [lia|done..|]. destruct (Z.eq_dec (n - zlen got) 0) as [->|]; [by apply reads_nothing|].
  destruct (Hd Hb0) as [|Hx]; [lia|]. apply read_end; [by rewrite Hi|done|lia|done].
Qed.

Lemma read_loop_spec fuel fs r n : may_read fs r.(b_ino) = true -> 0 <= r.(b_pos) -> 0 <= n ->
  reads_exactly fs r n (read_loop (S (S (S fuel))) fs r n).
Proof.
  intros Hm Hp Hn. destruct (Z.eq_dec n 0) as [->|]; [by apply reads_nothing|].
  destruct (decide (r.(b_buf) = [])) as [|Hb0]; [by apply read_empty|].
  destruct (buf_read_spec fs r n Hm Hp ltac:(lia)) as (got & r' & Hb & Hr & Hl & Hi & Hp' & Hd & _).
  destruct (decide (got = [])) as [->|Hg].
  { exfalso. unfold buf_read in Hb. destruct (b_buf r) as [|x buf] eqn:E; [done|]. cbn [is_nil andb] in Hb.
    injection Hb as Hb _. apply (f_equal length) in Hb. unfold ztake in Hb. rewrite length_take in Hb. cbn in Hb. lia. }
  eapply read_round; [lia|done..|]. destruct (Z.eq_dec (n - zlen got) 0) as [->|]; [by apply reads_nothing|].
  destruct Hd as [|Hd]; [lia|]. apply read_empty; [by rewrite Hi|done|lia|done].
Qed.

Lemma read_exact_spec fs r n : may_read fs r.(b_ino) = true -> 0 <= r.(b_pos) -> 0 <= n -> reads_exactly fs r n (read_exact fs r n).
Proof.
  intros Hm Hp Hn. unfold read_exact. destruct (n <=? zlen (b_buf r)) eqn:E; [|by apply read_loop_spec].
  apply Z.leb_le in E. unfold reads_exactly. rewrite (proj2 (Z.leb_le _ _)) by (unfold rest; rewrite length_app; lia).
  exists (mkReader r.(b_ino) r.(b_pos) (zdrop n r.(b_buf))). unfold rest, ztake, zdrop. cbn [b_buf b_pos b_ino].
  rewrite take_app_le, drop_app_le by lia. done.
Qed.

End Readers.
End Readers.

(** ** One file of a list *)
Module LocalFiles.
Import Readers.
Section LocalFiles.
Context {OS : Os}.

(** A file but for what is open of it. *)
Definition forget (f : LocalFile) : LocalFile := set_handle f None 0.

Definition slice (off len : Z) (data : list Z) : list Z := ztake len (zdrop off data).

Definition content (fs : Fs) (f : LocalFile) : list Z :=
  match stat fs f.(path) with Ok (NFile i) => inode_data fs i | _ => [] end.

(** An open reader stands at the file's offset. *)
Definition handle_ok (fs : Fs) (i : nat) (f : LocalFile) : Prop :=
  match f.(handle) with
  | None => f.(offset) = 0
  | Some r => r.(b_ino) = i /\ 0 <= r.(b_pos) /\ 0 <= f.(offset) /\ may_read fs i = true /\
              rest fs r = zdrop f.(offset) (inode_data fs i)
  end.

(** The file is described as it is. *)
Definition file_ok (fs : Fs) (f : LocalFile) : Prop :=
  match stat fs f.(path) with
  | Ok (NFile i) => f.(Desc.is_dir) = false /\ f.(size) = zlen (inode_data fs i) /\
      f.(last_write_time) = default 0 (file_modified fs i) /\ handle_ok fs i f
  | Ok NDir => f.(Desc.is_dir) = true /\ f.(handle) = None /\ f.(offset) = 0
  | _ => False
  end.

(** The process may read it. *)
Definition readable (fs : Fs) (f : LocalFile) : Prop :=
  forall i, stat fs f.(path) = Ok (NFile i) -> may_open fs i = true /\ may_read fs i = true.

Lemma forget_set f h o : forget (set_handle f h o) = forget f.
Proof. done. Qed.
Lemma set_handle_same f : set_handle f f.(handle) f.(offset) = f.
Proof. by destruct f. Qed.

Lemma forget_fields f g : forget f = forget g -> f.(path) = g.(path) /\ f.(size) = g.(size) /\
  f.(Desc.is_dir) = g.(Desc.is_dir) /\ f.(last_write_time) = g.(last_write_time) /\ f.(descriptor_name) = g.(descriptor_name).
Proof. unfold forget, set_handle. intros H. by injection H. Qed.

Lemma closed_ok fs f : file_ok fs f -> file_ok fs (set_handle f None 0).
Proof. unfold file_ok, handle_ok. cbn. destruct (stat _ _) as [[]|]; naive_solver. Qed.

Lemma load_handle_ok fs f f' b : file_ok fs f -> load_handle fs f = (f', b) ->
  file_ok fs f' /\ forget f' = forget f /\ f'.(offset) = f.(offset) /\
  (f.(Desc.is_dir) = false -> readable fs f -> b = true) /\ (b = true -> f.(Desc.is_dir) = false -> is_Some f'.(handle)).
Proof.
  unfold load_handle. intros Hok. destruct (handle f) as [r|] eqn:Eh; [intros [= <- <-]; rewrite Eh; by eauto 10|].
  destruct (Desc.is_dir f) eqn:Ed; [intros [= <- <-]; by split_and!|].
  unfold file_ok, readable in *. unfold open_read. destruct (stat fs (path f)) as [[|t|i]|e] eqn:Es; try done; [destruct Hok; congruence|].
  destruct Hok as (_ & Hs & Hw & Hh). unfold handle_ok in Hh. rewrite Eh in Hh.
  destruct (may_open fs i) eqn:Eo; [|intros [= <- <-]; rewrite Es, Ed; unfold handle_ok; rewrite Eh; split_and!; try done; intros _ H; destruct (H i eq_refl); congruence].
  unfold file_read. destruct (may_read fs i) eqn:Em; [|intros [= <- <-]; rewrite Es, Ed; unfold handle_ok; rewrite Eh; split_and!; try done; intros _ H; destruct (H i eq_refl); congruence].
  intros [= <- <-]. cbn [path set_handle Desc.is_dir size last_write_time handle offset]. rewrite Es. split_and!; try done.
  unfold handle_ok, rest. cbn. rewrite Hh. split_and!; try done; [lia|]. rewrite zdrop_short by done. by rewrite ztake_zdrop.
Qed.

(** Reading any range inside the file, whatever was read before: the bytes of the file. *)
Lemma read_exact_at_ok fs f f' len off res : file_ok fs f -> f.(Desc.is_dir) = false -> 0 <= len -> 0 <= off -> off + len <= f.(size) ->
  read_exact_at fs f len off = (f', res) ->
  file_ok fs f' /\ forget f' = forget f /\ (readable fs f -> res = Ok (slice off len (content fs f))).
Proof.
  intros Hok Hd Hl Ho Hsz. unfold read_exact_at. destruct (load_handle fs f) as [f1 b] eqn:El.
  destruct (load_handle_ok _ _ _ _ Hok El) as (Hok1 & Hf1 & Hof & Hb & Hh).
  destruct b; cbn [negb]; [|intros [= <- <-]; split_and!; [done..|intros Hr; by specialize (Hb Hd Hr)]].
  destruct (Hh eq_refl Hd) as [r Er]. rewrite Er. destruct (forget_fields _ _ Hf1) as (Fp & Fs & Fd & Fw & _).
  unfold content. unfold file_ok in Hok1. rewrite Fp, Fd, Hd, Fs in Hok1. unfold handle_ok in Hok1. rewrite Er in Hok1.
  destruct (stat fs (path f)) as [[|t|i]|e] eqn:Es; try done; [destruct Hok1; congruence|].
  destruct Hok1 as (_ & Hs & Hw & Hi & Hp & Ho1 & Hm & Hr1).
  set (r0 := if off =? offset f1 then r else seek r off).
  assert (Hr0 : r0.(b_ino) = i /\ 0 <= r0.(b_pos) /\ rest fs r0 = zdrop off (inode_data fs i)).
  { unfold r0. destruct (off =? offset f1) eqn:E; [apply Z.eqb_eq in E; by subst off|]. unfold rest, seek. cbn. by rewrite Hi. }
  clearbody r0. destruct Hr0 as (I0 & P0 & R0). pose proof (read_exact_spec fs r0 len ltac:(by rewrite I0) P0 Hl) as Hre.
  unfold reads_exactly in Hre. rewrite R0 in Hre. rewrite (proj2 (Z.leb_le _ _)) in Hre by (rewrite length_zdrop; lia).
  destruct Hre as (r' & -> & I1 & P1 & R1).
  assert (Hlen : zlen (ztake len (zdrop off (inode_data fs i))) = len) by (rewrite length_ztake, length_zdrop; lia).
  rewrite Hlen. intros [= <- <-]. rewrite Fs. split_and!; [|by destruct (_ <=? _)|done].
  destruct (size f <=? off + len); unfold file_ok; cbn [path set_handle Desc.is_dir size last_write_time]; rewrite Fp, Es, Fd, Hd, Fs, Fw;
    rewrite Fw in Hw; split_and!; try done. unfold handle_ok. cbn [handle set_handle offset]. rewrite I1, I0.
  split_and!; try done; [lia|]. rewrite R1. by rewrite zdrop_zdrop by lia.
Qed.

(** ** The list of one copy *)

Definition list_ok (fs : Fs) (l : list LocalFile) : Prop := Forall (file_ok fs) l.

Lemma preload_ok fs l : list_ok fs l -> list_ok fs (preload fs l) /\ forget <$> preload fs l = forget <$> l.
Proof.
  induction 1 as [|f l Hf Hl [IH1 IH2]]; [split; [constructor|done]|]. cbn [preload]. destruct (Desc.is_dir f).
  - split; [by constructor|]. cbn. by rewrite IH2.
  - destruct (load_handle fs f) as [f' b] eqn:E. destruct (load_handle_ok _ _ _ _ Hf E) as (H1 & H2 & _). cbn [fst].
    split; [by constructor|]. cbn. by rewrite H2.
Qed.

Lemma preload_next_ok fs c idx : list_ok fs c.(file_list) ->
  list_ok fs (preload_next fs c idx).(file_list) /\ forget <$> (preload_next fs c idx).(file_list) = forget <$> c.(file_list).
Proof.
  intros H. unfold preload_next. cbn [file_list set_file_list]. rewrite <- (ztake_zdrop (idx + 1) (file_list c)) in H.
  apply Forall_app in H as [H1 H2]. destruct (preload_ok _ _ H2) as [P1 P2]. split; [by apply Forall_app|].
  rewrite fmap_app, P2, <- fmap_app. by rewrite ztake_zdrop.
Qed.

Lemma put_file_ok fs (l : list LocalFile) i f f' : list_ok fs l -> l !! i = Some f -> file_ok fs f' -> forget f' = forget f ->
  list_ok fs (<[i := f']> l) /\ forget <$> <[i := f']> l = forget <$> l.
Proof.
  intros Hl Hi Hf Hg. split; [by apply Forall_insert|]. rewrite list_fmap_insert, Hg. apply list_insert_id.
  by rewrite list_lookup_fmap, Hi.
Qed.

Lemma release_ok fs c : list_ok fs c.(file_list) ->
  list_ok fs (release_handles c).(file_list) /\ forget <$> (release_handles c).(file_list) = forget <$> c.(file_list).
Proof.
  intros H. unfold release_handles. cbn [file_list set_file_list]. split.
  - apply Forall_fmap. eapply Forall_impl; [exact H|]. intros f Hf. cbn. destruct (_ =? _); [by apply closed_ok|done].
  - rewrite <- list_fmap_compose. apply list_fmap_ext. intros _ f _. cbn. by destruct (_ =? _).
Qed.

Lemma zget_lookup {A} (l : list A) i x : zget l i = Some x -> 0 <= i /\ l !! Z.to_nat i = Some x.
Proof. unfold zget. destruct (0 <=? i) eqn:E; [|done]. apply Z.leb_le in E. done. Qed.

(** Two stages of one list: only handles and the connections it was sent to differ. *)
Record same_list (c c' : ClipFiles) : Prop := mkSame {
  sm_files : forget <$> c'.(file_list) = forget <$> c.(file_list);
  sm_id : c'.(id) = c.(id);
  sm_pdu : c'.(files_pdu) = c.(files_pdu);
  sm_first : c'.(first_file_index) = c.(first_file_index);
  sm_served : c.(served_to) ⊆ c'.(served_to)
}.

Lemma same_refl c : same_list c c.
Proof. by constructor. Qed.
Lemma same_trans a b c : same_list a b -> same_list b c -> same_list a c.
Proof. intros [] []. constructor; try congruence. by etrans. Qed.

Lemma check_retired_ok fs c req c' res : list_ok fs c.(file_list) -> check_retired_file fs c req = (c', res) ->
  list_ok fs c'.(file_list) /\ same_list c c'.
Proof.
  intros Hl. unfold check_retired_file. destruct req as [|s i o n]; [intros [= <- <-]; by split; [|apply same_refl]|].
  destruct (zget _ i) as [f|] eqn:Ez; [|intros [= <- <-]; by split; [|apply same_refl]].
  destruct (Desc.is_dir f); [intros [= <- <-]; by split; [|apply same_refl]|].
  apply zget_lookup in Ez as [_ Hi]. destruct (load_handle fs f) as [f' b] eqn:El.
  assert (Hf : file_ok fs f) by (eapply Forall_lookup_1; eauto).
  destruct (load_handle_ok _ _ _ _ Hf El) as (H1 & H2 & _). destruct (put_file_ok fs _ _ _ _ Hl Hi H1 H2) as [P1 P2].
  intros H. assert (c' = set_file_list c (<[Z.to_nat i:=f']> (file_list c))) as ->.
  { destruct b; cbn [negb] in H; [|by simplify_eq]. destruct (handle f') as [r|]; [|by simplify_eq]. by destruct (_ && _); simplify_eq. }
  split; [done|]. by constructor.
Qed.

Lemma serve_ok fs c req c' res : list_ok fs c.(file_list) ->
  match req with Range _ _ o n => 0 <= o /\ 0 <= n | Size _ _ => True end -> serve_file_contents fs c req = (c', res) ->
  list_ok fs c'.(file_list) /\ same_list c c'.
Proof.
  intros Hl Hreq. assert (Hpre : forall c1 i, list_ok fs (file_list c1) -> same_list c c1 ->
    list_ok fs (file_list (preload_next fs c1 i)) /\ same_list c (preload_next fs c1 i)).
  { intros c1 i H1 Hs. destruct (preload_next_ok fs c1 i H1) as [P1 P2]. split; [done|]. eapply same_trans; [exact Hs|]. by constructor. }
  unfold serve_file_contents. destruct req as [s i|s i o n]; cbn in Hreq.
  - destruct (zget _ i); intros [= <- <-]; [apply Hpre; [done|apply same_refl]|by split; [|apply same_refl]].
  - destruct (zget _ i) as [f|] eqn:Ez; [|intros [= <- <-]; by split; [|apply same_refl]].
    apply zget_lookup in Ez as [_ Hi]. assert (Hf : file_ok fs f) by (eapply Forall_lookup_1; eauto).
    destruct (size f <? o) eqn:E1; [intros [= <- <-]; by split; [|apply same_refl]|]. apply Z.ltb_ge in E1.
    set (m := if size f - o <? n then size f - o else n).
    destruct (MAX_RANGE_READ <? m); [intros [= <- <-]; by split; [|apply same_refl]|].
    destruct (read_exact_at fs f m o) as [f' r] eqn:Er.
    assert (Hm : 0 <= m /\ o + m <= size f) by (unfold m; destruct (_ <? _) eqn:E; apply Z.ltb_lt in E || apply Z.ltb_ge in E; lia).
    assert (Hf' : file_ok fs f' /\ forget f' = forget f).
    { destruct (Desc.is_dir f) eqn:Ed; [|destruct (read_exact_at_ok fs f f' m o r Hf Ed) as (H1 & H2 & _); try done; lia].
      assert (Hn : handle f = None) by (unfold file_ok in Hf; rewrite Ed in Hf; destruct (stat _ _) as [[]|]; naive_solver).
      unfold read_exact_at, load_handle in Er. rewrite Hn, Ed in Er. cbn [negb] in Er. rewrite Hn in Er. by simplify_eq. }
    destruct (put_file_ok fs _ _ _ _ Hl Hi (proj1 Hf') (proj2 Hf')) as [P1 P2].
    destruct r; intros [= <- <-]; [apply Hpre; [done|]|split; [done|]]; by constructor.
Qed.

End LocalFiles.
End LocalFiles.
