(* ===== verification/ClipWalk.v ===== *)
(** File clipboard: the walk over a selection ([construct_file_list] of [libs/clipboard/src/
    platform/unix/local_file.rs]).  It ends, because each level makes the names longer, and when
    it succeeds the list is what was selected and everything below it, each file once per
    selected path and described as it is. *)

From Stdlib Require Import Ascii.
From S2P Require Import Prelude TermBuffer PathFs FsJob FsWalk ClipDesc ClipServe ClipHost.
Import Utf8 Path Fs Desc Serve Readers LocalFiles PathFacts.

Module ClipWalk.

(** ** Separators survive *)

Fixpoint slashes (l : list Z) : nat :=
  match l with [] => O | b :: l => ((if (b =? 47)%Z then 1 else 0) + slashes l)%nat end.

Lemma slashes_app a b : slashes (a ++ b) = (slashes a + slashes b)%nat.
Proof. induction a as [|x a IH]; [done|]. cbn. rewrite IH. lia. Qed.

Lemma lossy_slashes s : (slashes s <= slashes (lossy s))%nat.
Proof.
  assert (H : forall n s, (length s <= n)%nat -> (slashes s <= slashes (lossy s))%nat).
  { clear s. induction n as [|n IH]; intros s Hn; (destruct s as [|a s]; [done|]); [cbn in Hn; lia|].
    assert (IH' : forall t, (length t <= length s)%nat -> (slashes t <= slashes (lossy t))%nat) by (intros t Ht; apply IH; cbn in Hn; lia).
    cbn [lossy]. destruct (between 0 127 a) eqn:E1; [cbn [slashes]; specialize (IH' s); lia|].
    assert (Hge : forall lo hi x, between lo hi x = true -> 48 <= lo -> (x =? 47) = false) by (unfold between; intros; bool_to_prop; lia).
    assert (Ha : (a =? 47) = false) by (unfold between in E1; destruct (a =? 47) eqn:E; [apply Z.eqb_eq in E; subst|]; done).
    assert (Hc : forall x, is_cont x = true -> (x =? 47) = false) by (unfold is_cont; intros x Hx; eapply Hge; [exact Hx|lia]).
    assert (H2 : forall x, second_ok a x = true -> (x =? 47) = false).
    { unfold second_ok. intros x. intros Hx. destruct (a =? 224), (a =? 237), (a =? 240), (a =? 244);
      (apply Hc; exact Hx) || (eapply Hge; [exact Hx|lia]). }
    cbn [slashes]. rewrite Ha. change (0 + slashes s)%nat with (slashes s).
    destruct (between 194 223 a); [|destruct (between 224 239 a); [|destruct (between 240 244 a)]];
    repeat match goal with
      | |- context [match ?l with [] => _ | _ :: _ => _ end] => destruct l as [|? ?]
      | |- context [if is_cont ?x then _ else _] => destruct (is_cont x) eqn:?
      | |- context [if second_ok a ?x then _ else _] => destruct (second_ok a x) eqn:?
      end;
    repeat match goal with
      | H : is_cont ?x = true |- _ => apply Hc in H
      | H : second_ok a ?x = true |- _ => apply H2 in H
      end;
    rewrite ?slashes_app; cbn [slashes REPLACEMENT app]; repeat match goal with H : (_ =? 47) = false |- _ => rewrite H; clear H end;
    try match goal with |- context [lossy ?l] => specialize (IH' l ltac:(cbn; lia)) end; cbn [slashes] in *; try lia. }
  by apply (H (length s)).
Qed.

Lemma utf16_slashes s : Z.of_nat (slashes (as_bytes s)) <= utf16_count s.
Proof.
  unfold utf16_count. induction (as_bytes s) as [|b l IH]; [done|]. cbn [slashes foldr].
  set (n := foldr _ 0 l) in *. clearbody n. unfold is_cont, between.
  destruct (b =? 47) eqn:E; [apply Z.eqb_eq in E; subst b; cbn [Z.leb andb]; cbn; lia|]. repeat destruct (_ <=? _); cbn [andb]; lia.
Qed.

Lemma bytes_slashes l : (slashes l <= slashes (as_bytes (of_bytes l)))%nat.
Proof.
  unfold as_bytes, of_bytes. rewrite String.list_ascii_of_string_of_list_ascii. induction l as [|b l IH]; [done|].
  rewrite !fmap_cons. cbn [slashes].
  destruct (b =? 47) eqn:E; [apply Z.eqb_eq in E; subst b; rewrite (eq_refl : (Z.of_N (Ascii.N_of_ascii (Ascii.ascii_of_N (Z.to_N 47))) =? 47) = true); lia|lia].
Qed.

Lemma as_bytes_app a b : as_bytes (a ++ b) = as_bytes a ++ as_bytes b.
Proof. unfold as_bytes. induction a as [|x a IH]; [done|]. rewrite str_app_cons. cbn [String.list_ascii_of_string]. by rewrite !fmap_cons, IH. Qed.

Lemma of_segs_slashes segs : (length segs <= S (slashes (as_bytes (of_segs segs))))%nat.
Proof.
  unfold of_segs. induction segs as [|s segs IH]; [cbn; lia|]. destruct segs as [|s' segs]; [cbn; lia|].
  change (String.concat "/" (s :: s' :: segs)) with (s ++ "/" ++ String.concat "/" (s' :: segs))%string.
  rewrite !as_bytes_app, !slashes_app. cbn [length] in *. change (slashes (as_bytes "/")) with 1%nat. lia.
Qed.

(** ** Stripping the root *)

Lemma drop_skipped_comps segs : omap comp_of (drop_skipped segs) = omap comp_of segs.
Proof. induction segs as [|s segs IH]; [done|]. cbn. destruct (comp_of s) eqn:E; cbn; rewrite ?E; done. Qed.

Lemma omap_rev {A B} (f : A -> option B) l : omap f (rev l) = rev (omap f l).
Proof. induction l as [|x l IH]; [done|]. cbn. rewrite omap_app, IH. cbn. by destruct (f x); cbn; rewrite ?app_nil_r. Qed.

Lemma after_comps segs : omap comp_of (trim_right (drop_skipped segs)) = omap comp_of segs.
Proof. unfold trim_right. by rewrite omap_rev, drop_skipped_comps, omap_rev, rev_involutive, drop_skipped_comps. Qed.

Lemma strip_segs_comps base segs segs' : strip_segs base segs = Some segs' -> omap comp_of segs = base ++ omap comp_of segs'.
Proof.
  revert segs. induction base as [|c base IH]; intros segs H; cbn [strip_segs] in H; [by simplify_eq|].
  induction segs as [|s segs IHs]; [done|]. cbn in *. destruct (comp_of s) as [c'|]; [|by apply IHs].
  destruct (decide (c = c')) as [->|]; [|done]. by rewrite (IH _ H).
Qed.

(** A name has a separator for each component after the first. *)
Lemma descriptor_depth root path s : is_absolute path = true -> strip_prefix path root = Some s -> is_absolute s = false ->
  Z.of_nat (length (components path)) <= Z.of_nat (length root) + 1 + utf16_count (to_string_lossy s).
Proof.
  intros Ha. unfold strip_prefix. rewrite components_absolute by done. destruct root as [|[| | |] root]; rewrite ?Ha.
  - intros [= <-]. congruence.
  - destruct (strip_segs root (split is_slash path)) as [segs|] eqn:E; [|done]. intros [= <-] _. apply strip_segs_comps in E.
    unfold relative. rewrite E. cbn [length]. rewrite length_app. unfold after. set (l := trim_right _).
    assert (Hl : (length (omap comp_of segs) <= length l)%nat).
    { rewrite <- after_comps. fold l. clear. induction l as [|x l IH]; [done|]. cbn. destruct (comp_of x); cbn; lia. }
    pose proof (of_segs_slashes l). pose proof (lossy_slashes (as_bytes (of_segs l))). unfold to_string_lossy.
    pose proof (bytes_slashes (lossy (as_bytes (of_segs l)))). pose proof (utf16_slashes (of_bytes (lossy (as_bytes (of_segs l))))). lia.
  - destruct (split is_slash path) as [|x l] eqn:E; [done|]. case_bool_decide as Hx; [|done]. subst x. exfalso.
    destruct path as [|a path]; [done|]. unfold is_absolute in Ha. cbn [split starts_with] in *. by rewrite Ha in E.
  - done.
  - done.
Qed.

Section Walk.
Context {U : Utf16} {OS : Os}.

(** ** The walk ends *)

Lemma try_open_deep fs root path : is_absolute path = true ->
  Z.of_nat (length root) + 261 <= Z.of_nat (length (components path)) -> exists e, try_open fs root path = Err e.
Proof.
  intros Ha Hd. unfold try_open, validated_descriptor_name. destruct (strip_prefix path root) as [s|] eqn:E; [|eauto].
  destruct (is_absolute s) eqn:Es; [eauto|]. pose proof (descriptor_depth _ _ _ Ha E Es). destruct (validate_file_name _); [|eauto].
  rewrite (proj2 (Z.ltb_lt _ _)); [eauto|]. unfold MAX_FILE_NAME_CODE_UNITS, FILE_NAME_CODE_UNITS. lia.
Qed.

Lemma children_join fs p path name : WalkFacts.names_ok fs -> is_absolute path = true -> name ∈ Walk.children fs p ->
  is_absolute (join path name) = true /\ components (join path name) = components path ++ [Normal name].
Proof.
  intros Hno Ha Hc. unfold Walk.children in Hc. apply list_elem_of_omap in Hc as ([k n] & Hk%elem_of_map_to_list & He). cbn in He.
  destruct k as [|c k _] using rev_ind; [done|]. rewrite last_snoc, removelast_last in He. case_bool_decide; [|done]. injection He as ->. subst.
  destruct (Hno p name ltac:(by rewrite Hk)) as [N1 N2]. destruct (relative_one name N1 N2) as [Hr Hn].
  destruct (relative_join path name Ha Hn) as [J1 J2]. rewrite Hr in J2. split; [done|]. by rewrite !components_absolute, J2.
Qed.

Lemma each_entry_some visit names : (forall n fl v, n ∈ names -> is_Some (visit n fl v)) -> forall fl v, is_Some (each_entry visit names fl v).
Proof.
  induction names as [|n names IH]; intros H fl v; cbn [each_entry]; [eauto|].
  destruct (H n fl v ltac:(by left)) as [r Hr]. rewrite Hr. destruct r as [[]|]; [|eauto]. apply IH. intros. apply H. by right.
Qed.

Lemma constr_some fuel : forall fs root path fl v, WalkFacts.names_ok fs -> is_absolute path = true ->
  Z.of_nat (length (components path)) <= Z.of_nat (length root) + 261 ->
  Z.of_nat (length root) + 262 <= Z.of_nat (length (components path)) + Z.of_nat fuel ->
  is_Some (constr_file_lst fuel fs root path fl v).
Proof.
  induction fuel as [|fuel IH]; intros fs root path fl v Hno Ha H1 H2; [lia|]. cbn [constr_file_lst].
  destruct (bool_decide _); [eauto|]. destruct (Z.le_gt_cases (Z.of_nat (length root) + 261) (Z.of_nat (length (components path)))) as [Hd|Hd].
  { destruct (try_open_deep fs root path Ha Hd) as [e ->]. eauto. }
  destruct (try_open fs root path); [|eauto]. destruct (metadata fs path) as [mt|]; [|eauto]. destruct (m_is_dir mt); [|eauto].
  destruct (read_dir fs path) as [names|] eqn:Er; [|eauto]. apply each_entry_some. intros n fl' v' Hn.
  unfold read_dir in Er. destruct (resolve fs true path) as [p|]; [|done]. destruct (node_at fs p) as [[]|]; try done.
  destruct (may_list fs p); [|done]. injection Er as <-. destruct (children_join fs p path n Hno Ha Hn) as [J1 J2].
  apply IH; [done|done| |]; rewrite J2, length_app; cbn [length]; lia.
Qed.

Lemma construct_each_some fs paths : WalkFacts.names_ok fs -> Forall (fun p => is_absolute p = true) paths ->
  forall fl, is_Some (construct_each fs paths fl).
Proof.
  intros Hno. induction 1 as [|path paths Hp _ IH]; intros fl; cbn [construct_each]; [eauto|].
  destruct (parent (components path)) as [root|] eqn:Ep; [|eauto].
  assert (Hl : length (components path) = S (length root)).
  { unfold parent in Ep. destruct (last (components path)) as [c|] eqn:El; [|done].
    apply last_Some in El as [l El]. rewrite El, removelast_last in Ep. destruct c; simplify_eq; rewrite El, length_app; cbn; lia. }
  assert (Hs : is_Some (constr_file_lst WALK_FUEL fs root path fl [])).
  { apply constr_some; [done|done| |]; rewrite Hl; unfold WALK_FUEL; lia. }
  destruct Hs as [r Hr]. rewrite Hr. destruct r as [[l v]|e]; [|eauto]. apply IH.
Qed.

(** ** What it lists *)

Definition key (f : LocalFile) : list Component := components f.(path).

(** [f] is an entry of a listed directory. *)
Definition child_of (fs : Fs) (l : list LocalFile) (f : LocalFile) : Prop :=
  exists g names n, g ∈ l /\ read_dir fs g.(path) = Some names /\ n ∈ names /\ f.(path) = join g.(path) n.

(** Every entry of a listed directory was visited. *)
Definition entries_in (fs : Fs) (v : list (list Component)) (f : LocalFile) : Prop :=
  f.(Desc.is_dir) = true -> exists names, read_dir fs f.(path) = Some names /\ Forall (fun n => components (join f.(path) n) ∈ v) names.

Record walked (fs : Fs) (root : list Component) (tops : list string) (v v' : list (list Component)) (l : list LocalFile) : Prop := mkWalked {
  w_visited : forall c, c ∈ v' <-> c ∈ v \/ c ∈ key <$> l;
  w_nodup : NoDup (key <$> l);
  w_fresh : forall c, c ∈ key <$> l -> c ∉ v;
  w_open : Forall (fun f => try_open fs root f.(path) = Ok f) l;
  w_entries : Forall (entries_in fs v') l;
  w_reached : Forall (fun f => f.(path) ∈ tops \/ child_of fs l f) l;
  w_tops : Forall (fun p => components p ∈ v') tops
}.

Lemma try_open_path fs root p f : try_open fs root p = Ok f -> f.(path) = p.
Proof. unfold try_open. destruct (validated_descriptor_name _ _); [|done]. destruct (metadata _ _); [|done]. by intros [= <-]. Qed.

Lemma entries_in_mono fs v v' l : (forall c, c ∈ v -> c ∈ v') -> Forall (entries_in fs v) l -> Forall (entries_in fs v') l.
Proof.
  intros Hv Hl. eapply Forall_impl; [exact Hl|]. intros f H Hd. destruct (H Hd) as (names & Hr & Hn). exists names. split; [done|].
  eapply Forall_impl; [exact Hn|]. intros n. apply Hv.
Qed.

Lemma child_of_mono fs l l' f : (forall g, g ∈ l -> g ∈ l') -> child_of fs l f -> child_of fs l' f.
Proof. intros Hl (g & names & n & Hg & H). exists g, names, n. split; [by apply Hl|done]. Qed.

Lemma walked_app fs root t1 t2 v v1 v2 l1 l2 : walked fs root t1 v v1 l1 -> walked fs root t2 v1 v2 l2 ->
  walked fs root (t1 ++ t2) v v2 (l1 ++ l2).
Proof.
  intros [A1 A2 A3 A4 A5 A6 A7] [B1 B2 B3 B4 B5 B6 B7]. constructor.
  - intros c. rewrite B1, A1, fmap_app, elem_of_app. tauto.
  - rewrite fmap_app. apply NoDup_app. split_and!; [done| |done]. intros c Hc Hc2. apply (B3 c Hc2). apply A1. by right.
  - intros c. rewrite fmap_app, elem_of_app. intros [Hc|Hc]; [by apply A3|]. intros Hv. apply (B3 c Hc). apply A1. by left.
  - by apply Forall_app.
  - apply Forall_app. split; [|done]. eapply entries_in_mono; [|exact A5]. intros c Hc. apply B1. by left.
  - apply Forall_app. split.
    + eapply Forall_impl; [exact A6|]. intros f [Hf|Hf]; [left; apply elem_of_app; by left|right].
      eapply child_of_mono; [|exact Hf]. intros g Hg. apply elem_of_app. by left.
    + eapply Forall_impl; [exact B6|]. intros f [Hf|Hf]; [left; apply elem_of_app; by right|right].
      eapply child_of_mono; [|exact Hf]. intros g Hg. apply elem_of_app. by right.
  - apply Forall_app. split; [|done]. eapply Forall_impl; [exact A7|]. intros p Hp. apply B1. by left.
Qed.

Lemma walked_nothing fs root tops v : Forall (fun p => components p ∈ v) tops -> walked fs root tops v v [].
Proof.
  intros H. constructor; try done; [|constructor|].
  - intros c. rewrite elem_of_nil. tauto.
  - intros c Hc. by apply elem_of_nil in Hc.
Qed.

Lemma each_entry_walked fs root p visit names : forall fl v fl' v',
  (forall n fl v fl' v', visit n fl v = Some (Ok (fl', v')) -> exists l, fl' = fl ++ l /\ walked fs root [join p n] v v' l) ->
  each_entry visit names fl v = Some (Ok (fl', v')) -> exists l, fl' = fl ++ l /\ walked fs root (join p <$> names) v v' l.
Proof.
  induction names as [|n names IH]; intros fl v fl' v' Hv; cbn [each_entry].
  - intros [= <- <-]. exists []. split; [by rewrite app_nil_r|]. by apply walked_nothing.
  - destruct (visit n fl v) as [[[fl1 v1]|]|] eqn:E; try done. intros H. apply Hv in E as (l1 & -> & W1).
    apply IH in H as (l2 & -> & W2); [|done]. exists (l1 ++ l2). split; [by rewrite app_assoc|]. exact (walked_app _ _ [_] _ _ _ _ _ _ W1 W2).
Qed.

(** The directory itself, then what is below it. *)
Lemma walked_dir fs root f names v v' l : components f.(path) ∉ v -> try_open fs root f.(path) = Ok f ->
  read_dir fs f.(path) = Some names -> walked fs root (join f.(path) <$> names) (key f :: v) v' l -> walked fs root [f.(path)] v v' (f :: l).
Proof.
  intros Hv Ho Hr [A1 A2 A3 A4 A5 A6 A7]. constructor.
  - intros c. rewrite A1, fmap_cons, !elem_of_cons. tauto.
  - rewrite fmap_cons. constructor; [|done]. intros Hk. apply (A3 _ Hk). by left.
  - intros c. rewrite fmap_cons, elem_of_cons. intros [->|Hc]; [done|]. intros Hcv. apply (A3 _ Hc). by right.
  - by constructor.
  - constructor; [|done]. intros _. exists names. split; [done|]. by rewrite Forall_fmap in A7.
  - constructor; [left; by left|]. eapply Forall_impl; [exact A6|]. intros g [Hg|Hg]; right.
    + apply list_elem_of_fmap in Hg as (n & Hn & Hin). exists f, names, n. split_and!; try done. by left.
    + eapply child_of_mono; [|exact Hg]. intros h Hh. by right.
  - constructor; [|done]. apply A1. left. by left.
Qed.

Lemma constr_walked fuel : forall fs root p fl v fl' v', constr_file_lst fuel fs root p fl v = Some (Ok (fl', v')) ->
  exists l, fl' = fl ++ l /\ walked fs root [p] v v' l /\ (components p ∉ v -> path <$> head l = Some p).
Proof.
  induction fuel as [|fuel IH]; intros fs root p fl v fl' v'; cbn [constr_file_lst].
  - case_bool_decide as Hv; [|done]. intros [= <- <-]. exists []. split_and!; [by rewrite app_nil_r| |done]. by apply walked_nothing; repeat constructor.
  - case_bool_decide as Hv; [intros [= <- <-]; exists []; split_and!; [by rewrite app_nil_r|by apply walked_nothing; repeat constructor|done]|].
    destruct (try_open fs root p) as [f|] eqn:Eo; [|done]. pose proof (try_open_path _ _ _ _ Eo) as Hp.
    assert (Hd : forall mt, metadata fs p = Ok mt -> f.(Desc.is_dir) = m_is_dir mt).
    { intros mt Hm. unfold try_open in Eo. destruct (validated_descriptor_name _ _); [|done]. rewrite Hm in Eo. by injection Eo as <-. }
    destruct (metadata fs p) as [mt|] eqn:Em; [|done]. specialize (Hd mt eq_refl). destruct (m_is_dir mt) eqn:Edir.
    + destruct (read_dir fs p) as [names|] eqn:Er; [|done]. intros H. apply (each_entry_walked fs root p) in H as (l & -> & W).
      * exists (f :: l). split; [by rewrite <- app_assoc|]. split; [|cbn; by rewrite Hp]. rewrite <- Hp in *. by eapply walked_dir.
      * intros n fl1 v1 fl2 v2 H1. apply IH in H1 as (l & -> & W & _). eauto.
    + intros [= <- <-]. exists [f]. split_and!; [done| |cbn; by rewrite Hp]. subst p. constructor; cbn.
      * intros c. rewrite elem_of_cons, list_elem_of_singleton. unfold key. tauto.
      * apply NoDup_singleton.
      * intros c ->%list_elem_of_singleton. done.
      * by repeat constructor.
      * constructor; [|constructor]. intros H. congruence.
      * constructor; [left; by left|constructor].
      * constructor; [by left|constructor].
Qed.

(** What one selected path contributes to the list. *)
Record selection (fs : Fs) (top : string) (l : list LocalFile) : Prop := mkSelection {
  sl_first : path <$> head l = Some top;
  sl_root : exists root, parent (components top) = Some root /\ Forall (fun f => try_open fs root f.(path) = Ok f) l;
  sl_once : NoDup (key <$> l);
  sl_entries : forall f, f ∈ l -> f.(Desc.is_dir) = true -> exists names, read_dir fs f.(path) = Some names /\
    forall n, n ∈ names -> exists g, g ∈ l /\ key g = components (join f.(path) n);
  sl_below : forall f, f ∈ l -> f.(path) = top \/ child_of fs l f
}.

Lemma construct_each_walked fs paths : forall fl fl', construct_each fs paths fl = Some (Ok fl') ->
  exists ls, fl' = fl ++ concat ls /\ Forall2 (selection fs) paths ls.
Proof.
  induction paths as [|p paths IH]; intros fl fl'; cbn [construct_each].
  - intros [= <-]. exists []. split; [by rewrite app_nil_r|constructor].
  - destruct (parent (components p)) as [root|] eqn:Ep; [|done].
    destruct (constr_file_lst _ _ _ _ _ _) as [[[fl1 v1]|]|] eqn:E; try done. intros H.
    apply constr_walked in E as (l & -> & [W1 W2 W3 W4 W5 W6 W7] & Hh). apply IH in H as (ls & -> & F).
    exists (l :: ls). split; [by rewrite <- app_assoc|]. constructor; [|done].
    constructor; [apply Hh; apply not_elem_of_nil|by exists root|done| |].
    + intros f Hf Hd. rewrite Forall_forall in W5. destruct (W5 f Hf Hd) as (names & Hr & Hn). exists names. split; [done|].
      intros n Hin. rewrite Forall_forall in Hn. specialize (Hn n Hin). apply W1 in Hn as [Hn|Hn]; [by apply elem_of_nil in Hn|].
      apply list_elem_of_fmap in Hn as (g & Hg & Hgl). eauto.
    + intros f Hf. rewrite Forall_forall in W6. destruct (W6 f Hf) as [Ht|Ht]; [left; by apply list_elem_of_singleton in Ht|by right].
Qed.

(** An opened file is described as it is. *)
Lemma try_open_ok fs root p f : try_open fs root p = Ok f ->
  file_ok fs f /\ validate_file_name f.(descriptor_name) = Ok tt /\ utf16_count f.(descriptor_name) <= MAX_FILE_NAME_CODE_UNITS.
Proof.
  unfold try_open. destruct (validated_descriptor_name root p) as [s|] eqn:Ev; [|done].
  assert (Hv : validate_file_name s = Ok tt /\ utf16_count s <= MAX_FILE_NAME_CODE_UNITS).
  { unfold validated_descriptor_name in Ev. destruct (strip_prefix _ _); [|done]. destruct (is_absolute _); [done|].
    destruct (validate_file_name _) as [[]|] eqn:E; [|done]. destruct (_ <? _) eqn:El; [done|]. injection Ev as <-. by apply Z.ltb_ge in El. }
  unfold metadata, file_ok, stat, stat_comps, lookup_node. destruct (resolve fs true p) as [rp|] eqn:Er; [|done].
  unfold resolve in Er. cbn [orb] in Er. destruct (node_at fs rp) as [[|t|i]|] eqn:En; try done; intros [= <-]; cbn [path descriptor_name];
    rewrite Er; cbn [rbind]; rewrite En; destruct Hv; by split_and!.
Qed.

Lemma construct_list_ok fs paths l : construct_file_list fs paths = Some (Ok l) ->
  exists ls, l = concat ls /\ Forall2 (selection fs) paths ls /\ list_ok fs l /\
    Forall (fun f => validate_file_name f.(descriptor_name) = Ok tt /\ utf16_count f.(descriptor_name) <= MAX_FILE_NAME_CODE_UNITS) l.
Proof.
  unfold construct_file_list. destruct paths as [|p paths]; [done|]. intros H. apply construct_each_walked in H as (ls & -> & F).
  exists ls. split_and!; [done|done| |].
  all: rewrite app_nil_l; induction F as [|q l qs ls [_ (root & _ & Ho) _ _ _] F IH]; [constructor|]; apply Forall_app; split; [|exact IH];
    eapply Forall_impl; [exact Ho|]; intros f Hf; by apply try_open_ok in Hf as (? & ? & ?).
Qed.

End Walk.
End ClipWalk.
