(* ===== verification/ClipLists.v ===== *)
(** File clipboard: the lists one process keeps while files are copied and pasted.  Any run of
    copies, requests for the list and reads, by any connections in any order, keeps a list that a
    peer was sent readable under its id, with the bytes of the files it names, through four more
    copies. *)

From Stdlib Require Import Ascii.
From S2P Require Import Prelude TermBuffer PathFs FsJob FsWalk ClipDesc ClipServe ClipHost ClipWalk.
Import Utf8 Path Fs Desc Serve Readers LocalFiles ClipWalk.

Module ClipLists.

(** ** Encoding of a request's numbers *)

(** [(offset >> 32) as i32], [(offset & u32::MAX) as i32] and the transmuted size of a request. *)
Definition position_high (off : Z) : Z := swrap 32 (Z.shiftr off 32).
Definition position_low (off : Z) : Z := swrap 32 (Z.land off u32_max).
Definition requested (len : Z) : Z := swrap 32 len.

Lemma swrap_mod x : wrap 32 (swrap 32 x) = wrap 32 x.
Proof. unfold wrap, swrap. change (32 - 1) with 31. pow2. divlia. Qed.

Lemma decode_offset off : 0 <= off < 2 ^ 63 ->
  Z.lor (wrap 64 (Z.shiftl (wrap 64 (position_high off)) 32)) (wrap 32 (position_low off)) = off.
Proof.
  intros Ho. unfold position_high, position_low. rewrite swrap_mod. change u32_max with (Z.ones 32).
  rewrite Z.land_ones, Z.shiftr_div_pow2, Z.shiftl_mul_pow2 by lia.
  assert (H1 : swrap 32 (off / 2 ^ 32) = off / 2 ^ 32) by (unfold swrap; change (32 - 1) with 31; pow2; divlia).
  rewrite H1. assert (H2 : wrap 64 (off / 2 ^ 32) = off / 2 ^ 32) by (unfold wrap; pow2; divlia).
  rewrite H2. rewrite (wrap_small 64) by (unfold in_u; pow2; divlia). rewrite (wrap_small 32) by (unfold in_u; pow2; divlia).
  rewrite Z.lor_comm, <- Z.shiftl_mul_pow2, lor_shiftl_add by (pow2; divlia). pow2. divlia.
Qed.

Lemma decode_range_nonneg s l d lo hi cb req : decode_request s l d lo hi cb = Some req ->
  match req with Range _ _ o n => 0 <= o /\ 0 <= n | Size _ _ => True end.
Proof.
  unfold decode_request. destruct (d =? 1); [by intros [= <-]|]. destruct (d =? 2); [|done]. intros [= <-].
  split; [apply Z.lor_nonneg; split|]; unfold wrap; apply Z.mod_pos_bound; done.
Qed.

(** ** Runs *)

Section Lists.
Context {U : Utf16} {OS : Os}.
Implicit Types (st : Lists) (c : ClipFiles).

Inductive Ev :=
| ESync (files : list string) (nonce : list Z)
| EPdu (conn_id : Z)
| ERead (conn_id stream_id list_index dw_flags n_position_low n_position_high cb_requested : Z) (clip_data_id : option Z).

(** The list that a copy builds, if it builds one. *)
Definition built (fs : Fs) st (files : list string) (nonce : list Z) : option ClipFiles :=
  let current := fingerprint fs files in
  if bool_decide ((CLIP_FILES st).(Serve.files) = files) && bool_decide ((CLIP_FILES st).(sigs) = current) && negb (existsb sig_is_dir current)
  then None else
  match clip_sync_files fs clip_default files current with
  | Some (Ok next) => match build_list_pdu next nonce with Ok next => Some next | Err _ => None end
  | _ => None
  end.

Definition step (fs : Fs) st (ev : Ev) : Lists * list Z :=
  match ev with
  | ESync files nonce =>
    (match sync_files fs st files nonce with Some (st', _) => st' | None => st end,
     match built fs st files nonce with Some next => [next.(id)] | None => [] end)
  | EPdu conn_id => ((get_file_list_pdu st conn_id).1, [])
  | ERead conn s l d lo hi cb i => ((read_file_contents fs st conn s l d lo hi cb i).1, [])
  end.

(** The state after a run, and the ids of the lists it built. *)
Fixpoint steps (fs : Fs) st (evs : list Ev) : Lists * list Z :=
  match evs with
  | [] => (st, [])
  | ev :: evs =>
    let '(st, new) := step fs st ev in
    let '(st, more) := steps fs st evs in (st, new ++ more)
  end.

Record lists_ok (fs : Fs) st : Prop := mkListsOk {
  lo_current : list_ok fs (CLIP_FILES st).(file_list);
  lo_retired : Forall (fun c => list_ok fs c.(file_list)) (RETIRED_CLIP_FILES st);
  lo_bound : (length (RETIRED_CLIP_FILES st) <= MAX_RETIRED_CLIP_FILES)%nat
}.

Lemma sync_files_built fs st fl nonce : 
  match sync_files fs st fl nonce with Some (st', _) => st' | None => st end =
  match built fs st fl nonce with
  | Some next => mkLists next (retire_if_served (CLIP_FILES st) (RETIRED_CLIP_FILES st))
  | None => st
  end.
Proof.
  unfold sync_files, built. destruct (_ && _ && _); [done|]. destruct (clip_sync_files _ _ _ _) as [[next|]|]; try done.
  by destruct (build_list_pdu next nonce).
Qed.

Lemma built_list fs st fl nonce next : built fs st fl nonce = Some next ->
  construct_file_list fs fl = Some (Ok next.(file_list)) /\ list_ok fs next.(file_list) /\ next.(served_to) = [] /\
  build_file_list_pdu next.(file_list) nonce = Ok next.(files_pdu) /\ next.(id) = file_list_id next.(files_pdu).
Proof.
  unfold built, clip_sync_files, build_list_pdu. destruct (_ && _ && _); [done|].
  destruct (construct_file_list fs fl) as [[l|]|] eqn:E; try done. cbn [file_list].
  destruct (build_file_list_pdu l nonce) as [pdu|] eqn:Eb; [|done]. intros [= <-]. cbn.
  destruct (construct_list_ok _ _ _ E) as (ls & _ & _ & Hl & _). done.
Qed.

Lemma retire_bound st c : (length (RETIRED_CLIP_FILES st) <= MAX_RETIRED_CLIP_FILES)%nat ->
  (length (retire_if_served c (RETIRED_CLIP_FILES st)) <= MAX_RETIRED_CLIP_FILES)%nat.
Proof.
  unfold retire_if_served, MAX_RETIRED_CLIP_FILES. intros H. destruct (is_nil _); [done|]. rewrite length_app. cbn [length].
  destruct (Nat.eqb _ 4) eqn:E; [apply Nat.eqb_eq in E; destruct (RETIRED_CLIP_FILES st); cbn in *; lia|apply Nat.eqb_neq in E; lia].
Qed.

Lemma read_from_ok fs c r req c' res : list_ok fs c.(file_list) ->
  match req with Range _ _ o n => 0 <= o /\ 0 <= n | Size _ _ => True end -> read_from fs c r req = (c', res) ->
  list_ok fs c'.(file_list) /\ same_list c c'.
Proof.
  intros Hl Hreq. unfold read_from. destruct (if r then _ else _) as [c1 chk] eqn:E.
  assert (H1 : list_ok fs c1.(file_list) /\ same_list c c1).
  { destruct r; [by eapply check_retired_ok|]. injection E as <- <-. by split; [|apply same_refl]. }
  destruct H1 as [H1 S1]. destruct chk; [|by intros [= <- <-]]. destruct (serve_file_contents fs c1 req) as [c2 rs] eqn:E2.
  intros [= <- <-]. destruct (serve_ok fs c1 req c2 rs H1 Hreq E2) as [H2 S2]. split; [done|]. by eapply same_trans.
Qed.

(** A read changes one list to a later stage of itself. *)
Lemma read_effect fs st conn s l d lo hi cb i : lists_ok fs st ->
  let st' := (read_file_contents fs st conn s l d lo hi cb i).1 in
  lists_ok fs st' /\ same_list (CLIP_FILES st) (CLIP_FILES st') /\
  Forall2 same_list (RETIRED_CLIP_FILES st) (RETIRED_CLIP_FILES st').
Proof.
  intros Hok. assert (Hid : forall l, Forall2 same_list l l) by (induction l0; constructor; [apply same_refl|done]).
  unfold read_file_contents. destruct (decode_request _ _ _ _ _ _) as [req|] eqn:Ed; [|split_and!; [done|apply same_refl|apply Hid]].
  destruct (select_clip_files _ _ _ _) as [sel|]; [|split_and!; [done|apply same_refl|apply Hid]].
  destruct (selected st sel) as [c|] eqn:Es; [|split_and!; [done|apply same_refl|apply Hid]].
  destruct (read_from fs c _ req) as [c' res] eqn:Er. cbv zeta. cbn [fst]. destruct Hok as [H1 H2 H3].
  assert (Hc : list_ok fs c.(file_list)).
  { destruct sel; cbn in Es; [by injection Es as <-|]. by eapply (Forall_lookup_1 _ _ _ _ H2). }
  destruct (read_from_ok _ _ _ _ _ _ Hc (decode_range_nonneg _ _ _ _ _ _ _ Ed) Er) as [R1 R2]. destruct sel as [|j]; cbn [selected put_selected CLIP_FILES RETIRED_CLIP_FILES] in *.
  - injection Es as <-. split_and!; [by constructor|done|apply Hid].
  - split_and!; [|apply same_refl|].
    + constructor; cbn [CLIP_FILES RETIRED_CLIP_FILES]; [done| |by rewrite length_insert]. by apply Forall_insert.
    + apply Forall2_same_length_lookup_2; [by rewrite length_insert|]. intros k x y Hx Hy.
      destruct (decide (j = k)) as [->|Hne]; [|rewrite list_lookup_insert_ne in Hy by done; simplify_eq; apply same_refl].
      rewrite list_lookup_insert_eq in Hy by (by eapply lookup_lt_Some). by simplify_eq.
Qed.

Lemma table_step_ok fs st ev : lists_ok fs st -> lists_ok fs (step fs st ev).1.
Proof.
  intros Hok. destruct ev as [fl nonce|conn|]; cbn [step fst].
  - rewrite sync_files_built. destruct (built fs st fl nonce) as [next|] eqn:E; [|done]. destruct (built_list _ _ _ _ _ E) as (_ & Hl & _).
    destruct Hok as [H1 H2 H3]. constructor; cbn; [done| |by apply retire_bound].
    unfold retire_if_served. destruct (is_nil _); [done|]. apply Forall_app. split.
    + destruct (Nat.eqb _ _); [|done]. destruct (RETIRED_CLIP_FILES st); [done|]. by apply Forall_cons in H2 as [_ H2].
    + constructor; [|constructor]. by apply release_ok.
  - destruct Hok as [H1 H2 H3]. by constructor.
  - by apply read_effect.
Qed.

(** ** A list that was sent *)

(** The list [c] is still the one its id names: it is the current one ([k = 0]), or a retired
    one that [k] copies have not pushed out. *)
Definition kept c (k : nat) st : Prop :=
  (k = O /\ same_list c (CLIP_FILES st)) \/
  (0 < k /\ (CLIP_FILES st).(id) <> c.(id) /\ exists j c', RETIRED_CLIP_FILES st !! j = Some c' /\ same_list c c' /\
     length (RETIRED_CLIP_FILES st) <= j + k /\
     forall j' d, j < j' -> RETIRED_CLIP_FILES st !! j' = Some d -> d.(id) <> c.(id))%nat.

Lemma same_release fs c : list_ok fs c.(file_list) -> same_list c (release_handles c).
Proof. intros H. destruct (release_ok fs c H). by constructor. Qed.

Lemma kept_read fs c k st conn s l d lo hi cb i : lists_ok fs st -> kept c k st ->
  kept c k (read_file_contents fs st conn s l d lo hi cb i).1.
Proof.
  intros Hok Hk. destruct (read_effect fs st conn s l d lo hi cb i Hok) as (_ & Hc & Hr). set (st' := (read_file_contents _ _ _ _ _ _ _ _ _ _).1) in *.
  clearbody st'. destruct Hk as [[-> Hs]|(Hk & Hne & j & c' & Hj & Hs & Hl & Hlater)].
  - left. split; [done|]. by eapply same_trans.
  - right. split; [done|]. split; [rewrite (sm_id _ _ Hc); done|]. destruct (Forall2_lookup_l _ _ _ _ _ Hr Hj) as (c2 & Hj2 & Hs2).
    exists j, c2. split; [done|]. split; [by eapply same_trans|]. split; [by rewrite <- (Forall2_length _ _ _ Hr)|].
    intros j' e Hlt He. destruct (Forall2_lookup_r _ _ _ _ _ Hr He) as (e0 & He0 & Hse). rewrite (sm_id _ _ Hse). by eapply Hlater.
Qed.

Lemma retired_cases c (l : list ClipFiles) : retire_if_served c l = l \/
  exists l', retire_if_served c l = l' ++ [release_handles c] /\ (l' = l \/ (length l = MAX_RETIRED_CLIP_FILES /\ l' = tail l)).
Proof.
  unfold retire_if_served. destruct (is_nil _); [by left|right]. destruct (Nat.eqb _ _) eqn:E; [apply Nat.eqb_eq in E|]; eauto.
Qed.

Lemma kept_built fs c k st next : lists_ok fs st -> kept c k st -> c.(served_to) <> [] -> next.(id) <> c.(id) -> (k < 4)%nat ->
  kept c (S k) (mkLists next (retire_if_served (CLIP_FILES st) (RETIRED_CLIP_FILES st))).
Proof.
  intros [Ho1 Ho2 Ho3] Hk Hsv Hid Hlt. right. cbn [CLIP_FILES RETIRED_CLIP_FILES]. split; [lia|]. split; [done|].
  destruct Hk as [[-> Hs]|(Hk & Hne & j & c' & Hj & Hs & Hl & Hlater)].
  - assert (Hn : is_nil (CLIP_FILES st).(served_to) = false).
    { destruct (served_to (CLIP_FILES st)) eqn:E; [|done]. exfalso. pose proof (sm_served _ _ Hs) as Hsub. rewrite E in Hsub.
      destruct (served_to c) as [|x l]; [done|]. specialize (Hsub x ltac:(by left)). by apply elem_of_nil in Hsub. }
    unfold retire_if_served. rewrite Hn. generalize (if Nat.eqb (length (RETIRED_CLIP_FILES st)) MAX_RETIRED_CLIP_FILES then tail (RETIRED_CLIP_FILES st) else RETIRED_CLIP_FILES st).
    intros l. exists (length l), (release_handles (CLIP_FILES st)).
    split; [by rewrite lookup_app_r, Nat.sub_diag|]. split; [eapply same_trans; [exact Hs|by eapply same_release]|].
    split; [rewrite length_app; cbn; lia|]. intros j' d Hlt' Hd. apply lookup_lt_Some in Hd. rewrite length_app in Hd. cbn in Hd. lia.
  - assert (Hlast : (release_handles (CLIP_FILES st)).(id) <> c.(id)) by done.
    destruct (retired_cases (CLIP_FILES st) (RETIRED_CLIP_FILES st)) as [->|(l' & -> & [-> | [H4 ->]])].
    + exists j, c'. split_and!; try done. lia.
    + exists j, c'. split; [by apply lookup_app_l_Some|]. split; [done|]. split; [rewrite length_app; cbn; lia|].
      intros j' d Hlt' [Hd|[_ Hd]]%lookup_app_Some; [by eapply Hlater|]. by apply list_lookup_singleton_Some in Hd as [_ <-].
    + unfold MAX_RETIRED_CLIP_FILES in H4. destruct (RETIRED_CLIP_FILES st) as [|e l] eqn:E; [done|]. cbn [tail length] in *.
      destruct j as [|j]; [lia|]. cbn in Hj. exists j, c'. split; [by apply lookup_app_l_Some|]. split; [done|].
      split; [rewrite length_app; cbn; lia|].
      intros j' d Hlt' [Hd|[_ Hd]]%lookup_app_Some; [by apply (Hlater (S j')); [lia|]|]. by apply list_lookup_singleton_Some in Hd as [_ <-].
Qed.

Lemma kept_step fs c k st ev st' new : lists_ok fs st -> kept c k st -> c.(served_to) <> [] -> step fs st ev = (st', new) ->
  c.(id) ∉ new -> (k + length new <= 4)%nat -> kept c (k + length new) st'.
Proof.
  intros Hok Hk Hsv. destruct ev as [fl nonce|conn|]; cbn [step].
  - rewrite sync_files_built. destruct (built fs st fl nonce) as [next|] eqn:E; intros [= <- <-]; cbn [length].
    + intros Hi Hb. replace (k + 1)%nat with (S k) by lia. eapply kept_built; [done..| |lia]. intros He. apply Hi. rewrite He. by left.
    + intros _ _. by rewrite Nat.add_0_r.
  - intros [= <- <-] _ _. rewrite Nat.add_0_r. destruct Hk as [[-> Hs]|Hk]; [left|right; exact Hk]. split; [done|].
    eapply same_trans; [exact Hs|]. constructor; try done. cbn. destruct (_ && _); [set_solver|done].
  - intros [= <- <-] _ _. rewrite Nat.add_0_r. by apply kept_read.
Qed.

Lemma kept_steps fs c evs : forall k st st' new, lists_ok fs st -> kept c k st -> c.(served_to) <> [] -> steps fs st evs = (st', new) ->
  c.(id) ∉ new -> (k + length new <= 4)%nat -> lists_ok fs st' /\ kept c (k + length new) st'.
Proof.
  induction evs as [|ev evs IH]; intros k st st' new Hok Hk Hsv; cbn [steps].
  - intros [= <- <-] _ _. by rewrite Nat.add_0_r.
  - destruct (step fs st ev) as [st1 n1] eqn:E1. destruct (steps fs st1 evs) as [st2 n2] eqn:E2. intros [= <- <-].
    rewrite elem_of_app, length_app. intros Hi Hb. rewrite Nat.add_assoc.
    pose proof (table_step_ok fs st ev Hok) as Hok1. rewrite E1 in Hok1.
    eapply IH; [exact Hok1| |done|exact E2|tauto|lia]. eapply kept_step; [exact Hok|done..|exact E1|tauto|lia].
Qed.

Lemma rfind_last {A} (p : A -> bool) (l : list A) j x : l !! j = Some x -> p x = true ->
  (forall j' y, (j < j')%nat -> l !! j' = Some y -> p y = false) -> rfind p l = Some j.
Proof.
  revert j. induction l as [|a l IH]; intros j Hj Hp Hl; [done|]. cbn [rfind]. destruct j as [|j].
  - cbn in Hj. injection Hj as ->. assert (Hn : rfind p l = None).
    { assert (H : forall i y, l !! i = Some y -> p y = false) by (intros i y Hy; apply (Hl (S i) y); [lia|done]). clear -H.
      induction l as [|b l IH]; [done|]. cbn. rewrite IH by (intros i y Hy; by apply (H (S i))). by rewrite (H O b). }
    by rewrite Hn, Hp.
  - rewrite (IH j Hj Hp); [done|]. intros j' y Hlt Hy. apply (Hl (S j') y); [lia|done].
Qed.

(** Its id selects it. *)
Lemma kept_selected c k st conn : kept c k st -> conn ∈ c.(served_to) -> exists s c',
  select_clip_files (CLIP_FILES st) (RETIRED_CLIP_FILES st) conn (Some c.(id)) = Some s /\ selected st s = Some c' /\ same_list c c'.
Proof.
  intros Hk Hc. unfold select_clip_files. destruct Hk as [[-> Hs]|(Hk & Hne & j & c' & Hj & Hs & Hl & Hlater)].
  - exists Current, (CLIP_FILES st). rewrite (sm_id _ _ Hs), Z.eqb_refl. done.
  - exists (Retired j), c'. rewrite (proj2 (Z.eqb_neq _ _) Hne). split_and!; [|done|done].
    rewrite (rfind_last _ _ j c' Hj); [done| |].
    + rewrite (sm_id _ _ Hs), Z.eqb_refl. unfold contains. apply bool_decide_eq_true_2. by apply (sm_served _ _ Hs).
    + intros j' d Hlt Hd. by rewrite (proj2 (Z.eqb_neq _ _) (Hlater j' d Hlt Hd)).
Qed.

(** ** The answer to a read *)

Definition served_length (f : LocalFile) (off len : Z) : Z := Z.min len (f.(size) - off).

(** A file of a list that can be read through any stage of the list. *)
Record servable (fs : Fs) (f : LocalFile) : Prop := mkServable {
  sv_file : f.(Desc.is_dir) = false;
  sv_readable : readable fs f;
  sv_modified : forall i, stat fs f.(path) = Ok (NFile i) -> is_Some (file_modified fs i)
}.

Lemma servable_forget fs f g : forget f = forget g -> servable fs f -> servable fs g.
Proof. intros (Hp & _ & Hd & _)%forget_fields [H1 H2 H3]. unfold readable in *. rewrite Hp in H2, H3. constructor; [congruence|done..]. Qed.

Lemma forget_lookup (l l' : list LocalFile) i f : forget <$> l' = forget <$> l -> l !! i = Some f ->
  exists f', l' !! i = Some f' /\ forget f' = forget f.
Proof.
  intros H Hi. apply (f_equal (fun x => x !! i)) in H. rewrite !list_lookup_fmap, Hi in H. destruct (l' !! i) as [f'|]; [|done].
  apply (inj Some) in H. eauto.
Qed.

Lemma check_passes fs c i f o n s : list_ok fs c.(file_list) -> zget c.(file_list) i = Some f -> servable fs f ->
  (check_retired_file fs c (Range s i o n)).2 = Ok tt.
Proof.
  intros Hl Hz [Hd Hr Hm]. unfold check_retired_file. rewrite Hz, Hd. apply zget_lookup in Hz as [_ Hi].
  assert (Hf : file_ok fs f) by (eapply Forall_lookup_1; eauto). destruct (load_handle fs f) as [f' b] eqn:El.
  destruct (load_handle_ok _ _ _ _ Hf El) as (H1 & H2 & _ & H3 & H4). rewrite (H3 Hd Hr) in *. cbn [negb].
  destruct (H4 eq_refl Hd) as [r Er]. rewrite Er. destruct (forget_fields _ _ H2) as (Fp & Fs & Fd & Fw & _).
  unfold file_ok in H1. rewrite Fp in H1. destruct (stat fs (path f)) as [[|t|k]|] eqn:Es; try done; [destruct H1; congruence|].
  destruct H1 as (_ & S1 & W1 & Hh). unfold handle_ok in Hh. rewrite Er in Hh. destruct Hh as (-> & _). cbn [m_len m_modified file_meta].
  rewrite S1, Z.eqb_refl. destruct (Hm k eq_refl) as [t Ht]. rewrite W1, Ht. by rewrite bool_decide_eq_true_2.
Qed.

Lemma serve_range fs c i f o n s : list_ok fs c.(file_list) -> zget c.(file_list) i = Some f -> servable fs f ->
  0 <= o <= f.(size) -> 0 <= n -> served_length f o n <= MAX_RANGE_READ ->
  (serve_file_contents fs c (Range s i o n)).2 = Ok (FileContentsResponse 1 s (slice o (served_length f o n) (content fs f))).
Proof.
  intros Hl Hz [Hd Hr _] Ho Hn Hmax. unfold serve_file_contents. rewrite Hz. apply zget_lookup in Hz as [_ Hi].
  assert (Hf : file_ok fs f) by (eapply Forall_lookup_1; eauto). rewrite (proj2 (Z.ltb_ge _ _)) by lia.
  assert (Hm : (if size f - o <? n then size f - o else n) = served_length f o n)
    by (unfold served_length; destruct (_ <? _) eqn:E; bool_to_prop; lia).
  rewrite Hm, (proj2 (Z.ltb_ge _ _)) by lia. set (m := served_length f o n) in *.
  destruct (read_exact_at fs f m o) as [f' res] eqn:Er.
  destruct (read_exact_at_ok fs f f' m o res Hf Hd) as (_ & _ & H); [unfold m, served_length; lia|lia|unfold m, served_length; lia|done|].
  by rewrite (H Hr).
Qed.

Lemma audit_only fs c req a : get_files_for_audit fs c req = Some a -> exists l, a = Files l.
Proof.
  unfold get_files_for_audit. destruct req; [done|]. destruct (_ && _); [|done]. destruct (omap _ _); [done|]. intros [= <-]. eauto.
Qed.

(** Wherever the list stands, the answer is the bytes; a report for the audit may come first. *)
Lemma read_answer fs st sel c conn s idx i f o n : lists_ok fs st ->
  select_clip_files (CLIP_FILES st) (RETIRED_CLIP_FILES st) conn i = Some sel -> selected st sel = Some c ->
  zget c.(file_list) idx = Some f -> servable fs f -> in_u 31 idx -> 0 <= o < 2 ^ 63 -> o <= f.(size) -> in_u 32 n ->
  served_length f o n <= MAX_RANGE_READ ->
  exists audit, (read_file_contents fs st conn s idx 2 (position_low o) (position_high o) (requested n) i).2 =
    audit ++ [Ok (FileContentsResponse 1 s (slice o (served_length f o n) (content fs f)))] /\
    (audit = [] \/ exists l, audit = [Ok (Files l)]).
Proof.
  intros Hok Hsel Hc Hz Hf Hidx Ho Hsz Hn Hmax. unfold read_file_contents, decode_request.
  rewrite decode_offset by done. unfold requested. rewrite swrap_mod, (wrap_small 32 n), (wrap_small 64 idx) by (done || (unfold in_u in *; pow2; lia)).
  change (2 =? 1) with false. change (2 =? 2) with true. cbv iota. rewrite Hsel, Hc.
  assert (Hlc : list_ok fs c.(file_list)).
  { destruct Hok as [H1 H2 H3]. destruct sel; cbn in Hc; [by injection Hc as <-|]. by eapply (Forall_lookup_1 _ _ _ _ H2). }
  unfold read_from. set (r := match sel with Current => false | Retired _ => true end). set (req := Range s idx o n).
  clearbody r. destruct (if r then check_retired_file fs c req else (c, Ok tt)) as [c1 chk] eqn:E.
  assert (H1 : list_ok fs c1.(file_list) /\ same_list c c1 /\ chk = Ok tt).
  { destruct r; [|injection E as <- <-; split_and!; [done|apply same_refl|done]]. destruct (check_retired_ok _ _ _ _ _ Hlc E) as [A B].
    split_and!; [done|done|]. pose proof (check_passes fs c idx f o n s Hlc Hz Hf) as P. fold req in P. by rewrite E in P. }
  destruct H1 as (L1 & S1 & ->). destruct (zget_lookup _ _ _ Hz) as [Hp Hi].
  destruct (forget_lookup _ _ _ _ (sm_files _ _ S1) Hi) as (f1 & Hi1 & Ff). destruct (forget_fields _ _ Ff) as (Fp & Fs & _).
  assert (Hz1 : zget c1.(file_list) idx = Some f1) by (unfold zget; rewrite (proj2 (Z.leb_le _ _) Hp); done).
  pose proof (serve_range fs c1 idx f1 o n s L1 Hz1 (servable_forget _ _ _ (eq_sym Ff) Hf)) as HS.
  unfold served_length, content in *. rewrite Fp, Fs in HS. specialize (HS ltac:(lia) ltac:(apply Hn) Hmax).
  destruct (serve_file_contents fs c1 req) as [c2 res] eqn:E2. fold req in HS. rewrite E2 in HS. cbn [snd] in HS. subst res.
  destruct (get_files_for_audit fs c1 req) as [a|] eqn:Ea; [|exists []; split; [done|by left]].
  apply audit_only in Ea as [l ->]. exists [Ok (Files l)]. split; [done|right; eauto].
Qed.

End Lists.
End ClipLists.
