(* ===== verification/ClipFuse.v ===== *)
(** File clipboard: the side that pastes ([libs/clipboard/src/platform/unix/fuse/cs.rs] and
    [.../fuse/mod.rs] on Linux, the channels of [libs/clipboard/src/lib.rs]).

    The peer's list becomes a read-only tree that the kernel asks for through FUSE; a read sends
    a request to the connection the list came from and waits for the answer.  The lock on the
    server makes each call of the kernel atomic.  A reader's list of the handles it gave out is
    searched by bisection in the code and by membership here: [FuseFacts.handlers_sorted] is what
    makes the two the same. *)

From Stdlib Require Import Ascii.
From S2P Require Import Prelude TermBuffer PathFs FsJob ClipDesc ClipServe.
Import Utf8 Path Fs Desc.

Module Fuse.

Definition READ_RETRY : Z := 3.
Definition FUSE_ROOT_ID : Z := 1.

(** ** Channels to the connections *)

Record MsgChannel := mkChannel { peer_id : string; ch_conn : Z; ch_queue : list ClipboardFile }.

Definition get_client_conn_id (chs : list MsgChannel) (peer : string) : option Z :=
  ch_conn <$> List.find (fun x => bool_decide (x.(peer_id) = peer)) chs.

(** The connection's number, the counter and the channels afterwards. *)
Definition get_rx_cliprdr_client (chs : list MsgChannel) (counter : Z) (peer : string) : Z * Z * list MsgChannel :=
  match List.find (fun x => bool_decide (x.(peer_id) = peer)) chs with
  | Some c => (c.(ch_conn), counter, chs)
  | None => let counter := counter + 1 in (counter, counter, chs ++ [mkChannel peer counter []])
  end.

Definition get_rx_cliprdr_server (chs : list MsgChannel) (conn_id : Z) : list MsgChannel :=
  match List.find (fun x => x.(ch_conn) =? conn_id) chs with
  | Some _ => chs
  | None => chs ++ [mkChannel "" conn_id []]
  end.

Fixpoint remove_channel_by_conn_id (chs : list MsgChannel) (conn_id : Z) : list MsgChannel :=
  match chs with
  | [] => []
  | c :: chs => if c.(ch_conn) =? conn_id then chs else c :: remove_channel_by_conn_id chs conn_id
  end.

Definition push (c : MsgChannel) (data : ClipboardFile) : MsgChannel := mkChannel c.(peer_id) c.(ch_conn) (c.(ch_queue) ++ [data]).

(** The receivers live as long as the channels. *)
Fixpoint send_data_to_channel (chs : list MsgChannel) (conn_id : Z) (data : ClipboardFile) : list MsgChannel * result unit ClipErr :=
  match chs with
  | [] => ([], Err InvalidRequest)
  | c :: chs =>
    if c.(ch_conn) =? conn_id then (push c data :: chs, Ok tt)
    else let '(chs, r) := send_data_to_channel chs conn_id data in (c :: chs, r)
  end.
Definition send_data_to_all (chs : list MsgChannel) (data : ClipboardFile) : list MsgChannel := (fun c => push c data) <$> chs.
Definition send_data (chs : list MsgChannel) (conn_id : Z) (data : ClipboardFile) : list MsgChannel * result unit ClipErr :=
  if conn_id =? 0 then (send_data_to_all chs data, Ok tt) else send_data_to_channel chs conn_id data.

(** ** The tree *)

Record InodeAttributes := mkAttr {
  at_inode : Z;
  at_size : Z;
  last_accessed : Z;
  at_modified : Z;
  last_metadata_changed : Z;
  creation_time : Z;
  at_kind : FileType;
  at_perm : Z
}.

Record FuseNode := mkNode {
  n_conn : Z;
  n_list : Z;
  index : Z;
  n_parent : option Z;
  n_name : string;
  attributes : InodeAttributes;
  children : list Z;
  file_handlers : list Z;
  gc : bool
}.

(** The time now is an argument. *)
Definition attr_root (now : Z) : InodeAttributes := mkAttr FUSE_ROOT_ID 0 now now now now TDirectory PERM_RWX.
Definition attr_from_description (now inode : Z) (desc : FileDescription) : InodeAttributes :=
  mkAttr inode desc.(d_size) now desc.(last_modified) desc.(last_modified) desc.(last_modified) desc.(kind) desc.(d_perm).

Definition new_root (now : Z) : FuseNode := mkNode 0 0 0 None "/" (attr_root now) [] [] false.
Definition from_description (now inode : Z) (desc : FileDescription) : FuseNode :=
  mkNode desc.(conn_id) desc.(clip_data_id) (inode - 2) None desc.(d_name) (attr_from_description now inode desc) [] [] false.

Definition set_children (n : FuseNode) (l : list Z) : FuseNode :=
  mkNode n.(n_conn) n.(n_list) n.(index) n.(n_parent) n.(n_name) n.(attributes) l n.(file_handlers) n.(gc).
Definition set_parent (n : FuseNode) (p : option Z) : FuseNode :=
  mkNode n.(n_conn) n.(n_list) n.(index) p n.(n_name) n.(attributes) n.(children) n.(file_handlers) n.(gc).
Definition set_handlers (n : FuseNode) (l : list Z) : FuseNode :=
  mkNode n.(n_conn) n.(n_list) n.(index) n.(n_parent) n.(n_name) n.(attributes) n.(children) l n.(gc).
Definition set_name (d : FileDescription) (name : string) : FileDescription :=
  mkDesc d.(conn_id) name d.(kind) d.(last_modified) d.(d_size) d.(d_perm) d.(clip_data_id).

(** Paths are compared by their components; the latest entry comes first. *)
Abbreviation root_map := (list (list Component * Z)).
Fixpoint map_get (m : root_map) (p : list Component) : option Z :=
  match m with [] => None | (k, v) :: m => if bool_decide (k = p) then Some v else map_get m p end.

(** One file of [build_tree]. *)
Definition add_file (now : Z) (tree : list FuseNode) (sub_root_map : root_map) (file : FileDescription) : result (list FuseNode * root_map) ClipErr :=
  let inode := zlen tree + FUSE_ROOT_ID in
  let parent_inode := match parent (components file.(d_name)) with
                      | Some p => match map_get sub_root_map p with Some i => i | None => FUSE_ROOT_ID end
                      | None => FUSE_ROOT_ID
                      end in
  let tree := alter (fun n => set_children n (n.(children) ++ [inode])) (Z.to_nat (parent_inode - 1)) tree in
  match file_name file.(d_name) with
  | None => Err (FileError (to_string_lossy file.(d_name)))
  | Some base_name =>
    let sub_root_map := if decide (file.(kind) = TDirectory) then (components file.(d_name), inode) :: sub_root_map else sub_root_map in
    Ok (tree ++ [set_parent (from_description now inode (set_name file base_name)) (Some parent_inode)], sub_root_map)
  end.

Fixpoint add_files (now : Z) (tree : list FuseNode) (m : root_map) (files : list FileDescription) : result (list FuseNode * root_map) ClipErr :=
  match files with
  | [] => Ok (tree, m)
  | f :: files =>
    match add_file now tree m f with
    | Ok (tree, m) => add_files now tree m files
    | Err e => Err e
    end
  end.

Definition build_tree (now : Z) (files : list FileDescription) : result (list FuseNode) ClipErr :=
  match add_files now [new_root now] [([], FUSE_ROOT_ID); ([RootDir], FUSE_ROOT_ID)] files with
  | Ok (tree, _) => Ok tree
  | Err e => Err e
  end.

(** ** The server *)

Record FuseServer := mkServer { generation : Z; nodes : list FuseNode; file_handle_counter : Z; rx : list ClipboardFile }.
Definition server_new : FuseServer := mkServer 0 [] 0 [].

Definition load_file_list (now : Z) (self : FuseServer) (files : list FileDescription) : result FuseServer ClipErr :=
  match build_tree now files with
  | Ok tree => Ok (mkServer (wrap 64 (self.(generation) + 1)) tree self.(file_handle_counter) self.(rx))
  | Err e => Err e
  end.

Inductive Errno := ENOENT | ENOTDIR | ENAMETOOLONG | EBUSY | EBADF | ENFILE | EIO.
Inductive Reply :=
| RError (e : Errno)
| REntry (attr : InodeAttributes) (generation : Z)
| ROpened (fh : Z)
| RDirectory (entries : list (Z * Z * FileType * string))
| REmpty
| RData (bytes : list Z)
| RAttr (attr : InodeAttributes)
| RStatfs (blocks : Z).

(** [self.files.get(ino as usize - 1)]; inodes the kernel asks for are not zero. *)
Definition node (self : FuseServer) (ino : Z) : option FuseNode := zget self.(nodes) (ino - 1).

Definition init (now : Z) (self : FuseServer) : FuseServer :=
  if is_nil self.(nodes) then mkServer self.(generation) [new_root now] self.(file_handle_counter) self.(rx) else self.

Definition str_len (s : string) : Z := Z.of_nat (String.length s).

Fixpoint find_child (self : FuseServer) (inodes : list Z) (name : string) : option FuseNode :=
  match inodes with
  | [] => None
  | i :: inodes =>
    match node self i with
    | Some child => if bool_decide (child.(n_name) = name) then Some child else find_child self inodes name
    | None => find_child self inodes name
    end
  end.

Definition lookup (self : FuseServer) (parent : Z) (name : string) : Reply :=
  if MAX_NAME_LEN <? str_len name then RError ENAMETOOLONG else
  match node self parent with
  | None => RError ENOENT
  | Some parent_entry =>
    if negb (bool_decide (parent_entry.(attributes).(at_kind) = TDirectory)) then RError ENOTDIR else
    match find_child self parent_entry.(children) name with
    | Some child => REntry child.(attributes) self.(generation)
    | None => RError ENOENT
    end
  end.

Definition set_node (self : FuseServer) (ino : Z) (n : FuseNode) : FuseServer :=
  mkServer self.(generation) (<[Z.to_nat (ino - 1) := n]> self.(nodes)) self.(file_handle_counter) self.(rx).

Definition have_handler (n : FuseNode) (fh : Z) : bool := bool_decide (fh ∈ n.(file_handlers)).
Fixpoint remove_one (fh : Z) (l : list Z) : list Z :=
  match l with [] => [] | x :: l => if x =? fh then l else x :: remove_one fh l end.

(** [opendir] and [open], which differ in the kind of node they take and the error for others. *)
Definition open_as (want : FileType) (wrong : Errno) (self : FuseServer) (ino : Z) : FuseServer * Reply :=
  match node self ino with
  | None => (self, RError ENOENT)
  | Some entry =>
    if negb (bool_decide (entry.(attributes).(at_kind) = want)) then (self, RError wrong) else
    if entry.(gc) then (self, RError EBUSY) else
    let fh := self.(file_handle_counter) in
    let self := mkServer self.(generation) self.(nodes) (wrap 64 (fh + 1)) self.(rx) in
    (set_node self ino (set_handlers entry (entry.(file_handlers) ++ [fh])), ROpened fh)
  end.
Definition opendir := open_as TDirectory ENOTDIR.
Definition open := open_as TFile ENFILE.

Fixpoint enumerate_from {A} (i : Z) (l : list A) : list (Z * A) :=
  match l with [] => [] | x :: l => (i, x) :: enumerate_from (i + 1) l end.

(** [room]: how many entries the kernel's buffer takes. *)
Definition readdir (self : FuseServer) (ino fh offset : Z) (room : nat) : Reply :=
  match node self ino with
  | None => RError ENOENT
  | Some entry =>
    if negb (have_handler entry fh) then RError EBADF else
    if negb (bool_decide (entry.(attributes).(at_kind) = TDirectory)) then RError ENOTDIR else
    let entries := [(ino, TDirectory, "."%string)] ++
                   match entry.(n_parent) with Some p => [(p, TDirectory, ".."%string)] | None => [] end ++
                   omap (fun i => match node self i with
                                  | Some child => Some (i, child.(attributes).(at_kind), child.(n_name))
                                  | None => None
                                  end) entry.(children) in
    RDirectory (take room ((fun e : Z * (Z * FileType * string) => let '(i, (inode, k, name)) := e in (inode, i + 1, k, name))
                             <$> zdrop (wrap 64 offset) (enumerate_from 0 entries)))
  end.

Definition unregister (self : FuseServer) (ino fh : Z) (entry : FuseNode) : FuseServer * Reply :=
  if have_handler entry fh then (set_node self ino (set_handlers entry (remove_one fh entry.(file_handlers))), REmpty)
  else (self, RError EBADF).

Definition releasedir (self : FuseServer) (ino fh : Z) : FuseServer * Reply :=
  match node self ino with
  | None => (self, RError ENOENT)
  | Some entry =>
    if negb (bool_decide (entry.(attributes).(at_kind) = TDirectory)) then (self, RError ENOTDIR)
    else unregister self ino fh entry
  end.
Definition release (self : FuseServer) (ino fh : Z) : FuseServer * Reply :=
  match node self ino with
  | None => (self, RError ENOENT)
  | Some entry => unregister self ino fh entry
  end.

(** [read_node]: [rx] is what is in the channel and what arrives while the read waits, each
    message within the timeout of the one before; the wait after the last one times out. *)
Inductive ReadErr := TimedOut | Failure | InvalidReply | SendFailed.

Definition contents_request (stream_id : Z) (n : FuseNode) (offset size : Z) : ClipboardFile :=
  FileContentsRequest stream_id (swrap 32 n.(index)) 2 (swrap 32 (Z.land offset u32_max)) (swrap 32 (Z.shiftr offset 32))
    (swrap 32 size) true n.(n_list).

Fixpoint read_replies (chs : list MsgChannel) (rx : list ClipboardFile) (conn_id : Z) (request : ClipboardFile) (request_stream_id retry_times : Z)
    : list MsgChannel * list ClipboardFile * result (list Z) ReadErr :=
  match rx with
  | [] => (chs, [], Err TimedOut)
  | FileContentsResponse msg_flags stream_id requested_data :: rx =>
    if negb (stream_id =? request_stream_id) then read_replies chs rx conn_id request request_stream_id retry_times
    else if Z.land msg_flags 1 =? 0 then
      let retry_times := retry_times + 1 in
      if READ_RETRY <? retry_times then (chs, rx, Err Failure) else
      match send_data chs conn_id request with
      | (chs, Ok _) => read_replies chs rx conn_id request request_stream_id retry_times
      | (chs, Err _) => (chs, rx, Err SendFailed)
      end
    else (chs, rx, Ok requested_data)
  | _ :: rx => (chs, rx, Err InvalidReply)
  end.

Definition read_node (chs : list MsgChannel) (rx : list ClipboardFile) (n : FuseNode) (stream_id offset size : Z)
    : list MsgChannel * list ClipboardFile * result (list Z) ReadErr :=
  let request := contents_request stream_id n offset size in
  match send_data chs n.(n_conn) request with
  | (chs, Err _) => (chs, rx, Err SendFailed)
  | (chs, Ok _) => read_replies chs rx n.(n_conn) request stream_id 0
  end.

(** [stream_id] is random; [arriving]: what arrives during the read. *)
Definition read (chs : list MsgChannel) (self : FuseServer) (stream_id : Z) (arriving : list ClipboardFile) (ino fh offset size : Z)
    : list MsgChannel * FuseServer * Reply :=
  let later := mkServer self.(generation) self.(nodes) self.(file_handle_counter) (self.(rx) ++ arriving) in
  match node self ino with
  | None => (chs, later, RError ENOENT)
  | Some entry =>
    if negb (have_handler entry fh) then (chs, later, RError EBADF) else
    if negb (bool_decide (entry.(attributes).(at_kind) = TFile)) then (chs, later, RError ENFILE) else
    if entry.(gc) then (chs, later, RError EBUSY) else
    let '(chs, rx, res) := read_node chs (self.(rx) ++ arriving) entry stream_id offset size in
    (chs, mkServer self.(generation) self.(nodes) self.(file_handle_counter) rx,
     match res with Ok bytes => RData bytes | Err _ => RError EIO end)
  end.

Definition getattr (self : FuseServer) (ino : Z) : Reply :=
  match node self ino with Some entry => RAttr entry.(attributes) | None => RError ENOENT end.

Definition blocks_of (size : Z) : Z := size / BLOCK_SIZE + (if size mod BLOCK_SIZE =? 0 then 0 else 1).
Definition statfs (self : FuseServer) : Reply :=
  RStatfs (foldl (fun blocks n => wrap 64 (blocks + blocks_of n.(attributes).(at_size))) 0 self.(nodes)).

Definition list_root (self : FuseServer) : list string :=
  match self.(nodes) with
  | root :: _ => omap (fun i => n_name <$> node self i) root.(children)
  | [] => []
  end.

(** ** The context *)

Record FuseContext := mkContext { server : FuseServer; mount_point : string; ctx_conn : Z }.

Definition ctx_format_data_response_to_urls {U : Utf16} (now : Z) (self : FuseContext) (format_data : list Z) (conn_id : Z)
    : FuseContext * result (list string) ClipErr :=
  match parse_file_descriptors format_data conn_id with
  | Err e => (self, Err e)
  | Ok files =>
    match load_file_list now self.(server) files with
    | Err e => (self, Err e)
    | Ok srv =>
      (mkContext srv self.(mount_point) conn_id,
       Ok ((fun p => to_string_lossy (join self.(mount_point) p)) <$> list_root srv))
    end
  end.

Definition ctx_empty_local_files (now : Z) (self : FuseContext) (conn_id : Z) : FuseContext * bool :=
  if negb (conn_id =? 0) && negb (self.(ctx_conn) =? conn_id) then (self, false)
  else (match load_file_list now self.(server) [] with Ok srv => mkContext srv self.(mount_point) self.(ctx_conn) | Err _ => self end, true).

End Fuse.
