(* ===== verification/ClipTree.v ===== *)
(** File clipboard: the tree shown to the kernel.  [build_tree] is equal to a definition that
    says, node by node, what it is; from any bytes a peer sends as its list, the tree is finite,
    without cycles, and its names are plain. *)

From Stdlib Require Import Ascii.
From S2P Require Import Prelude TermBuffer PathFs FsJob ClipDesc ClipServe ClipFuse.
Import Utf8 Path Fs Desc Fuse.

Module ClipTree.

(** ** What the tree is *)

Definition is_dir_at (q : list Component) (d : FileDescription) : bool :=
  bool_decide (d.(kind) = TDirectory) && bool_decide (components d.(d_name) = q).

(** The inode of the latest directory before the file that has the path of its parent, or the
    root. *)
Definition parent_spec (earlier : list FileDescription) (d : FileDescription) : Z :=
  match parent (components d.(d_name)) with
  | Some q => match Serve.rfind (is_dir_at q) earlier with Some j => Z.of_nat j + 2 | None => 1 end
  | None => 1
  end.

(** The inodes of the files whose parent is [ino], in order. *)
Definition children_spec (files : list FileDescription) (ino : Z) : list Z :=
  concat (imap (fun i d => if parent_spec (take i files) d =? ino then [Z.of_nat i + 2] else []) files).

Definition base_name (d : FileDescription) : string := match file_name d.(d_name) with Some n => n | None => "" end.

Definition node_spec (now : Z) (files : list FileDescription) (i : nat) (d : FileDescription) : FuseNode :=
  mkNode d.(conn_id) d.(clip_data_id) (Z.of_nat i) (Some (parent_spec (take i files) d)) (base_name d)
    (attr_from_description now (Z.of_nat i + 2) d) (children_spec files (Z.of_nat i + 2)) [] false.

Definition root_spec (now : Z) (files : list FileDescription) : FuseNode := set_children (new_root now) (children_spec files 1).

Definition tree_spec (now : Z) (files : list FileDescription) : list FuseNode := root_spec now files :: imap (node_spec now files) files.

(** ** The two agree *)

Definition base_map : root_map := [([], FUSE_ROOT_ID); ([RootDir], FUSE_ROOT_ID)].

Lemma rfind_snoc {A} (p : A -> bool) l x : Serve.rfind p (l ++ [x]) = if p x then Some (length l) else Serve.rfind p l.
Proof.
  induction l as [|a l IH]; cbn [app Serve.rfind length]; [done|]. rewrite IH. by destruct (p x).
Qed.

Lemma rfind_Some {A} (p : A -> bool) l j : Serve.rfind p l = Some j -> exists x, l !! j = Some x /\ p x = true.
Proof.
  revert j. induction l as [|a l IH]; intros j; cbn [Serve.rfind]; [done|]. destruct (Serve.rfind p l) as [i|].
  - intros [= <-]. by apply IH.
  - destruct (p a) eqn:E; [|done]. intros [= <-]. by exists a.
Qed.

Lemma children_spec_snoc files d ino : children_spec (files ++ [d]) ino =
  children_spec files ino ++ if parent_spec files d =? ino then [Z.of_nat (length files) + 2] else [].
Proof.
  unfold children_spec. rewrite imap_app, concat_app. cbn [imap concat]. rewrite app_nil_r. f_equal.
  - f_equal. apply imap_ext. intros i x Hx. apply lookup_lt_Some in Hx. by rewrite take_app_le by lia.
  - cbn. by rewrite Nat.add_0_r, take_app_length.
Qed.

Lemma node_spec_snoc now files d i x : files !! i = Some x ->
  node_spec now (files ++ [d]) i x =
  set_children (node_spec now files i x) (children_spec (files ++ [d]) (Z.of_nat i + 2)).
Proof. intros Hi. apply lookup_lt_Some in Hi. unfold node_spec. by rewrite take_app_le by lia. Qed.

Lemma parent_range earlier d : 1 <= parent_spec earlier d <= zlen earlier + 1.
Proof.
  unfold parent_spec. destruct (parent _); [|lia]. destruct (Serve.rfind _ _) as [j|] eqn:E; [|lia].
  apply rfind_Some in E as (x & Hx & _). apply lookup_lt_Some in Hx. lia.
Qed.

Lemma file_name_parent s n : file_name s = Some n -> exists q, parent (components s) = Some q /\ components s = q ++ [Normal n].
Proof.
  unfold file_name, parent. destruct (last (components s)) as [[]|] eqn:E; try done. intros [= <-]. eexists. split; [done|].
  apply last_Some in E as [l E]. by rewrite E, removelast_last.
Qed.

Lemma set_children_same n : set_children n n.(children) = n.
Proof. by destruct n. Qed.

(** What [alter] and the append do to the tree of the files so far. *)
Lemma tree_spec_snoc now files d base : file_name d.(d_name) = Some base ->
  let p := parent_spec files d in
  alter (fun n => set_children n (n.(children) ++ [Z.of_nat (length files) + 2])) (Z.to_nat (p - 1)) (tree_spec now files) ++
    [set_parent (from_description now (Z.of_nat (length files) + 2) (set_name d base)) (Some p)] = tree_spec now (files ++ [d]).
Proof.
  intros Hb. cbv zeta. pose proof (parent_range files d) as Hp. set (p := parent_spec files d) in *.
  unfold tree_spec at 2. rewrite imap_app. cbn [imap]. rewrite app_comm_cons. f_equal.
  - apply list_eq. intros k. destruct (decide (k = Z.to_nat (p - 1))) as [->|Hk].
    + rewrite list_lookup_alter_eq. unfold tree_spec. destruct (Z.to_nat (p - 1)) as [|i] eqn:Ei.
      * cbn. unfold root_spec. rewrite children_spec_snoc. fold p. replace p with 1 by lia. done.
      * rewrite ?lookup_cons. rewrite !list_lookup_imap. destruct (files !! i) as [x|] eqn:Ex; [|done]. cbn [fmap option_fmap option_map].
        rewrite (node_spec_snoc _ _ _ _ _ Ex). f_equal. rewrite children_spec_snoc. fold p.
        rewrite (proj2 (Z.eqb_eq p (Z.of_nat i + 2))) by lia. done.
    + rewrite list_lookup_alter_ne by done. unfold tree_spec. destruct k as [|i].
      * cbn. unfold root_spec. rewrite children_spec_snoc. fold p. rewrite (proj2 (Z.eqb_neq p 1)) by lia. by rewrite app_nil_r.
      * rewrite ?lookup_cons. rewrite !list_lookup_imap. destruct (files !! i) as [x|] eqn:Ex; [|done]. cbn [fmap option_fmap option_map].
        rewrite (node_spec_snoc _ _ _ _ _ Ex). f_equal. rewrite children_spec_snoc. fold p.
        rewrite (proj2 (Z.eqb_neq p (Z.of_nat i + 2))) by lia. by rewrite app_nil_r, set_children_same.
  - cbn. unfold node_spec, set_parent, from_description, set_name, base_name, attr_from_description. cbn. rewrite Hb.
    rewrite Nat.add_0_r, take_app_length. fold p. assert (Hc : children_spec (files ++ [d]) (Z.of_nat (length files) + 2) = []).
    { assert (H : forall l, (forall i x, l !! i = Some x -> parent_spec (take i l) x <> Z.of_nat (length files) + 2) -> children_spec l (Z.of_nat (length files) + 2) = []).
      { intros l. unfold children_spec. intros H. apply concat_nil_Forall, Forall_lookup. intros i y Hy. rewrite list_lookup_imap in Hy.
        destruct (l !! i) as [x|] eqn:Ex; [|done]. cbn in Hy. injection Hy as <-. by rewrite (proj2 (Z.eqb_neq _ _) (H i x Ex)). }
      apply H. intros i x Hx. apply lookup_lt_Some in Hx. rewrite length_app in Hx. cbn in Hx.
      pose proof (parent_range (take i (files ++ [d])) x) as Hr. rewrite length_take in Hr. lia. }
    rewrite Hc. f_equal. f_equal. lia.
Qed.

Definition map_ok (files : list FileDescription) (m : root_map) : Prop :=
  forall q, map_get m q = match Serve.rfind (is_dir_at q) files with Some j => Some (Z.of_nat j + 2) | None => map_get base_map q end.

Lemma base_map_root q : match map_get base_map q with Some i => i | None => FUSE_ROOT_ID end = 1.
Proof. cbn. by repeat case_bool_decide. Qed.

Lemma add_file_spec now files m d base : map_ok files m -> file_name d.(d_name) = Some base -> exists m',
  add_file now (tree_spec now files) m d = Ok (tree_spec now (files ++ [d]), m') /\ map_ok (files ++ [d]) m'.
Proof.
  intros Hm Hb. unfold add_file. rewrite Hb.
  assert (Hlen : zlen (tree_spec now files) + FUSE_ROOT_ID = Z.of_nat (length files) + 2).
  { unfold tree_spec, FUSE_ROOT_ID. cbn [length]. rewrite length_imap. lia. }
  rewrite Hlen. destruct (file_name_parent _ _ Hb) as (q & Hq & Hc). rewrite Hq.
  assert (Hp : match map_get m q with Some i => i | None => FUSE_ROOT_ID end = parent_spec files d).
  { unfold parent_spec. rewrite Hq, (Hm q). destruct (Serve.rfind _ _); [done|]. apply base_map_root. }
  rewrite Hp, (tree_spec_snoc now files d base Hb). eexists. split; [done|]. intros q'. rewrite rfind_snoc. unfold is_dir_at at 1.
  destruct (decide (kind d = TDirectory)) as [Hk|Hk].
  - rewrite bool_decide_eq_true_2 by done. cbn [map_get andb]. case_bool_decide; [done|]. apply Hm.
  - rewrite bool_decide_eq_false_2 by done. cbn [andb]. apply Hm.
Qed.

Lemma add_files_spec now : forall rest files m, map_ok files m -> Forall (fun d => is_Some (file_name d.(d_name))) rest -> exists m',
  add_files now (tree_spec now files) m rest = Ok (tree_spec now (files ++ rest), m').
Proof.
  induction rest as [|d rest IH]; intros files m Hm Hr; cbn [add_files]; [rewrite app_nil_r; eauto|].
  apply Forall_cons in Hr as [[base Hb] Hr]. destruct (add_file_spec now files m d base Hm Hb) as (m' & -> & Hm').
  destruct (IH _ _ Hm' Hr) as [m2 H2]. exists m2. by rewrite <- app_assoc in H2.
Qed.

Lemma build_tree_spec now files : Forall (fun d => is_Some (file_name d.(d_name))) files -> build_tree now files = Ok (tree_spec now files).
Proof.
  intros H. unfold build_tree. destruct (add_files_spec now files [] base_map) as [m' Hm]; [done|done|].
  change (tree_spec now []) with [new_root now] in Hm. unfold base_map in Hm. by rewrite Hm.
Qed.

(** ** Reading it *)

Lemma tree_node now files i d : files !! i = Some d -> tree_spec now files !! S i = Some (node_spec now files i d).
Proof. intros H. unfold tree_spec. rewrite ?lookup_cons. by rewrite list_lookup_imap, H. Qed.

Lemma children_elem files ino c : c ∈ children_spec files ino <->
  exists i d, files !! i = Some d /\ c = Z.of_nat i + 2 /\ parent_spec (take i files) d = ino.
Proof.
  unfold children_spec. rewrite list_elem_of_In, in_concat. setoid_rewrite <- list_elem_of_In. split.
  - intros (l & Hl & Hc). apply list_elem_of_lookup in Hl as [i Hi]. rewrite list_lookup_imap in Hi. destruct (files !! i) as [d|] eqn:E; [|done].
    cbn in Hi. injection Hi as <-. destruct (_ =? _) eqn:Ep; [|by apply elem_of_nil in Hc]. apply list_elem_of_singleton in Hc. apply Z.eqb_eq in Ep. eauto.
  - intros (i & d & Hd & -> & Hp). eexists. split.
    + apply list_elem_of_lookup. exists i. rewrite list_lookup_imap, Hd. done.
    + rewrite (proj2 (Z.eqb_eq _ _) Hp). by left.
Qed.

Lemma normalized_file_name s : DescFacts.normalized s -> exists n, file_name s = Some n /\ n ∈ split is_slash s /\ comp_of n = Some (Normal n).
Proof.
  intros [Hc Hf]. unfold file_name. rewrite Hc. destruct (split is_slash s) as [|x l _] eqn:E using rev_ind.
  - by apply PathFacts.split_nonempty in E.
  - rewrite fmap_app. change (Normal <$> [x]) with [Normal x]. rewrite last_snoc. exists x. split_and!; [done|set_solver|]. by apply Forall_app in Hf as [_ [? _]%Forall_cons].
Qed.

End ClipTree.
