(* ===== verification/ClipRead.v ===== *)
(** File clipboard: reading through the mounted tree.  A read returns only the answer to its own
    request; a handle that was opened on one list never reads from another. *)

From Stdlib Require Import Ascii Sorted.
From S2P Require Import Prelude TermBuffer PathFs FsJob ClipDesc ClipServe ClipFuse ClipTree.
Import Utf8 Path Fs Desc Fuse ClipTree.

Module FuseFacts.

(** ** Answers *)

Definition is_answer (stream_id : Z) (m : ClipboardFile) : Prop :=
  exists flags data, m = FileContentsResponse flags stream_id data.
(** A late answer to a read that gave up. *)
Definition is_stale (stream_id : Z) (m : ClipboardFile) : Prop := exists s, s <> stream_id /\ is_answer s m.

Lemma replies_skip stale : forall chs rx conn req s retry, Forall (is_stale s) stale ->
  read_replies chs (stale ++ rx) conn req s retry = read_replies chs rx conn req s retry.
Proof.
  induction stale as [|m stale IH]; intros chs rx conn req s retry H; [done|]. apply Forall_cons in H as [(s' & Hs & flags & data & ->) H].
  cbn [app read_replies]. rewrite (proj2 (Z.eqb_neq _ _) Hs). cbn [negb]. by apply IH.
Qed.

Lemma replies_answer chs rx conn req s retry flags data : Z.land flags 1 <> 0 ->
  read_replies chs (FileContentsResponse flags s data :: rx) conn req s retry = (chs, rx, Ok data).
Proof. intros H. cbn [read_replies]. rewrite Z.eqb_refl. cbn [negb]. by rewrite (proj2 (Z.eqb_neq _ _) H). Qed.

(** The answers a read has looked at. *)
Definition refused (s : Z) (m : ClipboardFile) : bool :=
  match m with FileContentsResponse f s' _ => (s' =? s) && (Z.land f 1 =? 0) | _ => false end.
Definition refusals (s : Z) (seen : list ClipboardFile) : nat := length (List.filter (refused s) seen).

Lemma replies_Ok : forall rx chs conn req s retry chs' rx' bytes, read_replies chs rx conn req s retry = (chs', rx', Ok bytes) ->
  exists seen flags, rx = seen ++ FileContentsResponse flags s bytes :: rx' /\ Z.land flags 1 <> 0 /\
    Forall (fun m => exists s', is_answer s' m) seen /\ retry + Z.of_nat (refusals s seen) <= Z.max retry READ_RETRY.
Proof.
  intros rx. induction rx as [|m rx IH]; intros chs conn req s retry chs' rx' bytes; cbn [read_replies]; [done|].
  destruct m as [| | | | | | |flags s' data| |]; try done. destruct (s' =? s) eqn:Es; cbn [negb].
  - apply Z.eqb_eq in Es. subst s'. destruct (Z.land flags 1 =? 0) eqn:Ef.
    + apply Z.eqb_eq in Ef. destruct (READ_RETRY <? retry + 1) eqn:Er; [done|]. apply Z.ltb_ge in Er.
      destruct (send_data chs conn req) as [chs1 [u|]]; [|done]. intros H. destruct (IH _ _ _ _ _ _ _ _ H) as (seen & f & -> & Hf & Ha & Hr).
      exists (FileContentsResponse flags s data :: seen), f. split_and!; [done|done|constructor; [by eexists _, _, _|done]|].
      unfold refusals in *. cbn [List.filter refused]. rewrite Z.eqb_refl, (proj2 (Z.eqb_eq _ _) Ef). cbn [andb length]. lia.
    + apply Z.eqb_neq in Ef. intros [= <- <- <-]. exists [], flags. split_and!; [done|done|constructor|cbn; lia].
  - apply Z.eqb_neq in Es. intros H. destruct (IH _ _ _ _ _ _ _ _ H) as (seen & f & -> & Hf & Ha & Hr).
    exists (FileContentsResponse flags s' data :: seen), f. split_and!; [done|done|constructor; [by eexists _, _, _|done]|].
    unfold refusals in *. cbn [List.filter refused]. by rewrite (proj2 (Z.eqb_neq _ _) Es).
Qed.

(** ** Handles *)

(** What the comment on [FileHandles] argues: later handles are bigger. *)
Record server_ok (self : FuseServer) : Prop := mkServerOk {
  so_below : forall i n fh, self.(nodes) !! i = Some n -> fh ∈ n.(file_handlers) -> 0 <= fh < self.(file_handle_counter);
  so_sorted : forall i n, self.(nodes) !! i = Some n -> StronglySorted Z.lt n.(file_handlers);
  so_counter : 0 <= self.(file_handle_counter)
}.

(** Calls of the kernel, and messages that change the server. *)
Inductive Call :=
| COpen (ino : Z) | COpendir (ino : Z) | CRelease (ino fh : Z) | CReleasedir (ino fh : Z)
| CRead (stream_id : Z) (arriving : list ClipboardFile) (ino fh offset size : Z)
| CLoad (now : Z) (files : list FileDescription)
| CArrive (m : ClipboardFile).

Definition call (chs : list MsgChannel) (self : FuseServer) (c : Call) : list MsgChannel * FuseServer :=
  match c with
  | COpen ino => (chs, (open self ino).1)
  | COpendir ino => (chs, (opendir self ino).1)
  | CRelease ino fh => (chs, (release self ino fh).1)
  | CReleasedir ino fh => (chs, (releasedir self ino fh).1)
  | CRead s arriving ino fh off size => (read chs self s arriving ino fh off size).1
  | CLoad now files => (chs, match load_file_list now self files with Ok self => self | Err _ => self end)
  | CArrive m => (chs, mkServer self.(generation) self.(nodes) self.(file_handle_counter) (self.(rx) ++ [m]))
  end.

Definition calls (chs : list MsgChannel) (self : FuseServer) (cs : list Call) : list MsgChannel * FuseServer :=
  foldl (fun st c => call st.1 st.2 c) (chs, self) cs.

Lemma read_keeps chs self s arriving ino fh off size : 
  let self' := (read chs self s arriving ino fh off size).1.2 in
  self'.(nodes) = self.(nodes) /\ self'.(file_handle_counter) = self.(file_handle_counter) /\ self'.(generation) = self.(generation).
Proof.
  unfold read. destruct (node self ino) as [n|]; [|done]. destruct (negb _); [done|]. destruct (negb _); [done|].
  destruct (gc n); [done|]. by destruct (read_node _ _ _ _ _ _) as [[chs' rx'] res].
Qed.

(** [l] is what is left of [k] after some handles were taken out and bigger ones appended. *)
Definition kept_or_new (bound : Z) (l k : list Z) : Prop := forall fh, fh ∈ l -> fh ∈ k \/ bound <= fh.

Lemma remove_one_sub fh x l : x ∈ remove_one fh l -> x ∈ l.
Proof.
  induction l as [|y l IH]; [done|]. cbn [remove_one]. destruct (y =? fh); [intros; by right|].
  intros [->|H]%elem_of_cons; [by left|right; by apply IH].
Qed.

Lemma remove_one_sorted fh l : StronglySorted Z.lt l -> StronglySorted Z.lt (remove_one fh l).
Proof.
  induction 1 as [|y l Hl IH Hy]; [constructor|]. cbn [remove_one]. destruct (y =? fh); [done|]. constructor; [done|].
  rewrite Forall_forall in Hy |- *. intros x Hx. apply Hy. by eapply remove_one_sub.
Qed.

Lemma snoc_sorted l x : StronglySorted Z.lt l -> (forall y, y ∈ l -> y < x) -> StronglySorted Z.lt (l ++ [x]).
Proof.
  intros Hl Hx. induction Hl as [|y l Hl IH Hy]; cbn; [repeat constructor|]. constructor.
  - apply IH. intros z Hz. apply Hx. by right.
  - apply Forall_app. split; [done|]. constructor; [|constructor]. apply Hx. by left.
Qed.

(** One node's handles change. *)
Lemma put_node_ok self c ino n l : server_ok self -> self.(file_handle_counter) <= c -> node self ino = Some n ->
  StronglySorted Z.lt l -> (forall fh, fh ∈ l -> 0 <= fh < c) ->
  server_ok (mkServer self.(generation) (<[Z.to_nat (ino - 1) := set_handlers n l]> self.(nodes)) c self.(rx)).
Proof.
  intros [B S C] Hc Hn Hl Hb. constructor; cbn [nodes file_handle_counter]; [| |lia].
  - intros i m fh Hi Hfh. apply list_lookup_insert_Some in Hi as [(_ & <- & _)|(_ & Hi)]; [by apply Hb|]. specialize (B i m fh Hi Hfh). lia.
  - intros i m Hi. apply list_lookup_insert_Some in Hi as [(_ & <- & _)|(_ & Hi)]; [done|by eapply S].
Qed.

Lemma zget_Some {A} (l : list A) i x : zget l i = Some x -> l !! Z.to_nat i = Some x.
Proof. unfold zget. by destruct (0 <=? i). Qed.

Lemma open_as_ok want wrong self ino : server_ok self -> self.(file_handle_counter) < 2 ^ 64 - 1 ->
  server_ok (open_as want wrong self ino).1 /\
  self.(file_handle_counter) <= (open_as want wrong self ino).1.(file_handle_counter) <= self.(file_handle_counter) + 1.
Proof.
  intros Hok Hc. unfold open_as. destruct (node self ino) as [n|] eqn:En; [|cbn; split; [done|lia]].
  destruct (negb _); [cbn; split; [done|lia]|]. destruct (gc n); [cbn; split; [done|lia]|]. destruct Hok as [B S C].
  rewrite wrap_small by (unfold in_u; lia). unfold set_node. cbn [fst generation nodes file_handle_counter rx]. split; [|lia].
  pose proof (zget_Some _ _ _ En) as Hn. apply (put_node_ok self); [by constructor|lia|done| |].
  - apply snoc_sorted; [by eapply S|]. intros y Hy. by apply (B _ _ _ Hn).
  - intros fh [Hf|Hf]%elem_of_app; [specialize (B _ _ _ Hn Hf); lia|]. apply list_elem_of_singleton in Hf. lia.
Qed.

Lemma unregister_ok self ino fh n : server_ok self -> node self ino = Some n ->
  server_ok (unregister self ino fh n).1 /\ (unregister self ino fh n).1.(file_handle_counter) = self.(file_handle_counter).
Proof.
  intros Hok Hn. unfold unregister. destruct (have_handler n fh); [|done]. split; [|done]. pose proof (zget_Some _ _ _ Hn) as Hi.
  destruct Hok as [B S C]. apply (put_node_ok self); [by constructor|lia|done|apply remove_one_sorted; by eapply S|].
  intros x Hx. apply remove_one_sub in Hx. by eapply B.
Qed.

Lemma add_file_handlers now tree m f tree' m' : add_file now tree m f = Ok (tree', m') ->
  (forall n, n ∈ tree -> n.(file_handlers) = []) -> forall n, n ∈ tree' -> n.(file_handlers) = [].
Proof.
  unfold add_file. destruct (file_name _); [|done]. intros [= <- <-] H n [Hn|Hn]%elem_of_app; [|by apply list_elem_of_singleton in Hn as ->].
  apply list_elem_of_lookup in Hn as [i Hi]. rewrite list_lookup_alter in Hi. destruct (decide _).
  - apply fmap_Some in Hi as (x & Hx & ->). change (file_handlers x = []). apply H. by eapply list_elem_of_lookup_2.
  - apply H. by eapply list_elem_of_lookup_2.
Qed.

Lemma add_files_handlers now files : forall tree m tree' m', add_files now tree m files = Ok (tree', m') ->
  (forall n, n ∈ tree -> n.(file_handlers) = []) -> forall n, n ∈ tree' -> n.(file_handlers) = [].
Proof.
  induction files as [|f files IH]; intros tree m tree' m'; cbn [add_files]; [by intros [= <- <-]|].
  destruct (add_file now tree m f) as [[t1 m1]|] eqn:E; [|done]. intros H Ht. eapply IH; [exact H|]. by eapply add_file_handlers.
Qed.

Lemma load_ok now self files self' : load_file_list now self files = Ok self' ->
  self'.(file_handle_counter) = self.(file_handle_counter) /\ forall n, n ∈ self'.(nodes) -> n.(file_handlers) = [].
Proof.
  unfold load_file_list, build_tree. destruct (add_files _ _ _ _) as [[tree m]|] eqn:E; [|done]. intros [= <-]. split; [done|].
  eapply add_files_handlers; [exact E|]. by intros n ->%list_elem_of_singleton.
Qed.

Lemma loaded_ok now self files self' : server_ok self -> load_file_list now self files = Ok self' -> server_ok self'.
Proof.
  intros [_ _ Hc] Hl. destruct (load_ok _ _ _ _ Hl) as [A B].
  constructor; [| |by rewrite A]; intros i n; [intros fh Hi|intros Hi]; rewrite (B n) by (by eapply list_elem_of_lookup_2);
    [by intros ?%elem_of_nil|constructor].
Qed.

(** No handle older than [old] is on any node. *)
Definition forgotten (old : Z) (self : FuseServer) : Prop :=
  forall i n fh, self.(nodes) !! i = Some n -> fh ∈ n.(file_handlers) -> old <= fh.

Lemma call_ok chs self c : server_ok self -> self.(file_handle_counter) < 2 ^ 64 - 1 ->
  let self' := (call chs self c).2 in
  server_ok self' /\ self.(file_handle_counter) <= self'.(file_handle_counter) <= self.(file_handle_counter) + 1 /\
  forall old, old <= self.(file_handle_counter) -> forgotten old self -> forgotten old self'.
Proof.
  intros Hok Hc. cbv zeta.
  assert (Hset : forall ino n l, node self ino = Some n -> (forall old fh, old <= self.(file_handle_counter) -> forgotten old self -> fh ∈ l -> old <= fh) ->
    forall c g r old, old <= self.(file_handle_counter) -> forgotten old self -> forgotten old (mkServer g (<[Z.to_nat (ino - 1) := set_handlers n l]> self.(nodes)) c r)).
  { intros ino n l Hn Hl c' g r old Ho Hf i m fh Hi Hm. cbn in Hi. apply list_lookup_insert_Some in Hi as [(_ & <- & _)|(_ & Hi)]; [by eapply Hl|by eapply Hf]. }
  assert (Hopen : forall want wrong ino old, old <= self.(file_handle_counter) -> forgotten old self -> forgotten old (open_as want wrong self ino).1).
  { intros want wrong ino old Ho Hf. unfold open_as. destruct (node self ino) as [n|] eqn:En; [|done]. destruct (negb _); [done|]. destruct (gc n); [done|].
    unfold set_node. eapply Hset; [exact En| |done|done]. intros old' fh Ho' Hf' [Hin|Hin]%elem_of_app; [apply zget_Some in En; by eapply Hf'|].
    apply list_elem_of_singleton in Hin. lia. }
  assert (Hun : forall ino fh n old, node self ino = Some n -> old <= self.(file_handle_counter) -> forgotten old self -> forgotten old (unregister self ino fh n).1).
  { intros ino fh n old En Ho Hf. unfold unregister. destruct (have_handler n fh); [|done]. unfold set_node. eapply Hset; [exact En| |done|done].
    intros old' x Ho' Hf' Hx. apply remove_one_sub in Hx. apply zget_Some in En. by eapply Hf'. }
  destruct c as [ino|ino|ino fh|ino fh|s arr ino fh off size|now files|m]; cbn [call snd]; unfold open, opendir in *.
  - destruct (open_as_ok TFile ENFILE self ino Hok Hc). split_and!; [done|lia|lia|apply Hopen].
  - destruct (open_as_ok TDirectory ENOTDIR self ino Hok Hc). split_and!; [done|lia|lia|apply Hopen].
  - unfold release. destruct (node self ino) as [n|] eqn:En; [|cbn [fst]; split_and!; (done || lia)].
    destruct (unregister_ok self ino fh n Hok En) as [A B]. split_and!; [done|lia|lia|intros; by apply Hun].
  - unfold releasedir. destruct (node self ino) as [n|] eqn:En; [|cbn [fst]; split_and!; (done || lia)]. destruct (negb _); [cbn [fst]; split_and!; (done || lia)|].
    destruct (unregister_ok self ino fh n Hok En) as [A B]. split_and!; [done|lia|lia|intros; by apply Hun].
  - destruct (read_keeps chs self s arr ino fh off size) as (E1 & E2 & _). destruct Hok as [B S C].
    split_and!; [|lia|lia|]; [constructor; rewrite ?E1, ?E2; done|]. intros old _ Hf. unfold forgotten. by rewrite E1.
  - destruct (load_file_list now self files) as [self'|] eqn:E; [|cbn [fst]; split_and!; (done || lia)].
    destruct (load_ok _ _ _ _ E) as [A B]. rewrite A. split_and!; [|lia|lia|].
    + by eapply loaded_ok.
    + intros old _ _ i n fh Hi. rewrite (B n) by (by eapply list_elem_of_lookup_2). by intros ?%elem_of_nil.
  - destruct Hok. split_and!; [by constructor|cbn; lia|cbn; lia|done].
Qed.

Lemma calls_ok cs : forall chs self, server_ok self -> self.(file_handle_counter) + zlen cs < 2 ^ 64 ->
  let self' := (calls chs self cs).2 in
  server_ok self' /\ self'.(file_handle_counter) <= self.(file_handle_counter) + zlen cs /\
  forall old, old <= self.(file_handle_counter) -> forgotten old self -> forgotten old self'.
Proof.
  induction cs as [|c cs IH]; intros chs self Hok Hc; [cbn; split_and!; [done|lia|done]|].
  destruct (call_ok chs self c Hok) as (H1 & H2 & H3); [cbn [length] in Hc; lia|]. unfold calls. cbn [foldl fst snd].
  destruct (call chs self c) as [chs1 self1] eqn:E. cbn [fst snd] in *.
  destruct (IH chs1 self1 H1) as (I1 & I2 & I3); [cbn [length] in Hc; lia|]. unfold calls in I1, I2, I3.
  split_and!; [done|cbn [length]; lia|]. intros old Ho Hf. apply I3; [lia|]. by apply H3.
Qed.

Lemma server_new_ok : server_ok server_new.
Proof. by constructor. Qed.

End FuseFacts.
