(* ===== verification/ClipMount.v ===== *)
(** File clipboard: where the tree is mounted ([libs/clipboard/src/platform/unix/fuse/mod.rs]).
    What the kernel answers about the mount point is an argument; the decision made from it, and
    what becomes of the context, are the code's. *)

From Stdlib Require Import Ascii.
From S2P Require Import Prelude TermBuffer PathFs FsJob ClipDesc ClipServe ClipFuse.
Import Utf8 Path Desc Fuse.

Module Mount.

Inductive MountPointState := HealthyMount | NotMounted | StaleMount | Unknown.
#[global] Instance MountPointState_eq_dec : EqDecision MountPointState.
Proof. solve_decision. Defined.

(** What [metadata] and [symlink_metadata] of a path answer. *)
Inductive Stat := StatOk (symlink : bool) | NotConnected | Missing | StatFailed.

(** ** The table of mounts *)

(** The length of the white-space character a text begins with, 0 for any other. *)
Definition white (s : list Z) : nat :=
  match s with
  | a :: s =>
    if between 9 13 a || (a =? 32) then 1%nat else
    match s with
    | b :: s =>
      if (a =? 194) && ((b =? 133) || (b =? 160)) then 2%nat else
      match s with
      | c :: _ =>
        if (a =? 225) && (b =? 154) && (c =? 128) then 3%nat
        else if (a =? 226) && (b =? 128) && (between 128 138 c || (c =? 168) || (c =? 169) || (c =? 175)) then 3%nat
        else if (a =? 226) && (b =? 129) && (c =? 159) then 3%nat
        else if (a =? 227) && (b =? 128) && (c =? 128) then 3%nat
        else 0%nat
      | [] => 0%nat
      end
    | [] => 0%nat
    end
  | [] => 0%nat
  end.

(** [split_whitespace]: [skip] bytes of a separator are still to pass, [field] is the field so
    far, reversed. *)
Fixpoint fields (skip : nat) (field : list Z) (s : list Z) : list (list Z) :=
  let close (rest : list (list Z)) := if is_nil field then rest else rev field :: rest in
  match s with
  | [] => close []
  | a :: s' =>
    match skip with
    | S skip => fields skip field s'
    | O =>
      match white s with
      | O => fields O (a :: field) s'
      | S n => close (fields n [] s')
      end
    end
  end.
Definition split_whitespace (line : list Z) : list (list Z) := fields O [] line.

(** [str::lines] *)
Fixpoint lines (cur : list Z) (s : list Z) : list (list Z) :=
  let strip (l : list Z) := match l with 13 :: l => rev l | l => rev l end in
  match s with
  | [] => if is_nil cur then [] else [rev cur]
  | a :: s => if a =? 10 then strip cur :: lines [] s else lines (a :: cur) s
  end.

Definition is_mount_point_listed_in_mountinfo (mount_point : string) (mountinfo : list Z) : bool :=
  existsb (fun line => bool_decide (split_whitespace line !! 4%nat = Some (lossy (as_bytes mount_point)))) (lines [] mountinfo).

Definition inspect_mount_point_state_with (mount_point : string) (metadata_result : Stat) (mountinfo_result : option (list Z)) : MountPointState :=
  match metadata_result with
  | StatOk _ =>
    match mountinfo_result with
    | Some mountinfo => if is_mount_point_listed_in_mountinfo mount_point mountinfo then HealthyMount else NotMounted
    | None => Unknown
    end
  | NotConnected => StaleMount
  | Missing => NotMounted
  | StatFailed => Unknown
  end.

(** ** The checks before a path is used *)

Definition reject_symlink_metadata_result (metadata_result : Stat) (allow_disconnected_mount : bool) : result unit ClipErr :=
  match metadata_result with
  | StatOk true => Err CliprdrInit
  | StatOk false => Ok tt
  | NotConnected => if allow_disconnected_mount then Ok tt else Err CliprdrInit
  | Missing => Ok tt
  | StatFailed => Err CliprdrInit
  end.

(** One look at the mount point: its parent and itself, links not followed; itself, followed;
    the table. *)
Record Look := mkLook { l_parent : Stat; l_itself : Stat; l_target : Stat; l_mountinfo : option (list Z) }.

Definition ensure_mount_point_path_is_safe (l : Look) : result unit ClipErr :=
  match reject_symlink_metadata_result l.(l_parent) false with
  | Err e => Err e
  | Ok _ => reject_symlink_metadata_result l.(l_itself) true
  end.

Definition inspect_mount_point_state (mount_point : string) (l : Look) : MountPointState :=
  if is_ok (ensure_mount_point_path_is_safe l) then inspect_mount_point_state_with mount_point l.(l_target) l.(l_mountinfo)
  else Unknown.

Definition validate_mount_state_after_stale_cleanup (mount_state : MountPointState) : result unit ClipErr :=
  match mount_state with
  | NotMounted => Ok tt
  | HealthyMount => Err ClipboardOccupied
  | StaleMount => Err CliprdrInit
  | Unknown => Err CliprdrInit
  end.

(** Which unmount commands are run: all of them until one succeeds, unless the path is not safe
    or nothing is mounted. *)
Definition unmount_candidates : list string := ["fusermount3"; "fusermount"; "umount"]%string.
Fixpoint run_until (succeeds : string -> bool) (programs : list string) : list string :=
  match programs with
  | [] => []
  | p :: programs => if succeeds p then [p] else p :: run_until succeeds programs
  end.
Definition unmount_fuse_mount_point (succeeds : string -> bool) (mount_point : string) (l : Look) : list string :=
  if negb (is_ok (ensure_mount_point_path_is_safe l)) then []
  else if bool_decide (inspect_mount_point_state_with mount_point l.(l_target) l.(l_mountinfo) = NotMounted) then []
  else run_until succeeds unmount_candidates.

(** [prepare_fuse_mount_point]: whether the parent and the mount point itself could be created,
    the latter again after a clean-up. *)
Definition prepare_fuse_mount_point (l : Look) (parent_created created created_after : bool) : result unit ClipErr :=
  match reject_symlink_metadata_result l.(l_parent) false with
  | Err e => Err e
  | Ok _ =>
    if negb parent_created then Err CliprdrInit else
    match reject_symlink_metadata_result l.(l_itself) false with
    | Err e => Err e
    | Ok _ => if created then Ok tt else if created_after then Ok tt else Err CliprdrInit
    end
  end.

(** ** The context *)

(** What the operating system answers to one attempt to mount. *)
Record Attempt := mkAttempt {
  a_look : Look;
  a_after_cleanup : Look;
  a_prepare : Look;
  a_parent_created : bool;
  a_created : bool;
  a_created_after : bool;
  a_spawned : bool
}.

Definition new_context (mount_point : string) : FuseContext := mkContext server_new mount_point 0.

Definition mount_now (mount_point : string) (a : Attempt) : option FuseContext * result unit ClipErr :=
  let prepare_and_spawn :=
    match prepare_fuse_mount_point a.(a_prepare) a.(a_parent_created) a.(a_created) a.(a_created_after) with
    | Err e => (None, Err e)
    | Ok _ => if a.(a_spawned) then (Some (new_context mount_point), Ok tt) else (None, Err CliprdrInit)
    end in
  match inspect_mount_point_state mount_point a.(a_look) with
  | HealthyMount => (None, Err ClipboardOccupied)
  | StaleMount =>
    match validate_mount_state_after_stale_cleanup (inspect_mount_point_state mount_point a.(a_after_cleanup)) with
    | Err e => (None, Err e)
    | Ok _ => prepare_and_spawn
    end
  | Unknown => (None, Err CliprdrInit)
  | NotMounted => prepare_and_spawn
  end.

(** [seen]: the look at the mount of the context there is. *)
Definition init_fuse_context (mount_point : string) (seen : Look) (a : Attempt) (ctx : option FuseContext) : option FuseContext * result unit ClipErr :=
  match ctx with
  | Some c =>
    match inspect_mount_point_state c.(ClipFuse.Fuse.mount_point) seen with
    | HealthyMount => (Some c, Ok tt)
    | StaleMount | NotMounted => mount_now mount_point a
    | Unknown => (Some c, Err CliprdrInit)
    end
  | None => mount_now mount_point a
  end.

(** ** Mounts whose path has white space *)

Lemma fields_no_white s : forall skip field f, Forall (fun x => x <> 32) field -> f ∈ fields skip field s -> 32 ∉ f.
Proof.
  induction s as [|a s IH]; intros skip field f Hf; cbn [fields].
  - destruct (is_nil field); [by intros ?%elem_of_nil|]. intros ->%list_elem_of_singleton Hin.
    rewrite Forall_forall in Hf. apply (Hf 32); [by rewrite list_elem_of_In, <- in_rev, <- list_elem_of_In in Hin|done].
  - destruct skip as [|skip]; [|by apply IH]. destruct (white (a :: s)) as [|n] eqn:Ew.
    + apply IH. constructor; [|done]. intros ->. done.
    + destruct (is_nil field); [by apply IH; constructor|]. intros [->|Hin]%elem_of_cons.
      * intros Hin. rewrite Forall_forall in Hf. apply (Hf 32); [by rewrite list_elem_of_In, <- in_rev, <- list_elem_of_In in Hin|done].
      * eapply IH; [|exact Hin]. constructor.
Qed.

(** The kernel escapes a blank in the table; the code compares with the path itself. *)
Lemma blank_not_listed mount_point mountinfo : 32 ∈ lossy (as_bytes mount_point) ->
  is_mount_point_listed_in_mountinfo mount_point mountinfo = false.
Proof.
  intros Hb. unfold is_mount_point_listed_in_mountinfo. apply Bool.not_true_is_false. intros H. apply existsb_exists in H as (line & _ & H).
  apply bool_decide_eq_true in H. apply list_elem_of_lookup_2 in H. exact (fields_no_white line O [] _ ltac:(constructor) H Hb).
Qed.

End Mount.
