(* ===== verification/ClipPaste.v ===== *)
(** File clipboard: the messages between the two sides ([src/clipboard_file.rs]), and a copied
    file from the side it was copied on to the program that reads the pasted one. *)

From Stdlib Require Import Ascii Sorted.
From S2P Require Import Prelude TermBuffer PathFs FsJob FsWalk ClipDesc ClipServe ClipHost ClipWalk ClipLists.
From S2P Require Import ClipFuse ClipTree ClipRead ClipMount.
Import Utf8 Path Fs Desc DescFacts Serve Readers LocalFiles ClipWalk ClipLists Fuse ClipTree FuseFacts Mount.

Module Paste.

(** ** Messages on the wire *)

Inductive Wire :=
| WMessageBox (msgtype title text link : string)
| WReady
| WFormatList (formats : list (Z * string))
| WFormatListResponse (msg_flags : Z)
| WFormatDataRequest (requested_format_id : Z)
| WFormatDataResponse (msg_flags : Z) (format_data : list Z)
| WFileContentsRequest (stream_id list_index dw_flags n_position_low n_position_high cb_requested : Z)
    (have_clip_data_id : bool) (clip_data_id : Z)
| WFileContentsResponse (msg_flags stream_id : Z) (requested_data : list Z)
| WTryEmpty
| WFiles (files : list (string * Z)).

Definition FILEDESCRIPTOR_FORMAT_ID : Z := 49334.
Definition FILEDESCRIPTORW_FORMAT_NAME : string := "FileGroupDescriptorW".
Definition FILECONTENTS_FORMAT_ID : Z := 49267.
Definition FILECONTENTS_FORMAT_NAME : string := "FileContents".

Definition get_local_format (remote_id : Z) : option string :=
  if remote_id =? FILEDESCRIPTOR_FORMAT_ID then Some FILEDESCRIPTORW_FORMAT_NAME
  else if remote_id =? FILECONTENTS_FORMAT_ID then Some FILECONTENTS_FORMAT_NAME else None.

Definition get_format_list : ClipboardFile :=
  FormatList [(FILEDESCRIPTOR_FORMAT_ID, default FILEDESCRIPTORW_FORMAT_NAME (get_local_format FILEDESCRIPTOR_FORMAT_ID));
              (FILECONTENTS_FORMAT_ID, default FILECONTENTS_FORMAT_NAME (get_local_format FILECONTENTS_FORMAT_ID))].

Section Paste.
Context {U : Utf16} {OS : Os}.

Definition clip_2_msg (fs : Fs) (clip : ClipboardFile) : Wire :=
  match clip with
  | NotifyCallback type title text => WMessageBox type title text ""
  | MonitorReady => WReady
  | FormatList l => WFormatList l
  | FormatListResponse f => WFormatListResponse f
  | FormatDataRequest i => WFormatDataRequest i
  | FormatDataResponse f d => WFormatDataResponse f d
  | FileContentsRequest s l d lo hi cb have i => WFileContentsRequest s l d lo hi cb have i
  | FileContentsResponse f s d => WFileContentsResponse f s d
  | TryEmpty => WTryEmpty
  | Files l => WFiles (omap (fun e : string * Z => let '(f, s) := e in
      if s =? 0 then match metadata fs f with Ok mt => Some (f, mt.(m_len)) | Err _ => None end else Some (f, s)) l)
  end.

Definition msg_2_clip (msg : Wire) : option ClipboardFile :=
  match msg with
  | WReady => Some MonitorReady
  | WFormatList l => Some (FormatList l)
  | WFormatListResponse f => Some (FormatListResponse f)
  | WFormatDataRequest i => Some (FormatDataRequest i)
  | WFormatDataResponse f d => Some (FormatDataResponse f d)
  | WFileContentsRequest s l d lo hi cb have i => Some (FileContentsRequest s l d lo hi cb have i)
  | WFileContentsResponse f s d => Some (FileContentsResponse f s d)
  | WTryEmpty => Some TryEmpty
  | WFiles _ | WMessageBox _ _ _ _ => None
  end.

Definition is_file_data_request (msg : Wire) : bool :=
  match msg with WFormatDataRequest _ | WFileContentsRequest _ _ _ _ _ _ _ _ => true | _ => false end.

Definition msg_resp_format_data_failure (fs : Fs) : Wire := clip_2_msg fs (FormatDataResponse 2 []).
Definition resp_file_contents_fail (fs : Fs) (stream_id : Z) : Wire := clip_2_msg fs (FileContentsResponse 2 stream_id []).

(** ** One side *)

(** The lists it offers, and the trees it shows: one per direction. *)
Record Side := mkSide { lists : Lists; FUSE_CONTEXT_CLIENT : option FuseContext; FUSE_CONTEXT_SERVER : option FuseContext }.

Definition context (p : Side) (is_client : bool) : option FuseContext :=
  if is_client then p.(FUSE_CONTEXT_CLIENT) else p.(FUSE_CONTEXT_SERVER).
Definition set_context (p : Side) (is_client : bool) (c : option FuseContext) : Side :=
  if is_client then mkSide p.(lists) c p.(FUSE_CONTEXT_SERVER) else mkSide p.(lists) p.(FUSE_CONTEXT_CLIENT) c.
Definition set_lists (p : Side) (l : Lists) : Side := mkSide l p.(FUSE_CONTEXT_CLIENT) p.(FUSE_CONTEXT_SERVER).

Definition format_data_response_to_urls (now : Z) (p : Side) (is_client : bool) (format_data : list Z) (conn_id : Z)
    : Side * result (list string) ClipErr :=
  match context p is_client with
  | None => (p, Err CliprdrInit)
  | Some c => let '(c, r) := ctx_format_data_response_to_urls now c format_data conn_id in (set_context p is_client (Some c), r)
  end.

Definition handle_file_content_response (p : Side) (is_client : bool) (clip : ClipboardFile) : Side * result unit ClipErr :=
  match context p is_client with
  | None => (p, Err CliprdrInit)
  | Some c =>
    let s := c.(server) in
    let s := mkServer s.(generation) s.(Fuse.nodes) s.(file_handle_counter) (s.(rx) ++ [clip]) in
    (set_context p is_client (Some (mkContext s c.(mount_point) c.(ctx_conn))), Ok tt)
  end.

Definition empty_local_files (now : Z) (p : Side) (is_client : bool) (conn_id : Z) : Side * bool :=
  match context p is_client with
  | None => (p, false)
  | Some c => let '(c, b) := ctx_empty_local_files now c conn_id in (set_context p is_client (Some c), b)
  end.

(** What it asks of the platform's clipboard, on threads of their own. *)
Inductive Effect := UpdateClipboard (urls : list string) | TryEmptyFiles (conn_id : Z).

(** What the operating system does during one message: the clock, and the mount. *)
Record Env := mkEnv { e_now : Z; e_mount : string; e_seen : Look; e_attempt : Attempt }.

Definition find_format (name : string) (l : list (Z * string)) : option Z :=
  fst <$> List.find (fun e => bool_decide (e.2 = name)) l.

Definition serve_clip_messages (fs : Fs) (env : Env) (p : Side) (is_client : bool) (clip : ClipboardFile) (conn_id : Z)
    : Side * list Wire * list Effect :=
  match clip with
  | FormatList format_list =>
    match find_format FILECONTENTS_FORMAT_NAME format_list with
    | None => (p, [], [])
    | Some _ =>
      match find_format FILEDESCRIPTORW_FORMAT_NAME format_list with
      | None => (p, [], [])
      | Some file_descriptor_id => (p, [clip_2_msg fs (FormatDataRequest file_descriptor_id)], [])
      end
    end
  | FormatDataRequest _ =>
    let '(l, format_data) := get_file_list_pdu p.(lists) conn_id in
    (set_lists p l,
     [if is_nil format_data then msg_resp_format_data_failure fs else clip_2_msg fs (FormatDataResponse 1 format_data)], [])
  | FormatDataResponse msg_flags format_data =>
    if negb (msg_flags =? 1) then (p, [], []) else
    let '(ctx, r) := init_fuse_context env.(e_mount) env.(e_seen) env.(e_attempt) (context p is_client) in
    let p := set_context p is_client ctx in
    match r with
    | Err _ => (p, [], [])
    | Ok _ =>
      match format_data_response_to_urls env.(e_now) p is_client format_data conn_id with
      | (p, Ok files) => (p, [], if is_nil files then [] else [UpdateClipboard files])
      | (p, Err _) => (p, [], [])
      end
    end
  | FileContentsRequest stream_id list_index dw_flags n_position_low n_position_high cb_requested have_clip_data_id clip_data_id =>
    let '(l, res) := read_file_contents fs p.(lists) conn_id stream_id list_index dw_flags n_position_low n_position_high cb_requested
                       (if have_clip_data_id then Some clip_data_id else None) in
    (set_lists p l,
     (fun r => match r with Ok data => clip_2_msg fs data | Err _ => resp_file_contents_fail fs stream_id end) <$> res, [])
  | FileContentsResponse _ _ _ => ((handle_file_content_response p is_client clip).1, [], [])
  | TryEmpty => (p, [], [TryEmptyFiles conn_id])
  | MonitorReady | FormatListResponse _ | NotifyCallback _ _ _ | Files _ => (p, [], [])
  end.

(** ** From one side to the other *)

(** What the messages a side receives put into the channel of the tree's reader. *)
Definition to_reader (msgs : list Wire) : list ClipboardFile :=
  omap (fun m => match msg_2_clip m with Some (FileContentsResponse f s d) => Some (FileContentsResponse f s d) | _ => None end) msgs.

Lemma send_reaches chs conn data : (exists c, c ∈ chs /\ c.(ch_conn) = conn) -> conn <> 0 -> exists chs', send_data chs conn data = (chs', Ok tt).
Proof.
  intros Hc Hn. unfold send_data. rewrite (proj2 (Z.eqb_neq _ _) Hn). induction chs as [|c chs IH]; [destruct Hc as (c & Hc & _); by apply elem_of_nil in Hc|].
  cbn [send_data_to_channel]. destruct (ch_conn c =? conn) eqn:E; [eauto|]. apply Z.eqb_neq in E.
  destruct IH as [chs' ->]; [|eauto]. destruct Hc as (c' & [->|H]%elem_of_cons & Hc'); [done|eauto].
Qed.

(** The list of a copy, as the other side shows it. *)
Lemma shown c nonce conn now ctx : Forall sendable c.(file_list) -> zlen nonce = 16 -> zlen c.(file_list) < 2 ^ 32 ->
  build_file_list_pdu c.(file_list) nonce = Ok c.(files_pdu) -> c.(id) = file_list_id c.(files_pdu) ->
  let files := describe conn c.(id) <$> c.(file_list) in
  exists urls, ctx_format_data_response_to_urls now ctx c.(files_pdu) conn =
    (mkContext (mkServer (wrap 64 (ctx.(server).(generation) + 1)) (tree_spec now files) ctx.(server).(file_handle_counter) ctx.(server).(rx))
       ctx.(mount_point) conn, Ok urls).
Proof.
  intros Hs Hn Hc Hb Hi. cbv zeta. destruct (pdu_parses _ _ _ conn Hs Hn Hc Hb) as [_ Hp]. rewrite <- Hi in Hp.
  unfold ctx_format_data_response_to_urls. rewrite Hp. unfold load_file_list. rewrite build_tree_spec; [eauto|].
  apply Forall_fmap. eapply Forall_impl; [exact Hs|]. intros f Hf. change (is_Some (file_name f.(descriptor_name))).
  destruct (normalized_file_name (descriptor_name f)) as (n & -> & _); [by apply validate_normalized, s_name|eauto].
Qed.

Lemma opens self i n : node self i = Some n -> n.(attributes).(at_kind) = TFile -> n.(gc) = false -> n.(file_handlers) = [] ->
  exists srv n', open self i = (srv, ROpened self.(file_handle_counter)) /\ node srv i = Some n' /\ n' = set_handlers n [self.(file_handle_counter)] /\
  srv.(rx) = self.(rx).
Proof.
  intros Hn Hk Hg Hh. unfold open, open_as. rewrite Hn, Hk, bool_decide_eq_true_2, Hg by done. cbn [negb]. rewrite Hh. cbn [app].
  eexists _, _. split; [done|]. split; [|split; [done|done]]. unfold node, zget in *. unfold set_node. cbn [Fuse.nodes].
  destruct (0 <=? i - 1); [|done]. rewrite list_lookup_insert_eq; [done|]. by eapply lookup_lt_Some.
Qed.

(** What a side puts on the wire for a request, as the reader of the other side gets it. *)
Definition answers (fs : Fs) (env : Env) (p : Side) (request : ClipboardFile) (conn : Z) : list ClipboardFile :=
  to_reader (serve_clip_messages fs env p false request conn).1.2.

(** The copied list after its first request: sent, current, and what the other side shows. *)
Lemma copied fs host host1 host2 fl nonce c conn pdu : lists_ok fs host ->
  sync_files fs host fl nonce = Some (host1, Ok tt) -> built fs host fl nonce = Some c ->
  Forall sendable c.(file_list) -> zlen nonce = 16 -> zlen c.(file_list) < 2 ^ 31 -> get_file_list_pdu host1 conn = (host2, pdu) ->
  lists_ok fs host2 /\ pdu = c.(files_pdu) /\ kept (set_served_to c [conn]) 0 host2.
Proof.
  intros Hok Hs Hb Hsend Hn Hlen Hg. destruct (built_list _ _ _ _ _ Hb) as (_ & _ & Hsv & Hpdu & _).
  pose proof (sync_files_built fs host fl nonce) as E. rewrite Hs, Hb in E. subst host1.
  pose proof (table_step_ok fs host (ESync fl nonce) Hok) as Hok1. cbn [step fst] in Hok1. rewrite Hs in Hok1.
  pose proof (table_step_ok fs _ (EPdu conn) Hok1) as Hok2. cbn [step fst] in Hok2. rewrite Hg in Hok2.
  destruct (pdu_parses _ _ _ conn Hsend Hn ltac:(lia) Hpdu) as [Hz _].
  unfold get_file_list_pdu in Hg. cbn [CLIP_FILES RETIRED_CLIP_FILES] in Hg. injection Hg as <- <-. split; [done|]. split; [done|]. left. split; [done|].
  cbn [CLIP_FILES]. rewrite Hsv. destruct (files_pdu c); [cbn in Hz; lia|]. apply same_refl.
Qed.

Lemma answer_reaches fs env p conn s idx i f o n c sel : lists_ok fs p.(lists) ->
  select_clip_files (CLIP_FILES p.(lists)) (RETIRED_CLIP_FILES p.(lists)) conn (Some i) = Some sel -> selected p.(lists) sel = Some c ->
  zget c.(file_list) idx = Some f -> servable fs f -> in_u 31 idx -> 0 <= o < 2 ^ 63 -> o <= f.(size) -> in_u 32 n ->
  served_length f o n <= MAX_RANGE_READ ->
  answers fs env p (FileContentsRequest s idx 2 (position_low o) (position_high o) (requested n) true i) conn =
    [FileContentsResponse 1 s (slice o (served_length f o n) (content fs f))].
Proof.
  intros Hok Hsel Hc Hz Hf Hidx Ho Hsz Hn Hmax.
  destruct (read_answer fs _ sel c conn s idx (Some i) f o n Hok Hsel Hc Hz Hf Hidx Ho Hsz Hn Hmax) as (audit & Ha & Hau).
  unfold answers. cbn [serve_clip_messages].
  destruct (read_file_contents fs (lists p) conn s idx 2 (position_low o) (position_high o) (requested n) (Some i)) as [l res].
  cbn [fst snd] in *. subst res. destruct Hau as [-> | [l' ->]]; done.
Qed.

(** What a read of a tree's file sends, and what it returns on an answer. *)
Lemma read_served chs self s stale ino fh off size n data : node self ino = Some n -> fh ∈ n.(file_handlers) ->
  n.(attributes).(at_kind) = TFile -> n.(gc) = false -> n.(n_conn) <> 0 -> (exists ch, ch ∈ chs /\ ch.(ch_conn) = n.(n_conn)) ->
  Forall (is_stale s) (self.(rx) ++ stale) ->
  exists chs' srv', send_data chs n.(n_conn) (contents_request s n off size) = (chs', Ok tt) /\
    read chs self s (stale ++ [FileContentsResponse 1 s data]) ino fh off size = (chs', srv', RData data).
Proof.
  intros Hn Hfh Hk Hg Hc Hch Hst. destruct (send_reaches chs _ (contents_request s n off size) Hch Hc) as [chs' Hs].
  eexists chs', _. split; [done|]. unfold read. rewrite Hn. unfold have_handler. rewrite (bool_decide_eq_true_2 _ Hfh), Hk, bool_decide_eq_true_2, Hg by done.
  cbn [negb]. unfold read_node. rewrite Hs, app_assoc, replies_skip by done. rewrite replies_answer by done. done.
Qed.

End Paste.
End Paste.
