(* ===== verification/ClipTheorems.v ===== *)
(** File clipboard: the theorems on its parts, concrete inputs for them, and what the models
    showed. *)

From Stdlib Require Import Ascii Sorted.
From S2P Require Import Prelude TermBuffer PathFs FsJob FsWalk FsSafe ClipDesc ClipServe ClipHost ClipWalk ClipLists.
From S2P Require Import ClipFuse ClipTree ClipRead ClipMount ClipPaste.
Import Utf8 Path Fs Desc DescFacts Serve LocalFiles ClipWalk ClipLists Fuse ClipTree FuseFacts Mount Paste.

Module ClipTheorems.

(** ** A platform and files to try *)

(** UTF-16 of ASCII text. *)
#[export] Instance ascii_utf16 : Utf16 := {
  utf16le s := concat ((fun b => [b; 0]) <$> as_bytes s);
  from_utf16le := fix go (l : list Z) :=
    match l with
    | [] => Some ""%string
    | a :: b :: l => if (b =? 0) && between 1 127 a then (fun s => String (ascii_of_N (Z.to_N a)) s) <$> go l else None
    | _ => None
    end
}.

#[export] Instance plain_os : Os := {
  file_modified _ _ := Some 1700000000000000000;
  file_mode _ _ := 420;
  dir_len _ _ := 4096;
  dir_modified _ _ := Some 1700000000000000000;
  dir_mode _ _ := 493;
  may_open _ _ := true;
  may_list _ _ := true;
  may_read _ _ := true
}.

(** [/h/d] holds [x]; [/h/e] holds a link to itself. *)
Definition demo_fs : Fs :=
  mkFs (list_to_map [(["h"], NDir); (["h"; "d"], NDir); (["h"; "d"; "x"], NFile 0); (["h"; "e"], NDir); (["h"; "e"; "l"], NLink "/h/e")])%string
    (list_to_map [(0%nat, mkInode [1; 2; 3; 4; 5] 1700000000)]) 1 [] 0.

Definition demo_nonce : list Z := [1; 2; 3; 4; 5; 6; 7; 8; 9; 10; 11; 12; 13; 14; 15; 16].
Definition demo_copy : ClipFiles :=
  match built demo_fs lists_default ["/h/d"%string] demo_nonce with Some c => c | None => clip_default end.

Lemma ascii_utf16_ok s : forallb (between 1 127) (as_bytes s) = true ->
  from_utf16le (utf16le s) = Some s -> zlen (as_bytes s) = utf16_count s -> utf16_ok s.
Proof.
  intros Ha Hr Hc. constructor; [|done]. exists (as_bytes s). rewrite forallb_forall in Ha.
  assert (Hf : Forall (fun u => 1 <= u <= 127) (as_bytes s)).
  { apply Forall_forall. intros x Hx. apply list_elem_of_In, Ha in Hx. unfold between in Hx. bool_to_prop. lia. }
  split_and!; [|eapply Forall_impl; [exact Hf|intros; cbn in *; lia]|done]. unfold utf16le, units. cbn. f_equal.
  clear -Hf. induction Hf as [|u l Hu _ IH]; [done|]. rewrite !fmap_cons, IH. do 2 f_equal; [|f_equal]; divlia.
Qed.

Lemma demo_sendable : Forall sendable demo_copy.(file_list).
Proof.
  assert (H : forall f, validate_file_name f.(descriptor_name) = Ok tt -> utf16_count f.(descriptor_name) <= 259 ->
    forallb (between 1 127) (as_bytes f.(descriptor_name)) = true -> from_utf16le (utf16le f.(descriptor_name)) = Some f.(descriptor_name) ->
    zlen (as_bytes f.(descriptor_name)) = utf16_count f.(descriptor_name) -> str_any (fun a => Ascii.eqb a "\") f.(descriptor_name) = false ->
    in_ub 64 f.(size) = true -> (f.(last_write_time) <? 1800000000000000000000) = true -> sendable f).
  { intros f H1 H2 H3 H4 H5 H6 H7 H8. constructor; [done|done|by apply ascii_utf16_ok|done|by apply in_ub_spec|by apply Z.ltb_lt]. }
  rewrite (ltac:(vm_compute; reflexivity) : file_list demo_copy = _). repeat constructor; apply H; by vm_compute.
Qed.

(** ** The list *)

(** C33: the list of the copied files is a round trip.  Whatever files are offered, as long as
    their names are names the format can carry, the side that pastes reads the same files in the
    same order, each with its name, kind, size, mode and time to the 100 nanoseconds, whatever the
    random bytes that make one copy different from the next, and marked with the id that requests
    for it will carry. *)
Theorem list_roundtrip {U : Utf16} files nonce conn : Forall sendable files -> zlen nonce = 16 -> zlen files < 2 ^ 32 ->
  exists pdu, build_file_list_pdu files nonce = Ok pdu /\
    parse_file_descriptors pdu conn = Ok (describe conn (file_list_id pdu) <$> files).
Proof.
  intros Hf Hn Hc. destruct (build_ok files nonce Hf) as [pdu Hp]. exists pdu. split; [done|]. by eapply pdu_parses.
Qed.

Lemma list_roundtrip_witness : exists pdu, build_file_list_pdu demo_copy.(file_list) demo_nonce = Ok pdu /\
  parse_file_descriptors pdu 7 = Ok (describe 7 (file_list_id pdu) <$> demo_copy.(file_list)).
Proof. apply (list_roundtrip demo_copy.(file_list) demo_nonce 7); [exact demo_sendable|done|by vm_compute]. Defined.

(** C34: a list from the peer cannot give a malformed tree.  From any bytes that are accepted as
    a list, the tree is built; it has one node for each of the list's entries, of which there are
    no more than the bytes that describe them; every node but the root has a parent that came
    before it, that is a directory and that counts it among its children; children come after
    their parents, so there are no cycles; every name is a plain name, not empty, not "." or "..",
    without a separator; and every node asks for its own index of its own list, on the connection
    the list came from. *)
Theorem tree_safe {U : Utf16} now pdu conn ds : parse_file_descriptors pdu conn = Ok ds ->
  exists tree, build_tree now ds = Ok tree /\ length tree = S (length ds) /\ 592 * zlen ds <= zlen pdu /\
  (forall i d, ds !! i = Some d -> exists n p parent, tree !! S i = Some n /\ n.(n_parent) = Some p /\ 1 <= p <= Z.of_nat i + 1 /\
     zget tree (p - 1) = Some parent /\ parent.(attributes).(at_kind) = TDirectory /\ Z.of_nat i + 2 ∈ parent.(children) /\
     comp_of n.(n_name) = Some (Normal n.(n_name)) /\ str_any is_slash n.(n_name) = false /\
     n.(index) = Z.of_nat i /\ n.(n_conn) = conn /\ n.(n_list) = file_list_id pdu) /\
  (forall j n c, tree !! j = Some n -> c ∈ n.(children) -> Z.of_nat j + 1 < c <= zlen tree).
Proof.
  intros Hp. unfold parse_file_descriptors in Hp. destruct (_ <? 4) eqn:E4; [done|]. apply Z.ltb_ge in E4.
  assert (H : Forall (fun d => validate_file_name d.(d_name) = Ok tt /\ d.(conn_id) = conn /\ d.(clip_data_id) = file_list_id pdu) ds /\ 592 * zlen ds <= zlen pdu).
  { destruct (_ && _); [injection Hp as <-; split; [constructor|cbn; lia]|]. destruct (negb _) eqn:En; [done|].
    apply negb_false_iff, Z.eqb_eq in En. destruct (parse_n_names _ _ _ _ _ Hp) as [Hl Hf]. split; [done|].
    unfold FILE_DESCRIPTOR_SIZE in En. pose proof (Readers.length_zdrop 4 pdu). lia. }
  clear Hp. destruct H as [Hf Hl]. assert (Hn : Forall (fun d => is_Some (file_name d.(d_name))) ds).
  { eapply Forall_impl; [exact Hf|]. intros d (Hd & _). apply validate_normalized, normalized_file_name in Hd as (n & -> & _). eauto. }
  exists (tree_spec now ds). split; [by apply build_tree_spec|]. split; [unfold tree_spec; cbn; by rewrite length_imap|]. split; [done|]. split.
  - intros i d Hd. pose proof (lookup_lt_Some _ _ _ Hd) as Hlt. pose proof (parent_range (take i ds) d) as Hr. rewrite length_take in Hr.
    destruct (Forall_lookup_1 _ _ _ _ Hf Hd) as (Hv & Hc & Hi). apply validate_normalized, normalized_file_name in Hv as (base & Hb & Hin & Hcomp).
    set (p := parent_spec (take i ds) d) in *.
    assert (Hpar : exists parent, zget (tree_spec now ds) (p - 1) = Some parent /\ at_kind (attributes parent) = TDirectory /\ children parent = children_spec ds p).
    { unfold zget. rewrite (proj2 (Z.leb_le _ _)) by lia. destruct (Z.eq_dec p 1) as [Hp1|Hp1]; [rewrite Hp1; by eexists|].
      unfold p, parent_spec in Hp1. destruct (parent _) as [q|] eqn:Eq; [|done]. destruct (Serve.rfind _ _) as [j|] eqn:Ej; [|done].
      assert (Hpj : p = Z.of_nat j + 2) by (unfold p, parent_spec; by rewrite Eq, Ej). apply rfind_Some in Ej as (x & Hx & Hxd).
      rewrite lookup_take_Some in Hx. destruct Hx as [Hx _]. exists (node_spec now ds j x). rewrite Hpj.
      replace (Z.to_nat (Z.of_nat j + 2 - 1)) with (S j) by lia. split; [by apply tree_node|]. split; [|done]. cbn.
      unfold is_dir_at in Hxd. by bool_to_prop. }
    destruct Hpar as (parent & Hz & Hk & Hch). exists (node_spec now ds i d), p, parent. rewrite (tree_node _ _ _ _ Hd). cbn. unfold base_name. rewrite Hb.
    split_and!; try done; [lia|lia| |by eapply PathFacts.split_no_sep]. rewrite Hch. apply children_elem. eauto.
  - intros j n c Hj Hc. unfold tree_spec in Hj |- *. rewrite lookup_cons in Hj. cbn [length]. rewrite length_imap.
    assert (Hsp : c ∈ children_spec ds (Z.of_nat j + 1)).
    { destruct j as [|j]; [by injection Hj as <-|]. rewrite list_lookup_imap in Hj. apply fmap_Some in Hj as (d & _ & ->). cbn in Hc.
      by replace (Z.of_nat (S j) + 1) with (Z.of_nat j + 2) by lia. }
    apply children_elem in Hsp as (i & d & Hd & -> & Hp). pose proof (lookup_lt_Some _ _ _ Hd). pose proof (parent_range (take i ds) d) as Hr.
    rewrite length_take in Hr. lia.
Qed.

Lemma tree_safe_witness : exists tree, build_tree 0 (describe 7 demo_copy.(id) <$> demo_copy.(file_list)) = Ok tree /\ length tree = 3%nat /\
  (forall j n c, tree !! j = Some n -> c ∈ n.(children) -> Z.of_nat j + 1 < c <= zlen tree).
Proof.
  assert (H : parse_file_descriptors demo_copy.(files_pdu) 7 = Ok (describe 7 demo_copy.(id) <$> demo_copy.(file_list))) by (vm_compute; reflexivity).
  destruct (tree_safe 0 demo_copy.(files_pdu) 7 _ H) as (tree & H1 & H2 & _ & _ & H3). exists tree. split; [exact H1|]. split; [exact H2|exact H3].
Defined.

(** ** The walk *)

(** C35: collecting a selection always ends, and finds exactly what is there.  For absolute
    paths on any file system, links and loops of links included, the walk returns; if it succeeds,
    the list is, for each selected path in turn, that path followed by everything below it: every
    entry of every listed directory is there, every listed file is the selected one or an entry of
    a listed directory, none twice, and each is described as it is, under a name the list can
    carry. *)
Theorem construct_exact {U : Utf16} {OS : Os} fs paths : WalkFacts.names_ok fs -> Forall (fun p => is_absolute p = true) paths ->
  exists r, construct_file_list fs paths = Some r /\
  forall l, r = Ok l -> exists ls, l = concat ls /\ Forall2 (selection fs) paths ls /\ list_ok fs l /\
    Forall (fun f => validate_file_name f.(descriptor_name) = Ok tt /\ utf16_count f.(descriptor_name) <= MAX_FILE_NAME_CODE_UNITS) l.
Proof.
  intros Hno Ha. assert (H : is_Some (construct_file_list fs paths)).
  { unfold construct_file_list. destruct paths; [eauto|]. by apply construct_each_some. }
  destruct H as [r Hr]. exists r. split; [done|]. intros l ->. by apply construct_list_ok.
Qed.

Lemma construct_exact_witness : exists ls, demo_copy.(file_list) = concat ls /\ Forall2 (selection demo_fs) ["/h/d"%string] ls /\ list_ok demo_fs demo_copy.(file_list).
Proof.
  destruct (construct_exact demo_fs ["/h/d"%string]) as (r & Hr & H).
  - apply WalkFacts.names_okb_ok. by vm_compute.
  - by repeat constructor.
  - destruct (H demo_copy.(file_list)) as (ls & H1 & H2 & H3 & _).
    + assert (Hc : construct_file_list demo_fs ["/h/d"%string] = Some (Ok demo_copy.(file_list))) by (vm_compute; reflexivity).
      rewrite Hc in Hr. by injection Hr as <-.
    + exists ls. split; [exact H1|]. split; [exact H2|exact H3].
Defined.

(** The guard against loops compares paths, and a link back makes the path longer each time: the
    walk of a directory with a link to itself ends with an error, and nothing can be copied. *)
Example link_loop_fails : match construct_file_list demo_fs ["/h/e"%string] with Some (Err (FileError _)) => True | _ => False end.
Proof. by vm_compute. Qed.

(** A hidden file is one whose path, not whose name, begins with a dot: an absolute path never does. *)
Lemma absolute_never_hidden {U : Utf16} {OS : Os} fs root p f : is_absolute p = true -> try_open fs root p = Ok f -> f.(hidden) = false.
Proof.
  intros Ha. unfold try_open. destruct (validated_descriptor_name _ _); [|done]. destruct (metadata _ _); [|done]. intros [= <-]. cbn [hidden].
  destruct p as [|x p]; [done|]. unfold is_absolute, is_slash in Ha. cbn [starts_with] in Ha. apply Ascii.eqb_eq in Ha as ->. done.
Qed.

(** ** The reader of the tree *)

(** C36: a read returns only the answer to its own request.  The bytes are those of a message
    that carries the read's own random number and says it succeeded; before it the read saw only
    answers, at most three of them refusals of this request, each of which it repeated; and the
    handle the read came with was open on that node. *)
Theorem read_own_answer chs self s arriving ino fh off size chs' self' bytes :
  read chs self s arriving ino fh off size = (chs', self', RData bytes) ->
  (exists n, node self ino = Some n /\ fh ∈ n.(file_handlers) /\ n.(attributes).(at_kind) = TFile) /\
  exists seen flags, self.(rx) ++ arriving = seen ++ FileContentsResponse flags s bytes :: self'.(rx) /\ Z.land flags 1 <> 0 /\
    Forall (fun m => exists s', is_answer s' m) seen /\ Z.of_nat (refusals s seen) <= READ_RETRY.
Proof.
  unfold read. destruct (node self ino) as [n|]; [|done]. unfold have_handler. destruct (bool_decide (fh ∈ _)) eqn:Eh; [|done]. cbn [negb].
  destruct (bool_decide (at_kind _ = _)) eqn:Ek; [|done]. cbn [negb]. destruct (gc n); [done|].
  destruct (read_node chs (rx self ++ arriving) n s off size) as [[chs1 rx1] [b|]] eqn:E; [|done]. intros [= <- <- <-]. bool_to_prop. split; [eauto|].
  unfold read_node in E. destruct (send_data chs (n_conn n) _) as [chs2 [u|]]; [|done].
  destruct (replies_Ok _ _ _ _ _ _ _ _ _ E) as (seen & flags & H1 & H2 & H3 & H4). exists seen, flags. cbn [rx]. split_and!; [done..|].
  unfold READ_RETRY in *. lia.
Qed.

Definition demo_tree : FuseServer :=
  match load_file_list 0 server_new (describe 7 demo_copy.(id) <$> demo_copy.(file_list)) with Ok s => (open s 3).1 | Err _ => server_new end.

Lemma read_own_answer_witness : exists seen flags,
  [FileContentsResponse 1 5 [9]; FileContentsResponse 2 6 []; FileContentsResponse 1 6 [1; 2]] =
    seen ++ FileContentsResponse flags 6 [1; 2] :: [] /\ Z.land flags 1 <> 0 /\ Z.of_nat (refusals 6 seen) <= READ_RETRY.
Proof.
  destruct (read_own_answer [mkChannel "" 7 []] demo_tree 6
    [FileContentsResponse 1 5 [9]; FileContentsResponse 2 6 []; FileContentsResponse 1 6 [1; 2]] 3 0 0 2 _ _ [1; 2] (ltac:(vm_compute; reflexivity)))
    as (_ & seen & flags & H1 & H2 & _ & H4).
  exists seen, flags. split; [exact H1|]. split; [exact H2|exact H4].
Defined.

(** A handle never reads from a later list.  Take any handle that was given out on one
    list; once another list has been loaded, and whatever the kernel and the peer do afterwards,
    reading it, or listing it, on any node is an error and sends nothing: a paste that is still
    running when the clipboard changes ends with an error, not with the bytes of another file. *)
Theorem stale_handles self0 want wrong ino0 self fh chs cs1 now files self2 cs2 : server_ok self0 ->
  open_as want wrong self0 ino0 = (self, ROpened fh) ->
  let st1 := calls chs self cs1 in load_file_list now st1.2 files = Ok self2 ->
  self0.(file_handle_counter) + zlen cs1 + zlen cs2 + 2 < 2 ^ 64 ->
  let st := calls st1.1 self2 cs2 in
  forall s arriving ino off size room,
    (exists e, (read st.1 st.2 s arriving ino fh off size).2 = RError e) /\
    (read st.1 st.2 s arriving ino fh off size).1.1 = st.1 /\
    exists e, readdir st.2 ino fh off room = RError e.
Proof.
  cbv zeta. intros Hok Ho Hl Hc s arriving ino off size room.
  destruct (open_as_ok want wrong self0 ino0 Hok) as [Hok1 Hc1]; [lia|]. rewrite Ho in Hok1, Hc1. cbn [fst] in Hok1, Hc1.
  assert (Hfh : 0 <= fh < file_handle_counter self).
  { unfold open_as in Ho. destruct (node self0 ino0); [|done]. destruct (negb _); [done|]. destruct (gc _); [done|]. injection Ho as <- <-.
    destruct Hok. cbn. rewrite wrap_small by (unfold in_u; lia). lia. }
  destruct (calls_ok cs1 chs self Hok1) as (Hok2 & Hc2 & _); [lia|]. set (st1 := calls chs self cs1) in *.
  destruct (load_ok _ _ _ _ Hl) as [Hc3 Hnone].
  assert (Hmono : file_handle_counter self <= file_handle_counter st1.2).
  { unfold st1. clear -Hok1 Hc1 Hc. assert (Hb : file_handle_counter self + zlen cs1 < 2 ^ 64) by lia. clear Hc Hc1. revert chs self Hok1 Hb.
    induction cs1 as [|c cs IH]; intros chs self Hok Hb; [done|]. destruct (call_ok chs self c Hok) as (A & B & _); [cbn [length] in Hb; lia|].
    unfold calls in *. cbn [foldl fst snd]. destruct (call chs self c) as [chs1 self1]. cbn [fst snd] in *. cbn [length] in Hb. specialize (IH chs1 self1 A). lia. }
  pose proof (loaded_ok _ _ _ _ Hok2 Hl) as Hok3.
  destruct (calls_ok cs2 st1.1 self2 Hok3) as (_ & _ & Hforg); [lia|].
  assert (Hgone : forgotten (file_handle_counter self) (calls st1.1 self2 cs2).2).
  { apply Hforg; [lia|]. intros i n x Hi. rewrite (Hnone n) by (by eapply list_elem_of_lookup_2). by intros ?%elem_of_nil. }
  set (st := calls st1.1 self2 cs2) in *. unfold read, readdir. destruct (node st.2 ino) as [n|] eqn:En; [|split_and!; eauto].
  assert (Hno : have_handler n fh = false).
  { unfold have_handler. apply bool_decide_eq_false_2. intros Hin. apply zget_Some in En. specialize (Hgone _ _ _ En Hin). lia. }
  rewrite Hno. cbn [negb]. split_and!; eauto.
Qed.

Definition demo_loaded : FuseServer :=
  match load_file_list 0 server_new (describe 7 demo_copy.(id) <$> demo_copy.(file_list)) with Ok s => s | Err _ => server_new end.

Lemma stale_handles_witness : exists e, (read [] demo_loaded 1 [] 3 0 0 10).2 = RError e.
Proof.
  assert (H0 : server_ok demo_loaded) by (apply (loaded_ok 0 server_new (describe 7 demo_copy.(id) <$> demo_copy.(file_list))); [exact server_new_ok|vm_compute; reflexivity]).
  destruct (stale_handles demo_loaded TFile ENFILE 3 (open demo_loaded 3).1 0 [] [] 0 (describe 7 demo_copy.(id) <$> demo_copy.(file_list))
    (mkServer 2 demo_loaded.(Fuse.nodes) 1 []) [] H0) with (s := 1) (arriving := @nil ClipboardFile) (ino := 3) (off := 0) (size := 10) (room := 0%nat)
    as ([e He] & _); [vm_compute; reflexivity|vm_compute; reflexivity|vm_compute; reflexivity|].
  exists e. vm_compute in He |- *. exact He.
Defined.

(** ** The whole way *)

(** C5: a file copied on one side and pasted on the other is read as it is.  After a copy and
    one request for its list, and through any later messages and at most four later copies on the
    side that offers it, the tree of the pasting side has a node for every file; the node opens,
    and a read of it at any position sends a request whose answers make the read return exactly
    the file's bytes at that position, up to the end of the file, even when answers to earlier
    reads that gave up are still in the channel. *)
Theorem paste_faithful {U : Utf16} {OS : Os} fs host host1 host2 host3 fl nonce c conn pdu evs ids now ctx vconn :
  lists_ok fs host -> sync_files fs host fl nonce = Some (host1, Ok tt) -> built fs host fl nonce = Some c ->
  Forall sendable c.(file_list) -> zlen nonce = 16 -> zlen c.(file_list) < 2 ^ 31 ->
  get_file_list_pdu host1 conn = (host2, pdu) ->
  steps fs host2 evs = (host3, ids) -> (length ids <= 4)%nat -> c.(id) ∉ ids -> vconn <> 0 ->
  exists ctx' urls, ctx_format_data_response_to_urls now ctx pdu vconn = (ctx', Ok urls) /\
  forall idx f, c.(file_list) !! idx = Some f -> servable fs f ->
  exists srv fh, open ctx'.(server) (Z.of_nat idx + 2) = (srv, ROpened fh) /\
  forall env p chs s off len stale, p.(lists) = host3 -> (exists ch, ch ∈ chs /\ ch.(ch_conn) = vconn) ->
    0 <= off < 2 ^ 63 -> off <= f.(size) -> in_u 32 len -> served_length f off len <= MAX_RANGE_READ ->
    Forall (is_stale s) (ctx.(server).(rx) ++ stale) ->
  exists request chs' srv', send_data chs vconn request = (chs', Ok tt) /\
    read chs srv s (stale ++ answers fs env p request conn) (Z.of_nat idx + 2) fh off len =
      (chs', srv', RData (slice off (served_length f off len) (content fs f))).
Proof.
  intros Hok Hs Hb Hsend Hn Hlen Hg Hst Hids Hfresh Hv.
  destruct (copied _ _ _ _ _ _ _ _ _ Hok Hs Hb Hsend Hn Hlen Hg) as (Hok2 & -> & Hk). destruct (built_list _ _ _ _ _ Hb) as (_ & _ & _ & Hpdu & Hid).
  destruct (kept_steps fs (set_served_to c [conn]) evs 0 host2 host3 ids Hok2 Hk) as [Hok3 Hk3]; [done|done|done|done|].
  destruct (shown c nonce vconn now ctx Hsend Hn ltac:(lia) Hpdu Hid) as [urls Hu].
  eexists _, urls. split; [exact Hu|]. cbn [server]. set (files := describe vconn (id c) <$> file_list c). set (self := mkServer _ _ _ _).
  intros idx f Hf Hsv. assert (Hd : files !! idx = Some (describe vconn c.(id) f)) by (unfold files; by rewrite list_lookup_fmap, Hf).
  pose proof (lookup_lt_Some _ _ _ Hf) as Hlt. set (n := node_spec now files idx (describe vconn c.(id) f)).
  assert (Hnode : node self (Z.of_nat idx + 2) = Some n).
  { unfold node, zget, self. cbn [Fuse.nodes]. rewrite (proj2 (Z.leb_le _ _)) by lia.
    replace (Z.to_nat (Z.of_nat idx + 2 - 1)) with (S idx) by lia. by apply tree_node. }
  assert (Hkind : at_kind (attributes n) = TFile) by (unfold n; cbn; by rewrite (sv_file _ _ Hsv)).
  destruct (opens self (Z.of_nat idx + 2) n Hnode Hkind eq_refl eq_refl) as (srv & n' & Ho & Hn' & E' & Hrx).
  eexists srv, _. split; [exact Ho|]. intros env p chs s off len stale Hp Hch Hoff Hsz Hl Hmax Hstale.
  destruct (kept_selected _ _ _ conn Hk3) as (sel & c' & Hsel & Hc' & Hsame); [by left|].
  destruct (forget_lookup _ _ _ _ (sm_files _ _ Hsame) Hf) as (f' & Hf' & Hff). destruct (forget_fields _ _ Hff) as (Fp & Fs & _).
  assert (Ha : forall l, answers fs env p (contents_request s n off len) conn = l -> l = [FileContentsResponse 1 s (slice off (served_length f off len) (content fs f))]).
  { intros l <-. unfold contents_request, n. cbn [index n_list node_spec describe Desc.clip_data_id].
    assert (Hi : swrap 32 (Z.of_nat idx) = Z.of_nat idx) by (unfold swrap; change (32 - 1) with 31; pow2; divlia). rewrite Hi.
    replace (served_length f off len) with (served_length f' off len) by (unfold served_length; by rewrite Fs).
    replace (content fs f) with (content fs f') by (unfold content; by rewrite Fp).
    eapply answer_reaches; [by rewrite Hp|rewrite Hp; exact Hsel|rewrite Hp; exact Hc'| |by eapply servable_forget|unfold in_u; lia|done|by rewrite Fs|done|by unfold served_length; rewrite Fs].
    unfold zget. rewrite (proj2 (Z.leb_le _ _)) by lia. by rewrite Nat2Z.id. }
  destruct (read_served chs srv s stale (Z.of_nat idx + 2) (file_handle_counter self) off len n' (slice off (served_length f off len) (content fs f)))
    as (chs' & srv' & Hsent & Hread); subst n'; [exact Hn'|by apply list_elem_of_singleton|exact Hkind|done|exact Hv|exact Hch|by rewrite Hrx|].
  exists (contents_request s n off len), chs', srv'. split; [exact Hsent|].
  by rewrite (Ha _ eq_refl).
Qed.

Definition demo_host : Lists := match sync_files demo_fs lists_default ["/h/d"%string] demo_nonce with Some (st, _) => st | None => lists_default end.
Definition demo_run : Lists := (steps demo_fs (get_file_list_pdu demo_host 3).1 [ERead 3 9 1 2 0 0 2 (Some demo_copy.(id)); EPdu 4]).1.
Definition demo_look : Look := mkLook (StatOk false) (StatOk false) (StatOk false) None.
Definition demo_env : Env := mkEnv 0 "/tmp/x" demo_look (mkAttempt demo_look demo_look demo_look true true true true).

Lemma demo_servable f : f.(Desc.is_dir) = false -> servable demo_fs f.
Proof. intros Hd. constructor; [exact Hd|by split|]. intros i _. by eexists. Qed.

(** A read of four bytes from the second on, after another connection's read and request. *)
Lemma paste_faithful_witness : exists ctx' urls srv fh, ctx_format_data_response_to_urls 0 (new_context "/tmp/x") demo_copy.(files_pdu) 7 = (ctx', Ok urls) /\
  open ctx'.(server) 3 = (srv, ROpened fh) /\
  exists request chs' srv', send_data [mkChannel "" 7 []] 7 request = (chs', Ok tt) /\
    read [mkChannel "" 7 []] srv 6 ([FileContentsResponse 1 5 [9]] ++ answers demo_fs demo_env (mkSide demo_run None None) request 3) 3 fh 1 4 =
      (chs', srv', RData [2; 3; 4; 5]).
Proof.
  destruct (paste_faithful demo_fs lists_default demo_host (get_file_list_pdu demo_host 3).1 demo_run ["/h/d"%string] demo_nonce demo_copy 3 demo_copy.(files_pdu)
    [ERead 3 9 1 2 0 0 2 (Some demo_copy.(id)); EPdu 4] [] 0 (new_context "/tmp/x") 7) as (ctx' & urls & Hu & H).
  - constructor; [constructor|constructor|cbn; lia].
  - by vm_compute.
  - by vm_compute.
  - exact demo_sendable.
  - done.
  - by vm_compute.
  - by vm_compute.
  - by vm_compute.
  - cbn. lia.
  - apply not_elem_of_nil.
  - done.
  - destruct (H 1%nat (mkLocal "/h/d/x" None 0 "d/x" 5 1700000000000000000 false 420 false false false false true)) as (srv & fh & Ho & Hr).
    + by vm_compute.
    + by apply demo_servable.
    + destruct (Hr demo_env (mkSide demo_run None None) [mkChannel "" 7 []] 6 1 4 [FileContentsResponse 1 5 [9]]) as (request & chs' & srv' & H1 & H2).
      * done.
      * eexists. split; [by left|done].
      * lia.
      * cbn. lia.
      * unfold in_u. lia.
      * by vm_compute.
      * cbn [app new_context server server_new rx]. repeat constructor. exists 5. split; [done|]. by eexists _, _.
      * exists ctx', urls, srv, fh. split; [exact Hu|]. split; [exact Ho|]. exists request, chs', srv'. split; [exact H1|].
        rewrite (ltac:(vm_compute; reflexivity) : [2; 3; 4; 5] = slice 1 (served_length (mkLocal "/h/d/x" None 0 "d/x" 5 1700000000000000000 false 420 false false false false true) 1 4)
          (content demo_fs (mkLocal "/h/d/x" None 0 "d/x" 5 1700000000000000000 false 420 false false false false true))). exact H2.
Defined.

(** ** The mount *)

(** The program's own name has a blank in it, and so has the directory it mounts in; the kernel
    writes that blank as "\040". *)
Definition own_mount : string := "/tmp/Fontis Remote-1000/cliprdr-client".
Definition own_mountinfo : list Z :=
  as_bytes "123 29 0:45 / /tmp/Fontis\040Remote-1000/cliprdr-client rw,nosuid,nodev - fuse.rustdesk-cliprdr-fs rustdesk-cliprdr-fs rw".

(** The table lists the mount, and it is taken for not mounted. *)
Example own_mount_not_recognised :
  inspect_mount_point_state own_mount (mkLook (StatOk false) (StatOk false) (StatOk false) (Some own_mountinfo)) = NotMounted.
Proof. by vm_compute. Qed.

(** So every list from the peer ends the mount there is, with what was being read from it, and
    makes a new one. *)
Lemma blank_remounts mp seen a ctx l p : 32 ∈ lossy (as_bytes mp) ->
  seen = mkLook (StatOk false) (StatOk false) (StatOk l) (Some p) -> ctx.(mount_point) = mp ->
  inspect_mount_point_state mp a.(a_look) = NotMounted -> a.(a_prepare) = mkLook (StatOk false) (StatOk false) (StatOk false) None ->
  a.(a_parent_created) = true -> a.(a_created) = true -> a.(a_spawned) = true ->
  init_fuse_context mp seen a (Some ctx) = (Some (new_context mp), Ok tt).
Proof.
  intros Hb -> Hm Ha Hp H1 H2 H3. unfold init_fuse_context. rewrite Hm.
  assert (Hn : inspect_mount_point_state mp (mkLook (StatOk false) (StatOk false) (StatOk l) (Some p)) = NotMounted)
    by (unfold inspect_mount_point_state; cbn; by rewrite blank_not_listed).
  rewrite Hn. unfold mount_now. rewrite Ha, Hp, H1, H2, H3. done.
Qed.

End ClipTheorems.
