(* ===== verification/SessMsg.v ===== *)
(** The messages a connection receives ([src/libs/base/protos/message.proto]) and the filter
    on what an authorized session may send ([authorized_message_scope_violation] and its
    helpers, [src/src/server/connection.rs]). *)

From S2P Require Import Prelude MuxWindow FsJob TermService.

Module Msgs.

(** ** Enumerations

    The protobuf library keeps the number of an enumeration ([EnumOrUnknown]); [enum_value]
    reads it. *)

Inductive BoolOption := NotSet | No | Yes.
Inductive ImageQuality := QNotSet | QLow | QBalanced | QBest.

#[global] Instance BoolOption_eq_dec : EqDecision BoolOption.
Proof. solve_decision. Defined.
#[global] Instance ImageQuality_eq_dec : EqDecision ImageQuality.
Proof. solve_decision. Defined.

Definition bool_option (n : Z) : option BoolOption :=
  match n with 0 => Some NotSet | 1 => Some No | 2 => Some Yes | _ => None end.
Definition bool_number (b : BoolOption) : Z := match b with NotSet => 0 | No => 1 | Yes => 2 end.
Definition image_quality (n : Z) : option ImageQuality :=
  match n with 0 => Some QNotSet | 2 => Some QLow | 3 => Some QBalanced | 4 => Some QBest | _ => None end.

(** ** Login messages *)

Inductive LoginUnion :=
| UFileTransfer (dir : string) (show_hidden : bool)
| UViewCamera
| UTerminal (service_id : string)
| UPortForward (host : string) (port : Z) (multiplex : bool)
| UUnknown.

(** [supported_decoding] is a sub-message: its bytes, if present. *)
Record OptionMessage := mkOptions {
  o_image_quality : Z;
  o_lock_after_session_end : Z;
  o_show_remote_cursor : Z;
  o_privacy_mode : Z;
  o_block_input : Z;
  o_custom_image_quality : Z;
  o_disable_audio : Z;
  o_disable_clipboard : Z;
  o_enable_file_transfer : Z;
  o_supported_decoding : option (list Z);
  o_custom_fps : Z;
  o_disable_keyboard : Z;
  o_follow_remote_cursor : Z;
  o_follow_remote_window : Z;
  o_disable_camera : Z;
  o_terminal_persistent : Z;
  o_show_my_cursor : Z
}.
(** [OptionMessage::new()] *)
Definition options_default : OptionMessage := mkOptions 0 0 0 0 0 0 0 0 0 None 0 0 0 0 0 0 0.

Record LoginRequest := mkLogin {
  username : string;
  password : list Z;
  my_id : string;
  my_name : string;
  my_platform : string;
  version : string;
  session_id : Z;
  hwid : list Z;
  os_username : string;
  os_password : string;
  lr_option : option OptionMessage;
  lr_video_ack_required : bool;
  lr_union : option LoginUnion
}.
Definition login_default : LoginRequest := mkLogin "" [] "" "" "" "" 0 [] "" "" None false None.

(** ** Input *)

Record MouseEvent := mkMouse { me_mask : Z; me_x : Z; me_y : Z; me_modifiers : list Z }.
Inductive KeyUnion := ControlKey (k : Z) | Chr (c : Z) | Unicode (c : Z) | Seq (s : string) | Win2win (k : Z).
Record KeyEvent := mkKey { k_down : bool; k_press : bool; k_union : option KeyUnion; k_modifiers : list Z; k_mode : Z }.

(** ** File transfer *)

Inductive FileAction :=
| FaReadEmptyDirs (path : string) (include_hidden : bool)
| FaReadDir (path : string) (include_hidden : bool)
| FaAllFiles (id : Z) (path : string) (include_hidden : bool)
| FaSend (id : Z) (path : string) (include_hidden : bool) (file_num file_type : Z)
| FaReceive (id : Z) (path : string) (files : list Names.FileEntry) (file_num total_size : Z)
| FaRemoveDir (id : Z) (path : string) (recursive : bool)
| FaRemoveFile (id : Z) (path : string) (file_num : Z)
| FaCreate (id : Z) (path : string)
| FaCancel (id : Z)
| FaSendConfirm (id : Z) (r : Job.Confirm)
| FaRename (id : Z) (path new_name : string).

Inductive FileResponse :=
| FrBlock (b : Job.FileTransferBlock)
| FrDone (id file_num : Z)
| FrDigest (id file_num file_size last_modified : Z) (is_resume : bool)
| FrError (id : Z) (error : string) (file_num : Z)
| FrDirs. (* directory listings: not for this side *)

(** Of a file clipboard message the session tells apart the list of files, the requests for
    data, and the rest. *)
Inductive Cliprdr := ClipFiles (files : list (string * Z)) | ClipDataRequest (payload : list Z) | ClipOther (payload : list Z) | ClipEmpty.

(** ** [Misc] *)

Record Resolution := mkResolution { width : Z; height : Z }.

Inductive Misc :=
| ChatMessage (text : string)
| SwitchDisplay (display w h : Z)
| Option_ (o : OptionMessage)
| AudioFormat (sample_rate channels : Z)
| CloseReason (reason : string)
| RefreshVideo (all : bool)
| VideoReceived
| RestartRemoteDevice
| ElevationRequest
| SwitchSidesRequest (uuid : list Z)
| ChangeResolution (r : Resolution)
| AutoAdjustFps (fps : Z)
| ClientRecordStatus (status : bool)
| CaptureDisplays (add sub set : list Z)
| RefreshVideoDisplay (display : Z)
| ToggleVirtualDisplay (display : Z) (on : bool)
| TogglePrivacyMode (impl_key : string) (on : bool)
| SelectedSid (sid : Z)
| ChangeDisplayResolution (display : Z) (r : Resolution)
| MessageQuery (switch_display : Z)
| FollowCurrentDisplay (display : Z)
| RequestCursorData (id : Z)
| MiscOther. (* the remaining ones, which only the controlled side sends, or nobody any more *)

(** ** [Message] *)

Inductive Message :=
| MLogin (lr : LoginRequest)
| MAuth2fa (code : string) (tfa_hwid : list Z)
| MSwitchSides (uuid : list Z) (response_lr : option LoginRequest)
| MTestDelay (time : Z) (from_client : bool) (last_delay : Z)
| MMouse (me : MouseEvent)
| MPointer (pde : list Z)
| MKey (me : KeyEvent)
| MClipboard (cb : list Z)
| MMultiClipboards (cbs : list (list Z))
| MCliprdr (clip : Cliprdr)
| MFileAction (fa : option FileAction)
| MFileResponse (fr : option FileResponse)
| MMisc (misc : option Misc)
| MAudioFrame (data : list Z)
| MVoiceCallRequest (req_timestamp : Z) (is_connect : bool)
| MVoiceCallResponse
| MScreenshotRequest (display : Z) (sid : string)
| MScreenshotResponse
| MTerminalAction (action : Term.TerminalAction)
| MTerminalResponse
| MPortForwardChannel (ch : option Window.Frame)
| MOther (* the remaining ones, which only the controlled side sends *)
| MEmpty. (* no union *)

End Msgs.

Module Scope.
Import Msgs.

(** The kinds of session ([AuthConnType]). *)
Inductive AuthConnType := Remote | FileTransfer | PortForward | ViewCamera | Terminal.
#[global] Instance AuthConnType_eq_dec : EqDecision AuthConnType.
Proof. solve_decision. Defined.

(** ** Options *)

Definition is_bool_option_not_set (option : Z) : bool := bool_decide (bool_option option = Some NotSet).

Definition option_has_non_terminal_login_field (o : OptionMessage) : bool :=
  negb (bool_decide (image_quality o.(o_image_quality) = Some QNotSet))
  || negb (o.(o_custom_image_quality) =? 0)
  || negb (o.(o_custom_fps) =? 0)
  || bool_decide (is_Some o.(o_supported_decoding))
  || negb (is_bool_option_not_set o.(o_lock_after_session_end))
  || negb (is_bool_option_not_set o.(o_show_remote_cursor))
  || negb (is_bool_option_not_set o.(o_privacy_mode))
  || negb (is_bool_option_not_set o.(o_block_input))
  || negb (is_bool_option_not_set o.(o_disable_audio))
  || negb (is_bool_option_not_set o.(o_disable_clipboard))
  || negb (is_bool_option_not_set o.(o_enable_file_transfer))
  || negb (is_bool_option_not_set o.(o_disable_keyboard))
  || negb (is_bool_option_not_set o.(o_follow_remote_cursor))
  || negb (is_bool_option_not_set o.(o_follow_remote_window))
  || negb (is_bool_option_not_set o.(o_disable_camera))
  || negb (is_bool_option_not_set o.(o_show_my_cursor)).

Definition option_has_any_field (o : OptionMessage) : bool :=
  option_has_non_terminal_login_field o || negb (is_bool_option_not_set o.(o_terminal_persistent)).

Definition option_has_non_view_camera_login_field (o : OptionMessage) : bool :=
  negb (is_bool_option_not_set o.(o_lock_after_session_end)
        && is_bool_option_not_set o.(o_show_remote_cursor)
        && is_bool_option_not_set o.(o_privacy_mode)
        && is_bool_option_not_set o.(o_block_input)
        && is_bool_option_not_set o.(o_disable_clipboard)
        && is_bool_option_not_set o.(o_enable_file_transfer)
        && is_bool_option_not_set o.(o_disable_keyboard)
        && is_bool_option_not_set o.(o_follow_remote_cursor)
        && is_bool_option_not_set o.(o_follow_remote_window)
        && is_bool_option_not_set o.(o_disable_camera)
        && is_bool_option_not_set o.(o_terminal_persistent)
        && is_bool_option_not_set o.(o_show_my_cursor)).

Definition is_supported_decoding_only_option (o : OptionMessage) : bool :=
  bool_decide (is_Some o.(o_supported_decoding))
  && bool_decide (image_quality o.(o_image_quality) = Some QNotSet)
  && (o.(o_custom_image_quality) =? 0)
  && (o.(o_custom_fps) =? 0)
  && is_bool_option_not_set o.(o_lock_after_session_end)
  && is_bool_option_not_set o.(o_show_remote_cursor)
  && is_bool_option_not_set o.(o_privacy_mode)
  && is_bool_option_not_set o.(o_block_input)
  && is_bool_option_not_set o.(o_disable_audio)
  && is_bool_option_not_set o.(o_disable_clipboard)
  && is_bool_option_not_set o.(o_enable_file_transfer)
  && is_bool_option_not_set o.(o_disable_keyboard)
  && is_bool_option_not_set o.(o_follow_remote_cursor)
  && is_bool_option_not_set o.(o_follow_remote_window)
  && is_bool_option_not_set o.(o_disable_camera)
  && is_bool_option_not_set o.(o_terminal_persistent)
  && is_bool_option_not_set o.(o_show_my_cursor).

(** [bool::then_some] *)
Definition then_some {A} (b : bool) (x : A) : option A := if b then Some x else None.

Definition scoped_terminal_login_option (o : OptionMessage) : option OptionMessage * option string :=
  let '(scoped, violation) :=
    match bool_option o.(o_terminal_persistent) with
    | Some value => (mkOptions 0 0 0 0 0 0 0 0 0 None 0 0 0 0 0 (bool_number value) 0, false)
    | None => (options_default, true)
    end in
  let violation := if option_has_non_terminal_login_field o then true else violation in
  (then_some (option_has_any_field scoped) scoped, then_some violation "login.option").

Definition scoped_view_camera_option (o : OptionMessage) : option OptionMessage * option string :=
  let scoped := mkOptions
    (match image_quality o.(o_image_quality) with Some _ => o.(o_image_quality) | None => 0 end)
    0 0 0 0
    (if 0 <=? o.(o_custom_image_quality) then o.(o_custom_image_quality) else 0)
    (match bool_option o.(o_disable_audio) with Some value => bool_number value | None => 0 end)
    0 0
    o.(o_supported_decoding)
    (if 0 <=? o.(o_custom_fps) then o.(o_custom_fps) else 0)
    0 0 0 0 0 0 in
  (then_some (option_has_any_field scoped) scoped,
   then_some (option_has_non_view_camera_login_field o) "login.option").

Definition scoped_login_option (t : AuthConnType) (o : OptionMessage) : option OptionMessage * option string :=
  match t with
  | Remote => (Some o, None)
  | ViewCamera => scoped_view_camera_option o
  | Terminal => scoped_terminal_login_option o
  | FileTransfer | PortForward => (None, then_some (option_has_any_field o) "login.option")
  end.

Definition scoped_update_option_message (t : option AuthConnType) (o : OptionMessage) : option OptionMessage :=
  match t with
  | Some ViewCamera => (scoped_view_camera_option o).1
  | Some Terminal => (scoped_terminal_login_option o).1
  | Some (Remote | FileTransfer | PortForward) | None => None
  end.

(** ** Messages *)

Definition is_terminal_scoped_option (o : OptionMessage) : bool := bool_decide ((scoped_terminal_login_option o).2 = None).
Definition is_view_camera_scoped_option (o : OptionMessage) : bool := bool_decide ((scoped_view_camera_option o).2 = None).

Definition is_connection_housekeeping_message (m : Message) : bool :=
  match m with
  | MLogin _ | MTestDelay _ _ _ => true
  | MMisc (Some (CloseReason _)) => true
  | _ => false
  end.

Definition is_render_broadcast_noop_compat_message (m : Message) : bool :=
  match m with
  | MMisc (Some (RefreshVideo _)) | MMisc (Some (RefreshVideoDisplay _)) => true
  | MMisc (Some (Option_ o)) => is_supported_decoding_only_option o
  | _ => false
  end.

Definition is_text_clipboard_noop_compat_message (m : Message) : bool :=
  match m with MClipboard _ | MMultiClipboards _ => true | _ => false end.

Definition is_file_transfer_scoped_misc (cfg_windows : bool) (misc : option Misc) : bool :=
  match misc with Some (SelectedSid _) => cfg_windows | _ => false end.
Definition is_file_transfer_scoped_message (cfg_windows : bool) (m : Message) : bool :=
  match m with
  | MFileAction _ | MFileResponse _ => true
  | MMisc misc => is_file_transfer_scoped_misc cfg_windows misc
  | _ => false
  end.

Definition is_port_forward_scoped_message (m : Message) : bool :=
  match m with MPortForwardChannel _ => true | _ => false end.

Definition is_terminal_scoped_misc (misc : option Misc) : bool :=
  match misc with
  | Some (ChatMessage _) => true
  | Some (Option_ o) => is_terminal_scoped_option o
  | _ => false
  end.
Definition is_terminal_scoped_message (m : Message) : bool :=
  match m with
  | MTerminalAction _ => true
  | MMisc misc => is_terminal_scoped_misc misc
  | _ => false
  end.

Definition is_view_camera_scoped_misc (cfg_windows : bool) (misc : option Misc) : bool :=
  match misc with
  | Some (SwitchDisplay _ _ _ | CaptureDisplays _ _ _ | RefreshVideo _ | RefreshVideoDisplay _ | VideoReceived
         | ChatMessage _ | AudioFormat _ _ | ClientRecordStatus _
         | MessageQuery _ | TogglePrivacyMode _ _ | ToggleVirtualDisplay _ _
         | ChangeResolution _ | ChangeDisplayResolution _ _) => true
  | Some (Option_ o) => is_view_camera_scoped_option o
  | Some (SelectedSid _) => cfg_windows
  | _ => false
  end.
Definition is_view_camera_scoped_message (cfg_windows : bool) (m : Message) : bool :=
  match m with
  | MScreenshotRequest _ _ => true
  | MMisc misc => is_view_camera_scoped_misc cfg_windows misc
  | MMouse _ | MPointer _ | MKey _ => true
  | MAudioFrame _ | MVoiceCallRequest _ _ | MVoiceCallResponse => true
  | _ => false
  end.

Definition misc_message_family (misc : option Misc) : string :=
  match misc with
  | Some (ChatMessage _) => "misc.chat_message"
  | Some (SwitchDisplay _ _ _) => "misc.switch_display"
  | Some (Option_ _) => "misc.option"
  | Some (AudioFormat _ _) => "misc.audio_format"
  | Some (CaptureDisplays _ _ _) => "misc.capture_displays"
  | Some (ClientRecordStatus _) => "misc.client_record_status"
  | Some (TogglePrivacyMode _ _) => "misc.toggle_privacy_mode"
  | Some (ToggleVirtualDisplay _ _) => "misc.toggle_virtual_display"
  | Some (SelectedSid _) => "misc.selected_sid"
  | Some (ChangeResolution _) => "misc.change_resolution"
  | Some (ChangeDisplayResolution _ _) => "misc.change_display_resolution"
  | Some (MessageQuery _) => "misc.message_query"
  | Some (FollowCurrentDisplay _) => "misc.follow_current_display"
  | Some (SwitchSidesRequest _) => "misc.switch_sides_request"
  | Some _ => "misc.other"
  | None => "misc.empty"
  end.

Definition message_family (m : Message) : string :=
  match m with
  | MMouse _ => "mouse_event"
  | MAudioFrame _ => "audio_frame"
  | MPointer _ => "pointer_device_event"
  | MKey _ => "key_event"
  | MClipboard _ => "clipboard"
  | MFileAction _ => "file_action"
  | MFileResponse _ => "file_response"
  | MVoiceCallRequest _ _ => "voice_call_request"
  | MVoiceCallResponse => "voice_call_response"
  | MMultiClipboards _ => "multi_clipboards"
  | MScreenshotRequest _ _ => "screenshot_request"
  | MScreenshotResponse => "screenshot_response"
  | MTerminalAction _ => "terminal_action"
  | MTerminalResponse => "terminal_response"
  | MPortForwardChannel _ => "port_forward_channel"
  | MMisc misc => misc_message_family misc
  | MEmpty => "empty"
  | _ => "message.other"
  end.

Definition authorized_message_scope_violation (cfg_windows : bool) (t : AuthConnType) (m : Message) : option string :=
  if is_connection_housekeeping_message m then None else
  let noop_compat :=
    match t with
    | FileTransfer | Terminal => is_render_broadcast_noop_compat_message m || is_text_clipboard_noop_compat_message m
    | PortForward => is_render_broadcast_noop_compat_message m
    | ViewCamera => is_text_clipboard_noop_compat_message m
    | _ => false
    end in
  if noop_compat then None else
  let allowed :=
    match t with
    | Remote => true
    | FileTransfer => is_file_transfer_scoped_message cfg_windows m
    | PortForward => is_port_forward_scoped_message m
    | ViewCamera => is_view_camera_scoped_message cfg_windows m
    | Terminal => is_terminal_scoped_message m
    end in
  then_some (negb allowed) (message_family m).

Definition authorized_scope_violation (cfg_windows : bool) (t : option AuthConnType) (m : Message) : option string :=
  match t with
  | None => then_some (negb (is_connection_housekeeping_message m)) "session.auth_type"
  | Some t => authorized_message_scope_violation cfg_windows t m
  end.

End Scope.
