(* ===== verification/PeerFiles.v ===== *)
(** The controlling side's file transfers: what [src/client/io_loop.rs] does with the commands
    of its user and the messages of the peer that are about files.

    A job is that of [FsJob] and [FsSend]; the disk is [PathFs]'s, Unix.  Calls of the user
    interface and messages are outputs; the progress display is left out. *)

From Stdlib Require Import Ascii.
From S2P Require Import Prelude PathFs FsJob FsSend FsWalk FsManage CmFs SessMsg.
Import Path Fs Names Job Send Walk Manage Msgs.

Module PeerFiles.

(** ** Data *)

Record RemoveJob := mkRj {
  rj_files : list FileEntry;
  rj_path : string;
  rj_sep : string;
  rj_is_remote : bool;
  rj_no_confirm : bool;
  rj_last_update : Z }.

(** The fields of [Remote] that transfers use. *)
Record State := mkPf {
  pf_fs : Fs;
  read_jobs : list TransferJob;
  write_jobs : list TransferJob;
  remove_jobs : gmap Z RemoveJob }.

(** What the user asks for. *)
Inductive Command :=
| SendFiles (id : Z) (t : JobType) (path to : string) (file_num : Z) (include_hidden is_remote : bool)
| AddJob (id : Z) (t : JobType) (path to : string) (file_num : Z) (include_hidden is_remote : bool)
| ResumeJob (id : Z) (is_remote : bool)
| SetNoConfirm (id : Z)
| ConfirmDeleteFiles (id file_num : Z)
| SetConfirmOverrideFile (id file_num : Z) (need_override remember is_upload : bool)
| RemoveDirAll (id : Z) (path : string) (is_remote include_hidden : bool)
| CancelJob (id : Z)
| RemoveDir (id : Z) (path : string)
| RemoveFile (id : Z) (path : string) (file_num : Z) (is_remote : bool)
| CreateDir (id : Z) (path : string) (is_remote : bool)
| RenameFile (id : Z) (path new_name : string) (is_remote : bool).

(** What the peer says of files: [FileResponse] and the confirmation of [FileAction]. *)
Inductive PeerMsg :=
| PEmptyDirs (path : string) (dirs : list FileDirectory)
| PDir (fd : FileDirectory)
| PDigest (d : Digest) (is_upload : bool)
| PBlock (b : FileTransferBlock)
| PDone (id file_num : Z)
| PError (id : Z) (err : JobErr) (file_num : Z)
| PSendConfirm (id : Z) (r : Confirm).

Inductive Out :=
| ToPeer (a : FileAction)
| ToPeerJob (m : Msg)
| ToSelf (c : Command)
| UiFolderFiles (id : Z) (files : list FileEntry) (path : string) (is_local only_count : bool)
| UiEmptyDirs (path : string) (dirs : list FileDirectory)
| UiOverrideConfirm (id file_num : Z) (path : string) (is_upload is_identical : bool)
| UiConfirmDelete (id file_num : Z) (name : string)
| UiJobError (id : Z) (err : JobErr) (file_num : Z)
| UiJobDone (id file_num : Z).

(** The peer and the time, as far as the handlers ask. *)
Record Env := mkEnv {
  can_enable_overwrite_detection : bool;
  is_support_resume : bool;
  peer_is_windows : bool;
  path_sep : bool -> string; (* of the remote side, of this one *)
  instant : Z }.

Definition with_read (l : list TransferJob) (s : State) : State := mkPf s.(pf_fs) l s.(write_jobs) s.(remove_jobs).
Definition with_write (l : list TransferJob) (s : State) : State := mkPf s.(pf_fs) s.(read_jobs) l s.(remove_jobs).
Definition with_remove (m : gmap Z RemoveJob) (s : State) : State := mkPf s.(pf_fs) s.(read_jobs) s.(write_jobs) m.
Definition with_disk (fs : Fs) (s : State) : State := mkPf fs s.(read_jobs) s.(write_jobs) s.(remove_jobs).

(** [FileType::from(JobType)] *)
Definition file_type_of (t : JobType) : Z := match t with Generic => 0 | Printer => 1 end.

Definition replace_backslash (s : string) : string := str_map (fun c => if Ascii.eqb c "\" then "/"%char else c) s.
Definition transform_windows_path (entries : list FileEntry) : list FileEntry :=
  (fun e => mkEntry e.(entry_type) (replace_backslash e.(name)) e.(is_hidden) e.(size) e.(modified_time)) <$> entries.

(** ** [handle_job_status] *)

(** The next file of a deletion without questions. *)
Definition handle_job_status (h : Env) (id file_num : Z) (err : option JobErr) (s : State) : State * list Out :=
  let report := [match err with Some err => UiJobError id err file_num | None => UiJobDone id file_num end] in
  match s.(remove_jobs) !! id with
  | None => (s, report)
  | Some job =>
    if negb job.(rj_no_confirm) then (s, report) else
    let next := as_usize (swrap 32 (file_num + 1)) in
    match zget job.(rj_files) next with
    | Some file =>
      let path := (job.(rj_path) ++ job.(rj_sep) ++ file.(name))%string in
      let send := ToSelf (RemoveFile id path (swrap 32 next) job.(rj_is_remote)) in
      if 1000 <=? swrap 32 (h.(instant) - job.(rj_last_update)) then
        (with_remove (<[id := mkRj job.(rj_files) job.(rj_path) job.(rj_sep) job.(rj_is_remote) job.(rj_no_confirm) h.(instant)]> s.(remove_jobs)) s,
         send :: report)
      else (s, [send])
    | None => (with_remove (delete id s.(remove_jobs)) s, report)
    end
  end.

Definition cancel_transfer_job (id : Z) (s : State) : State * list Out :=
  let s := match get_job id s.(write_jobs) with
           | Some job => mkPf (remove_download_file s.(pf_fs) job) s.(read_jobs) (remove_job id s.(write_jobs)) s.(remove_jobs)
           | None => s
           end in
  (with_remove (delete id s.(remove_jobs)) (with_read (remove_job id s.(read_jobs)) s), [ToPeer (FaCancel id)]).

Section Handlers.
(** How deep directories may nest, and the coder. *)
Variable fuel : nat.
Variable zstd_compress zstd_decode : list Z -> option (list Z).
Variable digest_json : FileDigest -> list Z.
Variable parse_digest : list Z -> option FileDigest.

(** ** Commands of the user *)

(** A job that reads the disk, announced to the user interface. *)
Definition new_read_job (h : Env) (id : Z) (t : JobType) (path to : string) (file_num : Z) (include_hidden : bool) (waiting : bool)
    (s : State) : result (TransferJob * list Out) JobErr :=
  match new_read fuel s.(pf_fs) id t (FilePath path) file_num include_hidden h.(can_enable_overwrite_detection) with
  | Err e => Err (Io e)
  | Ok job =>
    let job := with_meta job (mkMeta to include_hidden false 0) in
    Ok (with_resume job waiting false, [UiFolderFiles job.(Job.id) job.(files) path true true])
  end.

Definition send_files (h : Env) (id : Z) (t : JobType) (path to : string) (file_num : Z) (include_hidden is_remote : bool)
    (s : State) : State * list Out :=
  if is_remote then
    let target := match t with Generic => FilePath to | Printer => MemoryCursor [] end in
    let job := with_meta (new_write id t target file_num h.(can_enable_overwrite_detection)) (mkMeta path include_hidden true 0) in
    (with_write (s.(write_jobs) ++ [job]) s, [ToPeer (FaSend id path include_hidden file_num (file_type_of t))])
  else
    match new_read_job h id t path to file_num include_hidden false s with
    | Err err => handle_job_status h id (-1) (Some err) s
    | Ok (job, out) =>
      (with_read (s.(read_jobs) ++ [job]) s, out ++ [ToPeer (FaReceive id to job.(files) file_num job.(total_size))])
    end.

Definition add_job (h : Env) (id : Z) (t : JobType) (path to : string) (file_num : Z) (include_hidden is_remote : bool)
    (s : State) : State * list Out :=
  if is_remote then
    let job := with_meta (new_write id t (FilePath to) file_num h.(can_enable_overwrite_detection)) (mkMeta path include_hidden true 0) in
    (with_write (s.(write_jobs) ++ [with_resume job true false]) s, [])
  else
    match new_read_job h id t path to file_num include_hidden true s with
    | Err err => handle_job_status h id (-1) (Some err) s
    | Ok (job, out) => (with_read (s.(read_jobs) ++ [job]) s, out)
    end.

Definition resume_job (id : Z) (is_remote : bool) (s : State) : State * list Out :=
  if is_remote then
    match get_job id s.(write_jobs) with
    | Some job =>
      (with_write (put_job id (with_resume job false true) s.(write_jobs)) s,
       [ToPeer (FaSend id job.(meta).(remote) job.(meta).(show_hidden) job.(Job.file_num) (file_type_of Generic))])
    | None => (s, [])
    end
  else
    match get_job id s.(read_jobs) with
    | Some job =>
      match job.(data_source) with
      | FilePath _ =>
        (with_read (put_job id (set_finished_size_on_resume (with_resume job false true)) s.(read_jobs)) s,
         [ToPeer (FaReceive id job.(meta).(remote) job.(files) job.(Job.file_num) job.(total_size))])
      | MemoryCursor _ => (s, [])
      end
    | None => (s, [])
    end.

(** The answer to a question about a file that is there already. *)
Definition answer (id file_num : Z) (need_override : bool) : Confirm :=
  mkConfirm file_num (if need_override then OffsetBlk 0 else Skip true).

Definition remember_strategy (remember need_override : bool) (job : TransferJob) : TransferJob :=
  if remember then set_overwrite_strategy job (Some need_override) else job.

Definition set_confirm_override_file (id file_num : Z) (need_override remember is_upload : bool) (s : State) : State * list Out :=
  let r := answer id file_num need_override in
  if is_upload then
    match get_job id s.(read_jobs) with
    | Some job =>
      let '(job, fs) := confirm s.(pf_fs) (remember_strategy remember need_override job) r in
      (with_read (put_job id job s.(read_jobs)) (with_disk fs s), [])
    | None => (s, [])
    end
  else
    match get_job id s.(write_jobs) with
    | Some job =>
      let '(job, fs) := confirm s.(pf_fs) (remember_strategy remember need_override job) r in
      (with_write (put_job id job s.(write_jobs)) (with_disk fs s), [ToPeer (FaSendConfirm id r)])
    | None => (s, [])
    end.

Definition remove_dir_all (h : Env) (id : Z) (path : string) (is_remote include_hidden : bool) (s : State) : State * list Out :=
  let remember files := with_remove (<[id := mkRj files path (h.(path_sep) is_remote) is_remote false h.(instant)]> s.(remove_jobs)) s in
  if is_remote then (remember [], [ToPeer (FaAllFiles id path include_hidden)])
  else
    match get_recursive_files fuel s.(pf_fs) path include_hidden with
    | Ok entries => (remember entries, [UiFolderFiles id entries path true false])
    | Err err => handle_job_status h id (-1) (Some (Io err)) s
    end.

Definition confirm_delete_files (id file_num : Z) (s : State) : list Out :=
  match s.(remove_jobs) !! id with
  | Some job =>
    match zget job.(rj_files) (as_usize file_num) with
    | Some file => [UiConfirmDelete id file_num file.(name)]
    | None => []
    end
  | None => []
  end.

Definition set_no_confirm (id : Z) (s : State) : State :=
  with_remove (alter (fun job => mkRj job.(rj_files) job.(rj_path) job.(rj_sep) job.(rj_is_remote) true job.(rj_last_update)) id s.(remove_jobs)) s.

Definition remove_file (h : Env) (id : Z) (path : string) (file_num : Z) (is_remote : bool) (s : State) : State * list Out :=
  if is_remote then (s, [ToPeer (FaRemoveFile id path file_num)])
  else
    match Manage.remove_file s.(pf_fs) path with
    | Err err => handle_job_status h id file_num (Some err) s
    | Ok fs => handle_job_status h id file_num None (with_disk fs s)
    end.

Definition create_dir (h : Env) (id : Z) (path : string) (is_remote : bool) (s : State) : State * list Out :=
  if is_remote then (s, [ToPeer (FaCreate id path)])
  else
    match Manage.create_dir s.(pf_fs) path with
    | (Err err, fs) => handle_job_status h id (-1) (Some err) (with_disk fs s)
    | (Ok _, fs) => handle_job_status h id (-1) None (with_disk fs s)
    end.

Definition rename_file (h : Env) (id : Z) (path new_name : string) (is_remote : bool) (s : State) : State * list Out :=
  if is_remote then (s, [ToPeer (FaRename id path new_name)])
  else
    match Manage.rename_file s.(pf_fs) path new_name with
    | Err err => handle_job_status h id (-1) (Some err) s
    | Ok fs => handle_job_status h id (-1) None (with_disk fs s)
    end.

Definition handle_command (h : Env) (c : Command) (s : State) : State * list Out :=
  match c with
  | SendFiles id t path to file_num include_hidden is_remote => send_files h id t path to file_num include_hidden is_remote s
  | AddJob id t path to file_num include_hidden is_remote => add_job h id t path to file_num include_hidden is_remote s
  | ResumeJob id is_remote => resume_job id is_remote s
  | SetNoConfirm id => (set_no_confirm id s, [])
  | ConfirmDeleteFiles id file_num => (s, confirm_delete_files id file_num s)
  | SetConfirmOverrideFile id file_num need_override remember is_upload =>
    set_confirm_override_file id file_num need_override remember is_upload s
  | RemoveDirAll id path is_remote include_hidden => remove_dir_all h id path is_remote include_hidden s
  | CancelJob id => cancel_transfer_job id s
  | RemoveDir id path => (s, [ToPeer (FaRemoveDir id path true)])
  | RemoveFile id path file_num is_remote => remove_file h id path file_num is_remote s
  | CreateDir id path is_remote => create_dir h id path is_remote s
  | RenameFile id path new_name is_remote => rename_file h id path new_name is_remote s
  end.

(** ** Messages of the peer *)

Definition entries_of (h : Env) (fd : FileDirectory) : list FileEntry :=
  if h.(peer_is_windows) then transform_windows_path fd.(fd_entries) else fd.(fd_entries).

(** A list of files: of a download, of a deletion, or to be shown. *)
Definition on_dir (h : Env) (fd : FileDirectory) (s : State) : State * list Out :=
  let entries := entries_of h fd in
  match get_job fd.(fd_id) s.(write_jobs) with
  | Some job =>
    match set_files s.(pf_fs) job entries with
    | Err err =>
      let '(s, out1) := cancel_transfer_job fd.(fd_id) s in
      let '(s, out2) := handle_job_status h fd.(fd_id) (-1) (Some err) s in (s, out1 ++ out2)
    | Ok job =>
      (with_write (put_job fd.(fd_id) (set_finished_size_on_resume job) s.(write_jobs)) s,
       [UiFolderFiles fd.(fd_id) job.(files) fd.(fd_path) false false])
    end
  | None =>
    match s.(remove_jobs) !! fd.(fd_id) with
    | Some job =>
      (with_remove (<[fd.(fd_id) := mkRj entries job.(rj_path) job.(rj_sep) job.(rj_is_remote) job.(rj_no_confirm) job.(rj_last_update)]> s.(remove_jobs)) s,
       [UiFolderFiles fd.(fd_id) entries fd.(fd_path) false false])
    | None => (s, [UiFolderFiles fd.(fd_id) entries fd.(fd_path) false false])
    end
  end.

(** What the digest leaves to decide: a strategy, or an unfinished download to go on with. *)
Definition digest_strategy (job : TransferJob) (digest : Digest) : option bool * Z :=
  if digest.(dg_is_identical) && job.(is_resume) && (0 <? digest.(dg_transferred_size))
  then (Some true, wrap 32 digest.(dg_transferred_size))
  else (job.(default_overwrite_strategy), 0).

Definition strategy_confirm (digest : Digest) (overwrite : bool) (offset : Z) : Confirm :=
  mkConfirm digest.(dg_file_num) (if overwrite then OffsetBlk offset else Skip true).

(** The peer has the file of an upload already. *)
Definition on_upload_digest (digest : Digest) (s : State) : State * list Out :=
  match get_job digest.(dg_id) s.(read_jobs) with
  | None => (s, [])
  | Some job =>
    match zget job.(files) (as_usize digest.(dg_file_num)), job.(data_source) with
    | Some file, FilePath p =>
      match digest_strategy job digest with
      | (Some overwrite, offset) =>
        let r := strategy_confirm digest overwrite offset in
        let '(job, fs) := confirm s.(pf_fs) job r in
        (with_read (put_job digest.(dg_id) job s.(read_jobs)) (with_disk fs s), [ToPeer (FaSendConfirm digest.(dg_id) r)])
      | (None, _) =>
        (s, [UiOverrideConfirm digest.(dg_id) digest.(dg_file_num) (job_join p file.(name)) true digest.(dg_is_identical)])
      end
    | _, _ => (s, [])
    end
  end.

(** The next file of a download: is it here already? *)
Definition on_download_digest (h : Env) (digest : Digest) (s : State) : State * list Out :=
  match get_job digest.(dg_id) s.(write_jobs) with
  | None => (s, [])
  | Some job =>
    match zget job.(files) (as_usize digest.(dg_file_num)), job.(data_source) with
    | Some file, FilePath p =>
      let write_path := job_join p file.(name) in
      let job := set_digest job digest.(dg_file_size) digest.(dg_last_modified) in
      let keep job := with_write (put_job digest.(dg_id) job s.(write_jobs)) s in
      let say r :=
        let '(job, fs) := confirm s.(pf_fs) job r in
        (with_disk fs (keep job), [ToPeer (FaSendConfirm digest.(dg_id) r)]) in
      match is_write_need_confirmation parse_digest s.(pf_fs) (h.(is_support_resume) && job.(is_resume)) write_path digest with
      | Ok (NeedConfirm digest) =>
        match digest_strategy job digest with
        | (Some overwrite, offset) => say (strategy_confirm digest overwrite offset)
        | (None, _) => (keep job, [UiOverrideConfirm digest.(dg_id) digest.(dg_file_num) write_path false digest.(dg_is_identical)])
        end
      | Ok NoSuchFile => say (mkConfirm digest.(dg_file_num) (OffsetBlk 0))
      | Err _ => (keep job, [])
      end
    | _, _ => (s, [])
    end
  end.

Definition on_block (b : FileTransferBlock) (wr : IoOk) (s : State) : State * list Out :=
  match get_job b.(b_id) s.(write_jobs) with
  | Some job =>
    let '(_, job, fs) := write zstd_decode digest_json s.(pf_fs) job b wr in
    (with_write (put_job b.(b_id) job s.(write_jobs)) (with_disk fs s), [])
  | None => (s, [])
  end.

(** A finished print job goes to the printer on Windows only. *)
Definition on_done (h : Env) (id file_num : Z) (s : State) : State * list Out :=
  match get_job id s.(write_jobs) with
  | Some job =>
    let s := mkPf (modify_time s.(pf_fs) job) s.(read_jobs) (remove_job id s.(write_jobs)) s.(remove_jobs) in
    match job.(type) with
    | Generic => handle_job_status h id file_num (Bail <$> job_error job) s
    | Printer => (s, [])
    end
  | None => handle_job_status h id file_num None s
  end.

Definition on_error (h : Env) (id : Z) (err : JobErr) (file_num : Z) (s : State) : State * list Out :=
  let '(job, s) :=
    match get_job id s.(write_jobs) with
    | Some job => (Some job, with_write (remove_job id s.(write_jobs)) s)
    | None => (get_job id s.(read_jobs), with_read (remove_job id s.(read_jobs)) s)
    end in
  match default Generic (type <$> job) with
  | Generic => handle_job_status h id file_num (Some err) s
  | Printer => (s, [])
  end.

Definition on_send_confirm (id : Z) (r : Confirm) (s : State) : State :=
  match get_job id s.(read_jobs) with
  | Some job =>
    let '(job, fs) := confirm s.(pf_fs) job r in with_read (put_job id job s.(read_jobs)) (with_disk fs s)
  | None => s
  end.

Definition handle_msg (h : Env) (m : PeerMsg) (wr : IoOk) (s : State) : State * list Out :=
  match m with
  | PEmptyDirs path dirs => (s, [UiEmptyDirs path dirs])
  | PDir fd => on_dir h fd s
  | PDigest digest true => on_upload_digest digest s
  | PDigest digest false => on_download_digest h digest s
  | PBlock b => on_block b wr s
  | PDone id file_num => on_done h id file_num s
  | PError id err file_num => on_error h id err file_num s
  | PSendConfirm id r => (on_send_confirm id r s, [])
  end.

(** ** The timer *)

Definition tick (reads : list (option Z)) (s : State) : State * list Out :=
  if is_nil s.(read_jobs) then (s, []) else
  let '(jobs, out) := handle_read_jobs zstd_compress s.(pf_fs) s.(read_jobs) reads in
  (with_read jobs s, ToPeerJob <$> out).

(** ** The loop: a command, a message, the timer *)

Inductive Event := Cmd (c : Command) | Msg (m : PeerMsg) (wr : IoOk) | Tick (reads : list (option Z)).

Definition step (h : Env) (ev : Event) (s : State) : State * list Out :=
  match ev with
  | Cmd c => handle_command h c s
  | Msg m wr => handle_msg h m wr s
  | Tick reads => tick reads s
  end.

Fixpoint run (s : State) (evs : list (Env * Event)) : State * list Out :=
  match evs with
  | [] => (s, [])
  | (h, ev) :: evs =>
    let '(s, out1) := step h ev s in
    let '(s, out2) := run s evs in (s, out1 ++ out2)
  end.

End Handlers.

End PeerFiles.
