(* ===== verification/PeerTheorems.v ===== *)
(** What the controlling side does to its own disk for a peer, whatever the peer answers. *)

From Stdlib Require Import Ascii.
From S2P Require Import Prelude PathFs FsJob FsSafe FsSend FsRecv FsShare FsWalk FsNames FsGuard FsManage CmFs CmTheorems SessMsg PeerFiles.
Import Path Fs PathFacts FsFacts Names Job Safe Receiver Share Send Walk Only Single Confirmed Guard Manage Contain PeerFiles.

Module PeerContain.

(** ** Jobs into memory: a print job *)

Definition in_memory (j : TransferJob) : Prop :=
  (exists c, j.(data_source) = MemoryCursor c) /\ match j.(data_stream) with Some (FileStream _) => False | _ => True end.

Section Memory.
Context (zstd_decode : list Z -> option (list Z)) (digest_json : FileDigest -> list Z).

Lemma memory_write fs j block wr r j' fs' : in_memory j -> write zstd_decode digest_json fs j block wr = (r, j', fs') ->
  fs' = fs /\ in_memory j'.
Proof.
  intros [[c Hc] Hs]. unfold write. destruct (negb _); [intros [= _ <- <-]; split; [done|]; split; eauto|]. rewrite Hc.
  set (j1 := if is_none (data_stream j) then _ else _).
  assert (H1 : data_source j1 = MemoryCursor c /\ exists d p, data_stream j1 = Some (BufStream d p)).
  { unfold j1. destruct (data_stream j) as [[|d p]|] eqn:E; try done; cbn; eauto. }
  destruct H1 as [H1 (d & p & H2)]. unfold write_payload. rewrite H2.
  destruct (negb (io_write wr)); [intros [= _ <- <-]|cbn; intros [= _ <- <-]]; (split; [done|]); split; cbn; rewrite ?H2; eauto.
Qed.

Lemma memory_confirm fs j r : in_memory j -> in_memory (confirm fs j r).1.
Proof.
  intros [[c Hc] Hs]. unfold confirm. destruct (negb _); [by split; eauto|].
  assert (Hany : forall j', data_source j' = data_source j -> data_stream j' = data_stream j \/ data_stream j' = None -> in_memory j').
  { intros j' E1 E2. split; [exists c; congruence|]. by destruct E2 as [-> | ->]. }
  destruct (c_union r) as [[]|off|]; try (by apply Hany; auto). destruct (0 <? off); [|by apply Hany; auto].
  unfold set_stream_offset. destruct (_ <=? _); [by apply Hany; auto|].
  change (data_source (set_file_confirmed j true)) with (data_source j). rewrite Hc. by apply Hany; auto.
Qed.

Lemma memory_modify fs j : in_memory j -> modify_time fs j = fs.
Proof. intros [[c Hc] _]. unfold modify_time. rewrite Hc. by destruct (negb _). Qed.
Lemma memory_remove fs j : in_memory j -> remove_download_file fs j = fs.
Proof. intros [[c Hc] _]. unfold remove_download_file. rewrite Hc. by destruct (negb _). Qed.
Lemma memory_update j j' : in_memory j -> same_job j j' -> data_stream j' = data_stream j -> in_memory j'.
Proof. intros [[c Hc] Hs] (_ & E1 & _) E2. split; [exists c; congruence|by rewrite E2]. Qed.

End Memory.

Section Confined.
Context (fuel : nat) (zstd_compress zstd_decode : list Z -> option (list Z)) (digest_json : FileDigest -> list Z)
  (parse_digest : list Z -> option FileDigest).
(** The directories downloads go to, with their real paths, and the disk at the start. *)
Context (fs0 : Fs) (R : list (string * rpath)).

Abbreviation step := (step fuel zstd_compress zstd_decode digest_json parse_digest).
Abbreviation run := (run fuel zstd_compress zstd_decode digest_json parse_digest).

(** Where a download goes: to a name in one of the directories that is no link. *)
Definition target (to d : string) (rd : rpath) (x : string) : Prop :=
  (d, rd) ∈ R /\ to = join d x /\ plain x /\ forall l, fs0.(nodes) !! (rd ++ [x]) <> Some (NLink l).

(** Everything but the user's own changes to the disk of this side. *)
Definition transfer (ev : Event) : Prop :=
  match ev with
  | Cmd (RemoveFile _ _ _ false | CreateDir _ _ false | RenameFile _ _ _ false) => False
  | Cmd (SendFiles _ Generic _ to _ _ true | AddJob _ Generic _ to _ _ true) => exists d rd x, target to d rd x
  | Cmd (AddJob _ Printer _ _ _ _ true) => False
  | _ => True
  end.

(** The user asked for this download. *)
Inductive asked (id : Z) (to : string) : Event -> Prop :=
| asked_send path num hidden : asked id to (Cmd (SendFiles id Generic path to num hidden true))
| asked_add path num hidden : asked id to (Cmd (AddJob id Generic path to num hidden true)).

(** The download a message or command is for. *)
Definition download_of (ev : Event) : option Z :=
  match ev with
  | Msg (PDir fd) _ => Some fd.(fd_id)
  | Msg (PBlock b) _ => Some b.(b_id)
  | Msg (PDone id _) _ | Cmd (CancelJob id) => Some id
  | _ => None
  end.

Section Step.
Context (P : rpath -> Prop) (T : Z -> string -> rpath -> string -> Prop) (L : Z -> list FileEntry -> Prop).
Hypothesis HP : forall id d rd x l k, T id d rd x -> L id l -> listed rd (under_entry x <$> l) k -> P k.

Definition job_good (fs : Fs) (j : TransferJob) : Prop :=
  in_memory j \/ exists d rd x, T j.(id) d rd x /\ guarded P fs d rd (Some x) j.

Record peer_ok (fs : Fs) (jobs : list TransferJob) : Prop := mkPeerOk {
  pk_wf : wf fs;
  pk_dirs : Forall (dir_good fs) R;
  pk_links : forall k t, fs.(nodes) !! k = Some (NLink t) <-> fs0.(nodes) !! k = Some (NLink t);
  pk_jobs : Forall (job_good fs) jobs }.

(** What a step does to the disk: nothing, or something for its download. *)
Definition confined (ev : Event) (s : State) (fs' : Fs) : Prop :=
  fs' = s.(pf_fs) \/
  exists j d rd x, download_of ev = Some j.(id) /\ get_job j.(id) s.(write_jobs) = Some j /\ T j.(id) d rd x /\ change_ok P rd s.(pf_fs) fs'.

Definition kept (ev : Event) (s s' : State) : Prop := peer_ok s'.(pf_fs) s'.(write_jobs) /\ confined ev s s'.(pf_fs).

Lemma ok_jobs fs jobs jobs' : peer_ok fs jobs -> Forall (job_good fs) jobs' -> peer_ok fs jobs'.
Proof. by intros [Hw Hd Hl _]. Qed.

Lemma ok_change fs fs' rd jobs jobs' : peer_ok fs jobs -> change_ok P rd fs fs' ->
  (Forall (job_good fs') jobs -> Forall (job_good fs') jobs') -> peer_ok fs' jobs'.
Proof.
  intros [Hw Hd Hl Hj] Hc Hjobs. pose proof (ch_inside _ _ _ _ Hc) as Hi. split.
  - by eapply in_wf.
  - eapply Forall_impl; [exact Hd|]. intros [base rb0] [H1 H2]. split; [by eapply base_other|by eapply nosuf_other].
  - intros k t. by rewrite (in_links _ _ _ Hi).
  - apply Hjobs. eapply Forall_impl; [exact Hj|]. intros j [Hm|(d & rb & x & Hin & H1)]; [by left|right].
    exists d, rb, x. split; [done|]. by eapply guarded_other.
Qed.

Lemma job_update fs j j' : job_good fs j -> same_job j j' -> data_stream j' = data_stream j -> job_good fs j'.
Proof.
  intros [Hm|(d & rd & x & Ht & Hg)] Hs E; [left; by eapply memory_update|right].
  exists d, rd, x. split; [|by eapply guarded_update]. by rewrite (proj1 Hs).
Qed.

Lemma job_confirm fs j r : job_good fs j -> job_good fs (confirm fs j r).1.
Proof.
  intros [Hm|(d & rd & x & Ht & Hg)]; [left; by apply memory_confirm|right].
  exists d, rd, x. split; [|by apply guarded_confirm]. by rewrite (proj1 (confirm_job_same fs j r)).
Qed.

Lemma job_new fs jobs t to num od d rd x jid : peer_ok fs jobs -> T jid d rd x -> target to d rd x -> t = Generic ->
  job_good fs (new_write jid t (FilePath to) num od).
Proof.
  intros Hok Ht (Hin & -> & Hx & Hnl) ->. right. exists d, rd, x. split; [done|].
  apply (proj1 (Forall_forall _ _) (pk_dirs _ _ Hok)) in Hin as [Hb Hn].
  apply guarded_new; [done|apply Hok|done|done|]. intros l. rewrite (pk_links _ _ Hok). apply Hnl.
Qed.

Lemma job_at fs jobs jid j : peer_ok fs jobs -> get_job jid jobs = Some j -> job_good fs j /\ j.(id) = jid.
Proof.
  intros Hok Hg. split; [|by eapply get_job_id]. apply get_job_elem in Hg. by apply (proj1 (Forall_forall _ _) (pk_jobs _ _ Hok)) in Hg.
Qed.

Lemma kept_jobs ev s s' : peer_ok s.(pf_fs) s.(write_jobs) -> s'.(pf_fs) = s.(pf_fs) ->
  (Forall (job_good s.(pf_fs)) s.(write_jobs) -> Forall (job_good s.(pf_fs)) s'.(write_jobs)) -> kept ev s s'.
Proof. intros Hok E Hj. unfold kept. rewrite E. split; [|by left]. eapply ok_jobs; [done|]. apply Hj, Hok. Qed.

Lemma kept_same ev s s' : peer_ok s.(pf_fs) s.(write_jobs) -> s'.(pf_fs) = s.(pf_fs) -> s'.(write_jobs) = s.(write_jobs) -> kept ev s s'.
Proof. intros Hok E1 E2. apply kept_jobs; [done..|]. by rewrite E2. Qed.

(** One of the downloads changes the disk. *)
Lemma kept_change ev s s' j d rd x : peer_ok s.(pf_fs) s.(write_jobs) -> download_of ev = Some j.(id) ->
  get_job j.(id) s.(write_jobs) = Some j -> T j.(id) d rd x -> change_ok P rd s.(pf_fs) s'.(pf_fs) ->
  (Forall (job_good s'.(pf_fs)) s.(write_jobs) -> Forall (job_good s'.(pf_fs)) s'.(write_jobs)) -> kept ev s s'.
Proof.
  intros Hok Hd Hg Ht Hc Hj. split; [by eapply ok_change|]. right. by exists j, d, rd, x.
Qed.

Lemma status_same h jid num err s :
  (handle_job_status h jid num err s).1.(pf_fs) = s.(pf_fs) /\ (handle_job_status h jid num err s).1.(write_jobs) = s.(write_jobs).
Proof.
  unfold handle_job_status. destruct (remove_jobs s !! jid) as [rj|]; [|done]. destruct (negb _); [done|].
  destruct (zget _ _); [|done]. by destruct (_ <=? _).
Qed.

Lemma kept_status ev s s1 h jid num err : kept ev s s1 -> kept ev s (handle_job_status h jid num err s1).1.
Proof. unfold kept. by destruct (status_same h jid num err s1) as [-> ->]. Qed.

Lemma cancel_kept ev s jid : peer_ok s.(pf_fs) s.(write_jobs) -> download_of ev = Some jid -> kept ev s (cancel_transfer_job jid s).1.
Proof.
  intros Hok Hd. unfold cancel_transfer_job. destruct (get_job jid (write_jobs s)) as [j|] eqn:Eg; [|by apply kept_same].
  destruct (job_at _ _ _ _ Hok Eg) as [[Hm|(d & rd & x & Ht & Hg)] <-].
  - apply kept_jobs; [done|by apply memory_remove|]. apply remove_job_forall.
  - eapply kept_change; [done|done|done|exact Ht|by eapply guarded_remove|]. apply remove_job_forall.
Qed.

(** *** Messages *)

Lemma block_kept s b wr : peer_ok s.(pf_fs) s.(write_jobs) ->
  kept (Msg (PBlock b) wr) s (on_block zstd_decode digest_json b wr s).1.
Proof.
  intros Hok. unfold on_block. destruct (get_job (b_id b) (write_jobs s)) as [j|] eqn:Eg; [|by apply kept_same].
  destruct (write zstd_decode digest_json (pf_fs s) j b wr) as [[r j'] fs'] eqn:Ew.
  pose proof (write_job_same zstd_decode digest_json (pf_fs s) j b wr) as Hsame. rewrite Ew in Hsame.
  destruct (job_at _ _ _ _ Hok Eg) as [[Hm|(d & rd & x & Ht & Hg)] Hid].
  - destruct (memory_write _ _ _ _ _ _ _ _ _ Hm Ew) as [-> Hm']. apply kept_jobs; [done..|]. apply put_job_forall. by left.
  - destruct (guarded_write _ _ _ _ _ _ _ _ _ _ _ _ _ Hg Ew) as [Hc Hg'].
    apply (kept_change _ _ _ j d rd x); [done|cbn; congruence|by rewrite Hid|done|exact Hc|].
    apply put_job_forall. right. exists d, rd, x. split; [|done]. by rewrite (proj1 Hsame).
Qed.

Lemma done_kept h s jid num wr : peer_ok s.(pf_fs) s.(write_jobs) -> kept (Msg (PDone jid num) wr) s (on_done h jid num s).1.
Proof.
  intros Hok. unfold on_done. destruct (get_job jid (write_jobs s)) as [j|] eqn:Eg; [|by apply kept_status, kept_same].
  assert (Hk : kept (Msg (PDone jid num) wr) s (mkPf (modify_time s.(pf_fs) j) s.(read_jobs) (remove_job jid s.(write_jobs)) s.(remove_jobs))).
  { destruct (job_at _ _ _ _ Hok Eg) as [[Hm|(d & rd & x & Ht & Hg)] <-].
    - apply kept_jobs; [done|by apply memory_modify|]. apply remove_job_forall.
    - eapply kept_change; [done|done|done|exact Ht|by eapply guarded_modify|]. apply remove_job_forall. }
  destruct (type j); [by apply kept_status|exact Hk].
Qed.

Lemma error_kept h s jid err num wr : peer_ok s.(pf_fs) s.(write_jobs) -> kept (Msg (PError jid err num) wr) s (on_error h jid err num s).1.
Proof.
  intros Hok. unfold on_error. destruct (get_job jid (write_jobs s)) as [j|].
  - assert (Hk : kept (Msg (PError jid err num) wr) s (with_write (remove_job jid s.(write_jobs)) s)) by (apply kept_jobs; [done..|apply remove_job_forall]).
    destruct (default _ _); [by apply kept_status|exact Hk].
  - destruct (default _ _); [by apply kept_status, kept_same|by apply kept_same].
Qed.

Lemma dir_kept h s fd wr : peer_ok s.(pf_fs) s.(write_jobs) -> L fd.(fd_id) (entries_of h fd) ->
  kept (Msg (PDir fd) wr) s (on_dir h fd s).1.
Proof.
  intros Hok HL. unfold on_dir. destruct (get_job (fd_id fd) (write_jobs s)) as [j|] eqn:Eg.
  2:{ destruct (remove_jobs s !! fd_id fd); by apply kept_same. }
  destruct (set_files (pf_fs s) j (entries_of h fd)) as [j'|err] eqn:Es.
  - apply kept_jobs; [done..|]. apply put_job_forall.
    apply (job_update _ j'); [|unfold set_finished_size_on_resume; by destruct (_ && _)..].
    destruct (set_files_fields _ _ _ _ Es) as (_ & Hid & Hsrc & Hty & Hds).
    destruct (job_at _ _ _ _ Hok Eg) as [[[[c Hc] Hm]|(d & rd & x & Ht & Hg)] Hj].
    + left. split; [exists c; congruence|by rewrite Hds].
    + right. exists d, rd, x. rewrite Hid. split; [done|]. eapply guarded_set_files; [exact Hg|exact Es|].
      intros k. eapply HP; [exact Ht|by rewrite Hj].
  - pose proof (cancel_kept (Msg (PDir fd) wr) s (fd_id fd) Hok eq_refl) as Hk.
    destruct (cancel_transfer_job (fd_id fd) s) as [s1 o1]. pose proof (kept_status _ s s1 h (fd_id fd) (-1) (Some err) Hk) as Hk2.
    by destruct (handle_job_status _ _ _ _ _).
Qed.

(** A digest and the answer to it leave the disk alone. *)
Lemma answered_kept ev s j jid r : peer_ok s.(pf_fs) s.(write_jobs) -> job_good s.(pf_fs) j ->
  kept ev s (let '(j', fs') := confirm s.(pf_fs) j r in with_disk fs' (with_write (put_job jid j' s.(write_jobs)) s)).
Proof.
  intros Hok Hj. pose proof (confirm_disk (pf_fs s) j r) as Hd. pose proof (job_confirm _ _ r Hj) as Hj'.
  destruct (confirm (pf_fs s) j r) as [j' fs']. cbn in Hd, Hj'. subst fs'. apply kept_jobs; [done..|]. by apply put_job_forall.
Qed.

Lemma download_digest_kept h s dg wr : peer_ok s.(pf_fs) s.(write_jobs) ->
  kept (Msg (PDigest dg false) wr) s (on_download_digest parse_digest h dg s).1.
Proof.
  intros Hok. unfold on_download_digest. destruct (get_job (dg_id dg) (write_jobs s)) as [j|] eqn:Eg; [|by apply kept_same].
  destruct (zget (files j) _) as [f|]; [|by apply kept_same]. destruct (data_source j) as [p|]; [|by apply kept_same].
  destruct (job_at _ _ _ _ Hok Eg) as [Hj _]. set (j1 := set_digest j _ _). assert (Hj1 : job_good (pf_fs s) j1) by (by eapply job_update).
  pose proof (fun r => answered_kept (Msg (PDigest dg false) wr) s j1 (dg_id dg) r Hok Hj1) as Ha.
  assert (Hkeep : kept (Msg (PDigest dg false) wr) s (with_write (put_job (dg_id dg) j1 (write_jobs s)) s)) by (apply kept_jobs; [done..|]; by apply put_job_forall).
  destruct (is_write_need_confirmation _ _ _ _ _) as [[dg'|]|]; [|by specialize (Ha (mkConfirm (dg_file_num dg) (OffsetBlk 0))); destruct (confirm _ _ _)|done].
  destruct (digest_strategy j1 dg') as [[ow|] off]; [|done]. specialize (Ha (strategy_confirm dg' ow off)). by destruct (confirm _ _ _).
Qed.

(** Files that are read stay as they are. *)
Lemma read_kept ev s j jid r : peer_ok s.(pf_fs) s.(write_jobs) ->
  kept ev s (let '(j', fs') := confirm s.(pf_fs) j r in with_read (put_job jid j' s.(read_jobs)) (with_disk fs' s)).
Proof.
  intros Hok. pose proof (confirm_disk (pf_fs s) j r) as Hd. destruct (confirm (pf_fs s) j r) as [j' fs']. cbn in Hd. subst fs'.
  by apply kept_same.
Qed.

Lemma upload_digest_kept s dg wr : peer_ok s.(pf_fs) s.(write_jobs) -> kept (Msg (PDigest dg true) wr) s (on_upload_digest dg s).1.
Proof.
  intros Hok. unfold on_upload_digest. destruct (get_job (dg_id dg) (read_jobs s)) as [j|]; [|by apply kept_same].
  destruct (zget (files j) _) as [f|]; [|by apply kept_same]. destruct (data_source j) as [p|]; [|by apply kept_same].
  destruct (digest_strategy j dg) as [[ow|] off]; [|by apply kept_same].
  pose proof (read_kept (Msg (PDigest dg true) wr) s j (dg_id dg) (strategy_confirm dg ow off) Hok) as Ha. by destruct (confirm _ _ _).
Qed.

Lemma msg_kept h s m wr : peer_ok s.(pf_fs) s.(write_jobs) -> (forall fd, m = PDir fd -> L fd.(fd_id) (entries_of h fd)) ->
  kept (Msg m wr) s (handle_msg zstd_decode digest_json parse_digest h m wr s).1.
Proof.
  intros Hok HL. destruct m as [path dirs|fd|dg []|b|jid num|jid err num|jid r]; cbn [handle_msg].
  - by apply kept_same.
  - apply dir_kept; [done|by apply HL].
  - by apply upload_digest_kept.
  - by apply download_digest_kept.
  - by apply block_kept.
  - by apply done_kept.
  - by apply error_kept.
  - unfold on_send_confirm. destruct (get_job jid (read_jobs s)) as [j|]; [|by apply kept_same]. cbn. by apply read_kept.
Qed.

(** *** Commands of the user *)

Lemma read_job_kept (next : TransferJob * list Out -> State * list Out) ev s h jid num (r : result (TransferJob * list Out) JobErr) :
  peer_ok s.(pf_fs) s.(write_jobs) -> (forall p, (next p).1.(pf_fs) = s.(pf_fs) /\ (next p).1.(write_jobs) = s.(write_jobs)) ->
  kept ev s (match r with Err err => handle_job_status h jid num (Some err) s | Ok p => next p end).1.
Proof. intros Hok Hn. destruct r as [p|]; [|by apply kept_status, kept_same]. destruct (Hn p). by apply kept_same. Qed.

Lemma new_job_kept ev s t to num od jid m last : peer_ok s.(pf_fs) s.(write_jobs) -> t = Generic ->
  (exists d rd x, T jid d rd x /\ target to d rd x) ->
  kept ev s (with_write (s.(write_jobs) ++ [with_resume (with_meta (new_write jid t (FilePath to) num od) m) last false]) s).
Proof.
  intros Hok -> (d & rd & x & Ht & Hto). apply kept_jobs; [done..|]. intros H. apply Forall_app. split; [done|]. constructor; [|done].
  eapply (job_update _ (new_write jid Generic (FilePath to) num od)); [|done..]. by eapply job_new.
Qed.

Lemma command_kept h s c : peer_ok s.(pf_fs) s.(write_jobs) -> transfer (Cmd c) ->
  (forall jid to, asked jid to (Cmd c) -> exists d rd x, T jid d rd x /\ target to d rd x) ->
  kept (Cmd c) s (handle_command fuel h c s).1.
Proof.
  intros Hok Htr HA.
  destruct c as [jid t path to num hid []|jid t path to num hid []|jid []|jid|jid num|jid num ov rem []|jid path [] hid|jid|jid path|jid path num []|jid path []|jid path nn []];
    cbn [handle_command]; try done; try (by apply kept_same).
  - cbn [send_files fst]. destruct t.
    + apply (new_job_kept _ _ Generic to num _ jid (mkMeta path hid true 0) false); [done..|]. apply HA. constructor.
    + apply kept_jobs; [done..|]. intros H. apply Forall_app. split; [done|]. constructor; [|done]. left. split; [by eexists|done].
  - apply read_job_kept; [done|by intros []].
  - cbn [add_job fst]. destruct t; [|done]. apply (new_job_kept _ _ Generic to num _ jid (mkMeta path hid true 0) true); [done..|]. apply HA. constructor.
  - apply read_job_kept; [done|by intros []].
  - unfold resume_job. destruct (get_job jid (write_jobs s)) as [j|] eqn:Eg; [|by apply kept_same].
    destruct (job_at _ _ _ _ Hok Eg) as [Hj _]. apply kept_jobs; [done..|]. apply put_job_forall. by eapply job_update.
  - unfold resume_job. destruct (get_job jid (read_jobs s)) as [j|]; [|by apply kept_same]. destruct (data_source j); by apply kept_same.
  - cbn [set_confirm_override_file]. destruct (get_job jid (read_jobs s)) as [j|]; [|by apply kept_same].
    pose proof (read_kept (Cmd (SetConfirmOverrideFile jid num ov rem true)) s (remember_strategy rem ov j) jid (answer jid num ov) Hok) as Ha.
    by destruct (confirm _ _ _).
  - cbn [set_confirm_override_file]. destruct (get_job jid (write_jobs s)) as [j|] eqn:Eg; [|by apply kept_same].
    destruct (job_at _ _ _ _ Hok Eg) as [Hj _].
    pose proof (answered_kept (Cmd (SetConfirmOverrideFile jid num ov rem false)) s (remember_strategy rem ov j) jid (answer jid num ov) Hok) as Ha.
    assert (Hj' : job_good (pf_fs s) (remember_strategy rem ov j)) by (eapply job_update; [exact Hj|by destruct rem..]).
    specialize (Ha Hj'). by destruct (confirm _ _ _).
  - cbn [remove_dir_all]. destruct (get_recursive_files _ _ _ _); [by apply kept_same|by apply kept_status, kept_same].
  - by apply cancel_kept.
Qed.

Lemma peer_step_kept h s ev : peer_ok s.(pf_fs) s.(write_jobs) -> transfer ev ->
  (forall jid to, asked jid to ev -> exists d rd x, T jid d rd x /\ target to d rd x) ->
  (forall fd wr, ev = Msg (PDir fd) wr -> L fd.(fd_id) (entries_of h fd)) ->
  kept ev s (step h ev s).1.
Proof.
  intros Hok Htr HA HL. destruct ev as [c|m wr|reads]; cbn [PeerFiles.step].
  - by apply command_kept.
  - apply msg_kept; [done|]. intros fd ->. by eapply HL.
  - unfold tick. destruct (is_nil (read_jobs s)); [by apply kept_same|]. destruct (handle_read_jobs _ _ _ _). by apply kept_same.
Qed.

Lemma kept_only ev s s' : kept ev s s' -> only P s.(pf_fs) s'.(pf_fs).
Proof. intros [_ [-> |(j & d & rd & x & _ & _ & _ & Hc)]]; [apply only_refl|apply Hc]. Qed.

Definition allowed (hev : Env * Event) : Prop :=
  transfer hev.2 /\ (forall jid to, asked jid to hev.2 -> exists d rd x, T jid d rd x /\ target to d rd x) /\
  (forall fd wr, hev.2 = Msg (PDir fd) wr -> L fd.(fd_id) (entries_of hev.1 fd)).

Lemma peer_run_kept evs : forall s, peer_ok s.(pf_fs) s.(write_jobs) -> Forall allowed evs ->
  let s' := (run s evs).1 in peer_ok s'.(pf_fs) s'.(write_jobs) /\ only P s.(pf_fs) s'.(pf_fs).
Proof.
  induction evs as [|[h ev] evs IH]; intros s Hok Ha; cbn [PeerFiles.run]; [split; [done|apply only_refl]|].
  apply Forall_cons in Ha as [(H1 & H2 & H3) Ha]. pose proof (peer_step_kept h s ev Hok H1 H2 H3) as Hk.
  destruct (step h ev s) as [s1 o1]. destruct (IH s1 (proj1 Hk) Ha) as [Hok2 Ho2]. destruct (run s1 evs) as [s2 o2].
  split; [done|]. eapply only_trans; [by eapply kept_only|done].
Qed.

End Step.

(** ** The whole run *)

(** The downloads the user asked for, the lists the peer sent, and what these name. *)
Definition asked_for (evs : list (Env * Event)) (id : Z) (d : string) (rd : rpath) (x : string) : Prop :=
  exists h ev to, (h, ev) ∈ evs /\ asked id to ev /\ target to d rd x.
Definition sent (evs : list (Env * Event)) (id : Z) (l : list FileEntry) : Prop :=
  exists h fd wr, (h, Msg (PDir fd) wr) ∈ evs /\ fd.(fd_id) = id /\ l = entries_of h fd.
Definition touched (evs : list (Env * Event)) (k : rpath) : Prop :=
  exists id d rd x l, asked_for evs id d rd x /\ sent evs id l /\ listed rd (under_entry x <$> l) k.

Lemma all_allowed evs : Forall (fun hev => transfer hev.2) evs -> Forall (allowed (asked_for evs) (sent evs)) evs.
Proof.
  intros Ht. apply Forall_forall. intros [h ev] Hin. apply (proj1 (Forall_forall _ _) Ht) in Hin as Hev. split_and!; [done| |].
  - intros jid to Ha. assert (Hx : exists d rd x, target to d rd x) by (by inversion Ha; cbn in *; subst).
    destruct Hx as (d & rd & x & Hx). exists d, rd, x. split; [|done]. by exists h, ev, to.
  - intros fd wr Hev'. cbn in Hev'. subst ev. by exists h, fd, wr.
Qed.

Lemma touched_in evs id d rd x l k : asked_for evs id d rd x -> sent evs id l -> listed rd (under_entry x <$> l) k -> touched evs k.
Proof. intros. by exists id, d, rd, x, l. Qed.

(** C20: a hostile peer cannot make the controlling side write outside its downloads.  Take a
    disk on which the directories that hold the targets of downloads are real directories
    without links that bear a temporary suffix, and any sequence of the user's commands other
    than changes of the local disk itself, of timer ticks and of messages of the peer: lists of
    files for any job at any time, blocks, digests, ends and errors in any order, whatever fails
    on the way.  Then the only entries that come, go or change, and the only files whose contents
    change, are those a list the peer sent for a download names below the very path the user
    chose for that download (or that path itself, when it is a single file), with its temporary
    files; no link is made or lost anywhere; and each single step leaves the disk alone or acts
    for the one download its message is for. *)
Theorem downloads_contained (evs : list (Env * Event)) reads removes :
  wf fs0 -> Forall (dir_good fs0) R -> Forall (fun hev => transfer hev.2) evs ->
  let s0 := mkPf fs0 reads [] removes in
  let fs' := (run s0 evs).1.(pf_fs) in
  (forall k, ~ touched evs k -> fs'.(nodes) !! k = fs0.(nodes) !! k) /\
  (forall k i, ~ touched evs k -> fs0.(nodes) !! k = Some (NFile i) -> fs'.(inodes) !! i = fs0.(inodes) !! i) /\
  (forall k t, fs'.(nodes) !! k = Some (NLink t) <-> fs0.(nodes) !! k = Some (NLink t)) /\
  (forall pre h ev post, evs = pre ++ (h, ev) :: post ->
     let s1 := (run s0 pre).1 in
     let s2 := (step h ev s1).1 in
     s2.(pf_fs) = s1.(pf_fs) \/
     exists j d rd x, download_of ev = Some j.(id) /\ get_job j.(id) s1.(write_jobs) = Some j /\ asked_for evs j.(id) d rd x /\
       (forall k, ~ below rd k -> s2.(pf_fs).(nodes) !! k = s1.(pf_fs).(nodes) !! k) /\
       (forall k i, ~ below rd k -> s1.(pf_fs).(nodes) !! k = Some (NFile i) -> s2.(pf_fs).(inodes) !! i = s1.(pf_fs).(inodes) !! i)).
Proof.
  intros Hw Hd Ht. cbn zeta. set (s0 := mkPf fs0 reads [] removes).
  assert (Hok0 : peer_ok (touched evs) (asked_for evs) s0.(pf_fs) s0.(write_jobs)) by by split.
  pose proof (all_allowed evs Ht) as Ha.
  destruct (peer_run_kept (touched evs) (asked_for evs) (sent evs) (touched_in evs) evs s0 Hok0 Ha) as [Hok [On Oi]].
  split_and!.
  - intros k Hk. by destruct (On k).
  - intros k i Hk Hi. by destruct (Oi k i Hi).
  - apply Hok.
  - intros pre h ev post Hev. assert (Ha' : Forall (allowed (asked_for evs) (sent evs)) (pre ++ (h, ev) :: post)) by (rewrite <- Hev; exact Ha).
    apply Forall_app in Ha' as [Ha1 Ha2]. apply Forall_cons in Ha2 as [(H1 & H2 & H3) _].
    destruct (peer_run_kept (touched evs) (asked_for evs) (sent evs) (touched_in evs) pre s0 Hok0 Ha1) as [Hok1 _].
    destruct (peer_step_kept (touched evs) (asked_for evs) (sent evs) (touched_in evs) h _ ev Hok1 H1 H2 H3) as [_ [Hc|(j & d & rd & x & E1 & E2 & E3 & Hc)]];
      [by left|right].
    exists j, d, rd, x. split_and!; try done; [apply (in_nodes _ _ _ (ch_inside _ _ _ _ Hc))|apply (in_inodes _ _ _ (ch_inside _ _ _ _ Hc))].
Qed.

End Confined.

(** A download to [/srv/a] whose list is replaced half way, and then by a hostile one. *)
Definition down_fs : Fs := tree
  [(["srv"], NDir); (["srv"; "b"], NFile 0); (["etc"], NFile 1)]%string [(0%nat, mkInode [1] 5); (1%nat, mkInode [2] 5)].
Definition env0 : Env := mkEnv false false false (fun _ => "/"%string) 0.
Definition down_events : list (Env * Event) := (fun ev => (env0, ev)) <$>
  [Cmd (SendFiles 1 Generic "/home/u" "/srv/a" 0 false true);
   Msg (PDir (mkFd 1 "/home/u" [mkEntry File "x" false 1 9])) (mkIo true true);
   Msg (PBlock (mkBlock 1 0 [7] false)) (mkIo true true);
   Msg (PDir (mkFd 1 "/home/u" [mkEntry File "y" false 1 9; mkEntry File "d/z" false 1 9])) (mkIo true true);
   Msg (PBlock (mkBlock 1 1 [8] false)) (mkIo true true);
   Msg (PDir (mkFd 1 "/home/u" [mkEntry File "../b" false 1 9])) (mkIo true true);
   Msg (PBlock (mkBlock 1 1 [9] false)) (mkIo true true)].

Lemma downloads_contained_witness :
  let fs' := (run 4 (fun _ => None) (fun _ => None) (fun _ => []) (fun _ => None) (mkPf down_fs [] [] ∅) down_events).1.(pf_fs) in
  fs'.(nodes) !! (["etc"]%string) = Some (NFile 1) /\ fs'.(inodes) !! 1%nat = Some (mkInode [2] 5) /\
  fs'.(nodes) !! (["srv"; "a"; "d"]%string) = Some NDir /\ fs'.(nodes) !! (["srv"; "b"]%string) = Some (NFile 0).
Proof.
  destruct (downloads_contained 4 (fun _ => None) (fun _ => None) (fun _ => []) (fun _ => None) down_fs [("/srv", ["srv"])]%string down_events [] ∅) as (H1 & H2 & _).
  - apply wfb_wf. by vm_compute.
  - repeat constructor; cbn; try (by vm_compute); apply nolink_nosuf; by vm_compute.
  - repeat constructor. exists "/srv"%string, ["srv"]%string, "a"%string. split_and!; [by left|done|by vm_compute|by vm_compute].
  - assert (Hb : ~ touched down_fs [("/srv", ["srv"])]%string down_events ["etc"]%string).
    { intros (jid & d & rd & x & l & (h & ev & to & _ & _ & [Hr _]) & _ & Hl). apply list_elem_of_singleton in Hr as [= -> ->].
      revert Hl. apply not_listed. by intros (c & cs & E). }
    cbn zeta. split_and!; [by apply H1|by apply (H2 ["etc"]%string)|by vm_compute|by vm_compute].
Defined.

End PeerContain.

(** ** What the peer can do to a deletion *)

Module LocalDelete.
Import PeerContain.

(** The list of a deletion on this side is replaced by what the peer sends under its number: the
    next file the loop removes without asking is the peer's choice. *)
Definition home_fs : Fs := tree
  [(["old"], NDir); (["old"; "a"], NFile 0); (["old"; "b"], NFile 1); (["keep"], NDir); (["keep"; "key"], NFile 2)]%string
  [(0%nat, mkInode [1] 5); (1%nat, mkInode [2] 5); (2%nat, mkInode [3] 5)].
Definition delete_events : list (Env * Event) := (fun ev => (env0, ev)) <$>
  [Cmd (RemoveDirAll 1 "/old" false true); Cmd (SetNoConfirm 1);
   Msg (PDir (mkFd 1 "/" [mkEntry File "a" false 1 5; mkEntry File "../keep/key" false 1 5])) (mkIo true true);
   Cmd (RemoveFile 1 "/old/a" 0 false)].

Example local_delete_hijacked :
  let '(s, out) := run 4 (fun _ => None) (fun _ => None) (fun _ => []) (fun _ => None) (mkPf home_fs [] [] ∅) delete_events in
  last out = Some (ToSelf (RemoveFile 1 "/old/../keep/key" 1 false)) /\
  let s := (step 4 (fun _ => None) (fun _ => None) (fun _ => []) (fun _ => None) env0 (Cmd (RemoveFile 1 "/old/../keep/key" 1 false)) s).1 in
  s.(pf_fs).(nodes) !! (["keep"; "key"]%string) = None /\ s.(pf_fs).(nodes) !! (["old"; "b"]%string) = Some (NFile 1).
Proof. by vm_compute. Qed.

End LocalDelete.
