(* ===== verification/LoginLockout.v ===== *)
(** The back-off of terminal logins with operating-system credentials
    ([src/src/server/login_failure_check.rs]): the policy state behind its mutex, the decision,
    the record of a failure, and how many wrong guesses it lets through. *)

From S2P Require Import Prelude.
From stdpp Require Import pretty.

#[local] Open Scope Z_scope.

Module Lockout.

(** ** i64 arithmetic *)

Definition i64_sat_sub (a b : Z) : Z := Z.max (- 2 ^ 63) (Z.min (2 ^ 63 - 1) (a - b)).
Definition i64_add (a b : Z) : Z := swrap 64 (a + b).
Definition i32_sat_add (a b : Z) : Z := Z.max (- 2 ^ 31) (Z.min (2 ^ 31 - 1) (a + b)).

(** ** The policy *)

Definition OS_CREDENTIAL_LOGIN_TOTAL_IDLE_RESET_MS : Z := 120 * 60 * 1000.
Definition OS_CREDENTIAL_LOGIN_BACKOFF_BASE_SECONDS : Z := 15.
Definition OS_CREDENTIAL_LOGIN_BACKOFF_MAX_SECONDS : Z := 30 * 60.

Inductive FailureScope := Default | TerminalOsLogin.

Inductive AlarmAuditType :=
| IpWhitelist | ExceedThirtyAttempts | SixAttemptsWithinOneMinute | ExceedIPv6PrefixAttempts
| TerminalOsLoginBackoff | TerminalOsLoginConcurrency | SessionScopeViolation | IdWhitelist.

Record OsCredentialPolicyDecision := mkDecision {
  allowed : bool;
  login_error : option string;
  audit : option AlarmAuditType
}.

Record OsCredentialFailureState := mkFailureState {
  total_failures : Z;
  backoff_until_ms : option Z;
  last_failure_ms : option Z
}.
Definition failure_state_default : OsCredentialFailureState := mkFailureState 0 None None.

Definition is_os_credential_scope (scope : FailureScope) : bool :=
  match scope with TerminalOsLogin => true | Default => false end.

Definition backoff_audit_type_for_scope (scope : FailureScope) : option AlarmAuditType :=
  match scope with TerminalOsLogin => Some TerminalOsLoginBackoff | Default => None end.

Definition os_credential_login_backoff_seconds (total : Z) : Z :=
  if total <=? 2 then 0 else
  let exp := Z.min (total - 3) 7 in
  let seconds := OS_CREDENTIAL_LOGIN_BACKOFF_BASE_SECONDS * Z.shiftl 1 exp in
  Z.min seconds OS_CREDENTIAL_LOGIN_BACKOFF_MAX_SECONDS.

Definition normalize_backoff (s : OsCredentialFailureState) (now : Z) : OsCredentialFailureState :=
  match s.(backoff_until_ms) with
  | Some until => if until <=? now then mkFailureState s.(total_failures) None s.(last_failure_ms) else s
  | None => s
  end.

Definition reset_totals_on_idle (s : OsCredentialFailureState) (now : Z) : OsCredentialFailureState :=
  match s.(last_failure_ms) with
  | Some last =>
      if OS_CREDENTIAL_LOGIN_TOTAL_IDLE_RESET_MS <=? i64_sat_sub now last
      then mkFailureState 0 None None else s
  | None => s
  end.

Definition allow_decision : OsCredentialPolicyDecision := mkDecision true None None.
Definition block_decision (err : string) (alarm : option AlarmAuditType) : OsCredentialPolicyDecision :=
  mkDecision false (Some err) alarm.

(** [format!("Please try again in {} {}.", ..)] *)
Definition try_again_message (until now : Z) : string :=
  let remaining_ms := Z.max (until - now) 0 in
  let remaining_seconds := Z.max ((remaining_ms + 999) / 1000) 1 in
  let label := if remaining_seconds =? 1 then "second" else "seconds" in
  "Please try again in " +:+ pretty remaining_seconds +:+ " " +:+ label +:+ ".".

(** Both calls return the policy state they leave behind the mutex. *)
Definition evaluate_os_credential_policy (scope : FailureScope) (now : Z) (s : OsCredentialFailureState) :
    OsCredentialPolicyDecision * OsCredentialFailureState :=
  if negb (is_os_credential_scope scope) then (allow_decision, s) else
  let s := normalize_backoff (reset_totals_on_idle s now) now in
  match s.(backoff_until_ms) with
  | Some until => (block_decision (try_again_message until now) (backoff_audit_type_for_scope scope), s)
  | None => (allow_decision, s)
  end.

Definition record_os_credential_failure (scope : FailureScope) (now : Z) (s : OsCredentialFailureState) :
    OsCredentialFailureState :=
  if negb (is_os_credential_scope scope) then s else
  let s := normalize_backoff (reset_totals_on_idle s now) now in
  let total := i32_sat_add s.(total_failures) 1 in
  let backoff := os_credential_login_backoff_seconds total in
  mkFailureState total
    (if 0 <? backoff then Some (i64_add now (backoff * 1000)) else s.(backoff_until_ms)) (Some now).

(** ** Logins in flight

    A login first asks the policy, then verifies the credentials, then records a wrong guess;
    other connections may do the same in between.  [guesses] counts the wrong guesses. *)

Record World := mkWorld { policy : OsCredentialFailureState; now : Z; in_flight : Z; guesses : Z }.

Inductive step (m : Z) : World -> World -> Prop :=
| step_allowed w t s' d :
    w.(now) <= t -> evaluate_os_credential_policy TerminalOsLogin t w.(policy) = (d, s') ->
    d.(allowed) = true -> w.(in_flight) < m ->
    step m w (mkWorld s' t (w.(in_flight) + 1) w.(guesses))
| step_blocked w t s' d :
    w.(now) <= t -> evaluate_os_credential_policy TerminalOsLogin t w.(policy) = (d, s') ->
    d.(allowed) = false -> step m w (mkWorld s' t w.(in_flight) w.(guesses))
| step_wrong w t :
    w.(now) <= t -> 0 < w.(in_flight) ->
    step m w (mkWorld (record_os_credential_failure TerminalOsLogin t w.(policy)) t (w.(in_flight) - 1) (w.(guesses) + 1))
| step_over w t : (* right credentials, or the attempt never gets to the verification *)
    w.(now) <= t -> 0 < w.(in_flight) ->
    step m w (mkWorld w.(policy) t (w.(in_flight) - 1) w.(guesses)).

End Lockout.

Module LockoutFacts.
Import Lockout.

Definition backoff_ms (k : Z) : Z := os_credential_login_backoff_seconds k * 1000.

Lemma backoff_cases k :
  (k <= 2 /\ backoff_ms k = 0) \/ (k = 3 /\ backoff_ms k = 15000) \/ (k = 4 /\ backoff_ms k = 30000) \/
  (k = 5 /\ backoff_ms k = 60000) \/ (k = 6 /\ backoff_ms k = 120000) \/ (k = 7 /\ backoff_ms k = 240000) \/
  (k = 8 /\ backoff_ms k = 480000) \/ (k = 9 /\ backoff_ms k = 960000) \/ (10 <= k /\ backoff_ms k = 1800000).
Proof.
  destruct (Z_le_gt_dec k 2) as [H|H].
  - left. split; [done|]. unfold backoff_ms, os_credential_login_backoff_seconds.
    by rewrite (proj2 (Z.leb_le k 2)).
  - right. destruct (Z_le_gt_dec 10 k) as [H'|H'].
    + do 7 right. split; [done|]. unfold backoff_ms, os_credential_login_backoff_seconds.
      rewrite (proj2 (Z.leb_gt k 2)), (Z.min_r (k - 3) 7) by lia. done.
    + assert (k = 3 \/ k = 4 \/ k = 5 \/ k = 6 \/ k = 7 \/ k = 8 \/ k = 9) as Hk by lia.
      destruct_or! Hk; subst k; vm_compute; tauto.
Qed.

(** What [k] failures at one instant may be worth in time, in milliseconds: fifteen minutes for
    each guess less the back-offs served so far. *)
Definition credit (k : Z) : Z :=
  if k <=? 0 then 0 else if k <=? 3 then 900000 * k else
  if k <=? 4 then 3585000 else if k <=? 5 then 4455000 else if k <=? 6 then 5295000 else
  if k <=? 7 then 6075000 else if k <=? 8 then 6735000 else 7155000.

Ltac credit_cases k :=
  destruct (backoff_cases k) as [Hb|[Hb|[Hb|[Hb|[Hb|[Hb|[Hb|[Hb|Hb]]]]]]]].

Lemma credit_range k : 0 <= credit k <= 7155000.
Proof. unfold credit. repeat case_match; bool_to_prop; lia. Qed.

Lemma credit_mono k k' : k <= k' -> credit k <= credit k'.
Proof. intros. unfold credit. repeat case_match; bool_to_prop; lia. Qed.

Lemma credit_step k : 0 <= k -> credit k + 900000 <= credit (k + 1) + backoff_ms k.
Proof. intros. unfold credit. credit_cases k; destruct Hb as [? ->]; repeat case_match; bool_to_prop; lia. Qed.

Lemma backoff_nonneg k : 0 <= backoff_ms k <= 1800000.
Proof. credit_cases k; lia. Qed.

(** The clock stays where i64 milliseconds do not overflow. *)
Definition clock_ok (t : Z) : Prop := 0 <= t < 2 ^ 62.

Lemma i64_add_ok t k : clock_ok t -> i64_add t (backoff_ms k) = t + backoff_ms k.
Proof.
  intros H. pose proof (backoff_nonneg k). unfold i64_add, swrap, clock_ok in *.
  change (2 ^ (64 - 1)) with 9223372036854775808. change (2 ^ 62) with 4611686018427387904 in H.
  change (2 ^ 64) with 18446744073709551616. rewrite Z.mod_small; lia.
Qed.

Lemma i64_sat_sub_ok a b : clock_ok a -> clock_ok b -> i64_sat_sub a b = a - b.
Proof. unfold clock_ok, i64_sat_sub. change (2 ^ 62) with 4611686018427387904. pow2. lia. Qed.

(** The policy state read as: [k] failures, the last of them (or the last reset) at [a]. *)
Record view (s : OsCredentialFailureState) (now k a : Z) : Prop := mkView {
  view_total : s.(total_failures) = k;
  view_range : 0 <= k < 2 ^ 31;
  view_anchor : clock_ok a /\ a <= now;
  view_last : s.(last_failure_ms) = Some a \/ (s.(last_failure_ms) = None /\ k = 0);
  view_until : match s.(backoff_until_ms) with Some u => u = a + backoff_ms k | None => a + backoff_ms k <= now end
}.

Lemma normalize_view s t k a : view s t k a ->
  view (normalize_backoff s t) t k a /\
  ((normalize_backoff s t).(backoff_until_ms) = None <-> a + backoff_ms k <= t).
Proof.
  intros [Ht Hr Ha Hl Hu]. unfold normalize_backoff. destruct (backoff_until_ms s) as [u|] eqn:Eu.
  - subst u. destruct (Z.leb_spec (a + backoff_ms k) t).
    + split; [by split|]. by split.
    + split; [split; try done; by rewrite Eu|]. rewrite Eu. split; [done|lia].
  - split; [split; try done; by rewrite Eu|]. by rewrite Eu.
Qed.

(** Idle reset and expiry: either nothing is forgotten, or two hours have passed. *)
Lemma settle_view s n t k a : view s n k a -> n <= t -> clock_ok t ->
  let s' := normalize_backoff (reset_totals_on_idle s t) t in
  exists (k' a' : Z), (view s' t k' a') /\ (s'.(backoff_until_ms) = None <-> a' + backoff_ms k' <= t) /\
    ((k' = k /\ a' = a) \/ (k' = 0 /\ a' = t /\ a + 7200000 <= t)).
Proof.
  intros [Ht Hr [Ha Han] Hl Hu] Hnt Hct s'.
  assert (Hsame : view s t k a).
  { split; [done..|split; [done|lia]|done|]. destruct (backoff_until_ms s); [done|lia]. }
  unfold s', reset_totals_on_idle. destruct (last_failure_ms s) as [l|] eqn:El.
  2: { exists k, a. destruct (normalize_view _ _ _ _ Hsame). auto. }
  destruct Hl as [[= ->]|[? _]]; [|done]. rewrite i64_sat_sub_ok by done.
  unfold OS_CREDENTIAL_LOGIN_TOTAL_IDLE_RESET_MS. change (120 * 60 * 1000) with 7200000.
  destruct (Z.leb_spec 7200000 (t - a)).
  - exists 0, t. assert (Hv : view (mkFailureState 0 None None) t 0 t).
    { split; cbn; [done|pow2; lia|split; [done|lia]|by right|]. change (backoff_ms 0) with 0. lia. }
    destruct (normalize_view _ _ _ _ Hv). split_and!; [done..|]. right. split_and!; [done..|lia].
  - exists k, a. destruct (normalize_view _ _ _ _ Hsame). auto.
Qed.

(** ** The invariant of a run from [t0]

    [g] of the attempts in flight were let in since the anchor [a]; each failure recorded since
    then was paid for by [m] times the time that passed. *)
Definition inv (m t0 : Z) (w : World) : Prop :=
  exists k a g, view w.(policy) w.(now) k a /\ clock_ok w.(now) /\ t0 <= a /\
    0 <= g <= w.(in_flight) /\ w.(in_flight) <= m /\ k <= w.(guesses) /\
    (0 < g -> a + backoff_ms k <= w.(now)) /\
    900000 * (w.(guesses) + w.(in_flight) - g) <= m * (a - t0 + credit k).

Lemma mul_mono m x y : 0 <= m -> x <= y -> m * x <= m * y.
Proof. nia. Qed.

Lemma settle_inv m t0 w t : 0 <= m -> inv m t0 w -> w.(now) <= t -> clock_ok t ->
  let s' := normalize_backoff (reset_totals_on_idle w.(policy) t) t in
  exists k a g, view s' t k a /\ (s'.(backoff_until_ms) = None <-> a + backoff_ms k <= t) /\ t0 <= a /\
    0 <= g <= w.(in_flight) /\ w.(in_flight) <= m /\ k <= w.(guesses) /\
    (0 < g -> a + backoff_ms k <= t) /\
    900000 * (w.(guesses) + w.(in_flight) - g) <= m * (a - t0 + credit k).
Proof.
  intros Hm (k & a & g & Hv & Hc & H0 & Hg & Hf & Hn & Hb & Hinv) Ht Hct s'.
  pose proof (view_range _ _ _ _ Hv).
  destruct (settle_view _ _ t _ _ Hv Ht Hct) as (k' & a' & Hv' & Hu & [[-> ->]|(-> & -> & Hidle)]).
  - exists k, a, g. split_and!; try done; try lia.
  - exists 0, t, g. change (backoff_ms 0) with 0 in *. split_and!; try done; try lia.
    etrans; [exact Hinv|]. apply mul_mono; [done|]. pose proof (credit_range k). change (credit 0) with 0. lia.
Qed.

Lemma eval_eq t s : evaluate_os_credential_policy TerminalOsLogin t s =
  let s' := normalize_backoff (reset_totals_on_idle s t) t in
  (match s'.(backoff_until_ms) with
   | Some u => block_decision (try_again_message u t) (Some TerminalOsLoginBackoff)
   | None => allow_decision
   end, s').
Proof. unfold evaluate_os_credential_policy. cbn. by destruct (backoff_until_ms _). Qed.

(** Recording a failure. *)
Lemma record_view s t k a : view s t k a -> clock_ok t ->
  (s.(backoff_until_ms) = None <-> a + backoff_ms k <= t) -> k < 2 ^ 31 - 1 ->
  let total := i32_sat_add s.(total_failures) 1 in
  let backoff := os_credential_login_backoff_seconds total in
  view (mkFailureState total (if 0 <? backoff then Some (i64_add t (backoff * 1000)) else s.(backoff_until_ms)) (Some t)) t (k + 1) t.
Proof.
  intros [Ht Hr [Ha Han] Hl Hu] Hct Hn Hmax. cbv zeta. rewrite Ht.
  assert (Hs : i32_sat_add k 1 = k + 1) by (unfold i32_sat_add; pow2; lia). rewrite Hs.
  change (os_credential_login_backoff_seconds (k + 1) * 1000) with (backoff_ms (k + 1)). rewrite i64_add_ok by done.
  split; cbn [total_failures last_failure_ms backoff_until_ms]; [done|lia|split; [done|lia]|by left|].
  assert (Hpos : 0 < os_credential_login_backoff_seconds (k + 1) \/ (backoff_ms (k + 1) = 0 /\ k <= 1)).
  { unfold backoff_ms. credit_cases (k + 1); unfold backoff_ms in Hb; lia. }
  destruct (Z.ltb_spec 0 (os_credential_login_backoff_seconds (k + 1))); [done|].
  destruct Hpos as [?|[-> Hk]]; [lia|]. assert (backoff_ms k = 0) as Hz by (credit_cases k; lia).
  rewrite (proj2 Hn) by lia. lia.
Qed.

Lemma lockout_step_inv m t0 w w' : 0 < m < 2 ^ 20 -> step m w w' -> clock_ok w'.(now) -> w'.(guesses) < 2 ^ 31 - 1 ->
  inv m t0 w -> inv m t0 w'.
Proof.
  intros Hm Hstep Hct Hmax Hinv. pose proof Hinv as Hinv0.
  destruct Hstep as [w t s' d Ht He Ha Hf|w t s' d Ht He Ha|w t Ht Hf|w t Ht Hf]; cbn [now guesses] in *.
  - destruct (settle_inv m t0 w t) as (k & a & g & Hv & Hu & H); [lia|done..|].
    rewrite eval_eq in He. injection He as <- <-. destruct (backoff_until_ms _) eqn:E in Ha; [done|].
    apply Hu in E as E'. exists k, a, (g + 1). cbn. split_and!; try done; try lia.
  - destruct (settle_inv m t0 w t) as (k & a & g & Hv & Hu & H); [lia|done..|].
    rewrite eval_eq in He. injection He as <- <-. exists k, a, g. cbn. split_and!; try done; try lia.
  - destruct (settle_inv m t0 w t) as (k & a & g & Hv & Hu & H0 & Hg & Hfm & Hk & Hb & Hc); [lia|done..|].
    pose proof (record_view _ _ _ _ Hv Hct Hu ltac:(lia)) as Hv'. pose proof (view_anchor _ _ _ _ Hv) as [_ Ha].
    pose proof (view_range _ _ _ _ Hv) as Hr. pose proof (credit_step k ltac:(lia)). pose proof (credit_mono k (k + 1) ltac:(lia)).
    exists (k + 1), t, 0. cbn [policy now in_flight guesses]. split_and!; try done; try lia.
    destruct (Z.eq_dec g 0) as [->|].
    + etrans; [|apply (mul_mono m (a - t0 + credit k)); lia]. lia.
    + specialize (Hb ltac:(lia)). etrans; [|apply (mul_mono m (a - t0 + credit k + 900000)); lia]. lia.
  - destruct Hinv as (k & a & g & Hv & Hc & H0 & Hg & Hfm & Hk & Hb & Hi).
    exists k, a, (Z.min g (w.(in_flight) - 1)). cbn [policy now in_flight guesses]. destruct Hv as [Hvt Hr [Ha Han] Hl Hu].
    split_and!; try done; try lia. split; try done; [split; [done|lia]|]. destruct (backoff_until_ms _); [done|lia].
Qed.

Lemma lockout_steps_inv m t0 w w' : 0 < m < 2 ^ 20 -> rtc (step m) w w' -> clock_ok w'.(now) -> w'.(guesses) < 2 ^ 31 - 1 ->
  inv m t0 w -> inv m t0 w'.
Proof.
  intros Hm Hsteps Hct Hmax Hinv.
  assert (Hmono : forall a b, rtc (step m) a b -> 0 <= a.(now) -> a.(now) <= b.(now) /\ a.(guesses) <= b.(guesses)).
  { induction 1 as [|x y z Hxy _ IH]; intros; [lia|]. destruct Hxy; cbn [now guesses] in *; specialize (IH ltac:(lia)); lia. }
  induction Hsteps as [|x y z Hxy Hyz IH]; [done|].
  assert (0 <= x.(now)) by (destruct Hinv as (? & ? & ? & ? & [? ?] & _); lia).
  destruct (Hmono x y) as [Hn Hg]; [by apply rtc_once|done|]. destruct (Hmono y z) as [Hn' Hg']; [done|lia|].
  apply IH; [done..|]. eapply lockout_step_inv; [done..| | |done]; [unfold clock_ok in *; lia|lia].
Qed.

Definition start (t0 : Z) : World := mkWorld failure_state_default t0 0 0.

(** C29: operating-system credentials cannot be guessed fast.  With at most [m] logins between
    the policy check and the verification at any time, in [T] milliseconds an attacker gets at
    most one wrong guess per fifteen minutes and per login in flight, plus seven to begin with; a state in which the back-off runs lets nobody in, and its message names the
    remaining time, rounded up to seconds. *)
Theorem brute_force_bound (m t0 : Z) (w : World) :
  0 < m < 2 ^ 20 -> clock_ok t0 -> clock_ok w.(now) -> w.(guesses) < 2 ^ 31 - 1 ->
  rtc (step m) (start t0) w ->
  900000 * w.(guesses) <= m * (w.(now) - t0 + 7155000) /\
  (forall d s', evaluate_os_credential_policy TerminalOsLogin w.(now) w.(policy) = (d, s') ->
     match d.(login_error) with
     | None => d.(allowed) = true /\ d.(audit) = None
     | Some msg => d.(allowed) = false /\ d.(audit) = Some TerminalOsLoginBackoff /\
         exists sec, 1 <= sec <= 1800 /\
           msg = "Please try again in " +:+ pretty sec +:+ (if sec =? 1 then " second." else " seconds.")
     end).
Proof.
  intros Hm H0 Hct Hmax Hsteps.
  assert (Hstart : inv m t0 (start t0)).
  { exists 0, t0, 0. cbn. change (credit 0) with 0. split_and!; try done; try lia.
    split; cbn; [done|pow2; lia|split; [done|lia]|by right|]. change (backoff_ms 0) with 0. lia. }
  pose proof (lockout_steps_inv _ _ _ _ Hm Hsteps Hct Hmax Hstart) as Hinv.
  destruct (settle_inv m t0 w w.(now)) as (k & a & g & Hv & Hu & Ha & Hg & Hfm & Hk & Hb & Hc); [lia|done..|].
  split.
  - pose proof (credit_range k). pose proof (view_anchor _ _ _ _ Hv) as [_ Han].
    etrans; [|etrans; [exact Hc|apply mul_mono; lia]]. lia.
  - intros d s' He. rewrite eval_eq in He. injection He as <- _. destruct (backoff_until_ms _) as [u|] eqn:E; [|done].
    cbn [block_decision login_error allowed audit]. split_and!; [done..|].
    pose proof (view_until _ _ _ _ Hv) as Hun. rewrite E in Hun. pose proof (backoff_nonneg k). pose proof (view_anchor _ _ _ _ Hv) as [_ Han].
    exists (Z.max ((Z.max (u - w.(now)) 0 + 999) / 1000) 1). split; [divlia|].
    unfold try_again_message. by destruct (_ =? 1).
Qed.

Lemma brute_force_bound_witness : exists w, rtc (step 1) (start 1000) w /\ w.(guesses) = 3 /\
  900000 * w.(guesses) <= 1 * (w.(now) - 1000 + 7155000) /\
  (evaluate_os_credential_policy TerminalOsLogin w.(now) w.(policy)).1.(login_error) = Some "Please try again in 15 seconds.".
Proof.
  set (guess := fun w => mkWorld (record_os_credential_failure TerminalOsLogin 2000 w.(policy)) 2000 0 (w.(guesses) + 1)).
  set (w := guess (guess (guess (start 1000)))).
  assert (Hg : forall w0, w0.(now) <= 2000 -> w0.(in_flight) = 0 -> (evaluate_os_credential_policy TerminalOsLogin 2000 w0.(policy)) = (allow_decision, w0.(policy)) -> rtc (step 1) w0 (guess w0)).
  { intros w0 Hn Hf He. eapply rtc_l; [eapply (step_allowed 1 w0 2000); [done|exact He|done|lia]|].
    eapply rtc_l; [apply (step_wrong 1 _ 2000); cbn; lia|]. cbn. rewrite Hf. apply rtc_refl. }
  assert (Hs : rtc (step 1) (start 1000) w).
  { etrans; [apply Hg; [by vm_compute|done|by vm_compute]|]. etrans; [apply Hg; [by vm_compute|done|by vm_compute]|].
    apply Hg; [by vm_compute|done|by vm_compute]. }
  exists w. split; [exact Hs|]. split; [by vm_compute|]. split; [|by vm_compute].
  apply (brute_force_bound 1 1000 w); [lia|vm_compute; split; [intros H; discriminate H|reflexivity]|vm_compute; split; [intros H; discriminate H|reflexivity]|vm_compute; reflexivity|exact Hs].
Defined.

End LockoutFacts.
