(* ===== verification/LoginThrottle.v ===== *)
(** The login throttle by address ([src/src/server/connection.rs]): the failure counters of an
    address and of the IPv6 networks around it, the check before a guess and the update after
    it, and how many wrong guesses any interleaving of connections can make. *)

From S2P Require Import Prelude LoginLockout.

#[local] Open Scope Z_scope.

Module Throttle.
Import Lockout.

(** ** Addresses and keys

    [self.ip] is the text of an [IpAddr], which determines it; a network key is the text of the
    masked address with the prefix length behind a slash, so no two kinds of key agree. *)

Inductive IpAddr := V4 (addr : Z) | V6 (addr : Z).

Inductive Key := KAddr (ip : IpAddr) | KNet (addr : Z) (prefix : Z).

#[global] Instance IpAddr_eq_dec : EqDecision IpAddr.
Proof. solve_decision. Defined.
#[global] Instance Key_eq_dec : EqDecision Key.
Proof. solve_decision. Defined.

Definition key_code (k : Key) : Z * Z + Z * Z :=
  match k with
  | KAddr (V4 a) => inl (0, a)
  | KAddr (V6 a) => inl (1, a)
  | KNet a p => inr (a, p)
  end.
Definition key_decode (c : Z * Z + Z * Z) : Key :=
  match c with
  | inl (0, a) => KAddr (V4 a)
  | inl (_, a) => KAddr (V6 a)
  | inr (a, p) => KNet a p
  end.
#[global] Instance Key_countable : Countable Key.
Proof. apply (inj_countable' key_code key_decode). by intros [[a|a]|a p]. Defined.

Definition mask_u128 (addr prefix : Z) : Z :=
  let mask := if (prefix =? 0) || (128 <? prefix) then 0 else wrap 128 (Z.shiftl (2 ^ 128 - 1) (128 - prefix)) in
  Z.land addr mask.

(** [None] for an address that does not parse as IPv6. *)
Definition get_ipv6_prefixes (ip : IpAddr) : option (Key * Key * Key) :=
  match ip with
  | V4 _ => None
  | V6 a => Some (KNet (mask_u128 a 64) 64, KNet (mask_u128 a 56) 56, KNet (mask_u128 a 48) 48)
  end.

(** ** Counters: the minute of the last failure, the failures of that minute, all failures *)

Abbreviation Entry := (Z * Z * Z)%type.
Abbreviation FailureMap := (gmap Key Entry).

Definition entry (m : FailureMap) (k : Key) : Entry := default (0, 0, 0) (m !! k).

Definition bump_failure_entry (cur : Entry) (time : Z) : Entry :=
  let '(c0, c1, c2) := cur in
  if c0 =? time then (c0, swrap 32 (c1 + 1), swrap 32 (c2 + 1)) else (time, 1, swrap 32 (c2 + 1)).

Definition bump (time : Z) (m : FailureMap) (k : Key) : FailureMap :=
  <[k := bump_failure_entry (entry m k) time]> m.

Definition failure_keys (ip : IpAddr) : list Key :=
  KAddr ip :: match get_ipv6_prefixes ip with Some (p64, p56, p48) => [p64; p56; p48] | None => [] end.

(** The part of [update_failure_with_scope] behind the scope test, on the map of the bucket. *)
Definition update_failure (ip : IpAddr) (failure : Entry * Z) (remove : bool) (m : FailureMap) : FailureMap :=
  let '(f, time) := failure in
  if remove then
    if negb (f.1.1 =? 0) then
      match get_ipv6_prefixes ip with
      | Some (p64, p56, p48) => delete (KAddr ip) (delete p48 (delete p56 (delete p64 m)))
      | None => delete (KAddr ip) m
      end
    else m
  else
    match get_ipv6_prefixes ip with
    | Some (p64, p56, p48) => bump time (foldl (bump time) m [p64; p56; p48]) (KAddr ip)
    | None => bump time m (KAddr ip)
    end.

(** What a refusal sends and reports. *)
Definition Refusal : Type := string * AlarmAuditType.

Definition check_failure_ipv6_prefix (m : FailureMap) (time : Z) (prefix : Key) (prefix_num : string) (thresh : Z) :
    option ((Entry * Z) * bool * list Refusal) :=
  let failure_prefix := entry m prefix in
  if thresh <? failure_prefix.2
  then Some ((failure_prefix, time), false, [("Too many wrong attempts for IPv6 prefix /" +:+ prefix_num, ExceedIPv6PrefixAttempts)])
  else None.

(** [(get_time() / 60_000) as i32] *)
Definition minute_of (now_ms : Z) : Z := swrap 32 (Z.quot now_ms 60000).

Definition check_address (m : FailureMap) (ip : IpAddr) (time : Z) : (Entry * Z) * bool * list Refusal :=
  let failure := entry m (KAddr ip) in
  if 30 <? failure.2 then ((failure, time), false, [("Too many wrong attempts", ExceedThirtyAttempts)])
  else if (time =? failure.1.1) && (6 <? failure.1.2)
  then ((failure, time), false, [("Please try 1 minute later", SixAttemptsWithinOneMinute)])
  else ((failure, time), true, []).

Definition check_failure (m : FailureMap) (ip : IpAddr) (now_ms : Z) : (Entry * Z) * bool * list Refusal :=
  let time := minute_of now_ms in
  match get_ipv6_prefixes ip with
  | Some (p64, p56, p48) =>
      match check_failure_ipv6_prefix m time p64 "64" 60 with
      | Some res => res
      | None =>
      match check_failure_ipv6_prefix m time p56 "56" 80 with
      | Some res => res
      | None =>
      match check_failure_ipv6_prefix m time p48 "48" 100 with
      | Some res => res
      | None => check_address m ip time
      end end end
  | None => check_address m ip time
  end.

(** [now.saturating_sub(v.0) >= window], in minutes *)
Definition i32_sat_sub (a b : Z) : Z := Z.max (- 2 ^ 31) (Z.min (2 ^ 31 - 1) (a - b)).

Definition decay_stale_failures (m : FailureMap) (keys : list Key) (now window : Z) : FailureMap :=
  foldl (fun m k => match m !! k with
                    | Some v => if window <=? i32_sat_sub now v.1.1 then delete k m else m
                    | None => m
                    end) m keys.

Definition clear_failures (m : FailureMap) (keys : list Key) : FailureMap := foldl (fun m k => delete k m) m keys.

Definition ID_WHITELIST_FAILURE_DECAY_MINUTES : Z := 10.

Definition decay_id_whitelist_failures (ip : IpAddr) (now_ms : Z) (m : FailureMap) : FailureMap :=
  decay_stale_failures m (failure_keys ip) (minute_of now_ms) ID_WHITELIST_FAILURE_DECAY_MINUTES.

Definition clear_id_whitelist_failures (ip : IpAddr) (m : FailureMap) : FailureMap :=
  clear_failures m (failure_keys ip).

(** ** Connections between their check and their update

    Every connection checks, judges the guess, and then updates the map with what the check
    returned; the steps of different connections interleave.  [pending] holds the guesses being
    judged, [wrong] the addresses of the wrong ones, latest first. *)

Record World := mkWorld { failures : FailureMap; pending : list (IpAddr * (Entry * Z)); wrong : list IpAddr }.

Inductive Event :=
| ECheck (ip : IpAddr) (now_ms : Z)
| EWrong (i : nat)
| ERight (i : nat)
| EGone (i : nat)
| EDecay (ip : IpAddr) (now_ms : Z)
| EClear (ip : IpAddr).

Definition exec (w : World) (e : Event) : option World :=
  match e with
  | ECheck ip now_ms =>
      let '(failure, res, _) := check_failure w.(failures) ip now_ms in
      Some (if res : bool then mkWorld w.(failures) ((ip, failure) :: w.(pending)) w.(wrong) else w)
  | EWrong i =>
      '(ip, failure) ← w.(pending) !! i;
      Some (mkWorld (update_failure ip failure false w.(failures)) (delete i w.(pending)) (ip :: w.(wrong)))
  | ERight i =>
      '(ip, failure) ← w.(pending) !! i;
      Some (mkWorld (update_failure ip failure true w.(failures)) (delete i w.(pending)) w.(wrong))
  | EGone i =>
      _ ← w.(pending) !! i;
      Some (mkWorld w.(failures) (delete i w.(pending)) w.(wrong))
  | EDecay ip now_ms => Some (mkWorld (decay_id_whitelist_failures ip now_ms w.(failures)) w.(pending) w.(wrong))
  | EClear ip => Some (mkWorld (clear_id_whitelist_failures ip w.(failures)) w.(pending) w.(wrong))
  end.

(** At most [c] guesses are judged at a time, and every event satisfies [P]. *)
Definition step_if (c : Z) (P : World -> Event -> Prop) (w w' : World) : Prop :=
  exists e, P w e /\ exec w e = Some w' /\ zlen w'.(pending) <= c.
Definition step (c : Z) : World -> World -> Prop := step_if c (fun _ _ => True).

Definition start : World := mkWorld ∅ [] [].

(** An event that may forget the failures under [k]. *)
Definition may_forget (k : Key) (w : World) (e : Event) : Prop :=
  match e with
  | ERight i => exists p, w.(pending) !! i = Some p /\ k ∈ failure_keys p.1
  | EDecay ip _ | EClear ip => k ∈ failure_keys ip
  | _ => False
  end.

Definition under (k : Key) (l : list IpAddr) : Z := zlen (filter (fun ip => k ∈ failure_keys ip) l).
Definition threshold (k : Key) : Z :=
  match k with KAddr _ => 30 | KNet _ p => if p =? 64 then 60 else if p =? 56 then 80 else 100 end.

End Throttle.

Module ThrottleFacts.
Import Throttle.

Lemma failure_keys_nodup ip : NoDup (failure_keys ip).
Proof.
  unfold failure_keys. destruct ip as [a|a]; cbn [get_ipv6_prefixes]; [apply NoDup_singleton|].
  repeat apply NoDup_cons_2; try apply NoDup_nil_2; rewrite ?elem_of_cons, ?elem_of_nil; intuition congruence.
Qed.

Lemma kaddr_keys ip ip' : KAddr ip ∈ failure_keys ip' -> ip' = ip.
Proof.
  unfold failure_keys. destruct ip' as [a|a]; cbn [get_ipv6_prefixes]; rewrite ?elem_of_cons, ?elem_of_nil; intuition congruence.
Qed.

(** The update on every key at once. *)
Lemma bump_all_lookup time ks m k : NoDup ks ->
  foldl (bump time) m ks !! k = if bool_decide (k ∈ ks) then Some (bump_failure_entry (entry m k) time) else m !! k.
Proof.
  revert m. induction ks as [|k' ks IH]; intros m Hnd; cbn [foldl]; [by rewrite bool_decide_eq_false_2 by set_solver|].
  apply NoDup_cons in Hnd as [Hk' Hnd]. rewrite IH by done. unfold bump, entry.
  destruct (decide (k = k')) as [->|Hne].
  - rewrite bool_decide_eq_false_2 by done. rewrite bool_decide_eq_true_2 by set_solver. by rewrite lookup_insert_eq.
  - rewrite lookup_insert_ne by done. destruct (decide (k ∈ ks)).
    + by rewrite !bool_decide_eq_true_2 by set_solver.
    + by rewrite !bool_decide_eq_false_2 by set_solver.
Qed.

Lemma update_wrong_lookup ip f time m k :
  update_failure ip (f, time) false m !! k =
  if bool_decide (k ∈ failure_keys ip) then Some (bump_failure_entry (entry m k) time) else m !! k.
Proof.
  set (nets := match get_ipv6_prefixes ip with Some (p64, p56, p48) => [p64; p56; p48] | None => [] end).
  assert (Hu : update_failure ip (f, time) false m = foldl (bump time) m (nets ++ [KAddr ip])).
  { unfold update_failure, nets. by destruct (get_ipv6_prefixes ip) as [[[] ?]|]. }
  assert (Hp : nets ++ [KAddr ip] ≡ₚ failure_keys ip) by (unfold failure_keys; fold nets; by rewrite Permutation_app_comm).
  rewrite Hu, bump_all_lookup by (rewrite Hp; apply failure_keys_nodup).
  by rewrite (bool_decide_ext _ _ (elem_of_Permutation_proper k _ _ Hp)).
Qed.

(** What a map may forget: entries of the keys [ks]. *)
Definition forgets (ks : list Key) (m m' : FailureMap) : Prop :=
  forall k, m' !! k = m !! k \/ (m' !! k = None /\ k ∈ ks).

Lemma forgets_fold (f : FailureMap -> Key -> FailureMap) ks0 ks m :
  (forall m k, k ∈ ks -> f m k = m \/ f m k = delete k m) -> (forall k, k ∈ ks -> k ∈ ks0) -> forgets ks0 m (foldl f m ks).
Proof.
  intros Hf. revert m. induction ks as [|k ks IH]; intros m Hin; [by left|]. cbn [foldl].
  intros k'. destruct (IH ltac:(intros; apply Hf; set_solver) (f m k) ltac:(set_solver) k') as [->|?]; [|by right].
  destruct (Hf m k) as [-> | ->]; [set_solver|by left|]. destruct (decide (k' = k)) as [->|].
  - right. rewrite lookup_delete_eq. split; [done|]. apply Hin. set_solver.
  - left. by rewrite lookup_delete_ne.
Qed.

Lemma update_right_forgets ip failure m : forgets (failure_keys ip) m (update_failure ip failure true m).
Proof.
  unfold update_failure. destruct failure as [f time]. destruct (negb _); [|by left].
  unfold failure_keys. destruct (get_ipv6_prefixes ip) as [[[p64 p56] p48]|].
  - refine (forgets_fold (fun m k => delete k m) _ [p64; p56; p48; KAddr ip] m _ _); [auto|set_solver].
  - refine (forgets_fold (fun m k => delete k m) _ [KAddr ip] m _ _); [auto|set_solver].
Qed.

Lemma decay_forgets ip now m : forgets (failure_keys ip) m (decay_id_whitelist_failures ip now m).
Proof. apply forgets_fold; [|done]. intros m' k _. repeat case_match; auto. Qed.

Lemma clear_forgets ip m : forgets (failure_keys ip) m (clear_id_whitelist_failures ip m).
Proof. apply forgets_fold; [auto|done]. Qed.

(** What a positive check says. *)
Lemma check_allowed m ip now failure rs : check_failure m ip now = (failure, true, rs) ->
  failure = (entry m (KAddr ip), minute_of now) /\ rs = [] /\
  (forall k, k ∈ failure_keys ip -> (entry m k).2 <= threshold k) /\
  ((entry m (KAddr ip)).1.1 = minute_of now -> (entry m (KAddr ip)).1.2 <= 6).
Proof.
  assert (Ha : forall time, check_address m ip time = (failure, true, rs) ->
    failure = (entry m (KAddr ip), time) /\ rs = [] /\ (entry m (KAddr ip)).2 <= 30 /\
    ((entry m (KAddr ip)).1.1 = time -> (entry m (KAddr ip)).1.2 <= 6)).
  { intros time. unfold check_address. destruct (entry m (KAddr ip)) as [[c0 c1] c2]. cbn. repeat case_match; intros [=]; subst.
    bool_to_prop. split_and!; [done..|lia|]. destruct H0; bool_to_prop; lia. }
  unfold check_failure, check_failure_ipv6_prefix, failure_keys.
  destruct (get_ipv6_prefixes ip) as [[[p64 p56] p48]|] eqn:E.
  - destruct ip as [a|a]; [done|]. injection E as <- <- <-.
    destruct (60 <? _) eqn:E1; [done|]. destruct (80 <? _) eqn:E2; [done|]. destruct (100 <? _) eqn:E3; [done|]. bool_to_prop.
    intros (-> & -> & ? & ?)%Ha. split_and!; [done..| |done]. intros k Hk.
    rewrite !elem_of_cons, elem_of_nil in Hk. destruct_or! Hk; subst; try done; cbn; lia.
  - intros (-> & -> & ? & ?)%Ha. split_and!; [done..| |done]. intros k ->%list_elem_of_singleton. cbn. done.
Qed.

(** ** Counting *)

Lemma under_cons k ip l : under k (ip :: l) = (if bool_decide (k ∈ failure_keys ip) then 1 else 0) + under k l.
Proof. unfold under. rewrite filter_cons. case_decide; case_bool_decide; try done; cbn [length]; lia. Qed.

Lemma under_push {B} k (p : IpAddr * B) l :
  under k (p :: l).*1 = (if bool_decide (k ∈ failure_keys p.1) then 1 else 0) + under k l.*1.
Proof. exact (under_cons k p.1 l.*1). Qed.

Lemma under_delete {B} k (l : list (IpAddr * B)) i p : l !! i = Some p ->
  under k l.*1 = (if bool_decide (k ∈ failure_keys p.1) then 1 else 0) + under k (delete i l).*1.
Proof.
  revert i. induction l as [|q l IH]; intros [|i] H; try discriminate H.
  - injection H as ->. apply under_push.
  - pose proof (IH i H) as IHi. change (delete (S i) (q :: l)) with (q :: delete i l).
    rewrite !under_push, IHi. lia.
Qed.

Lemma under_le {B} k (l : list (IpAddr * B)) : 0 <= under k l.*1 <= zlen l.
Proof. unfold under. pose proof (length_filter (fun ip => k ∈ failure_keys ip) l.*1). rewrite length_fmap in H. lia. Qed.

Lemma length_delete_lt {B} (l : list B) i x : l !! i = Some x -> zlen (delete i l) = zlen l - 1.
Proof. intros H. rewrite length_delete by eauto. apply lookup_lt_Some in H. lia. Qed.

(** ** The invariant *)

Definition inv (c : Z) (w : World) : Prop :=
  zlen w.(pending) <= c /\
  forall k, 0 <= (entry w.(failures) k).1.2 <= (entry w.(failures) k).2 /\
    (entry w.(failures) k).2 + under k w.(pending).*1 <= threshold k + c.

Definition minute_count (t : Z) (e : Entry) : Z := if e.1.1 =? t then e.1.2 else 0.

Lemma minute_count_range t e : 0 <= e.1.2 -> 0 <= minute_count t e <= e.1.2.
Proof. unfold minute_count. destruct (_ =? _); lia. Qed.

Lemma bump_entry e t : 0 <= e.1.2 <= e.2 -> e.2 < 2 ^ 31 - 1 ->
  let e' := bump_failure_entry e t in
  0 <= e'.1.2 <= e'.2 /\ e'.2 = e.2 + 1 /\ minute_count t e' = minute_count t e + 1.
Proof.
  destruct e as [[c0 c1] c2]. cbn. intros H1 H2.
  assert (Hs : forall x, 0 <= x <= c2 -> swrap 32 (x + 1) = x + 1).
  { intros x Hx. unfold swrap. change (2 ^ (32 - 1)) with 2147483648. pow2. rewrite Z.mod_small; lia. }
  unfold minute_count. destruct (Z.eqb_spec c0 t) as [->|Hne]; cbn; rewrite ?Z.eqb_refl, ?(proj2 (Z.eqb_neq c0 t)), ?Hs by (done || lia); lia.
Qed.

Lemma threshold_range k : 30 <= threshold k <= 100.
Proof. destruct k; cbn; repeat case_match; lia. Qed.

Lemma entry_wrong ip f time m k :
  entry (update_failure ip (f, time) false m) k =
  if bool_decide (k ∈ failure_keys ip) then bump_failure_entry (entry m k) time else entry m k.
Proof. unfold entry at 1. rewrite update_wrong_lookup. by case_bool_decide. Qed.

Lemma entry_forgets ks m m' k : forgets ks m m' ->
  entry m' k = entry m k \/ (entry m' k = (0, 0, 0) /\ k ∈ ks).
Proof. intros H. unfold entry. destruct (H k) as [->|[-> ?]]; auto. Qed.

(** One step, seen from a key. *)
Lemma exec_key c w e w' k : c < 2 ^ 20 -> inv c w -> exec w e = Some w' ->
  let en := entry w.(failures) k in let en' := entry w'.(failures) k in
  (* a guess is let in *)
  (exists ip f now, e = ECheck ip now /\ w' = mkWorld w.(failures) ((ip, (f, minute_of now)) :: w.(pending)) w.(wrong) /\
    (k ∈ failure_keys ip -> en.2 <= threshold k) /\
    (k = KAddr ip -> minute_count (minute_of now) en <= 6)) \/
  (* a wrong guess is recorded *)
  (exists i ip f time, w.(pending) !! i = Some (ip, (f, time)) /\
    w'.(pending) = delete i w.(pending) /\ w'.(wrong) = ip :: w.(wrong) /\
    en' = if bool_decide (k ∈ failure_keys ip) then bump_failure_entry en time else en) \/
  (* anything else *)
  ((w'.(pending) = w.(pending) \/ exists i p, w.(pending) !! i = Some p /\ w'.(pending) = delete i w.(pending)) /\
    w'.(wrong) = w.(wrong) /\ (en' = en \/ (en' = (0, 0, 0) /\ may_forget k w e))).
Proof.
  intros Hc Hinv. destruct e as [ip now|i|i|i|ip now|ip]; cbn [exec may_forget].
  - destruct (check_failure _ ip now) as [[failure res] rs] eqn:E. destruct res; intros [= <-].
    + left. apply check_allowed in E as (-> & _ & Ht & Hm). eexists ip, _, now. split_and!; try done; [by apply Ht|].
      intros ->. unfold minute_count. destruct (Z.eqb_spec (entry (failures w) (KAddr ip)).1.1 (minute_of now)); [by apply Hm|lia].
    + right; right. auto.
  - destruct (pending w !! i) as [[ip [f time]]|] eqn:E; cbn; intros [= <-]. right; left.
    exists i, ip, f, time. split_and!; try done. exact (entry_wrong ip f time w.(failures) k).
  - destruct (pending w !! i) as [[ip failure]|] eqn:E; cbn; intros [= <-]. right; right. split_and!; [eauto|done|].
    destruct (entry_forgets _ _ _ k (update_right_forgets ip failure w.(failures))) as [?|[? ?]]; [by left|right; split; [done|by eexists]].
  - destruct (pending w !! i) as [p|] eqn:E; cbn; intros [= <-]. right; right. split_and!; eauto.
  - intros [= <-]. right; right. split_and!; [by left|done|]. apply entry_forgets, decay_forgets.
  - intros [= <-]. right; right. split_and!; [by left|done|]. apply entry_forgets, clear_forgets.
Qed.

Lemma throttle_step_inv c P w w' : c < 2 ^ 20 -> inv c w -> step_if c P w w' -> inv c w'.
Proof.
  intros Hc Hinv (e & _ & He & Hlen). split; [done|]. intros k. pose proof Hinv as [Hl Hk]. specialize (Hk k).
  pose proof (threshold_range k) as Ht. pose proof (under_le k w.(pending)) as Hu. pose proof (under_le k w'.(pending)) as Hu'.
  destruct (exec_key _ _ _ _ k Hc Hinv He) as [(ip & f & now & -> & -> & Hen & _)|[(i & ip & f & time & Hi & Hp & _ & ->)|(Hp & _ & Hen)]].
  - cbn [failures pending] in *. rewrite under_push in *. cbn [fst] in *. split; [lia|].
    case_bool_decide; [specialize (Hen ltac:(done))|]; lia.
  - rewrite Hp. pose proof (under_delete k _ _ _ Hi) as Hd. cbn [fst] in Hd.
    case_bool_decide; [|lia]. destruct (bump_entry (entry w.(failures) k) time) as (H1 & H2 & _); lia.
  - assert (under k w'.(pending).*1 <= under k w.(pending).*1).
    { destruct Hp as [->|(i & p & Hi & ->)]; [done|]. rewrite (under_delete k _ _ _ Hi). case_bool_decide; lia. }
    destruct Hen as [->|[-> _]]; cbn [fst snd] in *; lia.
Qed.

Lemma throttle_steps_inv c P w w' : c < 2 ^ 20 -> inv c w -> rtc (step_if c P) w w' -> inv c w'.
Proof. intros Hc Hinv H. induction H; [done|]. eauto using throttle_step_inv. Qed.

Lemma throttle_start_inv c : 0 <= c -> inv c start.
Proof. intros. split; [done|]. intros k. pose proof (threshold_range k).
  change (entry start.(failures) k) with (0, 0, 0). change (under k start.(pending).*1) with 0. cbn [fst snd]. lia.
Qed.

(** While nothing is forgotten under [k], its counter counts. *)
Lemma quiet_count c w w' k : c < 2 ^ 20 -> inv c w -> rtc (step_if c (fun w e => ~ may_forget k w e)) w w' ->
  (entry w'.(failures) k).2 - under k w'.(wrong) = (entry w.(failures) k).2 - under k w.(wrong).
Proof.
  intros Hc Hinv Hsteps. induction Hsteps as [|x y z Hxy Hyz IH]; [done|].
  rewrite IH by eauto using throttle_step_inv. clear IH Hyz. pose proof Hinv as [Hl Hk]. specialize (Hk k).
  pose proof (threshold_range k). pose proof (under_le k x.(pending)). destruct Hxy as (e & Hq & He & _).
  destruct (exec_key _ _ _ _ k Hc Hinv He) as [(ip & f & now & -> & -> & _)|[(i & ip & f & time & Hi & Hp & Hw & ->)|(_ & -> & Hen)]]; [done| |].
  - rewrite Hw, under_cons. case_bool_decide; [|lia]. destruct (bump_entry (entry x.(failures) k) time) as (_ & -> & _); lia.
  - destruct Hen as [->|[_ ?]]; [done|by destruct Hq].
Qed.

(** The same within one minute. *)
Definition quiet_minute (k : Key) (t : Z) (w : World) (e : Event) : Prop :=
  ~ may_forget k w e /\ match e with ECheck _ now => minute_of now = t | _ => True end.

Definition minute_inv (c t n0 : Z) (k : Key) (w : World) : Prop :=
  Forall (fun p => p.2.2 = t) w.(pending) /\
  ((under k w.(pending).*1 = 0 /\ under k w.(wrong) = n0) \/
   (minute_count t (entry w.(failures) k) + under k w.(pending).*1 <= 6 + c /\
    under k w.(wrong) - n0 <= minute_count t (entry w.(failures) k))).

Lemma minute_step c t n0 ip w w' : let k := KAddr ip in c < 2 ^ 20 -> inv c w -> 0 <= under k w.(wrong) - n0 ->
  step_if c (quiet_minute k t) w w' -> minute_inv c t n0 k w -> minute_inv c t n0 k w' /\ 0 <= under k w'.(wrong) - n0.
Proof.
  intros k. assert (Ek : k = KAddr ip) by done. clearbody k. intros Hc Hinv Hn (e & [Hq Hm] & He & Hlen) [Hall Hj]. pose proof Hinv as [Hl Hk]. specialize (Hk k).
  pose proof (threshold_range k). pose proof (under_le k w.(pending)) as Hu.
  destruct (exec_key _ _ _ _ k Hc Hinv He) as [(ip' & f & now & -> & -> & _ & Hen)|[(i & ip' & f & time & Hi & Hp & Hw & Hen)|(Hp & Hw & Hen)]].
  - cbn in Hm. subst t. unfold minute_inv. cbn [pending wrong failures] in *. split; [|done]. split; [by constructor|]. rewrite under_push. cbn [fst].
    pose proof (under_le k ((ip', (f, minute_of now)) :: w.(pending))) as Hu'. rewrite under_push in Hu'. cbn [fst] in Hu'.
    pose proof (minute_count_range (minute_of now) (entry w.(failures) k) ltac:(lia)).
    case_bool_decide as Hin; [|destruct Hj; [left|right]; lia].
    rewrite Ek in Hin. apply kaddr_keys in Hin as ->. specialize (Hen Ek). cbn [length] in *. destruct Hj as [?|?]; right; lia.
  - assert (Hti : time = t) by (rewrite Forall_lookup in Hall; exact (Hall _ _ Hi)). subst t.
    pose proof (under_delete k _ _ _ Hi) as Hd. cbn [fst] in Hd.
    unfold minute_inv. rewrite Hp, Hw, under_cons, Hen. assert (Forall (fun p => p.2.2 = time) (delete i w.(pending))) by by apply Forall_delete.
    case_bool_decide; (split; [split; [done|]|lia]); [|destruct Hj; [left|right]; lia].
    destruct (bump_entry (entry w.(failures) k) time) as (_ & _ & ->); [lia..|]. destruct Hj as [[? _]|?]; [|right; lia].
    pose proof (under_le k (delete i w.(pending))). lia.
  - assert (Hen' : entry w'.(failures) k = entry w.(failures) k) by (destruct Hen as [?|[_ ?]]; [done|by destruct Hq]).
    unfold minute_inv. rewrite Hw, Hen'. split; [|done]. destruct Hp as [->|(i & p & Hi & ->)]; [done|].
    split; [by apply Forall_delete|]. pose proof (under_delete k _ _ _ Hi) as Hd. pose proof (under_le k (delete i w.(pending))).
    case_bool_decide; destruct Hj; [lia|right; lia|left; lia|right; lia].
Qed.

Lemma minute_steps c t n0 ip w w' : let k := KAddr ip in c < 2 ^ 20 -> inv c w -> 0 <= under k w.(wrong) - n0 ->
  minute_inv c t n0 k w -> rtc (step_if c (quiet_minute k t)) w w' -> minute_inv c t n0 k w' /\ inv c w'.
Proof.
  intros k Hc Hinv Hn Hj Hsteps. induction Hsteps as [|x y z Hxy Hyz IH]; [done|].
  destruct (minute_step c t n0 ip x y); [done..|]. apply IH; [eauto using throttle_step_inv|done|done].
Qed.

(** Nothing is counted under a key without a wrong guess under it. *)
Lemma entry_le_wrong c w k : c < 2 ^ 20 -> 0 <= c -> rtc (step c) start w -> (entry w.(failures) k).2 <= under k w.(wrong).
Proof.
  intros Hc Hc0 Hsteps. pose proof (throttle_start_inv c Hc0) as Hinv.
  assert (H0 : (entry start.(failures) k).2 <= under k start.(wrong)) by done.
  induction Hsteps as [|x y z Hxy Hyz IH]; [done|]. apply IH; [eauto using throttle_step_inv|]. clear IH Hyz.
  pose proof Hinv as [Hl Hk]. specialize (Hk k). pose proof (threshold_range k). pose proof (under_le k x.(pending)).
  destruct Hxy as (e & _ & He & _).
  destruct (exec_key _ _ _ _ k Hc Hinv He) as [(ip & f & now & -> & -> & _)|[(i & ip & f & time & Hi & Hp & Hw & ->)|(_ & -> & Hen)]]; [done| |].
  - rewrite Hw, under_cons. case_bool_decide; [|lia]. destruct (bump_entry (entry x.(failures) k) time) as (_ & -> & _); lia.
  - destruct Hen as [->|[-> _]]; cbn [snd]; lia.
Qed.

Lemma check_allows m ip now :
  (forall k, k ∈ failure_keys ip -> (entry m k).1.2 <= 0 /\ (entry m k).2 <= 0) -> (check_failure m ip now).1.2 = true.
Proof.
  assert (Ha : (entry m (KAddr ip)).1.2 <= 0 /\ (entry m (KAddr ip)).2 <= 0 -> forall time, (check_address m ip time).1.2 = true).
  { intros [H1 H2] time. unfold check_address. rewrite (proj2 (Z.ltb_ge 30 _)), (proj2 (Z.ltb_ge 6 _)), andb_false_r by lia. done. }
  unfold check_failure, check_failure_ipv6_prefix, failure_keys. destruct (get_ipv6_prefixes ip) as [[[p64 p56] p48]|]; intros H.
  - rewrite (proj2 (Z.ltb_ge 60 _)), (proj2 (Z.ltb_ge 80 _)), (proj2 (Z.ltb_ge 100 _)); [apply Ha, H; set_solver| | |];
      match goal with |- (entry m ?q).2 <= _ => destruct (H q ltac:(set_solver)) end; lia.
  - apply Ha, H. set_solver.
Qed.

(** C28: password, second factor and ID guesses are throttled by address and by IPv6 network,
    however connections interleave.  With at most [c] guesses judged at a time: until a guess
    under it succeeds (or, for IDs, its entry decays), an address gets at most [30 + c] wrong
    guesses, a /64 network [60 + c], a /56 [80 + c] and a /48 [100 + c]; within one minute an
    address gets at most [6 + c]; and an address that shares no network with a wrong guesser
    is never refused. *)
Theorem throttle_bound (c : Z) (w0 w : World) (k : Key) :
  0 <= c < 2 ^ 20 -> rtc (step c) start w0 ->
  (rtc (step_if c (fun w e => ~ may_forget k w e)) w0 w -> under k w.(wrong) - under k w0.(wrong) <= threshold k + c) /\
  (forall ip t, k = KAddr ip -> w0.(pending) = [] -> rtc (step_if c (quiet_minute k t)) w0 w ->
     under k w.(wrong) - under k w0.(wrong) <= 6 + c) /\
  (forall ip now, (forall ip', ip' ∈ w0.(wrong) -> failure_keys ip ## failure_keys ip') ->
     (check_failure w0.(failures) ip now).1.2 = true).
Proof.
  intros [Hc0 Hc] Hreach. pose proof (throttle_steps_inv _ _ _ _ Hc (throttle_start_inv c Hc0) Hreach) as Hinv. split_and!.
  - intros Hq. pose proof (quiet_count _ _ _ _ Hc Hinv Hq). pose proof (throttle_steps_inv _ _ _ _ Hc Hinv Hq) as [_ Hk].
    destruct (Hk k). destruct Hinv as [_ Hk0]. destruct (Hk0 k). pose proof (under_le k w.(pending)). lia.
  - intros ip t -> Hp Hm.
    destruct (minute_steps c t (under (KAddr ip) w0.(wrong)) ip w0 w) as [[_ Hj] [_ Hk]]; [done..|lia| |done|].
    { split; rewrite Hp; [done|]. by left. }
    pose proof (under_le (KAddr ip) w.(pending)). destruct Hj; lia.
  - intros ip now Hdis. apply check_allows. intros k' Hk'.
    assert (under k' w0.(wrong) = 0) as Hz.
    { unfold under. destruct (filter _ _) as [|ip' l] eqn:E; [done|].
      assert (ip' ∈ ip' :: l) as Hin by by left. rewrite <- E, list_elem_of_filter in Hin. destruct Hin as [Hin Hin'].
      exfalso. by apply (Hdis ip' Hin' k'). }
    pose proof (entry_le_wrong c w0 k' Hc Hc0 Hreach). destruct Hinv as [_ Hk0]. destruct (Hk0 k'). lia.
Qed.

Lemma throttle_bound_witness : exists w, rtc (step 1) start w /\ under (KNet 0 64) w.(wrong) = 2 /\
  under (KNet 0 64) w.(wrong) - under (KNet 0 64) start.(wrong) <= threshold (KNet 0 64) + 1 /\
  (check_failure w.(failures) (V4 7) 0).1.2 = true.
Proof.
  set (e1 := ECheck (V6 1) 0). set (e2 := ECheck (V6 2) 0). set (x := EWrong 0).
  set (run := fun w e => default w (exec w e)).
  set (w1 := run start e1). set (w2 := run w1 x). set (w3 := run w2 e2). set (w4 := run w3 x).
  set (P := fun (w : World) e => ~ may_forget (KNet 0 64) w e).
  assert (Hs : forall w e w', exec w e = Some w' -> match e with ECheck _ _ | EWrong _ => True | _ => False end -> zlen w'.(pending) <= 1 -> step_if 1 P w w').
  { intros w e w' He Hq Hl. exists e. split_and!; [|done..]. unfold P. destruct e; cbn in *; tauto. }
  assert (Hq : rtc (step_if 1 P) start w4).
  { eapply rtc_l; [apply (Hs _ e1 w1); [by vm_compute|done|by vm_compute]|]. eapply rtc_l; [apply (Hs _ x w2); [by vm_compute|done|by vm_compute]|].
    eapply rtc_l; [apply (Hs _ e2 w3); [by vm_compute|done|by vm_compute]|]. apply rtc_once, (Hs _ x w4); [by vm_compute|done|by vm_compute]. }
  assert (Hr : rtc (step 1) start w4).
  { eapply rtc_subrel; [|exact Hq]. intros ? ? (e & _ & H). exists e. auto. }
  exists w4. split; [exact Hr|]. split; [by vm_compute|]. split.
  - apply (throttle_bound 1 start w4 (KNet 0 64)); [lia|apply rtc_refl|exact Hq].
  - apply (throttle_bound 1 w4 w4 (KNet 0 64)); [lia|exact Hr|].
    intros ip' Hin. assert (ip' = V6 2 \/ ip' = V6 1) as [-> | ->].
    { change (wrong w4) with [V6 2; V6 1] in Hin. set_solver. }
    + intros y Hy1 Hy2. apply list_elem_of_singleton in Hy1. subst y. vm_compute in Hy2. repeat (apply elem_of_cons in Hy2 as [Hy2|Hy2]; [discriminate Hy2|]). by apply not_elem_of_nil in Hy2.
    + intros y Hy1 Hy2. apply list_elem_of_singleton in Hy1. subst y. vm_compute in Hy2. repeat (apply elem_of_cons in Hy2 as [Hy2|Hy2]; [discriminate Hy2|]). by apply not_elem_of_nil in Hy2.
Defined.

End ThrottleFacts.
