(* ===== verification/LoginId.v ===== *)
(** The ID whitelist ([src/src/server/connection.rs]): the wildcard matcher, and which IDs a
    whitelist lets in. *)

From S2P Require Import Prelude.

Module IdList.

(** ** Strings as lists of characters (code points) *)

Abbreviation str := (list Z).

Definition STAR : Z := 42.
Definition QUESTION : Z := 63.
Definition AT : Z := 64.
Definition COMMA : Z := 44.

(** Unicode [White_Space]. *)
Definition is_whitespace (c : Z) : bool :=
  ((9 <=? c) && (c <=? 13)) || (c =? 32) || (c =? 133) || (c =? 160) || (c =? 5760) ||
  ((8192 <=? c) && (c <=? 8202)) || (c =? 8232) || (c =? 8233) || (c =? 8239) || (c =? 8287) || (c =? 12288).

Fixpoint trim_start (s : str) : str :=
  match s with c :: s' => if is_whitespace c then trim_start s' else s | [] => [] end.
Definition trim (s : str) : str := reverse (trim_start (reverse (trim_start s))).

(** [str::split] at a character. *)
Fixpoint split_at (sep : Z) (s : str) : list str :=
  match s with
  | [] => [[]]
  | c :: s' =>
      if c =? sep then [] :: split_at sep s'
      else match split_at sep s' with w :: ws => (c :: w) :: ws | [] => [[c]] end
  end.

(** ** The matcher *)

(** [while pi < p.len() && p[pi] == '*' { pi += 1 }; pi == p.len()] on the rest of the pattern. *)
Fixpoint only_stars (p : str) : bool :=
  match p with c :: p' => if c =? STAR then only_stars p' else false | [] => true end.

(** The loop; [None] is running out of fuel. *)
Fixpoint match_loop (fuel : nat) (p t : str) (pi ti : nat) (star : option (nat * nat)) : option bool :=
  match fuel with
  | O => None
  | S fuel =>
      match t !! ti with
      | None => Some (only_stars (drop pi p))
      | Some x =>
          if bool_decide (p !! pi = Some STAR) then match_loop fuel p t (S pi) ti (Some (S pi, ti))
          else if bool_decide (p !! pi = Some QUESTION) || bool_decide (p !! pi = Some x)
          then match_loop fuel p t (S pi) (S ti) star
          else match star with
               | Some (sp, st) => match_loop fuel p t sp (S st) (Some (sp, S st))
               | None => Some false
               end
      end
  end.

Definition match_fuel (p t : str) : nat := S ((length t + 2) * (length t + length p + 1)).

Section Whitelist.
(** [str::to_lowercase], a table of the standard library. *)
Variable to_lowercase : str -> str.

Definition wildcard_match (pattern text : str) : bool :=
  let p := to_lowercase (trim pattern) in
  let t := to_lowercase (trim text) in
  default false (match_loop (match_fuel p t) p t 0 0 None).

Definition id_whitelist_allows (id_whitelist : list str) (my_id : str) : bool :=
  if is_nil id_whitelist then true else
  let bare_id := default my_id (head (split_at AT my_id)) in
  existsb (fun x => wildcard_match x my_id || wildcard_match x bare_id) id_whitelist.
End Whitelist.

(** The option's text as a list of patterns. *)
Definition parse_id_whitelist (option : str) : list str :=
  filter (fun x => x <> []) (trim <$> split_at COMMA option).

End IdList.

Module IdListFacts.
Import IdList.

(** ** What a pattern means *)

Inductive Glob : str -> str -> Prop :=
| glob_nil : Glob [] []
| glob_star p t1 t2 : Glob p t2 -> Glob (STAR :: p) (t1 ++ t2)
| glob_any c p t : Glob p t -> Glob (QUESTION :: p) (c :: t)
| glob_char c p t : c <> STAR -> Glob p t -> Glob (c :: p) (c :: t).

Definition one (c x : Z) : bool := (c =? QUESTION) || (c =? x).

Lemma glob_cons c p x t : c <> STAR -> Glob (c :: p) (x :: t) <-> one c x = true /\ Glob p t.
Proof.
  intros Hc. unfold one. split.
  - inversion 1; subst; [done|..]; rewrite Z.eqb_refl, ?orb_true_r; auto.
  - intros [H Hg]. apply orb_true_iff in H as [->%Z.eqb_eq| ->%Z.eqb_eq]; by constructor.
Qed.

Lemma glob_cons_nil c p : c <> STAR -> ~ Glob (c :: p) [].
Proof. intros Hc. inversion 1; subst; done. Qed.

Lemma glob_nil_inv t : Glob [] t <-> t = [].
Proof. split; [by inversion 1|]. intros ->. constructor. Qed.

Lemma glob_star_inv p t : Glob (STAR :: p) t <-> exists n, (n <= length t)%nat /\ Glob p (drop n t).
Proof.
  split.
  - inversion 1 as [|p' t1 t2 Hg| |]; subst; [|done..]. exists (length t1). rewrite length_app, drop_app_length. split; [lia|done].
  - intros (n & _ & Hg). rewrite <- (take_drop n t). by constructor.
Qed.

Lemma glob_star_drop p n t : Glob (STAR :: p) (drop n t) -> Glob (STAR :: p) t.
Proof.
  rewrite !glob_star_inv. intros (k & Hk & Hg). rewrite drop_drop in Hg. rewrite length_drop in Hk.
  destruct (decide (n <= length t)%nat).
  - exists (n + k)%nat. split; [lia|done].
  - exists (length t). split; [done|]. rewrite drop_ge by done. by rewrite drop_ge in Hg by lia.
Qed.

(** A star takes nothing, or one character and more. *)
Lemma glob_star_unfold p x t : Glob (STAR :: p) (x :: t) <-> Glob p (x :: t) \/ Glob (STAR :: p) t.
Proof.
  rewrite glob_star_inv. split.
  - intros ([|n] & Hn & Hg); [by left|]. right. apply glob_star_inv. exists n. cbn in *. split; [lia|done].
  - intros [Hg|Hg]; [by exists O; split; [lia|]|]. apply glob_star_inv in Hg as (n & Hn & Hg). exists (S n). cbn. split; [lia|done].
Qed.

(** A pattern without stars takes as many characters as it has. *)
Lemma glob_segment q p t : STAR ∉ q -> Glob (q ++ p) t -> (length q <= length t)%nat /\ Glob p (drop (length q) t).
Proof.
  revert t. induction q as [|c q IH]; intros t Hq Hg; [split; [cbn; lia|done]|].
  apply not_elem_of_cons in Hq as [Hc Hq]. destruct t as [|x t]; [by apply glob_cons_nil in Hg|].
  apply glob_cons in Hg as [_ Hg]; [|done]. destruct (IH t Hq Hg). cbn. split; [lia|done].
Qed.

Lemma only_stars_spec p : only_stars p = true <-> Glob p [].
Proof.
  induction p as [|c p IH]; [split; [constructor|done]|]. cbn. destruct (Z.eqb_spec c STAR) as [->|Hc].
  - rewrite IH, glob_star_inv. split; [by exists O|]. intros (n & _ & Hg). by rewrite drop_nil in Hg.
  - split; [done|]. by intros ?%glob_cons_nil.
Qed.

(** ** The loop *)

(** What the loop knows about the whole match [G]: it is decided by the rest of the pattern on the
    rest of the text, or by the latest star taking more than it did. *)
Definition loop_inv (p t : str) (pi ti : nat) (star : option (nat * nat)) (G : Prop) : Prop :=
  (pi <= length p)%nat /\ (ti <= length t)%nat /\
  match star with
  | None => G <-> Glob (drop pi p) (drop ti t)
  | Some (sp, st) =>
      exists q, STAR ∉ q /\ drop sp p = q ++ drop pi p /\ (sp <= length p)%nat /\ (st + length q = ti)%nat /\
        (G <-> Glob (drop pi p) (drop ti t) \/ ((st < length t)%nat /\ Glob (STAR :: drop sp p) (drop (S st) t)))
  end.

Definition loop_measure (p t : str) (pi ti : nat) (star : option (nat * nat)) : nat :=
  match star with Some (_, st) => length t - st | None => length t + 1 end * (length t + length p + 1) +
  (length t - ti) + (length p - pi).

Lemma drop_lookup {A} (l : list A) i x : l !! i = Some x -> drop i l = x :: drop (S i) l.
Proof. intros. by apply drop_S. Qed.

Lemma loop_star p t pi ti star G : loop_inv p t pi ti star G -> (ti < length t)%nat -> p !! pi = Some STAR ->
  loop_inv p t (S pi) ti (Some (S pi, ti)) G.
Proof.
  intros (Hpi & Hti & HG) Hlt Hp. pose proof (lookup_lt_Some _ _ _ Hp). destruct (lookup_lt_is_Some_2 t ti Hlt) as [x Hx].
  split_and!; [lia|lia|]. exists []. split_and!; [apply not_elem_of_nil|done|lia|cbn; lia|].
  assert (Hnow : Glob (drop pi p) (drop ti t) <-> Glob (drop (S pi) p) (drop ti t) \/ ((ti < length t)%nat /\ Glob (STAR :: drop (S pi) p) (drop (S ti) t))).
  { rewrite (drop_lookup _ _ _ Hp), (drop_lookup _ _ _ Hx), glob_star_unfold. tauto. }
  rewrite <- Hnow. destruct star as [[sp st]|]; [|done]. destruct HG as (q & Hq & Hsp & Hspl & Hst & HG). rewrite HG.
  split; [|by left]. intros [?|[Hst' Hg]]; [done|]. rewrite (drop_lookup _ _ _ Hp).
  apply glob_star_inv in Hg as (n & Hn & Hg). rewrite Hsp in Hg. apply glob_segment in Hg as [_ Hg]; [|done].
  rewrite (drop_lookup _ _ _ Hp), !drop_drop in Hg.
  apply (glob_star_drop _ (S n)). rewrite drop_drop. by replace (ti + S n)%nat with (S st + (n + length q))%nat by lia.
Qed.

Lemma loop_char p t pi ti star G c x : loop_inv p t pi ti star G -> t !! ti = Some x -> p !! pi = Some c -> c <> STAR ->
  one c x = true -> loop_inv p t (S pi) (S ti) star G.
Proof.
  intros (Hpi & Hti & HG) Hx Hp Hc Hone. pose proof (lookup_lt_Some _ _ _ Hp). pose proof (lookup_lt_Some _ _ _ Hx).
  split_and!; [lia|lia|]. assert (Hnow : Glob (drop pi p) (drop ti t) <-> Glob (drop (S pi) p) (drop (S ti) t)).
  { rewrite (drop_lookup _ _ _ Hp), (drop_lookup _ _ _ Hx), glob_cons by done. tauto. }
  destruct star as [[sp st]|]; [|by rewrite <- Hnow]. destruct HG as (q & Hq & Hsp & Hspl & Hst & HG).
  exists (q ++ [c]). rewrite length_app. cbn. split_and!; [|by rewrite <- app_assoc, Hsp, (drop_lookup _ _ _ Hp)|done|lia|by rewrite <- Hnow].
  rewrite elem_of_app, list_elem_of_singleton. intros [?|?]; [done|by apply Hc].
Qed.

(** The current character does not fit. *)
Lemma no_fit p t pi ti x : t !! ti = Some x -> p !! pi <> Some STAR -> p !! pi <> Some QUESTION -> p !! pi <> Some x ->
  ~ Glob (drop pi p) (drop ti t).
Proof.
  intros Hx H1 H2 H3 Hg. rewrite (drop_lookup _ _ _ Hx) in Hg. destruct (p !! pi) as [c|] eqn:Hp.
  - rewrite (drop_lookup _ _ _ Hp) in Hg. apply glob_cons in Hg as [Ho _]; [|congruence]. unfold one in Ho.
    apply orb_true_iff in Ho as [->%Z.eqb_eq| ->%Z.eqb_eq]; congruence.
  - apply lookup_ge_None in Hp. rewrite drop_ge in Hg by done. by apply glob_nil_inv in Hg.
Qed.

Lemma loop_back p t pi ti sp st G x : loop_inv p t pi ti (Some (sp, st)) G -> t !! ti = Some x ->
  ~ Glob (drop pi p) (drop ti t) -> loop_inv p t sp (S st) (Some (sp, S st)) G.
Proof.
  intros (Hpi & Hti & q & Hq & Hsp & Hspl & Hst & HG) Hx Hno. pose proof (lookup_lt_Some _ _ _ Hx).
  split_and!; [done|lia|]. exists []. split_and!; [apply not_elem_of_nil|done|done|cbn; lia|].
  rewrite HG. destruct (decide (S st < length t)%nat) as [Hlt|Hge].
  - destruct (lookup_lt_is_Some_2 t (S st) Hlt) as [y Hy]. rewrite (drop_lookup _ _ _ Hy), glob_star_unfold.
    split; [intros [?|[_ [?|?]]]; [done|by left|by right]|intros [?|[_ ?]]; right; (split; [lia|auto])].
  - rewrite (drop_ge t (S st)) by lia. split.
    + intros [?|[_ Hg]]; [done|]. left. apply glob_star_inv in Hg as (n & _ & Hg). by rewrite drop_nil in Hg.
    + intros [Hg|[? _]]; [|lia]. right. split; [lia|]. apply glob_star_inv. exists O. split; [lia|done].
Qed.

Lemma loop_end p t pi ti star G : loop_inv p t pi ti star G -> t !! ti = None -> only_stars (drop pi p) = true <-> G.
Proof.
  intros (Hpi & Hti & HG) Hx%lookup_ge_None. rewrite only_stars_spec. assert (Ht : drop ti t = []) by by apply drop_ge. rewrite Ht in HG.
  destruct star as [[sp st]|]; [|done]. destruct HG as (q & Hq & Hsp & Hspl & Hst & HG). rewrite HG. split; [by left|].
  intros [?|[Hlt Hg]]; [done|]. apply glob_star_inv in Hg as (n & Hn & Hg). rewrite Hsp in Hg. apply glob_segment in Hg as [Hl _]; [|done].
  rewrite !length_drop in *. lia.
Qed.

Lemma loop_spec fuel p t pi ti star G : loop_inv p t pi ti star G -> (loop_measure p t pi ti star < fuel)%nat ->
  exists b, match_loop fuel p t pi ti star = Some b /\ (b = true <-> G).
Proof.
  revert pi ti star. induction fuel as [|fuel IH]; intros pi ti star Hinv Hf; [lia|]. cbn [match_loop].
  destruct (t !! ti) as [x|] eqn:Hx; [|eexists; split; [done|by eapply loop_end]].
  pose proof (lookup_lt_Some _ _ _ Hx) as Htl. unfold loop_measure in *.
  assert (Hst : match star with Some (_, st) => (st <= ti)%nat | None => True end).
  { destruct Hinv as (_ & _ & H). destruct star as [[sp st]|]; [|done]. destruct H as (q & _ & _ & _ & ? & _). lia. }
  destruct (bool_decide_reflect (p !! pi = Some STAR)) as [Hs|Hs].
  { pose proof (lookup_lt_Some _ _ _ Hs). apply IH; [by eapply loop_star|].
    destruct star as [[sp st]|]; [assert (length t - ti <= length t - st)%nat by lia|]; nia. }
  destruct (bool_decide (p !! pi = Some QUESTION) || bool_decide (p !! pi = Some x)) eqn:Hfit.
  { destruct (p !! pi) as [c|] eqn:Hp; [|by rewrite !bool_decide_eq_false_2 in Hfit by done]. pose proof (lookup_lt_Some _ _ _ Hp).
    apply IH; [|lia]. eapply loop_char; [done|done|done|congruence|]. unfold one. rewrite orb_true_iff, !bool_decide_eq_true in Hfit.
    apply orb_true_iff. destruct Hfit as [[= ->]|[= ->]]; rewrite Z.eqb_refl; auto. }
  apply orb_false_iff in Hfit as [Hq%bool_decide_eq_false Hc%bool_decide_eq_false]. pose proof (no_fit p t pi ti x Hx Hs Hq Hc) as Hno.
  destruct star as [[sp st]|].
  - apply IH; [by eapply loop_back|]. assert (exists d, length t - st = S d /\ length t - S st = d)%nat as (d & E1 & E2) by (exists (length t - S st)%nat; lia).
    rewrite E1 in Hf. rewrite E2. destruct Hinv as (? & ? & q & ? & Hsp & ? & ? & ?). nia.
  - eexists. split; [done|]. destruct Hinv as (_ & _ & ->). done.
Qed.

Lemma match_total p t : exists b, match_loop (match_fuel p t) p t 0 0 None = Some b /\ (b = true <-> Glob p t).
Proof.
  apply loop_spec; [split_and!; [lia|lia|done]|]. unfold loop_measure, match_fuel. nia.
Qed.

Section WhitelistSpec.
Variable to_lowercase : str -> str.

(** Case and surrounding blanks aside. *)
Definition norm (s : str) : str := to_lowercase (trim s).
Definition matches (pattern text : str) : Prop := Glob (norm pattern) (norm text).

Lemma wildcard_match_spec pattern text : wildcard_match to_lowercase pattern text = true <-> matches pattern text.
Proof. unfold wildcard_match, matches, norm. destruct (match_total (to_lowercase (trim pattern)) (to_lowercase (trim text))) as (b & -> & H). done. Qed.

(** C30: the ID whitelist means what its patterns say.  The backtracking matcher always ends,
    within a number of steps quadratic in its inputs, and accepts exactly the texts in the
    language of the pattern, where a star stands for any characters and a question mark for
    one, case and surrounding blanks aside; a whitelist lets in an ID if it is empty or if one
    of its patterns matches the ID, or the ID up to its first at sign. *)
Theorem whitelist_language (whitelist : list str) (my_id : str) :
  (forall p t, exists b, match_loop (match_fuel p t) p t 0 0 None = Some b /\ (b = true <-> Glob p t)) /\
  exists bare rest, my_id = bare ++ rest /\ AT ∉ bare /\ (rest = [] \/ head rest = Some AT) /\
    (id_whitelist_allows to_lowercase whitelist my_id = true <->
     whitelist = [] \/ exists p, p ∈ whitelist /\ (matches p my_id \/ matches p bare)).
Proof.
  split; [intros p t; exact (match_total p t)|].
  assert (Hsplit : exists bare rest, my_id = bare ++ rest /\ AT ∉ bare /\ (rest = [] \/ head rest = Some AT) /\
    head (split_at AT my_id) = Some bare).
  { induction my_id as [|c s IH]; [exists [], []; split_and!; [done|apply not_elem_of_nil|by left|done]|].
    cbn [split_at]. destruct (Z.eqb_spec c AT) as [->|Hc].
    - exists [], (AT :: s). split_and!; [done|apply not_elem_of_nil|by right|done].
    - destruct IH as (bare & rest & -> & Hb & Hr & Hh). exists (c :: bare), rest.
      destruct (split_at AT (bare ++ rest)) as [|w ws]; [done|]. injection Hh as ->.
      split_and!; [done| |done|done]. apply not_elem_of_cons. split; [congruence|done]. }
  destruct Hsplit as (bare & rest & He & Hb & Hr & Hh). exists bare, rest. split_and!; [done..|].
  unfold id_whitelist_allows. rewrite Hh. cbn [default]. destruct whitelist as [|p l] eqn:El; [split; [by left|done]|].
  cbn [is_nil]. rewrite existsb_exists, <- El. split.
  - intros (p' & Hin & Hm). right. exists p'. split; [by apply list_elem_of_In|]. by rewrite orb_true_iff, !wildcard_match_spec in Hm.
  - intros [?|(p' & Hin & Hm)]; [congruence|]. exists p'. split; [by apply list_elem_of_In|]. by rewrite orb_true_iff, !wildcard_match_spec.
Qed.
End WhitelistSpec.

End IdListFacts.
