(* ===== verification/LoginAdmit.v ===== *)
(** The bound on connections that have not authorized yet ([admit_unauthorized] and the guard
    [UnauthorizedID] of [src/src/server/connection.rs]). *)

From S2P Require Import Prelude LoginThrottle.

Module Admit.
Import Throttle.

Definition MAX_UNAUTHORIZED_CONNS : Z := 64.
Definition MAX_UNAUTHORIZED_CONNS_PER_ADDR : Z := 16.

(** A live guard: its connection, its address, and the flag it shares with the registry. *)
Record UnauthorizedID := mkGuard { id : Z; held : IpAddr; evicted : bool }.

(** [UNAUTHORIZED_CONNS], oldest first. *)
Abbreviation Registry := (list UnauthorizedID).

(** The flag is set and its waiter notified, unless it was set before. *)
Definition evict_first (conns : Registry) : Registry :=
  match conns with g :: gs => mkGuard g.(id) g.(held) true :: gs | [] => [] end.

(** [true] for a place; the registry is changed either way. *)
Definition admit_unauthorized (i : Z) (ip : IpAddr) (conns : Registry) : bool * Registry :=
  if MAX_UNAUTHORIZED_CONNS_PER_ADDR <=? zlen (filter (fun g => g.(held) = ip) conns) then (false, conns)
  else if MAX_UNAUTHORIZED_CONNS <=? zlen conns then (false, evict_first conns)
  else (true, conns ++ [mkGuard i ip false]).

Definition is_evicted (i : Z) (conns : Registry) : bool := existsb (fun g => (g.(id) =? i) && g.(evicted)) conns.

(** [Drop]: at authorization, or when the connection ends. *)
Definition drop_guard (i : Z) (conns : Registry) : Registry := filter (fun g => g.(id) <> i) conns.

(** Arrivals, each under an id no live guard has, and departures in any order. *)
Inductive step : Registry -> Registry -> Prop :=
| step_arrive conns i ip : i ∉ id <$> conns -> step conns (admit_unauthorized i ip conns).2
| step_leave conns i : step conns (drop_guard i conns).

End Admit.

Module AdmitFacts.
Import Throttle Admit.

Definition of_addr (ip : IpAddr) (conns : Registry) : Z := zlen (filter (fun g => g.(held) = ip) conns).

Record inv (conns : Registry) : Prop := mkInv {
  inv_ids : NoDup (id <$> conns);
  inv_total : zlen conns <= MAX_UNAUTHORIZED_CONNS;
  inv_share : forall ip, of_addr ip conns <= MAX_UNAUTHORIZED_CONNS_PER_ADDR;
  inv_evicted : forall g gs, conns = g :: gs -> Forall (fun g' => g'.(evicted) = false) gs
}.

Lemma evict_first_ids conns : id <$> evict_first conns = id <$> conns.
Proof. by destruct conns. Qed.
Lemma evict_first_addr ip conns : of_addr ip (evict_first conns) = of_addr ip conns.
Proof. destruct conns as [|g gs]; [done|]. unfold of_addr. cbn [evict_first]. rewrite !filter_cons. cbn [held]. by case_decide. Qed.

Lemma admit_inv i ip conns : i ∉ id <$> conns -> inv conns -> inv (admit_unauthorized i ip conns).2.
Proof.
  intros Hi [Hid Ht Hs He]. unfold admit_unauthorized. fold (of_addr ip conns).
  destruct (Z.leb_spec MAX_UNAUTHORIZED_CONNS_PER_ADDR (of_addr ip conns)) as [|Hshare]; [by split|].
  destruct (Z.leb_spec MAX_UNAUTHORIZED_CONNS (zlen conns)) as [|Hroom]; cbn [snd].
  - split; [by rewrite evict_first_ids|by destruct conns|intros; by rewrite evict_first_addr|].
    destruct conns as [|g0 gs0]; [done|]. intros g gs [= <- <-]. by eapply He.
  - split.
    + rewrite fmap_app. apply NoDup_app. split_and!; [done| |apply NoDup_singleton]. intros j Hj ->%list_elem_of_singleton. done.
    + rewrite length_app. cbn [length]. lia.
    + intros ip'. unfold of_addr. rewrite filter_app, length_app, filter_cons, filter_nil. cbn [held].
      specialize (Hs ip'). unfold of_addr in *. case_decide as Heq; [|cbn [length]; lia]. subst ip'. cbn [length]. lia.
    + destruct conns as [|g0 gs0]; [by intros g gs [= <- <-]|]. intros g gs [= <- <-]. apply Forall_app. split; [by eapply He|by constructor].
Qed.

Lemma drop_inv i conns : inv conns -> inv (drop_guard i conns).
Proof.
  intros [Hid Ht Hs He]. unfold drop_guard. split.
  - clear -Hid. induction conns as [|g gs IH]; [done|]. rewrite filter_cons. apply NoDup_cons in Hid as [Hg Hid].
    case_decide; [|by apply IH]. cbn. apply NoDup_cons. split; [|by apply IH].
    intros (g' & Hg' & Hin)%list_elem_of_fmap. apply list_elem_of_filter in Hin as [_ Hin]. apply Hg. rewrite Hg'. by apply list_elem_of_fmap_2.
  - pose proof (length_filter (fun g => g.(id) <> i) conns). lia.
  - intros ip. etrans; [|apply (Hs ip)]. unfold of_addr. apply inj_le. clear. induction conns as [|g gs IH]; [done|].
    rewrite (filter_cons (fun g => g.(id) <> i)). case_decide; rewrite !filter_cons; case_decide; cbn [length]; lia.
  - destruct conns as [|g0 gs0]; [done|]. specialize (He g0 gs0 eq_refl). intros g gs. rewrite filter_cons.
    assert (Hf : Forall (fun g' => g'.(evicted) = false) (filter (fun g => g.(id) <> i) gs0)).
    { apply Forall_forall. intros x [_ Hx]%list_elem_of_filter. by eapply (proj1 (Forall_forall _ _)) in He. }
    case_decide; [by intros [= <- <-]|]. intros E. rewrite E in Hf. by apply Forall_cons in Hf as [_ ?].
Qed.

Lemma admit_run_inv conns : rtc step [] conns -> inv conns.
Proof.
  assert (H0 : inv []) by (split; [constructor|done|done|done]).
  intros H. revert H0. induction H as [|x y z Hxy _ IH]; [done|]. intros Hx. apply IH.
  destruct Hxy; [by apply admit_inv|by apply drop_inv].
Qed.

(** C31: connections that have not authorized cannot exhaust the server, and cannot lock it.  In
    any history of arrivals and departures at most 64 are held, at most 16 from one address, and
    at most one, the oldest, has been told to go.  An arrival gets a place unless its address has
    its share or all places are taken; in the latter case, and only then, the oldest has been
    told to go, nobody else, and once it has gone the next arrival with a share left gets in. *)
Theorem admission_bounded (conns : Registry) (i : Z) (ip : IpAddr) :
  rtc step [] conns -> i ∉ id <$> conns ->
  let '(admitted, conns') := admit_unauthorized i ip conns in
  zlen conns' <= 64 /\ of_addr ip conns' <= 16 /\
  (admitted = true <-> zlen conns < 64 /\ of_addr ip conns < 16) /\
  (forall j, is_evicted j conns' = true -> (exists g, head conns' = Some g /\ g.(id) = j)) /\
  (forall j, is_evicted j conns' = true -> is_evicted j conns = false -> zlen conns = 64 /\ admitted = false) /\
  (zlen conns = 64 -> of_addr ip conns < 16 ->
     exists g, head conns' = Some g /\ is_evicted g.(id) conns' = true /\
       forall i' ip', i' ∉ id <$> conns' -> of_addr ip' (drop_guard g.(id) conns') < 16 ->
         (admit_unauthorized i' ip' (drop_guard g.(id) conns')).1 = true).
Proof.
  intros Hrun Hi. pose proof (admit_run_inv _ Hrun) as Hinv. pose proof (admit_inv i ip conns Hi Hinv) as Hinv'.
  assert (Hev : forall cs j, inv cs -> is_evicted j cs = true -> exists g, head cs = Some g /\ g.(id) = j /\ g.(evicted) = true).
  { intros [|g gs] j [_ _ _ He]; [done|]. cbn. rewrite orb_true_iff. intros [[Hj%Z.eqb_eq Hg]%andb_true_iff|Hj]; [eauto|].
    exfalso. apply existsb_exists in Hj as (g' & Hin & Hg'). specialize (He g gs eq_refl). rewrite Forall_forall in He.
    specialize (He g' (proj2 (list_elem_of_In _ _) Hin)). rewrite He, andb_false_r in Hg'. done. }
  destruct (admit_unauthorized i ip conns) as [admitted conns'] eqn:E. cbn [snd] in Hinv'.
  pose proof Hinv' as [_ Ht Hs _]. pose proof Hinv as [_ Ht0 Hs0 _]. split; [done|]. split; [apply Hs|].
  unfold admit_unauthorized in E. fold (of_addr ip conns) in E. unfold MAX_UNAUTHORIZED_CONNS_PER_ADDR, MAX_UNAUTHORIZED_CONNS in *.
  split; [|split; [|split]].
  - destruct (Z.leb_spec 16 (of_addr ip conns)); [injection E as <- <-; split; [done|lia]|].
    destruct (Z.leb_spec 64 (zlen conns)); injection E as <- <-; split; try done; lia.
  - intros j Hj. destruct (Hev _ _ Hinv' Hj) as (g & ? & ? & _). eauto.
  - intros j Hj Hj'. destruct (Z.leb_spec 16 (of_addr ip conns)); [injection E as <- <-; congruence|].
    destruct (Z.leb_spec 64 (zlen conns)); injection E as <- <-; [split; [lia|done]|].
    exfalso. unfold is_evicted in Hj. rewrite existsb_app in Hj. cbn in Hj. rewrite !andb_false_r, !orb_false_r in Hj.
    unfold is_evicted in Hj'. congruence.
  - intros Hfull Hshare. rewrite (proj2 (Z.leb_gt 16 _)), (proj2 (Z.leb_le 64 _)) in E by lia. injection E as <- <-.
    destruct conns as [|g gs]; [done|]. exists (mkGuard g.(id) g.(held) true). cbn [evict_first head]. split; [done|].
    split; [cbn; by rewrite Z.eqb_refl|]. intros i' ip' _ Hshare'. unfold admit_unauthorized, MAX_UNAUTHORIZED_CONNS_PER_ADDR, MAX_UNAUTHORIZED_CONNS.
    fold (of_addr ip' (drop_guard (id (mkGuard g.(id) g.(held) true)) (mkGuard g.(id) g.(held) true :: gs))).
    rewrite (proj2 (Z.leb_gt 16 _)) by done. cbn [id] in *. rewrite (proj2 (Z.leb_gt 64 _)); [done|].
    unfold drop_guard. rewrite filter_cons. cbn [id]. rewrite decide_False by (intros H; by apply H).
    pose proof (length_filter (fun g0 => g0.(id) <> g.(id)) gs). cbn [length] in Hfull. lia.
Qed.

Lemma admission_bounded_witness : rtc step [] [mkGuard 1 (V4 7) false] /\ (2 : Z) ∉ id <$> [mkGuard 1 (V4 7) false] /\
  (admit_unauthorized 2 (V4 7) [mkGuard 1 (V4 7) false]).1 = true.
Proof.
  assert (Hr : rtc step [] [mkGuard 1 (V4 7) false]).
  { apply rtc_once. apply (step_arrive [] 1 (V4 7)). apply not_elem_of_nil. }
  assert (Hn : (2 : Z) ∉ id <$> [mkGuard 1 (V4 7) false]) by (intros H%list_elem_of_singleton; discriminate H).
  split; [exact Hr|]. split; [exact Hn|].
  pose proof (admission_bounded [mkGuard 1 (V4 7) false] 2 (V4 7) Hr Hn) as H. cbn [admit_unauthorized] in H.
  destruct (admit_unauthorized 2 (V4 7) [mkGuard 1 (V4 7) false]) as [a c] eqn:E. destruct H as (_ & _ & H & _). apply H. split; reflexivity.
Defined.

End AdmitFacts.
