(* ===== verification/LoginPassword.v ===== *)
(** Password storage and verification ([src/libs/hbb_common/src/config/permanent_password.rs],
    [src/libs/hbb_common/src/password_security.rs] and the validation functions of
    [src/src/server/connection.rs]).  Strings are their UTF-8 bytes.  Base64, SHA-256 and the
    secretbox are libraries, hence parameters. *)

From S2P Require Import Prelude.

Module Password.

Abbreviation bytes := (list Z).

Definition starts_with (p s : bytes) : bool := bool_decide (take (length p) s = p).
Definition strip_prefix (s p : bytes) : option bytes := if starts_with p s then Some (drop (length p) s) else None.

(** "00" and "01" *)
Definition PASSWORD_ENC_VERSION : bytes := [48; 48].
Definition PERMANENT_PASSWORD_ENC_VERSION : bytes := [48; 49].
Definition PERMANENT_PASSWORD_HASH_PREFIX : bytes := [48; 48].
Definition HBBS_PRESET_PASSWORD_HASH_PREFIX : bytes := [48; 48].
Definition PERMANENT_PASSWORD_H1_LEN : Z := 32.
Definition VERSION_LEN : Z := 2.
Definition FORMAT_V1 : Z := 1.
Definition KEYBYTES : nat := 32.
Definition NONCEBYTES : nat := 24.
Definition MACBYTES : Z := 16.

Fixpoint xor_all (x : Z) (a b : bytes) : Z :=
  match a, b with
  | ai :: a, bi :: b => xor_all (Z.lor x (Z.lxor ai bi)) a b
  | _, _ => x
  end.
Definition constant_time_eq (a b : bytes) : bool :=
  if negb (zlen a =? zlen b) then false else xor_all 0 a b =? 0.

(** This machine's keys. *)
Record Machine := mkMachine { uuid : bytes; existing_pk : option bytes }.

(** [Vec::resize] with zeros. *)
Definition resize0 (n : nat) (l : bytes) : bytes := take n (l ++ replicate n 0).

Section Libraries.
Variable sha256 : bytes -> bytes.
Variable base64_decode : bytes -> option bytes.
(** data, nonce, key *)
Variable secretbox_open : bytes -> bytes -> bytes -> option bytes.
Variable from_utf8_lossy : bytes -> bytes.
Variable machine : Machine.

Definition open_secretbox_payload (data key : bytes) : option bytes :=
  let versioned :=
    if bool_decide (head data = Some FORMAT_V1) && (1 + Z.of_nat NONCEBYTES + MACBYTES <=? zlen data)
    then secretbox_open (drop (1 + NONCEBYTES) data) (take NONCEBYTES (drop 1 data)) key
    else None in
  match versioned with
  | Some d => Some d
  | None => secretbox_open data (replicate NONCEBYTES 0) key
  end.

(** [symmetric_crypt(data, false)] *)
Definition symmetric_decrypt (data : bytes) : option bytes :=
  match open_secretbox_payload data (resize0 KEYBYTES machine.(uuid)) with
  | Some d => Some d
  | None =>
      match machine.(existing_pk) with
      | Some pk => if bool_decide (pk <> machine.(uuid)) then open_secretbox_payload data (resize0 KEYBYTES pk) else None
      | None => None
      end
  end.

Definition is_encrypted (v : bytes) : bool :=
  if (zlen v <=? VERSION_LEN) || negb (starts_with PASSWORD_ENC_VERSION v) then false else
  match base64_decode (zdrop VERSION_LEN v) with
  | Some decoded => MACBYTES <=? zlen decoded
  | None => false
  end.

Definition decrypt (v : bytes) : option bytes :=
  if is_nil v then None else d ← base64_decode v; symmetric_decrypt d.

Definition decrypt_str_or_original (s current_version : bytes) : bytes * bool * bool :=
  match (if (VERSION_LEN <? zlen s) && starts_with PASSWORD_ENC_VERSION s then decrypt (zdrop VERSION_LEN s) else None) with
  | Some v => (from_utf8_lossy v, true, negb (bool_decide (PASSWORD_ENC_VERSION = current_version)))
  | None => (s, false, negb (is_nil s) && negb (is_encrypted s))
  end.

(** ** Permanent password storage *)

Definition decode_password_h1_after_prefix (storage prefix : bytes) : option bytes :=
  encoded ← strip_prefix storage prefix;
  v ← base64_decode encoded;
  if zlen v =? PERMANENT_PASSWORD_H1_LEN then Some v else None.

Definition decode_permanent_password_h1_from_hashed_storage (storage : bytes) : option bytes :=
  decode_password_h1_after_prefix storage PERMANENT_PASSWORD_HASH_PREFIX.

Definition decode_preset_password_h1_from_storage (storage : bytes) : option bytes :=
  decode_password_h1_after_prefix storage HBBS_PRESET_PASSWORD_HASH_PREFIX.

Definition decrypt_permanent_password_str_or_original (storage : bytes) : bytes * bool * bool :=
  match (if (VERSION_LEN <? zlen storage) && starts_with PERMANENT_PASSWORD_ENC_VERSION storage
         then d ← base64_decode (zdrop VERSION_LEN storage); symmetric_decrypt d else None) with
  | Some v => (from_utf8_lossy v, true, false)
  | None => (storage, false, negb (is_nil storage))
  end.

Definition decode_permanent_password_h1_from_storage (storage : bytes) : option bytes :=
  if starts_with PERMANENT_PASSWORD_ENC_VERSION storage then
    let '(hashed_storage, decrypted, _) := decrypt_permanent_password_str_or_original storage in
    if negb decrypted then None else decode_permanent_password_h1_from_hashed_storage hashed_storage
  else None.

Definition local_permanent_password_storage_is_usable_for_auth (storage salt : bytes) : bool :=
  if is_nil storage then false else
  match decode_permanent_password_h1_from_storage storage with
  | Some _ => negb (is_nil salt)
  | None =>
      if starts_with PERMANENT_PASSWORD_ENC_VERSION storage && (decrypt_permanent_password_str_or_original storage).1.2
      then false else
      let '(_, decrypted, looks_like_plaintext) := decrypt_str_or_original storage PASSWORD_ENC_VERSION in
      if starts_with PASSWORD_ENC_VERSION storage && negb decrypted && negb looks_like_plaintext then false else true
  end.

Definition preset_permanent_password_storage_is_usable_for_auth (storage salt : bytes) : bool :=
  if is_nil storage then false
  else if is_nil salt then true
  else match decode_preset_password_h1_from_storage storage with Some _ => true | None => false end.

(** ** Validation of a login response: [h1] is SHA-256 of password and salt *)

Record Hash := mkHash { salt : bytes; challenge : bytes }.

Definition verify_h1 (hash : Hash) (response h1 : bytes) : bool :=
  constant_time_eq (sha256 (h1 ++ hash.(challenge))) response.

Definition validate_password_plain (hash : Hash) (response password : bytes) : bool :=
  if is_nil password then false else verify_h1 hash response (sha256 (password ++ hash.(salt))).

Definition validate_password_storage (hash : Hash) (response storage : bytes) : bool :=
  if is_nil storage then false else
  match decode_permanent_password_h1_from_storage storage with
  | Some h1 => verify_h1 hash response h1
  | None => validate_password_plain hash response storage
  end.

Definition validate_preset_password_storage (hash : Hash) (response storage salt : bytes) : bool :=
  if is_nil salt then validate_password_plain hash response storage else
  match decode_preset_password_h1_from_storage storage with
  | Some h1 => verify_h1 hash response h1
  | None => false
  end.
End Libraries.

(** ** The temporary password *)

Definition MAX_CONSECUTIVE_FAILURES : Z := 10.

(** [TEMPORARY_PASSWORD] and the counter kept for its current value. *)
Record Temporary := mkTemporary { current : bytes; counted : bytes; temp_failures : Z }.

(** [fresh] is the next random password. *)
Definition update_temporary_password (fresh : bytes) (t : Temporary) : Temporary :=
  mkTemporary fresh t.(counted) t.(temp_failures).

Definition check_update_temporary_password (enabled success : bool) (fresh : bytes) (t : Temporary) : Temporary :=
  if negb enabled then t else
  if is_nil t.(current) then t else
  let t := if bool_decide (t.(counted) = t.(current)) then t else mkTemporary t.(current) t.(current) 0 in
  if success then mkTemporary t.(current) t.(counted) 0 else
  let failures := swrap 32 (t.(temp_failures) + 1) in
  if failures <? MAX_CONSECUTIVE_FAILURES then mkTemporary t.(current) t.(counted) failures
  else mkTemporary fresh fresh 0.

End Password.

Module PasswordFacts.
Import Password.

Lemma xor_all_spec x a b : length a = length b -> xor_all x a b = 0 <-> x = 0 /\ a = b.
Proof.
  revert x b. induction a as [|y a IH]; intros x [|z b] Hl; cbn; try done; [naive_solver|].
  rewrite IH by (by injection Hl). rewrite Z.lor_eq_0_iff, Z.lxor_eq_0_iff. naive_solver.
Qed.

Lemma constant_time_eq_spec a b : constant_time_eq a b = true <-> a = b.
Proof.
  unfold constant_time_eq. destruct (Z.eqb_spec (zlen a) (zlen b)) as [Hl|Hl]; cbn.
  - rewrite Z.eqb_eq, xor_all_spec by lia. naive_solver.
  - split; [done|]. intros ->. done.
Qed.

Section Stored.
Variable sha256 : bytes -> bytes.
Variable base64_decode : bytes -> option bytes.
Variable secretbox_open : bytes -> bytes -> bytes -> option bytes.
Variable from_utf8_lossy : bytes -> bytes.
Variable machine : Machine.

(** Storage in the current format that this machine cannot decrypt is taken for a password in
    plain text, whatever its salt. *)
Lemma undecryptable_is_plaintext hash response payload data salt :
  zlen payload > 0 -> base64_decode payload = Some data -> symmetric_decrypt secretbox_open machine data = None ->
  let storage := PERMANENT_PASSWORD_ENC_VERSION ++ payload in
  local_permanent_password_storage_is_usable_for_auth base64_decode secretbox_open from_utf8_lossy machine storage salt = true /\
  validate_password_storage sha256 base64_decode secretbox_open from_utf8_lossy machine hash response storage =
    validate_password_plain sha256 hash response storage.
Proof.
  intros Hl Hd Ho storage.
  assert (Hdec : decrypt_permanent_password_str_or_original base64_decode secretbox_open from_utf8_lossy machine storage = (storage, false, true)).
  { unfold decrypt_permanent_password_str_or_original. change (starts_with PERMANENT_PASSWORD_ENC_VERSION storage) with true.
    rewrite (proj2 (Z.ltb_lt _ _)) by (unfold VERSION_LEN, storage; cbn [PERMANENT_PASSWORD_ENC_VERSION app length]; lia).
    change (zdrop VERSION_LEN storage) with payload. cbn [andb]. rewrite Hd. cbn. by rewrite Ho. }
  assert (Hn : decode_permanent_password_h1_from_storage base64_decode secretbox_open from_utf8_lossy machine storage = None).
  { unfold decode_permanent_password_h1_from_storage. destruct (starts_with _ _); [|done]. by rewrite Hdec. }
  split.
  - unfold local_permanent_password_storage_is_usable_for_auth. rewrite Hn, Hdec. cbn [fst snd]. rewrite andb_false_r.
    change (is_nil storage) with false. cbn match. change (starts_with PASSWORD_ENC_VERSION storage) with false.
    by destruct (decrypt_str_or_original _ _ _ _ _ _) as [[? ?] ?].
  - unfold validate_password_storage. by rewrite Hn.
Qed.
End Stored.

End PasswordFacts.
