(* ===== verification/LoginState.v ===== *)
(** The state of a connection that is logging in, what connections share, and the configuration
    and platform they consult ([src/src/server/connection.rs], desktop builds with the Flutter
    interface). *)

From S2P Require Import Prelude SessMsg LoginLockout LoginThrottle LoginId LoginAdmit LoginPassword.

Module LoginState.
Import Lockout Throttle IdList Admit Password.
Export Msgs Scope.

(** ** Strings: their characters *)

Fixpoint decode_utf8 (l : bytes) : list Z :=
  match l with
  | [] => []
  | b0 :: l0 =>
      if b0 <? 128 then b0 :: decode_utf8 l0 else
      match l0 with
      | [] => []
      | b1 :: l1 =>
          if b0 <? 224 then Z.land b0 31 * 64 + Z.land b1 63 :: decode_utf8 l1 else
          match l1 with
          | [] => []
          | b2 :: l2 =>
              if b0 <? 240 then Z.land b0 15 * 4096 + Z.land b1 63 * 64 + Z.land b2 63 :: decode_utf8 l2 else
              match l2 with
              | [] => []
              | b3 :: l3 => Z.land b0 7 * 262144 + Z.land b1 63 * 4096 + Z.land b2 63 * 64 + Z.land b3 63 :: decode_utf8 l3
              end
          end
      end
  end.
Definition chars (s : string) : list Z := decode_utf8 (as_bytes s).

(** ** How a connection was authorized *)

Inductive ConnAuditPrimaryAuth := ANone | AClick | ATemporaryPassword | APermanentPassword | ASwitchSides.
Inductive ConnAuditTwoFactor := TNone | TTotp | TTrustedDevice.
Inductive TerminalUserToken := SelfUser | CurrentLogonUser (token : Z).

(** ** What connections share *)

(** peer id, name, session id *)
Abbreviation SessionKey := (string * string * Z)%type.

Record Session := mkSession { last_recv_time : Z; random_password : bytes; tfa : bool }.

Record Shared := mkShared {
  lockout : OsCredentialFailureState;
  f_password : FailureMap;
  f_2fa : FailureMap;
  f_id : FailureMap;
  sessions : gmap SessionKey Session;
  temporary : Temporary;
  switch_uuids : gmap string (Z * bytes);
  places : Registry;
  authed_conns : list (Z * AuthConnType * SessionKey)
}.

Definition set_lockout (x : OsCredentialFailureState) (h : Shared) : Shared :=
  mkShared x h.(f_password) h.(f_2fa) h.(f_id) h.(sessions) h.(temporary) h.(switch_uuids) h.(places)
    h.(authed_conns).
Definition set_f_password (x : FailureMap) (h : Shared) : Shared :=
  mkShared h.(lockout) x h.(f_2fa) h.(f_id) h.(sessions) h.(temporary) h.(switch_uuids) h.(places)
    h.(authed_conns).
Definition set_f_2fa (x : FailureMap) (h : Shared) : Shared :=
  mkShared h.(lockout) h.(f_password) x h.(f_id) h.(sessions) h.(temporary) h.(switch_uuids) h.(places)
    h.(authed_conns).
Definition set_f_id (x : FailureMap) (h : Shared) : Shared :=
  mkShared h.(lockout) h.(f_password) h.(f_2fa) x h.(sessions) h.(temporary) h.(switch_uuids) h.(places)
    h.(authed_conns).
Definition set_sessions (x : gmap SessionKey Session) (h : Shared) : Shared :=
  mkShared h.(lockout) h.(f_password) h.(f_2fa) h.(f_id) x h.(temporary) h.(switch_uuids) h.(places)
    h.(authed_conns).
Definition set_temporary (x : Temporary) (h : Shared) : Shared :=
  mkShared h.(lockout) h.(f_password) h.(f_2fa) h.(f_id) h.(sessions) x h.(switch_uuids) h.(places)
    h.(authed_conns).
Definition set_switch_uuids (x : gmap string (Z * bytes)) (h : Shared) : Shared :=
  mkShared h.(lockout) h.(f_password) h.(f_2fa) h.(f_id) h.(sessions) h.(temporary) x h.(places)
    h.(authed_conns).
Definition set_places (x : Registry) (h : Shared) : Shared :=
  mkShared h.(lockout) h.(f_password) h.(f_2fa) h.(f_id) h.(sessions) h.(temporary) h.(switch_uuids) x
    h.(authed_conns).
Definition set_authed_conns (x : list (Z * AuthConnType * SessionKey)) (h : Shared) : Shared :=
  mkShared h.(lockout) h.(f_password) h.(f_2fa) h.(f_id) h.(sessions) h.(temporary) h.(switch_uuids)
    h.(places) x.

(** ** A connection: the fields the login reads or writes *)

Record Conn := mkConn {
  conn_id : Z;
  ip : IpAddr;
  hash : Hash;
  control_permissions : option Z;
  lr : LoginRequest;
  login_scope : option bytes;
  authorized : bool;
  awaiting_2fa : bool;
  require_2fa : option bytes;
  from_switch : bool;
  file_transfer : option (string * bool);
  view_camera : bool;
  terminal : bool;
  terminal_persistent : bool;
  terminal_service_id : string;
  terminal_user_token : option TerminalUserToken;
  port_forward_address : string;
  port_forward_socket : bool;
  port_forward_mux : option string;
  options_in_login : option OptionMessage;
  video_ack_required : bool;
  send_timeout : Z;
  max_packet_length : Z;
  start_cm_ipc : bool;
  primary_auth : ConnAuditPrimaryAuth;
  two_factor : ConnAuditTwoFactor;
  authed_conn_type : option AuthConnType;
  holds_place : bool;
  scope_violation_messages : list string
}.

Definition set_lr (x : LoginRequest) (c : Conn) : Conn :=
  mkConn c.(conn_id) c.(ip) c.(hash) c.(control_permissions) x c.(login_scope) c.(authorized)
    c.(awaiting_2fa) c.(require_2fa) c.(from_switch) c.(file_transfer) c.(view_camera) c.(terminal)
    c.(terminal_persistent) c.(terminal_service_id) c.(terminal_user_token) c.(port_forward_address)
    c.(port_forward_socket) c.(port_forward_mux) c.(options_in_login) c.(video_ack_required)
    c.(send_timeout) c.(max_packet_length) c.(start_cm_ipc) c.(primary_auth) c.(two_factor)
    c.(authed_conn_type) c.(holds_place) c.(scope_violation_messages).
Definition set_login_scope (x : option bytes) (c : Conn) : Conn :=
  mkConn c.(conn_id) c.(ip) c.(hash) c.(control_permissions) c.(lr) x c.(authorized) c.(awaiting_2fa)
    c.(require_2fa) c.(from_switch) c.(file_transfer) c.(view_camera) c.(terminal) c.(terminal_persistent)
    c.(terminal_service_id) c.(terminal_user_token) c.(port_forward_address) c.(port_forward_socket)
    c.(port_forward_mux) c.(options_in_login) c.(video_ack_required) c.(send_timeout) c.(max_packet_length)
    c.(start_cm_ipc) c.(primary_auth) c.(two_factor) c.(authed_conn_type) c.(holds_place)
    c.(scope_violation_messages).
Definition set_authorized (x : bool) (c : Conn) : Conn :=
  mkConn c.(conn_id) c.(ip) c.(hash) c.(control_permissions) c.(lr) c.(login_scope) x c.(awaiting_2fa)
    c.(require_2fa) c.(from_switch) c.(file_transfer) c.(view_camera) c.(terminal) c.(terminal_persistent)
    c.(terminal_service_id) c.(terminal_user_token) c.(port_forward_address) c.(port_forward_socket)
    c.(port_forward_mux) c.(options_in_login) c.(video_ack_required) c.(send_timeout) c.(max_packet_length)
    c.(start_cm_ipc) c.(primary_auth) c.(two_factor) c.(authed_conn_type) c.(holds_place)
    c.(scope_violation_messages).
Definition set_awaiting_2fa (x : bool) (c : Conn) : Conn :=
  mkConn c.(conn_id) c.(ip) c.(hash) c.(control_permissions) c.(lr) c.(login_scope) c.(authorized) x
    c.(require_2fa) c.(from_switch) c.(file_transfer) c.(view_camera) c.(terminal) c.(terminal_persistent)
    c.(terminal_service_id) c.(terminal_user_token) c.(port_forward_address) c.(port_forward_socket)
    c.(port_forward_mux) c.(options_in_login) c.(video_ack_required) c.(send_timeout) c.(max_packet_length)
    c.(start_cm_ipc) c.(primary_auth) c.(two_factor) c.(authed_conn_type) c.(holds_place)
    c.(scope_violation_messages).
Definition set_require_2fa (x : option bytes) (c : Conn) : Conn :=
  mkConn c.(conn_id) c.(ip) c.(hash) c.(control_permissions) c.(lr) c.(login_scope) c.(authorized)
    c.(awaiting_2fa) x c.(from_switch) c.(file_transfer) c.(view_camera) c.(terminal)
    c.(terminal_persistent) c.(terminal_service_id) c.(terminal_user_token) c.(port_forward_address)
    c.(port_forward_socket) c.(port_forward_mux) c.(options_in_login) c.(video_ack_required)
    c.(send_timeout) c.(max_packet_length) c.(start_cm_ipc) c.(primary_auth) c.(two_factor)
    c.(authed_conn_type) c.(holds_place) c.(scope_violation_messages).
Definition set_from_switch (x : bool) (c : Conn) : Conn :=
  mkConn c.(conn_id) c.(ip) c.(hash) c.(control_permissions) c.(lr) c.(login_scope) c.(authorized)
    c.(awaiting_2fa) c.(require_2fa) x c.(file_transfer) c.(view_camera) c.(terminal)
    c.(terminal_persistent) c.(terminal_service_id) c.(terminal_user_token) c.(port_forward_address)
    c.(port_forward_socket) c.(port_forward_mux) c.(options_in_login) c.(video_ack_required)
    c.(send_timeout) c.(max_packet_length) c.(start_cm_ipc) c.(primary_auth) c.(two_factor)
    c.(authed_conn_type) c.(holds_place) c.(scope_violation_messages).
Definition set_file_transfer (x : option (string * bool)) (c : Conn) : Conn :=
  mkConn c.(conn_id) c.(ip) c.(hash) c.(control_permissions) c.(lr) c.(login_scope) c.(authorized)
    c.(awaiting_2fa) c.(require_2fa) c.(from_switch) x c.(view_camera) c.(terminal) c.(terminal_persistent)
    c.(terminal_service_id) c.(terminal_user_token) c.(port_forward_address) c.(port_forward_socket)
    c.(port_forward_mux) c.(options_in_login) c.(video_ack_required) c.(send_timeout) c.(max_packet_length)
    c.(start_cm_ipc) c.(primary_auth) c.(two_factor) c.(authed_conn_type) c.(holds_place)
    c.(scope_violation_messages).
Definition set_view_camera (x : bool) (c : Conn) : Conn :=
  mkConn c.(conn_id) c.(ip) c.(hash) c.(control_permissions) c.(lr) c.(login_scope) c.(authorized)
    c.(awaiting_2fa) c.(require_2fa) c.(from_switch) c.(file_transfer) x c.(terminal)
    c.(terminal_persistent) c.(terminal_service_id) c.(terminal_user_token) c.(port_forward_address)
    c.(port_forward_socket) c.(port_forward_mux) c.(options_in_login) c.(video_ack_required)
    c.(send_timeout) c.(max_packet_length) c.(start_cm_ipc) c.(primary_auth) c.(two_factor)
    c.(authed_conn_type) c.(holds_place) c.(scope_violation_messages).
Definition set_terminal (x : bool) (c : Conn) : Conn :=
  mkConn c.(conn_id) c.(ip) c.(hash) c.(control_permissions) c.(lr) c.(login_scope) c.(authorized)
    c.(awaiting_2fa) c.(require_2fa) c.(from_switch) c.(file_transfer) c.(view_camera) x
    c.(terminal_persistent) c.(terminal_service_id) c.(terminal_user_token) c.(port_forward_address)
    c.(port_forward_socket) c.(port_forward_mux) c.(options_in_login) c.(video_ack_required)
    c.(send_timeout) c.(max_packet_length) c.(start_cm_ipc) c.(primary_auth) c.(two_factor)
    c.(authed_conn_type) c.(holds_place) c.(scope_violation_messages).
Definition set_terminal_persistent (x : bool) (c : Conn) : Conn :=
  mkConn c.(conn_id) c.(ip) c.(hash) c.(control_permissions) c.(lr) c.(login_scope) c.(authorized)
    c.(awaiting_2fa) c.(require_2fa) c.(from_switch) c.(file_transfer) c.(view_camera) c.(terminal) x
    c.(terminal_service_id) c.(terminal_user_token) c.(port_forward_address) c.(port_forward_socket)
    c.(port_forward_mux) c.(options_in_login) c.(video_ack_required) c.(send_timeout) c.(max_packet_length)
    c.(start_cm_ipc) c.(primary_auth) c.(two_factor) c.(authed_conn_type) c.(holds_place)
    c.(scope_violation_messages).
Definition set_terminal_service_id (x : string) (c : Conn) : Conn :=
  mkConn c.(conn_id) c.(ip) c.(hash) c.(control_permissions) c.(lr) c.(login_scope) c.(authorized)
    c.(awaiting_2fa) c.(require_2fa) c.(from_switch) c.(file_transfer) c.(view_camera) c.(terminal)
    c.(terminal_persistent) x c.(terminal_user_token) c.(port_forward_address) c.(port_forward_socket)
    c.(port_forward_mux) c.(options_in_login) c.(video_ack_required) c.(send_timeout) c.(max_packet_length)
    c.(start_cm_ipc) c.(primary_auth) c.(two_factor) c.(authed_conn_type) c.(holds_place)
    c.(scope_violation_messages).
Definition set_terminal_user_token (x : option TerminalUserToken) (c : Conn) : Conn :=
  mkConn c.(conn_id) c.(ip) c.(hash) c.(control_permissions) c.(lr) c.(login_scope) c.(authorized)
    c.(awaiting_2fa) c.(require_2fa) c.(from_switch) c.(file_transfer) c.(view_camera) c.(terminal)
    c.(terminal_persistent) c.(terminal_service_id) x c.(port_forward_address) c.(port_forward_socket)
    c.(port_forward_mux) c.(options_in_login) c.(video_ack_required) c.(send_timeout) c.(max_packet_length)
    c.(start_cm_ipc) c.(primary_auth) c.(two_factor) c.(authed_conn_type) c.(holds_place)
    c.(scope_violation_messages).
Definition set_port_forward_address (x : string) (c : Conn) : Conn :=
  mkConn c.(conn_id) c.(ip) c.(hash) c.(control_permissions) c.(lr) c.(login_scope) c.(authorized)
    c.(awaiting_2fa) c.(require_2fa) c.(from_switch) c.(file_transfer) c.(view_camera) c.(terminal)
    c.(terminal_persistent) c.(terminal_service_id) c.(terminal_user_token) x c.(port_forward_socket)
    c.(port_forward_mux) c.(options_in_login) c.(video_ack_required) c.(send_timeout) c.(max_packet_length)
    c.(start_cm_ipc) c.(primary_auth) c.(two_factor) c.(authed_conn_type) c.(holds_place)
    c.(scope_violation_messages).
Definition set_port_forward_socket (x : bool) (c : Conn) : Conn :=
  mkConn c.(conn_id) c.(ip) c.(hash) c.(control_permissions) c.(lr) c.(login_scope) c.(authorized)
    c.(awaiting_2fa) c.(require_2fa) c.(from_switch) c.(file_transfer) c.(view_camera) c.(terminal)
    c.(terminal_persistent) c.(terminal_service_id) c.(terminal_user_token) c.(port_forward_address) x
    c.(port_forward_mux) c.(options_in_login) c.(video_ack_required) c.(send_timeout) c.(max_packet_length)
    c.(start_cm_ipc) c.(primary_auth) c.(two_factor) c.(authed_conn_type) c.(holds_place)
    c.(scope_violation_messages).
Definition set_port_forward_mux (x : option string) (c : Conn) : Conn :=
  mkConn c.(conn_id) c.(ip) c.(hash) c.(control_permissions) c.(lr) c.(login_scope) c.(authorized)
    c.(awaiting_2fa) c.(require_2fa) c.(from_switch) c.(file_transfer) c.(view_camera) c.(terminal)
    c.(terminal_persistent) c.(terminal_service_id) c.(terminal_user_token) c.(port_forward_address)
    c.(port_forward_socket) x c.(options_in_login) c.(video_ack_required) c.(send_timeout)
    c.(max_packet_length) c.(start_cm_ipc) c.(primary_auth) c.(two_factor) c.(authed_conn_type)
    c.(holds_place) c.(scope_violation_messages).
Definition set_options_in_login (x : option OptionMessage) (c : Conn) : Conn :=
  mkConn c.(conn_id) c.(ip) c.(hash) c.(control_permissions) c.(lr) c.(login_scope) c.(authorized)
    c.(awaiting_2fa) c.(require_2fa) c.(from_switch) c.(file_transfer) c.(view_camera) c.(terminal)
    c.(terminal_persistent) c.(terminal_service_id) c.(terminal_user_token) c.(port_forward_address)
    c.(port_forward_socket) c.(port_forward_mux) x c.(video_ack_required) c.(send_timeout)
    c.(max_packet_length) c.(start_cm_ipc) c.(primary_auth) c.(two_factor) c.(authed_conn_type)
    c.(holds_place) c.(scope_violation_messages).
Definition set_video_ack_required (x : bool) (c : Conn) : Conn :=
  mkConn c.(conn_id) c.(ip) c.(hash) c.(control_permissions) c.(lr) c.(login_scope) c.(authorized)
    c.(awaiting_2fa) c.(require_2fa) c.(from_switch) c.(file_transfer) c.(view_camera) c.(terminal)
    c.(terminal_persistent) c.(terminal_service_id) c.(terminal_user_token) c.(port_forward_address)
    c.(port_forward_socket) c.(port_forward_mux) c.(options_in_login) x c.(send_timeout)
    c.(max_packet_length) c.(start_cm_ipc) c.(primary_auth) c.(two_factor) c.(authed_conn_type)
    c.(holds_place) c.(scope_violation_messages).
Definition set_send_timeout (x : Z) (c : Conn) : Conn :=
  mkConn c.(conn_id) c.(ip) c.(hash) c.(control_permissions) c.(lr) c.(login_scope) c.(authorized)
    c.(awaiting_2fa) c.(require_2fa) c.(from_switch) c.(file_transfer) c.(view_camera) c.(terminal)
    c.(terminal_persistent) c.(terminal_service_id) c.(terminal_user_token) c.(port_forward_address)
    c.(port_forward_socket) c.(port_forward_mux) c.(options_in_login) c.(video_ack_required) x
    c.(max_packet_length) c.(start_cm_ipc) c.(primary_auth) c.(two_factor) c.(authed_conn_type)
    c.(holds_place) c.(scope_violation_messages).
Definition set_max_packet_length (x : Z) (c : Conn) : Conn :=
  mkConn c.(conn_id) c.(ip) c.(hash) c.(control_permissions) c.(lr) c.(login_scope) c.(authorized)
    c.(awaiting_2fa) c.(require_2fa) c.(from_switch) c.(file_transfer) c.(view_camera) c.(terminal)
    c.(terminal_persistent) c.(terminal_service_id) c.(terminal_user_token) c.(port_forward_address)
    c.(port_forward_socket) c.(port_forward_mux) c.(options_in_login) c.(video_ack_required)
    c.(send_timeout) x c.(start_cm_ipc) c.(primary_auth) c.(two_factor) c.(authed_conn_type) c.(holds_place)
    c.(scope_violation_messages).
Definition set_start_cm_ipc (x : bool) (c : Conn) : Conn :=
  mkConn c.(conn_id) c.(ip) c.(hash) c.(control_permissions) c.(lr) c.(login_scope) c.(authorized)
    c.(awaiting_2fa) c.(require_2fa) c.(from_switch) c.(file_transfer) c.(view_camera) c.(terminal)
    c.(terminal_persistent) c.(terminal_service_id) c.(terminal_user_token) c.(port_forward_address)
    c.(port_forward_socket) c.(port_forward_mux) c.(options_in_login) c.(video_ack_required)
    c.(send_timeout) c.(max_packet_length) x c.(primary_auth) c.(two_factor) c.(authed_conn_type)
    c.(holds_place) c.(scope_violation_messages).
Definition set_primary_auth (x : ConnAuditPrimaryAuth) (c : Conn) : Conn :=
  mkConn c.(conn_id) c.(ip) c.(hash) c.(control_permissions) c.(lr) c.(login_scope) c.(authorized)
    c.(awaiting_2fa) c.(require_2fa) c.(from_switch) c.(file_transfer) c.(view_camera) c.(terminal)
    c.(terminal_persistent) c.(terminal_service_id) c.(terminal_user_token) c.(port_forward_address)
    c.(port_forward_socket) c.(port_forward_mux) c.(options_in_login) c.(video_ack_required)
    c.(send_timeout) c.(max_packet_length) c.(start_cm_ipc) x c.(two_factor) c.(authed_conn_type)
    c.(holds_place) c.(scope_violation_messages).
Definition set_two_factor (x : ConnAuditTwoFactor) (c : Conn) : Conn :=
  mkConn c.(conn_id) c.(ip) c.(hash) c.(control_permissions) c.(lr) c.(login_scope) c.(authorized)
    c.(awaiting_2fa) c.(require_2fa) c.(from_switch) c.(file_transfer) c.(view_camera) c.(terminal)
    c.(terminal_persistent) c.(terminal_service_id) c.(terminal_user_token) c.(port_forward_address)
    c.(port_forward_socket) c.(port_forward_mux) c.(options_in_login) c.(video_ack_required)
    c.(send_timeout) c.(max_packet_length) c.(start_cm_ipc) c.(primary_auth) x c.(authed_conn_type)
    c.(holds_place) c.(scope_violation_messages).
Definition set_authed_conn_type (x : option AuthConnType) (c : Conn) : Conn :=
  mkConn c.(conn_id) c.(ip) c.(hash) c.(control_permissions) c.(lr) c.(login_scope) c.(authorized)
    c.(awaiting_2fa) c.(require_2fa) c.(from_switch) c.(file_transfer) c.(view_camera) c.(terminal)
    c.(terminal_persistent) c.(terminal_service_id) c.(terminal_user_token) c.(port_forward_address)
    c.(port_forward_socket) c.(port_forward_mux) c.(options_in_login) c.(video_ack_required)
    c.(send_timeout) c.(max_packet_length) c.(start_cm_ipc) c.(primary_auth) c.(two_factor) x
    c.(holds_place) c.(scope_violation_messages).
Definition set_holds_place (x : bool) (c : Conn) : Conn :=
  mkConn c.(conn_id) c.(ip) c.(hash) c.(control_permissions) c.(lr) c.(login_scope) c.(authorized)
    c.(awaiting_2fa) c.(require_2fa) c.(from_switch) c.(file_transfer) c.(view_camera) c.(terminal)
    c.(terminal_persistent) c.(terminal_service_id) c.(terminal_user_token) c.(port_forward_address)
    c.(port_forward_socket) c.(port_forward_mux) c.(options_in_login) c.(video_ack_required)
    c.(send_timeout) c.(max_packet_length) c.(start_cm_ipc) c.(primary_auth) c.(two_factor)
    c.(authed_conn_type) x c.(scope_violation_messages).
Definition set_scope_violation_messages (x : list string) (c : Conn) : Conn :=
  mkConn c.(conn_id) c.(ip) c.(hash) c.(control_permissions) c.(lr) c.(login_scope) c.(authorized)
    c.(awaiting_2fa) c.(require_2fa) c.(from_switch) c.(file_transfer) c.(view_camera) c.(terminal)
    c.(terminal_persistent) c.(terminal_service_id) c.(terminal_user_token) c.(port_forward_address)
    c.(port_forward_socket) c.(port_forward_mux) c.(options_in_login) c.(video_ack_required)
    c.(send_timeout) c.(max_packet_length) c.(start_cm_ipc) c.(primary_auth) c.(two_factor)
    c.(authed_conn_type) c.(holds_place) x.

Definition session_key (c : Conn) : SessionKey := (c.(lr).(my_id), c.(lr).(my_name), c.(lr).(session_id)).

Definition is_port_forward (c : Conn) : bool :=
  c.(port_forward_socket) || match c.(port_forward_mux) with Some _ => true | None => false end.

Definition is_remote (c : Conn) : bool :=
  match c.(file_transfer) with None => true | Some _ => false end && negb (is_port_forward c) && negb c.(view_camera) && negb c.(terminal).

(** What the connection sends while logging in: errors, alarms, logins announced to the
    connection manager, and the final response. *)
Inductive Output :=
| LoginError (msg : string)
| AlarmAudit (a : AlarmAuditType)
| CmLogin (authorized : bool)
| LoginResponse
| TrustDevice (d_hwid : bytes) (d_time : Z) (d_id d_name d_platform : string)
| CloseReasonNoRetry (msg : string).

Record Sys := mkSys { conn : Conn; shared : Shared; out : list Output }.

Definition on_conn (f : Conn -> Conn) (s : Sys) : Sys := mkSys (f s.(conn)) s.(shared) s.(out).
Definition on_shared (f : Shared -> Shared) (s : Sys) : Sys := mkSys s.(conn) (f s.(shared)) s.(out).
Definition send (o : Output) (s : Sys) : Sys := mkSys s.(conn) s.(shared) (s.(out) ++ [o]).
Definition send_login_error (msg : string) : Sys -> Sys := send (LoginError msg).
Definition post_alarm_audit (a : AlarmAuditType) : Sys -> Sys := send (AlarmAudit a).

(** ** Configuration and platform at the time of an event *)

Record TrustedDevice := mkDevice { d_hwid : bytes; d_time : Z; d_id : string; d_name : string; d_platform : string }.

Record Env := mkEnv {
  now_ms : Z; (* the clock, since the epoch *)
  instant : Z; (* the monotonic clock, in milliseconds *)
  fresh_password : bytes; (* the next random password *)
  cfg_windows : bool;
  machine : Machine;
  get_option : string -> string;
  get_builtin_option : string -> string;
  local_storage : bytes;
  local_salt : bytes;
  preset_storage : bytes;
  preset_salt : bytes;
  get_id : string;
  is_direct_ip_access : string -> bool;
  is_in_privacy_mode : bool;
  trusted_devices : list TrustedDevice;
  is_prelogin : bool;
  is_installed : bool;
  is_logon : bool;
  connect : string -> bool; (* whether a TCP connection to the target succeeds in time *)
  fill_terminal_user_token : list Z -> string -> option TerminalUserToken * option string;
  os_gate_free : bool; (* no other terminal login with OS credentials is being verified *)
  is_service_specified_user : string -> option bool
}.

(** Library code. *)
Class Libraries := mkLibraries {
  sha256 : bytes -> bytes;
  base64_decode : bytes -> option bytes;
  secretbox_open : bytes -> bytes -> bytes -> option bytes;
  from_utf8_lossy : bytes -> bytes;
  to_lowercase : list Z -> list Z;
  (** secret, code, time: [None] when the clock fails *)
  totp_check : bytes -> string -> Z -> option bool
}.

(** ** Options *)

Definition option2bool (opt value : string) : bool :=
  if String.prefix "enable-" opt then negb (bool_decide (value = "N"))
  else if String.prefix "allow-" opt || bool_decide (opt = "stop-service") ||
          bool_decide (opt = "direct-server") || bool_decide (opt = "force-always-relay")
  then bool_decide (value = "Y")
  else negb (bool_decide (value = "N")).

Inductive VerificationMethod := OnlyUseTemporaryPassword | OnlyUsePermanentPassword | UseBothPasswords.
Inductive ApproveMode := Both | ByPassword | Click.

Definition verification_method (e : Env) : VerificationMethod :=
  let method := e.(get_option) "verification-method" in
  if bool_decide (method = "use-temporary-password") then OnlyUseTemporaryPassword
  else if bool_decide (method = "use-permanent-password") then OnlyUsePermanentPassword
  else UseBothPasswords.

Definition temporary_enabled (e : Env) : bool :=
  match verification_method e with OnlyUsePermanentPassword => false | _ => true end.
Definition permanent_enabled (e : Env) : bool :=
  match verification_method e with OnlyUseTemporaryPassword => false | _ => true end.

Definition approve_mode (e : Env) : ApproveMode :=
  let mode := e.(get_option) "approve-mode" in
  if bool_decide (mode = "password") then ByPassword
  else if bool_decide (mode = "click") then Click else Both.

(** Operator control: two bits per permission, set by the server that introduced the peer. *)
Definition get_control_permission (permissions permission : Z) : option bool :=
  if (0 <=? permission) && (permission <? 32) then
    let value := Z.land (Z.shiftr permissions (permission * 2)) 3 in
    if value =? 1 then Some false else if value =? 2 then Some true else None
  else None.

Definition permission_of_option (opt : string) : option Z :=
  if bool_decide (opt = "enable-keyboard") then Some 0
  else if bool_decide (opt = "enable-remote-printer") then Some 1
  else if bool_decide (opt = "enable-clipboard") then Some 2
  else if bool_decide (opt = "enable-file-transfer") then Some 3
  else if bool_decide (opt = "enable-audio") then Some 4
  else if bool_decide (opt = "enable-camera") then Some 5
  else if bool_decide (opt = "enable-terminal") then Some 6
  else if bool_decide (opt = "enable-tunnel") then Some 7
  else if bool_decide (opt = "enable-remote-restart") then Some 8
  else if bool_decide (opt = "enable-record-session") then Some 9
  else if bool_decide (opt = "enable-block-input") then Some 10
  else if bool_decide (opt = "enable-privacy-mode") then Some 12
  else None.

Definition is_permission_enabled_locally (e : Env) (opt : string) : bool :=
  let access_mode := e.(get_option) "access-mode" in
  if bool_decide (access_mode = "full") then true
  else if bool_decide (access_mode = "view") then false
  else option2bool opt (e.(get_option) opt).

Definition permission (e : Env) (opt : string) (control : option Z) : bool :=
  match control with
  | Some permissions =>
      match p ← permission_of_option opt; get_control_permission permissions p with
      | Some enabled => enabled
      | None => is_permission_enabled_locally e opt
      end
  | None => is_permission_enabled_locally e opt
  end.

End LoginState.
