(* ===== verification/LoginFlow.v ===== *)
(** Login: the handlers of a connection that has not authorized, from its first login request to
    its authorization ([src/src/server/connection.rs]).  A handler returns whether the connection
    is kept, and the state it leaves; a sequence of steps of the code that is not interrupted is
    one definition. *)

From S2P Require Import Prelude LoginLockout LoginThrottle LoginId LoginAdmit LoginPassword LoginState MuxWindow MuxEndpoint.

Module LoginFlow.
Import Lockout Throttle IdList Admit Password LoginState.

Section Flow.
Context {L : Libraries}.

Definition MAX_UNAUTHORIZED_MESSAGE : Z := 128 * 1024.

(** ** Throttles *)

Inductive Bucket := BPassword | B2fa | BIdWhitelist.

Definition bucket (i : Bucket) (h : Shared) : FailureMap :=
  match i with BPassword => h.(f_password) | B2fa => h.(f_2fa) | BIdWhitelist => h.(f_id) end.
Definition set_bucket (i : Bucket) (m : FailureMap) (h : Shared) : Shared :=
  match i with BPassword => set_f_password m h | B2fa => set_f_2fa m h | BIdWhitelist => set_f_id m h end.

(** Refusals are sent and reported. *)
Definition refuse (rs : list Refusal) (s : Sys) : Sys :=
  foldl (fun s r => post_alarm_audit r.2 (send_login_error r.1 s)) s rs.

Definition check_failure_with_scope (e : Env) (i : Bucket) (scope : FailureScope) (s : Sys) : (Entry * Z) * bool * Sys :=
  match scope with
  | TerminalOsLogin =>
      let '(d, policy) := evaluate_os_credential_policy scope e.(now_ms) s.(shared).(lockout) in
      let s := on_shared (set_lockout policy) s in
      let s := if d.(allowed) then s else
        let s := match d.(login_error) with Some msg => send_login_error msg s | None => s end in
        match d.(audit) with Some a => post_alarm_audit a s | None => s end in
      (((0, 0, 0), minute_of e.(now_ms)), d.(allowed), s)
  | Default =>
      let '(failure, res, rs) := check_failure (bucket i s.(shared)) s.(conn).(ip) e.(now_ms) in
      (failure, res, refuse rs s)
  end.
Definition check_failure_in (e : Env) (i : Bucket) (s : Sys) := check_failure_with_scope e i Default s.

Definition update_failure_with_scope (e : Env) (failure : Entry * Z) (remove : bool) (i : Bucket) (scope : FailureScope) (s : Sys) : Sys :=
  match scope with
  | TerminalOsLogin =>
      if remove then s
      else on_shared (fun h => set_lockout (record_os_credential_failure scope e.(now_ms) h.(lockout)) h) s
  | Default => on_shared (fun h => set_bucket i (update_failure s.(conn).(ip) failure remove (bucket i h)) h) s
  end.

(** ** The ID whitelist *)

Definition check_id_whitelist (e : Env) (s : Sys) : bool * Sys :=
  let id_whitelist := parse_id_whitelist (chars (e.(get_option) "id-whitelist")) in
  if is_nil id_whitelist then (true, s) else
  let s := on_shared (fun h => set_f_id (decay_id_whitelist_failures s.(conn).(ip) e.(now_ms) h.(f_id)) h) s in
  let '(failure, res, s) := check_failure_in e BIdWhitelist s in
  if negb res then (false, s) else
  if id_whitelist_allows to_lowercase id_whitelist (chars s.(conn).(lr).(my_id)) then (true, s) else
  let s := update_failure_with_scope e failure false BIdWhitelist Default s in
  (false, post_alarm_audit IdWhitelist (send_login_error "Your ID is blocked by the peer" s)).

(** ** Passwords *)

Definition SESSION_TIMEOUT : Z := 30000.

Definition update_or_insert_session (e : Env) (key : SessionKey) (pw : option bytes) (t : option bool)
    (m : gmap SessionKey Session) : gmap SessionKey Session :=
  match m !! key with
  | Some x => <[key := mkSession x.(last_recv_time) (default x.(random_password) pw) (default x.(tfa) t)]> m
  | None => <[key := mkSession e.(instant) (default [] pw) (default false t)]> m
  end.

Definition set_session_2fa (e : Env) (key : SessionKey) (m : gmap SessionKey Session) : gmap SessionKey Session :=
  match m !! key with
  | Some x => <[key := mkSession x.(last_recv_time) x.(random_password) true]> m
  | None => <[key := mkSession e.(instant) [] true]> m
  end.

Definition check_temporary (e : Env) (success : bool) (s : Sys) : Sys :=
  on_shared (fun h => set_temporary (check_update_temporary_password (temporary_enabled e) success e.(fresh_password) h.(temporary)) h) s.

Definition response_plain (s : Sys) (pw : bytes) : bool :=
  validate_password_plain sha256 s.(conn).(hash) s.(conn).(lr).(password) pw.

(** The part of [validate_password] on the permanent password. *)
Definition validate_permanent (e : Env) (s : Sys) : bool :=
  let hash := s.(conn).(hash) in let response := s.(conn).(lr).(password) in
  if negb (is_nil e.(local_storage)) then
    local_permanent_password_storage_is_usable_for_auth base64_decode secretbox_open from_utf8_lossy e.(machine) e.(local_storage) e.(local_salt) &&
    validate_password_storage sha256 base64_decode secretbox_open from_utf8_lossy e.(machine) hash response e.(local_storage)
  else
    preset_permanent_password_storage_is_usable_for_auth base64_decode e.(preset_storage) e.(preset_salt) &&
    validate_preset_password_storage sha256 base64_decode hash response e.(preset_storage) e.(preset_salt).

Definition validate_password (e : Env) (allow_permanent_password : bool) (s : Sys) : bool * Sys :=
  let temp := s.(shared).(temporary).(current) in
  if temporary_enabled e && response_plain s temp then
    let s := on_conn (set_primary_auth ATemporaryPassword) s in
    let s := on_shared (fun h => set_sessions (update_or_insert_session e (session_key s.(conn)) (Some temp) (Some false) h.(sessions)) h) s in
    (true, check_temporary e true s)
  else if (permanent_enabled e || allow_permanent_password) && validate_permanent e s
  then (true, on_conn (set_primary_auth APermanentPassword) s)
  else (false, s).

Definition is_recent_session (e : Env) (t : bool) (s : Sys) : bool * Sys :=
  let s := on_shared (fun h => set_sessions (filter (fun kv => e.(instant) - kv.2.(last_recv_time) < SESSION_TIMEOUT) h.(sessions)) h) s in
  match s.(shared).(sessions) !! session_key s.(conn) with
  | Some session =>
      if negb (is_nil s.(conn).(lr).(password)) && (t && session.(tfa) || negb t && response_plain s session.(random_password))
      then (true, on_conn (if t then set_two_factor TTotp else set_primary_auth ATemporaryPassword) s)
      else (false, s)
  | None => (false, s)
  end.

Definition has_permanent_password (e : Env) : bool :=
  if negb (is_nil e.(local_storage))
  then local_permanent_password_storage_is_usable_for_auth base64_decode secretbox_open from_utf8_lossy e.(machine) e.(local_storage) e.(local_salt)
  else preset_permanent_password_storage_is_usable_for_auth base64_decode e.(preset_storage) e.(preset_salt).

Definition has_valid_password (e : Env) (s : Sys) : bool :=
  temporary_enabled e && negb (is_nil s.(shared).(temporary).(current)) || permanent_enabled e && has_permanent_password e.

(** ** Terminal logins *)

(** Only Windows logs in to the operating system. *)
Definition should_use_terminal_os_login_scope (e : Env) (is_terminal : bool) (os_username : string) : bool :=
  e.(cfg_windows) && is_terminal && negb (is_nil (trim (chars os_username))).

Definition to_terminal_service_token (t : TerminalUserToken) : option Z :=
  match t with SelfUser => None | CurrentLogonUser token => Some token end.

(** [Some keep] ends the login with [keep]. *)
Definition prepare_terminal_login_for_authorization (e : Env) (s : Sys) : option bool * Sys :=
  let c := s.(conn) in
  if negb c.(terminal) || match c.(terminal_user_token) with Some _ => true | None => false end then (None, s) else
  let user := trim (chars c.(lr).(os_username)) in
  let os := should_use_terminal_os_login_scope e c.(terminal) c.(lr).(os_username) in
  let '(failure, res, s) := if os then check_failure_with_scope e BPassword TerminalOsLogin s else (((0, 0, 0), 0), true, s) in
  if os && negb res then (Some false, s) else
  if os && negb e.(os_gate_free) then
    (Some false, post_alarm_audit TerminalOsLoginConcurrency (send_login_error "Please try 1 minute later" s)) else
  let '(token, err) :=
    if e.(cfg_windows) then e.(fill_terminal_user_token) user c.(lr).(os_password) else (Some SelfUser, None) in
  let s := on_conn (set_terminal_user_token token) s in
  match err with
  | Some msg =>
      let s := if os then update_failure_with_scope e failure false BPassword TerminalOsLogin s else s in
      (Some false, send_login_error msg s)
  | None =>
      let s := if os then update_failure_with_scope e failure true BPassword TerminalOsLogin s else s in
      let mismatch :=
        match e.(is_service_specified_user) c.(terminal_service_id), token with
        | Some is_user, Some t => negb (Bool.eqb is_user match to_terminal_service_token t with Some _ => true | None => false end)
        | _, _ => false
        end in
      if mismatch then (Some false, send_login_error "Terminal service user mismatch detected." s) else
      (None, if os then on_conn (set_start_cm_ipc true) s else s)
  end.

(** ** Port forwarding *)

(** [port_forward_mux::MAX_PACKET]: the cap of a multiplexed tunnel's TCP stream. *)
Definition MAX_PACKET : Z := 2 * Window.MAX_FRAME.

Definition connect_port_forward_if_needed (e : Env) (s : Sys) : bool * Sys :=
  if is_port_forward s.(conn) then (true, s) else
  match s.(conn).(lr).(lr_union) with
  | Some (UPortForward host port multiplex) =>
      if multiplex then
        (true, on_conn (fun c => set_port_forward_mux (Some c.(port_forward_address)) (set_max_packet_length MAX_PACKET c)) s)
      else
      let '(addr, is_rdp) := Controlled.normalize_port_forward_target host port in
      let s := on_conn (set_port_forward_address addr) s in
      if e.(connect) addr then (true, on_conn (set_port_forward_socket true) s)
      else (false, send_login_error ("Failed to access remote " +:+ (if is_rdp : bool then "RDP" else addr) +:+ ". Please make sure it is reachable/open.") s)
  | _ => (true, s)
  end.

(** ** Authorization *)

Definition conn_type_of (c : Conn) : AuthConnType :=
  match c.(file_transfer) with
  | Some _ => FileTransfer
  | None => if is_port_forward c then PortForward else if c.(view_camera) then ViewCamera else if c.(terminal) then Terminal else Remote
  end.

Definition normalize_conn_audit_auth_fields (c : Conn) : Conn :=
  match c.(primary_auth) with AClick | ASwitchSides => set_two_factor TNone c | _ => c end.

(** From [self.authorized = true] to the registration of the connection. *)
Definition authorize (e : Env) (s : Sys) : Sys :=
  let s := on_conn (set_authorized true) s in
  let s := on_shared (fun h => set_places (drop_guard s.(conn).(conn_id) h.(places)) h) (on_conn (set_holds_place false) s) in
  let s := on_shared (fun h => set_temporary (update_temporary_password e.(fresh_password) h.(temporary)) h) s in
  let s := on_shared (fun h => set_f_id (clear_id_whitelist_failures s.(conn).(ip) h.(f_id)) h) s in
  let t := conn_type_of s.(conn) in
  let s := on_shared (fun h => set_authed_conns (h.(authed_conns) ++ [(s.(conn).(conn_id), t, session_key s.(conn))]) h) s in
  send LoginResponse (on_conn (fun c => normalize_conn_audit_auth_fields (set_authed_conn_type (Some t) c)) s).

Definition send_logon_response_and_keep_alive (e : Env) (s : Sys) : bool * Sys :=
  if s.(conn).(authorized) then (true, s) else
  let '(recent, s) := match s.(conn).(require_2fa) with Some _ => is_recent_session e true s | None => (true, s) end in
  if negb recent && negb s.(conn).(from_switch) then
    (true, send_login_error "2FA Required" (on_conn (set_awaiting_2fa true) s))
  else
  let s := on_conn (set_awaiting_2fa false) s in
  let '(r, s) := prepare_terminal_login_for_authorization e s in
  match r with
  | Some keep => (keep, s)
  | None =>
      let s := on_conn (set_max_packet_length usize_max) s in
      let '(ok, s) := connect_port_forward_if_needed e s in
      if negb ok then (false, s) else (true, authorize e s)
  end.

Definition try_start_cm (authorized : bool) : Sys -> Sys := send (CmLogin authorized).
Definition try_start_cm_ipc : Sys -> Sys := on_conn (set_start_cm_ipc true).

(** ** Login requests *)

(** Length-prefixed. *)
Definition push (b : bytes) : bytes := le_bytes 8 (zlen b) ++ b.

(** What [login_scope_digest] hashes. *)
Definition login_scope_bytes (lr : LoginRequest) : bytes :=
  push (as_bytes lr.(my_id)) ++
  match lr.(lr_union) with
  | Some (UFileTransfer dir show_hidden) => push (as_bytes "file_transfer") ++ push (as_bytes dir) ++ push [Z.b2z show_hidden]
  | Some UViewCamera => push (as_bytes "view_camera")
  | Some (UTerminal service_id) => push (as_bytes "terminal") ++ push (as_bytes service_id)
  | Some (UPortForward host port multiplex) =>
      push (as_bytes "port_forward") ++ push (as_bytes host) ++ push (le_bytes 4 port) ++ push [Z.b2z multiplex]
  | None | Some UUnknown => push (as_bytes "remote")
  end.
Definition login_scope_digest (lr : LoginRequest) : bytes := sha256 (login_scope_bytes lr).

Definition check_login_scope (lr : LoginRequest) (s : Sys) : bool * Sys :=
  let requested := login_scope_digest lr in
  match s.(conn).(login_scope) with
  | Some initial =>
      if bool_decide (initial <> requested) then (false, send_login_error "Connection not allowed" s) else (true, s)
  | None => (true, on_conn (set_login_scope (Some requested)) s)
  end.

Definition outdate (e : Env) (d : TrustedDevice) : bool := d.(d_time) + 90 * 24 * 60 * 60 * 1000 <? e.(now_ms).

Definition enable_trusted_devices (e : Env) : bool :=
  option2bool "enable-trusted-devices" (e.(get_option) "enable-trusted-devices").

Definition trusted_device_matches (e : Env) (lr : LoginRequest) : bool :=
  match find (fun d => bool_decide (d.(d_hwid) = lr.(hwid))) e.(trusted_devices) with
  | Some d =>
      negb (outdate e d) && bool_decide (d.(d_id) = lr.(my_id)) && bool_decide (d.(d_name) = lr.(my_name)) &&
      bool_decide (d.(d_platform) = lr.(my_platform))
  | None => false
  end.

Definition handle_login_request_without_validation (e : Env) (lr : LoginRequest) (s : Sys) : Sys :=
  let s := on_conn (set_lr lr) s in
  let s := match lr.(lr_option) with Some o => on_conn (set_options_in_login (Some o)) s | None => s end in
  let s :=
    if match s.(conn).(require_2fa) with Some _ => true | None => false end && negb (is_nil lr.(hwid)) &&
       enable_trusted_devices e && trusted_device_matches e lr
    then on_conn (fun c => set_require_2fa None (set_two_factor TTrustedDevice c)) s else s in
  on_conn (set_video_ack_required lr.(lr_video_ack_required)) s.

Definition reset_session_scope_for_login (c : Conn) : Conn :=
  set_terminal_persistent false (set_port_forward_address "" (set_terminal false (set_view_camera false (set_file_transfer None c)))).

(** The [match lr.union] of a login request: the permission of the scope, and its fields. *)
Definition apply_login_scope (e : Env) (lr : LoginRequest) (s : Sys) : bool * Sys :=
  let allowed opt := permission e opt s.(conn).(control_permissions) in
  match lr.(lr_union) with
  | Some (UFileTransfer dir show_hidden) =>
      if negb (allowed "enable-file-transfer") then (false, send_login_error "No permission of file transfer" s)
      else (true, on_conn (set_file_transfer (Some (dir, show_hidden))) s)
  | Some UViewCamera =>
      if negb (allowed "enable-camera") then (false, send_login_error "No permission of viewing camera" s)
      else (true, on_conn (set_view_camera true) s)
  | Some (UTerminal service_id) =>
      if negb (allowed "enable-terminal") then (false, send_login_error "No permission of terminal" s)
      else if e.(cfg_windows) && negb (bool_decide (lr.(os_username) = "")) && negb e.(is_installed)
      then (false, send_login_error "Supported only in the installed version." s)
      else
        let s := on_conn (set_terminal true) s in
        let s := match s.(conn).(options_in_login) with
                 | Some o => on_conn (set_terminal_persistent (bool_decide (bool_option o.(o_terminal_persistent) = Some Yes))) s
                 | None => s
                 end in
        (true, on_conn (set_terminal_service_id service_id) s)
  | Some (UPortForward host port _) =>
      if negb (allowed "enable-tunnel") then (false, send_login_error "No permission of IP tunneling" s)
      else (true, on_conn (set_port_forward_address (Controlled.normalize_port_forward_target host port).1) s)
  | None | Some UUnknown =>
      if e.(is_in_privacy_mode) then (false, send_login_error "Someone turns on privacy mode, exit" s) else (true, s)
  end.

Definition SEND_TIMEOUT_VIDEO : Z := 12000.
Definition SEND_TIMEOUT_OTHER : Z := SEND_TIMEOUT_VIDEO * 10.

Definition login_send_timeout (c : Conn) : Z :=
  if match c.(file_transfer) with Some _ => true | None => false end || c.(terminal) ||
     match c.(lr).(lr_union) with Some (UPortForward _ _ _) => true | _ => false end
  then SEND_TIMEOUT_OTHER else SEND_TIMEOUT_VIDEO.

(** [x.parse::<i64>().unwrap_or(0)] on characters. *)
Fixpoint parse_digits (acc : Z) (l : list Z) : option Z :=
  match l with
  | [] => Some acc
  | c :: l => if (48 <=? c) && (c <=? 57) then parse_digits (acc * 10 + (c - 48)) l else None
  end.
Definition parse_i64 (l : list Z) : Z :=
  let '(sign, digits) := match l with 45 :: l => (-1, l) | 43 :: l => (1, l) | _ => (1, l) end in
  match digits with
  | [] => 0
  | _ => match parse_digits 0 digits with
         | Some n => if (- 2 ^ 63 <=? sign * n) && (sign * n <? 2 ^ 63) then sign * n else 0
         | None => 0
         end
  end.

Definition get_version_number (v : list Z) : Z :=
  match split_at 45 v with
  | first :: rest =>
      let '(n, last) := foldl (fun '(n, _) x => let last := parse_i64 x in (swrap 64 (n * 1000 + last), last)) (0, 0) (split_at 46 first) in
      let n := swrap 64 (swrap 64 (n - last) + swrap 64 (last * 10)) in
      match rest with second :: _ => swrap 64 (n + parse_i64 second) | [] => n end
  | [] => 0
  end.

(** A login that waits for the user's click. *)
Definition wait_for_click (e : Env) (lr : LoginRequest) (tell : bool) (s : Sys) : bool * Sys :=
  let '(r, s) :=
    if should_use_terminal_os_login_scope e s.(conn).(terminal) lr.(os_username)
    then prepare_terminal_login_for_authorization e s else (None, s) in
  match r with
  | Some keep => (keep, s)
  | None =>
      let s := try_start_cm false s in
      (true, if tell && (get_version_number (chars "1.2.0") <=? get_version_number (chars lr.(version)))
             then send_login_error "No Password Access" s else s)
  end.

(** A login with a password. *)
Definition login_with_password (e : Env) (allow_permanent : bool) (s : Sys) : bool * Sys :=
  let '(failure, res, s) := check_failure_in e BPassword s in
  if negb res then (true, s) else
  let '(ok, s) := validate_password e allow_permanent s in
  if negb ok then
    let s := update_failure_with_scope e failure false BPassword Default s in
    (true, try_start_cm false (send_login_error "Wrong Password" (check_temporary e false s)))
  else
    let s := update_failure_with_scope e failure true BPassword Default s in
    let '(keep, s) := send_logon_response_and_keep_alive e s in
    if negb keep then (false, s) else (true, try_start_cm s.(conn).(authorized) s).

(** [OPTION_ALLOW_LOGON_SCREEN_PASSWORD], on the logon screen. *)
Definition allow_logon_screen_password (e : Env) : bool :=
  bool_decide (e.(get_builtin_option) "allow-logon-screen-password" = "Y") && e.(is_logon).

(** The branches on how the login is approved. *)
Definition approve_login (e : Env) (lr : LoginRequest) (s : Sys) : bool * Sys :=
  if (match approve_mode e with Click => negb (allow_logon_screen_password e) | _ => false end) ||
     (match approve_mode e with Both => negb (has_valid_password e s) | _ => false end)
  then wait_for_click e lr true s
  else
    let '(recent, s) := is_recent_session e false s in
    if recent : bool then
      let '(keep, s) := send_logon_response_and_keep_alive e s in
      if negb keep then (false, s) else (true, try_start_cm s.(conn).(authorized) s)
    else if is_nil lr.(password) then wait_for_click e lr false s
    else login_with_password e (allow_logon_screen_password e) s.

Definition on_login_request (e : Env) (lr : LoginRequest) (s : Sys) : bool * Sys :=
  let '(ok, s) := check_login_scope lr s in
  if negb ok then (false, s) else
  let s := handle_login_request_without_validation e lr (on_conn (set_awaiting_2fa false) s) in
  if s.(conn).(authorized) then (true, s) else
  let '(ok, s) := check_id_whitelist e (on_conn reset_session_scope_for_login s) in
  if negb ok then (false, s) else
  let '(ok, s) := apply_login_scope e lr s in
  if negb ok then (false, s) else
  let s := on_conn (fun c => set_send_timeout (login_send_timeout c) c) s in
  if negb (e.(is_direct_ip_access) lr.(username)) && negb (bool_decide (lr.(username) = e.(get_id)))
  then (false, send_login_error "Offline" s) else
  if e.(cfg_windows) && s.(conn).(terminal) && is_nil (trim (chars lr.(os_username))) && e.(is_prelogin)
  then (false, send_login_error "No active console user logged on, please connect and logon first." s) else
  let s := if negb (should_use_terminal_os_login_scope e s.(conn).(terminal) lr.(os_username)) then try_start_cm_ipc s else s in
  approve_login e lr s.

(** ** The second factor *)

Definition on_auth_2fa (e : Env) (code : string) (tfa_hwid : bytes) (s : Sys) : bool * Sys :=
  if negb s.(conn).(awaiting_2fa) then (true, s) else
  let '(failure, res, s) := check_failure_in e B2fa s in
  if negb res then (true, s) else
  match s.(conn).(require_2fa) with
  | None => (true, s)
  | Some totp =>
      match totp_check totp code e.(now_ms) with
      | None => (true, s)
      | Some false =>
          (true, send_login_error "Wrong 2FA Code" (update_failure_with_scope e failure false B2fa Default s))
      | Some true =>
          let s := update_failure_with_scope e failure true B2fa Default s in
          let s := on_conn (fun c => set_two_factor TTotp (set_require_2fa None c)) s in
          let s := on_shared (fun h => set_sessions (set_session_2fa e (session_key s.(conn)) h.(sessions)) h) s in
          let '(keep, s) := send_logon_response_and_keep_alive e s in
          if negb keep then (false, s) else
          let s := try_start_cm s.(conn).(authorized) s in
          let lr := s.(conn).(lr) in
          (true, if negb (is_nil tfa_hwid) && enable_trusted_devices e
                 then send (TrustDevice tfa_hwid e.(now_ms) lr.(my_id) lr.(my_name) lr.(my_platform)) s else s)
      end
  end.

(** ** Switching sides *)

Definition SWITCH_SIDES_UUID_TTL : Z := 10000.

(** [Uuid::from_slice] accepts sixteen bytes. *)
Definition on_switch_sides (e : Env) (uuid : bytes) (response_lr : option LoginRequest) (s : Sys) : bool * Sys :=
  match response_lr with
  | None => (true, s)
  | Some lr =>
      let live := filter (fun kv => e.(instant) - kv.2.1 < SWITCH_SIDES_UUID_TTL) s.(shared).(switch_uuids) in
      let uuid_old := live !! lr.(my_id) in
      let s := on_shared (set_switch_uuids (delete lr.(my_id) live)) s in
      match uuid_old with
      | Some (_, old) =>
          if (zlen uuid =? 16) && bool_decide (uuid = old) then
            match lr.(lr_union) with
            | Some _ => (false, send_login_error "Connection not allowed" s)
            | None =>
                let s := handle_login_request_without_validation e lr (on_conn reset_session_scope_for_login s) in
                let '(ok, s) := check_id_whitelist e s in
                if negb ok then (false, s) else
                let s := on_conn (fun c => set_primary_auth ASwitchSides (set_from_switch true c)) s in
                let '(keep, s) := send_logon_response_and_keep_alive e s in
                if negb keep then (false, s) else
                (true, try_start_cm_ipc (try_start_cm s.(conn).(authorized) s))
            end
          else (true, s)
      | None => (true, s)
      end
  end.

(** ** Events of a connection *)

Definition get_bool_option (e : Env) (k : string) : bool := option2bool k (e.(get_option) k).

Definition handle_authorized_scope_violation (e : Env) (message : string) (s : Sys) : bool * Sys :=
  let is_first := negb (bool_decide (message ∈ s.(conn).(scope_violation_messages))) in
  let s := on_conn (fun c => if is_first then set_scope_violation_messages (message :: c.(scope_violation_messages)) c else c) s in
  let s := if is_first && get_bool_option e "allow-scope-violation-alarm" then post_alarm_audit SessionScopeViolation s else s in
  if get_bool_option e "allow-scope-violation-close" then (false, send (CloseReasonNoRetry "Connection not allowed") s) else (true, s).

(** The part of [on_message] that concerns the login; the other messages are for the session,
    and do nothing before it. *)
Definition on_message (e : Env) (m : Message) (s : Sys) : bool * Sys :=
  let handle := fun s =>
    match m with
    | MLogin lr => on_login_request e lr s
    | MAuth2fa code tfa_hwid => on_auth_2fa e code tfa_hwid s
    | MSwitchSides uuid lr => on_switch_sides e uuid lr s
    | _ => (true, s)
    end in
  if s.(conn).(authorized) then
    match m with
    | MLogin _ => (true, s)
    | _ => match authorized_scope_violation e.(cfg_windows) s.(conn).(authed_conn_type) m with
           | Some message => handle_authorized_scope_violation e message s
           | None => handle s
           end
    end
  else handle s.

(** The connection manager's user accepts the connection. *)
Definition on_authorize (e : Env) (s : Sys) : bool * Sys :=
  let '(keep, s) := send_logon_response_and_keep_alive e (on_conn (fun c => set_require_2fa None (set_primary_auth AClick c)) s) in
  (keep && negb s.(conn).(port_forward_socket), s).

Definition conn_new (id : Z) (addr : IpAddr) (h : Hash) (control : option Z) (totp : option bytes) : Conn :=
  mkConn id addr h control login_default None false false totp false None false false false "" None "" false None None
    false SEND_TIMEOUT_VIDEO MAX_UNAUTHORIZED_MESSAGE false ANone TNone None true [].

End Flow.
End LoginFlow.
