(* ===== verification/LoginSafety.v ===== *)
(** A connection authorizes only with credentials, and only in the scope it first asked for. *)

From S2P Require Import Prelude LoginLockout LoginThrottle LoginId LoginAdmit LoginPassword LoginState MuxEndpoint LoginFlow.

Module LoginSafety.
Import Lockout Throttle IdList Admit Password LoginState LoginFlow.

Section Safety.
Context {L : Libraries}.

(** ** What a login can change, and what it decides on *)

Record Core := mkCore {
  k_fixed : Z * IpAddr * Hash * option Z;
  k_lr : LoginRequest;
  k_scope : option bytes;
  k_authorized : bool;
  k_awaiting : bool;
  k_2fa : option bytes;
  k_switch : bool;
  k_fields : option (string * bool) * bool * bool;
  k_tunnel : bool;
  k_type : option AuthConnType
}.

Definition core (c : Conn) : Core :=
  mkCore (c.(conn_id), c.(ip), c.(hash), c.(control_permissions)) c.(lr) c.(login_scope) c.(authorized) c.(awaiting_2fa)
    c.(require_2fa) c.(from_switch) (c.(file_transfer), c.(view_camera), c.(terminal)) (is_port_forward c) c.(authed_conn_type).

Definition is_cm_login (o : Output) : bool := match o with CmLogin _ => true | _ => false end.
Definition cm_told (s : Sys) : bool := existsb is_cm_login s.(out).

(** Nothing of the core changed, and the connection manager was not told. *)
Definition same (s s' : Sys) : Prop := core s'.(conn) = core s.(conn) /\ cm_told s' = cm_told s.

#[export] Instance same_refl : Reflexive same.
Proof. by split. Qed.
#[export] Instance same_trans : Transitive same.
Proof. intros x y z [H1 H2] [H3 H4]. split; congruence. Qed.

Lemma cm_told_send o s : cm_told (send o s) = cm_told s || is_cm_login o.
Proof. unfold cm_told, send. cbn [out]. rewrite existsb_app. cbn [existsb]. by rewrite orb_false_r. Qed.

Lemma cm_told_error msg s : cm_told (send_login_error msg s) = cm_told s.
Proof. unfold send_login_error. by rewrite cm_told_send, orb_false_r. Qed.

Lemma send_same o s : is_cm_login o = false -> same s (send o s).
Proof. intros H. split; [done|]. by rewrite cm_told_send, H, orb_false_r. Qed.

Lemma on_conn_same f s : core (f s.(conn)) = core s.(conn) -> same s (on_conn f s).
Proof. by split. Qed.

Lemma on_shared_same f s : same s (on_shared f s).
Proof. by split. Qed.

Lemma refuse_cons r rs s : refuse (r :: rs) s = refuse rs (post_alarm_audit r.2 (send_login_error r.1 s)).
Proof. done. Qed.

Lemma refuse_spec rs s : same s (refuse rs s) /\ (refuse rs s).(shared) = s.(shared) /\ (refuse rs s).(conn) = s.(conn).
Proof.
  revert s. induction rs as [|r rs IH]; intros s; [by split|]. rewrite refuse_cons.
  destruct (IH (post_alarm_audit r.2 (send_login_error r.1 s))) as (H & -> & ->). split; [|done].
  etrans; [by apply (send_same (LoginError r.1))|]. etrans; [by apply (send_same (AlarmAudit r.2))|exact H].
Qed.

Ltac same_tac :=
  repeat first [ reflexivity | apply on_shared_same | apply on_conn_same; reflexivity
               | apply send_same; reflexivity ].

Lemma check_failure_in_spec e i s f r s' : check_failure_in e i s = (f, r, s') ->
  same s s' /\ s'.(shared) = s.(shared) /\ s'.(conn) = s.(conn) /\
  r = (check_failure (bucket i s.(shared)) s.(conn).(ip) e.(now_ms)).1.2.
Proof.
  unfold check_failure_in, check_failure_with_scope. destruct (check_failure _ _ _) as [[f0 r0] rs]. intros [= <- <- <-].
  destruct (refuse_spec rs s) as (? & ? & ?). done.
Qed.

(** The ID passes the whitelist of the moment. *)
Definition id_allowed (e : Env) (id : string) : Prop :=
  id_whitelist_allows to_lowercase (parse_id_whitelist (chars (e.(get_option) "id-whitelist"))) (chars id) = true.

(** [h'] differs from [h] at most in the whitelist's failures. *)
Definition same_but_id (h h' : Shared) : Prop := h' = set_f_id h'.(f_id) h.

Lemma check_id_whitelist_spec e s b s' : check_id_whitelist e s = (b, s') ->
  same s s' /\ s'.(conn) = s.(conn) /\ same_but_id s.(shared) s'.(shared) /\ (b = true -> id_allowed e s.(conn).(lr).(my_id)).
Proof.
  unfold check_id_whitelist, id_allowed. destruct (is_nil (parse_id_whitelist _)) eqn:En.
  { intros [= <- <-]. split_and!; [done|done|by destruct (shared s)|]. intros _. unfold id_whitelist_allows. by rewrite En. }
  set (s1 := on_shared _ s). destruct (check_failure_in e BIdWhitelist s1) as [[f r] s2] eqn:E.
  apply check_failure_in_spec in E as (Hs & Hsh & Hc & _).
  assert (H1 : same s s2) by (etrans; [|exact Hs]; apply on_shared_same).
  assert (H2 : same_but_id s.(shared) s2.(shared)) by (rewrite Hsh; reflexivity).
  assert (H3 : s2.(conn) = s.(conn)) by (rewrite Hc; done).
  destruct r; cbn [negb]; [|intros [= <- <-]; split_and!; [done..|discriminate]].
  destruct (id_whitelist_allows _ _ _) eqn:Ea; intros [= <- <-].
  { split_and!; [done..|]. intros _. by rewrite <- H3. }
  split_and!; [|done| |done].
  - etrans; [exact H1|]. etrans; [|apply send_same; reflexivity]. etrans; [|apply send_same; reflexivity]. apply on_shared_same.
  - unfold same_but_id in *. cbn. by rewrite H2.
Qed.

(** ** Secrets *)

(** The response proves knowledge of [h1], for the challenge of this connection. *)
Definition responds (hash : Hash) (lr : LoginRequest) (h1 : bytes) : Prop :=
  lr.(password) = sha256 (h1 ++ hash.(challenge)).

Definition plain_secret (hash : Hash) (pw h1 : bytes) : Prop := pw <> [] /\ h1 = sha256 (pw ++ hash.(salt)).

Definition key_of (lr : LoginRequest) : SessionKey := (lr.(my_id), lr.(my_name), lr.(session_id)).

(** The session the request names, heard of within the last thirty seconds. *)
Definition recent_session (e : Env) (h : Shared) (lr : LoginRequest) (x : Session) : Prop :=
  h.(sessions) !! key_of lr = Some x /\ e.(instant) - x.(last_recv_time) < SESSION_TIMEOUT.

Definition permanent_secret (e : Env) (hash : Hash) (h1 : bytes) : Prop :=
  if negb (is_nil e.(local_storage)) then
    local_permanent_password_storage_is_usable_for_auth base64_decode secretbox_open from_utf8_lossy e.(machine) e.(local_storage) e.(local_salt) = true /\
    match decode_permanent_password_h1_from_storage base64_decode secretbox_open from_utf8_lossy e.(machine) e.(local_storage) with
    | Some stored => h1 = stored
    | None => plain_secret hash e.(local_storage) h1
    end
  else
    preset_permanent_password_storage_is_usable_for_auth base64_decode e.(preset_storage) e.(preset_salt) = true /\
    if is_nil e.(preset_salt) then plain_secret hash e.(preset_storage) h1
    else decode_preset_password_h1_from_storage base64_decode e.(preset_storage) = Some h1.

Lemma verify_h1_spec hash lr h1 : verify_h1 sha256 hash lr.(password) h1 = true <-> responds hash lr h1.
Proof. unfold verify_h1, responds. rewrite PasswordFacts.constant_time_eq_spec. naive_solver. Qed.

Lemma plain_spec hash lr pw : validate_password_plain sha256 hash lr.(password) pw = true ->
  exists h1, plain_secret hash pw h1 /\ responds hash lr h1.
Proof.
  unfold validate_password_plain, plain_secret. destruct pw as [|x pw]; cbn [is_nil]; [done|].
  rewrite verify_h1_spec. intros H. eexists. split; [split; [done|reflexivity]|exact H].
Qed.

Lemma permanent_spec e s : validate_permanent e s = true ->
  exists h1, permanent_secret e s.(conn).(hash) h1 /\ responds s.(conn).(hash) s.(conn).(lr) h1.
Proof.
  unfold validate_permanent, permanent_secret. destruct (negb (is_nil (local_storage e))) eqn:En; rewrite andb_true_iff; intros [Hu Hv].
  - unfold validate_password_storage in Hv. destruct (is_nil (local_storage e)); [done|].
    destruct (decode_permanent_password_h1_from_storage _ _ _ _ _) as [h1|].
    + apply verify_h1_spec in Hv. eauto.
    + apply plain_spec in Hv as (h1 & ? & ?). eauto.
  - unfold validate_preset_password_storage in Hv. destruct (is_nil (preset_salt e)).
    + apply plain_spec in Hv as (h1 & ? & ?). eauto.
    + destruct (decode_preset_password_h1_from_storage _ _) as [h1|] eqn:Ed; [|done]. apply verify_h1_spec in Hv. eauto.
Qed.

(** Sessions with a second factor are only ever dropped during a login. *)
Definition sub_sessions (h h' : Shared) : Prop :=
  forall k x, h'.(sessions) !! k = Some x -> x.(tfa) = true -> h.(sessions) !! k = Some x.

#[export] Instance sub_refl : Reflexive sub_sessions.
Proof. by intros h k x. Qed.
#[export] Instance sub_trans : Transitive sub_sessions.
Proof. intros x y z H1 H2 k w Hw Ht. auto. Qed.

Lemma is_recent_session_spec e t s b s' : is_recent_session e t s = (b, s') ->
  same s s' /\ s'.(conn).(lr) = s.(conn).(lr) /\ s'.(conn).(hash) = s.(conn).(hash) /\ sub_sessions s.(shared) s'.(shared) /\
  (exists m, s'.(shared) = set_sessions m s.(shared)) /\
  (b = true -> exists x, recent_session e s.(shared) s.(conn).(lr) x /\ s.(conn).(lr).(password) <> [] /\
     if t then x.(tfa) = true
     else exists h1, plain_secret s.(conn).(hash) x.(random_password) h1 /\ responds s.(conn).(hash) s.(conn).(lr) h1).
Proof.
  unfold is_recent_session. set (s1 := on_shared _ s).
  assert (Hsub : sub_sessions s.(shared) s1.(shared)) by (intros k x [Hx _]%map_lookup_filter_Some _; exact Hx).
  assert (Hm : exists m, s1.(shared) = set_sessions m s.(shared)) by by eexists.
  change (session_key (conn s1)) with (key_of (lr (conn s))). change (conn s1) with (conn s).
  destruct (sessions (shared s1) !! key_of _) as [x|] eqn:Ex; [|intros [= <- <-]; split_and!; [by split|done|done|done|done|discriminate]].
  destruct (negb _ && _) eqn:Eb; intros [= <- <-]; [|split_and!; [by split|done|done|done|done|discriminate]].
  apply andb_true_iff in Eb as [Hp Hx]. apply map_lookup_filter_Some in Ex as [Ex Hrec]. cbn in Hrec.
  split_and!; [by destruct t|by destruct t|by destruct t|by destruct t|by destruct t|].
  intros _. exists x. split_and!; [by split|by intros E; rewrite E in Hp|]. destruct t; cbn in Hx; [by rewrite orb_false_r in Hx|].
  by apply plain_spec in Hx.
Qed.

Lemma validate_password_spec e allow s b s' : validate_password e allow s = (b, s') ->
  same s s' /\ s'.(conn).(lr) = s.(conn).(lr) /\ sub_sessions s.(shared) s'.(shared) /\
  (b = true -> exists h1, responds s.(conn).(hash) s.(conn).(lr) h1 /\
     ((temporary_enabled e = true /\ plain_secret s.(conn).(hash) s.(shared).(temporary).(current) h1) \/
      ((permanent_enabled e = true \/ allow = true) /\ permanent_secret e s.(conn).(hash) h1))).
Proof.
  unfold validate_password. destruct (temporary_enabled e && _) eqn:Et.
  - apply andb_true_iff in Et as [Het Hr]. intros [= <- <-]. split_and!; [by split|done| |].
    + intros k x. cbn. unfold update_or_insert_session. destruct (_ !! session_key _) eqn:E;
        (destruct (decide (k = session_key (set_primary_auth ATemporaryPassword (conn s)))) as [->|];
         [rewrite lookup_insert_eq; intros [= <-]; cbn; done|by rewrite lookup_insert_ne]).
    + intros _. apply plain_spec in Hr as (h1 & ? & ?). eauto.
  - destruct ((_ || _) && _) eqn:Ep; intros [= <- <-]; (split_and!; [by split|done|done|]); [|done].
    intros _. apply andb_true_iff in Ep as [Hen Hv]. apply permanent_spec in Hv as (h1 & ? & ?). apply orb_true_iff in Hen. eauto.
Qed.

(** ** Authorization *)

Lemma check_os_spec e s f r s' : check_failure_with_scope e BPassword TerminalOsLogin s = (f, r, s') -> same s s'.
Proof.
  unfold check_failure_with_scope. destruct (evaluate_os_credential_policy _ _ _) as [d p]. intros [= <- <- <-].
  destruct (allowed d); [apply on_shared_same|]. destruct (login_error d), (audit d); repeat (etrans; [|apply send_same; reflexivity]); apply on_shared_same.
Qed.

Lemma update_scope_same e f rm i scope s : same s (update_failure_with_scope e f rm i scope s).
Proof. unfold update_failure_with_scope. destruct scope; [apply on_shared_same|]. destruct rm; [done|apply on_shared_same]. Qed.

Lemma prepare_spec e s r s' : prepare_terminal_login_for_authorization e s = (r, s') -> same s s' /\ (r = None \/ r = Some false).
Proof.
  unfold prepare_terminal_login_for_authorization. destruct (_ || _); [intros [= <- <-]; auto using same_refl|].
  set (os := should_use_terminal_os_login_scope _ _ _).
  destruct (if os then _ else _) as [[f res] s1] eqn:E1.
  assert (H1 : same s s1) by (destruct os; [by eapply check_os_spec|by injection E1 as _ _ <-]).
  destruct (os && negb res); [intros [= <- <-]; auto|].
  destruct (os && negb (os_gate_free e)).
  { intros [= <- <-]. split; [|by right]. repeat (etrans; [|apply send_same; reflexivity]). done. }
  destruct (if cfg_windows e then _ else _) as [token err].
  assert (H2 : same s (on_conn (set_terminal_user_token token) s1)) by (etrans; [exact H1|by apply on_conn_same]).
  destruct err as [msg|].
  - intros [= <- <-]. split; [|by right]. etrans; [|apply send_same; reflexivity]. destruct os; [|done]. etrans; [exact H2|apply on_shared_same].
  - assert (H3 : same s (if os then update_failure_with_scope e f true BPassword TerminalOsLogin (on_conn (set_terminal_user_token token) s1)
        else on_conn (set_terminal_user_token token) s1)) by (destruct os; [etrans; [exact H2|apply update_scope_same]|done]).
    match goal with |- context [if ?b then (Some false, _) else _] => destruct b end; intros [= <- <-].
    + split; [|by right]. etrans; [exact H3|apply send_same; reflexivity].
    + split; [|by left]. destruct os; [|done]. etrans; [exact H3|by apply on_conn_same].
Qed.

Definition is_tunnel (lr : LoginRequest) : bool := match lr.(lr_union) with Some (UPortForward _ _ _) => true | _ => false end.

Definition set_k_tunnel (b : bool) (k : Core) : Core :=
  mkCore k.(k_fixed) k.(k_lr) k.(k_scope) k.(k_authorized) k.(k_awaiting) k.(k_2fa) k.(k_switch) k.(k_fields) b k.(k_type).

Lemma connect_spec e s b s' : connect_port_forward_if_needed e s = (b, s') -> is_port_forward s.(conn) = false ->
  cm_told s' = cm_told s /\ if b then core s'.(conn) = set_k_tunnel (is_tunnel s.(conn).(lr)) (core s.(conn)) else same s s'.
Proof.
  unfold connect_port_forward_if_needed. intros H Hpf. rewrite Hpf in H. unfold is_tunnel.
  assert (Hc : set_k_tunnel false (core (conn s)) = core (conn s)) by (unfold set_k_tunnel, core; cbn; by rewrite Hpf).
  destruct (lr_union (lr (conn s))) as [[d sh| |sid|host port mux|]|]; try (injection H as <- <-; by rewrite Hc).
  destruct mux.
  - injection H as <- <-. split; [done|]. unfold core, is_port_forward. cbn. by rewrite orb_true_r.
  - destruct (Controlled.normalize_port_forward_target host port) as [addr is_rdp]. destruct (connect e addr); injection H as <- <-.
    + split; [done|]. unfold core, is_port_forward. cbn. done.
    + split; [by rewrite cm_told_error|]. etrans; [|apply send_same; reflexivity]. by apply on_conn_same.
Qed.

Definition type_of_fields (f : option (string * bool) * bool * bool) (tunnel : bool) : AuthConnType :=
  match f.1.1 with
  | Some _ => FileTransfer
  | None => if tunnel then PortForward else if f.1.2 then ViewCamera else if f.2 then Terminal else Remote
  end.

Definition k_authorize (k : Core) : Core :=
  let tunnel := is_tunnel k.(k_lr) in
  mkCore k.(k_fixed) k.(k_lr) k.(k_scope) true false k.(k_2fa) k.(k_switch) k.(k_fields) tunnel
    (Some (type_of_fields k.(k_fields) tunnel)).
Definition k_await (b : bool) (k : Core) : Core :=
  mkCore k.(k_fixed) k.(k_lr) k.(k_scope) k.(k_authorized) b k.(k_2fa) k.(k_switch) k.(k_fields) k.(k_tunnel) k.(k_type).

Lemma normalize_core c : core (normalize_conn_audit_auth_fields c) = core c.
Proof. unfold normalize_conn_audit_auth_fields. by destruct (primary_auth c). Qed.

Lemma authorize_core e s k : core s.(conn) = set_k_tunnel (is_tunnel k.(k_lr)) k -> k.(k_awaiting) = false ->
  core (authorize e s).(conn) = k_authorize k.
Proof.
  intros Hc Ha. unfold authorize, send. cbn [conn on_conn]. rewrite normalize_core. unfold k_authorize.
  unfold core, set_k_tunnel in Hc. injection Hc as H1 H2 H3 H4 H5 H6 H7 H8 H9 H10. unfold core. cbn.
  rewrite <- H1, <- H2, <- H3, <- H6, <- H7, <- H8. f_equal; [congruence| |].
  - rewrite <- H2 in H9. exact H9.
  - unfold conn_type_of, type_of_fields. cbn. unfold is_port_forward in *. cbn. rewrite H2, <- H9. done.
Qed.

Lemma authorize_cm e s : cm_told (authorize e s) = cm_told s.
Proof. unfold authorize. rewrite cm_told_send, orb_false_r. done. Qed.

(** A session of the request that passed its second factor less than thirty seconds ago. *)
Definition recent_tfa (e : Env) (h : Shared) (lr : LoginRequest) : Prop :=
  exists x, recent_session e h lr x /\ x.(tfa) = true /\ lr.(password) <> [].

Lemma send_logon_spec e s b s' : send_logon_response_and_keep_alive e s = (b, s') ->
  s.(conn).(authorized) = false -> is_port_forward s.(conn) = false ->
  let k := core s.(conn) in let k' := core s'.(conn) in
  cm_told s' = cm_told s /\
  ((b = false /\ k'.(k_authorized) = false) \/
   (b = true /\ k' = k_await true k) \/
   (b = true /\ k' = k_authorize k /\
    (s.(conn).(require_2fa) = None \/ s.(conn).(from_switch) = true \/ recent_tfa e s.(shared) s.(conn).(lr)))).
Proof.
  unfold send_logon_response_and_keep_alive. intros H Ha Hpf. rewrite Ha in H. cbv zeta.
  destruct (match require_2fa (conn s) with Some _ => _ | None => _ end) as [recent s1] eqn:E1.
  assert (H1 : same s s1 /\ (recent = true -> require_2fa (conn s) = None \/ recent_tfa e s.(shared) s.(conn).(lr))).
  { destruct (require_2fa (conn s)) eqn:E2; [|by injection E1 as <- <-; split; [|by left]].
    apply is_recent_session_spec in E1 as (Hs & _ & _ & _ & _ & Hr). split; [done|]. intros Ht. right.
    destruct (Hr Ht) as (x & ? & ? & ?). by exists x. }
  destruct H1 as [[Hk Hcm] Hr].
  assert (Hsw : from_switch (conn s1) = from_switch (conn s)) by exact (f_equal k_switch Hk).
  destruct (negb recent && negb (from_switch (conn s1))) eqn:E2.
  { injection H as <- <-. split; [by rewrite cm_told_error|]. right; left. split; [done|].
    transitivity (k_await true (core (conn s1))); [done|by rewrite Hk]. }
  assert (Hev : require_2fa (conn s) = None \/ from_switch (conn s) = true \/ recent_tfa e s.(shared) s.(conn).(lr)).
  { apply andb_false_iff in E2 as [E2%negb_false_iff|E2%negb_false_iff]; [destruct (Hr E2); auto|rewrite Hsw in E2; auto]. }
  set (s2 := on_conn (set_awaiting_2fa false) s1) in *.
  assert (Hk2 : core s2.(conn) = k_await false (core s.(conn))) by (rewrite <- Hk; done).
  assert (Hcm2 : cm_told s2 = cm_told s) by done.
  destruct (prepare_terminal_login_for_authorization e s2) as [r s3] eqn:E3. apply prepare_spec in E3 as [[Hk3 Hcm3] Hr3].
  destruct r as [keep|].
  { destruct Hr3 as [?|[= ->]]; [done|]. injection H as <- <-. split; [congruence|]. left. split; [done|].
    rewrite Hk3, Hk2. exact Ha. }
  set (s4 := on_conn (set_max_packet_length usize_max) s3) in *. destruct (connect_port_forward_if_needed e s4) as [ok s5] eqn:E5.
  assert (Hk4 : core s4.(conn) = k_await false (core s.(conn))) by (change (core s4.(conn)) with (core s3.(conn)); congruence).
  apply connect_spec in E5 as [Hcm5 Hk5]; [|change (k_tunnel (core s4.(conn)) = false); by rewrite Hk4].
  change (cm_told s4) with (cm_told s3) in Hcm5.
  destruct ok; injection H as <- <-.
  - split; [rewrite authorize_cm; congruence|]. right; right. split; [done|]. split; [|exact Hev].
    rewrite Hk4 in Hk5. change (lr (conn s4)) with (k_lr (core s4.(conn))) in Hk5. rewrite Hk4 in Hk5.
    rewrite (authorize_core e s5 _ Hk5 eq_refl). done.
  - split; [congruence|]. left. split; [done|]. destruct Hk5 as [Hk5 _]. rewrite Hk5, Hk4. exact Ha.
Qed.

(** ** Login requests *)

(** A password the request may come with, and that it comes with: the one of a recent session of
    its own, or, unless its address is throttled, the temporary or the permanent password. *)
Definition password_ok (e : Env) (h : Shared) (addr : IpAddr) (hash : Hash) (lr : LoginRequest) : Prop :=
  exists h1, responds hash lr h1 /\
    ((exists x, recent_session e h lr x /\ plain_secret hash x.(random_password) h1) \/
     ((check_failure h.(f_password) addr e.(now_ms)).1.2 = true /\
      ((temporary_enabled e = true /\ plain_secret hash h.(temporary).(current) h1) \/
       ((permanent_enabled e = true \/ allow_logon_screen_password e = true) /\ permanent_secret e hash h1)))).

(** The outcomes of a login for a base state [k]: waiting for a click, for a second factor, or in. *)
Definition outcome (e : Env) (h : Shared) (ok : Prop) (k : Core) (b : bool) (k' : Core) : Prop :=
  if b then
    k' = k \/ (k' = k_await true k /\ ok) \/
    (k' = k_authorize k /\ ok /\ (k.(k_2fa) = None \/ k.(k_switch) = true \/ recent_tfa e h k.(k_lr)))
  else k'.(k_authorized) = false.

Lemma recent_tfa_sub e h h' lr : sub_sessions h h' -> recent_tfa e h' lr -> recent_tfa e h lr.
Proof. intros Hs (x & [Hx Hr] & Ht & Hp). exists x. split; [|done]. split; [by apply Hs|done]. Qed.

Lemma send_logon_outcome e h (ok : Prop) s b s' : send_logon_response_and_keep_alive e s = (b, s') ->
  s.(conn).(authorized) = false -> is_port_forward s.(conn) = false -> sub_sessions h s.(shared) -> ok ->
  outcome e h ok (core s.(conn)) b (core s'.(conn)).
Proof.
  intros H Ha Hp Hs Hok. apply send_logon_spec in H as [_ H]; [|done..].
  destruct H as [[-> ?]|[[-> ->]|(-> & -> & Hev)]]; cbn; [done|by right; left|]. right; right. split_and!; [done..|].
  destruct Hev as [?|[?|?]]; [by left|by right; left|right; right]. by eapply recent_tfa_sub.
Qed.

Lemma try_start_cm_core b s : core (try_start_cm b s).(conn) = core s.(conn).
Proof. done. Qed.

Lemma wait_for_click_core e lr tell s b s' : wait_for_click e lr tell s = (b, s') -> core s'.(conn) = core s.(conn).
Proof.
  unfold wait_for_click. destruct (if should_use_terminal_os_login_scope _ _ _ then _ else _) as [r s1] eqn:E.
  assert (H : core s1.(conn) = core s.(conn)).
  { destruct (should_use_terminal_os_login_scope _ _ _); [by apply prepare_spec in E as [[? _] _]|by injection E as _ <-]. }
  destruct r; intros [= <- <-]; [done|]. by destruct (tell && _).
Qed.

Section Approve.
Variables (e : Env) (s : Sys).
Hypothesis Hauth : s.(conn).(authorized) = false.
Hypothesis Htun : is_port_forward s.(conn) = false.
Let ok := password_ok e s.(shared) s.(conn).(ip) s.(conn).(hash) s.(conn).(lr).

Lemma logon_then_cm s1 : same s s1 -> sub_sessions s.(shared) s1.(shared) -> ok -> forall b s',
  (let '(keep, s) := send_logon_response_and_keep_alive e s1 in
   if negb keep then (false, s) else (true, try_start_cm s.(conn).(authorized) s)) = (b, s') ->
  outcome e s.(shared) ok (core s.(conn)) b (core s'.(conn)).
Proof.
  intros [Hk _] Hs Hok b s'. destruct (send_logon_response_and_keep_alive e s1) as [keep s2] eqn:E.
  apply (send_logon_outcome e s.(shared) ok) in E; [|exact (eq_trans (f_equal k_authorized Hk) Hauth)|exact (eq_trans (f_equal k_tunnel Hk) Htun)|done|done].
  rewrite Hk in E. destruct keep; cbn [negb]; intros [= <- <-]; exact E.
Qed.

Lemma login_with_password_outcome s1 b s' :
  same s s1 -> sub_sessions s.(shared) s1.(shared) -> (exists m, s1.(shared) = set_sessions m s.(shared)) ->
  login_with_password e (allow_logon_screen_password e) s1 = (b, s') -> outcome e s.(shared) ok (core s.(conn)) b (core s'.(conn)).
Proof.
  intros H1 Hsub [m Hm] H. unfold login_with_password in H.
  destruct (check_failure_in e BPassword s1) as [[f r] s2] eqn:E. apply check_failure_in_spec in E as (H2 & Hsh2 & Hc2 & Hr).
  assert (H12 : same s s2) by (etrans; [exact H1|exact H2]). pose proof H12 as [Hk2 _].
  destruct r; cbn [negb] in H; [|injection H as <- <-; by left].
  destruct (validate_password e _ s2) as [v s3] eqn:E3. apply validate_password_spec in E3 as (H3 & _ & Hsub3 & Hv).
  assert (H13 : same s s3) by (etrans; [exact H12|exact H3]).
  destruct v; cbn [negb] in H; [|injection H as <- <-; left; exact (proj1 H13)].
  destruct (Hv eq_refl) as (h1 & Hresp & Hsec).
  assert (Hh : hash (conn s2) = hash (conn s)) by exact (f_equal (fun k => k.(k_fixed).1.2) Hk2).
  assert (Hl : lr (conn s2) = lr (conn s)) by exact (f_equal k_lr Hk2).
  assert (Hi : ip (conn s1) = ip (conn s)) by exact (f_equal (fun k => k.(k_fixed).1.1.2) (proj1 H1)).
  assert (Ht : temporary (shared s2) = temporary (shared s)) by (rewrite Hsh2, Hm; done).
  revert H. apply logon_then_cm.
  - etrans; [exact H13|apply update_scope_same].
  - etrans; [|exact Hsub3]. by rewrite Hsh2.
  - exists h1. rewrite Hh, Hl in Hresp. split; [exact Hresp|]. right. rewrite Hh, Ht in Hsec. split; [|exact Hsec].
    cbn [bucket] in Hr. rewrite Hi, Hm in Hr. symmetry. exact Hr.
Qed.

Lemma approve_outcome b s' : approve_login e s.(conn).(lr) s = (b, s') -> outcome e s.(shared) ok (core s.(conn)) b (core s'.(conn)).
Proof.
  assert (Hwait : forall tell s1, same s s1 -> wait_for_click e s.(conn).(lr) tell s1 = (b, s') -> outcome e s.(shared) ok (core s.(conn)) b (core s'.(conn))).
  { intros tell s1 [Hk _] H. apply wait_for_click_core in H. rewrite Hk in H. destruct b; [by left|].
    change (k_authorized (core s'.(conn)) = false). rewrite H. exact Hauth. }
  unfold approve_login. destruct (_ || _); [by apply Hwait|].
  destruct (is_recent_session e false s) as [recent s1] eqn:E. apply is_recent_session_spec in E as (Hs & _ & _ & Hsub & Hm & Hr).
  destruct recent.
  - apply logon_then_cm; [done|done|]. destruct (Hr eq_refl) as (x & Hx & _ & h1 & Hp & Hresp). exists h1. split; [done|]. left. eauto.
  - destruct (is_nil _); [by apply Hwait|by apply login_with_password_outcome].
Qed.
End Approve.

Definition fields_of (lr : LoginRequest) : option (string * bool) * bool * bool :=
  match lr.(lr_union) with
  | Some (UFileTransfer dir show_hidden) => (Some (dir, show_hidden), false, false)
  | Some UViewCamera => (None, true, false)
  | Some (UTerminal _) => (None, false, true)
  | _ => (None, false, false)
  end.

(** The permission for what the request asks for. *)
Definition scope_granted (e : Env) (control : option Z) (lr : LoginRequest) : Prop :=
  match lr.(lr_union) with
  | Some (UFileTransfer _ _) => permission e "enable-file-transfer" control = true
  | Some UViewCamera => permission e "enable-camera" control = true
  | Some (UTerminal _) => permission e "enable-terminal" control = true
  | Some (UPortForward _ _ _) => permission e "enable-tunnel" control = true
  | None | Some UUnknown => e.(is_in_privacy_mode) = false
  end.

Definition trusted_given (e : Env) (lr : LoginRequest) : Prop :=
  lr.(hwid) <> [] /\ enable_trusted_devices e = true /\ trusted_device_matches e lr = true.

(** The state in which the login is decided. *)
Definition login_base (lr : LoginRequest) (totp : option bytes) (k : Core) : Core :=
  mkCore k.(k_fixed) lr (Some (login_scope_digest lr)) false false totp k.(k_switch) (fields_of lr) k.(k_tunnel) k.(k_type).

Definition set_k_request (lr : LoginRequest) (totp : option bytes) (k : Core) : Core :=
  mkCore k.(k_fixed) lr k.(k_scope) k.(k_authorized) k.(k_awaiting) totp k.(k_switch) k.(k_fields) k.(k_tunnel) k.(k_type).

Lemma handle_login_spec e lr s : let s' := handle_login_request_without_validation e lr s in
  s'.(shared) = s.(shared) /\ cm_told s' = cm_told s /\
  exists totp, core s'.(conn) = set_k_request lr totp (core s.(conn)) /\
    (totp = s.(conn).(require_2fa) \/ (totp = None /\ trusted_given e lr)).
Proof.
  unfold handle_login_request_without_validation.
  set (s1 := on_conn (set_lr lr) s).
  assert (H2 : exists s2, s2 = match lr_option lr with Some o => on_conn (set_options_in_login (Some o)) s1 | None => s1 end /\
    core s2.(conn) = set_k_request lr s.(conn).(require_2fa) (core s.(conn)) /\ s2.(shared) = s.(shared) /\ s2.(out) = s.(out))
    by (eexists; split; [reflexivity|]; by destruct (lr_option lr)).
  destruct H2 as (s2 & <- & Hk & Hsh & Hout).
  destruct (_ && trusted_device_matches e lr) eqn:E; (split; [exact Hsh|]; split; [unfold cm_told; cbn; by rewrite Hout|]).
  - exists None. apply andb_true_iff in E as [[[_ Hh]%andb_true_iff He]%andb_true_iff Ht].
    split; [|right; unfold trusted_given; split_and!; [done|intros Hn; by rewrite Hn in Hh|done|done]].
    transitivity (set_k_request lr None (core s2.(conn))); [|by rewrite Hk].
    unfold set_k_request, core. cbn. f_equal. exact (f_equal k_lr Hk).
  - exists (require_2fa (conn s)). split; [|by left]. exact Hk.
Qed.

Definition set_k_fields (f : option (string * bool) * bool * bool) (k : Core) : Core :=
  mkCore k.(k_fixed) k.(k_lr) k.(k_scope) k.(k_authorized) k.(k_awaiting) k.(k_2fa) k.(k_switch) f k.(k_tunnel) k.(k_type).

Lemma reset_core c : core (reset_session_scope_for_login c) = set_k_fields (None, false, false) (core c).
Proof. done. Qed.

Lemma apply_login_scope_spec e lr s b s' : apply_login_scope e lr s = (b, s') -> (core s.(conn)).(k_fields) = (None, false, false) ->
  s'.(shared) = s.(shared) /\
  if b then scope_granted e s.(conn).(control_permissions) lr /\
       core s'.(conn) = set_k_fields (fields_of lr) (core s.(conn))
  else core s'.(conn) = core s.(conn).
Proof.
  unfold apply_login_scope, scope_granted, fields_of. intros H Hf. cbn in Hf. injection Hf as Hft Hvc Hte.
  assert (Hn : core (conn s) = set_k_fields (None, false, false) (core (conn s))) by (unfold core, set_k_fields; cbn; by rewrite Hft, Hvc, Hte).
  destruct (lr_union lr) as [[dir sh| |sid|host port mux|]|].
  - destruct (permission e _ _); injection H as <- <-; [|by split]. split; [done|]. split; [done|].
    unfold core, set_k_fields. cbn. by rewrite Hvc, Hte.
  - destruct (permission e _ _); injection H as <- <-; [|by split]. split; [done|]. split; [done|].
    unfold core, set_k_fields. cbn. by rewrite Hft, Hte.
  - destruct (permission e _ _); cbn [negb] in H; [|by injection H as <- <-]. destruct (_ && negb (is_installed e)); [by injection H as <- <-|].
    injection H as <- <-. cbn [on_conn conn options_in_login set_terminal].
    destruct (options_in_login (conn s)); (split; [done|]; split; [done|]); unfold core, set_k_fields; cbn; by rewrite Hft, Hvc.
  - destruct (permission e _ _); injection H as <- <-; [|by split]. split; [done|]. split; [done|]. exact Hn.
  - destruct (is_in_privacy_mode e); injection H as <- <-; [by split|]. split; [done|]. split; [done|]. exact Hn.
  - destruct (is_in_privacy_mode e); injection H as <- <-; [by split|]. split; [done|]. split; [done|]. exact Hn.
Qed.

Lemma check_login_scope_spec lr s b s' : check_login_scope lr s = (b, s') ->
  s'.(shared) = s.(shared) /\
  if b then (s.(conn).(login_scope) = None \/ s.(conn).(login_scope) = Some (login_scope_digest lr)) /\
       s'.(conn) = set_login_scope (Some (login_scope_digest lr)) s.(conn)
  else s'.(conn) = s.(conn).
Proof.
  unfold check_login_scope. destruct (login_scope (conn s)) as [d|] eqn:E; [|by intros [= <- <-]; split_and!; [|left|]].
  case_bool_decide as Hd; intros [= <- <-]; [by split|]. subst d. split; [done|]. split; [by right|].
  rewrite <- E. by destruct (conn s).
Qed.

Lemma login_spec e lr s b s' : on_login_request e lr s = (b, s') -> s.(conn).(authorized) = false -> is_port_forward s.(conn) = false ->
  if b then
    (s.(conn).(login_scope) = None \/ s.(conn).(login_scope) = Some (login_scope_digest lr)) /\
    id_allowed e lr.(my_id) /\ scope_granted e s.(conn).(control_permissions) lr /\
    exists totp, (totp = s.(conn).(require_2fa) \/ (totp = None /\ trusted_given e lr)) /\
      outcome e s.(shared) (password_ok e s.(shared) s.(conn).(ip) s.(conn).(hash) lr) (login_base lr totp (core s.(conn))) true (core s'.(conn))
  else s'.(conn).(authorized) = false.
Proof.
  unfold on_login_request. intros H Ha Ht.
  destruct (check_login_scope lr s) as [ok1 s1] eqn:E1. apply check_login_scope_spec in E1 as [Hsh1 E1].
  destruct ok1; cbn [negb] in H; [|injection H as <- <-; by rewrite E1]. destruct E1 as [Hscope Hc1].
  destruct (handle_login_spec e lr (on_conn (set_awaiting_2fa false) s1)) as (Hsh2 & _ & totp & Hk2 & Htotp).
  set (s2 := handle_login_request_without_validation e lr _) in *. cbn [on_conn shared conn require_2fa set_awaiting_2fa] in Hsh2, Htotp.
  change (require_2fa (set_awaiting_2fa false (conn s1))) with (require_2fa (conn s1)) in Htotp.
  change (conn (on_conn (set_awaiting_2fa false) s1)) with (set_awaiting_2fa false (conn s1)) in Hk2.
  rewrite Hc1 in Hk2, Htotp. clearbody s2.
  assert (Ha2 : authorized (conn s2) = false) by exact (eq_trans (f_equal k_authorized Hk2) Ha). rewrite Ha2 in H.
  set (s3 := on_conn reset_session_scope_for_login s2) in *. destruct (check_id_whitelist e s3) as [ok4 s4] eqn:E4.
  assert (Hk3 : core s3.(conn) = set_k_fields (None, false, false) (set_k_request lr totp
    (core (set_awaiting_2fa false (set_login_scope (Some (login_scope_digest lr)) s.(conn)))))) by (rewrite <- Hk2; apply reset_core).
  apply check_id_whitelist_spec in E4 as ([Hk4 _] & Hc4 & Hsh4 & Hid). rewrite Hk3 in Hk4.
  destruct ok4; cbn [negb] in H; [|injection H as <- <-; exact (eq_trans (f_equal k_authorized Hk4) Ha)].
  specialize (Hid eq_refl). change (my_id (LoginState.lr (conn s3))) with (my_id (k_lr (core (conn s3)))) in Hid. rewrite Hk3 in Hid. cbn in Hid.
  destruct (apply_login_scope e lr s4) as [ok5 s5] eqn:E5. apply apply_login_scope_spec in E5 as [Hsh5 E5]; [|by rewrite Hk4].
  destruct ok5; cbn [negb] in H; [|injection H as <- <-; rewrite Hk4 in E5; exact (eq_trans (f_equal k_authorized E5) Ha)].
  destruct E5 as [Hg Hk5]. rewrite Hk4 in Hk5.
  set (s6 := on_conn (fun c => set_send_timeout (login_send_timeout c) c) s5) in *.
  assert (Hk6 : core s6.(conn) = login_base lr totp (core s.(conn))).
  { transitivity (core s5.(conn)); [done|]. rewrite Hk5. unfold login_base, set_k_fields, set_k_request, core. cbn. by rewrite Ha. }
  assert (Ha6 : authorized (conn s6) = false) by exact (f_equal k_authorized Hk6). 
  destruct (negb (is_direct_ip_access e _) && _); [by injection H as <- <-|].
  destruct (_ && is_prelogin e); [by injection H as <- <-|].
  set (s7 := if negb _ then try_start_cm_ipc s6 else s6) in *.
  assert (H7 : core s7.(conn) = core s6.(conn) /\ s7.(shared) = s5.(shared)) by (unfold s7; by destruct (negb _)).
destruct H7 as [Hk7 Hsh7]. rewrite Hk6 in Hk7. clearbody s7 s6.
  assert (Hsh : exists m, s7.(shared) = set_f_id m s.(shared)).
  { exists (f_id (shared s4)). rewrite Hsh7. transitivity (shared s4); [exact Hsh5|]. etrans; [exact Hsh4|].
    change (shared s3) with (shared s2). by rewrite Hsh2, Hsh1. }
  destruct Hsh as [m Hsh]. assert (Hlr7 : LoginState.lr (conn s7) = lr) by exact (f_equal k_lr Hk7).
  rewrite <- Hlr7 in H at 1. apply approve_outcome in H; [|exact (f_equal k_authorized Hk7)|exact (eq_trans (f_equal k_tunnel Hk7) Ht)].
  assert (Hip7 : ip (conn s7) = ip (conn s)) by exact (f_equal (fun k => k.(k_fixed).1.1.2) Hk7).
  assert (Hh7 : hash (conn s7) = hash (conn s)) by exact (f_equal (fun k => k.(k_fixed).1.2) Hk7).
  rewrite Hlr7, Hip7, Hh7, Hsh, Hk7 in H. destruct b; [|exact H].
  split; [exact Hscope|]. split; [exact Hid|]. split.
  - assert (Hc : control_permissions (conn s4) = control_permissions (conn s)) by exact (f_equal (fun k => k.(k_fixed).2) Hk4). by rewrite <- Hc.
  - exists totp. split; [exact Htotp|exact H].
Qed.

(** ** The other messages *)

Definition set_k_2fa (totp : option bytes) (k : Core) : Core :=
  mkCore k.(k_fixed) k.(k_lr) k.(k_scope) k.(k_authorized) k.(k_awaiting) totp k.(k_switch) k.(k_fields) k.(k_tunnel) k.(k_type).

Lemma auth_2fa_spec e code h s b s' : on_auth_2fa e code h s = (b, s') -> s.(conn).(authorized) = false -> is_port_forward s.(conn) = false ->
  (core s'.(conn) = core s.(conn) /\ (s.(conn).(awaiting_2fa) = false -> s' = s)) \/
  (s.(conn).(awaiting_2fa) = true /\ (check_failure s.(shared).(f_2fa) s.(conn).(ip) e.(now_ms)).1.2 = true /\
   (exists totp, s.(conn).(require_2fa) = Some totp /\ totp_check totp code e.(now_ms) = Some true) /\
   if b then core s'.(conn) = k_await true (set_k_2fa None (core s.(conn))) \/ core s'.(conn) = k_authorize (set_k_2fa None (core s.(conn)))
   else s'.(conn).(authorized) = false).
Proof.
  unfold on_auth_2fa. intros H Ha Ht. destruct (awaiting_2fa (conn s)) eqn:Ew; cbn [negb] in H; [|injection H as <- <-; by left].
  destruct (check_failure_in e B2fa s) as [[f r] s1] eqn:E1. apply check_failure_in_spec in E1 as ([Hk1 _] & Hsh1 & Hc1 & Hr).
  destruct r; cbn [negb] in H; [|injection H as <- <-; left; by split].
  rewrite Hc1 in H. destruct (require_2fa (conn s)) as [totp|] eqn:E2; [|injection H as <- <-; left; by split].
  destruct (totp_check totp code (now_ms e)) as [[]|] eqn:E3; [|injection H as <- <-; left; by split..].
  right. split; [done|]. split; [done|]. split; [by eexists|].
  set (s2 := on_shared _ (on_conn _ _)) in *.
  assert (Hk2 : core s2.(conn) = set_k_2fa None (core s.(conn))).
  { change (core s2.(conn)) with (core (set_two_factor TTotp (set_require_2fa None (conn s1)))). by rewrite Hc1. }
  clearbody s2. destruct (send_logon_response_and_keep_alive e s2) as [keep s3] eqn:E4.
  apply send_logon_spec in E4 as [_ E4]; [|exact (eq_trans (f_equal k_authorized Hk2) Ha)|exact (eq_trans (f_equal k_tunnel Hk2) Ht)].
  rewrite Hk2 in E4.
  destruct E4 as [[-> E4]|[[-> E4]|(-> & E4 & _)]]; cbn [negb] in H; injection H as <- <-; [exact E4| |]; [left|right]; by destruct (_ && _).
Qed.

(** The side this device once switched away from comes back with the identifier it was given,
    within ten seconds, for a remote-control session. *)
Definition switch_given (e : Env) (h : Shared) (uuid : bytes) (lr : LoginRequest) : Prop :=
  lr.(lr_union) = None /\
  exists t, h.(switch_uuids) !! lr.(my_id) = Some (t, uuid) /\ e.(instant) - t < SWITCH_SIDES_UUID_TTL.

Lemma switch_spec e uuid rlr s b s' : on_switch_sides e uuid rlr s = (b, s') -> (s.(conn).(authorized) = false -> is_port_forward s.(conn) = false) ->
  (core s'.(conn) = core s.(conn) /\ cm_told s' = cm_told s) \/
  (exists lr, rlr = Some lr /\ switch_given e s.(shared) uuid lr /\
   if b then (core s'.(conn)).(k_fixed) = (core s.(conn)).(k_fixed) /\ id_allowed e lr.(my_id) /\ (s'.(conn).(authorized) = false -> is_port_forward s'.(conn) = false) /\
        (s'.(conn).(authorized) = true -> (s.(conn).(authorized) = true -> s.(conn).(awaiting_2fa) = false) -> s'.(conn).(awaiting_2fa) = false)
   else s'.(conn).(authorized) = true -> s.(conn).(authorized) = true /\ s'.(conn).(authed_conn_type) = s.(conn).(authed_conn_type)).
Proof.
  unfold on_switch_sides. intros H Ht. destruct rlr as [lr|]; [|injection H as <- <-; by left].
  set (live := filter _ _) in *. set (s1 := on_shared _ s) in *. destruct (live !! my_id lr) as [[t old]|] eqn:E1; [|injection H as <- <-; by left].
  destruct (_ && bool_decide (uuid = old)) eqn:E2; [|injection H as <- <-; by left].
  apply andb_true_iff in E2 as [_ E2%bool_decide_eq_true]. subst old. apply map_lookup_filter_Some in E1 as [E1 Hrec].
  destruct (lr_union lr) eqn:E3; [injection H as <- <-; left; split; [done|by rewrite cm_told_error]|].
  destruct (handle_login_spec e lr (on_conn reset_session_scope_for_login s1)) as (_ & _ & totp & Hk2 & _).
  set (s2 := handle_login_request_without_validation e lr _) in *.
  change (conn (on_conn reset_session_scope_for_login s1)) with (reset_session_scope_for_login (conn s)) in Hk2.
  rewrite reset_core in Hk2. clearbody s2.
  destruct (check_id_whitelist e s2) as [ok s3] eqn:E4. apply check_id_whitelist_spec in E4 as ([Hk3 _] & _ & _ & Hid). rewrite Hk2 in Hk3.
  right. exists lr. split; [done|]. split; [split; [done|by eexists]|].
  destruct ok; cbn [negb] in H; [|injection H as <- <-; intros Hx; split; [rewrite <- Hx; symmetry; exact (f_equal k_authorized Hk3)|exact (f_equal k_type Hk3)]].
  specialize (Hid eq_refl). change (LoginState.lr (conn s2)) with (k_lr (core (conn s2))) in Hid. rewrite Hk2 in Hid.
  set (s4 := on_conn _ s3) in *.
  assert (Hk4 : exists sw, core s4.(conn) = mkCore (core s3.(conn)).(k_fixed) (core s3.(conn)).(k_lr) (core s3.(conn)).(k_scope)
    (core s3.(conn)).(k_authorized) (core s3.(conn)).(k_awaiting) (core s3.(conn)).(k_2fa) sw (core s3.(conn)).(k_fields)
    (core s3.(conn)).(k_tunnel) (core s3.(conn)).(k_type)) by by eexists.
  destruct Hk4 as [sw Hk4]. clearbody s4. rewrite Hk3 in Hk4.
  assert (Ha4 : authorized (conn s4) = authorized (conn s)) by exact (f_equal k_authorized Hk4).
  assert (Hp4 : is_port_forward (conn s4) = is_port_forward (conn s)) by exact (f_equal k_tunnel Hk4).
  destruct (send_logon_response_and_keep_alive e s4) as [keep s5] eqn:E5.
  destruct (authorized (conn s)) eqn:Ea.
  - assert (Hsame : keep = true /\ s5 = s4).
    { unfold send_logon_response_and_keep_alive in E5. rewrite Ha4 in E5. by injection E5 as <- <-. }
    destruct Hsame as [-> ->]. cbn [negb] in H. injection H as <- <-. split; [exact (f_equal k_fixed Hk4)|]. split; [exact Hid|].
    split; [intros Hx; exact (False_ind _ (eq_true_false_abs _ Ha4 Hx))|].
    intros _ Hw. etrans; [exact (f_equal k_awaiting Hk4)|exact (Hw eq_refl)].
  - apply send_logon_spec in E5 as [_ E5]; [|done|rewrite Hp4; by apply Ht]. rewrite Hk4 in E5.
    destruct E5 as [[-> E5]|[[-> E5]|(-> & E5 & _)]]; cbn [negb] in H; injection H as <- <-.
    + intros Hx. exfalso. exact (eq_true_false_abs _ Hx E5).
    + split; [exact (f_equal k_fixed E5)|]. split; [exact Hid|]. split; [intros _; etrans; [exact (f_equal k_tunnel E5)|by apply Ht]|].
      intros Hx. exfalso. exact (eq_true_false_abs _ Hx (eq_trans (f_equal k_authorized E5) Ea)).
    + split; [exact (f_equal k_fixed E5)|]. split; [exact Hid|]. split; [|intros _ _; exact (f_equal k_awaiting E5)].
      intros Hx. exfalso. exact (eq_true_false_abs _ (f_equal k_authorized E5) Hx).
Qed.

End Safety.
End LoginSafety.
