(* ===== verification/LoginRun.v ===== *)
(** Runs of a connection until it has authorized: every message order, any activity of other
    connections in between, and the user's click. *)

From S2P Require Import Prelude LoginLockout LoginThrottle LoginId LoginAdmit LoginPassword LoginState MuxEndpoint LoginFlow LoginSafety.

Module LoginRun.
Import Lockout Throttle IdList Admit Password LoginState LoginFlow LoginSafety.

Section Run.
Context {L : Libraries}.

Inductive Event :=
| EMessage (e : Env) (m : Message)
| EAuthorize (e : Env) (* the user's click in the connection manager *)
| EOthers (h : Shared). (* whatever other connections do to what they share *)

Definition exec (ev : Event) (s : Sys) : bool * Sys :=
  match ev with
  | EMessage e m => on_message e m s
  | EAuthorize e => on_authorize e s
  | EOthers h => (true, on_shared (fun _ => h) s)
  end.

(** The connection manager can only answer once it runs and has been told of a login. *)
Definition enabled (ev : Event) (s : Sys) : Prop :=
  match ev with EAuthorize _ => s.(conn).(start_cm_ipc) = true /\ cm_told s = true | _ => True end.

(** The events so far, latest first, each with the state it found. *)
Abbreviation Trace := (list (Sys * Event)).

Inductive run (s0 : Sys) : Trace -> Sys -> bool -> Prop :=
| run_start : run s0 [] s0 true
| run_step tr s ev keep s' : run s0 tr s true -> enabled ev s -> exec ev s = (keep, s') -> run s0 ((s, ev) :: tr) s' keep.

(** ** Credentials in a trace *)

Definition clicked (p : Sys * Event) : Prop := exists e, p.2 = EAuthorize e.
Definition switched (p : Sys * Event) : Prop :=
  exists e uuid lr, p.2 = EMessage e (MSwitchSides uuid (Some lr)) /\
    switch_given e p.1.(shared) uuid lr /\ id_allowed e lr.(my_id).
Definition password_given (p : Sys * Event) : Prop :=
  exists e lr, p.2 = EMessage e (MLogin lr) /\ id_allowed e lr.(my_id) /\
    password_ok e p.1.(shared) p.1.(conn).(ip) p.1.(conn).(hash) lr.
Definition totp_given (p : Sys * Event) : Prop :=
  exists e code h totp, p.2 = EMessage e (MAuth2fa code h) /\ p.1.(conn).(require_2fa) = Some totp /\
    totp_check totp code e.(now_ms) = Some true /\
    (check_failure p.1.(shared).(f_2fa) p.1.(conn).(ip) e.(now_ms)).1.2 = true.
Definition trusted (p : Sys * Event) : Prop := exists e lr, p.2 = EMessage e (MLogin lr) /\ trusted_given e lr.
Definition tfa_recent (p : Sys * Event) : Prop := exists e lr, p.2 = EMessage e (MLogin lr) /\ recent_tfa e p.1.(shared) lr.

Definition primary (tr : Trace) : Prop := Exists (fun p => clicked p \/ switched p \/ password_given p) tr.
Definition secondary (tr : Trace) : Prop := Exists (fun p => clicked p \/ switched p \/ totp_given p \/ trusted p \/ tfa_recent p) tr.

(** A login request that passed the whitelist and the permission of its scope. *)
Definition requested (tr : Trace) (lr : LoginRequest) : Prop :=
  Exists (fun p => exists e, p.2 = EMessage e (MLogin lr) /\ id_allowed e lr.(my_id) /\
    scope_granted e p.1.(conn).(control_permissions) lr) tr.

Definition is_login (p : Sys * Event) : bool := match p.2 with EMessage _ (MLogin _) => true | _ => false end.
Fixpoint first_login (tr : Trace) : option LoginRequest :=
  match tr with
  | [] => None
  | p :: tr => match first_login tr with
               | Some lr => Some lr
               | None => match p.2 with EMessage _ (MLogin lr) => Some lr | _ => None end
               end
  end.

Definition scope_type (lr : LoginRequest) : AuthConnType := type_of_fields (fields_of lr) (is_tunnel lr).

(** ** The invariant *)

(** What an authorized connection has shown. *)
Definition proved (s0 : Sys) (tr : Trace) (t : option AuthConnType) : Prop :=
  primary tr /\ (s0.(conn).(require_2fa) = None \/ secondary tr) /\
  (~ Exists switched tr -> exists lr0 lr, first_login tr = Some lr0 /\ requested tr lr /\
     login_scope_digest lr = login_scope_digest lr0 /\ t = Some (scope_type lr)).

(** The scope of a connection that has not switched sides. *)
Definition scoped (tr : Trace) (s : Sys) : Prop :=
  match s.(conn).(login_scope) with
  | None => first_login tr = None /\ cm_told s = false /\ s.(conn).(awaiting_2fa) = false
  | Some d => exists lr0, first_login tr = Some lr0 /\ d = login_scope_digest lr0 /\
      (s.(conn).(authorized) = false ->
       exists r, requested tr r /\ s.(conn).(lr) = r /\ (core s.(conn)).(k_fields) = fields_of r /\ login_scope_digest r = d)
  end.

Record inv (s0 : Sys) (tr : Trace) (s : Sys) : Prop := mkInv {
  inv_fixed : (core s.(conn)).(k_fixed) = (core s0.(conn)).(k_fixed);
  inv_auth : s.(conn).(authorized) = true -> proved s0 tr s.(conn).(authed_conn_type) /\ s.(conn).(awaiting_2fa) = false;
  inv_tunnel : s.(conn).(authorized) = false -> is_port_forward s.(conn) = false;
  inv_await : s.(conn).(awaiting_2fa) = true -> primary tr;
  inv_2fa : s.(conn).(require_2fa) = None -> s0.(conn).(require_2fa) = None \/ secondary tr;
  inv_switch : s.(conn).(from_switch) = true -> Exists switched tr;
  inv_scope : ~ Exists switched tr -> scoped tr s
}.

Definition final (s0 : Sys) (tr : Trace) (s : Sys) : Prop :=
  s.(conn).(authorized) = true -> proved s0 tr s.(conn).(authed_conn_type).

Lemma first_login_cons p tr lr : first_login tr = Some lr -> first_login (p :: tr) = Some lr.
Proof. cbn. by intros ->. Qed.

Lemma first_login_other p tr : is_login p = false -> first_login (p :: tr) = first_login tr.
Proof. cbn. unfold is_login. destruct (first_login tr); [done|]. by destruct p.2 as [? []| |]. Qed.

Lemma proved_cons s0 p tr t : proved s0 tr t -> proved s0 (p :: tr) t.
Proof.
  intros (H1 & H2 & H3). split; [by right|]. split; [destruct H2; [by left|by right; right]|].
  intros Hn. destruct H3 as (lr0 & lr & Hf & Hr & Hd & Ht); [intros He; by apply Hn; right|].
  exists lr0, lr. split_and!; [by apply first_login_cons|by right|done|done].
Qed.

Lemma proved_switched s0 p tr t : switched p -> proved s0 (p :: tr) t.
Proof. intros Hp. split; [left; auto|]. split; [right; left; auto|]. intros Hn. destruct Hn. by left. Qed.

(** Nothing happened to the core. *)
Lemma inv_same s0 tr s s' ev : is_login (s, ev) = false -> core s'.(conn) = core s.(conn) ->
  (s.(conn).(login_scope) = None -> cm_told s = false -> s.(conn).(awaiting_2fa) = false -> cm_told s' = false) ->
  inv s0 tr s -> inv s0 ((s, ev) :: tr) s'.
Proof.
  intros Hl Hk Hcm [Hfix Hau Htu Haw H2 Hfs Hsc]. pose proof Hk as Hk'. unfold core in Hk'.
  injection Hk' as _ _ _ _ Hlr Hls Ha Hw H2' Hf Hft Hvc Hte Hpf Hty.
  split.
  - by rewrite Hk.
  - rewrite Ha, Hw, Hty. intros H. destruct (Hau H) as [Hp ?]. split; [by apply proved_cons|done].
  - by rewrite Ha, Hpf.
  - rewrite Hw. intros H. right. by apply Haw.
  - rewrite H2'. intros H. destruct (H2 H); [by left|by right; right].
  - rewrite Hf. intros H. right. by apply Hfs.
  - intros Hn. assert (Hn' : ~ Exists switched tr) by (intros H; by apply Hn; right). specialize (Hsc Hn'). unfold scoped in *.
    rewrite Hls, first_login_other by done. destruct (login_scope (conn s)) as [d|] eqn:Ed.
    + destruct Hsc as (lr0 & Hf0 & Hd & Hsc). exists lr0. split_and!; [done|done|]. rewrite Ha. intros H.
      destruct (Hsc H) as (lr & Hr & Hlr' & Hfi & Hdi). exists lr. rewrite Hk, Hlr. split_and!; [by right|done|done|done].
    + rewrite Hw. destruct Hsc as (? & ? & ?). auto.
Qed.

Lemma inv_final s0 tr s : inv s0 tr s -> final s0 tr s.
Proof. intros Hi Ha. by apply (inv_auth _ _ _ Hi) in Ha as [? _]. Qed.

(** What holds after an event: the invariant if the connection is kept. *)
Definition after (s0 : Sys) (tr : Trace) (keep : bool) (s : Sys) : Prop :=
  final s0 tr s /\ (keep = true -> inv s0 tr s).

Lemma after_inv s0 tr keep s : inv s0 tr s -> after s0 tr keep s.
Proof. intros H. split; [by apply inv_final|done]. Qed.

Lemma after_closed s0 tr s : s.(conn).(authorized) = false -> after s0 tr false s.
Proof. intros H. split; [|done]. intros H'. congruence. Qed.

(** A switch of sides proves everything from then on. *)
Lemma inv_switched s0 tr s s' ev : switched (s, ev) -> (core s'.(conn)).(k_fixed) = (core s0.(conn)).(k_fixed) ->
  (s'.(conn).(authorized) = false -> is_port_forward s'.(conn) = false) ->
  (s'.(conn).(authorized) = true -> s'.(conn).(awaiting_2fa) = false) -> inv s0 ((s, ev) :: tr) s'.
Proof.
  intros Hsw Hfix Htu Haw. split; [done| |done| | | |].
  - intros H. split; [by apply proved_switched|by apply Haw].
  - intros _. left. auto.
  - intros _. right. left. auto.
  - intros _. by left.
  - intros Hn. destruct Hn. by left.
Qed.

(** Authorization, with what was shown so far and just now. *)
Lemma inv_authorized s0 tr s s' ev k :
  inv s0 tr s -> core s'.(conn) = k_authorize k -> k.(k_fixed) = (core s.(conn)).(k_fixed) ->
  primary ((s, ev) :: tr) -> (s0.(conn).(require_2fa) = None \/ secondary ((s, ev) :: tr)) ->
  (k.(k_switch) = true -> Exists switched ((s, ev) :: tr)) ->
  (~ Exists switched ((s, ev) :: tr) -> exists lr0, first_login ((s, ev) :: tr) = Some lr0 /\ requested ((s, ev) :: tr) k.(k_lr) /\
     login_scope_digest k.(k_lr) = login_scope_digest lr0 /\ k.(k_fields) = fields_of k.(k_lr) /\ k.(k_scope) = Some (login_scope_digest lr0)) ->
  inv s0 ((s, ev) :: tr) s'.
Proof.
  intros Hi Hk Hfix Hp Hs Hsw Hsc.
  assert (Hauth : authorized (conn s') = true) by exact (f_equal k_authorized Hk).
  split.
  - rewrite Hk. etrans; [exact Hfix|exact (inv_fixed _ _ _ Hi)].
  - intros _. split; [|exact (f_equal k_awaiting Hk)]. split; [done|]. split; [done|]. intros Hn.
    destruct (Hsc Hn) as (lr0 & Hf & Hr & Hd & Hfi & _). exists lr0, k.(k_lr). split_and!; [done..|].
    etrans; [exact (f_equal k_type Hk)|]. cbn. by rewrite Hfi.
  - intros H. congruence.
  - intros _. done.
  - intros _. destruct Hs; [by left|by right].
  - intros H. apply Hsw. etrans; [symmetry; exact (f_equal k_switch Hk)|exact H].
  - intros Hn. destruct (Hsc Hn) as (lr0 & Hf & Hr & Hd & Hfi & Hks). unfold scoped.
    assert (Hls : login_scope (conn s') = Some (login_scope_digest lr0)) by (etrans; [exact (f_equal k_scope Hk)|exact Hks]).
    rewrite Hls. exists lr0. split_and!; [done|done|]. intros H. congruence.
Qed.

(** Waiting for the second factor, after a primary credential. *)
Lemma inv_awaiting s0 tr s s' ev k :
  inv s0 tr s -> core s'.(conn) = k_await true k -> k.(k_authorized) = false -> k.(k_tunnel) = false ->
  k.(k_fixed) = (core s.(conn)).(k_fixed) ->
  primary ((s, ev) :: tr) -> (k.(k_2fa) = None -> s0.(conn).(require_2fa) = None \/ secondary ((s, ev) :: tr)) ->
  (k.(k_switch) = true -> Exists switched ((s, ev) :: tr)) ->
  (~ Exists switched ((s, ev) :: tr) -> exists lr0, first_login ((s, ev) :: tr) = Some lr0 /\ requested ((s, ev) :: tr) k.(k_lr) /\
     login_scope_digest k.(k_lr) = login_scope_digest lr0 /\ k.(k_fields) = fields_of k.(k_lr) /\ k.(k_scope) = Some (login_scope_digest lr0)) ->
  inv s0 ((s, ev) :: tr) s'.
Proof.
  intros Hi Hk Hka Hkt Hfix Hp Hs Hsw Hsc.
  assert (Hauth : authorized (conn s') = false) by exact (eq_trans (f_equal k_authorized Hk) Hka).
  split.
  - rewrite Hk. etrans; [exact Hfix|exact (inv_fixed _ _ _ Hi)].
  - intros H. congruence.
  - intros _. exact (eq_trans (f_equal k_tunnel Hk) Hkt).
  - intros _. done.
  - intros H. apply Hs. etrans; [symmetry; exact (f_equal k_2fa Hk)|exact H].
  - intros H. apply Hsw. etrans; [symmetry; exact (f_equal k_switch Hk)|exact H].
  - intros Hn. destruct (Hsc Hn) as (lr0 & Hf & Hr & Hd & Hfi & Hks). unfold scoped.
    assert (Hls : login_scope (conn s') = Some (login_scope_digest lr0)) by (etrans; [exact (f_equal k_scope Hk)|exact Hks]).
    rewrite Hls. exists lr0. split_and!; [done|done|]. intros _. exists k.(k_lr). split_and!; [done|exact (f_equal k_lr Hk)| |done].
    etrans; [exact (f_equal k_fields Hk)|exact Hfi].
Qed.

Lemma step_others s0 tr s h : inv s0 tr s -> after s0 ((s, EOthers h) :: tr) true (on_shared (fun _ => h) s).
Proof.
  intros Hi. apply after_inv. apply (inv_same s0 tr s); done.
Qed.

Lemma step_authorize s0 tr s e keep s' : inv s0 tr s -> enabled (EAuthorize e) s -> on_authorize e s = (keep, s') ->
  after s0 ((s, EAuthorize e) :: tr) keep s'.
Proof.
  intros Hi [_ Hcm] H. unfold on_authorize in H. set (s1 := on_conn _ s) in *.
  assert (Hk1 : core s1.(conn) = set_k_2fa None (core s.(conn))) by done.
  assert (Hclick : clicked (s, EAuthorize e)) by by exists e.
  assert (Hprim : primary ((s, EAuthorize e) :: tr)) by (left; auto).
  assert (Hsec : secondary ((s, EAuthorize e) :: tr)) by (left; auto).
  assert (Hnow : ~ Exists switched ((s, EAuthorize e) :: tr) -> s.(conn).(authorized) = false -> exists lr0, first_login ((s, EAuthorize e) :: tr) = Some lr0 /\
    requested ((s, EAuthorize e) :: tr) s.(conn).(lr) /\ login_scope_digest s.(conn).(lr) = login_scope_digest lr0 /\
    (core s.(conn)).(k_fields) = fields_of s.(conn).(lr) /\ s.(conn).(login_scope) = Some (login_scope_digest lr0)).
  { intros Hn Ha. assert (Hn' : ~ Exists switched tr) by (intros Hx; by apply Hn; right).
    pose proof (inv_scope _ _ _ Hi Hn') as Hsc. unfold scoped in Hsc. destruct (login_scope (conn s)) as [d|].
    - destruct Hsc as (lr0 & Hf & -> & Hsc). destruct (Hsc Ha) as (r & Hr & -> & Hfi & Hd).
      exists lr0. split_and!; [by apply first_login_cons|by right|done|done|done].
    - destruct Hsc as (_ & Hx & _). congruence. }
  assert (Hswi : from_switch (conn s) = true -> Exists switched ((s, EAuthorize e) :: tr)) by (intros Hx; right; by apply (inv_switch _ _ _ Hi)).
  destruct (send_logon_response_and_keep_alive e s1) as [kp s2] eqn:E.
  destruct (authorized (conn s)) eqn:Ha.
  - unfold send_logon_response_and_keep_alive in E. change (authorized (conn s1)) with (authorized (conn s)) in E. rewrite Ha in E.
    injection E as <- <-. injection H as <- <-. apply after_inv.
    destruct (inv_auth _ _ _ Hi Ha) as [Hp Hw]. split.
    + exact (inv_fixed _ _ _ Hi).
    + intros _. split; [by apply proved_cons|done].
    + intros Hx. exfalso. exact (eq_true_false_abs _ Ha Hx).
    + intros _. done.
    + intros _. by right.
    + exact Hswi.
    + intros Hn. assert (Hn' : ~ Exists switched tr) by (intros Hx; by apply Hn; right).
      pose proof (inv_scope _ _ _ Hi Hn') as Hsc. unfold scoped in *. change (login_scope (conn s1)) with (login_scope (conn s)).
      destruct (login_scope (conn s)) as [d|]; [|destruct Hsc as (_ & Hx & _); congruence].
      destruct Hsc as (lr0 & Hf & Hd & _). exists lr0. split_and!; [by apply first_login_cons|done|].
      intros Hx. exfalso. exact (eq_true_false_abs _ Ha Hx).
  - pose proof (inv_tunnel _ _ _ Hi Ha) as Htu.
    apply send_logon_spec in E as [_ E]; [|done|done]. rewrite Hk1 in E.
    destruct E as [[-> E]|[[-> E]|(-> & E & _)]]; cbn [andb] in H; injection H as <- <-; [by apply after_closed| |]; apply after_inv.
    + apply (inv_awaiting s0 tr s _ _ _ Hi E); [exact Ha|exact Htu|done|done|intros _; by right|exact Hswi|].
      intros Hn. exact (Hnow Hn eq_refl).
    + apply (inv_authorized s0 tr s _ _ _ Hi E); [done|done|by right|exact Hswi|]. intros Hn. exact (Hnow Hn eq_refl).
Qed.

Lemma step_login s0 tr s e lr keep s' : inv s0 tr s -> s.(conn).(authorized) = false -> on_login_request e lr s = (keep, s') ->
  after s0 ((s, EMessage e (MLogin lr)) :: tr) keep s'.
Proof.
  intros Hi Ha H. pose proof (inv_tunnel _ _ _ Hi Ha) as Htu. apply login_spec in H; [|done|done].
  destruct keep; [|by apply after_closed]. destruct H as (Hscope & Hid & Hgr & totp & Htotp & Hout). apply after_inv.
  set (p := (s, EMessage e (MLogin lr))) in *.
  assert (Hreq : requested (p :: tr) lr) by (left; by exists e).
  assert (Hswi : from_switch (conn s) = true -> Exists switched (p :: tr)) by (intros Hx; right; by apply (inv_switch _ _ _ Hi)).
  assert (H2fa : totp = None -> s0.(conn).(require_2fa) = None \/ secondary (p :: tr)).
  { intros Hn. destruct Htotp as [->|[_ Ht]]; [|right; left; right; right; right; left; by exists e, lr].
    destruct (inv_2fa _ _ _ Hi Hn); [by left|by right; right]. }
  assert (Hsc : ~ Exists switched (p :: tr) -> exists lr0, first_login (p :: tr) = Some lr0 /\ requested (p :: tr) lr /\
     login_scope_digest lr = login_scope_digest lr0 /\ fields_of lr = fields_of lr /\ Some (login_scope_digest lr) = Some (login_scope_digest lr0)).
  { intros Hn. assert (Hn' : ~ Exists switched tr) by (intros Hx; by apply Hn; right).
    pose proof (inv_scope _ _ _ Hi Hn') as Hs. unfold scoped in Hs. destruct (login_scope (conn s)) as [d|].
    - destruct Hs as (lr0 & Hf & -> & _). exists lr0. destruct Hscope as [?|[= Hd]]; [done|].
      split_and!; [by apply first_login_cons|done|done|done|by rewrite Hd].
    - destruct Hs as (Hf & _). exists lr. split_and!; [unfold p; cbn; by rewrite Hf|done..]. }
  assert (Hpw : password_ok e (shared s) (ip (conn s)) (hash (conn s)) lr -> primary (p :: tr)).
  { intros Hx. left. right; right. exists e, lr. split_and!; done. }
  destruct Hout as [Hk|[[Hk Hok]|(Hk & Hok & Hev)]].
  - assert (Ha' : authorized (conn s') = false) by exact (f_equal k_authorized Hk). split.
    + rewrite Hk. exact (inv_fixed _ _ _ Hi).
    + intros Hx. congruence.
    + intros _. exact (eq_trans (f_equal k_tunnel Hk) Htu).
    + intros Hx. exfalso. exact (eq_true_false_abs _ Hx (f_equal k_awaiting Hk)).
    + intros Hx. apply H2fa. etrans; [symmetry; exact (f_equal k_2fa Hk)|exact Hx].
    + intros Hx. apply Hswi. etrans; [symmetry; exact (f_equal k_switch Hk)|exact Hx].
    + intros Hn. destruct (Hsc Hn) as (lr0 & Hf & Hr & Hd & _ & Hks). unfold scoped.
      assert (Hls : login_scope (conn s') = Some (login_scope_digest lr0)) by (etrans; [exact (f_equal k_scope Hk)|exact Hks]).
      rewrite Hls. exists lr0. split_and!; [done|done|]. intros _. exists lr.
      split_and!; [done|exact (f_equal k_lr Hk)|exact (f_equal k_fields Hk)|done].
  - apply (inv_awaiting s0 tr s _ _ _ Hi Hk); [done|exact Htu|done|by apply Hpw|exact H2fa|exact Hswi|exact Hsc].
  - apply (inv_authorized s0 tr s _ _ _ Hi Hk); [done|by apply Hpw| |exact Hswi|exact Hsc].
    destruct Hev as [Hx|[Hx|Hx]]; [by apply H2fa| |].
    + right. apply Exists_exists. destruct (proj1 (Exists_exists _ _) (Hswi Hx)) as (q & Hq & Hsw). exists q. auto.
    + right. left. right; right; right; right. by exists e, lr.
Qed.

Lemma step_2fa s0 tr s e code h keep s' : inv s0 tr s -> s.(conn).(authorized) = false -> on_auth_2fa e code h s = (keep, s') ->
  after s0 ((s, EMessage e (MAuth2fa code h)) :: tr) keep s'.
Proof.
  intros Hi Ha H. pose proof (inv_tunnel _ _ _ Hi Ha) as Htu. set (p := (s, EMessage e (MAuth2fa code h))).
  destruct (auth_2fa_spec _ _ _ _ _ _ H Ha Htu) as [[Hk Hsame]|(Hw & Hthr & (totp & Ht & Hcheck) & H')]; clear H.
  { apply after_inv. apply (inv_same s0 tr s); [done|done| |done]. intros _ Hcm Hx. by rewrite (Hsame Hx). }
  destruct keep; [|by apply after_closed].
  assert (Hprim : primary (p :: tr)) by (right; by apply (inv_await _ _ _ Hi)).
  assert (Hsec : secondary (p :: tr)) by (left; right; right; left; by exists e, code, h, totp).
  assert (Hswi : from_switch (conn s) = true -> Exists switched (p :: tr)) by (intros Hx; right; by apply (inv_switch _ _ _ Hi)).
  assert (Hsc : ~ Exists switched (p :: tr) -> exists lr0, first_login (p :: tr) = Some lr0 /\ requested (p :: tr) s.(conn).(lr) /\
     login_scope_digest s.(conn).(lr) = login_scope_digest lr0 /\ (core s.(conn)).(k_fields) = fields_of s.(conn).(lr) /\
     s.(conn).(login_scope) = Some (login_scope_digest lr0)).
  { intros Hn. assert (Hn' : ~ Exists switched tr) by (intros Hx; by apply Hn; right).
    pose proof (inv_scope _ _ _ Hi Hn') as Hs. unfold scoped in Hs. destruct (login_scope (conn s)) as [d|].
    - destruct Hs as (lr0 & Hf & -> & Hs). destruct (Hs Ha) as (r & Hr & -> & Hfi & Hd).
      exists lr0. split_and!; [by apply first_login_cons|by right|done|done|done].
    - destruct Hs as (_ & _ & Hx). congruence. }
  apply after_inv. destruct H' as [Hk|Hk].
  - apply (inv_awaiting s0 tr s _ _ _ Hi Hk); [exact Ha|exact Htu|done|done|intros _; by right|exact Hswi|exact Hsc].
  - apply (inv_authorized s0 tr s _ _ _ Hi Hk); [done|done|by right|exact Hswi|exact Hsc].
Qed.

Lemma step_switch s0 tr s e uuid rlr keep s' : inv s0 tr s -> on_switch_sides e uuid rlr s = (keep, s') ->
  after s0 ((s, EMessage e (MSwitchSides uuid rlr)) :: tr) keep s'.
Proof.
  intros Hi H. destruct (switch_spec _ _ _ _ _ _ H (inv_tunnel _ _ _ Hi)) as [[Hk Hcm]|(lr & -> & Hsw & H')]; clear H.
  { apply after_inv. apply (inv_same s0 tr s); [done|done|by rewrite Hcm|done]. }
  destruct keep.
  - destruct H' as (Hfix & Hid & Htu & Haw). apply after_inv. apply inv_switched.
    + by exists e, uuid, lr.
    + etrans; [exact Hfix|exact (inv_fixed _ _ _ Hi)].
    + exact Htu.
    + intros Hx. apply Haw; [exact Hx|]. intros Ha. by apply (inv_auth _ _ _ Hi).
  - split; [|done]. intros Ha. destruct (H' Ha) as [Ha0 ->]. apply proved_cons. by apply (inv_auth _ _ _ Hi).
Qed.

Lemma step_message s0 tr s e m keep s' : inv s0 tr s -> on_message e m s = (keep, s') ->
  after s0 ((s, EMessage e m) :: tr) keep s'.
Proof.
  intros Hi H. unfold on_message in H. destruct (authorized (conn s)) eqn:Ha.
  2: { destruct m; try (by apply step_login); try (by apply step_2fa); try (by apply step_switch);
       injection H as <- <-; apply after_inv; by apply (inv_same s0 tr s). }
  destruct (inv_auth _ _ _ Hi Ha) as [Hp Hw].
  assert (Hsame : forall keep' s2, core s2.(conn) = core s.(conn) -> cm_told s2 = cm_told s -> is_login (s, EMessage e m) = false ->
    after s0 ((s, EMessage e m) :: tr) keep' s2).
  { intros keep' s2 Hk Hcm Hl. apply after_inv. apply (inv_same s0 tr s); [done|done|by rewrite Hcm|done]. }
  assert (Hviol : forall msg, handle_authorized_scope_violation e msg s = (keep, s') -> is_login (s, EMessage e m) = false ->
    after s0 ((s, EMessage e m) :: tr) keep s').
  { intros msg Hv Hl. unfold handle_authorized_scope_violation in Hv. set (first := negb _) in *. set (s1 := on_conn _ s) in *.
    assert (Hk1 : core s1.(conn) = core s.(conn) /\ cm_told s1 = cm_told s) by (unfold s1; by destruct first).
    clearbody s1. destruct (first && _), (get_bool_option e _); injection Hv as <- <-; destruct Hk1 as [Hk1 Hc1]; apply Hsame; try done;
      unfold post_alarm_audit; rewrite ?cm_told_send, ?orb_false_r; done. }
  destruct (is_login (s, EMessage e m)) eqn:El.
  - destruct m as [lr| | | | | | | | | | | | | | | | | | | | | |]; try done. injection H as <- <-. apply after_inv. destruct Hi as [Hfix Hau Htu Haw H2 Hfs Hsc]. split.
    + done.
    + intros _. split; [by apply proved_cons|done].
    + intros Hx. congruence.
    + intros _. by right; apply Hp.
    + intros Hx. destruct (H2 Hx); [by left|by right; right].
    + intros Hx. right. by apply Hfs.
    + intros Hn. assert (Hn' : ~ Exists switched tr) by (intros Hx; by apply Hn; right). specialize (Hsc Hn'). unfold scoped in *.
      destruct Hp as (_ & _ & Hp). destruct (Hp Hn') as (lr0 & r & Hf & _). destruct (login_scope (conn s)) as [d|].
      * destruct Hsc as (lr1 & Hf1 & Hd & _). exists lr1. split_and!; [by apply first_login_cons|done|]. intros Hx. congruence.
      * destruct Hsc as (Hx & _). congruence.
  - assert (H' : match authorized_scope_violation (cfg_windows e) (authed_conn_type (conn s)) m with
      | Some message => handle_authorized_scope_violation e message s
      | None => match m with MLogin lr => on_login_request e lr s | MAuth2fa code h => on_auth_2fa e code h s
                | MSwitchSides uuid lr => on_switch_sides e uuid lr s | _ => (true, s) end end = (keep, s')) by (by destruct m).
    clear H. destruct (authorized_scope_violation _ _ m); [by eapply Hviol|].
    destruct m; try done; try (injection H' as <- <-; by apply Hsame).
    + unfold on_auth_2fa in H'. rewrite Hw in H'. injection H' as <- <-. by apply Hsame.
    + by apply step_switch.
Qed.

Lemma run_inv s0 tr s keep : inv s0 [] s0 -> run s0 tr s keep -> after s0 tr keep s.
Proof.
  intros H0 Hr. induction Hr as [|tr s ev keep s' Hr IH Hen Hex]; [by apply after_inv|].
  destruct IH as [_ Hi]. specialize (Hi eq_refl). destruct ev as [e m|e|h]; cbn [exec] in Hex.
  - by apply step_message.
  - by apply step_authorize.
  - injection Hex as <- <-. by apply step_others.
Qed.

Lemma run_message s0 tr s e m : run s0 tr s true -> (on_message e m s).1 = true ->
  run s0 ((s, EMessage e m) :: tr) (on_message e m s).2 true.
Proof.
  intros Hr Hk. eapply run_step; [exact Hr|exact I|]. cbn [exec]. rewrite <- Hk. apply surjective_pairing.
Qed.

(** A connection as it starts. *)
Definition starts (s0 : Sys) : Prop :=
  exists id addr h control totp, s0.(conn) = conn_new id addr h control totp /\ cm_told s0 = false.

Lemma start_inv s0 : starts s0 -> inv s0 [] s0.
Proof.
  intros (id & addr & h & control & totp & Hc & Hcm). split; rewrite ?Hc; try done.
  - intros Hx. by left.
  - intros _. unfold scoped. rewrite Hc. done.
Qed.

(** ** The scope digest covers the identity and the scope *)

Lemma push_inj a b x y : zlen a < 2 ^ 64 -> zlen b < 2 ^ 64 -> push a ++ x = push b ++ y -> a = b /\ x = y.
Proof.
  intros Ha Hb. unfold push. rewrite <- !app_assoc. intros H. apply app_inj_1 in H as [Hl H]; [|by rewrite !length_le_bytes].
  apply le_bytes_inj in Hl. change (256 ^ Z.of_nat 8) with (2 ^ 64) in Hl. rewrite !Z.mod_small in Hl by lia. apply app_inj_1 in H; [done|lia].
Qed.

Lemma push_inj_end a b : zlen a < 2 ^ 64 -> zlen b < 2 ^ 64 -> push a = push b -> a = b.
Proof. intros Ha Hb H. apply (push_inj a b [] []); [done|done|]. by rewrite H. Qed.

(** Variants this build does not know execute as remote. *)
Definition scope_of (r : LoginRequest) : option LoginUnion :=
  match r.(lr_union) with Some UUnknown => None | u => u end.

(** Lengths fit in 64 bits, and the port in 32. *)
Definition small (r : LoginRequest) : Prop :=
  zlen (as_bytes r.(my_id)) < 2 ^ 64 /\
  match r.(lr_union) with
  | Some (UFileTransfer dir _) => zlen (as_bytes dir) < 2 ^ 64
  | Some (UTerminal service_id) => zlen (as_bytes service_id) < 2 ^ 64
  | Some (UPortForward host port _) => zlen (as_bytes host) < 2 ^ 64 /\ - 2 ^ 31 <= port < 2 ^ 31
  | _ => True
  end.

Definition scope_rest (r : LoginRequest) : string * bytes :=
  match r.(lr_union) with
  | Some (UFileTransfer dir show_hidden) => ("file_transfer", push (as_bytes dir) ++ push [Z.b2z show_hidden])
  | Some UViewCamera => ("view_camera", [])
  | Some (UTerminal service_id) => ("terminal", push (as_bytes service_id))
  | Some (UPortForward host port multiplex) => ("port_forward", push (as_bytes host) ++ push (le_bytes 4 port) ++ push [Z.b2z multiplex])
  | None | Some UUnknown => ("remote", [])
  end.

Lemma login_scope_bytes_eq r : login_scope_bytes r = push (as_bytes r.(my_id)) ++ push (as_bytes (scope_rest r).1) ++ (scope_rest r).2.
Proof. unfold login_scope_bytes, scope_rest. by destruct (lr_union r) as [[]|]; cbn [fst snd]; rewrite ?app_nil_r. Qed.

Lemma flag_inj a b : push [Z.b2z a] = push [Z.b2z b] -> a = b.
Proof. intros H. apply push_inj_end in H; [|done..]. injection H. by destruct a, b. Qed.

Lemma port_inj a b : - 2 ^ 31 <= a < 2 ^ 31 -> - 2 ^ 31 <= b < 2 ^ 31 -> le_bytes 4 a = le_bytes 4 b -> a = b.
Proof.
  intros Ha Hb H%le_bytes_inj. change (256 ^ Z.of_nat 4) with 4294967296 in H. pow2.
  Z.to_euclidean_division_equations; lia.
Qed.

Lemma login_scope_bytes_inj a b : small a -> small b -> login_scope_bytes a = login_scope_bytes b ->
  a.(my_id) = b.(my_id) /\ scope_of a = scope_of b.
Proof.
  intros [Ha Hsa] [Hb Hsb]. rewrite !login_scope_bytes_eq. intros H. apply push_inj in H as [Hid%as_bytes_inj H]; [|done..].
  split; [done|]. clear Ha Hb Hid.
  assert (Htag : forall r, zlen (as_bytes (scope_rest r).1) < 2 ^ 64) by (intros r; unfold scope_rest; by destruct (lr_union r) as [[]|]).
  apply push_inj in H as [Ht%as_bytes_inj H]; [|apply Htag..]. unfold scope_rest, scope_of in *.
  destruct (lr_union a) as [[dir sh| |sid|host port mux|]|], (lr_union b) as [[dir' sh'| |sid'|host' port' mux'|]|]; try discriminate Ht; try done.
  - apply push_inj in H as [->%as_bytes_inj ->%flag_inj]; done.
  - by apply push_inj_end in H as ->%as_bytes_inj.
  - destruct Hsa, Hsb. apply push_inj in H as [->%as_bytes_inj H]; [|done..]. apply push_inj in H as [Hp ->%flag_inj]; [|done..].
    by apply port_inj in Hp as ->.
Qed.

(** C1: nobody gets in without credentials, and nobody gets more than they first asked for.  In any
    run of a new connection, whatever messages it sends in whatever order and whatever other
    connections do meanwhile, if it is authorized then the run contains a primary credential (the
    user's click, the identifier of a switch of sides, or the answer to this connection's
    challenge for an accepted password, from a whitelisted ID and unthrottled), and, if a second
    factor was configured, also a click, a switch, an unthrottled valid code, a trusted device or
    a session that passed it within thirty seconds; and unless sides were switched it is
    authorized for the kind of session, under the permission for it, and, short of a hash
    collision, with the identity and the parameters, of its first login request. *)
Theorem authorized_with_credentials (s0 : Sys) (tr : Trace) (s : Sys) (keep : bool) :
  starts s0 -> run s0 tr s keep -> s.(conn).(authorized) = true ->
  primary tr /\ (s0.(conn).(require_2fa) = None \/ secondary tr) /\
  (~ Exists switched tr ->
   exists lr0 r, first_login tr = Some lr0 /\ requested tr r /\ s.(conn).(authed_conn_type) = Some (scope_type r) /\
     (small lr0 -> small r ->
      (r.(my_id) = lr0.(my_id) /\ scope_of r = scope_of lr0) \/ exists a b, a <> b /\ sha256 a = sha256 b)).
Proof.
  intros Hstart Hrun Ha. destruct (run_inv _ _ _ _ (start_inv _ Hstart) Hrun) as [Hf _].
  destruct (Hf Ha) as (H1 & H2 & H3). split_and!; [done..|]. intros Hn.
  destruct (H3 Hn) as (lr0 & r & Hl & Hr & Hd & Ht). exists lr0, r. split_and!; [done..|]. intros Hs0 Hs.
  destruct (decide (login_scope_bytes r = login_scope_bytes lr0)) as [He|Hne].
  - left. by apply login_scope_bytes_inj.
  - right. by exists (login_scope_bytes r), (login_scope_bytes lr0).
Qed.

End Run.

(** Concrete libraries: a "hash" that is the identity, and no decryption. *)
Definition toy : Libraries := mkLibraries (fun b => b) (fun _ => None) (fun _ _ _ => None) (fun b => b) (fun b => b) (fun secret code _ => Some (bool_decide (secret = as_bytes code))).

Definition toy_env : Env := mkEnv 60000 0 [57] false (mkMachine [] None) (fun _ => "") (fun _ => "") [] [] [] [] "me" (fun _ => false) false []
  false false false (fun _ => true) (fun _ _ => (None, None)) true (fun _ => None).

Definition toy_shared : Shared := mkShared failure_state_default ∅ ∅ ∅ ∅ (mkTemporary [49; 50] [] 0) ∅ [] [].

Definition toy_start : Sys :=
  mkSys (conn_new 1 (V4 7) (mkHash [1] [2]) None (Some (as_bytes "123456"))) toy_shared [].

(** The right answer to the challenge, then the right code. *)
Definition toy_login : LoginRequest := mkLogin "me" [49; 50; 1; 2] "peer" "" "" "1.4.0" 0 [] "" "" None false (Some (UFileTransfer "/" false)).

Lemma authorized_with_credentials_witness :
  let s1 := (@on_message toy toy_env (MLogin toy_login) toy_start).2 in
  let s2 := (@on_message toy toy_env (MAuth2fa "123456" []) s1).2 in
  let tr := [(s1, EMessage toy_env (MAuth2fa "123456" [])); (toy_start, EMessage toy_env (MLogin toy_login))] in
  s1.(conn).(authorized) = false /\ s2.(conn).(authed_conn_type) = Some FileTransfer /\
  @primary toy tr /\ (toy_start.(conn).(require_2fa) = None \/ @secondary toy tr).
Proof.
  cbv zeta. set (s1 := (@on_message toy toy_env (MLogin toy_login) toy_start).2).
  set (s2 := (@on_message toy toy_env (MAuth2fa "123456" []) s1).2).
  split; [vm_compute; reflexivity|]. split; [vm_compute; reflexivity|].
  assert (Hr : @run toy toy_start [(s1, EMessage toy_env (MAuth2fa "123456" [])); (toy_start, EMessage toy_env (MLogin toy_login))] s2 true).
  { apply (@run_message toy); [apply (@run_message toy); [apply run_start|]|]; vm_compute; reflexivity. }
  assert (Hs : starts toy_start) by (exists 1, (V4 7), (mkHash [1] [2]), None, (Some (as_bytes "123456")); split; reflexivity).
  destruct (@authorized_with_credentials toy toy_start _ s2 true Hs Hr) as (H1 & H2 & _); [vm_compute; reflexivity|].
  split; [exact H1|exact H2].
Defined.

End LoginRun.
