(* ===== verification/LoginSeal.v ===== *)
(** Sealing what is stored on a machine ([src/libs/hbb_common/src/password_security.rs] and the
    writing half of [src/libs/hbb_common/src/config/permanent_password.rs]): what is encrypted, and
    that it decrypts to what it was.  Reading is in [LoginPassword]. *)

From S2P Require Import Prelude LoginPassword LoginState.

Module Seal.
Import Password LoginState.

(** More of the libraries: Base64, the secretbox, and the random numbers drawn so far. *)
Class Sealing := mkSealing {
  base64_encode : bytes -> bytes;
  (** data, nonce, key *)
  secretbox_seal : bytes -> bytes -> bytes -> bytes;
  (** the nonce and the [usize] of a draw *)
  gen_nonce : nat -> bytes;
  gen_usize : nat -> Z
}.

Definition ENCRYPT_MAX_LEN : Z := 128.
Definition DEFAULT_SALT_LEN : Z := 32.

(** [s.chars().count()]: the bytes that are not continuation bytes. *)
Definition chars_count (s : bytes) : Z := zlen (filter (fun c => Z.land c 192 <> 128) s).

(** "23456789abcdefghijkmnpqrstuvwxyz" *)
Definition CHARS : list Z := Eval vm_compute in as_bytes "23456789abcdefghijkmnpqrstuvwxyz".

Section Sealing.
Context {L : Libraries} {S : Sealing}.

Definition get_auto_password_with_chars (length : Z) (chars : list Z) (n : nat) : bytes * nat :=
  ((fun i => default 0 (zget chars (gen_usize i mod zlen chars))) <$> seq n (Z.to_nat length), (n + Z.to_nat length)%nat).
Definition get_auto_password (length : Z) : nat -> bytes * nat := get_auto_password_with_chars length CHARS.

Section Machine.
Variable m : Machine.

(** [symmetric_crypt(data, true)], which cannot fail: the key has [KEYBYTES] bytes. *)
Definition symmetric_encrypt (data : bytes) (n : nat) : bytes * nat :=
  let nonce := gen_nonce n in
  (FORMAT_V1 :: nonce ++ secretbox_seal data nonce (resize0 KEYBYTES m.(uuid)), Datatypes.S n).

Definition encrypt (v : bytes) (n : nat) : option bytes * nat :=
  if is_nil v then (None, n) else let '(e, n) := symmetric_encrypt v n in (Some (base64_encode e), n).

Abbreviation is_encrypted := (is_encrypted base64_decode).
Abbreviation decrypt_str_or_original := (decrypt_str_or_original base64_decode secretbox_open from_utf8_lossy m).

Definition encrypt_str_or_original (s version : bytes) (max_len : Z) (n : nat) : bytes * nat :=
  if is_encrypted s then (s, n)
  else if max_len <? chars_count s then ([], n)
  else if bool_decide (version = PASSWORD_ENC_VERSION) then
    let '(e, n) := encrypt s n in
    match e with Some e => (version ++ e, n) | None => (s, n) end
  else (s, n).

Definition encrypt_vec_or_original (v version : bytes) (max_len : Z) (n : nat) : bytes * nat :=
  if is_encrypted v then (v, n)
  else if max_len <? zlen v then ([], n)
  else if bool_decide (version = PASSWORD_ENC_VERSION) then
    let '(e, n) := encrypt v n in
    match e with Some e => (version ++ e, n) | None => (v, n) end
  else (v, n).

Definition decrypt_vec_or_original (v current_version : bytes) : bytes * bool * bool :=
  let version := from_utf8_lossy (ztake VERSION_LEN v) in
  match (if (VERSION_LEN <? zlen v) && bool_decide (version = PASSWORD_ENC_VERSION)
         then decrypt base64_decode secretbox_open m (zdrop VERSION_LEN v) else None) with
  | Some d => (d, true, negb (bool_decide (version = current_version)))
  | None => (v, false, negb (is_nil v) && negb (is_encrypted v))
  end.

(** ** The permanent password *)

Definition compute_permanent_password_h1 (password salt : bytes) : bytes := sha256 (password ++ salt).

Definition encode_permanent_password_storage_from_h1 (h1 : bytes) : bytes :=
  PERMANENT_PASSWORD_HASH_PREFIX ++ base64_encode h1.

Definition encrypt_permanent_password_storage (storage : bytes) (n : nat) : option bytes * nat :=
  if ENCRYPT_MAX_LEN <? chars_count storage then (None, n) else
  let '(e, n) := symmetric_encrypt storage n in
  (Some (PERMANENT_PASSWORD_ENC_VERSION ++ base64_encode e), n).

Definition encode_permanent_password_encrypted_storage_from_h1 (h1 : bytes) : nat -> option bytes * nat :=
  encrypt_permanent_password_storage (encode_permanent_password_storage_from_h1 h1).

Definition preset_permanent_password_storage_matches_plain (storage salt input : bytes) : bool :=
  if is_nil storage || is_nil input then false
  else if is_nil salt then bool_decide (storage = input)
  else match decode_preset_password_h1_from_storage base64_decode storage with
       | None => false
       | Some stored_h1 => constant_time_eq (compute_permanent_password_h1 input salt) stored_h1
       end.

Definition password_is_empty_or_not_hashed (storage : bytes) : bool :=
  if is_nil storage then true
  else match decode_permanent_password_h1_from_storage base64_decode secretbox_open from_utf8_lossy m storage with
  | Some _ => false
  | None =>
      if starts_with PERMANENT_PASSWORD_ENC_VERSION storage then false else
      let '(_, decrypted, looks_like_plaintext) := decrypt_str_or_original storage PASSWORD_ENC_VERSION in
      decrypted || looks_like_plaintext
  end.

End Machine.
End Sealing.
End Seal.

(** ** What the libraries document, and that sealed storage opens *)

Module SealFacts.
Import Password LoginState Seal.

Definition bytes_ok (b : bytes) : Prop := Forall (fun x => 0 <= x < 256) b.
(** printable, as the alphabet of Base64 is *)
Definition ascii (b : bytes) : Prop := Forall (fun x => 32 <= x < 128) b.

Class SealingLaws {L : Libraries} {S : Sealing} : Prop := {
  base64_inverse b : bytes_ok b -> base64_decode (base64_encode b) = Some b;
  base64_length b : (length b <= length (base64_encode b) <= 2 * length b + 2)%nat;
  base64_ascii b : ascii (base64_encode b);
  open_seal d nonce key : bytes_ok d -> length nonce = NONCEBYTES -> length key = KEYBYTES ->
    secretbox_open (secretbox_seal d nonce key) nonce key = Some d;
  open_length c nonce key d : secretbox_open c nonce key = Some d -> MACBYTES + zlen d = zlen c;
  seal_bytes d nonce key : bytes_ok d -> bytes_ok (secretbox_seal d nonce key);
  seal_length d nonce key : zlen (secretbox_seal d nonce key) = MACBYTES + zlen d;
  nonce_length n : length (gen_nonce n) = NONCEBYTES;
  nonce_bytes n : bytes_ok (gen_nonce n);
  usize_range n : 0 <= gen_usize n < 2 ^ 64;
  sha256_length b : length (sha256 b) = 32%nat;
  sha256_bytes b : bytes_ok (sha256 b);
  lossy_ascii b : ascii b -> from_utf8_lossy b = b;
  lossy_bytes b : bytes_ok b -> bytes_ok (from_utf8_lossy b);
  open_bytes c nonce key d : secretbox_open c nonce key = Some d -> bytes_ok d
}.

Section Facts.
Context {L : Libraries} {S : Sealing} {W : SealingLaws}.

Lemma length_resize0 n l : length (resize0 n l) = n.
Proof. unfold resize0. rewrite length_take, length_app, length_replicate. lia. Qed.

Lemma ascii_bytes b : ascii b -> bytes_ok b.
Proof. intros H. eapply Forall_impl; [exact H|]. cbn. lia. Qed.

Lemma chars_count_le s : chars_count s <= zlen s.
Proof. unfold chars_count. pose proof (length_filter (fun c => Z.land c 192 <> 128) s). lia. Qed.

Lemma starts_with_app p s : starts_with p (p ++ s) = true.
Proof. unfold starts_with. rewrite take_app_length. by apply bool_decide_eq_true. Qed.

Lemma starts_with_iff p s : starts_with p s = true <-> exists t, s = p ++ t.
Proof.
  unfold starts_with. rewrite bool_decide_eq_true. split.
  - intros H. exists (drop (length p) s). rewrite <- H at 1. by rewrite take_drop.
  - intros [t ->]. by rewrite take_app_length.
Qed.

(** A string does not start with both version marks. *)
Lemma one_version s : starts_with PASSWORD_ENC_VERSION s = true -> starts_with PERMANENT_PASSWORD_ENC_VERSION s = true -> False.
Proof. intros [t ->]%starts_with_iff [u H]%starts_with_iff. discriminate H. Qed.

Lemma get_auto_password_length len n : 0 <= len -> zlen (get_auto_password len n).1 = len.
Proof. intros H. cbn. rewrite length_fmap, length_seq. lia. Qed.

Lemma salt_nonempty n : is_nil (get_auto_password DEFAULT_SALT_LEN n).1 = false.
Proof. done. Qed.

Section OnMachine.
Variable m : Machine.

Lemma symmetric_bytes d n : bytes_ok d -> bytes_ok (symmetric_encrypt m d n).1.
Proof.
  intros H. cbn. constructor; [unfold FORMAT_V1; lia|]. apply Forall_app. split; [apply nonce_bytes | by apply seal_bytes].
Qed.

Lemma symmetric_length d n : MACBYTES <= zlen (symmetric_encrypt m d n).1.
Proof. unfold symmetric_encrypt. cbn [fst length]. rewrite length_app. pose proof (seal_length d (gen_nonce n) (resize0 KEYBYTES (uuid m))). lia. Qed.

Lemma symmetric_roundtrip d n : bytes_ok d -> symmetric_decrypt secretbox_open m (symmetric_encrypt m d n).1 = Some d.
Proof.
  intros H. unfold symmetric_decrypt, open_secretbox_payload. cbn [symmetric_encrypt fst head length].
  set (sealed := secretbox_seal _ _ _). rewrite (proj2 (bool_decide_eq_true _)) by done.
  rewrite (proj2 (Z.leb_le _ _)).
  2:{ rewrite length_app, nonce_length. pose proof (seal_length d (gen_nonce n) (resize0 KEYBYTES (uuid m))) as Hl. fold sealed in Hl. lia. }
  change (1 + NONCEBYTES)%nat with (Datatypes.S NONCEBYTES). cbn [skipn andb]. rewrite drop_0. rewrite take_app_length', drop_app_length' by (symmetry; apply nonce_length).
  unfold sealed. by rewrite open_seal by (try apply nonce_length; try apply length_resize0; done).
Qed.

Lemma encoded_roundtrip d n : bytes_ok d ->
  base64_decode (base64_encode (symmetric_encrypt m d n).1) = Some (symmetric_encrypt m d n).1.
Proof. intros H. by apply base64_inverse, symmetric_bytes. Qed.

Lemma encoded_nonempty d n : 0 < zlen (base64_encode (symmetric_encrypt m d n).1).
Proof. pose proof (base64_length (symmetric_encrypt m d n).1). pose proof (symmetric_length d n). unfold MACBYTES in *. lia. Qed.

Lemma decrypt_sealed d n : bytes_ok d -> decrypt base64_decode secretbox_open m (base64_encode (symmetric_encrypt m d n).1) = Some d.
Proof.
  intros H. unfold decrypt. pose proof (encoded_nonempty d n) as Hl. destruct (is_nil _) eqn:En.
  { by destruct (base64_encode _). }
  rewrite encoded_roundtrip by done. cbn. by apply symmetric_roundtrip.
Qed.

Abbreviation is_encrypted := (Password.is_encrypted base64_decode).
Abbreviation decrypt_str_or_original := (Password.decrypt_str_or_original base64_decode secretbox_open from_utf8_lossy m).
Abbreviation decode_h1 := (decode_permanent_password_h1_from_storage base64_decode secretbox_open from_utf8_lossy m).

(** The output of the sealing functions, and what can be said of it. *)
Definition sealed (version d : bytes) (n : nat) : bytes := version ++ base64_encode (symmetric_encrypt m d n).1.

Lemma sealed_looks d n : bytes_ok d -> is_encrypted (sealed PASSWORD_ENC_VERSION d n) = true.
Proof.
  intros H. unfold Password.is_encrypted, sealed. rewrite starts_with_app, orb_false_r.
  pose proof (encoded_nonempty d n). rewrite (proj2 (Z.leb_gt _ _)) by (unfold VERSION_LEN; cbn [PASSWORD_ENC_VERSION app length]; lia).
  change (zdrop VERSION_LEN _) with (base64_encode (symmetric_encrypt m d n).1). rewrite encoded_roundtrip by done.
  apply Z.leb_le, symmetric_length.
Qed.

Lemma sealed_decrypts d n version : bytes_ok d ->
  decrypt_str_or_original (sealed PASSWORD_ENC_VERSION d n) version = (from_utf8_lossy d, true, negb (bool_decide (PASSWORD_ENC_VERSION = version))).
Proof.
  intros H. unfold Password.decrypt_str_or_original, sealed. rewrite starts_with_app.
  pose proof (encoded_nonempty d n). rewrite (proj2 (Z.ltb_lt _ _)) by (unfold VERSION_LEN; cbn [PASSWORD_ENC_VERSION app length]; lia).
  change (zdrop VERSION_LEN _) with (base64_encode (symmetric_encrypt m d n).1). cbn [andb]. by rewrite decrypt_sealed.
Qed.

Lemma encrypt_sealed v n : is_nil v = false -> (encrypt m v n).1 = Some (base64_encode (symmetric_encrypt m v n).1).
Proof. intros H. unfold encrypt. rewrite H. done. Qed.

(** A string that is not empty, fits and is not encrypted already is sealed. *)
Lemma encrypt_str_spec s max n : is_nil s = false -> is_encrypted s = false -> chars_count s <= max ->
  (encrypt_str_or_original m s PASSWORD_ENC_VERSION max n).1 = sealed PASSWORD_ENC_VERSION s n.
Proof.
  intros Hn He Hc. unfold encrypt_str_or_original. rewrite He. destruct (Z.ltb_spec max (chars_count s)); [lia|].
  rewrite bool_decide_eq_true_2 by done. destruct (encrypt m s n) as [e n'] eqn:Ee.
  pose proof (encrypt_sealed s n Hn) as H1. rewrite Ee in H1. cbn in H1. by subst e.
Qed.

Lemma str_roundtrip s n : bytes_ok s -> from_utf8_lossy s = s -> is_nil s = false -> is_encrypted s = false -> chars_count s <= ENCRYPT_MAX_LEN ->
  decrypt_str_or_original (encrypt_str_or_original m s PASSWORD_ENC_VERSION ENCRYPT_MAX_LEN n).1 PASSWORD_ENC_VERSION = (s, true, false).
Proof. intros Hb Hu Hn He Hc. rewrite encrypt_str_spec by done. rewrite sealed_decrypts by done. by rewrite Hu. Qed.

(** A text that is not mistaken for a sealed one, and how a text of the file opens to it: it was
    sealed for this machine. *)
Definition clear_text (s : bytes) : Prop := bytes_ok s /\ from_utf8_lossy s = s /\ is_encrypted s = false.
Definition opens_to (v s : bytes) : Prop := (decrypt_str_or_original v PASSWORD_ENC_VERSION).1 = (s, true) /\ clear_text s.

Lemma clear_nil : clear_text [].
Proof. split_and!; [constructor|apply lossy_ascii; constructor|done]. Qed.

(** Whatever is written with the version mark is nothing, or opens to what it was. *)
Lemma encrypt_str_at_rest s max n : clear_text s ->
  let out := (encrypt_str_or_original m s PASSWORD_ENC_VERSION max n).1 in out = [] \/ opens_to out s.
Proof.
  intros (Hb & Hu & He) out. destruct (is_nil s) eqn:Hn.
  - left. destruct s; [|done]. unfold out, encrypt_str_or_original. rewrite He. by destruct (max <? _).
  - destruct (Z.ltb_spec max (chars_count s)) as [Hc|Hc].
    + left. unfold out, encrypt_str_or_original. by rewrite He, (proj2 (Z.ltb_lt _ _) Hc).
    + right. unfold out. rewrite encrypt_str_spec by done. split; [|by split_and!]. rewrite sealed_decrypts by done. by rewrite Hu.
Qed.

Lemma vec_roundtrip v n : bytes_ok v -> is_nil v = false -> is_encrypted v = false -> zlen v <= ENCRYPT_MAX_LEN ->
  let out := (encrypt_vec_or_original m v PASSWORD_ENC_VERSION ENCRYPT_MAX_LEN n).1 in
  is_encrypted out = true /\ decrypt_vec_or_original m out PASSWORD_ENC_VERSION = (v, true, false).
Proof.
  intros Hb Hn He Hc out. assert (out = sealed PASSWORD_ENC_VERSION v n) as ->.
  { unfold out, encrypt_vec_or_original. rewrite He. destruct (Z.ltb_spec ENCRYPT_MAX_LEN (zlen v)); [lia|].
    rewrite bool_decide_eq_true_2 by done. destruct (encrypt m v n) as [e n'] eqn:Ee.
    pose proof (encrypt_sealed v n Hn) as H1. rewrite Ee in H1. cbn in H1. by subst e. }
  split; [by apply sealed_looks|]. unfold decrypt_vec_or_original, sealed.
  pose proof (encoded_nonempty v n). rewrite (proj2 (Z.ltb_lt _ _)) by (unfold VERSION_LEN; cbn [PASSWORD_ENC_VERSION app length]; lia).
  change (zdrop VERSION_LEN _) with (base64_encode (symmetric_encrypt m v n).1). change (ztake VERSION_LEN _) with PASSWORD_ENC_VERSION.
  rewrite lossy_ascii by (repeat constructor; lia). rewrite bool_decide_eq_true_2 by done. cbn [andb]. by rewrite decrypt_sealed.
Qed.

(** ** The permanent password *)

Lemma hashed_ascii h1 : ascii (encode_permanent_password_storage_from_h1 h1).
Proof. unfold encode_permanent_password_storage_from_h1. repeat constructor; try lia. apply base64_ascii. Qed.

Lemma hashed_roundtrip h1 : bytes_ok h1 -> zlen h1 = PERMANENT_PASSWORD_H1_LEN ->
  decode_permanent_password_h1_from_hashed_storage base64_decode (encode_permanent_password_storage_from_h1 h1) = Some h1.
Proof.
  intros Hb Hl. unfold decode_permanent_password_h1_from_hashed_storage, decode_password_h1_after_prefix, strip_prefix, encode_permanent_password_storage_from_h1.
  rewrite starts_with_app. cbn [mbind option_bind]. rewrite drop_app_length. rewrite base64_inverse by done. cbn. by rewrite Hl.
Qed.

(** The storage of a password's hash gives the hash back. *)
Lemma permanent_roundtrip h1 n : bytes_ok h1 -> zlen h1 = PERMANENT_PASSWORD_H1_LEN ->
  exists storage, (encode_permanent_password_encrypted_storage_from_h1 m h1 n).1 = Some storage /\
    is_nil storage = false /\ ascii storage /\ decode_h1 storage = Some h1.
Proof.
  intros Hb Hl. unfold encode_permanent_password_encrypted_storage_from_h1, encrypt_permanent_password_storage.
  set (hashed := encode_permanent_password_storage_from_h1 h1). pose proof (hashed_ascii h1) as Ha. fold hashed in Ha.
  destruct (Z.ltb_spec ENCRYPT_MAX_LEN (chars_count hashed)) as [Hc|_].
  { pose proof (chars_count_le hashed). pose proof (base64_length h1). unfold PERMANENT_PASSWORD_H1_LEN, ENCRYPT_MAX_LEN in *.
    assert (length hashed = 2 + length (base64_encode h1))%nat by done. lia. }
  exists (sealed PERMANENT_PASSWORD_ENC_VERSION hashed n). split; [done|]. split; [done|].
  assert (Hs : starts_with PERMANENT_PASSWORD_ENC_VERSION (sealed PERMANENT_PASSWORD_ENC_VERSION hashed n) = true) by apply starts_with_app.
  split; [unfold sealed; repeat constructor; try lia; apply base64_ascii|].
  unfold decode_permanent_password_h1_from_storage, decrypt_permanent_password_str_or_original. rewrite Hs.
  pose proof (encoded_nonempty hashed n). unfold sealed at 1. rewrite (proj2 (Z.ltb_lt _ _)) by (unfold VERSION_LEN; cbn [PERMANENT_PASSWORD_ENC_VERSION app length]; lia).
  change (zdrop VERSION_LEN _) with (base64_encode (symmetric_encrypt m hashed n).1). cbn [andb].
  rewrite encoded_roundtrip by (by apply ascii_bytes). cbn [mbind option_bind]. rewrite symmetric_roundtrip by (by apply ascii_bytes).
  rewrite lossy_ascii by done. cbn. by apply hashed_roundtrip.
Qed.

(** What is decrypted looked encrypted, and is made of bytes. *)
Lemma symmetric_opened data d : symmetric_decrypt secretbox_open m data = Some d -> MACBYTES <= zlen data /\ bytes_ok d.
Proof.
  assert (Hone : forall key, open_secretbox_payload secretbox_open data key = Some d -> MACBYTES <= zlen data /\ bytes_ok d).
  { intros key. unfold open_secretbox_payload. destruct (if _ && _ then _ else _) as [d'|] eqn:E.
    - intros [= <-]. destruct (_ && _) eqn:Ec; [|done]. apply andb_true_iff in Ec as [_ Hl%Z.leb_le]. split; [lia|]. by eapply open_bytes.
    - intros Ho. split; [|by eapply open_bytes]. apply open_length in Ho. lia. }
  unfold symmetric_decrypt. destruct (open_secretbox_payload _ _ _) as [d'|] eqn:E; [intros [= <-]; by eapply Hone|].
  destruct (existing_pk m) as [pk|]; [|done]. destruct (bool_decide _); [|done]. apply Hone.
Qed.

Lemma decrypted_spec s v plain x : decrypt_str_or_original s v = (plain, true, x) -> is_encrypted s = true /\ bytes_ok plain.
Proof.
  unfold Password.decrypt_str_or_original. destruct (if _ && _ then _ else _) as [d|] eqn:E; [|done]. intros H. injection H as <- _.
  destruct (_ && _) eqn:Ec; [|done]. apply andb_true_iff in Ec as [Hl%Z.ltb_lt Hs]. unfold Password.decrypt in E. destruct (is_nil _); [done|].
  destruct (base64_decode _) as [data|] eqn:Eb; [|done]. cbn in E. destruct (symmetric_opened _ _ E) as [Hm Hb].
  split; [|by apply lossy_bytes]. unfold Password.is_encrypted. rewrite (proj2 (Z.leb_gt _ _) Hl), Hs, Eb. cbn. by apply Z.leb_le.
Qed.

(** A sealed text is not the text it opens to. *)
Lemma opens_sealed v s : opens_to v s -> is_encrypted v = true /\ v <> s.
Proof.
  intros [Hd (_ & _ & Hs)]. destruct (decrypt_str_or_original v _) as [[plain b] x] eqn:E. cbn in Hd. injection Hd as -> ->.
  destruct (decrypted_spec _ _ _ _ E) as [He _]. split; [done|]. intros ->. congruence.
Qed.

(** Storage that decodes to a hash carries the permanent mark, and is not changed by reading. *)
Lemma decode_starts storage h1 : decode_h1 storage = Some h1 ->
  starts_with PERMANENT_PASSWORD_ENC_VERSION storage = true /\ is_nil storage = false /\
  exists hashed, decrypt_permanent_password_str_or_original base64_decode secretbox_open from_utf8_lossy m storage = (hashed, true, false) /\
    decode_permanent_password_h1_from_hashed_storage base64_decode hashed = Some h1.
Proof.
  unfold decode_permanent_password_h1_from_storage. destruct (starts_with _ _) eqn:Hs; [|done]. intros H.
  split; [done|]. split. { by destruct storage. }
  destruct (decrypt_permanent_password_str_or_original _ _ _ _ _) as [[hashed d] l] eqn:Ed. destruct d; [|done]. cbn in H.
  exists hashed. split; [|done]. f_equal. revert Ed. unfold decrypt_permanent_password_str_or_original.
  destruct (if _ && _ then _ else _); intros E; [by injection E | discriminate E].
Qed.

End OnMachine.
End Facts.
End SealFacts.

(** ** Libraries simple enough to compute with, which satisfy the laws *)

Module SealToy.
Import Password LoginState Seal SealFacts.

Definition byte (x : Z) : Z := x mod 256.
Fixpoint hex (b : bytes) : bytes := match b with [] => [] | x :: b => 65 + byte x / 16 :: 65 + byte x mod 16 :: hex b end.
Fixpoint unhex (s : bytes) : option bytes :=
  match s with
  | [] => Some []
  | a :: b :: s =>
      if (65 <=? a) && (a <=? 80) && (65 <=? b) && (b <=? 80) then l ← unhex s; Some ((a - 65) * 16 + (b - 65) :: l) else None
  | _ => None
  end.
Definition tag (key : bytes) : bytes := resize0 16 (byte <$> key).
Definition toy_seal (d nonce key : bytes) : bytes := tag key ++ d.
Definition toy_open (c nonce key : bytes) : option bytes :=
  if bool_decide (take 16 c = tag key) && forallb (fun x => (0 <=? x) && (x <? 256)) (drop 16 c) then Some (drop 16 c) else None.

#[export] Instance toy : Libraries :=
  mkLibraries (fun b => resize0 32 (byte <$> b)) unhex toy_open (fun b => b) (fun b => b) (fun secret code _ => Some (bool_decide (secret = as_bytes code))).
#[export] Instance toy_sealing : Sealing :=
  mkSealing hex toy_seal (fun n => replicate NONCEBYTES (byte (Z.of_nat n))) (fun n => Z.of_nat n mod 2 ^ 64).

Lemma byte_range x : 0 <= byte x < 256.
Proof. apply Z.mod_pos_bound. lia. Qed.

Lemma resize_bytes n b : bytes_ok (resize0 n (byte <$> b)).
Proof.
  unfold resize0. apply Forall_take, Forall_app. split; [|apply Forall_replicate; lia].
  apply Forall_fmap, Forall_true. intros x. apply byte_range.
Qed.

Lemma tag_length key : length (tag key) = 16%nat.
Proof. apply length_resize0. Qed.

Lemma unhex_hex b : bytes_ok b -> unhex (hex b) = Some b.
Proof.
  induction 1 as [|x b Hx _ IH]; [done|]. cbn [hex unhex]. unfold byte. rewrite (Z.mod_small x 256) by lia.
  pose proof (Z.mod_pos_bound x 16). assert (0 <= x / 16 < 16) by (split; [apply Z.div_pos|apply Z.div_lt_upper_bound]; lia).
  rewrite !(proj2 (Z.leb_le _ _)) by lia. cbn. rewrite IH. cbn. do 2 f_equal. pose proof (Z.div_mod x 16). lia.
Qed.

#[export] Instance toy_laws : SealingLaws.
Proof.
  constructor.
  - exact unhex_hex.
  - intros b. induction b as [|x b IH]; [cbn; lia|]. cbn [hex length base64_encode toy_sealing] in *. lia.
  - intros b. induction b as [|x b IH]; [constructor|]. pose proof (byte_range x). pose proof (Z.mod_pos_bound (byte x) 16).
    assert (0 <= byte x / 16 < 16) by (split; [apply Z.div_pos|apply Z.div_lt_upper_bound]; lia).
    constructor; [lia|]. constructor; [lia|exact IH].
  - intros d nonce key Hd _ _. cbn. unfold toy_open, toy_seal. rewrite take_app_length' by (symmetry; apply tag_length).
    rewrite drop_app_length' by (symmetry; apply tag_length). rewrite bool_decide_eq_true_2 by done.
    assert (forallb (fun x => (0 <=? x) && (x <? 256)) d = true) as ->; [|done]. apply forallb_forall. intros x Hx.
    apply list_elem_of_In in Hx. pose proof (proj1 (Forall_forall _ _) Hd x Hx) as Hr. cbn in Hr. apply andb_true_iff. split; [apply Z.leb_le|apply Z.ltb_lt]; lia.
  - intros c nonce key d. cbn. unfold toy_open. destruct (_ && _) eqn:E; [|done]. intros [= <-]. apply andb_true_iff in E as [E%bool_decide_eq_true _].
    pose proof (f_equal length E) as Hl. rewrite tag_length, length_take in Hl. rewrite length_drop. unfold MACBYTES. lia.
  - intros d nonce key Hd. apply Forall_app. split; [apply resize_bytes|done].
  - intros d nonce key. cbn. unfold toy_seal. rewrite length_app, tag_length. unfold MACBYTES. lia.
  - intros n. apply length_replicate.
  - intros n. apply Forall_replicate, byte_range.
  - intros n. cbn. apply Z.mod_pos_bound. lia.
  - intros b. cbn. apply length_resize0.
  - intros b. apply resize_bytes.
  - done.
  - done.
  - intros c nonce key d. cbn. unfold toy_open. destruct (_ && _) eqn:E; [|done]. intros [= <-]. apply andb_true_iff in E as [_ E].
    apply Forall_forall. intros x Hx%list_elem_of_In. rewrite forallb_forall in E. specialize (E x Hx). bool_to_prop. lia.
Qed.

End SealToy.
