(* ===== verification/LoginStore.v ===== *)
(** The configuration of the controlled side and its permanent password ([Config] of
    [src/libs/hbb_common/src/config.rs], its synchronisation in [src/src/ipc.rs]): what one process
    holds, what is in the file, and the operations between them.  The lock of [CONFIG] is held by
    each operation, so an operation is one definition. *)

From S2P Require Import Prelude LoginPassword LoginState LoginSeal.

Module Store.
Import Password LoginState Seal.

(** ** The data *)

Record Config := mkConfig {
  cfg_id : bytes;
  enc_id : bytes;
  cfg_password : bytes;
  cfg_salt : bytes;
  key_pair : bytes * bytes;
  key_confirmed : bool;
  keys_confirmed : gmap bytes bool
}.
#[export] Instance Config_eq_dec : EqDecision Config.
Proof. solve_decision. Defined.

Definition config_default : Config := mkConfig [] [] [] [] ([], []) false ∅.

Definition set_cfg_id (x : bytes) (c : Config) : Config :=
  mkConfig x c.(enc_id) c.(cfg_password) c.(cfg_salt) c.(key_pair) c.(key_confirmed) c.(keys_confirmed).
Definition set_enc_id (x : bytes) (c : Config) : Config :=
  mkConfig c.(cfg_id) x c.(cfg_password) c.(cfg_salt) c.(key_pair) c.(key_confirmed) c.(keys_confirmed).
Definition set_cfg_password (x : bytes) (c : Config) : Config :=
  mkConfig c.(cfg_id) c.(enc_id) x c.(cfg_salt) c.(key_pair) c.(key_confirmed) c.(keys_confirmed).
Definition set_cfg_salt (x : bytes) (c : Config) : Config :=
  mkConfig c.(cfg_id) c.(enc_id) c.(cfg_password) x c.(key_pair) c.(key_confirmed) c.(keys_confirmed).
Definition set_cfg_key_pair (x : bytes * bytes) (c : Config) : Config :=
  mkConfig c.(cfg_id) c.(enc_id) c.(cfg_password) c.(cfg_salt) x c.(key_confirmed) c.(keys_confirmed).
Definition set_keys (v : bool) (m : gmap bytes bool) (c : Config) : Config :=
  mkConfig c.(cfg_id) c.(enc_id) c.(cfg_password) c.(cfg_salt) c.(key_pair) v m.

(** A process: [CONFIG], the file, [TRUSTED_DEVICES], and the random numbers drawn. *)
Record Proc := mkProc { config : Config; disk : option Config; trusted : list TrustedDevice; draws : nat }.

(** What an operation finds: the machine, the settings that are built in or set by the deployment,
    whether the file can be written, and what [gen_id] answers, in order. *)
Record Host := mkHost {
  h_machine : Machine;
  disable_change_permanent_password : bool;
  hard_password : bytes;
  hard_salt : bytes;
  writable : bool;
  gen_ids : list (option bytes)
}.

Section Store.
Context {L : Libraries} {S : Sealing}.

Section OnHost.
Variable h : Host.

Abbreviation m := h.(h_machine).
Abbreviation decrypt_str_or_original := (decrypt_str_or_original base64_decode secretbox_open from_utf8_lossy m).
Abbreviation decode_h1 := (decode_permanent_password_h1_from_storage base64_decode secretbox_open from_utf8_lossy m).
Abbreviation local_usable := (local_permanent_password_storage_is_usable_for_auth base64_decode secretbox_open from_utf8_lossy m).
Abbreviation preset_usable := (preset_permanent_password_storage_is_usable_for_auth base64_decode).

(** ** Reading and writing the file *)

(** [load_]: a file that is absent or cannot be read is the default. *)
Definition load_ (disk : option Config) : Config := default config_default disk.
Definition store_ (c : Config) (disk : option Config) : option Config := if h.(writable) then Some c else disk.

(** [true] is [Ok]. *)
Definition ensure_permanent_password_hash_salt (c : Config) : bool := negb (is_nil c.(cfg_salt)).

Definition validate_or_decrypt_permanent_password_storage (c : Config) : Config * bool :=
  if is_nil c.(cfg_password) then (c, true)
  else if starts_with PASSWORD_ENC_VERSION c.(cfg_password) then
    let '(plain, decrypted, should_store) := decrypt_str_or_original c.(cfg_password) PASSWORD_ENC_VERSION in
    if decrypted : bool then (set_cfg_password plain c, true) else if negb should_store then (c, false) else (c, true)
  else
    let '(decrypted_storage, decrypted, _) :=
      decrypt_permanent_password_str_or_original base64_decode secretbox_open from_utf8_lossy m c.(cfg_password) in
    if decrypted then
      if negb (ensure_permanent_password_hash_salt c) then (c, false)
      else match decode_permanent_password_h1_from_hashed_storage base64_decode decrypted_storage with
           | Some _ => (c, true)
           | None => (c, false)
           end
    else (c, true).

Definition ensure_permanent_password_salt (c : Config) (n : nat) : Config * nat :=
  if is_nil c.(cfg_salt) then let '(s, n) := get_auto_password DEFAULT_SALT_LEN n in (set_cfg_salt s c, n) else (c, n).

Definition prepare_config_for_store (c : Config) : Config :=
  let '(c, ok) := validate_or_decrypt_permanent_password_storage c in
  if ok then c else set_cfg_salt [] (set_cfg_password [] c).

Definition keep_encrypted_storage_if_plaintext_unchanged (plain stored : bytes) (n : nat) : bytes * nat :=
  let '(stored_plain, encrypted, _) := decrypt_str_or_original stored PASSWORD_ENC_VERSION in
  if encrypted && bool_decide (stored_plain = plain) then (stored, n)
  else encrypt_str_or_original m plain PASSWORD_ENC_VERSION ENCRYPT_MAX_LEN n.

(** What [store] writes. *)
Definition stored_config (c : Config) (disk : option Config) (n : nat) : Config * nat :=
  let c := prepare_config_for_store c in
  let '(c, n) :=
    if negb (is_nil c.(cfg_password)) && match decode_h1 c.(cfg_password) with None => true | Some _ => false end then
      let '(pw, n) := keep_encrypted_storage_if_plaintext_unchanged c.(cfg_password) (load_ disk).(cfg_password) n in
      (set_cfg_password pw c, n)
    else (c, n) in
  let '(stored_id, encrypted, _) := decrypt_str_or_original c.(enc_id) PASSWORD_ENC_VERSION in
  let '(c, n) :=
    if negb encrypted || negb (bool_decide (stored_id = c.(cfg_id))) then
      let '(e, n) := encrypt_str_or_original m c.(cfg_id) PASSWORD_ENC_VERSION ENCRYPT_MAX_LEN n in (set_enc_id e c, n)
    else (c, n) in
  (set_cfg_id [] c, n).

Definition store (c : Config) (disk : option Config) (n : nat) : option Config * nat :=
  let '(w, n) := stored_config c disk n in (store_ w disk, n).

(** The first of three attempts that gives one. *)
Definition new_id : option bytes := head (omap (fun x => x) (take 3 h.(gen_ids))).

Definition load (disk : option Config) (n : nat) : Config * (option Config * nat) :=
  let c := (validate_or_decrypt_permanent_password_storage (load_ disk)).1 in
  let '(id, encrypted, store2) := decrypt_str_or_original c.(enc_id) PASSWORD_ENC_VERSION in
  let '(c, id_valid, to_store) :=
    if encrypted : bool then (set_cfg_id id c, true, store2)
    else if negb (is_nil c.(cfg_id)) && is_nil c.(enc_id) && negb (decrypt_str_or_original c.(cfg_id) PASSWORD_ENC_VERSION).1.2
    then (c, true, true) else (c, false, false) in
  let '(c, to_store) :=
    if id_valid : bool then (c, to_store) else
    match new_id with Some id => (set_cfg_id id c, true) | None => (c, to_store) end in
  (c, if to_store then store c disk n else (disk, n)).

(** ** Operations on the configuration of the process *)

(** [config.store()] after a change. *)
Definition put (c : Config) (p : Proc) : Proc :=
  let '(d, n) := store c p.(disk) p.(draws) in mkProc c d p.(trusted) n.

(** A new process, with the file as it is. *)
Definition restart (p : Proc) : Proc :=
  let '(c, (d, n)) := load p.(disk) p.(draws) in mkProc c d p.(trusted) n.

Definition set_id (id : bytes) (p : Proc) : Proc :=
  if bool_decide (id = p.(config).(cfg_id)) then p else put (set_cfg_id id p.(config)) p.

Definition set_key_confirmed (v : bool) (p : Proc) : Proc :=
  if Bool.eqb p.(config).(key_confirmed) v then p
  else put (set_keys v (if v then p.(config).(keys_confirmed) else ∅) p.(config)) p.

Definition set_host_key_confirmed (host : bytes) (v : bool) (p : Proc) : Proc :=
  if Bool.eqb (bool_decide (p.(config).(keys_confirmed) !! host = Some true)) v then p
  else put (set_keys p.(config).(key_confirmed) (<[host := v]> p.(config).(keys_confirmed)) p.(config)) p.

(** The task that [get_key_pair] starts once it has made a pair. *)
Definition save_key_pair (kp : bytes * bytes) (p : Proc) : Proc := put (set_cfg_key_pair kp p.(config)) p.

(** [Config::set], with what another process sent. *)
Definition set_config (c : Config) (p : Proc) : bool * Proc :=
  if bool_decide (p.(config) = c) then (false, p) else (true, put c p).

(** ** The permanent password *)

Definition clear_trusted_devices (p : Proc) : Proc := mkProc p.(config) p.(disk) [] p.(draws).

Definition compute_permanent_password_storage_for_update (c : Config) (password : bytes) (n : nat) : option bytes * Config * nat :=
  let '(c, n) := ensure_permanent_password_salt c n in
  let '(s, n) := encode_permanent_password_encrypted_storage_from_h1 m (compute_permanent_password_h1 password c.(cfg_salt)) n in
  (s, c, n).

Definition set_permanent_password (password : bytes) (p : Proc) : bool * Proc :=
  if h.(disable_change_permanent_password) then (false, p)
  else if preset_permanent_password_storage_matches_plain h.(hard_password) h.(hard_salt) password && is_nil p.(config).(cfg_password)
  then (true, p)
  else
    let '(stored, c, n) :=
      if is_nil password then (Some [], p.(config), p.(draws))
      else compute_permanent_password_storage_for_update p.(config) password p.(draws) in
    let p := mkProc c p.(disk) p.(trusted) n in
    match stored with
    | None => (false, p)
    | Some stored =>
        if bool_decide (stored = c.(cfg_password)) then (true, p)
        else (true, clear_trusted_devices (put (set_cfg_password stored c) p))
    end.

Definition get_local_permanent_password_storage_and_salt (p : Proc) : bytes * bytes := (p.(config).(cfg_password), p.(config).(cfg_salt)).

Definition apply_permanent_password_storage_for_sync (c : Config) (storage salt : bytes) : Config * result bool string :=
  if is_nil storage then
    if is_nil c.(cfg_password) && (is_nil salt || bool_decide (c.(cfg_salt) = salt)) then (c, Ok false) else
    let c := set_cfg_password [] c in
    (if is_nil salt then c else set_cfg_salt salt c, Ok true)
  else if is_nil salt then (c, Err "Refusing to persist permanent password storage without salt")
  else match decode_h1 storage with
  | None => (c, Err "Invalid permanent password storage sync payload")
  | Some _ =>
      if bool_decide (c.(cfg_password) = storage) && bool_decide (c.(cfg_salt) = salt) then (c, Ok false)
      else (set_cfg_salt salt (set_cfg_password storage c), Ok true)
  end.

Definition set_permanent_password_storage_for_sync (storage salt : bytes) (p : Proc) : result bool string * Proc :=
  match apply_permanent_password_storage_for_sync p.(config) storage salt with
  | (c, Ok true) => (Ok true, clear_trusted_devices (put c p))
  | (_, r) => (r, p)
  end.

(** What the service answers to another process of the machine, and what that process does. *)
Definition storage_and_salt_payload (p : Proc) : bytes :=
  let '(storage, salt) := get_local_permanent_password_storage_and_salt p in storage ++ 10 :: salt.

Fixpoint split_once (sep : Z) (s : bytes) : option (bytes * bytes) :=
  match s with
  | [] => None
  | c :: s => if c =? sep then Some ([], s) else '(a, b) ← split_once sep s; Some (c :: a, b)
  end.

Definition apply_permanent_password_storage_and_salt_payload (payload : option bytes) (p : Proc) : result unit string * Proc :=
  match payload with
  | None => (Ok tt, p)
  | Some payload =>
      match split_once 10 payload with
      | None => (Err "Invalid permanent-password-storage-and-salt payload", p)
      | Some (storage, salt) =>
          let '(r, p) := set_permanent_password_storage_for_sync storage salt p in
          (match r with Ok _ => Ok tt | Err e => Err e end, p)
      end
  end.

(** ** The salt *)

Definition set_salt (salt : bytes) (p : Proc) : Proc :=
  let c := p.(config) in
  if bool_decide (salt = c.(cfg_salt)) then p
  else if negb (password_is_empty_or_not_hashed m c.(cfg_password)) && negb (is_nil c.(cfg_salt)) then p
  else put (set_cfg_salt salt c) p.

Definition get_salt (p : Proc) : bytes * Proc :=
  if is_nil p.(config).(cfg_salt) then
    let '(salt, n) := get_auto_password DEFAULT_SALT_LEN p.(draws) in
    (salt, set_salt salt (mkProc p.(config) p.(disk) p.(trusted) n))
  else (p.(config).(cfg_salt), p).

(** ** Questions *)

Definition has_usable_preset_password : bool := preset_usable h.(hard_password) h.(hard_salt).

Definition has_permanent_password (p : Proc) : bool :=
  let '(local_storage, local_salt) := get_local_permanent_password_storage_and_salt p in
  if negb (is_nil local_storage) then local_usable local_storage local_salt else has_usable_preset_password.

Definition is_using_preset_password (p : Proc) : bool :=
  is_nil (get_local_permanent_password_storage_and_salt p).1 && has_usable_preset_password.

Definition has_local_permanent_password (p : Proc) : bool :=
  let '(local_storage, local_salt) := get_local_permanent_password_storage_and_salt p in local_usable local_storage local_salt.

Definition get_effective_permanent_password_salt (p : Proc) : bytes * Proc :=
  let '(local_storage, local_salt) := get_local_permanent_password_storage_and_salt p in
  if negb (is_nil local_storage) then
    if local_usable local_storage local_salt then get_salt p else ([], p)
  else if negb (is_nil h.(hard_salt)) then
    (if preset_usable h.(hard_password) h.(hard_salt) then h.(hard_salt) else [], p)
  else get_salt p.

End OnHost.

(** ** Runs *)

Inductive Op :=
| SetPermanentPassword (password : bytes)
| SyncPassword (payload : option bytes)
| SetConfig (c : Config)
| SetSalt (salt : bytes)
| GetSalt
| GetEffectiveSalt
| SetId (id : bytes)
| SetKeyConfirmed (v : bool)
| SetHostKeyConfirmed (host : bytes) (v : bool)
| SaveKeyPair (kp : bytes * bytes)
| Restart.

Definition exec (h : Host) (op : Op) (p : Proc) : Proc :=
  match op with
  | SetPermanentPassword password => (set_permanent_password h password p).2
  | SyncPassword payload => (apply_permanent_password_storage_and_salt_payload h payload p).2
  | SetConfig c => (set_config h c p).2
  | SetSalt salt => set_salt h salt p
  | GetSalt => (get_salt h p).2
  | GetEffectiveSalt => (get_effective_permanent_password_salt h p).2
  | SetId id => set_id h id p
  | SetKeyConfirmed v => set_key_confirmed h v p
  | SetHostKeyConfirmed host v => set_host_key_confirmed h host v p
  | SaveKeyPair kp => save_key_pair h kp p
  | Restart => restart h p
  end.

Definition run : list (Host * Op) -> Proc -> Proc := fun steps p => foldl (fun p '(h, op) => exec h op p) p steps.

(** Operations whose purpose is not to change the password. *)
Definition keeps_password (op : Op) : bool :=
  match op with SetPermanentPassword _ | SyncPassword _ | SetConfig _ => false | _ => true end.

End Store.
End Store.
