(* ===== verification/LoginPermanent.v ===== *)
(** The permanent password over a process's life: once set, it is what logs in, through every other
    operation and restart; and no password or identity is left in the file in plain text. *)

From S2P Require Import Prelude LoginPassword LoginState LoginFlow LoginSeal LoginStore.

Module Permanent.
Import Password LoginState LoginFlow Seal SealFacts Store.

Section Permanent.
Context {L : Libraries} {S : Sealing} {W : SealingLaws}.

Abbreviation decode_h1 m := (decode_permanent_password_h1_from_storage base64_decode secretbox_open from_utf8_lossy m).
Abbreviation usable m := (local_permanent_password_storage_is_usable_for_auth base64_decode secretbox_open from_utf8_lossy m).

(** ** A process that holds a hashed password *)

Record holds (m : Machine) (storage salt h1 : bytes) (c : Config) : Prop := {
  holds_storage : c.(cfg_password) = storage;
  holds_salt : c.(cfg_salt) = salt;
  holds_decodes : decode_h1 m storage = Some h1;
  holds_salted : is_nil salt = false
}.

(** In memory and in the file. *)
Definition kept (m : Machine) (storage salt h1 : bytes) (p : Proc) : Prop :=
  holds m storage salt h1 p.(config) /\ exists d, p.(disk) = Some d /\ holds m storage salt h1 d.

Definition at_machine (m : Machine) (s : Host * Op) : Prop := s.1.(h_machine) = m /\ s.1.(writable) = true.

Section OnHost.
Variable h : Host.
Abbreviation m := h.(h_machine).

Lemma holds_valid storage salt h1 c : holds m storage salt h1 c -> validate_or_decrypt_permanent_password_storage h c = (c, true).
Proof.
  intros [Hp Hs Hd Hn]. destruct (decode_starts _ _ _ Hd) as (H1 & Hnil & hashed & Hdec & Hh).
  unfold validate_or_decrypt_permanent_password_storage, ensure_permanent_password_hash_salt. rewrite Hp, Hs, Hnil, Hn, Hdec.
  destruct (starts_with PASSWORD_ENC_VERSION storage) eqn:H0; [by destruct (one_version storage)|]. cbn. by rewrite Hh.
Qed.

Lemma holds_prepare storage salt h1 c : holds m storage salt h1 c -> prepare_config_for_store h c = c.
Proof. intros H. unfold prepare_config_for_store. by rewrite (holds_valid _ _ _ _ H). Qed.

Lemma holds_ids storage salt h1 c i e : holds m storage salt h1 c -> holds m storage salt h1 (set_cfg_id i (set_enc_id e c)).
Proof. by intros []. Qed.
Lemma holds_id storage salt h1 c i : holds m storage salt h1 c -> holds m storage salt h1 (set_cfg_id i c).
Proof. by intros []. Qed.

(** A write keeps the password and the salt. *)
Lemma stored_holds storage salt h1 c d n : holds m storage salt h1 c -> holds m storage salt h1 (stored_config h c d n).1.
Proof.
  intros H. unfold stored_config. rewrite (holds_prepare _ _ _ _ H), (holds_storage _ _ _ _ _ H), (holds_decodes _ _ _ _ _ H), andb_false_r.
  destruct (decrypt_str_or_original _ _ _ _ _ _) as [[i e] x]. destruct (_ || _).
  - destruct (encrypt_str_or_original _ _ _ _ _) as [e' n']. cbn. by apply holds_ids.
  - cbn. by apply holds_id.
Qed.

Lemma store_holds storage salt h1 c d n : h.(writable) = true -> holds m storage salt h1 c ->
  exists w, (store h c d n).1 = Some w /\ holds m storage salt h1 w.
Proof.
  intros Hw H. pose proof (stored_holds storage salt h1 c d n H) as H1. unfold store, store_. rewrite Hw.
  destruct (stored_config h c d n) as [w n']. by exists w.
Qed.

Lemma put_kept storage salt h1 c p : h.(writable) = true -> holds m storage salt h1 c -> kept m storage salt h1 (put h c p).
Proof.
  intros Hw H. destruct (store_holds storage salt h1 c p.(disk) p.(draws) Hw H) as (w & Hs & Hh).
  unfold put. destruct (store h c _ _) as [d n]. cbn in Hs. subst d. split; [done|]. by exists w.
Qed.

Lemma restart_kept storage salt h1 p : h.(writable) = true -> kept m storage salt h1 p -> kept m storage salt h1 (restart h p).
Proof.
  intros Hw (_ & d & Hd & H). unfold restart, load. rewrite Hd. change (load_ (Some d)) with d. rewrite (holds_valid _ _ _ _ H). cbn [fst].
  destruct (decrypt_str_or_original _ _ _ _ (enc_id d) _) as [[i e] x].
  assert (Hany : forall c b, holds m storage salt h1 c ->
    kept m storage salt h1 (let '(c0, (d0, n)) := (c, if b : bool then store h c (Some d) (draws p) else (Some d, draws p)) in mkProc c0 d0 (trusted p) n)).
  { intros c b Hc. destruct b.
    - destruct (store_holds storage salt h1 c (Some d) p.(draws) Hw Hc) as (w & Hs & Hh). destruct (store h c _ _) as [d' n'].
      cbn in Hs. subst d'. split; [done|]. by exists w.
    - split; [done|]. by exists d. }
  destruct e.
  - apply (Hany (set_cfg_id i d) x). by apply holds_id.
  - destruct (_ && _); cbn -[store].
    + by apply (Hany d true).
    + destruct (new_id h) as [i'|]; [apply (Hany (set_cfg_id i' d) true); by apply holds_id | by apply (Hany d false)].
Qed.

Lemma set_salt_kept storage salt h1 s p : kept m storage salt h1 p -> set_salt h s p = p.
Proof.
  intros [[Hp Hs Hd Hn] _]. unfold set_salt. rewrite Hp, Hs, Hn. destruct (bool_decide _); [done|].
  destruct (decode_starts _ _ _ Hd) as (_ & Hnil & _). unfold password_is_empty_or_not_hashed. by rewrite Hnil, Hd.
Qed.

Lemma get_salt_kept storage salt h1 p : kept m storage salt h1 p -> get_salt h p = (salt, p).
Proof. intros [[Hp Hs Hd Hn] _]. unfold get_salt. by rewrite Hs, Hn. Qed.

Lemma usable_kept storage salt h1 p : kept m storage salt h1 p -> usable m p.(config).(cfg_password) p.(config).(cfg_salt) = true /\ is_nil p.(config).(cfg_password) = false.
Proof.
  intros [[Hp Hs Hd Hn] _]. destruct (decode_starts _ _ _ Hd) as (_ & Hnil & _).
  unfold local_permanent_password_storage_is_usable_for_auth. by rewrite Hp, Hs, Hnil, Hd, Hn.
Qed.

Lemma effective_salt_kept storage salt h1 p : kept m storage salt h1 p -> get_effective_permanent_password_salt h p = (salt, p).
Proof.
  intros H. unfold get_effective_permanent_password_salt, get_local_permanent_password_storage_and_salt.
  destruct (usable_kept _ _ _ _ H) as [Hu Hn]. rewrite Hn, Hu. cbn. by apply (get_salt_kept storage _ h1).
Qed.

Lemma exec_kept storage salt h1 op p : h.(writable) = true -> keeps_password op = true ->
  kept m storage salt h1 p -> kept m storage salt h1 (exec h op p).
Proof.
  intros Hw Hk H. assert (Hc := proj1 H). destruct op; try discriminate Hk; cbn [exec].
  - by rewrite (set_salt_kept _ _ _ _ _ H).
  - by rewrite (get_salt_kept _ _ _ _ H).
  - by rewrite (effective_salt_kept _ _ _ _ H).
  - unfold set_id. destruct (bool_decide _); [done|]. by apply put_kept; [|apply holds_id].
  - unfold set_key_confirmed. destruct (Bool.eqb _ _); [done|]. apply put_kept; [done|]. by destruct Hc.
  - unfold set_host_key_confirmed. destruct (Bool.eqb _ _); [done|]. apply put_kept; [done|]. by destruct Hc.
  - apply put_kept; [done|]. by destruct Hc.
  - by apply restart_kept.
Qed.

Lemma ensure_salt_password c n : (ensure_permanent_password_salt c n).1.(cfg_password) = c.(cfg_password).
Proof. unfold ensure_permanent_password_salt. by destruct (is_nil _). Qed.

(** Setting a password. *)
Lemma set_permanent_password_kept pw p : h.(writable) = true -> is_nil pw = false ->
  let '(ok, p1) := set_permanent_password h pw p in
  p1.(config).(cfg_password) <> p.(config).(cfg_password) ->
  ok = true /\ p1.(trusted) = [] /\ ascii p1.(config).(cfg_password) /\
  kept m p1.(config).(cfg_password) p1.(config).(cfg_salt) (sha256 (pw ++ p1.(config).(cfg_salt))) p1.
Proof.
  intros Hw Hpw. unfold set_permanent_password. destruct (disable_change_permanent_password h); [done|]. destruct (_ && _); [done|]. rewrite Hpw.
  unfold compute_permanent_password_storage_for_update.
  assert (Hsalt : is_nil (ensure_permanent_password_salt p.(config) p.(draws)).1.(cfg_salt) = false).
  { unfold ensure_permanent_password_salt. destruct (is_nil (cfg_salt (config p))) eqn:E; [apply (salt_nonempty p.(draws))|done]. }
  destruct (ensure_permanent_password_salt _ _) as [c n] eqn:Ec. cbn in Hsalt.
  assert (Hsame : c.(cfg_password) = p.(config).(cfg_password)).
  { pose proof (ensure_salt_password p.(config) p.(draws)) as E. by rewrite Ec in E. }
  assert (Hl : zlen (sha256 (pw ++ cfg_salt c)) = PERMANENT_PASSWORD_H1_LEN) by (by rewrite sha256_length).
  destruct (permanent_roundtrip m _ n (sha256_bytes _) Hl) as (st & He & Hn & Hs & Hd).
  unfold compute_permanent_password_h1. destruct (encode_permanent_password_encrypted_storage_from_h1 _ _ _) as [o n']. cbn in He. subst o.
  destruct (bool_decide _); [cbn; by rewrite Hsame|]. intros _. split; [done|]. split; [done|].
  assert (Hh : holds m st c.(cfg_salt) (sha256 (pw ++ c.(cfg_salt))) (set_cfg_password st c)) by done.
  destruct (put_kept _ _ _ (set_cfg_password st c) (mkProc c p.(disk) p.(trusted) n') Hw Hh) as [H1 H2].
  unfold put in *. destruct (store h _ _ _) as [d n'']. split; [done|]. by split.
Qed.

End OnHost.

Lemma run_kept m storage salt h1 steps p : Forall (at_machine m) steps -> forallb (fun s => keeps_password s.2) steps = true ->
  kept m storage salt h1 p -> kept m storage salt h1 (run steps p).
Proof.
  revert p. induction steps as [|[h op] steps IH]; intros p Hm Hk H; [done|]. apply Forall_cons in Hm as [[<- Hw] Hm].
  cbn in Hk. apply andb_true_iff in Hk as [Hk1 Hk]. change (run ((h, op) :: steps) p) with (run steps (exec h op p)).
  apply IH; [done|done|]. by apply exec_kept.
Qed.

(** ** Another process of the machine *)

Lemma split_once_app sep a b : Forall (fun c => c <> sep) a -> split_once sep (a ++ sep :: b) = Some (a, b).
Proof.
  induction 1 as [|c a Hc _ IH]; cbn; [by rewrite Z.eqb_refl|]. rewrite (proj2 (Z.eqb_neq _ _) Hc). by rewrite IH.
Qed.

Lemma sync_kept m storage salt h1 h p q : at_machine m (h, Restart) -> kept m storage salt h1 p -> ascii storage ->
  let q' := (apply_permanent_password_storage_and_salt_payload h (Some (storage_and_salt_payload p)) q).2 in
  holds m storage salt h1 q'.(config).
Proof.
  intros [Hm _] [[Hp Hs Hd Hn] _] Ha. unfold apply_permanent_password_storage_and_salt_payload, storage_and_salt_payload. cbn in Hm. subst m.
  cbn [get_local_permanent_password_storage_and_salt]. rewrite Hp, Hs. rewrite split_once_app by (eapply Forall_impl; [exact Ha|]; cbn; lia).
  unfold set_permanent_password_storage_for_sync, apply_permanent_password_storage_for_sync.
  destruct (decode_starts _ _ _ Hd) as (_ & Hnil & _). rewrite Hnil, Hn, Hd. destruct (_ && _) eqn:Eq.
  - apply andb_true_iff in Eq as [E1%bool_decide_eq_true E2%bool_decide_eq_true]. done.
  - unfold put. by destruct (store h _ _ _) as [d n].
Qed.

(** ** Logging in *)

(** What a connection reads of the process's configuration. *)
Definition reads (m : Machine) (c : Config) (e : Env) : Prop :=
  e.(machine) = m /\ e.(local_storage) = c.(cfg_password) /\ e.(local_salt) = c.(cfg_salt).

Lemma holds_validates m storage salt h1 c e s : holds m storage salt h1 c -> reads m c e ->
  validate_permanent e s = true <-> s.(conn).(lr).(password) = sha256 (h1 ++ s.(conn).(hash).(challenge)).
Proof.
  intros [Hp Hs Hd Hn] (He & Hl & Hsa). unfold validate_permanent. rewrite He, Hl, Hsa, Hp, Hs.
  destruct (decode_starts _ _ _ Hd) as (_ & Hnil & _). unfold local_permanent_password_storage_is_usable_for_auth, validate_password_storage.
  rewrite Hnil, Hd, Hn. cbn [negb andb]. unfold verify_h1. rewrite PasswordFacts.constant_time_eq_spec. by split.
Qed.

(** C6: a permanent password that was set is the one that logs in.  Setting a password succeeds,
    and forgets the trusted devices; from then on, through any further operations on the
    configuration (other than ones that set or replace the password) and any restarts, the process
    has a usable permanent password under the salt it announces, and so has another process of the
    machine that synchronises with it; and in either a login response is accepted exactly if it is
    the one computed from that password, the salt and the challenge. *)
Theorem permanent_password_works (h : Host) (pw : bytes) (p : Proc) (steps : list (Host * Op)) :
  h.(writable) = true -> pw <> [] ->
  let '(ok, p1) := set_permanent_password h pw p in
  p1.(config).(cfg_password) <> p.(config).(cfg_password) ->
  Forall (at_machine h.(h_machine)) steps -> forallb (fun s => keeps_password s.2) steps = true ->
  let p2 := run steps p1 in
  ok = true /\ p1.(trusted) = [] /\ has_permanent_password h p2 = true /\ is_using_preset_password h p2 = false /\
  exists salt, salt <> [] /\ get_effective_permanent_password_salt h p2 = (salt, p2) /\
  forall c, c = p2.(config) \/ (exists h' q, at_machine h.(h_machine) (h', Restart) /\
      c = (apply_permanent_password_storage_and_salt_payload h' (Some (storage_and_salt_payload p2)) q).2.(config)) ->
  forall e s, reads h.(h_machine) c e ->
    validate_permanent e s = true <-> s.(conn).(lr).(password) = sha256 (sha256 (pw ++ salt) ++ s.(conn).(hash).(challenge)).
Proof.
  intros Hw Hpw. pose proof (set_permanent_password_kept h pw p Hw) as H. destruct (set_permanent_password h pw p) as [ok p1].
  intros Hne Hm Hk. destruct H as (Hok & Ht & Ha & H); [by destruct pw|done|].
  pose proof (run_kept _ _ _ _ steps p1 Hm Hk H) as H2. set (p2 := run steps p1) in *. clearbody p2.
  split; [done|]. split; [done|]. destruct (usable_kept h _ _ _ _ H2) as [Hu Hnil].
  split. { unfold has_permanent_password. cbn [get_local_permanent_password_storage_and_salt]. by rewrite Hnil, Hu. }
  split. { unfold is_using_preset_password. cbn [get_local_permanent_password_storage_and_salt fst]. by rewrite Hnil. }
  exists p1.(config).(cfg_salt). split. { pose proof (holds_salted _ _ _ _ _ (proj1 H)). by destruct (cfg_salt _). }
  split; [by eapply effective_salt_kept|]. intros c Hc e s He. apply (holds_validates h.(h_machine) (cfg_password (config p1)) (cfg_salt (config p1)) _ c); [|done].
  destruct Hc as [-> | (h' & q & Hh' & ->)]; [exact (proj1 H2)|]. by eapply sync_kept.
Qed.

End Permanent.

(** A password, an identity, a restart and an attempt at the salt. *)
Definition toy_host : Host := mkHost (mkMachine [1; 2; 3] None) false [] [] true [Some [49]].
Definition toy_proc : Proc := mkProc config_default None [] 0.
Definition toy_password : bytes := Eval vm_compute in as_bytes "secret".
Definition toy_steps : list (Host * Op) :=
  [(toy_host, SetId [50]); (toy_host, Restart); (toy_host, SetSalt [7]); (toy_host, SetKeyConfirmed true)].
Definition toy_env (c : Config) : Env :=
  mkEnv 0 0 [] false toy_host.(h_machine) (fun _ => "") (fun _ => "") c.(cfg_password) c.(cfg_salt) [] [] "me" (fun _ => false) false []
    false false false (fun _ => true) (fun _ _ => (None, None)) true (fun _ => None).
Definition toy_login (response : bytes) : LoginRequest := mkLogin "" response "" "" "" "" 0 [] "" "" None false None.
Definition toy_sys (salt response : bytes) : Sys :=
  mkSys (set_lr (toy_login response) (conn_new 1 (LoginThrottle.Throttle.V4 7) (mkHash salt [5]) None None))
    (mkShared LoginLockout.Lockout.failure_state_default ∅ ∅ ∅ ∅ (mkTemporary [] [] 0) ∅ [] []) [].

Lemma permanent_password_works_witness :
  let p1 := (set_permanent_password (L := SealToy.toy) (S := SealToy.toy_sealing) toy_host toy_password toy_proc).2 in
  let p2 := run (L := SealToy.toy) (S := SealToy.toy_sealing) toy_steps p1 in
  exists salt, salt <> [] /\ get_effective_permanent_password_salt (L := SealToy.toy) (S := SealToy.toy_sealing) toy_host p2 = (salt, p2) /\
    validate_permanent (L := SealToy.toy) (toy_env p2.(config))
      (toy_sys salt (sha256 (Libraries := SealToy.toy) (sha256 (Libraries := SealToy.toy) (toy_password ++ salt) ++ [5]))) = true.
Proof.
  pose proof (permanent_password_works (W := SealToy.toy_laws) toy_host toy_password toy_proc toy_steps eq_refl ltac:(discriminate)) as H.
  destruct (set_permanent_password (L := SealToy.toy) (S := SealToy.toy_sealing) toy_host toy_password toy_proc) as [ok p1] eqn:E.
  destruct H as (_ & _ & _ & _ & salt & Hn & Hs & Hv).
  - apply (f_equal (fun r => r.2)) in E. cbn [snd] in E. subst p1. vm_compute. discriminate.
  - repeat constructor.
  - reflexivity.
  - exists salt. split; [exact Hn|]. split; [exact Hs|]. apply (Hv _ (or_introl eq_refl)); [by split|]. reflexivity.
Defined.

End Permanent.
