(* ===== verification/LoginAtRest.v ===== *)
(** What the configuration file holds: never a password or an identity in plain text. *)

From S2P Require Import Prelude LoginPassword LoginState LoginSeal LoginStore LoginPermanent.

Module AtRest.
Import Password LoginState Seal SealFacts Store Permanent.

Section AtRest.
Context {L : Libraries} {S : Sealing} {W : SealingLaws}.

Abbreviation decode_h1 m := (decode_permanent_password_h1_from_storage base64_decode secretbox_open from_utf8_lossy m).
Abbreviation clear_text := (SealFacts.clear_text).

(** The identity is written sealed only, and the password is absent, sealed, or the sealed hash of
    a password: what is there opens with this machine's key, and is not the text it opens to. *)
Record sealed_file (m : Machine) (d : Config) : Prop := {
  sealed_id : d.(cfg_id) = [];
  sealed_enc_id : d.(enc_id) = [] \/ exists id, opens_to m d.(enc_id) id;
  sealed_password : d.(cfg_password) = [] \/ (exists pw, opens_to m d.(cfg_password) pw) \/ is_Some (decode_h1 m d.(cfg_password))
}.

(** Texts are valid, and none is mistaken for a sealed one ([sealed_look_alike] shows what happens
    to one that is). *)
Definition password_ok (m : Machine) (v : bytes) : Prop := clear_text v \/ (exists pw, opens_to m v pw) \/ is_Some (decode_h1 m v).
Definition config_ok (m : Machine) (c : Config) : Prop :=
  clear_text c.(cfg_id) /\ password_ok m c.(cfg_password) /\
  forall id x, decrypt_str_or_original base64_decode secretbox_open from_utf8_lossy m c.(enc_id) PASSWORD_ENC_VERSION = (id, true, x) -> clear_text id.
Definition proc_ok (m : Machine) (p : Proc) : Prop := config_ok m p.(config) /\ config_ok m (load_ p.(disk)).

Definition op_ok (m : Machine) (op : Op) : Prop :=
  match op with SetId id => clear_text id | SetConfig c => config_ok m c | _ => True end.
Definition step_ok (m : Machine) (s : Host * Op) : Prop :=
  s.1.(h_machine) = m /\ op_ok m s.2 /\ Forall (fun o => forall id, o = Some id -> clear_text id) s.1.(gen_ids).

Section OnHost.
Variable h : Host.
Abbreviation m := h.(h_machine).
Abbreviation config_ok := (config_ok m).
Abbreviation proc_ok := (proc_ok m).
Abbreviation password_ok := (password_ok m).

Lemma password_nil : password_ok [].
Proof. left. apply clear_nil. Qed.

Lemma with_password c pw : config_ok c -> password_ok pw -> config_ok (set_cfg_password pw c).
Proof. intros (H1 & _ & H3) Hp. by split_and!. Qed.
Lemma with_id c id : config_ok c -> clear_text id -> config_ok (set_cfg_id id c).
Proof. intros (_ & H2 & H3) Hp. by split_and!. Qed.
#[local] Hint Resolve password_nil with_password with_id : core.

(** What a sealed password starts with, and what of the two marks a text can bear. *)
Lemma opens_starts v s : opens_to m v s -> starts_with PASSWORD_ENC_VERSION v = true.
Proof.
  intros H. destruct (opens_sealed m v s H) as [He _]. unfold Password.is_encrypted in He. destruct (_ <=? _); [done|]. cbn in He.
  by destruct (starts_with PASSWORD_ENC_VERSION v).
Qed.

Lemma validate_ok c : config_ok c -> let r := validate_or_decrypt_permanent_password_storage h c in
  config_ok r.1 /\ r.1.(cfg_id) = c.(cfg_id) /\ r.1.(enc_id) = c.(enc_id) /\
  (r.2 = true -> clear_text r.1.(cfg_password) \/ is_Some (decode_h1 m r.1.(cfg_password))).
Proof.
  intros Hc. pose proof Hc as (H1 & H2 & H3). unfold validate_or_decrypt_permanent_password_storage. cbv zeta.
  destruct (is_nil _) eqn:En. { split_and!; try done. intros _. left. replace (cfg_password (c, true).1) with (@nil Z) by (cbn; by destruct (cfg_password c)). apply clear_nil. }
  destruct (starts_with PASSWORD_ENC_VERSION _) eqn:Es.
  - destruct (decrypt_str_or_original _ _ _ _ (cfg_password c) _) as [[plain b] x] eqn:E.
    assert (Hp : clear_text c.(cfg_password) \/ opens_to m c.(cfg_password) plain /\ b = true).
    { destruct H2 as [H2|[(pw & H2)|[h1 H2]]]; [by left|right|].
      - pose proof (proj1 H2) as Hd. rewrite E in Hd. cbn in Hd. injection Hd as -> ->. done.
      - exfalso. by destruct (decode_starts m _ _ H2) as (Hs & _), (one_version _ Es Hs). }
    destruct b.
    + assert (Hcl : clear_text plain).
      { destruct Hp as [(_ & _ & Hp)|[[_ Hp] _]]; [|done]. by destruct (decrypted_spec _ _ _ _ _ E) as [He _]; congruence. }
      split_and!; try done; [by apply with_password; [|left]|by left].
    + destruct Hp as [Hp|[_ ?]]; [|done]. destruct (negb x); by split_and!; try (left; done).
  - assert (Hp : clear_text c.(cfg_password) \/ is_Some (decode_h1 m c.(cfg_password))).
    { destruct H2 as [H2|[(pw & H2)|H2]]; [by left| |by right]. apply opens_starts in H2. congruence. }
    destruct (decrypt_permanent_password_str_or_original _ _ _ _ _) as [[a b] x]. destruct b; [|by split_and!].
    destruct (negb _); [by split_and!|]. by destruct (decode_permanent_password_h1_from_hashed_storage _ _); split_and!.
Qed.

Lemma prepare_ok c : config_ok c -> let c' := prepare_config_for_store h c in
  config_ok c' /\ (clear_text c'.(cfg_password) \/ is_Some (decode_h1 m c'.(cfg_password))).
Proof.
  intros Hc. pose proof (validate_ok c Hc) as (Hv & _ & _ & Hp). unfold prepare_config_for_store. cbv zeta in *.
  destruct (validate_or_decrypt_permanent_password_storage h c) as [c' ok]. cbn in *. destruct ok; [by split; [|apply Hp]|].
  split; [|left; apply clear_nil]. by apply (with_password c').
Qed.

(** Sealing a password anew, or keeping what is sealed already. *)
Lemma keep_spec plain stored n : clear_text plain ->
  let out := (keep_encrypted_storage_if_plaintext_unchanged h plain stored n).1 in out = [] \/ opens_to m out plain.
Proof.
  intros Hp. unfold keep_encrypted_storage_if_plaintext_unchanged.
  destruct (decrypt_str_or_original _ _ _ _ stored _) as [[sp b] x] eqn:E. destruct (b && _) eqn:Eb; [|by apply encrypt_str_at_rest].
  apply andb_true_iff in Eb as [-> ->%bool_decide_eq_true]. right. split; [|done]. cbn. by rewrite E.
Qed.

(** Every write is sealed, whatever the process held. *)
Lemma stored_sealed c d n : config_ok c ->
  sealed_file m (stored_config h c d n).1 /\ config_ok (stored_config h c d n).1.
Proof.
  intros Hc. unfold stored_config. destruct (prepare_ok c Hc) as [Hc1 Hpw]. set (c1 := prepare_config_for_store h c) in *. clearbody c1.
  set (r := if negb (is_nil _) && _ then _ else _).
  assert (Hr : config_ok r.1 /\
    (r.1.(cfg_password) = [] \/ (exists pw, opens_to m r.1.(cfg_password) pw) \/ is_Some (decode_h1 m r.1.(cfg_password)))).
  { unfold r. destruct (decode_h1 m (cfg_password c1)) as [h1|] eqn:E; [|destruct (is_nil (cfg_password c1)) eqn:En].
    - rewrite andb_false_r. split; [done|]. right. right. by exists h1.
    - split; [done|]. left. cbn. by destruct (cfg_password c1).
    - cbn [negb andb]. destruct Hpw as [Hpw|[? ?]]; [|done]. pose proof (keep_spec (cfg_password c1) (cfg_password (load_ d)) n Hpw) as Ho.
      destruct (keep_encrypted_storage_if_plaintext_unchanged _ _ _ _) as [pw n']. cbn in *. split.
      + apply with_password; [done|]. destruct Ho as [-> |Ho]; [done|]. right. left. by eexists.
      + destruct Ho as [-> |Ho]; [by left|]. right. left. by eexists. }
  destruct r as [c2 n2]. cbn in Hr. destruct Hr as [(Hid & Hpw2 & Henc) Ho].
  destruct (decrypt_str_or_original _ _ _ _ (enc_id c2) _) as [[si b] x] eqn:E.
  destruct (negb b || _) eqn:Eb.
  - pose proof (encrypt_str_at_rest m c2.(cfg_id) ENCRYPT_MAX_LEN n2 Hid) as Hr.
    destruct (encrypt_str_or_original _ _ _ _ _) as [e n3]. cbn in *. split.
    + split; [done|cbn|done]. destruct Hr as [?|Hr]; [by left|right; by eexists].
    + split_and!; [apply clear_nil|done|]. cbn. intros id y Hd. destruct Hr as [-> |[Hr Hcl]]; [done|]. rewrite Hd in Hr. by injection Hr as ->.
  - apply orb_false_iff in Eb as [Eb _]. destruct b; [|done]. pose proof (Henc _ _ eq_refl) as Hcl. cbn. split.
    + split; [done|cbn|done]. right. exists si. split; [by rewrite E|done].
    + split_and!; [apply clear_nil|done|]. cbn. intros id y Hd. rewrite E in Hd. by eapply Henc.
Qed.

Lemma put_sealed c p : config_ok c -> proc_ok p ->
  proc_ok (put h c p) /\ ((put h c p).(disk) = p.(disk) \/ exists d, (put h c p).(disk) = Some d /\ sealed_file m d).
Proof.
  intros Hc [_ Hd]. unfold put, store, store_. destruct (stored_sealed c p.(disk) p.(draws) Hc) as [Hs Hok].
  destruct (stored_config h c _ _) as [w n]. cbn in *. destruct (writable h); (split; [by split|]); [right; by exists w | by left].
Qed.

(** How a step leaves the file: as it was, or sealed. *)
Definition file_after (p p' : Proc) : Prop :=
  proc_ok p' /\ (p'.(disk) = p.(disk) \/ exists d, p'.(disk) = Some d /\ sealed_file m d).

Lemma same_file p c t n : config_ok c -> proc_ok p -> file_after p (mkProc c p.(disk) t n).
Proof. intros Hc [_ Hd]. split; [by split|by left]. Qed.

Lemma file_refl p : proc_ok p -> file_after p p.
Proof. split; [done|by left]. Qed.

Lemma put_file c p t n : config_ok c -> proc_ok p -> file_after p (put h c (mkProc p.(config) p.(disk) t n)).
Proof. intros Hc Hp. by apply (put_sealed c (mkProc p.(config) p.(disk) t n)). Qed.

Lemma put_file' c p : config_ok c -> proc_ok p -> file_after p (put h c p).
Proof. apply put_sealed. Qed.

Lemma forget_file p p' : file_after p p' -> file_after p (clear_trusted_devices p').
Proof. done. Qed.

Lemma new_id_clear i : Forall (fun o => forall id, o = Some id -> clear_text id) h.(gen_ids) -> new_id h = Some i -> clear_text i.
Proof.
  intros Hg Ei. unfold new_id in Ei.
  assert (Hin : i ∈ omap (fun o : option bytes => o) (take 3 (gen_ids h))) by (destruct (omap _ _) as [|y l]; [done|]; injection Ei as ->; left).
  apply list_elem_of_omap in Hin as (o & Ho & ->). apply elem_of_take in Ho as (k & Hk & _). by eapply (Forall_lookup_1 _ _ _ _ Hg Hk).
Qed.

Lemma restart_file p : Forall (fun o => forall id, o = Some id -> clear_text id) h.(gen_ids) -> proc_ok p -> file_after p (restart h p).
Proof.
  intros Hg [Hc Hd]. unfold restart, load. pose proof (validate_ok (load_ p.(disk)) Hd) as (Hv & _).
  set (c := (validate_or_decrypt_permanent_password_storage h (load_ p.(disk))).1) in *. clearbody c.
  assert (Hany : forall c b, config_ok c ->
    file_after p (let '(c0, (d0, n)) := (c, if b : bool then store h c p.(disk) p.(draws) else (p.(disk), p.(draws))) in mkProc c0 d0 (trusted p) n)).
  { intros c0 b Hc0. destruct b; [|by apply same_file]. pose proof (put_file' c0 p Hc0 (conj Hc Hd)) as H. unfold put in H. by destruct (store h c0 _ _). }
  destruct (decrypt_str_or_original _ _ _ _ (enc_id c) _) as [[i e] x] eqn:Ee. destruct e.
  - apply (Hany (set_cfg_id i c) x). apply with_id; [done|]. by eapply (proj2 (proj2 Hv)).
  - destruct (_ && _); cbn -[store].
    + by apply (Hany c true).
    + destruct (new_id h) as [i'|] eqn:Ei; [|by apply (Hany c false)]. apply (Hany (set_cfg_id i' c) true). apply with_id; [done|]. by apply new_id_clear.
Qed.

Lemma set_permanent_password_file pw p : proc_ok p -> file_after p (set_permanent_password h pw p).2.
Proof.
  intros Hp. pose proof (proj1 Hp) as Hc. unfold set_permanent_password. destruct (disable_change_permanent_password h); [by apply file_refl|]. destruct (_ && _); [by apply file_refl|].
  destruct (is_nil pw).
  { destruct (bool_decide _); [by apply same_file|]. apply forget_file, put_file; [|done]. by apply with_password. }
  unfold compute_permanent_password_storage_for_update. destruct (ensure_permanent_password_salt _ _) as [c n] eqn:Ec.
  assert (Hc1 : config_ok c).
  { unfold ensure_permanent_password_salt in Ec. destruct (is_nil _); [destruct (get_auto_password _ _)|]; injection Ec as <- _; exact Hc. }
  set (h1 := compute_permanent_password_h1 _ _). assert (Hl : zlen h1 = PERMANENT_PASSWORD_H1_LEN) by (unfold h1, compute_permanent_password_h1; by rewrite sha256_length).
  destruct (permanent_roundtrip m h1 n (sha256_bytes _) Hl) as (st & He & _ & _ & Hh).
  destruct (encode_permanent_password_encrypted_storage_from_h1 _ _ _) as [o n']. cbn in He. subst o.
  destruct (bool_decide _); [by apply same_file|]. apply forget_file.
  pose proof (put_sealed (set_cfg_password st c) (mkProc c p.(disk) p.(trusted) n')) as H. apply H; [|by split; [|apply Hp]].
  apply with_password; [done|]. right. right. by eexists.
Qed.

Lemma sync_file payload p : proc_ok p -> file_after p (apply_permanent_password_storage_and_salt_payload h (Some payload) p).2.
Proof.
  intros Hp. pose proof (proj1 Hp) as Hc. unfold apply_permanent_password_storage_and_salt_payload, set_permanent_password_storage_for_sync.
  destruct (split_once 10 payload) as [[st sa]|]; [|by apply file_refl].
  unfold apply_permanent_password_storage_for_sync. destruct (is_nil st).
  - destruct (_ && _); [by apply file_refl|]. cbn. apply forget_file, put_file'; [|done]. by destruct (is_nil sa); apply with_password.
  - destruct (is_nil sa); [by apply file_refl|]. destruct (decode_permanent_password_h1_from_storage _ _ _ _ _) as [h1|] eqn:Eh; [|by apply file_refl].
    destruct (_ && _); [by apply file_refl|]. cbn. apply forget_file, put_file'; [|done]. apply with_password; [done|]. right. right. by eexists.
Qed.

Lemma set_salt_file s p n : proc_ok p -> file_after p (set_salt h s (mkProc p.(config) p.(disk) p.(trusted) n)).
Proof.
  intros Hp. pose proof (proj1 Hp) as Hc. unfold set_salt. cbn. destruct (bool_decide _); [by apply same_file|].
  destruct (_ && _); [by apply same_file|]. by apply put_file.
Qed.

Lemma get_salt_file p : proc_ok p -> file_after p (get_salt h p).2.
Proof.
  intros Hp. unfold get_salt. destruct (is_nil _); [|by apply file_refl]. destruct (get_auto_password _ _) as [s n]. by apply set_salt_file.
Qed.

Lemma exec_file op p : op_ok m op -> Forall (fun o => forall id, o = Some id -> clear_text id) h.(gen_ids) -> proc_ok p -> file_after p (exec h op p).
Proof.
  intros Ho Hg Hp. pose proof (proj1 Hp) as Hc. destruct op; cbn [exec].
  - by apply set_permanent_password_file.
  - destruct payload; [by apply sync_file|by apply file_refl].
  - unfold set_config. destruct (bool_decide _); [by apply file_refl|]. by apply put_file'.
  - destruct p. by apply set_salt_file.
  - by apply get_salt_file.
  - unfold get_effective_permanent_password_salt. cbn [get_local_permanent_password_storage_and_salt].
    destruct (negb _); [destruct (local_permanent_password_storage_is_usable_for_auth _ _ _ _ _ _); [by apply get_salt_file|by apply file_refl]|].
    destruct (negb _); [by apply file_refl|by apply get_salt_file].
  - unfold set_id. destruct (bool_decide _); [by apply file_refl|]. apply put_file'; [|done]. by apply with_id.
  - unfold set_key_confirmed. destruct (Bool.eqb _ _); [by apply file_refl|]. by apply put_file'.
  - unfold set_host_key_confirmed. destruct (Bool.eqb _ _); [by apply file_refl|]. by apply put_file'.
  - by apply put_file'.
  - by apply restart_file.
Qed.

End OnHost.

(** C37: no password and no identity is left in the file in plain text.  Whatever sequence of
    operations a process goes through (passwords set, synchronised or replaced, identities set,
    keys confirmed, restarts), its configuration file is the one it started with or is sealed: the
    identity is not in the clear, and what is kept of the identity and of the password is nothing,
    or opens with this machine's key to another text, or (the password) opens to the hash of one;
    so a file of an older version, with its password in the clear, is sealed by the first write
    that changes it.  This is for texts that do not look sealed themselves: one that does is
    written as it is ([sealed_look_alike]). *)
Theorem file_sealed (m : Machine) (steps : list (Host * Op)) (p : Proc) :
  proc_ok m p -> Forall (step_ok m) steps ->
  let p' := run steps p in
  p'.(disk) = p.(disk) \/ exists d, p'.(disk) = Some d /\ sealed_file m d.
Proof.
  intros Hp Hs. revert p Hp. induction Hs as [|[h op] steps [Hm [Ho Hg]] _ IH]; intros p Hp; [by left|].
  change (run ((h, op) :: steps) p) with (run steps (exec h op p)). cbn in Hm, Ho, Hg. subst m.
  destruct (exec_file h op p Ho Hg Hp) as [Hp' Hf]. destruct (IH _ Hp') as [He | He]; [|by right].
  cbv zeta. rewrite He. exact Hf.
Qed.

End AtRest.

(** A file of an older version, with its identity and password in the clear. *)
Definition old_file : Config := mkConfig [49] [] toy_password [115] ([], []) false ∅.
Definition old_proc : Proc := mkProc config_default (Some old_file) [] 0.

Lemma file_sealed_witness :
  let p' := run (L := SealToy.toy) (S := SealToy.toy_sealing) [(toy_host, Restart); (toy_host, SetId [50])] old_proc in
  p'.(config).(cfg_password) = toy_password /\
  (p'.(disk) = Some old_file \/ exists d, p'.(disk) = Some d /\ sealed_file (L := SealToy.toy) toy_host.(h_machine) d).
Proof.
  intros p'. split; [reflexivity|]. apply (file_sealed (W := SealToy.toy_laws) toy_host.(h_machine) _ old_proc).
  - split; (split; [|split; [left|intros id x [=]]]); (split; [repeat constructor; lia|by split]).
  - assert (Hid : SealFacts.clear_text (L := SealToy.toy) [49]) by (split; [repeat constructor; lia|by split]).
    assert (Hid' : SealFacts.clear_text (L := SealToy.toy) [50]) by (split; [repeat constructor; lia|by split]).
    assert (Hg : Forall (fun o => forall id, o = Some id -> SealFacts.clear_text (L := SealToy.toy) id) toy_host.(gen_ids)) by (apply Forall_singleton; by intros id [= <-]).
    apply Forall_cons_2; [|apply Forall_singleton]; by split_and!.
Defined.

(** An identity that looks sealed is written as it is (here for the toy Base64): nothing on the disk
    hides it.  The same goes for a password in the clear that looks sealed. *)
Definition look_alike : bytes := PASSWORD_ENC_VERSION ++ SealToy.hex (replicate 17 7).
Example sealed_look_alike :
  (set_id (L := SealToy.toy) (S := SealToy.toy_sealing) toy_host look_alike old_proc).(disk) = Some (set_cfg_id [] (mkConfig [] look_alike [] [] ([], []) false ∅)).
Proof. reflexivity. Qed.

(** A password in the clear of more than 128 characters is lost by the first write. *)
Lemma long_password_lost :
  let p := mkProc (set_cfg_password (replicate 129 65) config_default) None [] 0 in
  (restart (L := SealToy.toy) (S := SealToy.toy_sealing) toy_host (set_id (L := SealToy.toy) (S := SealToy.toy_sealing) toy_host [50] p)).(config).(cfg_password) = [].
Proof. reflexivity. Qed.

End AtRest.
