(* ===== verification/LoginPeer.v ===== *)
(** Logging in from the controlling side: what a client remembers of a peer and how it answers the
    peer's challenge ([LoginConfigHandler], [handle_hash], [handle_login_from_ui],
    [handle_login_error] of [src/src/client.rs], [PeerConfig] of
    [src/libs/hbb_common/src/config.rs], [is_keyboard_mode_supported] of [src/src/common.rs] and
    [src/libs/base/src/keyboard.rs]; desktop builds with the Flutter interface).  Strings are their
    UTF-8 bytes. *)

From S2P Require Import Prelude LoginId LoginPassword LoginState LoginFlow LoginSeal.

Module Peer.
Import Password LoginState Seal.

Abbreviation str s := (as_bytes s).

(** ** The data *)

Inductive ConnType := DEFAULT_CONN | FILE_TRANSFER | PORT_FORWARD | RDP | VIEW_CAMERA | TERMINAL.
#[export] Instance ConnType_eq_dec : EqDecision ConnType.
Proof. solve_decision. Defined.

(** The source of the password that was sent. *)
Inductive PasswordSource := PersonalAb (p : bytes) | SharedAb (p : bytes) | Undefined.

(** A peer's configuration: the fields the login reads or writes, and the others. *)
Record PeerConfig := mkPeer {
  p_password : bytes;
  p_info : bytes * bytes * bytes;
  p_keyboard_mode : bytes;
  p_options : gmap string bytes;
  p_other : Z
}.

Definition set_p_password (v : bytes) (p : PeerConfig) : PeerConfig := mkPeer v p.(p_info)
    p.(p_keyboard_mode) p.(p_options) p.(p_other).
Definition set_p_info (v : bytes * bytes * bytes) (p : PeerConfig) : PeerConfig := mkPeer
    p.(p_password) v p.(p_keyboard_mode) p.(p_options) p.(p_other).
Definition set_p_keyboard_mode (v : bytes) (p : PeerConfig) : PeerConfig := mkPeer p.(p_password)
    p.(p_info) v p.(p_options) p.(p_other).
Definition set_p_options (v : gmap string bytes) (p : PeerConfig) : PeerConfig := mkPeer
    p.(p_password) p.(p_info) p.(p_keyboard_mode) v p.(p_other).
Definition set_p_other (v : Z) (p : PeerConfig) : PeerConfig := mkPeer p.(p_password) p.(p_info)
    p.(p_keyboard_mode) p.(p_options) v.
Definition peer_default : PeerConfig := mkPeer [] ([], [], []) [] ∅ 0.

(** What one session hands to another: the JSON of this record. *)
Record ConnToken := mkToken { t_password : bytes; t_password_source : PasswordSource; t_session_id : Z }.

(** [LoginConfigHandler]: the fields the login reads or writes. *)
Record Lch := mkLch {
  lc_id : bytes;
  lc_conn_type : ConnType;
  lc_is_terminal_admin : bool;
  lc_hash : Hash;
  lc_password : bytes;
  lc_remember : bool;
  lc_config : PeerConfig;
  lc_version : Z;
  lc_features : option Z;
  lc_session_id : Z;
  lc_supported_encoding : Z;
  lc_restarting_remote_device : bool;
  lc_restart_remote_device_at : option Z;
  lc_force_relay : bool;
  lc_policy_relay : bool;
  lc_peer_relay : bool;
  lc_direct : option bool;
  lc_received : bool;
  lc_switch_uuid : option bytes;
  lc_switch_back_allowed : bool;
  lc_other_server : option (bytes * bytes * bytes);
  lc_adapter_luid : option Z;
  lc_selected_windows_session_id : option Z;
  lc_password_source : PasswordSource;
  lc_shared_password : option bytes;
  lc_record_state : bool;
  lc_record_permission : bool
}.

Definition set_lc_id (v : bytes) (l : Lch) : Lch := mkLch v l.(lc_conn_type)
    l.(lc_is_terminal_admin) l.(lc_hash) l.(lc_password) l.(lc_remember) l.(lc_config)
    l.(lc_version) l.(lc_features) l.(lc_session_id) l.(lc_supported_encoding)
    l.(lc_restarting_remote_device) l.(lc_restart_remote_device_at) l.(lc_force_relay)
    l.(lc_policy_relay) l.(lc_peer_relay) l.(lc_direct) l.(lc_received) l.(lc_switch_uuid)
    l.(lc_switch_back_allowed) l.(lc_other_server) l.(lc_adapter_luid)
    l.(lc_selected_windows_session_id) l.(lc_password_source) l.(lc_shared_password)
    l.(lc_record_state) l.(lc_record_permission).
Definition set_lc_conn_type (v : ConnType) (l : Lch) : Lch := mkLch l.(lc_id) v
    l.(lc_is_terminal_admin) l.(lc_hash) l.(lc_password) l.(lc_remember) l.(lc_config)
    l.(lc_version) l.(lc_features) l.(lc_session_id) l.(lc_supported_encoding)
    l.(lc_restarting_remote_device) l.(lc_restart_remote_device_at) l.(lc_force_relay)
    l.(lc_policy_relay) l.(lc_peer_relay) l.(lc_direct) l.(lc_received) l.(lc_switch_uuid)
    l.(lc_switch_back_allowed) l.(lc_other_server) l.(lc_adapter_luid)
    l.(lc_selected_windows_session_id) l.(lc_password_source) l.(lc_shared_password)
    l.(lc_record_state) l.(lc_record_permission).
Definition set_lc_is_terminal_admin (v : bool) (l : Lch) : Lch := mkLch l.(lc_id) l.(lc_conn_type) v
    l.(lc_hash) l.(lc_password) l.(lc_remember) l.(lc_config) l.(lc_version) l.(lc_features)
    l.(lc_session_id) l.(lc_supported_encoding) l.(lc_restarting_remote_device)
    l.(lc_restart_remote_device_at) l.(lc_force_relay) l.(lc_policy_relay) l.(lc_peer_relay)
    l.(lc_direct) l.(lc_received) l.(lc_switch_uuid) l.(lc_switch_back_allowed) l.(lc_other_server)
    l.(lc_adapter_luid) l.(lc_selected_windows_session_id) l.(lc_password_source)
    l.(lc_shared_password) l.(lc_record_state) l.(lc_record_permission).
Definition set_lc_hash (v : Hash) (l : Lch) : Lch := mkLch l.(lc_id) l.(lc_conn_type)
    l.(lc_is_terminal_admin) v l.(lc_password) l.(lc_remember) l.(lc_config) l.(lc_version)
    l.(lc_features) l.(lc_session_id) l.(lc_supported_encoding) l.(lc_restarting_remote_device)
    l.(lc_restart_remote_device_at) l.(lc_force_relay) l.(lc_policy_relay) l.(lc_peer_relay)
    l.(lc_direct) l.(lc_received) l.(lc_switch_uuid) l.(lc_switch_back_allowed) l.(lc_other_server)
    l.(lc_adapter_luid) l.(lc_selected_windows_session_id) l.(lc_password_source)
    l.(lc_shared_password) l.(lc_record_state) l.(lc_record_permission).
Definition set_lc_password (v : bytes) (l : Lch) : Lch := mkLch l.(lc_id) l.(lc_conn_type)
    l.(lc_is_terminal_admin) l.(lc_hash) v l.(lc_remember) l.(lc_config) l.(lc_version)
    l.(lc_features) l.(lc_session_id) l.(lc_supported_encoding) l.(lc_restarting_remote_device)
    l.(lc_restart_remote_device_at) l.(lc_force_relay) l.(lc_policy_relay) l.(lc_peer_relay)
    l.(lc_direct) l.(lc_received) l.(lc_switch_uuid) l.(lc_switch_back_allowed) l.(lc_other_server)
    l.(lc_adapter_luid) l.(lc_selected_windows_session_id) l.(lc_password_source)
    l.(lc_shared_password) l.(lc_record_state) l.(lc_record_permission).
Definition set_lc_remember (v : bool) (l : Lch) : Lch := mkLch l.(lc_id) l.(lc_conn_type)
    l.(lc_is_terminal_admin) l.(lc_hash) l.(lc_password) v l.(lc_config) l.(lc_version)
    l.(lc_features) l.(lc_session_id) l.(lc_supported_encoding) l.(lc_restarting_remote_device)
    l.(lc_restart_remote_device_at) l.(lc_force_relay) l.(lc_policy_relay) l.(lc_peer_relay)
    l.(lc_direct) l.(lc_received) l.(lc_switch_uuid) l.(lc_switch_back_allowed) l.(lc_other_server)
    l.(lc_adapter_luid) l.(lc_selected_windows_session_id) l.(lc_password_source)
    l.(lc_shared_password) l.(lc_record_state) l.(lc_record_permission).
Definition set_lc_config (v : PeerConfig) (l : Lch) : Lch := mkLch l.(lc_id) l.(lc_conn_type)
    l.(lc_is_terminal_admin) l.(lc_hash) l.(lc_password) l.(lc_remember) v l.(lc_version)
    l.(lc_features) l.(lc_session_id) l.(lc_supported_encoding) l.(lc_restarting_remote_device)
    l.(lc_restart_remote_device_at) l.(lc_force_relay) l.(lc_policy_relay) l.(lc_peer_relay)
    l.(lc_direct) l.(lc_received) l.(lc_switch_uuid) l.(lc_switch_back_allowed) l.(lc_other_server)
    l.(lc_adapter_luid) l.(lc_selected_windows_session_id) l.(lc_password_source)
    l.(lc_shared_password) l.(lc_record_state) l.(lc_record_permission).
Definition set_lc_version (v : Z) (l : Lch) : Lch := mkLch l.(lc_id) l.(lc_conn_type)
    l.(lc_is_terminal_admin) l.(lc_hash) l.(lc_password) l.(lc_remember) l.(lc_config) v
    l.(lc_features) l.(lc_session_id) l.(lc_supported_encoding) l.(lc_restarting_remote_device)
    l.(lc_restart_remote_device_at) l.(lc_force_relay) l.(lc_policy_relay) l.(lc_peer_relay)
    l.(lc_direct) l.(lc_received) l.(lc_switch_uuid) l.(lc_switch_back_allowed) l.(lc_other_server)
    l.(lc_adapter_luid) l.(lc_selected_windows_session_id) l.(lc_password_source)
    l.(lc_shared_password) l.(lc_record_state) l.(lc_record_permission).
Definition set_lc_features (v : option Z) (l : Lch) : Lch := mkLch l.(lc_id) l.(lc_conn_type)
    l.(lc_is_terminal_admin) l.(lc_hash) l.(lc_password) l.(lc_remember) l.(lc_config)
    l.(lc_version) v l.(lc_session_id) l.(lc_supported_encoding) l.(lc_restarting_remote_device)
    l.(lc_restart_remote_device_at) l.(lc_force_relay) l.(lc_policy_relay) l.(lc_peer_relay)
    l.(lc_direct) l.(lc_received) l.(lc_switch_uuid) l.(lc_switch_back_allowed) l.(lc_other_server)
    l.(lc_adapter_luid) l.(lc_selected_windows_session_id) l.(lc_password_source)
    l.(lc_shared_password) l.(lc_record_state) l.(lc_record_permission).
Definition set_lc_session_id (v : Z) (l : Lch) : Lch := mkLch l.(lc_id) l.(lc_conn_type)
    l.(lc_is_terminal_admin) l.(lc_hash) l.(lc_password) l.(lc_remember) l.(lc_config)
    l.(lc_version) l.(lc_features) v l.(lc_supported_encoding) l.(lc_restarting_remote_device)
    l.(lc_restart_remote_device_at) l.(lc_force_relay) l.(lc_policy_relay) l.(lc_peer_relay)
    l.(lc_direct) l.(lc_received) l.(lc_switch_uuid) l.(lc_switch_back_allowed) l.(lc_other_server)
    l.(lc_adapter_luid) l.(lc_selected_windows_session_id) l.(lc_password_source)
    l.(lc_shared_password) l.(lc_record_state) l.(lc_record_permission).
Definition set_lc_supported_encoding (v : Z) (l : Lch) : Lch := mkLch l.(lc_id) l.(lc_conn_type)
    l.(lc_is_terminal_admin) l.(lc_hash) l.(lc_password) l.(lc_remember) l.(lc_config)
    l.(lc_version) l.(lc_features) l.(lc_session_id) v l.(lc_restarting_remote_device)
    l.(lc_restart_remote_device_at) l.(lc_force_relay) l.(lc_policy_relay) l.(lc_peer_relay)
    l.(lc_direct) l.(lc_received) l.(lc_switch_uuid) l.(lc_switch_back_allowed) l.(lc_other_server)
    l.(lc_adapter_luid) l.(lc_selected_windows_session_id) l.(lc_password_source)
    l.(lc_shared_password) l.(lc_record_state) l.(lc_record_permission).
Definition set_lc_restarting_remote_device (v : bool) (l : Lch) : Lch := mkLch l.(lc_id)
    l.(lc_conn_type) l.(lc_is_terminal_admin) l.(lc_hash) l.(lc_password) l.(lc_remember)
    l.(lc_config) l.(lc_version) l.(lc_features) l.(lc_session_id) l.(lc_supported_encoding) v
    l.(lc_restart_remote_device_at) l.(lc_force_relay) l.(lc_policy_relay) l.(lc_peer_relay)
    l.(lc_direct) l.(lc_received) l.(lc_switch_uuid) l.(lc_switch_back_allowed) l.(lc_other_server)
    l.(lc_adapter_luid) l.(lc_selected_windows_session_id) l.(lc_password_source)
    l.(lc_shared_password) l.(lc_record_state) l.(lc_record_permission).
Definition set_lc_restart_remote_device_at (v : option Z) (l : Lch) : Lch := mkLch l.(lc_id)
    l.(lc_conn_type) l.(lc_is_terminal_admin) l.(lc_hash) l.(lc_password) l.(lc_remember)
    l.(lc_config) l.(lc_version) l.(lc_features) l.(lc_session_id) l.(lc_supported_encoding)
    l.(lc_restarting_remote_device) v l.(lc_force_relay) l.(lc_policy_relay) l.(lc_peer_relay)
    l.(lc_direct) l.(lc_received) l.(lc_switch_uuid) l.(lc_switch_back_allowed) l.(lc_other_server)
    l.(lc_adapter_luid) l.(lc_selected_windows_session_id) l.(lc_password_source)
    l.(lc_shared_password) l.(lc_record_state) l.(lc_record_permission).
Definition set_lc_force_relay (v : bool) (l : Lch) : Lch := mkLch l.(lc_id) l.(lc_conn_type)
    l.(lc_is_terminal_admin) l.(lc_hash) l.(lc_password) l.(lc_remember) l.(lc_config)
    l.(lc_version) l.(lc_features) l.(lc_session_id) l.(lc_supported_encoding)
    l.(lc_restarting_remote_device) l.(lc_restart_remote_device_at) v l.(lc_policy_relay)
    l.(lc_peer_relay) l.(lc_direct) l.(lc_received) l.(lc_switch_uuid) l.(lc_switch_back_allowed)
    l.(lc_other_server) l.(lc_adapter_luid) l.(lc_selected_windows_session_id)
    l.(lc_password_source) l.(lc_shared_password) l.(lc_record_state) l.(lc_record_permission).
Definition set_lc_policy_relay (v : bool) (l : Lch) : Lch := mkLch l.(lc_id) l.(lc_conn_type)
    l.(lc_is_terminal_admin) l.(lc_hash) l.(lc_password) l.(lc_remember) l.(lc_config)
    l.(lc_version) l.(lc_features) l.(lc_session_id) l.(lc_supported_encoding)
    l.(lc_restarting_remote_device) l.(lc_restart_remote_device_at) l.(lc_force_relay) v
    l.(lc_peer_relay) l.(lc_direct) l.(lc_received) l.(lc_switch_uuid) l.(lc_switch_back_allowed)
    l.(lc_other_server) l.(lc_adapter_luid) l.(lc_selected_windows_session_id)
    l.(lc_password_source) l.(lc_shared_password) l.(lc_record_state) l.(lc_record_permission).
Definition set_lc_peer_relay (v : bool) (l : Lch) : Lch := mkLch l.(lc_id) l.(lc_conn_type)
    l.(lc_is_terminal_admin) l.(lc_hash) l.(lc_password) l.(lc_remember) l.(lc_config)
    l.(lc_version) l.(lc_features) l.(lc_session_id) l.(lc_supported_encoding)
    l.(lc_restarting_remote_device) l.(lc_restart_remote_device_at) l.(lc_force_relay)
    l.(lc_policy_relay) v l.(lc_direct) l.(lc_received) l.(lc_switch_uuid)
    l.(lc_switch_back_allowed) l.(lc_other_server) l.(lc_adapter_luid)
    l.(lc_selected_windows_session_id) l.(lc_password_source) l.(lc_shared_password)
    l.(lc_record_state) l.(lc_record_permission).
Definition set_lc_direct (v : option bool) (l : Lch) : Lch := mkLch l.(lc_id) l.(lc_conn_type)
    l.(lc_is_terminal_admin) l.(lc_hash) l.(lc_password) l.(lc_remember) l.(lc_config)
    l.(lc_version) l.(lc_features) l.(lc_session_id) l.(lc_supported_encoding)
    l.(lc_restarting_remote_device) l.(lc_restart_remote_device_at) l.(lc_force_relay)
    l.(lc_policy_relay) l.(lc_peer_relay) v l.(lc_received) l.(lc_switch_uuid)
    l.(lc_switch_back_allowed) l.(lc_other_server) l.(lc_adapter_luid)
    l.(lc_selected_windows_session_id) l.(lc_password_source) l.(lc_shared_password)
    l.(lc_record_state) l.(lc_record_permission).
Definition set_lc_received (v : bool) (l : Lch) : Lch := mkLch l.(lc_id) l.(lc_conn_type)
    l.(lc_is_terminal_admin) l.(lc_hash) l.(lc_password) l.(lc_remember) l.(lc_config)
    l.(lc_version) l.(lc_features) l.(lc_session_id) l.(lc_supported_encoding)
    l.(lc_restarting_remote_device) l.(lc_restart_remote_device_at) l.(lc_force_relay)
    l.(lc_policy_relay) l.(lc_peer_relay) l.(lc_direct) v l.(lc_switch_uuid)
    l.(lc_switch_back_allowed) l.(lc_other_server) l.(lc_adapter_luid)
    l.(lc_selected_windows_session_id) l.(lc_password_source) l.(lc_shared_password)
    l.(lc_record_state) l.(lc_record_permission).
Definition set_lc_switch_uuid (v : option bytes) (l : Lch) : Lch := mkLch l.(lc_id) l.(lc_conn_type)
    l.(lc_is_terminal_admin) l.(lc_hash) l.(lc_password) l.(lc_remember) l.(lc_config)
    l.(lc_version) l.(lc_features) l.(lc_session_id) l.(lc_supported_encoding)
    l.(lc_restarting_remote_device) l.(lc_restart_remote_device_at) l.(lc_force_relay)
    l.(lc_policy_relay) l.(lc_peer_relay) l.(lc_direct) l.(lc_received) v l.(lc_switch_back_allowed)
    l.(lc_other_server) l.(lc_adapter_luid) l.(lc_selected_windows_session_id)
    l.(lc_password_source) l.(lc_shared_password) l.(lc_record_state) l.(lc_record_permission).
Definition set_lc_switch_back_allowed (v : bool) (l : Lch) : Lch := mkLch l.(lc_id) l.(lc_conn_type)
    l.(lc_is_terminal_admin) l.(lc_hash) l.(lc_password) l.(lc_remember) l.(lc_config)
    l.(lc_version) l.(lc_features) l.(lc_session_id) l.(lc_supported_encoding)
    l.(lc_restarting_remote_device) l.(lc_restart_remote_device_at) l.(lc_force_relay)
    l.(lc_policy_relay) l.(lc_peer_relay) l.(lc_direct) l.(lc_received) l.(lc_switch_uuid) v
    l.(lc_other_server) l.(lc_adapter_luid) l.(lc_selected_windows_session_id)
    l.(lc_password_source) l.(lc_shared_password) l.(lc_record_state) l.(lc_record_permission).
Definition set_lc_other_server (v : option (bytes * bytes * bytes)) (l : Lch) : Lch := mkLch
    l.(lc_id) l.(lc_conn_type) l.(lc_is_terminal_admin) l.(lc_hash) l.(lc_password) l.(lc_remember)
    l.(lc_config) l.(lc_version) l.(lc_features) l.(lc_session_id) l.(lc_supported_encoding)
    l.(lc_restarting_remote_device) l.(lc_restart_remote_device_at) l.(lc_force_relay)
    l.(lc_policy_relay) l.(lc_peer_relay) l.(lc_direct) l.(lc_received) l.(lc_switch_uuid)
    l.(lc_switch_back_allowed) v l.(lc_adapter_luid) l.(lc_selected_windows_session_id)
    l.(lc_password_source) l.(lc_shared_password) l.(lc_record_state) l.(lc_record_permission).
Definition set_lc_adapter_luid (v : option Z) (l : Lch) : Lch := mkLch l.(lc_id) l.(lc_conn_type)
    l.(lc_is_terminal_admin) l.(lc_hash) l.(lc_password) l.(lc_remember) l.(lc_config)
    l.(lc_version) l.(lc_features) l.(lc_session_id) l.(lc_supported_encoding)
    l.(lc_restarting_remote_device) l.(lc_restart_remote_device_at) l.(lc_force_relay)
    l.(lc_policy_relay) l.(lc_peer_relay) l.(lc_direct) l.(lc_received) l.(lc_switch_uuid)
    l.(lc_switch_back_allowed) l.(lc_other_server) v l.(lc_selected_windows_session_id)
    l.(lc_password_source) l.(lc_shared_password) l.(lc_record_state) l.(lc_record_permission).
Definition set_lc_selected_windows_session_id (v : option Z) (l : Lch) : Lch := mkLch l.(lc_id)
    l.(lc_conn_type) l.(lc_is_terminal_admin) l.(lc_hash) l.(lc_password) l.(lc_remember)
    l.(lc_config) l.(lc_version) l.(lc_features) l.(lc_session_id) l.(lc_supported_encoding)
    l.(lc_restarting_remote_device) l.(lc_restart_remote_device_at) l.(lc_force_relay)
    l.(lc_policy_relay) l.(lc_peer_relay) l.(lc_direct) l.(lc_received) l.(lc_switch_uuid)
    l.(lc_switch_back_allowed) l.(lc_other_server) l.(lc_adapter_luid) v l.(lc_password_source)
    l.(lc_shared_password) l.(lc_record_state) l.(lc_record_permission).
Definition set_lc_password_source (v : PasswordSource) (l : Lch) : Lch := mkLch l.(lc_id)
    l.(lc_conn_type) l.(lc_is_terminal_admin) l.(lc_hash) l.(lc_password) l.(lc_remember)
    l.(lc_config) l.(lc_version) l.(lc_features) l.(lc_session_id) l.(lc_supported_encoding)
    l.(lc_restarting_remote_device) l.(lc_restart_remote_device_at) l.(lc_force_relay)
    l.(lc_policy_relay) l.(lc_peer_relay) l.(lc_direct) l.(lc_received) l.(lc_switch_uuid)
    l.(lc_switch_back_allowed) l.(lc_other_server) l.(lc_adapter_luid)
    l.(lc_selected_windows_session_id) v l.(lc_shared_password) l.(lc_record_state)
    l.(lc_record_permission).
Definition set_lc_shared_password (v : option bytes) (l : Lch) : Lch := mkLch l.(lc_id)
    l.(lc_conn_type) l.(lc_is_terminal_admin) l.(lc_hash) l.(lc_password) l.(lc_remember)
    l.(lc_config) l.(lc_version) l.(lc_features) l.(lc_session_id) l.(lc_supported_encoding)
    l.(lc_restarting_remote_device) l.(lc_restart_remote_device_at) l.(lc_force_relay)
    l.(lc_policy_relay) l.(lc_peer_relay) l.(lc_direct) l.(lc_received) l.(lc_switch_uuid)
    l.(lc_switch_back_allowed) l.(lc_other_server) l.(lc_adapter_luid)
    l.(lc_selected_windows_session_id) l.(lc_password_source) v l.(lc_record_state)
    l.(lc_record_permission).
Definition set_lc_record_state (v : bool) (l : Lch) : Lch := mkLch l.(lc_id) l.(lc_conn_type)
    l.(lc_is_terminal_admin) l.(lc_hash) l.(lc_password) l.(lc_remember) l.(lc_config)
    l.(lc_version) l.(lc_features) l.(lc_session_id) l.(lc_supported_encoding)
    l.(lc_restarting_remote_device) l.(lc_restart_remote_device_at) l.(lc_force_relay)
    l.(lc_policy_relay) l.(lc_peer_relay) l.(lc_direct) l.(lc_received) l.(lc_switch_uuid)
    l.(lc_switch_back_allowed) l.(lc_other_server) l.(lc_adapter_luid)
    l.(lc_selected_windows_session_id) l.(lc_password_source) l.(lc_shared_password) v
    l.(lc_record_permission).
Definition set_lc_record_permission (v : bool) (l : Lch) : Lch := mkLch l.(lc_id) l.(lc_conn_type)
    l.(lc_is_terminal_admin) l.(lc_hash) l.(lc_password) l.(lc_remember) l.(lc_config)
    l.(lc_version) l.(lc_features) l.(lc_session_id) l.(lc_supported_encoding)
    l.(lc_restarting_remote_device) l.(lc_restart_remote_device_at) l.(lc_force_relay)
    l.(lc_policy_relay) l.(lc_peer_relay) l.(lc_direct) l.(lc_received) l.(lc_switch_uuid)
    l.(lc_switch_back_allowed) l.(lc_other_server) l.(lc_adapter_luid)
    l.(lc_selected_windows_session_id) l.(lc_password_source) l.(lc_shared_password)
    l.(lc_record_state) v.

(** The peer's answer to a login: the fields used here. *)
Record PeerInfo := mkPeerInfo {
  pi_version : bytes;
  pi_username : bytes;
  pi_hostname : bytes;
  pi_platform : bytes;
  pi_features : option Z;
  pi_encoding : option Z
}.

Record AbPeer := mkAbPeer { ab_peer_id : bytes; ab_peer_hash : bytes }.
Record AbEntry := mkAbEntry { ab_name : bytes; ab_peers : list AbPeer }.

(** What is sent and shown: a login request with its credentials and trusted hardware, the answer
    to a switch of sides, the refusal to connect, a message box, and a password given to the
    personal address book. *)
Inductive Out :=
| SendLogin (os_username os_password password : bytes) (session_id : Z) (trust : bool)
| SendSwitchSides (uuid : bytes)
| SendCloseReason (msg : string)
| MsgBox (typ title text link : string)
| SyncHashToAb (id hash : bytes).

(** A handler with the files of its peers, the random numbers drawn, and what it put out. *)
Record Client := mkClient {
  lc : Lch;
  peer_files : gmap bytes PeerConfig;
  client_draws : nat;
  outs : list Out
}.

Definition set_lc (v : Lch) (c : Client) : Client := mkClient v c.(peer_files) c.(client_draws)
    c.(outs).
Definition set_peer_files (v : gmap bytes PeerConfig) (c : Client) : Client := mkClient c.(lc) v
    c.(client_draws) c.(outs).
Definition set_client_draws (v : nat) (c : Client) : Client := mkClient c.(lc) c.(peer_files) v
    c.(outs).
Definition set_outs (v : list Out) (c : Client) : Client := mkClient c.(lc) c.(peer_files)
    c.(client_draws) v.

Definition lch_default : Lch :=
  mkLch [] DEFAULT_CONN false (mkHash [] []) [] false peer_default 0 None 0 0 false None false false false None false None false None None None
    Undefined None false false.
Definition client_new (files : gmap bytes PeerConfig) (n : nat) : Client := mkClient lch_default files n [].

(** What the handlers find: the machine and whether files can be written, the environment and
    options, the address book, and what the local service answers for the identifier of a switch of
    sides. *)
Record Desk := mkDesk {
  desk_machine : Machine;
  desk_writable : bool;
  is_terminal_admin_env : bool;
  is_proxy : bool;
  use_ws : bool;
  is_incoming_only : bool;
  default_connect_password : bytes;
  access_token : bytes;
  ab_access_token : bytes;
  ab_entries : list AbEntry;
  uuid_from_str : bytes -> option bytes;
  consume_switch_uuid : bytes -> bytes -> bool
}.

Section Peer.
Context {L : Libraries} {S : Sealing}.

(** ** Strings *)

Definition contains (c : Z) (s : bytes) : bool := existsb (Z.eqb c) s.
Definition ends_with (s suffix : bytes) : bool :=
  (zlen suffix <=? zlen s) && bool_decide (zdrop (zlen s - zlen suffix) s = suffix).

(** [r"\r"] and ["/r"] *)
Definition handle_relay_id (id : bytes) : bytes :=
  if ends_with id [92; 114] || ends_with id [47; 114] then ztake (zlen id - 2) id else id.

(** Substring search. *)
Fixpoint infix_of (p s : list Z) : bool :=
  bool_decide (take (length p) s = p) || match s with [] => false | _ :: s => infix_of p s end.

(** ** Keyboard modes *)

Inductive KeyboardMode := Legacy | Map | Translate | Auto.
#[local] Instance KeyboardMode_eq_dec : EqDecision KeyboardMode.
Proof. solve_decision. Defined.

Definition keyboard_mode_str (k : KeyboardMode) : bytes :=
  match k with Legacy => str "legacy" | Map => str "map" | Translate => str "translate" | Auto => str "auto" end.
Definition keyboard_mode_from_str (s : bytes) : option KeyboardMode :=
  if bool_decide (s = str "legacy") then Some Legacy
  else if bool_decide (s = str "map") then Some Map
  else if bool_decide (s = str "translate") then Some Translate
  else if bool_decide (s = str "auto") then Some Auto else None.

Definition version_number (v : bytes) : Z := LoginFlow.get_version_number (decode_utf8 v).

Definition is_keyboard_mode_supported (k : KeyboardMode) (version : Z) (platform : bytes) : bool :=
  let since := version_number (str "1.2.0") <=? version in
  match k with
  | Legacy => true
  | Map =>
      if bool_decide (to_lowercase (decode_utf8 platform) = to_lowercase (chars "Android")) then false else since
  | Translate | Auto => since
  end.
Definition get_supported_keyboard_modes (version : Z) (platform : bytes) : list KeyboardMode :=
  filter (fun k => is_keyboard_mode_supported k version platform = true) [Legacy; Map; Translate; Auto].

(** ** Where the password came from *)

Definition source_is_personal_ab (s : PasswordSource) (password : bytes) : bool :=
  if is_nil password then false else match s with PersonalAb p => bool_decide (p = password) | _ => false end.

Definition source_equal (password connected_password : bytes) (hash : Hash) : bool :=
  bool_decide (connected_password = sha256 (password ++ hash.(salt))).

Definition source_is_shared_ab (s : PasswordSource) (password : bytes) (hash : Hash) : bool :=
  if is_nil password then false else match s with SharedAb p => source_equal p password hash | _ => false end.

Section OnDesk.
Variable d : Desk.
Abbreviation m := d.(desk_machine).

(** ** The files of peers *)

(** The characters [<>:/\|?*], which a file name cannot have. *)
Definition forbidden (c : Z) : bool := existsb (Z.eqb c) [60; 62; 58; 47; 92; 124; 63; 42].
Definition peer_path (id : bytes) : bytes := if existsb forbidden id then str "base64_" ++ base64_encode id else id.

Definition sealed_options : list string := ["rdp_password"; "os-username"; "os-password"]%string.

Definition seal_option (o : gmap string bytes * nat) (k : string) : gmap string bytes * nat :=
  match o.1 !! k with
  | Some v => let '(v, n) := encrypt_str_or_original m v PASSWORD_ENC_VERSION ENCRYPT_MAX_LEN o.2 in (<[k := v]> o.1, n)
  | None => o
  end.
Definition open_option (o : gmap string bytes * bool) (k : string) : gmap string bytes * bool :=
  match o.1 !! k with
  | Some v =>
      let '(v, _, store2) := decrypt_str_or_original base64_decode secretbox_open from_utf8_lossy m v PASSWORD_ENC_VERSION in
      (<[k := v]> o.1, o.2 || store2)
  | None => o
  end.

(** [PeerConfig::store_] *)
Definition peer_store (id : bytes) (p : PeerConfig) (files : gmap bytes PeerConfig) (n : nat) : gmap bytes PeerConfig * nat :=
  let '(password, n) := encrypt_vec_or_original m p.(p_password) PASSWORD_ENC_VERSION ENCRYPT_MAX_LEN n in
  let '(options, n) := foldl seal_option (p.(p_options), n) sealed_options in
  (if d.(desk_writable) then <[peer_path id := set_p_options options (set_p_password password p)]> files else files, n).

(** [PeerConfig::load] *)
Definition peer_load (id : bytes) (files : gmap bytes PeerConfig) (n : nat) : PeerConfig * (gmap bytes PeerConfig * nat) :=
  match files !! peer_path id with
  | None => (peer_default, (files, n))
  | Some p =>
      let '(password, _, store) := decrypt_vec_or_original m p.(p_password) PASSWORD_ENC_VERSION in
      let '(options, store) := foldl open_option (p.(p_options), store) sealed_options in
      let p := set_p_options options (set_p_password password p) in
      (p, if store then peer_store id p files n else (files, n))
  end.

(** ** The handler *)

Definition put (o : Out) (c : Client) : Client := set_outs (c.(outs) ++ [o]) c.
Definition on_lc (f : Lch -> Lch) (c : Client) : Client := set_lc (f c.(lc)) c.

Definition get_option (k : string) (l : Lch) : bytes := default [] (l.(lc_config).(p_options) !! k).

Definition load_config (c : Client) : PeerConfig * Client :=
  let '(p, (files, n)) := peer_load c.(lc).(lc_id) c.(peer_files) c.(client_draws) in
  (p, set_peer_files files (set_client_draws n c)).

Definition save_config (p : PeerConfig) (c : Client) : Client :=
  let '(files, n) := peer_store c.(lc).(lc_id) p c.(peer_files) c.(client_draws) in
  on_lc (set_lc_config p) (set_peer_files files (set_client_draws n c)).

Definition set_option (k : string) (v : bytes) (c : Client) : Client :=
  let '(p, c) := load_config c in
  if bool_decide (v = get_option k c.(lc)) then c
  else save_config (set_p_options (<[k := v]> p.(p_options)) p) c.

Definition set_hash (h : Hash) : Client -> Client := on_lc (set_lc_hash h).

Definition PUBLIC_SERVER : bytes := str "public".
Definition RS_PUB_KEY : bytes := str "pOjg1dA09pHunbiZa9s9jjap3EnJDn1MbhTksVdDGPo=".

(** The value of the last argument named [key] among those separated by [&]. *)
Fixpoint split_eq (s : bytes) : option (bytes * bytes) :=
  match s with
  | [] => None
  | c :: s => if c =? 61 then Some ([], s) else '(a, b) ← split_eq s; Some (c :: a, b)
  end.
Definition key_of_args (args : bytes) : bytes :=
  foldl (fun acc arg =>
    match split_eq arg with
    | Some (k, v) => if bool_decide (to_lowercase (decode_utf8 k) = chars "key") then v else acc
    | None => acc
    end) [] (IdList.split_at 38 args).

(** The identifier, whether a relay is forced, and the other server (id, server, key). *)
Definition parse_id (id : bytes) (force_relay : bool) : bytes * bool * option (bytes * bytes * bytes) :=
  if contains 64 id then
    let v := IdList.split_at 64 id in
    let raw_id := default [] (v !! 0%nat) in
    let server_key := IdList.split_at 63 (default [] (v !! 1%nat)) in
    let server := default [] (server_key !! 0%nat) in
    let args := default [] (server_key !! 1%nat) in
    let key := if bool_decide (server = PUBLIC_SERVER) then RS_PUB_KEY else key_of_args args in
    let real_id := handle_relay_id raw_id in
    (real_id ++ 64 :: server, force_relay || negb (bool_decide (real_id = raw_id)), Some (real_id, server, key))
  else
    let real_id := handle_relay_id id in
    (real_id, force_relay || negb (bool_decide (real_id = id)), None).

(** [rand::random::<u64>()], or 1. *)
Definition random_session_id (c : Client) : Z * Client :=
  let sid := gen_usize c.(client_draws) in
  (if sid =? 0 then 1 else sid, set_client_draws (Datatypes.S c.(client_draws)) c).

(** The end of [initialize]: the fields that start afresh with a session. *)
Definition begin_session (sid : Z) (switch_uuid : option bytes) (force_relay : bool) (adapter_luid : option Z)
    (shared_password : option bytes) (l : Lch) : Lch :=
  let l := set_lc_restart_remote_device_at None (set_lc_restarting_remote_device false (set_lc_supported_encoding 0 (set_lc_session_id sid l))) in
  let l := set_lc_peer_relay (option2bool "force-always-relay" (of_bytes (get_option "force-always-relay" l)) || force_relay) l in
  let l := set_lc_policy_relay (l.(lc_peer_relay) || d.(is_proxy)) l in
  let l := set_lc_force_relay (l.(lc_policy_relay) || d.(use_ws)) l in
  let other_server :=
    match l.(lc_other_server) with
    | Some (real_id, server, key) =>
        let other_server_key := get_option "other-server-key" l in
        if negb (is_nil other_server_key) && is_nil key then Some (real_id, server, other_server_key) else l.(lc_other_server)
    | None => None
    end in
  let l := set_lc_switch_back_allowed false (set_lc_received false (set_lc_direct None (set_lc_other_server other_server l))) in
  let l := set_lc_selected_windows_session_id None (set_lc_adapter_luid adapter_luid (set_lc_switch_uuid switch_uuid l)) in
  let l := set_lc_record_permission true (set_lc_record_state false (set_lc_shared_password shared_password l)) in
  set_lc_is_terminal_admin (bool_decide (l.(lc_conn_type) = TERMINAL) && d.(is_terminal_admin_env)) l.

(** The password and its source from another session. *)
Definition take_token (conn_token : option ConnToken) (l : Lch) : Lch :=
  match conn_token with
  | Some t => set_lc_password_source t.(t_password_source) (set_lc_password t.(t_password) l)
  | None => l
  end.

Definition initialize (id : bytes) (conn_type : ConnType) (switch_uuid : option bytes) (force_relay : bool)
    (adapter_luid : option Z) (shared_password : option bytes) (conn_token : option ConnToken) (c : Client) : Client :=
  let '(id, force_relay, other) := parse_id id force_relay in
  let c := on_lc (fun l => set_lc_conn_type conn_type (set_lc_id id
             (match other with Some o => set_lc_other_server (Some o) l | None => l end))) c in
  let '(config, c) := load_config c in
  let c := on_lc (fun l => take_token conn_token (set_lc_config config (set_lc_remember (negb (is_nil config.(p_password))) l))) c in
  let '(sid, c) := match conn_token with
                   | Some t => if t.(t_session_id) =? 0 then random_session_id c else (t.(t_session_id), c)
                   | None => random_session_id c
                   end in
  on_lc (begin_session sid switch_uuid force_relay adapter_luid shared_password) c.

Definition get_conn_token (l : Lch) : option ConnToken :=
  if is_nil l.(lc_password) then None else Some (mkToken l.(lc_password) l.(lc_password_source) l.(lc_session_id)).

(** What [handle_peer_info] makes of the password: the next password of the peer's configuration. *)
Definition password_to_save (l : Lch) (password0 : bytes) : bytes :=
  let password := l.(lc_password) in
  if l.(lc_remember) then
    if negb (is_nil password) && negb (bool_decide (password = password0)) && negb (source_is_shared_ab l.(lc_password_source) password l.(lc_hash))
    then password else password0
  else if source_is_personal_ab l.(lc_password_source) password then password
  else if negb (is_nil password0) then [] else password0.

Definition next_keyboard_mode (pi : PeerInfo) (mode : bytes) : bytes :=
  let version := version_number pi.(pi_version) in
  if is_nil mode then
    if is_keyboard_mode_supported Map version pi.(pi_platform) then keyboard_mode_str Map else keyboard_mode_str Legacy
  else
    let current_mode := default Legacy (keyboard_mode_from_str mode) in
    if bool_decide (current_mode ∈ get_supported_keyboard_modes version pi.(pi_platform)) then mode else keyboard_mode_str Legacy.

Definition handle_peer_info (pi : PeerInfo) (c : Client) : Client :=
  let c := if negb (is_nil pi.(pi_version)) then on_lc (set_lc_version (version_number pi.(pi_version))) c else c in
  let c := on_lc (set_lc_features pi.(pi_features)) c in
  let '(config, c) := load_config c in
  let config := set_p_info (pi.(pi_username), pi.(pi_hostname), pi.(pi_platform)) config in
  let l := c.(lc) in
  let config := set_p_password (password_to_save l config.(p_password)) config in
  let config :=
    match l.(lc_other_server) with
    | Some (_, b, k) => if negb (bool_decide (b = PUBLIC_SERVER)) then set_p_options (<["other-server-key" := k]> config.(p_options)) config else config
    | None => config
    end in
  let config := if l.(lc_peer_relay) then set_p_options (<["force-always-relay" := str "Y"]> config.(p_options)) config else config in
  let c :=
    if negb (is_nil config.(p_password)) && negb (source_is_shared_ab l.(lc_password_source) l.(lc_password) l.(lc_hash)) &&
       negb (source_is_personal_ab l.(lc_password_source) l.(lc_password))
    then put (SyncHashToAb l.(lc_id) config.(p_password)) c else c in
  let config := set_p_keyboard_mode (next_keyboard_mode pi config.(p_keyboard_mode)) config in
  let c := save_config config c in
  on_lc (set_lc_supported_encoding (default 0 pi.(pi_encoding))) c.

(** ** Answering the peer *)

(** Of the login request, what depends on the handler and on what was typed. *)
Definition send_login (os_username os_password password : bytes) (c : Client) : Client :=
  let l := c.(lc) in
  let os := bool_decide (l.(lc_conn_type) = TERMINAL) in
  put (SendLogin (if os then os_username else []) (if os then os_password else []) password l.(lc_session_id)
         (bool_decide (get_option "trust-this-device" l = str "Y"))) c.

Definition personal (e : AbEntry) : bool := bool_decide (e.(ab_name) = str "My address book") || bool_decide (e.(ab_name) = str "Legacy address book").

Definition try_get_password_from_personal_ab (c : Client) : bytes * Client :=
  if negb (is_nil d.(access_token)) && bool_decide (d.(access_token) = d.(ab_access_token)) then
    match find personal d.(ab_entries) with
    | Some ab =>
        match find (fun p => bool_decide (p.(ab_peer_id) = c.(lc).(lc_id))) ab.(ab_peers) with
        | Some p =>
            match base64_decode p.(ab_peer_hash) with
            | Some hash_password =>
                if negb (is_nil hash_password) then (hash_password, on_lc (set_lc_password_source (PersonalAb hash_password)) c) else ([], c)
            | None => ([], c)
            end
        | None => ([], c)
        end
    | None => ([], c)
    end
  else ([], c).

Definition source_default : Client -> Client := on_lc (set_lc_password_source Undefined).

(** The password that answers, by order of precedence: the last one, the one preset on the command
    line, the one of a shared address book, the remembered one, the one of the personal address
    book, and the default. *)
Definition choose_password (password_preset : bytes) (hash : Hash) (c : Client) : bytes * Client :=
  let password := c.(lc).(lc_password) in
  let '(password, c) :=
    if is_nil password && negb (is_nil password_preset) then (sha256 (password_preset ++ hash.(salt)), source_default c) else (password, c) in
  let shared_password := c.(lc).(lc_shared_password) in
  let c := on_lc (set_lc_shared_password None) c in
  let '(password, c) :=
    match shared_password with
    | Some p => if negb (is_nil p) then (sha256 (p ++ hash.(salt)), on_lc (set_lc_password_source (SharedAb p)) c) else (password, c)
    | None => (password, c)
    end in
  let '(password, c) :=
    if is_nil password then
      let saved := c.(lc).(lc_config).(p_password) in (saved, if negb (is_nil saved) then source_default c else c)
    else (password, c) in
  let '(password, c) := if is_nil password then try_get_password_from_personal_ab c else (password, c) in
  if is_nil password && negb (is_nil d.(default_connect_password))
  then (sha256 (d.(default_connect_password) ++ hash.(salt)), on_lc (set_lc_password_source (SharedAb d.(default_connect_password))) c)
  else (password, c).

(** [false] ends the connection. *)
Definition handle_hash (password_preset : bytes) (hash : Hash) (c : Client) : bool * Client :=
  let c := set_hash hash c in
  let uuid := c.(lc).(lc_switch_uuid) in
  let c := on_lc (set_lc_switch_uuid None) c in
  let switched :=
    match uuid with
    | Some u => match d.(uuid_from_str) u with
                | Some u => if d.(consume_switch_uuid) c.(lc).(lc_id) u then Some u else None
                | None => None
                end
    | None => None
    end in
  match switched with
  | Some u => (true, source_default (put (SendSwitchSides u) (on_lc (set_lc_switch_back_allowed true) c)))
  | None =>
      if d.(is_incoming_only) then
        (false, put (SendCloseReason "Connection not allowed in incoming-only mode") (put (MsgBox "error" "Connection Error" "Incoming only mode" "") c))
      else
      let '(password, c) := choose_password password_preset hash c in
      let c := on_lc (set_lc_password password) c in
      if bool_decide (c.(lc).(lc_conn_type) = TERMINAL) && c.(lc).(lc_is_terminal_admin) then
        (true, set_hash hash (put (MsgBox (if is_nil password then "terminal-admin-login-password" else "terminal-admin-login") "" "" "") c))
      else if is_nil password then
        (true, set_hash hash (send_login [] [] [] (put (MsgBox "input-password" "Password Required" "" "") c)))
      else (true, set_hash hash (send_login [] [] (sha256 (password ++ hash.(challenge))) c))
  end.

(** Typed, or empty to log in with what is there. *)
Definition handle_login_from_ui (os_username os_password password : bytes) (remember : bool) (c : Client) : Client :=
  let '(hash_password, c) :=
    if is_nil password then
      if is_nil c.(lc).(lc_password) then
        let saved := c.(lc).(lc_config).(p_password) in
        (saved, if negb (is_nil saved) then source_default c else c)
      else (c.(lc).(lc_password), c)
    else (sha256 (password ++ c.(lc).(lc_hash).(salt)), on_lc (set_lc_remember remember) (source_default c)) in
  let c := on_lc (set_lc_password hash_password) c in
  send_login os_username os_password (sha256 (hash_password ++ c.(lc).(lc_hash).(challenge))) c.

Definition LOGIN_MSG_PASSWORD_EMPTY : string := "Empty Password".
Definition LOGIN_MSG_PASSWORD_WRONG : string := "Wrong Password".
Definition LOGIN_MSG_2FA_WRONG : string := "Wrong 2FA Code".
Definition REQUIRE_2FA : string := "2FA Required".
Definition LOGIN_MSG_NO_PASSWORD_ACCESS : string := "No Password Access".
Definition LOGIN_SCREEN_WAYLAND : string := "Wayland login screen is not supported".
Definition SCRAP_X11_REQUIRED : string := "x11 expected".
Definition SCRAP_X11_REF_URL : string := "https://rustdesk.com/docs/en/manual/linux/#x11-required".

(** [true] lets the user try again. *)
Definition handle_login_error (err : string) (c : Client) : bool * Client :=
  if bool_decide (err = LOGIN_MSG_PASSWORD_EMPTY) then
    (true, put (MsgBox "input-password" "Password Required" "" "") (on_lc (set_lc_password []) c))
  else if bool_decide (err = LOGIN_MSG_PASSWORD_WRONG) then
    (true, put (MsgBox "re-input-password" err "Do you want to enter again?" "") (on_lc (set_lc_password []) c))
  else if bool_decide (err = LOGIN_MSG_2FA_WRONG) || bool_decide (err = REQUIRE_2FA) then
    let c := if bool_decide (get_option "trust-this-device" c.(lc) = str "Y") then set_option "trust-this-device" [] c else c in
    (true, put (MsgBox "input-2fa" err "" "") c)
  else if bool_decide (err = LOGIN_SCREEN_WAYLAND) then
    (true, put (MsgBox "error" "Login Error" "Login screen using Wayland is not supported"
                  "https://rustdesk.com/docs/en/manual/linux/#login-screen") c)
  else if bool_decide (err = LOGIN_MSG_NO_PASSWORD_ACCESS) then
    (true, put (MsgBox "wait-remote-accept-nook" "Prompt" "Please wait for the remote side to accept your session request..." "") c)
  else
    (false, put (MsgBox "error" "Login Error" err (if infix_of (str SCRAP_X11_REQUIRED) (str err) then SCRAP_X11_REF_URL else "")) c).

End OnDesk.

(** ** What happens to a handler *)

Inductive Event :=
| Initialize (id : bytes) (conn_type : ConnType) (switch_uuid : option bytes) (force_relay : bool) (adapter_luid : option Z)
    (shared_password : option bytes) (conn_token : option ConnToken)
| HashArrived (password_preset : bytes) (hash : Hash)
| SetHash (hash : Hash)
| LoginFromUi (os_username os_password password : bytes) (remember : bool)
| LoginError (err : string)
| PeerInfoArrived (pi : PeerInfo).

Definition handle (d : Desk) (e : Event) (c : Client) : Client :=
  match e with
  | Initialize id t u f a s k => initialize d id t u f a s k c
  | HashArrived preset hash => (handle_hash d preset hash c).2
  | SetHash hash => set_hash hash c
  | LoginFromUi user pw password remember => handle_login_from_ui user pw password remember c
  | LoginError err => (handle_login_error d err c).2
  | PeerInfoArrived pi => handle_peer_info d pi c
  end.

Definition run (d : Desk) : list Event -> Client -> Client := fun es c => foldl (fun c e => handle d e c) c es.

End Peer.
End Peer.
