(* ===== verification/LoginRemember.v ===== *)
(** What a client remembers: a password typed once logs in again, and a password that was only
    shared is not kept. *)

From S2P Require Import Prelude LoginPassword LoginState LoginFlow LoginSeal LoginStore LoginPermanent LoginPeer.

Module Remember.
Import Password LoginState LoginFlow Seal SealFacts Peer.

Section Remember.
Context {L : Libraries} {S : Sealing} {W : SealingLaws}.

Abbreviation is_encrypted := (Password.is_encrypted base64_decode).

(** The password a file gives when it is read. *)
Definition remembered (m : Machine) (p : PeerConfig) : bytes := (decrypt_vec_or_original m p.(p_password) PASSWORD_ENC_VERSION).1.1.

(** A password that can be told from a sealed one. *)
Definition plain_password (v : bytes) : Prop := bytes_ok v /\ is_encrypted v = false.

Section OnDesk.
Variable d : Desk.
Abbreviation m := d.(desk_machine).

(** ** Reading and writing the file of a peer *)

Lemma nil_not_encrypted : is_encrypted [] = false.
Proof. done. Qed.

Lemma nil_kept n : (encrypt_vec_or_original m [] PASSWORD_ENC_VERSION ENCRYPT_MAX_LEN n).1 = [].
Proof. done. Qed.

(** What is sealed in a file is read from it, or is dropped because it is too long. *)
Lemma sealed_vec v n : plain_password v ->
  let out := (encrypt_vec_or_original m v PASSWORD_ENC_VERSION ENCRYPT_MAX_LEN n).1 in
  (decrypt_vec_or_original m out PASSWORD_ENC_VERSION).1.1 = if ENCRYPT_MAX_LEN <? zlen v then [] else v.
Proof.
  intros [Hb He] out. destruct (is_nil v) eqn:Hn; [by destruct v|]. destruct (Z.ltb_spec ENCRYPT_MAX_LEN (zlen v)) as [Hl|Hl].
  - assert (out = []) as ->; [|done]. unfold out, encrypt_vec_or_original. by rewrite He, (proj2 (Z.ltb_lt _ _) Hl).
  - destruct (vec_roundtrip m v n Hb Hn He Hl) as [_ E]. fold out in E. by rewrite E.
Qed.

Lemma peer_store_spec id p files n : let files' := (peer_store d id p files n).1 in
  files' = files \/ exists w, files' = <[peer_path id := w]> files /\
    w.(p_password) = (encrypt_vec_or_original m p.(p_password) PASSWORD_ENC_VERSION ENCRYPT_MAX_LEN n).1.
Proof.
  unfold peer_store. destruct (encrypt_vec_or_original _ _ _ _ _) as [pw n1]. destruct (foldl _ _ _) as [o n2]. cbn.
  destruct (desk_writable d); [right|by left]. by eexists.
Qed.

Lemma peer_load_password id files n : (peer_load d id files n).1.(p_password) = from_option (remembered m) [] (files !! peer_path id).
Proof.
  unfold peer_load, remembered. destruct (files !! peer_path id) as [p|]; [|done]. cbn [from_option].
  destruct (decrypt_vec_or_original _ _ _) as [[pw b] s]. by destruct (foldl _ _ _) as [o s'].
Qed.

Lemma peer_load_files id files n : let files' := (peer_load d id files n).2.1 in
  files' = files \/ exists p n', files !! peer_path id = Some p /\ files' = (peer_store d id (peer_load d id files n).1 files n').1.
Proof.
  unfold peer_load. destruct (files !! peer_path id) as [p|]; [|by left]. destruct (decrypt_vec_or_original _ _ _) as [[pw b] s].
  destruct (foldl _ _ _) as [o s']. cbn [fst snd]. destruct s'; [right|by left]. by exists p, n.
Qed.

(** ** What may be remembered *)

Variable A : bytes -> Prop.
Hypothesis A_plain : forall v, A v -> plain_password v.

Definition may_keep (v : bytes) : Prop := v = [] \/ A v.
Definition files_ok (files : gmap bytes PeerConfig) : Prop := forall id p, files !! id = Some p -> may_keep (remembered m p).

Lemma may_keep_plain v : may_keep v -> plain_password v.
Proof. intros [-> | H]; [split; [constructor|apply nil_not_encrypted] | by apply A_plain]. Qed.

Lemma peer_store_ok id p files n : may_keep p.(p_password) -> files_ok files -> files_ok (peer_store d id p files n).1.
Proof.
  intros Hp Hf. destruct (peer_store_spec id p files n) as [-> | (w & -> & Hw)]; [done|]. intros i q.
  rewrite lookup_insert_Some. intros [[<- <-] | [_ H]]; [|by eapply Hf]. unfold remembered. rewrite Hw.
  rewrite (sealed_vec _ n (may_keep_plain _ Hp)). destruct (_ <? _); [by left|done].
Qed.

Lemma peer_load_ok id files n : files_ok files -> may_keep (peer_load d id files n).1.(p_password) /\ files_ok (peer_load d id files n).2.1.
Proof.
  intros Hf. assert (Hp : may_keep (peer_load d id files n).1.(p_password)).
  { rewrite peer_load_password. destruct (files !! peer_path id) as [p|] eqn:E; [by eapply Hf|by left]. }
  split; [done|]. destruct (peer_load_files id files n) as [-> | (p & n' & _ & ->)]; [done|]. by apply peer_store_ok.
Qed.

(** ** The invariant of a handler: under one salt, its password may be kept or is a shared one *)

Variable salt0 : bytes.

Definition pw_ok (source : PasswordSource) (pw : bytes) : Prop :=
  may_keep pw \/ exists p, source = SharedAb p /\ pw = sha256 (p ++ salt0).

Record lc_ok (l : Lch) : Prop := {
  ok_password : pw_ok l.(lc_password_source) l.(lc_password);
  ok_config : may_keep l.(lc_config).(p_password);
  ok_salt : l.(lc_hash).(salt) = salt0;
  ok_switch : is_Some l.(lc_switch_uuid) -> may_keep l.(lc_password)
}.
Definition client_ok (c : Client) : Prop := lc_ok c.(lc) /\ files_ok c.(peer_files).

(** The fields that matter. *)
Lemma client_ok_same c c' :
  c'.(peer_files) = c.(peer_files) -> c'.(lc).(lc_password) = c.(lc).(lc_password) -> c'.(lc).(lc_password_source) = c.(lc).(lc_password_source) ->
  c'.(lc).(lc_config) = c.(lc).(lc_config) -> c'.(lc).(lc_hash) = c.(lc).(lc_hash) ->
  c'.(lc).(lc_switch_uuid) = c.(lc).(lc_switch_uuid) -> client_ok c -> client_ok c'.
Proof. intros Hf Hp Hs Hc Hh Hu [[H1 H2 H3 H5] H4]. split; [constructor; rewrite ?Hp, ?Hs, ?Hc, ?Hh, ?Hu; done|by rewrite Hf]. Qed.

Definition token_ok (t : ConnToken) : Prop := pw_ok t.(t_password_source) t.(t_password).

Definition event_ok (e : Event) : Prop :=
  match e with
  | Initialize _ _ _ _ _ _ (Some t) => token_ok t
  | HashArrived preset hash => hash.(salt) = salt0 /\ (preset <> [] -> A (sha256 (preset ++ salt0)))
  | SetHash hash => hash.(salt) = salt0
  | LoginFromUi _ _ pw _ => pw <> [] -> A (sha256 (pw ++ salt0))
  | _ => True
  end.

(** What the personal address book holds. *)
Definition desk_ok : Prop := forall e p v, e ∈ d.(ab_entries) -> p ∈ e.(ab_peers) -> base64_decode p.(ab_peer_hash) = Some v -> v <> [] -> A v.

Lemma load_config_ok c : client_ok c -> may_keep (load_config d c).1.(p_password) /\ client_ok (load_config d c).2 /\ (load_config d c).2.(lc) = c.(lc).
Proof.
  intros [Hl Hf]. unfold load_config. destruct (peer_load_ok c.(lc).(lc_id) c.(peer_files) c.(client_draws) Hf) as [Hp Hf'].
  destruct (peer_load d _ _ _) as [p [files n]]. cbn in *. done.
Qed.

Lemma save_config_ok p c : may_keep p.(p_password) -> client_ok c -> client_ok (save_config d p c).
Proof.
  intros Hp [[Hl1 Hl2 Hl3 Hl4] Hf]. unfold save_config. pose proof (peer_store_ok c.(lc).(lc_id) p c.(peer_files) c.(client_draws) Hp Hf) as H.
  destruct (peer_store d _ _ _ _) as [files n]. cbn in *. done.
Qed.

Lemma password_to_save_ok l v : lc_ok l -> may_keep v -> may_keep (password_to_save l v).
Proof.
  intros [Hp _ Hs _] Hv. unfold password_to_save. destruct Hp as [Hp | (p & Hsrc & Hpw)].
  - destruct (lc_remember l); [by destruct (_ && _)|]. destruct (source_is_personal_ab _ _); [done|]. destruct (negb _); [by left|done].
  - unfold source_is_shared_ab, source_is_personal_ab, source_equal. rewrite Hsrc, Hs, <- Hpw.
    rewrite (bool_decide_eq_true_2 (lc_password l = lc_password l)) by done.
    destruct (lc_remember l).
    + destruct (is_nil (lc_password l)); cbn; [done|]. by rewrite andb_false_r.
    + destruct (is_nil (lc_password l)); (destruct (negb _); [by left|done]).
Qed.

Lemma handle_peer_info_ok pi c : client_ok c -> client_ok (handle_peer_info d pi c).
Proof.
  intros Hc. unfold handle_peer_info.
  set (c1 := if negb (is_nil (pi_version pi)) then _ else _). assert (H1 : client_ok c1) by (unfold c1; destruct (negb _); [by apply (client_ok_same c)|done]).
  clearbody c1. set (c2 := on_lc _ c1). assert (H2 : client_ok c2) by (by apply (client_ok_same c1)). clearbody c2.
  destruct (load_config_ok c2 H2) as (Hp & H3 & Hl). destruct (load_config d c2) as [p c3]. cbn [fst snd] in *.
  pose proof (password_to_save_ok c3.(lc) p.(p_password) (proj1 H3) Hp) as Hs. set (v := password_to_save _ _) in *. clearbody v.
  set (p1 := match lc_other_server (lc c3) with Some _ => _ | None => _ end).
  assert (Hp1 : p1.(p_password) = v) by (unfold p1; destruct (lc_other_server (lc c3)) as [[[? b] ?]|]; [destruct (negb _)|]; done). clearbody p1.
  set (p2 := if lc_peer_relay (lc c3) then _ else _). assert (Hp2 : p2.(p_password) = v) by (unfold p2; destruct (lc_peer_relay _); done). clearbody p2.
  set (c4 := if _ && _ && _ then _ else _). assert (H4 : client_ok c4) by (unfold c4; destruct (_ && _ && _); [by apply (client_ok_same c3)|done]). clearbody c4.
  assert (H5 : client_ok (save_config d (set_p_keyboard_mode (next_keyboard_mode pi (p_keyboard_mode p2)) p2) c4)).
  { apply save_config_ok; [|done]. cbn. by rewrite Hp2. }
  by eapply client_ok_same, H5.
Qed.


Lemma set_option_ok k v c : client_ok c -> client_ok (set_option d k v c).
Proof.
  intros H. unfold set_option. destruct (load_config_ok c H) as (Hp & H1 & _). destruct (load_config d c) as [p c1]. cbn [fst snd] in *.
  destruct (bool_decide _); [done|]. by apply save_config_ok.
Qed.

Lemma handle_login_error_ok err c : client_ok c -> client_ok (handle_login_error d err c).2.
Proof.
  intros H. unfold handle_login_error.
  assert (Hcleared : client_ok (on_lc (set_lc_password []) c)) by (destruct H as [[] ?]; split; [constructor; cbn; [by left; left|done|done|intros _; by left]|done]).
  repeat case_bool_decide; cbn [orb snd]; try (by eapply client_ok_same, Hcleared); try (by eapply client_ok_same, H).
  all: try (by eapply client_ok_same, set_option_ok, H).
Qed.

Lemma source_default_ok v c : may_keep v -> client_ok c -> client_ok (on_lc (set_lc_password v) (source_default c)).
Proof. intros Hv [[] ?]. repeat split; cbn; try done. by left. Qed.

(** A choice of password: the handler with the password in place of its own. *)
Definition choice_ok (r : bytes * Client) : Prop :=
  pw_ok r.2.(lc).(lc_password_source) r.1 /\ may_keep r.2.(lc).(lc_config).(p_password) /\
  r.2.(lc).(lc_hash).(salt) = salt0 /\ r.2.(lc).(lc_switch_uuid) = None /\ files_ok r.2.(peer_files).

Lemma personal_choice c : desk_ok -> choice_ok ([], c) -> choice_ok (try_get_password_from_personal_ab d c).
Proof.
  intros Hd (H1 & H2 & H3 & H5 & H4). unfold try_get_password_from_personal_ab. destruct (_ && _); [|by repeat split].
  destruct (find personal _) as [e|] eqn:Ee; [|by repeat split]. destruct (find _ (ab_peers e)) as [p|] eqn:Ep; [|by repeat split].
  apply find_some in Ee as [Ee _]. apply find_some in Ep as [Ep _]. apply list_elem_of_In in Ee, Ep.
  destruct (base64_decode _) as [v|] eqn:Ev; [|by repeat split]. destruct (is_nil v) eqn:En; [by repeat split|]. cbn.
  repeat split; cbn; try done. left. right. eapply Hd; [exact Ee|exact Ep|exact Ev|]. by destruct v.
Qed.

Lemma choose_password_ok preset hash c : desk_ok -> hash.(salt) = salt0 -> (preset <> [] -> A (sha256 (preset ++ salt0))) -> c.(lc).(lc_switch_uuid) = None -> client_ok c ->
  let r := choose_password d preset hash c in client_ok (on_lc (set_lc_password r.1) r.2).
Proof.
  intros Hd Hs Hpre Hu [[H1 H2 H3 _] H4] r. cut (choice_ok r).
  { intros (K1 & K2 & K3 & K5 & K4). repeat split; cbn; try done. rewrite K5. by intros []. }
  unfold r, choose_password. rewrite Hs.
  set (r1 := if _ && negb (is_nil preset) then _ else _). assert (K1 : choice_ok r1).
  { unfold r1. destruct (is_nil (lc_password _)); [|done]. destruct (is_nil preset) eqn:E; [done|]. repeat split; cbn; try done. left. right. apply Hpre. by destruct preset. }
  clearbody r1. destruct r1 as [p1 c1]. destruct K1 as (K1 & K2 & K3 & K5 & K4). cbn [fst snd] in *.
  set (r2 := match lc_shared_password (lc c1) with Some _ => _ | None => _ end). assert (J : choice_ok r2).
  { unfold r2. destruct (lc_shared_password _) as [p|]; [|by repeat split]. destruct (is_nil p); [by repeat split|].
    repeat split; cbn; try done. right. by exists p. }
  clearbody r2. destruct r2 as [p2 c2]. destruct J as (J1 & J2 & J3 & J5 & J4). cbn [fst snd] in *.
  set (r3 := if is_nil p2 then _ else _). assert (I : choice_ok r3).
  { unfold r3. destruct (is_nil p2); [|by repeat split]. destruct (is_nil (p_password _)); repeat split; cbn; try done; by left. }
  clearbody r3. destruct r3 as [p3 c3]. set (r4 := if is_nil p3 then _ else _). assert (G : choice_ok r4).
  { unfold r4. destruct (is_nil p3) eqn:E; [|done]. apply personal_choice; [done|]. by destruct p3. }
  clearbody r4. destruct r4 as [p4 c4]. destruct (is_nil p4 && _); [|done]. destruct G as (G1 & G2 & G3 & G5 & G4).
  repeat split; cbn; try done. right. by eexists.
Qed.

Lemma handle_hash_ok preset hash c : desk_ok -> hash.(salt) = salt0 -> (preset <> [] -> A (sha256 (preset ++ salt0))) -> client_ok c ->
  client_ok (handle_hash d preset hash c).2.
Proof.
  intros Hd Hs Hpre Hc. unfold handle_hash. set (c1 := on_lc _ (set_hash hash c)).
  assert (H1 : client_ok c1 /\ c1.(lc).(lc_switch_uuid) = None).
  { destruct Hc as [[] ?]. split; [|done]. split; [constructor; cbn; try done; by intros []|done]. }
  assert (Hsw : is_Some (lc_switch_uuid (lc (set_hash hash c))) -> may_keep c1.(lc).(lc_password)) by (intros Hu; by apply (ok_switch _ (proj1 Hc))).
  destruct H1 as [H1 Hnone]. clearbody c1.
  destruct (match lc_switch_uuid _ with Some _ => _ | None => _ end) as [u|] eqn:Eu.
  { cbn [snd]. destruct H1 as [[K1 K2 K3 K5] K4]. repeat split; cbn; try done. left. apply Hsw. cbn in Eu |- *.
    destruct (lc_switch_uuid (lc c)); [by eexists|done]. }
  destruct (is_incoming_only d); [by eapply client_ok_same, H1|].
  pose proof (choose_password_ok preset hash c1 Hd Hs Hpre Hnone H1) as H2. cbv zeta in H2. destruct (choose_password d preset hash c1) as [pw c2]. cbn [fst snd] in H2.
  assert (H3 : forall c', client_ok c' -> client_ok (set_hash hash c')) by (intros c' [[] ?]; by repeat split).
  destruct (_ && _); [apply H3; by eapply client_ok_same, H2|]. destruct (is_nil pw); apply H3; by eapply client_ok_same, H2.
Qed.

Lemma login_from_ui_ok user os pw remember c : (pw <> [] -> A (sha256 (pw ++ salt0))) -> client_ok c -> client_ok (handle_login_from_ui user os pw remember c).
Proof.
  intros Hpw [[H1 H2 H3 H5] H4]. unfold handle_login_from_ui.
  set (r := if is_nil pw then _ else _).
  assert (K : client_ok (on_lc (set_lc_password r.1) r.2)).
  { unfold r. destruct (is_nil pw) eqn:En.
    - destruct (is_nil (lc_password _)) eqn:Ep.
      + destruct (is_nil (p_password _)); (split; [constructor; cbn; try done; by left|done]).
      + split; [by constructor|done].
    - assert (Ha : may_keep (sha256 (pw ++ salt (lc_hash (lc c))))) by (right; rewrite H3; apply Hpw; by destruct pw).
      split; [constructor; cbn; try done; by left|done]. }
  clearbody r. destruct r as [v c']. cbn [fst snd] in K. by eapply client_ok_same, K.
Qed.

(** A session: its handler is initialized once. *)
Lemma handle_ok e c : desk_ok -> event_ok e -> match e with Initialize _ _ _ _ _ _ _ => False | _ => True end -> client_ok c -> client_ok (handle d e c).
Proof.
  intros Hd He Hi Hc. destruct e as [|preset h|h|u o pw r|err|pi]; cbn [handle] in *; [done|..].
  - destruct He. by apply handle_hash_ok.
  - destruct Hc as [[] ?]. by repeat split.
  - by apply login_from_ui_ok.
  - by apply handle_login_error_ok.
  - by apply handle_peer_info_ok.
Qed.

Lemma run_ok es c : desk_ok -> Forall (fun e => event_ok e /\ match e with Initialize _ _ _ _ _ _ _ => False | _ => True end) es ->
  client_ok c -> client_ok (run d es c).
Proof.
  intros Hd Hes. revert c. induction Hes as [|e es [He Hi] _ IH]; intros c Hc; [done|]. change (run d (e :: es) c) with (run d es (handle d e c)).
  apply IH. by apply handle_ok.
Qed.

(** ** The first events of a session *)

Lemma initialize_spec id t u f a s token files n :
  let c := initialize d id t u f a s token (client_new files n) in
  let id' := (parse_id id f).1.1 in
  c.(lc).(lc_id) = id' /\ c.(lc).(lc_conn_type) = t /\ c.(lc).(lc_switch_uuid) = u /\ c.(lc).(lc_shared_password) = s /\
  c.(lc).(lc_is_terminal_admin) = bool_decide (t = TERMINAL) && d.(is_terminal_admin_env) /\
  c.(lc).(lc_config) = (peer_load d id' files n).1 /\ c.(peer_files) = (peer_load d id' files n).2.1 /\
  c.(lc).(lc_password) = from_option t_password [] token /\ c.(lc).(lc_password_source) = from_option t_password_source Undefined token.
Proof.
  cbv zeta. unfold initialize, load_config. destruct (parse_id id f) as [[id' f'] other]. cbn [fst].
  set (c0 := on_lc _ (client_new files n)).
  assert (H0 : c0.(lc).(lc_id) = id' /\ c0.(lc).(lc_conn_type) = t /\ c0.(lc).(lc_password) = [] /\ c0.(lc).(lc_password_source) = Undefined /\
    c0.(peer_files) = files /\ c0.(client_draws) = n) by (by destruct other). clearbody c0. destruct H0 as (H1 & H2 & H3 & H4 & -> & ->).
  rewrite H1. destruct (peer_load d id' files n) as [p [files' n']]. cbn [fst snd].
  set (c1 := on_lc _ (set_peer_files _ _)).
  assert (K : c1.(lc).(lc_id) = id' /\ c1.(lc).(lc_conn_type) = t /\ c1.(lc).(lc_config) = p /\ c1.(peer_files) = files' /\
    c1.(lc).(lc_password) = from_option t_password [] token /\ c1.(lc).(lc_password_source) = from_option t_password_source Undefined token)
    by (by destruct token). clearbody c1. destruct K as (K1 & K2 & K3 & K4 & K5 & K6).
  assert (Hr : exists sid n', match token with
     | Some t => if t_session_id t =? 0 then random_session_id c1 else (t_session_id t, c1) | None => random_session_id c1 end = (sid, set_client_draws n' c1)).
  { destruct token as [k|]; [destruct (t_session_id k =? 0)|]; [by eexists _, _| |by eexists _, _]. exists (t_session_id k), c1.(client_draws). by destruct c1. }
  destruct Hr as (sid & n2 & ->). cbn. rewrite K2. by repeat split.
Qed.


Definition is_hash (e : Event) : Prop := match e with HashArrived _ _ | SetHash _ => True | _ => False end.
Definition not_initial (e : Event) : Prop := match e with Initialize _ _ _ _ _ _ _ => False | _ => True end.

(** A session begins with an initialization, whose password is for the salt, and the peer's hash. *)
Lemma begin_ok id t u f a s token first files n :
  desk_ok -> files_ok files -> (u = None \/ token = None) -> from_option token_ok True token -> is_hash first -> event_ok first ->
  client_ok (handle d first (initialize d id t u f a s token (client_new files n))).
Proof.
  intros Hd Hf Hu Ht Hh He. destruct (initialize_spec id t u f a s token files n) as (_ & _ & Hsw & _ & _ & Hc & Hfs & Hp & Hs).
  set (c := initialize d id t u f a s token (client_new files n)) in *. clearbody c.
  destruct (peer_load_ok (parse_id id f).1.1 files n Hf) as [Hk Hf'].
  assert (H : forall h, h.(salt) = salt0 -> client_ok (set_hash h c)).
  { intros h Hsalt. split; [|by rewrite <- Hfs in Hf']. constructor; cbn; [| |done|].
    - rewrite Hp, Hs. destruct token as [k|]; [exact Ht|by left; left].
    - rewrite Hc. exact Hk.
    - rewrite Hsw, Hp. intros [x Hx]. destruct Hu as [-> | ->]; [done|by left]. }
  destruct first as [|preset h0|h0| | |]; try done; cbn [handle].
  - destruct He as [He1 He2]. exact (handle_hash_ok preset h0 (set_hash h0 c) Hd He1 He2 (H _ He1)).
  - by apply H.
Qed.

(** ** A password typed and remembered *)

Lemma peer_info_saves pi c : desk_writable d = true -> let v := c.(lc).(lc_password) in
  v <> [] -> zlen v <= ENCRYPT_MAX_LEN -> plain_password v -> c.(lc).(lc_password_source) = Undefined -> c.(lc).(lc_remember) = true ->
  exists p, (handle_peer_info d pi c).(peer_files) !! peer_path c.(lc).(lc_id) = Some p /\ remembered m p = v.
Proof.
  intros Hw v Hv Hl Hpl Hsrc Hrem. unfold handle_peer_info.
  set (c1 := if negb (is_nil (pi_version pi)) then _ else _). set (c2 := on_lc _ c1).
  assert (H2 : c2.(lc).(lc_password) = v /\ c2.(lc).(lc_password_source) = Undefined /\ c2.(lc).(lc_remember) = true /\ c2.(lc).(lc_id) = c.(lc).(lc_id))
    by (unfold c2, c1; by destruct (negb _)). clearbody c2. clear c1. unfold load_config. destruct (peer_load d _ _ _) as [p0 [files n]].
  set (c3 := set_peer_files files _). assert (H3 : c3.(lc) = c2.(lc)) by done. clearbody c3. rewrite H3.
  destruct H2 as (K1 & K2 & K3 & K4). set (v0 := password_to_save _ _).
  assert (Hsave : v0 = v).
  { unfold v0, password_to_save. rewrite K1, K2, K3. cbn. unfold source_is_shared_ab. destruct (is_nil v) eqn:E; [by destruct v|]. cbn. rewrite andb_true_r.
    destruct (bool_decide_reflect (v = p_password p0)); by cbn. }
  clearbody v0. subst v0. set (p1 := match lc_other_server _ with Some _ => _ | None => _ end).
  assert (Hp1 : p1.(p_password) = v) by (unfold p1; destruct (lc_other_server _) as [[[? b] ?]|]; [destruct (negb _)|]; done). clearbody p1.
  set (p2 := if lc_peer_relay _ then _ else _). assert (Hp2 : p2.(p_password) = v) by (unfold p2; destruct (lc_peer_relay _); done). clearbody p2.
  set (c4 := if _ && _ && _ then _ else _). assert (H4 : c4.(lc) = c2.(lc)) by (unfold c4; destruct (_ && _ && _); [exact H3|exact H3]). clearbody c4.
  unfold save_config. set (p3 := set_p_keyboard_mode _ p2). assert (Hp3 : p3.(p_password) = v) by exact Hp2. clearbody p3.
  unfold peer_store. pose proof (sealed_vec p3.(p_password) c4.(client_draws)) as Hseal. rewrite Hp3 in Hseal. specialize (Hseal Hpl). cbv zeta in Hseal.
  rewrite (proj2 (Z.ltb_ge _ _) Hl) in Hseal. rewrite Hp3.
  destruct (encrypt_vec_or_original _ _ _ _ _) as [sv n1]. cbn [fst] in Hseal. destruct (foldl _ _ _) as [o n2]. rewrite Hw, H4, K4. cbn.
  eexists. split; [apply lookup_insert_eq|]. exact Hseal.
Qed.

(** A new session that finds a remembered password answers with it. *)
Lemma remembered_answer id t f a files n hash p v :
  t <> TERMINAL -> is_incoming_only d = false -> files !! peer_path (parse_id id f).1.1 = Some p -> remembered m p = v -> v <> [] ->
  let c := (handle_hash d [] hash (initialize d id t None f a None None (client_new files n))).2 in
  exists sid trust, last c.(outs) = Some (SendLogin [] [] (sha256 (v ++ hash.(challenge))) sid trust).
Proof.
  intros Ht Hi Hp Hv Hn. destruct (initialize_spec id t None f a None None files n) as (H1 & H2 & H3 & H4 & H5 & H6 & _ & H8 & _).
  set (c0 := initialize d id t None f a None None (client_new files n)) in *. clearbody c0.
  assert (Hc : p_password (lc_config (lc c0)) = v) by (rewrite H6, peer_load_password, Hp; exact Hv).
  unfold handle_hash. set (c1 := on_lc _ (set_hash hash c0)). assert (K : lc_switch_uuid (lc (set_hash hash c0)) = None) by exact H3. rewrite K.
  rewrite Hi. assert (Hpw : choose_password d [] hash c1 = (v, source_default (on_lc (set_lc_shared_password None) c1))).
  { unfold choose_password. cbn [from_option] in H8. change (lc_password (lc c1)) with (lc_password (lc c0)). rewrite H8. cbn [is_nil andb negb].
    change (lc_shared_password (lc c1)) with (lc_shared_password (lc c0)). rewrite H4. cbn [is_nil].
    change (p_password (lc_config (lc (on_lc (set_lc_shared_password None) c1)))) with (p_password (lc_config (lc c0))). rewrite Hc.
    destruct (is_nil v) eqn:E; [by destruct v|]. cbn. by rewrite E. }
  rewrite Hpw. change (lc_conn_type _) with (lc_conn_type (lc c0)). rewrite H2. rewrite bool_decide_eq_false_2 by done. cbn [andb].
  destruct (is_nil v) eqn:E; [by destruct v|]. cbn. rewrite H2, bool_decide_eq_false_2 by done. rewrite last_snoc. by eexists _, _.
Qed.

(** Errors other than those about the password: a second factor, a wait for a click. *)
Definition keeps_login (l l' : Lch) : Prop :=
  l'.(lc_id) = l.(lc_id) /\ l'.(lc_password) = l.(lc_password) /\ l'.(lc_password_source) = l.(lc_password_source) /\ l'.(lc_remember) = l.(lc_remember).

Lemma set_option_keeps k v c : keeps_login c.(lc) (set_option d k v c).(lc).
Proof.
  unfold set_option, load_config, save_config. destruct (peer_load d _ _ _) as [p [files n]]. destruct (bool_decide _); [done|].
  by destruct (peer_store d _ _ _ _) as [files' n'].
Qed.

Lemma error_keeps err c : err <> LOGIN_MSG_PASSWORD_EMPTY -> err <> LOGIN_MSG_PASSWORD_WRONG -> keeps_login c.(lc) (handle d (LoginError err) c).(lc).
Proof.
  intros H1 H2. cbn [handle]. unfold handle_login_error. rewrite (bool_decide_eq_false_2 _ H1), (bool_decide_eq_false_2 _ H2).
  repeat case_bool_decide; cbn [orb snd]; try done; apply set_option_keeps.
Qed.

Lemma errors_keep errs c : Forall (fun err => err <> LOGIN_MSG_PASSWORD_EMPTY /\ err <> LOGIN_MSG_PASSWORD_WRONG) errs ->
  keeps_login c.(lc) (run d (LoginError <$> errs) c).(lc).
Proof.
  intros H. revert c. induction H as [|err errs [H1 H2] _ IH]; intros c; [done|].
  change (run d (LoginError <$> err :: errs) c) with (run d (LoginError <$> errs) (handle d (LoginError err) c)).
  destruct (error_keeps err c H1 H2) as (E1 & E2 & E3 & E4). destruct (IH (handle d (LoginError err) c)) as (F1 & F2 & F3 & F4).
  repeat split; congruence.
Qed.

End OnDesk.

(** Only passwords of one's own are remembered.  Let [A] be passwords that may be kept
    (none that looks sealed already).  In a session with one salt, begun on files that keep only
    such passwords, where what is typed, preset, taken over from another session or found in the
    personal address book is in [A], the files of all peers keep only passwords of [A], whatever
    the peer sends in what order: never the password of a shared address book or the default one
    of the deployment, which answer the peer's challenge all the same. *)
Theorem shared_password_not_kept (d : Desk) (A : bytes -> Prop) (salt0 : bytes) id t u f a s token first es files n :
  (forall v, A v -> plain_password v) -> desk_ok d A -> files_ok d A files ->
  (u = None \/ token = None) -> from_option (token_ok A salt0) True token ->
  is_hash first -> event_ok A salt0 first -> Forall (fun e => event_ok A salt0 e /\ not_initial e) es ->
  let c := run d (Initialize id t u f a s token :: first :: es) (client_new files n) in
  forall path p, c.(peer_files) !! path = Some p -> remembered d.(desk_machine) p = [] \/ A (remembered d.(desk_machine) p).
Proof.
  intros HA Hd Hf Hu Ht Hh He Hes c path p Hp.
  pose proof (begin_ok d A HA salt0 id t u f a s token first files n Hd Hf Hu Ht Hh He) as H.
  pose proof (run_ok d A HA salt0 es _ Hd Hes H) as [_ Hok]. exact (Hok path p Hp).
Qed.

(** C7: a password typed once and remembered logs in from then on.  After a session in which
    the right password was typed with "remember" (whatever second factors and waits there were
    before the peer let it in), any later session with that peer, begun while the peer's file is as
    that session left it, answers the peer's challenge without asking, and with an answer that the
    peer accepts: [holds] is what [permanent_password_works] shows of a peer with that password. *)
Theorem remembered_login (d d' : Desk) (c : Client) user os pw hash1 errs pi id t f a files n hash2 :
  d.(desk_writable) = true -> pw <> [] -> plain_password (sha256 (pw ++ hash1.(salt))) ->
  Forall (fun err => err <> LOGIN_MSG_PASSWORD_EMPTY /\ err <> LOGIN_MSG_PASSWORD_WRONG) errs ->
  let c1 := run d ([SetHash hash1; LoginFromUi user os pw true] ++ (LoginError <$> errs) ++ [PeerInfoArrived pi]) c in
  d'.(desk_machine) = d.(desk_machine) -> d'.(is_incoming_only) = false -> t <> TERMINAL -> (parse_id id f).1.1 = c.(lc).(lc_id) ->
  files !! peer_path c.(lc).(lc_id) = c1.(peer_files) !! peer_path c.(lc).(lc_id) ->
  let c2 := run d' [Initialize id t None f a None None; HashArrived [] hash2] (client_new files n) in
  exists response sid trust, last c2.(outs) = Some (SendLogin [] [] response sid trust) /\
  forall m storage cfg e s, Permanent.holds m storage hash1.(salt) (sha256 (pw ++ hash1.(salt))) cfg -> Permanent.reads m cfg e ->
    s.(conn).(lr).(password) = response -> s.(conn).(hash).(challenge) = hash2.(challenge) -> validate_permanent e s = true.
Proof.
  intros Hw Hpw Hpl Herr c1 Hm Hi Ht Hid Hfile. set (v := sha256 (pw ++ salt hash1)) in *.
  assert (Hn : v <> []) by (pose proof (sha256_length (pw ++ salt hash1)) as Hl; fold v in Hl; by destruct v).
  assert (Hlen : zlen v <= ENCRYPT_MAX_LEN) by (unfold v; by rewrite sha256_length).
  set (ct := handle_login_from_ui user os pw true (set_hash hash1 c)).
  assert (Hct : lc_id (lc ct) = lc_id (lc c) /\ lc_password (lc ct) = v /\ lc_password_source (lc ct) = Undefined /\ lc_remember (lc ct) = true).
  { unfold ct, handle_login_from_ui. by destruct pw. }
  set (ce := run d (LoginError <$> errs) ct). assert (Hc1 : c1 = handle_peer_info d pi ce).
  { unfold c1, ce, run. by rewrite !foldl_app. }
  destruct (errors_keep d errs ct Herr) as (E1 & E2 & E3 & E4). fold ce in E1, E2, E3, E4. destruct Hct as (F1 & F2 & F3 & F4).
  destruct (peer_info_saves d pi ce Hw) as (p & Hp & Hv); [congruence..|]. rewrite <- Hc1, E1, F1 in Hp. rewrite E2, F2 in Hv.
  destruct (remembered_answer d' id t f a files n hash2 p v Ht Hi) as (sid & trust & Hlast); [by rewrite Hid, Hfile|by rewrite Hm|done|].
  eexists _, sid, trust. split; [exact Hlast|]. intros m storage cfg e s0 Hh Hr Hresp Hch.
  apply (Permanent.holds_validates _ _ _ _ _ _ _ Hh Hr). by rewrite Hch.
Qed.

End Remember.
(** ** Concrete sessions *)

Abbreviation run' := (run (L := SealToy.toy) (S := SealToy.toy_sealing)).
Abbreviation sha := (sha256 (Libraries := SealToy.toy)).

Definition toy_desk : Desk :=
  mkDesk (mkMachine [1; 2; 3] None) true false false false false [] [] [] [] (fun _ => None) (fun _ _ => false).
Definition toy_info : PeerInfo := mkPeerInfo [] [] [] [] None None.
Definition toy_id : bytes := Eval vm_compute in as_bytes "123456789".
Definition toy_files : gmap bytes PeerConfig := ∅.
Definition toy_handler : Client := run' toy_desk [Initialize toy_id DEFAULT_CONN None false None None None] (client_new toy_files 0).

(** The peer whose password was set, and its salt. *)
Definition toy_peer : Store.Config :=
  (Store.set_permanent_password (L := SealToy.toy) (S := SealToy.toy_sealing) Permanent.toy_host Permanent.toy_password Permanent.toy_proc).2.(Store.config).
Definition toy_salt : bytes := Eval vm_compute in toy_peer.(Store.cfg_salt).

Definition toy_challenged (h : Hash) (response : bytes) : Sys :=
  mkSys (set_lr (Permanent.toy_login response) (conn_new 1 (LoginThrottle.Throttle.V4 7) h None None))
    (mkShared LoginLockout.Lockout.failure_state_default ∅ ∅ ∅ ∅ (mkTemporary [] [] 0) ∅ [] []) [].

Lemma remembered_login_witness :
  let h1 := mkHash toy_salt [5] in let h2 := mkHash toy_salt [6] in
  let c1 := run' toy_desk [SetHash h1; LoginFromUi [] [] Permanent.toy_password true; LoginError REQUIRE_2FA; PeerInfoArrived toy_info] toy_handler in
  let c2 := run' toy_desk [Initialize toy_id FILE_TRANSFER None false None None None; HashArrived [] h2] (client_new c1.(peer_files) 9) in
  exists response sid trust, last c2.(outs) = Some (SendLogin [] [] response sid trust) /\
    validate_permanent (L := SealToy.toy) (Permanent.toy_env toy_peer)
      (toy_challenged h2 response) = true.
Proof.
  intros h1 h2 c1 c2.
  destruct (remembered_login (W := SealToy.toy_laws) toy_desk toy_desk toy_handler [] [] Permanent.toy_password h1 [REQUIRE_2FA] toy_info
    toy_id FILE_TRANSFER false None c1.(peer_files) 9%nat h2) as (response & sid & trust & Hlast & Hok).
  - reflexivity.
  - discriminate.
  - split; [apply (SealToy.resize_bytes 32)|reflexivity].
  - repeat constructor; discriminate.
  - reflexivity.
  - reflexivity.
  - discriminate.
  - reflexivity.
  - reflexivity.
  - exists response, sid, trust. split; [exact Hlast|].
    refine (Hok Permanent.toy_host.(Store.h_machine) toy_peer.(Store.cfg_password) toy_peer (Permanent.toy_env toy_peer)
      (toy_challenged h2 response) _ _ eq_refl eq_refl).
    + split; [reflexivity|vm_compute; reflexivity|vm_compute; reflexivity|reflexivity].
    + split; [reflexivity|split; reflexivity].
Defined.

(** A session opened with a shared password, which was wrong; then one's own is typed. *)
Lemma shared_password_not_kept_witness :
  let own := sha (Permanent.toy_password ++ toy_salt) in
  let h := mkHash toy_salt [5] in
  let c := run' toy_desk [Initialize toy_id DEFAULT_CONN None false None (Some [65; 66]) None; HashArrived [] h; LoginError LOGIN_MSG_PASSWORD_WRONG;
                          LoginFromUi [] [] Permanent.toy_password true; PeerInfoArrived toy_info] (client_new toy_files 0) in
  is_Some (c.(peer_files) !! toy_id) /\
  forall path p, c.(peer_files) !! path = Some p ->
    remembered (L := SealToy.toy) toy_desk.(desk_machine) p = [] \/ remembered (L := SealToy.toy) toy_desk.(desk_machine) p = own.
Proof.
  intros own h c. split; [vm_compute; eexists; reflexivity|].
  apply (shared_password_not_kept (W := SealToy.toy_laws) toy_desk (fun v => v = own) toy_salt toy_id DEFAULT_CONN None false None (Some [65; 66]) None
    (HashArrived [] h) [LoginError LOGIN_MSG_PASSWORD_WRONG; LoginFromUi [] [] Permanent.toy_password true; PeerInfoArrived toy_info] toy_files 0).
  - intros v ->. split; [apply (SealToy.resize_bytes 32)|reflexivity].
  - intros e p v He. by apply elem_of_nil in He.
  - intros id p H. unfold toy_files in H. by rewrite lookup_empty in H.
  - by left.
  - exact I.
  - exact I.
  - by split.
  - repeat constructor.
Defined.

(** With two salts in a session the code's test no longer recognises a shared password: the peer has
    a remembered password, a shared one is used, the peer announces another salt before it lets the
    session in, and the remembered password is replaced by the shared one. *)
Lemma stale_shared_kept :
  let own := sha (Permanent.toy_password ++ toy_salt) in
  let c1 := run' toy_desk [SetHash (mkHash toy_salt [5]); LoginFromUi [] [] Permanent.toy_password true; PeerInfoArrived toy_info] toy_handler in
  let c2 := run' toy_desk [Initialize toy_id DEFAULT_CONN None false None (Some [65; 66]) None; HashArrived [] (mkHash toy_salt [6]);
                           HashArrived [] (mkHash [67] [7]); PeerInfoArrived toy_info] (client_new c1.(peer_files) 3) in
  (remembered (L := SealToy.toy) toy_desk.(desk_machine) <$> c1.(peer_files) !! toy_id) = Some own /\
  (remembered (L := SealToy.toy) toy_desk.(desk_machine) <$> c2.(peer_files) !! toy_id) = Some (sha ([65; 66] ++ toy_salt)).
Proof. split; vm_compute; reflexivity. Qed.

End Remember.
