(* ===== verification/SessServer.v ===== *)
(** The services of the controlled side and who subscribes to them
    ([src/src/server/service.rs], [src/src/server.rs]).

    A connection is its id; what a service sends is a list of (connection, message). *)

From stdpp Require Import pretty.
From S2P Require Import Prelude.
#[local] Open Scope Z_scope.

Module Services.

Record ServiceInner := mkService {
  subscribes : gset Z;
  new_subscribes : gset Z;
  active : bool;
  need_snapshot : bool;
  options : gmap string string
}.

Definition set_subs (subs news : gset Z) (s : ServiceInner) : ServiceInner :=
  mkService subs news s.(active) s.(need_snapshot) s.(options).

(** [ServiceTmpl::new] *)
Definition service_new (need_snapshot : bool) : ServiceInner := mkService ∅ ∅ true need_snapshot ∅.

Definition SERVICE_OPTION_VALUE_TRUE : string := "1".
Definition SERVICE_OPTION_VALUE_FALSE : string := "0".

Definition has_subscribes (s : ServiceInner) : bool := (0 <? Z.of_nat (size s.(subscribes))) || (0 <? Z.of_nat (size s.(new_subscribes))).
Definition is_subed (id : Z) (s : ServiceInner) : bool := bool_decide (id ∈ s.(subscribes)) || bool_decide (id ∈ s.(new_subscribes)).

Definition on_subscribe (id : Z) (s : ServiceInner) : ServiceInner :=
  if bool_decide (id ∈ s.(subscribes)) then s
  else if s.(need_snapshot) then set_subs s.(subscribes) ({[id]} ∪ s.(new_subscribes)) s
  else set_subs ({[id]} ∪ s.(subscribes)) s.(new_subscribes) s.

Definition on_unsubscribe (id : Z) (s : ServiceInner) : ServiceInner :=
  if bool_decide (id ∈ s.(subscribes)) then set_subs (s.(subscribes) ∖ {[id]}) s.(new_subscribes) s
  else set_subs s.(subscribes) (s.(new_subscribes) ∖ {[id]}) s.

Definition ok (s : ServiceInner) : bool := s.(active) && has_subscribes s.
Definition join (s : ServiceInner) : ServiceInner := mkService s.(subscribes) s.(new_subscribes) false s.(need_snapshot) s.(options).
Definition get_option (opt : string) (s : ServiceInner) : option string := s.(options) !! opt.
Definition set_option (opt val : string) (s : ServiceInner) : ServiceInner :=
  mkService s.(subscribes) s.(new_subscribes) s.(active) s.(need_snapshot) (<[opt := val]> s.(options)).
Definition is_option_true (opt : string) (s : ServiceInner) : bool :=
  match get_option opt s with Some v => bool_decide (v = SERVICE_OPTION_VALUE_TRUE) | None => false end.
Definition set_option_bool (opt : string) (val : bool) (s : ServiceInner) : ServiceInner :=
  set_option opt (if val then SERVICE_OPTION_VALUE_TRUE else SERVICE_OPTION_VALUE_FALSE) s.

(** ** Sending *)

Definition swap_new_subscribes (s : ServiceInner) : ServiceInner := set_subs (s.(subscribes) ∪ s.(new_subscribes)) ∅ s.

Section Send.
Context {M : Type}.

Definition to_all (m : M) (ids : gset Z) : list (Z * M) := (fun id => (id, m)) <$> elements ids.

Definition send_shared (m : M) (s : ServiceInner) : list (Z * M) := to_all m s.(subscribes).
Definition send_to (m : M) (id : Z) (s : ServiceInner) : list (Z * M) := if bool_decide (id ∈ s.(subscribes)) then [(id, m)] else [].
Definition send_without (m : M) (id : Z) (s : ServiceInner) : list (Z * M) := to_all m (s.(subscribes) ∖ {[id]}).
Definition send_new_subscribes (m : M) (s : ServiceInner) : list (Z * M) := to_all m s.(new_subscribes).

(** [snapshot], of a callback that sends [ms]: afterwards, and whether or not the callback
    failed, the handle's [drop] makes the new subscribers ordinary ones. *)
Definition snapshot (ms : list M) (s : ServiceInner) : list (Z * M) * ServiceInner :=
  if 0 <? Z.of_nat (size s.(new_subscribes))
  then (concat ((fun m => send_new_subscribes m s) <$> ms), swap_new_subscribes s)
  else ([], s).
End Send.

(** ** The server *)

Inductive VideoSource := Monitor | Camera.
#[global] Instance VideoSource_eq_dec : EqDecision VideoSource.
Proof. solve_decision. Defined.

Definition service_name_prefix (source : VideoSource) : string := match source with Monitor => "monitor" | Camera => "camera" end.
(** [idx] is a [usize]. *)
Definition get_service_name (source : VideoSource) (idx : Z) : string := service_name_prefix source +:+ pretty (Z.to_N idx).

Definition CLIPBOARD_NAME : string := "clipboard".
Definition FILE_CLIPBOARD_NAME : string := "file-clipboard".
Definition AUDIO_NAME : string := "audio".
Definition DISPLAY_NAME : string := "display".
Definition NAME_CURSOR : string := "mouse_cursor".
Definition NAME_POS : string := "mouse_pos".
Definition NAME_WINDOW_FOCUS : string := "window_focus".

Record Server := mkServer {
  connections : gset Z;
  services : gmap string ServiceInner;
  id_count : Z
}.

Definition set_services (x : gmap string ServiceInner) (s : Server) : Server := mkServer s.(connections) x s.(id_count).
Definition set_connections (x : gset Z) (s : Server) : Server := mkServer x s.(services) s.(id_count).

Definition is_video_service_name (name : string) : bool :=
  String.prefix (service_name_prefix Monitor) name || String.prefix (service_name_prefix Camera) name.

Definition add_service (name : string) (svc : ServiceInner) (s : Server) : Server := set_services (<[name := svc]> s.(services)) s.
Definition contains (name : string) (s : Server) : bool := bool_decide (is_Some (s.(services) !! name)).

(** [video_service::new] makes a service that sends snapshots. *)
Definition video_service : ServiceInner := service_new true.

(** [new] (Linux); [cursor_embedded]: the capture draws the cursor, [x11]: several displays. *)
Definition new (count : Z) (cursor_embedded x11 : bool) : Server :=
  let s := mkServer ∅ ∅ count in
  let s := add_service AUDIO_NAME (service_new true) s in
  let s := add_service DISPLAY_NAME (service_new true) s in
  let s := add_service CLIPBOARD_NAME (service_new false) s in
  let s := add_service FILE_CLIPBOARD_NAME (service_new false) s in
  if cursor_embedded then s else
  let s := add_service NAME_CURSOR (service_new true) s in
  let s := add_service NAME_POS (service_new false) s in
  if x11 then add_service NAME_WINDOW_FOCUS (service_new false) s else s.

Definition try_add_video (source : VideoSource) (idx : Z) (s : Server) : Server :=
  let name := get_service_name source idx in
  if contains name s then s else add_service name video_service s.

Definition PRIMARY_CAMERA_IDX : Z := 0.
Definition try_add_primary_camera_service (camera_exists : bool) (s : Server) : Server :=
  if negb camera_exists then s else try_add_video Camera PRIMARY_CAMERA_IDX s.
Definition try_add_monitor_service (display_idx : Z) (s : Server) : Server := try_add_video Monitor display_idx s.

Definition on_service (name : string) (f : ServiceInner -> ServiceInner) (s : Server) : Server :=
  set_services (alter f name s.(services)) s.

Definition add_camera_connection (camera_exists : bool) (id : Z) (s : Server) : Server :=
  let s := if camera_exists then on_service (get_service_name Camera PRIMARY_CAMERA_IDX) (on_subscribe id) s else s in
  set_connections ({[id]} ∪ s.(connections)) s.

Definition add_monitor_connection (id : Z) (noperms : list string) (display_idx : Z) (s : Server) : Server :=
  let monitor_service_name := get_service_name Monitor display_idx in
  let subscribe_all := map_imap (fun name svc =>
    Some (if is_video_service_name name && negb (bool_decide (name = monitor_service_name)) then svc
          else if bool_decide (name ∈ noperms) then svc else on_subscribe id svc)) in
  set_connections ({[id]} ∪ s.(connections)) (set_services (subscribe_all s.(services)) s).

Definition remove_connection (id : Z) (s : Server) : Server :=
  set_connections (s.(connections) ∖ {[id]}) (set_services (on_unsubscribe id <$> s.(services)) s).

Definition subscribe (name : string) (id : Z) (sub : bool) (s : Server) : Server :=
  match s.(services) !! name with
  | Some svc =>
      if Bool.eqb (is_subed id svc) sub then s
      else if sub then on_service name (on_subscribe id) s else on_service name (on_unsubscribe id) s
  | None => s
  end.

Definition get_new_id (s : Server) : Z * Server :=
  let n := s.(id_count) + 1 in (n, mkServer s.(connections) s.(services) n).

Definition set_video_service_opt (display : option (VideoSource * Z)) (opt value : string) (s : Server) : Server :=
  set_services (map_imap (fun k v => Some
    (if match display with Some (source, d) => negb (bool_decide (k = get_service_name source d)) | None => false end then v
     else if is_video_service_name k then set_option opt value v else v)) s.(services)) s.

Definition get_subbed_displays_count (id : Z) (s : Server) : Z :=
  Z.of_nat (size (filter (fun kv => is_video_service_name kv.1 && is_subed id kv.2 = true) s.(services))).

Definition capture_displays (id : Z) (source : VideoSource) (displays : list Z) (include exclude : bool) (s : Server) : Server :=
  let displays := get_service_name source <$> displays in
  let keys := (map_to_list s.(services)).*1 in
  foldl (fun s name =>
    if is_video_service_name name then
      if bool_decide (name ∈ displays) then if include then subscribe name id true s else s
      else if exclude then subscribe name id false s else s
    else s) s keys.

(** Whether connection [id] gets what service [name] sends. *)
Definition subed (name : string) (id : Z) (s : Server) : bool :=
  match s.(services) !! name with Some svc => is_subed id svc | None => false end.

End Services.

Module ServicesFacts.
Import Services.

(** Nobody is both a subscriber and a new one; without snapshots nobody is a new one. *)
Definition svc_ok (s : ServiceInner) : Prop :=
  s.(subscribes) ## s.(new_subscribes) /\ (s.(need_snapshot) = false -> s.(new_subscribes) = ∅).
Definition server_ok (s : Server) : Prop := map_Forall (fun _ => svc_ok) s.(services).

Lemma svc_new_ok need : svc_ok (service_new need).
Proof. done. Qed.

Lemma on_subscribe_spec id s : svc_ok s ->
  svc_ok (on_subscribe id s) /\ forall i, is_subed i (on_subscribe id s) = bool_decide (i = id) || is_subed i s.
Proof.
  intros [Hok Hn]. unfold svc_ok, on_subscribe, is_subed in *. case_bool_decide as H1; [|destruct (need_snapshot s) eqn:E]; cbn.
  - split; [done|]. intros i. apply eq_bool_prop_intro. rewrite !orb_True, !bool_decide_spec. set_solver.
  - rewrite E. split; [split; [set_solver|done]|]. intros i. apply eq_bool_prop_intro. rewrite !orb_True, !bool_decide_spec. set_solver.
  - rewrite (Hn eq_refl). split; [split; [set_solver|done]|]. intros i. apply eq_bool_prop_intro. rewrite !orb_True, !bool_decide_spec. set_solver.
Qed.

Lemma on_unsubscribe_spec id s : svc_ok s ->
  svc_ok (on_unsubscribe id s) /\ forall i, is_subed i (on_unsubscribe id s) = negb (bool_decide (i = id)) && is_subed i s.
Proof.
  intros [Hok Hn]. unfold svc_ok, on_unsubscribe, is_subed in *. case_bool_decide as H1; cbn; (split; [split; [set_solver|]|]).
  - done.
  - intros i; apply eq_bool_prop_intro; rewrite andb_True, !orb_True, negb_True, !bool_decide_spec; set_solver.
  - intros Hx. rewrite (Hn Hx). set_solver.
  - intros i; apply eq_bool_prop_intro; rewrite andb_True, !orb_True, negb_True, !bool_decide_spec; set_solver.
Qed.

Lemma on_service_lookup name f s name' :
  (on_service name f s).(services) !! name' = if bool_decide (name' = name) then f <$> s.(services) !! name else s.(services) !! name'.
Proof. cbn. case_bool_decide as H; [subst; apply lookup_alter_eq|by apply lookup_alter_ne]. Qed.

Lemma contains_iff n s s' : (is_Some (s.(services) !! n) <-> is_Some (s'.(services) !! n)) -> contains n s = contains n s'.
Proof. intros H. unfold contains. by apply bool_decide_ext. Qed.

Lemma on_service_ok name f s : server_ok s -> (forall x, svc_ok x -> svc_ok (f x)) -> server_ok (on_service name f s).
Proof.
  intros Hok Hf n x Hx. rewrite on_service_lookup in Hx. case_bool_decide; [|by eapply Hok].
  apply fmap_Some in Hx as (y & Hy & ->). apply Hf. by eapply Hok.
Qed.

Lemma subscribe_spec name id sub s : server_ok s ->
  server_ok (subscribe name id sub s) /\
  (forall n, contains n (subscribe name id sub s) = contains n s) /\
  forall n i, subed n i (subscribe name id sub s) =
    if bool_decide (n = name) && bool_decide (i = id) then contains name s && sub else subed n i s.
Proof.
  intros Hok. unfold subscribe. destruct (services s !! name) as [svc|] eqn:E.
  2: { split; [done|]. split; [done|]. intros n i. case_bool_decide as Hn; cbn [andb]; [|done]. subst n.
       assert (Hc : contains name s = false) by (unfold contains; rewrite E; apply bool_decide_eq_false_2; by intros [? ?]).
       unfold subed. rewrite E, Hc. by case_bool_decide. }
  pose proof (Hok _ _ E) as Hsvc. destruct (on_subscribe_spec id svc Hsvc) as [_ Hs]. destruct (on_unsubscribe_spec id svc Hsvc) as [_ Hu].
  assert (Hc : contains name s = true) by (unfold contains; rewrite E; by rewrite bool_decide_eq_true_2).
  assert (Hcon : forall f n, contains n (on_service name f s) = contains n s).
  { intros f n. apply contains_iff. rewrite on_service_lookup. destruct (bool_decide (n = name)) eqn:Hn; [|done].
    apply bool_decide_eq_true in Hn as ->. by rewrite fmap_is_Some. }
  assert (Hsub : forall f n i, subed n i (on_service name f s) = if bool_decide (n = name) then is_subed i (f svc) else subed n i s).
  { intros f n i. unfold subed. rewrite on_service_lookup. case_bool_decide as Hn; [subst|done]. by rewrite E. }
  assert (Hsame : subed name id s = is_subed id svc) by (unfold subed; by rewrite E).
  destruct (Bool.eqb (is_subed id svc) sub) eqn:Es.
  - apply Bool.eqb_prop in Es. split; [done|]. split; [done|]. intros n i. case_bool_decide as Hn; [subst n|done].
    case_bool_decide as Hi; cbn [andb]; [|done]. subst i. by rewrite Hc, Hsame.
  - destruct sub; (split; [apply on_service_ok; [done|]; intros x Hx|]).
    + by apply on_subscribe_spec.
    + split; [apply Hcon|]. intros n i. rewrite Hsub, Hs. case_bool_decide as Hn; [subst n|done].
      unfold subed. rewrite E. by case_bool_decide; cbn [andb orb]; [rewrite Hc|].
    + by apply on_unsubscribe_spec.
    + split; [apply Hcon|]. intros n i. rewrite Hsub, Hu. case_bool_decide as Hn; [subst n|done].
      unfold subed. rewrite E. by case_bool_decide; cbn [andb orb negb]; [rewrite andb_false_r|].
Qed.

End ServicesFacts.
