(* ===== verification/SessPubSub.v ===== *)
(** What a service delivers to one connection: a private machine, whatever the other connections
    do ([src/src/server/service.rs]).  Every operation holds the service's lock; the steps of a
    snapshot are operations of their own, between which others may run. *)

From S2P Require Import Prelude SessServer.

Module PubSub.
Import Services ServicesFacts.

Section PubSub.
Context {M : Type}.

Inductive Op :=
| OnSubscribe (id : Z)
| OnUnsubscribe (id : Z)
| SendAll (m : M)
| SendTo (m : M) (id : Z)
| SendWithout (m : M) (id : Z)
| SnapSend (m : M) (* [ServiceSwap::send] *)
| SnapSwap. (* the end of a snapshot *)

Definition exec (op : Op) (s : ServiceInner) : list (Z * M) * ServiceInner :=
  match op with
  | OnSubscribe id => ([], on_subscribe id s)
  | OnUnsubscribe id => ([], on_unsubscribe id s)
  | SendAll m => (send_shared m s, s)
  | SendTo m id => (send_to m id s, s)
  | SendWithout m id => (send_without m id s, s)
  | SnapSend m => (send_new_subscribes m s, s)
  | SnapSwap => ([], swap_new_subscribes s)
  end.

Fixpoint run (ops : list Op) (s : ServiceInner) : list (Z * M) * ServiceInner :=
  match ops with
  | [] => ([], s)
  | op :: ops => let '(sent, s) := exec op s in let '(sent', s) := run ops s in (sent ++ sent', s)
  end.

(** What a connection receives of what is sent. *)
Definition received (id : Z) (sent : list (Z * M)) : list M := omap (fun p => if p.1 =? id then Some p.2 else None) sent.

(** ** The machine of one connection *)

(** Not subscribed, waiting for a snapshot, subscribed. *)
Inductive Status := Off | Fresh | On.

Definition mine_exec (need_snapshot : bool) (me : Z) (op : Op) (st : Status) : list M * Status :=
  match op, st with
  | OnSubscribe id, Off => ([], if id =? me then if need_snapshot then Fresh else On else Off)
  | OnUnsubscribe id, _ => ([], if id =? me then Off else st)
  | SendAll m, On => ([m], On)
  | SendTo m id, On => (if id =? me then [m] else [], On)
  | SendWithout m id, On => (if id =? me then [] else [m], On)
  | SnapSend m, Fresh => ([m], Fresh)
  | SnapSwap, Fresh => ([], On)
  | _, _ => ([], st)
  end.

Fixpoint mine_run (need_snapshot : bool) (me : Z) (ops : list Op) (st : Status) : list M * Status :=
  match ops with
  | [] => ([], st)
  | op :: ops => let '(got, st) := mine_exec need_snapshot me op st in let '(got', st) := mine_run need_snapshot me ops st in (got ++ got', st)
  end.

(** ** The refinement *)

Definition status (me : Z) (s : ServiceInner) : Status :=
  if bool_decide (me ∈ s.(subscribes)) then On else if bool_decide (me ∈ s.(new_subscribes)) then Fresh else Off.

Lemma received_app me a b : received me (a ++ b) = received me a ++ received me b.
Proof. apply omap_app. Qed.

Lemma received_to_all me m ids : received me (to_all m ids) = if bool_decide (me ∈ ids) then [m] else [].
Proof.
  unfold to_all, received. assert (Hn := NoDup_elements ids). assert (He : me ∈ ids <-> me ∈ elements ids) by (by rewrite elem_of_elements).
  rewrite (bool_decide_ext _ _ He). clear He. induction (elements ids) as [|i l IH]; cbn; [by rewrite bool_decide_eq_false_2 by apply not_elem_of_nil|].
  apply NoDup_cons in Hn as [Hi Hn]. specialize (IH Hn). destruct (i =? me) eqn:E.
  - apply Z.eqb_eq in E as ->. rewrite (bool_decide_eq_false_2 (me ∈ l)) in IH by done. rewrite bool_decide_eq_true_2 by (apply list_elem_of_here). by rewrite IH.
  - apply Z.eqb_neq in E. rewrite IH. rewrite (bool_decide_ext (me ∈ l) (me ∈ i :: l)); [done|]. rewrite elem_of_cons. naive_solver.
Qed.

Lemma exec_refines me op s : svc_ok s -> let '(sent, s') := exec op s in
  svc_ok s' /\ s'.(need_snapshot) = s.(need_snapshot) /\
  (received me sent, status me s') = mine_exec s.(need_snapshot) me op (status me s).
Proof.
  intros Hok. destruct op as [id|id|m|m id|m id|m|]; cbn [exec].
  - split; [by apply on_subscribe_spec|]. destruct Hok as [Hd Hn]. unfold on_subscribe, status. case_bool_decide as H1.
    + split; [done|]. repeat case_bool_decide; cbn; try done. destruct (Z.eqb_spec id me); [by subst|done].
    + destruct (need_snapshot s) eqn:En; cbn; (split; [done|]); destruct (Z.eqb_spec id me) as [->|Hne];
        repeat case_bool_decide; cbn; try done; try set_solver; repeat case_match; try done; try lia; set_solver.
  - split; [by apply on_unsubscribe_spec|]. destruct Hok as [Hd Hn]. unfold on_unsubscribe, status. case_bool_decide as H1; cbn; (split; [done|]);
      destruct (Z.eqb_spec id me) as [->|Hne]; repeat case_bool_decide; try done; set_solver.
  - split_and!; [done..|]. unfold send_shared. rewrite received_to_all. unfold status. by repeat case_bool_decide.
  - split_and!; [done..|]. unfold send_to, status, received. destruct (Z.eqb_spec id me) as [->|Hne].
    + repeat case_bool_decide; cbn; rewrite ?Z.eqb_refl; done.
    + repeat case_bool_decide; cbn; try done; destruct (Z.eqb_spec id me); done.
  - split_and!; [done..|]. unfold send_without. rewrite received_to_all. unfold status. destruct (Z.eqb_spec id me) as [->|Hne];
      repeat case_bool_decide; cbn; rewrite ?Z.eqb_refl; try done; try set_solver; destruct (Z.eqb_spec id me); done.
  - split_and!; [done..|]. unfold send_new_subscribes. rewrite received_to_all. destruct Hok as [Hd _]. unfold status. repeat case_bool_decide; try done. set_solver.
  - destruct Hok as [Hd Hn]. unfold swap_new_subscribes, status. cbn. split; [split; [set_solver|done]|]. split; [done|].
    repeat case_bool_decide; cbn; try done; set_solver.
Qed.

(** C32: whatever sequence of subscriptions, unsubscriptions, messages and snapshot steps a service
    goes through, with any number of connections, what each connection receives and in which
    order is what a private machine of three states gives: nothing while unsubscribed, only the
    snapshot while new, everything meant for it while subscribed. *)
Theorem service_refines (need_snapshot : bool) (ops : list Op) (me : Z) :
  let '(sent, s) := run ops (service_new need_snapshot) in
  (received me sent, status me s) = mine_run need_snapshot me ops Off.
Proof.
  assert (H : forall s, svc_ok s -> let '(sent, s') := run ops s in
    (received me sent, status me s') = mine_run s.(Services.need_snapshot) me ops (status me s)).
  { induction ops as [|op ops IH]; intros s Hok; cbn [run mine_run]; [done|].
    pose proof (exec_refines me op s Hok) as Hx. destruct (exec op s) as [sent s1]. destruct Hx as (Hok1 & Hn & <-).
    specialize (IH s1 Hok1). rewrite Hn in IH. destruct (run ops s1) as [sent' s2]. rewrite <- IH. by rewrite received_app. }
  exact (H (service_new need_snapshot) (svc_new_ok _)).
Qed.

(** A snapshot that nothing interrupts is its steps. *)
Lemma snapshot_steps ms s : (0 <? Z.of_nat (size s.(new_subscribes))) = true ->
  snapshot ms s = run ((SnapSend <$> ms) ++ [SnapSwap]) s.
Proof.
  intros H. unfold snapshot. rewrite H. induction ms as [|m ms IH]; [done|]. cbn [fmap list_fmap app run exec].
  rewrite <- IH. done.
Qed.

End PubSub.

(** A connection that subscribes while a snapshot is sent becomes an ordinary subscriber at its
    end, although it has missed what was sent before it came; it never gets it. *)
Example late_subscriber :
  received 2 (run [OnSubscribe 1; SnapSend "a"; OnSubscribe 2; SnapSend "b"; SnapSwap; SendAll "c"] (service_new true)).1 = ["b"; "c"] /\
  received 1 (run [OnSubscribe 1; SnapSend "a"; OnSubscribe 2; SnapSend "b"; SnapSwap; SendAll "c"] (service_new true)).1 = ["a"; "b"; "c"].
Proof. by vm_compute. Qed.

End PubSub.
