(* ===== verification/SessState.v ===== *)
(** The state of a connection after its login: permissions, options, files, subscriptions; what a
    message makes the connection do; and what the handlers ask of the platform
    ([src/src/server/connection.rs], the Linux desktop build with the Flutter interface and file
    clipboard). *)

From S2P Require Import Prelude PathFs FsJob FsSend FsWalk MuxWindow TermService VideoQos SessMsg LoginState.
From S2P Require Import SessServer.

Module SessState.
Import Msgs Scope Services LoginState.

(** ** State *)

(** What the local user lets the peer do. *)
Record Perms := mkPerms {
  keyboard : bool;
  clipboard : bool;
  audio : bool;
  file : bool;
  restart : bool;
  recording : bool;
  block_input : bool;
  privacy_mode : bool
}.

Definition set_keyboard (v : bool) (p : Perms) : Perms := mkPerms v p.(clipboard) p.(audio) p.(file)
    p.(restart) p.(recording) p.(block_input) p.(privacy_mode).
Definition set_clipboard (v : bool) (p : Perms) : Perms := mkPerms p.(keyboard) v p.(audio) p.(file)
    p.(restart) p.(recording) p.(block_input) p.(privacy_mode).
Definition set_audio (v : bool) (p : Perms) : Perms := mkPerms p.(keyboard) p.(clipboard) v p.(file)
    p.(restart) p.(recording) p.(block_input) p.(privacy_mode).
Definition set_file (v : bool) (p : Perms) : Perms := mkPerms p.(keyboard) p.(clipboard) p.(audio) v
    p.(restart) p.(recording) p.(block_input) p.(privacy_mode).
Definition set_restart (v : bool) (p : Perms) : Perms := mkPerms p.(keyboard) p.(clipboard)
    p.(audio) p.(file) v p.(recording) p.(block_input) p.(privacy_mode).
Definition set_recording (v : bool) (p : Perms) : Perms := mkPerms p.(keyboard) p.(clipboard)
    p.(audio) p.(file) p.(restart) v p.(block_input) p.(privacy_mode).
Definition set_block_input (v : bool) (p : Perms) : Perms := mkPerms p.(keyboard) p.(clipboard)
    p.(audio) p.(file) p.(restart) p.(recording) v p.(privacy_mode).
Definition set_privacy_mode (v : bool) (p : Perms) : Perms := mkPerms p.(keyboard) p.(clipboard)
    p.(audio) p.(file) p.(restart) p.(recording) p.(block_input) v.

(** What the peer asked for. *)
Record Opts := mkOpts {
  lock_after_session_end : bool;
  show_remote_cursor : bool;
  follow_remote_cursor : bool;
  follow_remote_window : bool;
  disable_audio : bool;
  enable_file_transfer : bool;
  disable_clipboard : bool;
  disable_keyboard : bool;
  show_my_cursor : bool
}.

Definition set_lock_after_session_end (v : bool) (o : Opts) : Opts := mkOpts v
    o.(show_remote_cursor) o.(follow_remote_cursor) o.(follow_remote_window) o.(disable_audio)
    o.(enable_file_transfer) o.(disable_clipboard) o.(disable_keyboard) o.(show_my_cursor).
Definition set_show_remote_cursor (v : bool) (o : Opts) : Opts := mkOpts o.(lock_after_session_end)
    v o.(follow_remote_cursor) o.(follow_remote_window) o.(disable_audio) o.(enable_file_transfer)
    o.(disable_clipboard) o.(disable_keyboard) o.(show_my_cursor).
Definition set_follow_remote_cursor (v : bool) (o : Opts) : Opts := mkOpts
    o.(lock_after_session_end) o.(show_remote_cursor) v o.(follow_remote_window) o.(disable_audio)
    o.(enable_file_transfer) o.(disable_clipboard) o.(disable_keyboard) o.(show_my_cursor).
Definition set_follow_remote_window (v : bool) (o : Opts) : Opts := mkOpts
    o.(lock_after_session_end) o.(show_remote_cursor) o.(follow_remote_cursor) v o.(disable_audio)
    o.(enable_file_transfer) o.(disable_clipboard) o.(disable_keyboard) o.(show_my_cursor).
Definition set_disable_audio (v : bool) (o : Opts) : Opts := mkOpts o.(lock_after_session_end)
    o.(show_remote_cursor) o.(follow_remote_cursor) o.(follow_remote_window) v
    o.(enable_file_transfer) o.(disable_clipboard) o.(disable_keyboard) o.(show_my_cursor).
Definition set_enable_file_transfer (v : bool) (o : Opts) : Opts := mkOpts
    o.(lock_after_session_end) o.(show_remote_cursor) o.(follow_remote_cursor)
    o.(follow_remote_window) o.(disable_audio) v o.(disable_clipboard) o.(disable_keyboard)
    o.(show_my_cursor).
Definition set_disable_clipboard (v : bool) (o : Opts) : Opts := mkOpts o.(lock_after_session_end)
    o.(show_remote_cursor) o.(follow_remote_cursor) o.(follow_remote_window) o.(disable_audio)
    o.(enable_file_transfer) v o.(disable_keyboard) o.(show_my_cursor).
Definition set_disable_keyboard (v : bool) (o : Opts) : Opts := mkOpts o.(lock_after_session_end)
    o.(show_remote_cursor) o.(follow_remote_cursor) o.(follow_remote_window) o.(disable_audio)
    o.(enable_file_transfer) o.(disable_clipboard) v o.(show_my_cursor).
Definition set_show_my_cursor (v : bool) (o : Opts) : Opts := mkOpts o.(lock_after_session_end)
    o.(show_remote_cursor) o.(follow_remote_cursor) o.(follow_remote_window) o.(disable_audio)
    o.(enable_file_transfer) o.(disable_clipboard) o.(disable_keyboard) v.

(** Jobs reading files for the peer, print jobs (instant, path, data), and removed files and
    directories (id, path) not yet reported. *)
Record Files := mkFiles {
  read_jobs : list Job.TransferJob;
  printer_data : list (Z * string * list Z);
  file_transferred : bool;
  removed_files : list (Z * string);
  removed_dirs : list (Z * string);
  removed_at : Z
}.

Definition set_read_jobs (v : list Job.TransferJob) (f : Files) : Files := mkFiles v
    f.(printer_data) f.(file_transferred) f.(removed_files) f.(removed_dirs) f.(removed_at).
Definition set_printer_data (v : list (Z * string * list Z)) (f : Files) : Files := mkFiles
    f.(read_jobs) v f.(file_transferred) f.(removed_files) f.(removed_dirs) f.(removed_at).
Definition set_file_transferred (v : bool) (f : Files) : Files := mkFiles f.(read_jobs)
    f.(printer_data) v f.(removed_files) f.(removed_dirs) f.(removed_at).
Definition set_removed_files (v : list (Z * string)) (f : Files) : Files := mkFiles f.(read_jobs)
    f.(printer_data) f.(file_transferred) v f.(removed_dirs) f.(removed_at).
Definition set_removed_dirs (v : list (Z * string)) (f : Files) : Files := mkFiles f.(read_jobs)
    f.(printer_data) f.(file_transferred) f.(removed_files) v f.(removed_at).
Definition set_removed_at (v : Z) (f : Files) : Files := mkFiles f.(read_jobs) f.(printer_data)
    f.(file_transferred) f.(removed_files) f.(removed_dirs) v.

(** The fields of a connection beside those of its login. *)
Record Ext := mkExt {
  perms : Perms;
  opts : Opts;
  files : Files;
  display_idx : Z;
  multi_ui_session : bool;
  services_subed : bool;
  audio_sender : bool;
  voice_call_request_timestamp : option Z;
  voice_calling : bool;
  chat_unanswered : bool;
  closed : bool;
  last_test_delay : option Z;
  network_delay : Z;
  pressed_modifiers : gset Z;
  auto_disconnect_timer : option (Z * Z)
}.

Definition set_perms (v : Perms) (x : Ext) : Ext := mkExt v x.(opts) x.(files) x.(display_idx)
    x.(multi_ui_session) x.(services_subed) x.(audio_sender) x.(voice_call_request_timestamp)
    x.(voice_calling) x.(chat_unanswered) x.(closed) x.(last_test_delay) x.(network_delay)
    x.(pressed_modifiers) x.(auto_disconnect_timer).
Definition set_opts (v : Opts) (x : Ext) : Ext := mkExt x.(perms) v x.(files) x.(display_idx)
    x.(multi_ui_session) x.(services_subed) x.(audio_sender) x.(voice_call_request_timestamp)
    x.(voice_calling) x.(chat_unanswered) x.(closed) x.(last_test_delay) x.(network_delay)
    x.(pressed_modifiers) x.(auto_disconnect_timer).
Definition set_files (v : Files) (x : Ext) : Ext := mkExt x.(perms) x.(opts) v x.(display_idx)
    x.(multi_ui_session) x.(services_subed) x.(audio_sender) x.(voice_call_request_timestamp)
    x.(voice_calling) x.(chat_unanswered) x.(closed) x.(last_test_delay) x.(network_delay)
    x.(pressed_modifiers) x.(auto_disconnect_timer).
Definition set_display_idx (v : Z) (x : Ext) : Ext := mkExt x.(perms) x.(opts) x.(files) v
    x.(multi_ui_session) x.(services_subed) x.(audio_sender) x.(voice_call_request_timestamp)
    x.(voice_calling) x.(chat_unanswered) x.(closed) x.(last_test_delay) x.(network_delay)
    x.(pressed_modifiers) x.(auto_disconnect_timer).
Definition set_multi_ui_session (v : bool) (x : Ext) : Ext := mkExt x.(perms) x.(opts) x.(files)
    x.(display_idx) v x.(services_subed) x.(audio_sender) x.(voice_call_request_timestamp)
    x.(voice_calling) x.(chat_unanswered) x.(closed) x.(last_test_delay) x.(network_delay)
    x.(pressed_modifiers) x.(auto_disconnect_timer).
Definition set_services_subed (v : bool) (x : Ext) : Ext := mkExt x.(perms) x.(opts) x.(files)
    x.(display_idx) x.(multi_ui_session) v x.(audio_sender) x.(voice_call_request_timestamp)
    x.(voice_calling) x.(chat_unanswered) x.(closed) x.(last_test_delay) x.(network_delay)
    x.(pressed_modifiers) x.(auto_disconnect_timer).
Definition set_audio_sender (v : bool) (x : Ext) : Ext := mkExt x.(perms) x.(opts) x.(files)
    x.(display_idx) x.(multi_ui_session) x.(services_subed) v x.(voice_call_request_timestamp)
    x.(voice_calling) x.(chat_unanswered) x.(closed) x.(last_test_delay) x.(network_delay)
    x.(pressed_modifiers) x.(auto_disconnect_timer).
Definition set_voice_call_request_timestamp (v : option Z) (x : Ext) : Ext := mkExt x.(perms)
    x.(opts) x.(files) x.(display_idx) x.(multi_ui_session) x.(services_subed) x.(audio_sender) v
    x.(voice_calling) x.(chat_unanswered) x.(closed) x.(last_test_delay) x.(network_delay)
    x.(pressed_modifiers) x.(auto_disconnect_timer).
Definition set_voice_calling (v : bool) (x : Ext) : Ext := mkExt x.(perms) x.(opts) x.(files)
    x.(display_idx) x.(multi_ui_session) x.(services_subed) x.(audio_sender)
    x.(voice_call_request_timestamp) v x.(chat_unanswered) x.(closed) x.(last_test_delay)
    x.(network_delay) x.(pressed_modifiers) x.(auto_disconnect_timer).
Definition set_chat_unanswered (v : bool) (x : Ext) : Ext := mkExt x.(perms) x.(opts) x.(files)
    x.(display_idx) x.(multi_ui_session) x.(services_subed) x.(audio_sender)
    x.(voice_call_request_timestamp) x.(voice_calling) v x.(closed) x.(last_test_delay)
    x.(network_delay) x.(pressed_modifiers) x.(auto_disconnect_timer).
Definition set_closed (v : bool) (x : Ext) : Ext := mkExt x.(perms) x.(opts) x.(files)
    x.(display_idx) x.(multi_ui_session) x.(services_subed) x.(audio_sender)
    x.(voice_call_request_timestamp) x.(voice_calling) x.(chat_unanswered) v x.(last_test_delay)
    x.(network_delay) x.(pressed_modifiers) x.(auto_disconnect_timer).
Definition set_last_test_delay (v : option Z) (x : Ext) : Ext := mkExt x.(perms) x.(opts) x.(files)
    x.(display_idx) x.(multi_ui_session) x.(services_subed) x.(audio_sender)
    x.(voice_call_request_timestamp) x.(voice_calling) x.(chat_unanswered) x.(closed) v
    x.(network_delay) x.(pressed_modifiers) x.(auto_disconnect_timer).
Definition set_network_delay (v : Z) (x : Ext) : Ext := mkExt x.(perms) x.(opts) x.(files)
    x.(display_idx) x.(multi_ui_session) x.(services_subed) x.(audio_sender)
    x.(voice_call_request_timestamp) x.(voice_calling) x.(chat_unanswered) x.(closed)
    x.(last_test_delay) v x.(pressed_modifiers) x.(auto_disconnect_timer).
Definition set_pressed_modifiers (v : gset Z) (x : Ext) : Ext := mkExt x.(perms) x.(opts) x.(files)
    x.(display_idx) x.(multi_ui_session) x.(services_subed) x.(audio_sender)
    x.(voice_call_request_timestamp) x.(voice_calling) x.(chat_unanswered) x.(closed)
    x.(last_test_delay) x.(network_delay) v x.(auto_disconnect_timer).
Definition set_auto_disconnect_timer (v : option (Z * Z)) (x : Ext) : Ext := mkExt x.(perms)
    x.(opts) x.(files) x.(display_idx) x.(multi_ui_session) x.(services_subed) x.(audio_sender)
    x.(voice_call_request_timestamp) x.(voice_calling) x.(chat_unanswered) x.(closed)
    x.(last_test_delay) x.(network_delay) x.(pressed_modifiers) v.

(** ** What a session does *)

(** Messages of the file clipboard, [ClipboardFile]: [MonitorReady] and [FormatList];
    [FormatDataRequest]; the others. *)
Inductive ClipKind := ClipBeginning | ClipFormatDataRequest | ClipOthers.

(** What it sends to the peer.  Contents that come from the platform are a byte list. *)
Inductive Out :=
| OPermission (name : string) (enabled : bool)
| OTestDelay (time : Z) (from_client : bool) (last_delay : Z)
| OSwitchDisplay (info : list Z)
| OChat (text : string)
| OSwitchBack
| OCloseReason (reason : string)
| ODir (id : Z) (path : string) (files : list Names.FileEntry)
| OFileError (id : Z) (msg : string) (file_num : Z)
| OFile (m : Send.Msg)
| OVoiceCallRequest (is_connect : bool)
| OVoiceCallResponse (req_timestamp : Z) (accepted : bool)
| OPrivacyMode (state details impl_key : string)
| OBlockInput (state details : string)
| OMessageBox (title text : string)
| OClip (payload : list Z)
| OFileClip (k : ClipKind) (payload : list Z)
| OCursor (payload : list Z)
| OTerminal (r : Term.TerminalResponse)
| OFollowCurrentDisplay (d : Z)
| OService (name : string) (payload : list Z).

(** Requests to the process that writes files ([ipc::FS]). *)
Inductive FsCmd :=
| FsReadEmptyDirs (dir : string) (include_hidden : bool)
| FsReadDir (dir : string) (include_hidden : bool)
| FsNewWrite (path : string) (id file_num : Z) (files : list (string * Z)) (overwrite_detection : bool) (total_size : Z)
| FsRemoveDir (path : string) (id : Z) (recursive : bool)
| FsRemoveFile (path : string) (id file_num : Z)
| FsCreateDir (path : string) (id : Z)
| FsCancelWrite (id : Z)
| FsCancelRead (id : Z)
| FsWriteBlock (b : Job.FileTransferBlock)
| FsWriteDone (id file_num : Z)
| FsCheckDigest (id file_num file_size last_modified : Z) (is_resume : bool)
| FsWriteError (id file_num : Z) (err : string)
| FsSendConfirm (id : Z) (r : Job.Confirm)
| FsRename (id : Z) (path new_name : string).

Inductive CmMsg :=
| CmChat (text : string)
| CmFileLog (kind : string)
| CmVoiceCallIncoming
| CmStartVoiceCall
| CmCloseVoiceCall
| CmDisconnected
| CmClose.

Inductive Effect :=
| Send (o : Out)
| ToFs (c : FsCmd)
| ToCm (c : CmMsg)
| InputMouse (me : MouseEvent) (simulate show_cursor : bool)
| InputPointer (pde : list Z)
| InputKey (me : KeyEvent) (press : bool)
| InputBlock (on : bool)
| ClickTime
| MouseMoveTime
| UpdateClipboard (cbs : list (list Z))
| EmptyFileClipboard
| ServeClip (c : Cliprdr)
| Reboot (force : bool)
| LockScreen
| StartAudio (sample_rate channels : Z)
| PlayAudio (data : list Z)
| VoiceInputDevice (set : bool)
| QosCall (ev : Qos.Event)
| EncoderUpdate (q : list Z)
| ChangeRes (display : Z) (r : Resolution)
| FrameFetched
| RefreshVideoEffect
| TakeScreenshot (source : VideoSource) (display : Z)
| MuxFrame (ch : option Window.Frame) (permitted : bool)
| HandleTerminal (service_id : string) (persistent : bool) (token : option Z) (a : Term.TerminalAction)
| TerminalPersistent (service_id : string) (persistent : bool)
| TerminalService (service_id : string) (persistent : bool) (token : option Z)
| Whiteboard (register : bool)
| RunConnect (peer_id : string) (uuid : list Z)
| FileAudit (receive : bool) (path : string)
| ClosePortForward.

(** ** A session *)

(** [pending]: [PENDING_SWITCH_SIDES_UUID], shared by all connections. *)
Record Sess := mkSess {
  login : Sys;
  ext : Ext;
  server : Server;
  pending : gmap string (Z * list Z * bool);
  log : list Effect
}.

Definition on_ext (f : Ext -> Ext) (s : Sess) : Sess := mkSess s.(login) (f s.(ext)) s.(server) s.(pending) s.(log).
Definition on_server (f : Server -> Server) (s : Sess) : Sess := mkSess s.(login) s.(ext) (f s.(server)) s.(pending) s.(log).
Definition on_login (f : Sys -> Sys) (s : Sess) : Sess := mkSess (f s.(login)) s.(ext) s.(server) s.(pending) s.(log).
Definition act (e : Effect) (s : Sess) : Sess := mkSess s.(login) s.(ext) s.(server) s.(pending) (s.(log) ++ [e]).
Definition acts (es : list Effect) (s : Sess) : Sess := mkSess s.(login) s.(ext) s.(server) s.(pending) (s.(log) ++ es).
Definition tell (o : Out) : Sess -> Sess := act (Send o).

Definition set_perms_of (f : Perms -> Perms) : Sess -> Sess := on_ext (fun x => set_perms (f x.(perms)) x).
Definition set_opts_of (f : Opts -> Opts) : Sess -> Sess := on_ext (fun x => set_opts (f x.(opts)) x).
Definition set_files_of (f : Files -> Files) : Sess -> Sess := on_ext (fun x => set_files (f x.(files)) x).

(** Abbreviations. *)
Definition cn (s : Sess) : Conn := s.(login).(conn).
Definition cid (s : Sess) : Z := (cn s).(conn_id).
Definition pm (s : Sess) : Perms := s.(ext).(perms).
Definition op (s : Sess) : Opts := s.(ext).(opts).

(** ** The platform at the time of an event *)

Record Host := mkHost {
  env : Env;
  fs : PathFs.Fs.Fs;
  walk_fuel : nat; (* how deep directories may nest *)
  max_files : Z; (* the option on the number of files of a job *)
  source_count : VideoSource -> Z; (* displays, cameras *)
  camera_exists : bool;
  display_changed : VideoSource -> Z -> option (list Z); (* make_display_changed_msg *)
  displays_ok : Z -> bool; (* display_service::try_get_displays has one with this index *)
  rdev_modifier : KeyEvent -> option Z; (* the modifier key of an event, by the key maps *)
  serve_clip_messages : Cliprdr -> list (bool * list Z); (* replies; true: a list of files *)
  cursor_data : Z -> option (list Z);
  display_at : list Z -> option Z; (* the display a cursor position is on *)
  first_text : list Z -> option (list Z); (* of several clipboards, for a peer that takes one *)
  new_service_id : string; (* terminal_service::generate_service_id *)
  terminal_reply : Term.TerminalAction -> result (option Term.TerminalResponse) string;
  whiteboard_supported : bool;
  display_server_error : string; (* "" if the login screen can be captured *)
  login_displays : option Z; (* the primary display, or an error *)
  io_error : PathFs.Fs.IoErr -> string (* the text of an error of the operating system *)
}.

End SessState.
