(* ===== verification/SessFlow.v ===== *)
(** Permissions of the local user, options of the peer, and the subscriptions that follow from
    both ([src/src/server/connection.rs], the Linux desktop build with the Flutter interface and
    file clipboard). *)

From S2P Require Import Prelude PathFs FsJob FsSend FsWalk MuxWindow TermService VideoQos SessMsg LoginState.
From S2P Require Import LoginFlow SessServer SessState.

Module SessFlow.
Import Msgs Scope Services LoginState SessState.

Section Flow.
Context {L : Libraries}.
Context (zstd_compress : list Z -> option (list Z)).

(** ** Permissions and options together *)

Definition peer_keyboard_enabled (s : Sess) : bool := (pm s).(keyboard) && negb (op s).(disable_keyboard).
Definition clipboard_enabled (s : Sess) : bool := (pm s).(clipboard) && negb (op s).(disable_clipboard).
Definition audio_enabled (s : Sess) : bool := (pm s).(audio) && negb (op s).(disable_audio).
Definition file_transfer_enabled (s : Sess) : bool := (pm s).(file) && (op s).(enable_file_transfer).

Definition ONE_WAY_CLIPBOARD : string := "one-way-clipboard-redirection".
Definition ONE_WAY_FILE_TRANSFER : string := "one-way-file-transfer".
Definition is_on (h : Host) (opt : string) : bool := bool_decide (h.(env).(get_builtin_option) opt = "Y").

Definition can_sub_clipboard_service (h : Host) (s : Sess) : bool :=
  clipboard_enabled s && peer_keyboard_enabled s && negb (is_on h ONE_WAY_CLIPBOARD).
Definition can_sub_file_clipboard_service (h : Host) (s : Sess) : bool :=
  clipboard_enabled s && file_transfer_enabled s && negb (is_on h ONE_WAY_FILE_TRANSFER).

(** [server.subscribe] for this connection. *)
Definition sub (name : string) (b : bool) (s : Sess) : Sess := on_server (subscribe name (cid s) b) s.
Definition sub_clipboard (h : Host) (s : Sess) : Sess := sub CLIPBOARD_NAME (can_sub_clipboard_service h s) s.
Definition sub_file_clipboard (h : Host) (s : Sess) : Sess := sub FILE_CLIPBOARD_NAME (can_sub_file_clipboard_service h s) s.
Definition sub_audio (s : Sess) : Sess := sub AUDIO_NAME (audio_enabled s) s.

Definition is_authed (t : AuthConnType) (s : Sess) : bool := bool_decide ((cn s).(authed_conn_type) = Some t).
Definition is_authed_remote_conn : Sess -> bool := is_authed Remote.
Definition is_authed_view_camera_conn : Sess -> bool := is_authed ViewCamera.
Definition should_handle_render_broadcast_message (s : Sess) : bool := is_authed Remote s || is_authed ViewCamera s.
Definition should_handle_text_clipboard_message (s : Sess) : bool := is_authed Remote s.

Definition video_source (s : Sess) : VideoSource := if (cn s).(view_camera) then Camera else Monitor.

(** [x as usize] of an [i32]. *)
Definition as_usize (x : Z) : Z := wrap 64 x.

Definition version_at_least (s : Sess) (v : string) : bool :=
  LoginFlow.get_version_number (chars v) <=? LoginFlow.get_version_number (chars (cn s).(lr).(version)).

Definition send_permission (name : string) (enabled : bool) : Sess -> Sess := tell (OPermission name enabled).

Definition update_auto_disconnect_timer (h : Host) (s : Sess) : Sess :=
  on_ext (fun x => set_auto_disconnect_timer (match x.(auto_disconnect_timer) with Some (_, m) => Some (h.(env).(instant), m) | None => None end) x) s.

(** [x.parse::<u64>().unwrap_or(10)] on characters. *)
Definition parse_minutes (l : list Z) : Z :=
  match (match l with 43 :: l => l | _ => l end) with
  | [] => 10
  | l => match LoginFlow.parse_digits 0 l with Some n => if n <? 2 ^ 64 then n else 10 | None => 10 end
  end.
Definition get_auto_disconnect_timer (h : Host) : option (Z * Z) :=
  if bool_decide (h.(env).(LoginState.get_option) "allow-auto-disconnect" = "Y") then
    let minute := parse_minutes (chars (h.(env).(LoginState.get_option) "auto-disconnect-timeout")) in
    Some (h.(env).(instant), if minute =? 0 then 10 else minute)
  else None.

(** ** Privacy mode: not supported on Linux *)

Definition NOT_SUPPORTED : string := "Unsupported. 1 Multi-screen is not supported. 2 Please confirm the license is activated.".

Definition turn_on_privacy (impl_key : string) (s : Sess) : Sess :=
  if negb (is_authed_remote_conn s) || negb (pm s).(privacy_mode)
  then tell (OPrivacyMode "PrvOnFailedDenied" "" impl_key) s
  else tell (OPrivacyMode "PrvNotSupported" NOT_SUPPORTED impl_key) s.
Definition turn_off_privacy (impl_key : string) : Sess -> Sess := tell (OPrivacyMode "PrvNotSupported" NOT_SUPPORTED impl_key).

(** ** Options *)

(** An option that is set, and known. *)
Definition opt_set (n : Z) : option bool :=
  match bool_option n with Some Yes => Some true | Some No => Some false | _ => None end.
Definition when_set (n : Z) (f : bool -> Sess -> Sess) (s : Sess) : Sess :=
  match opt_set n with Some b => f b s | None => s end.

Definition update_quality (h : Host) (o : OptionMessage) (s : Sess) : Sess :=
  let s :=
    match image_quality o.(o_image_quality) with
    | Some q =>
        let n := match q with
                 | QNotSet => if 0 <? o.(o_custom_image_quality) then o.(o_custom_image_quality) else -1
                 | _ => o.(o_image_quality)
                 end in
        if 0 <? n then act (QosCall (Qos.EQuality (cid s) n h.(env).(now_ms))) s else s
    | None => s
    end in
  let s := if 0 <? o.(o_custom_fps) then act (QosCall (Qos.ECustomFps (cid s) o.(o_custom_fps))) s else s in
  match o.(o_supported_decoding) with Some q => act (EncoderUpdate q) s | None => s end.

Definition update_audio (b : bool) (s : Sess) : Sess :=
  let s := set_opts_of (set_disable_audio b) s in
  if is_authed_view_camera_conn s then
    if s.(ext).(voice_calling) || negb (audio_enabled s) then sub_audio s else s
  else sub_audio s.

Definition update_block_input (b : bool) (s : Sess) : Sess :=
  if (pm s).(keyboard) && (pm s).(block_input) then act (InputBlock b) s
  else tell (OBlockInput (if b then "BlkOnFailed" else "BlkOffFailed") "No permission") s.

Definition update_terminal_persistence (persistent : bool) (s : Sess) : Sess :=
  let s := on_login (on_conn (set_terminal_persistent persistent)) s in
  act (TerminalPersistent (cn s).(terminal_service_id) persistent) s.

Definition update_show_my_cursor (h : Host) (b : bool) (s : Sess) : Sess :=
  let s := set_opts_of (set_show_my_cursor b) s in
  if b then
    if h.(whiteboard_supported) then act (Whiteboard true) s
    else tell (OMessageBox "Show my cursor" "This feature is not supported on native Wayland, please install XWayland or switch to X11.") s
  else if h.(whiteboard_supported) then act (Whiteboard false) s else s.

Definition update_options (h : Host) (o : OptionMessage) (s : Sess) : Sess :=
  let s := update_quality h o s in
  let s := when_set o.(o_lock_after_session_end) (fun b => set_opts_of (set_lock_after_session_end b)) s in
  let s := when_set o.(o_show_remote_cursor) (fun b s =>
    let s := set_opts_of (set_show_remote_cursor b) s in
    sub NAME_POS b (sub NAME_CURSOR (peer_keyboard_enabled s || b) s)) s in
  let s := when_set o.(o_follow_remote_cursor) (fun b => set_opts_of (set_follow_remote_cursor b)) s in
  let s := when_set o.(o_follow_remote_window) (fun b s => sub NAME_WINDOW_FOCUS b (set_opts_of (set_follow_remote_window b) s)) s in
  let s := when_set o.(o_disable_audio) update_audio s in
  let s := when_set o.(o_enable_file_transfer) (fun b s =>
    let s := set_opts_of (set_enable_file_transfer b) s in
    sub_file_clipboard h (if b then s else act EmptyFileClipboard s)) s in
  let s := when_set o.(o_disable_clipboard) (fun b s => sub_clipboard h (set_opts_of (set_disable_clipboard b) s)) s in
  let s := when_set o.(o_disable_keyboard) (fun b s =>
    let s := sub_file_clipboard h (sub_clipboard h (set_opts_of (set_disable_keyboard b) s)) in
    sub NAME_CURSOR (peer_keyboard_enabled s || (op s).(show_remote_cursor)) s) s in
  let s := if version_at_least s "1.2.4" then s else
    when_set o.(o_privacy_mode) (fun b s => if (pm s).(keyboard) then if b then turn_on_privacy "" s else turn_off_privacy "" s else s) s in
  let s := when_set o.(o_block_input) update_block_input s in
  let s := when_set o.(o_terminal_persistent) update_terminal_persistence s in
  when_set o.(o_show_my_cursor) (update_show_my_cursor h) s.

Definition update_scoped_login_options (h : Host) (s : Sess) : Sess :=
  match (cn s).(options_in_login) with
  | None => s
  | Some o =>
      let s := on_login (on_conn (set_options_in_login None)) s in
      match (cn s).(authed_conn_type) with
      | None => s
      | Some t => match (scoped_login_option t o).1 with Some o => update_options h o s | None => s end
      end
  end.

(** ** Permissions ([ipc::Data::SwitchPermission]) *)

Definition switch_permission (h : Host) (name : string) (enabled : bool) (s : Sess) : Sess :=
  if bool_decide (name = "keyboard") then
    let s := send_permission "Keyboard" enabled (set_perms_of (set_keyboard enabled) s) in
    let s := sub_file_clipboard h (sub_clipboard h s) in
    sub NAME_CURSOR (enabled || (op s).(show_remote_cursor)) s
  else if bool_decide (name = "clipboard") then
    sub_clipboard h (send_permission "Clipboard" enabled (set_perms_of (set_clipboard enabled) s))
  else if bool_decide (name = "audio") then
    let s := send_permission "Audio" enabled (set_perms_of (set_audio enabled) s) in
    if (cn s).(authorized) then
      if is_authed_view_camera_conn s then
        if s.(ext).(voice_calling) || negb (audio_enabled s) then sub_audio s else s
      else sub_audio s
    else s
  else if bool_decide (name = "file") then
    let s := send_permission "File" enabled (set_perms_of (set_file enabled) s) in
    sub_file_clipboard h (if enabled then s else act EmptyFileClipboard s)
  else if bool_decide (name = "restart") then send_permission "Restart" enabled (set_perms_of (set_restart enabled) s)
  else if bool_decide (name = "recording") then send_permission "Recording" enabled (set_perms_of (set_recording enabled) s)
  else if bool_decide (name = "block_input") then send_permission "BlockInput" enabled (set_perms_of (set_block_input enabled) s)
  else if bool_decide (name = "privacy_mode") then send_permission "PrivacyMode" enabled (set_perms_of (set_privacy_mode enabled) s)
  else s.

End Flow.
End SessFlow.
