(* ===== verification/SessDispatch.v ===== *)
(** The longer handlers of a session: displays, voice calls, file actions and responses, and the
    end of a connection ([src/src/server/connection.rs], the Linux desktop build with the Flutter
    interface and file clipboard). *)

From S2P Require Import Prelude PathFs FsJob FsSend FsWalk MuxWindow TermService VideoQos SessMsg LoginState.
From S2P Require Import LoginFlow SessServer SessState SessFlow.

Module SessDispatch.
Import Msgs Scope Services LoginState SessState SessFlow.

Section Dispatch.
Context {L : Libraries}.
Context (zstd_compress : list Z -> option (list Z)).

(** ** Displays *)

Definition OPTION_REFRESH : string := "refresh".

Definition refresh_video_display (display : option Z) (s : Sess) : Sess :=
  on_server (set_video_service_opt (match display with Some d => Some (video_source s, d) | None => None end)
    OPTION_REFRESH SERVICE_OPTION_VALUE_TRUE) (act RefreshVideoEffect s).

Definition change_resolution (h : Host) (d : option Z) (r : Resolution) (s : Sess) : Sess :=
  if (pm s).(keyboard) then
    let display_idx := default s.(ext).(display_idx) d in
    if h.(displays_ok) display_idx then act (ChangeRes display_idx r) s else s
  else s.

Definition switch_display_to (h : Host) (display_idx : Z) (s : Sess) : bool * Sess :=
  let source := video_source s in
  if h.(source_count) source <=? display_idx then (false, s) else
  let new_service_name := get_service_name source display_idx in
  let old_service_name := get_service_name source s.(ext).(SessState.display_idx) in
  let s := on_server (try_add_video source display_idx) s in
  let s := if negb (version_at_least s "1.2.4") then sub old_service_name false s else s in
  (true, on_ext (set_display_idx display_idx) (sub new_service_name true s)).

Definition send_display_changed (h : Host) (source : VideoSource) (d : Z) (s : Sess) : Sess :=
  match h.(display_changed) source d with Some info => tell (OSwitchDisplay info) s | None => s end.

Definition handle_switch_display (h : Host) (display w hh : Z) (s : Sess) : Sess :=
  let display_idx := as_usize display in
  if s.(ext).(SessState.display_idx) =? display_idx then s else
  let '(ok, s) := switch_display_to h display_idx s in
  if negb ok then s else
  let s := if negb (cn s).(view_camera) && negb (w =? 0) && negb (hh =? 0)
           then change_resolution h None (mkResolution w hh) s else s in
  send_display_changed h (video_source s) s.(ext).(SessState.display_idx) s.

Definition capture_displays (h : Host) (add sub set : list Z) (s : Sess) : Sess :=
  let source := video_source s in
  let valid := List.filter (fun d => d <? h.(source_count) source) in
  let valid_add := valid add in let valid_sub := valid sub in let valid_set := valid set in
  if (negb (is_nil add) && is_nil valid_add)
     || (is_nil add && negb (is_nil sub) && is_nil valid_sub)
     || (is_nil add && is_nil sub && negb (is_nil set) && is_nil valid_set) then s else
  let add_all := fun ds v => foldl (fun v d => try_add_video source d v) v ds in
  let s := on_server (fun v => add_all valid_set (add_all valid_add v)) s in
  let s := on_server (
    if negb (is_nil add) then Services.capture_displays (cid s) source valid_add true false
    else if negb (is_nil sub) then Services.capture_displays (cid s) source valid_sub false true
    else Services.capture_displays (cid s) source valid_set true true) s in
  let multi := 1 <? get_subbed_displays_count (cid s) s.(server) in
  let s := on_ext (set_multi_ui_session multi) s in
  if (op s).(follow_remote_window) then SessFlow.sub NAME_WINDOW_FOCUS (negb multi) s else s.

(** ** Voice calls *)

Definition handle_voice_call (accepted : bool) (s : Sess) : Sess :=
  match s.(ext).(voice_call_request_timestamp) with
  | None => s
  | Some ts =>
      let s := on_ext (set_voice_call_request_timestamp None) s in
      let s := if accepted then act (ToCm CmStartVoiceCall) (act (VoiceInputDevice true) s) else act (ToCm CmCloseVoiceCall) s in
      let s := on_ext (set_voice_calling accepted) (tell (OVoiceCallResponse ts accepted) s) in
      if is_authed_view_camera_conn s then sub AUDIO_NAME (audio_enabled s && accepted) s else s
  end.

Definition close_voice_call (s : Sess) : Sess :=
  let s := on_ext (set_voice_calling false) (act (ToCm CmCloseVoiceCall) (act (VoiceInputDevice false) s)) in
  if is_authed_view_camera_conn s then sub AUDIO_NAME false s else s.

(** ** The end of a connection *)

(** [AuthedConnID::session_reconnected] *)
Definition session_reconnected (s : Sess) : bool :=
  existsb (fun '(i, t, k) => (cid s <? i) && bool_decide (t = Remote) && bool_decide (k = session_key (cn s)))
    s.(login).(shared).(authed_conns).

Definition on_close (lock : bool) (s : Sess) : Sess :=
  if s.(ext).(closed) then s else
  let s := act (VoiceInputDevice false) (on_ext (set_closed true) s) in
  let s := if lock && (op s).(lock_after_session_end) && (pm s).(keyboard) && negb (session_reconnected s)
           then act LockScreen s else s in
  let s := act (ToCm (if s.(ext).(chat_unanswered) || s.(ext).(files).(file_transferred) then CmDisconnected else CmClose)) s in
  let s := on_login (on_conn (set_port_forward_socket false)) s in
  match (cn s).(port_forward_mux) with
  | Some _ => act ClosePortForward (on_login (on_conn (set_port_forward_mux None)) s)
  | None => s
  end.

(** [AuthedConnID::check_remove_session] *)
Definition check_remove_session (s : Sess) : Sess :=
  let key := session_key (cn s) in
  let conns := s.(login).(shared).(authed_conns) in
  match s.(login).(shared).(sessions) !! key with
  | None => s
  | Some _ =>
      let is_remote := existsb (fun '(i, t, _) => (i =? cid s) && bool_decide (t = Remote)) conns in
      let another_remote := existsb (fun '(i, t, k) => negb (i =? cid s) && bool_decide (k = key) && bool_decide (t = Remote)) conns in
      if is_remote || negb another_remote
      then on_login (on_shared (fun h => set_sessions (delete key h.(sessions)) h)) s else s
  end.

Definition send_close_reason_no_retry (reason : string) (s : Sess) : Sess :=
  check_remove_session (tell (OCloseReason (if bool_decide (reason = "") then "Closed manually by the peer" else reason)) s).

(** ** Files *)

Definition job_type_of (n : Z) : Job.JobType := if n =? 1 then Job.Printer else Job.Generic.

Definition audit (receive : bool) (path : string) : Sess -> Sess := act (FileAudit receive path).

Definition process_new_read_job (job : Job.TransferJob) (path : string) (s : Sess) : Sess :=
  let s := tell (ODir job.(Job.id) path job.(Job.files)) s in
  let s := set_files_of (fun f => set_read_jobs (f.(read_jobs) ++ [job]) f) s in
  audit false (match job.(Job.type) with Job.Printer => "Remote print" | Job.Generic => path end) s.

Definition too_many_files (h : Host) (n : Z) : bool := h.(max_files) <? n.
Definition TOO_MANY : string := "file transfer rejected: too many files".

Definition create_and_start_read_job (h : Host) (id : Z) (t : Job.JobType) (src : Job.DataSource) (file_num : Z)
    (include_hidden overwrite_detection : bool) (path : string) (check_file_limit : bool) (s : Sess) : Sess :=
  match Walk.new_read h.(walk_fuel) h.(fs) id t src file_num include_hidden overwrite_detection with
  | Err err => tell (OFileError id (h.(io_error) err) 0) s
  | Ok job =>
      if check_file_limit && too_many_files h (zlen job.(Job.files)) then tell (OFileError id TOO_MANY (-1)) s
      else process_new_read_job job path s
  end.

(** [FileRemoveLogControl]; the entries the first two would log are dropped by their caller. *)
Definition direct_child (parent child : string) : bool :=
  bool_decide (Path.parent (Path.components child) = Some (Path.components parent)).
Definition on_remove_file (h : Host) (id : Z) (path : string) (f : Files) : Files :=
  set_removed_at h.(env).(instant) (set_removed_files (f.(removed_files) ++ [(id, path)]) f).
Definition on_remove_dir (h : Host) (id : Z) (path : string) (f : Files) : Files :=
  let f := set_removed_at h.(env).(instant) f in
  let f := set_removed_files (List.filter (fun x => negb (direct_child x.2 path)) f.(removed_files)) f in
  let f := set_removed_dirs (List.filter (fun x => negb (direct_child path x.2)) f.(removed_dirs)) f in
  if existsb (fun x => direct_child x.2 path) f.(removed_dirs) then f
  else set_removed_dirs (f.(removed_dirs) ++ [(id, path)]) f.
Definition on_remove_timer (h : Host) (s : Sess) : Sess :=
  let f := s.(ext).(files) in
  if h.(env).(instant) - f.(removed_at) <? 1000 then s else
  acts ((fun _ => ToCm (CmFileLog "remove")) <$> (f.(removed_files) ++ f.(removed_dirs)))
    (set_files_of (fun f => set_removed_dirs [] (set_removed_files [] f)) s).

Definition one_way_refuses (fa : option FileAction) : option Z :=
  match fa with
  | Some (FaSend id _ _ _ _) | Some (FaRemoveFile id _ _) | Some (FaRename id _ _) | Some (FaCreate id _)
  | Some (FaRemoveDir id _ _) => Some id
  | _ => None
  end.

Definition can_enable_overwrite_detection (s : Sess) : bool := version_at_least s "1.1.10".

Definition find_job (id : Z) (jobs : list Job.TransferJob) : option (nat * Job.TransferJob) :=
  list_find (fun j => j.(Job.id) = id) jobs.

Definition file_send (h : Host) (id : Z) (path : string) (include_hidden : bool) (file_num file_type : Z) (s : Sess) : Sess :=
  let transferred := set_files_of (set_file_transferred true) in
  match job_type_of file_type with
  | Job.Generic =>
      transferred (create_and_start_read_job h id Job.Generic (Job.FilePath path) file_num include_hidden
        (can_enable_overwrite_detection s) path true s)
  | Job.Printer =>
      match list_find (fun d => d.1.2 = path) s.(ext).(files).(printer_data) with
      | Some (i, (_, _, data)) =>
          let s := set_files_of (fun f => set_printer_data (base.delete i f.(printer_data)) f) s in
          transferred (create_and_start_read_job h id Job.Printer (Job.MemoryCursor data) file_num include_hidden true path false s)
      | None => s
      end
  end.

Definition file_send_confirm (h : Host) (id : Z) (r : Job.Confirm) (s : Sess) : Sess :=
  match find_job id s.(ext).(files).(read_jobs) with
  | Some (i, job) => set_files_of (fun f => set_read_jobs (<[i := (Job.confirm h.(fs) job r).1]> f.(read_jobs)) f) s
  | None => act (ToFs (FsSendConfirm id r)) s
  end.

Definition file_cancel (id : Z) (s : Sess) : Sess :=
  let s := act (ToFs (FsCancelRead id)) (act (ToFs (FsCancelWrite id)) s) in
  match find_job id s.(ext).(files).(read_jobs) with
  | Some _ => act (ToCm (CmFileLog "transfer")) (set_files_of (fun f => set_read_jobs (Send.remove_job id f.(read_jobs)) f) s)
  | None => s
  end.

Definition file_action (h : Host) (fa : option FileAction) (s : Sess) : Sess :=
  let handle_fa := bool_decide (is_Some (cn s).(file_transfer)) ||
    match fa with Some (FaSend _ _ _ _ t) => match job_type_of t with Job.Printer => true | Job.Generic => false end | _ => false end in
  if negb handle_fa then s else
  match (if is_on h ONE_WAY_FILE_TRANSFER then one_way_refuses fa else None) with
  | Some job_id => tell (OFileError job_id "one-way-file-transfer-tip" 0) s
  | None =>
  match fa with
  | Some (FaReadEmptyDirs path hidden) => act (ToFs (FsReadEmptyDirs path hidden)) s
  | Some (FaReadDir path hidden) => act (ToFs (FsReadDir path hidden)) s
  | Some (FaAllFiles id path hidden) =>
      match Walk.get_recursive_files h.(walk_fuel) h.(fs) path hidden with
      | Err err => tell (OFileError id (h.(io_error) err) (-1)) s
      | Ok fl => if too_many_files h (zlen fl) then tell (OFileError id TOO_MANY (-1)) s else tell (ODir id path fl) s
      end
  | Some (FaSend id path hidden file_num t) => file_send h id path hidden file_num t s
  | Some (FaReceive id path fl file_num total_size) =>
      let od := can_enable_overwrite_detection s in
      let s := act (ToFs (FsNewWrite path id file_num ((fun e => (e.(Names.name), e.(Names.modified_time))) <$> fl) od total_size)) s in
      set_files_of (set_file_transferred true) (audit true path s)
  | Some (FaRemoveDir id path recursive) =>
      set_files_of (on_remove_dir h id path) (act (ToFs (FsRemoveDir path id recursive)) s)
  | Some (FaRemoveFile id path file_num) =>
      set_files_of (on_remove_file h id path) (act (ToFs (FsRemoveFile path id file_num)) s)
  | Some (FaCreate id path) => act (ToCm (CmFileLog "create_dir")) (act (ToFs (FsCreateDir path id)) s)
  | Some (FaCancel id) => file_cancel id s
  | Some (FaSendConfirm id r) => file_send_confirm h id r s
  | Some (FaRename id path new_name) => act (ToCm (CmFileLog "rename")) (act (ToFs (FsRename id path new_name)) s)
  | None => s
  end end.

Definition file_response (fr : option FileResponse) (s : Sess) : Sess :=
  match fr with
  | Some (FrBlock b) => act (ToFs (FsWriteBlock b)) s
  | Some (FrDone id file_num) => act (ToFs (FsWriteDone id file_num)) s
  | Some (FrDigest id file_num size modified is_resume) => act (ToFs (FsCheckDigest id file_num size modified is_resume)) s
  | Some (FrError id error file_num) => act (ToFs (FsWriteError id file_num error)) s
  | Some FrDirs | None => s
  end.

End Dispatch.
End SessDispatch.
