(* ===== verification/SessMessage.v ===== *)
(** A session as a machine: its messages, the requests of the connection manager, the timers and
    what the services send ([on_message], [start], [src/src/server/connection.rs]). *)

From S2P Require Import Prelude PathFs FsJob FsSend FsWalk MuxWindow TermService VideoQos SessMsg LoginState.
From S2P Require Import LoginFlow SessServer SessState SessFlow SessDispatch.

Module SessMessage.
Import Msgs Scope Services LoginState SessState SessFlow SessDispatch.

Section Message.
Context {L : Libraries}.
Context (zstd_compress : list Z -> option (list Z)).

(** ** Input *)

Definition MOUSE_TYPE_MASK : Z := 7.
Definition MOUSE_TYPE_UP : Z := 2.
Definition MOUSE_BUTTON_LEFT : Z := 1.

Definition is_left_up (me : MouseEvent) : bool :=
  (Z.shiftr me.(me_mask) 3 =? MOUSE_BUTTON_LEFT) && (Z.land me.(me_mask) MOUSE_TYPE_MASK =? MOUSE_TYPE_UP).

(** The numbers of [ControlKey]. *)
Definition is_enter (me : KeyEvent) : bool :=
  match me.(k_union) with Some (ControlKey k) => (k =? 27) || (k =? 72) | _ => false end.
Definition is_modifier (me : KeyEvent) : bool :=
  match me.(k_union) with
  | Some (ControlKey k) => bool_decide (k ∈ [1; 29; 4; 23; 75; 73; 74; 64])
  | _ => false
  end.

Definition mouse_event (h : Host) (me : MouseEvent) (s : Sess) : Sess :=
  if is_authed_view_camera_conn s then s else
  let cursor := (op s).(show_my_cursor) in
  let s :=
    if peer_keyboard_enabled s then act (InputMouse me true cursor) (act (if is_left_up me then ClickTime else MouseMoveTime) s)
    else if cursor then act (InputMouse me false true) s else s in
  update_auto_disconnect_timer h s.

Definition pointer_event (h : Host) (pde : list Z) (s : Sess) : Sess :=
  if is_authed_view_camera_conn s then s else
  update_auto_disconnect_timer h
    (if peer_keyboard_enabled s then act (InputPointer pde) (act MouseMoveTime s) else s).

Definition key_event (h : Host) (me : KeyEvent) (s : Sess) : Sess :=
  if is_authed_view_camera_conn s then s else
  let s :=
    if peer_keyboard_enabled s then
      let s := act MouseMoveTime (if is_enter me then act ClickTime s else s) in
      let key := h.(rdev_modifier) me in
      let is_press := (me.(k_press) || me.(k_down)) && negb (is_modifier me || bool_decide (is_Some key)) in
      let s := match key with
               | Some k => on_ext (fun x => set_pressed_modifiers
                   (if is_press then {[k]} ∪ x.(pressed_modifiers) else x.(pressed_modifiers) ∖ {[k]}) x) s
               | None => s
               end in
      if is_press then
        act (InputKey me (match me.(k_union) with Some (Unicode _) | Some (Seq _) => false | _ => true end)) s
      else act (InputKey me false) s
    else s in
  update_auto_disconnect_timer h s.

(** ** File clipboard *)

Definition is_file_data_request (clip : Cliprdr) : bool := match clip with ClipDataRequest _ => true | _ => false end.

Definition cliprdr (h : Host) (clip : Cliprdr) (s : Sess) : Sess :=
  match clip with
  | ClipFiles _ => audit true "" s
  | ClipEmpty => s
  | _ =>
      if is_file_data_request clip && is_on h ONE_WAY_FILE_TRANSFER then s
      else if version_at_least s "1.3.8" && file_transfer_enabled s then
        acts ((fun '(files, payload) => if files : bool then FileAudit false "" else Send (OClip payload)) <$> h.(serve_clip_messages) clip)
          (act (ServeClip clip) s)
      else s
  end.

(** The file clipboard of this side has something for the peer. *)
Definition is_stopping_allowed (k : ClipKind) : bool := match k with ClipOthers => false | _ => true end.
Definition is_beginning_message (k : ClipKind) : bool := match k with ClipBeginning => true | _ => false end.
Definition handle_file_clip (h : Host) (k : ClipKind) (payload : list Z) (s : Sess) : Sess :=
  if negb (cn s).(authorized) then s else
  if is_stopping_allowed k && negb (file_transfer_enabled s) then s else
  if is_beginning_message k && is_on h ONE_WAY_FILE_TRANSFER then s else tell (OFileClip k payload) s.
Definition on_file_clip (h : Host) (k : ClipKind) (payload : list Z) (s : Sess) : bool * Sess :=
  (true, if version_at_least s "1.3.8" then handle_file_clip h k payload s else s).

(** ** Terminal *)

Definition handle_terminal_action (h : Host) (a : Term.TerminalAction) (s : Sess) : Sess :=
  match (cn s).(terminal_user_token) with
  | None => s
  | Some token =>
      let s := act (HandleTerminal (cn s).(terminal_service_id) (cn s).(terminal_persistent)
                 (LoginFlow.to_terminal_service_token token) a) s in
      match h.(terminal_reply) a with
      | Ok (Some r) => tell (OTerminal r) s
      | Ok None => s
      | Err err => tell (OTerminal (Term.RError ("Failed to handle action: " +:+ err))) s
      end
  end.

Definition init_terminal_service (h : Host) (s : Sess) : Sess :=
  match (cn s).(terminal_user_token) with
  | None => s
  | Some token =>
      let s := if bool_decide ((cn s).(terminal_service_id) = "")
               then on_login (on_conn (set_terminal_service_id h.(new_service_id))) s else s in
      act (TerminalService (cn s).(terminal_service_id) (cn s).(terminal_persistent) (LoginFlow.to_terminal_service_token token)) s
  end.

(** ** Switching sides *)

(** [insert_pending_switch_sides_uuid]: whether the request is a new one. *)
Definition insert_pending (h : Host) (id : string) (uuid : list Z) (s : Sess) : bool * Sess :=
  let live := filter (fun kv => h.(env).(instant) - kv.2.1.1 < LoginFlow.SWITCH_SIDES_UUID_TTL) s.(pending) in
  let is_new := match live !! id with Some (_, stored, _) => negb (bool_decide (stored = uuid)) | None => true end in
  (is_new, mkSess s.(login) s.(ext) s.(server)
             (if is_new then <[id := (h.(env).(instant), uuid, false)]> live else live) s.(log)).

Definition switch_sides_request (h : Host) (uuid : list Z) (s : Sess) : bool * Sess :=
  if negb (zlen uuid =? 16) then (true, s) else
  let my_id := (cn s).(lr).(my_id) in
  let '(is_new, s) := insert_pending h my_id uuid s in
  let s := if is_new then act (RunConnect my_id uuid) s else s in
  (false, on_close false s).

(** ** [Misc] *)

Definition misc_message (h : Host) (misc : option Misc) (s : Sess) : bool * Sess :=
  match misc with
  | Some (SwitchDisplay d w hh) => (true, handle_switch_display h d w hh s)
  | Some (CaptureDisplays add sub set) =>
      (true, SessDispatch.capture_displays h (as_usize <$> add) (as_usize <$> sub) (as_usize <$> set) s)
  | Some (TogglePrivacyMode impl_key on) =>
      (true, if (cn s).(view_camera) then s else if on then turn_on_privacy impl_key s else turn_off_privacy impl_key s)
  | Some (ChatMessage text) =>
      (true, update_auto_disconnect_timer h (on_ext (set_chat_unanswered true) (act (ToCm (CmChat text)) s)))
  | Some (Option_ o) =>
      (true, if is_authed_remote_conn s then update_options h o s
             else match scoped_update_option_message (cn s).(authed_conn_type) o with
                  | Some o => update_options h o s
                  | None => s
                  end)
  | Some (RefreshVideo r) =>
      (true, if should_handle_render_broadcast_message s
             then update_auto_disconnect_timer h (if r then refresh_video_display None s else s) else s)
  | Some (RefreshVideoDisplay d) =>
      (true, if should_handle_render_broadcast_message s
             then update_auto_disconnect_timer h (refresh_video_display (Some (as_usize d)) s) else s)
  | Some VideoReceived => (true, act FrameFetched s)
  | Some RestartRemoteDevice => (true, if (pm s).(restart) then acts [Reboot true; Reboot false] s else s)
  | Some (AudioFormat rate channels) =>
      (true, if (op s).(disable_audio) then s else act (StartAudio rate channels) (on_ext (set_audio_sender true) s))
  | Some (SwitchSidesRequest uuid) => switch_sides_request h uuid s
  | Some (ChangeResolution r) => (true, if (cn s).(view_camera) then s else change_resolution h None r s)
  | Some (ChangeDisplayResolution d r) => (true, if (cn s).(view_camera) then s else change_resolution h (Some (as_usize d)) r s)
  | Some (AutoAdjustFps fps) => (true, act (QosCall (Qos.EAutoFps (cid s) fps)) s)
  | Some (ClientRecordStatus status) => (true, act (QosCall (Qos.ERecord (cid s) status)) s)
  | Some (MessageQuery d) => (true, send_display_changed h (video_source s) (as_usize d) s)
  | Some (RequestCursorData id) =>
      (true, if is_remote (cn s) && (peer_keyboard_enabled s || (op s).(show_remote_cursor)) then
               match h.(cursor_data) id with Some m => tell (OCursor m) s | None => s end
             else s)
  | _ => (true, s)
  end.

(** ** Messages of an authorized session *)

Definition session_message (h : Host) (m : Message) (s : Sess) : bool * Sess :=
  match m with
  | MMouse me => (true, mouse_event h me s)
  | MPointer pde => (true, pointer_event h pde s)
  | MKey me => (true, key_event h me s)
  | MClipboard cb =>
      (true, if should_handle_text_clipboard_message s && clipboard_enabled s then act (UpdateClipboard [cb]) s else s)
  | MMultiClipboards cbs =>
      (true, if should_handle_text_clipboard_message s && clipboard_enabled s then act (UpdateClipboard cbs) s else s)
  | MCliprdr clip => (true, cliprdr h clip s)
  | MFileAction fa => (true, file_action h fa s)
  | MFileResponse fr => (true, file_response fr s)
  | MMisc misc => misc_message h misc s
  | MAudioFrame data =>
      (true, if (op s).(disable_audio) then s else if s.(ext).(audio_sender) then act (PlayAudio data) s else s)
  | MVoiceCallRequest ts is_connect =>
      (true, if is_connect then
               act (ToCm CmVoiceCallIncoming)
                 (on_ext (set_voice_call_request_timestamp (Some (if ts =? 0 then h.(env).(now_ms) else ts))) s)
             else close_voice_call s)
  | MScreenshotRequest d _ =>
      (true, refresh_video_display (Some (as_usize d)) (act (TakeScreenshot (video_source s) (as_usize d)) s))
  | MPortForwardChannel ch =>
      (true, match (cn s).(port_forward_mux) with
             | Some _ => act (MuxFrame ch (permission h.(env) "enable-tunnel" (cn s).(control_permissions))) s
             | None => s
             end)
  | MTerminalAction a => (true, handle_terminal_action h a s)
  | _ => (true, s)
  end.

(** ** The start of a session *)

Definition try_sub_camera_displays (h : Host) (s : Sess) : Sess :=
  on_server (fun v => add_camera_connection h.(camera_exists) (cid s) (try_add_primary_camera_service h.(camera_exists) v)) s.

Definition noperms (h : Host) (s : Sess) : list string :=
  (if negb (peer_keyboard_enabled s) && negb (op s).(show_remote_cursor) then [NAME_CURSOR] else []) ++
  (if negb (op s).(show_remote_cursor) then [NAME_POS] else []) ++
  (if negb (op s).(follow_remote_window) then [NAME_WINDOW_FOCUS] else []) ++
  (if negb (can_sub_clipboard_service h s) then [CLIPBOARD_NAME] else []) ++
  (if negb (can_sub_file_clipboard_service h s) then [FILE_CLIPBOARD_NAME] else []) ++
  (if negb (audio_enabled s) then [AUDIO_NAME] else []).

Definition try_sub_monitor_services (h : Host) (s : Sess) : Sess :=
  if negb (is_remote (cn s)) || s.(ext).(services_subed) then s else
  let s := on_ext (fun x => set_auto_disconnect_timer (get_auto_disconnect_timer h) (set_services_subed true x)) s in
  on_server (fun v => add_monitor_connection (cid s) (noperms h s) s.(ext).(display_idx)
                        (try_add_monitor_service s.(ext).(display_idx) v)) s.

(** From the registration of an authorized connection to the end of
    [send_logon_response_and_keep_alive]. *)
Definition logged_on (h : Host) (s : Sess) : Sess :=
  if is_port_forward (cn s) then s else
  if is_remote (cn s) && negb (bool_decide (h.(display_server_error) = "")) then s else
  let '(s, sub_service) :=
    if is_remote (cn s) then
      match h.(login_displays) with Some d => (on_ext (set_display_idx d) s, true) | None => (s, false) end
    else (s, false) in
  let s := update_scoped_login_options h s in
  let no_keyboard := set_perms_of (set_keyboard false) in
  match (cn s).(file_transfer) with
  | Some (dir, show_hidden) =>
      let dir := if negb (bool_decide (dir = "")) && PathFs.Fs.is_dir h.(fs) dir then dir else "" in
      act (ToFs (FsReadDir dir show_hidden)) (no_keyboard s)
  | None =>
      if (cn s).(terminal) then init_terminal_service h (no_keyboard s)
      else if (cn s).(view_camera) then send_permission "Keyboard" false (no_keyboard (try_sub_camera_displays h s))
      else if sub_service then try_sub_monitor_services h s else s
  end.

(** ** [on_message] *)

(** A step of the login, and the start of the session if it authorized. *)
Definition login_step (h : Host) (f : Sys -> bool * Sys) (s : Sess) : bool * Sess :=
  let '(keep, sys) := f s.(login) in
  let s' := on_login (fun _ => sys) s in
  (keep, if negb (cn s).(authorized) && sys.(conn).(authorized) then logged_on h s' else s').

Definition test_delay (h : Host) (time : Z) (from_client : bool) (last_delay : Z) (s : Sess) : Sess :=
  if from_client then tell (OTestDelay time from_client last_delay) s else
  match s.(ext).(last_test_delay) with
  | Some tm =>
      let new_delay := wrap 32 (h.(env).(instant) - tm) in
      on_ext (fun x => set_network_delay new_delay (set_last_test_delay None x)) (act (QosCall (Qos.EDelay (cid s) new_delay)) s)
  | None => s
  end.

Definition handle_message (h : Host) (m : Message) (s : Sess) : bool * Sess :=
  match m with
  | MLogin lr => login_step h (LoginFlow.on_login_request h.(env) lr) s
  | MAuth2fa code tfa_hwid => login_step h (LoginFlow.on_auth_2fa h.(env) code tfa_hwid) s
  | MTestDelay time from_client last_delay => (true, test_delay h time from_client last_delay s)
  | MSwitchSides uuid rlr => login_step h (LoginFlow.on_switch_sides h.(env) uuid rlr) s
  | _ =>
      if (cn s).(authorized) then
        if (cn s).(port_forward_socket) then (true, s) else session_message h m s
      else (true, s)
  end.

Definition on_message (h : Host) (m : Message) (s : Sess) : bool * Sess :=
  match m with
  | MMisc (Some (CloseReason _)) => (false, check_remove_session (on_close true s))
  | _ =>
      if (cn s).(authorized) then
        match m with
        | MLogin _ => (true, s)
        | _ =>
            match authorized_scope_violation false (cn s).(authed_conn_type) m with
            | Some message =>
                let '(keep, sys) := LoginFlow.handle_authorized_scope_violation h.(env) message s.(login) in
                let s := on_login (fun _ => sys) s in
                (keep, if keep then s else on_close true s)
            | None => handle_message h m s
            end
        end
      else handle_message h m s
  end.

(** ** The connection manager *)

Inductive CmData :=
| DAuthorize
| DClose
| DWindowClosed
| DCmErr (e : string)
| DChatMessage (text : string)
| DSwitchPermission (name : string) (enabled : bool)
| DSwitchSidesBack
| DVoiceCallResponse (accepted : bool)
| DCloseVoiceCall.

Definition seen (s : Sess) : Sess :=
  set_files_of (set_file_transferred false) (on_ext (set_chat_unanswered false) s).

Definition on_cm (h : Host) (d : CmData) (s : Sess) : bool * Sess :=
  match d with
  | DAuthorize => login_step h (LoginFlow.on_authorize h.(env)) s
  | DClose => (false, on_close true (send_close_reason_no_retry "" (seen s)))
  | DWindowClosed => (false, on_close true (seen s))
  | DCmErr e => if bool_decide (e = "expected") then (true, s) else (false, on_close false s)
  | DChatMessage text => (true, on_ext (set_chat_unanswered false) (tell (OChat text) s))
  | DSwitchPermission name enabled => (true, switch_permission h name enabled s)
  | DSwitchSidesBack => (true, tell OSwitchBack s)
  | DVoiceCallResponse accepted => (true, handle_voice_call accepted s)
  | DCloseVoiceCall => (true, tell (OVoiceCallRequest false) (close_voice_call s))
  end.

(** ** Timers *)

(** [reads]: how the reads of the block split up.  A finished job leaves the list, and is logged. *)
Definition on_file_timer (h : Host) (reads : list (option Z)) (s : Sess) : bool * Sess :=
  let jobs := s.(ext).(files).(read_jobs) in
  if is_nil jobs then (true, s) else
  let '(rest, out) := FsSend.Send.handle_read_jobs zstd_compress h.(fs) jobs reads in
  let s := act (ToCm (CmFileLog "transfer")) s in
  let s := acts ((fun m => Send (OFile m)) <$> out) (set_files_of (set_read_jobs rest) s) in
  (true, if zlen rest <? zlen jobs then act (ToCm (CmFileLog "transfer")) s else s).

Definition on_second_timer (h : Host) (s : Sess) : bool * Sess :=
  match s.(ext).(auto_disconnect_timer) with
  | Some (at_, minute) =>
      if minute * 60 <? (h.(env).(instant) - at_) / 1000
      then (false, on_close true (send_close_reason_no_retry "Connection failed due to inactivity" s))
      else (true, on_remove_timer h s)
  | None => (true, on_remove_timer h s)
  end.

(** [silent]: how long the peer has said nothing. *)
Definition on_test_delay_timer (h : Host) (silent : Z) (s : Sess) : bool * Sess :=
  if 30000 <=? silent then (false, on_close true s) else
  let s := match s.(ext).(last_test_delay) with
           | None => if (cn s).(port_forward_socket) && (cn s).(authorized) then s
                     else tell (OTestDelay 0 false s.(ext).(network_delay)) (on_ext (set_last_test_delay (Some h.(env).(instant))) s)
           | Some _ => s
           end in
  (true, if is_authed_remote_conn s || (cn s).(view_camera) then
           match s.(ext).(last_test_delay) with
           | Some tm => act (QosCall (Qos.EElapsed (cid s) (h.(env).(instant) - tm))) s
           | None => s
           end
         else s).

(** ** What the services publish *)

Inductive Published := PVideoFrame | PAudioFrame | PStopService | PPeerInfo | PCursorPosition | PMultiClipboards | POther.

Definition handle_cursor_switch_display (h : Host) (pos : list Z) (s : Sess) : Sess :=
  if s.(ext).(multi_ui_session) then s else
  match h.(display_at) pos with
  | Some d => if s.(ext).(display_idx) =? d then s else tell (OFollowCurrentDisplay d) s
  | None => s
  end.

(** A message of the service [name], [latency] milliseconds old. *)
Definition on_published (h : Host) (name : string) (p : Published) (latency : Z) (payload : list Z) (s : Sess) : bool * Sess :=
  match p with
  | PVideoFrame =>
      (true, tell (OService name payload) (if (cn s).(video_ack_required) then s else act FrameFetched s))
  | PAudioFrame => (true, if 1000 <? latency then s else tell (OService name payload) s)
  | PStopService => (false, on_close false (send_close_reason_no_retry "" s))
  | PPeerInfo => (true, tell (OService name payload) (refresh_video_display None s))
  | PCursorPosition =>
      (true, tell (OService name payload) (if (op s).(follow_remote_cursor) then handle_cursor_switch_display h payload s else s))
  | PMultiClipboards => (true, tell (OService name (default payload (h.(first_text) payload))) s)
  | POther => (true, tell (OService name payload) s)
  end.

(** ** A connection, from its acceptance *)

(** [Connection::start]: the permissions are those of the configuration. *)
Definition ext_new (e : Env) (control : option Z) : Ext :=
  let p o := permission e o control in
  mkExt (mkPerms (p "enable-keyboard") (p "enable-clipboard") (p "enable-audio") (p "enable-file-transfer")
           (p "enable-remote-restart") (p "enable-record-session") (p "enable-block-input") (p "enable-privacy-mode"))
    (mkOpts false false false false false false false false false)
    (mkFiles [] [] false [] [] e.(instant))
    0 false false false None false false false None 0 ∅ None.

(** The permissions the configuration denies are announced. *)
Definition denied (p : Perms) : list Effect :=
  (fun x => Send (OPermission x.1 false)) <$> List.filter (fun x => negb x.2)
    [("Keyboard", p.(keyboard)); ("Clipboard", p.(clipboard)); ("Audio", p.(audio)); ("File", p.(file)); ("Restart", p.(restart));
     ("Recording", p.(recording)); ("BlockInput", p.(block_input)); ("PrivacyMode", p.(privacy_mode))].

Definition sess_new (e : Env) (sys : Sys) (v : Server) (switches : gmap string (Z * list Z * bool)) : Sess :=
  let x := ext_new e sys.(conn).(control_permissions) in
  mkSess sys x v switches (denied x.(perms)).

End Message.
End SessMessage.
