(* ===== verification/SessFrame.v ===== *)
(** What the handlers of a session may do and what they leave alone: the relations in which the
    theorems on sessions are proved, and the invariant on who receives what. *)

From S2P Require Import Prelude PathFs FsJob FsSend FsWalk MuxWindow TermService VideoQos SessMsg LoginState.
From S2P Require Import LoginFlow LoginSafety SessServer SessState SessFlow SessDispatch SessMessage.

Module SessFrame.
Import Msgs Scope Services ServicesFacts LoginState LoginSafety SessState SessFlow SessDispatch SessMessage.

(** ** Server operations on displays leave the other services alone *)

Definition of_source (source : VideoSource) (name : string) : Prop := String.prefix (service_name_prefix source) name = true.

Record video_step (V : VideoSource -> Prop) (id : Z) (v v' : Server) : Prop := mkVideoStep {
  vs_ok : server_ok v';
  vs_same n : is_video_service_name n = false -> subed n id v' = subed n id v /\ contains n v' = contains n v;
  vs_video n : subed n id v' = true -> subed n id v = true \/ exists source, of_source source n /\ V source
}.

Lemma video_step_refl V id v : server_ok v -> video_step V id v v.
Proof. intros H. split; auto. Qed.

Lemma video_step_trans V id v1 v2 v3 : video_step V id v1 v2 -> video_step V id v2 v3 -> video_step V id v1 v3.
Proof.
  intros [A1 A2 A3] [B1 B2 B3]. split; [done| |].
  - intros n Hn. destruct (A2 n Hn), (B2 n Hn). split; congruence.
  - intros n Hn. destruct (B3 n Hn) as [H|?]; [by apply A3|by right].
Qed.

Lemma prefix_app p s : String.prefix p (p +:+ s) = true.
Proof. induction p as [|c p IH]; [by destruct s|]. change (String c p +:+ s) with (String c (p +:+ s)). cbn. by destruct (Ascii.ascii_dec c c). Qed.

Lemma video_name source d : of_source source (get_service_name source d).
Proof. apply prefix_app. Qed.

Lemma of_source_video source n : of_source source n -> is_video_service_name n = true.
Proof. unfold of_source, is_video_service_name. destruct source; intros ->; [done|by rewrite orb_true_r]. Qed.

Lemma subed_new name id : is_subed id video_service = false -> forall v n, contains name v = false ->
  subed n id (add_service name video_service v) = subed n id v.
Proof.
  intros H v n Hc. unfold subed. cbn. destruct (decide (n = name)) as [->|]; [|by rewrite lookup_insert_ne].
  rewrite lookup_insert_eq. apply bool_decide_eq_false in Hc. apply eq_None_not_Some in Hc. by rewrite Hc, H.
Qed.

Lemma add_video_step V id source d v : server_ok v -> video_step V id v (try_add_video source d v).
Proof.
  intros Hok. unfold try_add_video. destruct (contains _ v) eqn:E; [by apply video_step_refl|].
  assert (Hs : forall n, subed n id (add_service (get_service_name source d) video_service v) = subed n id v) by (intros n; by apply subed_new).
  split.
  - by apply map_Forall_insert_2.
  - intros n Hn. split; [apply Hs|]. assert (n <> get_service_name source d).
    { intros ->. by rewrite (of_source_video source) in Hn by apply video_name. }
    unfold contains. cbn. by rewrite lookup_insert_ne.
  - intros n Hn. left. by rewrite <- Hs.
Qed.

Lemma subscribe_step (V : VideoSource -> Prop) id name b v : server_ok v ->
  is_video_service_name name = true -> (b = true -> exists source, of_source source name /\ V source) ->
  video_step V id v (subscribe name id b v).
Proof.
  intros Hok Hn Hb. destruct (subscribe_spec name id b v Hok) as (Hok' & Hc & Hs). split; [done| |].
  - intros n Hn'. split; [|apply Hc]. rewrite Hs. rewrite bool_decide_eq_false_2; [done|]. intros ->. congruence.
  - intros n. rewrite Hs. case_bool_decide as He; [subst n|by left]. case_bool_decide; [|done]. cbn.
    rewrite andb_true_iff. intros [_ Ht]. right. by apply Hb.
Qed.

Lemma capture_step (V : VideoSource -> Prop) id source ds inc exc v : server_ok v -> V source ->
  video_step V id v (Services.capture_displays id source ds inc exc v).
Proof.
  intros Hok HV. unfold Services.capture_displays. generalize (map_to_list (services v)).*1 as keys. intros keys.
  revert v Hok. induction keys as [|k keys IH]; intros v Hok; cbn [foldl]; [by apply video_step_refl|].
  assert (Hstep : video_step V id v (if is_video_service_name k then
      if bool_decide (k ∈ get_service_name source <$> ds) then if inc then subscribe k id true v else v
      else if exc then subscribe k id false v else v else v)).
  { destruct (is_video_service_name k) eqn:Ek; [|by apply video_step_refl].
    case_bool_decide as Hk; [destruct inc|destruct exc]; try by apply video_step_refl.
    - apply subscribe_step; [done..|]. intros _. apply list_elem_of_fmap in Hk as (d & -> & _). exists source. split; [apply video_name|done].
    - by apply subscribe_step. }
  eapply video_step_trans; [exact Hstep|]. apply IH, Hstep.
Qed.

Lemma option_step V id d opt val v : server_ok v -> video_step V id v (set_video_service_opt d opt val v).
Proof.
  intros Hok.
  assert (Hx : forall n, exists f, (services (set_video_service_opt d opt val v)) !! n = f <$> services v !! n /\
    (forall x, svc_ok x -> svc_ok (f x)) /\ forall x, is_subed id (f x) = is_subed id x).
  { intros n. exists (fun x => if match d with Some (source, i) => negb (bool_decide (n = get_service_name source i)) | None => false end then x
              else if is_video_service_name n then set_option opt val x else x).
    split; [cbn; rewrite map_lookup_imap; by destruct (services v !! n)|].
    split; intros x; destruct (match d with Some (_, _) => _ | None => _ end); try done; by destruct (is_video_service_name n). }
  assert (Hs : forall n, subed n id (set_video_service_opt d opt val v) = subed n id v).
  { intros n. unfold subed. destruct (Hx n) as (f & -> & _ & Hf). destruct (services v !! n); [apply Hf|done]. }
  split.
  - intros n x H. destruct (Hx n) as (f & Hl & Hf & _). rewrite Hl in H. apply fmap_Some in H as (y & Hy & ->). by apply Hf, (Hok n).
  - intros n _. split; [apply Hs|]. apply contains_iff. destruct (Hx n) as (f & -> & _). by rewrite fmap_is_Some.
  - intros n Hn. left. by rewrite <- Hs.
Qed.

(** ** The frame of a handler *)

(** No job is reading files, and no removal of files is to be logged. *)
Definition idle (f : Files) : Prop := f.(read_jobs) = [] /\ f.(removed_files) = [] /\ f.(removed_dirs) = [].

(** [P]: the effects it may have; [J]: whether it may start jobs that read files, or remove files. *)
Record frame (P : Effect -> Prop) (J : Prop) (s s' : Sess) : Prop := mkFrame {
  f_core : core (cn s') = core (cn s);
  f_perms : pm s' = pm s;
  f_jobs : idle s.(ext).(files) -> J \/ idle s'.(ext).(files);
  f_printer : s.(ext).(files).(printer_data) = [] -> s'.(ext).(files).(printer_data) = [];
  f_log : exists es, s'.(log) = s.(log) ++ es /\ Forall P es
}.

#[export] Instance frame_refl P J : Reflexive (frame P J).
Proof. intros s. split; try done; [by right|exists []; by rewrite app_nil_r]. Qed.

#[export] Instance frame_trans P J : Transitive (frame P J).
Proof.
  intros x y z [A1 A2 A3 A4 (l1 & A5 & A6)] [B1 B2 B3 B4 (l2 & B5 & B6)].
  split; [congruence..| | |].
  - intros H. destruct (A3 H) as [?|H']; [by left|]. by apply B3.
  - intros H. by apply B4, A4.
  - exists (l1 ++ l2). split; [by rewrite B5, A5, app_assoc|by apply Forall_app].
Qed.

Lemma frame_mono (P Q : Effect -> Prop) (J K : Prop) s s' : (forall e, P e -> Q e) -> (J -> K) -> frame P J s s' -> frame Q K s s'.
Proof.
  intros HP HJ [A1 A2 A3 A4 (l & A5 & A6)]. split; try done.
  - intros H. destruct (A3 H); auto.
  - exists l. split; [done|]. by eapply Forall_impl.
Qed.

Lemma core_cid c c' : core c' = core c -> c'.(conn_id) = c.(conn_id).
Proof. intros H. exact (f_equal (fun k => k.(k_fixed).1.1.1) H). Qed.
Lemma core_type c c' : core c' = core c -> c'.(authed_conn_type) = c.(authed_conn_type).
Proof. intros H. exact (f_equal k_type H). Qed.
Lemma core_camera c c' : core c' = core c -> c'.(view_camera) = c.(view_camera).
Proof. intros H. exact (f_equal (fun k => k.(k_fields).1.2) H). Qed.

(** The video a session may be sent. *)
Definition streams (s : Sess) (source : VideoSource) : Prop :=
  (cn s).(authed_conn_type) = Some (match source with Monitor => Remote | Camera => ViewCamera end).

(** A handler that moreover leaves the options and the subscriptions, displays apart. *)
Record quiet (P : Effect -> Prop) (J : Prop) (s s' : Sess) : Prop := mkQuiet {
  q_frame : frame P J s s';
  q_opts : op s' = op s;
  q_subed : s'.(ext).(services_subed) = s.(ext).(services_subed);
  q_voice : s'.(ext).(voice_calling) = s.(ext).(voice_calling);
  q_server : server_ok s.(server) -> video_step (streams s) (cid s) s.(server) s'.(server)
}.

#[export] Instance quiet_refl P J : Reflexive (quiet P J).
Proof. intros s. split; try done. by apply video_step_refl. Qed.

#[export] Instance quiet_trans P J : Transitive (quiet P J).
Proof.
  intros x y z [A1 A2 A3 A4 A5] [B1 B2 B3 B4 B5]. split; [by etrans|congruence..|]. intros H.
  specialize (A5 H). pose proof (B5 (vs_ok _ _ _ _ A5)) as B6.
  pose proof (f_core _ _ _ _ A1) as Hk. unfold streams in B6. rewrite (core_type _ _ Hk) in B6.
  change (cid y) with (cn y).(conn_id) in B6. rewrite (core_cid _ _ Hk) in B6. by eapply video_step_trans.
Qed.

Lemma quiet_mono (P Q : Effect -> Prop) (J K : Prop) s s' : (forall e, P e -> Q e) -> (J -> K) -> quiet P J s s' -> quiet Q K s s'.
Proof. intros HP HJ [A1 A2 A3 A4 A5]. split; try done. by eapply frame_mono. Qed.

Lemma quiet_act (P : Effect -> Prop) J e s : P e -> quiet P J s (act e s).
Proof.
  intros H. split; try done; [|by apply video_step_refl]. split; try done; [by right|]. exists [e]. split; [done|by constructor].
Qed.

Lemma quiet_acts (P : Effect -> Prop) J es s : Forall P es -> quiet P J s (acts es s).
Proof. intros H. split; try done; [|by apply video_step_refl]. split; try done; [by right|]. by exists es. Qed.

(** Changes of the fields that the frame does not mention. *)
Definition small_ext (J : Prop) (f : Ext -> Ext) : Prop :=
  forall x, (f x).(perms) = x.(perms) /\ (f x).(opts) = x.(opts) /\ (f x).(services_subed) = x.(services_subed) /\
    (f x).(voice_calling) = x.(voice_calling) /\
    (idle x.(files) -> J \/ idle (f x).(files)) /\
    (x.(files).(printer_data) = [] -> (f x).(files).(printer_data) = []).

Lemma quiet_ext P (J : Prop) f s : small_ext J f -> quiet P J s (on_ext f s).
Proof.
  intros H. destruct (H s.(ext)) as (H1 & H2 & H3 & H4 & H5 & H6). split; try done; [|by apply video_step_refl].
  split; try done. exists []. by rewrite app_nil_r.
Qed.

Lemma quiet_server (P : Effect -> Prop) J f s :
  (server_ok s.(server) -> video_step (streams s) (cid s) s.(server) (f s.(server))) -> quiet P J s (on_server f s).
Proof. intros H. split; try done. split; try done; [by right|]. exists []. by rewrite app_nil_r. Qed.

Lemma quiet_login (P : Effect -> Prop) J f s : core (f s.(login)).(conn) = core s.(login).(conn) -> quiet P J s (on_login f s).
Proof.
  intros H. split; try done; [|by apply video_step_refl]. split; try done; [by right|]. exists []. by rewrite app_nil_r.
Qed.

(** The files of a session, changed but for its jobs. *)
Lemma quiet_files P (J : Prop) f s :
  (forall x, (idle x -> J \/ idle (f x)) /\ (x.(printer_data) = [] -> (f x).(printer_data) = [])) ->
  quiet P J s (set_files_of f s).
Proof. intros H. apply quiet_ext. intros x. destruct (H x.(files)). split_and!; done. Qed.

(** Step through a handler made of the above. *)
Ltac quiet1 :=
  first [ apply quiet_act | apply quiet_acts
        | apply quiet_login; reflexivity
        | apply quiet_files; intros ?; split; cbn; intros; auto; fail
        | apply quiet_ext; intros ?; split_and!; cbn; intros; auto; fail ].

End SessFrame.
