(* ===== verification/SessReceive.v ===== *)
(** Which services a session receives: an invariant that the permissions, the options and the
    kind of session bound its subscriptions, and that every handler that resubscribes keeps it. *)

From S2P Require Import Prelude PathFs FsJob FsSend FsWalk MuxWindow TermService VideoQos SessMsg LoginState.
From S2P Require Import LoginFlow LoginSafety SessServer SessState SessFlow SessDispatch SessMessage SessFrame.

Module SessReceive.
Import Msgs Scope Services ServicesFacts LoginState LoginSafety SessState SessFlow SessDispatch SessMessage SessFrame.

(** ** Classes of services *)

Inductive Class := KMonitor | KCamera | KClipboard | KFiles | KAudio | KCursor | KPos | KWindow | KOther.
#[export] Instance Class_eq_dec : EqDecision Class.
Proof. solve_decision. Defined.

Definition class (n : string) : Class :=
  if String.prefix (service_name_prefix Monitor) n then KMonitor
  else if String.prefix (service_name_prefix Camera) n then KCamera
  else if bool_decide (n = CLIPBOARD_NAME) then KClipboard
  else if bool_decide (n = FILE_CLIPBOARD_NAME) then KFiles
  else if bool_decide (n = AUDIO_NAME) then KAudio
  else if bool_decide (n = NAME_CURSOR) then KCursor
  else if bool_decide (n = NAME_POS) then KPos
  else if bool_decide (n = NAME_WINDOW_FOCUS) then KWindow
  else KOther.

(** The services a connection subscribes to by name. *)
Definition named (c : Class) : option string :=
  match c with
  | KClipboard => Some CLIPBOARD_NAME | KFiles => Some FILE_CLIPBOARD_NAME | KAudio => Some AUDIO_NAME
  | KCursor => Some NAME_CURSOR | KPos => Some NAME_POS | KWindow => Some NAME_WINDOW_FOCUS
  | KMonitor | KCamera | KOther => None
  end.

Lemma named_class c name : named c = Some name -> class name = c /\ is_video_service_name name = false /\ forall n, class n = c -> n = name.
Proof.
  intros H. split_and!.
  - by destruct c; first [discriminate H|injection H as <-].
  - by destruct c; first [discriminate H|injection H as <-].
  - intros n. unfold class. repeat case_match; intros <-; try discriminate H; injection H as <-; bool_to_prop; done.
Qed.

Lemma class_video n : is_video_service_name n = match class n with KMonitor | KCamera => true | _ => false end.
Proof. unfold class, is_video_service_name. repeat case_match; try done; by rewrite orb_true_r. Qed.

Lemma prefix_head a p n : String.prefix (String a p) n = true -> exists m, n = String a m.
Proof. destruct n as [|c n]; [done|]. cbn. destruct (Ascii.ascii_dec a c) as [->|]; [by eexists|done]. Qed.

Lemma class_source source n : of_source source n -> class n = KMonitor \/ class n = KCamera.
Proof. intros H. apply of_source_video in H. rewrite class_video in H. destruct (class n); first [discriminate H|auto]. Qed.

Definition got (n : string) (s : Sess) : bool := subed n (cid s) s.(server).

Section Receive.
Context {L : Libraries}.
(** The built-in options of the deployment. *)
Variable builtin : string -> string.

Definition on (opt : string) : bool := bool_decide (builtin opt = "Y").
Definition host_ok (h : Host) : Prop := forall opt, h.(env).(get_builtin_option) opt = builtin opt.

Lemma is_on_spec h opt : host_ok h -> is_on h opt = on opt.
Proof. intros H. unfold is_on, on. by rewrite H. Qed.

(** The kinds of session that give up the keyboard permission when they start. *)
Definition keyless (s : Sess) : bool := is_authed FileTransfer s || is_authed Terminal s || is_authed ViewCamera s.

(** What a session may be subscribed to. *)
Definition may (s : Sess) (c : Class) : bool :=
  match c with
  | KMonitor => is_authed Remote s
  | KCamera => is_authed ViewCamera s
  | KClipboard => clipboard_enabled s && negb (on ONE_WAY_CLIPBOARD) && (peer_keyboard_enabled s || keyless s)
  | KFiles => file_transfer_enabled s && negb (on ONE_WAY_FILE_TRANSFER)
  | KAudio => (cn s).(authorized) && audio_enabled s && (negb (is_authed ViewCamera s) || s.(ext).(voice_calling))
  | KCursor => (pm s).(keyboard) || (op s).(show_remote_cursor) || keyless s
  | KPos => (op s).(show_remote_cursor)
  | KWindow => (op s).(follow_remote_window)
  | KOther => s.(ext).(services_subed)
  end.

(** The services whose subscription always is what the permissions say. *)
Definition tracked (c : Class) : bool := match c with KClipboard | KAudio | KPos => true | _ => false end.

(** Leaving aside the classes [cs]. *)
Record receives_but (cs : list Class) (s : Sess) : Prop := mkReceives {
  r_ok : server_ok s.(server);
  r_bound n : class n ∉ cs -> got n s = true -> may s (class n) = true;
  r_type : s.(ext).(services_subed) = true -> is_authed Remote s = true;
  r_exact n : tracked (class n) = true -> class n ∉ cs -> s.(ext).(services_subed) = true ->
    got n s = contains n s.(server) && may s (class n)
}.
Definition receives : Sess -> Prop := receives_but [].

(** A change of permissions or options. *)
Lemma receives_ext cs s s' : receives s -> s'.(server) = s.(server) -> cid s' = cid s ->
  s'.(ext).(services_subed) = s.(ext).(services_subed) -> is_authed Remote s' = is_authed Remote s ->
  (forall c, c ∉ cs -> may s' c = may s c) -> receives_but cs s'.
Proof.
  intros [H1 H2 H3 H4] Hs Hc Hss Ht Hm. unfold got in *. split; unfold got; rewrite ?Hs, ?Hc, ?Hss, ?Ht; [done| |done|].
  - intros n Hn. rewrite (Hm _ Hn). apply H2. apply not_elem_of_nil.
  - intros n Hn Hcs Hx. rewrite (Hm _ Hcs). apply H4; [done|apply not_elem_of_nil|done].
Qed.

Lemma may_sub name b s : may (sub name b s) = may s.
Proof. done. Qed.

Lemma got_sub name b s n : server_ok s.(server) ->
  got n (sub name b s) = if bool_decide (n = name) then contains name s.(server) && b else got n s.
Proof.
  intros H. unfold got. change (cid (sub name b s)) with (cid s). change (server (sub name b s)) with (subscribe name (cid s) b s.(server)).
  destruct (subscribe_spec name (cid s) b s.(server) H) as (_ & _ & ->). rewrite (bool_decide_eq_true_2 (cid s = cid s)) by done.
  by rewrite andb_true_r.
Qed.

(** Subscribing anew settles a class. *)
Lemma receives_sub c cs name b s : named c = Some name -> receives_but (c :: cs) s ->
  (if tracked c && s.(ext).(services_subed) then b = may s c else b = true -> may s c = true) -> receives_but cs (sub name b s).
Proof.
  intros Hname [H1 H2 H3 H4] Hb. destruct (named_class _ _ Hname) as (Hcl & _ & Huniq).
  destruct (subscribe_spec name (cid s) b s.(server) H1) as (Hok & Hcon & _). split.
  - exact Hok.
  - intros n Hn. rewrite got_sub, may_sub by done. case_bool_decide as He.
    + subst n. rewrite Hcl, andb_true_iff. intros [_ Ht]. destruct (tracked c && _); [by rewrite <- Hb|by apply Hb].
    + apply H2. rewrite not_elem_of_cons. split; [|done]. intros Hx. by apply He, Huniq.
  - exact H3.
  - intros n Ht Hn Hss. rewrite got_sub, may_sub by done. change (contains n (server (sub name b s))) with (contains n (subscribe name (cid s) b s.(server))).
    rewrite Hcon. case_bool_decide as He.
    + subst n. rewrite Hcl in *. change (services_subed (ext (sub name b s))) with (s.(ext).(services_subed)) in Hss.
      rewrite Ht, Hss in Hb. cbn in Hb. by rewrite Hb.
    + apply H4; [done| |done]. rewrite not_elem_of_cons. split; [|done]. intros Hx. by apply He, Huniq.
Qed.

Lemma quiet_receives P J s s' : quiet P J s s' -> receives s -> receives s'.
Proof.
  intros [[Hk Hpm _ _ _] Hop Hss Hvc Hsrv] [H1 H2 H3 H4]. destruct (Hsrv H1) as [A1 A2 A3].
  assert (Hauth : forall t, is_authed t s' = is_authed t s) by (intros t; unfold is_authed; by rewrite (core_type _ _ Hk)).
  assert (Ha : (cn s').(authorized) = (cn s).(authorized)) by exact (f_equal k_authorized Hk).
  assert (Hcid : cid s' = cid s) by (by apply core_cid).
  assert (Hmay : forall c, may s' c = may s c).
  { intros c. unfold may, keyless, clipboard_enabled, peer_keyboard_enabled, file_transfer_enabled, audio_enabled.
    rewrite Hpm, Hop, Hss, Hvc, !Hauth, Ha. done. }
  assert (Hgot : forall n, is_video_service_name n = false -> got n s' = got n s).
  { intros n Hn. unfold got. rewrite Hcid. by apply A2. }
  split.
  - done.
  - intros n _ Hn. rewrite Hmay. unfold got in Hn. rewrite Hcid in Hn. destruct (A3 n Hn) as [Hx|(source & Hx & Hst)].
    + apply H2; [apply not_elem_of_nil|done].
    + unfold streams in Hst. unfold class, of_source in *. destruct source; cbn [service_name_prefix] in *.
      * rewrite Hx. exact (bool_decide_eq_true_2 _ Hst).
      * destruct (String.prefix (service_name_prefix Monitor) n) eqn:E; [exfalso|].
        -- cbn in E. apply prefix_head in E as [? ->]. by apply prefix_head in Hx as [? [=]].
        -- cbn in E. rewrite E, Hx. exact (bool_decide_eq_true_2 _ Hst).
  - by rewrite Hss, Hauth.
  - intros n Ht _ Hx. rewrite Hss in Hx. assert (Hv : is_video_service_name n = false) by (rewrite class_video; by destruct (class n)).
    rewrite Hgot, Hmay by done. destruct (A2 n Hv) as [_ ->]. apply H4; [done|apply not_elem_of_nil|done].
Qed.

(** ** Resubscribing *)

Lemma remote_keyless s : is_authed Remote s = true -> keyless s = false /\ is_authed ViewCamera s = false.
Proof. unfold keyless, is_authed. intros H. bool_to_prop. rewrite H. done. Qed.

Lemma sub_clipboard_receives h cs s : host_ok h -> receives_but (KClipboard :: cs) s -> receives_but cs (sub_clipboard h s).
Proof.
  intros Hh H. unfold sub_clipboard. apply (receives_sub KClipboard); [done|done|]. cbn [tracked andb may].
  unfold can_sub_clipboard_service. rewrite is_on_spec by done. destruct (services_subed (ext s)) eqn:E.
  - destruct (remote_keyless s (r_type _ _ H E)) as [-> _]. rewrite orb_false_r, <- !andb_assoc. f_equal. apply andb_comm.
  - rewrite !andb_true_iff, orb_true_iff. tauto.
Qed.

Lemma sub_files_receives h cs s : host_ok h -> receives_but (KFiles :: cs) s -> receives_but cs (sub_file_clipboard h s).
Proof.
  intros Hh H. unfold sub_file_clipboard. apply (receives_sub KFiles); [done|done|]. cbn [tracked andb may].
  unfold can_sub_file_clipboard_service. rewrite is_on_spec by done. rewrite !andb_true_iff. tauto.
Qed.

Lemma sub_audio_receives cs s : (cn s).(authorized) = true ->
  (is_authed ViewCamera s = true -> audio_enabled s = true -> s.(ext).(voice_calling) = true) ->
  receives_but (KAudio :: cs) s -> receives_but cs (sub_audio s).
Proof.
  intros Ha Hv H. apply (receives_sub KAudio); [done|done|]. cbn [tracked andb may]. rewrite Ha, andb_true_l.
  destruct (services_subed (ext s)) eqn:E.
  - destruct (remote_keyless s (r_type _ _ H E)) as [_ ->]. by rewrite andb_true_r.
  - intros Hx. rewrite Hx, andb_true_l. destruct (is_authed ViewCamera s); [by apply Hv|done].
Qed.

Lemma sub_cursor_receives cs b s : (b = true -> (pm s).(keyboard) || (op s).(show_remote_cursor) = true) ->
  receives_but (KCursor :: cs) s -> receives_but cs (sub NAME_CURSOR b s).
Proof. intros Hb H. apply (receives_sub KCursor); [done|done|]. cbn [tracked andb may]. intros Hx. by rewrite Hb. Qed.

Lemma sub_pos_receives cs b s : b = (op s).(show_remote_cursor) -> receives_but (KPos :: cs) s -> receives_but cs (sub NAME_POS b s).
Proof. intros -> H. apply (receives_sub KPos); [done|done|]. by destruct (tracked KPos && _). Qed.

Lemma sub_window_receives cs b s : (b = true -> (op s).(follow_remote_window) = true) ->
  receives_but (KWindow :: cs) s -> receives_but cs (sub NAME_WINDOW_FOCUS b s).
Proof. intros Hb H. apply (receives_sub KWindow); done. Qed.

(** Only the classes [cs] depend on what changed. *)
Ltac other_classes :=
  intros [] Hc; first [reflexivity|exfalso; apply Hc; rewrite !elem_of_cons; tauto].
Ltac changed s := apply (receives_ext _ s); [assumption|reflexivity|reflexivity|reflexivity|reflexivity|other_classes].

(** ** Handlers that resubscribe *)

Record noisy (P : Effect -> Prop) (s s' : Sess) : Prop := mkNoisy {
  n_frame : frame P False s s';
  n_receives : (cn s).(authorized) = true -> receives s -> receives s'
}.

#[export] Instance noisy_refl P : Reflexive (noisy P).
Proof. by split. Qed.

#[export] Instance noisy_trans P : Transitive (noisy P).
Proof.
  intros x y z [A1 A2] [B1 B2]. split; [by etrans|]. intros Ha H. apply B2; [|by apply A2].
  etrans; [exact (f_equal k_authorized (f_core _ _ _ _ A1))|exact Ha].
Qed.

Lemma noisy_quiet P s s' : quiet P False s s' -> noisy P s s'.
Proof. intros H. split; [apply H|]. intros _. by eapply quiet_receives. Qed.

Lemma noisy_mono (P Q : Effect -> Prop) s s' : (forall e, P e -> Q e) -> noisy P s s' -> noisy Q s s'.
Proof. intros HP [H1 H2]. split; [|done]. by eapply frame_mono. Qed.

Lemma frame_plain P J s s' : core (cn s') = core (cn s) -> pm s' = pm s -> s'.(ext).(files) = s.(ext).(files) -> s'.(log) = s.(log) ->
  frame P J s s'.
Proof. intros H1 H2 H3 H4. split; rewrite ?H3; [done|done|by right|done|]. exists []. by rewrite app_nil_r. Qed.

Lemma noisy_when_set P n f s : (forall b s, noisy P s (f b s)) -> noisy P s (when_set n f s).
Proof. intros H. unfold when_set. by destruct (opt_set n). Qed.

Ltac plain := apply frame_plain; reflexivity.

(** ** When the file clipboard may be subscribed to anew *)

(** While the clipboard is enabled, before the event or after it: a message may subscribe and disable
    the clipboard in one. *)
Definition began (s s' : Sess) : Prop :=
  got FILE_CLIPBOARD_NAME s' = true -> got FILE_CLIPBOARD_NAME s = true \/ clipboard_enabled s = true \/ clipboard_enabled s' = true.

(** What does not change whether the clipboard is enabled. *)
Record steady (s s' : Sess) : Prop := mkSteady {
  st_ok : server_ok s.(server) -> server_ok s'.(server);
  st_clip : clipboard_enabled s' = clipboard_enabled s;
  st_files : server_ok s.(server) -> got FILE_CLIPBOARD_NAME s' = true -> got FILE_CLIPBOARD_NAME s = true \/ clipboard_enabled s = true
}.

#[export] Instance steady_refl : Reflexive steady.
Proof. split; auto. Qed.

#[export] Instance steady_trans : Transitive steady.
Proof.
  intros x y z [A1 A2 A3] [B1 B2 B3]. split; [auto|congruence|]. intros Hok Hz. destruct (B3 (A1 Hok) Hz) as [H|H]; [auto|right; congruence].
Qed.

Lemma steady_began s s' : server_ok s.(server) -> steady s s' -> began s s'.
Proof. intros Hok [_ _ H] Hg. destruct (H Hok Hg); auto. Qed.

Lemma began_steady s s1 s' : server_ok s1.(server) -> began s s1 -> steady s1 s' -> began s s'.
Proof. intros Hok H [_ H2 H3] Hg. destruct (H3 Hok Hg) as [Hx|Hx]; [destruct (H Hx) as [?|[?|?]]; auto; right; right; congruence|right; right; congruence]. Qed.

Lemma steady_then s s1 s' : server_ok s.(server) -> steady s s1 -> began s1 s' -> began s s'.
Proof. intros Hok [_ H2 H3] H Hg. destruct (H Hg) as [Hx|[Hx|Hx]]; [destruct (H3 Hok Hx); auto|rewrite <- H2; auto|auto]. Qed.

(** Between two that do not, a change to the clipboard itself. *)
Lemma steady_around s s1 s2 s' : server_ok s.(server) -> steady s s1 -> (server_ok s1.(server) -> server_ok s2.(server)) ->
  (server_ok s1.(server) -> got FILE_CLIPBOARD_NAME s2 = got FILE_CLIPBOARD_NAME s1) -> steady s2 s' -> began s s'.
Proof.
  intros Hok [A1 _ A3] Hs Hg [_ B2 B3] H. specialize (A1 Hok). destruct (B3 (Hs A1) H) as [Hx|Hx].
  - rewrite Hg in Hx by done. destruct (A3 Hok Hx); auto.
  - rewrite <- B2 in Hx. auto.
Qed.

Lemma steady_same s s' : s'.(server) = s.(server) -> cid s' = cid s -> clipboard_enabled s' = clipboard_enabled s -> steady s s'.
Proof. intros H1 H2 H3. split; [by rewrite H1|done|]. unfold got. rewrite H1, H2. auto. Qed.

Lemma steady_quiet P J s s' : quiet P J s s' -> steady s s'.
Proof.
  intros [[Hk Hpm _ _ _] Hop _ _ Hsrv]. split.
  - intros H. apply (Hsrv H).
  - unfold clipboard_enabled. by rewrite Hpm, Hop.
  - intros H. destruct (vs_same _ _ _ _ (Hsrv H) FILE_CLIPBOARD_NAME eq_refl) as [Hs _]. unfold got.
    replace (cid s') with (cid s) by (symmetry; by apply core_cid). rewrite Hs. auto.
Qed.

Lemma sub_ok name b s : server_ok s.(server) -> server_ok (sub name b s).(server).
Proof. intros H. apply (subscribe_spec name (cid s) b s.(server) H). Qed.

Lemma steady_sub name b s : (name = FILE_CLIPBOARD_NAME -> b = true -> clipboard_enabled s = true) -> steady s (sub name b s).
Proof.
  intros Hb. split; [apply sub_ok|done|]. intros Hok. rewrite got_sub by done. case_bool_decide as Hn; [|auto].
  rewrite andb_true_iff. intros [_ ?]. right. by apply Hb.
Qed.

Lemma got_files_sub name b s : server_ok s.(server) -> name <> FILE_CLIPBOARD_NAME ->
  got FILE_CLIPBOARD_NAME (sub name b s) = got FILE_CLIPBOARD_NAME s.
Proof. intros Hok Hn. rewrite got_sub by done. by rewrite bool_decide_eq_false_2. Qed.

Lemma steady_files h s : steady s (sub_file_clipboard h s).
Proof. apply steady_sub. intros _. unfold can_sub_file_clipboard_service. by destruct (clipboard_enabled s). Qed.

Lemma steady_when n f s s1 : steady s s1 -> (forall b s, steady s (f b s)) -> steady s (when_set n f s1).
Proof. intros H Hf. unfold when_set. destruct (opt_set n) as [b|]; [|done]. etrans; [exact H|apply Hf]. Qed.

Lemma steady_quality h o s : steady s (update_quality h o s).
Proof.
  unfold update_quality. cbv zeta. assert (H : forall e s1, steady s s1 -> steady s (act e s1)) by (intros e s1 Hs; etrans; [exact Hs|by apply steady_same]).
  destruct (image_quality _); repeat case_match; repeat apply H; apply steady_refl.
Qed.

Lemma steady_audio b s : steady s (update_audio b s).
Proof.
  unfold update_audio. cbv zeta. set (s1 := set_opts_of _ s). assert (H : steady s s1) by by apply steady_same.
  assert (Hs : steady s (sub_audio s1)) by (etrans; [exact H|by apply steady_sub]).
  destruct (is_authed_view_camera_conn s1); [destruct (_ || _)|]; done.
Qed.

Lemma steady_persistence b s : steady s (update_terminal_persistence b s).
Proof. by apply steady_same. Qed.

(** A message with options, before and after the option on the clipboard itself. *)
Lemma options_began h o s : server_ok s.(server) -> began s (update_options h o s).
Proof.
  intros Hok. unfold update_options. cbv zeta. set (s1 := when_set (o_enable_file_transfer o) _ _).
  assert (H1 : steady s s1).
  { unfold s1. repeat (apply steady_when); [apply steady_quality|..]; intros b s0; try (by apply steady_same); try apply steady_audio.
    - etrans; [|by apply steady_sub]. etrans; [|by apply steady_sub]. by apply steady_same.
    - etrans; [|by apply steady_sub]. by apply steady_same.
    - etrans; [|apply steady_files]. by destruct b; apply steady_same. }
  clearbody s1. set (s2 := when_set (o_disable_clipboard o) _ s1).
  apply (steady_around s s1 s2); [done|done| | |].
  - intros H. unfold s2, when_set. destruct (opt_set _); [|done]. by apply sub_ok.
  - intros H. unfold s2, when_set. destruct (opt_set _); [|done]. unfold sub_clipboard. by rewrite got_files_sub.
  - clearbody s2. apply steady_when; [apply steady_when; [apply steady_when|]|].
    + set (s3 := when_set (o_disable_keyboard o) _ s2). assert (H3 : steady s2 s3).
      { apply steady_when; [done|]. intros b s0. etrans; [|by apply steady_sub]. etrans; [|apply steady_files].
        etrans; [|by apply steady_sub]. by apply steady_same. }
      destruct (version_at_least _ _); [exact H3|]. apply steady_when; [exact H3|]. intros b s0.
      destruct (keyboard _), b; try done; unfold turn_on_privacy; try destruct (_ || _); by apply steady_same.
    + intros b s0. unfold update_block_input. destruct (_ && _); by apply steady_same.
    + intros b s0. apply steady_persistence.
    + intros b s0. unfold update_show_my_cursor. cbv zeta. destruct b; destruct (whiteboard_supported h); by apply steady_same.
Qed.

End Receive.
End SessReceive.
