(* ===== verification/SessPermit.v ===== *)
(** What a session may do, by its kind and the permissions and options of the moment; and that
    the handlers of an authorized session do no more. *)

From S2P Require Import Prelude PathFs FsJob FsSend FsWalk MuxWindow TermService VideoQos SessMsg LoginState.
From S2P Require Import LoginFlow LoginSafety SessServer SessState SessFlow SessDispatch SessMessage SessFrame.
From S2P Require Import SessReceive.

Module SessPermit.
Import Msgs Scope Services ServicesFacts LoginState LoginSafety SessState SessFlow SessDispatch SessMessage SessFrame SessReceive.

Section Permit.
Context {L : Libraries}.
Context (zstd_compress : list Z -> option (list Z)).
Variable builtin : string -> string.
Variable by_user : bool.

(** ** What is permitted *)

Definition typ (s : Sess) (t : AuthConnType) : Prop := (cn s).(authed_conn_type) = Some t.
Definition watching (s : Sess) : Prop := typ s Remote \/ typ s ViewCamera.

(** The permissions by the names they are announced with. *)
Definition granted (p : Perms) (name : string) : option bool :=
  (fun x => x.2.2) <$> list_find (fun x => x.1 = name)
    [("Keyboard", p.(keyboard)); ("Clipboard", p.(clipboard)); ("Audio", p.(audio)); ("File", p.(file)); ("Restart", p.(restart));
     ("Recording", p.(recording)); ("BlockInput", p.(block_input)); ("PrivacyMode", p.(privacy_mode))].

(** What a session in the state [s] may do; [by_user]: at the request of the local user. *)
Definition permitted (s : Sess) (e : Effect) : Prop :=
  match e with
  | InputMouse _ simulate _ => typ s Remote /\ (if simulate then peer_keyboard_enabled s else (op s).(show_my_cursor)) = true
  | InputPointer _ | InputKey _ _ | ClickTime | MouseMoveTime => typ s Remote /\ peer_keyboard_enabled s = true
  | InputBlock _ => typ s Remote /\ (pm s).(keyboard) = true /\ (pm s).(block_input) = true
  | LockScreen => typ s Remote /\ (pm s).(keyboard) = true /\ (op s).(lock_after_session_end) = true
  | Reboot _ => typ s Remote /\ (pm s).(restart) = true
  | ChangeRes _ _ => typ s Remote /\ (pm s).(keyboard) = true
  | UpdateClipboard _ => typ s Remote /\ clipboard_enabled s = true
  | ServeClip _ | Send (OClip _) => typ s Remote /\ file_transfer_enabled s = true
  | Send (OFileClip k _) => (cn s).(authorized) = true /\ (is_stopping_allowed k = true -> file_transfer_enabled s = true)
  | Send (OCursor _) => typ s Remote /\ (peer_keyboard_enabled s || (op s).(show_remote_cursor)) = true
  | Whiteboard _ | RunConnect _ _ | Send (OBlockInput _ _) | Send (OMessageBox _ _) => typ s Remote
  | StartAudio _ _ | PlayAudio _ => watching s /\ (op s).(disable_audio) = false
  | TakeScreenshot source _ => streams s source
  | QosCall (Qos.EDelay _ _ | Qos.EElapsed _ _) => True
  | QosCall _ | EncoderUpdate _ | FrameFetched | RefreshVideoEffect
  | Send (OSwitchDisplay _) | Send (OFollowCurrentDisplay _) | ToCm CmVoiceCallIncoming => watching s
  | MuxFrame _ _ => typ s PortForward
  | HandleTerminal _ _ _ _ | Send (OTerminal _) | TerminalPersistent _ _ => typ s Terminal \/ typ s Remote
  | TerminalService _ _ _ => typ s Terminal
  | ToFs (FsWriteBlock _ | FsWriteDone _ _ | FsCheckDigest _ _ _ _ _ | FsWriteError _ _ _)
  | FileAudit _ _ | Send (OFileError _ _ _) => typ s FileTransfer \/ typ s Remote
  | ToFs _ | Send (ODir _ _ _ | OFile _) | ToCm (CmFileLog _) => typ s FileTransfer
  | Send (OPrivacyMode _ _ _) | ToCm (CmChat _) => is_Some (cn s).(authed_conn_type)
  | Send (OPermission name b) => granted (pm s) name = Some b /\ (by_user = true \/ typ s ViewCamera)
  | Send (OChat _ | OSwitchBack | OVoiceCallRequest _ | OVoiceCallResponse _ _) | VoiceInputDevice true | ToCm CmStartVoiceCall => by_user = true
  | ToCm CmCloseVoiceCall => by_user = true \/ watching s
  | EmptyFileClipboard => by_user = true \/ typ s Remote
  | Send (OService name _) => may builtin s (class name) = true /\
      ((cn s).(authorized) = true \/ name = CLIPBOARD_NAME \/ name = NAME_CURSOR)
  | Send (OTestDelay _ _ _ | OCloseReason _) | ToCm (CmDisconnected | CmClose) | VoiceInputDevice false | ClosePortForward => True
  end.

(** What happens before the login has authorized the connection: the measuring of its delay, its
    end, what the local user does with it, and ([unauthorized_clipboard]) what the clipboard and the
    cursor publish. *)
Definition before_login (e : Effect) : Prop :=
  match e with
  | Send (OTestDelay _ _ _ | OCloseReason _) | QosCall (Qos.EDelay _ _ | Qos.EElapsed _ _)
  | ToCm (CmDisconnected | CmClose) | VoiceInputDevice false | ClosePortForward => True
  | Send (OPermission _ _ | OChat _ | OSwitchBack | OVoiceCallRequest _ | OVoiceCallResponse _ _)
  | VoiceInputDevice true | ToCm (CmStartVoiceCall | CmCloseVoiceCall) | EmptyFileClipboard => by_user = true
  | Send (OService name _) => name = CLIPBOARD_NAME \/ name = NAME_CURSOR
  | _ => False
  end.

(** With one-way file transfer, the peer may look at directories and store files on this side: it is
    sent no file, and nothing is removed, renamed or created but for what it stores. *)
Definition one_way (e : Effect) : Prop :=
  match e with
  | Send (OFile _) | Send (OFileClip ClipBeginning _) | ServeClip (ClipDataRequest _) => False
  | ToFs c =>
      match c with
      | FsReadEmptyDirs _ _ | FsReadDir _ _ | FsNewWrite _ _ _ _ _ _ | FsCancelWrite _ | FsCancelRead _ | FsWriteBlock _
      | FsWriteDone _ _ | FsCheckDigest _ _ _ _ _ | FsWriteError _ _ _ | FsSendConfirm _ _ => True
      | FsRemoveDir _ _ _ | FsRemoveFile _ _ _ | FsCreateDir _ _ | FsRename _ _ _ => False
      end
  | Send (OService name _) => class name <> KFiles
  | _ => True
  end.

Definition one_way_on : bool := on builtin ONE_WAY_FILE_TRANSFER.
Definition ok (s : Sess) (e : Effect) : Prop := permitted s e /\ (one_way_on = true -> one_way e).

(** An unauthorized connection has no kind. *)
Definition kinded (s : Sess) : Prop := (cn s).(authorized) = false -> (cn s).(authed_conn_type) = None.

Lemma permitted_before s e : kinded s -> permitted s e -> (cn s).(authorized) = true \/ before_login e.
Proof.
  intros Hk He. destruct (authorized (cn s)) eqn:Ha; [by left|right]. specialize (Hk Ha).
  unfold permitted, watching, typ, streams in He. rewrite Hk, Ha in He.
  destruct e as [o|c|c| | | | | | | | | | | | | | |[]|ev| | | | | | | | | | | |]; try (destruct o || destruct c || destruct ev); cbn in *; try done; naive_solver.
Qed.

(** Jobs that read files are for file-transfer sessions. *)
Definition may_read (s : Sess) : Prop := typ s FileTransfer /\ one_way_on = false.

(** What [ok] depends on. *)
Record alike (s s' : Sess) : Prop := mkAlike {
  a_type : (cn s').(authed_conn_type) = (cn s).(authed_conn_type);
  a_auth : (cn s').(authorized) = (cn s).(authorized);
  a_perms : pm s' = pm s;
  a_opts : op s' = op s;
  a_subed : s'.(ext).(services_subed) = s.(ext).(services_subed);
  a_voice : s'.(ext).(voice_calling) = s.(ext).(voice_calling)
}.

#[export] Instance alike_refl : Reflexive alike.
Proof. by split. Qed.

Lemma alike_may s s' c : alike s s' -> may builtin s' c = may builtin s c.
Proof.
  intros [H1 H2 H3 H4 H5 H6]. unfold may, keyless, is_authed, clipboard_enabled, peer_keyboard_enabled, file_transfer_enabled, audio_enabled.
  by rewrite H1, H2, H3, H4, H5, H6.
Qed.

Lemma alike_ok s s' e : alike s s' -> ok s e -> ok s' e.
Proof.
  intros Ha [H H']. split; [|done]. pose proof (fun c => alike_may s s' c Ha) as Hm. destruct Ha as [H1 H2 H3 H4 H5 H6]. clear H'.
  unfold permitted, watching, typ, streams, peer_keyboard_enabled, clipboard_enabled, file_transfer_enabled in *.
  destruct e as [o|c|c| | | | | | | | | | | | | | |[]| | | | | | | | | | | | |]; try (destruct o || destruct c); rewrite ?H1, ?H2, ?H3, ?H4, ?Hm; exact H.
Qed.

Lemma quiet_alike P J s s' : quiet P J s s' -> alike s s'.
Proof.
  intros [[Hk Hp _ _ _] Ho Hs Hv _]. split; [by apply core_type|exact (f_equal k_authorized Hk)|done..].
Qed.

(** ** The kind of a session and its fields *)

Definition typed (k : Core) : Prop :=
  k.(k_fields).1.2 && k.(k_fields).2 = false /\
  if k.(k_authorized) then k.(k_awaiting) = false /\ k.(k_type) = Some (type_of_fields k.(k_fields) k.(k_tunnel))
  else k.(k_type) = None /\ k.(k_tunnel) = false.

(** An authorized session whose kind is that of its fields. *)
Definition running (s : Sess) : Prop := (cn s).(authorized) = true /\ typed (core (cn s)).

Lemma running_type s : running s -> (cn s).(authed_conn_type) =
  Some (type_of_fields ((cn s).(file_transfer), (cn s).(view_camera), (cn s).(terminal)) (is_port_forward (cn s))).
Proof. intros [Ha [_ Ht]]. change (k_authorized (core (cn s))) with ((cn s).(authorized)) in Ht. rewrite Ha in Ht. apply Ht. Qed.

Lemma running_core s s' : core (cn s') = core (cn s) -> running s -> running s'.
Proof. intros Hk [Ha Ht]. split; [etrans; [exact (f_equal k_authorized Hk)|exact Ha]|by rewrite Hk]. Qed.

Lemma authed_typ t s : is_authed t s = true <-> typ s t.
Proof. apply bool_decide_eq_true. Qed.

Lemma running_streams s : running s -> watching s -> streams s (video_source s).
Proof.
  intros Hr Hw. apply running_type in Hr. unfold watching, typ, streams, video_source, type_of_fields in *. cbn [fst snd] in Hr.
  destruct (file_transfer (cn s)); [by destruct Hw; congruence|]. destruct (is_port_forward (cn s)); [by destruct Hw; congruence|].
  destruct (view_camera (cn s)); [done|]. destruct (terminal (cn s)); [by destruct Hw; congruence|done].
Qed.

Lemma running_remote s : running s -> is_remote (cn s) = true -> typ s Remote.
Proof.
  intros Hr Hx. apply running_type in Hr. unfold typ. rewrite Hr. unfold is_remote, type_of_fields in *. cbn [fst snd].
  bool_to_prop. destruct (file_transfer (cn s)); [done|]. by rewrite H1, H2, H0.
Qed.

Lemma running_files s : running s -> is_Some (cn s).(file_transfer) -> typ s FileTransfer.
Proof. intros Hr [x Hx]. apply running_type in Hr. unfold typ. by rewrite Hr, Hx. Qed.

Lemma running_terminal s : running s -> typ s Terminal -> (cn s).(view_camera) = false.
Proof.
  intros Hr Ht. apply running_type in Hr. unfold typ in Ht. rewrite Hr in Ht. unfold type_of_fields in Ht. cbn [fst snd] in Ht.
  destruct (file_transfer (cn s)); [done|]. destruct (is_port_forward (cn s)); [done|]. by destruct (view_camera (cn s)).
Qed.

(** ** Input *)

Ltac okay := first [exact I | split; [cbn; unfold watching in *; auto|by intros _]].

Lemma timer_quiet P J h s : quiet P J s (update_auto_disconnect_timer h s).
Proof. unfold update_auto_disconnect_timer. quiet1. Qed.

Lemma mouse_quiet J h me s : watching s -> quiet (ok s) J s (mouse_event h me s).
Proof.
  intros Hw. unfold mouse_event. destruct (is_authed_view_camera_conn s) eqn:Ev; [done|].
  assert (Hr : typ s Remote) by (destruct Hw as [?|H]; [done|]; apply authed_typ in H; unfold is_authed_view_camera_conn in Ev; congruence).
  etrans; [|apply timer_quiet]. destruct (peer_keyboard_enabled s) eqn:Ek.
  - etrans; [apply (quiet_act (ok s) J (if is_left_up me then ClickTime else MouseMoveTime))|apply quiet_act; okay]. destruct (is_left_up me); okay.
  - destruct (show_my_cursor (op s)) eqn:Es; [apply quiet_act; okay|done].
Qed.

Lemma pointer_quiet J h pde s : watching s -> quiet (ok s) J s (pointer_event h pde s).
Proof.
  intros Hw. unfold pointer_event. destruct (is_authed_view_camera_conn s) eqn:Ev; [done|].
  assert (Hr : typ s Remote) by (destruct Hw as [?|H]; [done|]; apply authed_typ in H; unfold is_authed_view_camera_conn in Ev; congruence).
  etrans; [|apply timer_quiet]. destruct (peer_keyboard_enabled s) eqn:Ek; [|done].
  etrans; [apply (quiet_act (ok s) J MouseMoveTime)|apply quiet_act]; okay.
Qed.

Lemma key_quiet J h me s : watching s -> quiet (ok s) J s (key_event h me s).
Proof.
  intros Hw. unfold key_event. destruct (is_authed_view_camera_conn s) eqn:Ev; [done|].
  assert (Hr : typ s Remote) by (destruct Hw as [?|H]; [done|]; apply authed_typ in H; unfold is_authed_view_camera_conn in Ev; congruence).
  etrans; [|apply timer_quiet]. destruct (peer_keyboard_enabled s) eqn:Ek; [|done]. cbv zeta.
  assert (H1 : forall e, (match e with ClickTime | MouseMoveTime | InputKey _ _ => True | _ => False end) -> ok s e)
    by (intros [] Hx; try done; okay).
  set (s1 := act MouseMoveTime _). assert (Q1 : quiet (ok s) J s s1).
  { etrans; [|by apply quiet_act, H1]. destruct (is_enter me); [by apply quiet_act, H1|done]. }
  clearbody s1. set (s2 := match rdev_modifier h me with Some _ => _ | None => _ end).
  assert (Q2 : quiet (ok s) J s s2) by (etrans; [exact Q1|]; unfold s2; destruct (rdev_modifier h me); [quiet1|done]).
  clearbody s2. etrans; [exact Q2|]. destruct (_ && _); by apply quiet_act, H1.
Qed.

(** ** Sequences *)

Lemma alike_sym s s' : alike s s' -> alike s' s.
Proof. intros [H1 H2 H3 H4 H5 H6]. by split. Qed.

Lemma quiet_seq J s s1 s2 : quiet (ok s) J s s1 -> quiet (ok s1) J s1 s2 -> quiet (ok s) J s s2.
Proof.
  intros H1 H2. etrans; [exact H1|]. eapply quiet_mono; [| |exact H2]; [|done]. intros e.
  apply alike_ok, alike_sym. by eapply quiet_alike.
Qed.

Lemma quiet_running P J s s' : quiet P J s s' -> running s -> running s'.
Proof. intros H. apply running_core, (f_core _ _ _ _ (q_frame _ _ _ _ H)). Qed.

Lemma quiet_typ P J s s' t : quiet P J s s' -> typ s t -> typ s' t.
Proof. intros H. unfold typ. by rewrite (a_type _ _ (quiet_alike _ _ _ _ H)). Qed.

Lemma quiet_watching P J s s' : quiet P J s s' -> watching s -> watching s'.
Proof. intros H. unfold watching. intros [?|?]; [left|right]; by eapply quiet_typ. Qed.

(** ** Displays *)

Lemma refresh_quiet J d s : watching s -> quiet (ok s) J s (refresh_video_display d s).
Proof.
  intros Hw. unfold refresh_video_display. etrans; [apply (quiet_act (ok s) J RefreshVideoEffect); okay|].
  apply quiet_server. intros Hok. by apply option_step.
Qed.

Lemma resolution_quiet J h d r s : typ s Remote -> quiet (ok s) J s (change_resolution h d r s).
Proof.
  intros Ht. unfold change_resolution. destruct (keyboard (pm s)) eqn:Ek; [|done]. cbv zeta.
  destruct (displays_ok h _); [|done]. apply quiet_act. okay.
Qed.

Lemma switch_to_quiet P J h d s : running s -> watching s -> quiet P J s (switch_display_to h d s).2.
Proof.
  intros Hr Hw. pose proof (running_streams s Hr Hw) as Hs. unfold switch_display_to. cbv zeta. destruct (_ <=? _); [done|]. cbn [snd].
  assert (H1 : quiet P J s (on_server (try_add_video (video_source s) d) s)) by (apply quiet_server; intros; by apply add_video_step).
  set (s1 := on_server _ s) in *. set (s2 := if negb _ then _ else s1).
  assert (H2 : quiet P J s1 s2).
  { unfold s2. destruct (negb _); [|done]. unfold sub. apply quiet_server. intros Hok.
    apply subscribe_step; [done| |done]. eapply of_source_video, video_name. }
  assert (Hx : streams s2 (video_source s)).
  { unfold streams. pose proof (quiet_alike _ _ _ _ H2) as Ha. rewrite (a_type _ _ Ha). exact Hs. }
  etrans; [exact H1|]. etrans; [exact H2|]. clearbody s2. etrans; [|quiet1]. unfold sub. apply quiet_server. intros Hok.
  apply subscribe_step; [done|eapply of_source_video, video_name|]. intros _. eexists. split; [apply video_name|exact Hx].
Qed.

Lemma changed_quiet J h source d s : watching s -> quiet (ok s) J s (send_display_changed h source d s).
Proof. intros Hw. unfold send_display_changed. destruct (display_changed h source d); [apply quiet_act; okay|done]. Qed.

Lemma switch_display_quiet J h d w hh s : running s -> watching s -> quiet (ok s) J s (handle_switch_display h d w hh s).
Proof.
  intros Hr Hw. unfold handle_switch_display. cbv zeta. destruct (_ =? _); [done|].
  pose proof (switch_to_quiet (ok s) J h (as_usize d) s Hr Hw) as H1. destruct (switch_display_to h (as_usize d) s) as [[] s1]; cbn [negb snd] in *; [|done].
  set (s2 := if _ && negb (hh =? 0) then _ else s1). assert (H2 : quiet (ok s1) J s1 s2).
  { unfold s2. destruct (_ && _) eqn:E; [|done]. bool_to_prop. apply resolution_quiet.
    pose proof (running_streams s1 (quiet_running _ _ _ _ H1 Hr) (quiet_watching _ _ _ _ H1 Hw)) as Hs. unfold streams, video_source in Hs.
    by rewrite H in Hs. }
  assert (H12 : quiet (ok s) J s s2) by (by eapply quiet_seq).
  eapply quiet_seq; [exact H12|]. apply changed_quiet. by eapply quiet_watching.
Qed.

(** ** Files *)

Lemma files_idle_quiet P (J : Prop) f s : (forall x, (idle x -> idle (f x)) /\ (f x).(printer_data) = x.(printer_data)) ->
  quiet P J s (set_files_of f s).
Proof. intros H. apply quiet_files. intros x. destruct (H x) as [? ->]. auto. Qed.

Lemma files_quiet P (J : Prop) f s : J -> (forall x, (f x).(printer_data) = x.(printer_data)) -> quiet P J s (set_files_of f s).
Proof. intros HJ H. apply quiet_files. intros x. rewrite (H x). auto. Qed.

Lemma new_read_job_quiet job path s : may_read s -> quiet (ok s) (may_read s) s (process_new_read_job job path s).
Proof.
  intros Hm. pose proof Hm as [Ht Hw]. unfold process_new_read_job, audit. cbv zeta. etrans; [|apply quiet_act; okay].
  etrans; [apply (quiet_act (ok s) _ (Send (ODir (Job.id job) path (Job.files job)))); okay|].
  apply quiet_files. intros x. by split; [left|].
Qed.

Lemma start_job_quiet h id t src n hidden ow path lim s : may_read s ->
  quiet (ok s) (may_read s) s (create_and_start_read_job h id t src n hidden ow path lim s).
Proof.
  intros Hm. unfold create_and_start_read_job. destruct (Walk.new_read _ _ _ _ _ _ _ _) as [job|err].
  - destruct (lim && _); [apply quiet_act; destruct Hm; okay|by apply new_read_job_quiet].
  - apply quiet_act. destruct Hm. okay.
Qed.

Lemma file_send_quiet h id path hidden n ft s : (job_type_of ft = Job.Generic -> may_read s) ->
  s.(ext).(files).(printer_data) = [] -> quiet (ok s) (may_read s) s (file_send h id path hidden n ft s).
Proof.
  intros Hm Hp. unfold file_send. destruct (job_type_of ft) eqn:E.
  - etrans; [by apply start_job_quiet, Hm|]. by apply files_idle_quiet.
  - by rewrite Hp.
Qed.

Lemma file_confirm_quiet J h id r s : typ s FileTransfer -> quiet (ok s) J s (file_send_confirm h id r s).
Proof.
  intros Ht. unfold file_send_confirm. destruct (find_job id _) as [[i job]|].
  - apply quiet_files. intros x. cbn. split; [|done]. intros [Hx ?]. right. split; [cbn; rewrite Hx; by destruct i|done].
  - apply quiet_act. okay.
Qed.

Lemma file_cancel_quiet J id s : typ s FileTransfer -> quiet (ok s) J s (file_cancel id s).
Proof.
  intros Ht. unfold file_cancel. cbv zeta. set (s1 := act _ (act _ s)).
  assert (H1 : quiet (ok s) J s s1) by (unfold s1; etrans; apply quiet_act; okay).
  destruct (find_job id _) as [x|]; [|done]. etrans; [exact H1|]. etrans; [|apply quiet_act; okay].
  apply quiet_files. intros y. cbn. split; [|done]. intros [Hx ?]. right. by split; [cbn; rewrite Hx|].
Qed.

Definition file_side (s : Sess) : Prop := typ s FileTransfer \/ typ s Remote.

Lemma file_action_quiet h fa s : host_ok builtin h -> running s -> file_side s -> s.(ext).(files).(printer_data) = [] ->
  quiet (ok s) (may_read s) s (file_action h fa s).
Proof.
  intros Hh Hr Hs Hp. unfold file_action. cbv zeta. destruct (negb _) eqn:E; [done|]. rewrite (is_on_spec builtin) by done.
  assert (Hf : (forall id path hidden n t, fa <> Some (FaSend id path hidden n t)) -> typ s FileTransfer).
  { intros Hx. apply running_files; [done|]. apply negb_false_iff, orb_true_iff in E as [E|E]; [by bool_to_prop|].
    destruct fa as [[]|]; try done. by destruct (Hx id path include_hidden file_num file_type). }
  assert (Hg : forall id path hidden n t, fa = Some (FaSend id path hidden n t) -> job_type_of t = Job.Generic -> typ s FileTransfer).
  { intros id path hidden n t -> Ht. apply running_files; [done|]. apply negb_false_iff, orb_true_iff in E as [E|E]; [by bool_to_prop|]. by rewrite Ht in E. }
  change (on builtin ONE_WAY_FILE_TRANSFER) with one_way_on. destruct (if one_way_on then _ else _) as [job_id|] eqn:Eo; [apply quiet_act; okay|].
  assert (Ho : one_way_on = true -> one_way_refuses fa = None) by (intros Hx; by rewrite Hx in Eo). clear E Eo.
  destruct fa as [[]|]; [| | | | | | | | | | |done]; try (specialize (Hf ltac:(done))).
  - apply quiet_act. okay.
  - apply quiet_act. okay.
  - destruct (Walk.get_recursive_files _ _ _ _); [destruct (too_many_files _ _)|]; apply quiet_act; okay.
  - apply file_send_quiet; [|done]. intros Ht. split; [by eapply Hg|]. destruct one_way_on; [|done]. by specialize (Ho eq_refl).
  - etrans; [|apply files_idle_quiet; done]. unfold audit. etrans; apply quiet_act; okay.
  - assert (Hm : may_read s) by (split; [done|]; destruct one_way_on; [by specialize (Ho eq_refl)|done]).
    etrans; [|apply files_quiet; [done|]; intros x; unfold on_remove_dir; by destruct (existsb _ _)]. apply quiet_act. split; [done|intros Hx; by specialize (Ho Hx)].
  - assert (Hm : may_read s) by (split; [done|]; destruct one_way_on; [by specialize (Ho eq_refl)|done]).
    etrans; [|by apply files_quiet]. apply quiet_act. split; [done|intros Hx; by specialize (Ho Hx)].
  - etrans; [|apply quiet_act; okay]. apply quiet_act. split; [done|intros Hx; by specialize (Ho Hx)].
  - by apply file_cancel_quiet.
  - by apply file_confirm_quiet.
  - etrans; [|apply quiet_act; okay]. apply quiet_act. split; [done|intros Hx; by specialize (Ho Hx)].
Qed.

Lemma file_response_quiet J fr s : file_side s -> quiet (ok s) J s (file_response fr s).
Proof. intros Hs. unfold file_response. destruct fr as [[]|]; try done; apply quiet_act; okay. Qed.

Lemma cliprdr_quiet J h clip s : host_ok builtin h -> typ s Remote -> quiet (ok s) J s (cliprdr h clip s).
Proof.
  intros Hh Ht. unfold cliprdr, audit. rewrite (is_on_spec builtin) by done. change (on builtin ONE_WAY_FILE_TRANSFER) with one_way_on.
  assert (Hserve : is_file_data_request clip && one_way_on = false -> version_at_least s "1.3.8" && file_transfer_enabled s = true ->
    quiet (ok s) J s (acts ((fun '(files, payload) => if files : bool then FileAudit false "" else Send (OClip payload)) <$> serve_clip_messages h clip)
      (act (ServeClip clip) s))).
  { intros Ho Hv. bool_to_prop. etrans; [apply (quiet_act (ok s) J (ServeClip clip))|apply quiet_acts].
    - split; [done|]. intros Hx. destruct Ho as [Ho|Ho]; [by destruct clip|congruence].
    - apply Forall_fmap, Forall_true. intros [[] payload]; cbn; okay. }
  destruct clip; try (apply quiet_act; okay); try done;
    (destruct (is_file_data_request _ && one_way_on) eqn:E1; [done|]; destruct (version_at_least s "1.3.8" && _) eqn:E2; [by apply Hserve|done]).
Qed.

(** ** Terminals, calls, the end *)

Lemma terminal_quiet J h a s : typ s Terminal \/ typ s Remote -> quiet (ok s) J s (handle_terminal_action h a s).
Proof.
  intros Ht. unfold handle_terminal_action. destruct (terminal_user_token (cn s)) as [token|]; [|done]. cbv zeta. set (s1 := act _ s).
  assert (H1 : quiet (ok s) J s s1) by (apply quiet_act; okay). clearbody s1.
  destruct (terminal_reply h a) as [[r|]|]; [|done|]; (etrans; [exact H1|apply quiet_act; okay]).
Qed.

(** What a handler that ends the session does. *)
Record closing (s s' : Sess) : Prop := mkClosing {
  c_alike : alike s s';
  c_log : exists es, s'.(log) = s.(log) ++ es /\ Forall (ok s) es
}.

Lemma quiet_closing J s s' : quiet (ok s) J s s' -> closing s s'.
Proof. intros H. split; [by eapply quiet_alike|apply H]. Qed.

Lemma closing_seq s s1 s2 : closing s s1 -> closing s1 s2 -> closing s s2.
Proof.
  intros [[A1 A2 A3 A4 A5 A6] (l1 & A7 & A8)] [[B1 B2 B3 B4 B5 B6] (l2 & B7 & B8)].
  split; [split; congruence|]. exists (l1 ++ l2). split; [by rewrite B7, A7, app_assoc|]. apply Forall_app. split; [done|].
  eapply Forall_impl; [exact B8|]. intros e. by apply alike_ok.
Qed.

Lemma remove_session_quiet P J s : quiet P J s (check_remove_session s).
Proof. unfold check_remove_session. cbv zeta. destruct (_ !! _); [|done]. destruct (_ || _); [by apply quiet_login|done]. Qed.

Lemma close_reason_quiet J r s : quiet (ok s) J s (send_close_reason_no_retry r s).
Proof. unfold send_close_reason_no_retry. etrans; [|apply remove_session_quiet]. apply quiet_act. okay. Qed.

(** The screen is locked for remote-control sessions only. *)
Definition locks (s : Sess) : Prop := (op s).(lock_after_session_end) = true -> typ s Remote.

Lemma on_close_closing lock s : locks s -> closing s (on_close lock s).
Proof.
  intros Hl. unfold on_close. destruct (closed (ext s)); [by apply (quiet_closing True)|]. cbv zeta.
  set (s1 := act _ (on_ext _ s)). assert (H1 : quiet (ok s) True s s1).
  { etrans; [|apply quiet_act; okay]. apply quiet_ext. intros x. by split_and!; auto. }
  set (s2 := if _ && negb (session_reconnected s1) then act LockScreen s1 else s1).
  assert (H2 : quiet (ok s1) True s1 s2).
  { unfold s2. destruct (_ && _) eqn:E; [|done]. bool_to_prop. apply quiet_act. split; [|done].
    split; [|done]. eapply quiet_typ; [exact H1|]. by apply Hl. }
  assert (H12 : quiet (ok s) True s s2) by (by eapply quiet_seq). clearbody s2. clear H1 H2 s1.
  set (s3 := act _ s2). assert (H3 : quiet (ok s) True s s3) by (etrans; [exact H12|]; unfold s3; apply quiet_act; destruct (_ || _); okay).
  clearbody s3. destruct (quiet_closing _ _ _ H3) as [Ha (es & Hes & Hok)].
  destruct (port_forward_mux _); (split; [destruct Ha; by split|]).
  - exists (es ++ [ClosePortForward]). split; [cbn; by rewrite Hes, <- app_assoc|]. apply Forall_app. split; [done|]. constructor; [|done]. okay.
  - by exists es.
Qed.

End Permit.
End SessPermit.
