(* ===== verification/SessOptions.v ===== *)
(** The handlers that change permissions, options and subscriptions, and the start of a session:
    they do no more than is permitted and keep the subscriptions bounded. *)

From S2P Require Import Prelude PathFs FsJob FsSend FsWalk MuxWindow TermService VideoQos SessMsg LoginState.
From S2P Require Import LoginFlow LoginSafety SessServer SessState SessFlow SessDispatch SessMessage SessFrame.
From S2P Require Import SessReceive SessPermit.

Module SessOptions.
Import Msgs Scope Services ServicesFacts LoginState LoginSafety SessState SessFlow SessDispatch SessMessage SessFrame SessReceive SessPermit.

Section Options.
Context {L : Libraries}.
Variable builtin : string -> string.
Variable by_user : bool.
Abbreviation ok := (ok builtin by_user).
Abbreviation noisy := (noisy builtin).
Abbreviation receives := (receives builtin).

(** Permitted whatever the options are. *)
Definition always (s : Sess) (e : Effect) : Prop :=
  forall s', core (cn s') = core (cn s) -> pm s' = pm s -> ok s' e.

Lemma always_frame P J s s1 e : frame P J s s1 -> always s1 e -> always s e.
Proof. intros H Ha s' Hk Hp. apply Ha; [by rewrite Hk, (f_core _ _ _ _ H)|by rewrite Hp, (f_perms _ _ _ _ H)]. Qed.

Lemma noisy_seq s s1 s2 : noisy (always s) s s1 -> noisy (always s1) s1 s2 -> noisy (always s) s s2.
Proof.
  intros H1 H2. etrans; [exact H1|]. eapply noisy_mono; [|exact H2]. intros e.
  eapply always_frame, (n_frame _ _ _ _ H1).
Qed.

Lemma frame_typ P J s s' t : frame P J s s' -> typ s t -> typ s' t.
Proof. intros H. unfold typ. by rewrite (core_type _ _ (f_core _ _ _ _ H)). Qed.

Lemma typ_core s s' t : core (cn s') = core (cn s) -> typ s t -> typ s' t.
Proof. intros H. unfold typ. by rewrite (core_type _ _ H). Qed.

Lemma watching_core s s' : core (cn s') = core (cn s) -> watching s -> watching s'.
Proof. intros H [?|?]; [left|right]; by eapply typ_core. Qed.

Ltac always_tac :=
  let s' := fresh "s'" in let Hk := fresh "Hk" in let Hp := fresh "Hp" in
  intros s' Hk Hp; split; [cbn; rewrite ?Hp|by intros _]; eauto using typ_core, watching_core.

Ltac changed s := apply (receives_ext _ _ s); [assumption|reflexivity|reflexivity|reflexivity|reflexivity|
  intros [] Hc; first [reflexivity|exfalso; apply Hc; rewrite !elem_of_cons; tauto]].

(** ** Options of remote-control and camera sessions *)

Lemma quality_noisy h o s : watching s -> noisy (always s) s (update_quality h o s).
Proof.
  intros Hw. unfold update_quality. cbv zeta.
  assert (H : forall e s1, (match e with QosCall _ | EncoderUpdate _ => True | _ => False end) -> noisy (always s) s1 (act e s1)).
  { intros e s1 He. apply noisy_quiet, quiet_act. destruct e; try done; [destruct ev; always_tac; done|always_tac]. }
  set (s1 := match image_quality _ with Some _ => _ | None => _ end).
  assert (H1 : noisy (always s) s s1).
  { unfold s1. destruct (image_quality _) as [q|]; [|done]. destruct (0 <? _); [by apply H|done]. }
  clearbody s1. set (s2 := if _ <? _ then act _ s1 else s1). assert (H2 : noisy (always s) s s2).
  { unfold s2. destruct (_ <? _); [|done]. etrans; [exact H1|by apply H]. }
  clearbody s2. destruct (o_supported_decoding o); [|done]. etrans; [exact H2|by apply H].
Qed.

Lemma audio_noisy P b s : noisy P s (update_audio b s).
Proof.
  unfold update_audio. cbv zeta. set (s1 := set_opts_of (set_disable_audio b) s). change (is_authed_view_camera_conn s1) with (is_authed ViewCamera s).
  change (voice_calling (ext s1)) with (voice_calling (ext s)).
  destruct (is_authed ViewCamera s) eqn:Ev; [destruct (voice_calling (ext s) || negb (audio_enabled s1)) eqn:Eb|]; (split; [apply frame_plain; reflexivity|]); intros Ha H.
  - apply sub_audio_receives; [done| |unfold s1; changed s]. intros _ Hx. change (voice_calling (ext s1)) with (voice_calling (ext s)).
    rewrite Hx in Eb. by rewrite orb_false_r in Eb.
  - apply (receives_ext _ _ s); [assumption|reflexivity..|]. apply orb_false_iff in Eb as [Eb _].
    intros [] _; try reflexivity. cbn [may]. change (is_authed ViewCamera s1) with (is_authed ViewCamera s).
    change (voice_calling (ext s1)) with (voice_calling (ext s)). by rewrite Ev, Eb, !andb_false_r.
  - apply sub_audio_receives; [done| |unfold s1; changed s]. change (is_authed ViewCamera s1) with (is_authed ViewCamera s). by rewrite Ev.
Qed.

Definition terminal_effect (e : Effect) : Prop := match e with TerminalPersistent _ _ => True | _ => False end.

Lemma terminal_effect_ok s e : typ s Terminal \/ typ s Remote -> terminal_effect e -> ok s e.
Proof. intros Ht He. by destruct e. Qed.

Lemma persistence_noisy b s : noisy terminal_effect s (update_terminal_persistence b s).
Proof.
  unfold update_terminal_persistence. cbv zeta. etrans.
  - apply noisy_quiet, (quiet_login _ _ (on_conn (set_terminal_persistent b))). reflexivity.
  - by apply noisy_quiet, quiet_act.
Qed.

(** ** Options of remote-control sessions *)

Definition step (f : Sess -> Sess) : Prop := forall s, typ s Remote -> noisy (always s) s (f s).

Lemma step_option n f s s1 : typ s Remote -> noisy (always s) s s1 -> (forall b, step (f b)) -> noisy (always s) s (when_set n f s1).
Proof.
  intros Ht H Hf. unfold when_set. destruct (opt_set n) as [b|]; [|done]. eapply noisy_seq; [exact H|]. apply Hf.
  eapply frame_typ; [exact (n_frame _ _ _ _ H)|done].
Qed.

Ltac no_effect := split; [apply frame_plain; reflexivity|intros Ha Hrec].

Lemma lock_step b : step (set_opts_of (set_lock_after_session_end b)).
Proof. intros s _. no_effect. changed s. Qed.

Lemma cursor_step b : step (fun s => let s := set_opts_of (set_show_remote_cursor b) s in
  sub NAME_POS b (sub NAME_CURSOR (peer_keyboard_enabled s || b) s)).
Proof.
  intros s _. cbv zeta. no_effect. apply sub_pos_receives; [done|]. apply sub_cursor_receives; [|changed s].
  unfold peer_keyboard_enabled. cbn [show_remote_cursor op set_opts_of on_ext ext opts set_opts set_show_remote_cursor]. 
  rewrite !orb_true_iff, andb_true_iff. tauto.
Qed.

Lemma follow_cursor_step b : step (set_opts_of (set_follow_remote_cursor b)).
Proof. intros s _. no_effect. changed s. Qed.

Lemma follow_window_step b : step (fun s => sub NAME_WINDOW_FOCUS b (set_opts_of (set_follow_remote_window b) s)).
Proof. intros s _. no_effect. apply sub_window_receives; [done|changed s]. Qed.

Lemma audio_step b : step (update_audio b).
Proof. intros s _. apply audio_noisy. Qed.

Section Host.
Variable h : Host.
Hypothesis Hh : host_ok builtin h.

Lemma files_step b : step (fun s => let s := set_opts_of (set_enable_file_transfer b) s in
  sub_file_clipboard h (if b : bool then s else act EmptyFileClipboard s)).
Proof.
  intros s Ht. cbv zeta. destruct b.
  - no_effect. apply sub_files_receives; [done|changed s].
  - split.
    + split; try done; [by right|]. exists [EmptyFileClipboard]. split; [done|]. constructor; [|done].
      intros s' Hk _. split; [right; by eapply typ_core|done].
    + intros Ha Hrec. apply sub_files_receives; [done|changed s].
Qed.

Lemma clipboard_step b : step (fun s => sub_clipboard h (set_opts_of (set_disable_clipboard b) s)).
Proof. intros s _. no_effect. apply sub_clipboard_receives; [done|changed s]. Qed.

Lemma keyboard_step b : step (fun s => let s := sub_file_clipboard h (sub_clipboard h (set_opts_of (set_disable_keyboard b) s)) in
  sub NAME_CURSOR (peer_keyboard_enabled s || (op s).(show_remote_cursor)) s).
Proof.
  intros s _. cbv zeta. no_effect. apply sub_cursor_receives.
  - unfold peer_keyboard_enabled. rewrite !orb_true_iff, andb_true_iff. tauto.
  - apply sub_files_receives; [done|]. apply sub_clipboard_receives; [done|]. changed s.
Qed.

Lemma privacy_step b : step (fun s => if (pm s).(keyboard) then if b : bool then turn_on_privacy "" s else turn_off_privacy "" s else s).
Proof.
  intros s Ht. destruct (keyboard (pm s)); [|done]. unfold turn_on_privacy, turn_off_privacy.
  destruct b; [destruct (_ || _)|]; apply noisy_quiet, quiet_act; intros s' Hk _; (split; [exists Remote; by eapply typ_core|done]).
Qed.

Lemma block_input_step b : step (update_block_input b).
Proof.
  intros s Ht. unfold update_block_input. destruct (_ && _) eqn:E.
  2: { apply noisy_quiet, quiet_act. intros s' Hk _. split; [by eapply typ_core|done]. }
  bool_to_prop. apply noisy_quiet, quiet_act. intros s' Hk Hp. split; [cbn; rewrite Hp; by eauto using typ_core|done].
Qed.

Lemma persistence_step b : step (update_terminal_persistence b).
Proof.
  intros s Ht. eapply noisy_mono; [|apply persistence_noisy]. intros e He s' Hk _. apply terminal_effect_ok; [|done].
  right. by eapply typ_core.
Qed.

Lemma show_my_cursor_step b : step (update_show_my_cursor h b).
Proof.
  intros s Ht. unfold update_show_my_cursor. cbv zeta. set (s1 := set_opts_of _ s).
  assert (H1 : noisy (always s) s s1) by (unfold s1; no_effect; changed s).
  assert (Hw : forall on, noisy (always s) s (act (Whiteboard on) s1)).
  { intros on. etrans; [exact H1|]. apply noisy_quiet, quiet_act. intros s' Hk _. split; [by eapply typ_core|done]. }
  destruct b; destruct (whiteboard_supported h); try done. etrans; [exact H1|]. apply noisy_quiet, quiet_act.
  intros s' Hk _. split; [by eapply typ_core|done].
Qed.

Lemma options_step o : step (update_options h o).
Proof.
  intros s Ht. unfold update_options. cbv zeta.
  apply step_option; [done| |exact show_my_cursor_step].
  apply step_option; [done| |exact persistence_step].
  apply step_option; [done| |exact block_input_step].
  match goal with |- noisy _ _ (if _ then ?x else _) => assert (H : noisy (always s) s x) end.
  { apply step_option; [done| |exact keyboard_step].
    apply step_option; [done| |exact clipboard_step].
    apply step_option; [done| |exact files_step].
    apply step_option; [done| |exact audio_step].
    apply step_option; [done| |exact follow_window_step].
    apply step_option; [done| |exact follow_cursor_step].
    apply step_option; [done| |exact cursor_step].
    apply step_option; [done| |exact lock_step].
    apply quality_noisy. by left. }
  destruct (version_at_least _ _); [exact H|]. by apply step_option; [done| |exact privacy_step].
Qed.

End Host.

(** ** Scoped options *)

Definition camera_effect (e : Effect) : Prop := match e with QosCall _ | EncoderUpdate _ => True | _ => False end.

Lemma camera_effect_ok s e : typ s ViewCamera -> camera_effect e -> ok s e.
Proof. intros Ht He. split; [|by destruct e]. destruct e; try done; [destruct ev; try done; by right|by right]. Qed.

Lemma quality_camera h o s : quiet camera_effect False s (update_quality h o s).
Proof.
  unfold update_quality. cbv zeta. set (s1 := match image_quality _ with Some _ => _ | None => _ end).
  assert (H1 : quiet camera_effect False s s1).
  { unfold s1. destruct (image_quality _) as [q|]; [|done]. destruct (0 <? _); [by apply quiet_act|done]. }
  clearbody s1. etrans; [exact H1|]. destruct (0 <? o_custom_fps o), (o_supported_decoding o); try done; try (by apply quiet_act).
  etrans; by apply quiet_act.
Qed.

Lemma camera_options h o o' s : (scoped_view_camera_option o).1 = Some o' ->
  update_options h o' s = when_set o'.(o_disable_audio) update_audio (update_quality h o' s).
Proof.
  unfold scoped_view_camera_option. cbn [fst]. unfold then_some. destruct (option_has_any_field _); [|done]. intros [= <-].
  unfold update_options. cbv zeta. cbn. by destruct (version_at_least _ _).
Qed.

Lemma terminal_options h o o' s : (scoped_terminal_login_option o).1 = Some o' ->
  update_options h o' s = when_set o'.(o_terminal_persistent) update_terminal_persistence s.
Proof.
  unfold scoped_terminal_login_option. destruct (bool_option _); cbn [fst]; unfold then_some; (destruct (option_has_any_field _); [|done]); intros [= <-];
    unfold update_options; cbv zeta; cbn; by destruct (version_at_least _ _).
Qed.

Lemma camera_options_noisy h o o' s : (scoped_view_camera_option o).1 = Some o' -> noisy camera_effect s (update_options h o' s).
Proof.
  intros H. rewrite (camera_options h o o') by done. etrans; [apply noisy_quiet, (quality_camera h o')|].
  apply noisy_when_set. intros b s1. apply audio_noisy.
Qed.

Lemma terminal_options_noisy h o o' s : (scoped_terminal_login_option o).1 = Some o' -> noisy terminal_effect s (update_options h o' s).
Proof.
  intros H. rewrite (terminal_options h o o') by done. unfold when_set. destruct (opt_set _); [|done]. apply persistence_noisy.
Qed.

(** ** Displays *)

Lemma foldl_video_step V id source ds v : server_ok v -> video_step V id v (foldl (fun v d => try_add_video source d v) v ds).
Proof.
  revert v. induction ds as [|d ds IH]; intros v Hok; cbn [foldl]; [by apply video_step_refl|].
  pose proof (add_video_step V id source d v Hok) as H. eapply video_step_trans; [exact H|]. apply IH, H.
Qed.

Lemma capture_quiet P h add sub set s : running s -> watching s -> exists s3, quiet P False s s3 /\
  (SessDispatch.capture_displays h add sub set s = s3 \/
   exists b, SessDispatch.capture_displays h add sub set s = SessFlow.sub NAME_WINDOW_FOCUS b s3 /\ (op s3).(follow_remote_window) = true).
Proof.
  intros Hr Hw. pose proof (running_streams s Hr Hw) as Hs. unfold SessDispatch.capture_displays. cbv zeta.
  destruct (_ || _); [exists s; by split; [|left]|]. set (add_all := fun ds v => foldl (fun v d => try_add_video (video_source s) d v) v ds). set (s1 := on_server _ s).
  assert (H1 : quiet P False s s1).
  { apply quiet_server. intros Hok. unfold add_all. eapply video_step_trans; apply foldl_video_step; [done|].
    by eapply vs_ok, (foldl_video_step (fun _ => True) 0). }
  assert (Hs1 : streams s1 (video_source s)) by exact Hs. clearbody s1.
  set (s2 := on_server _ s1). assert (H2 : quiet P False s1 s2).
  { apply quiet_server. intros Hok. destruct (negb (is_nil add)), (negb (is_nil sub)); by apply capture_step. }
  clearbody s2. set (s3 := on_ext _ s2). assert (H3 : quiet P False s2 s3) by (unfold s3; quiet1).
  exists s3. split; [etrans; [exact H1|]; by etrans|]. clearbody s3.
  destruct (follow_remote_window (op s3)) eqn:E; [right; by eexists|by left].
Qed.

Lemma capture_noisy P h add sub set s : running s -> watching s -> noisy P s (SessDispatch.capture_displays h add sub set s).
Proof.
  intros Hr Hw. destruct (capture_quiet P h add sub set s Hr Hw) as (s3 & H & [-> | (b & -> & E)]); [by apply noisy_quiet|].
  etrans; [by apply noisy_quiet|]. split; [apply frame_plain; reflexivity|].
  intros _ Hrec. apply sub_window_receives; [done|]. by apply (receives_ext _ _ s3).
Qed.

Lemma capture_began h add sub set s : running s -> watching s -> server_ok s.(server) -> began s (SessDispatch.capture_displays h add sub set s).
Proof.
  intros Hr Hw Hok. apply steady_began; [done|]. destruct (capture_quiet (fun _ => False) h add sub set s Hr Hw) as (s3 & H & [-> | (b & -> & E)]);
    [by eapply steady_quiet|]. etrans; [by eapply steady_quiet|by apply steady_sub].
Qed.

(** ** Voice calls *)

Lemma voice_receives v s : (is_authed ViewCamera s = true -> (cn s).(authorized) = true) -> receives s ->
  let s' := on_ext (set_voice_calling v) s in
  receives (if is_authed_view_camera_conn s' then sub AUDIO_NAME (audio_enabled s' && v) s' else s').
Proof.
  intros Ha H s'. change (is_authed_view_camera_conn s') with (is_authed ViewCamera s). destruct (is_authed ViewCamera s) eqn:E.
  - apply (receives_sub _ KAudio); [done|changed s|]. cbn [tracked andb may]. change (authorized (cn s')) with (authorized (cn s)).
    change (is_authed ViewCamera s') with (is_authed ViewCamera s). rewrite Ha, E by done. cbn [negb orb]. rewrite andb_true_l. by destruct (services_subed _).
  - apply (receives_ext _ _ s); [done|reflexivity..|]. intros [] _; try reflexivity. cbn [may].
    change (is_authed ViewCamera s') with (is_authed ViewCamera s). by rewrite E.
Qed.

(** ** What the local user asks for *)

Record mine (s s' : Sess) : Prop := mkMine {
  m_core : core (cn s') = core (cn s);
  m_opts : op s' = op s;
  m_files : s'.(ext).(files) = s.(ext).(files);
  m_log : exists es, s'.(log) = s.(log) ++ es /\ Forall (ok s') es;
  m_receives : typed (core (cn s)) -> receives s -> receives s';
  m_began : server_ok s.(server) -> began s s'
}.

Lemma typed_camera s : typed (core (cn s)) -> is_authed ViewCamera s = true -> (cn s).(authorized) = true.
Proof.
  intros [_ Ht] Hv. apply bool_decide_eq_true in Hv. change (k_authorized (core (cn s))) with ((cn s).(authorized)) in Ht.
  change (k_type (core (cn s))) with ((cn s).(authed_conn_type)) in Ht. destruct (authorized (cn s)); [done|]. destruct Ht. congruence.
Qed.

Lemma log_same s s' : s'.(log) = s.(log) -> exists es, s'.(log) = s.(log) ++ es /\ Forall (ok s') es.
Proof. intros H. exists []. split; [by rewrite app_nil_r|done]. Qed.

Ltac logged es := exists es; split; [cbn; rewrite <- ?app_assoc; reflexivity|
  repeat (apply Forall_cons_2; [split; [cbn; auto; fail|by intros _]|]); apply Forall_nil_2].

Lemma voice_steady v s s' : steady s s' -> let s1 := on_ext (set_voice_calling v) s' in
  steady s (if is_authed_view_camera_conn s1 then sub AUDIO_NAME (audio_enabled s1 && v) s1 else s1).
Proof. intros H s1. etrans; [exact H|]. destruct (is_authed_view_camera_conn s1); [etrans; [|by apply steady_sub]|]; by apply steady_same. Qed.

Lemma handle_voice_mine a s : by_user = true -> mine s (handle_voice_call a s).
Proof.
  intros Hu. unfold handle_voice_call. destruct (voice_call_request_timestamp (ext s)) as [ts|].
  2: { split; try done; [by apply log_same|]. intros Hok. by apply steady_began. }
  cbv zeta. set (s1 := on_ext (set_voice_call_request_timestamp None) s). set (s2 := if a then _ else act (ToCm CmCloseVoiceCall) s1).
  set (s3 := tell (OVoiceCallResponse ts a) s2). set (s4 := on_ext (set_voice_calling a) s3).
  assert (H3 : steady s s3) by (destruct a; by apply steady_same).
  assert (Hr : receives s -> receives s3) by (intros H; destruct a; by apply (receives_ext _ _ s)).
  split.
  - destruct (is_authed_view_camera_conn s4); by destruct a.
  - destruct (is_authed_view_camera_conn s4); by destruct a.
  - destruct (is_authed_view_camera_conn s4); by destruct a.
  - destruct (is_authed_view_camera_conn s4); (destruct a; [logged [VoiceInputDevice true; ToCm CmStartVoiceCall; Send (OVoiceCallResponse ts true)]|
      logged [ToCm CmCloseVoiceCall; Send (OVoiceCallResponse ts false)]]).
  - intros Ht H. apply voice_receives; [|by apply Hr]. apply typed_camera. by destruct a.
  - intros Hok. apply steady_began; [done|]. by apply voice_steady.
Qed.

Lemma close_voice_mine s : by_user = true \/ watching s -> mine s (close_voice_call s).
Proof.
  intros Hu. unfold close_voice_call. cbv zeta. set (s1 := act _ (act _ s)). set (s2 := on_ext _ s1). split.
  - by destruct (is_authed_view_camera_conn s2).
  - by destruct (is_authed_view_camera_conn s2).
  - by destruct (is_authed_view_camera_conn s2).
  - assert (Hw : watching s -> watching (if is_authed_view_camera_conn s2 then sub AUDIO_NAME false s2 else s2)) by (by destruct (is_authed_view_camera_conn s2)).
    revert Hw. destruct (is_authed_view_camera_conn s2); intros Hw; destruct Hu as [Hu|Hu]; try apply Hw in Hu;
      logged [VoiceInputDevice false; ToCm CmCloseVoiceCall].
  - intros Ht H. assert (H1 : receives s1) by (by apply (receives_ext _ _ s)).
    pose proof (voice_receives false s1 (typed_camera s Ht) H1) as Hx. cbv zeta in Hx. by rewrite andb_false_r in Hx.
  - intros Hok. apply steady_began; [done|]. assert (H1 : steady s s1) by by apply steady_same.
    pose proof (voice_steady false s s1 H1) as Hx. cbv zeta in Hx. by rewrite andb_false_r in Hx.
Qed.

Lemma switch_audio_receives b s : typed (core (cn s)) -> receives s ->
  let s' := send_permission "Audio" b (set_perms_of (set_audio b) s) in
  receives (if (cn s').(authorized) then
      if is_authed_view_camera_conn s' then
        if s'.(ext).(voice_calling) || negb (audio_enabled s') then sub_audio s' else s'
      else sub_audio s'
    else s').
Proof.
  intros Ht H s'. change (authorized (cn s')) with (authorized (cn s)). change (is_authed_view_camera_conn s') with (is_authed ViewCamera s).
  change (voice_calling (ext s')) with (voice_calling (ext s)).
  destruct (authorized (cn s)) eqn:Ea; [destruct (is_authed ViewCamera s) eqn:Ev; [destruct (voice_calling (ext s) || negb (audio_enabled s')) eqn:Eb|]|].
  - apply sub_audio_receives; [done| |unfold s'; changed s]. intros _ Hx. change (voice_calling (ext s')) with (voice_calling (ext s)).
    rewrite Hx in Eb. by rewrite orb_false_r in Eb.
  - apply (receives_ext _ _ s); [assumption|reflexivity..|]. apply orb_false_iff in Eb as [Eb _].
    intros [] _; try reflexivity. cbn [may]. change (is_authed ViewCamera s') with (is_authed ViewCamera s).
    change (voice_calling (ext s')) with (voice_calling (ext s)). by rewrite Ev, Eb, !andb_false_r.
  - apply sub_audio_receives; [done| |unfold s'; changed s]. change (is_authed ViewCamera s') with (is_authed ViewCamera s). by rewrite Ev.
  - apply (receives_ext _ _ s); [assumption|reflexivity..|]. intros [] _; try reflexivity. cbn [may].
    change (authorized (cn s')) with (authorized (cn s)). by rewrite Ea.
Qed.

(** The audio permission. *)
Lemma switch_audio_mine b s : by_user = true -> let s' := send_permission "Audio" b (set_perms_of (set_audio b) s) in
  mine s (if (cn s').(authorized) then
      if is_authed_view_camera_conn s' then
        if s'.(ext).(voice_calling) || negb (audio_enabled s') then sub_audio s' else s'
      else sub_audio s'
    else s').
Proof.
  intros Hu s'. match goal with |- mine s ?x => set (r := x) end. assert (Hr : r = s' \/ r = sub_audio s').
  { unfold r. repeat case_match; auto. }
  assert (Hl : exists es, log s' = log s ++ es /\ Forall (ok s') es) by logged [Send (OPermission "Audio" b)].
  assert (Hrec : typed (core (cn s)) -> receives s -> receives r) by (intros Ht H; exact (switch_audio_receives b s Ht H)).
  clearbody r. split; try (by destruct Hr as [-> | ->]).
  intros Hok. apply steady_began; [done|]. destruct Hr as [-> | ->]; [|etrans; [|by apply steady_sub]]; by apply steady_same.
Qed.

Lemma switch_permission_mine h name b s : host_ok builtin h -> by_user = true -> mine s (switch_permission h name b s).
Proof.
  intros Hh Hu. unfold switch_permission. cbv zeta.
  destruct (bool_decide (name = "keyboard")).
  { split; try done; [logged [Send (OPermission "Keyboard" b)]| |].
    - intros _ H. apply sub_cursor_receives.
      + unfold sub_file_clipboard, sub_clipboard, sub. intros Hx. exact Hx.
      + apply sub_files_receives; [done|]. apply sub_clipboard_receives; [done|]. changed s.
    - intros Hok. apply steady_began; [done|]. etrans; [|by apply steady_sub]. etrans; [|apply steady_files].
      etrans; [|by apply steady_sub]. by apply steady_same. }
  destruct (bool_decide (name = "clipboard")).
  { split; try done; [logged [Send (OPermission "Clipboard" b)]| |].
    - intros _ H. apply sub_clipboard_receives; [done|]. changed s.
    - intros Hok Hg. left. unfold sub_clipboard in Hg. by rewrite got_files_sub in Hg. }
  destruct (bool_decide (name = "audio")); [by apply switch_audio_mine|].
  destruct (bool_decide (name = "file")).
  { assert (H : forall s1, steady s s1 -> server_ok (server s) -> began s (sub_file_clipboard h s1)).
    { intros s1 H1 Hok. apply steady_began; [done|]. etrans; [exact H1|apply steady_files]. }
    destruct b; (split; try done; [|intros _ Hx; apply sub_files_receives; [done|]; changed s|apply H; by apply steady_same]).
    - logged [Send (OPermission "File" true)].
    - logged [Send (OPermission "File" false); EmptyFileClipboard]. }
  repeat match goal with |- context [bool_decide (name = ?x)] => destruct (bool_decide (name = x)) end;
    (split; try done; try (by apply log_same); try (intros _ H; by apply (receives_ext _ _ s));
     try (intros Hok; apply steady_began; [done|by apply steady_same])).
  - logged [Send (OPermission "Restart" b)].
  - logged [Send (OPermission "Recording" b)].
  - logged [Send (OPermission "BlockInput" b)].
  - logged [Send (OPermission "PrivacyMode" b)].
Qed.

(** ** The start of a session *)

(** Authorization itself subscribes to nothing. *)
Lemma authorize_receives s s' : receives s -> (cn s).(authed_conn_type) = None -> (cn s).(authorized) = false ->
  s'.(server) = s.(server) -> s'.(ext) = s.(ext) -> cid s' = cid s -> receives s'.
Proof.
  intros [H1 H2 H3 H4] Ht Ha Hs Hx Hc. assert (Hss : services_subed (ext s) = false).
  { destruct (services_subed (ext s)); [|done]. specialize (H3 eq_refl). unfold is_authed in H3. by rewrite Ht in H3. }
  assert (Hauth : forall t, is_authed t s = false) by (intros t; unfold is_authed; by rewrite Ht).
  split; rewrite ?Hs, ?Hx, ?Hss; try done. intros n Hn Hg. unfold got in *. rewrite Hs, Hc in Hg. specialize (H2 n Hn Hg).
  unfold may, keyless in *. unfold pm, op, clipboard_enabled, peer_keyboard_enabled, file_transfer_enabled, audio_enabled, pm, op in *.
  rewrite Hx. rewrite !Hauth, Ha in H2. cbn [orb andb] in H2. rewrite !orb_false_r in H2.
  destruct (class n); try done.
  - apply andb_true_iff in H2 as [Hx1 Hx2]. by rewrite Hx1, Hx2.
  - by rewrite H2.
Qed.

Lemma class_monitor d : class (get_service_name Monitor d) = KMonitor.
Proof. unfold class. pose proof (video_name Monitor d) as H. unfold of_source in H. by rewrite H. Qed.

(** What a remote-control session is not subscribed to when it starts. *)
Lemma noperms_spec h s n : host_ok builtin h -> typ s Remote -> (cn s).(authorized) = true -> is_Some (named (class n)) ->
  n ∈ noperms h s <-> (match class n with
    | KFiles => can_sub_file_clipboard_service h s
    | KCursor => peer_keyboard_enabled s || (op s).(show_remote_cursor)
    | c => may builtin s c
    end) = false.
Proof.
  intros Hh Ht Ha [name Hn]. destruct (named_class _ _ Hn) as (Hc & _ & Hu). rewrite (Hu n eq_refl), Hc. clear Hu Hc.
  assert (Hr : is_authed Remote s = true) by (by apply authed_typ). destruct (remote_keyless s Hr) as [Hk Hv].
  unfold noperms. rewrite !elem_of_app.
  assert (Hi : forall (b : bool) (x y : string), (x ∈ if b then [y] else []) <-> b = true /\ x = y).
  { intros [] x y; [rewrite list_elem_of_singleton; naive_solver|]. split; [by intros ?%not_elem_of_nil|naive_solver]. }
  rewrite !Hi, andb_true_iff, !negb_true_iff. unfold can_sub_clipboard_service. rewrite (is_on_spec builtin h ONE_WAY_CLIPBOARD) by done. cbn [may]. rewrite Hk, Hv, Ha.
  assert (Hcomm : clipboard_enabled s && negb (on builtin ONE_WAY_CLIPBOARD) && peer_keyboard_enabled s =
    clipboard_enabled s && peer_keyboard_enabled s && negb (on builtin ONE_WAY_CLIPBOARD)) by (rewrite <- !andb_assoc; f_equal; apply andb_comm).
  destruct (class n); cbn [named] in Hn; try discriminate Hn; injection Hn as <-; cbn [may]; rewrite ?orb_false_r, ?Hcomm, ?andb_true_r, ?orb_false_iff, ?andb_true_l.
  all: split; [intros Hx; repeat (destruct Hx as [Hx|Hx]; [destruct Hx as [Hx1 Hx2]; try discriminate Hx2; exact Hx1 || (destruct Hx1; congruence)|])|].
  all: try (destruct Hx as [Hx1 Hx2]; try discriminate Hx2; exact Hx1).
  all: try (intros Hx; tauto).
Qed.

(** [add_monitor_connection] subscribes to everything but the displays of others and [noperms]. *)
Lemma add_monitor_spec id nop d v : server_ok v ->
  server_ok (add_monitor_connection id nop d v) /\
  forall n, contains n (add_monitor_connection id nop d v) = contains n v /\
    subed n id (add_monitor_connection id nop d v) =
      if (is_video_service_name n && negb (bool_decide (n = get_service_name Monitor d))) || bool_decide (n ∈ nop)
      then subed n id v else contains n v.
Proof.
  intros Hok. unfold add_monitor_connection. cbv zeta.
  set (f := fun n svc => if is_video_service_name n && negb (bool_decide (n = get_service_name Monitor d)) then svc
    else if bool_decide (n ∈ nop) then svc else on_subscribe id svc).
  set (v' := set_connections _ _). assert (Hl : forall n, v'.(services) !! n = f n <$> v.(services) !! n).
  { intros n. cbn. rewrite map_lookup_imap. by destruct (services v !! n). }
  split.
  - intros n x Hx. rewrite Hl in Hx. apply fmap_Some in Hx as (y & Hy & ->). specialize (Hok n y Hy). unfold f.
    destruct (_ && _); [done|]. destruct (bool_decide _); [done|]. by apply on_subscribe_spec.
  - intros n. split; [apply contains_iff; rewrite Hl; by rewrite fmap_is_Some|]. unfold subed, contains. rewrite Hl.
    destruct (services v !! n) as [svc|] eqn:E; cbn [fmap option_fmap option_map].
    + rewrite (bool_decide_eq_true_2 (is_Some (Some svc))) by done. unfold f. destruct (_ && _); [done|]. cbn [orb].
      destruct (bool_decide (n ∈ nop)); [done|]. destruct (on_subscribe_spec id svc (Hok n svc E)) as [_ ->].
      by rewrite bool_decide_eq_true_2.
    + rewrite (bool_decide_eq_false_2 (is_Some None)) by (by intros [? ?]). by destruct (_ || _).
Qed.

Lemma monitor_receives h s : host_ok builtin h -> typ s Remote -> (cn s).(authorized) = true ->
  receives s -> receives (try_sub_monitor_services h s).
Proof.
  intros Hh Ht Ha H. unfold try_sub_monitor_services. destruct (_ || services_subed (ext s)); [done|]. cbv zeta.
  set (s' := on_server _ _). set (d := display_idx (ext s)). destruct H as [H1 H2 _ _].
  set (v1 := try_add_monitor_service d (server s)).
  assert (Hs' : s'.(server) = add_monitor_connection (cid s) (noperms h s) d v1) by reflexivity.
  assert (Hgot : forall n, got n s' = subed n (cid s) (add_monitor_connection (cid s) (noperms h s) d v1)) by reflexivity.
  assert (Hmay : forall c, c <> KOther -> may builtin s' c = may builtin s c) by (intros [] Hc; try reflexivity; done).
  assert (Hss : may builtin s' KOther = true) by reflexivity.
  assert (Hty : is_authed Remote s' = is_authed Remote s) by reflexivity.
  pose proof (add_video_step (fun _ => False) (cid s) Monitor d s.(server) H1) as [V1 V2 V3].
  change (try_add_video Monitor d (server s)) with v1 in V1, V2, V3.
  assert (Hv3 : forall n, subed n (cid s) v1 = true -> got n s = true) by (intros n Hn; destruct (V3 n Hn) as [?|(? & _ & [])]; done).
  clearbody v1 s'. destruct (add_monitor_spec (cid s) (noperms h s) d v1 V1) as [W1 W2].
  assert (Hr : is_authed Remote s = true) by (by apply authed_typ).
  assert (Hold : forall n, got n s = true -> may builtin s' (class n) = true).
  { intros n Hg. destruct (decide (class n = KOther)) as [->|Hc]; [done|]. rewrite Hmay by done. apply H2; [apply not_elem_of_nil|done]. }
  assert (Hnew : forall n, is_video_service_name n = false -> n ∉ noperms h s -> may builtin s' (class n) = true).
  { intros n Hn Hp. destruct (decide (class n = KOther)) as [->|Hc]; [done|]. rewrite Hmay by done.
    assert (Hnm : is_Some (named (class n))) by (rewrite class_video in Hn; destruct (class n); try done; by eexists).
    apply not_false_iff_true. intros Hx. apply Hp, noperms_spec; [done..|]. destruct (class n); try exact Hx; cbn [may] in Hx.
    - unfold can_sub_file_clipboard_service. rewrite (is_on_spec builtin) by done. by rewrite <- andb_assoc, Hx, andb_false_r.
    - apply orb_false_iff in Hx as [[Hx1 Hx2]%orb_false_iff _]. unfold peer_keyboard_enabled. by rewrite Hx1, Hx2. }
  split.
  - by rewrite Hs'.
  - intros n _. rewrite Hgot. destruct (W2 n) as [_ ->]. destruct ((_ && _) || _) eqn:E; [intros Hg; by apply Hold, Hv3|]. intros _.
    apply orb_false_iff in E as [E1 E2]. destruct (is_video_service_name n) eqn:Ev.
    + cbn in E1. apply negb_false_iff, bool_decide_eq_true in E1 as ->. rewrite class_monitor, Hmay by done. exact Hr.
    + apply Hnew; [done|]. by bool_to_prop.
  - intros _. by rewrite Hty.
  - intros n Ht' _ _. rewrite Hgot, Hs'. assert (Ev : is_video_service_name n = false) by (rewrite class_video; by destruct (class n)).
    destruct (W2 n) as [-> ->]. rewrite Ev. cbn [andb orb]. case_bool_decide as Hp.
    + assert (Hf : may builtin s' (class n) = false).
      { rewrite Hmay by (intros Hx; by rewrite Hx in Ht'). apply noperms_spec in Hp; [|done..|]; destruct (class n); try done; by eexists. }
      rewrite Hf, andb_false_r. apply not_true_iff_false. intros Hg. apply Hv3, Hold in Hg. congruence.
    + by rewrite (Hnew n Ev Hp), andb_true_r.
Qed.

Lemma monitor_steady h s : typ s Remote -> steady s (try_sub_monitor_services h s).
Proof.
  intros Ht. unfold try_sub_monitor_services. destruct (_ || services_subed (ext s)); [done|]. cbv zeta. set (d := display_idx (ext s)).
  split; [|done|].
  - intros H1. pose proof (vs_ok _ _ _ _ (add_video_step (fun _ => False) (cid s) Monitor d s.(server) H1)) as V1. by apply (add_monitor_spec (cid s) (noperms h s) d _ V1).
  - intros H1. pose proof (add_video_step (fun _ => False) (cid s) Monitor d s.(server) H1) as [V1 V2 V3].
    destruct (add_monitor_spec (cid s) (noperms h s) d _ V1) as [_ W2]. destruct (W2 FILE_CLIPBOARD_NAME) as [_ Hg].
    change (got FILE_CLIPBOARD_NAME ?x) with (subed FILE_CLIPBOARD_NAME (cid s) (add_monitor_connection (cid s) (noperms h s) d (try_add_video Monitor d (server s)))) at 1.
    rewrite Hg. destruct (V2 FILE_CLIPBOARD_NAME eq_refl) as [-> _]. change (is_video_service_name FILE_CLIPBOARD_NAME) with false. cbn [andb orb].
    destruct (bool_decide (FILE_CLIPBOARD_NAME ∈ noperms h s)) eqn:Hn; [by left|]. apply bool_decide_eq_false in Hn. intros _. right.
    destruct (clipboard_enabled s) eqn:Ec; [done|]. exfalso. apply Hn. unfold noperms. rewrite !elem_of_app. do 4 right. left.
    unfold can_sub_file_clipboard_service. rewrite Ec. by left.
Qed.

Lemma camera_connection_step (V : VideoSource -> Prop) b id v : V Camera -> server_ok v -> video_step V id v (add_camera_connection b id v).
Proof.
  intros HV Hok. unfold add_camera_connection. cbv zeta. destruct b; [|by split; auto]. set (name := get_service_name _ _).
  assert (Hname : forall n, n <> name -> services (on_service name (on_subscribe id) v) !! n = services v !! n).
  { intros n Hn. rewrite on_service_lookup. by rewrite bool_decide_eq_false_2. }
  split.
  - apply (on_service_ok name (on_subscribe id) v Hok). intros x Hx. by apply on_subscribe_spec.
  - intros n Hn. assert (n <> name) by (intros ->; by rewrite (of_source_video Camera) in Hn by apply video_name).
    unfold subed, contains; cbn [services set_connections]; by rewrite Hname.
  - intros n. destruct (decide (n = name)) as [->|Hn]; [right; exists Camera; split; [apply video_name|exact HV]|].
    left. revert H. unfold subed. cbn [services set_connections]. by rewrite Hname.
Qed.

Lemma camera_quiet P J h s : typ s ViewCamera -> quiet P J s (try_sub_camera_displays h s).
Proof.
  intros Ht. unfold try_sub_camera_displays. apply quiet_server. intros Hok.
  assert (H1 : video_step (streams s) (cid s) (server s) (try_add_primary_camera_service (camera_exists h) (server s))).
  { unfold try_add_primary_camera_service. destruct (camera_exists h); cbn [negb]; [by apply add_video_step|by apply video_step_refl]. }
  eapply video_step_trans; [exact H1|]. apply camera_connection_step; [exact Ht|apply H1].
Qed.

Lemma keyboard_receives s : keyless s = true -> receives s -> receives (set_perms_of (set_keyboard false) s).
Proof.
  intros Hk H. set (s' := set_perms_of _ s). apply (receives_ext _ _ s); [done|reflexivity..|]. intros [] _; try reflexivity; cbn [may];
    change (keyless s') with (keyless s); by rewrite Hk, !orb_true_r, ?andb_true_r.
Qed.

(** Locking the screen and following the cursor are options of remote-control sessions. *)
Definition opts_ok (s : Sess) : Prop := (op s).(lock_after_session_end) || (op s).(follow_remote_cursor) = true -> typ s Remote.

(** Permitted when the session has started: only remote-control sessions keep their permissions. *)
Definition later (s : Sess) (e : Effect) : Prop :=
  forall s', core (cn s') = core (cn s) -> (typ s Remote -> pm s' = pm s) -> ok s' e.

Lemma camera_options_opts h o o' s : (scoped_view_camera_option o).1 = Some o' -> let s' := update_options h o' s in
  (op s').(lock_after_session_end) = (op s).(lock_after_session_end) /\ (op s').(follow_remote_cursor) = (op s).(follow_remote_cursor).
Proof.
  intros H. cbv zeta. rewrite (camera_options h o o') by done. pose proof (q_opts _ _ _ _ (quality_camera h o' s)) as Hq.
  unfold when_set. destruct (opt_set _) as [b|]; [|by rewrite Hq]. rewrite <- Hq. unfold update_audio. cbv zeta.
  destruct (is_authed_view_camera_conn _); [|done]. by destruct (_ || _).
Qed.

Lemma terminal_options_opts h o o' s : (scoped_terminal_login_option o).1 = Some o' -> op (update_options h o' s) = op s.
Proof. intros H. rewrite (terminal_options h o o') by done. unfold when_set. by destruct (opt_set _). Qed.

Lemma scoped_options_spec h s : host_ok builtin h -> opts_ok s ->
  noisy (later s) s (update_scoped_login_options h s) /\ opts_ok (update_scoped_login_options h s).
Proof.
  intros Hh Ho. unfold update_scoped_login_options. destruct (options_in_login (cn s)) as [o|]; [|done]. cbv zeta.
  set (s1 := on_login _ s). change (authed_conn_type (cn s1)) with (authed_conn_type (cn s)).
  assert (H1 : forall P, noisy P s s1) by (intros P; apply noisy_quiet, quiet_login; reflexivity).
  destruct (authed_conn_type (cn s)) as [t|] eqn:Et; [|done]. unfold scoped_login_option. destruct t; cbn [fst]; try done.
  - pose proof (options_step h Hh o s1 Et) as H2. split.
    + etrans; [apply H1|]. eapply noisy_mono; [|exact H2]. intros e He s' Hk Hp. apply He; [exact Hk|]. by apply Hp.
    + intros _. by eapply frame_typ; [exact (n_frame _ _ _ _ H2)|].
  - destruct (scoped_view_camera_option o).1 as [o'|] eqn:E; [|done]. split.
    + etrans; [apply H1|]. eapply noisy_mono; [|by eapply camera_options_noisy]. intros e He s' Hk _.
      apply camera_effect_ok; [|done]. by eapply typ_core.
    + destruct (camera_options_opts h o o' s1 E) as [Hx Hy]. unfold opts_ok. rewrite Hx, Hy. intros Hz. apply Ho in Hz. unfold typ in Hz. congruence.
  - destruct (scoped_terminal_login_option o).1 as [o'|] eqn:E; [|done]. split.
    + etrans; [apply H1|]. eapply noisy_mono; [|by eapply terminal_options_noisy]. intros e He s' Hk _.
      apply terminal_effect_ok; [|done]. left. by eapply typ_core.
    + unfold opts_ok. rewrite (terminal_options_opts h o o') by done. intros Hz. apply Ho in Hz. unfold typ in Hz. congruence.
Qed.

Lemma scoped_began h s : server_ok s.(server) -> began s (update_scoped_login_options h s).
Proof.
  intros Hok. assert (Hs : began s s) by (by left). unfold update_scoped_login_options. destruct (options_in_login (cn s)) as [o|]; [|done]. cbv zeta.
  set (s1 := on_login _ s). destruct (authed_conn_type (cn s1)); [|exact Hs]. destruct (scoped_login_option _ _).1 as [o'|]; [|exact Hs].
  apply (options_began h o' s1). exact Hok.
Qed.

(** What the start of a session leaves. *)
Record begun (s s' : Sess) : Prop := mkBegun {
  b_core : core (cn s') = core (cn s);
  b_jobs : idle s'.(ext).(files);
  b_printer : s'.(ext).(files).(printer_data) = [];
  b_opts : opts_ok s';
  b_receives : receives s';
  b_log : exists es, s'.(log) = s.(log) ++ es /\ Forall (ok s') es;
  b_began : began s s'
}.

Lemma terminal_service_quiet h s : typ s Terminal -> quiet (ok s) False s (init_terminal_service h s).
Proof.
  intros Ht. unfold init_terminal_service. destruct (terminal_user_token (cn s)); [|done]. cbv zeta.
  set (s1 := if bool_decide _ then _ else s). assert (H1 : quiet (ok s) False s s1).
  { unfold s1. destruct (bool_decide _); [|done]. by apply quiet_login. }
  clearbody s1. etrans; [exact H1|]. apply quiet_act. by split.
Qed.

(** After the options: the part that depends on the kind of session. *)
Lemma kind_begun h s0 s (sub_service : bool) : host_ok builtin h -> running s -> core (cn s) = core (cn s0) -> opts_ok s -> receives s ->
  idle s.(ext).(files) -> s.(ext).(files).(printer_data) = [] ->
  (exists es, s.(log) = s0.(log) ++ es /\ forall s', core (cn s') = core (cn s) -> (typ s Remote -> pm s' = pm s) -> Forall (ok s') es) ->
  server_ok s.(server) -> began s0 s ->
  (sub_service = true -> is_remote (cn s) = true) -> is_port_forward (cn s) = false ->
  begun s0 (let no_keyboard := set_perms_of (set_keyboard false) in
    match (cn s).(file_transfer) with
    | Some (dir, show_hidden) =>
        let dir := if negb (bool_decide (dir = "")) && PathFs.Fs.is_dir h.(fs) dir then dir else "" in
        act (ToFs (FsReadDir dir show_hidden)) (no_keyboard s)
    | None =>
        if (cn s).(terminal) then init_terminal_service h (no_keyboard s)
        else if (cn s).(view_camera) then send_permission "Keyboard" false (no_keyboard (try_sub_camera_displays h s))
        else if sub_service then try_sub_monitor_services h s else s
    end).
Proof.
  intros Hh Hr Hk Ho H Hj Hp (es & Hes & Hok) Hsrv Hb Hs Hpf. cbv zeta. pose proof (running_type s Hr) as Ht. unfold type_of_fields in Ht. cbn [fst snd] in Ht.
  assert (Hquiet : forall s1 s2, (typ s Remote -> False) -> core (cn s1) = core (cn s) -> opts_ok s1 -> receives s1 ->
    idle s1.(ext).(files) -> s1.(ext).(files).(printer_data) = [] -> s1.(log) = s.(log) -> steady s s1 ->
    quiet (ok s1) False s1 s2 -> begun s0 s2).
  { intros s1 s2 Hnr Hk1 Ho1 Hr1 Hj1 Hp1 Hl1 Hst Hq. assert (Hbegan : began s0 s2).
    { apply (began_steady s0 s); [done..|]. etrans; [exact Hst|by eapply steady_quiet]. } pose proof (quiet_alike _ _ _ _ Hq) as Ha. pose proof (quiet_receives _ _ _ _ _ Hq Hr1) as Hr2.
    destruct Hq as [[A1 A2 A3 A4 (l & A5 & A6)] A7 _ _ _]. split.
    - congruence.
    - destruct (A3 Hj1) as [[]|?]; done.
    - by apply A4.
    - unfold opts_ok. rewrite A7. intros Hx. eapply typ_core; [exact A1|]. by apply Ho1.
    - done.
    - exists (es ++ l). split; [by rewrite A5, Hl1, Hes, <- app_assoc|]. apply Forall_app. split.
      + apply Hok; [congruence|]. intros Hx. by destruct (Hnr Hx).
      + eapply Forall_impl; [exact A6|]. intros e. by apply alike_ok.
    - exact Hbegan. }
  assert (Hkeep : begun s0 s).
  { split; try done. exists es. split; [done|]. by apply Hok. }
  destruct (file_transfer (cn s)) as [[dir hidden]|] eqn:Ef.
  { set (s1 := set_perms_of _ s). assert (Hx : typ s FileTransfer) by exact Ht.
    assert (Hl : keyless s = true) by (unfold keyless; by rewrite (proj2 (authed_typ FileTransfer s) Hx)).
    apply (Hquiet s1); try done; [intros Hy; unfold typ in Hy; congruence|by apply keyboard_receives|by apply steady_same|]. by apply quiet_act. }
  rewrite Hpf in Ht. pose proof (proj1 (proj2 Hr)) as Hex. cbn in Hex. destruct (terminal (cn s)) eqn:Ete.
  { rewrite andb_true_r in Hex. rewrite Hex in Ht. assert (Hx : typ s Terminal) by exact Ht.
    assert (Hl : keyless s = true) by (unfold keyless; rewrite (proj2 (authed_typ Terminal s) Hx); by rewrite orb_true_r).
    set (s1 := set_perms_of _ s). apply (Hquiet s1); try done; [intros Hy; unfold typ in Hy; congruence|by apply keyboard_receives|by apply steady_same|].
    by apply terminal_service_quiet. }
  destruct (view_camera (cn s)) eqn:Evc.
  { assert (Hx : typ s ViewCamera) by exact Ht. pose proof (camera_quiet (ok s) False h s Hx) as Hq.
    assert (Hl : keyless (try_sub_camera_displays h s) = true).
    { change (keyless s = true). unfold keyless. rewrite (proj2 (authed_typ ViewCamera s) Hx). by rewrite orb_true_r. }
    apply (Hquiet (set_perms_of (set_keyboard false) (try_sub_camera_displays h s))); try done; [intros Hy; unfold typ in Hy; congruence| | |].
    - apply keyboard_receives; [done|]. by eapply quiet_receives.
    - etrans; [by eapply steady_quiet|by apply steady_same].
    - apply quiet_act. split; [split; [done|by right]|by intros _]. }
  destruct sub_service; [|exact Hkeep]. assert (Hx : typ s Remote) by (apply running_remote; auto).
  destruct Hkeep as [K1 K2 K3 K4 K5 K6 K7]. pose proof (monitor_receives h s Hh Hx (proj1 Hr) H) as Hm.
  pose proof (began_steady s0 s _ Hsrv Hb (monitor_steady h s Hx)) as Hb'.
  unfold try_sub_monitor_services in *. destruct (_ || services_subed (ext s)); [by split|]. cbv zeta in *. split; try assumption.
  exists es. split; [exact Hes|]. by apply Hok.
Qed.

Lemma logged_on_begun h s : host_ok builtin h -> running s -> opts_ok s -> receives s ->
  idle s.(ext).(files) -> s.(ext).(files).(printer_data) = [] -> begun s (logged_on h s).
Proof.
  intros Hh Hr Ho H Hj Hp.
  assert (Hsame : begun s s) by (split; try done; [exists []; by rewrite app_nil_r|by left]).
  unfold logged_on. destruct (is_port_forward (cn s)) eqn:Epf; [exact Hsame|]. destruct (_ && _); [exact Hsame|].
  set (p := if is_remote (cn s) then _ else _).
  assert (Hq : quiet (ok s) False s p.1 /\ (p.2 = true -> is_remote (cn s) = true) /\ cn p.1 = cn s /\ log p.1 = log s).
  { unfold p. destruct (is_remote (cn s)); [|done]. destruct (login_displays h); [|done]. cbn [fst snd]. split; [quiet1|done]. }
  destruct p as [s1 sub_service]. cbn [fst snd] in Hq. destruct Hq as (Hq & Hsub & Hc & Hl).
  assert (Ho1 : opts_ok s1) by (unfold opts_ok; rewrite (q_opts _ _ _ _ Hq); unfold typ; by rewrite Hc).
  assert (H1 : receives s1) by (by eapply quiet_receives).
  assert (Hr1 : running s1) by (unfold running; by rewrite Hc).
  destruct (scoped_options_spec h s1 Hh Ho1) as [Hn Ho2]. set (s2 := update_scoped_login_options h s1) in *.
  pose proof (n_receives _ _ _ _ Hn (proj1 Hr1) H1) as H2.
  pose proof (steady_quiet _ _ _ _ Hq) as Hst. pose proof (r_ok _ _ _ H) as Hsrv. pose proof (scoped_began h s1 (st_ok _ _ Hst Hsrv)) as Hb. fold s2 in Hb. destruct Hn as [[N1 N2 N3 N4 (es & N5 & N6)] _].
  pose proof (q_frame _ _ _ _ Hq) as [_ _ Q3 Q4 _]. clearbody s2.
  apply kind_begun; try done.
  - by eapply running_core.
  - by rewrite N1, Hc.
  - destruct (Q3 Hj) as [[]|Hx]. by destruct (N3 Hx).
  - by apply N4, Q4.
  - exists es. split; [by rewrite N5, Hl|]. intros s' Hk Hpm. eapply Forall_impl; [exact N6|]. intros e He. apply He; [by rewrite Hk|].
    intros Hx. rewrite Hpm; [exact N2|]. by eapply typ_core.
  - apply (r_ok _ _ _ H2).
  - by apply (steady_then s s1).
  - intros Hx. apply Hsub in Hx. rewrite <- Hc in Hx. unfold is_remote in *.
    assert (E : core (cn s2) = core (cn s1)) by done. injection E as _ _ _ _ _ _ _ _ _ _ E1 E2 E3 E4 _. by rewrite E1, E2, E3, E4.
  - assert (E : k_tunnel (core (cn s2)) = k_tunnel (core (cn s1))) by (by rewrite N1). cbn in E. by rewrite E, Hc.
Qed.

End Options.
End SessOptions.
