(* ===== verification/SessRun.v ===== *)
(** Sessions from the acceptance of the connection to its end: every order of messages, requests
    of the local user, timers, published data and activity of other connections. *)

From S2P Require Import Prelude PathFs FsJob FsSend FsWalk MuxWindow TermService VideoQos SessMsg LoginLockout.
From S2P Require Import LoginThrottle LoginId LoginAdmit LoginPassword LoginState LoginFlow LoginSafety.
From S2P Require Import LoginRun SessServer SessState SessFlow SessDispatch SessMessage SessFrame SessReceive.
From S2P Require Import SessPermit SessOptions.

Module SessRun.
Import Msgs Scope Services ServicesFacts LoginState LoginSafety SessState SessFlow SessDispatch SessMessage SessFrame SessReceive SessPermit SessOptions.

Section Run.
Context {L : Libraries}.
Context (zstd_compress : list Z -> option (list Z)).
(** The built-in options of the deployment: they do not change while the program runs. *)
Variable builtin : string -> string.
(** Whether a step is at the request of the local user. *)
Variable by_user : bool.
Abbreviation ok := (ok builtin by_user).
Abbreviation receives := (receives builtin).

(** ** Logins keep the kind of session and its fields together *)

(** The connection goes on, or this step authorized it. *)
Definition goes_on (s s' : Sys) (b : bool) : Prop := b = true \/ (s.(conn).(authorized) = false /\ s'.(conn).(authorized) = true).

Record login_keeps (s s' : Sys) : Prop := mkLoginKeeps {
  l_typed : typed (core s'.(conn));
  l_fixed : (core s'.(conn)).(k_fixed) = (core s.(conn)).(k_fixed);
  l_auth : s.(conn).(authorized) = true -> s'.(conn).(authorized) = true /\ s'.(conn).(authed_conn_type) = s.(conn).(authed_conn_type)
}.

Lemma keeps_same s s' : core s'.(conn) = core s.(conn) -> typed (core s.(conn)) -> login_keeps s s'.
Proof.
  intros Hk Ht. split; [by rewrite Hk|by rewrite Hk|]. intros Ha. split; [etrans; [exact (f_equal k_authorized Hk)|done]|exact (f_equal k_type Hk)].
Qed.

Lemma authorize_typed k : k.(k_fields).1.2 && k.(k_fields).2 = false -> typed (k_authorize k).
Proof. intros H. by split. Qed.

Lemma await_typed b k : typed k -> k.(k_authorized) = false -> typed (k_await b k).
Proof. intros [H1 H2] Ha. split; [done|]. cbn. rewrite Ha in *. exact H2. Qed.

Lemma fields_exclusive lr : (fields_of lr).1.2 && (fields_of lr).2 = false.
Proof. unfold fields_of. by destruct (lr_union lr) as [[]|]. Qed.

Lemma login_request_keeps e lr s b s' : LoginFlow.on_login_request e lr s = (b, s') -> s.(conn).(authorized) = false -> typed (core s.(conn)) ->
  goes_on s s' b -> login_keeps s s'.
Proof.
  intros H Ha Ht Hg. pose proof Ht as [_ Hf]. change (k_authorized (core (conn s))) with (authorized (conn s)) in Hf. rewrite Ha in Hf. destruct Hf as [Hty Htu].
  apply login_spec in H; [|done|exact Htu]. destruct b; [|destruct Hg as [?|[_ ?]]; congruence].
  destruct H as (_ & _ & _ & totp & _ & Hout). set (k := login_base lr totp (core (conn s))) in *.
  assert (Hk : typed k) by (split; [apply fields_exclusive|by split]).
  split; [| |intros; congruence]; destruct Hout as [->|[[-> _]|(-> & _)]]; try done.
  apply authorize_typed, fields_exclusive.
Qed.

Lemma auth_2fa_keeps e code hw s b s' : LoginFlow.on_auth_2fa e code hw s = (b, s') -> typed (core s.(conn)) -> goes_on s s' b -> login_keeps s s'.
Proof.
  intros H Ht Hg. pose proof Ht as [Hx Hf]. change (k_authorized (core (conn s))) with (authorized (conn s)) in Hf. destruct (authorized (conn s)) eqn:Ha.
  - destruct Hf as [Hw _]. unfold LoginFlow.on_auth_2fa in H. change (k_awaiting (core (conn s))) with (awaiting_2fa (conn s)) in Hw. rewrite Hw in H.
    injection H as <- <-. by apply keeps_same.
  - destruct Hf as [Hty Htu]. apply auth_2fa_spec in H; [|done|exact Htu]. destruct H as [[Hk _]|(_ & _ & _ & H)]; [by apply keeps_same|].
    destruct b; [|destruct Hg as [?|[_ ?]]; congruence].
    assert (Hk2 : typed (set_k_2fa None (core (conn s)))) by done.
    destruct H as [Hk|Hk]; (split; [rewrite Hk|by rewrite Hk|intros; congruence]).
    + by apply await_typed.
    + by apply authorize_typed.
Qed.

Lemma authorize_keeps e s b s' : LoginFlow.on_authorize e s = (b, s') -> typed (core s.(conn)) -> goes_on s s' b -> login_keeps s s'.
Proof.
  unfold LoginFlow.on_authorize. set (s1 := on_conn _ s). intros H Ht Hg. pose proof Ht as [Hx Hf].
  assert (Hk1 : core s1.(conn) = set_k_2fa None (core s.(conn))) by done.
  destruct (LoginFlow.send_logon_response_and_keep_alive e s1) as [kp s2] eqn:E. injection H as <- <-.
  change (k_authorized (core (conn s))) with (authorized (conn s)) in Hf. destruct (authorized (conn s)) eqn:Ha.
  - unfold LoginFlow.send_logon_response_and_keep_alive in E. change (authorized (conn s1)) with (authorized (conn s)) in E. rewrite Ha in E.
    injection E as <- <-. split; [|done|done]. rewrite Hk1. exact Ht.
  - destruct Hf as [Hty Htu]. apply send_logon_spec in E as [_ E]; [|done|exact Htu]. rewrite Hk1 in E.
    destruct E as [[-> E]|[[-> E]|(-> & E & _)]].
    + destruct Hg as [?|[_ Hg]]; [done|]. exfalso. exact (eq_true_false_abs _ Hg E).
    + split; [rewrite E; by apply await_typed|by rewrite E|intros; congruence].
    + split; [rewrite E; by apply authorize_typed|by rewrite E|intros; congruence].
Qed.

Lemma switch_keeps e uuid rlr s b s' : LoginFlow.on_switch_sides e uuid rlr s = (b, s') -> typed (core s.(conn)) ->
  (s.(conn).(authorized) = true -> s.(conn).(authed_conn_type) = Some Remote) -> goes_on s s' b -> login_keeps s s'.
Proof.
  unfold LoginFlow.on_switch_sides. intros H Ht Hty Hg. destruct rlr as [lr|]; [|injection H as <- <-; by apply keeps_same].
  cbv zeta in H. set (s1 := on_shared _ s) in *. destruct (_ !! my_id lr) as [[t old]|]; [|injection H as <- <-; by apply keeps_same].
  destruct (_ && bool_decide (uuid = old)); [|injection H as <- <-; by apply keeps_same].
  destruct (lr_union lr); [injection H as <- <-; by apply keeps_same|].
  destruct (handle_login_spec e lr (on_conn LoginFlow.reset_session_scope_for_login s1)) as (_ & _ & totp & Hk2 & _).
  set (s2 := LoginFlow.handle_login_request_without_validation e lr _) in *.
  change (conn (on_conn LoginFlow.reset_session_scope_for_login s1)) with (LoginFlow.reset_session_scope_for_login (conn s)) in Hk2.
  rewrite reset_core in Hk2. clearbody s2. destruct (LoginFlow.check_id_whitelist e s2) as [ok3 s3] eqn:E3.
  apply check_id_whitelist_spec in E3 as ([Hk3 _] & _). rewrite Hk2 in Hk3.
  pose proof Ht as [_ Hf]. change (k_authorized (core (conn s))) with (authorized (conn s)) in Hf.
  assert (Hty3 : typed (core (conn s3)) /\ k_fixed (core (conn s3)) = k_fixed (core (conn s)) /\
    authorized (conn s3) = authorized (conn s) /\ authed_conn_type (conn s3) = authed_conn_type (conn s)).
  { split_and!; [|by rewrite Hk3|exact (f_equal k_authorized Hk3)|exact (f_equal k_type Hk3)].
    rewrite Hk3. split; [done|]. cbn. destruct (authorized (conn s)) eqn:Ha; [|done]. destruct Hf as [Hw Hf]. split; [done|].
    cbn in Hf. rewrite (Hty eq_refl) in Hf |- *. f_equal. unfold type_of_fields in *. cbn [fst snd] in *.
    destruct (file_transfer (conn s)); [done|]. by destruct (is_port_forward (conn s)). }
  destruct Hty3 as (Ht3 & Hf3 & Ha3 & Hc3).
  destruct ok3; cbn [negb] in H; [|injection H as <- <-; split; [done|done|]; intros; by rewrite Ha3, Hc3].
  set (s4 := on_conn _ s3) in *. assert (Ht4 : typed (core (conn s4)) /\ k_fixed (core (conn s4)) = k_fixed (core (conn s)) /\
    authorized (conn s4) = authorized (conn s) /\ authed_conn_type (conn s4) = authed_conn_type (conn s)) by done.
  clearbody s4. destruct Ht4 as (Ht4 & Hf4 & Ha4 & Hc4).
  destruct (LoginFlow.send_logon_response_and_keep_alive e s4) as [kp s5] eqn:E5. destruct (authorized (conn s)) eqn:Ha.
  - unfold LoginFlow.send_logon_response_and_keep_alive in E5. rewrite Ha4 in E5. injection E5 as <- <-. injection H as <- <-.
    split; [done|done|]. intros _. exact (conj Ha4 Hc4).
  - pose proof Ht4 as [Hx4 Hf5]. change (k_authorized (core (conn s4))) with (authorized (conn s4)) in Hf5. rewrite Ha4 in Hf5. destruct Hf5 as [_ Htu].
    apply send_logon_spec in E5 as [_ E5]; [|done|exact Htu].
    destruct E5 as [[-> E5]|[[-> E5]|(-> & E5 & _)]]; cbn [negb] in H; injection H as <- <-.
    + destruct Hg as [?|[_ Hg]]; [done|]. exfalso. exact (eq_true_false_abs _ Hg E5).
    + split; [|etrans; [exact (f_equal k_fixed E5)|done]|intros; congruence]. change (typed (core (conn s5))). rewrite E5. by apply await_typed.
    + split; [|etrans; [exact (f_equal k_fixed E5)|done]|intros; congruence]. change (typed (core (conn s5))). rewrite E5. by apply authorize_typed.
Qed.

(** ** The invariant of a session *)

Definition opts_new : Opts := mkOpts false false false false false false false false false.

Record inv (s : Sess) : Prop := mkInv {
  i_typed : typed (core (cn s));
  i_receives : receives s;
  i_opts : opts_ok s;
  i_printer : s.(ext).(files).(printer_data) = [];
  i_jobs : idle s.(ext).(files) \/ may_read builtin s;
  i_fresh : (cn s).(authorized) = false -> op s = opts_new
}.

Lemma typed_kinded s : typed (core (cn s)) -> kinded s.
Proof. intros [_ Ht] Ha. change (k_authorized (core (cn s))) with ((cn s).(authorized)) in Ht. rewrite Ha in Ht. apply Ht. Qed.

Lemma alike_kinded s s' : alike s s' -> kinded s -> kinded s'.
Proof. intros [H1 H2 _ _ _ _]. unfold kinded. by rewrite H1, H2. Qed.

Lemma core_kinded s s' : core (cn s') = core (cn s) -> kinded s -> kinded s'.
Proof.
  intros Hk H Ha. etrans; [by apply core_type|]. apply H. etrans; [symmetry; exact (f_equal k_authorized Hk)|exact Ha].
Qed.

(** What a step logged is permitted. *)
Definition allowed (s s' : Sess) : Prop :=
  exists es, s'.(log) = s.(log) ++ es /\ Forall (fun e => ok s' e /\ ((cn s').(authorized) = true \/ before_login by_user e)) es.

Lemma allowed_ok s s' : kinded s' -> (exists es, s'.(log) = s.(log) ++ es /\ Forall (ok s') es) -> allowed s s'.
Proof.
  intros Hk (es & He & Hok). exists es. split; [done|]. eapply Forall_impl; [exact Hok|]. intros e [H ?]. split; [done|].
  eapply permitted_before; done.
Qed.

Lemma allowed_nothing s s' : s'.(log) = s.(log) -> allowed s s'.
Proof. intros H. exists []. by rewrite app_nil_r. Qed.

(** A step did no more than is permitted, and the invariant holds if the session goes on. *)
Definition after (s : Sess) (keep : bool) (s' : Sess) : Prop := allowed s s' /\ (keep = true -> inv s' /\ began s s').

Lemma inv_server s : inv s -> server_ok s.(server).
Proof. intros H. exact (r_ok _ _ _ (i_receives _ H)). Qed.

Lemma after_refl s keep : inv s -> after s keep s.
Proof. intros H. split; [by apply allowed_nothing|]. intros _. split; [done|by left]. Qed.

Lemma quiet_after s keep s' : inv s -> quiet (ok s) (may_read builtin s) s s' -> after s keep s'.
Proof.
  intros Hi Hq. pose proof Hi as [H1 H2 H3 H4 H5 H6]. pose proof (quiet_alike _ _ _ _ Hq) as Ha. split.
  - apply allowed_ok; [by eapply alike_kinded, typed_kinded|].
    destruct Hq as [[_ _ _ _ (es & Hes & Hok)] _ _ _ _]. exists es. split; [done|]. eapply Forall_impl; [exact Hok|]. intros e. by apply alike_ok.
  - intros _. split; [|by eapply steady_began, steady_quiet; [apply inv_server|]]. pose proof (q_frame _ _ _ _ Hq) as [A1 A2 A3 A4 _]. split.
    + by rewrite A1.
    + by eapply quiet_receives.
    + unfold opts_ok. rewrite (a_opts _ _ Ha). intros Hx. eapply quiet_typ; [exact Hq|]. by apply H3.
    + by apply A4.
    + assert (Hm : may_read builtin s -> may_read builtin s') by (intros [Hx ?]; split; [by eapply quiet_typ|done]).
      destruct H5 as [H5|H5]; [|by right; apply Hm]. destruct (A3 H5); [by right; apply Hm|by left].
    + rewrite (a_auth _ _ Ha), (a_opts _ _ Ha). exact H6.
Qed.

Lemma noisy_after P s keep s' : inv s -> (cn s).(authorized) = true -> noisy builtin P s s' -> (forall e, P e -> ok s' e) -> opts_ok s' ->
  began s s' -> after s keep s'.
Proof.
  intros [H1 H2 H3 H4 H5 H6] Ha [[A1 A2 A3 A4 (es & A5 & A6)] A7] HP Ho Hb. split.
  - apply allowed_ok; [by eapply core_kinded, typed_kinded|]. exists es. split; [done|]. by eapply Forall_impl.
  - intros _. split; [|exact Hb]. split; [by rewrite A1|by apply A7|done|by apply A4| |].
    + destruct H5 as [H5|[Hx ?]]; [left; by destruct (A3 H5)|right]. split; [by eapply typ_core|done].
    + intros Hx. exfalso. exact (eq_true_false_abs _ Ha (eq_trans (eq_sym (f_equal k_authorized A1)) Hx)).
Qed.

Lemma mine_after s keep s' : inv s -> mine builtin by_user s s' -> after s keep s'.
Proof.
  intros Hi [A1 A2 A3 A4 A5 A6]. pose proof Hi as [H1 H2 H3 H4 H5 H6].
  split; [apply allowed_ok; [by eapply core_kinded, typed_kinded|done]|]. intros _. split; [|by apply A6, inv_server]. split.
  - by rewrite A1.
  - by apply A5.
  - unfold opts_ok. rewrite A2. intros Hx. eapply typ_core; [exact A1|]. by apply H3.
  - by rewrite A3.
  - rewrite A3. destruct H5 as [?|[Hx ?]]; [by left|right]. split; [by eapply typ_core|done].
  - intros Hx. rewrite A2. apply H6. etrans; [symmetry; exact (f_equal k_authorized A1)|exact Hx].
Qed.

Lemma closing_after s s' : inv s -> closing builtin by_user s s' -> after s false s'.
Proof.
  intros Hi [Ha (es & Hes & Hok)]. split; [|done]. apply allowed_ok; [by eapply alike_kinded, typed_kinded, i_typed|].
  exists es. split; [done|]. eapply Forall_impl; [exact Hok|]. intros e. by apply alike_ok.
Qed.

Lemma inv_locks s : inv s -> locks s.
Proof. intros H Hl. apply (i_opts _ H). by rewrite Hl. Qed.

(** An unauthorized session has no kind, an authorized one has the kind of its fields. *)
Lemma inv_running s : inv s -> (cn s).(authorized) = true -> running s.
Proof. intros H Ha. split; [done|exact (i_typed _ H)]. Qed.

Lemma inv_no_type s : inv s -> (cn s).(authorized) = false -> (cn s).(authed_conn_type) = None.
Proof. intros H. by apply typed_kinded, i_typed. Qed.

(** A step of the login. *)
Lemma login_step_after h f s keep s' : host_ok builtin h -> inv s ->
  (forall sys b, f s.(login) = (b, sys) -> goes_on s.(login) sys b -> login_keeps s.(login) sys) ->
  login_step h f s = (keep, s') -> after s keep s'.
Proof.
  intros Hh Hi Hf H. unfold login_step in H. destruct (f s.(login)) as [b sys] eqn:E. specialize (Hf sys b eq_refl). injection H as <- <-.
  set (s1 := on_login (fun _ => sys) s).
  assert (Hst : k_fixed (core (conn sys)) = k_fixed (core (conn (login s))) -> steady s s1).
  { intros Hx. apply steady_same; [done|exact (f_equal (fun x => x.1.1.1) Hx)|done]. }
  destruct (authorized (cn s)) eqn:Ha; cbn [negb andb].
  - split; [by apply allowed_nothing|]. intros ->. destruct (Hf (or_introl eq_refl)) as [L1 L2 L3].
    split; [|apply steady_began; [by apply inv_server|by apply Hst]]. destruct (L3 Ha) as [La Lt].
    destruct Hi as [H1 H2 H3 H4 H5 H6].
    assert (Hal : alike s s1) by (split; [exact Lt|by etrans; [exact La|]|done..]). split; [done| | |done| |].
    + apply (receives_ext _ _ s); [done|done|exact (f_equal (fun x => x.1.1.1) L2)|done| |].
      * unfold is_authed. by rewrite (a_type _ _ Hal).
      * intros c _. by apply alike_may.
    + intros Hx. unfold typ. rewrite (a_type _ _ Hal). by apply H3.
    + destruct H5 as [?|[Hx ?]]; [by left|right]. split; [|done]. unfold typ. by rewrite (a_type _ _ Hal).
    + rewrite (a_auth _ _ Hal), (a_opts _ _ Hal). exact H6.
  - pose proof (inv_no_type s Hi Ha) as Hn. destruct (authorized (conn sys)) eqn:Ha'.
    + destruct (Hf (or_intror (conj Ha Ha'))) as [L1 L2 _].
      assert (Hr : running s1) by (split; done). pose proof (inv_server s Hi) as Hsrv. destruct Hi as [H1 H2 H3 H4 H5 _].
      assert (Hj : idle (files (ext s))) by (destruct H5 as [?|[Hx _]]; [done|]; unfold typ in Hx; congruence).
      destruct (logged_on_begun builtin by_user h s1) as [B1 B2 B3 B4 B5 (es & B6 & B7) B8]; try done.
      * intros Hx. apply H3 in Hx. unfold typ in Hx. congruence.
      * apply (authorize_receives builtin s); try done. exact (f_equal (fun x => x.1.1.1) L2).
      * split; [apply allowed_ok; [apply typed_kinded; by rewrite B1|by exists es]|]. intros _.
        split; [|apply (steady_then s s1); [done|by apply Hst|exact B8]].
        split; [by rewrite B1|done|done|done|by left|].
        intros Hx. exfalso. exact (eq_true_false_abs _ (eq_trans (f_equal k_authorized B1) Ha') Hx).
    + split; [by apply allowed_nothing|]. intros ->. destruct (Hf (or_introl eq_refl)) as [L1 L2 _].
      split; [|apply steady_began; [by apply inv_server|by apply Hst]].
      assert (Hn' : authed_conn_type (conn sys) = None).
      { destruct L1 as [_ Lt]. change (k_authorized (core (conn sys))) with (authorized (conn sys)) in Lt. rewrite Ha' in Lt. apply Lt. }
      assert (Hal : alike s s1) by (split; [unfold s1, cn in *; cbn; congruence|unfold s1, cn in *; cbn; congruence|done..]).
      destruct Hi as [H1 H2 H3 H4 H5 H6]. split; [done| | |done| |].
      * apply (receives_ext _ _ s); [done|done|exact (f_equal (fun x => x.1.1.1) L2)|done| |].
        -- unfold is_authed. by rewrite (a_type _ _ Hal).
        -- intros c _. by apply alike_may.
      * intros Hx. apply H3 in Hx. unfold typ in Hx. congruence.
      * destruct H5 as [?|[Hx ?]]; [by left|]. unfold typ in Hx. congruence.
      * intros _. by apply H6.
Qed.

(** ** Messages *)

(** The kinds of session whose peer may send a message, of those that do something. *)
Definition misc_kinds (misc : Misc) : list AuthConnType :=
  match misc with
  | SwitchDisplay _ _ _ | CaptureDisplays _ _ _ | VideoReceived | AudioFormat _ _ | ClientRecordStatus _ | MessageQuery _
  | ChangeResolution _ | ChangeDisplayResolution _ _ => [Remote; ViewCamera]
  | RestartRemoteDevice | SwitchSidesRequest _ | AutoAdjustFps _ | RequestCursorData _ => [Remote]
  | _ => [Remote; FileTransfer; PortForward; ViewCamera; Terminal]
  end.

Definition kinds (m : Message) : list AuthConnType :=
  match m with
  | MMouse _ | MPointer _ | MKey _ | MAudioFrame _ | MVoiceCallRequest _ _ | MScreenshotRequest _ _ => [Remote; ViewCamera]
  | MCliprdr _ | MSwitchSides _ _ => [Remote]
  | MFileAction _ | MFileResponse _ => [FileTransfer; Remote]
  | MTerminalAction _ => [Terminal; Remote]
  | MPortForwardChannel _ => [PortForward; Remote]
  | MMisc (Some misc) => misc_kinds misc
  | _ => [Remote; FileTransfer; PortForward; ViewCamera; Terminal]
  end.

Lemma scope_kinds t m : authorized_scope_violation false (Some t) m = None -> t ∈ kinds m.
Proof. intros H. destruct t, m as [| | | | | | | | | | | |[[]|]| | | | | | | | | |]; first [discriminate H|cbn; rewrite !elem_of_cons; tauto]. Qed.

Lemma kinds_watching s t : typ s t -> t ∈ [Remote; ViewCamera] -> watching s.
Proof. intros Ht. rewrite !elem_of_cons. intros [->|[->|[]%not_elem_of_nil]]; [by left|by right]. Qed.

Lemma options_after h o s : host_ok builtin h -> inv s -> (cn s).(authorized) = true ->
  after s true (if is_authed_remote_conn s then update_options h o s
    else match scoped_update_option_message (cn s).(authed_conn_type) o with Some o => update_options h o s | None => s end).
Proof.
  intros Hh Hi Ha. destruct (is_authed_remote_conn s) eqn:E.
  - assert (Ht : typ s Remote) by (by apply authed_typ). pose proof (options_step builtin by_user h Hh o s Ht) as Hn.
    apply (noisy_after _ s true _ Hi Ha Hn).
    + intros e He. apply He; [exact (f_core _ _ _ _ (n_frame _ _ _ _ Hn))|exact (f_perms _ _ _ _ (n_frame _ _ _ _ Hn))].
    + intros _. by eapply frame_typ; [exact (n_frame _ _ _ _ Hn)|].
    + by apply options_began, inv_server.
  - destruct (authed_conn_type (cn s)) as [[]|] eqn:Et; cbn [scoped_update_option_message]; try (by apply after_refl).
    + destruct (scoped_view_camera_option o).1 as [o'|] eqn:Eo; [|by apply after_refl].
      pose proof (camera_options_noisy builtin h o o' s Eo) as Hn. apply (noisy_after _ s true _ Hi Ha Hn).
      * intros e He. apply camera_effect_ok; [|done]. by eapply frame_typ; [exact (n_frame _ _ _ _ Hn)|].
      * destruct (camera_options_opts h o o' s Eo) as [Hx Hy]. unfold opts_ok. rewrite Hx, Hy. intros Hz. apply (i_opts _ Hi) in Hz. unfold typ in Hz. congruence.
      * by apply options_began, inv_server.
    + destruct (scoped_terminal_login_option o).1 as [o'|] eqn:Eo; [|by apply after_refl].
      pose proof (terminal_options_noisy builtin h o o' s Eo) as Hn. apply (noisy_after _ s true _ Hi Ha Hn).
      * intros e He. apply terminal_effect_ok; [|done]. left. by eapply frame_typ; [exact (n_frame _ _ _ _ Hn)|].
      * unfold opts_ok. rewrite (terminal_options_opts h o o') by done. intros Hz. apply (i_opts _ Hi) in Hz. unfold typ in Hz. congruence.
      * by apply options_began, inv_server.
Qed.

Lemma switch_sides_after h uuid s keep s' : inv s -> typ s Remote -> switch_sides_request h uuid s = (keep, s') -> after s keep s'.
Proof.
  intros Hi Ht H. unfold switch_sides_request in H. destruct (negb _); [injection H as <- <-; by apply after_refl|]. cbv zeta in H.
  destruct (insert_pending h _ uuid s) as [is_new s1] eqn:E. injection H as <- <-.
  assert (H1 : quiet (ok s) True s s1).
  { unfold insert_pending in E. cbv zeta in E. injection E as <- <-. split; try done; [|by apply video_step_refl]. split; try done; [by left|].
    exists []. by rewrite app_nil_r. }
  set (s2 := if is_new then _ else s1). assert (H2 : quiet (ok s) True s s2).
  { unfold s2. destruct is_new; [|done]. etrans; [exact H1|]. apply quiet_act. by split. }
  clearbody s2. apply closing_after; [done|]. eapply closing_seq; [by apply (quiet_closing builtin by_user True)|]. apply on_close_closing.
  intros _. by eapply quiet_typ.
Qed.

Lemma running_not_camera s : running s -> watching s -> (cn s).(view_camera) = false -> typ s Remote.
Proof. intros Hr Hw Hv. pose proof (running_streams s Hr Hw) as Hs. unfold streams, video_source in Hs. by rewrite Hv in Hs. Qed.

Lemma capture_opts h a b c s : op (SessDispatch.capture_displays h a b c s) = op s.
Proof. unfold SessDispatch.capture_displays. cbv zeta. destruct (_ || _); [done|]. by destruct (follow_remote_window _). Qed.

Lemma misc_after h misc s keep s' : host_ok builtin h -> inv s -> (cn s).(authorized) = true ->
  (exists t, typ s t /\ t ∈ kinds (MMisc misc)) -> misc_message h misc s = (keep, s') -> after s keep s'.
Proof.
  intros Hh Hi Ha (t & Ht & Hk) H. pose proof (inv_running s Hi Ha) as Hr.
  assert (Hw : t ∈ [Remote; ViewCamera] -> watching s) by (by apply kinds_watching).
  assert (Hrem : t ∈ [Remote] -> typ s Remote) by (rewrite list_elem_of_singleton; by intros <-).
  assert (Hq : forall x, quiet (ok s) (may_read builtin s) s x -> after s true x) by (intros x; by apply quiet_after).
  assert (Hact : forall e x, x = act e s -> ok s e -> after s true x) by (intros e x -> He; by apply Hq, quiet_act).
  destruct misc as [[]|]; cbn [misc_message] in H; try (injection H as <- <-; by apply after_refl); try specialize (Hw Hk); try specialize (Hrem Hk).
  all: try (injection H as <- <-).
  - apply Hq. etrans; [|apply timer_quiet]. etrans; [apply (quiet_act (ok s) _ (ToCm (CmChat text))); by split; [exists t|]|quiet1].
  - by apply Hq, switch_display_quiet.
  - by apply options_after.
  - destruct (disable_audio (op s)) eqn:E; [by apply after_refl|]. apply Hq. etrans; [|apply quiet_act; by split]. quiet1.
  - destruct (should_handle_render_broadcast_message s) eqn:E; [|by apply after_refl]. apply Hq. etrans; [|apply timer_quiet].
    destruct all; [|done]. apply refresh_quiet. apply orb_true_iff in E as [E|E]; apply authed_typ in E; [by left|by right].
  - eapply Hact; [done|]. by split.
  - destruct (restart (pm s)) eqn:E; [|by apply after_refl]. apply Hq, quiet_acts. repeat constructor; done.
  - by eapply switch_sides_after.
  - destruct (view_camera (cn s)) eqn:E; [by apply after_refl|]. apply Hq, resolution_quiet. by apply running_not_camera.
  - eapply Hact; [done|]. split; [by left|done].
  - eapply Hact; [done|]. by split.
  - pose proof (capture_noisy builtin (fun _ => False) h (as_usize <$> add) (as_usize <$> sub0) (as_usize <$> set) s Hr Hw) as Hn.
    apply (noisy_after _ s true _ Hi Ha Hn); [done| |apply capture_began; [done..|by apply inv_server]]. unfold opts_ok. rewrite capture_opts. intros Hx.
    eapply frame_typ; [exact (n_frame _ _ _ _ Hn)|]. by apply (i_opts _ Hi).
  - destruct (should_handle_render_broadcast_message s) eqn:E; [|by apply after_refl]. apply Hq. etrans; [|apply timer_quiet].
    apply refresh_quiet. apply orb_true_iff in E as [E|E]; apply authed_typ in E; [by left|by right].
  - destruct (view_camera (cn s)); [by apply after_refl|]. unfold turn_on_privacy, turn_off_privacy.
    destruct on0; [destruct (_ || _)|]; (eapply Hact; [done|by split; [exists t|]]).
  - destruct (view_camera (cn s)) eqn:E; [by apply after_refl|]. apply Hq, resolution_quiet. by apply running_not_camera.
  - by apply Hq, changed_quiet.
  - destruct (_ && _) eqn:E; [|by apply after_refl]. apply andb_true_iff in E as [_ E]. destruct (cursor_data h id); [|by apply after_refl].
    eapply Hact; [done|]. by split.
Qed.


Lemma session_message_after h m s keep s' : host_ok builtin h -> inv s -> (cn s).(authorized) = true ->
  (exists t, typ s t /\ t ∈ kinds m) -> session_message h m s = (keep, s') -> after s keep s'.
Proof.
  intros Hh Hi Ha (t & Ht & Hk) H. pose proof (inv_running s Hi Ha) as Hr.
  assert (Hw : t ∈ [Remote; ViewCamera] -> watching s) by (by apply kinds_watching).
  assert (Hrem : t ∈ [Remote] -> typ s Remote) by (rewrite list_elem_of_singleton; by intros <-).
  assert (Hfile : t ∈ [FileTransfer; Remote] -> file_side s).
  { rewrite !elem_of_cons. intros [->|[->|[]%not_elem_of_nil]]; [by left|by right]. }
  assert (Hq : forall x, quiet (ok s) (may_read builtin s) s x -> after s true x) by (intros x; by apply quiet_after).
  assert (Hclip : forall cbs, after s true (if should_handle_text_clipboard_message s && clipboard_enabled s then act (UpdateClipboard cbs) s else s)).
  { intros cbs. destruct (_ && _) eqn:E; [|by apply after_refl]. apply andb_true_iff in E as [E1%authed_typ E2]. apply Hq, quiet_act. by split. }
  destruct m; cbn [session_message] in H; try (injection H as <- <-; by apply after_refl); try specialize (Hw Hk); try specialize (Hrem Hk);
    try specialize (Hfile Hk); try (injection H as <- <-).
  - by apply Hq, mouse_quiet.
  - by apply Hq, pointer_quiet.
  - by apply Hq, key_quiet.
  - apply Hclip.
  - apply Hclip.
  - by apply Hq, cliprdr_quiet.
  - apply Hq, file_action_quiet; [done..|]. apply (i_printer _ Hi).
  - by apply Hq, file_response_quiet.
  - eapply misc_after; [done..| |exact H]. by exists t.
  - destruct (disable_audio (op s)) eqn:E; [by apply after_refl|]. destruct (audio_sender (ext s)); [|by apply after_refl]. apply Hq, quiet_act. by split.
  - destruct is_connect; [|apply mine_after; [done|]; apply close_voice_mine; by right]. apply Hq. etrans; [|apply quiet_act; by split]. quiet1.
  - apply Hq. etrans; [apply (quiet_act (ok s) _ (TakeScreenshot (video_source s) (as_usize display)))|].
    + split; [|done]. by apply running_streams.
    + eapply quiet_mono; [| |apply (refresh_quiet builtin by_user (may_read builtin s))]; [|done|exact Hw]. done.
  - apply Hq, terminal_quiet. revert Hk. cbn. rewrite !elem_of_cons. intros [->|[->|[]%not_elem_of_nil]]; [by left|by right].
  - destruct (port_forward_mux (cn s)) eqn:E; [|by apply after_refl]. apply Hq, quiet_act. split; [|done].
    pose proof (running_type s Hr) as Hty. revert Hk. cbn. rewrite !elem_of_cons. intros [->|[->|[]%not_elem_of_nil]]; [done|].
    unfold typ in Ht. rewrite Hty in Ht. unfold type_of_fields, is_port_forward in Ht. rewrite E, orb_true_r in Ht. cbn in Ht.
    by destruct (file_transfer (cn s)).
Qed.

Lemma test_delay_after h time from_client last_delay s : inv s -> after s true (test_delay h time from_client last_delay s).
Proof.
  intros Hi. unfold test_delay. destruct from_client; [apply quiet_after; [done|]; by apply quiet_act|].
  destruct (last_test_delay (ext s)); [|by apply after_refl]. cbv zeta. apply quiet_after; [done|].
  etrans; [apply (quiet_act (ok s) _ (QosCall (Qos.EDelay (cid s) (wrap 32 (instant (env h) - z)))))|quiet1]. by split.
Qed.

Lemma handle_message_after h m s keep s' : host_ok builtin h -> inv s ->
  ((cn s).(authorized) = true -> (exists t, typ s t /\ t ∈ kinds m) /\ forall lr, m <> MLogin lr) ->
  handle_message h m s = (keep, s') -> after s keep s'.
Proof.
  intros Hh Hi Hk H. pose proof (i_typed _ Hi) as Ht.
  assert (Hs : (if (cn s).(authorized) then if (cn s).(port_forward_socket) then (true, s) else session_message h m s else (true, s)) = (keep, s') ->
    after s keep s').
  { intros Hx. destruct (authorized (cn s)) eqn:Ha; [|injection Hx as <- <-; by apply after_refl].
    destruct (port_forward_socket (cn s)); [injection Hx as <- <-; by apply after_refl|].
    eapply session_message_after; [done..| |exact Hx]. by apply Hk. }
  destruct m; cbn [handle_message] in H; try (by apply Hs).
  - eapply login_step_after; [done..| |exact H]. intros sys b E. apply login_request_keeps with (1 := E); [|done].
    destruct (authorized (conn (login s))) eqn:Ha; [|done]. destruct (Hk Ha) as [_ Hl]. by destruct (Hl _ eq_refl).
  - eapply login_step_after; [done..| |exact H]. intros sys b E. by apply auth_2fa_keeps with (1 := E).
  - eapply login_step_after; [done..| |exact H]. intros sys b E. apply switch_keeps with (1 := E); [done|].
    intros Ha. destruct (Hk Ha) as [(t & Htt & Hin) _]. cbn in Hin. apply list_elem_of_singleton in Hin. by subst t.
  - injection H as <- <-. by apply test_delay_after.
Qed.

Lemma on_message_after h m s keep s' : host_ok builtin h -> inv s -> on_message h m s = (keep, s') -> after s keep s'.
Proof.
  intros Hh Hi H.
  assert (Hclose : forall r, m = MMisc (Some (CloseReason r)) -> after s keep s').
  { intros r ->. injection H as <- <-. apply closing_after; [done|]. eapply closing_seq; [by apply on_close_closing, inv_locks|].
    apply (quiet_closing builtin by_user True), remove_session_quiet. }
  assert (Hrest : (forall r, m <> MMisc (Some (CloseReason r))) -> after s keep s').
  2: { destruct m as [| | | | | | | | | | | |[[]|]| | | | | | | | | |]; try (by apply Hrest); by eapply Hclose. }
  intros Hm. assert (H' : (if (cn s).(authorized) then
        match m with
        | MLogin _ => (true, s)
        | _ =>
            match authorized_scope_violation false (cn s).(authed_conn_type) m with
            | Some message =>
                let '(keep, sys) := LoginFlow.handle_authorized_scope_violation h.(env) message s.(login) in
                let s := on_login (fun _ => sys) s in
                (keep, if keep then s else on_close true s)
            | None => handle_message h m s
            end
        end
      else handle_message h m s) = (keep, s')).
  { destruct m as [| | | | | | | | | | | |[[]|]| | | | | | | | | |]; try exact H. by edestruct Hm. }
  clear H Hclose Hm. destruct (authorized (cn s)) eqn:Ha; [|eapply handle_message_after; [done|done|intros; congruence|exact H']].
  assert (Hl : (exists lr, m = MLogin lr) \/ forall lr, m <> MLogin lr) by (destruct m; eauto).
  destruct Hl as [[lr ->]|Hl]; [injection H' as <- <-; by apply after_refl|].
  assert (H : match authorized_scope_violation false (cn s).(authed_conn_type) m with
            | Some message =>
                let '(keep, sys) := LoginFlow.handle_authorized_scope_violation h.(env) message s.(login) in
                let s := on_login (fun _ => sys) s in
                (keep, if keep then s else on_close true s)
            | None => handle_message h m s
            end = (keep, s')) by (destruct m; try exact H'; by edestruct Hl).
  clear H'. destruct (authorized_scope_violation false _ m) as [message|] eqn:E.
  - destruct (LoginFlow.handle_authorized_scope_violation _ _ _) as [kp sys] eqn:Ev. cbv zeta in H. injection H as <- <-.
    assert (Hq : quiet (ok s) (may_read builtin s) s (on_login (fun _ => sys) s)).
    { apply quiet_login. unfold LoginFlow.handle_authorized_scope_violation in Ev. cbv zeta in Ev.
      destruct (LoginFlow.get_bool_option _ "allow-scope-violation-close"); injection Ev as _ <-; repeat case_match; done. }
    destruct kp; [by apply quiet_after|]. apply closing_after; [done|]. eapply closing_seq; [by apply (quiet_closing builtin by_user (may_read builtin s))|].
    apply on_close_closing. intros Hx. eapply quiet_typ; [exact Hq|]. apply (inv_locks s Hi). by rewrite <- (q_opts _ _ _ _ Hq).
  - pose proof (running_type s (inv_running s Hi Ha)) as Hty. rewrite Hty in E. eapply handle_message_after; [done|done| |exact H].
    intros _. split; [|done]. eexists. split; [exact Hty|]. by apply scope_kinds.
Qed.

(** ** The connection manager and the timers *)

Lemma quiet_free P J s s' : (forall e, P e -> forall x, ok x e) -> quiet P J s s' -> quiet (ok s) J s s'.
Proof. intros HP. apply quiet_mono; [|done]. intros e He. by apply HP. Qed.

Lemma seen_quiet P J s : quiet P J s (seen s).
Proof. unfold seen. etrans; [|apply files_idle_quiet; done]. quiet1. Qed.

Lemma close_seq J s s1 lock : inv s -> quiet (ok s) J s s1 -> after s false (on_close lock s1).
Proof.
  intros Hi Hq. apply closing_after; [done|]. eapply closing_seq; [by apply (quiet_closing builtin by_user J)|]. apply on_close_closing.
  intros Hx. eapply quiet_typ; [exact Hq|]. apply (inv_locks s Hi). by rewrite <- (q_opts _ _ _ _ Hq).
Qed.

Lemma on_cm_after h d s keep s' : host_ok builtin h -> by_user = true -> inv s -> on_cm h d s = (keep, s') -> after s keep s'.
Proof.
  intros Hh Hu Hi H. destruct d; cbn [on_cm] in H.
  - eapply login_step_after; [done..| |exact H]. intros sys b E. apply authorize_keeps with (1 := E), (i_typed _ Hi).
  - injection H as <- <-. apply (close_seq True); [done|]. etrans; [apply seen_quiet|]. eapply quiet_mono; [| |apply (close_reason_quiet builtin by_user True)]; done.
  - injection H as <- <-. apply (close_seq True); [done|]. apply seen_quiet.
  - destruct (bool_decide _); injection H as <- <-; [by apply after_refl|]. by apply (close_seq True).
  - injection H as <- <-. apply quiet_after; [done|]. etrans; [apply (quiet_act (ok s) _ (Send (OChat text))); by split|quiet1].
  - injection H as <- <-. apply mine_after, switch_permission_mine; done.
  - injection H as <- <-. apply quiet_after; [done|]. by apply quiet_act.
  - injection H as <- <-. apply mine_after; [done|]. by apply handle_voice_mine.
  - injection H as <- <-. apply mine_after; [done|]. destruct (close_voice_mine builtin by_user s (or_introl Hu)) as [A1 A2 A3 (es & A4 & A5) A6 A7]. split; try done.
    + exists (es ++ [Send (OVoiceCallRequest false)]). split; [cbn; by rewrite A4, <- app_assoc|]. apply Forall_app. split.
      * eapply Forall_impl; [exact A5|]. intros e. by apply alike_ok.
      * by apply Forall_singleton.
    + intros Ht Hr. by apply (receives_ext _ _ (close_voice_call s)); [apply A6|..].
Qed.

Lemma on_file_timer_after h reads s keep s' : inv s -> on_file_timer zstd_compress h reads s = (keep, s') -> after s keep s'.
Proof.
  intros Hi H. unfold on_file_timer in H. destruct (is_nil _) eqn:E; [injection H as <- <-; by apply after_refl|].
  destruct (FsSend.Send.handle_read_jobs _ _ _ _) as [jobs out]. injection H as <- <-.
  destruct (i_jobs _ Hi) as [Hx|Hx]; [by rewrite (proj1 Hx) in E|]. apply quiet_after; [done|]. destruct Hx as [Ht Hw].
  assert (Hlog : forall x, quiet (ok s) (may_read builtin s) x (act (ToCm (CmFileLog "transfer")) x)) by (intros x; by apply quiet_act).
  etrans; [apply Hlog|]. etrans; [apply (quiet_files _ _ (set_read_jobs jobs)); intros x; by split; [left|]|].
  etrans; [apply (quiet_acts _ _ ((fun m => Send (OFile m)) <$> out)), Forall_fmap, Forall_true; intros m; split; [done|]; intros Ho; congruence|].
  by destruct (_ <? _).
Qed.

Lemma remove_timer_quiet J h s : inv s -> quiet (ok s) J s (on_remove_timer h s).
Proof.
  intros Hi. unfold on_remove_timer. cbv zeta. destruct (_ <? _); [done|]. etrans; [|apply quiet_acts].
  - apply files_idle_quiet. intros x. split; [|done]. by intros (H & _ & _).
  - destruct (i_jobs _ Hi) as [(_ & -> & ->)|[Ht _]]; [done|]. apply Forall_fmap, Forall_true. intros x. by split.
Qed.

Lemma on_second_timer_after h s keep s' : inv s -> on_second_timer h s = (keep, s') -> after s keep s'.
Proof.
  intros Hi H. unfold on_second_timer in H. destruct (auto_disconnect_timer (ext s)) as [[at_ minute]|].
  2: { injection H as <- <-. apply quiet_after; [done|]. by apply remove_timer_quiet. }
  destruct (_ <? _); injection H as <- <-; [|apply quiet_after, remove_timer_quiet; done].
  apply (close_seq True); [done|]. apply close_reason_quiet.
Qed.

Lemma on_test_delay_timer_after h silent s keep s' : inv s -> on_test_delay_timer h silent s = (keep, s') -> after s keep s'.
Proof.
  intros Hi H. unfold on_test_delay_timer in H. destruct (_ <=? silent); [injection H as <- <-; by apply (close_seq True)|]. cbv zeta in H.
  set (s1 := match last_test_delay (ext s) with Some _ => s | None => _ end) in *. injection H as <- <-.
  assert (Hq : quiet (ok s) (may_read builtin s) s s1).
  { unfold s1. destruct (last_test_delay (ext s)); [done|]. destruct (_ && _); [done|]. etrans; [|apply quiet_act; by split]. quiet1. }
  clearbody s1. destruct (_ || _); [|by apply quiet_after]. destruct (last_test_delay (ext s1)); [|by apply quiet_after].
  apply quiet_after; [done|]. etrans; [exact Hq|]. by apply quiet_act.
Qed.

(** A connection that has not authorized receives the clipboard and the cursor at most. *)
Lemma unauthorized_got s name : inv s -> (cn s).(authorized) = false -> got name s = true -> name = CLIPBOARD_NAME \/ name = NAME_CURSOR.
Proof.
  intros H Ha Hg. pose proof (i_receives _ H) as [_ R2 R3 _]. pose proof (R2 name (not_elem_of_nil _) Hg) as Hm.
  pose proof (inv_no_type s H Ha) as Ht. pose proof (i_fresh _ H Ha) as Ho.
  unfold may, is_authed, file_transfer_enabled in Hm. rewrite Ht, Ha, Ho in Hm. cbn in Hm. rewrite andb_false_r in Hm.
  assert (Hss : services_subed (ext s) = false).
  { destruct (services_subed (ext s)); [|done]. specialize (R3 eq_refl). unfold is_authed in R3. by rewrite Ht in R3. }
  destruct (class name) eqn:Ec; try done; [left|right|].
  - by apply (named_class KClipboard CLIPBOARD_NAME).
  - by apply (named_class KCursor NAME_CURSOR).
  - congruence.
Qed.

Lemma on_published_after h name p latency payload s keep s' : inv s -> got name s = true ->
  (match p with PVideoFrame => is_video_service_name name = true | PPeerInfo => name = DISPLAY_NAME | _ => True end) ->
  on_published h name p latency payload s = (keep, s') -> after s keep s'.
Proof.
  intros Hi Hg Hn H. pose proof (r_bound _ _ _ (i_receives _ Hi) name (not_elem_of_nil _) Hg) as Hm.
  assert (Ho : forall data x, quiet (ok s) (may_read builtin s) s x -> after s true (tell (OService name data) x)).
  { intros data x Hq. apply quiet_after; [done|]. etrans; [exact Hq|]. apply quiet_act. split.
    { split; [exact Hm|]. destruct (authorized (cn s)) eqn:Ha; [by left|right]. by apply unauthorized_got in Hg. }
    intros Hx Hc. rewrite Hc in Hm. cbn [may] in Hm. unfold one_way_on in Hx. by rewrite Hx, andb_false_r in Hm. }
  destruct p; cbn [on_published] in H; try (injection H as <- <-).
  - apply Ho. destruct (video_ack_required (cn s)); [done|]. apply quiet_act. split; [|done].
    rewrite class_video in Hn. destruct (class name); try done; apply authed_typ in Hm; [by left|by right].
  - destruct (1000 <? latency); [by apply after_refl|by apply Ho].
  - apply (close_seq True); [done|]. apply close_reason_quiet.
  - apply Ho, refresh_quiet. subst name. pose proof (r_type _ _ _ (i_receives _ Hi) Hm) as Ht. left. by apply authed_typ.
  - apply Ho. destruct (follow_remote_cursor (op s)) eqn:E; [|done]. unfold handle_cursor_switch_display.
    destruct (multi_ui_session (ext s)); [done|]. destruct (display_at h payload); [|done]. destruct (_ =? _); [done|].
    apply quiet_act. split; [|done]. left. apply (i_opts _ Hi). by rewrite E, orb_true_r.
  - by apply Ho.
  - by apply Ho.
Qed.

Lemma on_file_clip_after h k payload s keep s' : host_ok builtin h -> inv s ->
  on_file_clip h k payload s = (keep, s') -> after s keep s'.
Proof.
  intros Hh Hi H. injection H as <- <-. apply quiet_after; [done|]. destruct (version_at_least _ _); [|done].
  unfold handle_file_clip. destruct (authorized (cn s)) eqn:Ha; cbn [negb]; [|done].
  destruct (is_stopping_allowed k && _) eqn:E; [done|]. destruct (is_beginning_message k && _) eqn:Eb; [done|].
  apply quiet_act. split; [split; [done|]|].
  - intros Hs. rewrite Hs in E. cbn in E. by apply negb_false_iff in E.
  - intros Ho. destruct k; try done. cbn in Eb. rewrite (is_on_spec builtin) in Eb by done. unfold one_way_on in Ho. congruence.
Qed.

End Run.

(** ** Runs *)

Section Runs.
Context {L : Libraries}.
Context (zstd_compress : list Z -> option (list Z)).
Variable builtin : string -> string.

Inductive Event :=
| EvMessage (h : Host) (m : Message)
| EvCm (h : Host) (d : CmData)
| EvFileTimer (h : Host) (reads : list (option Z))
| EvSecond (h : Host)
| EvTestDelay (h : Host) (silent : Z)
| EvPublish (h : Host) (name : string) (p : Published) (latency : Z) (payload : list Z)
| EvClip (h : Host) (k : ClipKind) (payload : list Z)
| EvShared (x : Shared) (* whatever other connections do to what they share *)
| EvServer (v : Server). (* other connections subscribe, services publish and swap subscribers *)

(** After a message, a connection that tunnels leaves the loop, unless an echo is outstanding. *)
Definition exec (ev : Event) (s : Sess) : bool * Sess :=
  match ev with
  | EvMessage h m =>
      let '(keep, s) := on_message h m s in
      (keep && negb ((cn s).(port_forward_socket) && (cn s).(authorized) && bool_decide (s.(ext).(last_test_delay) = None)), s)
  | EvCm h d => on_cm h d s
  | EvFileTimer h reads => on_file_timer zstd_compress h reads s
  | EvSecond h => on_second_timer h s
  | EvTestDelay h silent => on_test_delay_timer h silent s
  | EvPublish h name p latency payload => on_published h name p latency payload s
  | EvClip h k payload => on_file_clip h k payload s
  | EvShared x => (true, on_login (on_shared (fun _ => x)) s)
  | EvServer v => (true, on_server (fun _ => v) s)
  end.

(** The built-in options are those of the deployment; what is published reaches the subscribers;
    others leave this connection's subscriptions alone. *)
Definition enabled (ev : Event) (s : Sess) : Prop :=
  match ev with
  | EvMessage h _ | EvCm h _ | EvFileTimer h _ | EvSecond h | EvTestDelay h _ | EvClip h _ _ => host_ok builtin h
  | EvPublish h name p _ _ => host_ok builtin h /\ got name s = true /\
      match p with PVideoFrame => is_video_service_name name = true | PPeerInfo => name = DISPLAY_NAME | _ => True end
  | EvShared _ => True
  | EvServer v => server_ok v /\ forall n, subed n (cid s) v = got n s /\ (is_video_service_name n = false -> contains n v = contains n s.(server))
  end.

(** Steps at the request of the local user. *)
Definition user_event (ev : Event) : bool := match ev with EvCm _ _ => true | _ => false end.

Abbreviation inv := (inv builtin).
Abbreviation after := (after builtin).
Abbreviation ok := (ok builtin).

Lemma exec_after ev s keep s' : enabled ev s -> inv s -> exec ev s = (keep, s') -> after (user_event ev) s keep s'.
Proof.
  intros He Hi H. destruct ev; cbn [exec enabled user_event] in *.
  - destruct (on_message h m s) as [k s1] eqn:E. injection H as <- <-. destruct (on_message_after zstd_compress builtin false h m s k s1 He Hi E) as [H1 H2].
    split; [done|]. intros Hx. apply andb_true_iff in Hx as [Hx _]. by apply H2.
  - by eapply on_cm_after.
  - by eapply on_file_timer_after.
  - by eapply on_second_timer_after.
  - by eapply on_test_delay_timer_after.
  - destruct He as (Hh & Hg & Hn). by eapply on_published_after.
  - by eapply on_file_clip_after.
  - injection H as <- <-. apply (quiet_after zstd_compress); [done|]. by apply quiet_login.
  - injection H as <- <-. destruct He as [Hv He]. set (s1 := on_server _ s).
    assert (Hg : forall n, got n s1 = got n s) by (intros n; apply He).
    assert (Hm : may builtin s1 = may builtin s) by reflexivity.
    split; [by apply allowed_nothing|]. intros _. split; [|intros Hx; left; by rewrite <- Hg].
    destruct Hi as [H1 [H2 H3 H4 H5] H6 H7 H8 H9]. split; try done. split; [exact Hv| |exact H4|].
    + intros n Hn. rewrite Hg, Hm. by apply H3.
    + intros n Ht Hn Hss. rewrite Hg, Hm. assert (Ev : is_video_service_name n = false) by (rewrite class_video; by destruct (class n)).
      change (contains n (server s1)) with (contains n v). destruct (He n) as [_ ->]; [|done]. by apply H5.
Qed.

(** Each event of the trace, latest first, with the state it found and the state it left. *)
Abbreviation Steps := (list (Sess * Event * Sess)).

Inductive run (s0 : Sess) : Steps -> Sess -> bool -> Prop :=
| run_start : run s0 [] s0 true
| run_step tr s ev keep s' : run s0 tr s true -> enabled ev s -> exec ev s = (keep, s') -> run s0 ((s, ev, s') :: tr) s' keep.

Lemma run_next s0 tr s ev : run s0 tr s true -> enabled ev s -> (exec ev s).1 = true ->
  run s0 ((s, ev, (exec ev s).2) :: tr) (exec ev s).2 true.
Proof. intros Hr He Hk. eapply run_step; [exact Hr|exact He|]. rewrite <- Hk. apply surjective_pairing. Qed.

(** A connection as it is accepted: subscribed to nothing. *)
Definition starts (s0 : Sess) : Prop :=
  exists e id addr hash control totp x v switches, s0 = sess_new e (mkSys (LoginFlow.conn_new id addr hash control totp) x []) v switches /\
    server_ok v /\ forall n, subed n id v = false.

Lemma starts_inv s0 : starts s0 -> inv s0.
Proof.
  intros (e & id & addr & hash & control & totp & x & v & switches & -> & Hv & Hs).
  assert (Hg : forall n, got n (sess_new e (mkSys (LoginFlow.conn_new id addr hash control totp) x []) v switches) = false) by exact Hs.
  split; try done.
  - split; try done. intros n _. by rewrite Hg.
  - by left.
Qed.

Lemma session_run_inv s0 tr s keep : starts s0 -> run s0 tr s keep ->
  (keep = true -> inv s /\ Forall (fun p => began p.1.1 p.2) tr) /\
  Forall (fun p => allowed builtin (user_event p.1.2) p.1.1 p.2) tr.
Proof.
  intros H0 Hr. induction Hr as [|tr s ev keep s' Hr [IH1 IH2] He Hx]; [split; [|done]; intros _; split; [by apply starts_inv|done]|].
  destruct (IH1 eq_refl) as [Hi Hb]. destruct (exec_after ev s keep s' He Hi Hx) as [A1 A2]. split; [|by constructor].
  intros Hk. destruct (A2 Hk) as [??]. split; [done|]. by constructor.
Qed.

End Runs.
End SessRun.
