(* ===== verification/SessTheorems.v ===== *)
(** The properties of sessions, on every run, and runs that show them and their limits. *)

From S2P Require Import Prelude PathFs FsJob FsSend FsWalk MuxWindow TermService VideoQos SessMsg LoginLockout.
From S2P Require Import LoginThrottle LoginId LoginAdmit LoginPassword LoginState LoginFlow LoginSafety.
From S2P Require Import LoginRun SessServer SessState SessFlow SessDispatch SessMessage SessFrame SessReceive.
From S2P Require Import SessPermit SessOptions SessRun.

Module SessTheorems.
Import Msgs Scope Services ServicesFacts LoginState SessState SessFlow SessDispatch SessMessage SessReceive SessPermit SessRun.

Section Theorems.
Context {L : Libraries}.
Context (zstd_compress : list Z -> option (list Z)).

(** The steps of a run that goes on, and the file clipboard. *)
Lemma files_in_trace (builtin : string -> string) s0 tr s keep : starts s0 -> run zstd_compress builtin s0 tr s keep -> keep = true ->
  Forall (fun p => let '(before, _, now) := p in got FILE_CLIPBOARD_NAME before = false -> got FILE_CLIPBOARD_NAME now = true ->
    file_transfer_enabled now = true /\ (clipboard_enabled before = true \/ clipboard_enabled now = true)) tr.
Proof.
  intros H0 Hr. induction Hr as [|tr s ev keep s' Hr IH He Hx]; [done|]. intros Hk. constructor; [|by apply IH].
  assert (Hr' : run zstd_compress builtin s0 ((s, ev, s') :: tr) s' true) by (rewrite <- Hk; by eapply run_step).
  destruct (session_run_inv _ _ _ _ _ _ H0 Hr') as [H _]. destruct (H eq_refl) as [Hi Hb]. apply Forall_cons_1 in Hb as [Hb _].
  intros Hg Hn. split.
  - pose proof (r_bound _ _ _ (i_receives _ _ Hi) _ (not_elem_of_nil _) Hn) as Hm. by apply andb_true_iff in Hm as [Hm _].
  - destruct (Hb Hn) as [Hg'|H']; [cbn in Hg'; congruence|exact H'].
Qed.

(** C2: whatever a peer sends, in whatever order, and whatever the local user, the timers, the
    services and other connections do meanwhile, everything a session does is permitted: input
    only in remote-control sessions and while the keyboard permission is given, files only in
    file-transfer sessions, tunnels only in tunnel sessions, permissions announced as they are,
    voice calls answered by the local user only, and so on as [permitted] says, by the kind the
    login authorized and the permissions and options of the moment.  Before the login has
    authorized the connection it is probed and closed, what the local user asks for is done, and
    what the clipboard and the cursor publish may be sent ([unauthorized_clipboard] is how); nothing
    else happens ([before_login]). *)
Theorem effects_permitted (builtin : string -> string) (s0 : Sess) (tr : list (Sess * Event * Sess)) (s : Sess) (keep : bool) :
  starts s0 -> run zstd_compress builtin s0 tr s keep ->
  Forall (fun p => let '(before, ev, now) := p in
    exists es, now.(log) = before.(log) ++ es /\
      Forall (fun e => permitted builtin (user_event ev) now e /\ ((cn now).(authorized) = true \/ before_login (user_event ev) e)) es) tr.
Proof.
  intros H0 Hr. destruct (session_run_inv _ _ _ _ _ _ H0 Hr) as [_ H]. eapply Forall_impl; [exact H|].
  intros [[s1 ev] s2] (es & Hes & Hok). exists es. split; [exact Hes|]. eapply Forall_impl; [exact Hok|]. by intros e [[? _] ?].
Qed.

(** C4: where the deployment allows file transfer one way only, no run of a session sends the
    content of a file, serves the content of a clipboard file or publishes this side's file
    clipboard; and of the requests to the process that works on files it makes only those that look
    at directories and those that store what the peer uploads ([one_way] lists them): nothing is
    removed, renamed or created on the peer's request. *)
Theorem one_way_transfer (builtin : string -> string) (s0 : Sess) (tr : list (Sess * Event * Sess)) (s : Sess) (keep : bool) :
  starts s0 -> run zstd_compress builtin s0 tr s keep -> builtin ONE_WAY_FILE_TRANSFER = "Y" ->
  Forall (fun p => exists es, p.2.(log) = p.1.1.(log) ++ es /\ Forall one_way es) tr.
Proof.
  intros H0 Hr Ho. destruct (session_run_inv _ _ _ _ _ _ H0 Hr) as [_ H]. eapply Forall_impl; [exact H|].
  intros p (es & Hes & Hok). exists es. split; [done|]. eapply Forall_impl; [exact Hok|]. intros e [[_ He] _]. apply He.
  by apply bool_decide_eq_true_2.
Qed.

(** C3: at every moment of a run, a session is subscribed only to what [may] allows: screens in
    remote-control and cameras in camera sessions, sound to a camera session only during a
    voice call, the clipboard and its files, the cursor, its position and the focused window by
    permission and option; and once a remote-control session has started, the clipboard, the
    sound and the pointer's position exactly when the permissions and options of the moment
    give them.  A connection that has not authorized is subscribed at most to the clipboard and
    the cursor.  The file clipboard goes by its own permission at every moment, and a subscription
    to it begins only in a step that finds or leaves the clipboard enabled; it is not ended when
    the clipboard permission alone is taken back ([stale_file_clipboard]). *)
Theorem subscriptions_follow_permissions (builtin : string -> string) (s0 : Sess) (tr : list (Sess * Event * Sess)) (s : Sess) :
  starts s0 -> run zstd_compress builtin s0 tr s true ->
  (forall name, got name s = true -> may builtin s (class name) = true) /\
  ((cn s).(authorized) = false -> forall name, got name s = true -> name = CLIPBOARD_NAME \/ name = NAME_CURSOR) /\
  (s.(ext).(services_subed) = true ->
   (cn s).(authed_conn_type) = Some Remote /\
   got CLIPBOARD_NAME s = contains CLIPBOARD_NAME s.(server) &&
     (clipboard_enabled s && peer_keyboard_enabled s && negb (bool_decide (builtin ONE_WAY_CLIPBOARD = "Y"))) /\
   got AUDIO_NAME s = contains AUDIO_NAME s.(server) && audio_enabled s /\
   got NAME_POS s = contains NAME_POS s.(server) && (op s).(show_remote_cursor)) /\
  Forall (fun p => let '(before, _, now) := p in got FILE_CLIPBOARD_NAME before = false -> got FILE_CLIPBOARD_NAME now = true ->
    file_transfer_enabled now = true /\ (clipboard_enabled before = true \/ clipboard_enabled now = true)) tr.
Proof.
  intros H0 Hr. pose proof (files_in_trace builtin s0 tr s true H0 Hr eq_refl) as Hf.
  destruct (session_run_inv _ _ _ _ _ _ H0 Hr) as [H _]. destruct (H eq_refl) as [Hi _]. clear H.
  pose proof (i_receives _ _ Hi) as [R1 R2 R3 R4]. split_and!.
  - intros name. apply R2, not_elem_of_nil.
  - intros Ha name. by eapply unauthorized_got.
  - intros Hss. pose proof (R3 Hss) as Hre. destruct (remote_keyless s Hre) as [Hk Hv]. pose proof (proj1 (authed_typ Remote s) Hre) as Ht.
    assert (Ha : (cn s).(authorized) = true).
    { destruct (authorized (cn s)) eqn:Ha; [done|]. pose proof (inv_no_type _ s Hi Ha). unfold typ in Ht. congruence. }
    split; [exact Ht|]. assert (Hx : forall c n, class n = c -> tracked c = true -> got n s = contains n s.(server) && may builtin s c).
    { intros c n <- Htr. apply R4; [done|apply not_elem_of_nil|done]. }
    rewrite (Hx KClipboard), (Hx KAudio), (Hx KPos) by done. cbn [may]. rewrite Hk, Hv, Ha, orb_false_r, andb_true_r.
    split_and!; [|done|done]. f_equal. unfold on. rewrite <- !andb_assoc. f_equal. apply andb_comm.
  - exact Hf.
Qed.

End Theorems.

(** ** Concrete sessions *)

(** The services of a server as it is created are nobody's. *)
Lemma new_server_free count embedded x11 : server_ok (Services.new count embedded x11) /\ forall n id, subed n id (Services.new count embedded x11) = false.
Proof.
  assert (H : map_Forall (fun _ s => exists b, s = service_new b) (services (Services.new count embedded x11))).
  { unfold Services.new. cbv zeta. destruct embedded, x11; cbn [add_service services set_services];
      repeat (apply map_Forall_insert_2; [by eexists|]); apply map_Forall_empty. }
  split.
  - intros n x Hx. destruct (H n x Hx) as [b ->]. apply svc_new_ok.
  - intros n id. unfold subed. destruct (services _ !! n) as [x|] eqn:E; [|done]. by destruct (H n x E) as [b ->].
Qed.

Definition toy_host : Host := mkHost LoginRun.toy_env (PathFs.Fs.mkFs ∅ ∅ 0 [] 0) 10 1000 (fun _ => 1) false (fun _ _ => None)
  (fun _ => true) (fun _ => None) (fun _ => []) (fun _ => None) (fun _ => None) (fun _ => None) "ts" (fun _ => Ok None) false "" (Some 0) (fun _ => "").

Definition toy_server : Server := Services.new 1 false true.
Definition toy_session : Sess :=
  sess_new LoginRun.toy_env (mkSys (LoginFlow.conn_new 7 (LoginThrottle.Throttle.V4 7) (LoginPassword.Password.mkHash [1] [2]) None None) LoginRun.toy_shared []) toy_server ∅.

Definition toy_options : OptionMessage := mkOptions 0 0 2 0 0 0 0 0 2 None 0 0 0 0 0 0 0.
Definition toy_remote : LoginRequest :=
  mkLogin "me" [49; 50; 1; 2] "peer" "" "" "1.4.0" 0 [] "" "" (Some toy_options) false None.

Lemma toy_starts : starts toy_session.
Proof. do 9 eexists. split; [reflexivity|]. split; [apply (proj1 (new_server_free _ _ _))|]. intros n. apply (proj2 (new_server_free _ _ _)). Qed.

Definition no_zstd : list Z -> option (list Z) := fun _ => None.
Definition step1 (s : Sess) (ev : Event) : Sess := (@exec LoginRun.toy no_zstd ev s).2.
Definition plain : string -> string := fun _ => "".

Definition press : MouseEvent := mkMouse 9 10 20 [].

(** A login, and a press of the mouse. *)
Definition event1 : Event := EvMessage toy_host (MLogin toy_remote).
Definition event2 : Event := EvMessage toy_host (MMouse press).
Definition toy_s1 : Sess := step1 toy_session event1.
Definition toy_s2 : Sess := step1 toy_s1 event2.
Definition toy_trace : list (Sess * Event * Sess) := [(toy_s1, event2, toy_s2); (toy_session, event1, toy_s1)].

Lemma toy_run builtin : builtin = plain -> @run LoginRun.toy no_zstd builtin toy_session toy_trace toy_s2 true.
Proof.
  intros ->. apply (@run_next LoginRun.toy no_zstd plain); [apply (@run_next LoginRun.toy no_zstd plain); [apply run_start| |]| |];
    first [by intros opt|vm_compute; reflexivity].
Qed.

Lemma effects_permitted_witness :
  (cn toy_s2).(authed_conn_type) = Some Remote /\ toy_s2.(log) = toy_s1.(log) ++ [MouseMoveTime; InputMouse press true false] /\
  Forall (fun p => let '(before, ev, now) := p in
    exists es, now.(log) = before.(log) ++ es /\
      Forall (fun e => @permitted plain (user_event ev) now e /\ ((cn now).(authorized) = true \/ before_login (user_event ev) e)) es) toy_trace.
Proof.
  split; [vm_compute; reflexivity|]. split; [vm_compute; reflexivity|].
  exact (@effects_permitted LoginRun.toy no_zstd plain toy_session toy_trace toy_s2 true toy_starts (toy_run plain eq_refl)).
Defined.

(** The same in a deployment with one-way file transfer, and an attempt to rename a file. *)
Definition one_way_builtin : string -> string := fun opt => if bool_decide (opt = ONE_WAY_FILE_TRANSFER) then "Y" else "".
Definition one_way_env : Env :=
  mkEnv 60000 0 [57] false (LoginPassword.Password.mkMachine [] None) (fun _ => "") one_way_builtin [] [] [] [] "me" (fun _ => false) false []
    false false false (fun _ => true) (fun _ _ => (None, None)) true (fun _ => None).
Definition one_way_host : Host := mkHost one_way_env (PathFs.Fs.mkFs ∅ ∅ 0 [] 0) 10 1000 (fun _ => 1) false (fun _ _ => None)
  (fun _ => true) (fun _ => None) (fun _ => []) (fun _ => None) (fun _ => None) (fun _ => None) "ts" (fun _ => Ok None) false "" (Some 0) (fun _ => "").
Definition toy_files : LoginRequest := mkLogin "me" [49; 50; 1; 2] "peer" "" "" "1.4.0" 0 [] "" "" None false (Some (UFileTransfer "/" false)).
Definition event3 : Event := EvMessage one_way_host (MLogin toy_files).
Definition event4 : Event := EvMessage one_way_host (MFileAction (Some (FaRename 5 "/a" "b"))).
Definition toy_s3 : Sess := step1 toy_session event3.
Definition toy_s4 : Sess := step1 toy_s3 event4.
Definition one_way_trace : list (Sess * Event * Sess) := [(toy_s3, event4, toy_s4); (toy_session, event3, toy_s3)].

Lemma one_way_transfer_witness :
  (cn toy_s4).(authed_conn_type) = Some FileTransfer /\
  toy_s4.(log) = toy_s3.(log) ++ [Send (OFileError 5 "one-way-file-transfer-tip" 0)] /\
  Forall (fun p => exists es, p.2.(log) = p.1.1.(log) ++ es /\ Forall one_way es) one_way_trace.
Proof.
  split; [vm_compute; reflexivity|]. split; [vm_compute; reflexivity|].
  assert (Hr : @run LoginRun.toy no_zstd one_way_builtin toy_session one_way_trace toy_s4 true).
  { apply (@run_next LoginRun.toy no_zstd one_way_builtin); [apply (@run_next LoginRun.toy no_zstd one_way_builtin); [apply run_start| |]| |];
      first [by intros opt|vm_compute; reflexivity]. }
  exact (@one_way_transfer LoginRun.toy no_zstd one_way_builtin toy_session one_way_trace toy_s4 true toy_starts Hr eq_refl).
Defined.

Lemma subscriptions_follow_permissions_witness :
  toy_s2.(ext).(services_subed) = true /\ got CLIPBOARD_NAME toy_s2 = true /\ got "monitor0" toy_s2 = true /\
  got NAME_WINDOW_FOCUS toy_s2 = false /\ (forall name, got name toy_s2 = true -> @may plain toy_s2 (class name) = true).
Proof.
  split; [vm_compute; reflexivity|]. split; [vm_compute; reflexivity|]. split; [vm_compute; reflexivity|]. split; [vm_compute; reflexivity|].
  exact (proj1 (@subscriptions_follow_permissions LoginRun.toy no_zstd plain toy_session toy_trace toy_s2 toy_starts (toy_run plain eq_refl))).
Defined.

(** ** What the code does not prevent *)

(** The user turns the keyboard permission of a waiting connection off and on: without a login it
    is subscribed to the clipboard, and what is copied is sent to it. *)
Definition waiting : Sess :=
  step1 (step1 toy_session (EvCm toy_host (DSwitchPermission "keyboard" false))) (EvCm toy_host (DSwitchPermission "keyboard" true)).

Example unauthorized_clipboard :
  (cn waiting).(authorized) = false /\ got CLIPBOARD_NAME waiting = true /\
  let copied := EvPublish toy_host CLIPBOARD_NAME POther 0 [115; 101; 99; 114; 101; 116] in
  enabled plain copied waiting /\
  (step1 waiting copied).(log) = waiting.(log) ++ [Send (OService CLIPBOARD_NAME [115; 101; 99; 114; 101; 116])].
Proof. split_and!; vm_compute; done. Qed.

(** The user takes the clipboard permission back: the session stays subscribed to the file
    clipboard, which it could not have subscribed to any more. *)
Example stale_file_clipboard :
  let s := step1 toy_s2 (EvCm toy_host (DSwitchPermission "clipboard" false)) in
  got FILE_CLIPBOARD_NAME toy_s2 = true /\ can_sub_file_clipboard_service toy_host s = false /\
  got CLIPBOARD_NAME s = false /\ got FILE_CLIPBOARD_NAME s = true.
Proof. split_and!; vm_compute; done. Qed.

End SessTheorems.
