(* ===== verification/Upload.v ===== *)
(** An upload end to end: the controlling side ([PeerFiles]), the session that takes its messages
    ([SessMessage]) and the connection manager that writes the files ([CmFs]), with the queues
    between them.

    The session's connection is in the arms of [Connection::start] that pass a command to the
    connection manager ([send_fs]) and what the manager answers to the peer
    ([ipc::Data::RawMessage]); only the parts about uploads run here. *)

From S2P Require Import Prelude PathFs FsJob FsSend FsRecv FsManage CmFs SessMsg PeerFiles LoginAdmit LoginPassword LoginState SessState SessDispatch SessMessage.
Import Names Job.

Module Upload.

(** ** From one language to the next *)

(** What the controlling side puts on the wire. *)
Definition response_of (err_text : JobErr -> string) (m : Send.Msg) : Msgs.FileResponse :=
  match m with
  | Send.MBlock b => Msgs.FrBlock b
  | Send.MDone id file_num => Msgs.FrDone id file_num
  | Send.MDigest id file_num last_modified file_size is_resume => Msgs.FrDigest id file_num file_size last_modified is_resume
  | Send.MError id err file_num => Msgs.FrError id (err_text err) file_num
  end.
Definition wire_of (err_text : JobErr -> string) (o : PeerFiles.Out) : option Msgs.Message :=
  match o with
  | PeerFiles.ToPeer a => Some (Msgs.MFileAction (Some a))
  | PeerFiles.ToPeerJob m => Some (Msgs.MFileResponse (Some (response_of err_text m)))
  | _ => None
  end.

(** The command a request of a session is, with its connection's number. *)
Definition fs_of (conn_id : Z) (c : SessState.FsCmd) : CmFs.FS :=
  match c with
  | SessState.FsReadEmptyDirs dir hidden => CmFs.ReadEmptyDirs dir hidden
  | SessState.FsReadDir dir hidden => CmFs.ReadDir dir hidden
  | SessState.FsNewWrite path id file_num files od total_size => CmFs.NewWrite path id file_num files od total_size conn_id
  | SessState.FsRemoveDir path id recursive => CmFs.RemoveDir path id recursive
  | SessState.FsRemoveFile path id file_num => CmFs.RemoveFile path id file_num
  | SessState.FsCreateDir path id => CmFs.CreateDir path id
  | SessState.FsCancelWrite id => CmFs.CancelWrite id
  | SessState.FsCancelRead id => CmFs.CancelRead id conn_id
  | SessState.FsWriteBlock b => CmFs.WriteBlock b.(b_id) b.(b_file_num) b.(b_data) b.(b_compressed)
  | SessState.FsWriteDone id file_num => CmFs.WriteDone id file_num
  | SessState.FsCheckDigest id file_num file_size last_modified is_resume =>
      CmFs.CheckDigest id file_num file_size last_modified true is_resume
  | SessState.FsWriteError id file_num err => CmFs.WriteError id file_num err
  | SessState.FsSendConfirm id r => CmFs.SendConfirm (Some (id, r))
  | SessState.FsRename id path new_name => CmFs.Rename id path new_name
  end.
Definition command_of (conn_id : Z) (e : SessState.Effect) : option CmFs.FS :=
  match e with SessState.ToFs c => Some (fs_of conn_id c) | _ => None end.

(** What the session itself answers about files. *)
Definition said_of (e : SessState.Effect) : option PeerFiles.PeerMsg :=
  match e with
  | SessState.Send (SessState.ODir id path files) => Some (PeerFiles.PDir (Manage.mkFd id path files))
  | SessState.Send (SessState.OFileError id msg file_num) => Some (PeerFiles.PError id (Bail msg) file_num)
  | _ => None
  end.

(** What the connection manager answers, as the peer reads it. *)
Definition answer_of (d : CmFs.Data) : option PeerFiles.PeerMsg :=
  match d with
  | CmFs.RawMessage m => Some
      match m with
      | CmFs.NewError id err file_num => PeerFiles.PError id err file_num
      | CmFs.NewDone id file_num => PeerFiles.PDone id file_num
      | CmFs.NewSendConfirm id file_num u => PeerFiles.PSendConfirm id (mkConfirm file_num u)
      | CmFs.NewDigest dg is_upload => PeerFiles.PDigest dg is_upload
      | CmFs.NewDir fd => PeerFiles.PDir fd
      | CmFs.NewEmptyDirs path dirs => PeerFiles.PEmptyDirs path dirs
      end
  | _ => None
  end.

(** ** The system *)

Record Net := mkNet {
  peer : PeerFiles.State;
  wire : list Msgs.Message;
  sess : SessState.Sess;
  ipc : list CmFs.FS;
  cm : CmFs.State;
  back : list PeerFiles.PeerMsg }.

(** Who moves: the user, the peer's timer or its receiver, the session, the manager. *)
Inductive Move :=
| PeerCommand (c : PeerFiles.Command)
| PeerTick (reads : list (option Z))
| PeerReceives
| SessionReceives (h : SessState.Host)
| CmReceives
| CmTick (reads : list (option Z)).

Section System.
Context {L : LoginState.Libraries}.
Context (home : string) (max_files : Z) (fuel : nat) (zstd_compress zstd_decode : list Z -> option (list Z))
  (digest_json : FileDigest -> list Z) (parse_digest : list Z -> option FileDigest) (logging : bool)
  (err_text : JobErr -> string) (env : PeerFiles.Env).

Definition peer_moves (ev : PeerFiles.Event) (back : list PeerFiles.PeerMsg) (n : Net) : Net :=
  let '(p, out) := PeerFiles.step fuel zstd_compress zstd_decode digest_json parse_digest env ev n.(peer) in
  mkNet p (n.(wire) ++ omap (wire_of err_text) out) n.(sess) n.(ipc) n.(cm) back.

Definition cm_moves (ev : CmFs.Event) (ipc : list CmFs.FS) (n : Net) : Net :=
  let '(m, out) := CmFs.step home max_files fuel zstd_compress zstd_decode digest_json parse_digest logging
                     (SessState.cid n.(sess)) n.(cm) ev in
  mkNet n.(peer) n.(wire) n.(sess) ipc m (n.(back) ++ omap answer_of out).

Definition step (n : Net) (m : Move) : Net :=
  match m with
  | PeerCommand c => peer_moves (PeerFiles.Cmd c) n.(back) n
  | PeerTick reads => peer_moves (PeerFiles.Tick reads) n.(back) n
  | PeerReceives =>
    match n.(back) with
    | [] => n
    | msg :: back => peer_moves (PeerFiles.Msg msg (mkIo true true)) back n
    end
  | SessionReceives h =>
    match n.(wire) with
    | [] => n
    | msg :: wire =>
      let '(_, s) := SessMessage.on_message h msg n.(sess) in
      let new := drop (length n.(sess).(SessState.log)) s.(SessState.log) in
      mkNet n.(peer) wire s (n.(ipc) ++ omap (command_of (SessState.cid n.(sess))) new) n.(cm) (n.(back) ++ omap said_of new)
    end
  | CmReceives =>
    match n.(ipc) with
    | [] => n
    | cmd :: ipc => cm_moves (CmFs.Command cmd (mkIo true true)) ipc n
    end
  | CmTick reads => cm_moves (CmFs.Tick reads) n.(ipc) n
  end.

Definition run (n : Net) (ms : list Move) : Net := foldl step n ms.

End System.

End Upload.
