(* ===== verification/UploadRecv.v ===== *)
(** The writing end of an upload as an abstract machine, and that the connection manager
    implements it: files are asked about, opened, filled and finished one after the other. *)

From S2P Require Import Prelude PathFs FsJob FsSafe FsSend FsTransfer FsTree FsRecv FsManage CmFs SessMsg PeerFiles LoginState SessState SessMessage Upload.
Import Path Fs PathFacts FsFacts Names Job Safe Send Sender Tree Receiver CmFs.

Module UploadRecv.

(** [AIdle k]: the first [k] files are there; [AAsked k]: and the next has been asked about;
    [AOpen k c]: and it holds [c] so far. *)
Inductive Abs := ANew | AIdle (k : nat) | AAsked (k : nat) | AOpen (k : nat) (c : list Z) | AEnd.

Definition write_block (b : FileTransferBlock) : FS := WriteBlock b.(b_id) b.(b_file_num) b.(b_data) b.(b_compressed).

Section Machine.
Context (zstd_decode : list Z -> option (list Z)).
Context (base : string) (jid : Z) (named : list (string * Z)) (ds : list (list Z)) (od : bool) (total cid : Z).

(** The file a block may go to, and what it has. *)
Inductive at_file : Abs -> nat -> list Z -> Prop :=
| at_asked k : at_file (AAsked k) k []
| at_open k c : at_file (AOpen k c) k c.

(** A command, the state after it, and what is answered.  The block that completes a file may
    leave it open or finish it. *)
Inductive astep : Abs -> FS -> Abs -> list PeerFiles.PeerMsg -> Prop :=
| a_new : astep ANew (NewWrite base jid 0 named od total cid) (AIdle 0) []
| a_ask k size t : (k < length ds)%nat ->
    astep (AIdle k) (CheckDigest jid (Z.of_nat k) size t true false) (AAsked k)
      [PeerFiles.PSendConfirm jid (mkConfirm (Z.of_nat k) (OffsetBlk 0))]
| a_block a k c b : at_file a k c -> (k < length ds)%nat -> b.(b_id) = jid -> b.(b_file_num) = Z.of_nat k ->
    astep a (write_block b) (AOpen k (c ++ payload zstd_decode b)) []
| a_last a k c b : at_file a k c -> ds !! k = Some (c ++ payload zstd_decode b) -> b.(b_id) = jid -> b.(b_file_num) = Z.of_nat k ->
    astep a (write_block b) (AIdle (S k)) []
| a_done : astep (AIdle (length ds)) (WriteDone jid (Z.of_nat (length ds))) AEnd [PeerFiles.PDone jid (Z.of_nat (length ds))].

(** A sequence of commands. *)
Inductive apath : Abs -> list FS -> Abs -> list PeerFiles.PeerMsg -> Prop :=
| path_nil a : apath a [] a []
| path_cons a cmd a1 rs1 cmds a2 rs2 : astep a cmd a1 rs1 -> apath a1 cmds a2 rs2 -> apath a (cmd :: cmds) a2 (rs1 ++ rs2).

Lemma apath_snoc a cmds a1 rs1 cmd a2 rs2 : apath a cmds a1 rs1 -> astep a1 cmd a2 rs2 -> apath a (cmds ++ [cmd]) a2 (rs1 ++ rs2).
Proof.
  induction 1 as [|b c b1 q1 cs b2 q2 H1 _ IH]; intros H2.
  - rewrite <- (app_nil_r rs2). cbn. econstructor; [exact H2|constructor].
  - cbn. rewrite <- app_assoc. econstructor; [exact H1|by apply IH].
Qed.

End Machine.

(** ** A list with one job *)

Lemma get_job_one jid j : j.(id) = jid -> get_job jid [j] = Some j.
Proof. intros H. unfold get_job, job_index. cbn. by rewrite decide_True. Qed.
Lemma put_job_one jid j j' : j.(id) = jid -> put_job jid j' [j] = [j'].
Proof. intros H. unfold put_job, job_index. cbn. by rewrite decide_True. Qed.
Lemma remove_job_one jid j : j.(id) = jid -> remove_job jid [j] = [].
Proof. intros H. unfold remove_job. cbn. by rewrite decide_True. Qed.

(** ** The connection manager implements the machine *)

Section Cm.
Context (home : string) (max_files : Z) (fuel : nat) (zstd_compress zstd_decode : list Z -> option (list Z))
  (digest_json : FileDigest -> list Z) (parse_digest : list Z -> option FileDigest) (logging : bool) (cid : Z).
Context (D base : string) (rd bq : rpath) (jid : Z) (named : list (string * Z)) (ds : list (list Z)) (od : bool) (total : Z).
(** What there is below the directory before. *)
Context (T0 : gmap rpath Entry) (fs0 : Fs).

Abbreviation fls := (to_entry <$> named).
Abbreviation cm_step := (CmFs.step home max_files fuel zstd_compress zstd_decode digest_json parse_digest logging cid).
Abbreviation astep := (astep zstd_decode base jid named ds od total cid).
Abbreviation shows := (shows D rd).
Abbreviation fits := (fits D base bq).
Abbreviation receiving := (receiving base jid fls).
Abbreviation partial := (partial D base rd bq jid fls).

Hypothesis Hshow : shows fs0 T0.
Hypothesis Hfits : fits T0 fls.
Hypothesis Hlen : length ds = length fls.
Hypothesis Hmax : zlen fls < 2 ^ 31 - 1.

(** What there is when [k] files are finished. *)
Definition after (k : nat) : gmap rpath Entry := finished bq T0 (take k fls) (take k ds).

(** The job before its file [k]: finishing what is open gives the first [k] files, and the later
    ones still fit. *)
Record before (fs : Fs) (j : TransferJob) (k : nat) : Prop := mkBefore {
  bf_job : receiving j;
  bf_shows : shows (modify_time fs j) (after k);
  bf_new : j.(data_stream) = None \/ j.(file_num) <> Z.of_nat k;
  bf_num : 0 <= j.(file_num) < 2 ^ 31;
  bf_now : exists T, shows fs T /\ fits T (drop k fls) }.

(** How the manager stands for a state of the machine. *)
Definition cm_rel (a : Abs) (m : CmFs.State) : Prop :=
  match a with
  | ANew => m = mkCm fs0 [] []
  | AIdle k | AAsked k => (k <= length ds)%nat /\ exists fs j, m = mkCm fs [j] [] /\ before fs j k
  | AOpen k c => exists fs j e, m = mkCm fs [j] [] /\ fls !! k = Some e /\ partial fs j e (after k) c /\ j.(file_num) = Z.of_nat k
  | AEnd => exists fs, m = mkCm fs [] [] /\ shows fs (after (length ds))
  end.

(** *** The job between two files *)

Lemma after_S k e d : fls !! k = Some e -> ds !! k = Some d -> after (S k) = finish bq (after k) e d.
Proof.
  intros He Hd. unfold after, finished. rewrite (take_S_r _ _ _ He), (take_S_r _ _ _ Hd), zip_with_app, foldl_app; [done|].
  rewrite !length_take. apply lookup_lt_Some in He, Hd. lia.
Qed.

(** The files still to come fit. *)
Lemma fits_after k : (k <= length ds)%nat -> fits (after k) (drop k fls).
Proof.
  induction k as [|k IH]; intros Hk; [done|]. destruct (lookup_lt_is_Some_2 ds k ltac:(lia)) as [d Hd].
  destruct (lookup_lt_is_Some_2 fls k ltac:(lia)) as [e He]. rewrite (after_S _ _ _ He Hd). specialize (IH ltac:(lia)).
  rewrite (drop_S _ _ _ He) in IH. by apply fits_finish.
Qed.

Lemma fits_at k e : fls !! k = Some e -> fits (after k) (e :: drop (S k) fls).
Proof. intros He. pose proof (lookup_lt_Some _ _ _ He) as Hk. rewrite <- (drop_S _ _ _ He). apply fits_after. lia. Qed.

Lemma zget_nat k e : fls !! k = Some e -> zget fls (Z.of_nat k) = Some e.
Proof. intros He. unfold zget. rewrite Nat2Z.id. destruct (0 <=? Z.of_nat k) eqn:E; [done|bool_to_prop; lia]. Qed.

Lemma index_range k e : fls !! k = Some e -> 0 <= Z.of_nat k < 2 ^ 31.
Proof. intros He%lookup_lt_Some. lia. Qed.

(** A complete file is as good as finished. *)
Lemma complete_before fs j e k c : fls !! k = Some e -> ds !! k = Some c -> partial fs j e (after k) c -> j.(file_num) = Z.of_nat k ->
  before fs j (S k).
Proof.
  intros He Hc Hp Hn. pose proof (index_range _ _ He) as Hi. pose proof (fits_at k e He) as Hf.
  split; [apply (pa_job _ _ _ _ _ _ _ _ _ _ _ Hp)| |right; lia|lia|].
  - rewrite (after_S _ _ _ He Hc). by eapply partial_done.
  - destruct (pa_shows _ _ _ _ _ _ _ _ _ _ _ Hp) as (t & g & Hs). eexists. split; [exact Hs|]. by apply fits_partly.
Qed.

(** The first block of a file. *)
Lemma block_first fs j k e b : before fs j k -> fls !! k = Some e -> b.(b_id) = jid -> b.(b_file_num) = Z.of_nat k ->
  exists j' fs', write zstd_decode digest_json fs j b ok_io = (Ok tt, j', fs') /\ partial fs' j' e (after k) (payload zstd_decode b) /\
    j'.(file_num) = Z.of_nat k.
Proof.
  intros [Hr Hs Hnew Hnum _] He Hb1 Hb2.
  eapply (write_first zstd_decode digest_json D base rd bq jid fls fs j (after k) e _ (Z.of_nat k) b Hr Hs Hnew Hnum);
    [by eapply index_range|by apply zget_nat|by apply fits_at|done|done].
Qed.

(** *** The commands *)

Lemma sim_block a k c b m e : at_file a k c -> b.(b_id) = jid -> b.(b_file_num) = Z.of_nat k -> cm_rel a m -> fls !! k = Some e ->
  exists j fs, cm_step m (Command (write_block b) (mkIo true true)) = (mkCm fs [j] [], []) /\
    partial fs j e (after k) (c ++ payload zstd_decode b) /\ j.(file_num) = Z.of_nat k.
Proof.
  intros Ha Hb1 Hb2 Hm He.
  assert (Hw : exists fs0 j0 j fs, m = mkCm fs0 [j0] [] /\ j0.(id) = jid /\ write zstd_decode digest_json fs0 j0 b ok_io = (Ok tt, j, fs) /\
    partial fs j e (after k) (c ++ payload zstd_decode b) /\ j.(file_num) = Z.of_nat k).
  { destruct Ha as [k|k c]; cbn in Hm.
    - destruct Hm as (_ & fs1 & j0 & -> & Hbf). destruct (block_first fs1 j0 k e b Hbf He Hb1 Hb2) as (j & fs & Hw & Hp & Hn).
      exists fs1, j0, j, fs. split_and!; try done. apply (bf_job _ _ _ Hbf).
    - destruct Hm as (fs1 & j0 & e0 & -> & He0 & Hp0 & Hn0). rewrite He in He0. injection He0 as <-.
      destruct (fits_head _ _ _ _ _ _ (fits_at k e He)) as (Ht & _).
      destruct (write_next zstd_decode digest_json D base rd bq jid fls fs1 j0 e (after k) c b Ht Hp0) as (j & fs & Hw & Hp & Hn);
        [done|congruence|rewrite Hn0; by eapply index_range|rewrite Hn0; by apply zget_nat|].
      exists fs1, j0, j, fs. split_and!; try done; [apply (pa_job _ _ _ _ _ _ _ _ _ _ _ Hp0)|congruence]. }
  destruct Hw as (fs1 & j0 & j & fs & -> & Hid & Hw & Hp & Hn). exists j, fs. split_and!; [|done|done].
  destruct b as [bi bn bd bc]. cbn in Hb1, Hb2. subst bi bn. unfold write_block. cbn [CmFs.step CmFs.handle_fs b_id b_file_num b_data b_compressed write_jobs cm_fs read_jobs].
  rewrite get_job_one by done. change (mkIo true true) with ok_io. rewrite Hw, put_job_one by done. done.
Qed.

(** A command the machine takes is carried out as it says, and answered so. *)
Lemma cm_sim a cmd a' rs m : cm_rel a m -> astep a cmd a' rs ->
  exists m' out, cm_step m (Command cmd (mkIo true true)) = (m', out) /\ cm_rel a' m' /\ omap Upload.answer_of out = rs.
Proof.
  intros Hm Hst. destruct Hst as [|k size t Hk|a k c b Ha Hk Hb1 Hb2|a k c b Ha Hd Hb1 Hb2|].
  - cbn in Hm. subst m. cbn [CmFs.step CmFs.handle_fs cm_fs]. unfold new_write_job.
    destruct (fits_accepted D base bq rd fs0 T0 (new_write jid Generic (FilePath base) 0 od) fls Hshow Hfits eq_refl) as [j0 Hj0].
    rewrite Hj0. cbn [rbind]. eexists _, _. split; [done|]. split; [|done]. split; [lia|]. eexists _, _. split; [done|].
    destruct (fresh_job base jid fls fs0 od fls 0 j0 Hj0 eq_refl) as (Hr & Hds & Hn). set (j := with_meta _ _).
    assert (Hrj : receiving j) by (by destruct Hr; split).
    assert (Hmod : modify_time fs0 j = fs0) by (by eapply fresh_nothing).
    split; [done|by rewrite Hmod|by left|change (file_num j) with (file_num j0); lia|]. by exists T0.
  - cbn in Hm. destruct Hm as (Hk2 & fs & j & -> & Hb). cbn [CmFs.step CmFs.handle_fs write_jobs cm_fs read_jobs].
    pose proof (bf_job _ _ _ Hb) as Hr. rewrite get_job_one by apply Hr.
    destruct (fls !! k) as [e|] eqn:He; [|apply lookup_ge_None in He; lia].
    destruct (bf_now _ _ _ Hb) as (T & HsT & HT). rewrite (drop_S _ _ _ He) in HT. destruct (fits_head _ _ _ _ _ _ HT) as (Ht & Hway & Hfree & _).
    assert (Hck : check_digest parse_digest fs j jid (Z.of_nat k) size t true false =
      (set_digest j size t, [RawMessage (NewSendConfirm jid (Z.of_nat k) (OffsetBlk 0))])).
    { unfold check_digest. rewrite (rv_files _ _ _ _ Hr), as_usize_small by (by eapply index_range).
      rewrite (zget_nat _ _ He), (rv_source _ _ _ _ Hr). unfold is_write_need_confirmation. cbn [andb].
      destruct (paths_at D base bq e Ht) as (q & x & E0 & Eq & _ & _ & A0 & _). rewrite Eq in Hway. rewrite E0 in Hfree.
      rewrite (exists_at D rd fs T _ _ _ HsT A0 Hway), Hfree.
      rewrite bool_decide_eq_false_2 by (by intros [? ?]). done. }
    rewrite Hck, put_job_one by apply Hr. eexists _, _. split; [done|]. split; [|done]. split; [lia|].
    eexists _, _. split; [done|]. destruct Hb as [[] Hs Hnew Hnum Hnow]. by split.
  - destruct (fls !! k) as [e|] eqn:He; [|apply lookup_ge_None in He; lia].
    destruct (sim_block a k c b m e Ha Hb1 Hb2 Hm He) as (j & fs & Hs & Hp & Hn). eexists _, _. split; [exact Hs|]. split; [|done].
    by exists fs, j, e.
  - destruct (fls !! k) as [e|] eqn:He; [|apply lookup_ge_None in He; apply lookup_lt_Some in Hd; lia].
    destruct (sim_block a k c b m e Ha Hb1 Hb2 Hm He) as (j & fs & Hs & Hp & Hn). eexists _, _. split; [exact Hs|]. split; [|done].
    split; [apply lookup_lt_Some in Hd; lia|]. exists fs, j. split; [done|]. by eapply complete_before.
  - cbn in Hm. destruct Hm as (_ & fs & j & -> & Hb). cbn [CmFs.step CmFs.handle_fs write_jobs cm_fs read_jobs].
    pose proof (bf_job _ _ _ Hb) as Hr. rewrite get_job_one, remove_job_one by apply Hr.
    eexists _, _. split; [done|]. split; [eexists; split; [done|apply (bf_shows _ _ _ Hb)]|]. unfold log. by destruct logging.
Qed.

End Cm.

End UploadRecv.
