(* ===== verification/UploadPeer.v ===== *)
(** The reading end of an upload: the stages of its job, and what each call of the timer and each
    answer makes of them. *)

From S2P Require Import Prelude PathFs FsJob FsSafe FsSend FsTransfer FsRecv FsConfirm FsManage CmFs SessMsg PeerFiles Upload UploadRecv.
Import Path Fs PathFacts FsFacts Names Job Safe Send Sender Receiver Confirming PeerFiles.

Module UploadPeer.

(** Before file [k]; its digest is sent and not answered; its contents are sent but for [rest];
    the end is announced. *)
Inductive Stage := SIdle (k : nat) | SWait (k : nat) | SSend (k : nat) (rest : list Z) | SEnd.

Lemma send_neq (k : nat) (rest rest' : list Z) : rest <> rest' -> SSend k rest <> SSend k rest'.
Proof. congruence. Qed.

Lemma zdrop_length (z : Z) (rest : list Z) : (length (zdrop BUF_SIZE (z :: rest)) <= length rest)%nat.
Proof. unfold zdrop. rewrite length_drop. pose proof zlen_buf_pos. cbn [length]. lia. Qed.
Lemma zdrop_shorter (z : Z) (rest : list Z) : zdrop BUF_SIZE (z :: rest) <> z :: rest.
Proof. intros E%(f_equal length). pose proof (zdrop_length z rest). cbn [length] in E. lia. Qed.

Section Peer.
Context (fuel : nat) (zstd_compress zstd_decode : list Z -> option (list Z)) (digest_json : FileDigest -> list Z)
  (parse_digest : list Z -> option FileDigest) (env : Env).
Context (fs : Fs) (base : string) (jid : Z) (fls : list FileEntry) (ds : list (list Z)).

Abbreviation peer_step := (PeerFiles.step fuel zstd_compress zstd_decode digest_json parse_digest env).

(** The file opens at its start, with these contents and a time that can be sent. *)
Definition readable (e : FileEntry) (d : list Z) : Prop :=
  exists h x, open_read fs (job_join base e.(name)) = Ok h /\ h.(h_mode) = MRead /\ h.(h_pos) = 0 /\
    fs.(inodes) !! h.(h_ino) = Some x /\ x.(i_data) = d /\ 0 <= x.(i_mtime).

Hypothesis Hread : Forall2 readable fls ds.
Hypothesis Hmax : zlen fls < 2 ^ 31 - 1.

Record sending (j : TransferJob) (k : nat) : Prop := mkSending {
  sd_source : j.(data_source) = FilePath base;
  sd_type : j.(type) = Generic;
  sd_id : j.(id) = jid;
  sd_files : j.(files) = fls;
  sd_last : j.(is_last_job) = false;
  sd_eod : j.(enable_overwrite_detection) = true;
  sd_skip : j.(file_skipped) = false;
  sd_resume : j.(is_resume) = false;
  sd_num : j.(file_num) = Z.of_nat k }.

(** An open file, read up to [rest]. *)
Definition at_rest (j : TransferJob) (rest : list Z) : Prop :=
  exists h, j.(data_stream) = Some (FileStream h) /\ h.(h_mode) = MRead /\ 0 <= h.(h_pos) /\ remaining fs (FileStream h) = rest.

Definition job_stage (st : Stage) (jobs : list TransferJob) : Prop :=
  match st with
  | SIdle k => exists j, jobs = [j] /\ sending j k /\ (k <= length ds)%nat /\ j.(data_stream) = None /\
      j.(file_confirmed) = false /\ j.(file_is_waiting) = false
  | SWait k => exists j d, jobs = [j] /\ sending j k /\ ds !! k = Some d /\ at_rest j d /\
      j.(file_confirmed) = false /\ j.(file_is_waiting) = true
  | SSend k rest => exists j, jobs = [j] /\ sending j k /\ (k < length ds)%nat /\ at_rest j rest /\ j.(file_confirmed) = true
  | SEnd => jobs = []
  end.

Definition peer_rel (st : Stage) (p : State) : Prop :=
  p.(pf_fs) = fs /\ p.(write_jobs) = [] /\ p.(remove_jobs) = ∅ /\ job_stage st p.(read_jobs).

Lemma lengths : length fls = length ds.
Proof. by eapply Forall2_length. Qed.

Lemma cur_at j k : sending j k -> (k <= length ds)%nat -> cur_file j = fls !! k.
Proof.
  intros Hs Hk. pose proof lengths as Hl. unfold cur_file, zget. rewrite (sd_num _ _ Hs), (sd_files _ _ Hs), as_usize_small by lia.
  rewrite Nat2Z.id. destruct (0 <=? Z.of_nat k) eqn:E; [done|bool_to_prop; lia].
Qed.

(** *** The timer *)

(** Before a file: it is opened, and its digest is sent. *)
Lemma idle_call j k e d reads : sending j k -> fls !! k = Some e -> readable e d -> j.(data_stream) = None ->
  j.(file_confirmed) = false -> j.(file_is_waiting) = false ->
  exists j' size t, handle_read_jobs zstd_compress fs [j] reads = ([j'], [MDigest jid (Z.of_nat k) t size false]) /\
    sending j' k /\ at_rest j' d /\ j'.(file_confirmed) = false /\ j'.(file_is_waiting) = true.
Proof.
  intros Hs He (h & x & Ho & Hm & Hp & Hi & Hd & Ht) Hn Hc Hw.
  assert (Hk : (k <= length ds)%nat) by (rewrite <- lengths; apply lookup_lt_Some in He; lia).
  pose proof (cur_at _ _ Hs Hk) as Hcur. rewrite He in Hcur. destruct Hs as [S1 S2 S3 S4 S5 S6 S7 S8 S9].
  set (j1 := with_flags (with_num_stream j (file_num j) (Some (FileStream h))) false (file_skipped j) false).
  exists (set_file_is_waiting j1 true), (zlen x.(i_data)), x.(i_mtime).
  assert (Hopen : open_data_stream fs j = (Ok false, j1)) by (unfold open_data_stream; by rewrite S1, Hcur, Hn, Ho).
  assert (Hinit : init_data_stream fs j = (Ok [MDigest jid (Z.of_nat k) x.(i_mtime) (zlen x.(i_data)) false], set_file_is_waiting j1 true)).
  { unfold init_data_stream. rewrite Hopen. unfold must_ask. cbn [type enable_overwrite_detection file_confirmed file_is_waiting j1 with_flags with_num_stream].
    rewrite S2, S6. cbn [is_generic andb negb]. unfold send_current_digest, get_current_digest. cbn [data_stream j1 with_flags with_num_stream]. rewrite Hi.
    destruct (_ <? 0) eqn:E; [bool_to_prop; lia|]. cbn. by rewrite S3, S8, S9. }
  split_and!.
  - unfold handle_read_jobs. cbn [init_jobs]. rewrite S5, Hinit. cbn [read_first app]. change (is_last_job (set_file_is_waiting j1 true)) with (is_last_job j).
    rewrite S5. unfold read. change (type (set_file_is_waiting j1 true)) with (type j).
    change (enable_overwrite_detection (set_file_is_waiting j1 true)) with (enable_overwrite_detection j). rewrite S2, S6. cbn. unfold job_completed. cbn. by rewrite S6.
  - by split.
  - exists h. split_and!; [done|done|lia|]. cbn. unfold inode_data. by rewrite Hi, Hp, Hd.
  - done.
  - done.
Qed.

(** After the last file the job ends. *)
Lemma idle_end j reads : sending j (length ds) -> j.(file_confirmed) = false -> j.(file_is_waiting) = false ->
  handle_read_jobs zstd_compress fs [j] reads = ([], [MDone jid (Z.of_nat (length ds))]).
Proof.
  intros Hs Hc Hw. pose proof (cur_at _ _ Hs (le_n _)) as Hcur. rewrite (lookup_ge_None_2 fls) in Hcur by (rewrite lengths; done).
  destruct Hs as [S1 S2 S3 S4 S5 S6 S7 S8 S9].
  unfold handle_read_jobs. cbn [init_jobs]. rewrite S5. unfold init_data_stream, open_data_stream. rewrite S1, Hcur.
  set (j1 := with_num_stream j (file_num j) None). cbn [read_first app]. change (is_last_job j1) with (is_last_job j). rewrite S5.
  unfold read. change (type j1) with (type j). change (enable_overwrite_detection j1) with (enable_overwrite_detection j).
  change (file_confirmed j1) with (file_confirmed j). rewrite S2, S6, Hc. cbn [is_generic andb negb].
  unfold job_completed, job_error, job_skipped. cbn. rewrite S6, Hc, Hw, S7. cbn. unfold remove_job. cbn. rewrite decide_True by done.
  by rewrite S3, S9.
Qed.

(** A file that may be sent: the next piece, or its end. *)
Lemma send_call j k e rest reads : sending j k -> fls !! k = Some e -> at_rest j rest -> j.(file_confirmed) = true ->
  Forall (fun o => o <> None) reads ->
  exists j' b, handle_read_jobs zstd_compress fs [j] reads = ([j'], [MBlock b]) /\
    if is_nil rest then
      b = end_block jid (Z.of_nat k) /\ sending j' (S k) /\ j'.(data_stream) = None /\ j'.(file_confirmed) = false /\ j'.(file_is_waiting) = false
    else
      b = data_block zstd_compress jid (Z.of_nat k) (current_name j base e) (ztake BUF_SIZE rest) /\
      sending j' k /\ at_rest j' (zdrop BUF_SIZE rest) /\ j'.(file_confirmed) = true.
Proof.
  intros Hs He (h & Hh & Hm & Hp & Hrem) Hc Hreads.
  assert (Hk : (k < length ds)%nat) by (rewrite <- lengths; by apply lookup_lt_Some in He).
  pose proof (cur_at _ _ Hs ltac:(lia)) as Hcur. rewrite He in Hcur. pose proof Hs as [S1 S2 S3 S4 S5 S6 S7 S8 S9].
  assert (Hinit : init_jobs fs [j] = ([j], [])).
  { cbn [init_jobs]. rewrite S5. unfold init_data_stream, open_data_stream. rewrite S1, Hcur, Hh. unfold must_ask. rewrite Hc. cbn [negb].
    by rewrite andb_false_r. }
  destruct (read_block fs (FileStream h) reads (conj Hm Hp) Hreads) as (ds2 & Hloop & Hr2 & Hm2).
  pose proof Hloop as Hfile. apply read_loop_file in Hfile as [h2 Hh2]. cbn in Hh2. subst ds2.
  assert (Hread1 : exists j' b, read zstd_compress fs j reads = (Ok (Some b), j') /\
    if is_nil (ztake BUF_SIZE rest) then b = end_block jid (Z.of_nat k) /\ j' = advance (with_num_stream j (file_num j) (Some (FileStream h2))) None
    else b = data_block zstd_compress jid (Z.of_nat k) (current_name j base e) (ztake BUF_SIZE rest) /\
      exists a c, j' = with_counts (with_num_stream j (file_num j) (Some (FileStream h2))) a c).
  { unfold read. rewrite Hc, andb_false_r, S1, Hcur, Hh, Hloop, Hrem.
    destruct (is_nil (ztake BUF_SIZE rest)) eqn:En; cbn [with_num_stream data_source]; rewrite S1; cbn [is_file_path negb andb].
    - eexists _, _. split; [done|]. split; [|done]. unfold end_block. cbn [id with_num_stream]. by rewrite S3, S9.
    - unfold data_block, encode. cbn [id with_num_stream].
      destruct (negb (is_compressed_file _) && _); (eexists _, _; split; [done|]; cbn; rewrite S3, S9; split; [done|]; by eexists _, _). }
  destruct Hread1 as (j' & b & Hread1 & Hcase). exists j', b. split.
  - unfold handle_read_jobs. rewrite Hinit. cbn [read_first]. by rewrite S5, Hread1.
  - rewrite is_nil_ztake in Hcase by apply zlen_buf_pos. pose proof lengths as Hl. destruct (is_nil rest) eqn:En.
    + destruct Hcase as [-> ->]. split_and!; try done. split; try done. cbn. rewrite S9. unfold swrap. rewrite Z.mod_small; lia.
    + destruct Hcase as [-> (a & c & ->)]. split_and!; try done. exists h2. cbn [data_stream with_counts with_num_stream].
      split_and!; [done|apply Hm2|apply Hm2|]. by rewrite Hr2, Hrem.
Qed.

(** An unanswered digest keeps the timer silent. *)
Lemma wait_call j k rest reads : sending j k -> (k < length ds)%nat -> at_rest j rest -> j.(file_confirmed) = false -> j.(file_is_waiting) = true ->
  handle_read_jobs zstd_compress fs [j] reads = ([j], []).
Proof.
  intros Hs Hk (h & Hh & _) Hc Hw. pose proof (cur_at _ _ Hs ltac:(lia)) as Hcur.
  destruct (fls !! k) as [e|] eqn:He; [|apply lookup_ge_None in He; rewrite lengths in He; lia].
  eapply (waiting_silent zstd_compress fs base j e); [|exact Hh|done]. by destruct Hs; split.
Qed.

(** What a call of the timer sends, and the stage after it. *)
Inductive ticks : Stage -> list Send.Msg -> Stage -> Prop :=
| tick_ask k t size : (k < length ds)%nat -> ticks (SIdle k) [MDigest jid (Z.of_nat k) t size false] (SWait k)
| tick_wait k : ticks (SWait k) [] (SWait k)
| tick_data k rest name : rest <> [] -> (k < length ds)%nat ->
    ticks (SSend k rest) [MBlock (data_block zstd_compress jid (Z.of_nat k) name (ztake BUF_SIZE rest))] (SSend k (zdrop BUF_SIZE rest))
| tick_last k : (k < length ds)%nat -> ticks (SSend k []) [MBlock (end_block jid (Z.of_nat k))] (SIdle (S k))
| tick_done : ticks (SIdle (length ds)) [MDone jid (Z.of_nat (length ds))] SEnd
| tick_end : ticks SEnd [] SEnd.

Lemma with_read_same p : with_read (read_jobs p) p = p.
Proof. by destruct p. Qed.

Lemma peer_tick st p reads : peer_rel st p -> Forall (fun o => o <> None) reads ->
  exists p' out st', peer_step (Tick reads) p = (p', ToPeerJob <$> out) /\ ticks st out st' /\ peer_rel st' p' /\ (st' = st -> p' = p).
Proof.
  intros (Hf & Hw & Hr & Hj) Hreads. cbn [PeerFiles.step]. unfold tick. rewrite Hf. pose proof lengths as Hl.
  assert (Hrel : forall st' jobs, job_stage st' jobs -> peer_rel st' (with_read jobs p)) by (intros; by split_and!).
  destruct st as [k|k|k rest|]; cbn in Hj.
  - destruct Hj as (j & -> & Hs & Hk & Hd & Hc & Hwt). cbn [is_nil]. destruct (decide (k = length ds)) as [->|Hne].
    + rewrite (idle_end j reads Hs Hc Hwt). eexists _, [MDone jid _], SEnd. split_and!; [done|constructor|by apply Hrel|done].
    + destruct (fls !! k) as [e|] eqn:He; [|apply lookup_ge_None in He; lia]. destruct (Forall2_lookup_l _ _ _ _ _ Hread He) as (d & Hdk & Hrd).
      destruct (idle_call j k e d reads Hs He Hrd Hd Hc Hwt) as (j' & size & t & -> & Hs' & Ha & Hc' & Hw').
      eexists _, [MDigest _ _ _ _ _], (SWait k). split_and!; [done|constructor; lia| |done]. apply Hrel. by exists j', d.
  - destruct Hj as (j & d & Hjobs & Hs & Hd & Ha & Hc & Hwt). pose proof (lookup_lt_Some _ _ _ Hd) as Hk. rewrite Hjobs. cbn [is_nil].
    rewrite (wait_call j k d reads Hs Hk Ha Hc Hwt). rewrite <- Hjobs, with_read_same. exists p, [], (SWait k).
    split_and!; [done|constructor| |done]. split_and!; try done. by exists j, d.
  - destruct Hj as (j & -> & Hs & Hk & Ha & Hc). cbn [is_nil]. destruct (fls !! k) as [e|] eqn:He; [|apply lookup_ge_None in He; lia].
    destruct (send_call j k e rest reads Hs He Ha Hc Hreads) as (j' & b & -> & Hcase). destruct rest as [|z rest].
    + destruct Hcase as (-> & Hs' & Hd' & Hc' & Hw'). eexists _, [MBlock _], (SIdle (S k)). split_and!; [done|by constructor| |done].
      apply Hrel. exists j'. split_and!; [done|done|lia|done..].
    + destruct Hcase as (-> & Hs' & Ha' & Hc'). eexists _, [MBlock _], (SSend k _). split_and!; [done|by constructor| |].
      * apply Hrel. exists j'. by split_and!.
      * intros E. exfalso. revert E. apply send_neq, zdrop_shorter.
  - rewrite Hj. cbn [is_nil]. exists p, [], SEnd. split_and!; [done|constructor| |done]. by split_and!.
Qed.

(** *** The answers *)

Lemma peer_confirm k p : peer_rel (SWait k) p ->
  exists p' d, ds !! k = Some d /\ peer_step (PeerFiles.Msg (PSendConfirm jid (mkConfirm (Z.of_nat k) (OffsetBlk 0))) (mkIo true true)) p = (p', []) /\
    peer_rel (SSend k d) p'.
Proof.
  intros (Hf & Hw & Hr & j & d & Hj & Hs & Hd & Ha & Hc & Hwt). cbn [PeerFiles.step handle_msg]. unfold on_send_confirm. rewrite Hj.
  rewrite (UploadRecv.get_job_one jid j (sd_id _ _ Hs)). unfold confirm. cbn [c_file_num c_union]. rewrite (sd_num _ _ Hs), Z.eqb_refl. cbn [negb].
  change (0 <? 0) with false. cbv iota. rewrite (UploadRecv.put_job_one jid j _ (sd_id _ _ Hs)). eexists _, d. split_and!; [done|done|].
  split_and!; try done. eexists. split_and!; [done| |by apply lookup_lt_Some in Hd|done|done]. by destruct Hs; split.
Qed.

Lemma peer_done p num : peer_rel SEnd p ->
  exists out, peer_step (PeerFiles.Msg (PDone jid num) (mkIo true true)) p = (p, out) /\ forall err_text, omap (Upload.wire_of err_text) out = [].
Proof.
  intros (Hf & Hw & Hr & Hj). cbn [PeerFiles.step handle_msg]. unfold on_done. rewrite Hw. cbn [get_job job_index list_find fmap option_fmap option_map].
  unfold handle_job_status. rewrite Hr, lookup_empty. by eexists.
Qed.

End Peer.

End UploadPeer.
