(* ===== verification/UploadTheorems.v ===== *)
(** An upload arrives, whatever the order in which the parts move. *)

From S2P Require Import Prelude PathFs FsJob FsSafe FsSend FsTransfer FsTree FsRecv FsWalk FsManage CmFs SessMsg PeerFiles LoginState LoginRun.
From S2P Require Import SessState SessFlow SessDispatch SessMessage SessRun SessTheorems Upload UploadRecv UploadPeer.
Import Path Fs PathFacts FsFacts Names Job Safe Send Sender Tree Receiver CmFs Upload UploadRecv UploadPeer.

Module UploadTheorems.

(** ** The session in the middle *)

(** An authorized file-transfer session. *)
Record ready (s : SessState.Sess) : Prop := mkReady {
  rs_auth : (SessState.cn s).(LoginState.authorized) = true;
  rs_type : (SessState.cn s).(LoginState.authed_conn_type) = Some Scope.FileTransfer;
  rs_file : is_Some (SessState.cn s).(LoginState.file_transfer);
  rs_socket : (SessState.cn s).(LoginState.port_forward_socket) = false }.

(** The command a message of an upload becomes. *)
Definition expected (cid : Z) (od : bool) (m : Msgs.Message) : option FS :=
  match m with
  | Msgs.MFileAction (Some (Msgs.FaReceive id path fl file_num total)) =>
      Some (NewWrite path id file_num ((fun e => (e.(name), e.(modified_time))) <$> fl) od total cid)
  | Msgs.MFileResponse (Some (Msgs.FrBlock b)) => Some (write_block b)
  | Msgs.MFileResponse (Some (Msgs.FrDone id file_num)) => Some (WriteDone id file_num)
  | Msgs.MFileResponse (Some (Msgs.FrDigest id file_num size t is_resume)) => Some (CheckDigest id file_num size t true is_resume)
  | _ => None
  end.

Section Session.
Context {L : LoginState.Libraries}.

(** The session asks for exactly that command, says nothing itself, and stays as it is. *)
Lemma session_step h m s cmd : ready s -> SessFlow.is_on h SessFlow.ONE_WAY_FILE_TRANSFER = false ->
  expected (SessState.cid s) (SessDispatch.can_enable_overwrite_detection s) m = Some cmd ->
  let s' := (SessMessage.on_message h m s).2 in
  let new := drop (length s.(SessState.log)) s'.(SessState.log) in
  s'.(SessState.login) = s.(SessState.login) /\ omap (command_of (SessState.cid s)) new = [cmd] /\ omap said_of new = [].
Proof.
  intros [Ha Ht Hf Hp] Hw He. unfold SessMessage.on_message.
  destruct m; try done.
  - rewrite Ha, Ht. change (Scope.authorized_scope_violation false _ _) with (@None string). cbv iota.
    unfold SessMessage.handle_message. rewrite Ha, Hp. cbn [SessMessage.session_message].
    destruct fa as [fa|]; [|done]. destruct fa; try done. cbn in He. injection He as <-.
    unfold SessDispatch.file_action. rewrite bool_decide_eq_true_2 by done. cbn [orb negb]. rewrite Hw. cbn.
    rewrite <- app_assoc, drop_app_length. done.
  - rewrite Ha, Ht. change (Scope.authorized_scope_violation false _ _) with (@None string). cbv iota.
    unfold SessMessage.handle_message. rewrite Ha, Hp. cbn [SessMessage.session_message snd].
    destruct fr as [[]|]; try done; cbn in He; injection He as <-; cbn; by rewrite drop_app_length.
Qed.

Lemma ready_same s s' : s'.(SessState.login) = s.(SessState.login) -> ready s -> ready s'.
Proof. intros E [A B C D]. unfold SessState.cn in *. split; unfold SessState.cn; by rewrite E. Qed.

End Session.

(** ** The whole system *)

Section System.
Context {L : LoginState.Libraries}.
Context (home : string) (max_files : Z) (fuel : nat) (zstd_compress zstd_decode : list Z -> option (list Z))
  (digest_json : FileDigest -> list Z) (parse_digest : list Z -> option FileDigest) (logging : bool)
  (err_text : JobErr -> string) (env : PeerFiles.Env).
(** Both disks, the two directories, the files and their contents, and the session. *)
Context (fs_s fs_r : Fs) (base_s D base_r : string) (rd bq : rpath) (jid : Z) (fls : list FileEntry) (ds : list (list Z)) (total : Z)
  (T0 : gmap rpath Entry) (s0 : SessState.Sess).

Abbreviation net_step := (Upload.step home max_files fuel zstd_compress zstd_decode digest_json parse_digest logging err_text env).
Abbreviation cid := (SessState.cid s0).
Abbreviation od := (SessDispatch.can_enable_overwrite_detection s0).
Definition named : list (string * Z) := (fun e => (e.(name), e.(modified_time))) <$> fls.
Abbreviation astep := (astep zstd_decode base_r jid named ds od total cid).
Abbreviation apath := (apath zstd_decode base_r jid named ds od total cid).
Abbreviation cm_rel := (cm_rel D base_r rd bq jid named ds T0 fs_r).
Abbreviation peer_rel := (peer_rel fs_s base_s jid fls ds).
Abbreviation ticks := (ticks zstd_compress jid ds).

Hypothesis zstd_ok : forall c, zlen c <= BUF_SIZE -> exists z, zstd_compress c = Some z /\ zstd_decode z = Some c.
Hypothesis Hready : ready s0.
Hypothesis Hread : Forall2 (readable fs_s base_s) fls ds.
Hypothesis Hmax : zlen fls < 2 ^ 31 - 1.
Hypothesis Hshow : shows D rd fs_r T0.
Hypothesis Hfits : fits D base_r bq T0 fls.

(** What goes over the wire names the same files. *)
Lemma named_names {A} (f : string -> A) : (fun e => f e.(name)) <$> (to_entry <$> named) = (fun e => f e.(name)) <$> fls.
Proof. unfold named. rewrite <- !list_fmap_compose. by apply list_fmap_ext. Qed.

Lemma named_trio (bq0 : rpath) : trio bq0 <$> (to_entry <$> named) = trio bq0 <$> fls.
Proof. apply (named_names (fun x => trio bq0 (mkEntry Dir x false 0 0))). Qed.

Lemma named_fits : fits D base_r bq T0 (to_entry <$> named).
Proof.
  destruct Hfits as [H1 H2 H3 H4 H5]. split; rewrite ?named_trio; try done.
  all: unfold named; rewrite !Forall_fmap; done.
Qed.

(** *** The sender follows the machine *)

(** The stage of the sender, and the state of the machine after everything it has sent. *)
Inductive stage_abs : Stage -> Abs -> Prop :=
| sa_idle k : stage_abs (SIdle k) (AIdle k)
| sa_wait k : stage_abs (SWait k) (AAsked k)
| sa_send k c rest a : at_file a k c -> ds !! k = Some (c ++ rest) -> stage_abs (SSend k rest) a
| sa_end : stage_abs SEnd AEnd.

(** The answers on their way to it. *)
Inductive awaited : Stage -> list PeerFiles.PeerMsg -> Prop :=
| aw_idle k : awaited (SIdle k) []
| aw_wait k : awaited (SWait k) [PeerFiles.PSendConfirm jid (mkConfirm (Z.of_nat k) (OffsetBlk 0))]
| aw_send k rest : awaited (SSend k rest) []
| aw_done : awaited SEnd [PeerFiles.PDone jid (Z.of_nat (length ds))]
| aw_end : awaited SEnd [].

Lemma payload_end i : payload zstd_decode (end_block jid i) = [].
Proof. done. Qed.

Lemma tick_astep st out st' a rs : ticks st out st' -> stage_abs st a -> awaited st rs ->
  (out = [] /\ st' = st) \/
  exists msg cmd a' rs', out = [msg] /\ expected cid od (Msgs.MFileResponse (Some (response_of err_text msg))) = Some cmd /\
    astep a cmd a' rs' /\ stage_abs st' a' /\ awaited st' (rs ++ rs').
Proof.
  intros Ht Ha Hw. destruct Ht as [k t size Hk|k|k rest nm Hne Hk|k Hk| |]; [right|by left|right|right|right|by left].
  - inversion Ha; subst. inversion Hw; subst. eexists _, _, _, _. split_and!; [done|done|by constructor|constructor|constructor].
  - inversion Ha as [| |? c ? ? Hat Hd|]; subst. inversion Hw; subst. set (b := data_block zstd_compress jid (Z.of_nat k) nm (ztake BUF_SIZE rest)).
    assert (Hpl : payload zstd_decode b = ztake BUF_SIZE rest).
    { apply payload_data_block; [done|]. unfold ztake. rewrite length_take. pose proof zlen_buf_pos. lia. }
    eexists _, _, _, _. split_and!; [done|done|eapply (a_block _ _ _ _ _ _ _ _ _ k c b); done| |constructor].
    rewrite Hpl. econstructor; [constructor|]. rewrite <- app_assoc. unfold ztake, zdrop. by rewrite take_drop.
  - inversion Ha as [| |? c ? ? Hat Hd|]; subst. inversion Hw; subst. eexists _, _, _, _.
    split_and!; [done|done|eapply (a_last _ _ _ _ _ _ _ _ _ k c (end_block jid (Z.of_nat k))); [done|by rewrite payload_end|done|done]|constructor|constructor].
  - inversion Ha; subst. inversion Hw; subst. eexists _, _, _, _. split_and!; [done|done|constructor|constructor|constructor].
Qed.

(** *** The invariant *)

Record inv (st : Stage) (n : Net) : Prop := mkInv {
  iv_login : n.(sess).(SessState.login) = s0.(SessState.login);
  iv_peer : peer_rel st n.(peer);
  iv_parts : exists a_cm a_end cmds rs, cm_rel a_cm n.(cm) /\ Forall2 (fun m c => expected cid od m = Some c) n.(wire) cmds /\
    apath a_cm (n.(ipc) ++ cmds) a_end rs /\ stage_abs st a_end /\ awaited st (n.(back) ++ rs) }.

(** What is left to do: four for each message still to be sent, three on the wire, two in the
    manager's queue, one on the way back. *)
Fixpoint left_from (l : list (list Z)) : nat := match l with [] => 1 | d :: l => length d + 2 + left_from l end.
Definition left (st : Stage) : nat :=
  match st with
  | SIdle k => left_from (drop k ds)
  | SWait k => length (default [] (ds !! k)) + 1 + left_from (drop (S k) ds)
  | SSend k rest => length rest + 1 + left_from (drop (S k) ds)
  | SEnd => 0
  end.
Definition queued (n : Net) : nat := 3 * length n.(wire) + 2 * length n.(ipc) + length n.(back).

Lemma left_ticks st msg st' : ticks st [msg] st' -> (left st' < left st)%nat.
Proof.
  intros Ht. inversion Ht as [k t size Hk| |k rest nm Hne Hk|k Hk| |]; subst; cbn [left].
  - destruct (lookup_lt_is_Some_2 ds k Hk) as [d Hd]. rewrite (drop_S _ _ _ Hd), Hd. cbn. lia.
  - destruct rest as [|z rest]; [done|]. pose proof (zdrop_length z rest). cbn [length]. lia.
  - cbn. lia.
  - rewrite drop_all. cbn. lia.
Qed.

Definition measure (st : Stage) (n : Net) : nat := 4 * left st + queued n.

(** A move: nothing happens, or there is less to do. *)
Definition advances (st : Stage) (n n' : Net) : Prop :=
  n' = n \/ exists st', inv st' n' /\ (measure st' n' < measure st n)%nat.

(** Moves of an upload: no other command of the user, reads that succeed, and no setting that
    forbids files to come in. *)
Definition goes (m : Move) : Prop :=
  match m with
  | PeerCommand _ => False
  | PeerTick reads | CmTick reads => Forall (fun o => o <> None) reads
  | SessionReceives h => SessFlow.is_on h SessFlow.ONE_WAY_FILE_TRANSFER = false
  | _ => True
  end.

Lemma tick_advances st n reads : inv st n -> Forall (fun o => o <> None) reads -> advances st n (net_step n (PeerTick reads)).
Proof.
  intros [Hl Hp (a & a' & cmds & rs & Hc & Hw & Hpa & Hsa & Haw)] Hreads.
  destruct (peer_tick fuel zstd_compress zstd_decode digest_json parse_digest env fs_s base_s jid fls ds Hread Hmax st (peer n) reads Hp Hreads)
    as (p' & out & st' & E & Ht & Hp' & Hsame).
  cbn [Upload.step]. unfold peer_moves. rewrite E.
  destruct (tick_astep st out st' a' _ Ht Hsa Haw) as [[-> ->]|(msg & cmd & a2 & rs2 & -> & Hcmd & Hst & Hsa' & Haw')].
  - left. rewrite Hsame by done. cbn. rewrite app_nil_r. by destruct n.
  - right. exists st'. split.
    + split; cbn; [done|done|]. exists a, a2, (cmds ++ [cmd]), (rs ++ rs2). split_and!; [done| | |done|by rewrite app_assoc].
      * apply Forall2_app; [done|]. by constructor.
      * rewrite app_assoc. by eapply apath_snoc.
    + pose proof (left_ticks st msg st' Ht). unfold measure, queued. cbn. rewrite length_app. cbn. lia.
Qed.

Lemma receives_advances st n : inv st n -> advances st n (net_step n PeerReceives).
Proof.
  intros [Hl Hp (a & a' & cmds & rs & Hc & Hw & Hpa & Hsa & Haw)]. cbn [Upload.step].
  destruct (back n) as [|msg bk] eqn:Hb; [by left|right]. unfold peer_moves.
  assert (Hcase : (exists k, st = SWait k /\ msg = PeerFiles.PSendConfirm jid (mkConfirm (Z.of_nat k) (OffsetBlk 0)) /\ bk ++ rs = []) \/
    (st = SEnd /\ msg = PeerFiles.PDone jid (Z.of_nat (length ds)) /\ bk ++ rs = [])).
  { cbn in Haw. remember (msg :: bk ++ rs) as l eqn:El. destruct Haw; simplify_eq/=; [left; by eexists|by right]. }
  destruct Hcase as [(k & -> & -> & [-> ->]%app_eq_nil)|(-> & -> & [-> ->]%app_eq_nil)].
  - destruct (peer_confirm fuel zstd_compress zstd_decode digest_json parse_digest env fs_s base_s jid fls ds k (peer n) Hp) as (p' & d & Hd & E & Hp').
    rewrite E. cbn. rewrite app_nil_r. inversion Hsa; subst. exists (SSend k d). split.
    + split; cbn; [done|done|]. exists a, (AAsked k), cmds, []. split_and!; [done|done|done|by apply (sa_send k [] d _ (at_asked k))|constructor].
    + unfold measure, queued. cbn. rewrite Hd, Hb. cbn. lia.
  - destruct (peer_done fuel zstd_compress zstd_decode digest_json parse_digest env fs_s base_s jid fls ds (peer n) (Z.of_nat (length ds)) Hp) as (out & -> & Hout).
    rewrite Hout, app_nil_r. exists SEnd. split.
    + split; cbn; [done|done|]. exists a, a', cmds, []. split_and!; [done|done|done|done|constructor].
    + unfold measure, queued. cbn. rewrite Hb. cbn. lia.
Qed.

Lemma session_advances st n h : inv st n -> SessFlow.is_on h SessFlow.ONE_WAY_FILE_TRANSFER = false -> advances st n (net_step n (SessionReceives h)).
Proof.
  intros [Hl Hp (a & a' & cmds & rs & Hc & Hw & Hpa & Hsa & Haw)] Hh. cbn [Upload.step].
  destruct (wire n) as [|m wr] eqn:Hwire; [by left|right]. apply Forall2_cons_inv_l in Hw as (cmd & cmds' & Hm & Hw & ->).
  assert (E1 : SessState.cid (sess n) = cid) by (unfold SessState.cid, SessState.cn; by rewrite Hl).
  assert (E2 : SessDispatch.can_enable_overwrite_detection (sess n) = od).
  { unfold SessDispatch.can_enable_overwrite_detection, SessFlow.version_at_least, SessState.cn. by rewrite Hl. }
  destruct (session_step h m (sess n) cmd (ready_same _ _ Hl Hready) Hh) as (H1 & H2 & H3); [by rewrite E1, E2|].
  destruct (SessMessage.on_message h m (sess n)) as [kp s']. cbn in H1, H2, H3. rewrite H2, H3, app_nil_r. exists st. split.
  - split; cbn; [by rewrite H1|done|]. exists a, a', cmds', rs. split_and!; [done|done|by rewrite <- app_assoc|done|done].
  - unfold measure, queued. cbn. rewrite Hwire, length_app. cbn. lia.
Qed.

Lemma cm_advances st n : inv st n -> advances st n (net_step n CmReceives).
Proof.
  intros [Hl Hp (a & a' & cmds & rs & Hc & Hw & Hpa & Hsa & Haw)]. cbn [Upload.step].
  destruct (ipc n) as [|cmd ic] eqn:Hipc; [by left|right]. inversion Hpa as [|? ? a1 rs1 ? ? rs2 Hst Hpa']; subst.
  assert (Hlen : length ds = length (to_entry <$> named)).
  { unfold named. rewrite !length_fmap. symmetry. by eapply Forall2_length. }
  assert (E1 : SessState.cid (sess n) = cid) by (unfold SessState.cid, SessState.cn; by rewrite Hl).
  destruct (cm_sim home max_files fuel zstd_compress zstd_decode digest_json parse_digest logging cid D base_r rd bq jid named ds od total T0 fs_r) with (a := a) (cmd := cmd) (a' := a1) (rs := rs1) (m := cm n)
    as (m' & out & E & Hc' & Hout); [done|apply named_fits|done| |done|done|].
  { unfold named. by rewrite !length_fmap. }
  unfold cm_moves. rewrite E1, E, Hout. exists st. split.
  - split; cbn; [done|done|]. exists a1, a', cmds, rs2. split_and!; [done|done|done|done|by rewrite <- app_assoc].
  - unfold measure, queued. cbn. rewrite Hipc, length_app. assert (length rs1 <= 1)%nat by (destruct Hst; cbn; lia). cbn. lia.
Qed.

Lemma cm_idle a m : cm_rel a m -> m.(read_jobs) = [].
Proof.
  destruct a; cbn; [by intros ->|by intros (_ & ? & ? & -> & _)|by intros (_ & ? & ? & -> & _)|by intros (? & ? & ? & -> & _)|by intros (? & -> & _)].
Qed.

Lemma move_advances st n m : inv st n -> goes m -> advances st n (net_step n m).
Proof.
  intros Hi Hg. destruct m as [c|reads| |h| |reads]; cbn in Hg; [done|by apply tick_advances|by apply receives_advances|by apply session_advances|by apply cm_advances|].
  left. destruct Hi as [_ _ (a & a' & cmds & rs & Hc & _)]. cbn [Upload.step]. unfold cm_moves. cbn [CmFs.step]. rewrite (cm_idle _ _ Hc). cbn.
  rewrite app_nil_r. by destruct n.
Qed.

(** *** The end *)

(** Nothing is on its way and the sender has nothing left. *)
Definition final (n : Net) : Prop :=
  n.(wire) = [] /\ n.(ipc) = [] /\ n.(back) = [] /\ n.(peer).(PeerFiles.read_jobs) = [].

Lemma list_tail_neq {A} (x : A) l : l <> x :: l.
Proof. intros E%(f_equal length). cbn in E. lia. Qed.

Lemma progress st n h : inv st n -> SessFlow.is_on h SessFlow.ONE_WAY_FILE_TRANSFER = false -> final n \/ exists m, goes m /\ net_step n m <> n.
Proof.
  intros [Hl Hp (a & a' & cmds & rs & Hc & Hw & Hpa & Hsa & Haw)] Hh.
  destruct (wire n) as [|m wr] eqn:Hwire.
  2:{ right. exists (SessionReceives h). split; [done|]. cbn [Upload.step]. rewrite Hwire. destruct (SessMessage.on_message h m (sess n)) as [kp s'].
      intros E%(f_equal wire). cbn in E. rewrite Hwire in E. by apply list_tail_neq in E. }
  destruct (ipc n) as [|cmd ic] eqn:Hipc.
  2:{ right. exists CmReceives. split; [done|]. cbn [Upload.step]. rewrite Hipc. unfold cm_moves. destruct (CmFs.step _ _ _ _ _ _ _ _ _ _ _) as [m' out].
      intros E%(f_equal ipc). cbn in E. rewrite Hipc in E. by apply list_tail_neq in E. }
  destruct (back n) as [|msg bk] eqn:Hback.
  2:{ right. exists PeerReceives. split; [done|]. cbn [Upload.step]. rewrite Hback. unfold peer_moves. destruct (PeerFiles.step _ _ _ _ _ _ _ _) as [p' out].
      intros E%(f_equal back). cbn in E. rewrite Hback in E. by apply list_tail_neq in E. }
  inversion Hw; subst. inversion Hpa; subst. destruct (PeerFiles.read_jobs (peer n)) as [|j js] eqn:Hj; [by left|right].
  exists (PeerTick []). split; [by constructor|].
  destruct (peer_tick fuel zstd_compress zstd_decode digest_json parse_digest env fs_s base_s jid fls ds Hread Hmax st (peer n) [] Hp ltac:(by constructor))
    as (p' & out & st' & E & Ht & Hp' & Hsame).
  cbn [Upload.step]. unfold peer_moves. rewrite E. intros En%(f_equal wire). cbn in En. rewrite Hwire in En. cbn in En.
  destruct (tick_astep st out st' a' _ Ht Hsa Haw) as [[-> ->]|(msg & cmd & a2 & rs2 & -> & _)]; [|done].
  inversion Ht; subst; [inversion Haw|]. destruct Hp as (_ & _ & _ & Hp). cbn in Hp. congruence.
Qed.

Lemma at_end st n : inv st n -> final n ->
  n.(peer).(PeerFiles.pf_fs) = fs_s /\ exists fs, n.(cm) = mkCm fs [] [] /\ shows D rd fs (finished bq T0 (to_entry <$> named) ds).
Proof.
  intros [Hl Hp (a & a' & cmds & rs & Hc & Hw & Hpa & Hsa & Haw)] (H1 & H2 & H3 & H4).
  rewrite H1 in Hw. inversion Hw; subst. rewrite H2 in Hpa. inversion Hpa; subst. destruct Hp as (Hf & _ & _ & Hj). split; [done|].
  rewrite H4 in Hj. inversion Hsa; subst; cbn in Hj; try (by repeat destruct Hj as [? Hj]).
  destruct Hc as (fs & -> & Hs). exists fs. split; [done|]. unfold after in Hs.
  rewrite !take_ge in Hs; [done|done|]. unfold named. rewrite !length_fmap, (Forall2_length _ _ _ Hread). done.
Qed.

(** What is there then. *)
Lemma arrived fs : shows D rd fs (finished bq T0 (to_entry <$> named) ds) ->
  (forall k e d, fls !! k = Some e -> ds !! k = Some d -> metadata fs (job_join base_r e.(name)) = Ok (mkInode d e.(modified_time))) /\
  (forall e p, e ∈ fls -> p ∈ dirs_to (dir bq e) -> entry_at rd fs p = Some EDir) /\
  (forall p, p <> [] -> p ∉ (place bq <$> fls) -> p ∉ concat (dirs_to <$> (dir bq <$> fls)) -> entry_at rd fs p = T0 !! p).
Proof.
  intros Hs. pose proof named_fits as Hf. assert (Hlen : length (to_entry <$> named) = length ds).
  { unfold named. rewrite !length_fmap. by eapply Forall2_length. }
  split_and!.
  - intros k e d He Hd. apply (finished_at D base_r rd bq fs T0 (to_entry <$> named) ds k (to_entry (e.(name), e.(modified_time)))); try done.
    unfold named. by rewrite !list_lookup_fmap, He.
  - intros e p He Hp. rewrite (sh_entry _ _ _ _ Hs) by (by apply elem_dirs_to in Hp as [? _]).
    apply (finished_dirs D base_r bq T0 _ ds (to_entry (e.(name), e.(modified_time)))); try done.
    unfold named. apply list_elem_of_fmap. exists (e.(name), e.(modified_time)). split; [done|]. apply list_elem_of_fmap. by exists e.
  - intros p Hp H1 H2. rewrite (sh_entry _ _ _ _ Hs) by done. apply finished_other.
    + by rewrite (named_names (loc bq) : place bq <$> _ = _).
    + by rewrite (named_names (fun x => removelast (loc bq x)) : dir bq <$> _ = _).
Qed.

(** *** Runs *)

Abbreviation net_run := (Upload.run home max_files fuel zstd_compress zstd_decode digest_json parse_digest logging err_text env).

(** Every move does something. *)
Fixpoint moving (n : Net) (ms : list Move) : Prop :=
  match ms with [] => True | m :: ms => net_step n m <> n /\ moving (net_step n m) ms end.

Lemma upload_run_inv ms : forall st n, inv st n -> Forall goes ms -> exists st', inv st' (net_run n ms) /\
  (moving n ms -> (length ms + measure st' (net_run n ms) <= measure st n)%nat).
Proof.
  induction ms as [|m ms IH]; intros st n Hi Hg; [by exists st|]. apply Forall_cons in Hg as [Hm Hg].
  destruct (move_advances st n m Hi Hm) as [E|(st1 & Hi1 & Hlt)].
  - destruct (IH st n Hi Hg) as (st2 & Hi2 & _). exists st2. unfold Upload.run in *. cbn [foldl]. rewrite E. split; [done|]. by intros [Hne _].
  - destruct (IH st1 _ Hi1 Hg) as (st2 & Hi2 & Hle). exists st2. split; [done|]. intros [_ Hmv]. specialize (Hle Hmv). cbn [length]. unfold Upload.run in *. cbn [foldl]. lia.
Qed.

(** The user's command. *)
Lemma upload_start_inv path hidden n0 job :
  n0 = mkNet (PeerFiles.mkPf fs_s [] [] ∅) [] s0 [] (mkCm fs_r [] []) [] -> base_s = path ->
  PeerFiles.can_enable_overwrite_detection env = true -> Walk.new_read fuel fs_s jid Generic (FilePath path) 0 hidden true = Ok job ->
  fls = job.(files) -> total = job.(total_size) ->
  let n := net_step n0 (PeerCommand (PeerFiles.SendFiles jid Generic path base_r 0 hidden false)) in
  inv (SIdle 0) n /\ measure (SIdle 0) n = (4 * left_from ds + 3)%nat.
Proof.
  intros -> Hb Hod Hn Hf Htot. cbn zeta. cbn [Upload.step]. unfold peer_moves. cbn [PeerFiles.step PeerFiles.handle_command PeerFiles.send_files peer].
  unfold PeerFiles.new_read_job. cbn [PeerFiles.pf_fs]. rewrite Hod, Hn. cbn. split; [|unfold measure, queued; cbn; rewrite drop_0; lia].
  unfold Walk.new_read in Hn. destruct (Walk.get_recursive_files fuel fs_s path hidden) as [fl|]; [|done]. cbn [rbind] in Hn. injection Hn as <-. cbn in Hf, Htot.
  split; [done| |].
  - refine (conj eq_refl (conj eq_refl (conj eq_refl _))). eexists. split_and!; [done|by split; cbn; rewrite ?Hb|lia|done|done|done].
  - exists ANew, (AIdle 0), [NewWrite base_r jid 0 named od total cid], []. split_and!; [done| | |constructor|constructor].
    + cbn. unfold named. rewrite Hf, Htot. by repeat constructor.
    + apply (apath_snoc _ _ _ _ _ _ _ _ ANew [] ANew [] _ (AIdle 0) []); constructor.
Qed.

End System.

(** *** The claim *)

(** C8: an upload arrives.  The user sends a single file, or a directory with the files in its
    subdirectories, with a controlling side that asks before it overwrites, through an authorized
    file-transfer session.  The target and the directories on the way need not be there yet: [D] is
    a directory above it that is, with no links below it, and the files fit ([fits]: tidy names,
    which and whose temporary names are free, with no file where a directory is needed).  From then
    on the timer and the receiver of the controlling side, the session and the connection manager
    move in any order, their reads and writes succeed, and no other command is given.  Every run in
    which each move does something is bounded by the number of blocks; while the upload is not over
    some part can move; and when it is over every file is at the target with the sender's contents
    and time, the directories on the way to it are there, everything else below [D] is as it was,
    no job is left, and the sender's disk is untouched. *)
Theorem upload_arrives {L : LoginState.Libraries} (home : string) (max_files : Z) (fuel : nat)
    (zstd_compress zstd_decode : list Z -> option (list Z)) (digest_json : FileDigest -> list Z) (parse_digest : list Z -> option FileDigest)
    (logging : bool) (err_text : JobErr -> string) (env : PeerFiles.Env) (fs_s fs_r : Fs) (path D base_r : string) (rd bq : rpath)
    (jid : Z) (hidden : bool) (job : TransferJob) (contents : list (list Z)) (T0 : gmap rpath Entry) (s0 : SessState.Sess)
    (ms : list Move) (h : SessState.Host) :
  (forall c, zlen c <= BUF_SIZE -> exists z, zstd_compress c = Some z /\ zstd_decode z = Some c) ->
  ready s0 -> PeerFiles.can_enable_overwrite_detection env = true -> SessFlow.is_on h SessFlow.ONE_WAY_FILE_TRANSFER = false ->
  Walk.new_read fuel fs_s jid Generic (FilePath path) 0 hidden true = Ok job ->
  Forall2 (readable fs_s path) job.(files) contents -> zlen job.(files) < 2 ^ 31 - 1 ->
  shows D rd fs_r T0 -> fits D base_r bq T0 job.(files) ->
  Forall goes ms ->
  let step := Upload.step home max_files fuel zstd_compress zstd_decode digest_json parse_digest logging err_text env in
  let run := Upload.run home max_files fuel zstd_compress zstd_decode digest_json parse_digest logging err_text env in
  let idle := mkNet (PeerFiles.mkPf fs_s [] [] ∅) [] s0 [] (mkCm fs_r [] []) [] in
  let sent := step idle (PeerCommand (PeerFiles.SendFiles jid Generic path base_r 0 hidden false)) in
  let n := run sent ms in
  (moving home max_files fuel zstd_compress zstd_decode digest_json parse_digest logging err_text env sent ms ->
    (length ms <= 4 * left_from contents + 3)%nat) /\
  (final n \/ exists m, goes m /\ step n m <> n) /\
  (final n -> n.(peer).(PeerFiles.pf_fs) = fs_s /\ n.(cm).(write_jobs) = [] /\ n.(cm).(read_jobs) = [] /\
    (forall k e d, job.(files) !! k = Some e -> contents !! k = Some d ->
       metadata n.(cm).(cm_fs) (job_join base_r e.(name)) = Ok (mkInode d e.(modified_time))) /\
    (forall e p, e ∈ job.(files) -> p ∈ dirs_to (dir bq e) -> entry_at rd n.(cm).(cm_fs) p = Some EDir) /\
    (forall p, p <> [] -> p ∉ (place bq <$> job.(files)) -> p ∉ concat (dirs_to <$> (dir bq <$> job.(files))) ->
       entry_at rd n.(cm).(cm_fs) p = T0 !! p)).
Proof.
  intros Hz Hs0 Hod Hh Hn Hread Hmax Hshow Hfits Hms step run idle sent n.
  destruct (upload_start_inv home max_files fuel zstd_compress zstd_decode digest_json parse_digest logging err_text env fs_s fs_r path D base_r rd bq
    jid job.(files) contents job.(total_size) T0 s0 path hidden idle job) as [Hi Hm]; try done.
  destruct (upload_run_inv home max_files fuel zstd_compress zstd_decode digest_json parse_digest logging err_text env fs_s fs_r path D base_r rd bq
    jid job.(files) contents job.(total_size) T0 s0) with (ms := ms) (st := SIdle 0) (n := sent) as (st & Hin & Hlen); try done.
  split_and!.
  - intros Hmv. specialize (Hlen Hmv). subst sent step. rewrite Hm in Hlen. lia.
  - eapply (progress home max_files fuel zstd_compress zstd_decode digest_json parse_digest logging err_text env fs_s fs_r path D base_r rd bq
      jid job.(files) contents job.(total_size) T0 s0); done.
  - intros Hf. destruct (at_end zstd_decode fs_s fs_r path D base_r rd bq jid job.(files) contents job.(total_size) T0 s0 Hread st n Hin Hf) as (Hp & fs & Hcm & Hs).
    subst n. rewrite Hcm. do 3 (split; [done|]). by eapply arrived.
Qed.

(** A directory with a file and another in a subdirectory, to a target that is not there yet, and
    a single file, through the session of a login for file transfer. *)
Definition toy_env : PeerFiles.Env := PeerFiles.mkEnv true false false (fun _ => "/") 0.
Definition toy_sess : SessState.Sess := SessTheorems.step1 SessTheorems.toy_session (SessRun.EvMessage SessTheorems.toy_host (Msgs.MLogin SessTheorems.toy_files)).
Definition toy_round : list Move := [PeerTick []; SessionReceives SessTheorems.toy_host; CmReceives; PeerReceives].
Definition toy_moves : list Move := concat (replicate 9 toy_round).
Definition toy_tree : list FileEntry := [mkEntry Names.File "d/b" false 2 6; mkEntry Names.File "a" false 1 5]%string.
Definition toy_single : list FileEntry := [mkEntry Names.File "" false 2 6].
Definition toy_upload (path to : string) : Net :=
  @Upload.run LoginRun.toy "/" 10 4 Some Some (fun _ => []) (fun _ => None) true (fun _ => "") toy_env
    (@Upload.step LoginRun.toy "/" 10 4 Some Some (fun _ => []) (fun _ => None) true (fun _ => "") toy_env
      (mkNet (PeerFiles.mkPf WalkFacts.walk_fs [] [] ∅) [] toy_sess [] (mkCm dst_fs [] []) [])
      (PeerCommand (PeerFiles.SendFiles 4 Generic path to 0 false false))) toy_moves.

Lemma toy_readable : Forall2 (readable WalkFacts.walk_fs "/src") toy_tree [[3; 4]; [1]].
Proof.
  repeat constructor.
  - exists (mkH 2 0 MRead), (mkInode [3; 4] 6). by split_and!; vm_compute.
  - exists (mkH 0 0 MRead), (mkInode [1] 5). by split_and!; vm_compute.
Qed.
Lemma single_readable : Forall2 (readable WalkFacts.walk_fs "/src/d/b") toy_single [[3; 4]].
Proof. repeat constructor. exists (mkH 2 0 MRead), (mkInode [3; 4] 6). by split_and!; vm_compute. Qed.

Lemma toy_ready : ready toy_sess.
Proof. split; [by vm_compute|by vm_compute|eexists; by vm_compute|by vm_compute]. Qed.

Ltac by_deciding := apply (bool_decide_unpack _); by vm_compute.
Ltac toy_target := split; [by_deciding|split; [by_deciding|done]|done|done].

Lemma toy_fits : fits "/dst" "/dst/new" ["new"]%string ∅ toy_tree.
Proof. split; [repeat (apply Forall_cons_2; [toy_target|]); constructor|by_deciding..]. Qed.
Lemma single_fits : fits "/dst" "/dst/c" ["c"]%string ∅ toy_single.
Proof. split; [repeat (apply Forall_cons_2; [toy_target|]); constructor|by_deciding..]. Qed.

Lemma upload_arrives_witness :
  (let n := toy_upload "/src" "/dst/new" in
   final n /\ metadata n.(cm).(cm_fs) (join "/dst/new" "d/b") = Ok (mkInode [3; 4] 6) /\ entry_at ["dst"]%string n.(cm).(cm_fs) ["new"; "d"]%string = Some EDir /\
   entry_at ["dst"]%string n.(cm).(cm_fs) ["new"; "a.digest"]%string = None) /\
  (let n := toy_upload "/src/d/b" "/dst/c" in
   final n /\ metadata n.(cm).(cm_fs) "/dst/c" = Ok (mkInode [3; 4] 6)).
Proof.
  split.
  - cbv zeta. unfold toy_upload. match goal with |- final ?n /\ _ => assert (Hf : final n) by (split_and!; by vm_compute) end. split; [exact Hf|].
    destruct (@upload_arrives LoginRun.toy "/" 10 4 Some Some (fun _ => []) (fun _ => None) true (fun _ => "") toy_env WalkFacts.walk_fs dst_fs "/src" "/dst" "/dst/new"
      ["dst"]%string ["new"]%string 4 false (new_job 4 Generic (FilePath "/src") 0 toy_tree 3 true) [[3; 4]; [1]] ∅ toy_sess toy_moves SessTheorems.toy_host) as (_ & _ & H);
      [intros c _; by exists c|apply toy_ready|reflexivity|reflexivity|by vm_compute|apply toy_readable|reflexivity|apply dst_shows|apply toy_fits|repeat constructor|].
    destruct (H Hf) as (_ & _ & _ & H1 & H2 & H3). split_and!.
    + apply (H1 0%nat (mkEntry Names.File "d/b" false 2 6) [3; 4]); reflexivity.
    + apply (H2 (mkEntry Names.File "d/b" false 2 6)); [by left|by_deciding].
    + apply (H3 ["new"; "a.digest"]%string); [done|by_deciding|by_deciding].
  - cbv zeta. unfold toy_upload. match goal with |- final ?n /\ _ => assert (Hf : final n) by (split_and!; by vm_compute) end. split; [exact Hf|].
    destruct (@upload_arrives LoginRun.toy "/" 10 4 Some Some (fun _ => []) (fun _ => None) true (fun _ => "") toy_env WalkFacts.walk_fs dst_fs "/src/d/b" "/dst" "/dst/c"
      ["dst"]%string ["c"]%string 4 false (new_job 4 Generic (FilePath "/src/d/b") 0 toy_single 2 true) [[3; 4]] ∅ toy_sess toy_moves SessTheorems.toy_host) as (_ & _ & H);
      [intros c _; by exists c|apply toy_ready|reflexivity|reflexivity|by vm_compute|apply single_readable|reflexivity|apply dst_shows|apply single_fits|repeat constructor|].
    destruct (H Hf) as (_ & _ & _ & H1 & _). apply (H1 0%nat (mkEntry Names.File "" false 2 6) [3; 4]); reflexivity.
Defined.

End UploadTheorems.
